(* ===== verification/_CoqProject ===== *)
-Q . S2P
Prelude.v
Text.v
Float64.v
Chrono.v
Decimal.v
Tsdb.v
Model.v
Machine.v
Suppress.v
Silence.v
Matcher.v
Overrides.v
Baseline.v
Group.v
Cycle.v
NotifyPolicy.v
Db.v
PolicyStore.v
Engine.v
RuleBook.v
RulesHosts.v
RulesProxmox.v
RulesApps.v
RulesEstate.v
Rules.v
Wire.v
Relay.v
Scheduler.v
Diff.v
Robots.v
Html.v
Reports.v
RateLimit.v
Bits.v
Totp.v
Handler.v
Commands.v
CommandFacts.v
Agent.v
AgentFacts.v
Accounts.v
ApiToken.v
Auth.v
Targets.v
Guard.v
TargetsFacts.v
Site.v
SiteFacts.v
Watch.v
WatchFacts.v
StatusHost.v
StatusHostFacts.v
StatusPages.v
Subscribers.v
StatusPagesFacts.v
StatusPublic.v
StatusPublicFacts.v
AlertsApi.v
AlertsApiFacts.v
Security.v
SecurityChecks.v
SecurityProviders.v
SecurityFacts.v
Enrolment.v
EnrolmentFacts.v
Login.v
UsersApi.v
TokensApi.v
Oidc.v
Server.v
Effects.v
ServerFacts.v
AccountFacts.v
