(* ===== verification/Prelude.v ===== *)
(** * DumbMonit: a verification library for the monitoring server and its agent

    DumbMonit is a monitoring server written in Rust.  It probes devices, or has them probed
    by agents, or receives what agents push; every thirty seconds its alerting engine asks the
    metrics store the expression of each rule, moves one small state machine per alert, decides
    who is to be told what, and hands messages to notification channels.  Around it are the
    accounts and what guards the interface, the table of devices, the machines with an agent,
    the commands sent to them, the calendars of reports, the watching of web pages, the
    public status pages and the security score.  This library models those parts from the
    sources and proves what makes them correct.  Paths are under [src/crates/server/src], those of the crates [agent] and [proto] under [src/crates].

    ** The parts and how they call each other

    [[
      scheduler.rs  Scheduler ----> collectors/relay.rs  Relay ----> agents
                                                                       |
      api/targets.rs  Targets   api/ingest.rs  Enrolment <--- batches -+  agent/  Agent
            |  devices                | machines                       |
            |                         +--- api/agent_commands.rs  Commands
            v
      engine.rs   run -> tick -> evaluate_once -------------------+-> maintenance
                    |  reads db/alerts.rs, notify/policy_store.rs |
                    v                                             |
      cycle.rs    plan_cycle                                      |
                    |- overrides.rs   effective threshold         |
                    |- baseline.rs    seasonal verdict            |
                    |- machine.rs     advance, one per alert      |
                    |- suppress.rs    is an ancestor down?        |
                    |- silence.rs     is a window open?           |
                    '- group.rs       decide, group               |
                    v                                             |
      notify_policy.rs  plan (with matcher.rs, silence.rs) -------+
                    v
      policy_store.rs  apply_plan; deliveries; record_sent / requeue

      api/  ->  auth/middleware.rs  Guard  ->  Login, UsersApi, TokensApi, Oidc  ->  Accounts, Totp
                                           ->  AlertsApi  ->  Db, PolicyStore

      webchange/   Watch ->  Site (crawl, robots.txt)  ->  Html ;  Diff
      the public -> status_host.rs  StatusHost  ->  Subscribers, StatusPublic  ->  StatusPages
      security/    Security ->  SecurityProviders, SecurityChecks  ->  the metrics store
    ]]

    The files, in the order in which they are built, and what they correspond to.

    Common ground:
    - [Prelude]: notations, the tactics [step_case] and [bools], what the iterators and
      options of Rust do, saturating and wrapping integers, the stable [sort_by] with its
      laws ([CmpPre], [CmpOrder]), and [BTreeMap] as the sorted association list it
      iterates over.
    - [Text]: the methods of [str], on UTF-8 bytes; [Float64]: [f64] as the Standard Library's
      IEEE 754 binary64; [Decimal]: [str::parse::<f64>]; [Chrono]: instants, dates, clocks, and
      the class [Calendar] with its laws [CalendarLaws]; [Bits]: bits and bytes.
    - [Handler]: the monad of a request, a state and an error, with its weakest precondition
      [wp], the tactic [hstep] that walks through a handler, and [ApiError] of [api/error.rs].
    - [Effects]: relations between the states before and after, by which an invariant of
      all the calls is proved call by call.

    Alerting ([alerting/]):
    - [Model] is [model.rs], [Machine] [machine.rs], [Suppress] [suppress.rs], [Silence]
      [silence.rs], [Matcher] [matcher.rs], [Overrides] [overrides.rs], [Baseline]
      [baseline.rs], [Group] [group.rs].
    - [Cycle] is [cycle.rs] with the data of [source.rs]: the whole of [plan_cycle].  The
      mutable vectors and sets of its loop are the record [Loop].
    - [NotifyPolicy] is [notify_policy.rs]: the whole of [plan], its mutable locals being the
      record [Plan] and the keyed queue [Queue].
    - [Db] is [db/alerts.rs]: the tables as one record of finite maps and lists, one function
      per sequence of statements; [PolicyStore] is [notify/policy_store.rs]; [Engine] is
      [engine.rs].
    - [RuleBook], [RulesHosts], [RulesProxmox], [RulesApps], [RulesEstate] and [Rules] are the
      catalogue of built-in rules, [rules.rs], and what seeding it does.
    - [AlertsApi] is [api/alerts.rs], what people ask of the rules, the alerts and the windows,
      each request as one function on the tables of [Db]; [AlertsApiFacts] what holds of it.

    Accounts ([auth/], [api/]):
    - [RateLimit], [Totp], [Accounts], [ApiToken], [Auth], [Guard], [Login], [UsersApi], [Oidc]
      are the files of the same names, [TokensApi] is [api/tokens.rs]; [Server] composes the routes behind their guards;
      [ServerFacts] and [AccountFacts] are the claims about runs of calls.

    Probes and agents:
    - [Wire] is the crate [proto]; [Relay] is [collectors/relay.rs] with [api/relay.rs];
      [Scheduler] is [scheduler.rs].
    - [Commands] is the channel of commands ([collectors/agent/commands.rs], [policy.rs],
      [api/agent_commands.rs]), [CommandFacts] what it guarantees.
    - [Agent] is the crate [agent] ([buffer.rs], [backoff.rs], [client.rs], [run.rs],
      [commands.rs]), [AgentFacts] what it guarantees, alone and with the server.
    - [Targets] is the table of devices and its routes ([db/targets.rs], [api/targets.rs]),
      [TargetsFacts] what holds of it.
    - [Enrolment] is the machines with an agent ([collectors/agent/store.rs], [receive.rs],
      [token.rs], [api/ingest.rs]), built on [Targets], [Commands] and [Agent];
      [EnrolmentFacts] what holds of them.

    Watching web pages ([webchange/]):
    - [Diff] is [diff.rs], [Robots] [robots.rs], [Html] [html.rs]; [Site] is what decides which
      addresses belong to a site and the crawl that reads them ([options.rs], [scope.rs],
      [sitemap.rs], [crawl.rs], and [uptime/guard.rs] of the crate [collectors]); [SiteFacts]
      what holds of it.
    - [Watch] is [mod.rs] with the tables of [store.rs]: a check from its lock to its end, one
      function per statement, so that a check its budget cuts is one of its prefixes;
      [WatchFacts] what holds of it.

    Status pages:
    - [StatusHost] is [status_host.rs], the guard of the domains and its cache, the cache
      as a step relation over the threads that fill and empty it; [StatusHostFacts] what
      holds of it.
    - [StatusPages] is the tables ([db/status_pages.rs]) and what an administrator asks of them
      ([api/status_pages.rs], [branding.rs]); [Subscribers] is [subscribers.rs], and the requests
      and tasks of the status pages as one function, [serve]; [StatusPagesFacts] what holds of
      both.
    - [StatusPublic] is the public document of [api/status_pages.rs] and its cache;
      [StatusPublicFacts] what holds of it.

    Security score ([security/]):
    - [Security] is [mod.rs], [score.rs], [facts.rs] and [api/security.rs]; [SecurityChecks] and
      [SecurityProviders] are the directory [checks], one Module per file, with every definition of a
      check; [SecurityFacts] what holds of them.

    Apart:
    - [Tsdb] is the series the metrics store answers with ([tsdb/mod.rs]).
    - [Reports] is [reports/schedule.rs], the table of [reports/store.rs] and the loop of
      [reports/mod.rs].

    Names are those of the source; a method carries the name of its type first
    ([TargetIndex_new]) or lives in a Module named after it ([Phase.is_active]).  A Rust
    enumeration is a Module with its [Inductive], its decidable equality and its
    [as_str].  A local closure or loop body becomes a definition of its own.  A route whose
    reads and writes other requests may separate is two definitions, the check and the write,
    and their composition.

    ** What the theorems show

    - One alert.  Every reachable state is well formed; the confirmation delay is exact;
      only legal transitions are reported; announcements, reminders, escalations and
      relays do not repeat themselves ([Machine], [Group]).
    - One outage.  The ancestor search is the mathematical "nearest ancestor down" up to
      its depth bound; nobody hears of what stands behind a device that is down, and on
      a filiation without cycles somebody hears of the outage ([Suppress], [Cycle]).
    - One cycle.  One state per fingerprint; a series that goes away resolves its alert, a
      query that fails freezes it, a device that is removed falls silent; one message per
      target carries every line once, in order ([Cycle], [Group]).
    - One window.  What [window_containing] answers is an occurrence of the schedule, on
      a fixed offset it finds every one, and [next_start] is the next opening ([Silence]).
    - One message.  Filters, quiet hours, hourly cap, flap holds, resolutions and relays:
      a safety theorem each about everything [plan] sends or keeps, and the statement
      that every alert presented is settled ([Matcher], [NotifyPolicy]).  What could not
      be delivered leaves at the next cycle ([PolicyStore]).
    - The tables.  The table of alerts follows the cycle, the metrics store going mute
      resolves nothing, the queue keeps one row per channel and alert ([Engine],
      [PolicyStore]); every built-in rule is sound ([Rules]).
    - The requests on the alerts.  Every rule stays one the engine can evaluate, with a
      hysteresis that is one, and a built-in rule its row, whatever is asked; an operator moves
      no threshold; an acknowledgement is bounded and in the name of who asked
      ([AlertsApiFacts]).
    - Signing in.  Whoever is admitted is entitled ([Guard], [ApiToken]); the second factor
      cannot be skipped and wrong codes wear a sign-in out; an administrator remains, the
      tables stay well formed, those of the tokens included ([ServerFacts]); single sign-on takes over no administrator
      ([AccountFacts]); guessing a password is slow and a stranger cannot lock an owner out
      ([RateLimit]); codes and their encodings are those of the RFCs ([Totp]).
    - Probing.  The hub refines a ledger of probes in which each is answered once, within its
      deadline, and a relay writes only its devices ([Relay]); each device keeps its own pace
      whatever the others do ([Scheduler]).
    - Agents.  No measure vanishes but those counted ([AgentFacts]); a command is neither
      doubled nor reopened, and a restart reaches its container, and no other, within as many
      polls as commands wait; neither side touches the monitor itself ([CommandFacts], [AgentFacts]); a machine bound to its agent is not
      impersonated, a token enrols no more machines than it may, an agent once enrolled is
      recognised for as long as its machine is spared and its token accepted ([EnrolmentFacts]).
    - Devices.  Their table stays well formed whatever is asked of it; a stored secret keeps
      the address, type, relay and listed tags it was typed for ([TargetsFacts]).
    - Watching.  A crawl ends, and one that says it is complete has read what the links reach
      ([SiteFacts]); a difference is a shortest script ([Diff]) and the verdict of [robots.txt]
      that of the longest rule ([Robots]); the tables of the watch are consistent after every
      statement, checks never overlap, a page goes only when the site says so and is
      forgotten only when the settings have changed, what is reported is recorded and a site that does not change is silent ([WatchFacts]).
    - Status pages.  Their tables stay consistent whatever is asked; announcements go to
      confirmed addresses only; what a stranger can make the server write is bounded, and the
      answer tells nothing of who is subscribed ([StatusPagesFacts]).  A page answers under its
      domain, where nothing else does, and the cache of the domains forgets what a write has
      changed ([StatusHostFacts], [StatusPagesFacts]).  The word a page opens with hides no
      outage, and each service is shown once ([StatusPublicFacts]).
    - The security score.  It is the weighted share of the checks that pass, without error of
      rounding; what is not known is not counted; fixing never lowers it; the overview says of a
      device what its page says ([SecurityFacts]).
    - Apart.  A report leaves at most once per slot ([Reports]).
    - Where the code does not do what it means to, a theorem says what it does, at the end of
      the file concerned: for instance a relapse that is not announced ([Group]), two
      ascendants that silence each other ([Suppress]), a late resolution that is dropped
      ([PolicyStore]), crossing requests that leave no administrator ([AccountFacts]), that
      send a secret elsewhere ([TargetsFacts]), that exceed a token ([EnrolmentFacts]) or that
      replace a rule ([AlertsApiFacts]).

    ** Bounds and fuel

    - The search of an ancestor carries the source's own bound, [MAX_DEPTH] = 64
      generations, as its structural argument; [first_ancestor_down_is_nearest] says what
      it misses (only ancestors farther than 64).
    - Searches over dates are loops over the explicit list of dates of the source:
      the duration in days plus one backwards in [window_containing], [NEXT_SEARCH_DAYS] =
      400 in [next_start], 63 days in [Reports].
    - The loops of [Diff] run over the source's own [MAX_EDIT_DISTANCE] and lengths.
    - [trim_front] of [Text] and the readers of [Html] have as fuel the length of the text, of
      which each round removes at least one byte.
    - The crawl of [Site] has [ROUNDS] = 1202 rounds, its budget of time over the delay it waits
      between two pages, and two: the budget is spent first ([SiteFacts.crawl_ends]).
    - The numbered key of a service ([free_key] of [StatusPages]) has as fuel the number of keys
      taken and one more, which is enough by counting ([StatusPagesFacts.unique_key_total]).
    - The score is proved exact up to a weight of 60, by computing all the shares: no provider gives
      more, Active Directory apart, whose findings are open.
    - All the other functions are structural.
    - Integers that can overflow keep their width: [u64] in the fingerprint, the settings and
      the counters of the agent, [i64] in the identifiers and saturating sums, [u32] in the
      counters and baselines.  Instants and spans are unbounded: chrono panics some 262 000
      years away.
    - Floats are binary64 with their NaN, infinities and signed zeros; every operation is
      the correctly rounded one.

    ** Parameters

    What is not in the repository is an argument of the definitions: the dates and time
    zones of chrono ([Calendar]; [CalendarLaws] are its documented laws, and
    [Chrono.Gregorian] runs the definitions on the years 2024 to 2027 and on the clock of
    Paris in 2026), hashes, encryption, networks and Unicode lowercasing ([Crates] of [Auth]),
    JSON ([Json] of [Wire] with the laws [JsonLaws], [CredentialJson] of [Targets]), the
    answers of the metrics store ([instant], asked once per rule), the delivery of a message ([deliver]), the wall
    clock read after a failed delivery ([clock]), the environment ([env_var]), reading back the
    JSON of a queued line ([reread]), what the container engine does ([docker]), what the
    collectors and the operating system measure, random draws, URLs, regular expressions and
    XML ([Web] of [Site]), the answers of a site and the time they take ([http], [elapsed],
    [spent]), the resolver of names ([lookup_host]), the order in which a hash map is walked
    ([walked]), the pictures of the browser ([image]), the files of the build ([embedded]),
    the readings of dates and base64, the writing of a float ([display_f64], [FloatDisplay]), whether a mail server takes a message ([smtp_ok]), and
    what the series database answers ([query], [query_range]).  The examples and witnesses
    run on concrete instances of these.  A statement of SQLite without [ORDER BY] is taken to
    answer in the order of the key of its table; a request is served from its first statement
    to its last, but where a theorem on crossing requests says otherwise, and a probe is
    completed in [Relay] in one step with the answer to who waits for it.

    ** What is not modelled

    Errors of SQLite (the statements are taken to succeed), the encrypted secrets of the
    channels, logging and counters of the process, message texts and transports, the
    client of the metrics store and the parsing of its answers, the views the interface
    reads, the collectors, the discovery of devices, the deletion of series, of files and
    of the commands of a deleted device, the configuration and the measures of the agent, the pictures of watched pages and the
    redirections of their HTTP client, the badges, the feed and the banner of the status
    pages, the demonstration estate, backups, updates and the web pages of the interface. *)
From stdpp Require Export base tactics list gmap strings option pretty.
From Stdlib Require Export ZArith Lia Sorted.
From Stdlib Require Import Ascii.

#[global] Open Scope Z_scope.
#[global] Set Default Proof Using "Type".
#[export] Set Warnings "-clear-no-such-hyp,-deprecated".

(** ** Notations and tactics of the development *)

Declare Scope dumb_scope.
Delimit Scope dumb_scope with dumb.

(** [o ?? d] is Rust's [o.unwrap_or(d)]. *)
Notation "o ?? d" := (default d o) (at level 60, right associativity) : dumb_scope.
#[global] Open Scope dumb_scope.

(** Case analysis on the first [if], [decide] or option match of the goal or of
    a hypothesis, simplifying equations as it goes. *)
Ltac step_case :=
  match goal with
  | |- context [match ?x with _ => _ end] =>
      lazymatch x with context [match _ with _ => _ end] => fail | _ => destruct x eqn:? end
  | H : context [match ?x with _ => _ end] |- _ =>
      lazymatch x with context [match _ with _ => _ end] => fail | _ => destruct x eqn:? end
  end; simplify_eq/=.

(** Turns boolean tests of the context into propositions. *)
Ltac bools :=
  repeat match goal with
  | H : (_ && _)%bool = true |- _ => apply andb_true_iff in H as [? ?]
  | H : (_ || _)%bool = false |- _ => apply orb_false_iff in H as [? ?]
  | H : negb _ = true |- _ => apply negb_true_iff in H
  | H : negb _ = false |- _ => apply negb_false_iff in H
  | H : (_ <? _) = true |- _ => apply Z.ltb_lt in H
  | H : (_ <? _) = false |- _ => apply Z.ltb_ge in H
  | H : (_ <=? _) = true |- _ => apply Z.leb_le in H
  | H : (_ <=? _) = false |- _ => apply Z.leb_gt in H
  | H : (_ =? _) = true |- _ => apply Z.eqb_eq in H
  | H : (_ =? _) = false |- _ => apply Z.eqb_neq in H
  | H : bool_decide _ = true |- _ => apply bool_decide_eq_true in H
  | H : bool_decide _ = false |- _ => apply bool_decide_eq_false in H
  end.

(** [Option::filter] and [Option::is_some_and]. *)
Definition option_filter {A} (p : A -> bool) (o : option A) : option A :=
  match o with Some x => if p x then Some x else None | None => None end.
Definition is_some_and {A} (o : option A) (p : A -> bool) : bool :=
  match o with Some x => p x | None => false end.

(** [Iterator::find_map]. *)
Fixpoint find_map {A B} (f : A -> option B) (l : list A) : option B :=
  match l with
  | [] => None
  | x :: l' => match f x with Some y => Some y | None => find_map f l' end
  end.

Lemma find_map_Some {A B} (f : A -> option B) l y :
  find_map f l = Some y ->
  exists l1 x l2, l = l1 ++ x :: l2 /\ f x = Some y /\ forall z, z ∈ l1 -> f z = None.
Proof.
  induction l as [|x l IH]; simpl; [done|].
  destruct (f x) as [y'|] eqn:E.
  - intros [= ->]. exists [], x, l. split_and!; [done..|]. by intros z ?%elem_of_nil.
  - intros (l1 & x' & l2 & -> & ? & Hl1)%IH. exists (x :: l1), x', l2.
    split_and!; [done..|]. intros z [->|?]%elem_of_cons; auto.
Qed.

Lemma find_map_None {A B} (f : A -> option B) l :
  find_map f l = None <-> forall x, x ∈ l -> f x = None.
Proof.
  induction l as [|x l IH]; simpl; [by split; [intros _ ? ?%elem_of_nil|]|].
  setoid_rewrite elem_of_cons. destruct (f x) eqn:E; [|rewrite IH]; naive_solver.
Qed.

Lemma find_map_is_Some {A B} (f : A -> option B) l :
  is_Some (find_map f l) <-> exists x, x ∈ l /\ is_Some (f x).
Proof.
  split.
  - intros [y (l1 & x & l2 & -> & ? & _)%find_map_Some]. exists x. split; [set_solver|eauto].
  - intros (x & Hx & [y Hy]). destruct (find_map f l) eqn:E; [done|].
    rewrite find_map_None in E. rewrite E in Hy; done.
Qed.

Lemma existsb_elem {A} (p : A -> bool) l : existsb p l = true <-> exists x, x ∈ l /\ p x = true.
Proof. rewrite existsb_exists. by setoid_rewrite list_elem_of_In. Qed.

Lemma forallb_elem {A} (p : A -> bool) l : forallb p l = true <-> forall x, x ∈ l -> p x = true.
Proof. rewrite forallb_forall. by setoid_rewrite list_elem_of_In. Qed.

Lemma filter_all {A} (P : A -> Prop) `{!∀ x, Decision (P x)} (l : list A) :
  (forall x, x ∈ l -> P x) -> filter P l = l.
Proof.
  induction l as [|x l IH]; intros Hl; [done|]. rewrite filter_cons, decide_True by (apply Hl; left).
  f_equal. apply IH. intros y Hy. apply Hl. by right.
Qed.

Lemma elem_of_concat {A} (x : A) ls : x ∈ concat ls <-> exists l, l ∈ ls /\ x ∈ l.
Proof. rewrite list_elem_of_In, in_concat. by setoid_rewrite list_elem_of_In. Qed.

(** Loops keep what each of their rounds keeps. *)
Lemma foldl_invariant {A B} (P : B -> Prop) (f : B -> A -> B) l b :
  P b -> (forall b x, x ∈ l -> P b -> P (f b x)) -> P (foldl f b l).
Proof.
  revert b. induction l as [|x l IH]; intros b Hb Hf; simpl; [done|].
  apply IH; [apply Hf; [by left|done]|]. intros; apply Hf; [by right|done].
Qed.

Lemma NoDup_snoc {A} (l : list A) x : x ∉ l -> NoDup l -> NoDup (l ++ [x]).
Proof.
  intros Hx Hl. apply NoDup_app. split_and!; [done| |apply NoDup_singleton].
  intros y Hy ->%list_elem_of_singleton. done.
Qed.

(** What is selected of a sorted list is sorted. *)
Lemma sorted_fmap_filter {A} (R : Z -> Z -> Prop) (g : A -> Z) (P : A -> Prop) `{!∀ x, Decision (P x)} (l : list A) :
  StronglySorted R (g <$> l) -> StronglySorted R (g <$> filter P l).
Proof.
  induction l as [|x l IH]; [done|]. rewrite fmap_cons, filter_cons. intros [Hs Ha]%StronglySorted_inv.
  destruct (decide (P x)); [|by apply IH]. rewrite fmap_cons. constructor; [by apply IH|].
  apply Forall_forall. intros z (y & -> & [_ Hy]%list_elem_of_filter)%list_elem_of_fmap.
  rewrite Forall_forall in Ha. by apply Ha, list_elem_of_fmap_2.
Qed.

Lemma filter_none {A} (P : A -> Prop) `{!∀ x, Decision (P x)} (l : list A) :
  (forall x, x ∈ l -> ~ P x) -> filter P l = [].
Proof.
  induction l as [|x l IH]; intros Hl; [done|].
  rewrite filter_cons_False by (apply Hl; left). apply IH. intros y Hy. apply Hl. by right.
Qed.

(** ** Machine integers *)

Definition u32_max : Z := 2 ^ 32 - 1.
Definition i64_min : Z := - 2 ^ 63.
Definition i64_max : Z := 2 ^ 63 - 1.

Definition u32_saturating_add (a b : Z) : Z := Z.min (a + b) u32_max.
Definition u64_saturating_add (a b : Z) : Z := Z.min (a + b) (2 ^ 64 - 1).
Definition u64_wrap (a : Z) : Z := a mod 2 ^ 64.

(** [u as i64] of an unsigned 64-bit number. *)
Definition as_i64 (z : Z) : Z := (z + 2 ^ 63) mod 2 ^ 64 - 2 ^ 63.

Lemma as_i64_small z : 0 <= z <= i64_max -> as_i64 z = z.
Proof. unfold as_i64, i64_max. intros H. rewrite Z.mod_small; lia. Qed.

(** ** Orders and stable sorting

    Rust's [slice::sort_by] is stable; [sort_by] below is the stable insertion
    sort, and its three characteristic facts pin the result down. *)

Definition then_with (c d : comparison) : comparison :=
  match c with Eq => d | _ => c end.

Section SortBy.
Context {A : Type} (cmp : A -> A -> comparison).

Fixpoint insert_by (x : A) (l : list A) : list A :=
  match l with
  | [] => [x]
  | y :: l' => match cmp x y with Gt => y :: insert_by x l' | _ => x :: l end
  end.

Fixpoint sort_by (l : list A) : list A :=
  match l with
  | [] => []
  | x :: l' => insert_by x (sort_by l')
  end.

Definition le_by (x y : A) : Prop := cmp x y <> Gt.

Lemma insert_by_perm x l : insert_by x l ≡ₚ x :: l.
Proof.
  induction l as [|y l IH]; simpl; [done|].
  destruct (cmp x y); [done..|]. rewrite IH. apply Permutation_swap.
Qed.

Lemma sort_by_perm l : sort_by l ≡ₚ l.
Proof. induction l as [|x l IH]; simpl; [done|]. by rewrite insert_by_perm, IH. Qed.

Lemma elem_of_sort_by x l : x ∈ sort_by l <-> x ∈ l.
Proof. by rewrite sort_by_perm. Qed.

Lemma length_sort_by l : length (sort_by l) = length l.
Proof. by rewrite sort_by_perm. Qed.

(** Elements that are pairwise in order keep their relative position. *)
Lemma filter_insert_by_in (P : A -> Prop) `{!∀ x, Decision (P x)} x l :
  P x -> (forall y, y ∈ l -> P y -> le_by x y) ->
  filter P (insert_by x l) = x :: filter P l.
Proof.
  intros Hx. induction l as [|y l IH]; simpl; intros Hl.
  - by rewrite filter_cons_True, filter_nil.
  - destruct (cmp x y) eqn:E; [by rewrite filter_cons_True..|].
    rewrite !filter_cons. destruct (decide (P y)) as [Hy|Hy].
    + exfalso. apply (Hl y); [by left|done|done].
    + apply IH. intros z Hz. apply Hl. by right.
Qed.

Lemma filter_insert_by_out (P : A -> Prop) `{!∀ x, Decision (P x)} x l :
  ~ P x -> filter P (insert_by x l) = filter P l.
Proof.
  intros Hx. induction l as [|y l IH]; simpl.
  - by rewrite filter_cons_False.
  - destruct (cmp x y) eqn:E; [by rewrite filter_cons_False..|].
    rewrite !filter_cons, IH. done.
Qed.

Lemma sort_by_stable (P : A -> Prop) `{!∀ x, Decision (P x)} l :
  (forall x y, P x -> P y -> le_by x y) -> filter P (sort_by l) = filter P l.
Proof.
  intros HP. induction l as [|x l IH]; simpl; [done|].
  destruct (decide (P x)) as [Hx|Hx].
  - rewrite filter_insert_by_in by auto. by rewrite filter_cons_True, IH.
  - rewrite filter_insert_by_out by done. by rewrite filter_cons_False, IH.
Qed.

End SortBy.

(** A three-way comparison that is a total preorder, and one that is an order. *)
Class CmpPre {A} (cmp : A -> A -> comparison) : Prop := {
  cmp_opp : forall x y, cmp y x = CompOpp (cmp x y);
  cmp_le_trans : forall x y z, le_by cmp x y -> le_by cmp y z -> le_by cmp x z;
}.

Class CmpOrder {A} (cmp : A -> A -> comparison) : Prop := {
  cmp_order_pre :: CmpPre cmp;
  cmp_eq : forall x y, cmp x y = Eq -> x = y;
}.

#[export] Hint Mode CmpPre - ! : typeclass_instances.
#[export] Hint Mode CmpOrder - ! : typeclass_instances.

Section CmpPre.
Context {A : Type} (cmp : A -> A -> comparison) `{!CmpPre cmp}.

Lemma cmp_refl x : cmp x x = Eq.
Proof using Type*. pose proof (cmp_opp (cmp := cmp) x x). by destruct (cmp x x). Qed.

Lemma le_by_refl x : le_by cmp x x.
Proof using Type*. unfold le_by. by rewrite cmp_refl. Qed.

Lemma le_by_total x y : cmp x y = Gt -> le_by cmp y x.
Proof using Type*. unfold le_by. rewrite (cmp_opp (cmp := cmp) x y). by intros ->. Qed.

Lemma le_by_antisym x y : le_by cmp x y -> le_by cmp y x -> cmp x y = Eq.
Proof using Type*. unfold le_by. rewrite (cmp_opp (cmp := cmp) x y). by destruct (cmp x y). Qed.

Lemma insert_by_sorted x l :
  StronglySorted (le_by cmp) l -> StronglySorted (le_by cmp) (insert_by cmp x l).
Proof using Type*.
  induction l as [|y l IH]; simpl; intros Hs; [by repeat constructor|].
  apply StronglySorted_inv in Hs as [Hs Hall].
  destruct (cmp x y) eqn:E.
  1,2: constructor; [by constructor|]; constructor; [by unfold le_by; rewrite E|];
    eapply Forall_impl; [done|]; intros z Hz; eapply cmp_le_trans; [|done];
    unfold le_by; by rewrite E.
  constructor; [by apply IH|]. rewrite insert_by_perm. constructor; [|done].
  by apply le_by_total.
Qed.

Lemma sort_by_sorted l : StronglySorted (le_by cmp) (sort_by cmp l).
Proof using Type*.
  induction l as [|x l IH]; simpl; [constructor|]. by apply insert_by_sorted.
Qed.
End CmpPre.

(** Comparisons are combined the way [then_with] and key functions combine them. *)
Definition cmp_on {A B} (f : A -> B) (cmp : B -> B -> comparison) (x y : A) : comparison :=
  cmp (f x) (f y).
Definition cmp_rev {A} (cmp : A -> A -> comparison) (x y : A) : comparison := cmp y x.
Definition cmp_then {A} (c d : A -> A -> comparison) (x y : A) : comparison :=
  then_with (c x y) (d x y).

#[global] Typeclasses Opaque cmp_on cmp_rev cmp_then.

#[export] Instance cmp_on_pre {A B} (f : A -> B) cmp `{!CmpPre cmp} : CmpPre (cmp_on f cmp).
Proof. split; unfold cmp_on, le_by; intros; [apply cmp_opp | by eapply cmp_le_trans]. Qed.

#[export] Instance cmp_rev_pre {A} (cmp : A -> A -> comparison) `{!CmpPre cmp} :
  CmpPre (cmp_rev cmp).
Proof.
  split; unfold cmp_rev, le_by; intros; [apply cmp_opp | by eapply (cmp_le_trans z y x)].
Qed.

#[export] Instance cmp_then_pre {A} (c d : A -> A -> comparison) `{!CmpPre c, !CmpPre d} :
  CmpPre (cmp_then c d).
Proof.
  split; unfold cmp_then.
  - intros x y. rewrite (cmp_opp (cmp := c) x y), (cmp_opp (cmp := d) x y).
    by destruct (c x y).
  - intros x y z. unfold le_by.
    pose proof (cmp_le_trans (cmp := c) x y z) as T1.
    pose proof (cmp_le_trans (cmp := c) z x y) as T2.
    pose proof (cmp_le_trans (cmp := c) y z x) as T3.
    pose proof (cmp_le_trans (cmp := d) x y z) as T4.
    unfold le_by in *.
    rewrite (cmp_opp (cmp := c) x z) in T2, T3. rewrite (cmp_opp (cmp := c) y z) in T2.
    rewrite (cmp_opp (cmp := c) x y) in T3.
    destruct (c x y), (c y z), (c x z); naive_solver.
Qed.

#[export] Instance Z_compare_order : CmpOrder Z.compare.
Proof.
  split; [split|].
  - intros. apply Z.compare_antisym.
  - unfold le_by. intros x y z. apply Z.le_trans.
  - apply Z.compare_eq.
Qed.

Definition option_cmp {A} (cmp : A -> A -> comparison) (x y : option A) : comparison :=
  match x, y with
  | None, None => Eq
  | None, Some _ => Lt
  | Some _, None => Gt
  | Some a, Some b => cmp a b
  end.

#[export] Instance option_cmp_order {A} (cmp : A -> A -> comparison) `{!CmpOrder cmp} :
  CmpOrder (option_cmp cmp).
Proof.
  split; [split|].
  - intros [] []; simpl; [apply cmp_opp|done..].
  - unfold le_by. intros [x|] [y|] [z|]; simpl; try done. apply cmp_le_trans.
  - intros [] []; simpl; [intros ->%cmp_eq|..]; done.
Qed.

(** Byte strings compare bytewise, as Rust's [str] does. *)
Fixpoint string_cmp (s t : string) : comparison :=
  match s, t with
  | EmptyString, EmptyString => Eq
  | EmptyString, String _ _ => Lt
  | String _ _, EmptyString => Gt
  | String a s', String b t' => then_with (N.compare (N_of_ascii a) (N_of_ascii b)) (string_cmp s' t')
  end.

#[export] Instance string_cmp_order : CmpOrder string_cmp.
Proof.
  split; [split|].
  - induction x as [|a x IH]; intros [|b y]; simpl; [done..|].
    rewrite (N.compare_antisym (N_of_ascii a)), IH. by destruct (N.compare _ _).
  - unfold le_by.
    induction x as [|a x IH]; intros [|b y] [|c z]; simpl; try done.
    specialize (IH y z).
    destruct (N.compare_spec (N_of_ascii a) (N_of_ascii b)),
      (N.compare_spec (N_of_ascii b) (N_of_ascii c)),
      (N.compare_spec (N_of_ascii a) (N_of_ascii c)); simpl; try done; try lia; auto.
  - induction x as [|a x IH]; intros [|b y]; simpl; [done..|].
    destruct (N.compare_spec (N_of_ascii a) (N_of_ascii b)) as [E|E|E]; simpl; [|done..].
    intros ->%IH. f_equal. rewrite <-(ascii_N_embedding a), <-(ascii_N_embedding b). by f_equal.
Qed.

(** Two sorted permutations of one another that are equal up to the key agree. *)
Lemma sorted_perm_unique {A} (cmp : A -> A -> comparison) `{!CmpPre cmp} (l k : list A) :
  (forall x y, x ∈ l -> y ∈ l -> cmp x y = Eq -> x = y) ->
  StronglySorted (le_by cmp) l -> StronglySorted (le_by cmp) k -> l ≡ₚ k -> l = k.
Proof.
  revert k. induction l as [|x l IH]; intros k Heq Hl Hk Hp.
  { by apply Permutation_nil_l in Hp. }
  destruct k as [|y k]; [by apply Permutation_nil_r in Hp|].
  apply StronglySorted_inv in Hl as [Hl Hxl]. apply StronglySorted_inv in Hk as [Hk Hyk].
  assert (x = y) as <-.
  { rewrite Forall_forall in Hxl, Hyk.
    assert (y ∈ x :: l) as Hy by (rewrite Hp; left).
    assert (x ∈ y :: k) as Hx by (rewrite <-Hp; left).
    apply Heq; [left|done|].
    apply le_by_antisym; [done|..].
    - apply elem_of_cons in Hy as [->|Hy]; [by apply le_by_refl|by apply Hxl].
    - apply elem_of_cons in Hx as [->|Hx]; [by apply le_by_refl|by apply Hyk]. }
  f_equal. apply IH; [|done..|].
  - intros a b Ha Hb. apply Heq; by right.
  - by eapply Permutation_cons_inv.
Qed.

(** ** [BTreeMap]: a finite map read in key order *)

Section BTree.
Context {K V : Type} (cmp : K -> K -> comparison) `{!CmpOrder cmp, Countable K}.

Definition btree_to_list (m : gmap K V) : list (K * V) :=
  sort_by (cmp_on fst cmp) (map_to_list m).

Definition btree_values (m : gmap K V) : list V := snd <$> btree_to_list m.

Lemma elem_of_btree_to_list m k v : (k, v) ∈ btree_to_list m <-> m !! k = Some v.
Proof using Type*. unfold btree_to_list. by rewrite elem_of_sort_by, elem_of_map_to_list. Qed.

Lemma elem_of_btree_values m v : v ∈ btree_values m <-> exists k, m !! k = Some v.
Proof using Type*.
  unfold btree_values. rewrite list_elem_of_fmap. setoid_rewrite <-elem_of_btree_to_list.
  split; [intros [[k w] [-> ?]]; by exists k | intros [k ?]; by exists (k, v)].
Qed.

Lemma btree_to_list_sorted m : StronglySorted (le_by (cmp_on fst cmp)) (btree_to_list m).
Proof using Type*. apply (sort_by_sorted (cmp_on fst cmp)). Qed.

(** Reading a map in order and keeping some entries is reading the filtered map. *)
Lemma btree_to_list_filter (P : K * V -> Prop) `{!∀ x, Decision (P x)} m :
  filter P (btree_to_list m) = btree_to_list (filter P m).
Proof using Type*.
  eapply (sorted_perm_unique (cmp_on fst cmp)).
  - intros [k v] [k' v'] [_ Hx]%list_elem_of_filter [_ Hy]%list_elem_of_filter E.
    unfold cmp_on in E. apply (cmp_eq (cmp := cmp)) in E. simpl in E. subst k'.
    apply elem_of_btree_to_list in Hx, Hy. simpl in *. congruence.
  - generalize (btree_to_list_sorted m).
    induction 1 as [|x l Hl IH Hx]; [constructor|].
    rewrite filter_cons. destruct (decide (P x)); [|done].
    constructor; [done|]. rewrite !Forall_forall in *.
    intros y [_ Hy]%list_elem_of_filter. by apply Hx.
  - apply btree_to_list_sorted.
  - apply NoDup_Permutation.
    + apply NoDup_filter. unfold btree_to_list. rewrite sort_by_perm.
      apply NoDup_map_to_list.
    + unfold btree_to_list. rewrite sort_by_perm. apply NoDup_map_to_list.
    + intros [k v]. rewrite list_elem_of_filter, !elem_of_btree_to_list.
      rewrite map_lookup_filter_Some. tauto.
Qed.

(** Adding a line to the entry of a key adds it to what the map holds in all. *)
Lemma btree_values_collect {A} (f : V -> list A) m k v v' l :
  f v' ≡ₚ f v ++ l -> (m !! k = Some v \/ (m !! k = None /\ f v = [])) ->
  concat (f <$> btree_values (<[k := v']> m)) ≡ₚ concat (f <$> btree_values m) ++ l.
Proof using Type*.
  intros Hf Hm.
  assert (forall m', concat (f <$> btree_values m') ≡ₚ concat (f ∘ snd <$> map_to_list m')) as Hv.
  { intros m'. unfold btree_values, btree_to_list. rewrite <-list_fmap_compose.
    generalize (map_to_list m'). intros kvs.
    assert (sort_by (cmp_on fst cmp) kvs ≡ₚ kvs) as Hp by apply sort_by_perm.
    revert Hp. generalize (sort_by (cmp_on fst cmp) kvs). intros s Hp.
    induction Hp; simpl; [done|by rewrite IHHp|by rewrite Permutation_app_swap_app|by etrans]. }
  rewrite !Hv. rewrite <-insert_delete_eq, map_to_list_insert by apply lookup_delete_eq. simpl.
  rewrite Hf. destruct Hm as [Hm|[Hm Hnil]].
  - rewrite <-(insert_id m k v Hm) at 2.
    rewrite <-(insert_delete_eq m k v), (map_to_list_insert (delete k m)) by apply lookup_delete_eq.
    simpl. rewrite <-!app_assoc. by rewrite (Permutation_app_comm l).
  - rewrite Hnil, delete_id by done. simpl. by rewrite Permutation_app_comm.
Qed.
End BTree.
