(* ===== verification/Text.v ===== *)
(** * Text

    The part of Rust's [str], of integer formatting and of [i64::from_str] that
    the alerting core relies on.  A [str] is its UTF-8 bytes. *)
From Stdlib Require Import Ascii.
From Stdlib Require String.
From S2P Require Import Prelude.

(** [i64] display. *)
Definition display_i64 (z : Z) : string := pretty z.

Fixpoint starts_with (p s : string) : bool :=
  match p, s with
  | EmptyString, _ => true
  | String a p', String b s' => bool_decide (a = b) && starts_with p' s'
  | String _ _, EmptyString => false
  end.

(** [s.rsplit_once(c)]: around the last occurrence of [c]. *)
Fixpoint rsplit_once (c : ascii) (s : string) : option (string * string) :=
  match s with
  | EmptyString => None
  | String a s' =>
      match rsplit_once c s' with
      | Some (h, t) => Some (String a h, t)
      | None => if decide (a = c) then Some (EmptyString, s') else None
      end
  end.

(** [i64::from_str]: an optional sign, then at least one decimal digit, and an
    error when the value leaves the 64-bit range. *)
Definition digit_value (a : ascii) : option Z :=
  let n := Z.of_N (N_of_ascii a) in
  if (48 <=? n) && (n <=? 57) then Some (n - 48) else None.

Fixpoint parse_digits (acc : Z) (s : string) : option Z :=
  match s with
  | EmptyString => Some acc
  | String a s' => d ← digit_value a; parse_digits (acc * 10 + d) s'
  end.

Definition parse_i64 (s : string) : option Z :=
  let checked (z : Z) := if (i64_min <=? z) && (z <=? i64_max) then Some z else None in
  match s with
  | EmptyString => None
  | String "+" EmptyString | String "-" EmptyString => None
  | String "+" s' => z ← parse_digits 0 s'; checked z
  | String "-" s' => z ← parse_digits 0 s'; checked (- z)
  | _ => z ← parse_digits 0 s; checked z
  end%char.

(** [{:016x}] of a [u64]. *)
Definition hex_digit (d : Z) : ascii :=
  ascii_of_N (Z.to_N (if d <? 10 then 48 + d else 87 + d)).

Fixpoint hex_digits (n : nat) (z : Z) : string :=
  match n with
  | O => EmptyString
  | S n' => (hex_digits n' (z / 16) +:+ String (hex_digit (z mod 16)) EmptyString)%string
  end.

Definition hex16 (z : Z) : string := hex_digits 16 z.

(** [{:02}] of a number below one hundred. *)
Definition two_digits (z : Z) : string :=
  String (hex_digit (z / 10)) (String (hex_digit (z mod 10)) EmptyString).

(** ** Trimming

    [str::trim] removes Unicode white space, given by its UTF-8 encodings. *)
Definition white_spaces : list (list Z) :=
  ((fun n => [n]) <$> [9; 10; 11; 12; 13; 32]) ++
  [[194; 133]; [194; 160]; [225; 154; 128]; [226; 128; 168]; [226; 128; 169];
   [226; 128; 175]; [226; 129; 159]; [227; 128; 128]] ++
  ((fun n => [226; 128; n]) <$> [128; 129; 130; 131; 132; 133; 134; 135; 136; 137; 138]).

Fixpoint strip_bytes (p : list Z) (s : list ascii) : option (list ascii) :=
  match p, s with
  | [], _ => Some s
  | n :: p', a :: s' => if Z.of_N (N_of_ascii a) =? n then strip_bytes p' s' else None
  | _ :: _, [] => None
  end.

Fixpoint strip_any (ps : list (list Z)) (s : list ascii) : option (list ascii) :=
  match ps with
  | [] => None
  | p :: ps' => match strip_bytes p s with Some s' => Some s' | None => strip_any ps' s end
  end.

(** Every pattern holds at least one byte, so the length bounds the rounds. *)
Fixpoint trim_front (ps : list (list Z)) (fuel : nat) (s : list ascii) : list ascii :=
  match fuel with
  | O => s
  | S fuel' =>
      match strip_any ps s with Some s' => trim_front ps fuel' s' | None => s end
  end.

Definition trim (s : string) : string :=
  let l := Stdlib.Strings.String.list_ascii_of_string s in
  let l := trim_front white_spaces (length l) l in
  let r := trim_front (reverse <$> white_spaces) (length l) (reverse l) in
  Stdlib.Strings.String.string_of_list_ascii (reverse r).

(** [s.trim_end_matches(c)]. *)
Fixpoint trim_end_matches (c : ascii) (s : string) : string :=
  match s with
  | EmptyString => EmptyString
  | String a s' =>
      match trim_end_matches c s' with
      | EmptyString => if decide (a = c) then EmptyString else String a EmptyString
      | t => String a t
      end
  end.

Example trim_ex : trim "  Europe/Paris " = "Europe/Paris". Proof. vm_compute. reflexivity. Qed.
Example parse_i64_ex :
  (parse_i64 "-12", parse_i64 "+7", parse_i64 "", parse_i64 "-", parse_i64 "4x",
   parse_i64 "9223372036854775808") = (Some (-12), Some 7, None, None, None, None).
Proof. vm_compute. reflexivity. Qed.
Example display_ex : display_i64 (-40) = "-40". Proof. vm_compute. reflexivity. Qed.
Example rsplit_ex : rsplit_once ":" "a:b:161" = Some ("a:b", "161")%string.
Proof. vm_compute. reflexivity. Qed.

(** ** Characters

    Bytes of the ASCII range, and the characters of a UTF-8 text: a byte that does not
    continue a character starts one. *)
Definition byte (a : ascii) : Z := Z.of_N (N_of_ascii a).
Definition of_byte (z : Z) : ascii := ascii_of_N (Z.to_N z).

Definition is_ascii_digit (a : ascii) : bool := (48 <=? byte a) && (byte a <=? 57).
Definition is_ascii_upper (a : ascii) : bool := (65 <=? byte a) && (byte a <=? 90).
Definition is_ascii_lower (a : ascii) : bool := (97 <=? byte a) && (byte a <=? 122).
Definition is_ascii_alphanumeric (a : ascii) : bool :=
  is_ascii_digit a || is_ascii_upper a || is_ascii_lower a.
Definition ascii_lower (a : ascii) : ascii :=
  if is_ascii_upper a then of_byte (byte a + 32) else a.
Definition ascii_upper (a : ascii) : ascii :=
  if is_ascii_lower a then of_byte (byte a - 32) else a.

Fixpoint string_map (f : ascii -> ascii) (s : string) : string :=
  match s with EmptyString => EmptyString | String a s' => String (f a) (string_map f s') end.
Fixpoint string_filter (p : ascii -> bool) (s : string) : string :=
  match s with
  | EmptyString => EmptyString
  | String a s' => if p a then String a (string_filter p s') else string_filter p s'
  end.
Fixpoint string_forall (p : ascii -> bool) (s : string) : bool :=
  match s with EmptyString => true | String a s' => p a && string_forall p s' end.

Definition to_ascii_lowercase (s : string) : string := string_map ascii_lower s.
Definition to_ascii_uppercase (s : string) : string := string_map ascii_upper s.
Definition eq_ignore_ascii_case (a b : string) : bool :=
  bool_decide (to_ascii_lowercase a = to_ascii_lowercase b).

(** [s.chars().count()] *)
Definition starts_char (a : ascii) : bool := negb ((128 <=? byte a) && (byte a <=? 191)).
Definition chars_count (s : string) : nat := String.length (string_filter starts_char s).

(** [s.chars().filter(|c| !c.is_whitespace()).collect()]: an encoding of white space only
    matches where a character starts. *)
Fixpoint drop_spaces (skip : nat) (s : list ascii) : list ascii :=
  match s with
  | [] => []
  | a :: s' =>
      match skip with
      | S skip' => drop_spaces skip' s'
      | O => match strip_any white_spaces s with
             | Some rest => drop_spaces (length s' - length rest) s'
             | None => a :: drop_spaces 0 s'
             end
      end
  end.
Definition without_whitespace (s : string) : string :=
  Stdlib.Strings.String.string_of_list_ascii
    (drop_spaces 0 (Stdlib.Strings.String.list_ascii_of_string s)).

(** [s.chars().any(char::is_whitespace)] *)
Definition has_whitespace (s : string) : bool := negb (bool_decide (without_whitespace s = s)).

(** [s.chars().any(char::is_control)]: U+0000 to U+001F, U+007F to U+009F. *)
Fixpoint has_control (s : string) : bool :=
  match s with
  | EmptyString => false
  | String a s' =>
      (byte a <? 32) || (byte a =? 127) ||
      ((byte a =? 194) && match s' with
                          | String b _ => (128 <=? byte b) && (byte b <=? 159)
                          | EmptyString => false
                          end) ||
      has_control s'
  end.

(** ** Cutting

    [s.split_once(c)], [s.split(c)], [s.strip_prefix(p)], [s.strip_suffix(p)] and
    [s.ends_with(p)]. *)
Fixpoint split_once (c : ascii) (s : string) : option (string * string) :=
  match s with
  | EmptyString => None
  | String a s' =>
      if decide (a = c) then Some (EmptyString, s')
      else match split_once c s' with Some (h, t) => Some (String a h, t) | None => None end
  end.

Fixpoint split (c : ascii) (s : string) : list string :=
  match s with
  | EmptyString => [EmptyString]
  | String a s' =>
      if decide (a = c) then EmptyString :: split c s'
      else match split c s' with
           | piece :: rest => String a piece :: rest
           | [] => [String a EmptyString]
           end
  end.

Fixpoint strip_prefix (p s : string) : option string :=
  match p, s with
  | EmptyString, _ => Some s
  | String a p', String b s' => if decide (a = b) then strip_prefix p' s' else None
  | String _ _, EmptyString => None
  end.

Fixpoint strip_suffix (p s : string) : option string :=
  if decide (s = p) then Some EmptyString
  else match s with
       | EmptyString => None
       | String a s' => String a <$> strip_suffix p s'
       end.

Definition ends_with (p s : string) : bool := bool_decide (is_Some (strip_suffix p s)).

(** [s.contains(c)], [s.contains(p)] *)
Fixpoint contains_char (c : ascii) (s : string) : bool :=
  match s with EmptyString => false | String a s' => bool_decide (a = c) || contains_char c s' end.
Fixpoint contains (p s : string) : bool :=
  starts_with p s || match s with EmptyString => false | String _ s' => contains p s' end.

Example without_whitespace_ex : without_whitespace "123 456" = "123456".
Proof. vm_compute. reflexivity. Qed.
Example split_ex : split ";" "a;;b" = ["a"; ""; "b"]. Proof. vm_compute. reflexivity. Qed.
Example strip_suffix_ex : strip_suffix "/" "/a/b/" = Some "/a/b".
Proof. vm_compute. reflexivity. Qed.

(** ** Facts *)

Lemma string_app_cons x (a b : string) : (String x a +:+ b = String x (a +:+ b))%string.
Proof. reflexivity. Qed.

Lemma string_app_nil_l (a : string) : (EmptyString +:+ a = a)%string.
Proof. reflexivity. Qed.

#[export] Hint Rewrite string_app_cons string_app_nil_l : text.

Lemma string_app_nil_r (a : string) : (a +:+ "" = a)%string.
Proof. induction a as [|c a IH]; [done|]. by rewrite string_app_cons, IH. Qed.
Lemma string_app_assoc (a b c : string) : ((a +:+ b) +:+ c = a +:+ b +:+ c)%string.
Proof. induction a as [|x a IH]; autorewrite with text; [done|]. by rewrite IH. Qed.

Lemma string_length_app (a b : string) :
  String.length (a +:+ b)%string = (String.length a + String.length b)%nat.
Proof. induction a as [|x a IH]; autorewrite with text; simpl; [done|]. by rewrite IH. Qed.

Lemma length_hex_digits n z : String.length (hex_digits n z) = n.
Proof.
  revert z. induction n as [|n IH]; intros z; simpl; [done|].
  rewrite string_length_app, IH. simpl. lia.
Qed.

(** Strings with suffixes of one length split at one place. *)
Lemma string_app_inj_suffix (a b c d : string) :
  String.length c = String.length d -> (a +:+ c = b +:+ d)%string -> a = b /\ c = d.
Proof.
  intros Hlen. revert b. induction a as [|x a IH]; intros [|y b]; autorewrite with text.
  - done.
  - intros ->. simpl in Hlen. rewrite string_length_app in Hlen. lia.
  - intros <-. simpl in Hlen. rewrite string_length_app in Hlen. lia.
  - intros [= -> H]. apply IH in H as [-> ->]. done.
Qed.

(** ** Facts: prefixes, suffixes, separators *)

Lemma strip_prefix_Some p s r : strip_prefix p s = Some r <-> s = (p +:+ r)%string.
Proof.
  revert s. induction p as [|c p IH]; intros s; [simpl; split; [by intros [= ->]|by intros ->]|].
  rewrite string_app_cons. destruct s as [|d s]; simpl; [done|].
  destruct (decide (c = d)) as [->|Hne].
  - rewrite IH. split; [by intros ->|by intros [= ->]].
  - split; [done|]. by intros [= -> _].
Qed.

Lemma strip_suffix_Some p s r : strip_suffix p s = Some r <-> s = (r +:+ p)%string.
Proof.
  revert r. induction s as [|c s IH]; intros r; cbn [strip_suffix].
  - destruct (decide ("" = p)) as [<-|Hne]; split.
    + by intros [= <-].
    + intros H. by destruct r.
    + done.
    + intros H. destruct r; [by destruct Hne|done].
  - destruct (decide (String c s = p)) as [<-|Hne]; split.
    + by intros [= <-].
    + intros H. f_equal. apply (f_equal String.length) in H. rewrite string_length_app in H.
      by destruct r; simpl in H; [|lia].
    + intros (t & Ht & ->)%fmap_Some. rewrite string_app_cons. f_equal. by apply IH.
    + intros H. destruct r as [|d r]; [by destruct Hne|]. rewrite string_app_cons in H.
      injection H as <- H. apply IH in H. by rewrite H.
Qed.

Lemma split_once_app (c : ascii) (a b : string) :
  contains_char c a = false -> split_once c (a +:+ String c b)%string = Some (a, b).
Proof.
  induction a as [|x a IH]; intros Hc; autorewrite with text; simpl.
  - by rewrite decide_True.
  - simpl in Hc. apply orb_false_iff in Hc as [Hx Ha]. bools. rewrite decide_False by done. by rewrite IH.
Qed.

Lemma starts_with_app p s : starts_with p (p +:+ s)%string = true.
Proof. induction p as [|a p IH]; [done|]. rewrite string_app_cons. simpl. by rewrite bool_decide_eq_true_2, IH. Qed.

(** ** Facts: text without white space *)

(** A printed character of the ASCII range. *)
Definition graphic (a : ascii) : bool := (33 <=? byte a) && (byte a <=? 126).

Lemma string_forall_impl (p q : ascii -> bool) s :
  (forall a, p a = true -> q a = true) -> string_forall p s = true -> string_forall q s = true.
Proof.
  intros Hpq. induction s as [|a s IH]; simpl; [done|]. intros [Ha Hs]%andb_true_iff.
  apply andb_true_iff. auto.
Qed.

Lemma graphic_front c l : graphic c = true -> strip_any white_spaces (c :: l) = None.
Proof. destruct c as [[] [] [] [] [] [] [] []]; vm_compute; (discriminate || reflexivity). Qed.

Lemma graphic_back c l : graphic c = true -> strip_any (reverse <$> white_spaces) (c :: l) = None.
Proof. destruct c as [[] [] [] [] [] [] [] []]; vm_compute; (discriminate || reflexivity). Qed.

Lemma string_map_app f a b : string_map f (a +:+ b) = (string_map f a +:+ string_map f b)%string.
Proof. induction a as [|x a IH]; [done|]. rewrite !string_app_cons. simpl. by rewrite IH. Qed.

Lemma string_forall_app p a b : string_forall p (a +:+ b) = string_forall p a && string_forall p b.
Proof. induction a as [|x a IH]; [done|]. rewrite !string_app_cons. simpl. by rewrite IH, andb_assoc. Qed.

Lemma string_forall_map p f s : string_forall p (string_map f s) = string_forall (fun a => p (f a)) s.
Proof. induction s as [|a s IH]; simpl; [done|]. by rewrite IH. Qed.

Lemma string_forall_list p s :
  string_forall p s = true -> Forall (fun c => p c = true) (Stdlib.Strings.String.list_ascii_of_string s).
Proof. induction s as [|c s IH]; simpl; [constructor|]. intros [Hc Hs]%andb_true_iff. constructor; auto. Qed.

Lemma trim_graphic s : string_forall graphic s = true -> trim s = s.
Proof.
  intros Hs%string_forall_list. unfold trim. set (l := Stdlib.Strings.String.list_ascii_of_string s) in *.
  assert (trim_front white_spaces (length l) l = l) as ->.
  { destruct l as [|c l]; [done|]. apply Forall_cons in Hs as [Hc _]. cbn [length trim_front].
    by rewrite graphic_front. }
  assert (trim_front (reverse <$> white_spaces) (length l) (reverse l) = reverse l) as ->.
  { rewrite <-length_reverse. destruct (reverse l) as [|c r] eqn:E; [done|]. cbn [length trim_front].
    rewrite graphic_back; [done|]. rewrite Forall_forall in Hs. apply Hs, elem_of_reverse. rewrite E. by left. }
  rewrite reverse_involutive. unfold l. apply Stdlib.Strings.String.string_of_list_ascii_of_string.
Qed.
