(* ===== verification/Float64.v ===== *)
(** * Binary64 numbers

    Rust's [f64] is the language's IEEE-754 binary64 type: the specification
    floats of the Standard Library at precision 53 and exponent bound 1024. *)
From Corelib Require Export SpecFloat.
From S2P Require Import Prelude.

Definition f64 : Type := spec_float.

Definition prec64 : Z := 53.
Definition emax64 : Z := 1024.

Definition f64_add (a b : f64) : f64 := SFadd prec64 emax64 a b.
Definition f64_sub (a b : f64) : f64 := SFsub prec64 emax64 a b.
Definition f64_mul (a b : f64) : f64 := SFmul prec64 emax64 a b.
Definition f64_div (a b : f64) : f64 := SFdiv prec64 emax64 a b.
Definition f64_abs (a : f64) : f64 := SFabs a.

Definition f64_eq (a b : f64) : bool := SFeqb a b.
Definition f64_lt (a b : f64) : bool := SFltb a b.
Definition f64_le (a b : f64) : bool := SFleb a b.
Definition f64_gt (a b : f64) : bool := SFltb b a.
Definition f64_ge (a b : f64) : bool := SFleb b a.

Definition f64_is_finite (a : f64) : bool :=
  match a with S754_zero _ | S754_finite _ _ _ => true | _ => false end.

Definition f64_is_nan (a : f64) : bool :=
  match a with S754_nan => true | _ => false end.

(** [f64::max]: a NaN argument is ignored. *)
Definition f64_max (a b : f64) : f64 :=
  if f64_is_nan a then b else if f64_is_nan b then a else if f64_lt a b then b else a.

(** [f64::min]: a NaN argument is ignored. *)
Definition f64_min (a b : f64) : f64 :=
  if f64_is_nan a then b else if f64_is_nan b then a else if f64_lt b a then b else a.

(** [f64::clamp]: a NaN receiver stays NaN. *)
Definition f64_clamp (x lo hi : f64) : f64 :=
  let x := if f64_lt x lo then lo else x in
  if f64_gt x hi then hi else x.

(** Integer literals, and the literals [m * 2 ^ e] of the source's decimal constants. *)
Definition f64_of_Z (z : Z) : f64 := binary_normalize prec64 emax64 z 0 false.
Definition f64_zero : f64 := S754_zero false.
Definition f64_one : f64 := S754_finite false 4503599627370496 (-52).
Definition f64_two : f64 := S754_finite false 4503599627370496 (-51).
Definition f64_epsilon : f64 := S754_finite false 4503599627370496 (-104).

(** [f64::round]: to the nearest integer, halves away from zero. *)
Definition f64_round (a : f64) : f64 :=
  match a with
  | S754_finite s m e =>
      if 0 <=? e then a
      else let d := 2 ^ (- e) in
           let q := (Z.pos m * 2 + d) / (2 * d) in
           binary_normalize prec64 emax64 (if s then - q else q) 0 s
  | _ => a
  end.
(** [as i64], [as u32]: towards zero, within the type. *)
Definition f64_whole (lo hi : Z) (a : f64) : Z :=
  match a with
  | S754_finite s m e =>
      let q := if 0 <=? e then Z.pos m * 2 ^ e else Z.pos m / 2 ^ (- e) in
      Z.max lo (Z.min hi (if s then - q else q))
  | S754_infinity true => lo
  | S754_infinity false => hi
  | _ => 0
  end.
(** [f64::floor]. *)
Definition f64_floor (a : f64) : f64 :=
  match a with
  | S754_finite s m e =>
      if 0 <=? e then a else binary_normalize prec64 emax64 ((if s then - Z.pos m else Z.pos m) / 2 ^ (- e)) 0 s
  | _ => a
  end.

#[export] Instance f64_eq_dec : EqDecision f64.
Proof. intros x y. pose proof Pos.eq_dec. pose proof Z.eq_dec. pose proof bool_dec. unfold Decision. decide equality. Defined.

Example f64_of_Z_90 : f64_of_Z 90 = S754_finite false 6333186975989760 (-46).
Proof. vm_compute. reflexivity. Qed.
Example f64_add_ex : f64_add (f64_of_Z 1) (f64_of_Z 2) = f64_of_Z 3.
Proof. vm_compute. reflexivity. Qed.

(** ** Facts *)

Lemma f64_nan_not_finite a : f64_is_finite a = true -> f64_is_nan a = false.
Proof. by destruct a. Qed.

Lemma f64_lt_not_nan a b : f64_lt a b = true -> f64_is_nan a = false /\ f64_is_nan b = false.
Proof. unfold f64_lt, SFltb. by destruct a, b. Qed.

(** What is strictly positive. *)
Definition f64_pos (a : f64) : bool :=
  match a with S754_finite false _ _ | S754_infinity false => true | _ => false end.

Definition f64_nonneg (a : f64) : bool :=
  match a with
  | S754_zero _ | S754_finite false _ _ | S754_infinity false => true
  | _ => false
  end.

Lemma f64_abs_nonneg a : f64_is_nan a = false -> f64_nonneg (f64_abs a) = true.
Proof. by destruct a. Qed.

(** The larger of a NaN-free positive number and anything is positive. *)
Lemma f64_max_pos_r a b : f64_pos b = true -> f64_pos (f64_max a b) = true.
Proof.
  intros Hb. unfold f64_max.
  destruct a as [s|s| |s m e], b as [s'|s'| |s' m' e']; simpl in *; try done.
  all: destruct s'; try done; try destruct s; try done; unfold f64_lt; simpl; try done.
  by destruct (SFltb _ _).
Qed.

(** ** Order *)

(** A number by its sign, exponent and mantissa, in the order of [SFcompare]. *)
Definition sf_rank (a : f64) : option (Z * Z * Z) :=
  match a with
  | S754_nan => None
  | S754_zero _ => Some (0, 0, 0)
  | S754_infinity s => Some (if s then -2 else 2, 0, 0)
  | S754_finite s m e => Some (if s then (-1, - e, Z.neg m) else (1, e, Z.pos m))
  end.

Definition lex (x y : Z * Z * Z) : comparison :=
  match x.1.1 ?= y.1.1 with
  | Eq => match x.1.2 ?= y.1.2 with Eq => x.2 ?= y.2 | o => o end
  | o => o
  end.

Lemma SFcompare_rank a b : SFcompare a b = (x ← sf_rank a; y ← sf_rank b; Some (lex x y)).
Proof.
  destruct a as [s|s| |s m e], b as [s'|s'| |s' m' e'];
    try done; try (by destruct s); try (by destruct s'); try (by destruct s, s').
  destruct s, s'; simpl; try done. unfold lex. simpl.
  rewrite Z.compare_opp, (Z.compare_antisym e e'). by destruct (e ?= e').
Qed.

Lemma lex_lt x y :
  lex x y = Lt <-> x.1.1 < y.1.1 \/ x.1.1 = y.1.1 /\
                   (x.1.2 < y.1.2 \/ x.1.2 = y.1.2 /\ x.2 < y.2).
Proof.
  unfold lex. destruct (Z.compare_spec x.1.1 y.1.1), (Z.compare_spec x.1.2 y.1.2),
    (Z.compare_spec x.2 y.2); split; try done; lia.
Qed.

Lemma lex_eq x y : lex x y = Eq <-> x.1.1 = y.1.1 /\ x.1.2 = y.1.2 /\ x.2 = y.2.
Proof.
  unfold lex. destruct (Z.compare_spec x.1.1 y.1.1), (Z.compare_spec x.1.2 y.1.2),
    (Z.compare_spec x.2 y.2); split; try done; lia.
Qed.

Lemma f64_lt_rank a b :
  f64_lt a b = true <-> exists x y, sf_rank a = Some x /\ sf_rank b = Some y /\ lex x y = Lt.
Proof.
  unfold f64_lt, SFltb. rewrite SFcompare_rank.
  destruct (sf_rank a) as [x|], (sf_rank b) as [y|]; simpl; [|naive_solver..].
  split; [|by intros (? & ? & [= <-] & [= <-] & H); destruct (lex x y); naive_solver].
  destruct (lex x y) eqn:E; naive_solver.
Qed.

Lemma f64_le_rank a b :
  f64_le a b = true <-> exists x y, sf_rank a = Some x /\ sf_rank b = Some y /\
                                    (lex x y = Lt \/ lex x y = Eq).
Proof.
  unfold f64_le, SFleb. rewrite SFcompare_rank.
  destruct (sf_rank a) as [x|], (sf_rank b) as [y|]; simpl; [|naive_solver..].
  split; [|by intros (? & ? & [= <-] & [= <-] & H); destruct (lex x y); naive_solver].
  destruct (lex x y) eqn:E; naive_solver.
Qed.

(** The strict order, the weak one, and how they compose. *)
Lemma f64_lt_le a b : f64_lt a b = true -> f64_le a b = true.
Proof. rewrite f64_lt_rank, f64_le_rank. naive_solver. Qed.

Lemma f64_lt_le_trans a b c : f64_lt a b = true -> f64_le b c = true -> f64_lt a c = true.
Proof.
  rewrite !f64_lt_rank, f64_le_rank. intros (x & y & ? & Hy & H1) (y' & z & ? & ? & H2).
  simplify_eq. exists x, z. split_and!; [done..|].
  rewrite !lex_lt, ?lex_eq in *. lia.
Qed.

Lemma f64_le_lt_trans a b c : f64_le a b = true -> f64_lt b c = true -> f64_lt a c = true.
Proof.
  rewrite !f64_lt_rank, f64_le_rank. intros (x & y & ? & Hy & H1) (y' & z & ? & ? & H2).
  simplify_eq. exists x, z. split_and!; [done..|].
  rewrite !lex_lt, ?lex_eq in *. lia.
Qed.

Lemma f64_lt_irrefl a : f64_lt a a = false.
Proof.
  destruct (f64_lt a a) eqn:E; [|done].
  apply f64_lt_rank in E as (x & y & ? & ? & H). simplify_eq. apply lex_lt in H. lia.
Qed.

Lemma f64_le_refl a : f64_is_nan a = false -> f64_le a a = true.
Proof.
  intros Ha. apply f64_le_rank. assert (exists x, sf_rank a = Some x) as [x Hx] by (destruct a; eauto; done).
  exists x, x. split_and!; [done..|right]. by apply lex_eq.
Qed.
