(* ===== verification/Chrono.v ===== *)
(** * Time

    Instants, spans and calendars as the alerting core reads them.

    An instant ([DateTime<Utc>]) is a number of nanoseconds since 1970-01-01
    00:00 UTC, a [TimeDelta] a signed and a [std::time::Duration] an unsigned
    number of nanoseconds; both are unbounded here, the panics of chrono on
    instants beyond year 262 142 being out of the model.  A [NaiveDate] is a
    number of days since 1970-01-01, a [NaiveDateTime] the nanoseconds its wall
    clock shows since that date.  What a date says (weekday, month, day) and what a
    named time zone does belong to the chrono and chrono_tz crates: they are the
    class [Calendar], with the documented laws [CalendarLaws]. *)
From S2P Require Import Prelude.

Notation DateTime := Z (only parsing).
Notation TimeDelta := Z (only parsing).
Notation Duration := Z (only parsing).
Notation NaiveDate := Z (only parsing).
Notation NaiveDateTime := Z (only parsing).

Definition ns_per_ms : Z := 1000000.
Definition ns_per_s : Z := 1000000000.
Definition td_seconds (n : Z) : TimeDelta := n * ns_per_s.
Definition td_minutes (n : Z) : TimeDelta := n * (60 * ns_per_s).
Definition td_hours (n : Z) : TimeDelta := n * (3600 * ns_per_s).
Definition td_days (n : Z) : TimeDelta := n * (86400 * ns_per_s).
Definition ns_per_day : Z := td_days 1.

(** [TimeDelta::from_std]: an error above [TimeDelta::MAX], [i64::MAX] milliseconds. *)
Definition timedelta_max : TimeDelta := i64_max * ns_per_ms.
Definition from_std (d : Duration) : option TimeDelta :=
  if d <=? timedelta_max then Some d else None.

(** [TimeDelta::to_std]: an error on a negative span. *)
Definition to_std (d : TimeDelta) : option Duration := if d <? 0 then None else Some d.

Definition num_days (d : TimeDelta) : Z := Z.quot d ns_per_day.
Definition num_seconds (d : TimeDelta) : Z := Z.quot d ns_per_s.

(** The fields of an instant in UTC and of a wall clock. *)
Definition date_of_ns (t : Z) : NaiveDate := t / ns_per_day.
Definition hour (t : DateTime) : Z := (t mod ns_per_day) / td_hours 1.
Definition minute (t : DateTime) : Z := (t mod td_hours 1) / td_minutes 1.

(** [date.and_hms_opt(minute / 60, minute % 60, 0)] for a minute of the day. *)
Definition naive_at (d : NaiveDate) (minute : Z) : NaiveDateTime :=
  td_days d + td_minutes minute.

Class Calendar := {
  date_min : NaiveDate;
  date_max : NaiveDate;
  (** [date.weekday().num_days_from_monday()], [date.month()], [date.day()] *)
  weekday : NaiveDate -> Z;
  month : NaiveDate -> Z;
  day : NaiveDate -> Z;
  Tz : Type;
  tz_from_str : string -> option Tz;
  (** [now.with_timezone(&tz).date_naive()] *)
  tz_date : Tz -> DateTime -> NaiveDate;
  (** [tz.from_local_datetime(&naive).earliest()] *)
  tz_earliest : Tz -> NaiveDateTime -> option DateTime;
}.

Section Calendar.
Context {C : Calendar}.

Definition checked_add_days (d n : Z) : option NaiveDate :=
  if (date_min <=? d + n) && (d + n <=? date_max) then Some (d + n) else None.
Definition checked_sub_days (d n : Z) : option NaiveDate :=
  if (date_min <=? d - n) && (d - n <=? date_max) then Some (d - n) else None.

Definition in_range (d : NaiveDate) : Prop := date_min <= d <= date_max.

Lemma checked_add_days_in d n : in_range (d + n) -> checked_add_days d n = Some (d + n).
Proof.
  unfold in_range, checked_add_days. intros [? ?].
  by rewrite !(proj2 (Z.leb_le _ _)) by done.
Qed.

Lemma checked_sub_days_in d n : in_range (d - n) -> checked_sub_days d n = Some (d - n).
Proof.
  unfold in_range, checked_sub_days. intros [? ?].
  by rewrite !(proj2 (Z.leb_le _ _)) by done.
Qed.

Lemma checked_sub_days_inv d n d' : checked_sub_days d n = Some d' -> d' = d - n /\ in_range d'.
Proof.
  unfold checked_sub_days, in_range. destruct (_ && _) eqn:E; [|done].
  intros [= <-]. bools. lia.
Qed.

Lemma checked_add_days_inv d n d' : checked_add_days d n = Some d' -> d' = d + n /\ in_range d'.
Proof.
  unfold checked_add_days, in_range. destruct (_ && _) eqn:E; [|done].
  intros [= <-]. bools. lia.
Qed.
End Calendar.

(** What the calendar crate documents about its dates. *)
Class CalendarLaws (C : Calendar) : Prop := {
  weekday_range d : in_range d -> 0 <= weekday d < 7;
  weekday_next d : in_range d -> in_range (d + 1) -> weekday (d + 1) = (weekday d + 1) mod 7;
  day_range d : in_range d -> 1 <= day d <= 31;
  day_next d : in_range d -> in_range (d + 1) ->
    (month (d + 1) = month d /\ day (d + 1) = day d + 1) \/
    (month (d + 1) <> month d /\ day (d + 1) = 1 /\ 28 <= day d);
}.

(** ** A concrete calendar

    The Gregorian years 2024 to 2027 (1461 days from day 19 723) and the
    transitions of Europe/Paris in 2026: enough to run the definitions. *)
Module Gregorian.
Definition month_lengths : list (Z * Z) :=
  let year (feb : Z) :=
    [(1, 31); (2, feb); (3, 31); (4, 30); (5, 31); (6, 30);
     (7, 31); (8, 31); (9, 30); (10, 31); (11, 30); (12, 31)] in
  year 29 ++ year 28 ++ year 28 ++ year 28.

Fixpoint month_day (ms : list (Z * Z)) (n : Z) : Z * Z :=
  match ms with
  | [] => (0, 0)
  | (m, len) :: ms' => if n <? len then (m, n + 1) else month_day ms' (n - len)
  end.

Definition first_day : Z := 19723.
Definition last_day : Z := 21183.
Definition md (d : Z) : Z * Z := month_day month_lengths (d - first_day).

(** A zone is its list of (first instant, seconds east of UTC), latest first. *)
Definition zone : Type := list (Z * Z).
Definition paris : zone :=
  [(td_seconds 1792890000, 3600); (td_seconds 1774746000, 7200); (0, 3600)].

Fixpoint offset_at (z : zone) (t : DateTime) : Z :=
  match z with
  | [] => 0
  | (from, off) :: z' => if from <=? t then off else offset_at z' t
  end.

Definition earliest (z : zone) (local : NaiveDateTime) : option DateTime :=
  foldr (fun off acc =>
           let t := local - td_seconds off in
           if offset_at z t =? off
           then Some (match acc with Some u => Z.min t u | None => t end) else acc)
        None (snd <$> z).

#[global] Instance calendar : Calendar := {
  date_min := first_day;
  date_max := last_day;
  weekday d := (d + 3) mod 7;
  month d := fst (md d);
  day d := snd (md d);
  Tz := zone;
  tz_from_str s := if decide (s = "Europe/Paris") then Some paris else None;
  tz_date z t := date_of_ns (t + td_seconds (offset_at z t));
  tz_earliest z local := earliest z local;
}.

Definition day_ok (d : Z) : bool :=
  (1 <=? snd (md d)) && (snd (md d) <=? 31) &&
  ((d =? last_day) ||
   if fst (md (d + 1)) =? fst (md d) then snd (md (d + 1)) =? snd (md d) + 1
   else (snd (md (d + 1)) =? 1) && (28 <=? snd (md d))).

Lemma all_days_ok : forallb day_ok (seqZ first_day 1461) = true.
Proof. vm_compute. reflexivity. Qed.

Lemma in_range_day_ok d : in_range d -> day_ok d = true.
Proof.
  intros Hd. pose proof all_days_ok as H. rewrite forallb_forall in H. apply H.
  apply list_elem_of_In, elem_of_seqZ.
  unfold in_range in Hd. simpl in Hd. unfold first_day, last_day in *. lia.
Qed.

#[global] Instance calendar_laws : CalendarLaws calendar.
Proof.
  split; intros d Hd.
  - apply Z.mod_pos_bound. lia.
  - intros _. simpl. rewrite Zplus_mod_idemp_l. f_equal. lia.
  - apply in_range_day_ok in Hd. unfold day_ok in Hd. bools. simpl. lia.
  - intros Hd'. apply in_range_day_ok in Hd. unfold day_ok in Hd. bools.
    unfold in_range in Hd'. simpl in Hd'. simpl.
    destruct (Z.eqb_spec d last_day); [lia|]. simpl in *.
    destruct (Z.eqb_spec (fst (md (d + 1))) (fst (md d))); bools; auto.
Qed.

Example date_ex : (weekday 20541, month 20541, day 20541) = (6, 3, 29).
Proof. vm_compute. reflexivity. Qed.
(** 02:30 does not exist that night; 02:30 on October 25 exists twice. *)
Example gap_ex :
  (earliest paris (naive_at 20541 150), earliest paris (naive_at 20541 210),
   earliest paris (naive_at 20751 150)) =
  (None, Some (td_seconds 1774747800), Some (td_seconds 1792888200)).
Proof. vm_compute. reflexivity. Qed.
End Gregorian.

(** ** Facts *)

Lemma from_std_small d : d <= timedelta_max -> from_std d = Some d.
Proof. intros H. unfold from_std. by rewrite (proj2 (Z.leb_le _ _) H). Qed.

Lemma hour_range t : 0 <= hour t < 24.
Proof.
  unfold hour. pose proof (Z.mod_pos_bound t ns_per_day ltac:(done)).
  change (td_hours 1) with 3600000000000. change ns_per_day with 86400000000000 in *.
  split; [apply Z.div_pos; lia | apply Z.div_lt_upper_bound; lia].
Qed.
