(* ===== verification/Decimal.v ===== *)
(** * Reading a number ([str::parse::<f64>])

    The grammar of the standard library: an optional sign, then [inf], [infinity] or [nan] in any case,
    or digits with at most one point and an optional exponent; the value is rounded to the nearest
    binary64, ties to even. *)
From Stdlib Require Import Ascii SpecFloat.
From Stdlib Require String.
From S2P Require Import Prelude Text Float64.

Definition digit (c : ascii) : option Z :=
  let n := Z.of_nat (nat_of_ascii c) in
  if (48 <=? n) && (n <=? 57) then Some (n - 48) else None.

(** The leading digits: what they are worth after [acc], how many there are, what follows. *)
Fixpoint digits (acc : Z) (count : nat) (s : string) : Z * nat * string :=
  match s with
  | String c rest =>
      match digit c with
      | Some n => digits (acc * 10 + n) (S count) rest
      | None => (acc, count, s)
      end
  | EmptyString => (acc, count, s)
  end.

(** [m * 10 ^ e] with [m > 0]: the quotient is taken with at least 64 bits and a last bit that says whether
    it is exact, then rounded once. *)
Definition scaled (negative : bool) (m e : Z) : f64 :=
  let signed (z : Z) := if negative then - z else z in
  if 310 <? e then S754_infinity negative
  else if e + Z.log2 m <? -400 then S754_zero negative
  else if 0 <=? e then binary_normalize prec64 emax64 (signed (m * 10 ^ e)) 0 negative
  else
    let d := 10 ^ (- e) in
    let shift := Z.max 0 (Z.log2 d - Z.log2 m + 66) in
    let q := Z.shiftl m shift / d in
    let sticky := if Z.shiftl m shift mod d =? 0 then 0 else 1 in
    binary_normalize prec64 emax64 (signed (2 * q + sticky)) (- shift - 1) negative.

Definition of_decimal (negative : bool) (m e : Z) : f64 :=
  if m =? 0 then S754_zero negative else scaled negative m e.

(** What follows the digits: nothing, or an exponent. *)
Definition read_exponent (s : string) : option Z :=
  match s with
  | EmptyString => Some 0
  | String c rest =>
      if ascii_lower c =? "e" then
        let '(minus, rest) := match rest with
                              | String d tail => if d =? "-" then (true, tail)
                                                 else if d =? "+" then (false, tail) else (false, rest)
                              | EmptyString => (false, rest)
                              end in
        match digits 0 0 rest with
        | (n, S _, EmptyString) => Some (if minus : bool then - n else n)
        | _ => None
        end
      else None
  end%char.

Definition read_number (negative : bool) (s : string) : option f64 :=
  let '(m, whole, rest) := digits 0 0 s in
  let '(m, fraction, rest) := match rest with
                              | String c tail => if (c =? ".")%char then digits m 0 tail else (m, 0%nat, rest)
                              | EmptyString => (m, 0%nat, rest)
                              end in
  if (whole + fraction =? 0)%nat then None
  else e ← read_exponent rest; Some (of_decimal negative m (e - Z.of_nat fraction)).

Definition parse_f64 (s : string) : option f64 :=
  let '(negative, rest) := match s with
                           | String c tail => if (c =? "-")%char then (true, tail)
                                              else if (c =? "+")%char then (false, tail) else (false, s)
                           | EmptyString => (false, s)
                           end in
  if eq_ignore_ascii_case rest "inf" || eq_ignore_ascii_case rest "infinity" then Some (S754_infinity negative)
  else if eq_ignore_ascii_case rest "nan" then Some S754_nan
  else read_number negative rest.

Example parse_ex1 : parse_f64 "0.1" = Some (f64_div (f64_of_Z 1) (f64_of_Z 10)).
Proof. vm_compute. reflexivity. Qed.
Example parse_ex2 : parse_f64 "-2.5e3" = Some (f64_of_Z (-2500)).
Proof. vm_compute. reflexivity. Qed.
Example parse_ex3 : parse_f64 "4.9e-324" = Some (S754_finite false 1 (-1074)).
Proof. vm_compute. reflexivity. Qed.
Example parse_ex4 : parse_f64 "1.7976931348623157e308" = Some (S754_finite false 9007199254740991 971).
Proof. vm_compute. reflexivity. Qed.
Example parse_ex5 : parse_f64 "+Inf" = Some (S754_infinity false) /\ parse_f64 "1e400" = Some (S754_infinity false).
Proof. vm_compute. done. Qed.
Example parse_ex6 : parse_f64 "" = None /\ parse_f64 "." = None /\ parse_f64 "1e" = None /\ parse_f64 "1 " = None /\
  parse_f64 "0x10" = None /\ parse_f64 "5." = Some (f64_of_Z 5) /\ parse_f64 ".5" = Some (f64_div f64_one f64_two).
Proof. vm_compute. done. Qed.
