(* ===== verification/Tsdb.v ===== *)
(** * What the series database answers ([tsdb/mod.rs])

    A series with its labels, its name among them as [__name__], and a value or the values of a span; a value is
    written as text.  The client and the database itself are arguments of the definitions that ask them. *)
From S2P Require Import Prelude Float64.

Record InstantSeries := { is_metric : gmap string string; is_value : string }.
Record RangeSeries := { rg_metric : gmap string string; rg_values : list (f64 * string) }.
