(* ===== verification/Model.v ===== *)
(** * Domain types of alerting ([alerting/model.rs])

    Severities, rules, selectors, the topology's nodes, series keys and alert
    fingerprints. *)
From Stdlib Require Import Ascii.
From Stdlib Require String.
From S2P Require Import Prelude Text Float64 Chrono.

Notation TargetId := Z (only parsing).

Definition RULE_HOST_DOWN : string := "host_down".
Definition TARGET_ID_LABELS : list string := ["target"; "target_id"].
Definition TARGET_NAME_LABELS : list string := ["host"; "hostname"].
Definition TARGET_ADDRESS_LABELS : list string := ["instance"; "address"].

Module Severity.
Inductive Severity := Info | Warning | Critical.

#[global] Instance eq_dec : EqDecision Severity.
Proof. solve_decision. Defined.

Definition as_str (s : Severity) : string :=
  match s with Info => "info" | Warning => "warning" | Critical => "critical" end.

Definition escalated (s : Severity) : Severity :=
  match s with Info => Warning | Warning | Critical => Critical end.

Definition parse (raw : string) : Severity :=
  if decide (raw = "info") then Info
  else if decide (raw = "critical") then Critical
  else Warning.

(** The derived order: the order of the constructors. *)
Definition rank (s : Severity) : Z :=
  match s with Info => 0 | Warning => 1 | Critical => 2 end.
Definition cmp : Severity -> Severity -> comparison := cmp_on rank Z.compare.
Definition lt (a b : Severity) : bool := rank a <? rank b.
Definition max (a b : Severity) : Severity := if lt b a then a else b.

Lemma rank_max a b : rank (max a b) = Z.max (rank a) (rank b).
Proof. by destruct a, b. Qed.

Lemma rank_inj a b : rank a = rank b -> a = b.
Proof. by destruct a, b. Qed.

Lemma max_comm a b : max a b = max b a.
Proof. by destruct a, b. Qed.

Lemma max_assoc a b c : max a (max b c) = max (max a b) c.
Proof. by destruct a, b, c. Qed.

Lemma severity_parse_as_str s : parse (as_str s) = s.
Proof. by destruct s. Qed.
End Severity.
Notation Severity := Severity.Severity.

Module RuleKind.
Inductive RuleKind := Threshold | Anomaly | Predict.

#[global] Instance eq_dec : EqDecision RuleKind.
Proof. solve_decision. Defined.

Definition as_str (k : RuleKind) : string :=
  match k with
  | Threshold => "threshold" | Anomaly => "anomaly" | Predict => "predict"
  end.

Definition parse (raw : string) : RuleKind :=
  if decide (raw = "anomaly") then Anomaly
  else if decide (raw = "predict") then Predict
  else Threshold.

Lemma kind_parse_as_str k : parse (as_str k) = k.
Proof. by destruct k. Qed.
End RuleKind.
Notation RuleKind := RuleKind.RuleKind.

Module Operator.
Inductive Operator := Gt | Ge | Lt | Le.

#[global] Instance eq_dec : EqDecision Operator.
Proof. solve_decision. Defined.

Definition as_str (o : Operator) : string :=
  match o with Gt => ">" | Ge => ">=" | Lt => "<" | Le => "<=" end.

Definition parse (raw : string) : Operator :=
  if decide (raw = ">=") then Ge
  else if decide (raw = "<") then Lt
  else if decide (raw = "<=") then Le
  else Gt.

Definition test (o : Operator) (value threshold : f64) : bool :=
  if negb (f64_is_finite value) then false
  else match o with
       | Gt => f64_gt value threshold
       | Ge => f64_ge value threshold
       | Lt => f64_lt value threshold
       | Le => f64_le value threshold
       end.

Definition holds (o : Operator) (value threshold : f64) (clear : option f64)
    (active : bool) : bool :=
  if test o value threshold then true
  else match option_filter f64_is_finite clear with
       | None => false
       | Some clear =>
           if negb active || negb (f64_is_finite value) then false
           else match o with
                | Gt | Ge => f64_lt clear threshold && f64_ge value clear
                | Lt | Le => f64_gt clear threshold && f64_le value clear
                end
       end.

Lemma operator_parse_as_str o : parse (as_str o) = o.
Proof. by destruct o. Qed.
End Operator.
Notation Operator := Operator.Operator.

(** A target as alerting sees it. *)
Record TargetNode := {
  tn_id : TargetId;
  tn_name : string;
  tn_address : string;
  tn_kind : string;
  tn_parent_id : option TargetId;
  tn_via_agent : option TargetId;
  tn_tags : gmap string string;
  tn_enabled : bool;
  tn_unreachable : bool;
}.

Module TargetSelector.
Inductive TargetSelector :=
| All
| Ids (ids : list TargetId)
| Labels (labels : gmap string string).

Definition matches (s : TargetSelector) (target : option TargetNode) : bool :=
  match s with
  | All => true
  | Ids ids =>
      is_some_and target (fun t => bool_decide (tn_id t ∈ ids))
  | Labels labels =>
      is_some_and target (fun t =>
        forallb (fun '(key, value) => bool_decide (tn_tags t !! key = Some value))
                (btree_to_list string_cmp labels))
  end.
End TargetSelector.
Notation TargetSelector := TargetSelector.TargetSelector.

Record AnomalyParams := {
  ap_k : f64;
  ap_alpha : f64;
  ap_mad_floor_abs : f64;
  ap_mad_floor_rel : f64;
  ap_min_samples : Z;
}.

(** 3.5, 0.05, 1e-6, 0.01 and 3. *)
Definition AnomalyParams_default : AnomalyParams := {|
  ap_k := S754_finite false 7881299347898368 (-51);
  ap_alpha := S754_finite false 7205759403792794 (-57);
  ap_mad_floor_abs := S754_finite false 4722366482869645 (-72);
  ap_mad_floor_rel := S754_finite false 5764607523034235 (-59);
  ap_min_samples := 3;
|}.

Record Rule := {
  r_id : Z;
  r_uid : string;
  r_name : string;
  r_description : string;
  r_kind : RuleKind;
  r_query : string;
  r_operator : Operator;
  r_threshold : f64;
  r_clear_threshold : option f64;
  r_for_duration : Duration;
  r_severity : Severity;
  r_selector : TargetSelector;
  r_channels : list Z;
  r_params : AnomalyParams;
  r_unit : string;
  r_repeat_interval : option Duration;
  r_escalate_after : option Duration;
  r_enabled : bool;
  r_builtin : bool;
}.

Definition is_host_down (r : Rule) : bool := bool_decide (r_uid r = RULE_HOST_DOWN).

(** ** Fingerprints and series keys *)

Definition fnv_offset : Z := 0xcbf29ce484222325.
Definition fnv_prime : Z := 0x100000001b3.

Definition fnv1a64 (input : string) : Z :=
  foldl (fun hash byte => u64_wrap (Z.lxor hash (Z.of_N (N_of_ascii byte)) * fnv_prime))
        fnv_offset (Stdlib.Strings.String.list_ascii_of_string input).

Definition fingerprint (rule_uid series_key : string) : string :=
  (rule_uid +:+ "@" +:+ hex16 (fnv1a64 series_key))%string.

(** The double quote. *)
Definition dq : string := String (ascii_of_N 34) EmptyString.

Definition render_key (labels : gmap string string) (keep : string -> bool) : string :=
  let name := labels !! "__name__" ?? "" in
  let kept := filter (fun kv => kv.1 <> "__name__" /\ keep kv.1 = true)
                     (btree_to_list string_cmp labels) in
  let '(key, first) :=
    foldl (fun '(key, first) '(label, value) =>
             ((key +:+ (if first : bool then "{" else ",") +:+ label +:+ "=" +:+ dq
                   +:+ value +:+ dq)%string, false))
          (name, true) kept in
  if first then key else (key +:+ "}")%string.

Definition series_key (labels : gmap string string) : string :=
  render_key labels (fun _ => true).

Definition TAG_LABEL_PREFIX : string := "tag_".

Definition carries_target_id (labels : gmap string string) : bool :=
  existsb (fun label => bool_decide (is_Some (labels !! label))) TARGET_ID_LABELS.

Definition identity_label (label : string) : bool :=
  negb (bool_decide (label ∈ TARGET_NAME_LABELS)) && negb (starts_with TAG_LABEL_PREFIX label).

Definition identity_key (labels : gmap string string) : string :=
  if negb (carries_target_id labels) then series_key labels
  else render_key labels identity_label.

Example series_key_ex :
  series_key (list_to_map [("__name__", "up"); ("host", "nas"); ("core", "0")]) =
  ("up{core=" +:+ dq +:+ "0" +:+ dq +:+ ",host=" +:+ dq +:+ "nas" +:+ dq +:+ "}")%string.
Proof. vm_compute. reflexivity. Qed.

(** ** Facts *)

Lemma holds_inactive o v t c : Operator.holds o v t c false = Operator.test o v t.
Proof.
  unfold Operator.holds. destruct (Operator.test o v t); [done|]. by destruct (option_filter _ c).
Qed.

Lemma fingerprint_inj_rule u u' k k' : fingerprint u k = fingerprint u' k' -> u = u'.
Proof.
  unfold fingerprint. intros H.
  apply string_app_inj_suffix in H as [-> _]; [done|].
  rewrite !string_length_app. unfold hex16. by rewrite !length_hex_digits.
Qed.

(** What of a label map a rendered key depends on. *)
Lemma render_key_ext (m m' : gmap string string) keep :
  m !! "__name__" = m' !! "__name__" ->
  (forall k, keep k = true -> m !! k = m' !! k) ->
  render_key m keep = render_key m' keep.
Proof.
  intros Hname Hkeep. unfold render_key. rewrite Hname.
  set (P := fun kv : string * string => kv.1 <> "__name__" /\ keep kv.1 = true).
  rewrite !(btree_to_list_filter string_cmp P).
  assert (filter P m = filter P m') as ->; [|done].
  apply map_eq. intros k. apply option_eq. intros v. rewrite !map_lookup_filter_Some.
  unfold P. simpl. split; intros (Hm & ? & Hk); split; try done.
  - by rewrite <-Hkeep.
  - by rewrite Hkeep.
Qed.
