(* ===== verification/Machine.v ===== *)
(** * The alert state machine ([alerting/machine.rs])

    One state per fingerprint; [advance] moves it by one evaluation cycle. *)
From S2P Require Import Prelude Float64 Chrono.

Module Phase.
Inductive Phase := Ok | Pending | Firing | Resolved.

#[global] Instance eq_dec : EqDecision Phase.
Proof. solve_decision. Defined.

Definition as_str (p : Phase) : string :=
  match p with
  | Ok => "ok" | Pending => "pending" | Firing => "firing" | Resolved => "resolved"
  end.

Definition parse (raw : string) : Phase :=
  if decide (raw = "pending") then Pending
  else if decide (raw = "firing") then Firing
  else if decide (raw = "resolved") then Resolved
  else Ok.

Definition is_active (p : Phase) : bool := match p with Firing => true | _ => false end.

Lemma phase_parse_as_str p : parse (as_str p) = p.
Proof. by destruct p. Qed.
End Phase.
Notation Phase := Phase.Phase.

Module EffectivePhase.
Inductive EffectivePhase := Ok | Pending | Firing | Resolved | Suppressed.

#[global] Instance eq_dec : EqDecision EffectivePhase.
Proof. solve_decision. Defined.

Definition as_str (p : EffectivePhase) : string :=
  match p with
  | Ok => "ok" | Pending => "pending" | Firing => "firing" | Resolved => "resolved"
  | Suppressed => "suppressed"
  end.
End EffectivePhase.
Notation EffectivePhase := EffectivePhase.EffectivePhase.

Record AlertState := {
  phase : Phase;
  condition_since : option DateTime;
  firing_since : option DateTime;
  resolved_at : option DateTime;
  last_eval_at : option DateTime;
  last_notified_at : option DateTime;
  notify_count : Z;
  suppressed : bool;
  suppressed_by : option Z;
  silenced : bool;
  learning : bool;
  as_value : option f64;
  as_score : option f64;
  acked_until : option DateTime;
  acked_by : option string;
  ack_note : option string;
}.

(** [AlertState::default()]. *)
Definition AlertState_default : AlertState := {|
  phase := Phase.Ok; condition_since := None; firing_since := None; resolved_at := None;
  last_eval_at := None; last_notified_at := None; notify_count := 0; suppressed := false;
  suppressed_by := None; silenced := false; learning := false; as_value := None;
  as_score := None; acked_until := None; acked_by := None; ack_note := None;
|}.

(** Assignments to the fields the operations below write. *)
Definition set_phase (p : Phase) (s : AlertState) : AlertState :=
  Build_AlertState p (condition_since s) (firing_since s) (resolved_at s) (last_eval_at s)
    (last_notified_at s) (notify_count s) (suppressed s) (suppressed_by s) (silenced s)
    (learning s) (as_value s) (as_score s) (acked_until s) (acked_by s) (ack_note s).
Definition set_condition_since (t : option DateTime) (s : AlertState) : AlertState :=
  Build_AlertState (phase s) t (firing_since s) (resolved_at s) (last_eval_at s)
    (last_notified_at s) (notify_count s) (suppressed s) (suppressed_by s) (silenced s)
    (learning s) (as_value s) (as_score s) (acked_until s) (acked_by s) (ack_note s).
Definition set_firing_since (t : option DateTime) (s : AlertState) : AlertState :=
  Build_AlertState (phase s) (condition_since s) t (resolved_at s) (last_eval_at s)
    (last_notified_at s) (notify_count s) (suppressed s) (suppressed_by s) (silenced s)
    (learning s) (as_value s) (as_score s) (acked_until s) (acked_by s) (ack_note s).
Definition set_resolved_at (t : option DateTime) (s : AlertState) : AlertState :=
  Build_AlertState (phase s) (condition_since s) (firing_since s) t (last_eval_at s)
    (last_notified_at s) (notify_count s) (suppressed s) (suppressed_by s) (silenced s)
    (learning s) (as_value s) (as_score s) (acked_until s) (acked_by s) (ack_note s).
Definition set_last_eval_at (t : option DateTime) (s : AlertState) : AlertState :=
  Build_AlertState (phase s) (condition_since s) (firing_since s) (resolved_at s) t
    (last_notified_at s) (notify_count s) (suppressed s) (suppressed_by s) (silenced s)
    (learning s) (as_value s) (as_score s) (acked_until s) (acked_by s) (ack_note s).
Definition set_notified (t : option DateTime) (n : Z) (s : AlertState) : AlertState :=
  Build_AlertState (phase s) (condition_since s) (firing_since s) (resolved_at s)
    (last_eval_at s) t n (suppressed s) (suppressed_by s) (silenced s)
    (learning s) (as_value s) (as_score s) (acked_until s) (acked_by s) (ack_note s).
Definition set_overlays (sup : bool) (by_ : option Z) (sil : bool) (s : AlertState) : AlertState :=
  Build_AlertState (phase s) (condition_since s) (firing_since s) (resolved_at s)
    (last_eval_at s) (last_notified_at s) (notify_count s) sup by_ sil
    (learning s) (as_value s) (as_score s) (acked_until s) (acked_by s) (ack_note s).
Definition set_measure (value score : option f64) (learn : bool) (s : AlertState) : AlertState :=
  Build_AlertState (phase s) (condition_since s) (firing_since s) (resolved_at s)
    (last_eval_at s) (last_notified_at s) (notify_count s) (suppressed s) (suppressed_by s)
    (silenced s) learn value score (acked_until s) (acked_by s) (ack_note s).
Definition set_acked (until : option DateTime) (by_ note : option string) (s : AlertState) :
    AlertState :=
  Build_AlertState (phase s) (condition_since s) (firing_since s) (resolved_at s)
    (last_eval_at s) (last_notified_at s) (notify_count s) (suppressed s) (suppressed_by s)
    (silenced s) (learning s) (as_value s) (as_score s) until by_ note.

Definition is_acked (s : AlertState) (now : DateTime) : bool :=
  match phase s with Phase.Firing | Phase.Pending => true | _ => false end &&
  is_some_and (acked_until s) (fun until => now <? until).

Definition clear_ack (s : AlertState) : AlertState := set_acked None None None s.

Definition effective_phase (s : AlertState) : EffectivePhase :=
  if suppressed s && match phase s with Phase.Firing | Phase.Pending => true | _ => false end
  then EffectivePhase.Suppressed
  else match phase s with
       | Phase.Ok => EffectivePhase.Ok
       | Phase.Pending => EffectivePhase.Pending
       | Phase.Firing => EffectivePhase.Firing
       | Phase.Resolved => EffectivePhase.Resolved
       end.

Record Transition := { tr_from : Phase; tr_to : Phase }.

#[export] Instance Transition_eq_dec : EqDecision Transition.
Proof. solve_decision. Defined.

Definition advance (previous : AlertState) (condition_met : bool) (now : DateTime)
    (for_duration : Duration) : AlertState * option Transition :=
  let next := set_last_eval_at (Some now) previous in
  let from := phase previous in
  if negb condition_met then
    let next := set_condition_since None next in
    let next := set_phase (match from with
                           | Phase.Firing => Phase.Resolved
                           | _ => Phase.Ok
                           end) next in
    let next := clear_ack next in
    let next :=
      if decide (phase next = Phase.Resolved) then set_resolved_at (Some now) next
      else
        let next := set_firing_since None (set_resolved_at None next) in
        if decide (from <> Phase.Ok) then set_notified None 0 next else next in
    let transition :=
      if decide (from <> phase next) then Some {| tr_from := from; tr_to := phase next |}
      else None in
    (next, transition)
  else
    let since := match from with
                 | Phase.Pending | Phase.Firing => condition_since previous ?? now
                 | _ => now
                 end in
    let next := set_condition_since (Some since) next in
    if decide (from = Phase.Firing) then (next, None)
    else
      let elapsed := now - since in
      let held_long_enough := (from_std for_duration ?? 0) <=? elapsed in
      let next := set_phase (if held_long_enough then Phase.Firing else Phase.Pending) next in
      let next :=
        if decide (phase next = Phase.Firing)
        then set_resolved_at None (set_firing_since (Some now) next) else next in
      let transition :=
        if decide (from <> phase next) then Some {| tr_from := from; tr_to := phase next |}
        else None in
      (next, transition).

(** ** Reachable states

    What happens to a stored state: an evaluation, a notification recorded after a
    cycle spoke about it, the overlays of the cycle, an acknowledgement set or
    lifted on an active alert. *)
Inductive step : AlertState -> AlertState -> Prop :=
| step_eval s met now d : step s (fst (advance s met now d))
| step_notified s now :
    phase s = Phase.Firing \/ phase s = Phase.Resolved ->
    step s (set_notified (Some now) (notify_count s + 1) s)
| step_overlays s sup by_ sil value score learn :
    step s (set_overlays sup by_ sil (set_measure value score learn s))
| step_ack s until by_ note :
    phase s = Phase.Firing \/ phase s = Phase.Pending ->
    step s (set_acked until by_ note s).

Definition reachable : AlertState -> Prop := rtc step AlertState_default.

(** What every field says in each phase. *)
Definition wf_state (s : AlertState) : Prop :=
  match phase s with
  | Phase.Ok =>
      condition_since s = None /\ firing_since s = None /\ resolved_at s = None /\
      notify_count s = 0
  | Phase.Pending => is_Some (condition_since s)
  | Phase.Firing =>
      is_Some (condition_since s) /\ is_Some (firing_since s) /\ resolved_at s = None
  | Phase.Resolved =>
      condition_since s = None /\ is_Some (firing_since s) /\ is_Some (resolved_at s) /\
      acked_until s = None
  end /\
  0 <= notify_count s /\ (notify_count s = 0 <-> last_notified_at s = None).

(** The transitions of the machine's diagram. *)
Definition legal (t : Transition) : bool :=
  match tr_from t, tr_to t with
  | Phase.Ok, (Phase.Pending | Phase.Firing)
  | Phase.Pending, (Phase.Ok | Phase.Firing)
  | Phase.Firing, Phase.Resolved
  | Phase.Resolved, (Phase.Ok | Phase.Pending | Phase.Firing) => true
  | _, _ => false
  end.

(** A run of evaluations whose condition holds throughout. *)
Definition run_true (s : AlertState) (ts : list DateTime) (d : Duration) : AlertState :=
  foldl (fun s t => fst (advance s true t d)) s ts.

(** ** Facts *)

Ltac advance_cases s :=
  unfold advance; destruct s as [[] ? ? ? ? ? ? ? ? ? ? ? ? ? ? ?]; simpl;
  try match goal with |- context [?a <=? ?b] => destruct (a <=? b) end; simpl in *.

Lemma advance_wf s met now d : wf_state s -> wf_state (fst (advance s met now d)).
Proof.
  intros Hwf. unfold wf_state in *. destruct met; advance_cases s; destruct_and?;
    split_and?; simpl; try (done || lia || eauto || tauto).
Qed.

Lemma step_wf s s' : step s s' -> wf_state s -> wf_state s'.
Proof.
  intros [ | ? ? Hp | | ? ? ? ? Hp] Hwf; [by apply advance_wf|..].
  all: unfold wf_state in *; simpl in *.
  - destruct Hwf as (Hwf & ? & ?).
    split; [by destruct Hp as [Hp|Hp]; rewrite Hp in Hwf |- *|].
    split; [lia|]. split; [lia|done].
  - done.
  - destruct Hwf as (Hwf & ? & ?). by destruct Hp as [Hp|Hp]; rewrite Hp in Hwf |- *.
Qed.

Lemma default_wf : wf_state AlertState_default.
Proof. unfold wf_state. simpl. naive_solver. Qed.

Lemma reachable_wf s : reachable s -> wf_state s.
Proof.
  unfold reachable. revert s. apply rtc_ind_r; [apply default_wf|].
  intros s s' _ Hs Hwf. by eapply step_wf.
Qed.

(** From the start of the condition on, the phase is decided by the elapsed time. *)
Definition since_state (t0 : DateTime) (s : AlertState) : Prop :=
  (phase s = Phase.Pending \/ phase s = Phase.Firing) /\ condition_since s = Some t0.

Lemma advance_true_start s t0 d :
  phase s = Phase.Ok \/ phase s = Phase.Resolved ->
  since_state t0 (fst (advance s true t0 d)) /\
  (phase (fst (advance s true t0 d)) = Phase.Firing <-> (from_std d ?? 0) <= 0).
Proof.
  intros Hp. unfold advance, since_state. simpl.
  assert ((match phase s with
           | Phase.Pending | Phase.Firing => condition_since s ?? t0
           | _ => t0 end) = t0) as ->
    by (by destruct Hp as [-> | ->]).
  rewrite decide_False by (destruct Hp as [-> | ->]; done). simpl.
  rewrite Z.sub_diag. destruct (Z.leb_spec (from_std d ?? 0) 0); case_decide; naive_solver lia.
Qed.

Lemma advance_true_since s t0 t d :
  since_state t0 s ->
  since_state t0 (fst (advance s true t d)) /\
  (phase (fst (advance s true t d)) = Phase.Firing <->
   phase s = Phase.Firing \/ (from_std d ?? 0) <= t - t0).
Proof.
  intros [Hp Hc]. unfold advance, since_state. simpl. rewrite Hc. simpl.
  destruct Hp as [Hp|Hp]; rewrite Hp; simpl; [|naive_solver].
  destruct (Z.leb_spec (from_std d ?? 0) (t - t0)); case_decide; naive_solver lia.
Qed.

Lemma run_true_since s t0 ts d :
  since_state t0 s ->
  since_state t0 (run_true s ts d) /\
  (phase (run_true s ts d) = Phase.Firing <->
   phase s = Phase.Firing \/ exists t, t ∈ ts /\ (from_std d ?? 0) <= t - t0).
Proof.
  revert s. induction ts as [|t ts IH]; intros s Hs; simpl.
  { split; [done|]. setoid_rewrite elem_of_nil. naive_solver. }
  destruct (advance_true_since s t0 t d Hs) as [Hs' Hf].
  destruct (IH _ Hs') as [IH1 IH2]. split; [done|].
  rewrite IH2, Hf. setoid_rewrite elem_of_cons. naive_solver.
Qed.

(** ** Properties *)

(** Every stored alert state reachable through evaluations, recorded
    notifications, overlays and acknowledgements has the fields its phase calls
    for: a quiet alert carries no dates and no notification count, a pending one
    the start of its condition, a firing one also the start of the firing, a
    resolved one its resolution date and no acknowledgement. *)
Theorem reachable_states_well_formed s : reachable s -> wf_state s.
Proof. apply reachable_wf. Qed.

Lemma reachable_states_well_formed_witness :
  wf_state (fst (advance (fst (advance AlertState_default true 0 0)) false 60 0)).
Proof.
  apply reachable_states_well_formed.
  eapply rtc_l; [apply (step_eval AlertState_default true 0 0)|].
  eapply rtc_l; [apply step_eval|]. apply rtc_refl.
Defined.

(** C2. The confirmation delay is exact: when the condition appears at [t0] on an
    alert at rest and holds at every later evaluation, the alert fires if and only
    if one of the evaluations happens at least [d] after [t0], whatever the spacing
    of the evaluations, backward clock jumps included. *)
Theorem for_duration_is_exact s t0 ts d :
  phase s = Phase.Ok \/ phase s = Phase.Resolved ->
  0 <= d <= timedelta_max ->
  (phase (run_true s (t0 :: ts) d) = Phase.Firing <->
   exists t, t ∈ t0 :: ts /\ d <= t - t0) /\
  condition_since (run_true s (t0 :: ts) d) = Some t0.
Proof.
  intros Hs [Hd Hmax]. destruct (advance_true_start s t0 d Hs) as [Hsince Hf].
  destruct (run_true_since _ t0 ts d Hsince) as [[_ Hc] Hrun].
  simpl. split; [|done]. rewrite Hrun, Hf, from_std_small by done. simpl.
  setoid_rewrite elem_of_cons. split.
  - intros [?|(t & ? & ?)]; [exists t0; split; [by left|lia] | exists t; auto].
  - intros (t & [->|?] & ?); [left; lia | right; eauto].
Qed.

Lemma for_duration_is_exact_witness :
  phase (run_true AlertState_default [0; td_seconds 299; td_seconds 300] (td_seconds 300)) =
    Phase.Firing /\
  phase (run_true AlertState_default [0; td_seconds 299] (td_seconds 300)) <> Phase.Firing.
Proof.
  split.
  - apply (for_duration_is_exact AlertState_default 0 [td_seconds 299; td_seconds 300]);
      [by left|split; vm_compute; discriminate|].
    exists (td_seconds 300). split; [right; right; left|vm_compute; discriminate].
  - intros H.
    apply (for_duration_is_exact AlertState_default 0 [td_seconds 299]) in H;
      [|by left|split; vm_compute; discriminate].
    destruct H as (t & Ht & Hd). vm_compute in Hd.
    apply elem_of_cons in Ht as [->|Ht]; [by apply Hd|].
    apply list_elem_of_singleton in Ht as ->. by apply Hd.
Defined.

(** A cycle reports a transition exactly when the phase changes, the transition
    names the two phases and is one of the diagram's eight; in particular an alert
    only resolves after having fired, and a pending one that clears goes back to
    rest silently. *)
Theorem advance_reports_legal_transitions s met now d :
  let s' := fst (advance s met now d) in
  match snd (advance s met now d) with
  | None => phase s' = phase s
  | Some t => t = {| tr_from := phase s; tr_to := phase s' |} /\
              phase s' <> phase s /\ legal t = true
  end /\
  (phase s' = Phase.Resolved <-> phase s = Phase.Firing /\ met = false).
Proof. destruct met; advance_cases s; naive_solver. Qed.
