(* ===== verification/Suppress.v ===== *)
(** * Suppression by dependency ([alerting/suppress.rs])

    The filiation of the targets, the search of the nearest unreachable ancestor
    and the decision to keep an alert quiet. *)
From S2P Require Import Prelude Text Model.

Definition MAX_DEPTH : nat := 64.

Record Topology := { parents : gmap TargetId (list TargetId) }.

Definition ascendants (t : TargetNode) : list TargetId :=
  let up := option_list (tn_parent_id t) in
  match tn_via_agent t with
  | Some relay => if decide (relay ∈ up) then up else up ++ [relay]
  | None => up
  end.

(** A later target with the same identifier replaces an earlier one. *)
Definition Topology_new (targets : list TargetNode) : Topology :=
  {| parents := foldl (fun m t => <[tn_id t := ascendants t]> m) ∅ targets |}.

(** One generation: the first new ancestor that is down, or the visited set and
    the next generation. *)
Fixpoint scan_generation (topo : Topology) (down visited : gset TargetId)
    (next generation : list TargetId) : TargetId + gset TargetId * list TargetId :=
  match generation with
  | [] => inr (visited, next)
  | ancestor :: generation' =>
      if decide (ancestor ∈ visited) then scan_generation topo down visited next generation'
      else
        let visited := {[ancestor]} ∪ visited in
        if decide (ancestor ∈ down) then inl ancestor
        else
          let next := match parents topo !! ancestor with
                      | Some up => next ++ up
                      | None => next
                      end in
          scan_generation topo down visited next generation'
  end.

Fixpoint search_up (topo : Topology) (down : gset TargetId) (depth : nat)
    (visited : gset TargetId) (generation : list TargetId) : option TargetId :=
  match depth with
  | O => None
  | S depth' =>
      match generation with
      | [] => None
      | _ =>
          match scan_generation topo down visited [] generation with
          | inl ancestor => Some ancestor
          | inr (visited, next) => search_up topo down depth' visited next
          end
      end
  end.

Definition first_ancestor_down (topo : Topology) (target : TargetId) (down : gset TargetId) :
    option TargetId :=
  generation ← parents topo !! target;
  search_up topo down MAX_DEPTH {[target]} generation.

Definition Topology_contains (topo : Topology) (target : TargetId) : bool :=
  bool_decide (is_Some (parents topo !! target)).

Module Suppression.
Inductive Suppression := AncestorDown (ancestor : TargetId) | SelfDown.

#[global] Instance eq_dec : EqDecision Suppression.
Proof. solve_decision. Defined.

Definition culprit (s : Suppression) (target : TargetId) : TargetId :=
  match s with AncestorDown ancestor => ancestor | SelfDown => target end.
End Suppression.
Notation Suppression := Suppression.Suppression.

Definition suppression_for (topo : Topology) (target : option TargetId)
    (is_host_down_rule : bool) (down : gset TargetId) : option Suppression :=
  target ← target;
  match first_ancestor_down topo target down with
  | Some ancestor => Some (Suppression.AncestorDown ancestor)
  | None =>
      if negb is_host_down_rule && bool_decide (target ∈ down)
      then Some Suppression.SelfDown else None
  end.

(** ** Specification: paths up the filiation *)

Section Paths.
Context (topo : Topology).

(** [parent y x]: [x] is a direct ascendant of [y]. *)
Definition parent (y x : TargetId) : Prop := x ∈ parents topo !! y ?? [].

Inductive path : nat -> TargetId -> TargetId -> Prop :=
| path_zero x : path 0 x x
| path_succ n x y z : path n x y -> parent y z -> path (S n) x z.

(** The generations already read are closed up to the one being read. *)
Definition closed (visited : gset TargetId) (generation : list TargetId) : Prop :=
  forall y x, y ∈ visited -> parent y x -> x ∈ visited \/ x ∈ generation.

Definition quiet (target : TargetId) (down visited : gset TargetId) : Prop :=
  forall x, x ∈ visited -> x = target \/ x ∉ down.
End Paths.

(** ** Facts *)

Section Search.
Context (topo : Topology) (target : TargetId) (down : gset TargetId).

Lemma scan_generation_spec visited next gen :
  target ∈ visited ->
  quiet target down visited ->
  (forall y x, y ∈ visited -> parent topo y x -> x ∈ visited \/ x ∈ gen \/ x ∈ next) ->
  match scan_generation topo down visited next gen with
  | inl a => a ∈ gen /\ a ∉ visited /\ a ∈ down
  | inr (v, n) =>
      visited ⊆ v /\ (forall x, x ∈ gen -> x ∈ v) /\ quiet target down v /\
      closed topo v n /\
      (forall x, x ∈ n -> x ∈ next \/ exists a, a ∈ gen /\ parent topo a x)
  end.
Proof.
  revert visited next. induction gen as [|a gen IH]; intros visited next Ht Hq Hc; simpl.
  { split_and!; try done; [set_solver|intros y x Hy Hp; set_solver|set_solver]. }
  case_decide as Ha.
  { specialize (IH visited next Ht Hq). destruct scan_generation as [b|[v n]].
    - destruct IH as (? & ? & ?); [set_solver|]. set_solver.
    - destruct IH as (? & ? & ? & ? & ?); [set_solver|]. split_and!; set_solver. }
  case_decide as Hd; [set_solver|].
  set (next' := match parents topo !! a with Some up => next ++ up | None => next end).
  assert (forall x, x ∈ next' <-> x ∈ next \/ parent topo a x) as Hn.
  { intros x. unfold next', parent. destruct (parents topo !! a); simpl; set_solver. }
  specialize (IH ({[a]} ∪ visited) next').
  destruct scan_generation as [b|[v n]].
  - destruct IH as (? & ? & ?); [set_solver..| |set_solver].
    intros y x Hy Hp. rewrite Hn. set_solver.
  - destruct IH as (? & ? & ? & ? & Hnx); [set_solver..| |].
    + intros y x Hy Hp. rewrite Hn. set_solver.
    + split_and!; try done; [set_solver..|].
      intros x Hx. apply Hnx in Hx. rewrite Hn in Hx. set_solver.
Qed.

Lemma path_visited visited m x :
  target ∈ visited -> closed topo visited [] -> path topo m target x -> x ∈ visited.
Proof.
  intros Ht Hc. remember target as t eqn:E. induction 1 as [|n t y z Hp IH Hy]; subst; [done|].
  destruct (Hc y z) as [|Hz]; [by apply IH|done|done|]. by apply elem_of_nil in Hz.
Qed.

Lemma search_up_spec depth k visited gen :
  target ∈ visited ->
  quiet target down visited ->
  closed topo visited gen ->
  (forall x, x ∈ gen -> path topo (S k) target x) ->
  (forall j x, (j <= k)%nat -> path topo j target x -> x ∈ visited) ->
  match search_up topo down depth visited gen with
  | Some a =>
      a ∈ down /\ a <> target /\
      exists n, (k < n <= k + depth)%nat /\ path topo n target a /\
                forall m x, (m < n)%nat -> path topo m target x -> x = target \/ x ∉ down
  | None =>
      forall m x, (m <= k + depth)%nat -> path topo m target x -> x = target \/ x ∉ down
  end.
Proof.
  revert k visited gen. induction depth as [|depth IH]; intros k visited gen Ht Hq Hc Hg Hv; simpl.
  { intros m x Hm Hp. apply Hq, (Hv m); [lia|done]. }
  destruct gen as [|g gen].
  { intros m x _ Hp. apply Hq. by eapply path_visited. }
  set (G := g :: gen) in *.
  pose proof (scan_generation_spec visited [] G Ht Hq) as Hs.
  destruct scan_generation as [a|[v n]].
  - destruct Hs as (HaG & Hav & Had); [intros; destruct (Hc y x); auto|].
    split_and!; [done|set_solver|]. exists (S k). split; [lia|].
    split; [by apply Hg|]. intros m x Hm Hp. apply Hq, (Hv m); [lia|done].
  - destruct Hs as (Hvv & HGv & Hqv & Hcv & Hn); [intros; destruct (Hc y x); auto|].
    specialize (IH (S k) v n). destruct search_up as [a|].
    + destruct IH as (? & ? & l & ? & ?); [set_solver|done|done|..].
      * intros x Hx. apply Hn in Hx as [Hx|(b & Hb & Hp)]; [by apply elem_of_nil in Hx|].
        by eapply path_succ; [apply Hg|].
      * intros j x Hj Hp. destruct (decide (j = S k)) as [->|]; [|apply Hvv, (Hv j); [lia|done]].
        inversion Hp as [|? ? y ? Hy Hyx]; subst.
        destruct (Hc y x) as [|]; [apply (Hv k); [lia|done]|done|set_solver|set_solver].
      * split_and!; [done..|]. exists l. split; [lia|done].
    + intros m x Hm. apply IH; [set_solver|done|done| | |lia].
      * intros y Hx. apply Hn in Hx as [Hx|(b & Hb & Hp)]; [by apply elem_of_nil in Hx|].
        by eapply path_succ; [apply Hg|].
      * intros j y Hj Hp. destruct (decide (j = S k)) as [->|]; [|apply Hvv, (Hv j); [lia|done]].
        inversion Hp as [|? ? z ? Hy Hyx]; subst.
        destruct (Hc z y) as [|]; [apply (Hv k); [lia|done]|done|set_solver|set_solver].
Qed.

Lemma first_ancestor_down_spec :
  match first_ancestor_down topo target down with
  | Some a =>
      a ∈ down /\ a <> target /\
      exists n, (0 < n <= MAX_DEPTH)%nat /\ path topo n target a /\
                forall m x, (m < n)%nat -> path topo m target x -> x = target \/ x ∉ down
  | None =>
      forall m x, (m <= MAX_DEPTH)%nat -> path topo m target x -> x = target \/ x ∉ down
  end.
Proof.
  unfold first_ancestor_down. destruct (parents topo !! target) as [up|] eqn:Hup; simpl.
  - apply (search_up_spec MAX_DEPTH 0 {[target]} up); [set_solver|..].
    + intros x Hx. set_solver.
    + intros y x ->%elem_of_singleton Hp. unfold parent in Hp. rewrite Hup in Hp. auto.
    + intros x Hx. eapply path_succ; [apply path_zero|]. unfold parent. by rewrite Hup.
    + intros j x Hj Hp. assert (j = 0)%nat as -> by lia. inversion Hp; subst. set_solver.
  - intros m x _ Hp. left. remember target as t eqn:E. induction Hp as [|n t y z Hp IH Hy]; [done|].
    rewrite IH in Hy by done. unfold parent in Hy. subst t. rewrite Hup in Hy.
    by apply elem_of_nil in Hy.
Qed.
End Search.

Lemma Topology_new_lookup_ne targets id :
  id ∉ tn_id <$> targets -> parents (Topology_new targets) !! id = None.
Proof.
  unfold Topology_new. simpl. intros Hid.
  assert (forall m : gmap TargetId (list TargetId), m !! id = None ->
    foldl (fun m t => <[tn_id t:=ascendants t]> m) m targets !! id = None) as H; [|by apply H].
  induction targets as [|t targets IH]; intros m Hm; simpl; [done|].
  rewrite fmap_cons, not_elem_of_cons in Hid. destruct Hid as [Hne Hid].
  apply IH; [done|]. by rewrite lookup_insert_ne.
Qed.

(** ** Properties *)

(** The search returns the nearest unreachable ancestor: a strict ancestor that
    is down, at a distance [n <= 64] such that nothing at a smaller distance is down;
    and it returns nothing only when no strict ancestor up to distance 64 is down.
    Cycles and shared ancestors of the filiation do not matter, and the search always
    ends. *)
Theorem first_ancestor_down_is_nearest topo target down :
  match first_ancestor_down topo target down with
  | Some a =>
      a ∈ down /\ a <> target /\
      exists n, (0 < n <= MAX_DEPTH)%nat /\ path topo n target a /\
                forall m x, (m < n)%nat -> path topo m target x -> x = target \/ x ∉ down
  | None =>
      forall m x, (m <= MAX_DEPTH)%nat -> path topo m target x -> x = target \/ x ∉ down
  end.
Proof. apply first_ancestor_down_spec. Qed.

(** On a filiation without cycles (every direct ascendant has a smaller rank),
    an outage is never silenced whole: among the unreachable targets there is one
    whose own "unreachable" alert is not suppressed. *)
Theorem outage_keeps_a_root_cause topo (rank : TargetId -> nat) (down : gset TargetId) :
  (forall y x, parent topo y x -> (rank x < rank y)%nat) ->
  down <> ∅ ->
  exists t, t ∈ down /\ suppression_for topo (Some t) true down = None.
Proof.
  intros Hrank Hne. apply set_choose_L in Hne as [t0 Ht0].
  remember (rank t0) as r eqn:Hr. revert t0 Ht0 Hr.
  induction (lt_wf r) as [r _ IH]. intros t Ht ->.
  pose proof (first_ancestor_down_spec topo t down) as Hs.
  destruct (first_ancestor_down topo t down) as [a|] eqn:E.
  - destruct Hs as (Ha & Hat & n & Hn & Hp & _). apply (IH (rank a)) with a; [|done|done].
    clear -Hrank Hp Hn. assert (0 < n)%nat as H by lia. clear Hn.
    induction Hp as [|n x y z Hp IH Hy]; [lia|]. apply Hrank in Hy.
    destruct n; [inversion Hp; subst; done|]. specialize (IH ltac:(lia)). lia.
  - exists t. split; [done|]. simpl. by rewrite E.
Qed.

Definition line_node (id : Z) (up : option Z) : TargetNode := {|
  tn_id := id; tn_name := display_i64 id; tn_address := ""; tn_kind := "snmp";
  tn_parent_id := up; tn_via_agent := None; tn_tags := ∅; tn_enabled := true;
  tn_unreachable := false |}.

Lemma outage_keeps_a_root_cause_witness :
  let topo := Topology_new [line_node 1 None; line_node 2 (Some 1); line_node 3 (Some 2)] in
  exists t, t ∈ ({[2; 3]} : gset Z) /\ suppression_for topo (Some t) true {[2; 3]} = None.
Proof.
  intros topo. apply (outage_keeps_a_root_cause topo Z.to_nat); [|done].
  intros y x. unfold parent.
  destruct (decide (y = 3)) as [->|H3]; [intros ->%list_elem_of_singleton; simpl; lia|].
  destruct (decide (y = 2)) as [->|H2]; [intros ->%list_elem_of_singleton; simpl; lia|].
  destruct (decide (y = 1)) as [->|H1]; [intros []%elem_of_nil|].
  unfold topo, Topology_new. simpl. rewrite !lookup_insert_ne by done. intros []%elem_of_nil.
Defined.

(** Two targets that are each other's ascendant (a switch polled through a relay
    agent that is plugged into it) and that are both unreachable silence each other:
    each "unreachable" alert is suppressed on account of the other, so nobody hears
    of the outage. *)
Theorem mutual_ascendants_silence_the_outage topo a b (down : gset TargetId) :
  a <> b -> parent topo a b -> parent topo b a -> a ∈ down -> b ∈ down ->
  is_Some (suppression_for topo (Some a) true down) /\
  is_Some (suppression_for topo (Some b) true down).
Proof.
  intros Hab Hpa Hpb Ha Hb.
  assert (forall x y, x <> y -> parent topo x y -> y ∈ down ->
            is_Some (suppression_for topo (Some x) true down)) as H.
  { intros x y Hxy Hp Hy. simpl. pose proof (first_ancestor_down_spec topo x down) as Hs.
    destruct (first_ancestor_down topo x down); [done|]. exfalso.
    destruct (Hs 1%nat y) as [|]; [unfold MAX_DEPTH; lia| |done|done].
    eapply path_succ; [apply path_zero|done]. }
  split; eauto.
Qed.

Lemma mutual_ascendants_silence_the_outage_witness :
  let topo := Topology_new [line_node 1 (Some 2); line_node 2 (Some 1)] in
  is_Some (suppression_for topo (Some 1) true {[1; 2]}) /\
  is_Some (suppression_for topo (Some 2) true {[1; 2]}).
Proof.
  intros topo. apply (mutual_ascendants_silence_the_outage topo); [done|..|set_solver|set_solver].
  - unfold parent. simpl. set_solver.
  - unfold parent. simpl. set_solver.
Defined.
