(* ===== verification/Silence.v ===== *)
(** * Maintenance windows ([alerting/silence.rs])

    One-off, weekly and monthly windows: which instants a window covers, when it
    opens next, and which alerts a silence keeps quiet. *)
From S2P Require Import Prelude Text Chrono Model.

Definition MINUTES_PER_DAY : Z := 24 * 60.
Definition MAX_DURATION_MINUTES : Z := 30 * MINUTES_PER_DAY.
Definition NEXT_SEARCH_DAYS : Z := 400.
Definition LAST_OF_MONTH : Z := -1.

Record NthWeekday := { nth : Z; nth_weekday : Z }.

Module Schedule.
Inductive Schedule :=
| Once (starts_at ends_at : DateTime)
| Weekly (days : list Z) (start_minute end_minute utc_offset_minutes : Z)
    (timezone : option string)
| Monthly (days : list Z) (nth_weekdays : list NthWeekday)
    (start_minute duration_minutes utc_offset_minutes : Z) (timezone : option string).
End Schedule.
Notation Schedule := Schedule.Schedule.

Section Silence.
Context {C : Calendar}.

Inductive Clock := Named (tz : Tz) | Fixed (offset_seconds : Z).

(** The clamped offset is within a day of UTC, so [FixedOffset::east_opt] accepts it. *)
Definition resolve (timezone : option string) (offset_minutes : Z) : Clock :=
  let named :=
    name ← option_filter (fun name => negb (bool_decide (name = ""))) (trim <$> timezone);
    tz_from_str name in
  match named with
  | Some tz => Named tz
  | None => Fixed (Z.max (-14 * 60) (Z.min offset_minutes (14 * 60)) * 60)
  end.

Definition date_of (c : Clock) (now : DateTime) : NaiveDate :=
  match c with
  | Named tz => tz_date tz now
  | Fixed offset => date_of_ns (now + td_seconds offset)
  end.

Definition instant_at (c : Clock) (date : NaiveDate) (minute : Z) : option DateTime :=
  let minute := minute mod MINUTES_PER_DAY in
  let naive := naive_at date minute in
  match c with
  | Fixed offset => Some (naive - td_seconds offset)
  | Named tz =>
      match tz_earliest tz naive with
      | Some at_ => Some at_
      | None => find_map (fun hours => tz_earliest tz (naive + td_hours hours)) [1; 2; 3; 4]
      end
  end.

Definition clock (s : Schedule) : option Clock :=
  match s with
  | Schedule.Once _ _ => None
  | Schedule.Weekly _ _ _ offset timezone => Some (resolve timezone offset)
  | Schedule.Monthly _ _ _ _ offset timezone => Some (resolve timezone offset)
  end.

Definition timezone (s : Schedule) : option string :=
  match s with
  | Schedule.Once _ _ => None
  | Schedule.Weekly _ _ _ _ timezone | Schedule.Monthly _ _ _ _ _ timezone => timezone
  end.

Definition duration (s : Schedule) : TimeDelta :=
  match s with
  | Schedule.Once starts_at ends_at => ends_at - starts_at
  | Schedule.Weekly _ start_minute end_minute _ _ =>
      let start := start_minute mod MINUTES_PER_DAY in
      let stop := end_minute mod MINUTES_PER_DAY in
      td_minutes (if start <? stop then stop - start else MINUTES_PER_DAY - start + stop)
  | Schedule.Monthly _ _ _ duration_minutes _ _ => td_minutes (Z.max duration_minutes 1)
  end.

Definition start_minute (s : Schedule) : Z :=
  match s with
  | Schedule.Once _ _ => 0
  | Schedule.Weekly _ start _ _ _ | Schedule.Monthly _ _ start _ _ _ =>
      start mod MINUTES_PER_DAY
  end.

Definition nth_matches (date : NaiveDate) (n : NthWeekday) : bool :=
  if negb (weekday date =? nth_weekday n) then false
  else if 0 <? nth n then
    let rank := (day date - 1) / 7 + 1 in
    (rank <=? 127) && (rank =? nth n)
  else
    match checked_add_days date 7 with
    | None => true
    | Some next => negb (month next =? month date)
    end.

Definition selects (s : Schedule) (date : NaiveDate) : bool :=
  match s with
  | Schedule.Once _ _ => false
  | Schedule.Weekly days _ _ _ _ => bool_decide (weekday date ∈ days)
  | Schedule.Monthly days nth_weekdays _ _ _ _ =>
      existsb (fun wanted => wanted =? day date) days ||
      existsb (nth_matches date) nth_weekdays
  end.

Definition window_containing (s : Schedule) (now : DateTime) : option (DateTime * DateTime) :=
  match s with
  | Schedule.Once starts_at ends_at =>
      if (starts_at <=? now) && (now <? ends_at) then Some (starts_at, ends_at) else None
  | _ =>
      c ← clock s;
      let duration := duration s in
      let start_minute := start_minute s in
      let back := Z.max (num_days duration) 0 + 1 in
      let today := date_of c now in
      find_map (fun offset =>
        date ← checked_sub_days today offset;
        if negb (selects s date) then None
        else
          start ← instant_at c date start_minute;
          let stop := start + duration in
          if (start <=? now) && (now <? stop) then Some (start, stop) else None)
        (seqZ 0 (back + 1))
  end.

Definition covers (s : Schedule) (now : DateTime) : bool :=
  bool_decide (is_Some (window_containing s now)).

(** The loop stops at the first date past the calendar's end. *)
Fixpoint next_start_from (s : Schedule) (c : Clock) (now today : Z) (offsets : list Z) :
    option DateTime :=
  match offsets with
  | [] => None
  | offset :: offsets' =>
      match checked_add_days today offset with
      | None => None
      | Some date =>
          if negb (selects s date) then next_start_from s c now today offsets'
          else
            match instant_at c date (start_minute s) with
            | None => next_start_from s c now today offsets'
            | Some start =>
                if now <? start then Some start
                else next_start_from s c now today offsets'
            end
      end
  end.

Definition next_start (s : Schedule) (now : DateTime) : option DateTime :=
  match s with
  | Schedule.Once starts_at _ => if now <? starts_at then Some starts_at else None
  | _ =>
      c ← clock s;
      next_start_from s c now (date_of c now) (seqZ 0 (NEXT_SEARCH_DAYS + 1))
  end.

Definition is_expired (s : Schedule) (now : DateTime) : bool :=
  match s with
  | Schedule.Once _ ends_at => ends_at <=? now
  | Schedule.Weekly _ _ _ _ _ | Schedule.Monthly _ _ _ _ _ _ => false
  end.

(** A maintenance window and what it covers. *)
Record Silence := {
  sl_id : Z;
  sl_name : string;
  sl_comment : string;
  sl_target_id : option TargetId;
  sl_matchers : gmap string string;
  sl_schedule : Schedule;
  sl_enabled : bool;
}.

Definition Silence_matches (s : Silence) (now : DateTime) (target : option TargetId)
    (labels : gmap string string) : bool :=
  if negb (sl_enabled s) || negb (covers (sl_schedule s) now) then false
  else
    match sl_target_id s with
    | Some wanted => bool_decide (target = Some wanted)
    | None => true
    end &&
    forallb (fun '(key, value) => bool_decide (labels !! key = Some value))
            (btree_to_list string_cmp (sl_matchers s)).

Definition first_match (silences : list Silence) (now : DateTime) (target : option TargetId)
    (labels : gmap string string) : option Silence :=
  find_map (fun s => if Silence_matches s now target labels then Some s else None) silences.
End Silence.

(** ** Facts *)

Section Windows.
Context {C : Calendar}.

Definition recurrent (s : Schedule) : Prop :=
  match s with Schedule.Once _ _ => False | _ => True end.

(** [opening s c d start]: the occurrence of date [d] opens at [start]. *)
Definition opening (s : Schedule) (c : Clock) (d : NaiveDate) (start : DateTime) : Prop :=
  in_range d /\ selects s d = true /\ instant_at c d (start_minute s) = Some start.

Lemma start_minute_range s : 0 <= start_minute s < MINUTES_PER_DAY.
Proof. destruct s; simpl; [done|apply Z.mod_pos_bound; done..]. Qed.

Lemma duration_pos s : recurrent s -> 0 < duration s.
Proof.
  destruct s; simpl; [done|intros _..]; unfold td_minutes.
  - apply Z.mul_pos_pos; [|done].
    pose proof (Z.mod_pos_bound start_minute0 MINUTES_PER_DAY ltac:(done)).
    pose proof (Z.mod_pos_bound end_minute MINUTES_PER_DAY ltac:(done)).
    destruct (Z.ltb_spec (start_minute0 mod MINUTES_PER_DAY) (end_minute mod MINUTES_PER_DAY)); lia.
  - apply Z.mul_pos_pos; lia || done.
Qed.

(** The window of a recurrent schedule, read as a search over the last dates. *)
Lemma window_recurrent s c now :
  clock s = Some c ->
  window_containing s now =
  find_map (fun offset =>
    date ← checked_sub_days (date_of c now) offset;
    if negb (selects s date) then None
    else
      start ← instant_at c date (start_minute s);
      if (start <=? now) && (now <? start + duration s) then Some (start, start + duration s)
      else None)
    (seqZ 0 (Z.max (num_days (duration s)) 0 + 1 + 1)).
Proof. destruct s; simpl; [done|by intros [= ->]..]. Qed.

Lemma window_Some_inv s c now a b :
  clock s = Some c -> window_containing s now = Some (a, b) ->
  exists d, opening s c d a /\ b = a + duration s /\ a <= now < b /\
            date_of c now - (Z.max (num_days (duration s)) 0 + 1) <= d <= date_of c now.
Proof.
  intros Hc. rewrite (window_recurrent s c) by done.
  intros (l1 & k & l2 & Hl & Hk & _)%find_map_Some.
  assert (k ∈ seqZ 0 (Z.max (num_days (duration s)) 0 + 1 + 1)) as Hin%elem_of_seqZ
    by (rewrite Hl; set_solver).
  destruct (checked_sub_days _ k) as [d|] eqn:Hd; [|done]. simpl in Hk.
  apply checked_sub_days_inv in Hd as [-> Hd].
  destruct (selects s _) eqn:Hs; [|done]. simpl in Hk.
  destruct (instant_at c _ _) as [st|] eqn:Hi; [|done]. simpl in Hk.
  destruct (_ && _) eqn:Hb; [|done]. bools. simplify_eq.
  eexists. split_and!; [done..| |]; lia.
Qed.

Lemma window_is_Some s c now d a :
  clock s = Some c -> opening s c d a -> a <= now < a + duration s ->
  date_of c now - (Z.max (num_days (duration s)) 0 + 1) <= d <= date_of c now ->
  is_Some (window_containing s now).
Proof.
  intros Hc (Hd & Hs & Hi) Hnow Hback. rewrite (window_recurrent s c) by done.
  apply find_map_is_Some. exists (date_of c now - d). split.
  { apply elem_of_seqZ. lia. }
  rewrite checked_sub_days_in; simpl; replace (date_of c now - (date_of c now - d)) with d by lia;
    [|done].
  rewrite Hs. simpl. rewrite Hi. simpl.
  rewrite (proj2 (Z.leb_le _ _)), (proj2 (Z.ltb_lt _ _)) by lia. by eexists.
Qed.

(** A fixed clock opens the occurrence of a date on that date. *)
Lemma fixed_instant off d m :
  0 <= m < MINUTES_PER_DAY ->
  instant_at (Fixed off) d m = Some (td_days d + td_minutes m - td_seconds off).
Proof. intros Hm. simpl. by rewrite Z.mod_small. Qed.

Lemma fixed_window_dates s off now d a :
  recurrent s -> opening s (Fixed off) d a -> a <= now < a + duration s ->
  date_of (Fixed off) now - (Z.max (num_days (duration s)) 0 + 1) <= d <= date_of (Fixed off) now.
Proof.
  intros Hr (_ & _ & Hi) Hnow. pose proof (start_minute_range s) as Hm.
  rewrite fixed_instant in Hi by done. injection Hi as <-. pose proof (duration_pos s Hr) as Hp.
  unfold date_of, date_of_ns, num_days.
  rewrite Z.quot_div_nonneg by (done || lia).
  unfold MINUTES_PER_DAY, td_days, td_minutes, ns_per_day, td_days, ns_per_s in *.
  change (1 * (86400 * 1000000000)) with 86400000000000 in *.
  change (86400 * 1000000000) with 86400000000000 in *.
  change (60 * 1000000000) with 60000000000 in *.
  set (L := now + td_seconds off) in *. set (D := duration s) in *.
  pose proof (Z.div_mod L 86400000000000 ltac:(done)).
  pose proof (Z.mod_pos_bound L 86400000000000 ltac:(done)).
  pose proof (Z.div_mod D 86400000000000 ltac:(done)).
  pose proof (Z.mod_pos_bound D 86400000000000 ltac:(done)).
  pose proof (Z.div_pos D 86400000000000 ltac:(lia) ltac:(done)).
  rewrite Z.max_l by done. lia.
Qed.

(** Within a month, a week earlier and later is the same weekday. *)
Section Month.
Context `{!CalendarLaws C}.

Lemma weekday_add d k : 0 <= k -> in_range d -> in_range (d + k) ->
  weekday (d + k) = (weekday d + k) mod 7.
Proof using Type*.
  intros Hk Hd. revert k Hk. apply (natlike_ind (fun k => in_range (d + k) -> _)).
  - intros _. rewrite !Z.add_0_r, Z.mod_small; [done|]. by apply weekday_range.
  - intros k Hk IH Hr. unfold in_range in *.
    replace (d + Z.succ k) with (d + k + 1) by lia.
    rewrite weekday_next by (unfold in_range; lia). rewrite IH by lia.
    rewrite Zplus_mod_idemp_l. f_equal. lia.
Qed.

Lemma weekday_sub d w j : weekday d = w -> 0 <= j -> in_range d -> in_range (d - j) ->
  (weekday (d - j) = w <-> j mod 7 = 0).
Proof using Type*.
  intros Hw Hj Hd Hr. pose proof (weekday_range (d - j) Hr).
  pose proof (weekday_add (d - j) j Hj Hr) as H'. rewrite Z.sub_add in H'.
  specialize (H' Hd). subst w. rewrite H'.
  pose proof (Z.div_mod (weekday (d - j) + j) 7 ltac:(done)).
  pose proof (Z.mod_pos_bound (weekday (d - j) + j) 7 ltac:(done)).
  pose proof (Z.div_mod j 7 ltac:(done)). pose proof (Z.mod_pos_bound j 7 ltac:(done)). lia.
Qed.

(** Dates with the weekday of [d] among the last [k] dates up to [d]. *)
Lemma month_count d w k : weekday d = w -> in_range d -> in_range (d - (Z.of_nat k - 1)) ->
  (0 < k)%nat ->
  Z.of_nat (length (filter (fun e => weekday e = w) (seqZ (d - (Z.of_nat k - 1)) (Z.of_nat k))))
  = (Z.of_nat k - 1) / 7 + 1.
Proof using Type*.
  intros Hw Hd. induction k as [|k IH]; [lia|]. intros Hr _.
  rewrite seqZ_cons by lia.
  replace (Z.succ (d - (Z.of_nat (S k) - 1))) with (d - (Z.of_nat k - 1)) by lia.
  replace (Z.pred (Z.of_nat (S k))) with (Z.of_nat k) by lia.
  rewrite filter_cons. replace (Z.of_nat (S k) - 1) with (Z.of_nat k) in * by lia.
  pose proof (weekday_sub d w (Z.of_nat k) Hw ltac:(lia) Hd Hr) as Hk.
  pose proof (Z.div_mod (Z.of_nat k) 7 ltac:(done)).
  pose proof (Z.mod_pos_bound (Z.of_nat k) 7 ltac:(done)).
  pose proof (Z.div_mod (Z.of_nat k - 1) 7 ltac:(done)).
  pose proof (Z.mod_pos_bound (Z.of_nat k - 1) 7 ltac:(done)).
  destruct (decide (k = 0%nat)) as [->|].
  { rewrite decide_True by (by apply Hk). reflexivity. }
  unfold in_range in *. specialize (IH ltac:(lia) ltac:(lia)).
  case_decide; simpl length; lia.
Qed.

Lemma day_sub d k : in_range d -> 0 <= k < day d -> in_range (d - k) ->
  day (d - k) = day d - k /\ month (d - k) = month d.
Proof using Type*.
  intros Hd [Hk0 Hk]. revert k Hk0 Hk.
  apply (natlike_ind (fun k => k < day d -> in_range (d - k) -> _)).
  - intros _ _. by rewrite !Z.sub_0_r.
  - intros k Hk IH Hlt Hr. unfold in_range in *.
    destruct IH as [IH1 IH2]; [lia..|].
    destruct (day_next (d - Z.succ k)) as [[Hm He]|(Hm & He & _)];
      [unfold in_range; lia..| |];
      replace (d - Z.succ k + 1) with (d - k) in * by lia; [|lia].
    split; [lia|congruence].
Qed.

Lemma day_add_week d : in_range d -> in_range (d + 7) ->
  (month (d + 7) = month d /\ day (d + 7) = day d + 7) \/
  (month (d + 7) <> month d /\ day (d + 7) <= 7).
Proof using Type*.
  intros Hd Hd7.
  assert (forall k, 0 <= k -> k <= 7 ->
    (month (d + k) = month d /\ day (d + k) = day d + k) \/
    (month (d + k) <> month d /\ 1 <= day (d + k) <= k)) as H.
  { apply (natlike_ind (fun k => k <= 7 -> _)).
    - intros _. left. rewrite Z.add_0_r. split; [done|lia].
    - intros k Hk IH Hle. unfold in_range in *.
      replace (d + Z.succ k) with (d + k + 1) by lia.
      destruct (day_next (d + k)) as [[Hm He]|(Hm & He & ?)]; [unfold in_range; lia..| |];
        destruct IH as [[IH1 IH2]|[IH1 IH2]]; try lia;
        (left; split; [congruence|lia]) || (right; split; [congruence|lia]). }
  destruct (H 7) as [|[? ?]]; [lia..|by left|right]. split; [done|lia].
Qed.
End Month.
End Windows.

Section Next.
Context {C : Calendar}.

Lemma next_start_from_spec s c now today n k :
  match next_start_from s c now today (seqZ k (Z.of_nat n)) with
  | Some t =>
      now < t /\
      exists d, k <= d - today < k + Z.of_nat n /\ opening s c d t /\
                forall d' t', opening s c d' t' -> k <= d' - today -> d' < d -> t' <= now
  | None =>
      today + k <= date_max -> date_min <= today + k ->
      forall d' t', opening s c d' t' -> k <= d' - today < k + Z.of_nat n -> t' <= now
  end.
Proof.
  revert k. induction n as [|n IH]; intros k.
  { simpl. intros _ _ d' t' _ H. lia. }
  rewrite seqZ_cons by lia. replace (Z.pred (Z.of_nat (S n))) with (Z.of_nat n) by lia.
  simpl. specialize (IH (Z.succ k)).
  destruct (checked_add_days today k) as [d|] eqn:Hd.
  2:{ intros H1 H2. unfold checked_add_days in Hd.
      rewrite !(proj2 (Z.leb_le _ _)) in Hd by done. done. }
  apply checked_add_days_inv in Hd as [-> Hd].
  (* what remains when the date [today + k] itself is not the answer *)
  assert (Hskip : (forall t', opening s c (today + k) t' -> t' <= now) ->
    match next_start_from s c now today (seqZ (Z.succ k) (Z.of_nat n)) with
    | Some t =>
        now < t /\
        exists d, k <= d - today < k + Z.of_nat (S n) /\ opening s c d t /\
                  forall d' t', opening s c d' t' -> k <= d' - today -> d' < d -> t' <= now
    | None =>
        today + k <= date_max -> date_min <= today + k ->
        forall d' t', opening s c d' t' -> k <= d' - today < k + Z.of_nat (S n) -> t' <= now
    end).
  { intros Hk. destruct next_start_from as [t|].
    - destruct IH as (Ht & d & ? & Ho & Hmin).
      split; [done|]. exists d. split; [lia|]. split; [done|].
      intros d' t' Ho' Hge Hlt. destruct (decide (d' = today + k)) as [->|]; [by apply Hk|].
      eapply Hmin; [done|lia..].
    - intros _ _ d' t' Ho' Hin. destruct (decide (d' = today + k)) as [->|]; [by apply Hk|].
      assert (in_range d') as Hr by apply Ho'. unfold in_range in *.
      eapply IH; [lia|lia|done|lia]. }
  destruct (selects s (today + k)) eqn:Hs; simpl.
  2:{ apply Hskip. intros t' (_ & H & _). congruence. }
  destruct (instant_at c (today + k) (start_minute s)) as [st|] eqn:Hi.
  2:{ apply Hskip. intros t' (_ & _ & H). congruence. }
  destruct (Z.ltb_spec now st).
  - split; [done|]. exists (today + k). split; [lia|]. split; [done|]. lia.
  - apply Hskip. intros t' (_ & _ & H'). rewrite Hi in H'. by injection H' as <-.
Qed.
End Next.

(** ** Properties *)

(** What [window_containing] answers is a real occurrence, on any clock: the
    instant lies in [start, end), the window lasts exactly the schedule's duration of
    absolute time, and a recurrent window opens at the wall-clock minute of a date the
    recurrence selects. *)
Theorem window_containing_is_an_occurrence {C : Calendar} (s : Schedule) now a b :
  window_containing s now = Some (a, b) ->
  a <= now < b /\ b = a + duration s /\
  match clock s with
  | None => s = Schedule.Once a b
  | Some c => exists d, in_range d /\ selects s d = true /\
                        instant_at c d (start_minute s) = Some a
  end.
Proof.
  intros Hw. destruct (clock s) as [c|] eqn:Hc.
  - destruct (window_Some_inv s c now a b Hc Hw) as (d & Ho & Hb & Hnow & _).
    split_and!; [lia..|]. by exists d.
  - destruct s; [|done..]. simpl in *. destruct (_ && _) eqn:E; [|done]. bools.
    simplify_eq. split_and!; [lia..|done].
Qed.

Lemma window_containing_is_an_occurrence_witness :
  let s := Schedule.Weekly [6] 120 240 60 None in
  let now := td_days 20541 + td_minutes 100 in
  now < td_days 20541 + td_minutes 180 /\ duration s = td_minutes 120.
Proof.
  intros s now.
  destruct (window_containing_is_an_occurrence s now (td_days 20541 + td_minutes 60)
              (td_days 20541 + td_minutes 180)) as (H & Hb & _); [reflexivity|].
  split; [apply H|]. unfold td_minutes in *. lia.
Defined.

(** On a clock at a fixed offset the window is exactly the union of its
    occurrences: an instant is covered if and only if some selected date opens, at its
    local start minute, a window of the schedule's duration that contains it.  The
    bounded search backwards misses nothing. *)
Theorem fixed_offset_window_is_complete {C : Calendar} (s : Schedule) off now :
  clock s = Some (Fixed off) ->
  (covers s now = true <->
   exists d, in_range d /\ selects s d = true /\
     let start := td_days d + td_minutes (start_minute s) - td_seconds off in
     start <= now < start + duration s).
Proof.
  intros Hc. unfold covers. rewrite bool_decide_eq_true. split.
  - intros [[a b] Hw]. destruct (window_Some_inv s _ now a b Hc Hw) as (d & Ho & Hb & Hnow & _).
    exists d. destruct Ho as (? & ? & Hi). split; [done|]. split; [done|].
    rewrite fixed_instant in Hi by apply start_minute_range. injection Hi as <-. lia.
  - intros (d & Hd & Hs & Hnow). cbv zeta in Hnow.
    assert (opening s (Fixed off) d
              (td_days d + td_minutes (start_minute s) - td_seconds off)) as Ho.
    { split_and!; [done..|]. apply fixed_instant, start_minute_range. }
    eapply window_is_Some; [done|done|done|].
    eapply fixed_window_dates; [|done|done]. by destruct s.
Qed.

Lemma fixed_offset_window_is_complete_witness :
  covers (Schedule.Weekly [5] 1380 60 60 None) (td_days 20541 - td_minutes 30) = true.
Proof.
  apply (fixed_offset_window_is_complete _ 3600); [reflexivity|].
  exists 20540. split_and!; [split; vm_compute; discriminate|reflexivity|].
  split; [vm_compute; discriminate|reflexivity].
Defined.

(** On a named time zone the search back is one day short when the clock jumps
    forward inside a nearly day-long window: the weekly window opened on Saturday
    2026-03-28 at 23:30 Paris time for 23 h 45 min of absolute time no longer covers
    its own last minutes, after the local midnight of Monday. *)
Theorem dst_jump_truncates_a_long_window :
  let s := Schedule.Weekly [5] 1410 1395 0 (Some "Europe/Paris") in
  exists c d start now,
    clock s = Some c /\ in_range d /\ selects s d = true /\
    instant_at c d (start_minute s) = Some start /\
    start <= now < start + duration s /\ covers s now = false.
Proof.
  intros s. exists (Named (Gregorian.paris : @Tz Gregorian.calendar)), 20540, (td_seconds 1774737000), (td_seconds 1774822000).
  split_and!; try reflexivity; vm_compute; done.
Qed.

(** The announced next occurrence is the next one: on a fixed-offset clock,
    [next_start] is strictly in the future, is the opening of a selected date, and no
    selected date opens between now and it; and when it announces nothing, no date of
    the next four hundred days opens after now. *)
Theorem next_start_is_the_next_opening {C : Calendar} (s : Schedule) off now :
  clock s = Some (Fixed off) -> in_range (date_of (Fixed off) now) ->
  match next_start s now with
  | Some t =>
      now < t /\ (exists d, opening s (Fixed off) d t) /\
      forall d' t', opening s (Fixed off) d' t' -> now < t' -> t <= t'
  | None =>
      forall d' t', opening s (Fixed off) d' t' ->
        d' <= date_of (Fixed off) now + NEXT_SEARCH_DAYS -> t' <= now
  end.
Proof.
  intros Hc Hr.
  assert (Hns : next_start s now = next_start_from s (Fixed off) now (date_of (Fixed off) now)
                                     (seqZ 0 (Z.of_nat (Z.to_nat (NEXT_SEARCH_DAYS + 1))))).
  { rewrite Z2Nat.id by done. unfold next_start. destruct s; [discriminate|by rewrite Hc..]. }
  pose proof (next_start_from_spec s (Fixed off) now (date_of (Fixed off) now)
                (Z.to_nat (NEXT_SEARCH_DAYS + 1)) 0) as H.
  rewrite <-Hns, Z2Nat.id in H by done.
  assert (Hpast : forall d' t', opening s (Fixed off) d' t' ->
                    d' < date_of (Fixed off) now -> t' <= now).
  { intros d' t' (_ & _ & Hi) Hlt. pose proof (start_minute_range s) as Hm.
    rewrite fixed_instant in Hi by done. injection Hi as <-.
    unfold date_of, date_of_ns in Hlt.
    pose proof (Z.mul_div_le (now + td_seconds off) ns_per_day ltac:(done)).
    unfold td_days, td_minutes, ns_per_day, td_days, ns_per_s, MINUTES_PER_DAY in *. lia. }
  assert (Hmono : forall d1 t1 d2 t2, opening s (Fixed off) d1 t1 -> opening s (Fixed off) d2 t2 ->
                    d1 <= d2 -> t1 <= t2).
  { intros d1 t1 d2 t2 (_ & _ & H1) (_ & _ & H2) Hle.
    rewrite fixed_instant in H1, H2 by apply start_minute_range.
    injection H1 as <-. injection H2 as <-. unfold td_days, ns_per_s. lia. }
  destruct (next_start s now) as [t|].
  - destruct H as (Ht & d & Hd & Ho & Hmin). split; [done|]. split; [by exists d|].
    intros d' t' Ho' Hlt. destruct (decide (d' < d)); [|eapply Hmono; [done..|lia]].
    destruct (decide (d' < date_of (Fixed off) now)).
    + specialize (Hpast _ _ Ho'). lia.
    + specialize (Hmin _ _ Ho'). lia.
  - intros d' t' Ho' Hle. destruct (decide (d' < date_of (Fixed off) now)); [by eapply Hpast|].
    unfold in_range, NEXT_SEARCH_DAYS in *. eapply H; [lia..|done|lia].
Qed.

Lemma next_start_is_the_next_opening_witness :
  let s := Schedule.Weekly [6] 120 240 60 None in
  let now := td_days 20535 in
  now < td_days 20541 + td_minutes 60 /\
  (exists d, opening s (Fixed 3600) d (td_days 20541 + td_minutes 60)) /\
  forall d' t', opening s (Fixed 3600) d' t' -> now < t' -> td_days 20541 + td_minutes 60 <= t'.
Proof.
  intros s now.
  pose proof (next_start_is_the_next_opening s 3600 now) as H.
  assert (next_start s now = Some (td_days 20541 + td_minutes 60)) as E
    by (vm_compute; reflexivity).
  rewrite E in H. apply H; [reflexivity|]. split; vm_compute; discriminate.
Defined.

(** "The n-th weekday of the month" means what it says: for n from 1 to 5 a date is
    selected exactly when it has the weekday and is the n-th date of its month, counted
    from the first of the month, that has it; and "the last one" (-1) exactly when it
    has the weekday and the date a week later is not in the same month. *)
Theorem nth_weekday_counts_within_the_month {C : Calendar} `{!CalendarLaws C} d n w :
  in_range (d - 30) -> in_range d -> in_range (d + 7) -> 1 <= n ->
  (nth_matches d {| nth := n; nth_weekday := w |} = true <->
   weekday d = w /\
   Z.of_nat (length (filter (fun e => weekday e = w) (seqZ (d - (day d - 1)) (day d)))) = n) /\
  (nth_matches d {| nth := LAST_OF_MONTH; nth_weekday := w |} = true <->
   weekday d = w /\ month (d + 7) <> month d).
Proof.
  intros Hm Hd Hd7 Hn. pose proof (day_range d Hd) as Hday. split.
  - unfold nth_matches. simpl. destruct (Z.eqb_spec (weekday d) w) as [Hw|]; [|naive_solver].
    rewrite (proj2 (Z.ltb_lt 0 n)) by lia. simpl.
    enough (Z.of_nat (length (filter (fun e => weekday e = w) (seqZ (d - (day d - 1)) (day d))))
            = (day d - 1) / 7 + 1) as ->.
    { rewrite andb_true_iff, Z.leb_le, Z.eqb_eq.
      assert ((day d - 1) / 7 < 5) by (apply Z.div_lt_upper_bound; lia). naive_solver lia. }
    pose proof (month_count d w (Z.to_nat (day d)) Hw Hd) as H.
    rewrite Z2Nat.id in H by lia. apply H; unfold in_range in *; lia.
  - unfold nth_matches, LAST_OF_MONTH. simpl.
    destruct (Z.eqb_spec (weekday d) w) as [Hw|]; [|naive_solver]. simpl.
    rewrite checked_add_days_in by done. rewrite negb_true_iff, Z.eqb_neq. naive_solver.
Qed.

Lemma nth_weekday_counts_within_the_month_witness :
  nth_matches 20520 {| nth := 2; nth_weekday := 6 |} = true /\
  nth_matches 20541 {| nth := LAST_OF_MONTH; nth_weekday := 6 |} = true.
Proof.
  split.
  - apply (nth_weekday_counts_within_the_month 20520 2 6);
      [split; vm_compute; discriminate..|done|]. split; vm_compute; reflexivity.
  - apply (nth_weekday_counts_within_the_month 20541 1 6);
      [split; vm_compute; discriminate..|done|]. split; [reflexivity|vm_compute; discriminate].
Defined.
