(* ===== verification/Matcher.v ===== *)
(** * Routing by labels ([alerting/matcher.rs])

    What a notification channel accepts: conditions grouped in families, an
    [include] part read "or inside a family, and between families", and an
    [exclude] part that always wins. *)
From S2P Require Import Prelude.

Record MatchContext := {
  ctx_rule_uid : string;
  ctx_kind : string;
  ctx_tags : gmap string string;
}.

Module Condition.
Inductive Condition :=
| Tag (key value : string)
| Kind (value : string)
| Rule (value : string).

#[global] Instance eq_dec : EqDecision Condition.
Proof. solve_decision. Defined.

Definition holds (c : Condition) (ctx : MatchContext) : bool :=
  match c with
  | Tag key value => bool_decide (ctx_tags ctx !! key = Some value)
  | Kind value => bool_decide (ctx_kind ctx = value)
  | Rule value => bool_decide (ctx_rule_uid ctx = value)
  end.

Definition family (c : Condition) : string * string :=
  match c with
  | Tag key _ => ("tag", key)
  | Kind _ => ("kind", "")
  | Rule _ => ("rule", "")
  end.

Definition is_rule (c : Condition) : bool := match c with Rule _ => true | _ => false end.
End Condition.
Notation Condition := Condition.Condition.

Module ChannelMatcher.
Record ChannelMatcher := { include : list Condition; exclude : list Condition }.

Definition default : ChannelMatcher := {| include := []; exclude := [] |}.

Definition is_empty (m : ChannelMatcher) : bool :=
  match include m, exclude m with [], [] => true | _, _ => false end.

Definition len (m : ChannelMatcher) : nat := (length (include m) + length (exclude m))%nat.

Definition device_part (m : ChannelMatcher) : ChannelMatcher :=
  let keep := filter (fun c => Condition.is_rule c = false) in
  {| include := keep (include m); exclude := keep (exclude m) |}.

Definition rule_values (m : ChannelMatcher) : list string * list string :=
  let pick := omap (fun c => match c with Condition.Rule value => Some value | _ => None end) in
  (pick (include m), pick (exclude m)).

(** The families present, each once, in order of first appearance. *)
Definition families (conditions : list Condition) : list (string * string) :=
  foldl (fun fs c => if decide (Condition.family c ∈ fs) then fs else fs ++ [Condition.family c])
        [] conditions.

Definition accepts (m : ChannelMatcher) (ctx : MatchContext) : bool :=
  if existsb (fun c => Condition.holds c ctx) (exclude m) then false
  else match include m with
       | [] => true
       | _ =>
           forallb (fun family =>
             existsb (fun c => Condition.holds c ctx)
               (filter (fun c => Condition.family c = family) (include m)))
             (families (include m))
       end.
End ChannelMatcher.
Notation ChannelMatcher := ChannelMatcher.ChannelMatcher.

(** ** Facts *)

Lemma elem_of_families cs f :
  f ∈ ChannelMatcher.families cs <-> exists c, c ∈ cs /\ Condition.family c = f.
Proof.
  unfold ChannelMatcher.families.
  assert (forall fs, f ∈ foldl (fun fs c => if decide (Condition.family c ∈ fs) then fs
                               else fs ++ [Condition.family c]) fs cs <->
            f ∈ fs \/ exists c, c ∈ cs /\ Condition.family c = f) as H.
  { induction cs as [|c cs IH]; intros fs; simpl; [set_solver|]. rewrite IH.
    case_decide; set_solver. }
  rewrite H. set_solver.
Qed.

Lemma accepts_spec m ctx :
  ChannelMatcher.accepts m ctx = true <->
  (forall c, c ∈ ChannelMatcher.exclude m -> Condition.holds c ctx = false) /\
  (forall c, c ∈ ChannelMatcher.include m ->
     exists c', c' ∈ ChannelMatcher.include m /\ Condition.family c' = Condition.family c /\
                Condition.holds c' ctx = true).
Proof.
  unfold ChannelMatcher.accepts.
  destruct (existsb _ (ChannelMatcher.exclude m)) eqn:He.
  { apply existsb_elem in He as (c & ? & ?). naive_solver congruence. }
  assert (forall c, c ∈ ChannelMatcher.exclude m -> Condition.holds c ctx = false) as Hx.
  { intros c Hc. apply not_true_iff_false. intros Hh.
    apply not_true_iff_false in He. apply He, existsb_elem. eauto. }
  assert (forall l, forallb (fun family => existsb (fun c => Condition.holds c ctx)
              (filter (fun c => Condition.family c = family) l)) (ChannelMatcher.families l) = true <->
            forall c, c ∈ l -> exists c', c' ∈ l /\ Condition.family c' = Condition.family c /\
                                Condition.holds c' ctx = true) as Hi.
  { intros l. rewrite forallb_elem. setoid_rewrite elem_of_families.
    setoid_rewrite existsb_elem. setoid_rewrite list_elem_of_filter. naive_solver. }
  destruct (ChannelMatcher.include m) as [|c l] eqn:Hl.
  - split; [|done]. intros _. split; [done|]. by intros c ?%elem_of_nil.
  - rewrite (Hi (c :: l)). naive_solver.
Qed.

(** ** Properties *)

(** A channel accepts an alert exactly when no excluded condition holds and
    every included condition has, in its own family, an included condition that
    holds: "or" inside a family, "and" between families, exclusion first.  An empty
    filter accepts everything, and whatever a filter accepts, the device part of it
    that the preview evaluates accepts too. *)
Theorem channel_filter_reads_as_documented m ctx :
  (ChannelMatcher.accepts m ctx = true <->
   (forall c, c ∈ ChannelMatcher.exclude m -> Condition.holds c ctx = false) /\
   (forall c, c ∈ ChannelMatcher.include m ->
      exists c', c' ∈ ChannelMatcher.include m /\ Condition.family c' = Condition.family c /\
                 Condition.holds c' ctx = true)) /\
  (ChannelMatcher.is_empty m = true -> ChannelMatcher.accepts m ctx = true) /\
  (ChannelMatcher.accepts m ctx = true ->
   ChannelMatcher.accepts (ChannelMatcher.device_part m) ctx = true).
Proof.
  split; [apply accepts_spec|]. split.
  - unfold ChannelMatcher.is_empty. destruct m as [[] []]; by simpl.
  - rewrite !accepts_spec. intros [Hx Hi]. simpl. split; intros c [Hr Hc]%list_elem_of_filter.
    + by apply Hx.
    + destruct (Hi c Hc) as (c' & ? & Hf & ?). exists c'. split; [|done].
      apply list_elem_of_filter. split; [|done]. by destruct c, c'.
Qed.

Lemma channel_filter_reads_as_documented_witness :
  let m := {| ChannelMatcher.include := [Condition.Tag "site" "cellar"; Condition.Tag "site" "attic";
                                         Condition.Rule "disk_full"];
              ChannelMatcher.exclude := [Condition.Tag "role" "lab"] |} in
  let ctx := {| ctx_rule_uid := "disk_full"; ctx_kind := "snmp";
                ctx_tags := {["site" := "attic"]} |} in
  ChannelMatcher.accepts m ctx = true /\
  ChannelMatcher.accepts (ChannelMatcher.device_part m) ctx = true.
Proof.
  intros m ctx. split; [reflexivity|].
  apply (channel_filter_reads_as_documented m ctx). reflexivity.
Defined.
