(* ===== verification/Overrides.v ===== *)
(** * Per-target overrides of a rule ([alerting/overrides.rs]) *)
From S2P Require Import Prelude Float64 Model.

Record RuleOverride := {
  ro_rule_uid : string;
  ro_target_id : TargetId;
  ro_threshold : option f64;
  ro_clear_threshold : option f64;
  ro_enabled : option bool;
}.

Definition RuleOverride_is_empty (o : RuleOverride) : bool :=
  match ro_threshold o, ro_clear_threshold o, ro_enabled o with
  | None, None, None => true
  | _, _, _ => false
  end.

Record Effective := {
  eff_threshold : f64;
  eff_clear_threshold : option f64;
  eff_enabled : bool;
}.

Record OverrideIndex := { by_key : gmap (string * TargetId) RuleOverride }.

(** Collecting into a map: a later override of the same key replaces an earlier one. *)
Definition OverrideIndex_new (overrides : list RuleOverride) : OverrideIndex :=
  {| by_key := foldl (fun m o => <[(ro_rule_uid o, ro_target_id o) := o]> m) ∅ overrides |}.

Definition OverrideIndex_get (i : OverrideIndex) (rule_uid : string) (target : TargetId) :
    option RuleOverride :=
  by_key i !! (rule_uid, target).

Definition effective (i : OverrideIndex) (rule : Rule) (target : option TargetId) : Effective :=
  let base := {| eff_threshold := r_threshold rule;
                 eff_clear_threshold := r_clear_threshold rule;
                 eff_enabled := true |} in
  match (id ← target; OverrideIndex_get i (r_uid rule) id) with
  | None => base
  | Some over =>
      {| eff_threshold := ro_threshold over ?? eff_threshold base;
         eff_clear_threshold := match ro_clear_threshold over with
                                | Some c => Some c
                                | None => eff_clear_threshold base
                                end;
         eff_enabled := ro_enabled over ?? true |}
  end.

(** ** Facts *)

Lemma OverrideIndex_new_lookup os uid id :
  OverrideIndex_get (OverrideIndex_new os) uid id =
  last (filter (fun o => ro_rule_uid o = uid /\ ro_target_id o = id) os).
Proof.
  unfold OverrideIndex_get, OverrideIndex_new. simpl.
  induction os as [|o os IH] using rev_ind; [done|].
  rewrite foldl_app, filter_app. simpl. rewrite filter_cons, filter_nil.
  case_decide as E.
  - destruct E as [<- <-]. by rewrite lookup_insert_eq, last_snoc.
  - rewrite lookup_insert_ne by (intros [= ? ?]; naive_solver). by rewrite IH, app_nil_r.
Qed.

(** ** Properties *)

(** An override changes exactly what it gives: without a target, or when no
    override names the rule and the target, the rule applies as it stands; otherwise
    the last override listed for the pair gives each threshold it sets, the rule gives
    the others, and only [enabled = false] takes the target out of the rule.  An
    override the API calls empty changes nothing. *)
Theorem override_changes_what_it_sets os rule target :
  effective (OverrideIndex_new os) rule target =
  match (id ← target; last (filter (fun o => ro_rule_uid o = r_uid rule /\ ro_target_id o = id) os)) with
  | None => {| eff_threshold := r_threshold rule; eff_clear_threshold := r_clear_threshold rule;
               eff_enabled := true |}
  | Some o =>
      {| eff_threshold := from_option id (r_threshold rule) (ro_threshold o);
         eff_clear_threshold := from_option Some (r_clear_threshold rule) (ro_clear_threshold o);
         eff_enabled := negb (bool_decide (ro_enabled o = Some false)) |}
  end.
Proof.
  unfold effective. destruct target as [i|]; simpl; [|done].
  rewrite OverrideIndex_new_lookup. destruct (last _) as [o|]; [|done].
  f_equal; destruct o as [? ? [] [] [[]|]]; done.
Qed.
