(* ===== verification/Baseline.v ===== *)
(** * Seasonal baselines ([alerting/baseline.rs])

    168 buckets per series, one per weekday and hour, each an exponential moving
    average, a smoothed absolute deviation and a saturating sample count. *)
From S2P Require Import Prelude Float64 Chrono Model.

Definition BUCKETS : Z := 168.
(** 1.4826 *)
Definition MAD_TO_SIGMA : f64 := S754_finite false 6677036807539497 (-52).
Definition LEARNING_PERIOD_DAYS : Z := 14.

Definition bucket_of {C : Calendar} (at_ : DateTime) : Z :=
  weekday (date_of_ns at_) * 24 + hour at_.

Record Bucket := { ewma : f64; mad : f64; samples : Z }.

Definition Bucket_default : Bucket := {| ewma := f64_zero; mad := f64_zero; samples := 0 |}.

Definition scale (b : Bucket) (params : AnomalyParams) : f64 :=
  let floor := f64_max (f64_mul (ap_mad_floor_rel params) (f64_abs (ewma b)))
                       (ap_mad_floor_abs params) in
  f64_max (f64_mul MAD_TO_SIGMA (mad b)) floor.

Definition score (b : Bucket) (value : f64) (params : AnomalyParams) : option f64 :=
  if (samples b <? ap_min_samples params) || negb (f64_is_finite value) then None
  else Some (f64_div (f64_abs (f64_sub value (ewma b))) (scale b params)).

Definition observe (b : Bucket) (value : f64) (params : AnomalyParams) : Bucket :=
  if negb (f64_is_finite value) then b
  else
    let '(ewma', mad') :=
      if samples b =? 0 then (value, f64_zero)
      else
        let alpha := f64_clamp (ap_alpha params) f64_epsilon f64_one in
        let deviation := f64_abs (f64_sub value (ewma b)) in
        let mad' := f64_add (f64_mul alpha deviation) (f64_mul (f64_sub f64_one alpha) (mad b)) in
        let ewma' := f64_add (f64_mul alpha value) (f64_mul (f64_sub f64_one alpha) (ewma b)) in
        (ewma', mad') in
    {| ewma := ewma'; mad := mad'; samples := u32_saturating_add (samples b) 1 |}.

Record SeriesBaseline := { first_seen : DateTime; updates : Z }.

Definition SeriesBaseline_new (first_seen : DateTime) : SeriesBaseline :=
  {| first_seen := first_seen; updates := 0 |}.

Definition is_learning (s : SeriesBaseline) (now : DateTime) : bool :=
  now - first_seen s <? td_days LEARNING_PERIOD_DAYS.

(** [partial_cmp] of two finite numbers. *)
Definition f64_cmp (a b : f64) : comparison :=
  if f64_lt a b then Lt else if f64_gt a b then Gt else Eq.

Definition median (values : list f64) : option f64 :=
  let finite := filter (fun v => f64_is_finite v = true) values in
  match finite with
  | [] => None
  | _ =>
      let finite := sort_by f64_cmp finite in
      let middle := Nat.div2 (length finite) in
      if Nat.even (length finite)
      then a ← finite !! (middle - 1)%nat; b ← finite !! middle;
           Some (f64_div (f64_add a b) f64_two)
      else finite !! middle
  end.

Record AnomalyVerdict := {
  av_score : option f64;
  av_exceeds : bool;
  av_anomalous : bool;
  av_learning : bool;
}.

Definition evaluate (series : SeriesBaseline) (bucket : Bucket) (value : f64) (now : DateTime)
    (params : AnomalyParams) : AnomalyVerdict :=
  let learning := is_learning series now in
  let score := score bucket value params in
  let exceeds := is_some_and score (fun s => f64_ge s (ap_k params)) in
  {| av_score := score; av_exceeds := exceeds;
     av_anomalous := exceeds && negb learning; av_learning := learning |}.

(** A bucket built from its observations, oldest first. *)
Definition observe_all (b : Bucket) (values : list f64) (params : AnomalyParams) : Bucket :=
  foldl (fun b v => observe b v params) b values.

Example score_ex :
  let b := observe_all Bucket_default (f64_of_Z <$> [10; 10; 10]) AnomalyParams_default in
  (samples b, score b (f64_of_Z 10) AnomalyParams_default,
   av_exceeds (evaluate (SeriesBaseline_new 0) b (f64_of_Z 50) 0 AnomalyParams_default)) =
  (3, Some f64_zero, true).
Proof. vm_compute. reflexivity. Qed.
Example median_ex :
  (median (f64_of_Z <$> [5; 1; 3]), median (S754_nan :: (f64_of_Z <$> [4; 1; 2; 3]))) =
  (Some (f64_of_Z 3), Some (f64_div (f64_of_Z 5) f64_two)).
Proof. vm_compute. reflexivity. Qed.

(** ** Facts *)

Lemma bucket_of_range {C : Calendar} `{!CalendarLaws C} t :
  in_range (date_of_ns t) -> 0 <= bucket_of t < BUCKETS.
Proof.
  intros Hr. unfold bucket_of, BUCKETS.
  pose proof (weekday_range _ Hr). pose proof (hour_range t). lia.
Qed.

Lemma bucket_of_next_hour {C : Calendar} `{!CalendarLaws C} t :
  in_range (date_of_ns t) -> in_range (date_of_ns t + 1) ->
  bucket_of (t + td_hours 1) = (bucket_of t + 1) mod BUCKETS.
Proof.
  intros Hr Hr'. unfold bucket_of, BUCKETS, hour, date_of_ns.
  change (td_hours 1) with 3600000000000. change ns_per_day with 86400000000000.
  set (q := t / 86400000000000) in *. set (r := t mod 86400000000000).
  pose proof (Z.div_mod t 86400000000000 ltac:(done)) as Ht. fold q r in Ht.
  pose proof (Z.mod_pos_bound t 86400000000000 ltac:(done)) as Hb. fold r in Hb.
  unfold date_of_ns in Hr, Hr'. change ns_per_day with 86400000000000 in Hr, Hr'. fold q in Hr, Hr'.
  pose proof (weekday_range q Hr) as Hw.
  destruct (Z_lt_ge_dec (r + 3600000000000) 86400000000000) as [Hlt|Hge].
  - assert ((t + 3600000000000) / 86400000000000 = q) as ->.
    { symmetry. apply Z.div_unique with (r + 3600000000000); lia. }
    assert ((t + 3600000000000) mod 86400000000000 = r + 3600000000000) as ->.
    { symmetry. apply Z.mod_unique with q; lia. }
    replace (r + 3600000000000) with (r + 1 * 3600000000000) by lia.
    rewrite Z.div_add by done.
    assert (r / 3600000000000 < 23) by (apply Z.div_lt_upper_bound; lia).
    assert (0 <= r / 3600000000000) by (apply Z.div_pos; lia).
    rewrite Z.mod_small by lia. lia.
  - assert ((t + 3600000000000) / 86400000000000 = q + 1) as ->.
    { symmetry. apply Z.div_unique with (r + 3600000000000 - 86400000000000); lia. }
    assert ((t + 3600000000000) mod 86400000000000 = r + 3600000000000 - 86400000000000) as ->.
    { symmetry. apply Z.mod_unique with (q + 1); lia. }
    assert (r / 3600000000000 = 23) as ->.
    { symmetry. apply Z.div_unique with (r - 23 * 3600000000000); lia. }
    rewrite Z.div_small by lia. rewrite weekday_next by done.
    destruct (decide (weekday q = 6)) as [->|]; [reflexivity|].
    rewrite !Z.mod_small by lia. lia.
Qed.

Lemma scale_pos b params :
  f64_pos (ap_mad_floor_abs params) = true -> f64_pos (scale b params) = true.
Proof. intros H. by apply f64_max_pos_r, f64_max_pos_r. Qed.

Lemma observe_samples b v params :
  0 <= samples b <= u32_max ->
  samples b <= samples (observe b v params) <= u32_max.
Proof.
  intros Hb. unfold observe. destruct (negb _); [lia|].
  destruct (samples b =? 0); simpl; unfold u32_saturating_add; lia.
Qed.

Lemma observe_all_samples b vs params :
  0 <= samples b <= u32_max ->
  samples (observe_all b vs params) =
  Z.min (samples b + Z.of_nat (length (filter (fun v => f64_is_finite v = true) vs))) u32_max.
Proof.
  unfold observe_all. revert b. induction vs as [|v vs IH]; intros b Hb; simpl.
  - lia.
  - rewrite IH by (pose proof (observe_samples b v params Hb); lia).
    rewrite filter_cons. unfold observe. destruct (f64_is_finite v); simpl.
    + destruct (samples b =? 0); simpl; unfold u32_saturating_add; lia.
    + done.
Qed.

Lemma binary_round_aux_nonneg p e m ex l :
  f64_is_nan (binary_round_aux p e false m ex l) = true \/
  f64_nonneg (binary_round_aux p e false m ex l) = true.
Proof.
  unfold binary_round_aux. destruct (shr_fexp _ _ _ _ _) as [mrs e1].
  destruct (shr_fexp _ _ _ _ _) as [mrs2 e2].
  destruct (shr_m mrs2); [by right|destruct (e2 <=? e - p); by right|by left].
Qed.

(** A magnitude over a positive scale is a magnitude, or not a number. *)
Lemma f64_div_nonneg a b :
  f64_is_nan a = true \/ f64_nonneg a = true -> f64_pos b = true ->
  f64_is_nan (f64_div a b) = true \/ f64_nonneg (f64_div a b) = true.
Proof.
  unfold f64_div. intros Ha Hb. destruct a as [s|[]| |[] m e], b as [|[]| |[] m' e']; try done;
    try (by destruct Ha); simpl; try (by left); try (by right).
  destruct (SFdiv_core_binary _ _ _ _ _ _) as [[mz ez] lz]. apply binary_round_aux_nonneg.
Qed.

Lemma score_shape b v params s :
  f64_pos (ap_mad_floor_abs params) = true -> score b v params = Some s ->
  ap_min_samples params <= samples b /\ f64_is_finite v = true /\
  (f64_is_nan s = true \/ f64_nonneg s = true).
Proof.
  intros Hp. unfold score. destruct (_ || _) eqn:E; [done|]. bools. intros [= <-].
  split_and!; [lia|done|]. apply f64_div_nonneg; [|by apply scale_pos].
  destruct (f64_sub v (ewma b)) as [[]|[]| |[] ? ?]; auto.
Qed.

(** ** Properties *)

(** The seasonal bucket of an instant is one of the 168, and the hour that follows
    falls in the next bucket, the last hour of Sunday wrapping to the first of
    Monday: the buckets read the week hour by hour. *)
Theorem bucket_index_covers_the_week {C : Calendar} `{!CalendarLaws C} t :
  in_range (date_of_ns t) -> in_range (date_of_ns t + 1) ->
  0 <= bucket_of t < BUCKETS /\ bucket_of (t + td_hours 1) = (bucket_of t + 1) mod BUCKETS.
Proof. intros. split; [by apply bucket_of_range|by apply bucket_of_next_hour]. Qed.

Lemma bucket_index_covers_the_week_witness :
  let t := td_days 20541 + td_hours 23 in
  0 <= bucket_of t < BUCKETS /\ bucket_of (t + td_hours 1) = 0.
Proof.
  intros t. destruct (bucket_index_covers_the_week t) as [Hr Hn];
    [split; vm_compute; discriminate..|]. split; [exact Hr|].
  rewrite Hn. vm_compute. reflexivity.
Defined.

(** When a baseline speaks: with a strictly positive absolute floor, a bucket fed
    any sequence of observations holds the number of finite ones, saturated at 32
    bits; it gives a verdict only on a finite value and once that number has reached
    the rule's minimum; the score divides by a strictly positive scale, flat series
    included, so it is never negative, and a score that is not a number never
    exceeds; and nothing is anomalous within fourteen days of the series' first
    sight, although the threshold crossing is still reported. *)
Theorem baseline_verdict_is_guarded series vs v now params :
  f64_pos (ap_mad_floor_abs params) = true ->
  let b := observe_all Bucket_default vs params in
  let verdict := evaluate series b v now params in
  samples b = Z.min (Z.of_nat (length (filter (fun x => f64_is_finite x = true) vs))) u32_max /\
  f64_pos (scale b params) = true /\
  (av_exceeds verdict = true ->
     f64_is_finite v = true /\ ap_min_samples params <= samples b /\
     exists s, av_score verdict = Some s /\ f64_nonneg s = true /\ f64_le (ap_k params) s = true) /\
  (av_anomalous verdict = true <->
     av_exceeds verdict = true /\ td_days LEARNING_PERIOD_DAYS <= now - first_seen series).
Proof.
  intros Hp b verdict. split_and!.
  - subst b. by rewrite observe_all_samples.
  - by apply scale_pos.
  - unfold verdict, evaluate. simpl. destruct (score b v params) as [s|] eqn:Hs; [|done].
    simpl. intros Hge. apply score_shape in Hs as (? & ? & Hn); [|done].
    split_and!; [done..|]. exists s. split_and!; [done| |done].
    destruct Hn as [Hn|]; [|done]. destruct s; try done. unfold f64_ge, SFleb in Hge.
    by destruct (ap_k params).
  - unfold verdict, evaluate, is_learning. simpl. rewrite andb_true_iff, negb_true_iff, Z.ltb_ge.
    tauto.
Qed.

Lemma baseline_verdict_is_guarded_witness :
  let b := observe_all Bucket_default (f64_of_Z <$> [10; 10; 10]) AnomalyParams_default in
  samples b = 3 /\
  av_anomalous (evaluate (SeriesBaseline_new 0) b (f64_of_Z 50) (td_days 15) AnomalyParams_default)
  = true.
Proof.
  intros b. destruct (baseline_verdict_is_guarded (SeriesBaseline_new 0) (f64_of_Z <$> [10; 10; 10])
                        (f64_of_Z 50) (td_days 15) AnomalyParams_default eq_refl) as (H & _ & _ & Ha).
  split; [exact H|]. apply Ha. split; [vm_compute; reflexivity|vm_compute; discriminate].
Defined.
