(* ===== verification/Group.v ===== *)
(** * Grouping, deduplication, reminders and escalation ([alerting/group.rs])

    Why an alert speaks at a cycle ([decide]) and the messages of a cycle, at most
    one per target ([group]). *)
From S2P Require Import Prelude Float64 Chrono Model Machine.

Module NotifyReason.
Inductive NotifyReason :=
| Firing | Resolved | Reminder | Escalation | Unacked | Flapping.

#[global] Instance eq_dec : EqDecision NotifyReason.
Proof. solve_decision. Defined.

Definition as_str (r : NotifyReason) : string :=
  match r with
  | Firing => "firing" | Resolved => "resolved" | Reminder => "reminder"
  | Escalation => "escalation" | Unacked => "unacked" | Flapping => "flapping"
  end.

Definition parse (raw : string) : option NotifyReason :=
  if decide (raw = "firing") then Some Firing
  else if decide (raw = "resolved") then Some Resolved
  else if decide (raw = "reminder") then Some Reminder
  else if decide (raw = "escalation") then Some Escalation
  else if decide (raw = "unacked") then Some Unacked
  else if decide (raw = "flapping") then Some Flapping
  else None.

Definition is_firing_like (r : NotifyReason) : bool :=
  match r with Resolved => false | _ => true end.

Lemma reason_parse_as_str r : parse (as_str r) = Some r.
Proof. by destruct r. Qed.
End NotifyReason.
Notation NotifyReason := NotifyReason.NotifyReason.

Record AlertOutcome := {
  ao_fingerprint : string;
  ao_rule_uid : string;
  ao_rule_name : string;
  ao_target_id : option TargetId;
  ao_target_name : string;
  ao_series_key : string;
  ao_labels : gmap string string;
  ao_state : AlertState;
  ao_severity : Severity;
  ao_value : option f64;
  ao_score : option f64;
  ao_unit : string;
  ao_operator : string;
  ao_threshold : f64;
  ao_channels : list Z;
  ao_repeat_interval : option Duration;
  ao_escalate_after : option Duration;
  ao_unacked_after : option Duration;
  ao_just_transitioned : bool;
}.

Definition ao_effective_phase (o : AlertOutcome) : EffectivePhase := effective_phase (ao_state o).

Definition escalated_at (o : AlertOutcome) : option DateTime :=
  d ← ao_escalate_after o; after ← from_std d; since ← firing_since (ao_state o); Some (since + after).

Definition unacked_at (o : AlertOutcome) : option DateTime :=
  d ← ao_unacked_after o; after ← from_std d; since ← firing_since (ao_state o); Some (since + after).

Definition effective_severity (o : AlertOutcome) (now : DateTime) : Severity :=
  if is_some_and (escalated_at o) (fun at_ => at_ <=? now)
  then Severity.escalated (ao_severity o) else ao_severity o.

(** In a module of its own: the name is also that of stdpp's decision procedure. *)
Module Speech.
Definition decide (outcome : AlertOutcome) (now : DateTime) : option NotifyReason :=
let state := ao_state outcome in
if suppressed state || silenced state || learning state then None
else match phase state with
| Phase.Firing =>
    if is_acked state now then None
    else if notify_count state =? 0 then Some NotifyReason.Firing
    else
      last ← last_notified_at state;
      if is_some_and (escalated_at outcome) (fun at_ => (last <? at_) && (at_ <=? now))
      then Some NotifyReason.Escalation
      else if is_some_and (unacked_at outcome) (fun at_ => (last <? at_) && (at_ <=? now))
      then Some NotifyReason.Unacked
      else
        d ← ao_repeat_interval outcome; repeat_ ← from_std d;
        if repeat_ <=? now - last then Some NotifyReason.Reminder else None
| Phase.Resolved =>
    if 0 <? notify_count state then
      resolved_at ← resolved_at state;
      last ← last_notified_at state;
      if last <? resolved_at then Some NotifyReason.Resolved else None
    else None
| _ => None
end.
End Speech.

Record GroupItem := {
  gi_fingerprint : string;
  gi_rule_uid : string;
  gi_rule_name : string;
  gi_severity : Severity;
  gi_reason : NotifyReason;
  gi_value : option f64;
  gi_score : option f64;
  gi_unit : string;
  gi_operator : string;
  gi_threshold : f64;
  gi_series_key : string;
  gi_since : option DateTime;
  gi_phase : EffectivePhase;
  gi_note : option string;
}.

Record AlertGroup := {
  ag_target_id : option TargetId;
  ag_target_name : string;
  ag_target_kind : string;
  ag_target_tags : gmap string string;
  ag_severity : Severity;
  ag_items : list GroupItem;
  ag_channels : list Z;
  ag_at : DateTime;
}.

Definition is_resolution (g : AlertGroup) : bool :=
  forallb (fun item => bool_decide (gi_reason item = NotifyReason.Resolved)) (ag_items g).

(** The line of an outcome, the group it opens, and the line added to a group. *)
Definition item_of (outcome : AlertOutcome) (now : DateTime) (reason : NotifyReason) : GroupItem := {|
  gi_fingerprint := ao_fingerprint outcome;
  gi_rule_uid := ao_rule_uid outcome;
  gi_rule_name := ao_rule_name outcome;
  gi_severity := effective_severity outcome now;
  gi_reason := reason;
  gi_value := ao_value outcome;
  gi_score := ao_score outcome;
  gi_unit := ao_unit outcome;
  gi_operator := ao_operator outcome;
  gi_threshold := ao_threshold outcome;
  gi_series_key := ao_series_key outcome;
  gi_since := firing_since (ao_state outcome);
  gi_phase := ao_effective_phase outcome;
  gi_note := None;
|}.

Definition new_group (outcome : AlertOutcome) (now : DateTime) : AlertGroup := {|
  ag_target_id := ao_target_id outcome;
  ag_target_name := ao_target_name outcome;
  ag_target_kind := "";
  ag_target_tags := ∅;
  ag_severity := Severity.Info;
  ag_items := [];
  ag_channels := [];
  ag_at := now;
|}.

Definition push_channels (channels wanted : list Z) : list Z :=
  foldl (fun cs c => if bool_decide (c ∈ cs) then cs else cs ++ [c]) channels wanted.

Definition add_line (g : AlertGroup) (outcome : AlertOutcome) (item : GroupItem) : AlertGroup := {|
  ag_target_id := ag_target_id g;
  ag_target_name := ag_target_name g;
  ag_target_kind := ag_target_kind g;
  ag_target_tags := ag_target_tags g;
  ag_severity := Severity.max (ag_severity g) (gi_severity item);
  ag_items := ag_items g ++ [item];
  ag_channels := push_channels (ag_channels g) (ao_channels outcome);
  ag_at := ag_at g;
|}.

(** The state of the loop over the outcomes. *)
Record Grouping := {
  groups_of : gmap (option TargetId) AlertGroup;
  seen_of : gset string;
  broadcast_of : gset (option TargetId);
}.

Definition group_step (now : DateTime) (st : Grouping) (outcome : AlertOutcome) : Grouping :=
  if bool_decide (ao_fingerprint outcome ∈ seen_of st) then st
  else
    let seen := {[ao_fingerprint outcome]} ∪ seen_of st in
    match Speech.decide outcome now with
    | None => {| groups_of := groups_of st; seen_of := seen; broadcast_of := broadcast_of st |}
    | Some reason =>
        let item := item_of outcome now reason in
        let g := groups_of st !! ao_target_id outcome ?? new_group outcome now in
        {| groups_of := <[ao_target_id outcome := add_line g outcome item]> (groups_of st);
           seen_of := seen;
           broadcast_of := match ao_channels outcome with
                           | [] => {[ao_target_id outcome]} ∪ broadcast_of st
                           | _ => broadcast_of st
                           end |}
    end.

(** The orders of the lines of a message and of the messages of a cycle. *)
Definition item_cmp : GroupItem -> GroupItem -> comparison :=
  cmp_then (cmp_rev (cmp_on gi_severity Severity.cmp)) (cmp_on gi_rule_name string_cmp).
Definition group_cmp : AlertGroup -> AlertGroup -> comparison :=
  cmp_then (cmp_rev (cmp_on ag_severity Severity.cmp)) (cmp_on ag_target_name string_cmp).

Definition finish_group (broadcast : gset (option TargetId)) (g : AlertGroup) : AlertGroup := {|
  ag_target_id := ag_target_id g;
  ag_target_name := ag_target_name g;
  ag_target_kind := ag_target_kind g;
  ag_target_tags := ag_target_tags g;
  ag_severity := ag_severity g;
  ag_items := sort_by item_cmp (ag_items g);
  ag_channels := if bool_decide (ag_target_id g ∈ broadcast) then [] else ag_channels g;
  ag_at := ag_at g;
|}.

Definition group (outcomes : list AlertOutcome) (now : DateTime) : list AlertGroup :=
  let st := foldl (group_step now)
              {| groups_of := ∅; seen_of := ∅; broadcast_of := ∅ |} outcomes in
  sort_by group_cmp
    (finish_group (broadcast_of st) <$> btree_values (option_cmp Z.compare) (groups_of st)).

(** ** Specification

    The outcomes that speak, each fingerprint once, with their reasons; and the
    group a target's speaking outcomes make. *)
Fixpoint spoken (now : DateTime) (seen : gset string) (os : list AlertOutcome) :
    list (AlertOutcome * NotifyReason) :=
  match os with
  | [] => []
  | o :: os' =>
      if bool_decide (ao_fingerprint o ∈ seen) then spoken now seen os'
      else
        let rest := spoken now ({[ao_fingerprint o]} ∪ seen) os' in
        match Speech.decide o now with Some r => (o, r) :: rest | None => rest end
  end.

Definition line (now : DateTime) (p : AlertOutcome * NotifyReason) : GroupItem :=
  item_of p.1 now p.2.

Definition of_target (id : option TargetId) (l : list (AlertOutcome * NotifyReason)) :
    list (AlertOutcome * NotifyReason) :=
  filter (fun p => ao_target_id p.1 = id) l.

(** ** Facts *)

Lemma elem_of_push_channels cs wanted c : c ∈ push_channels cs wanted <-> c ∈ cs \/ c ∈ wanted.
Proof.
  unfold push_channels. revert cs. induction wanted as [|w wanted IH]; intros cs; simpl; [set_solver|].
  rewrite IH. case_bool_decide; set_solver.
Qed.

(** Every way a group can be read off the lines of its target. *)
Definition group_reads (now : DateTime) (id : option TargetId)
    (l : list (AlertOutcome * NotifyReason)) (g : AlertGroup) : Prop :=
  ag_target_id g = id /\ ag_at g = now /\
  option_map (fun p => ao_target_name p.1) (head l) = Some (ag_target_name g) /\
  ag_items g = line now <$> l /\
  ag_severity g = foldl (fun s p => Severity.max s (effective_severity p.1 now)) Severity.Info l /\
  forall c, c ∈ ag_channels g <-> exists p, p ∈ l /\ c ∈ ao_channels p.1.

Definition grouping_reads (now : DateTime) (l : list (AlertOutcome * NotifyReason))
    (st : Grouping) : Prop :=
  (forall id, match groups_of st !! id with
              | None => of_target id l = []
              | Some g => group_reads now id (of_target id l) g
              end) /\
  (forall id, id ∈ broadcast_of st <-> exists p, p ∈ of_target id l /\ ao_channels p.1 = []).

Lemma group_step_reads now l st o :
  grouping_reads now l st ->
  (ao_fingerprint o ∈ seen_of st -> group_step now st o = st) /\
  (ao_fingerprint o ∉ seen_of st ->
   seen_of (group_step now st o) = {[ao_fingerprint o]} ∪ seen_of st /\
   grouping_reads now (l ++ match Speech.decide o now with Some r => [(o, r)] | None => [] end)
     (group_step now st o)).
Proof.
  intros [Hg Hb]. unfold group_step. split; intros Hs; [by rewrite bool_decide_true|].
  rewrite bool_decide_false by done.
  destruct (Speech.decide o now) as [r|]; [|by rewrite app_nil_r].
  split; [done|]. split; intros id; simpl.
  - unfold of_target in *. rewrite filter_app, filter_cons, filter_nil. simpl.
    destruct (stdpp.base.decide (ao_target_id o = id)) as [<-|Hne].
    + rewrite lookup_insert_eq. specialize (Hg (ao_target_id o)).
      destruct (groups_of st !! ao_target_id o) as [g|]; simpl.
      * destruct Hg as (? & ? & Hn & Hi & Hsev & Hc). split_and!; simpl; try done.
        -- by destruct (filter _ l).
        -- by rewrite Hi, fmap_app.
        -- by rewrite foldl_app, Hsev.
        -- intros c. rewrite elem_of_push_channels, Hc. setoid_rewrite elem_of_app.
           setoid_rewrite list_elem_of_singleton. naive_solver.
      * rewrite Hg. split_and!; simpl; try done. intros c. rewrite elem_of_push_channels.
        setoid_rewrite list_elem_of_singleton. setoid_rewrite elem_of_nil. naive_solver.
    + rewrite lookup_insert_ne, app_nil_r by done. apply Hg.
  - unfold of_target in *. setoid_rewrite filter_app. setoid_rewrite elem_of_app.
    setoid_rewrite filter_cons. simpl.
    assert (id ∈ match ao_channels o with [] => {[ao_target_id o]} ∪ broadcast_of st
                 | _ => broadcast_of st end <->
            id ∈ broadcast_of st \/ (ao_target_id o = id /\ ao_channels o = [])) as ->.
    { destruct (ao_channels o); [rewrite elem_of_union, elem_of_singleton|]; naive_solver. }
    rewrite Hb. case_decide; [setoid_rewrite list_elem_of_singleton|setoid_rewrite elem_of_nil];
      naive_solver.
Qed.

Lemma grouping_spec now os l st :
  grouping_reads now l st ->
  grouping_reads now (l ++ spoken now (seen_of st) os) (foldl (group_step now) st os).
Proof.
  revert l st. induction os as [|o os IH]; intros l st Hr; simpl; [by rewrite app_nil_r|].
  destruct (group_step_reads now l st o Hr) as [Hin Hout]. case_bool_decide as Hs.
  - rewrite Hin by done. by apply IH.
  - destruct (Hout Hs) as [<- Hr']. apply IH in Hr'.
    destruct (Speech.decide o now); [by rewrite <-app_assoc in Hr'|by rewrite app_nil_r in Hr'].
Qed.

Lemma grouping_of now os :
  grouping_reads now (spoken now ∅ os)
    (foldl (group_step now) {| groups_of := ∅; seen_of := ∅; broadcast_of := ∅ |} os).
Proof.
  apply (grouping_spec now os [] {| groups_of := ∅; seen_of := ∅; broadcast_of := ∅ |}).
  split; simpl; [done|]. intros id. unfold of_target. simpl. set_solver.
Qed.

(** [first_of os o]: [o] is the first outcome of [os] with its fingerprint. *)
Definition first_of (os : list AlertOutcome) (o : AlertOutcome) : Prop :=
  exists l1 l2, os = l1 ++ o :: l2 /\ ao_fingerprint o ∉ ao_fingerprint <$> l1.

Lemma first_of_cons o' os o :
  first_of (o' :: os) o <->
  o' = o \/ (ao_fingerprint o <> ao_fingerprint o' /\ first_of os o).
Proof.
  unfold first_of. split.
  - intros ([|x l1] & l2 & [= -> ->] & Hn); [by left|]. right.
    rewrite fmap_cons, not_elem_of_cons in Hn. destruct Hn. eauto.
  - intros [->|(Hne & l1 & l2 & -> & Hn)].
    + exists [], os. split; [done|]. apply not_elem_of_nil.
    + exists (o' :: l1), l2. split; [done|]. by rewrite fmap_cons, not_elem_of_cons.
Qed.

Lemma elem_of_spoken now seen os o r :
  (o, r) ∈ spoken now seen os <->
  ao_fingerprint o ∉ seen /\ first_of os o /\ Speech.decide o now = Some r.
Proof.
  revert seen. induction os as [|o' os IH]; intros seen; simpl.
  { split; [by intros ?%elem_of_nil|]. intros (_ & ([] & ? & ? & _) & _); done. }
  rewrite first_of_cons. case_bool_decide as Hs.
  { rewrite IH. split; [|by intros (? & [->|[? ?]] & ?)].
    intros (Hn & ? & ?). split_and!; [done| |done]. right. split; [congruence|done]. }
  assert ((o, r) ∈ spoken now ({[ao_fingerprint o']} ∪ seen) os <->
          ao_fingerprint o ∉ seen /\ ao_fingerprint o <> ao_fingerprint o' /\ first_of os o /\
          Speech.decide o now = Some r) as H1.
  { rewrite IH, not_elem_of_union, not_elem_of_singleton. tauto. }
  assert ((o, r) ∈ match Speech.decide o' now with
                   | Some r0 => (o', r0) :: spoken now ({[ao_fingerprint o']} ∪ seen) os
                   | None => spoken now ({[ao_fingerprint o']} ∪ seen) os end <->
          (o' = o /\ Speech.decide o now = Some r) \/
          (o, r) ∈ spoken now ({[ao_fingerprint o']} ∪ seen) os) as ->.
  { destruct (Speech.decide o' now) eqn:E; [rewrite elem_of_cons|]; split.
    - intros [[= -> ->]|]; auto.
    - intros [[-> ?]|]; [left; congruence|by right].
    - auto.
    - intros [[-> ?]|]; [congruence|done]. }
  rewrite H1. split.
  - intros [[-> ?]|?]; tauto.
  - intros (? & [->|[? ?]] & ?); tauto.
Qed.

Lemma NoDup_spoken now seen os : NoDup ((fun p => ao_fingerprint p.1) <$> spoken now seen os).
Proof.
  revert seen. induction os as [|o os IH]; intros seen; simpl; [constructor|].
  case_bool_decide; [apply IH|]. destruct (Speech.decide o now) as [r|]; [|apply IH].
  rewrite fmap_cons. constructor; [|apply IH].
  intros ([o' r'] & He & Hin)%list_elem_of_fmap. apply elem_of_spoken in Hin. set_solver.
Qed.

(** The groups before the final ordering. *)
Lemma elem_of_group os now g :
  g ∈ group os now <->
  exists g0, g = finish_group (broadcast_of (foldl (group_step now)
               {| groups_of := ∅; seen_of := ∅; broadcast_of := ∅ |} os)) g0 /\
             groups_of (foldl (group_step now)
               {| groups_of := ∅; seen_of := ∅; broadcast_of := ∅ |} os) !! ag_target_id g0 = Some g0.
Proof.
  unfold group. rewrite elem_of_sort_by, list_elem_of_fmap.
  destruct (grouping_of now os) as [Hg _]. split.
  - intros (g0 & -> & [id Hid]%(elem_of_btree_values (option_cmp Z.compare))). exists g0. split; [done|].
    specialize (Hg id). rewrite Hid in Hg. destruct Hg as [-> _]. done.
  - intros (g0 & -> & Hg0). exists g0. split; [done|]. apply (elem_of_btree_values (option_cmp Z.compare)). eauto.
Qed.

(** A finished message read off the lines of its target. *)
Lemma group_spec os now g :
  g ∈ group os now ->
  let l := of_target (ag_target_id g) (spoken now ∅ os) in
  option_map (fun p => ao_target_name p.1) (head l) = Some (ag_target_name g) /\
  ag_items g = sort_by item_cmp (line now <$> l) /\
  ag_severity g = foldl (fun s p => Severity.max s (effective_severity p.1 now)) Severity.Info l /\
  (forall c, c ∈ ag_channels g <->
     (forall p, p ∈ l -> ao_channels p.1 <> []) /\ exists p, p ∈ l /\ c ∈ ao_channels p.1).
Proof.
  intros (g0 & -> & Hg0)%elem_of_group. destruct (grouping_of now os) as [Hg Hb].
  specialize (Hg (ag_target_id g0)). rewrite Hg0 in Hg.
  destruct Hg as (_ & _ & Hn & Hi & Hs & Hc). simpl. split_and!; [done|by rewrite Hi|done|].
  intros c. case_bool_decide as Hbr.
  - rewrite Hb in Hbr. split; [by intros ?%elem_of_nil|]. naive_solver.
  - rewrite Hb in Hbr. rewrite Hc. naive_solver.
Qed.

Lemma NoDup_group os now : NoDup (ag_target_id <$> group os now).
Proof.
  unfold group. rewrite sort_by_perm, <-list_fmap_compose.
  destruct (grouping_of now os) as [Hg _]. set (m := groups_of _) in *.
  change (ag_target_id ∘ finish_group _) with ag_target_id.
  unfold btree_values, btree_to_list. rewrite <-list_fmap_compose, sort_by_perm.
  assert (ag_target_id ∘ snd <$> map_to_list m = fst <$> map_to_list m) as ->;
    [|apply NoDup_fst_map_to_list].
  apply list_fmap_ext. intros i [id g] Hi. simpl.
  apply list_elem_of_lookup_2, elem_of_map_to_list in Hi. specialize (Hg id). rewrite Hi in Hg.
  by destruct Hg.
Qed.

Lemma foldl_max_spec now (l : list (AlertOutcome * NotifyReason)) s0 :
  let s := foldl (fun s p => Severity.max s (effective_severity p.1 now)) s0 l in
  Severity.rank s0 <= Severity.rank s /\
  (forall p, p ∈ l -> Severity.rank (effective_severity p.1 now) <= Severity.rank s) /\
  (s = s0 \/ exists p, p ∈ l /\ s = effective_severity p.1 now).
Proof.
  revert s0. induction l as [|p l IH]; intros s0; simpl.
  { split_and!; [lia|by intros ? ?%elem_of_nil|by left]. }
  destruct (IH (Severity.max s0 (effective_severity p.1 now))) as (H1 & H2 & H3).
  rewrite Severity.rank_max in H1. split_and!; [lia| |].
  - intros q [->|Hq]%elem_of_cons; [lia|by apply H2].
  - destruct H3 as [->|(q & ? & ?)].
    + unfold Severity.max. destruct (Severity.lt _ _); [by left|]. right. exists p.
      split; [by left|done].
    + right. exists q. split; [by right|done].
Qed.

#[export] Instance item_cmp_pre : CmpPre item_cmp.
Proof. unfold item_cmp, Severity.cmp. apply _. Qed.
#[export] Instance group_cmp_pre : CmpPre group_cmp.
Proof. unfold group_cmp, Severity.cmp. apply _. Qed.

Lemma elem_of_target_line os now id i :
  i ∈ line now <$> of_target id (spoken now ∅ os) <->
  exists o r, first_of os o /\ Speech.decide o now = Some r /\ ao_target_id o = id /\
              i = item_of o now r.
Proof.
  unfold of_target. rewrite list_elem_of_fmap. split.
  - intros ([o r] & -> & [Ht (_ & ? & ?)%elem_of_spoken]%list_elem_of_filter). by exists o, r.
  - intros (o & r & ? & ? & ? & ->). exists (o, r). split; [done|].
    apply list_elem_of_filter. split; [done|]. apply elem_of_spoken. set_solver.
Qed.

(** ** Properties *)

(** C38. A cycle sends at most one message per target and loses no line: the targets of
    the messages are distinct; the lines of a target's message are exactly those of
    its outcomes that have something to say, the first of each fingerprint; no
    fingerprint has two lines in a message; and every outcome that is the first of its
    fingerprint and has something to say is in the message of its target. *)
Theorem one_message_per_target_every_line_once os now :
  NoDup (ag_target_id <$> group os now) /\
  (forall g, g ∈ group os now ->
     ag_items g <> [] /\ NoDup (gi_fingerprint <$> ag_items g) /\
     forall i, i ∈ ag_items g <->
       exists o r, first_of os o /\ Speech.decide o now = Some r /\
                   ao_target_id o = ag_target_id g /\ i = item_of o now r) /\
  (forall o r, first_of os o -> Speech.decide o now = Some r ->
     exists g, g ∈ group os now /\ ag_target_id g = ao_target_id o /\
               item_of o now r ∈ ag_items g).
Proof.
  split_and!; [apply NoDup_group| |].
  - intros g Hg. apply group_spec in Hg as (Hn & Hi & _). rewrite Hi. split_and!.
    + intros He. assert (length (sort_by item_cmp (line now <$> of_target (ag_target_id g)
                           (spoken now ∅ os))) = 0%nat) as Hl by by rewrite He.
      rewrite length_sort_by, length_fmap in Hl. apply nil_length_inv in Hl. by rewrite Hl in Hn.
    + rewrite sort_by_perm, <-list_fmap_compose.
      eapply sublist_NoDup; [apply (NoDup_spoken now ∅ os)|].
      apply (fmap_sublist (fun p => ao_fingerprint p.1)), sublist_filter.
    + intros i. rewrite elem_of_sort_by. apply elem_of_target_line.
  - intros o r Ho Hr. destruct (grouping_of now os) as [Hg _].
    assert (Hp : (o, r) ∈ of_target (ao_target_id o) (spoken now ∅ os)).
    { apply list_elem_of_filter. split; [done|]. apply elem_of_spoken. set_solver. }
    specialize (Hg (ao_target_id o)). destruct (groups_of _ !! ao_target_id o) as [g0|] eqn:E.
    + destruct Hg as (Ht & _ & _ & Hi & _). rewrite <-Ht in E.
      eexists (finish_group _ g0). split; [apply elem_of_group; by exists g0|]. split; [done|].
      simpl. rewrite elem_of_sort_by, Hi. apply list_elem_of_fmap. by exists (o, r).
    + rewrite Hg in Hp. by apply elem_of_nil in Hp.
Qed.

(** What a message says of its lines: its severity is that of its gravest line
    (escalation included) and of one of them; its lines are in order of decreasing
    severity then rule name, and the messages of decreasing severity then target
    name; it goes to every channel (an empty list) as soon as one speaking rule
    of the target has no channel of its own, and otherwise exactly to the union of the
    channels of its rules. *)
Theorem messages_are_ordered_and_routed os now :
  StronglySorted (le_by group_cmp) (group os now) /\
  forall g, g ∈ group os now ->
    StronglySorted (le_by item_cmp) (ag_items g) /\
    (forall i, i ∈ ag_items g -> Severity.rank (gi_severity i) <= Severity.rank (ag_severity g)) /\
    (exists i, i ∈ ag_items g /\ gi_severity i = ag_severity g) /\
    let speaks o := first_of os o /\ is_Some (Speech.decide o now) /\
                    ao_target_id o = ag_target_id g in
    forall c, c ∈ ag_channels g <->
      (forall o, speaks o -> ao_channels o <> []) /\ exists o, speaks o /\ c ∈ ao_channels o.
Proof.
  split; [apply (sort_by_sorted group_cmp)|]. intros g (Hn & Hi & Hs & Hc)%group_spec.
  set (l := of_target (ag_target_id g) (spoken now ∅ os)) in *.
  destruct (foldl_max_spec now l Severity.Info) as (_ & Hmax & Hex). rewrite <-Hs in Hmax, Hex.
  rewrite Hi. split_and!.
  - apply (sort_by_sorted item_cmp).
  - intros i (p & -> & Hp)%elem_of_sort_by%list_elem_of_fmap. by apply Hmax.
  - setoid_rewrite elem_of_sort_by. setoid_rewrite list_elem_of_fmap.
    destruct l as [|p l]; [done|]. destruct Hex as [He|(q & Hq & ->)].
    + exists (line now p). split; [exists p; split; [done|by left]|].
      specialize (Hmax p ltac:(by left)). rewrite He in *. apply Severity.rank_inj.
      revert Hmax. simpl. by destruct (effective_severity p.1 now).
    + exists (line now q). split; [by exists q|done].
  - intros speaks c. rewrite Hc.
    assert (forall o, speaks o <-> exists r, (o, r) ∈ l) as Hl.
    { intros o. unfold speaks, l, of_target. setoid_rewrite list_elem_of_filter. simpl.
      setoid_rewrite elem_of_spoken. split.
      - intros (? & [r ?] & ?). exists r. set_solver.
      - intros (r & ? & _ & ? & ?). eauto. }
    setoid_rewrite Hl. split.
    + intros [H1 ([o r] & ? & ?)]. split; [|by eauto]. intros o' [r' ?]. by apply (H1 (o', r')).
    + intros [H1 (o & [r ?] & ?)]. split; [|by eauto]. intros [o' r'] ?. apply H1. by exists r'.
Qed.

(** An alert as it stands after a notification about it at [at_]. *)
Definition notified (o : AlertOutcome) (at_ : DateTime) : AlertState :=
  set_notified (Some at_) (notify_count (ao_state o) + 1) (ao_state o).

(** The announcements of one alert never repeat themselves.  A muted alert
    (suppressed, in maintenance, learning) and an acknowledged problem say nothing.
    Once something was said at [t] about an alert that still fires, it is never
    announced as new again, its escalation and its relay to the escalation channel
    speak only if their instant is after [t], and a reminder only a full interval
    after [t]; once said about a resolved alert after its resolution, nothing more is
    said. *)
Theorem announcements_do_not_repeat o o' t now r :
  0 <= notify_count (ao_state o) ->
  ao_state o' = notified o t ->
  Speech.decide o' now = Some r ->
  suppressed (ao_state o') = false /\ silenced (ao_state o') = false /\
  learning (ao_state o') = false /\
  match r with
  | NotifyReason.Firing | NotifyReason.Flapping => False
  | NotifyReason.Escalation =>
      exists e, escalated_at o' = Some e /\ t < e <= now /\ is_acked (ao_state o') now = false
  | NotifyReason.Unacked =>
      exists e, unacked_at o' = Some e /\ t < e <= now /\ is_acked (ao_state o') now = false
  | NotifyReason.Reminder =>
      exists d, ao_repeat_interval o' = Some d /\ t + d <= now /\
                is_acked (ao_state o') now = false
  | NotifyReason.Resolved =>
      exists e, resolved_at (ao_state o) = Some e /\ t < e
  end.
Proof.
  intros Hn Hs. unfold Speech.decide. destruct (_ || _) eqn:Hm; [done|]. bools.
  intros Hd. split_and!; [done..|]. rewrite Hs in Hd at 1. simpl in Hd.
  destruct (phase (ao_state o)); try done.
  - destruct (is_acked _ now) eqn:Ha; [done|]. rewrite Hs in Hd. simpl in Hd.
    destruct (Z.eqb_spec (notify_count (ao_state o) + 1) 0); [lia|].
    destruct (escalated_at o') as [e|]; simpl in Hd;
      [destruct (_ && _) eqn:E; [injection Hd as <-; bools; by eauto with lia|]|];
    (destruct (unacked_at o') as [u|]; simpl in Hd;
      [destruct ((t <? u) && _) eqn:E'; [injection Hd as <-; bools; by eauto with lia|]|]);
    destruct (ao_repeat_interval o') as [d|]; simpl in Hd; try done;
    unfold from_std in Hd; destruct (d <=? _); simpl in Hd; try done;
    destruct (Z.leb_spec d (now - t)); try done; injection Hd as <-; exists d; split_and!;
      done || lia.
  - rewrite Hs in Hd. simpl in Hd. destruct (0 <? _); [|done].
    destruct (resolved_at (ao_state o)) as [e|]; simpl in Hd; [|done].
    destruct (Z.ltb_spec t e); [|done]. injection Hd as <-. eauto.
Qed.

(** A small outcome to run the definitions on. *)
Definition outcome_of (s : AlertState) (repeat_ : option Duration) : AlertOutcome := {|
  ao_fingerprint := "f"; ao_rule_uid := "cpu"; ao_rule_name := "CPU"; ao_target_id := Some 1;
  ao_target_name := "nas"; ao_series_key := "cpu"; ao_labels := ∅; ao_state := s;
  ao_severity := Severity.Warning; ao_value := None; ao_score := None; ao_unit := "%";
  ao_operator := ">"; ao_threshold := f64_zero; ao_channels := []; ao_repeat_interval := repeat_;
  ao_escalate_after := None; ao_unacked_after := None; ao_just_transitioned := false;
|}.

Lemma announcements_do_not_repeat_witness :
  let s := fst (advance AlertState_default true 0 0) in
  let o := outcome_of s (Some 50) in
  exists d, Some 50 = Some d /\ 10 + d <= 60.
Proof.
  intros s o.
  destruct (announcements_do_not_repeat o (outcome_of (notified o 10) (Some 50)) 10 60
              NotifyReason.Reminder) as (_ & _ & _ & d & Hd & Hle & _); [done..|].
  exists d. split; [exact Hd|exact Hle].
Defined.

(** A relapse is not announced.  When an alert that was announced clears at one
    cycle and its condition is back at the very next one, the machine takes it from
    "resolved" straight back to "firing" with the notification count of the previous
    occurrence: whatever was said in between, the new firing is never announced as
    such, and without a reminder, escalation or relay configured nothing at all is
    said of it, however long it lasts. *)
Theorem relapse_is_not_announced s t1 t2 (told : bool) o now :
  phase s = Phase.Firing -> 0 < notify_count s ->
  let cleared := fst (advance s false t1 0) in
  let between := if told then set_notified (Some t1) (notify_count cleared + 1) cleared
                 else cleared in
  let back := advance between true t2 0 in
  ao_state o = fst back ->
  phase (ao_state o) = Phase.Firing /\ firing_since (ao_state o) = Some t2 /\
  snd back = Some {| tr_from := Phase.Resolved; tr_to := Phase.Firing |} /\
  Speech.decide o now <> Some NotifyReason.Firing /\
  (ao_repeat_interval o = None -> ao_escalate_after o = None -> ao_unacked_after o = None ->
   Speech.decide o now = None).
Proof.
  intros Hp Hn cleared between back Ho.
  assert (phase between = Phase.Resolved /\ 0 < notify_count between) as [Hpb Hnb].
  { unfold between, cleared, advance. simpl. rewrite Hp. destruct told; simpl; (split; [done|lia]). }
  assert (back = (fst back, Some {| tr_from := Phase.Resolved; tr_to := Phase.Firing |}) /\
          phase (fst back) = Phase.Firing /\ firing_since (fst back) = Some t2 /\
          0 < notify_count (fst back)) as (Hb & Hf & Hfs & Hnf).
  { unfold back, advance. simpl. rewrite Hpb. simpl.
    rewrite Z.sub_diag. simpl. done. }
  rewrite Ho. split_and!; [done|done|by rewrite Hb|..].
  all: unfold Speech.decide; destruct (_ || _); [done|]; rewrite Ho, Hf;
    destruct (is_acked _ now); [done|];
    destruct (Z.eqb_spec (notify_count (fst back)) 0); [lia|].
  - destruct (last_notified_at _); simpl; [|done].
    destruct (is_some_and _ _); [done|]. destruct (is_some_and _ _); [done|].
    destruct (ao_repeat_interval o) as [d|]; simpl; [|done].
    destruct (from_std d); simpl; [|done]. by destruct (_ <=? _).
  - intros Hr He Hu. unfold escalated_at, unacked_at. rewrite Hr, He, Hu. simpl.
    by destruct (last_notified_at _).
Qed.

Lemma relapse_is_not_announced_witness :
  let s := set_notified (Some 5) 1 (fst (advance AlertState_default true 0 0)) in
  let back := fst (advance (set_notified (Some 30) 2 (fst (advance s false 30 0))) true 60 0) in
  phase back = Phase.Firing /\ Speech.decide (outcome_of back None) 1000000 = None.
Proof.
  intros s back.
  destruct (relapse_is_not_announced s 30 60 true (outcome_of back None) 1000000)
    as (Hp & _ & _ & _ & Hd); [reflexivity|reflexivity|reflexivity|].
  split; [exact Hp|]. apply Hd; reflexivity.
Defined.
