(* ===== verification/Cycle.v ===== *)
(** * One evaluation cycle ([alerting/cycle.rs])

    [plan_cycle] takes the rules with what the metric store answered, the stored
    alerts, the topology, the silences, the overrides and the baselines, and returns
    the new states, the messages, the history and the frozen fingerprints.  It does no
    input or output; the baselines it updates are threaded through. *)
From Stdlib Require Import Ascii.
From S2P Require Import Prelude Text Float64 Chrono Model Machine Suppress Silence Overrides Baseline Group.

Definition UNKNOWN_TARGET : string := "no device".
Definition FORGOTTEN_TARGET_REASON : string := "device removed or disabled".

Record SeriesPoint := { sp_labels : gmap string string; sp_value : f64; sp_ts_ms : Z }.

Record StoredAlert := {
  sa_fingerprint : string;
  sa_rule_uid : string;
  sa_target_id : option TargetId;
  sa_series_key : string;
  sa_labels : gmap string string;
  sa_state : AlertState;
}.

(** [ob_series] is [None] when the query failed. *)
Record RuleObservations := { ob_rule : Rule; ob_series : option (list SeriesPoint) }.

(** ** Baselines in memory *)

Record BaselineStore := {
  bs_series : gmap string SeriesBaseline;
  bs_buckets : gmap (string * Z) Bucket;
  bs_dirty_series : gset string;
  bs_dirty_buckets : gset (string * Z);
}.

Definition BaselineStore_new (series : gmap string SeriesBaseline)
    (buckets : gmap (string * Z) Bucket) : BaselineStore :=
  {| bs_series := series; bs_buckets := buckets;
     bs_dirty_series := ∅; bs_dirty_buckets := ∅ |}.

(** Iteration over a hash set: in no particular order, on which nothing depends. *)
Definition dirty (s : BaselineStore) : list (string * Z * Bucket) :=
  omap (fun key => bucket ← bs_buckets s !! key; Some (key, bucket)) (elements (bs_dirty_buckets s)).

Definition dirty_series (s : BaselineStore) : list (string * SeriesBaseline) :=
  omap (fun key => series ← bs_series s !! key; Some (key, series)) (elements (bs_dirty_series s)).

Record HistoryEntry := {
  he_fingerprint : string;
  he_rule_uid : string;
  he_target_id : option TargetId;
  he_transition : Transition;
  he_severity : Severity;
  he_value : option f64;
  he_reason : string;
  he_at : DateTime;
}.

Record CycleOutcome := {
  co_alerts : list AlertOutcome;
  co_groups : list AlertGroup;
  co_history : list HistoryEntry;
  co_carried_over : list string;
}.

(** ** From a series to its target *)

Record TargetIndex := {
  ti_by_id : gmap TargetId TargetNode;
  ti_by_name : gmap string TargetId;
  ti_by_address : gmap string TargetId;
}.

Definition TargetIndex_new (targets : list TargetNode) : TargetIndex := {|
  ti_by_id := foldl (fun m t => <[tn_id t := t]> m) ∅ targets;
  ti_by_name := foldl (fun m t => <[tn_name t := tn_id t]> m) ∅ targets;
  ti_by_address := foldl (fun m t => <[tn_address t := tn_id t]> m) ∅ targets;
|}.

Definition resolve_target (i : TargetIndex) (labels : gmap string string) : option TargetNode :=
  if carries_target_id labels then
    find_map (fun label =>
      raw ← labels !! label; id ← parse_i64 raw; ti_by_id i !! id) TARGET_ID_LABELS
  else
    match find_map (fun label =>
            name ← labels !! label; id ← ti_by_name i !! name; ti_by_id i !! id)
            TARGET_NAME_LABELS with
    | Some node => Some node
    | None =>
        find_map (fun label =>
          address ← labels !! label;
          let host := match rsplit_once ":"%char address with
                      | Some (h, _) => h
                      | None => address
                      end in
          id ← match ti_by_address i !! address with
               | Some id => Some id
               | None => ti_by_address i !! host
               end;
          ti_by_id i !! id) TARGET_ADDRESS_LABELS
    end.

Definition is_live (i : TargetIndex) (id : TargetId) : bool :=
  is_some_and (ti_by_id i !! id) tn_enabled.

Definition is_orphan (i : TargetIndex) (alert : StoredAlert) : bool :=
  match sa_target_id alert with
  | Some id => negb (is_live i id)
  | None => carries_target_id (sa_labels alert)
  end.

Record Candidate := {
  cd_fingerprint : string;
  cd_target : option TargetNode;
  cd_point : SeriesPoint;
}.

Definition bears_current_name (c : Candidate) : bool :=
  match cd_target c with
  | None => true
  | Some target =>
      forallb (fun n => bool_decide (n = tn_name target))
        (omap (fun l => sp_labels (cd_point c) !! l) TARGET_NAME_LABELS)
  end.

(** The source keeps the position of the rule in the observations; the entry here
    carries the rule found there. *)
Record Evaluated := {
  ev_fingerprint : string;
  ev_rule : Rule;
  ev_target_id : option TargetId;
  ev_target_name : string;
  ev_series_key : string;
  ev_labels : gmap string string;
  ev_state : AlertState;
  ev_transition : option Transition;
  ev_value : option f64;
  ev_score : option f64;
  ev_threshold : f64;
}.

(** Why a transition did not notify, for the history. *)
Definition history_reason (state : AlertState) (now : DateTime) : string :=
  if learning state then "learning: would have fired"
  else if suppressed state then
    match suppressed_by state with
    | Some culprit => ("suppressed: device " +:+ display_i64 culprit +:+ " unreachable")%string
    | None => "suppressed by dependency"
    end
  else if silenced state then "maintenance window"
  else if is_acked state now then
    match acked_by state with
    | Some who => ("acknowledged by " +:+ who)%string
    | None => "acknowledged"
    end
  else "".

Section Cycle.
Context {C : Calendar}.

Record CycleInput := {
  in_now : DateTime;
  in_observations : list RuleObservations;
  in_targets : list TargetNode;
  in_previous : list StoredAlert;
  in_silences : list Silence;
  in_overrides : list RuleOverride;
  in_unacked_after : option Duration;
}.

(** ** Evaluating a point *)

Definition evaluate_point (rule : Rule) (effective : Effective) (active : bool)
    (series_key : string) (point : SeriesPoint) (now : DateTime) (baselines : BaselineStore) :
    bool * option f64 * bool * BaselineStore :=
  match r_kind rule with
  | RuleKind.Threshold | RuleKind.Predict =>
      (Operator.holds (r_operator rule) (sp_value point) (eff_threshold effective)
         (eff_clear_threshold effective) active, None, false, baselines)
  | RuleKind.Anomaly =>
      let bucket_index := bucket_of now in
      let series := bs_series baselines !! series_key ?? SeriesBaseline_new now in
      let is_first_sight := updates series =? 0 in
      let bucket := bs_buckets baselines !! (series_key, bucket_index) ?? Bucket_default in
      let verdict := evaluate series bucket (sp_value point) now (r_params rule) in
      let baselines' := {|
        bs_series :=
          <[series_key := {| first_seen := first_seen series;
                             updates := u64_saturating_add (updates series) 1 |}]>
            (bs_series baselines);
        bs_buckets :=
          <[(series_key, bucket_index) := observe bucket (sp_value point) (r_params rule)]>
            (bs_buckets baselines);
        bs_dirty_series :=
          if is_first_sight then {[series_key]} ∪ bs_dirty_series baselines
          else bs_dirty_series baselines;
        bs_dirty_buckets := {[(series_key, bucket_index)]} ∪ bs_dirty_buckets baselines;
      |} in
      (av_exceeds verdict, av_score verdict, av_learning verdict, baselines')
  end.

(** ** The candidates of a rule *)

Record Candidates := { cs_list : list Candidate; cs_position : gmap string nat }.

Definition push_candidate (index : TargetIndex) (rule : Rule) (cs : Candidates)
    (point : SeriesPoint) : Candidates :=
  let target := resolve_target index (sp_labels point) in
  if is_some_and target (fun t => negb (tn_enabled t)) ||
     (bool_decide (target = None) && carries_target_id (sp_labels point))
  then cs
  else if negb (TargetSelector.matches (r_selector rule) target) then cs
  else
    let fp := fingerprint (r_uid rule) (identity_key (sp_labels point)) in
    let candidate := {| cd_fingerprint := fp; cd_target := target; cd_point := point |} in
    match cs_position cs !! fp with
    | Some at_ =>
        match cs_list cs !! at_ with
        | Some present =>
            if negb (bears_current_name present) && bears_current_name candidate
            then {| cs_list := <[at_ := candidate]> (cs_list cs); cs_position := cs_position cs |}
            else cs
        | None => cs
        end
    | None =>
        {| cs_list := cs_list cs ++ [candidate];
           cs_position := <[fp := length (cs_list cs)]> (cs_position cs) |}
    end.

Definition candidates_of (index : TargetIndex) (rule : Rule) (series : list SeriesPoint) :
    list Candidate :=
  cs_list (foldl (push_candidate index rule) {| cs_list := []; cs_position := ∅ |} series).

(** ** The loop over the rules *)

Record Loop := {
  lp_evaluated : list Evaluated;
  lp_seen : gset string;
  lp_carried_over : list string;
  lp_baselines : BaselineStore;
}.

(** A live alert is found under its stored fingerprint, the last one listed winning,
    and failing that under the fingerprint its labels give today, the first winning. *)
Definition previous_index (live : list StoredAlert) : gmap string StoredAlert :=
  let stored := foldl (fun m alert => <[sa_fingerprint alert := alert]> m) ∅ live in
  foldl (fun m alert =>
           let rekeyed := fingerprint (sa_rule_uid alert) (identity_key (sa_labels alert)) in
           match m !! rekeyed with Some _ => m | None => <[rekeyed := alert]> m end)
        stored live.

Definition strip_overlays (s : AlertState) : AlertState := set_overlays false None false s.

Definition eval_candidate (index : TargetIndex) (overrides : OverrideIndex)
    (previous : gmap string StoredAlert) (now : DateTime) (rule : Rule)
    (st : Loop) (c : Candidate) : Loop :=
  let point := cd_point c in
  let eff := effective overrides rule (tn_id <$> cd_target c) in
  if negb (eff_enabled eff) then st
  else
    let key := series_key (sp_labels point) in
    let seen := {[cd_fingerprint c]} ∪ lp_seen st in
    let stored := previous !! cd_fingerprint c in
    let seen := match stored with
                | Some stored =>
                    if bool_decide (sa_fingerprint stored <> cd_fingerprint c)
                    then {[sa_fingerprint stored]} ∪ seen else seen
                | None => seen
                end in
    let before := strip_overlays ((sa_state <$> stored) ?? AlertState_default) in
    let active := bool_decide (is_Some (condition_since before)) in
    let '(condition, score, learning, baselines) :=
      evaluate_point rule eff active key point now (lp_baselines st) in
    let '(state, transition) := advance before condition now (r_for_duration rule) in
    let state := set_measure (Some (sp_value point)) score learning state in
    let target_name :=
      match cd_target c with
      | Some t => tn_name t
      | None =>
          find_map (fun l => sp_labels point !! l) TARGET_NAME_LABELS ?? UNKNOWN_TARGET
      end in
    {| lp_evaluated := lp_evaluated st ++ [{|
         ev_fingerprint := cd_fingerprint c; ev_rule := rule;
         ev_target_id := tn_id <$> cd_target c; ev_target_name := target_name;
         ev_series_key := key; ev_labels := sp_labels point; ev_state := state;
         ev_transition := transition; ev_value := Some (sp_value point); ev_score := score;
         ev_threshold := eff_threshold eff |}];
       lp_seen := seen; lp_carried_over := lp_carried_over st; lp_baselines := baselines |}.

Definition eval_vanished (index : TargetIndex) (overrides : OverrideIndex) (now : DateTime)
    (rule : Rule) (st : Loop) (stored : StoredAlert) : Loop :=
  if bool_decide (sa_fingerprint stored ∈ lp_seen st) then st
  else
    let before := strip_overlays (sa_state stored) in
    let '(state, transition) := advance before false now (r_for_duration rule) in
    if bool_decide (phase state = Phase.Ok) && bool_decide (transition = None) then st
    else
      {| lp_evaluated := lp_evaluated st ++ [{|
           ev_fingerprint := sa_fingerprint stored; ev_rule := rule;
           ev_target_id := sa_target_id stored;
           ev_target_name :=
             (tn_name <$> (id ← sa_target_id stored; ti_by_id index !! id)) ?? UNKNOWN_TARGET;
           ev_series_key := sa_series_key stored; ev_labels := sa_labels stored;
           ev_state := state; ev_transition := transition; ev_value := None; ev_score := None;
           ev_threshold := eff_threshold (effective overrides rule (sa_target_id stored)) |}];
         lp_seen := {[sa_fingerprint stored]} ∪ lp_seen st;
         lp_carried_over := lp_carried_over st; lp_baselines := lp_baselines st |}.

Definition of_rule (rule : Rule) (live : list StoredAlert) : list StoredAlert :=
  filter (fun a => sa_rule_uid a = r_uid rule) live.

Definition eval_rule (index : TargetIndex) (overrides : OverrideIndex)
    (live : list StoredAlert) (previous : gmap string StoredAlert) (now : DateTime)
    (st : Loop) (observation : RuleObservations) : Loop :=
  let rule := ob_rule observation in
  match ob_series observation with
  | None =>
      {| lp_evaluated := lp_evaluated st; lp_seen := lp_seen st;
         lp_carried_over := lp_carried_over st ++ (sa_fingerprint <$> of_rule rule live);
         lp_baselines := lp_baselines st |}
  | Some series =>
      let st := foldl (eval_candidate index overrides previous now rule) st
                  (candidates_of index rule series) in
      foldl (eval_vanished index overrides now rule) st (of_rule rule live)
  end.

(** ** The whole cycle *)

Definition orphan_entry (observations : list RuleObservations) (now : DateTime)
    (alert : StoredAlert) : HistoryEntry := {|
  he_fingerprint := sa_fingerprint alert;
  he_rule_uid := sa_rule_uid alert;
  he_target_id := sa_target_id alert;
  he_transition := {| tr_from := phase (sa_state alert); tr_to := Phase.Resolved |};
  he_severity :=
    match find_map (fun o => if bool_decide (r_uid (ob_rule o) = sa_rule_uid alert)
                             then Some (r_severity (ob_rule o)) else None) observations with
    | Some severity => severity
    | None => Severity.Warning
    end;
  he_value := None;
  he_reason := FORGOTTEN_TARGET_REASON;
  he_at := now;
|}.

Definition orphans_of (index : TargetIndex) (previous : list StoredAlert) : list StoredAlert :=
  filter (fun a => is_orphan index a = true) previous.
Definition live_of (index : TargetIndex) (previous : list StoredAlert) : list StoredAlert :=
  filter (fun a => is_orphan index a = false) previous.

Definition down_set (evaluated : list Evaluated) (targets : list TargetNode) : gset TargetId :=
  list_to_set (omap ev_target_id
    (filter (fun e => is_host_down (ev_rule e) = true /\ phase (ev_state e) = Phase.Firing)
            evaluated)) ∪
  list_to_set (tn_id <$> filter (fun t => tn_unreachable t = true) targets).

Definition overlaid (topology : Topology) (silences : list Silence) (down : gset TargetId)
    (now : DateTime) (entry : Evaluated) : AlertState :=
  let state := ev_state entry in
  let '(sup, by_) :=
    match suppression_for topology (ev_target_id entry) (is_host_down (ev_rule entry)) down with
    | Some suppression =>
        (true, (fun target => Suppression.culprit suppression target) <$> ev_target_id entry)
    | None => (suppressed state, suppressed_by state)
    end in
  let sil :=
    match first_match silences now (ev_target_id entry) (ev_labels entry) with
    | Some _ => true
    | None => silenced state
    end in
  set_overlays sup by_ sil state.

Definition outcome_of_entry (unacked_after : option Duration) (entry : Evaluated)
    (state : AlertState) : AlertOutcome :=
  let rule := ev_rule entry in {|
  ao_fingerprint := ev_fingerprint entry;
  ao_rule_uid := r_uid rule;
  ao_rule_name := r_name rule;
  ao_target_id := ev_target_id entry;
  ao_target_name := ev_target_name entry;
  ao_series_key := ev_series_key entry;
  ao_labels := ev_labels entry;
  ao_state := state;
  ao_severity := r_severity rule;
  ao_value := ev_value entry;
  ao_score := ev_score entry;
  ao_unit := r_unit rule;
  ao_operator := Operator.as_str (r_operator rule);
  ao_threshold := ev_threshold entry;
  ao_channels := r_channels rule;
  ao_repeat_interval := r_repeat_interval rule;
  ao_escalate_after := r_escalate_after rule;
  ao_unacked_after := unacked_after;
  ao_just_transitioned := bool_decide (is_Some (ev_transition entry));
|}.

Definition transition_entry (now : DateTime) (entry : Evaluated) (state : AlertState) :
    option HistoryEntry :=
  transition ← ev_transition entry;
  Some {|
    he_fingerprint := ev_fingerprint entry;
    he_rule_uid := r_uid (ev_rule entry);
    he_target_id := ev_target_id entry;
    he_transition := transition;
    he_severity := r_severity (ev_rule entry);
    he_value := ev_value entry;
    he_reason := history_reason state now;
    he_at := now;
  |}.

Definition describe_group (index : TargetIndex) (g : AlertGroup) : AlertGroup :=
  match (id ← ag_target_id g; ti_by_id index !! id) with
  | None => g
  | Some node => {|
      ag_target_id := ag_target_id g; ag_target_name := ag_target_name g;
      ag_target_kind := tn_kind node; ag_target_tags := tn_tags node;
      ag_severity := ag_severity g; ag_items := ag_items g;
      ag_channels := ag_channels g; ag_at := ag_at g |}
  end.

Definition run_rules (input : CycleInput) (baselines : BaselineStore) : Loop :=
  let index := TargetIndex_new (in_targets input) in
  let overrides := OverrideIndex_new (in_overrides input) in
  let live := live_of index (in_previous input) in
  foldl (eval_rule index overrides live (previous_index live) (in_now input))
    {| lp_evaluated := []; lp_seen := ∅; lp_carried_over := []; lp_baselines := baselines |}
    (in_observations input).

Definition plan_cycle (input : CycleInput) (baselines : BaselineStore) :
    CycleOutcome * BaselineStore :=
  let now := in_now input in
  let index := TargetIndex_new (in_targets input) in
  let topology := Topology_new (in_targets input) in
  let history :=
    orphan_entry (in_observations input) now <$>
      filter (fun a => Phase.is_active (phase (sa_state a)) = true)
        (orphans_of index (in_previous input)) in
  let st := run_rules input baselines in
  let down := down_set (lp_evaluated st) (in_targets input) in
  let finished :=
    (fun entry => (entry, overlaid topology (in_silences input) down now entry)) <$>
      lp_evaluated st in
  let history :=
    history ++ omap (fun '(entry, state) => transition_entry now entry state) finished in
  let alerts :=
    (fun '(entry, state) => outcome_of_entry (in_unacked_after input) entry state) <$> finished in
  let groups := describe_group index <$> group alerts now in
  ({| co_alerts := alerts; co_groups := groups; co_history := history;
      co_carried_over := lp_carried_over st |}, lp_baselines st).
End Cycle.

(** ** Facts: targets *)

Lemma TargetIndex_new_by_id targets id t :
  ti_by_id (TargetIndex_new targets) !! id = Some t -> tn_id t = id /\ t ∈ targets.
Proof.
  simpl. revert id t.
  apply (foldl_invariant (fun m : gmap TargetId TargetNode =>
    forall id t, m !! id = Some t -> tn_id t = id /\ t ∈ targets)); [done|].
  intros m x Hx IH id t. rewrite lookup_insert_Some. naive_solver.
Qed.

Lemma resolve_target_known index labels t :
  resolve_target index labels = Some t -> exists id, ti_by_id index !! id = Some t.
Proof.
  assert (forall (f : string -> option TargetNode) ls, find_map f ls = Some t ->
            (forall l, f l = Some t -> exists id, ti_by_id index !! id = Some t) ->
            exists id, ti_by_id index !! id = Some t) as H.
  { intros f ls (l1 & x & l2 & _ & Hx & _)%find_map_Some Hf. by apply (Hf x). }
  unfold resolve_target. destruct (carries_target_id labels).
  - intros Hf. apply (H _ _ Hf). intros l Hl. apply bind_Some in Hl as (raw & _ & Hl).
    apply bind_Some in Hl as (id & _ & ?). eauto.
  - destruct (find_map _ TARGET_NAME_LABELS) as [n|] eqn:E; intros Hf.
    + injection Hf as ->. apply (H _ _ E). intros l Hl. apply bind_Some in Hl as (raw & _ & Hl).
      apply bind_Some in Hl as (id & _ & ?). eauto.
    + apply (H _ _ Hf). intros l Hl. apply bind_Some in Hl as (raw & _ & Hl).
      apply bind_Some in Hl as (id & _ & ?). eauto.
Qed.

(** A series that takes part in the evaluation of a rule. *)
Definition accepted (index : TargetIndex) (rule : Rule) (point : SeriesPoint) : Prop :=
  let target := resolve_target index (sp_labels point) in
  match target with
  | Some t => tn_enabled t = true
  | None => carries_target_id (sp_labels point) = false
  end /\ TargetSelector.matches (r_selector rule) target = true.

Definition candidate_of (index : TargetIndex) (rule : Rule) (point : SeriesPoint) : Candidate := {|
  cd_fingerprint := fingerprint (r_uid rule) (identity_key (sp_labels point));
  cd_target := resolve_target index (sp_labels point);
  cd_point := point;
|}.

Definition cs_wf (cs : Candidates) : Prop :=
  forall fp i, cs_position cs !! fp = Some i <-> cd_fingerprint <$> (cs_list cs !! i) = Some fp.

Lemma push_candidate_cases index rule cs point :
  (~ accepted index rule point /\ push_candidate index rule cs point = cs) \/
  (accepted index rule point /\
   let c := candidate_of index rule point in
   match cs_position cs !! cd_fingerprint c with
   | None => push_candidate index rule cs point =
       {| cs_list := cs_list cs ++ [c];
          cs_position := <[cd_fingerprint c := length (cs_list cs)]> (cs_position cs) |}
   | Some i => push_candidate index rule cs point = cs \/
       push_candidate index rule cs point =
       {| cs_list := <[i := c]> (cs_list cs); cs_position := cs_position cs |}
   end).
Proof.
  unfold push_candidate, accepted, candidate_of. simpl.
  destruct (resolve_target index (sp_labels point)) as [t|]; simpl.
  - destruct (tn_enabled t); simpl; [|by left; split; [intros [? _]|]].
    destruct (TargetSelector.matches _ _); simpl; [|by left; split; [intros [_ ?]|]].
    right. split; [done|]. destruct (cs_position cs !! _) as [i|]; [|done].
    destruct (cs_list cs !! i); [|by left]. destruct (_ && _); [by right|by left].
  - destruct (carries_target_id _); simpl; [by left; split; [intros [? _]|]|].
    destruct (TargetSelector.matches _ _); simpl; [|by left; split; [intros [_ ?]|]].
    right. split; [done|]. destruct (cs_position cs !! _) as [i|]; [|done].
    destruct (cs_list cs !! i); [|by left]. destruct (_ && _); [by right|by left].
Qed.

Lemma cs_wf_replace cs i c :
  cs_wf cs -> cs_position cs !! cd_fingerprint c = Some i ->
  cs_wf {| cs_list := <[i := c]> (cs_list cs); cs_position := cs_position cs |}.
Proof.
  unfold cs_wf. intros Hwf Hi fp j. simpl. rewrite Hwf.
  pose proof (proj1 (Hwf _ _) Hi) as Hc. destruct (cs_list cs !! i) as [c'|] eqn:E; [|done].
  injection Hc as Hc. destruct (stdpp.base.decide (i = j)) as [<-|].
  - rewrite list_lookup_insert_eq by by eapply lookup_lt_Some. rewrite E. simpl. by rewrite Hc.
  - by rewrite list_lookup_insert_ne.
Qed.

Lemma cs_wf_append cs c :
  cs_wf cs -> cs_position cs !! cd_fingerprint c = None ->
  cs_wf {| cs_list := cs_list cs ++ [c];
           cs_position := <[cd_fingerprint c := length (cs_list cs)]> (cs_position cs) |}.
Proof.
  unfold cs_wf. intros Hwf Hn fp i. simpl. rewrite lookup_insert_Some, Hwf.
  assert (cd_fingerprint <$> cs_list cs !! i = Some fp -> (i < length (cs_list cs))%nat /\ cd_fingerprint c <> fp) as Hlt.
  { intros Hi. split.
    - destruct (cs_list cs !! i) eqn:E; [by eapply lookup_lt_Some|done].
    - intros <-. apply Hwf in Hi. congruence. }
  split.
  - intros [[<- <-]|[Hne Hi]].
    + by rewrite lookup_app_r, Nat.sub_diag by lia.
    + destruct (Hlt Hi). by rewrite lookup_app_l.
  - destruct (stdpp.base.decide (i < length (cs_list cs))%nat).
    + rewrite lookup_app_l by done. intros Hi. right. split; [by apply Hlt|done].
    + rewrite lookup_app_r by lia. intros Hi. left.
      destruct (i - length (cs_list cs))%nat eqn:E; simpl in Hi; [|done].
      injection Hi as <-. split; [done|lia].
Qed.

Definition cs_inv (index : TargetIndex) (rule : Rule) (series : list SeriesPoint)
    (cs : Candidates) : Prop :=
  cs_wf cs /\
  (forall c, c ∈ cs_list cs ->
     exists point, point ∈ series /\ accepted index rule point /\ c = candidate_of index rule point) /\
  (forall point, point ∈ series -> accepted index rule point ->
     is_Some (cs_position cs !! cd_fingerprint (candidate_of index rule point))).

Lemma push_candidate_inv index rule series cs point :
  cs_inv index rule series cs ->
  cs_inv index rule (series ++ [point]) (push_candidate index rule cs point).
Proof.
  intros (Hwf & Hfrom & Hall).
  destruct (push_candidate_cases index rule cs point) as [[Hna ->]|[Ha Hc]].
  { split_and!; [done| |].
    - intros c Hc. destruct (Hfrom c Hc) as (q & ? & ?). exists q. set_solver.
    - intros q [Hq| ->%list_elem_of_singleton]%elem_of_app Hacc; [by apply Hall|done]. }
  simpl in Hc. set (c := candidate_of index rule point) in *.
  assert (forall q, q ∈ series ++ [point] -> accepted index rule q ->
            is_Some (cs_position cs !! cd_fingerprint (candidate_of index rule q)) \/
            q = point) as Hq.
  { intros q [Hq| ->%list_elem_of_singleton]%elem_of_app Hacc; [left; by apply Hall|by right]. }
  assert (forall c', c' ∈ cs_list cs \/ c' = c -> exists q, q ∈ series ++ [point] /\
            accepted index rule q /\ c' = candidate_of index rule q) as Hf.
  { intros c' [Hc'| ->]; [destruct (Hfrom c' Hc') as (q & ? & ?)|]; eexists;
      (split; [|done]); set_solver. }
  change (fingerprint _ _) with (cd_fingerprint c) in Hc.
  destruct (cs_position cs !! cd_fingerprint c) as [i|] eqn:Hi.
  - destruct Hc as [->| ->]; (split_and!; [|..]).
    + done.
    + intros c' ?. apply Hf. by left.
    + intros q H1 H2. destruct (Hq q H1 H2) as [|Hqp]; [done|]. rewrite Hqp. by exists i.
    + by apply cs_wf_replace.
    + intros c' Hc'%list_elem_of_lookup. apply Hf. destruct Hc' as [j Hj]. simpl in Hj.
      apply list_lookup_insert_Some in Hj as [(? & ? & ?)|[? ?]]; [by right|left].
      by eapply list_elem_of_lookup_2.
    + intros q H1 H2. destruct (Hq q H1 H2) as [|Hqp]; [done|]. rewrite Hqp. by exists i.
  - rewrite Hc. split_and!.
    + by apply cs_wf_append.
    + simpl. intros c' Hc'. apply Hf. set_solver.
    + simpl. intros q H1 H2. rewrite lookup_insert_is_Some'.
      destruct (Hq q H1 H2) as [|Hqp]; [by right|left; by rewrite Hqp].
Qed.

Lemma candidates_inv index rule series :
  cs_inv index rule series
    (foldl (push_candidate index rule) {| cs_list := []; cs_position := ∅ |} series).
Proof.
  induction series as [|point series IH] using rev_ind.
  - split_and!; simpl.
    + intros fp i. simpl. done.
    + by intros c ?%elem_of_nil.
    + by intros q ?%elem_of_nil.
  - rewrite foldl_app. by apply push_candidate_inv.
Qed.

Lemma candidates_spec index rule series :
  NoDup (cd_fingerprint <$> candidates_of index rule series) /\
  (forall c, c ∈ candidates_of index rule series ->
     exists point, point ∈ series /\ accepted index rule point /\ c = candidate_of index rule point) /\
  (forall point, point ∈ series -> accepted index rule point ->
     cd_fingerprint (candidate_of index rule point) ∈
       cd_fingerprint <$> candidates_of index rule series).
Proof.
  destruct (candidates_inv index rule series) as (Hwf & Hfrom & Hall).
  unfold candidates_of. split_and!; [|done|].
  - apply NoDup_alt. intros i j fp Hi Hj. rewrite list_lookup_fmap in Hi, Hj.
    apply Hwf in Hi, Hj. congruence.
  - intros q Hq Ha. destruct (Hall q Hq Ha) as [i Hi]. apply Hwf in Hi.
    rewrite <-list_lookup_fmap in Hi. by eapply list_elem_of_lookup_2.
Qed.

(** ** Facts: the loop *)

Section Loop.
Context {C : Calendar} (index : TargetIndex) (overrides : OverrideIndex)
  (live : list StoredAlert) (now : DateTime).

Notation previous := (previous_index live).

(** The entry of a series of the answer, and that of a series that went away. *)
Definition from_point (rule : Rule) (e : Evaluated) (point : SeriesPoint) : Prop :=
  let target := resolve_target index (sp_labels point) in
  let fp := fingerprint (r_uid rule) (identity_key (sp_labels point)) in
  accepted index rule point /\ ev_rule e = rule /\ ev_fingerprint e = fp /\
  ev_target_id e = tn_id <$> target /\ ev_labels e = sp_labels point /\
  eff_enabled (effective overrides rule (tn_id <$> target)) = true /\
  exists condition score learn,
    let before := strip_overlays ((sa_state <$> previous !! fp) ?? AlertState_default) in
    let r := advance before condition now (r_for_duration rule) in
    ev_state e = set_measure (Some (sp_value point)) score learn (fst r) /\
    ev_transition e = snd r.

Definition from_vanished (rule : Rule) (e : Evaluated) (stored : StoredAlert) : Prop :=
  let r := advance (strip_overlays (sa_state stored)) false now (r_for_duration rule) in
  stored ∈ live /\ sa_rule_uid stored = r_uid rule /\ ev_rule e = rule /\
  ev_fingerprint e = sa_fingerprint stored /\ ev_target_id e = sa_target_id stored /\
  ev_labels e = sa_labels stored /\ ev_state e = fst r /\ ev_transition e = snd r.

Definition fps (st : Loop) : list string := ev_fingerprint <$> lp_evaluated st.

(** The alert stored as [f] continues in an entry under another fingerprint. *)
Definition taken_over (st : Loop) (f : string) : Prop :=
  exists e a, e ∈ lp_evaluated st /\ previous !! ev_fingerprint e = Some a /\ sa_fingerprint a = f.

Lemma eval_candidate_cases rule st point :
  let c := candidate_of index rule point in
  let st' := eval_candidate index overrides previous now rule st c in
  accepted index rule point ->
  (st' = st /\ eff_enabled (effective overrides rule (tn_id <$> cd_target c)) = false) \/
  exists e, from_point rule e point /\
    lp_evaluated st' = lp_evaluated st ++ [e] /\ lp_carried_over st' = lp_carried_over st /\
    forall f, f ∈ lp_seen st' <-> f ∈ lp_seen st \/ f = ev_fingerprint e \/
                exists a, previous !! ev_fingerprint e = Some a /\ f = sa_fingerprint a.
Proof.
  intros c st' Hacc. unfold st', eval_candidate. change (cd_point c) with point.
  destruct (eff_enabled _) eqn:Hen; simpl; [right|by left].
  destruct (evaluate_point _ _ _ _ _ _ _) as [[[cond sc] learn] bs] eqn:Hev.
  destruct (advance _ _ _ _) as [state tr] eqn:Ha.
  eexists. split; [|split; [reflexivity|split; [reflexivity|]]].
  - unfold from_point. simpl. split_and!; try done. exists cond, sc, learn.
    change (cd_fingerprint c) with (fingerprint (r_uid rule) (identity_key (sp_labels point))) in Ha.
    by rewrite Ha.
  - intros f. simpl. change (fingerprint _ _) with (cd_fingerprint c).
    assert (f ∈ {[cd_fingerprint c]} ∪ lp_seen st <-> f ∈ lp_seen st \/ f = cd_fingerprint c)
      as Hin by set_solver.
    destruct (previous !! cd_fingerprint c) as [a|]; [|rewrite Hin; naive_solver].
    destruct (stdpp.base.decide (sa_fingerprint a = cd_fingerprint c)) as [He|Hne].
    + rewrite bool_decide_false, Hin by naive_solver. naive_solver.
    + rewrite bool_decide_true, elem_of_union, elem_of_singleton, Hin by done. naive_solver.
Qed.

Lemma advance_false_at_rest s d :
  phase (fst (advance s false now d)) = Phase.Ok ->
  snd (advance s false now d) = None -> phase s = Phase.Ok.
Proof. advance_cases s; done. Qed.

Lemma eval_vanished_cases rule st stored :
  let st' := eval_vanished index overrides now rule st stored in
  stored ∈ of_rule rule live ->
  (st' = st /\ (sa_fingerprint stored ∈ lp_seen st \/ phase (sa_state stored) = Phase.Ok)) \/
  sa_fingerprint stored ∉ lp_seen st /\
  exists e, from_vanished rule e stored /\
    lp_evaluated st' = lp_evaluated st ++ [e] /\ lp_carried_over st' = lp_carried_over st /\
    lp_seen st' = {[ev_fingerprint e]} ∪ lp_seen st.
Proof.
  intros st' [Hu Hl]%list_elem_of_filter. unfold st', eval_vanished.
  case_bool_decide as Hs; [left; split; [done|by left]|].
  destruct (advance _ _ _ _) as [state tr] eqn:Ha.
  destruct (bool_decide _ && bool_decide _) eqn:E.
  - left. split; [done|]. right. bools.
    apply (advance_false_at_rest (strip_overlays (sa_state stored)) (r_for_duration rule));
      by rewrite Ha.
  - right. split; [done|]. eexists. split; [|split; [reflexivity|split; reflexivity]].
    unfold from_vanished. rewrite Ha. by split_and!.
Qed.

(** What every round keeps. *)
Definition origin (observations : list RuleObservations) (e : Evaluated) : Prop :=
  exists o series, o ∈ observations /\ ob_series o = Some series /\
    ((exists point, point ∈ series /\ from_point (ob_rule o) e point) \/
     exists stored, from_vanished (ob_rule o) e stored).

Definition loop_inv (observations : list RuleObservations) (st : Loop) : Prop :=
  (forall e, e ∈ lp_evaluated st -> origin observations e) /\
  (forall f, f ∈ fps st -> f ∈ lp_seen st) /\
  (forall f, f ∈ lp_seen st -> f ∈ fps st \/ taken_over st f).

Definition grows (st st' : Loop) : Prop :=
  (exists es, lp_evaluated st' = lp_evaluated st ++ es) /\ lp_seen st ⊆ lp_seen st' /\
  (exists cs, lp_carried_over st' = lp_carried_over st ++ cs).

#[export] Instance grows_preorder : PreOrder grows.
Proof.
  split.
  - intros st. split_and!; [exists []; by rewrite app_nil_r|done|exists []; by rewrite app_nil_r].
  - intros a b c ((e1 & He1) & ? & (c1 & Hc1)) ((e2 & He2) & ? & (c2 & Hc2)).
    split_and!; [exists (e1 ++ e2); by rewrite He2, He1, app_assoc|set_solver|
                 exists (c1 ++ c2); by rewrite Hc2, Hc1, app_assoc].
Qed.

Lemma loop_inv_push observations st st' e :
  loop_inv observations st -> origin observations e ->
  lp_evaluated st' = lp_evaluated st ++ [e] ->
  (forall f, f ∈ lp_seen st' <-> f ∈ lp_seen st \/ f = ev_fingerprint e \/
             exists a, previous !! ev_fingerprint e = Some a /\ f = sa_fingerprint a) \/
  lp_seen st' = {[ev_fingerprint e]} ∪ lp_seen st ->
  loop_inv observations st'.
Proof.
  intros (Ho & Hs & Ht) He Hev Hseen.
  assert (Hfps : fps st' = fps st ++ [ev_fingerprint e]) by (unfold fps; by rewrite Hev, fmap_app).
  assert (forall f, f ∈ lp_seen st -> f ∈ lp_seen st') as Hmono.
  { intros f Hf. destruct Hseen as [Hseen|Hseen]; [apply Hseen; by left|set_solver]. }
  assert (ev_fingerprint e ∈ lp_seen st') as Hin.
  { destruct Hseen as [Hseen|Hseen]; [apply Hseen; auto|set_solver]. }
  unfold loop_inv, taken_over. rewrite Hfps, Hev. split_and!.
  - intros e' [?| ->%list_elem_of_singleton]%elem_of_app; auto.
  - intros f [?| ->%list_elem_of_singleton]%elem_of_app; auto.
  - intros f Hf.
    assert (f ∈ lp_seen st \/ f = ev_fingerprint e \/
            exists a, previous !! ev_fingerprint e = Some a /\ f = sa_fingerprint a) as Hc.
    { destruct Hseen as [Hseen|Hseen]; [by apply Hseen|set_solver]. }
    destruct Hc as [Hc|[->|(a & ? & ->)]].
    + destruct (Ht f Hc) as [|(e' & a & ? & ? & ?)]; [left; set_solver|right].
      exists e', a. set_solver.
    + left. set_solver.
    + right. exists e, a. set_solver.
Qed.

Definition good (observations : list RuleObservations) (st0 st : Loop) : Prop :=
  loop_inv observations st /\ grows st0 st.

Lemma eval_candidate_good observations o series st0 st point :
  o ∈ observations -> ob_series o = Some series -> point ∈ series ->
  accepted index (ob_rule o) point -> good observations st0 st ->
  good observations st0
    (eval_candidate index overrides previous now (ob_rule o) st
       (candidate_of index (ob_rule o) point)).
Proof.
  intros Ho Hs Hp Hacc [Hi Hg].
  destruct (eval_candidate_cases (ob_rule o) st point Hacc) as [[-> _]|(e & He & Hev & Hc & Hsn)];
    [done|]. split.
  - eapply loop_inv_push; [done| |done|by left]. exists o, series.
    split_and!; [done..|]. left. by exists point.
  - etrans; [done|]. split_and!; [by eexists|set_solver|exists []; by rewrite app_nil_r].
Qed.

Lemma eval_vanished_good observations o series st0 st stored :
  o ∈ observations -> ob_series o = Some series -> stored ∈ of_rule (ob_rule o) live ->
  good observations st0 st ->
  good observations st0 (eval_vanished index overrides now (ob_rule o) st stored).
Proof.
  intros Ho Hs Hl [Hi Hg].
  destruct (eval_vanished_cases (ob_rule o) st stored Hl)
    as [[-> _]|(_ & e & He & Hev & Hc & Hsn)]; [done|]. split.
  - eapply loop_inv_push; [done| |done|by right]. exists o, series.
    split_and!; [done..|]. right. by exists stored.
  - etrans; [done|]. split_and!; [by eexists|set_solver|exists []; by rewrite app_nil_r].
Qed.

(** The two passes of a rule that was answered. *)
Definition points_pass (rule : Rule) (series : list SeriesPoint) (st : Loop) : Loop :=
  foldl (eval_candidate index overrides previous now rule) st (candidates_of index rule series).

Lemma points_pass_good observations o series st :
  o ∈ observations -> ob_series o = Some series -> loop_inv observations st ->
  good observations st (points_pass (ob_rule o) series st).
Proof.
  intros Ho Hs Hi. apply (foldl_invariant (good observations st)); [by split|].
  intros st' c Hc Hgood. apply candidates_spec in Hc as (point & ? & ? & ->).
  by eapply eval_candidate_good.
Qed.

Lemma eval_rule_good observations o st :
  o ∈ observations -> loop_inv observations st ->
  good observations st (eval_rule index overrides live previous now st o).
Proof.
  intros Ho Hi. unfold eval_rule. destruct (ob_series o) as [series|] eqn:Hs.
  - apply (foldl_invariant (good observations st)); [by apply points_pass_good|].
    intros st' stored Hst Hgood. by eapply eval_vanished_good.
  - split; [done|]. split_and!; simpl; [exists []; by rewrite app_nil_r|done|by eexists].
Qed.

Lemma eval_rules_good observations l st :
  l ⊆ observations -> loop_inv observations st ->
  good observations st (foldl (eval_rule index overrides live previous now) st l).
Proof.
  revert st. induction l as [|o l IH]; intros st Hl Hi; simpl; [by split|].
  destruct (eval_rule_good observations o st) as [Hi' Hg]; [set_solver|done|].
  destruct (IH (eval_rule index overrides live previous now st o)) as [? Hg'];
    [set_solver|done|]. split; [done|]. by etrans.
Qed.

(** After its rule, a stored alert was seen, unless it was at rest. *)
Lemma eval_rule_sees o series st stored :
  ob_series o = Some series -> stored ∈ of_rule (ob_rule o) live ->
  sa_fingerprint stored ∈ lp_seen (eval_rule index overrides live previous now st o) \/
  phase (sa_state stored) = Phase.Ok.
Proof.
  intros Hs Hin. unfold eval_rule. rewrite Hs.
  apply list_elem_of_split in Hin as (l1 & l2 & Hl).
  assert (Hsub : forall a, a ∈ l1 ++ stored :: l2 -> a ∈ of_rule (ob_rule o) live)
    by by rewrite Hl.
  rewrite Hl, foldl_app. simpl. set (st1 := foldl _ _ l1).
  destruct (eval_vanished_cases (ob_rule o) st1 stored) as [[-> [Hc|Hc]]|(_ & e & He & _ & _ & Hsn)].
  - apply Hsub. set_solver.
  - left. apply (foldl_invariant (fun st => sa_fingerprint stored ∈ lp_seen st)); [done|].
    intros b a Ha Hb. destruct (eval_vanished_cases (ob_rule o) b a) as [[-> _]|(_ & e & _ & _ & _ & ->)];
      [apply Hsub; set_solver|done|set_solver].
  - by right.
  - left. apply (foldl_invariant (fun st => sa_fingerprint stored ∈ lp_seen st)).
    + destruct He as (_ & _ & _ & <- & _). rewrite Hsn. set_solver.
    + intros b a Ha Hb. destruct (eval_vanished_cases (ob_rule o) b a) as [[-> _]|(_ & e' & _ & _ & _ & ->)];
        [apply Hsub; set_solver|done|set_solver].
Qed.

Lemma eval_rules_see l st o series stored :
  o ∈ l -> ob_series o = Some series -> stored ∈ live -> sa_rule_uid stored = r_uid (ob_rule o) ->
  loop_inv l st ->
  sa_fingerprint stored ∈ lp_seen (foldl (eval_rule index overrides live previous now) st l) \/
  phase (sa_state stored) = Phase.Ok.
Proof.
  intros Ho Hs Hin Hu Hi. apply list_elem_of_split in Ho as (l1 & l2 & Hl).
  assert (Hl1 : l1 ⊆ l) by (rewrite Hl; set_solver).
  assert (Hl2 : l2 ⊆ l) by (rewrite Hl; set_solver).
  assert (Hol : o ∈ l) by (rewrite Hl; set_solver).
  rewrite Hl at 1. rewrite foldl_app. simpl.
  destruct (eval_rules_good l l1 st) as [Hi1 _]; [done|done|].
  set (st1 := foldl _ _ l1) in *.
  destruct (eval_rule_good l o st1 Hol Hi1) as [Hi2 _].
  destruct (eval_rules_good l l2 (eval_rule index overrides live previous now st1 o)) as [_ (_ & Hg & _)];
    [done|done|].
  destruct (eval_rule_sees o series st1 stored) as [Hc|Hc]; [done| | |by right].
  - by apply list_elem_of_filter.
  - left. by apply Hg.
Qed.

Lemma eval_rules_carry l st o stored :
  o ∈ l -> ob_series o = None -> stored ∈ live -> sa_rule_uid stored = r_uid (ob_rule o) ->
  loop_inv l st ->
  sa_fingerprint stored ∈
    lp_carried_over (foldl (eval_rule index overrides live previous now) st l).
Proof.
  intros Ho Hs Hin Hu Hi. apply list_elem_of_split in Ho as (l1 & l2 & Hl).
  assert (Hl1 : l1 ⊆ l) by (rewrite Hl; set_solver).
  assert (Hl2 : l2 ⊆ l) by (rewrite Hl; set_solver).
  assert (Hol : o ∈ l) by (rewrite Hl; set_solver).
  rewrite Hl at 1. rewrite foldl_app. simpl.
  destruct (eval_rules_good l l1 st) as [Hi1 _]; [done|done|].
  set (st1 := foldl _ _ l1) in *.
  destruct (eval_rule_good l o st1 Hol Hi1) as [Hi2 _].
  destruct (eval_rules_good l l2 (eval_rule index overrides live previous now st1 o))
    as [_ (_ & _ & cs & Hg)]; [done|done|].
  rewrite Hg. unfold eval_rule at 1. rewrite Hs. simpl.
  rewrite !elem_of_app. left. right. apply list_elem_of_fmap. exists stored. split; [done|].
  by apply list_elem_of_filter.
Qed.
End Loop.

(** ** Facts: the cycle *)

Section Plan.
Context {C : Calendar} (input : CycleInput) (baselines : BaselineStore).

Definition the_index : TargetIndex := TargetIndex_new (in_targets input).
Definition the_live : list StoredAlert := live_of the_index (in_previous input).
Definition the_loop : Loop := run_rules input baselines.
Definition the_down : gset TargetId := down_set (lp_evaluated the_loop) (in_targets input).
Definition the_state (e : Evaluated) : AlertState :=
  overlaid (Topology_new (in_targets input)) (in_silences input) the_down (in_now input) e.
Definition the_outcome : CycleOutcome := fst (plan_cycle input baselines).

Notation inv := (loop_inv the_index (OverrideIndex_new (in_overrides input)) the_live
                   (in_now input) (in_observations input)).

Lemma empty_loop_inv observations index overrides live :
  loop_inv index overrides live (in_now input) observations
    {| lp_evaluated := []; lp_seen := ∅; lp_carried_over := []; lp_baselines := baselines |}.
Proof.
  split_and!; simpl; [by intros ? ?%elem_of_nil| |set_solver].
  unfold fps. simpl. by intros ? ?%elem_of_nil.
Qed.

Lemma the_loop_inv : inv the_loop.
Proof. apply eval_rules_good; [done|apply empty_loop_inv]. Qed.

Lemma the_alerts :
  co_alerts the_outcome =
  (fun e => outcome_of_entry (in_unacked_after input) e (the_state e)) <$> lp_evaluated the_loop.
Proof. unfold the_outcome, plan_cycle. simpl. by rewrite <-list_fmap_compose. Qed.

Lemma elem_of_alerts o :
  o ∈ co_alerts the_outcome <->
  exists e, e ∈ lp_evaluated the_loop /\
            o = outcome_of_entry (in_unacked_after input) e (the_state e).
Proof. rewrite the_alerts, list_elem_of_fmap. naive_solver. Qed.

Lemma elem_of_history h :
  h ∈ co_history the_outcome <->
  (exists a, a ∈ in_previous input /\ is_orphan the_index a = true /\
             phase (sa_state a) = Phase.Firing /\
             h = orphan_entry (in_observations input) (in_now input) a) \/
  exists e, e ∈ lp_evaluated the_loop /\
            transition_entry (in_now input) e (the_state e) = Some h.
Proof.
  unfold the_outcome, plan_cycle. simpl. rewrite elem_of_app, list_elem_of_fmap, list_elem_of_omap.
  setoid_rewrite list_elem_of_filter. unfold orphans_of. setoid_rewrite list_elem_of_filter.
  setoid_rewrite list_elem_of_fmap. unfold Phase.is_active. split; (intros [Hl|Hr]; [left|right]).
  - destruct Hl as (a & -> & Hp & ? & ?). exists a. split_and!; try done.
    by destruct (phase (sa_state a)).
  - destruct Hr as ([e s] & (e' & [= -> ->] & ?) & ?). by exists e'.
  - destruct Hl as (a & ? & ? & Hp & ->). exists a. by rewrite Hp.
  - destruct Hr as (e & ? & ?). exists (e, the_state e). split; [by exists e|done].
Qed.

Lemma the_state_phase e : phase (the_state e) = phase (ev_state e).
Proof.
  unfold the_state, overlaid. by destruct (suppression_for _ _ _ _), (first_match _ _ _ _).
Qed.

Lemma the_state_suppressed e :
  suppressed (ev_state e) = false ->
  suppressed (the_state e) =
    bool_decide (is_Some (suppression_for (Topology_new (in_targets input)) (ev_target_id e)
                            (is_host_down (ev_rule e)) the_down)).
Proof.
  intros Hs. unfold the_state, overlaid. by destruct (suppression_for _ _ _ _), (first_match _ _ _ _).
Qed.

Lemma the_state_silenced e :
  silenced (ev_state e) = false ->
  silenced (the_state e) =
    bool_decide (is_Some (first_match (in_silences input) (in_now input) (ev_target_id e)
                            (ev_labels e))).
Proof.
  intros Hs. unfold the_state, overlaid. by destruct (suppression_for _ _ _ _), (first_match _ _ _ _).
Qed.

Lemma origin_overlays e :
  origin the_index (OverrideIndex_new (in_overrides input)) the_live (in_now input)
    (in_observations input) e ->
  suppressed (ev_state e) = false /\ silenced (ev_state e) = false.
Proof.
  assert (forall s c d, suppressed (fst (advance (strip_overlays s) c (in_now input) d)) = false /\
            silenced (fst (advance (strip_overlays s) c (in_now input) d)) = false) as H.
  { intros s c d. destruct c; advance_cases s; done. }
  intros (o & series & _ & _ & [(p & _ & Hp)|(a & Ha)]).
  - destruct Hp as (_ & _ & _ & _ & _ & _ & c & sc & l & -> & _). simpl. apply H.
  - destruct Ha as (_ & _ & _ & _ & _ & _ & -> & _). apply H.
Qed.

Lemma the_state_overlays e :
  e ∈ lp_evaluated the_loop ->
  suppressed (the_state e) =
    bool_decide (is_Some (suppression_for (Topology_new (in_targets input)) (ev_target_id e)
                            (is_host_down (ev_rule e)) the_down)) /\
  silenced (the_state e) =
    bool_decide (is_Some (first_match (in_silences input) (in_now input) (ev_target_id e)
                            (ev_labels e))).
Proof.
  intros He. destruct the_loop_inv as (Ho & _). destruct (origin_overlays e (Ho e He)).
  split; [by apply the_state_suppressed|by apply the_state_silenced].
Qed.

(** Every line of a message is that of an outcome of the cycle that speaks. *)
Lemma message_lines g i :
  g ∈ co_groups the_outcome -> i ∈ ag_items g ->
  exists e r, e ∈ lp_evaluated the_loop /\
    let o := outcome_of_entry (in_unacked_after input) e (the_state e) in
    Speech.decide o (in_now input) = Some r /\ ev_target_id e = ag_target_id g /\
    i = item_of o (in_now input) r /\ suppressed (the_state e) = false /\
    silenced (the_state e) = false /\ learning (the_state e) = false.
Proof.
  intros Hg Hi.
  change (co_groups the_outcome) with
    (describe_group the_index <$> group (co_alerts the_outcome) (in_now input)) in Hg.
  apply list_elem_of_fmap in Hg as (g0 & -> & Hg0).
  assert (ag_items (describe_group the_index g0) = ag_items g0 /\
          ag_target_id (describe_group the_index g0) = ag_target_id g0) as [E1 E2].
  { unfold describe_group. by destruct (ag_target_id g0 ≫= _). }
  rewrite E1 in Hi. rewrite E2. apply group_spec in Hg0 as (_ & Hit & _).
  rewrite Hit, elem_of_sort_by in Hi. apply elem_of_target_line in Hi as (o & r & Hf & Hd & Ht & ->).
  destruct Hf as (l1 & l2 & Hal & _).
  assert (o ∈ co_alerts the_outcome) as (e & He & ->)%elem_of_alerts by (rewrite Hal; set_solver).
  exists e, r. split; [done|]. unfold Speech.decide in Hd |- *. simpl in Hd |- *.
  destruct (suppressed (the_state e)); [done|]. destruct (silenced (the_state e)); [done|].
  destruct (learning (the_state e)); [done|]. by split_and!.
Qed.

Lemma group_nonempty g : g ∈ co_groups the_outcome -> exists i, i ∈ ag_items g.
Proof.
  change (co_groups the_outcome) with
    (describe_group the_index <$> group (co_alerts the_outcome) (in_now input)).
  intros (g0 & -> & Hg0)%list_elem_of_fmap.
  assert (ag_items (describe_group the_index g0) = ag_items g0) as ->.
  { unfold describe_group. by destruct (ag_target_id g0 ≫= _). }
  apply group_spec in Hg0 as (Hn & -> & _). setoid_rewrite elem_of_sort_by.
  destruct (of_target _ _) as [|p l]; [done|]. exists (line (in_now input) p). left.
Qed.

Lemma elem_of_down t :
  t ∈ the_down <->
  (exists o, o ∈ co_alerts the_outcome /\ ao_rule_uid o = RULE_HOST_DOWN /\
             phase (ao_state o) = Phase.Firing /\ ao_target_id o = Some t) \/
  (exists n, n ∈ in_targets input /\ tn_unreachable n = true /\ tn_id n = t).
Proof.
  unfold the_down, down_set. rewrite elem_of_union, !elem_of_list_to_set, list_elem_of_omap,
    list_elem_of_fmap. setoid_rewrite list_elem_of_filter. setoid_rewrite elem_of_alerts.
  split; (intros [Hl|Hr]; [left|right]).
  - destruct Hl as (e & ((Hr & Hp) & ?) & Ht). eexists. split; [by exists e|]. simpl.
    rewrite the_state_phase. split_and!; [by apply bool_decide_eq_true in Hr|done|done].
  - destruct Hr as (n & -> & ? & ?). by exists n.
  - destruct Hl as (o & (e & He & ->) & Hr & Hp & Ht). simpl in *. rewrite the_state_phase in Hp.
    exists e. split; [|done]. split; [|done]. split; [by apply bool_decide_eq_true|done].
  - destruct Hr as (n & ? & ? & <-). by exists n.
Qed.
End Plan.

(** ** Facts: one entry per fingerprint *)

Section Unique.
Context {C : Calendar} (index : TargetIndex) (overrides : OverrideIndex)
  (live : list StoredAlert) (now : DateTime).

(** Fingerprints as [fingerprint] writes them. *)
Definition well_named (a : StoredAlert) : Prop :=
  exists k, sa_fingerprint a = fingerprint (sa_rule_uid a) k.

Hypothesis live_named : forall a, a ∈ live -> well_named a.

Lemma origin_named observations e :
  origin index overrides live now observations e ->
  exists k, ev_fingerprint e = fingerprint (r_uid (ev_rule e)) k.
Proof using live_named.
  intros (o & series & _ & _ & [(p & _ & Hp)|(a & Ha)]).
  - destruct Hp as (_ & -> & -> & _). by eexists.
  - destruct Ha as (Hl & Hu & -> & -> & _). destruct (live_named a Hl) as [k ->].
    rewrite Hu. by exists k.
Qed.

Lemma points_NoDup rule cs st :
  (forall c, c ∈ cs -> exists p, accepted index rule p /\ c = candidate_of index rule p) ->
  NoDup (cd_fingerprint <$> cs) -> NoDup (fps st) ->
  (forall c, c ∈ cs -> cd_fingerprint c ∉ fps st) ->
  NoDup (fps (foldl (eval_candidate index overrides (previous_index live) now rule) st cs)).
Proof using Type.
  revert st. induction cs as [|c cs IH]; intros st Hcs Hnd Hst Hd; simpl; [done|].
  rewrite fmap_cons in Hnd. apply NoDup_cons in Hnd as [Hc Hnd].
  destruct (Hcs c) as (p & Hacc & Hcp); [by left|].
  apply IH; [intros; apply Hcs; by right|done|..];
    subst c; destruct (eval_candidate_cases index overrides live now rule st p Hacc)
      as [[-> _]|(e & He & Hev & _)]; try done.
  - unfold fps. rewrite Hev, fmap_app. apply NoDup_snoc; [|done].
    destruct He as (_ & _ & -> & _). apply (Hd (candidate_of index rule p)). by left.
  - intros c Hin. apply Hd. by right.
  - intros c Hin. unfold fps. rewrite Hev, fmap_app, not_elem_of_app. split; [apply Hd; by right|].
    destruct He as (_ & _ & He & _). simpl. rewrite list_elem_of_singleton, He.
    intros Heq. apply Hc. change (cd_fingerprint _) with (fingerprint (r_uid rule) (identity_key (sp_labels p))).
    rewrite <-Heq. by apply list_elem_of_fmap_2.
Qed.

Definition unique (observations : list RuleObservations) (st : Loop) : Prop :=
  NoDup (fps st) /\ loop_inv index overrides live now observations st.

Lemma eval_rule_unique observations st o :
  o ∈ observations -> unique observations st ->
  (forall e, e ∈ lp_evaluated st -> r_uid (ev_rule e) <> r_uid (ob_rule o)) ->
  unique observations (eval_rule index overrides live (previous_index live) now st o).
Proof using live_named.
  intros Ho [Hnd Hi] Hne. split; [|by apply eval_rule_good].
  unfold eval_rule. destruct (ob_series o) as [series|] eqn:Hs; [|done].
  destruct (candidates_spec index (ob_rule o) series) as (Hcnd & Hc & _).
  eapply (foldl_invariant (unique observations)).
  - split.
    + apply points_NoDup; [|done|done|].
      * intros c Hin. destruct (Hc c Hin) as (p & _ & ? & ?). eauto.
      * intros c Hin. destruct (Hc c Hin) as (p & _ & _ & ->). unfold fps.
        intros (e & He & Hin')%list_elem_of_fmap. simpl in He. destruct Hi as (Hor & _).
        destruct (origin_named observations e (Hor e Hin')) as [k Hk].
        rewrite Hk in He. apply fingerprint_inj_rule in He. by apply (Hne e).
    + by apply points_pass_good.
  - intros st' a Ha [Hnd' Hi']. split; [|by eapply (eval_vanished_good _ _ _ _ _ _ _ st')].
    destruct (eval_vanished_cases index overrides live now (ob_rule o) st' a Ha)
      as [[-> _]|(Hn & e & He & Hev & _)]; [done|].
    unfold fps. rewrite Hev, fmap_app. apply NoDup_snoc; [|done].
    destruct He as (_ & _ & _ & -> & _). intros Hin. apply Hn. by apply Hi'.
Qed.

Lemma eval_rule_rules st o e :
  e ∈ lp_evaluated (eval_rule index overrides live (previous_index live) now st o) ->
  e ∈ lp_evaluated st \/ ev_rule e = ob_rule o.
Proof using Type.
  unfold eval_rule. destruct (ob_series o) as [series|] eqn:Hs; [|by left].
  assert (forall st0 st1, (forall e, e ∈ lp_evaluated st0 -> e ∈ lp_evaluated st \/ ev_rule e = ob_rule o) ->
            (forall e, e ∈ lp_evaluated st1 -> e ∈ lp_evaluated st0 \/ ev_rule e = ob_rule o) ->
            forall e, e ∈ lp_evaluated st1 -> e ∈ lp_evaluated st \/ ev_rule e = ob_rule o) as Htr
    by naive_solver.
  revert e. apply (foldl_invariant (fun st' => forall e, e ∈ lp_evaluated st' ->
                      e ∈ lp_evaluated st \/ ev_rule e = ob_rule o)).
  - apply (foldl_invariant (fun st' => forall e, e ∈ lp_evaluated st' ->
                      e ∈ lp_evaluated st \/ ev_rule e = ob_rule o)); [by left|].
    intros st' c Hc Hst. apply candidates_spec in Hc as (p & _ & Hacc & ->).
    apply (Htr _ _ Hst). intros e.
    destruct (eval_candidate_cases index overrides live now (ob_rule o) st' p Hacc)
      as [[-> _]|(e' & He' & -> & _)]; [by left|].
    intros [?| ->%list_elem_of_singleton]%elem_of_app; [by left|right; apply He'].
  - intros st' a Ha Hst. apply (Htr _ _ Hst). intros e.
    destruct (eval_vanished_cases index overrides live now (ob_rule o) st' a Ha)
      as [[-> _]|(_ & e' & He' & -> & _)]; [by left|].
    intros [?| ->%list_elem_of_singleton]%elem_of_app; [by left|right; apply He'].
Qed.

Lemma eval_rules_unique observations l st :
  l ⊆ observations -> NoDup (r_uid ∘ ob_rule <$> l) -> unique observations st ->
  (forall e o, e ∈ lp_evaluated st -> o ∈ l -> r_uid (ev_rule e) <> r_uid (ob_rule o)) ->
  unique observations (foldl (eval_rule index overrides live (previous_index live) now) st l).
Proof using live_named.
  revert st. induction l as [|o l IH]; intros st Hl Hnd Hu Hne; simpl; [done|].
  rewrite fmap_cons in Hnd. apply NoDup_cons in Hnd as [Ho Hnd].
  apply IH; [set_solver|done| |].
  - apply eval_rule_unique; [set_solver|done|]. intros e He. apply Hne; [done|by left].
  - intros e o' He Ho'. apply eval_rule_rules in He as [He| ->]; [apply Hne; [done|by right]|].
    intros Heq. apply Ho, list_elem_of_fmap. by exists o'.
Qed.
End Unique.

(** ** Facts: what a cycle accounts for *)

(** No active alert is dropped: a stored alert that is not at rest, whose device is still
    there and whose rule is observed, is frozen with its rule, or given a new state under
    its own fingerprint, or continued under the fingerprint its labels give today. *)
Lemma active_alert_accounted {C : Calendar} (input : CycleInput) baselines a ob :
  let out := the_outcome input baselines in
  a ∈ in_previous input -> is_orphan (the_index input) a = false -> phase (sa_state a) <> Phase.Ok ->
  ob ∈ in_observations input -> r_uid (ob_rule ob) = sa_rule_uid a ->
  sa_fingerprint a ∈ co_carried_over out \/
  (exists o, o ∈ co_alerts out /\ ao_fingerprint o = sa_fingerprint a) \/
  (exists o a', o ∈ co_alerts out /\ sa_fingerprint a' = sa_fingerprint a /\
     previous_index (the_live input) !! ao_fingerprint o = Some a').
Proof.
  intros out Ha Hlive Hphase Hob Hu.
  assert (a ∈ the_live input) by by apply list_elem_of_filter.
  destruct (ob_series ob) as [series|] eqn:Hs.
  - right.
    destruct (eval_rules_see (the_index input) (OverrideIndex_new (in_overrides input)) (the_live input)
                (in_now input) (in_observations input) _ ob series a Hob Hs ltac:(done) ltac:(done)
                (empty_loop_inv input baselines _ _ _ _)) as [Hseen|]; [|done].
    destruct (the_loop_inv input baselines) as (_ & _ & Ht).
    destruct (Ht _ Hseen) as [(e & He & Hin)%list_elem_of_fmap|(e & a' & Hin & Hp & He)].
    + left. eexists. split; [apply elem_of_alerts; by exists e|done].
    + right. eexists _, a'. split; [apply elem_of_alerts; by exists e|done].
  - left. apply (eval_rules_carry _ _ _ _ (in_observations input) _ ob); try done.
    apply empty_loop_inv.
Qed.

(** The end of a cycle is the evaluation time of every state it writes. *)
Lemma advance_last_eval s c now d : last_eval_at (fst (advance s c now d)) = Some now.
Proof. destruct c; advance_cases s; done. Qed.

Lemma outcome_last_eval {C : Calendar} (input : CycleInput) baselines o :
  o ∈ co_alerts (the_outcome input baselines) -> last_eval_at (ao_state o) = Some (in_now input).
Proof.
  intros (e & He & ->)%elem_of_alerts. simpl.
  assert (last_eval_at (the_state input baselines e) = last_eval_at (ev_state e)) as ->.
  { unfold the_state, overlaid. by destruct (suppression_for _ _ _ _), (first_match _ _ _ _). }
  destruct (the_loop_inv input baselines) as (Ho & _).
  destruct (Ho e He) as (ob & series & _ & _ & [(p & _ & Hp)|(a & Ha)]).
  - destruct Hp as (_ & _ & _ & _ & _ & _ & c & sc & l & -> & _). simpl. apply advance_last_eval.
  - destruct Ha as (_ & _ & _ & _ & _ & _ & -> & _). apply advance_last_eval.
Qed.

(** A cycle whose queries all failed decides nothing. *)
Lemma mute_cycle {C : Calendar} (input : CycleInput) baselines :
  (forall o, o ∈ in_observations input -> ob_series o = None) ->
  co_alerts (the_outcome input baselines) = [] /\ co_groups (the_outcome input baselines) = [] /\
  forall h, h ∈ co_history (the_outcome input baselines) -> he_reason h = FORGOTTEN_TARGET_REASON.
Proof.
  intros Hn. assert (lp_evaluated (the_loop input baselines) = []) as He.
  { unfold the_loop, run_rules. apply (foldl_invariant (fun st => lp_evaluated st = [])); [done|].
    intros st o Ho Hst. unfold eval_rule. by rewrite Hn. }
  split_and!; [by rewrite the_alerts, He| |].
  - change (co_groups (the_outcome input baselines)) with
      (describe_group (the_index input) <$> group (co_alerts (the_outcome input baselines)) (in_now input)).
    by rewrite the_alerts, He.
  - intros h [(a & _ & _ & _ & ->)|(e & Hin & _)]%elem_of_history; [done|].
    rewrite He in Hin. by apply elem_of_nil in Hin.
Qed.

(** A series that was observed before is not written again. *)
Definition observed (key : string) (b : BaselineStore) : Prop :=
  (exists s, bs_series b !! key = Some s /\ 0 < updates s) /\ key ∉ bs_dirty_series b.

Lemma evaluate_point_observed {C : Calendar} rule eff active key0 point now b key :
  observed key b -> observed key (snd (evaluate_point rule eff active key0 point now b)).
Proof.
  intros [(s & Hs & Hu) Hd]. unfold evaluate_point. destruct (r_kind rule); try (split; [by exists s|done]).
  split; simpl.
  - destruct (decide (key0 = key)) as [->|Hne].
    + rewrite lookup_insert_eq, Hs. eexists. split; [done|]. simpl. unfold u64_saturating_add. lia.
    + rewrite lookup_insert_ne by done. by exists s.
  - destruct (decide (key0 = key)) as [->|Hne].
    + rewrite Hs. simpl. destruct (Z.eqb_spec (updates s) 0); [lia|done].
    + case_match; set_solver.
Qed.

Lemma the_baselines_observed {C : Calendar} (input : CycleInput) baselines key :
  observed key baselines -> observed key (lp_baselines (the_loop input baselines)).
Proof.
  intros Hb. unfold the_loop, run_rules.
  apply (foldl_invariant (fun st => observed key (lp_baselines st))); [done|].
  intros st o _ Hst. unfold eval_rule. destruct (ob_series o) as [series|]; [|done].
  apply (foldl_invariant (fun st => observed key (lp_baselines st))).
  - apply (foldl_invariant (fun st => observed key (lp_baselines st))); [done|].
    intros st' c _ Hst'. unfold eval_candidate. destruct (negb _); [done|]. cbv zeta.
    destruct (evaluate_point _ _ _ _ _ _ _) as [[[? ?] ?] bs] eqn:Hev. apply (f_equal snd) in Hev.
    destruct (advance _ _ _ _). change (observed key bs). change bs with (snd (b, o0, b0, bs)).
    rewrite <-Hev. apply evaluate_point_observed. exact Hst'.
  - intros st' a _ Hst'. unfold eval_vanished. destruct (bool_decide _); [done|]. cbv zeta.
    destruct (advance _ _ _ _). by destruct (_ && _).
Qed.

(** ** Properties *)

(** C1. Nobody hears about a device behind an outage, and nobody hears anything but
    the outage about an unreachable device.  When a strict ancestor of a device, at
    a distance of at most 64, is unreachable (its own "unreachable" alert fires at this
    very cycle, or the server has declared it so), the cycle sends no message about
    the device; and every line about a device that is itself unreachable comes from the
    "unreachable" rule.  No line ever comes from a series in maintenance or in
    learning. *)
Theorem outage_silences_everything_behind_it {C : Calendar} (input : CycleInput) baselines :
  let out := fst (plan_cycle input baselines) in
  let down t :=
    (exists o, o ∈ co_alerts out /\ ao_rule_uid o = RULE_HOST_DOWN /\
               phase (ao_state o) = Phase.Firing /\ ao_target_id o = Some t) \/
    (exists n, n ∈ in_targets input /\ tn_unreachable n = true /\ tn_id n = t) in
  (forall t a n g,
     path (Topology_new (in_targets input)) n t a -> (n <= MAX_DEPTH)%nat -> a <> t -> down a ->
     g ∈ co_groups out -> ag_target_id g <> Some t) /\
  (forall t g i, down t -> g ∈ co_groups out -> ag_target_id g = Some t -> i ∈ ag_items g ->
     gi_rule_uid i = RULE_HOST_DOWN) /\
  (forall g i, g ∈ co_groups out -> i ∈ ag_items g ->
     exists o, o ∈ co_alerts out /\ ao_fingerprint o = gi_fingerprint i /\
       learning (ao_state o) = false /\
       first_match (in_silences input) (in_now input) (ao_target_id o) (ao_labels o) = None).
Proof.
  intros out down. fold (the_outcome input baselines) in out.
  assert (Hdown : forall t, down t <-> t ∈ the_down input baselines)
    by (intros t; symmetry; apply elem_of_down).
  split_and!.
  - intros t a n g Hp Hn Hat Ha%Hdown Hg Ht.
    destruct (group_nonempty _ _ _ Hg) as [i Hi].
    destruct (message_lines _ _ _ _ Hg Hi) as (e & r & He & _ & Htgt & _ & Hsup & _).
    destruct (the_state_overlays _ _ _ He) as [Hs _]. rewrite Hsup in Hs. symmetry in Hs.
    apply bool_decide_eq_false in Hs. apply Hs. rewrite Htgt, Ht. simpl.
    pose proof (first_ancestor_down_spec (Topology_new (in_targets input)) t
                  (the_down input baselines)) as Hf.
    destruct (first_ancestor_down _ _ _); [by eexists|]. by destruct (Hf n a Hn Hp).
  - intros t g i Ht%Hdown Hg Hgt Hi.
    destruct (message_lines _ _ _ _ Hg Hi) as (e & r & He & _ & Htgt & -> & Hsup & _). simpl.
    destruct (the_state_overlays _ _ _ He) as [Hs _]. rewrite Hsup in Hs. symmetry in Hs.
    apply bool_decide_eq_false in Hs.
    destruct (is_host_down (ev_rule e)) eqn:Hh; [by apply bool_decide_eq_true in Hh|].
    exfalso. apply Hs. rewrite Htgt, Hgt. simpl.
    destruct (first_ancestor_down _ _ _); [by eexists|]. rewrite bool_decide_true by done.
    by eexists.
  - intros g i Hg Hi.
    destruct (message_lines _ _ _ _ Hg Hi) as (e & r & He & _ & Htgt & -> & _ & Hsil & Hl).
    destruct (the_state_overlays _ _ _ He) as [_ Hs]. rewrite Hsil in Hs. symmetry in Hs.
    apply bool_decide_eq_false in Hs. eexists. split; [apply elem_of_alerts; by exists e|].
    split_and!; [done|done|]. simpl.
    destruct (first_match _ _ _ _); [exfalso; apply Hs; by eexists|done].
Qed.

(** A failed query freezes its rule: when no answer came for any observation of a
    rule, the cycle produces no state for it, records no transition of it except the
    passing of removed devices, and keeps every one of its live alerts as it stands. *)
Theorem failed_query_freezes_its_alerts {C : Calendar} (input : CycleInput) baselines uid :
  let out := fst (plan_cycle input baselines) in
  (forall ob, ob ∈ in_observations input -> r_uid (ob_rule ob) = uid -> ob_series ob = None) ->
  (forall o, o ∈ co_alerts out -> ao_rule_uid o <> uid) /\
  (forall h, h ∈ co_history out -> he_rule_uid h = uid -> he_reason h = FORGOTTEN_TARGET_REASON) /\
  (forall a, a ∈ in_previous input -> sa_rule_uid a = uid ->
     is_orphan (TargetIndex_new (in_targets input)) a = false ->
     uid ∈ r_uid ∘ ob_rule <$> in_observations input ->
     sa_fingerprint a ∈ co_carried_over out).
Proof.
  intros out Hnone. fold (the_outcome input baselines) in out.
  assert (Hev : forall e, e ∈ lp_evaluated (the_loop input baselines) -> r_uid (ev_rule e) <> uid).
  { intros e He Hu. destruct (the_loop_inv input baselines) as (Ho & _).
    destruct (Ho e He) as (ob & series & Hob & Hs & Hfrom).
    assert (ev_rule e = ob_rule ob) as Hr
      by (destruct Hfrom as [(p & _ & Hp)|(a & Ha)]; [apply Hp|apply Ha]).
    rewrite Hr in Hu. rewrite (Hnone ob Hob Hu) in Hs. done. }
  split_and!.
  - intros o (e & He & ->)%elem_of_alerts. by apply Hev.
  - intros h [(a & _ & _ & _ & ->)|(e & He & Ht)]%elem_of_history Hu; [done|].
    unfold transition_entry in Ht. destruct (ev_transition e); [|done].
    injection Ht as <-. by apply Hev in Hu.
  - intros a Ha Hu Hlive (ob & Hobu & Hob)%list_elem_of_fmap.
    apply (eval_rules_carry _ _ _ _ (in_observations input) _ ob); [done| | | |].
    + by apply Hnone.
    + by apply list_elem_of_filter.
    + by rewrite Hu.
    + apply empty_loop_inv.
Qed.

(** A cycle writes each alert once: with rules of distinct identifiers and stored
    fingerprints of the form the code gives them, no two states of the cycle share a
    fingerprint, whatever series the answers repeat. *)
Theorem one_state_per_fingerprint {C : Calendar} (input : CycleInput) baselines :
  NoDup (r_uid ∘ ob_rule <$> in_observations input) ->
  (forall a, a ∈ in_previous input ->
     exists k, sa_fingerprint a = fingerprint (sa_rule_uid a) k) ->
  NoDup (ao_fingerprint <$> co_alerts (fst (plan_cycle input baselines))).
Proof.
  intros Hnd Hnamed. change (fst (plan_cycle input baselines)) with (the_outcome input baselines).
  rewrite the_alerts, <-list_fmap_compose.
  assert (Hlive : forall a, a ∈ the_live input -> well_named a).
  { intros a [_ Ha]%list_elem_of_filter. by apply Hnamed. }
  apply (eval_rules_unique (the_index input) (OverrideIndex_new (in_overrides input)) (the_live input)
           (in_now input) Hlive (in_observations input) (in_observations input)); [done..| |].
  - split; [constructor|apply empty_loop_inv].
  - by intros e o ?%elem_of_nil.
Qed.

Lemma previous_index_live live f a : previous_index live !! f = Some a -> a ∈ live.
Proof.
  unfold previous_index. revert f a.
  apply (foldl_invariant (fun m : gmap string StoredAlert => forall f a, m !! f = Some a -> a ∈ live)).
  - apply (foldl_invariant (fun m : gmap string StoredAlert => forall f a, m !! f = Some a -> a ∈ live));
      [done|].
    intros m x Hx IH f a. rewrite lookup_insert_Some. naive_solver.
  - intros m x Hx IH f a. destruct (m !! fingerprint _ _); [apply IH|].
    rewrite lookup_insert_Some. naive_solver.
Qed.

Lemma previous_index_own live a :
  NoDup (sa_fingerprint <$> live) -> a ∈ live -> previous_index live !! sa_fingerprint a = Some a.
Proof.
  intros Hnd Ha. unfold previous_index.
  apply (foldl_invariant (fun m : gmap string StoredAlert => m !! sa_fingerprint a = Some a)).
  - induction live as [|x live IH] using rev_ind; [by apply elem_of_nil in Ha|].
    rewrite fmap_app in Hnd. apply NoDup_app in Hnd as (Hnd & Hx & _).
    rewrite foldl_app. simpl. apply elem_of_app in Ha as [Ha| ->%list_elem_of_singleton].
    + rewrite lookup_insert_ne; [by apply IH|]. intros Heq.
      apply (Hx (sa_fingerprint a)); [by apply list_elem_of_fmap_2|]. simpl.
      by apply list_elem_of_singleton.
    + apply lookup_insert_eq.
  - intros m x Hx Hm. destruct (m !! fingerprint _ _) eqn:E; [done|].
    rewrite lookup_insert_ne; [done|]. intros Heq. rewrite Heq, Hm in E. done.
Qed.

(** The entry of an alert that no series continues comes from its passing. *)
Lemma gone_entry {C : Calendar} (input : CycleInput) baselines a :
  NoDup (sa_fingerprint <$> the_live input) -> a ∈ the_live input ->
  (forall ob' series p, ob' ∈ in_observations input -> ob_series ob' = Some series ->
     p ∈ series -> accepted (the_index input) (ob_rule ob') p ->
     eff_enabled (effective (OverrideIndex_new (in_overrides input)) (ob_rule ob')
                    (tn_id <$> resolve_target (the_index input) (sp_labels p))) = true ->
     let fp := fingerprint (r_uid (ob_rule ob')) (identity_key (sp_labels p)) in
     fp <> sa_fingerprint a /\ previous_index (the_live input) !! fp <> Some a) ->
  sa_fingerprint a ∈ lp_seen (the_loop input baselines) ->
  exists e, e ∈ lp_evaluated (the_loop input baselines) /\
            from_vanished (the_live input) (in_now input) (ev_rule e) e a.
Proof.
  intros Hndl Hal Hgone Hseen. destruct (the_loop_inv input baselines) as (Ho & _ & Ht).
  assert (Hown : forall b, b ∈ the_live input -> sa_fingerprint b = sa_fingerprint a -> b = a).
  { intros b Hb Heq. pose proof (previous_index_own _ _ Hndl Hb) as H1.
    pose proof (previous_index_own _ _ Hndl Hal) as H2. congruence. }
  assert (forall e, e ∈ lp_evaluated (the_loop input baselines) ->
            ev_fingerprint e = sa_fingerprint a \/
            (exists b, previous_index (the_live input) !! ev_fingerprint e = Some b /\
                       sa_fingerprint b = sa_fingerprint a) ->
            from_vanished (the_live input) (in_now input) (ev_rule e) e a) as H.
  { intros e He Hfp. destruct (Ho e He) as (ob' & ser & Hob' & Hs' & [(p & Hp & Hfrom)|(b & Hfrom)]).
    - exfalso. destruct Hfrom as (Hacc & _ & Hfpe & _ & _ & Hen & _).
      destruct (Hgone ob' ser p Hob' Hs' Hp Hacc Hen) as [Hne Hne']. rewrite Hfpe in Hfp.
      destruct Hfp as [Hfp|(b & Hb & Heq)]; [done|]. apply Hne'.
      rewrite <-(Hown b); [done|by eapply previous_index_live|done].
    - pose proof Hfrom as (Hb & _ & Hr & Hfpe & _). rewrite Hr.
      assert (b = a) as <-; [|done]. rewrite Hfpe in Hfp.
      destruct Hfp as [Hfp|(b' & Hb' & Heq)]; [by apply Hown|].
      rewrite (previous_index_own _ _ Hndl Hb) in Hb'. injection Hb' as ->. by apply Hown. }
  destruct (Ht _ Hseen) as [(e & Heq & Hin)%list_elem_of_fmap|(e & b & Hin & Hp & Heq)];
    exists e; (split; [done|]); apply H; eauto.
Qed.

(** A series that goes away resolves its alert: the live firing alert of a rule that
    was answered, when no series that the rule evaluates continues it, is resolved under
    its own fingerprint, unacknowledged, and the transition is in the history. *)
Theorem vanished_series_resolves {C : Calendar} (input : CycleInput) baselines a ob :
  let out := fst (plan_cycle input baselines) in
  let index := TargetIndex_new (in_targets input) in
  NoDup (sa_fingerprint <$> in_previous input) ->
  a ∈ in_previous input -> is_orphan index a = false -> phase (sa_state a) = Phase.Firing ->
  ob ∈ in_observations input -> r_uid (ob_rule ob) = sa_rule_uid a -> is_Some (ob_series ob) ->
  (forall ob' series p, ob' ∈ in_observations input -> ob_series ob' = Some series ->
     p ∈ series -> accepted index (ob_rule ob') p ->
     eff_enabled (effective (OverrideIndex_new (in_overrides input)) (ob_rule ob')
                    (tn_id <$> resolve_target index (sp_labels p))) = true ->
     let fp := fingerprint (r_uid (ob_rule ob')) (identity_key (sp_labels p)) in
     fp <> sa_fingerprint a /\
     previous_index (live_of index (in_previous input)) !! fp <> Some a) ->
  exists o, o ∈ co_alerts out /\ ao_fingerprint o = sa_fingerprint a /\
    phase (ao_state o) = Phase.Resolved /\ acked_until (ao_state o) = None /\
    exists h, h ∈ co_history out /\ he_fingerprint h = sa_fingerprint a /\
      he_transition h = {| tr_from := Phase.Firing; tr_to := Phase.Resolved |}.
Proof.
  intros out index Hnd Ha Hlive Hphase Hob Hu [series Hs] Hgone.
  fold (the_outcome input baselines) in out.
  assert (Hal : a ∈ the_live input) by by apply list_elem_of_filter.
  assert (Hndl : NoDup (sa_fingerprint <$> the_live input)).
  { eapply sublist_NoDup; [exact Hnd|]. apply (fmap_sublist sa_fingerprint), sublist_filter. }
  destruct (eval_rules_see (the_index input) (OverrideIndex_new (in_overrides input)) (the_live input)
              (in_now input) (in_observations input) _ ob series a Hob Hs Hal ltac:(done)
              (empty_loop_inv input baselines _ _ _ _)) as [Hseen|]; [|congruence].
  destruct (gone_entry input baselines a Hndl Hal Hgone Hseen) as (e & He & Hfrom).
  destruct Hfrom as (_ & _ & _ & Hfp & _ & _ & Hst & Htr).
  set (r := advance _ _ _ _) in *.
  assert (Hr : phase (fst r) = Phase.Resolved /\ acked_until (fst r) = None /\
          snd r = Some {| tr_from := Phase.Firing; tr_to := Phase.Resolved |}).
  { unfold r, advance. simpl. by rewrite Hphase. }
  eexists. split; [apply elem_of_alerts; by exists e|]. simpl. split_and!.
  - done.
  - rewrite the_state_phase, Hst. apply Hr.
  - transitivity (acked_until (ev_state e)); [|rewrite Hst; apply Hr].
    unfold the_state, overlaid. by destruct (suppression_for _ _ _ _), (first_match _ _ _ _).
  - eexists. split; [apply elem_of_history; right; exists e; split; [done|]|].
    + unfold transition_entry. rewrite Htr. destruct Hr as (_ & _ & ->). reflexivity.
    + by split.
Qed.

(** A removed or disabled device falls silent without noise: every state of the
    cycle belongs to a device that is still there and enabled, or to a series that
    carries no device identifier; no message is addressed about any other device; and
    each alert that was firing on one leaves a resolution in the history, marked with
    the reason. *)
Theorem removed_devices_fall_silent {C : Calendar} (input : CycleInput) baselines :
  let out := fst (plan_cycle input baselines) in
  let index := TargetIndex_new (in_targets input) in
  let there id := exists t, t ∈ in_targets input /\ tn_id t = id /\ tn_enabled t = true in
  (forall o, o ∈ co_alerts out ->
     match ao_target_id o with
     | Some id => there id
     | None => carries_target_id (ao_labels o) = false
     end) /\
  (forall g id, g ∈ co_groups out -> ag_target_id g = Some id -> there id) /\
  (forall a, a ∈ in_previous input -> is_orphan index a = true ->
     phase (sa_state a) = Phase.Firing ->
     exists h, h ∈ co_history out /\ he_fingerprint h = sa_fingerprint a /\
       he_transition h = {| tr_from := Phase.Firing; tr_to := Phase.Resolved |} /\
       he_reason h = FORGOTTEN_TARGET_REASON).
Proof.
  intros out index there. fold (the_outcome input baselines) in out.
  assert (Hlive : forall id, is_live index id = true -> there id).
  { intros id Hl. unfold is_live in Hl. destruct (ti_by_id index !! id) as [t|] eqn:E; [|done].
    apply TargetIndex_new_by_id in E as [? ?]. by exists t. }
  assert (He : forall e, e ∈ lp_evaluated (the_loop input baselines) ->
            match ev_target_id e with
            | Some id => there id
            | None => carries_target_id (ev_labels e) = false
            end).
  { intros e He. destruct (the_loop_inv input baselines) as (Ho & _).
    destruct (Ho e He) as (ob & series & _ & _ & [(p & _ & Hp)|(a & Ha)]).
    - destruct Hp as ([Hacc _] & _ & _ & Ht & Hl & _). rewrite Ht, Hl. clear Ht.
      destruct (resolve_target _ _) as [t|] eqn:Hr; [|done]. simpl.
      apply resolve_target_known in Hr as [id Hid]. apply TargetIndex_new_by_id in Hid as [? ?].
      by exists t.
    - destruct Ha as ([Hor _]%list_elem_of_filter & _ & _ & _ & Ht & Hl & _). rewrite Ht, Hl.
      unfold is_orphan in Hor. destruct (sa_target_id a) as [id|]; [|done].
      apply Hlive. by apply negb_false_iff in Hor. }
  split_and!.
  - intros o (e & Hin & ->)%elem_of_alerts. by apply He.
  - intros g id Hg Hid. destruct (group_nonempty _ _ _ Hg) as [i Hi].
    destruct (message_lines _ _ _ _ Hg Hi) as (e & r & Hin & _ & Ht & _).
    specialize (He e Hin). by rewrite Ht, Hid in He.
  - intros a Ha Hor Hp. eexists. split; [apply elem_of_history; left; exists a; by split_and!|].
    simpl. by rewrite Hp.
Qed.

(** ** A small installation *)

Module Sample.
Definition rule (uid : string) (op : Operator) (threshold : Z) : Rule := {|
  r_id := 1; r_uid := uid; r_name := uid; r_description := ""; r_kind := RuleKind.Threshold;
  r_query := uid; r_operator := op; r_threshold := f64_of_Z threshold;
  r_clear_threshold := None; r_for_duration := 0; r_severity := Severity.Warning;
  r_selector := TargetSelector.All; r_channels := []; r_params := AnomalyParams_default;
  r_unit := ""; r_repeat_interval := None; r_escalate_after := None; r_enabled := true;
  r_builtin := true |}.

Definition host_down : Rule := rule RULE_HOST_DOWN Operator.Lt 1.
Definition disk : Rule := rule "disk_full" Operator.Gt 90.

Definition labels (name id : string) : gmap string string :=
  {["__name__" := name; "target" := id]}.

Definition point (name id : string) (v : Z) : SeriesPoint :=
  {| sp_labels := labels name id; sp_value := f64_of_Z v; sp_ts_ms := 0 |}.

Definition firing : AlertState := fst (advance AlertState_default true 0 0).

Definition stored (r : Rule) (name id : string) (target : TargetId) : StoredAlert := {|
  sa_fingerprint := fingerprint (r_uid r) (identity_key (labels name id));
  sa_rule_uid := r_uid r; sa_target_id := Some target;
  sa_series_key := series_key (labels name id); sa_labels := labels name id;
  sa_state := firing |}.

Definition store : BaselineStore := BaselineStore_new ∅ ∅.

(** A switch (1) and the NAS (2) behind it. *)
Definition input (observations : list RuleObservations) (previous : list StoredAlert) : CycleInput := {|
  in_now := td_seconds 60; in_observations := observations;
  in_targets := [line_node 1 None; line_node 2 (Some 1)];
  in_previous := previous; in_silences := []; in_overrides := []; in_unacked_after := None |}.

Definition outage : CycleInput :=
  input [{| ob_rule := host_down; ob_series := Some [point "up" "1" 0; point "up" "2" 0] |};
         {| ob_rule := disk; ob_series := Some [point "disk" "1" 95; point "disk" "2" 95] |}] [].

(** One message, about the switch, with the line of the outage alone. *)
Example outage_ex :
  let out := fst (plan_cycle outage store) in
  (length (co_alerts out), (fun g => (ag_target_id g, gi_rule_uid <$> ag_items g)) <$> co_groups out) =
  (4%nat, [(Some 1, [RULE_HOST_DOWN])]).
Proof. vm_compute. reflexivity. Qed.
End Sample.

Lemma switch_is_down :
  exists o, o ∈ co_alerts (fst (plan_cycle Sample.outage Sample.store)) /\
    ao_rule_uid o = RULE_HOST_DOWN /\ phase (ao_state o) = Phase.Firing /\ ao_target_id o = Some 1.
Proof.
  assert (existsb (fun o => bool_decide (ao_rule_uid o = RULE_HOST_DOWN) &&
            bool_decide (phase (ao_state o) = Phase.Firing) && bool_decide (ao_target_id o = Some 1))
            (co_alerts (fst (plan_cycle Sample.outage Sample.store))) = true) as H
    by (vm_compute; reflexivity).
  apply existsb_elem in H as (o & Ho & H). bools. eauto.
Qed.

Lemma outage_silences_everything_behind_it_witness :
  Forall (fun g => ag_target_id g <> Some 2) (co_groups (fst (plan_cycle Sample.outage Sample.store))).
Proof.
  apply Forall_forall. intros g. destruct (outage_silences_everything_behind_it Sample.outage Sample.store) as (H & _).
  apply (H 2 1 1%nat g).
  - eapply path_succ; [apply path_zero|]. unfold parent. vm_compute. left.
  - vm_compute. lia.
  - lia.
  - left. apply switch_is_down.
Defined.

Lemma failed_query_freezes_its_alerts_witness :
  let a := Sample.stored Sample.disk "disk" "2" 2 in
  let i := Sample.input [{| ob_rule := Sample.disk; ob_series := None |}] [a] in
  sa_fingerprint a ∈ co_carried_over (fst (plan_cycle i Sample.store)).
Proof.
  intros a i.
  destruct (failed_query_freezes_its_alerts i Sample.store "disk_full") as (_ & _ & H).
  - intros ob ->%list_elem_of_singleton _. reflexivity.
  - apply H; [left|reflexivity|vm_compute; reflexivity|left].
Defined.

Lemma one_state_per_fingerprint_witness :
  NoDup (ao_fingerprint <$> co_alerts (fst (plan_cycle Sample.outage Sample.store))).
Proof.
  apply one_state_per_fingerprint.
  - repeat constructor; rewrite ?list_elem_of_singleton; [by vm_compute|apply not_elem_of_nil].
  - by intros a ?%elem_of_nil.
Defined.

Lemma vanished_series_resolves_witness :
  let a := Sample.stored Sample.disk "disk" "2" 2 in
  let i := Sample.input [{| ob_rule := Sample.disk; ob_series := Some [] |}] [a] in
  exists o, o ∈ co_alerts (fst (plan_cycle i Sample.store)) /\
            ao_fingerprint o = sa_fingerprint a /\ phase (ao_state o) = Phase.Resolved.
Proof.
  intros a i.
  destruct (vanished_series_resolves i Sample.store a
              {| ob_rule := Sample.disk; ob_series := Some [] |}) as (o & H1 & H2 & H3 & _).
  - apply NoDup_singleton.
  - left.
  - vm_compute; reflexivity.
  - reflexivity.
  - left.
  - reflexivity.
  - by eexists.
  - intros ob series p ->%list_elem_of_singleton [= <-] []%elem_of_nil.
  - by exists o.
Defined.

Lemma removed_devices_fall_silent_witness :
  let a := Sample.stored Sample.disk "disk" "7" 7 in
  let i := Sample.input [] [a] in
  exists h, h ∈ co_history (fst (plan_cycle i Sample.store)) /\
            he_reason h = FORGOTTEN_TARGET_REASON.
Proof.
  intros a i. destruct (removed_devices_fall_silent i Sample.store) as (_ & _ & H).
  destruct (H a) as (h & Hh & _ & _ & Hr); [left|vm_compute; reflexivity|reflexivity|].
  exists h. split; [exact Hh|exact Hr].
Defined.
