(* ===== verification/NotifyPolicy.v ===== *)
(** * The notification policy ([alerting/notify_policy.rs])

    When and on which channel an alert that has the right to speak does so: flap
    holds, the channels' filters, minimal interval and quiet hours, the batching
    window and the hourly cap.  [plan] takes the groups of a cycle and a ledger and
    returns what to send, what to queue and what to record. *)
From Stdlib Require Import Ascii.
From S2P Require Import Prelude Text Chrono Model Silence Matcher Machine Group.

Definition LEDGER_HOUR_SECS : Z := 3600.
Definition ONCALL_KINDS : list string := ["pagerduty"; "opsgenie"].
Definition INTAKE_CHANNEL : Z := 0.

Definition secs (value : Z) : TimeDelta := td_seconds value.

Record GlobalPolicy := {
  batch_window_secs : Z;
  max_per_hour : Z;
  flap_events : Z;
  flap_window_secs : Z;
  flap_hold_secs : Z;
  gp_public_url : string;
  escalate_after_secs : Z;
  escalate_channel : option Z;
}.

Definition GlobalPolicy_default : GlobalPolicy := {|
  batch_window_secs := 60; max_per_hour := 20; flap_events := 4;
  flap_window_secs := 30 * 60; flap_hold_secs := 30 * 60; gp_public_url := "";
  escalate_after_secs := 0; escalate_channel := None;
|}.

Definition public_url (p : GlobalPolicy) (env_fallback : option string) : option string :=
  raw ← (if bool_decide (trim (gp_public_url p) = "") then env_fallback
         else Some (gp_public_url p));
  let trimmed := trim_end_matches "/"%char (trim raw) in
  if bool_decide (trimmed = "") then None else Some trimmed.

Definition escalation (p : GlobalPolicy) : option (TimeDelta * Z) :=
  channel ← escalate_channel p;
  if 0 <? escalate_after_secs p then Some (secs (escalate_after_secs p), channel) else None.

Module Hold.
Inductive Hold := Batch | Quiet.

#[global] Instance eq_dec : EqDecision Hold.
Proof. solve_decision. Defined.

Definition as_str (h : Hold) : string := match h with Batch => "batch" | Quiet => "quiet" end.
Definition parse (raw : string) : Hold := if decide (raw = "quiet") then Quiet else Batch.
End Hold.
Notation Hold := Hold.Hold.

Record QueuedItem := {
  qi_id : option Z;
  qi_channel_id : Z;
  qi_target_id : option TargetId;
  qi_target_name : string;
  qi_hold : Hold;
  qi_item : GroupItem;
  qi_resolved_meanwhile : bool;
  qi_queued_at : DateTime;
}.

Record LogEntry := {
  le_channel_id : Z;
  le_fingerprint : string;
  le_reason : NotifyReason;
  le_at : DateTime;
}.

Record Ledger := {
  ld_queue : list QueuedItem;
  ld_log : list LogEntry;
  ld_flap_holds : gmap string DateTime;
  ld_messages : list (Z * DateTime);
}.

Record Digest := {
  dg_groups : list AlertGroup;
  dg_resolved_meanwhile : list (string * GroupItem);
  dg_hold : option Hold;
  dg_at : DateTime;
}.

Definition item_count (d : Digest) : nat :=
  foldr (fun g n => (length (ag_items g) + n)%nat) 0%nat (dg_groups d).

Definition Digest_is_empty (d : Digest) : bool :=
  match dg_groups d, dg_resolved_meanwhile d with [], [] => true | _, _ => false end.

Record Outgoing := {
  og_channel_id : Z;
  og_digest : Digest;
  og_queue_ids : list Z;
  og_retry : list QueuedItem;
  og_sent : list (string * NotifyReason);
}.

Record Plan := {
  pl_outgoing : list Outgoing;
  pl_enqueue : list QueuedItem;
  pl_dequeue : list Z;
  pl_flap_holds : list (string * DateTime);
  pl_intake : list LogEntry;
  pl_handled : gset string;
  pl_announced : gset string;
  pl_verdicts : gmap string string;
}.

Definition Plan_default : Plan := {|
  pl_outgoing := []; pl_enqueue := []; pl_dequeue := []; pl_flap_holds := []; pl_intake := [];
  pl_handled := ∅; pl_announced := ∅; pl_verdicts := ∅ |}.

(** Assignments to the fields of a plan. *)
Definition note (fp verdict : string) (p : Plan) : Plan :=
  Build_Plan (pl_outgoing p) (pl_enqueue p) (pl_dequeue p) (pl_flap_holds p) (pl_intake p)
    (pl_handled p) (pl_announced p) (<[fp := verdict]> (pl_verdicts p)).
Definition set_handled (h : gset string) (p : Plan) : Plan :=
  Build_Plan (pl_outgoing p) (pl_enqueue p) (pl_dequeue p) (pl_flap_holds p) (pl_intake p)
    h (pl_announced p) (pl_verdicts p).
Definition add_announced (fp : string) (p : Plan) : Plan :=
  Build_Plan (pl_outgoing p) (pl_enqueue p) (pl_dequeue p) (pl_flap_holds p) (pl_intake p)
    (pl_handled p) ({[fp]} ∪ pl_announced p) (pl_verdicts p).
Definition add_intake (e : LogEntry) (p : Plan) : Plan :=
  Build_Plan (pl_outgoing p) (pl_enqueue p) (pl_dequeue p) (pl_flap_holds p) (pl_intake p ++ [e])
    (pl_handled p) (pl_announced p) (pl_verdicts p).
Definition add_dequeue (ids : list Z) (p : Plan) : Plan :=
  Build_Plan (pl_outgoing p) (pl_enqueue p) (pl_dequeue p ++ ids) (pl_flap_holds p) (pl_intake p)
    (pl_handled p) (pl_announced p) (pl_verdicts p).
Definition add_flap_hold (fp : string) (until : DateTime) (p : Plan) : Plan :=
  Build_Plan (pl_outgoing p) (pl_enqueue p) (pl_dequeue p) (pl_flap_holds p ++ [(fp, until)])
    (pl_intake p) (pl_handled p) (pl_announced p) (pl_verdicts p).
Definition add_outgoing (o : Outgoing) (p : Plan) : Plan :=
  Build_Plan (pl_outgoing p ++ [o]) (pl_enqueue p) (pl_dequeue p) (pl_flap_holds p) (pl_intake p)
    (pl_handled p) (pl_announced p) (pl_verdicts p).
Definition set_enqueue (q : list QueuedItem) (p : Plan) : Plan :=
  Build_Plan (pl_outgoing p) q (pl_dequeue p) (pl_flap_holds p) (pl_intake p)
    (pl_handled p) (pl_announced p) (pl_verdicts p).

(** The queue at work: each line with whether the cycle touched it. *)
Notation Queue := (list (QueuedItem * bool)).

Definition qi_fp (q : QueuedItem) : string := gi_fingerprint (qi_item q).
Definition qi_key (q : QueuedItem) : Z * string := (qi_channel_id q, qi_fp q).

Definition purge_fingerprint (queue : Queue) (fp : string) : Queue * list Z :=
  (filter (fun qd => qi_fp qd.1 <> fp) queue,
   omap (fun qd => if bool_decide (qi_fp qd.1 = fp) then qi_id qd.1 else None) queue).

Section Policy.
Context {C : Calendar}.

Record ChannelPolicy := {
  min_severity : Severity;
  notify_resolved : bool;
  min_interval_secs : Z;
  quiet_hours : option Schedule;
  cp_matcher : ChannelMatcher;
}.

Definition ChannelPolicy_default : ChannelPolicy := {|
  min_severity := Severity.Info; notify_resolved := true; min_interval_secs := 0;
  quiet_hours := None; cp_matcher := ChannelMatcher.default |}.

Definition in_quiet_hours (p : ChannelPolicy) (now : DateTime) : bool :=
  is_some_and (quiet_hours p) (fun schedule => covers schedule now).

Record Recipient := { rc_id : Z; rc_kind : string; rc_enabled : bool; rc_policy : ChannelPolicy }.

Definition is_oncall (r : Recipient) : bool := bool_decide (rc_kind r ∈ ONCALL_KINDS).

Definition chan (r : Recipient) : string := display_i64 (rc_id r).

(** [Iterator::max_by_key]: the last of the greatest; [Iterator::min]. *)
Definition max_by_at (l : list LogEntry) : option LogEntry :=
  foldl (fun best e =>
           match best with
           | None => Some e
           | Some b => if le_at b <=? le_at e then Some e else Some b
           end) None l.
Definition min_at (l : list DateTime) : option DateTime :=
  foldl (fun best t => Some (match best with None => t | Some b => Z.min b t end)) None l.

Fixpoint position {A} (p : A -> bool) (l : list A) : option nat :=
  match l with
  | [] => None
  | x :: l' => if p x then Some 0%nat else S <$> position p l'
  end.

Definition set_item (q : QueuedItem) (item : GroupItem) (hold : Hold) (resolved : bool) :
    QueuedItem :=
  Build_QueuedItem (qi_id q) (qi_channel_id q) (qi_target_id q) (qi_target_name q) hold item
    resolved (qi_queued_at q).

Definition set_reason (item : GroupItem) (reason : NotifyReason) (n : option string) : GroupItem :=
  Build_GroupItem (gi_fingerprint item) (gi_rule_uid item) (gi_rule_name item) (gi_severity item)
    reason (gi_value item) (gi_score item) (gi_unit item) (gi_operator item) (gi_threshold item)
    (gi_series_key item) (gi_since item) (gi_phase item) n.

(** What a channel refuses before its queue is looked at. *)
Definition refused (recipient : Recipient) (g : AlertGroup) (item : GroupItem) : option string :=
  let policy := rc_policy recipient in
  let escalating := bool_decide (gi_reason item = NotifyReason.Unacked) in
  if negb escalating && Severity.lt (gi_severity item) (min_severity policy)
  then Some ("below the minimum severity of channel " +:+ chan recipient)%string
  else if negb escalating &&
          negb (ChannelMatcher.accepts (cp_matcher policy)
                  {| ctx_rule_uid := gi_rule_uid item; ctx_kind := ag_target_kind g;
                     ctx_tags := ag_target_tags g |})
  then Some ("outside the routing filter of channel " +:+ chan recipient)%string
  else if bool_decide (gi_reason item = NotifyReason.Resolved) && negb (notify_resolved policy)
  then Some ("channel " +:+ chan recipient +:+ " does not announce resolutions")%string
  else None.

(** What it refuses for what was sent before. *)
Definition refused_by_history (recipient : Recipient) (item : GroupItem)
    (last_sent : option LogEntry) (now : DateTime) : option string :=
  let policy := rc_policy recipient in
  if bool_decide (gi_reason item = NotifyReason.Resolved) then
    if negb (is_some_and last_sent (fun e => NotifyReason.is_firing_like (le_reason e)))
    then Some ("channel " +:+ chan recipient +:+ " never announced the firing")%string
    else None
  else if negb (bool_decide (gi_reason item = NotifyReason.Unacked)) &&
          (0 <? min_interval_secs policy) &&
          negb (bool_decide (gi_reason item = NotifyReason.Flapping))
  then match last_sent with
       | Some last =>
           if now - le_at last <? secs (min_interval_secs policy)
           then Some ("channel " +:+ chan recipient +:+ ": cooldown, last message " +:+
                      display_i64 (num_seconds (now - le_at last)) +:+ " s ago")%string
           else None
       | None => None
       end
  else None.

Definition route (recipient : Recipient) (g : AlertGroup) (item : GroupItem) (ledger : Ledger)
    (now : DateTime) (queue : Queue) (plan : Plan) : Queue * Plan :=
  let fp := gi_fingerprint item in
  match refused recipient g item with
  | Some verdict => (queue, note fp verdict plan)
  | None =>
      let escalating := bool_decide (gi_reason item = NotifyReason.Unacked) in
      let last_sent :=
        max_by_at (filter (fun e => le_channel_id e = rc_id recipient /\ le_fingerprint e = fp)
                          (ld_log ledger)) in
      let existing :=
        position (fun qd => bool_decide (qi_channel_id qd.1 = rc_id recipient) &&
                            bool_decide (qi_fp qd.1 = fp)) queue in
      let found := pos ← existing; qd ← queue !! pos; Some (pos, qd.1) in
      match bool_decide (gi_reason item = NotifyReason.Resolved), found with
      | true, Some (pos, queued) =>
          let resolved := qi_resolved_meanwhile queued ||
                          NotifyReason.is_firing_like (gi_reason (qi_item queued)) in
          (<[pos := (set_item queued item (qi_hold queued) resolved, true)]> queue,
           add_announced fp plan)
      | _, _ =>
          match refused_by_history recipient item last_sent now with
          | Some verdict => (queue, note fp verdict plan)
          | None =>
              let hold :=
                if negb escalating && in_quiet_hours (rc_policy recipient) now &&
                   Severity.lt (gi_severity item) Severity.Critical
                then Hold.Quiet else Hold.Batch in
              let plan := add_announced fp plan in
              match found with
              | Some (pos, queued) =>
                  let keep_firing :=
                    bool_decide (gi_reason (qi_item queued) = NotifyReason.Firing) &&
                    bool_decide (gi_reason item = NotifyReason.Reminder) in
                  let merged := if keep_firing
                                then set_reason item NotifyReason.Firing (gi_note item) else item in
                  (<[pos := (set_item queued merged hold false, true)]> queue, plan)
              | None =>
                  (queue ++ [({| qi_id := None; qi_channel_id := rc_id recipient;
                                 qi_target_id := ag_target_id g;
                                 qi_target_name := ag_target_name g; qi_hold := hold;
                                 qi_item := item; qi_resolved_meanwhile := false;
                                 qi_queued_at := now |}, true)], plan)
              end
          end
      end
  end.

Definition handoff (active : list Recipient) (policy : GlobalPolicy) (g : AlertGroup)
    (item : GroupItem) (ledger : Ledger) (now : DateTime) (queue : Queue) (plan : Plan) :
    Queue * Plan :=
  let fp := gi_fingerprint item in
  let unhandle p := set_handled (pl_handled p ∖ {[fp]}) p in
  match escalation policy with
  | None => (queue, note fp "no escalation channel configured" plan)
  | Some (after, channel_id) =>
      let first_sent :=
        min_at (le_at <$> filter (fun e => le_channel_id e <> INTAKE_CHANNEL /\
                                           le_fingerprint e = fp /\
                                           NotifyReason.is_firing_like (le_reason e) = true)
                                 (ld_log ledger)) in
      match first_sent with
      | None =>
          (queue, note fp "escalation waiting: nobody has been told yet" (unhandle plan))
      | Some first =>
          let due := first + after in
          if now <? due then
            (queue,
             note fp ("escalation waiting: " +:+ display_i64 (num_seconds (now - (due - after))) +:+
                      " s since the first message, " +:+ display_i64 (num_seconds after) +:+
                      " s needed")%string (unhandle plan))
          else
            match find_map (fun r => if bool_decide (rc_id r = channel_id) then Some r else None)
                    active with
            | None =>
                (queue, note fp ("escalation channel " +:+ display_i64 channel_id +:+
                                 " is missing or disabled")%string plan)
            | Some recipient => route recipient g item ledger now queue plan
            end
      end
  end.

(** ** Emptying the queues *)

Definition outgoing_step (now : DateTime) (groups : gmap (option TargetId) AlertGroup)
    (queued : QueuedItem) : gmap (option TargetId) AlertGroup :=
  if qi_resolved_meanwhile queued then groups
  else
    let g := groups !! qi_target_id queued ?? {|
      ag_target_id := qi_target_id queued; ag_target_name := qi_target_name queued;
      ag_target_kind := ""; ag_target_tags := ∅; ag_severity := Severity.Info;
      ag_items := []; ag_channels := []; ag_at := now |} in
    <[qi_target_id queued := {|
        ag_target_id := ag_target_id g; ag_target_name := ag_target_name g;
        ag_target_kind := ag_target_kind g; ag_target_tags := ag_target_tags g;
        ag_severity := Severity.max (ag_severity g) (gi_severity (qi_item queued));
        ag_items := ag_items g ++ [qi_item queued];
        ag_channels := ag_channels g; ag_at := ag_at g |}]> groups.

Definition outgoing (channel_id : Z) (items : list QueuedItem) (hold : option Hold)
    (now : DateTime) : Outgoing :=
  let groups := btree_values (option_cmp Z.compare) (foldl (outgoing_step now) ∅ items) in
  let groups := sort_by group_cmp (finish_group ∅ <$> groups) in {|
    og_channel_id := channel_id;
    og_digest := {|
      dg_groups := groups;
      dg_resolved_meanwhile :=
        (fun q => (qi_target_name q, qi_item q)) <$>
          filter (fun q => qi_resolved_meanwhile q = true) items;
      dg_hold := hold; dg_at := now |};
    og_queue_ids := omap qi_id items;
    og_retry := items;
    og_sent := (fun q => (qi_fp q, gi_reason (qi_item q))) <$> items;
  |}.

(** Lines of one target together, in the order of the targets. *)
Definition by_target (items : list QueuedItem) : list (list QueuedItem) :=
  btree_values (option_cmp Z.compare)
    (foldl (fun m q => <[qi_target_id q := (m !! qi_target_id q ?? []) ++ [q]]> m) ∅ items).

Definition cap_reached (recipient : Recipient) (policy : GlobalPolicy) (ledger : Ledger)
    (now : DateTime) : bool :=
  (0 <? max_per_hour policy) &&
  (let hour_ago := now - td_seconds LEDGER_HOUR_SECS in
   max_per_hour policy <=?
     Z.of_nat (length (filter (fun m => m.1 = rc_id recipient /\ hour_ago < m.2)
                              (ld_messages ledger)))).

Definition flush_one (policy : GlobalPolicy) (ledger : Ledger) (now : DateTime)
    (st : Queue * Plan) (recipient : Recipient) : Queue * Plan :=
  let '(queue, plan) := st in
  let mine := filter (fun q => qi_channel_id q = rc_id recipient) (fst <$> queue) in
  match mine with
  | [] => (queue, plan)
  | _ =>
      let window := if is_oncall recipient then 0 else secs (batch_window_secs policy) in
      let quiet_now := in_quiet_hours (rc_policy recipient) now in
      let has_quiet := existsb (fun q => bool_decide (qi_hold q = Hold.Quiet)) mine in
      let batch_due :=
        existsb (fun q => bool_decide (qi_hold q = Hold.Batch) &&
                          (window <=? now - qi_queued_at q)) mine in
      let take_quiet := has_quiet && negb quiet_now in
      let take_batch := batch_due || take_quiet in
      if negb take_batch && negb take_quiet then (queue, plan)
      else if cap_reached recipient policy ledger now then
        (queue,
         foldl (fun plan q =>
                  note (qi_fp q)
                    ("channel " +:+ chan recipient +:+ ": hourly cap of " +:+
                     display_i64 (max_per_hour policy) +:+ " messages reached, waiting")%string
                    plan) plan mine)
      else
        let ready :=
          filter (fun q => (match qi_hold q with
                            | Hold.Batch => take_batch
                            | Hold.Quiet => take_quiet
                            end) = true) mine in
        let ready_keys : gset (Z * string) := list_to_set (qi_key <$> ready) in
        let queue := filter (fun qd => qi_key qd.1 ∉ ready_keys) queue in
        let hold := if take_quiet then Some Hold.Quiet else None in
        if is_oncall recipient then
          (queue, foldl (fun plan items => add_outgoing (outgoing (rc_id recipient) items hold now) plan)
                    plan (by_target ready))
        else (queue, add_outgoing (outgoing (rc_id recipient) ready hold now) plan)
  end.

Definition flush (recipients : list Recipient) (policy : GlobalPolicy) (ledger : Ledger)
    (now : DateTime) (queue : Queue) (plan : Plan) : Queue * Plan :=
  foldl (flush_one policy ledger now) (queue, plan) recipients.

(** ** The loop over the groups *)

Record Working := {
  wk_queue : Queue;
  wk_plan : Plan;
  wk_flap_holds : gmap string DateTime;
  wk_intake : list LogEntry;
}.

Definition counts (r : NotifyReason) : bool :=
  match r with NotifyReason.Firing | NotifyReason.Resolved => true | _ => false end.

(** [until.format("%H:%M UTC")] *)
Definition hm_utc (t : DateTime) : string :=
  (two_digits (hour t) +:+ ":" +:+ two_digits (minute t) +:+ " UTC")%string.

Definition count_change (item : GroupItem) (now : DateTime) (w : Working) : Working :=
  if counts (gi_reason item) then
    let entry := {| le_channel_id := INTAKE_CHANNEL; le_fingerprint := gi_fingerprint item;
                    le_reason := gi_reason item; le_at := now |} in
    {| wk_queue := wk_queue w; wk_plan := add_intake entry (wk_plan w);
       wk_flap_holds := wk_flap_holds w; wk_intake := wk_intake w ++ [entry] |}
  else w.

(** Purges the queue of a fingerprint, and records the rows to delete. *)
Definition purge (fp : string) (w : Working) : Working :=
  let '(queue, ids) := purge_fingerprint (wk_queue w) fp in
  {| wk_queue := queue; wk_plan := add_dequeue ids (wk_plan w);
     wk_flap_holds := wk_flap_holds w; wk_intake := wk_intake w |}.

Definition changes_of (policy : GlobalPolicy) (fp : string) (now : DateTime)
    (intake : list LogEntry) : Z :=
  let since := now - secs (flap_window_secs policy) in
  Z.of_nat (length (filter (fun e => le_fingerprint e = fp /\ since < le_at e /\
                                     counts (le_reason e) = true) intake)).

Definition detect_flapping (policy : GlobalPolicy) (item : GroupItem) (now : DateTime)
    (w : Working) : Working * GroupItem :=
  let fp := gi_fingerprint item in
  let changes := changes_of policy fp now (wk_intake w) in
  if (0 <? flap_events policy) && counts (gi_reason item) && (flap_events policy <=? changes) then
    let until := now + secs (flap_hold_secs policy) in
    let w := {| wk_queue := wk_queue w; wk_plan := add_flap_hold fp until (wk_plan w);
                wk_flap_holds := <[fp := until]> (wk_flap_holds w); wk_intake := wk_intake w |} in
    (purge fp w,
     set_reason item NotifyReason.Flapping
       (Some ("flapping: " +:+ display_i64 changes +:+ " changes in " +:+
              display_i64 (flap_window_secs policy / 60) +:+ " min, notifications held for " +:+
              display_i64 (flap_hold_secs policy / 60) +:+ " min")%string))
  else (w, item).

Definition set_queue_plan (qp : Queue * Plan) (w : Working) : Working :=
  {| wk_queue := fst qp; wk_plan := snd qp; wk_flap_holds := wk_flap_holds w;
     wk_intake := wk_intake w |}.

Definition plan_item (active : list Recipient) (policy : GlobalPolicy) (ledger : Ledger)
    (now : DateTime) (g : AlertGroup) (w : Working) (item : GroupItem) : Working :=
  let fp := gi_fingerprint item in
  let targets := filter (fun r => ag_channels g = [] \/ rc_id r ∈ ag_channels g) active in
  let w := set_queue_plan (wk_queue w, set_handled ({[fp]} ∪ pl_handled (wk_plan w)) (wk_plan w)) w in
  let w := count_change item now w in
  match wk_flap_holds w !! fp with
  | Some until =>
      purge fp (set_queue_plan
                  (wk_queue w, note fp ("flapping: held until " +:+ hm_utc until)%string (wk_plan w)) w)
  | None =>
      let '(w, item) := detect_flapping policy item now w in
      match targets with
      | [] => w
      | _ =>
          if bool_decide (gi_reason item = NotifyReason.Unacked) then
            set_queue_plan (handoff active policy g item ledger now (wk_queue w) (wk_plan w)) w
          else
            set_queue_plan
              (foldl (fun '(queue, plan) recipient => route recipient g item ledger now queue plan)
                 (wk_queue w, wk_plan w) targets) w
      end
  end.

Definition plan_group (active : list Recipient) (policy : GlobalPolicy) (ledger : Ledger)
    (now : DateTime) (w : Working) (g : AlertGroup) : Working :=
  foldl (plan_item active policy ledger now g) w (ag_items g).

Definition active_of (recipients : list Recipient) : list Recipient :=
  filter (fun r => rc_enabled r = true) recipients.

Definition start (ledger : Ledger) (now : DateTime) : Working := {|
  wk_queue := (fun item => (item, false)) <$> ld_queue ledger;
  wk_plan := Plan_default;
  wk_flap_holds := filter (fun kv => now < kv.2) (ld_flap_holds ledger);
  wk_intake := filter (fun e => le_channel_id e = INTAKE_CHANNEL) (ld_log ledger);
|}.

(** The queue and the plan once the groups are routed and the queues emptied. *)
Definition plan_queue (groups : list AlertGroup) (recipients : list Recipient)
    (policy : GlobalPolicy) (ledger : Ledger) (now : DateTime) : Queue * Plan :=
  let active := active_of recipients in
  let w := foldl (plan_group active policy ledger now) (start ledger now) groups in
  flush active policy ledger now (wk_queue w) (wk_plan w).

Definition plan (groups : list AlertGroup) (recipients : list Recipient)
    (policy : GlobalPolicy) (ledger : Ledger) (now : DateTime) : Plan :=
  let '(queue, p) := plan_queue groups recipients policy ledger now in
  set_enqueue (fst <$> filter (fun qd => qd.2 = true) queue) p.
End Policy.

(** ** Facts: lists of log entries *)

Lemma position_Some {A} (p : A -> bool) l n :
  position p l = Some n -> exists x, l !! n = Some x /\ p x = true.
Proof.
  revert n. induction l as [|x l IH]; intros n; simpl; [done|].
  destruct (p x) eqn:E; [intros [= <-]; by exists x|].
  destruct (position p l) as [m|]; [|done]. intros [= <-]. by apply IH.
Qed.

Lemma position_None {A} (p : A -> bool) l x : position p l = None -> x ∈ l -> p x = false.
Proof.
  induction l as [|y l IH]; simpl; [by intros _ ?%elem_of_nil|].
  destruct (p y) eqn:E; [done|]. destruct (position p l); [done|].
  intros _ [->|?]%elem_of_cons; [done|by apply IH].
Qed.

Lemma max_by_at_elem l e : max_by_at l = Some e -> e ∈ l.
Proof.
  unfold max_by_at.
  assert (forall b, (forall x, b = Some x -> x ∈ l) ->
            foldl (fun best e => match best with None => Some e
                     | Some b => if le_at b <=? le_at e then Some e else Some b end) b l = Some e ->
            e ∈ l) as H; [|by apply H].
  intros b Hb.
  apply (foldl_invariant (fun best => forall x, best = Some x -> x ∈ l)
           (fun best e => match best with None => Some e
              | Some b => if le_at b <=? le_at e then Some e else Some b end) l b) with (x := e).
  - done.
  - intros [c|] x Hx IH y; [|by intros [= <-]]. destruct (_ <=? _); intros [= <-]; auto.
Qed.

Lemma min_at_spec l t : min_at l = Some t -> t ∈ l /\ forall u, u ∈ l -> t <= u.
Proof.
  unfold min_at. revert t. induction l as [|x l IH] using rev_ind; intros t; [done|].
  rewrite foldl_app. simpl. destruct (foldl _ None l) as [m|] eqn:E; intros [= <-].
  - destruct (IH m eq_refl) as [Hm Hmin].
    split; [destruct (Z.min_spec m x) as [[? ->]|[? ->]]; set_solver|].
    intros u [Hu| ->%list_elem_of_singleton]%elem_of_app; [specialize (Hmin u Hu)|]; lia.
  - assert (l = []) as ->.
    { destruct l as [|y l _] using rev_ind; [done|]. by rewrite foldl_app in E. }
    split; [set_solver|]. intros u ->%list_elem_of_singleton. lia.
Qed.

(** ** Facts: the provenance of a line *)

Section Funnel.
Context {C : Calendar} (groups : list AlertGroup) (recipients : list Recipient)
  (policy : GlobalPolicy) (ledger : Ledger) (now : DateTime).

Notation active := (active_of recipients).

(** What the policy makes of a line of the cycle: itself, or its flapping notice. *)
Definition presents (item0 item : GroupItem) : Prop :=
  item = item0 \/
  (counts (gi_reason item0) = true /\ 0 < flap_events policy /\
   exists n, item = set_reason item0 NotifyReason.Flapping n).

Definition sent_firing (channel : Z -> Prop) (fp : string) (at_ : DateTime) : Prop :=
  exists e, e ∈ ld_log ledger /\ channel (le_channel_id e) /\ le_fingerprint e = fp /\
            NotifyReason.is_firing_like (le_reason e) = true /\ le_at e = at_.

(** [routed r g item]: the line was handed to the channel and passed its filters. *)
Definition routed (r : Recipient) (g : AlertGroup) (item : GroupItem) : Prop :=
  g ∈ groups /\ (exists item0, item0 ∈ ag_items g /\ presents item0 item) /\
  r ∈ active /\ refused r g item = None /\
  if bool_decide (gi_reason item = NotifyReason.Unacked) then
    exists after first, escalation policy = Some (after, rc_id r) /\
      sent_firing (fun c => c <> INTAKE_CHANNEL) (gi_fingerprint item) first /\
      first + after <= now
  else ag_channels g = [] \/ rc_id r ∈ ag_channels g.

Definition hold_for (r : Recipient) (item : GroupItem) : Hold :=
  if negb (bool_decide (gi_reason item = NotifyReason.Unacked)) &&
     in_quiet_hours (rc_policy r) now && Severity.lt (gi_severity item) Severity.Critical
  then Hold.Quiet else Hold.Batch.

Definition last_sent (r : Recipient) (item : GroupItem) : option LogEntry :=
  max_by_at (filter (fun e => le_channel_id e = rc_id r /\ le_fingerprint e = gi_fingerprint item)
                    (ld_log ledger)).

Definition merge_reason (before item : GroupItem) : GroupItem :=
  if bool_decide (gi_reason before = NotifyReason.Firing) &&
     bool_decide (gi_reason item = NotifyReason.Reminder)
  then set_reason item NotifyReason.Firing (gi_note item) else item.

Inductive line_of : QueuedItem -> bool -> Prop :=
| line_stored q : q ∈ ld_queue ledger -> line_of q false
| line_resolved q d r g item :
    line_of q d -> qi_key q = (rc_id r, gi_fingerprint item) -> routed r g item ->
    gi_reason item = NotifyReason.Resolved ->
    line_of (set_item q item (qi_hold q)
               (qi_resolved_meanwhile q ||
                NotifyReason.is_firing_like (gi_reason (qi_item q)))) true
| line_merged q d r g item :
    line_of q d -> qi_key q = (rc_id r, gi_fingerprint item) -> routed r g item ->
    gi_reason item <> NotifyReason.Resolved ->
    refused_by_history r item (last_sent r item) now = None ->
    line_of (set_item q (merge_reason (qi_item q) item) (hold_for r item) false) true
| line_new r g item :
    routed r g item -> refused_by_history r item (last_sent r item) now = None ->
    line_of {| qi_id := None; qi_channel_id := rc_id r; qi_target_id := ag_target_id g;
               qi_target_name := ag_target_name g; qi_hold := hold_for r item; qi_item := item;
               qi_resolved_meanwhile := false; qi_queued_at := now |} true.

Definition keys (queue : Queue) : list (Z * string) := (fun qd => qi_key qd.1) <$> queue.

(** What a line being routed does to the queue and to the plan. *)
Inductive routes (r : Recipient) (item : GroupItem) : Queue -> Plan -> Queue -> Plan -> Prop :=
| routes_refused queue p verdict :
    routes r item queue p queue (note (gi_fingerprint item) verdict p)
| routes_replaced queue p pos q d q' :
    queue !! pos = Some (q, d) -> qi_key q = (rc_id r, gi_fingerprint item) -> qi_key q' = qi_key q ->
    qi_id q' = qi_id q -> (line_of q d -> line_of q' true) ->
    routes r item queue p (<[pos := (q', true)]> queue) (add_announced (gi_fingerprint item) p)
| routes_appended queue p q' :
    (rc_id r, gi_fingerprint item) ∉ keys queue ->
    qi_key q' = (rc_id r, gi_fingerprint item) -> line_of q' true ->
    routes r item queue p (queue ++ [(q', true)]) (add_announced (gi_fingerprint item) p).

Lemma key_set_item q item item' h b r :
  qi_key q = (rc_id r, gi_fingerprint item) -> gi_fingerprint item' = gi_fingerprint item ->
  qi_key (set_item q item' h b) = (rc_id r, gi_fingerprint item).
Proof. unfold qi_key, qi_fp. simpl. by intros [= -> _] ->. Qed.

Lemma merge_reason_fp before item : gi_fingerprint (merge_reason before item) = gi_fingerprint item.
Proof. unfold merge_reason. by destruct (_ && _). Qed.

(** The line of the channel and of the alert, if the queue has one. *)
Lemma found_line r item (queue : Queue) :
  let existing := position (fun qd => bool_decide (qi_channel_id qd.1 = rc_id r) &&
                                      bool_decide (qi_fp qd.1 = gi_fingerprint item)) queue in
  match existing with
  | Some pos => exists q d, queue !! pos = Some (q, d) /\ qi_key q = (rc_id r, gi_fingerprint item)
  | None => (rc_id r, gi_fingerprint item) ∉ keys queue
  end.
Proof.
  intros ex. destruct ex as [pos|] eqn:E; unfold ex in E.
  - apply position_Some in E as ([q d] & Hq & Hp). bools. simpl in *. exists q, d.
    split; [done|]. unfold qi_key. by f_equal.
  - intros ([q d] & Hk & Hin)%list_elem_of_fmap. simpl in Hk.
    apply (position_None _ _ _ E) in Hin. simpl in Hin. unfold qi_key in Hk.
    injection Hk as Hk1 Hk2. by rewrite !bool_decide_true in Hin.
Qed.

Lemma route_spec r g item queue p :
  (refused r g item = None -> routed r g item) ->
  let out := route r g item ledger now queue p in
  routes r item queue p (fst out) (snd out).
Proof.
  intros Hrouted. unfold route. destruct (refused r g item) as [v|] eqn:Hr; [constructor|].
  specialize (Hrouted eq_refl). change (max_by_at _) with (last_sent r item).
  set (ex := position _ queue). pose proof (found_line r item queue) as Hex. cbv zeta in Hex. fold ex in Hex.
  assert (hold_for r item = if negb (bool_decide (gi_reason item = NotifyReason.Unacked)) &&
            in_quiet_hours (rc_policy r) now && Severity.lt (gi_severity item) Severity.Critical
            then Hold.Quiet else Hold.Batch) as <- by done.
  destruct ex as [pos|]; simpl.
  - destruct Hex as (q & d & Hq & Hk). rewrite Hq. simpl.
    case_bool_decide as Hres.
    + eapply routes_replaced; [done|done| |done|].
      * rewrite Hk. apply key_set_item; [exact Hk|done].
      * intros Hl. by eapply line_resolved.
    + destruct (refused_by_history _ _ _ _) eqn:Hh; [constructor|].
      eapply routes_replaced; [done|done| |done|].
      * rewrite Hk. apply key_set_item; [exact Hk|]. apply merge_reason_fp.
      * intros Hl. by eapply line_merged.
  - destruct (bool_decide _); (destruct (refused_by_history _ _ _ _) eqn:Hh;
      [constructor|apply routes_appended; [done|done|by apply line_new]]).
Qed.
End Funnel.

(** ** Facts: emptying the queues *)

Section Flush.
Context {C : Calendar}.

Lemma by_target_lookup items id :
  foldl (fun m q => <[qi_target_id q := (m !! qi_target_id q ?? []) ++ [q]]> m)
    (∅ : gmap (option TargetId) (list QueuedItem)) items !! id =
  match filter (fun q => qi_target_id q = id) items with [] => None | l => Some l end.
Proof.
  induction items as [|q items IH] using rev_ind; [done|].
  rewrite foldl_app, filter_app, filter_cons, filter_nil. simpl.
  destruct (decide (qi_target_id q = id)) as [<-|Hne].
  - rewrite lookup_insert_eq, IH. by destruct (filter _ items).
  - by rewrite lookup_insert_ne, app_nil_r.
Qed.

Lemma by_target_perm items : NoDup items -> concat (by_target items) ≡ₚ items.
Proof.
  intros Hnd. unfold by_target. set (m := foldl _ _ items).
  assert (concat (btree_values (option_cmp Z.compare) m) =
          btree_to_list (option_cmp Z.compare) m ≫= snd) as ->.
  { unfold btree_values. induction (btree_to_list _ m) as [|[? ?] l IH]; [done|].
    rewrite fmap_cons, bind_cons. simpl. by rewrite IH. }
  assert (forall id l, (id, l) ∈ btree_to_list (option_cmp Z.compare) m <->
            l <> [] /\ l = filter (fun q => qi_target_id q = id) items) as Hl.
  { intros id l. rewrite (elem_of_btree_to_list (option_cmp Z.compare)). unfold m.
    rewrite by_target_lookup. destruct (filter _ items) eqn:E; [naive_solver|].
    split; [intros [= <-]; done|by intros [_ ->]]. }
  apply NoDup_Permutation; [|done|].
  - apply NoDup_bind.
    + intros [i1 l1] [i2 l2] q H1%Hl H2%Hl Hq1 Hq2. simpl in *.
      destruct H1 as [_ ->], H2 as [_ ->].
      apply list_elem_of_filter in Hq1 as [<- _], Hq2 as [<- _]. done.
    + intros [i l] [_ ->]%Hl. by apply NoDup_filter.
    + unfold btree_to_list. rewrite sort_by_perm. apply NoDup_map_to_list.
  - intros q. rewrite list_elem_of_bind. split.
    + intros ([i l] & Hq & [_ ->]%Hl). simpl in Hq. by apply list_elem_of_filter in Hq as [_ ?].
    + intros Hq. exists (qi_target_id q, filter (fun q' => qi_target_id q' = qi_target_id q) items).
      assert (q ∈ filter (fun q' => qi_target_id q' = qi_target_id q) items)
        by by apply list_elem_of_filter.
      split; [done|]. apply Hl. split; [|done]. intros E. rewrite E in *. by eapply elem_of_nil.
Qed.

Lemma elem_of_by_target items l : l ∈ by_target items -> l <> [].
Proof.
  unfold by_target. intros [id Hid]%(elem_of_btree_values (option_cmp Z.compare)).
  rewrite by_target_lookup in Hid. destruct (filter _ items); naive_solver.
Qed.

Lemma foldl_add_outgoing (f : list QueuedItem -> Outgoing) ls p :
  let p' := foldl (fun p items => add_outgoing (f items) p) p ls in
  pl_outgoing p' = pl_outgoing p ++ (f <$> ls) /\ pl_announced p' = pl_announced p /\
  pl_handled p' = pl_handled p /\ pl_dequeue p' = pl_dequeue p.
Proof.
  revert p. induction ls as [|l ls IH]; intros p; simpl; [by rewrite app_nil_r|].
  destruct (IH (add_outgoing (f l) p)) as (H1 & H2 & H3 & H4). simpl in *.
  by rewrite H1, H2, H3, H4, <-app_assoc.
Qed.

Lemma foldl_note (f g : QueuedItem -> string) qs p :
  let p' := foldl (fun p q => note (f q) (g q) p) p qs in
  pl_outgoing p' = pl_outgoing p /\ pl_announced p' = pl_announced p /\
  pl_handled p' = pl_handled p /\ pl_dequeue p' = pl_dequeue p.
Proof. revert p. induction qs as [|q qs IH]; intros p; simpl; [done|]. apply (IH (note _ _ p)). Qed.

(** What one channel sends. *)
Definition sends (policy : GlobalPolicy) (ledger : Ledger) (now : DateTime) (r : Recipient)
    (ogs : list Outgoing) : Prop :=
  (forall og, og ∈ ogs ->
     og_channel_id og = rc_id r /\ og_retry og <> [] /\ cap_reached r policy ledger now = false /\
     (exists hold, og = outgoing (rc_id r) (og_retry og) hold now) /\
     forall q, q ∈ og_retry og ->
       qi_channel_id q = rc_id r /\
       (in_quiet_hours (rc_policy r) now = true -> qi_hold q = Hold.Batch)) /\
  (is_oncall r = false -> (length ogs <= 1)%nat).

Definition flushes (queue : Queue) (p : Plan) (queue' : Queue) (p' : Plan) (ogs : list Outgoing) :
    Prop :=
  pl_outgoing p' = pl_outgoing p ++ ogs /\
  (fst <$> queue') ++ concat (og_retry <$> ogs) ≡ₚ fst <$> queue /\
  (forall qd, qd ∈ queue' -> qd ∈ queue) /\ NoDup (keys queue') /\
  pl_announced p' = pl_announced p /\ pl_handled p' = pl_handled p /\
  pl_dequeue p' = pl_dequeue p.

Lemma NoDup_keys_lines (queue : Queue) : NoDup (keys queue) -> NoDup (fst <$> queue).
Proof.
  unfold keys. intros H. change (NoDup (qi_key ∘ fst <$> queue)) in H.
  rewrite (list_fmap_compose fst qi_key queue) in H.
  by apply NoDup_fmap_1 in H.
Qed.

Lemma keys_inj (queue : Queue) x y :
  NoDup (keys queue) -> x ∈ queue -> y ∈ queue -> qi_key x.1 = qi_key y.1 -> x = y.
Proof.
  unfold keys. intros Hnd [i Hi]%list_elem_of_lookup [j Hj]%list_elem_of_lookup Hk.
  rewrite NoDup_alt in Hnd.
  assert (i = j) as -> by (apply (Hnd i j (qi_key x.1)); rewrite list_lookup_fmap;
    [by rewrite Hi|rewrite Hj; simpl; by rewrite Hk]).
  congruence.
Qed.

(** Taking lines out of the queue by their keys loses none. *)
Lemma take_ready (queue : Queue) (P : QueuedItem -> Prop) `{!∀ q, Decision (P q)} :
  NoDup (keys queue) ->
  let ready := filter P (fst <$> queue) in
  let ready_keys : gset (Z * string) := list_to_set (qi_key <$> ready) in
  let queue' := filter (fun qd => qi_key qd.1 ∉ ready_keys) queue in
  (fst <$> queue') ++ ready ≡ₚ fst <$> queue /\ NoDup (keys queue').
Proof.
  intros Hnd ready ready_keys queue'.
  assert (Hin : forall x, x ∈ queue -> qi_key x.1 ∈ ready_keys <-> P x.1).
  { intros x Hx. unfold ready_keys. rewrite elem_of_list_to_set, list_elem_of_fmap. split.
    - intros (q & Hk & [HP (y & -> & Hy)%list_elem_of_fmap]%list_elem_of_filter).
      by rewrite (keys_inj queue x y).
    - intros HP. exists x.1. split; [done|]. apply list_elem_of_filter. split; [done|].
      by apply list_elem_of_fmap_2. }
  assert (Hq' : forall x, x ∈ queue' <-> x ∈ queue /\ ~ P x.1).
  { intros x. unfold queue'. rewrite list_elem_of_filter. split; intros [H1 H2].
    - split; [done|]. by rewrite <-(Hin x).
    - split; [by rewrite (Hin x)|done]. }
  assert (NoDup (keys queue')) as Hnd'.
  { eapply sublist_NoDup; [exact Hnd|]. apply fmap_sublist, sublist_filter. }
  split; [|done]. apply NoDup_Permutation; [| |].
  - apply NoDup_app. split_and!; [by apply NoDup_keys_lines| |apply NoDup_filter, NoDup_keys_lines, Hnd].
    intros q (x & -> & [Hx Hn]%Hq')%list_elem_of_fmap [HP _]%list_elem_of_filter. done.
  - by apply NoDup_keys_lines.
  - intros q. rewrite elem_of_app. unfold ready. rewrite list_elem_of_filter. split.
    + intros [(x & -> & [Hx _]%Hq')%list_elem_of_fmap|[_ Hq]]; [by apply list_elem_of_fmap_2|done].
    + intros Hq. destruct (decide (P q)); [by right|left].
      apply list_elem_of_fmap in Hq as (x & -> & Hx). apply list_elem_of_fmap_2. by apply Hq'.
Qed.

Lemma flushes_nothing queue p p' :
  NoDup (keys queue) -> pl_outgoing p' = pl_outgoing p -> pl_announced p' = pl_announced p ->
  pl_handled p' = pl_handled p -> pl_dequeue p' = pl_dequeue p ->
  flushes queue p queue p' [].
Proof. intros. unfold flushes. simpl. rewrite !app_nil_r. by split_and!. Qed.

Lemma sends_nothing policy ledger now r : sends policy ledger now r [].
Proof. split; [by intros ? ?%elem_of_nil|simpl; lia]. Qed.

(** A channel that is due has a line to send. *)
Lemma due_channel_has_a_line (mine : list QueuedItem) (batch : QueuedItem -> bool) (quiet_now : bool) :
  let take_quiet := existsb (fun q => bool_decide (qi_hold q = Hold.Quiet)) mine && negb quiet_now in
  let take_batch := existsb (fun q => bool_decide (qi_hold q = Hold.Batch) && batch q) mine || take_quiet in
  negb take_batch && negb take_quiet = false ->
  exists q, q ∈ mine /\
    (match qi_hold q with Hold.Batch => take_batch | Hold.Quiet => take_quiet end) = true.
Proof.
  intros take_quiet take_batch Htake. destruct take_quiet eqn:Eq.
  - unfold take_quiet in Eq. apply andb_true_iff in Eq as [Eq _].
    apply existsb_elem in Eq as (q & Hq & Hh). bools. exists q. by rewrite Hh.
  - unfold take_batch in Htake |- *. rewrite orb_false_r in Htake |- *.
    destruct (existsb _ mine) eqn:Eb in Htake |- *; [|done].
    apply existsb_elem in Eb as (q & Hq & Hh). bools. exists q. split; [done|].
    by match goal with H : qi_hold q = _ |- _ => rewrite H end.
Qed.

(** The messages made of the lines that are due: one per device on an on-call channel. *)
Lemma emission policy ledger now r hold (queue queue' : Queue) ready p :
  cap_reached r policy ledger now = false -> NoDup (keys queue') ->
  (fst <$> queue') ++ ready ≡ₚ fst <$> queue -> (forall qd, qd ∈ queue' -> qd ∈ queue) ->
  (forall q, q ∈ ready -> qi_channel_id q = rc_id r /\
     (in_quiet_hours (rc_policy r) now = true -> qi_hold q = Hold.Batch)) ->
  NoDup ready -> ready <> [] ->
  let message := fun items => outgoing (rc_id r) items hold now in
  let p' := if is_oncall r
            then foldl (fun plan items => add_outgoing (message items) plan) p (by_target ready)
            else add_outgoing (message ready) p in
  exists ogs, flushes queue p queue' p' ogs /\ sends policy ledger now r ogs.
Proof.
  intros Hcap Hnd' Hperm Hsub Hline Hrnd Hne message. destruct (is_oncall r) eqn:Hon; simpl.
  - exists (message <$> by_target ready).
    destruct (foldl_add_outgoing message (by_target ready) p) as (H1 & H2 & H3 & H4).
    split.
    + split_and!; try done. rewrite <-list_fmap_compose.
      rewrite (list_fmap_ext _ id), list_fmap_id by done. by rewrite by_target_perm.
    + split; [|by rewrite Hon]. intros og (items & -> & Hi)%list_elem_of_fmap. simpl.
      split_and!; try done; [by eapply elem_of_by_target|by exists hold|].
      intros q Hq. apply Hline. rewrite <-(by_target_perm ready Hrnd).
      apply list_elem_of_In, in_concat. exists items. by rewrite <-!list_elem_of_In.
  - exists [message ready]. split.
    + split_and!; simpl; try done. by rewrite app_nil_r.
    + split; [|simpl; lia]. intros og ->%list_elem_of_singleton. simpl.
      split_and!; try done. by exists hold.
Qed.

Lemma flush_one_spec policy ledger now r (queue : Queue) p :
  NoDup (keys queue) ->
  let out := flush_one policy ledger now (queue, p) r in
  exists ogs, flushes queue p (fst out) (snd out) ogs /\ sends policy ledger now r ogs.
Proof.
  intros Hnd. unfold flush_one. set (mine := filter _ (fst <$> queue)).
  destruct mine as [|m0 mine0] eqn:Hm.
  { exists []. split; [by apply flushes_nothing|apply sends_nothing]. }
  rewrite <-Hm. clear Hm m0 mine0. set (quiet_now := in_quiet_hours _ _).
  set (take_quiet := existsb _ mine && negb quiet_now).
  set (take_batch := _ || take_quiet).
  destruct (negb take_batch && negb take_quiet) eqn:Htake.
  { exists []. split; [by apply flushes_nothing|apply sends_nothing]. }
  destruct (cap_reached r policy ledger now) eqn:Hcap.
  { exists []. simpl. split; [|apply sends_nothing]. 
    match goal with |- context [foldl (fun pl0 q0 => note (qi_fp q0) ?v pl0) p mine] =>
      destruct (foldl_note qi_fp (fun _ => v) mine p) as (?&?&?&?) end.
    by apply flushes_nothing. }
  set (keep := fun q : QueuedItem => (match qi_hold q with Hold.Batch => take_batch
                                      | Hold.Quiet => take_quiet end) = true).
  assert (Hready : filter keep mine =
            filter (fun q => keep q /\ qi_channel_id q = rc_id r) (fst <$> queue)).
  { unfold mine. apply list_filter_filter. }
  set (ready := filter keep mine) in *.
  destruct (take_ready queue (fun q => keep q /\ qi_channel_id q = rc_id r) Hnd) as [Hperm Hnd'].
  rewrite <-Hready in Hperm, Hnd'. set (queue' := filter _ queue) in *.
  assert (Hsub : forall qd, qd ∈ queue' -> qd ∈ queue) by (intros qd [_ ?]%list_elem_of_filter; done).
  assert (Hline : forall q, q ∈ ready -> qi_channel_id q = rc_id r /\
            (in_quiet_hours (rc_policy r) now = true -> qi_hold q = Hold.Batch)).
  { intros q Hq. rewrite Hready in Hq. apply list_elem_of_filter in Hq as [[Hk Hc] _].
    split; [done|]. intros Hqn. unfold keep, take_quiet in Hk. fold quiet_now in Hqn.
    rewrite Hqn, andb_false_r in Hk. by destruct (qi_hold q). }
  assert (Hrnd : NoDup ready).
  { rewrite Hready. by apply NoDup_filter, NoDup_keys_lines. }
  set (hold := if take_quiet then _ else _).
  destruct (emission policy ledger now r hold queue queue' ready p Hcap Hnd' Hperm Hsub Hline
              Hrnd) as (ogs & Hf & Hs).
  { destruct (due_channel_has_a_line mine _ quiet_now Htake) as (q & Hq & Hk). intros Hnil.
    assert (q ∈ ready) as Hin by by apply list_elem_of_filter.
    rewrite Hnil in Hin. by apply elem_of_nil in Hin. }
  exists ogs. by destruct (is_oncall r).
Qed.

Lemma flushes_trans q p q1 p1 q2 p2 o1 o2 :
  flushes q p q1 p1 o1 -> flushes q1 p1 q2 p2 o2 -> flushes q p q2 p2 (o1 ++ o2).
Proof.
  intros (H1 & H2 & H3 & H4 & H5 & H6 & H7) (K1 & K2 & K3 & K4 & K5 & K6 & K7).
  split_and!; try congruence; [by rewrite K1, H1, <-app_assoc| |auto].
  rewrite fmap_app, concat_app, <-H2, <-K2.
  rewrite (Permutation_app_comm (concat (og_retry <$> o1))), app_assoc. done.
Qed.

Lemma flush_spec recipients policy ledger now (queue : Queue) p :
  NoDup (keys queue) ->
  let out := flush recipients policy ledger now queue p in
  exists ogss, flushes queue p (fst out) (snd out) (concat ogss) /\
               Forall2 (sends policy ledger now) recipients ogss.
Proof.
  unfold flush. revert queue p. induction recipients as [|r rs IH]; intros queue p Hnd.
  - exists []. split; [by apply flushes_nothing|constructor].
  - destruct (flush_one_spec policy ledger now r queue p Hnd) as (ogs & Hf & Hs).
    cbn [foldl]. destruct (flush_one policy ledger now (queue, p) r) as [q1 p1].
    destruct (IH q1 p1) as (ogss & Hf' & Hs'); [apply Hf|].
    exists (ogs :: ogss). split; [|by constructor]. cbn [concat]. by eapply flushes_trans.
Qed.
(** A line is due on its channel: its batch window is over, or quiet hours are. *)
Definition due (policy : GlobalPolicy) (now : DateTime) (r : Recipient) (q : QueuedItem) : Prop :=
  match qi_hold q with
  | Hold.Batch =>
      (if is_oncall r then 0 else secs (batch_window_secs policy)) <= now - qi_queued_at q
  | Hold.Quiet => in_quiet_hours (rc_policy r) now = false
  end.

Lemma flush_one_due policy ledger now r (queue : Queue) p q d :
  NoDup (keys queue) ->
  qi_channel_id q = rc_id r -> due policy now r q -> cap_reached r policy ledger now = false ->
  (q, d) ∉ fst (flush_one policy ledger now (queue, p) r).
Proof.
  intros Hnd Hc Hd Hcap Hleft.
  assert ((q, d) ∈ queue) as Hin.
  { destruct (flush_one_spec policy ledger now r queue p Hnd) as (? & (_ & _ & H & _) & _). by apply H. }
  revert Hleft. unfold flush_one. set (mine := filter _ (fst <$> queue)).
  assert (q ∈ mine) as Hmine.
  { apply list_elem_of_filter. split; [done|]. by apply (list_elem_of_fmap_2 fst _ (q, d)). }
  destruct mine as [|m0 mine0] eqn:Hm; [by apply elem_of_nil in Hmine|].
  rewrite <-Hm in *. clear Hm m0 mine0.
  set (window := if is_oncall r then 0 else _). set (batch_due := existsb _ mine).
  set (take_quiet := existsb _ mine && negb _).
  assert (match qi_hold q with Hold.Batch => batch_due | Hold.Quiet => take_quiet end = true)
    as Htake.
  { unfold due in Hd. destruct (qi_hold q) eqn:E.
    - apply existsb_elem. exists q. split; [done|]. rewrite E, bool_decide_true by done.
      by apply Z.leb_le.
    - unfold take_quiet. rewrite Hd, andb_true_r. apply existsb_elem. exists q. split; [done|].
      by apply bool_decide_true. }
  rewrite Hcap. cbv zeta.
  assert (negb (batch_due || take_quiet) && negb take_quiet = false) as ->.
  { destruct (qi_hold q); rewrite Htake; [done|by rewrite orb_true_r]. }
  assert (forall (k : QueuedItem -> bool) (qs : Queue), k q = true ->
            (q, d) ∉ filter (fun qd => qi_key qd.1 ∉
               (list_to_set (qi_key <$> filter (fun q => k q = true) mine) : gset (Z * string))) qs) as Hout.
  { intros k qs Hk [Hn _]%list_elem_of_filter. apply Hn, elem_of_list_to_set.
    apply list_elem_of_fmap. exists q. split; [done|]. apply list_elem_of_filter. auto. }
  destruct (is_oncall r); simpl; apply (Hout (fun q => match qi_hold q with
    Hold.Batch => batch_due || take_quiet | Hold.Quiet => take_quiet end));
    destruct (qi_hold q); by rewrite Htake.
Qed.

Lemma flush_subset recipients policy ledger now (queue : Queue) p qd :
  NoDup (keys queue) -> qd ∈ fst (flush recipients policy ledger now queue p) -> qd ∈ queue.
Proof.
  intros Hnd. destruct (flush_spec recipients policy ledger now queue p Hnd) as (? & (_&_&H&_) & _).
  apply H.
Qed.

Lemma flush_due recipients policy ledger now (queue : Queue) p r q d :
  NoDup (keys queue) -> r ∈ recipients -> qi_channel_id q = rc_id r -> due policy now r q ->
  cap_reached r policy ledger now = false -> (q, d) ∉ fst (flush recipients policy ledger now queue p).
Proof.
  revert queue p. induction recipients as [|r' rs IH]; intros queue p Hnd Hr Hc Hd Hcap;
    [by apply elem_of_nil in Hr|].
  destruct (flush_one_spec policy ledger now r' queue p Hnd) as (ogs & (_ & _ & _ & Hnd' & _) & _).
  pose proof (flush_one_due policy ledger now r queue p q d Hnd Hc Hd Hcap) as Hone.
  unfold flush in *. cbn [foldl].
  apply elem_of_cons in Hr as [->|Hr].
  - destruct (flush_one policy ledger now (queue, p) r') as [q1 p1]. simpl in *.
    intros Hin. apply Hone. by apply (flush_subset rs policy ledger now q1 p1).
  - destruct (flush_one policy ledger now (queue, p) r') as [q1 p1]. simpl in *. by apply IH.
Qed.
End Flush.

(** ** Facts: the loop over the lines of the cycle *)

Lemma purge_fingerprint_queue queue fp qd :
  qd ∈ fst (purge_fingerprint queue fp) <-> qd ∈ queue /\ qi_fp qd.1 <> fp.
Proof. unfold purge_fingerprint. simpl. rewrite list_elem_of_filter. tauto. Qed.

Section Work.
Context {C : Calendar} (groups : list AlertGroup) (recipients : list Recipient)
  (policy : GlobalPolicy) (ledger : Ledger) (now : DateTime).

Notation active := (active_of recipients).
Notation routes' := (routes groups recipients policy ledger now).
Notation line_of' := (line_of groups recipients policy ledger now).
Notation routed' := (routed groups recipients policy ledger now).

(** Two plans that only differ in what was noted, handled, counted and held, the
    second with more rows to delete. *)
Definition frame (p p' : Plan) : Prop :=
  pl_outgoing p' = pl_outgoing p /\ pl_announced p' = pl_announced p /\
  pl_dequeue p ⊆ pl_dequeue p'.

Lemma detect_flapping_spec item w :
  let out := detect_flapping policy item now w in
  gi_fingerprint (snd out) = gi_fingerprint item /\ presents policy item (snd out) /\
  (wk_queue (fst out) = wk_queue w \/
   wk_queue (fst out) = fst (purge_fingerprint (wk_queue w) (gi_fingerprint item))) /\
  frame (wk_plan w) (wk_plan (fst out)) /\
  pl_handled (wk_plan (fst out)) = pl_handled (wk_plan w) /\
  (forall fp, fp <> gi_fingerprint item -> wk_flap_holds (fst out) !! fp = wk_flap_holds w !! fp).
Proof.
  unfold detect_flapping, frame. destruct (_ && _) eqn:E; simpl; [|by split_and!; auto; left].
  bools. split_and!; try done; [|by right| |].
  - right. split_and!; [done|done|]. by eexists.
  - set_solver.
  - intros fp Hfp. by rewrite lookup_insert_ne.
Qed.

(** A relay is routed as any line, once it is due. *)
Lemma handoff_routes g item queue p :
  g ∈ groups -> item ∈ ag_items g -> gi_reason item = NotifyReason.Unacked ->
  let out := handoff active policy g item ledger now queue p in
  (fst out = queue /\ frame p (snd out)) \/
  exists r, out = route r g item ledger now queue p /\ (refused r g item = None -> routed' r g item).
Proof.
  intros Hg Hi Hu. unfold handoff. destruct (escalation policy) as [[after ch]|] eqn:He; [|by left].
  destruct (min_at _) as [first|] eqn:Hmin; [|by left].
  destruct (now <? first + after) eqn:Hdue; [by left|].
  destruct (find_map _ active) as [r|] eqn:Hr; [|by left]. right. exists r.
  apply find_map_Some in Hr as (l1 & r' & l2 & Hact & Hr' & _).
  destruct (bool_decide (rc_id r' = ch)) eqn:Hch; [|done]. injection Hr' as ->. bools. subst ch.
  split; [done|]. intros Href. split_and!; [done| | |done|].
  - exists item. split; [done|by left].
  - rewrite Hact. apply elem_of_app. right. left.
  - rewrite bool_decide_true by done. exists after, first. split_and!; [done| |lia].
    apply min_at_spec in Hmin as [Hin _].
    apply list_elem_of_fmap in Hin as (e & -> & [(? & ? & ?) ?]%list_elem_of_filter).
    by exists e.
Qed.

Lemma handoff_spec g item queue p :
  g ∈ groups -> item ∈ ag_items g -> gi_reason item = NotifyReason.Unacked ->
  let out := handoff active policy g item ledger now queue p in
  (fst out = queue /\ frame p (snd out)) \/
  exists r, routes' r item queue p (fst out) (snd out).
Proof.
  intros Hg Hi Hu. destruct (handoff_routes g item queue p Hg Hi Hu) as [H|(r & E & Hr)]; [by left|right].
  exists r. rewrite E. by apply route_spec.
Qed.

(** What holds of the queue and the plan after a line is planned: [P] until the line
    is routed, [Q] from then on. *)
Lemma plan_item_ind (P Q : Queue -> Plan -> Prop) g w item :
  g ∈ groups -> item ∈ ag_items g ->
  P (wk_queue w) (wk_plan w) ->
  (forall q p, P q p -> P (fst (purge_fingerprint q (gi_fingerprint item))) p) ->
  (forall q p p', P q p -> frame p p' -> P q p') ->
  (forall q p, P q p -> Q q p) ->
  (forall q p p', Q q p -> frame p p' -> Q q p') ->
  (forall r item' q p q' p', gi_fingerprint item' = gi_fingerprint item -> Q q p ->
     routes' r item' q p q' p' -> Q q' p') ->
  let w' := plan_item active policy ledger now g w item in Q (wk_queue w') (wk_plan w').
Proof.
  intros Hg Hi HP Hpurge Hplan HPQ HplanQ Hroute. unfold plan_item.
  set (w1 := count_change item now _).
  assert (HP1 : P (wk_queue w1) (wk_plan w1)).
  { unfold w1, count_change. destruct (counts _); simpl; by eapply Hplan. }
  destruct (wk_flap_holds w1 !! gi_fingerprint item) as [until|].
  { simpl. apply HPQ. eapply Hplan; [apply Hpurge, HP1|]. split_and!; simpl; set_solver. }
  destruct (detect_flapping_spec item w1) as (Hfp & Hpres & Hq & Hfr & _).
  destruct (detect_flapping policy item now w1) as [w2 item2]. simpl in *.
  assert (HP2 : Q (wk_queue w2) (wk_plan w2)).
  { apply HPQ. eapply Hplan; [|exact Hfr].
    destruct Hq as [->| ->]; [done|by apply Hpurge]. }
  set (targets := filter _ active).
  destruct targets as [|t0 ts] eqn:Ht; [done|]. rewrite <-Ht. clear t0 ts Ht.
  case_bool_decide as Hu; simpl.
  - assert (item2 = item) as ->.
    { destruct Hpres as [->|(_ & _ & n & ->)]; [done|]. by simpl in Hu. }
    destruct (handoff_spec g item (wk_queue w2) (wk_plan w2) Hg Hi Hu) as [(E1 & E2)|(r & Hr)].
    + rewrite E1. by eapply HplanQ.
    + by eapply Hroute.
  - apply (foldl_invariant (fun qp => Q (fst qp) (snd qp))); [done|].
    intros [q p] r [Hchan Hact]%list_elem_of_filter HPqp.
    eapply Hroute; [exact Hfp|exact HPqp|]. apply route_spec. intros Href.
    split_and!; [done| |done|done|by rewrite bool_decide_false].
    by exists item.
Qed.

(** The cycle read line by line. *)
Definition lines_of (gs : list AlertGroup) : list (AlertGroup * GroupItem) :=
  gs ≫= fun g => pair g <$> ag_items g.

Lemma elem_of_lines gs g i : (g, i) ∈ lines_of gs <-> g ∈ gs /\ i ∈ ag_items g.
Proof.
  unfold lines_of. rewrite list_elem_of_bind. setoid_rewrite list_elem_of_fmap. naive_solver.
Qed.

Lemma plan_groups_lines gs w :
  foldl (plan_group active policy ledger now) w gs =
  foldl (fun w gi => plan_item active policy ledger now gi.1 w gi.2) w (lines_of gs).
Proof.
  revert w. induction gs as [|g gs IH]; intros w; [done|].
  change (lines_of (g :: gs)) with ((pair g <$> ag_items g) ++ lines_of gs).
  rewrite foldl_app. simpl. rewrite IH. f_equal. unfold plan_group.
  generalize (ag_items g). intros items. revert w. induction items as [|i items IHi]; intros w;
    simpl; [done|apply IHi].
Qed.

Definition work_ok (queue : Queue) (p : Plan) : Prop :=
  (forall q d, (q, d) ∈ queue -> line_of' q d) /\ NoDup (keys queue) /\ pl_outgoing p = [].

Lemma keys_insert queue pos q d q' d' :
  queue !! pos = Some (q, d) -> qi_key q' = qi_key q -> keys (<[pos := (q', d')]> queue) = keys queue.
Proof.
  intros Hq Hk. unfold keys. rewrite list_fmap_insert. simpl. rewrite Hk.
  apply list_insert_id. by rewrite list_lookup_fmap, Hq.
Qed.

Lemma routes_ok r item q p q' p' : work_ok q p -> routes' r item q p q' p' -> work_ok q' p'.
Proof.
  intros (Hl & Hnd & Ho). destruct 1 as [q p v|q p pos l d l' Hq Hk Hk' Hid Hline|q p l' Hn Hk Hline].
  - by split_and!.
  - split_and!; [| |done].
    + intros x dx [j Hj]%list_elem_of_lookup.
      apply list_lookup_insert_Some in Hj as [(_ & [= <- <-] & _)|[_ Hj]].
      * apply Hline, Hl. by eapply list_elem_of_lookup_2.
      * apply Hl. by eapply list_elem_of_lookup_2.
    + by erewrite keys_insert.
  - split_and!; [| |done].
    + intros x dx [Hx|[= -> ->]%list_elem_of_singleton]%elem_of_app; [by apply Hl|done].
    + unfold keys. rewrite fmap_app. apply NoDup_snoc; [|done]. simpl. by rewrite Hk.
Qed.

Lemma work_ok_all :
  NoDup (qi_key <$> ld_queue ledger) ->
  let w := foldl (plan_group active policy ledger now) (start ledger now) groups in
  work_ok (wk_queue w) (wk_plan w).
Proof.
  intros Hnd. rewrite plan_groups_lines.
  apply (foldl_invariant (fun w => work_ok (wk_queue w) (wk_plan w))).
  - split_and!; simpl; [| |done].
    + intros q d (q' & [= -> ->] & ?)%list_elem_of_fmap. by apply line_stored.
    + unfold keys. by rewrite <-list_fmap_compose.
  - intros w [g i] [Hg Hi]%elem_of_lines Hok. simpl.
    assert (forall q p p', work_ok q p -> frame p p' -> work_ok q p') as Hframe.
    { intros q p p' (Hl & Hn & Ho) [E _]. split_and!; [done..|]. by rewrite E. }
    apply (plan_item_ind work_ok work_ok); [done|done|done| |done|done|done|].
    + intros q p (Hl & Hn & Ho). split_and!; [|by eapply sublist_NoDup, fmap_sublist, sublist_filter|done].
      intros x d [Hx _]%purge_fingerprint_queue. by apply Hl.
    + intros r item' q p q' p' _. apply routes_ok.
Qed.
End Work.

(** ** Facts: the plan *)

Section Planned.
Context {C : Calendar} (groups : list AlertGroup) (recipients : list Recipient)
  (policy : GlobalPolicy) (ledger : Ledger) (now : DateTime).

Definition the_plan : Plan := plan groups recipients policy ledger now.

Hypothesis ledger_keys : NoDup (qi_key <$> ld_queue ledger).

(** The lines of a cycle once it is over: sent, or waiting and touched. *)
Definition lines : list QueuedItem :=
  pl_enqueue the_plan ++ concat (og_retry <$> pl_outgoing the_plan).

Lemma the_plan_spec :
  let w := foldl (plan_group (active_of recipients) policy ledger now) (start ledger now) groups in
  exists queue ogss,
    (fst <$> queue) ++ concat (og_retry <$> concat ogss) ≡ₚ fst <$> wk_queue w /\
    (forall qd, qd ∈ queue -> qd ∈ wk_queue w) /\ NoDup (keys queue) /\
    NoDup (keys (wk_queue w)) /\
    pl_enqueue the_plan = fst <$> filter (fun qd => qd.2 = true) queue /\
    pl_outgoing the_plan = concat ogss /\
    pl_announced the_plan = pl_announced (wk_plan w) /\
    pl_handled the_plan = pl_handled (wk_plan w) /\
    pl_dequeue the_plan = pl_dequeue (wk_plan w) /\
    (forall q d, (q, d) ∈ wk_queue w -> line_of groups recipients policy ledger now q d) /\
    Forall2 (sends policy ledger now) (active_of recipients) ogss.
Proof using ledger_keys.
  intros w. destruct (work_ok_all groups recipients policy ledger now ledger_keys) as (Hl & Hnd & Ho).
  fold w in Hl, Hnd, Ho.
  destruct (flush_spec (active_of recipients) policy ledger now (wk_queue w) (wk_plan w) Hnd)
    as (ogss & (H1 & H2 & H3 & H4 & H5 & H6 & H7) & Hs).
  assert (the_plan = let out := flush (active_of recipients) policy ledger now (wk_queue w) (wk_plan w) in
            set_enqueue (fst <$> filter (fun qd => qd.2 = true) (fst out)) (snd out)) as ->.
  { unfold the_plan, plan, plan_queue. fold w. by destruct (flush _ _ _ _ _ _). }
  exists (fst (flush (active_of recipients) policy ledger now (wk_queue w) (wk_plan w))), ogss.
  rewrite Ho in H1. by split_and!.
Qed.

(** A line that is sent or kept is in the queue the groups left. *)
Lemma lines_in_work q :
  q ∈ lines ->
  exists d, (q, d) ∈ wk_queue (foldl (plan_group (active_of recipients) policy ledger now)
                                 (start ledger now) groups).
Proof using ledger_keys.
  destruct the_plan_spec as (queue & ogss & Hp & Hsub & _ & _ & He & Ho & _).
  unfold lines. rewrite He, Ho. intros Hq.
  assert (q ∈ (fst <$> queue) ++ concat (og_retry <$> concat ogss)) as Hin.
  { rewrite elem_of_app in Hq |- *. destruct Hq as [Hq|]; [left|by right].
    apply list_elem_of_fmap in Hq as (x & -> & [_ Hx]%list_elem_of_filter).
    by apply list_elem_of_fmap_2. }
  rewrite Hp in Hin. apply list_elem_of_fmap in Hin as ([q' d] & -> & Hin). by exists d.
Qed.

Lemma lines_are_lines q : q ∈ lines -> exists d, line_of groups recipients policy ledger now q d.
Proof using ledger_keys.
  intros [d Hq]%lines_in_work. exists d.
  destruct the_plan_spec as (? & ? & _ & _ & _ & _ & _ & _ & _ & _ & _ & Hl & _). by apply Hl.
Qed.

Lemma lines_keys : NoDup (qi_key <$> lines).
Proof using ledger_keys.
  destruct the_plan_spec as (queue & ogss & Hp & _ & _ & Hnd & He & Ho & _).
  unfold lines. rewrite He, Ho.
  assert (NoDup (qi_key <$> (fst <$> queue) ++ concat (og_retry <$> concat ogss))) as H.
  { rewrite Hp, <-list_fmap_compose. exact Hnd. }
  eapply sublist_NoDup; [exact H|]. apply (fmap_sublist qi_key), sublist_app; [|done].
  apply (fmap_sublist fst), sublist_filter.
Qed.

Lemma outgoing_sent_by og :
  og ∈ pl_outgoing the_plan ->
  exists r ogs, r ∈ active_of recipients /\ sends policy ledger now r ogs /\ og ∈ ogs.
Proof using ledger_keys.
  destruct the_plan_spec as (queue & ogss & _ & _ & _ & _ & _ & -> & _ & _ & _ & _ & Hs).
  intros Hog. apply list_elem_of_In, in_concat in Hog as (ogs & Hin & Hog).
  apply list_elem_of_In, list_elem_of_lookup in Hin as [i Hi].
  destruct (Forall2_lookup_r _ _ _ _ _ Hs Hi) as (r & Hr & Hsend).
  exists r, ogs. split_and!; [by eapply list_elem_of_lookup_2|done|by apply list_elem_of_In].
Qed.

Lemma outgoing_lines og q : og ∈ pl_outgoing the_plan -> q ∈ og_retry og -> q ∈ lines.
Proof using Type.
  intros Ho Hq. unfold lines. rewrite elem_of_app. right.
  apply list_elem_of_In, in_concat. exists (og_retry og). rewrite <-!list_elem_of_In.
  split; [by apply list_elem_of_fmap_2|done].
Qed.
End Planned.

(** ** Facts: what a resolution follows *)

Section Resolutions.
Context {C : Calendar} (groups : list AlertGroup) (recipients : list Recipient)
  (policy : GlobalPolicy) (ledger : Ledger) (now : DateTime).

Notation active := (active_of recipients).
Notation routed' := (routed groups recipients policy ledger now).

(** The channel had a line of that alert waiting, or the last thing its log says of the alert
    is a firing, or it takes in this very cycle a line that is not the resolution. *)
Definition told (channel : Z) (fp : string) : Prop :=
  (exists q, q ∈ ld_queue ledger /\ qi_key q = (channel, fp)) \/
  (exists e, max_by_at (filter (fun e => le_channel_id e = channel /\ le_fingerprint e = fp)
                          (ld_log ledger)) = Some e /\
             NotifyReason.is_firing_like (le_reason e) = true) \/
  (exists r g i, i ∈ ag_items g /\ routed' r g i /\ rc_id r = channel /\ gi_fingerprint i = fp /\
     gi_reason i <> NotifyReason.Resolved /\
     refused_by_history r i (last_sent ledger r i) now = None).

(** The lines of a cycle follow an announcement, save the notices of a flapping alert, which
    the rest of the cycle holds. *)
Definition answered (holds : gmap string DateTime) (queue : Queue) : Prop :=
  forall qd, qd ∈ queue ->
    told (qi_channel_id qd.1) (qi_fp qd.1) \/
    (is_Some (holds !! qi_fp qd.1) /\ gi_reason (qi_item qd.1) = NotifyReason.Flapping).

Definition as_presented (holds : gmap string DateTime) (g : AlertGroup) (item : GroupItem) : Prop :=
  (is_Some (holds !! gi_fingerprint item) /\ gi_reason item = NotifyReason.Flapping) \/
  (holds !! gi_fingerprint item = None /\ item ∈ ag_items g).

Lemma answered_insert holds (queue : Queue) pos q d q' :
  answered holds queue -> queue !! pos = Some (q, d) ->
  ((told (qi_channel_id q) (qi_fp q) \/
    (is_Some (holds !! qi_fp q) /\ gi_reason (qi_item q) = NotifyReason.Flapping)) ->
   told (qi_channel_id q') (qi_fp q') \/
   (is_Some (holds !! qi_fp q') /\ gi_reason (qi_item q') = NotifyReason.Flapping)) ->
  answered holds (<[pos := (q', true)]> queue).
Proof.
  intros Ha Hq Hq' x [j Hj]%list_elem_of_lookup.
  apply list_lookup_insert_Some in Hj as [(_ & <- & _)|[_ Hj]].
  - apply Hq', (Ha (q, d)). by eapply list_elem_of_lookup_2.
  - apply Ha. by eapply list_elem_of_lookup_2.
Qed.

Lemma route_answered holds r g item queue p :
  answered holds queue -> (refused r g item = None -> routed' r g item) ->
  as_presented holds g item -> answered holds (fst (route r g item ledger now queue p)).
Proof.
  intros Ha Hrouted Hpres. unfold route. destruct (refused r g item) as [v|]; [done|].
  specialize (Hrouted eq_refl). change (max_by_at _) with (last_sent ledger r item).
  set (ex := position _ queue). pose proof (found_line r item queue) as Hex. cbv zeta in Hex. fold ex in Hex.
  assert (gi_reason item <> NotifyReason.Resolved ->
          refused_by_history r item (last_sent ledger r item) now = None ->
          told (rc_id r) (gi_fingerprint item) \/
          (is_Some (holds !! gi_fingerprint item) /\ gi_reason item = NotifyReason.Flapping)) as Htold.
  { intros Hne Hh. destruct Hpres as [[Hs Hf]|[_ Hi]]; [by right|]. left. right. right. by exists r, g, item. }
  destruct ex as [pos|]; simpl.
  - destruct Hex as (q & d & Hq & Hk). rewrite Hq. simpl. unfold qi_key in Hk. injection Hk as Hk1 Hk2.
    case_bool_decide as Hres.
    + eapply answered_insert; [done..|]. unfold qi_fp at 3 4. simpl. rewrite Hk1, Hk2. intros [Ht|[Hs Hf]]; [by left|].
      exfalso. destruct Hpres as [[_ Hf']|[Hn _]]; [congruence|]. rewrite Hn in Hs. by destruct Hs.
    + destruct (refused_by_history _ _ _ _); [done|]. eapply answered_insert; [done..|]. intros _.
      destruct (Htold Hres eq_refl) as [Ht|[Hs Hf]]; [left|right].
      * unfold qi_fp. simpl. rewrite Hk1. by destruct (_ && _).
      * unfold qi_fp. simpl. rewrite Hf, andb_false_r. by split.
  - assert (refused_by_history r item (last_sent ledger r item) now = None ->
            told (rc_id r) (gi_fingerprint item) \/
            (is_Some (holds !! gi_fingerprint item) /\ gi_reason item = NotifyReason.Flapping)) as Hnew.
    { intros Hh. destruct (decide (gi_reason item = NotifyReason.Resolved)) as [Hres|Hne]; [|by apply Htold].
      left. right. left. unfold refused_by_history in Hh. rewrite bool_decide_true in Hh by done.
      unfold last_sent in Hh. destruct (max_by_at _) as [e|]; [|done]. simpl in Hh. exists e. split; [done|].
      by destruct (NotifyReason.is_firing_like _). }
    destruct (bool_decide _); (destruct (refused_by_history _ _ _ _); [done|]);
      intros x [Hx| ->%list_elem_of_singleton]%elem_of_app; [by apply Ha|by apply Hnew|by apply Ha|by apply Hnew].
Qed.

Lemma answered_more holds holds' (queue queue' : Queue) :
  answered holds queue -> (forall qd, qd ∈ queue' -> qd ∈ queue) ->
  (forall fp, is_Some (holds !! fp) -> is_Some (holds' !! fp)) -> answered holds' queue'.
Proof. intros Ha Hq Hh qd [Ht|[Hs Hf]]%Hq%Ha; [by left|right; auto]. Qed.

(** A line is told as the cycle has it, or as a notice of flapping, and then held. *)
Lemma detect_answered g item w :
  item ∈ ag_items g -> wk_flap_holds w !! gi_fingerprint item = None ->
  answered (wk_flap_holds w) (wk_queue w) ->
  let out := detect_flapping policy item now w in
  answered (wk_flap_holds (fst out)) (wk_queue (fst out)) /\ as_presented (wk_flap_holds (fst out)) g (snd out).
Proof.
  intros Hi Hn Ha. unfold detect_flapping. destruct (_ && _); simpl; [|by split; [|right]]. split.
  - eapply answered_more; [exact Ha| |].
    + intros qd Hqd. by apply purge_fingerprint_queue in Hqd as [? _].
    + intros fp Hs. destruct (decide (fp = gi_fingerprint item)) as [->|]; [by rewrite lookup_insert_eq|].
      by rewrite lookup_insert_ne.
  - left. simpl. by rewrite lookup_insert_eq.
Qed.

Lemma plan_item_answered g w item :
  g ∈ groups -> item ∈ ag_items g -> answered (wk_flap_holds w) (wk_queue w) ->
  let w' := plan_item active policy ledger now g w item in answered (wk_flap_holds w') (wk_queue w').
Proof.
  intros Hg Hi Ha. unfold plan_item. set (w1 := count_change item now _).
  assert (wk_queue w1 = wk_queue w /\ wk_flap_holds w1 = wk_flap_holds w) as [Eq Eh].
  { unfold w1, count_change. by destruct (counts _). }
  rewrite <-Eq, <-Eh in Ha. clearbody w1. clear Eq Eh w.
  destruct (wk_flap_holds w1 !! gi_fingerprint item) as [until|] eqn:Eh.
  { simpl. eapply answered_more; [exact Ha| |done]. intros qd Hqd. by apply purge_fingerprint_queue in Hqd as [? _]. }
  destruct (detect_answered g item w1 Hi Eh Ha) as [Ha2 Hp2].
  pose proof (detect_flapping_spec policy now item w1) as (_ & Hpres & _).
  destruct (detect_flapping policy item now w1) as [w2 item2]. simpl in *. clear w1 Ha Eh.
  set (targets := filter _ active). destruct targets as [|t0 ts] eqn:Et; [done|]. rewrite <-Et. clear t0 ts Et.
  case_bool_decide as Hu; simpl.
  - assert (item2 = item) as ->. { destruct Hpres as [->|(_ & _ & n & ->)]; [done|]. by simpl in Hu. }
    destruct (handoff_routes groups recipients policy ledger now g item (wk_queue w2) (wk_plan w2) Hg Hi Hu)
      as [[E _]|(r & E & Hr)]; rewrite E; [done|]. by apply route_answered.
  - apply (foldl_invariant (fun qp : Queue * Plan => answered (wk_flap_holds w2) (fst qp))); [done|].
    intros [q p] r [Hchan Hact]%list_elem_of_filter Hqp. apply route_answered; [done| |done]. intros Href.
    split_and!; [done|by exists item|done|done|by rewrite bool_decide_false].
Qed.

(** Every line of a cycle that is not a notice of flapping follows an announcement. *)
Lemma lines_answered q :
  NoDup (qi_key <$> ld_queue ledger) -> q ∈ lines groups recipients policy ledger now ->
  told (qi_channel_id q) (qi_fp q) \/ gi_reason (qi_item q) = NotifyReason.Flapping.
Proof.
  intros Hk [d Hq]%lines_in_work; [|done].
  assert (let w := foldl (plan_group active policy ledger now) (start ledger now) groups in
          answered (wk_flap_holds w) (wk_queue w)) as Ha.
  { rewrite plan_groups_lines. apply (foldl_invariant (fun w => answered (wk_flap_holds w) (wk_queue w))).
    - intros qd (q' & -> & Hin)%list_elem_of_fmap. left. left. by exists q'.
    - intros w [g i] [Hg Hi]%elem_of_lines Ha. by apply plan_item_answered. }
  destruct (Ha _ Hq) as [Ht|[_ Hf]]; [by left|by right].
Qed.
End Resolutions.

Lemma outgoing_collects now (items : list QueuedItem) m0 :
  (forall id g, m0 !! id = Some g -> ag_target_id g = id) ->
  concat (ag_items <$> btree_values (option_cmp Z.compare) (foldl (outgoing_step now) m0 items)) ≡ₚ
  concat (ag_items <$> btree_values (option_cmp Z.compare) m0) ++
  (qi_item <$> filter (fun q => qi_resolved_meanwhile q = false) items).
Proof.
  revert m0. induction items as [|q items IH]; intros m0 Hm; simpl; [by rewrite app_nil_r|].
  rewrite filter_cons. unfold outgoing_step at 2.
  destruct (qi_resolved_meanwhile q) eqn:E; simpl; [by apply IH|].
  rewrite IH.
  - rewrite (btree_values_collect (option_cmp Z.compare) ag_items m0 (qi_target_id q)
               (default {| ag_target_id := qi_target_id q; ag_target_name := qi_target_name q;
                           ag_target_kind := ""; ag_target_tags := ∅; ag_severity := Severity.Info;
                           ag_items := []; ag_channels := []; ag_at := now |}
                        (m0 !! qi_target_id q)) _ [qi_item q]); [by rewrite <-app_assoc|done|].
    destruct (m0 !! qi_target_id q); [by left|by right].
  - intros id g. rewrite lookup_insert_Some. intros [[<- <-]|[_ ?]]; [|by apply Hm]. simpl.
    destruct (m0 !! qi_target_id q) eqn:Hq; [by apply Hm|done].
Qed.

(** ** Properties *)

(** A digest drops nothing: the lines its groups show and those it mentions as
    resolved meanwhile are, up to order, exactly the lines of the queue it was made
    of; and the rows to delete, the lines to put back on failure and the reasons to
    record are those of these lines, in order. *)
Theorem digest_carries_every_line channel items hold now :
  let og := outgoing channel items hold now in
  concat (ag_items <$> dg_groups (og_digest og)) ++ (snd <$> dg_resolved_meanwhile (og_digest og))
    ≡ₚ qi_item <$> items /\
  og_queue_ids og = omap qi_id items /\ og_retry og = items /\
  og_sent og = (fun q => (qi_fp q, gi_reason (qi_item q))) <$> items.
Proof.
  intros og. split_and!; [|done..]. simpl. rewrite sort_by_perm, <-!list_fmap_compose.
  assert (forall gs, concat (ag_items ∘ finish_group ∅ <$> gs) ≡ₚ concat (ag_items <$> gs)) as ->.
  { intros gs. induction gs as [|g gs IH]; simpl; [done|]. by rewrite IH, sort_by_perm. }
  rewrite outgoing_collects by done. change (snd ∘ _) with qi_item.
  assert (concat (ag_items <$> btree_values (option_cmp Z.compare) ∅) = []) as -> by done.
  simpl. rewrite <-fmap_app. apply fmap_Permutation.
  induction items as [|q items IH]; [done|]. rewrite !filter_cons.
  destruct (qi_resolved_meanwhile q) eqn:E.
  - rewrite decide_False, decide_True by congruence. by rewrite <-Permutation_middle, IH.
  - rewrite decide_True, decide_False by congruence. simpl. by rewrite IH.
Qed.

(** Each alert is at most once on its way to a channel: when the stored queue has
    one line per channel and fingerprint, so has everything the cycle sends and writes
    back to the queue, taken together; a line that leaves is not also kept waiting, and
    each message holds lines of its own channel only. *)
Theorem one_line_per_channel_and_alert {C : Calendar} groups recipients policy ledger now :
  NoDup (qi_key <$> ld_queue ledger) ->
  let p := plan groups recipients policy ledger now in
  NoDup (qi_key <$> pl_enqueue p ++ concat (og_retry <$> pl_outgoing p)) /\
  (forall og q, og ∈ pl_outgoing p -> q ∈ og_retry og -> qi_channel_id q = og_channel_id og).
Proof.
  intros Hk p. split; [by apply lines_keys|]. intros og q Hog Hq.
  destruct (outgoing_sent_by _ _ _ _ _ Hk og Hog) as (r & ogs & _ & [Hs _] & Hin).
  destruct (Hs og Hin) as (-> & _ & _ & _ & Hl). by apply Hl.
Qed.

(** What a cycle sends to one channel is part of what flushing that channel sends. *)
Lemma sent_to_one {C : Calendar} policy ledger now rs (ogss : list (list Outgoing)) r :
  NoDup (rc_id <$> rs) -> (forall r', r' ∈ rs -> rc_id r' = rc_id r -> r' = r) ->
  Forall2 (sends policy ledger now) rs ogss ->
  let mine := filter (fun og => og_channel_id og = rc_id r) (concat ogss) in
  mine = [] \/ exists ogs, sends policy ledger now r ogs /\ mine `sublist_of` ogs.
Proof.
  intros Hids Hact Hs. induction Hs as [|r' ogs rs ogss Hsend Hs IH]; [by left|].
  rewrite fmap_cons in Hids. apply NoDup_cons in Hids as [Hnin Hids].
  cbn [concat]. rewrite filter_app. destruct (decide (rc_id r' = rc_id r)) as [Heq|Hne].
  - right. assert (r' = r) as -> by (apply Hact; [left|done]).
    assert (filter (fun og => og_channel_id og = rc_id r) (concat ogss) = []) as ->.
    { apply filter_none. intros og (ogs' & Hin & Hog)%elem_of_concat Hch.
      apply list_elem_of_lookup in Hin as [i Hi].
      destruct (Forall2_lookup_r _ _ _ _ _ Hs Hi) as (r'' & Hr'' & [Hsend' _]).
      destruct (Hsend' og Hog) as [Hch' _].
      apply Hnin, list_elem_of_fmap. exists r''. split; [congruence|].
      by eapply list_elem_of_lookup_2. }
    rewrite app_nil_r. exists ogs. split; [done|apply sublist_filter].
  - assert (filter (fun og => og_channel_id og = rc_id r) ogs = []) as ->.
    { apply filter_none. intros og Hog Hch. destruct Hsend as [Hsend _].
      destruct (Hsend og Hog) as [Hch' _]. congruence. }
    apply IH; [done|]. intros r'' Hin. apply Hact. by right.
Qed.

Lemma same_channel (rs : list Recipient) r r' :
  NoDup (rc_id <$> rs) -> r ∈ rs -> r' ∈ rs -> rc_id r' = rc_id r -> r' = r.
Proof.
  intros Hids Hr Hr' Heq. apply list_elem_of_lookup in Hr as [i Hi], Hr' as [j Hj].
  rewrite NoDup_alt in Hids.
  assert (i = j) as -> by (apply (Hids i j (rc_id r)); rewrite list_lookup_fmap;
    [by rewrite Hi|rewrite Hj; simpl; by rewrite Heq]). congruence.
Qed.

(** C18. The hourly cap holds on every channel that is not an on-call one: the messages
    of the last hour and those of this cycle together never exceed it, and a cycle sends
    such a channel at most one message; a channel, whatever its kind, that has reached
    its cap gets nothing. *)
Theorem hourly_cap_is_respected {C : Calendar} groups recipients policy ledger now r :
  NoDup (qi_key <$> ld_queue ledger) -> NoDup (rc_id <$> recipients) -> r ∈ recipients ->
  let p := plan groups recipients policy ledger now in
  let mine := filter (fun og => og_channel_id og = rc_id r) (pl_outgoing p) in
  let sent := filter (fun m => m.1 = rc_id r /\ now - td_seconds LEDGER_HOUR_SECS < m.2)
                (ld_messages ledger) in
  (0 < max_per_hour policy -> max_per_hour policy <= Z.of_nat (length sent) -> mine = []) /\
  (is_oncall r = false ->
     (length mine <= 1)%nat /\
     (0 < max_per_hour policy -> mine = [] \/
        Z.of_nat (length sent) + Z.of_nat (length mine) <= max_per_hour policy)).
Proof.
  intros Hk Hids Hr p mine sent.
  destruct (the_plan_spec groups recipients policy ledger now Hk)
    as (queue & ogss & _ & _ & _ & _ & _ & Ho & _ & _ & _ & _ & Hs).
  fold (the_plan groups recipients policy ledger now) in p.
  assert (Hmine : mine = [] \/ exists ogs, sends policy ledger now r ogs /\
            mine `sublist_of` ogs).
  { unfold mine, p. rewrite Ho. apply (sent_to_one policy ledger now (active_of recipients)); [| |done].
    - eapply sublist_NoDup; [exact Hids|]. apply (fmap_sublist rc_id), sublist_filter.
    - intros r' [_ Hr']%list_elem_of_filter. by apply (same_channel recipients). }
  destruct Hmine as [->|(ogs & [Hsend Hone] & Hsub)]; [by split; [|intros _; split; [simpl; lia|by left]]|].
  assert (Hcap : mine <> [] -> cap_reached r policy ledger now = false).
  { destruct mine as [|og l]; [done|]. intros _. apply (Hsend og).
    eapply elem_of_sublist; [left|exact Hsub]. }
  assert (Hlt : 0 < max_per_hour policy -> mine <> [] -> Z.of_nat (length sent) < max_per_hour policy).
  { intros Hpos Hne. specialize (Hcap Hne). unfold cap_reached in Hcap. fold sent in Hcap.
    apply andb_false_iff in Hcap as [Hc|Hc]; bools; lia. }
  apply sublist_length in Hsub. split.
  - intros Hpos Hle. destruct mine as [|og l]; [done|]. specialize (Hlt Hpos ltac:(done)). lia.
  - intros Hon. specialize (Hone Hon). split; [lia|]. intros Hpos.
    destruct mine as [|og l]; [by left|right]. specialize (Hlt Hpos ltac:(done)). lia.
Qed.

(** C15. Nobody reads "back to normal" about a problem the channel never carried: every
    resolution line that is sent or kept is about an alert of which the same channel
    had a line waiting, or of which the last line in its log is a firing, or of which this
    very cycle carries another line, not a resolution, that passes the filters and the
    history of this channel; and unless the line was already stored as it is, the channel
    is one that announces resolutions. *)
Theorem resolutions_follow_an_announcement {C : Calendar} groups recipients policy ledger now q :
  NoDup (qi_key <$> ld_queue ledger) ->
  q ∈ lines groups recipients policy ledger now ->
  gi_reason (qi_item q) = NotifyReason.Resolved ->
  told groups recipients policy ledger now (qi_channel_id q) (qi_fp q) /\
  (q ∈ ld_queue ledger \/
   exists r, r ∈ recipients /\ rc_id r = qi_channel_id q /\ notify_resolved (rc_policy r) = true).
Proof.
  intros Hk Hq Hres. destruct (lines_are_lines _ _ _ _ _ Hk q Hq) as [d Hl].
  split; [destruct (lines_answered _ _ _ _ _ q Hk Hq) as [|Hf]; [done|congruence]|].
  assert (forall r g i, routed groups recipients policy ledger now r g i ->
            gi_reason i = NotifyReason.Resolved ->
            r ∈ recipients /\ notify_resolved (rc_policy r) = true) as H.
  { intros r g i (_ & _ & [_ Hr]%list_elem_of_filter & Href & _) Hi. split; [done|].
    unfold refused in Href. rewrite Hi in Href. simpl in Href.
    destruct (Severity.lt _ _); [done|]. destruct (negb (ChannelMatcher.accepts _ _)); [done|].
    by destruct (notify_resolved _). }
  inversion Hl as [q' Hin|q' d' r g i Hl' Hk' Hr Hi|q' d' r g i Hl' Hk' Hr Hne Hh|r g i Hr Hh];
    subst; simpl in *; [by left|right|right|right].
  - exists r. destruct (H r g i Hr Hi). injection Hk' as ->. done.
  - exfalso. unfold merge_reason in Hres. destruct (_ && _); [done|]. by apply Hne.
  - exists r. destruct (H r g i Hr Hres). done.
Qed.

(** C14. What a channel filters out never reaches it: every line that is sent or kept,
    unless it was already stored as it is, comes from a line of the cycle about the same
    alert, handed to an enabled channel of that identifier; save for the relay of an
    unacknowledged alert, the channel is among those of the message, the line has at least
    the channel's minimum severity and the channel's routing filter accepts its device
    and rule. *)
Theorem filters_hold_on_every_line {C : Calendar} groups recipients policy ledger now q :
  NoDup (qi_key <$> ld_queue ledger) ->
  q ∈ lines groups recipients policy ledger now ->
  q ∈ ld_queue ledger \/
  exists r g i, r ∈ recipients /\ rc_enabled r = true /\ rc_id r = qi_channel_id q /\
    g ∈ groups /\ i ∈ ag_items g /\ gi_fingerprint i = qi_fp q /\
    gi_severity i = gi_severity (qi_item q) /\
    (gi_reason i <> NotifyReason.Unacked ->
       (ag_channels g = [] \/ rc_id r ∈ ag_channels g) /\
       Severity.rank (min_severity (rc_policy r)) <= Severity.rank (gi_severity i) /\
       ChannelMatcher.accepts (cp_matcher (rc_policy r))
         {| ctx_rule_uid := gi_rule_uid i; ctx_kind := ag_target_kind g;
            ctx_tags := ag_target_tags g |} = true).
Proof.
  intros Hk Hq. destruct (lines_are_lines _ _ _ _ _ Hk q Hq) as [d Hl].
  assert (H : forall r g i, routed groups recipients policy ledger now r g i ->
    exists i0, r ∈ recipients /\ rc_enabled r = true /\ g ∈ groups /\ i0 ∈ ag_items g /\
      gi_fingerprint i0 = gi_fingerprint i /\ gi_severity i0 = gi_severity i /\
      (gi_reason i0 <> NotifyReason.Unacked ->
         (ag_channels g = [] \/ rc_id r ∈ ag_channels g) /\
         Severity.rank (min_severity (rc_policy r)) <= Severity.rank (gi_severity i0) /\
         ChannelMatcher.accepts (cp_matcher (rc_policy r))
           {| ctx_rule_uid := gi_rule_uid i0; ctx_kind := ag_target_kind g;
              ctx_tags := ag_target_tags g |} = true)).
  { intros r g i (Hg & (i0 & Hi0 & Hpres) & [He Hr]%list_elem_of_filter & Href & Hrt).
    assert (gi_fingerprint i0 = gi_fingerprint i /\ gi_severity i0 = gi_severity i /\
            gi_rule_uid i0 = gi_rule_uid i /\
            (gi_reason i0 <> NotifyReason.Unacked -> gi_reason i <> NotifyReason.Unacked))
      as (E1 & E2 & E3 & E4) by (by destruct Hpres as [->|(_ & _ & n & ->)]).
    exists i0. split_and!; try done. intros Hu%E4. rewrite bool_decide_false in Hrt by done.
    split; [done|]. unfold refused in Href. rewrite bool_decide_false in Href by done. simpl in Href.
    rewrite E2, E3. destruct (Severity.lt _ _) eqn:Hlt; [done|].
    destruct (ChannelMatcher.accepts _ _); [|done]. unfold Severity.lt in Hlt. bools. split; [lia|done]. }
  assert (Hkey : forall q r fp, qi_key q = (rc_id r, fp) -> qi_channel_id q = rc_id r).
  { intros q' r fp. unfold qi_key. by intros [= -> _]. }
  inversion Hl as [q' Hin|q' d' r g i Hl' Hk' Hr Hi|q' d' r g i Hl' Hk' Hr Hne Hh|r g i Hr Hh];
    subst; [by left|right|right|right];
    destruct (H r g i Hr) as (i0 & H1 & H2 & H3 & H4 & H5 & H6 & H7); exists r, g, i0;
    unfold qi_fp; simpl.
  - rewrite (Hkey _ _ _ Hk'). by split_and!.
  - rewrite (Hkey _ _ _ Hk'), merge_reason_fp.
    assert (gi_severity (merge_reason (qi_item q') i) = gi_severity i) as ->
      by (unfold merge_reason; by destruct (_ && _)).
    by split_and!.
  - by split_and!.
Qed.

(** The relay of an unacknowledged alert leaves alone and late: every relay line
    sent or kept that was not already stored as it is goes to the escalation channel of
    the policy, and some firing line of the alert left on a real channel at least the
    configured delay ago. *)
Theorem relay_waits_for_the_first_message {C : Calendar} groups recipients policy ledger now q :
  NoDup (qi_key <$> ld_queue ledger) ->
  q ∈ lines groups recipients policy ledger now ->
  gi_reason (qi_item q) = NotifyReason.Unacked ->
  q ∈ ld_queue ledger \/
  exists after e, escalation policy = Some (after, qi_channel_id q) /\ e ∈ ld_log ledger /\
    le_channel_id e <> INTAKE_CHANNEL /\ le_fingerprint e = qi_fp q /\
    NotifyReason.is_firing_like (le_reason e) = true /\ le_at e + after <= now.
Proof.
  intros Hk Hq Hu. destruct (lines_are_lines _ _ _ _ _ Hk q Hq) as [d Hl].
  assert (H : forall r g i, routed groups recipients policy ledger now r g i ->
    gi_reason i = NotifyReason.Unacked ->
    exists after e, escalation policy = Some (after, rc_id r) /\ e ∈ ld_log ledger /\
      le_channel_id e <> INTAKE_CHANNEL /\ le_fingerprint e = gi_fingerprint i /\
      NotifyReason.is_firing_like (le_reason e) = true /\ le_at e + after <= now).
  { intros r g i (_ & _ & _ & _ & Hrt) Hi. rewrite bool_decide_true in Hrt by done.
    destruct Hrt as (after & first & He & (e & ? & ? & ? & ? & <-) & ?).
    exists after, e. by split_and!. }
  assert (Hkey : forall q r fp, qi_key q = (rc_id r, fp) -> qi_channel_id q = rc_id r).
  { intros q' r fp. unfold qi_key. by intros [= -> _]. }
  inversion Hl as [q' Hin|q' d' r g i Hl' Hk' Hr Hi|q' d' r g i Hl' Hk' Hr Hne Hh|r g i Hr Hh];
    subst; simpl in *; [by left|congruence|right|right].
  - unfold qi_fp. simpl. rewrite (Hkey _ _ _ Hk'), merge_reason_fp.
    apply (H r g i Hr). unfold merge_reason in Hu. by destruct (_ && _).
  - by apply (H r g i Hr).
Qed.

(** What wakes a channel of an alert in its quiet hours: a line of it that was waiting for the
    end of its batching window, or one of this cycle, routed to the channel, that is critical
    or the relay of an unacknowledged alert. *)
Definition wakes {C : Calendar} groups recipients policy ledger now (r : Recipient) (fp : string) : Prop :=
  (exists q, q ∈ ld_queue ledger /\ qi_key q = (rc_id r, fp) /\ qi_hold q = Hold.Batch) \/
  (exists g i, routed groups recipients policy ledger now r g i /\ gi_fingerprint i = fp /\
     (gi_severity i = Severity.Critical \/ gi_reason i = NotifyReason.Unacked)).

Lemma hold_for_batch {C : Calendar} now r i :
  in_quiet_hours (rc_policy r) now = true -> hold_for now r i = Hold.Batch ->
  gi_severity i = Severity.Critical \/ gi_reason i = NotifyReason.Unacked.
Proof.
  intros Hquiet. unfold hold_for. rewrite Hquiet.
  destruct (bool_decide (gi_reason i = _)) eqn:E; [bools; by right|]. simpl.
  destruct (gi_severity i); try done. by left.
Qed.

Lemma batch_line_woken {C : Calendar} groups recipients policy ledger now r q d :
  NoDup (rc_id <$> recipients) -> r ∈ recipients -> in_quiet_hours (rc_policy r) now = true ->
  line_of groups recipients policy ledger now q d ->
  qi_channel_id q = rc_id r -> qi_hold q = Hold.Batch ->
  wakes groups recipients policy ledger now r (qi_fp q).
Proof.
  intros Hids Hr Hquiet Hl.
  assert (Hroute : forall r' g i, routed groups recipients policy ledger now r' g i -> rc_id r' = rc_id r ->
            hold_for now r' i = Hold.Batch -> wakes groups recipients policy ledger now r (gi_fingerprint i)).
  { intros r' g i Hrt Heq Hh. pose proof Hrt as (_ & _ & [_ Hr']%list_elem_of_filter & _).
    rewrite (same_channel _ r r' Hids Hr Hr' Heq) in *. right. exists g, i. split_and!; [done..|].
    by apply (hold_for_batch now r i). }
  induction Hl as [q Hq|q d r' g i Hl IH Hk Hrt Hres|q d r' g i Hl IH Hk Hrt Hres Hh|r' g i Hrt Hh];
    simpl; intros Hc Hb.
  - left. exists q. split_and!; [done| |done]. unfold qi_key. by rewrite Hc.
  - unfold qi_key in Hk. injection Hk as Hk1 Hk2. unfold qi_fp in *. simpl. rewrite <-Hk2. by apply IH.
  - unfold qi_key in Hk. injection Hk as Hk1 Hk2. unfold qi_fp at 1. simpl. rewrite merge_reason_fp.
    apply (Hroute r' g i); [done|congruence|done].
  - by apply (Hroute r' g i).
Qed.

(** C19. In quiet hours a channel is only woken for good reason: each line that leaves
    while the channel is in its quiet hours is critical, or the relay of an
    unacknowledged alert, or was already waiting, as it is, for the end of its batching
    window, or is a resolution that takes the place of such a line, be it stored or of this
    very cycle: a resolution that comes alone waits for the end of the quiet hours. *)
Theorem quiet_hours_hold {C : Calendar} groups recipients policy ledger now r og q :
  NoDup (qi_key <$> ld_queue ledger) -> NoDup (rc_id <$> recipients) -> r ∈ recipients ->
  in_quiet_hours (rc_policy r) now = true ->
  og ∈ pl_outgoing (plan groups recipients policy ledger now) -> og_channel_id og = rc_id r ->
  q ∈ og_retry og ->
  gi_severity (qi_item q) = Severity.Critical \/
  gi_reason (qi_item q) = NotifyReason.Unacked \/
  (gi_reason (qi_item q) = NotifyReason.Resolved /\
   wakes groups recipients policy ledger now r (qi_fp q)) \/
  (q ∈ ld_queue ledger /\ qi_hold q = Hold.Batch).
Proof.
  intros Hk Hids Hr Hquiet Hog Hch Hq.
  destruct (outgoing_sent_by _ _ _ _ _ Hk og Hog) as (r' & ogs & [_ Hr']%list_elem_of_filter & [Hs _] & Hin).
  destruct (Hs og Hin) as (Hch' & _ & _ & _ & Hl).
  assert (r' = r) as -> by (apply (same_channel recipients); [done..|congruence]).
  destruct (Hl q Hq) as [Hqc Hbatch]. specialize (Hbatch Hquiet).
  destruct (lines_are_lines _ _ _ _ _ Hk q (outgoing_lines _ _ _ _ _ og q Hog Hq)) as [d Hline].
  pose proof (batch_line_woken _ _ _ _ _ r q d Hids Hr Hquiet Hline Hqc Hbatch) as Hw.
  assert (H : forall r'' g i, routed groups recipients policy ledger now r'' g i -> rc_id r'' = rc_id r ->
            hold_for now r'' i = Hold.Batch ->
            gi_severity i = Severity.Critical \/ gi_reason i = NotifyReason.Unacked).
  { intros r'' g i (_ & _ & [_ Hr'']%list_elem_of_filter & _) Heq.
    rewrite (same_channel _ r r'' Hids Hr Hr'' Heq). by apply hold_for_batch. }
  inversion Hline as [q' Hst|q' d' r'' g i Hl' Hk' Hr'' Hi|q' d' r'' g i Hl' Hk' Hr'' Hne Hh|r'' g i Hr'' Hh];
    subst; simpl in *; [by auto|by auto| |].
  - unfold qi_key in Hk'. destruct (H r'' g i Hr'') as [Hc|Hc]; [congruence|done|..];
      unfold merge_reason; rewrite ?Hc; destruct (_ && _) eqn:E; auto.
    bools. congruence.
  - destruct (H r'' g i Hr'' Hqc Hbatch); auto.
Qed.

(** ** Facts: what was announced, held and handled *)

Section Announced.
Context {C : Calendar} (groups : list AlertGroup) (recipients : list Recipient)
  (policy : GlobalPolicy) (ledger : Ledger) (now : DateTime).

Notation item_step := (fun w gi => plan_item (active_of recipients) policy ledger now gi.1 w gi.2).

(** Every announced alert has a touched line in the queue. *)
Definition announced_queued (queue : Queue) (p : Plan) : Prop :=
  forall fp, fp ∈ pl_announced p -> exists q, (q, true) ∈ queue /\ qi_fp q = fp.

Lemma routes_announced r item q p q' p' :
  announced_queued q p -> routes groups recipients policy ledger now r item q p q' p' ->
  announced_queued q' p' /\
  (forall fp, fp ∈ pl_announced p' -> fp ∈ pl_announced p \/ fp = gi_fingerprint item).
Proof.
  intros Ha. destruct 1 as [q p v|q p pos l d l' Hq Hk Hk' Hid Hline|q p l' Hn Hk Hline].
  - split; [done|]. simpl. auto.
  - assert (qi_fp l' = gi_fingerprint item) as Hf.
    { rewrite <-Hk' in Hk. unfold qi_key in Hk. by injection Hk. }
    assert ((l', true) ∈ <[pos := (l', true)]> q) as Hin.
    { eapply list_elem_of_lookup_2, list_lookup_insert_eq, lookup_lt_Some, Hq. }
    split; [|simpl; set_solver].
    intros fp [->%elem_of_singleton|Hfp]%elem_of_union; [by exists l'|].
    destruct (Ha fp Hfp) as (x & [j Hj]%list_elem_of_lookup & Hx).
    destruct (decide (pos = j)) as [->|Hne].
    + exists l'. split; [done|]. rewrite Hj in Hq. injection Hq as <- <-.
      unfold qi_key in Hk. injection Hk as _ Hk. congruence.
    + exists x. split; [|done]. eapply list_elem_of_lookup_2. by rewrite list_lookup_insert_ne.
  - split; [|simpl; set_solver].
    assert (qi_fp l' = gi_fingerprint item) as Hf by (unfold qi_key in Hk; by injection Hk).
    intros fp [->%elem_of_singleton|Hfp]%elem_of_union; [exists l'; set_solver|].
    destruct (Ha fp Hfp) as (x & Hx & ?). exists x. set_solver.
Qed.

Lemma announced_all l w :
  (forall gi, gi ∈ l -> gi.1 ∈ groups /\ gi.2 ∈ ag_items gi.1) ->
  NoDup ((fun gi => gi_fingerprint gi.2) <$> l) ->
  announced_queued (wk_queue w) (wk_plan w) ->
  (forall gi, gi ∈ l -> gi_fingerprint gi.2 ∉ pl_announced (wk_plan w)) ->
  let w' := foldl item_step w l in announced_queued (wk_queue w') (wk_plan w').
Proof.
  revert w. induction l as [|[g i] l IH]; intros w Hl Hnd Ha Hn; [done|].
  rewrite fmap_cons in Hnd. apply NoDup_cons in Hnd as [Hi Hnd]. simpl.
  destruct (Hl (g, i)) as [Hg Hgi]; [left|]. simpl in Hg, Hgi.
  set (w1 := plan_item _ _ _ _ _ _ _).
  assert (announced_queued (wk_queue w1) (wk_plan w1) /\
          forall fp, fp ∈ pl_announced (wk_plan w1) ->
            fp ∈ pl_announced (wk_plan w) \/ fp = gi_fingerprint i) as [Ha1 Hn1].
  { apply (plan_item_ind groups recipients policy ledger now
             (fun q p => announced_queued q p /\ pl_announced p = pl_announced (wk_plan w))
             (fun q p => announced_queued q p /\ forall fp, fp ∈ pl_announced p ->
                fp ∈ pl_announced (wk_plan w) \/ fp = gi_fingerprint i)); [done..| | | | |].
    - intros q p [Haq Hp]. split; [|done]. intros fp Hfp. destruct (Haq fp Hfp) as (x & Hx & Hxf).
      exists x. split; [|done]. apply purge_fingerprint_queue. split; [done|]. simpl.
      intros Heq. apply (Hn (g, i)); [left|]. simpl. rewrite <-Heq, Hxf, <-Hp. done.
    - unfold announced_queued. intros q p p' [Haq Hp] (_ & E & _). rewrite E. done.
    - intros q p [Haq Hp]. split; [done|]. rewrite Hp. auto.
    - unfold announced_queued. intros q p p' Haq (_ & E & _). by rewrite E.
    - intros r item' q p q' p' Hf [Haq Hp] Hrt. rewrite <-Hf.
      destruct (routes_announced _ _ _ _ _ _ Haq Hrt) as [? Hor]. split; [done|].
      intros fp [Hfp|Hfp]%Hor; [rewrite Hf; by apply Hp|by right]. }
  apply IH; [intros; apply Hl; by right|done|done|].
  intros gi' Hgi' [Hin|Heq]%Hn1; [by eapply Hn; [right|]|].
  apply Hi, list_elem_of_fmap. by exists gi'.
Qed.

Lemma route_handled r g item queue p : pl_handled (snd (route r g item ledger now queue p)) = pl_handled p.
Proof.
  unfold route. destruct (refused r g item); [done|].
  destruct (_ ≫= _) as [[pos qd]|]; destruct (bool_decide _);
    try destruct (refused_by_history _ _ _ _); done.
Qed.

(** The relay of an unacknowledged alert is not due yet. *)
Definition not_due (g : AlertGroup) (item : GroupItem) : Prop :=
  gi_reason item = NotifyReason.Unacked /\
  filter (fun r => ag_channels g = [] \/ rc_id r ∈ ag_channels g) (active_of recipients) <> [] /\
  exists after ch, escalation policy = Some (after, ch) /\
    forall e, e ∈ ld_log ledger -> le_channel_id e <> INTAKE_CHANNEL ->
      le_fingerprint e = gi_fingerprint item ->
      NotifyReason.is_firing_like (le_reason e) = true -> now < le_at e + after.

Lemma handoff_handled g item queue p :
  gi_reason item = NotifyReason.Unacked ->
  filter (fun r => ag_channels g = [] \/ rc_id r ∈ ag_channels g) (active_of recipients) <> [] ->
  let h := pl_handled (snd (handoff (active_of recipients) policy g item ledger now queue p)) in
  (h = pl_handled p /\ ~ not_due g item) \/
  (h = pl_handled p ∖ {[gi_fingerprint item]} /\ not_due g item).
Proof.
  intros Hu Hne h. subst h. unfold handoff.
  destruct (escalation policy) as [[after ch]|] eqn:He.
  2:{ left. split; [done|]. intros (_ & _ & a & c & Hn & _). congruence. }
  set (sent := filter _ (ld_log ledger)).
  assert (Hsent : forall e, e ∈ sent <-> e ∈ ld_log ledger /\ le_channel_id e <> INTAKE_CHANNEL /\
            le_fingerprint e = gi_fingerprint item /\ NotifyReason.is_firing_like (le_reason e) = true).
  { intros e. unfold sent. rewrite list_elem_of_filter. tauto. }
  destruct (min_at (le_at <$> sent)) as [first|] eqn:Hmin.
  - apply min_at_spec in Hmin as [Hf Hmin]. apply list_elem_of_fmap in Hf as (e & -> & He1).
    destruct (Z.ltb_spec now (le_at e + after)) as [Hlt|Hge].
    + right. split; [done|]. split_and!; [done..|]. exists after, ch. split; [done|].
      intros e' ? ? ? ?. assert (le_at e <= le_at e'); [|lia].
      apply Hmin, list_elem_of_fmap_2. by apply Hsent.
    + left. split; [destruct (find_map _ _); [apply route_handled|done]|].
      intros (_ & _ & a & c & Hn & Hall). apply Hsent in He1 as (? & ? & ? & ?).
      specialize (Hall e ltac:(done) ltac:(done) ltac:(done) ltac:(done)).
      assert (a = after) as -> by congruence. lia.
  - right. split; [done|]. split_and!; [done..|]. exists after, ch. split; [done|].
    intros e ? ? ? ?. assert (e ∈ sent) as Hin by by apply Hsent.
    assert (sent = []) as Hnil; [|rewrite Hnil in Hin; by apply elem_of_nil in Hin].
    destruct sent as [|x l _] using rev_ind; [done|].
    unfold min_at in Hmin. by rewrite fmap_app, foldl_app in Hmin.
Qed.

Lemma plan_item_handled g w item :
  let w' := plan_item (active_of recipients) policy ledger now g w item in
  (forall fp, fp <> gi_fingerprint item -> wk_flap_holds w' !! fp = wk_flap_holds w !! fp) /\
  ((pl_handled (wk_plan w') = {[gi_fingerprint item]} ∪ pl_handled (wk_plan w) /\
    ~ (wk_flap_holds w !! gi_fingerprint item = None /\ not_due g item)) \/
   (pl_handled (wk_plan w') = ({[gi_fingerprint item]} ∪ pl_handled (wk_plan w)) ∖ {[gi_fingerprint item]} /\
    wk_flap_holds w !! gi_fingerprint item = None /\ not_due g item)).
Proof.
  unfold plan_item. set (w1 := count_change item now _).
  assert (wk_flap_holds w1 = wk_flap_holds w /\
          pl_handled (wk_plan w1) = {[gi_fingerprint item]} ∪ pl_handled (wk_plan w)) as [E1 E2]
    by (unfold w1, count_change; by destruct (counts _)).
  rewrite E1. destruct (wk_flap_holds w !! gi_fingerprint item) as [until|] eqn:Hh.
  { split; [simpl; intros; by rewrite E1|]. left. simpl. split; [by rewrite E2|]. by intros [? _]. }
  destruct (detect_flapping_spec policy now item w1) as (Hfp & Hpres & _ & _ & Hhd & Hfl).
  destruct (detect_flapping policy item now w1) as [w2 item2]. simpl in *.
  set (targets := filter _ _). destruct targets as [|t0 ts] eqn:Ht.
  { split; [intros; by rewrite Hfl, E1|]. left. split; [by rewrite Hhd|].
    intros (_ & _ & Hne & _). by apply Hne. }
  assert (Hne : targets <> []) by by rewrite Ht. rewrite <-Ht. clear t0 ts Ht.
  case_bool_decide as Hu; simpl; (split; [intros; by rewrite Hfl, E1|]).
  - assert (item2 = item) as ->.
    { destruct Hpres as [->|(_ & _ & n & ->)]; [done|]. by simpl in Hu. }
    destruct (handoff_handled g item (wk_queue w2) (wk_plan w2) Hu Hne) as [[-> Hn]|[-> Hn]];
      rewrite Hhd, E2; [left|right].
    + split; [done|]. by intros [_ ?].
    + by split_and!.
  - left. split.
    + rewrite <-E2, <-Hhd.
      apply (foldl_invariant (fun qp => pl_handled (snd qp) = pl_handled (wk_plan w2))); [done|].
      intros [q p] r _ IH. by rewrite route_handled.
    + intros (_ & Hi & _). apply Hu. destruct Hpres as [->|(Hc & _)]; [done|].
      by rewrite Hi in Hc.
Qed.

Definition held (fp : string) : Prop := exists until, ld_flap_holds ledger !! fp = Some until /\ now < until.

Lemma start_holds fp : wk_flap_holds (start ledger now) !! fp = None <-> ~ held fp.
Proof.
  simpl. rewrite map_lookup_filter_None. unfold held. simpl. split.
  - intros [->|Hn] (u & Hu & Hlt); [done|]. by apply (Hn u).
  - intros Hn. destruct (ld_flap_holds ledger !! fp) as [u|] eqn:E; [right|by left].
    intros v [= <-] Hlt. apply Hn. by exists u.
Qed.

Lemma handled_all l :
  NoDup ((fun gi => gi_fingerprint gi.2) <$> l) ->
  let w := foldl item_step (start ledger now) l in
  (forall fp, fp ∉ (fun gi => gi_fingerprint gi.2) <$> l ->
     wk_flap_holds w !! fp = wk_flap_holds (start ledger now) !! fp) /\
  forall fp, fp ∈ pl_handled (wk_plan w) <->
    exists gi, gi ∈ l /\ gi_fingerprint gi.2 = fp /\ ~ (~ held fp /\ not_due gi.1 gi.2).
Proof.
  induction l as [|[g i] l IH] using rev_ind; intros Hnd.
  { split; [done|]. simpl. intros fp. split; [by intros ?%elem_of_empty|].
    by intros (gi & ?%elem_of_nil & _). }
  rewrite fmap_app in Hnd. apply NoDup_app in Hnd as (Hnd & Hx & _).
  destruct (IH Hnd) as [Hfl Hh]. cbv zeta in *. rewrite foldl_app. cbn [foldl].
  set (w := foldl item_step _ l) in *.
  assert (Hi : gi_fingerprint i ∉ (fun gi : AlertGroup * GroupItem => gi_fingerprint gi.2) <$> l).
  { intros Hin. apply (Hx _ Hin). simpl. by apply list_elem_of_singleton. }
  assert (Hold : gi_fingerprint i ∉ pl_handled (wk_plan w)).
  { intros (gi & Hgi & Heq & _)%Hh. apply Hi, list_elem_of_fmap. by exists gi. }
  specialize (Hfl _ Hi) as Hfli.
  destruct (plan_item_handled g w i) as [Hfl' Hcase]. cbv zeta in Hcase, Hfl'.
  change ((g, i).1) with g. change ((g, i).2) with i.
  rewrite Hfli, start_holds in Hcase. split.
  - intros fp Hfp. rewrite fmap_app, not_elem_of_app in Hfp. destruct Hfp as [H1 H2].
    simpl in H2. rewrite list_elem_of_singleton in H2. rewrite Hfl' by done. by apply Hfl.
  - intros fp. setoid_rewrite elem_of_app. setoid_rewrite list_elem_of_singleton.
    assert ((exists gi, (gi ∈ l \/ gi = (g, i)) /\ gi_fingerprint gi.2 = fp /\
              ~ (~ held fp /\ not_due gi.1 gi.2)) <->
            fp ∈ pl_handled (wk_plan w) \/
            (gi_fingerprint i = fp /\ ~ (~ held fp /\ not_due g i))) as ->.
    { rewrite Hh. split.
      - intros (gi & [Hgi| ->] & Hr); [left; by exists gi|by right].
      - intros [(gi & ? & ?)|[? ?]]; [exists gi; auto|exists (g, i); auto]. }
    destruct Hcase as [[-> Hn]|(-> & Hn)]; set_unfold; split.
    + intros [->|?]; [by right|by left].
    + intros [?|[<- _]]; auto.
    + intros [[->|?] ?]; [done|by left].
    + intros [Hin|[<- Hnn]]; [|by destruct Hnn].
      split; [by right|]. intros ->. by apply Hold.
Qed.

Lemma plan_item_held g w item until :
  wk_flap_holds w !! gi_fingerprint item = Some until ->
  let w' := plan_item (active_of recipients) policy ledger now g w item in
  wk_flap_holds w' = wk_flap_holds w /\
  wk_queue w' = fst (purge_fingerprint (wk_queue w) (gi_fingerprint item)) /\
  pl_dequeue (wk_plan w') =
    pl_dequeue (wk_plan w) ++ snd (purge_fingerprint (wk_queue w) (gi_fingerprint item)).
Proof.
  intros Hh. unfold plan_item. set (w1 := count_change item now _).
  assert (wk_flap_holds w1 = wk_flap_holds w /\ wk_queue w1 = wk_queue w /\
          pl_dequeue (wk_plan w1) = pl_dequeue (wk_plan w)) as (E1 & E2 & E3)
    by (unfold w1, count_change; by destruct (counts _)).
  rewrite E1, Hh. simpl. by rewrite E1, E2, E3.
Qed.

(** The stored lines of an alert: still there, or to be deleted. *)
Definition accounted (fp : string) (queue : Queue) (p : Plan) : Prop :=
  forall q id, q ∈ ld_queue ledger -> qi_fp q = fp -> qi_id q = Some id ->
    id ∈ pl_dequeue p \/ (q, false) ∈ queue.
Definition no_line (fp : string) (queue : Queue) : Prop := forall qd, qd ∈ queue -> qi_fp qd.1 <> fp.

Lemma other_alert_untouched fp g i w :
  g ∈ groups -> i ∈ ag_items g -> gi_fingerprint i <> fp ->
  let w' := plan_item (active_of recipients) policy ledger now g w i in
  (accounted fp (wk_queue w) (wk_plan w) -> accounted fp (wk_queue w') (wk_plan w')) /\
  (no_line fp (wk_queue w) -> no_line fp (wk_queue w')) /\
  (forall qd, qi_fp qd.1 = fp -> qd ∈ wk_queue w -> qd ∈ wk_queue w').
Proof.
  intros Hg Hi Hne.
  assert (forall r item q p q' p', gi_fingerprint item = gi_fingerprint i ->
            routes groups recipients policy ledger now r item q p q' p' ->
            pl_dequeue p' = pl_dequeue p /\
            (forall x, qi_fp x.1 = fp -> (x ∈ q <-> x ∈ q'))) as Hrt.
  { intros r item q p q' p' Hf. destruct 1 as [q p v|q p pos l d l' Hq Hk Hk' Hid Hline|q p l' Hn Hk Hline].
    - done.
    - split; [done|]. intros x Hx.
      assert (qi_fp l = gi_fingerprint i /\ qi_fp l' = gi_fingerprint i) as [Hl Hl'].
      { rewrite <-Hk' in Hk at 1. unfold qi_key in *. split; congruence. }
      split; intros [j Hj]%list_elem_of_lookup.
      + apply (list_elem_of_lookup_2 _ j). rewrite list_lookup_insert_ne; [done|].
        intros <-. rewrite Hj in Hq. injection Hq as ->. simpl in *. congruence.
      + apply list_lookup_insert_Some in Hj as [(_ & <- & _)|[_ Hj]]; [simpl in *; congruence|].
        by eapply list_elem_of_lookup_2.
    - split; [done|]. intros x Hx. rewrite elem_of_app, list_elem_of_singleton.
      split; [by left|]. intros [?| ->]; [done|]. simpl in Hx. unfold qi_key in Hk. congruence. }
  split_and!; [intros H0..|intros qd Hqd H0].
  - apply (plan_item_ind groups recipients policy ledger now (accounted fp) (accounted fp)); try done.
    + intros q p Ha x id Hx Hf Hid. destruct (Ha x id Hx Hf Hid) as [|Hin]; [by left|right].
      apply purge_fingerprint_queue. split; [done|]. simpl. congruence.
    + intros q p p' Ha (_ & _ & Hd) x id Hx Hf Hid. destruct (Ha x id Hx Hf Hid); [left; by apply Hd|by right].
    + intros q p p' Ha (_ & _ & Hd) x id Hx Hf Hid. destruct (Ha x id Hx Hf Hid); [left; by apply Hd|by right].
    + intros r item' q p q' p' Hf Ha Hr x id Hx Hxf Hid.
      destruct (Hrt _ _ _ _ _ _ Hf Hr) as [-> Hin].
      destruct (Ha x id Hx Hxf Hid) as [|Hq]; [by left|right]. by apply Hin.
  - apply (plan_item_ind groups recipients policy ledger now (fun q _ => no_line fp q)
             (fun q _ => no_line fp q)); try done.
    + intros q p Ha qd [Hq _]%purge_fingerprint_queue. by apply Ha.
    + intros r item' q p q' p' Hf Ha Hr qd Hqd Heq.
      destruct (Hrt _ _ _ _ _ _ Hf Hr) as [_ Hin]. apply (Ha qd); [by apply Hin|done].
  - apply (plan_item_ind groups recipients policy ledger now (fun q _ => qd ∈ q)
             (fun q _ => qd ∈ q)); try done.
    + intros q p Ha. apply purge_fingerprint_queue. split; [done|]. congruence.
    + intros r item' q p q' p' Hf Ha Hr. destruct (Hrt _ _ _ _ _ _ Hf Hr) as [_ Hin]. by apply Hin.
Qed.

Lemma held_all fp l :
  held fp -> (forall gi, gi ∈ l -> gi.1 ∈ groups /\ gi.2 ∈ ag_items gi.1) ->
  let w := foldl item_step (start ledger now) l in
  is_Some (wk_flap_holds w !! fp) /\
  (if decide (fp ∈ (fun gi : AlertGroup * GroupItem => gi_fingerprint gi.2) <$> l) then
     no_line fp (wk_queue w) /\
     forall q id, q ∈ ld_queue ledger -> qi_fp q = fp -> qi_id q = Some id ->
       id ∈ pl_dequeue (wk_plan w)
   else accounted fp (wk_queue w) (wk_plan w)).
Proof.
  intros Hheld. induction l as [|[g i] l IH] using rev_ind; intros Hl.
  { split.
    - destruct (wk_flap_holds (start ledger now) !! fp) eqn:E; [done|].
      by apply start_holds in E.
    - simpl. intros q id Hq _ _. right. apply list_elem_of_fmap. by exists q. }
  destruct IH as [[until Hu] Hc]; [intros; apply Hl; set_solver|].
  destruct (Hl (g, i)) as [Hg Hgi]; [set_solver|]. simpl in Hg, Hgi.
  cbv zeta in *. rewrite foldl_app. cbn [foldl]. set (w := foldl item_step _ l) in *.
  change ((g, i).1) with g. change ((g, i).2) with i. rewrite fmap_app.
  destruct (decide (gi_fingerprint i = fp)) as [Heq|Hne].
  - destruct (plan_item_held g w i until) as (-> & Eq & Ed); [by rewrite Heq|].
    split; [by eexists|]. rewrite decide_True by (simpl; set_solver).
    rewrite Eq, Ed, Heq. split.
    + intros qd [_ ?]%purge_fingerprint_queue. done.
    + intros q id Hq Hf Hid. apply elem_of_app.
      case_decide as Hin; [left; by eapply Hc|].
      destruct (Hc q id Hq Hf Hid) as [|Hqin]; [by left|right].
      apply list_elem_of_omap. exists (q, false). split; [done|]. simpl. by rewrite bool_decide_true.
  - destruct (plan_item_handled g w i) as [Hfl _]. rewrite Hfl by done. split; [by eexists|].
    destruct (other_alert_untouched fp g i w Hg Hgi Hne) as (Hacc & Hno & _).
    destruct (decide (fp ∈ _ <$> l)) as [Hin|Hnin].
    + rewrite decide_True by set_solver. destruct Hc as [Hc1 Hc2]. split; [by apply Hno|].
      intros q id Hq Hf Hid.
      destruct (Hacc (fun q' id' H1 H2 H3 => or_introl (Hc2 q' id' H1 H2 H3)) q id Hq Hf Hid)
        as [|Hin']; [done|]. exfalso. by apply (Hno Hc1 _ Hin').
    + rewrite decide_False; [by apply Hacc|]. simpl. rewrite elem_of_app, list_elem_of_singleton.
      naive_solver.
Qed.

(** A stored line of an alert the cycle does not present leaves as soon as it is due. *)
Lemma waiting_line_leaves q r :
  NoDup (qi_key <$> ld_queue ledger) -> q ∈ ld_queue ledger ->
  (forall g i, g ∈ groups -> i ∈ ag_items g -> gi_fingerprint i <> qi_fp q) ->
  r ∈ recipients -> rc_enabled r = true -> qi_channel_id q = rc_id r -> due policy now r q ->
  cap_reached r policy ledger now = false ->
  exists og, og ∈ pl_outgoing (the_plan groups recipients policy ledger now) /\
    og_channel_id og = rc_id r /\ q ∈ og_retry og.
Proof.
  intros Hk Hq Hn Hr He Hc Hd Hcap.
  destruct (work_ok_all groups recipients policy ledger now Hk) as (_ & Hnd & Ho).
  set (w := foldl _ _ groups) in *.
  assert ((q, false) ∈ wk_queue w) as Hin.
  { unfold w. rewrite plan_groups_lines.
    apply (foldl_invariant (fun w => (q, false) ∈ wk_queue w)).
    - simpl. apply list_elem_of_fmap. by exists q.
    - intros w' [g i] [Hg Hi]%elem_of_lines Hw.
      destruct (other_alert_untouched (qi_fp q) g i w' Hg Hi (Hn g i Hg Hi)) as (_ & _ & H3).
      by apply H3. }
  assert (r ∈ active_of recipients) as Hra by by apply list_elem_of_filter.
  destruct (flush_spec (active_of recipients) policy ledger now (wk_queue w) (wk_plan w) Hnd)
    as (ogss & (H1 & H2 & _) & Hs).
  pose proof (fun d => flush_due _ policy ledger now (wk_queue w) (wk_plan w) r q d Hnd Hra Hc Hd Hcap)
    as Hgone.
  unfold the_plan, plan, plan_queue. fold w.
  destruct (flush _ _ _ _ _ _) as [queue p]. simpl in *. rewrite Ho in H1.
  assert (q ∈ fst <$> wk_queue w) as Hqw by by apply (list_elem_of_fmap_2 fst _ (q, false)).
  rewrite <-H2, elem_of_app in Hqw. destruct Hqw as [([q' d] & -> & Hqd)%list_elem_of_fmap|Hqw].
  { by apply Hgone in Hqd. }
  apply elem_of_concat in Hqw as (l & Hl & Hql).
  apply list_elem_of_fmap in Hl as (og & -> & Hog). exists og. rewrite H1.
  split_and!; [done| |done].
  apply elem_of_concat in Hog as (ogs & Hogs & Hog).
  apply list_elem_of_lookup in Hogs as [n Hn'].
  destruct (Forall2_lookup_r _ _ _ _ _ Hs Hn') as (r' & _ & Hsr & _).
  destruct (Hsr og Hog) as (-> & _ & _ & _ & Hline). destruct (Hline q Hql) as [<- _]. congruence.
Qed.
End Announced.

Section ForgottenResolution.
Context {C : Calendar} (groups : list AlertGroup) (recipients : list Recipient)
  (policy : GlobalPolicy) (ledger : Ledger) (now : DateTime) (fp : string).

Notation item_step := (fun w gi => plan_item (active_of recipients) policy ledger now gi.1 w gi.2).

(** The ledger knows nothing of the alert. *)
Hypothesis log_silent : forall e, e ∈ ld_log ledger -> le_fingerprint e <> fp.
Hypothesis flap_rule : flap_events policy <> 1.

Definition unseen (w : Working) : Prop :=
  no_line fp (wk_queue w) /\ forall e, e ∈ wk_intake w -> le_fingerprint e <> fp.

Lemma set_queue_plan_intake qp w : wk_intake (set_queue_plan qp w) = wk_intake w.
Proof. done. Qed.

Lemma plan_item_intake g w i e :
  e ∈ wk_intake (plan_item (active_of recipients) policy ledger now g w i) ->
  e ∈ wk_intake w \/ le_fingerprint e = gi_fingerprint i.
Proof.
  unfold plan_item. set (w1 := count_change i now _).
  assert (e ∈ wk_intake w1 -> e ∈ wk_intake w \/ le_fingerprint e = gi_fingerprint i) as H1.
  { unfold w1, count_change. destruct (counts _); simpl; [|by left].
    rewrite elem_of_app, list_elem_of_singleton. intros [?| ->]; auto. }
  destruct (wk_flap_holds w1 !! _); [done|].
  assert (wk_intake (fst (detect_flapping policy i now w1)) = wk_intake w1) as H2
    by (unfold detect_flapping; by destruct (_ && _)).
  destruct (detect_flapping policy i now w1) as [w2 item2]. simpl in H2.
  destruct (filter _ (active_of recipients)); [by rewrite H2|].
  destruct (bool_decide _); rewrite set_queue_plan_intake, H2; done.
Qed.

Lemma route_forgotten r g i queue p :
  gi_reason i = NotifyReason.Resolved -> gi_fingerprint i = fp -> no_line fp queue ->
  fst (route r g i ledger now queue p) = queue.
Proof using log_silent.
  intros Hr Hf Hno. unfold route. destruct (refused r g i); [done|].
  assert (position (fun qd => bool_decide (qi_channel_id qd.1 = rc_id r) &&
            bool_decide (qi_fp qd.1 = gi_fingerprint i)) queue = None) as ->.
  { destruct (position _ queue) as [n|] eqn:E; [|done].
    apply position_Some in E as (qd & Hq & Hp). bools. exfalso.
    apply (Hno qd); [by eapply list_elem_of_lookup_2|congruence]. }
  simpl. assert (filter (fun e => le_channel_id e = rc_id r /\ le_fingerprint e = gi_fingerprint i)
                   (ld_log ledger) = []) as ->.
  { apply filter_none. intros e He [_ Hef]. apply (log_silent e He). congruence. }
  unfold refused_by_history. rewrite Hr. done.
Qed.

Lemma plan_item_forgotten g i w :
  gi_reason i = NotifyReason.Resolved -> gi_fingerprint i = fp -> unseen w ->
  no_line fp (wk_queue (plan_item (active_of recipients) policy ledger now g w i)).
Proof using log_silent flap_rule.
  intros Hr Hf [Hno Hin]. unfold plan_item, count_change. rewrite Hr. simpl.
  destruct (wk_flap_holds w !! gi_fingerprint i) as [until|]; simpl.
  { intros qd Hqd. apply purge_fingerprint_queue in Hqd as [_ ?]. congruence. }
  unfold detect_flapping. rewrite Hr. simpl.
  assert (forall l, (forall e, e ∈ l -> le_fingerprint e <> fp) ->
            changes_of policy (gi_fingerprint i) now
              (l ++ [{| le_channel_id := INTAKE_CHANNEL; le_fingerprint := gi_fingerprint i;
                        le_reason := NotifyReason.Resolved; le_at := now |}]) <= 1) as Hch.
  { intros l Hl. unfold changes_of. rewrite filter_app, length_app.
    rewrite (filter_none _ l).
    - rewrite filter_cons. case_decide; simpl; lia.
    - intros e He [Hef _]. apply (Hl e He). congruence. }
  specialize (Hch _ Hin). rewrite andb_true_r.
  destruct (_ && _) eqn:E.
  { bools. exfalso. apply flap_rule. lia. }
  assert (forall rs qp, no_line fp (fst qp) -> no_line fp (fst
            (foldl (fun '(queue, plan) recipient => route recipient g i ledger now queue plan) qp rs)))
    as Hfold.
  { intros rs qp Hqp. apply (foldl_invariant (fun qp => no_line fp (fst qp))); [done|].
    intros [q p] r _ Hq. by rewrite route_forgotten. }
  destruct (filter _ (active_of recipients)) as [|t0 ts]; [done|].
  rewrite bool_decide_false by congruence. by apply (Hfold (t0 :: ts)).
Qed.

Lemma forgotten_all l g i :
  (forall gi, gi ∈ l -> gi.1 ∈ groups /\ gi.2 ∈ ag_items gi.1) ->
  NoDup ((fun gi : AlertGroup * GroupItem => gi_fingerprint gi.2) <$> l) ->
  (g, i) ∈ l -> gi_reason i = NotifyReason.Resolved -> gi_fingerprint i = fp ->
  (forall q, q ∈ ld_queue ledger -> qi_fp q <> fp) ->
  no_line fp (wk_queue (foldl item_step (start ledger now) l)).
Proof using log_silent flap_rule.
  intros Hl Hnd Hgi Hr Hf Hq. apply list_elem_of_split in Hgi as (l1 & l2 & ->).
  rewrite fmap_app, fmap_cons in Hnd. apply NoDup_app in Hnd as (_ & H1 & [H2 _]%NoDup_cons).
  rewrite foldl_app. cbn [foldl]. change ((g, i).1) with g. change ((g, i).2) with i.
  assert (unseen (foldl item_step (start ledger now) l1)) as Hun.
  { apply (foldl_invariant unseen).
    - split; simpl.
      + intros qd (q & -> & ?)%list_elem_of_fmap. by apply Hq.
      + intros e [_ He]%list_elem_of_filter. by apply log_silent.
    - intros w [g' i'] Hin [Hno Hint]. destruct (Hl (g', i')) as [Hg' Hi']; [set_solver|].
      assert (gi_fingerprint i' <> fp) as Hne.
      { intros Heq. apply (H1 fp); [|simpl; rewrite Hf; left].
        apply list_elem_of_fmap. by exists (g', i'). }
      split; [by apply (other_alert_untouched groups recipients policy ledger now fp g' i' w)|].
      intros e [?|Heq]%plan_item_intake; [by apply Hint|].
      simpl in Heq. congruence. }
  apply (foldl_invariant (fun w => no_line fp (wk_queue w))); [by apply plan_item_forgotten|].
  intros w [g' i'] Hin Hno. destruct (Hl (g', i')) as [Hg' Hi']; [set_solver|].
  apply (other_alert_untouched groups recipients policy ledger now fp g' i' w); [done|done| |done].
  intros Heq. apply H2. apply list_elem_of_fmap. exists (g', i'). split; [|done].
  change (gi_fingerprint i = gi_fingerprint i'). by rewrite Hf.
Qed.
End ForgottenResolution.

(** Every alert a cycle presents is settled, once.  With one line per alert in the
    messages of the cycle: an alert that is announced has a line that is sent or kept in
    the queue; and an alert is reported as handled, so that the cycle does not present
    it again, exactly when it was presented and is not the relay of an unacknowledged
    alert whose first message is missing or too recent (a held, flapping one excepted). *)
Theorem presented_alerts_are_settled {C : Calendar} groups recipients policy ledger now :
  NoDup (qi_key <$> ld_queue ledger) ->
  NoDup ((fun gi : AlertGroup * GroupItem => gi_fingerprint gi.2) <$> lines_of groups) ->
  let p := plan groups recipients policy ledger now in
  (forall fp, fp ∈ pl_announced p ->
     exists q, q ∈ lines groups recipients policy ledger now /\ qi_fp q = fp) /\
  (forall fp, fp ∈ pl_handled p <->
     exists g i, g ∈ groups /\ i ∈ ag_items g /\ gi_fingerprint i = fp /\
       ~ (~ held ledger now fp /\ not_due recipients policy ledger now g i)).
Proof.
  intros Hk Hnd p.
  destruct (the_plan_spec groups recipients policy ledger now Hk)
    as (queue & ogss & Hp & Hsub & _ & Hndk & He & Ho & Ha & Hh & _ & _ & _).
  fold (the_plan groups recipients policy ledger now) in p.
  rewrite plan_groups_lines in *. split.
  - intros fp Hfp. unfold p in Hfp. rewrite Ha in Hfp.
    destruct (announced_all groups recipients policy ledger now (lines_of groups) (start ledger now))
      with (fp := fp) as (q & Hq & Hqf); try done.
    { intros [g i] Hgi%elem_of_lines. done. }
    exists q. split; [|done]. unfold lines. rewrite He, Ho.
    assert (q ∈ (fst <$> queue) ++ concat (og_retry <$> concat ogss)) as Hin.
    { rewrite Hp. by apply (list_elem_of_fmap_2 fst _ (q, true)). }
    rewrite elem_of_app in Hin |- *. destruct Hin as [Hin|]; [left|by right].
    apply list_elem_of_fmap in Hin as ([q' d] & -> & Hqd). simpl in *.
    apply list_elem_of_fmap. exists (q', d). split; [done|]. apply list_elem_of_filter.
    split; [|done]. assert ((q', d) = (q', true)) as [= ->]; [|done].
    eapply (keys_inj _ _ _ Hndk); [by apply Hsub|done|done].
  - intros fp. unfold p. rewrite Hh.
    destruct (handled_all recipients policy ledger now (lines_of groups) Hnd) as [_ ->]. split.
    + intros ([g i] & [? ?]%elem_of_lines & ? & ?). by exists g, i.
    + intros (g & i & ? & ? & ? & ?). exists (g, i). split; [by apply elem_of_lines|done].
Qed.

(** A flapping alert that is held stays silent: while its hold lasts, when the cycle
    presents it no line about it is sent, kept or written to any channel, and the
    rows that were waiting about it are all deleted. *)
Theorem held_alert_stays_silent {C : Calendar} groups recipients policy ledger now fp g i :
  NoDup (qi_key <$> ld_queue ledger) -> held ledger now fp ->
  g ∈ groups -> i ∈ ag_items g -> gi_fingerprint i = fp ->
  (forall q, q ∈ lines groups recipients policy ledger now -> qi_fp q <> fp) /\
  (forall q id, q ∈ ld_queue ledger -> qi_fp q = fp -> qi_id q = Some id ->
     id ∈ pl_dequeue (plan groups recipients policy ledger now)).
Proof.
  intros Hk Hheld Hg Hi Hfp.
  destruct (the_plan_spec groups recipients policy ledger now Hk)
    as (queue & ogss & Hp & Hsub & _ & _ & He & Ho & _ & _ & Hd & _ & _).
  fold (the_plan groups recipients policy ledger now).
  rewrite plan_groups_lines in *.
  destruct (held_all groups recipients policy ledger now fp (lines_of groups) Hheld) as [_ Hc].
  { intros [g' i'] Hgi%elem_of_lines. done. }
  rewrite decide_True in Hc.
  2:{ apply list_elem_of_fmap. exists (g, i). split; [done|]. by apply elem_of_lines. }
  destruct Hc as [Hno Hdeq]. split.
  - intros q [d Hin]%lines_in_work; [|done]. rewrite plan_groups_lines in Hin.
    by apply (Hno (q, d)).
  - intros q id Hq Hf Hid. rewrite Hd. by eapply Hdeq.
Qed.

(** ** A small installation *)

Module Mailroom.
Definition item (fp : string) (severity : Severity) (reason : NotifyReason) : GroupItem := {|
  gi_fingerprint := fp; gi_rule_uid := "disk_full"; gi_rule_name := "Disk"; gi_severity := severity;
  gi_reason := reason; gi_value := None; gi_score := None; gi_unit := ""; gi_operator := ">";
  gi_threshold := Float64.f64_zero; gi_series_key := fp; gi_since := None;
  gi_phase := EffectivePhase.Firing; gi_note := None |}.

Definition group (target : Z) (items : list GroupItem) : AlertGroup := {|
  ag_target_id := Some target; ag_target_name := display_i64 target; ag_target_kind := "snmp";
  ag_target_tags := ∅; ag_severity := Severity.Warning; ag_items := items; ag_channels := [];
  ag_at := 0 |}.

Definition channel (id : Z) (kind : string) (quiet : option Schedule) : Recipient := {|
  rc_id := id; rc_kind := kind; rc_enabled := true;
  rc_policy := {| min_severity := Severity.Info; notify_resolved := true; min_interval_secs := 0;
                  quiet_hours := quiet; cp_matcher := ChannelMatcher.default |} |}.

Definition queued (channel : Z) (fp : string) (severity : Severity) (reason : NotifyReason)
    (at_ : DateTime) : QueuedItem := {|
  qi_id := Some 7; qi_channel_id := channel; qi_target_id := Some 1; qi_target_name := "nas";
  qi_hold := Hold.Batch; qi_item := item fp severity reason; qi_resolved_meanwhile := false;
  qi_queued_at := at_ |}.

Definition empty : Ledger := {|
  ld_queue := []; ld_log := []; ld_flap_holds := ∅; ld_messages := [] |}.

Definition with_queue (q : list QueuedItem) : Ledger := {|
  ld_queue := q; ld_log := []; ld_flap_holds := ∅; ld_messages := [] |}.

(** Every day from 22:00 to 07:00 UTC, and a Sunday at 23:00. *)
Definition nights : Schedule := Schedule.Weekly [0; 1; 2; 3; 4; 5; 6] 1320 420 0 None.
Definition night : DateTime := td_days 20541 + td_hours 23.

Definition policy (cap : Z) : GlobalPolicy := {|
  batch_window_secs := 60; max_per_hour := cap; flap_events := 4; flap_window_secs := 1800;
  flap_hold_secs := 1800; gp_public_url := ""; escalate_after_secs := 900;
  escalate_channel := Some 9 |}.
End Mailroom.
Import Mailroom.

(** An on-call channel can exceed the hourly cap: it gets one message per device, and
    the cap is only checked before the first, so a cycle with two devices sends two
    messages to a channel whose cap is one message an hour. *)
Theorem oncall_burst_exceeds_the_cap :
  exists groups recipients policy ledger now r,
    NoDup (rc_id <$> recipients) /\ r ∈ recipients /\ ld_messages ledger = [] /\
    max_per_hour policy = 1 /\
    length (filter (fun og => og_channel_id og = rc_id r)
              (pl_outgoing (plan groups recipients policy ledger now))) = 2%nat.
Proof.
  exists [group 1 [item "a" Severity.Warning NotifyReason.Firing];
          group 2 [item "b" Severity.Warning NotifyReason.Firing]],
         [channel 1 "pagerduty" None], (Mailroom.policy 1), empty, night, (channel 1 "pagerduty" None).
  split_and!; [apply NoDup_singleton|left|done..|]. vm_compute. reflexivity.
Qed.

(** A warning leaves in the middle of quiet hours when it was queued for batching just
    before they began: only the lines routed during quiet hours are held for their end. *)
Theorem batch_line_leaves_in_quiet_hours :
  exists recipients policy ledger now r og q,
    r ∈ recipients /\ in_quiet_hours (rc_policy r) now = true /\
    in_quiet_hours (rc_policy r) (qi_queued_at q) = false /\
    og ∈ pl_outgoing (plan [] recipients policy ledger now) /\ og_channel_id og = rc_id r /\
    q ∈ og_retry og /\ gi_severity (qi_item q) = Severity.Warning /\
    gi_reason (qi_item q) = NotifyReason.Firing.
Proof.
  set (q := queued 1 "a" Severity.Warning NotifyReason.Firing (td_days 20541 + td_seconds 79170)).
  exists [channel 1 "email" (Some nights)], (Mailroom.policy 20), (with_queue [q]),
    (td_days 20541 + td_seconds 79230), (channel 1 "email" (Some nights)),
    (outgoing 1 [q] None (td_days 20541 + td_seconds 79230)), q.
  split_and!; [left|vm_compute; reflexivity|vm_compute; reflexivity| |reflexivity|left|reflexivity..].
  assert (pl_outgoing (plan [] [channel 1 "email" (Some nights)] (Mailroom.policy 20) (with_queue [q])
            (td_days 20541 + td_seconds 79230)) =
          [outgoing 1 [q] None (td_days 20541 + td_seconds 79230)]) as -> by (vm_compute; reflexivity).
  left.
Qed.

Lemma one_line_per_channel_and_alert_witness :
  let p := plan [Mailroom.group 1 [item "a" Severity.Warning NotifyReason.Reminder]]
             [channel 1 "email" None] (Mailroom.policy 20)
             (with_queue [queued 1 "a" Severity.Warning NotifyReason.Firing 0]) night in
  NoDup (qi_key <$> pl_enqueue p ++ concat (og_retry <$> pl_outgoing p)).
Proof. intros p. apply one_line_per_channel_and_alert. apply NoDup_singleton. Defined.

Lemma hourly_cap_is_respected_witness :
  let ledger := {| ld_queue := []; ld_log := []; ld_flap_holds := ∅;
                   ld_messages := [(1, night - td_seconds 10)] |} in
  filter (fun og => og_channel_id og = 1)
    (pl_outgoing (plan [Mailroom.group 1 [item "a" Severity.Critical NotifyReason.Firing]]
       [channel 1 "email" None] (Mailroom.policy 1) ledger night)) = [].
Proof.
  intros ledger.
  destruct (hourly_cap_is_respected
              [Mailroom.group 1 [item "a" Severity.Critical NotifyReason.Firing]]
              [channel 1 "email" None] (Mailroom.policy 1) ledger night (channel 1 "email" None))
    as [H _]; [constructor|apply NoDup_singleton|left|].
  apply H; [reflexivity|vm_compute; discriminate].
Defined.

(** A channel that carried the alert an hour ago, and the plan of its resolution. *)
Definition told_ledger : Ledger := {|
  ld_queue := [queued 1 "a" Severity.Warning NotifyReason.Firing (night - td_seconds 120)];
  ld_log := [{| le_channel_id := 1; le_fingerprint := "a"; le_reason := NotifyReason.Firing;
                le_at := night - td_seconds 1800 |}];
  ld_flap_holds := {["b" := night + td_seconds 60]}; ld_messages := [] |}.

Definition cycle_groups : list AlertGroup :=
  [Mailroom.group 1 [item "a" Severity.Critical NotifyReason.Resolved]].

Definition resolved_line : QueuedItem := {|
  qi_id := Some 7; qi_channel_id := 1; qi_target_id := Some 1; qi_target_name := "nas";
  qi_hold := Hold.Batch; qi_item := item "a" Severity.Critical NotifyReason.Resolved;
  qi_resolved_meanwhile := true; qi_queued_at := night - td_seconds 120 |}.

Lemma resolved_line_leaves :
  pl_outgoing (plan cycle_groups [channel 1 "email" None] (Mailroom.policy 20) told_ledger night) =
  [outgoing 1 [resolved_line] None night].
Proof. vm_compute. reflexivity. Qed.

Lemma resolved_line_in_lines :
  resolved_line ∈ lines cycle_groups [channel 1 "email" None] (Mailroom.policy 20) told_ledger night.
Proof.
  eapply (outgoing_lines _ _ _ _ _ (outgoing 1 [resolved_line] None night)); [|left].
  unfold the_plan. rewrite resolved_line_leaves. left.
Qed.

Lemma resolutions_follow_an_announcement_witness :
  told cycle_groups [channel 1 "email" None] (Mailroom.policy 20) told_ledger night 1 "a".
Proof.
  apply (resolutions_follow_an_announcement cycle_groups [channel 1 "email" None]
           (Mailroom.policy 20) told_ledger night resolved_line);
    [apply NoDup_singleton|apply resolved_line_in_lines|reflexivity].
Defined.

Lemma filters_hold_on_every_line_witness :
  resolved_line ∈ ld_queue told_ledger \/
  exists g i, g ∈ cycle_groups /\ i ∈ ag_items g /\ gi_fingerprint i = "a".
Proof.
  destruct (filters_hold_on_every_line cycle_groups [channel 1 "email" None]
              (Mailroom.policy 20) told_ledger night resolved_line)
    as [H|(r & g & i & _ & _ & _ & Hg & Hi & Hf & _)];
    [apply NoDup_singleton|apply resolved_line_in_lines|by left|right; by exists g, i].
Defined.

Definition relay_groups : list AlertGroup :=
  [Mailroom.group 1 [item "a" Severity.Warning NotifyReason.Unacked]].

Definition relay_ledger : Ledger := {|
  ld_queue := []; ld_log := ld_log told_ledger; ld_flap_holds := ∅; ld_messages := [] |}.

Definition relay_line : QueuedItem := {|
  qi_id := None; qi_channel_id := 9; qi_target_id := Some 1; qi_target_name := "1";
  qi_hold := Hold.Batch; qi_item := item "a" Severity.Warning NotifyReason.Unacked;
  qi_resolved_meanwhile := false; qi_queued_at := night |}.

Lemma relay_line_in_lines :
  relay_line ∈ lines relay_groups [channel 1 "email" None; channel 9 "pagerduty" (Some nights)]
                 (Mailroom.policy 20) relay_ledger night.
Proof.
  eapply (outgoing_lines _ _ _ _ _ (outgoing 9 [relay_line] None night)); [|left]. unfold the_plan.
  assert (pl_outgoing (plan relay_groups [channel 1 "email" None; channel 9 "pagerduty" (Some nights)]
            (Mailroom.policy 20) relay_ledger night) = [outgoing 9 [relay_line] None night]) as ->
    by (vm_compute; reflexivity).
  left.
Qed.

Lemma relay_waits_for_the_first_message_witness :
  exists e, e ∈ ld_log relay_ledger /\ le_at e + secs 900 <= night.
Proof.
  destruct (relay_waits_for_the_first_message relay_groups
              [channel 1 "email" None; channel 9 "pagerduty" (Some nights)]
              (Mailroom.policy 20) relay_ledger night relay_line)
    as [[]%elem_of_nil|(after & e & Ha & He & _ & _ & _ & Hle)];
    [constructor|apply relay_line_in_lines|reflexivity|].
  injection Ha as <-. exists e. split; [exact He|exact Hle].
Defined.

Lemma quiet_hours_hold_witness :
  gi_severity (qi_item relay_line) = Severity.Critical \/
  gi_reason (qi_item relay_line) = NotifyReason.Unacked \/
  (gi_reason (qi_item relay_line) = NotifyReason.Resolved /\
   wakes relay_groups [channel 1 "email" None; channel 9 "pagerduty" (Some nights)] (Mailroom.policy 20)
     relay_ledger night (channel 9 "pagerduty" (Some nights)) "a") \/
  (relay_line ∈ ld_queue relay_ledger /\ qi_hold relay_line = Hold.Batch).
Proof.
  apply (quiet_hours_hold relay_groups [channel 1 "email" None; channel 9 "pagerduty" (Some nights)]
           (Mailroom.policy 20) relay_ledger night (channel 9 "pagerduty" (Some nights))
           (outgoing 9 [relay_line] None night)).
  - constructor.
  - repeat constructor; rewrite ?list_elem_of_singleton; [by vm_compute|apply not_elem_of_nil].
  - right. left.
  - vm_compute. reflexivity.
  - assert (pl_outgoing (plan relay_groups [channel 1 "email" None; channel 9 "pagerduty" (Some nights)]
              (Mailroom.policy 20) relay_ledger night) = [outgoing 9 [relay_line] None night]) as ->
      by (vm_compute; reflexivity). left.
  - reflexivity.
  - left.
Defined.

Lemma presented_alerts_are_settled_witness :
  "a" ∈ pl_handled (plan cycle_groups [channel 1 "email" None] (Mailroom.policy 20) told_ledger night).
Proof.
  destruct (presented_alerts_are_settled cycle_groups [channel 1 "email" None] (Mailroom.policy 20)
              told_ledger night) as [_ H]; [apply NoDup_singleton..|].
  apply H. exists (Mailroom.group 1 [item "a" Severity.Critical NotifyReason.Resolved]),
    (item "a" Severity.Critical NotifyReason.Resolved).
  split_and!; [left|left|reflexivity|]. intros (_ & Hr & _). discriminate Hr.
Defined.

Lemma held_alert_stays_silent_witness :
  let ledger := {| ld_queue := [queued 1 "b" Severity.Warning NotifyReason.Firing night];
                   ld_log := []; ld_flap_holds := {["b" := night + td_seconds 60]};
                   ld_messages := [] |} in
  7 ∈ pl_dequeue (plan [Mailroom.group 1 [item "b" Severity.Warning NotifyReason.Firing]]
                    [channel 1 "email" None] (Mailroom.policy 20) ledger night).
Proof.
  intros ledger.
  destruct (held_alert_stays_silent [Mailroom.group 1 [item "b" Severity.Warning NotifyReason.Firing]]
              [channel 1 "email" None] (Mailroom.policy 20) ledger night "b"
              (Mailroom.group 1 [item "b" Severity.Warning NotifyReason.Firing])
              (item "b" Severity.Warning NotifyReason.Firing)) as [_ H].
  - apply NoDup_singleton.
  - exists (night + td_seconds 60). split; [reflexivity|unfold td_seconds, ns_per_s; lia].
  - left.
  - left.
  - reflexivity.
  - apply (H (queued 1 "b" Severity.Warning NotifyReason.Firing night)); [left|reflexivity|reflexivity].
Defined.
