(* ===== verification/Db.v ===== *)
(** * The alerting tables ([db/alerts.rs])

    The SQLite tables the engine reads and writes, each a finite map by its primary
    key or the list of its rows, and one function per statement sequence of the
    source.  Instants are stored as RFC 3339 text with milliseconds: [to_sql]
    truncates them, and the order of the texts is that of the instants for the years
    0 to 9999.  The statements are assumed to succeed; JSON columns read back what was
    written, serde_json's documented round trip. *)
From S2P Require Import Prelude Float64 Chrono Model Machine Silence Overrides Baseline.
From S2P Require Import Group Cycle Matcher NotifyPolicy.

Definition to_sql (t : DateTime) : DateTime := t / ns_per_ms * ns_per_ms.

Definition as_secs (d : Duration) : Z := d / ns_per_s.

Record AlertRow := {
  ar_rule_uid : string;
  ar_target_id : option TargetId;
  ar_series_key : string;
  ar_labels : gmap string string;
  ar_severity : Severity;
  ar_state : AlertState;
}.

Record HistoryRow := {
  hr_id : Z;
  hr_fingerprint : string;
  hr_rule_uid : string;
  hr_target_id : option TargetId;
  hr_from : Phase;
  hr_to : Phase;
  hr_severity : Severity;
  hr_value : option f64;
  hr_notified : bool;
  hr_reason : string;
  hr_at : DateTime;
  hr_dismissed : bool;
}.

Record SeriesRow := { se_first_seen : DateTime; se_last_update : DateTime; se_updates : Z }.
Record BaselineRow := { ba_bucket : Bucket; ba_last_update : DateTime }.

Section Db.
Context {C : Calendar}.

(** A channel, without its secrets, with what the last delivery left on it. *)
Record ChannelRow := {
  ch_recipient : Recipient;
  ch_last_sent_at : option DateTime;
  ch_last_error : option string;
}.

Record Db := {
  db_rules : list Rule;
  db_next_rule : Z;
  db_targets : list TargetNode;
  db_states : gmap string AlertRow;
  db_history : list HistoryRow;
  db_next_history : Z;
  db_silences : list Silence;
  db_overrides : gmap (string * TargetId) RuleOverride;
  db_series : gmap string SeriesRow;
  db_baselines : gmap (string * Z) BaselineRow;
  db_queue : list QueuedItem;
  db_next_queue : Z;
  db_log : list LogEntry;
  db_flap : gmap string DateTime;
  db_messages : list (Z * DateTime);
  db_channels : list ChannelRow;
  db_global : GlobalPolicy;
}.

(** Assignments to the tables. *)
Definition set_rules (x : list Rule) (next : Z) (d : Db) : Db :=
  Build_Db x next (db_targets d) (db_states d) (db_history d) (db_next_history d) (db_silences d) (db_overrides d)
    (db_series d) (db_baselines d) (db_queue d) (db_next_queue d) (db_log d) (db_flap d)
    (db_messages d) (db_channels d) (db_global d).
Definition set_states (x : gmap string AlertRow) (d : Db) : Db :=
  Build_Db (db_rules d) (db_next_rule d) (db_targets d) x (db_history d) (db_next_history d) (db_silences d)
    (db_overrides d) (db_series d) (db_baselines d) (db_queue d) (db_next_queue d) (db_log d)
    (db_flap d) (db_messages d) (db_channels d) (db_global d).
Definition set_history (x : list HistoryRow) (next : Z) (d : Db) : Db :=
  Build_Db (db_rules d) (db_next_rule d) (db_targets d) (db_states d) x next (db_silences d)
    (db_overrides d) (db_series d) (db_baselines d) (db_queue d) (db_next_queue d) (db_log d)
    (db_flap d) (db_messages d) (db_channels d) (db_global d).
Definition set_silences (x : list Silence) (d : Db) : Db :=
  Build_Db (db_rules d) (db_next_rule d) (db_targets d) (db_states d) (db_history d) (db_next_history d) x
    (db_overrides d) (db_series d) (db_baselines d) (db_queue d) (db_next_queue d) (db_log d)
    (db_flap d) (db_messages d) (db_channels d) (db_global d).
Definition set_overrides (x : gmap (string * TargetId) RuleOverride) (d : Db) : Db :=
  Build_Db (db_rules d) (db_next_rule d) (db_targets d) (db_states d) (db_history d) (db_next_history d)
    (db_silences d) x (db_series d) (db_baselines d) (db_queue d) (db_next_queue d) (db_log d)
    (db_flap d) (db_messages d) (db_channels d) (db_global d).
Definition set_baselines (x : gmap string SeriesRow) (y : gmap (string * Z) BaselineRow)
    (d : Db) : Db :=
  Build_Db (db_rules d) (db_next_rule d) (db_targets d) (db_states d) (db_history d) (db_next_history d)
    (db_silences d) (db_overrides d) x y (db_queue d) (db_next_queue d) (db_log d)
    (db_flap d) (db_messages d) (db_channels d) (db_global d).
Definition set_queue (x : list QueuedItem) (next : Z) (d : Db) : Db :=
  Build_Db (db_rules d) (db_next_rule d) (db_targets d) (db_states d) (db_history d) (db_next_history d)
    (db_silences d) (db_overrides d) (db_series d) (db_baselines d) x next (db_log d)
    (db_flap d) (db_messages d) (db_channels d) (db_global d).
Definition set_ledger (l : list LogEntry) (f : gmap string DateTime) (m : list (Z * DateTime))
    (d : Db) : Db :=
  Build_Db (db_rules d) (db_next_rule d) (db_targets d) (db_states d) (db_history d) (db_next_history d)
    (db_silences d) (db_overrides d) (db_series d) (db_baselines d) (db_queue d) (db_next_queue d)
    l f m (db_channels d) (db_global d).
Definition set_channels (x : list ChannelRow) (d : Db) : Db :=
  Build_Db (db_rules d) (db_next_rule d) (db_targets d) (db_states d) (db_history d) (db_next_history d)
    (db_silences d) (db_overrides d) (db_series d) (db_baselines d) (db_queue d) (db_next_queue d)
    (db_log d) (db_flap d) (db_messages d) x (db_global d).

(** ** Rules *)

(** A rule as it is read back from its row: whole seconds, no zero interval. *)
Definition some_positive (secs : option Z) : option Duration :=
  secs ← secs; if 0 <? secs then Some (td_seconds secs) else None.

Definition rule_from_row (id : Z) (enabled : bool) (r : Rule) : Rule := {|
  r_id := id; r_uid := r_uid r; r_name := r_name r; r_description := r_description r;
  r_kind := RuleKind.parse (RuleKind.as_str (r_kind r)); r_query := r_query r;
  r_operator := Operator.parse (Operator.as_str (r_operator r));
  r_threshold := r_threshold r; r_clear_threshold := r_clear_threshold r;
  r_for_duration := td_seconds (Z.max (as_i64 (as_secs (r_for_duration r))) 0);
  r_severity := Severity.parse (Severity.as_str (r_severity r));
  r_selector := r_selector r; r_channels := r_channels r; r_params := r_params r;
  r_unit := r_unit r;
  r_repeat_interval := some_positive ((fun d => as_i64 (as_secs d)) <$> r_repeat_interval r);
  r_escalate_after := some_positive ((fun d => as_i64 (as_secs d)) <$> r_escalate_after r);
  r_enabled := enabled; r_builtin := r_builtin r |}.

Definition list_enabled_rules (d : Db) : list Rule :=
  filter (fun r => r_enabled r = true) (db_rules d).

Definition has_rule (uid : string) (rules : list Rule) : bool :=
  existsb (fun r => bool_decide (r_uid r = uid)) rules.

(** [ON CONFLICT(uid) DO UPDATE]: the identifier and the origin stay. *)
Definition upsert_rule (rule : Rule) (d : Db) : Db :=
  if has_rule (r_uid rule) (db_rules d) then
    set_rules ((fun r => if bool_decide (r_uid r = r_uid rule)
                         then let r' := rule_from_row (r_id r) (r_enabled rule) rule in
                              Build_Rule (r_id r') (r_uid r') (r_name r') (r_description r') (r_kind r')
                                (r_query r') (r_operator r') (r_threshold r') (r_clear_threshold r')
                                (r_for_duration r') (r_severity r') (r_selector r') (r_channels r')
                                (r_params r') (r_unit r') (r_repeat_interval r')
                                (r_escalate_after r') (r_enabled r') (r_builtin r)
                         else r) <$> db_rules d) (db_next_rule d) d
  else
    set_rules (db_rules d ++ [rule_from_row (db_next_rule d) (r_enabled rule) rule])
      (db_next_rule d + 1) d.

Definition set_rule_enabled (id : Z) (enabled : bool) (d : Db) : Db * bool :=
  (set_rules ((fun r => if bool_decide (r_id r = id)
                        then Build_Rule (r_id r) (r_uid r) (r_name r) (r_description r) (r_kind r)
                               (r_query r) (r_operator r) (r_threshold r) (r_clear_threshold r)
                               (r_for_duration r) (r_severity r) (r_selector r) (r_channels r)
                               (r_params r) (r_unit r) (r_repeat_interval r) (r_escalate_after r)
                               enabled (r_builtin r)
                        else r) <$> db_rules d) (db_next_rule d) d,
   existsb (fun r => bool_decide (r_id r = id)) (db_rules d)).

Definition delete_rule (id : Z) (d : Db) : Db * bool :=
  match find_map (fun r => if bool_decide (r_id r = id) then Some (r_uid r) else None)
          (db_rules d) with
  | None => (d, false)
  | Some uid =>
      (set_states (filter (fun kv => ar_rule_uid kv.2 <> uid) (db_states d))
         (set_rules (filter (fun r => r_id r <> id) (db_rules d)) (db_next_rule d) d), true)
  end.

(** The rules that ship with the product, given by [rules.rs]: one missing from the
    table is added enabled, and the text of a built-in one follows the version. *)
Definition seed_rule (rule : Rule) (d : Db) : Db :=
  let d :=
    if has_rule (r_uid rule) (db_rules d) then d
    else
      let r' := rule_from_row (db_next_rule d) true rule in
      set_rules (db_rules d ++ [
          Build_Rule (r_id r') (r_uid r') (r_name r') (r_description r') (r_kind r') (r_query r')
            (r_operator r') (r_threshold r') (r_clear_threshold r') (r_for_duration r')
            (r_severity r') (r_selector r') (r_channels r') (r_params r') (r_unit r')
            (r_repeat_interval r') (r_escalate_after r') true true])
        (db_next_rule d + 1) d in
  set_rules ((fun r => if bool_decide (r_uid r = r_uid rule) && r_builtin r
                       then Build_Rule (r_id r) (r_uid r) (r_name rule) (r_description rule)
                              (r_kind r) (r_query rule) (r_operator r) (r_threshold r)
                              (r_clear_threshold r) (r_for_duration r) (r_severity r)
                              (r_selector r) (r_channels r) (r_params r) (r_unit rule)
                              (r_repeat_interval r) (r_escalate_after r) (r_enabled r)
                              (r_builtin r)
                       else r) <$> db_rules d) (db_next_rule d) d.

Definition seed_builtin_rules (builtin : list Rule) (d : Db) : Db :=
  foldl (fun d rule => seed_rule rule d) d builtin.

(** ** The state of the alerts *)

(** What is read back of a state that was written. *)
Definition sql_state (s : AlertState) : AlertState := {|
  phase := Phase.parse (Phase.as_str (phase s));
  condition_since := to_sql <$> condition_since s; firing_since := to_sql <$> firing_since s;
  resolved_at := to_sql <$> resolved_at s; last_eval_at := to_sql <$> last_eval_at s;
  last_notified_at := to_sql <$> last_notified_at s;
  notify_count := Z.max (notify_count s) 0 mod 2 ^ 32;
  suppressed := suppressed s; suppressed_by := suppressed_by s; silenced := silenced s;
  learning := learning s; as_value := as_value s; as_score := as_score s;
  acked_until := to_sql <$> acked_until s; acked_by := acked_by s; ack_note := ack_note s |}.

Definition stored_of_row (fp : string) (row : AlertRow) : StoredAlert := {|
  sa_fingerprint := fp; sa_rule_uid := ar_rule_uid row; sa_target_id := ar_target_id row;
  sa_series_key := ar_series_key row; sa_labels := ar_labels row;
  sa_state := let s := ar_state row in
              set_notified (last_notified_at s) (Z.max (notify_count s) 0 mod 2 ^ 32) s |}.

(** Rows in the order of the primary key. *)
Definition load_states (d : Db) : list StoredAlert :=
  (fun kv => stored_of_row kv.1 kv.2) <$> btree_to_list string_cmp (db_states d).

Definition is_active_phase (p : Phase) : bool :=
  match p with Phase.Pending | Phase.Firing => true | _ => false end.

(** The row of an outcome.  On an existing row the cycle never sets the
    acknowledgement: it keeps the stored one while the alert is active and the term
    has not come, and clears it otherwise. *)
Definition row_of_outcome (existing : option AlertRow) (a : AlertOutcome) : AlertRow :=
  let s := ao_state a in
  let written :=
    Build_AlertState (phase s) (to_sql <$> condition_since s) (to_sql <$> firing_since s)
      (to_sql <$> resolved_at s) (to_sql <$> last_eval_at s) (to_sql <$> last_notified_at s)
      (notify_count s) (suppressed s) (suppressed_by s) (silenced s) (learning s)
      (ao_value a) (ao_score a) (to_sql <$> acked_until s) (acked_by s) (ack_note s) in
  let state :=
    match existing with
    | None => written
    | Some row =>
        let old := ar_state row in
        let keep := is_active_phase (phase written) &&
                    match acked_until old, last_eval_at written with
                    | Some until, Some eval => eval <? until
                    | _, _ => false
                    end in
        if keep then set_acked (acked_until old) (acked_by old) (ack_note old) written
        else set_acked None None None written
    end in
  {| ar_rule_uid := ao_rule_uid a; ar_target_id := ao_target_id a;
     ar_series_key := ao_series_key a; ar_labels := ao_labels a;
     ar_severity := Severity.parse (Severity.as_str (ao_severity a)); ar_state := state |}.

Definition save_state (a : AlertOutcome) (m : gmap string AlertRow) : gmap string AlertRow :=
  <[ao_fingerprint a := row_of_outcome (m !! ao_fingerprint a) a]> m.

Definition save_states (alerts : list AlertOutcome) (d : Db) : Db :=
  set_states (foldl (fun m a => save_state a m) (db_states d) alerts) d.

Definition with_state (f : AlertState -> AlertState) (row : AlertRow) : AlertRow := {|
  ar_rule_uid := ar_rule_uid row; ar_target_id := ar_target_id row;
  ar_series_key := ar_series_key row; ar_labels := ar_labels row;
  ar_severity := ar_severity row; ar_state := f (ar_state row) |}.

(** An [UPDATE] of the row of one fingerprint. *)
Definition update_state (f : AlertState -> AlertState) (m : gmap string AlertRow) (fp : string) :
    gmap string AlertRow := alter (with_state f) fp m.

Definition touch_states (fingerprints : list string) (now : DateTime) (d : Db) : Db :=
  set_states (foldl (update_state (set_last_eval_at (Some (to_sql now)))) (db_states d)
                fingerprints) d.

Definition mark_notified (fingerprints : list string) (now : DateTime) (d : Db) : Db :=
  set_states
    (foldl (update_state (fun s => set_notified (Some (to_sql now)) (notify_count s + 1) s))
       (db_states d) fingerprints) d.

Definition purge_states (cycle_start : DateTime) (d : Db) : Db :=
  set_states
    (filter (fun kv => match last_eval_at (ar_state kv.2) with
                       | Some t => to_sql cycle_start <=? t
                       | None => true
                       end = true) (db_states d)) d.

Definition get_active (fp : string) (d : Db) : option StoredAlert :=
  row ← db_states d !! fp;
  if is_active_phase (phase (ar_state row)) then Some (stored_of_row fp row) else None.

(** New lines of the history, numbered one after the other. *)
Definition add_history (rows : list (Z -> HistoryRow)) (d : Db) : Db :=
  set_history (db_history d ++ imap (fun i row => row (db_next_history d + Z.of_nat i)) rows)
    (db_next_history d + Z.of_nat (length rows)) d.

(** ** Forgetting a target *)

Definition forget_row (now : DateTime) (kv : string * AlertRow) : option (Z -> HistoryRow) :=
  let '(fp, row) := kv in
  if is_active_phase (phase (ar_state row)) then
    Some (fun id => {|
            hr_id := id; hr_fingerprint := fp; hr_rule_uid := ar_rule_uid row; hr_target_id := ar_target_id row;
            hr_from := phase (ar_state row); hr_to := Phase.Resolved;
            hr_severity := ar_severity row; hr_value := as_value (ar_state row);
            hr_notified := false; hr_reason := FORGOTTEN_TARGET_REASON; hr_at := to_sql now;
            hr_dismissed := false |})
  else None.

Definition forget_target (target : TargetId) (now : DateTime) (d : Db) : Db * nat :=
  let mine := filter (fun kv => ar_target_id kv.2 = Some target) (db_states d) in
  let d1 := add_history (omap (forget_row now) (btree_to_list string_cmp mine)) d in
  let d2 := set_states (filter (fun kv => ar_target_id kv.2 <> Some target) (db_states d)) d1 in
  (set_queue (filter (fun q => qi_target_id q <> Some target) (db_queue d)) (db_next_queue d) d2,
   size mine).

(** ** Acknowledgement *)

Record Ack := { ak_until : DateTime; ak_by : string; ak_note : option string }.

Definition set_ack (fp : string) (ack : option Ack) (d : Db) : Db * bool :=
  match db_states d !! fp with
  | Some row =>
      if is_active_phase (phase (ar_state row)) then
        let d1 := set_states
                    (update_state (set_acked (to_sql ∘ ak_until <$> ack) (ak_by <$> ack)
                                     (ack ≫= ak_note)) (db_states d) fp) d in
        (match ack with
         | Some _ =>
             set_queue (filter (fun q => ~ (qi_fp q = fp /\ qi_resolved_meanwhile q = false))
                          (db_queue d)) (db_next_queue d) d1
         | None => d1
         end, true)
      else (d, false)
  | None => (d, false)
  end.

(** ** History and silences *)

Definition record_history (entries : list HistoryEntry) (notified : gset string) (d : Db) : Db :=
  add_history
    ((fun e id => {|
         hr_id := id; hr_fingerprint := he_fingerprint e; hr_rule_uid := he_rule_uid e;
         hr_target_id := he_target_id e; hr_from := tr_from (he_transition e);
         hr_to := tr_to (he_transition e); hr_severity := he_severity e; hr_value := he_value e;
         hr_notified := bool_decide (he_fingerprint e ∈ notified); hr_reason := he_reason e;
         hr_at := to_sql (he_at e); hr_dismissed := false |}) <$> entries) d.

Definition purge_history (before : DateTime) (d : Db) : Db :=
  set_history (filter (fun h => to_sql before <= hr_at h) (db_history d)) (db_next_history d) d.

(** The identifier is the one SQLite gives, never given before. *)
Definition create_silence (silence : Silence) (id : Z) (d : Db) : Db * Z :=
  (set_silences (db_silences d ++ [{|
       sl_id := id; sl_name := sl_name silence; sl_comment := sl_comment silence;
       sl_target_id := sl_target_id silence; sl_matchers := sl_matchers silence;
       sl_schedule := sl_schedule silence; sl_enabled := sl_enabled silence |}]) d, id).

Definition delete_silence (id : Z) (d : Db) : Db * bool :=
  (set_silences (filter (fun s => sl_id s <> id) (db_silences d)) d,
   existsb (fun s => bool_decide (sl_id s = id)) (db_silences d)).

Definition purge_expired_silences (now : DateTime) (d : Db) : Db :=
  set_silences (filter (fun s => is_expired (sl_schedule s) now = false) (db_silences d)) d.

(** ** Channels *)

(** The foreign key of the queue deletes the lines of the channel with it. *)
Definition delete_channel (id : Z) (d : Db) : Db * bool :=
  (set_queue (filter (fun q => qi_channel_id q <> id) (db_queue d)) (db_next_queue d)
     (set_channels (filter (fun ch => rc_id (ch_recipient ch) <> id) (db_channels d)) d),
   existsb (fun ch => bool_decide (rc_id (ch_recipient ch) = id)) (db_channels d)).

Definition get_channel (id : Z) (d : Db) : option ChannelRow :=
  find_map (fun ch => if bool_decide (rc_id (ch_recipient ch) = id) then Some ch else None)
    (db_channels d).

(** ** Baselines *)

Definition load_baselines (bucket : Z) (d : Db) : BaselineStore :=
  BaselineStore_new
    ((fun r => {| first_seen := se_first_seen r; updates := Z.max (se_updates r) 0 |}) <$> db_series d)
    ((fun r => {| ewma := ewma (ba_bucket r); mad := mad (ba_bucket r);
                  samples := Z.max (samples (ba_bucket r)) 0 mod 2 ^ 32 |}) <$>
       filter (fun kv => kv.1.2 = bucket) (db_baselines d)).

Definition save_series (now : DateTime) (m : gmap string SeriesRow) (ks : string * SeriesBaseline) :
    gmap string SeriesRow :=
  let '(key, series) := ks in
  <[key := {| se_first_seen := match m !! key with
                               | Some row => se_first_seen row
                               | None => to_sql (first_seen series)
                               end;
              se_last_update := to_sql now; se_updates := as_i64 (updates series) |}]> m.

Definition save_baselines (store : BaselineStore) (now : DateTime) (d : Db) : Db :=
  set_baselines
    (foldl (save_series now) (db_series d) (dirty_series store))
    (foldl (fun m kb => <[kb.1 := {| ba_bucket := kb.2; ba_last_update := to_sql now |}]> m)
       (db_baselines d) (dirty store)) d.

Definition purge_stale_baselines (before : DateTime) (d : Db) : Db :=
  let series := filter (fun kv => to_sql before <= se_last_update kv.2) (db_series d) in
  set_baselines series
    (filter (fun kv => is_Some (series !! kv.1.1)) (db_baselines d)) d.
End Db.
