(* ===== verification/PolicyStore.v ===== *)
(** * The notification ledger ([notify/policy_store.rs])

    Per-target overrides, the queue, the log of what was sent, the flap holds: what a
    cycle loads for [plan] and what is written of the plan and of each delivery.

    A queued line is stored as JSON: [reread] is what reading back a written line
    gives, [None] when it is unreadable.  serde_json gives back the line itself when its
    numbers are finite. *)
From S2P Require Import Prelude Chrono Model Machine Overrides Group Cycle NotifyPolicy Db.

Section PolicyStore.
Context {C : Calendar} (reread : GroupItem -> option GroupItem).

(** ** Policies *)

Definition save_global (policy : GlobalPolicy) (d : Db) : Db :=
  Build_Db (db_rules d) (db_next_rule d) (db_targets d) (db_states d) (db_history d) (db_next_history d)
    (db_silences d) (db_overrides d) (db_series d) (db_baselines d) (db_queue d) (db_next_queue d)
    (db_log d) (db_flap d) (db_messages d) (db_channels d) policy.

Definition save_channel_policy (id : Z) (policy : ChannelPolicy) (d : Db) : Db :=
  set_channels
    ((fun ch => let r := ch_recipient ch in
                if bool_decide (rc_id r = id) then
                  {| ch_recipient := {| rc_id := rc_id r; rc_kind := rc_kind r;
                                        rc_enabled := rc_enabled r; rc_policy := policy |};
                     ch_last_sent_at := ch_last_sent_at ch; ch_last_error := ch_last_error ch |}
                else ch) <$> db_channels d) d.

(** ** Overrides *)

(** The rows of a rule, of a target, or all, in the order of the key. *)
Definition list_overrides (rule_uid : option string) (target : option TargetId) (d : Db) :
    list RuleOverride :=
  filter (fun o => (rule_uid = None \/ rule_uid = Some (ro_rule_uid o)) /\
                   (target = None \/ target = Some (ro_target_id o)))
    (snd <$> sort_by (cmp_then (cmp_on (fst ∘ fst) string_cmp) (cmp_on (snd ∘ fst) Z.compare))
               (map_to_list (db_overrides d))).

Definition delete_override (rule_uid : string) (target : TargetId) (d : Db) : Db * bool :=
  (set_overrides (delete (rule_uid, target) (db_overrides d)) d,
   bool_decide (is_Some (db_overrides d !! (rule_uid, target)))).

Definition upsert_override (over : RuleOverride) (d : Db) : Db :=
  if RuleOverride_is_empty over
  then fst (delete_override (ro_rule_uid over) (ro_target_id over) d)
  else set_overrides (<[(ro_rule_uid over, ro_target_id over) := over]> (db_overrides d)) d.

(** ** The ledger *)

Definition queue_cmp : QueuedItem -> QueuedItem -> comparison :=
  cmp_then (cmp_on qi_queued_at Z.compare) (cmp_on qi_id (option_cmp Z.compare)).

Definition load_ledger (now : DateTime) (lookback : TimeDelta) (d : Db) : Ledger :=
  let since := to_sql (now - Z.max lookback (td_seconds LEDGER_HOUR_SECS)) in {|
  ld_queue :=
    omap (fun q => item ← reread (qi_item q);
                   Some (set_item q item (Hold.parse (Hold.as_str (qi_hold q)))
                           (qi_resolved_meanwhile q)))
      (sort_by queue_cmp (db_queue d));
  ld_log := filter (fun e => since < le_at e) (db_log d);
  ld_flap_holds := filter (fun kv => to_sql now < kv.2) (db_flap d);
  ld_messages :=
    filter (fun m => to_sql (now - td_seconds LEDGER_HOUR_SECS) < m.2) (db_messages d);
|}.

Definition queue_row (item : QueuedItem) (id : option Z) : QueuedItem :=
  Build_QueuedItem id (qi_channel_id item) (qi_target_id item) (qi_target_name item)
    (qi_hold item) (qi_item item) (qi_resolved_meanwhile item) (to_sql (qi_queued_at item)).

(** One row per channel and fingerprint: a second write keeps the identifier. *)
Definition upsert_queued (item : QueuedItem) (d : Db) : Db :=
  if existsb (fun q => bool_decide (qi_key q = qi_key item)) (db_queue d) then
    set_queue ((fun q => if bool_decide (qi_key q = qi_key item)
                         then queue_row item (qi_id q) else q) <$> db_queue d) (db_next_queue d) d
  else set_queue (db_queue d ++ [queue_row item (Some (db_next_queue d))]) (db_next_queue d + 1) d.

Definition insert_log (e : LogEntry) (d : Db) : Db :=
  set_ledger (db_log d ++ [{| le_channel_id := le_channel_id e; le_fingerprint := le_fingerprint e;
                              le_reason := le_reason e; le_at := to_sql (le_at e) |}])
    (db_flap d) (db_messages d) d.

Definition delete_queued (ids : list Z) (d : Db) : Db :=
  foldl (fun d id => set_queue (filter (fun q => qi_id q <> Some id) (db_queue d))
                       (db_next_queue d) d) d ids.

Definition apply_plan (p : Plan) (d : Db) : Db :=
  let d := delete_queued (pl_dequeue p) d in
  let d := foldl (fun d item => upsert_queued item d) d (pl_enqueue p) in
  let d := foldl (fun d hold => set_ledger (db_log d) (<[hold.1 := to_sql hold.2]> (db_flap d))
                                  (db_messages d) d) d (pl_flap_holds p) in
  foldl (fun d entry => insert_log entry d) d (pl_intake p).

Definition record_sent (channel_id : Z) (queue_ids : list Z) (sent : list (string * NotifyReason))
    (now : DateTime) (d : Db) : Db :=
  let d := delete_queued queue_ids d in
  let d := set_ledger (db_log d) (db_flap d) (db_messages d ++ [(channel_id, to_sql now)]) d in
  foldl (fun d fr => insert_log {| le_channel_id := channel_id; le_fingerprint := fr.1;
                                   le_reason := fr.2; le_at := now |} d) d sent.

(** [clock] is the wall clock at the time of the failed delivery. *)
Definition retry_of (clock : DateTime) (window : TimeDelta) (item : QueuedItem) : QueuedItem :=
  Build_QueuedItem (qi_id item) (qi_channel_id item) (qi_target_id item) (qi_target_name item)
    (qi_hold item) (qi_item item) (qi_resolved_meanwhile item)
    (Z.min (qi_queued_at item) (clock - window)).

Definition requeue (clock : DateTime) (items : list QueuedItem) (window : TimeDelta) (d : Db) : Db :=
  foldl (fun d item => upsert_queued (retry_of clock window item) d) d items.

Definition purge_ledger (now : DateTime) (lookback : TimeDelta) (d : Db) : Db :=
  let cutoff := to_sql (now - Z.max lookback (td_seconds LEDGER_HOUR_SECS)) in
  set_ledger (filter (fun e => cutoff <= le_at e) (db_log d))
    (filter (fun kv => to_sql now <= kv.2) (db_flap d))
    (filter (fun m => to_sql (now - td_seconds LEDGER_HOUR_SECS) <= m.2) (db_messages d)) d.

Definition i64_saturating_add (a b : Z) : Z := Z.max i64_min (Z.min (a + b) i64_max).

Definition lookback (global : GlobalPolicy) (channels : list ChannelPolicy) : TimeDelta :=
  let longest_interval := foldr (fun p m => Z.max (min_interval_secs p) m) 0 channels in
  td_seconds
    (Z.max LEDGER_HOUR_SECS
       (Z.max (flap_window_secs global)
          (Z.max longest_interval
             (i64_saturating_add (escalate_after_secs global) LEDGER_HOUR_SECS)))).

Definition recipients_of (d : Db) : list Recipient := ch_recipient <$> db_channels d.

Definition ledger_for (now : DateTime) (d : Db) : Ledger :=
  load_ledger now (lookback (db_global d) (rc_policy <$> recipients_of d)) d.

(** ** Facts: the rows of the queue *)

(** One row per channel and alert, each with an identifier of its own. *)
Record queue_wf (d : Db) : Prop := {
  qw_keys : NoDup (qi_key <$> db_queue d);
  qw_ids : NoDup (qi_id <$> db_queue d);
  qw_next : forall q, q ∈ db_queue d -> exists id, qi_id q = Some id /\ id < db_next_queue d;
}.

Lemma upsert_queued_rows item d q :
  queue_wf d ->
  q ∈ db_queue (upsert_queued item d) <->
    (q ∈ db_queue d /\ qi_key q <> qi_key item) \/
    (exists id, q = queue_row item (Some id) /\
       ((exists q0, q0 ∈ db_queue d /\ qi_key q0 = qi_key item /\ qi_id q0 = Some id) \/
        (forall q0, q0 ∈ db_queue d -> qi_key q0 <> qi_key item) /\ id = db_next_queue d)).
Proof.
  intros [Hk Hi Hn]. unfold upsert_queued. destruct (existsb _ (db_queue d)) eqn:E; simpl.
  - apply existsb_elem in E as (q0 & Hq0 & E). bools. rewrite list_elem_of_fmap. split.
    + intros (q1 & -> & Hq1). destruct (decide (qi_key q1 = qi_key item)) as [He|He].
      * rewrite bool_decide_true by done. right. destruct (Hn q1 Hq1) as (id & Hid & _).
        rewrite Hid. exists id. split; [done|left]. by exists q1.
      * rewrite bool_decide_false by done. by left.
    + intros [[Hq He]|(id & -> & [(q1 & Hq1 & He & Hid)|[Hno _]])].
      * exists q. by rewrite bool_decide_false.
      * exists q1. rewrite bool_decide_true by done. by rewrite Hid.
      * exfalso. by apply (Hno q0).
  - assert (forall q0, q0 ∈ db_queue d -> qi_key q0 <> qi_key item) as Hno.
    { intros q0 Hq0 He. assert (existsb (fun q => bool_decide (qi_key q = qi_key item)) (db_queue d) = true)
        as Ht by (apply existsb_elem; exists q0; split; [done|by apply bool_decide_true]). congruence. }
    rewrite elem_of_app, list_elem_of_singleton. split.
    + intros [Hq| ->]; [left; auto|right]. eexists. split; [done|]. by right.
    + intros [[Hq _]|(id & -> & [(q1 & Hq1 & He & _)|[_ ->]])]; [by left| |by right].
      exfalso. by apply (Hno q1).
Qed.

Lemma upsert_queued_wf item d : queue_wf d -> queue_wf (upsert_queued item d).
Proof.
  intros Hwf. pose proof (upsert_queued_rows item d) as Hrows. destruct (Hwf) as [Hk Hi Hn].
  assert (forall q, q ∈ db_queue (upsert_queued item d) ->
            exists id, qi_id q = Some id /\ id < db_next_queue (upsert_queued item d)) as Hnext.
  { intros q Hq. apply (Hrows q Hwf) in Hq.
    assert (forall id, id < db_next_queue d -> id < db_next_queue (upsert_queued item d)) as Hle.
    { intros id. unfold upsert_queued. destruct (existsb _ _); simpl; lia. }
    destruct Hq as [[Hq _]|(id & -> & [(q0 & Hq0 & _ & Hid)|[Hno ->]])].
    - destruct (Hn q Hq) as (id & ? & ?). exists id. split; [done|by apply Hle].
    - exists id. split; [done|]. destruct (Hn q0 Hq0) as (id' & ? & ?).
      apply Hle. congruence.
    - eexists. split; [done|]. unfold upsert_queued. destruct (existsb _ (db_queue d)) eqn:E; simpl; [|lia].
      apply existsb_elem in E as (q0 & Hq0 & E). bools. exfalso. by apply (Hno q0). }
  revert Hnext. unfold upsert_queued. destruct (existsb _ (db_queue d)) eqn:E; simpl; intros Hnext.
  - split; simpl; [..|exact Hnext].
    + erewrite <-list_fmap_compose, (list_fmap_ext _ qi_key); [exact Hk|].
      intros n q _. simpl. case_bool_decide as He; [exact (eq_sym He)|done].
    + erewrite <-list_fmap_compose, (list_fmap_ext _ qi_id); [exact Hi|].
      intros n q _. simpl. by case_bool_decide.
  - split; simpl; [..|exact Hnext]; rewrite fmap_app; apply NoDup_app;
      (split; [done|split; [|apply NoDup_singleton]]); intros x Hx ->%list_elem_of_singleton;
      apply list_elem_of_fmap in Hx as (q & Hx & Hq).
    + assert (existsb (fun q => bool_decide (qi_key q = qi_key item)) (db_queue d) = true) as Ht
        by (apply existsb_elem; exists q; split; [done|by apply bool_decide_true]). congruence.
    + destruct (Hn q Hq) as (id & Hid & Hlt). simpl in Hx. rewrite Hid in Hx. injection Hx. lia.
Qed.

Lemma queue_wf_same d d' :
  db_queue d' = db_queue d -> db_next_queue d' = db_next_queue d -> queue_wf d -> queue_wf d'.
Proof. intros Hq Hn [? ? ?]. split; by rewrite ?Hq, ?Hn. Qed.

Lemma insert_log_queue e d :
  db_queue (insert_log e d) = db_queue d /\ db_next_queue (insert_log e d) = db_next_queue d.
Proof. done. Qed.

Lemma delete_queued_spec ids d :
  db_queue (delete_queued ids d) =
    filter (fun q => qi_id q ∉ Some <$> ids) (db_queue d) /\
  db_next_queue (delete_queued ids d) = db_next_queue d.
Proof.
  unfold delete_queued. revert d. induction ids as [|id ids IH]; intros d; simpl.
  - split; [|done]. symmetry. apply filter_all. intros q _ []%elem_of_nil.
  - destruct (IH (set_queue (filter (fun q => qi_id q <> Some id) (db_queue d)) (db_next_queue d) d))
      as [-> ->]. split; [|done]. simpl. rewrite list_filter_filter. apply list_filter_iff. set_solver.
Qed.

Lemma delete_queued_wf ids d : queue_wf d -> queue_wf (delete_queued ids d).
Proof.
  intros [Hk Hi Hn]. destruct (delete_queued_spec ids d) as [Eq En].
  split; rewrite ?Eq, ?En.
  - eapply sublist_NoDup; [exact Hk|]. apply fmap_sublist, sublist_filter.
  - eapply sublist_NoDup; [exact Hi|]. apply fmap_sublist, sublist_filter.
  - intros q [_ Hq]%list_elem_of_filter. by apply Hn.
Qed.

Lemma requeue_wf clock items window d : queue_wf d -> queue_wf (requeue clock items window d).
Proof.
  intros Hd. apply (foldl_invariant queue_wf); [done|]. intros d' x _ Hd'. by apply upsert_queued_wf.
Qed.

Lemma foldl_logs {A} (f : A -> LogEntry) l d :
  db_queue (foldl (fun d x => insert_log (f x) d) d l) = db_queue d /\
  db_next_queue (foldl (fun d x => insert_log (f x) d) d l) = db_next_queue d.
Proof.
  apply (foldl_invariant (fun d' => db_queue d' = db_queue d /\ db_next_queue d' = db_next_queue d));
    [done|]. by intros d' x _ [<- <-].
Qed.

Lemma record_sent_queue channel ids sent now d :
  db_queue (record_sent channel ids sent now d) = db_queue (delete_queued ids d) /\
  db_next_queue (record_sent channel ids sent now d) = db_next_queue (delete_queued ids d).
Proof.
  unfold record_sent. set (d1 := set_ledger _ _ _ _).
  apply (foldl_logs (fun fr => {| le_channel_id := channel; le_fingerprint := fr.1;
                                  le_reason := fr.2; le_at := now |}) sent d1).
Qed.

Lemma apply_plan_wf p d : queue_wf d -> queue_wf (apply_plan p d).
Proof.
  intros Hd. unfold apply_plan.
  set (d1 := foldl _ (delete_queued _ d) _).
  assert (queue_wf d1) as H1.
  { apply (foldl_invariant queue_wf); [by apply delete_queued_wf|].
    intros d' x _ Hd'. by apply upsert_queued_wf. }
  set (d2 := foldl _ d1 _). assert (queue_wf d2) as H2.
  { apply (foldl_invariant queue_wf); [done|]. intros d' x _ Hd'. by eapply queue_wf_same, Hd'. }
  destruct (foldl_logs id (pl_intake p) d2) as [? ?]. by apply (queue_wf_same d2).
Qed.

(** Reading back a line keeps which alert it is about. *)
Definition keeps_alert : Prop :=
  forall i j, reread i = Some j -> gi_fingerprint j = gi_fingerprint i.

Lemma loaded_line now back d q :
  q ∈ ld_queue (load_ledger now back d) <->
  exists q0 i, q0 ∈ db_queue d /\ reread (qi_item q0) = Some i /\
    q = set_item q0 i (qi_hold q0) (qi_resolved_meanwhile q0).
Proof.
  simpl. rewrite list_elem_of_omap. setoid_rewrite elem_of_sort_by.
  assert (forall h, Hold.parse (Hold.as_str h) = h) as Hp by by intros [].
  split.
  - intros (q0 & Hq0 & Hr). destruct (reread (qi_item q0)) as [i|] eqn:E; [|done].
    simpl in Hr. rewrite Hp in Hr. injection Hr as <-. by exists q0, i.
  - intros (q0 & i & Hq0 & Hr & ->). exists q0. split; [done|]. rewrite Hr. simpl. by rewrite Hp.
Qed.

Lemma loaded_keys now back d :
  keeps_alert -> queue_wf d -> NoDup (qi_key <$> ld_queue (load_ledger now back d)).
Proof.
  intros Hr [Hk _ _]. simpl.
  assert (NoDup (qi_key <$> sort_by queue_cmp (db_queue d))) as Hs by by rewrite sort_by_perm.
  revert Hs. generalize (sort_by queue_cmp (db_queue d)) as l.
  induction l as [|q l IH]; [done|]. rewrite fmap_cons, NoDup_cons. intros [Hq Hl]. simpl.
  destruct (reread (qi_item q)) as [i|] eqn:E; simpl; [|by apply IH].
  apply NoDup_cons. split; [|by apply IH].
  intros Hin. apply Hq. apply list_elem_of_fmap in Hin as (q1 & Hk1 & Hin).
  apply list_elem_of_omap in Hin as (q2 & Hq2 & Hr2).
  destruct (reread (qi_item q2)) as [i2|] eqn:E2; [|done]. injection Hr2 as <-.
  apply list_elem_of_fmap. exists q2. split; [|done].
  unfold qi_key, qi_fp in *. simpl in Hk1. injection Hk1 as Hc Hf.
  rewrite (Hr _ _ E), (Hr _ _ E2) in Hf. congruence.
Qed.

(** ** Facts: what a failed delivery puts back *)

Lemma requeue_other clock items window d q :
  queue_wf d -> q ∈ db_queue d -> (forall i, i ∈ items -> qi_key i <> qi_key q) ->
  q ∈ db_queue (requeue clock items window d).
Proof.
  intros Hd Hq Hno.
  assert (queue_wf (requeue clock items window d) /\ q ∈ db_queue (requeue clock items window d))
    as [_ ?]; [|done].
  apply (foldl_invariant (fun d => queue_wf d /\ q ∈ db_queue d)); [done|].
  intros d' i Hi [Hwf Hq']. split; [by apply upsert_queued_wf|].
  apply upsert_queued_rows; [done|]. left. split; [done|]. intros Heq. by apply (Hno i).
Qed.

Lemma requeued clock items window d i :
  queue_wf d -> NoDup (qi_key <$> items) -> i ∈ items ->
  exists id, queue_row (retry_of clock window i) (Some id) ∈ db_queue (requeue clock items window d).
Proof.
  intros Hd Hnd Hi. apply list_elem_of_split in Hi as (l1 & l2 & ->).
  rewrite fmap_app, fmap_cons in Hnd. apply NoDup_app in Hnd as (_ & _ & [Hno _]%NoDup_cons).
  unfold requeue. rewrite foldl_app. cbn [foldl].
  fold (requeue clock l1 window d). set (d1 := upsert_queued _ _).
  assert (queue_wf d1) as Hd1 by by apply upsert_queued_wf, requeue_wf.
  assert (exists id, queue_row (retry_of clock window i) (Some id) ∈ db_queue d1) as [id Hin].
  { pose proof (requeue_wf clock l1 window d Hd) as Hw.
    destruct (existsb (fun q => bool_decide (qi_key q = qi_key i)) (db_queue (requeue clock l1 window d)))
      eqn:E.
    - apply existsb_elem in E as (q & Hq & E). bools. destruct (qw_next _ Hw q Hq) as (id & Hid & _).
      exists id. apply upsert_queued_rows; [done|]. right. exists id. split; [done|]. left. by exists q.
    - exists (db_next_queue (requeue clock l1 window d)). apply upsert_queued_rows; [done|].
      right. eexists. split; [done|]. right. split; [|done]. intros q Hq Heq.
      assert (existsb (fun q => bool_decide (qi_key q = qi_key i))
                (db_queue (requeue clock l1 window d)) = true) as Ht
        by (apply existsb_elem; exists q; split; [done|by apply bool_decide_true]). congruence. }
  exists id. apply (requeue_other clock l2 window d1); [done|done|].
  intros j Hj Heq. apply Hno. apply list_elem_of_fmap. by exists j.
Qed.
End PolicyStore.

(** ** Properties *)

(** The stored queue keeps one row per channel and alert, each with its own
    identifier: applying a plan, recording a delivery and putting a failed one back all
    preserve it; so what a cycle loads has one line per channel and alert. *)
Theorem queue_rows_stay_unique {C : Calendar} (reread : GroupItem -> option GroupItem) d :
  keeps_alert reread -> queue_wf d ->
  (forall p, queue_wf (apply_plan p d)) /\
  (forall channel ids sent now, queue_wf (record_sent channel ids sent now d)) /\
  (forall clock items window, queue_wf (requeue clock items window d)) /\
  (forall now, NoDup (qi_key <$> ld_queue (ledger_for reread now d))).
Proof.
  intros Hr Hd. split_and!.
  - intros p. by apply apply_plan_wf.
  - intros channel ids sent now. destruct (record_sent_queue channel ids sent now d) as [Eq En].
    by eapply queue_wf_same, (delete_queued_wf ids d).
  - intros. by apply requeue_wf.
  - intros now. by apply loaded_keys.
Qed.

(** A message that could not be delivered leaves again at the next cycle: each of its
    lines is put back in the queue early enough to be due at once, so when the channel is
    still enabled, under its cap, not in quiet hours for a line they hold, and the alert
    is not presented anew, the next plan sends a message of this channel with this line;
    and the lines about other channels and alerts are kept. *)
Theorem failed_delivery_leaves_again {C : Calendar} (reread : GroupItem -> option GroupItem)
    clock items d groups now r i :
  keeps_alert reread -> queue_wf d -> NoDup (qi_key <$> items) -> i ∈ items ->
  reread (qi_item i) = Some (qi_item i) ->
  clock <= now -> 0 <= batch_window_secs (db_global d) ->
  let d' := requeue clock items (td_seconds (batch_window_secs (db_global d))) d in
  let ledger := ledger_for reread now d' in
  (forall g j, g ∈ groups -> j ∈ ag_items g -> gi_fingerprint j <> qi_fp i) ->
  r ∈ recipients_of d -> rc_enabled r = true -> qi_channel_id i = rc_id r ->
  (qi_hold i = Hold.Batch \/ in_quiet_hours (rc_policy r) now = false) ->
  cap_reached r (db_global d) ledger now = false ->
  (exists og q, og ∈ pl_outgoing (plan groups (recipients_of d) (db_global d) ledger now) /\
     og_channel_id og = rc_id r /\ q ∈ og_retry og /\ qi_item q = qi_item i) /\
  (forall q, q ∈ db_queue d -> (forall j, j ∈ items -> qi_key j <> qi_key q) -> q ∈ db_queue d').
Proof.
  intros Hr Hd Hnd Hi Hre Hclock Hwin d' ledger Hn Hrc Hen Hc Hh Hcap.
  split; [|intros q Hq Hno; by apply requeue_other].
  set (window := td_seconds (batch_window_secs (db_global d))) in *.
  destruct (requeued clock items window d i Hd Hnd Hi) as [id Hid].
  set (row := queue_row (retry_of clock window i) (Some id)) in *.
  set (q := set_item row (qi_item i) (qi_hold row) (qi_resolved_meanwhile row)).
  assert (q ∈ ld_queue ledger) as Hq.
  { apply loaded_line. exists row, (qi_item i). done. }
  destruct (waiting_line_leaves groups (recipients_of d) (db_global d) ledger now q r)
    as (og & Hog & Hch & Hqog); try done.
  - apply loaded_keys; [done|]. by apply requeue_wf.
  - assert (qi_queued_at q <= now - window) as Hle.
    { unfold q, row, queue_row, retry_of, to_sql, set_item. simpl.
      pose proof (Z.mul_div_le (Z.min (qi_queued_at i) (clock - window)) ns_per_ms). unfold ns_per_ms in *.
      lia. }
    unfold due. change (qi_hold q) with (qi_hold i). destruct (qi_hold i) eqn:E.
    + destruct (is_oncall r); unfold secs, window, td_seconds, ns_per_s in *; lia.
    + by destruct Hh.
  - by exists og, q.
Qed.

(** Whatever the ledger says of the last message about an alert is forgotten once it
    is older than the window a cycle loads, an hour with the default policy: the end of
    such an alert is not announced, on any channel.  No line about it is sent or kept,
    while the alert is reported as handled, so that it is not presented again. *)
Theorem late_resolution_is_dropped {C : Calendar} (reread : GroupItem -> option GroupItem)
    d groups now g i :
  let global := db_global d in
  let back := lookback global (rc_policy <$> recipients_of d) in
  let ledger := ledger_for reread now d in
  keeps_alert reread -> queue_wf d -> flap_events global <> 1 ->
  (forall e, e ∈ db_log d -> le_fingerprint e = gi_fingerprint i ->
     le_at e <= to_sql (now - Z.max back (td_seconds LEDGER_HOUR_SECS))) ->
  (forall q, q ∈ db_queue d -> qi_fp q <> gi_fingerprint i) ->
  NoDup ((fun gi : AlertGroup * GroupItem => gi_fingerprint gi.2) <$> lines_of groups) ->
  g ∈ groups -> i ∈ ag_items g -> gi_reason i = NotifyReason.Resolved ->
  (forall q, q ∈ lines groups (recipients_of d) global ledger now -> qi_fp q <> gi_fingerprint i) /\
  gi_fingerprint i ∈ pl_handled (plan groups (recipients_of d) global ledger now).
Proof.
  intros global back ledger Hr Hd Hflap Hlog Hqueue Hnd Hg Hi Hres.
  assert (NoDup (qi_key <$> ld_queue ledger)) as Hk by by apply loaded_keys.
  destruct (the_plan_spec groups (recipients_of d) global ledger now Hk)
    as (queue & ogss & Hp & Hsub & _ & _ & He & Ho & _ & Hh & _ & _ & _).
  rewrite plan_groups_lines in *.
  assert (no_line (gi_fingerprint i) (wk_queue (foldl
            (fun w gi => plan_item (active_of (recipients_of d)) global ledger now gi.1 w gi.2)
            (start ledger now) (lines_of groups)))) as Hno.
  { apply (forgotten_all groups (recipients_of d) global ledger now (gi_fingerprint i)) with (g := g) (i := i);
      try done.
    - intros e [Hat He']%list_elem_of_filter Heq. pose proof (Hlog e He' Heq). fold global back in Hat. lia.
    - intros [g' i'] ?%elem_of_lines. done.
    - by apply elem_of_lines.
    - intros q (q0 & j & Hq0 & Hj & ->)%loaded_line. unfold qi_fp. simpl. rewrite (Hr _ _ Hj).
      by apply Hqueue. }
  split.
  - intros q [dirty Hin]%lines_in_work; [|done]. rewrite plan_groups_lines in Hin.
    by apply (Hno (q, dirty)).
  - fold (the_plan groups (recipients_of d) global ledger now). rewrite Hh.
    destruct (handled_all (recipients_of d) global ledger now (lines_of groups) Hnd) as [_ ->].
    exists (g, i). split; [by apply elem_of_lines|]. split; [done|].
    intros (_ & Hu & _). simpl in Hu. congruence.
Qed.

(** ** A small installation *)

Module Office.
(** The default policy, one e-mail channel told of an alert two hours ago. *)
Definition policy : GlobalPolicy := GlobalPolicy_default.

Definition db (log : list LogEntry) (queue : list QueuedItem) : Db := {|
  db_rules := []; db_next_rule := 1; db_targets := []; db_states := ∅; db_history := []; db_next_history := 1;
  db_silences := []; db_overrides := ∅; db_series := ∅; db_baselines := ∅;
  db_queue := queue; db_next_queue := 8; db_log := log; db_flap := ∅; db_messages := [];
  db_channels := [{| ch_recipient := Mailroom.channel 1 "email" None; ch_last_sent_at := None;
                     ch_last_error := None |}];
  db_global := policy |}.

Definition announced : LogEntry := {|
  le_channel_id := 1; le_fingerprint := "a"; le_reason := NotifyReason.Firing;
  le_at := Mailroom.night - td_hours 2 |}.

Definition waiting : QueuedItem :=
  Mailroom.queued 1 "a" Severity.Warning NotifyReason.Firing Mailroom.night.
End Office.

Lemma office_keys : keeps_alert (fun i => Some i).
Proof. by intros i j [= ->]. Qed.

Lemma office_wf log : queue_wf (Office.db log [Office.waiting]).
Proof.
  split; simpl; [apply NoDup_singleton..|]. intros q ->%list_elem_of_singleton. exists 7.
  split; [reflexivity|lia].
Qed.

Lemma queue_rows_stay_unique_witness :
  queue_wf (requeue Mailroom.night [Office.waiting] 60 (Office.db [] [Office.waiting])).
Proof.
  destruct (queue_rows_stay_unique (fun i => Some i) (Office.db [] [Office.waiting]))
    as (_ & _ & H & _); [apply office_keys|apply office_wf|apply H].
Defined.

Lemma failed_delivery_leaves_again_witness :
  let d := Office.db [] [Office.waiting] in
  let d' := requeue Mailroom.night [Office.waiting] (td_seconds 60) d in
  exists og, og ∈ pl_outgoing (plan [] (recipients_of d) Office.policy
                      (ledger_for (fun i => Some i) Mailroom.night d') Mailroom.night).
Proof.
  destruct (failed_delivery_leaves_again (fun i => Some i) Mailroom.night [Office.waiting]
              (Office.db [] [Office.waiting]) [] Mailroom.night (Mailroom.channel 1 "email" None)
              Office.waiting) as [(og & q & Hog & _) _].
  - apply office_keys.
  - apply office_wf.
  - apply NoDup_singleton.
  - left.
  - reflexivity.
  - lia.
  - simpl; lia.
  - intros g j []%elem_of_nil.
  - left.
  - reflexivity.
  - reflexivity.
  - left; reflexivity.
  - vm_compute; reflexivity.
  - exists og. exact Hog.
Defined.

Lemma late_resolution_is_dropped_witness :
  let d := Office.db [Office.announced] [] in
  "a" ∈ pl_handled (plan cycle_groups (recipients_of d) Office.policy
                      (ledger_for (fun i => Some i) Mailroom.night d) Mailroom.night).
Proof.
  destruct (late_resolution_is_dropped (fun i => Some i) (Office.db [Office.announced] [])
              cycle_groups Mailroom.night
              (Mailroom.group 1 [Mailroom.item "a" Severity.Critical NotifyReason.Resolved])
              (Mailroom.item "a" Severity.Critical NotifyReason.Resolved)) as [_ H].
  - apply office_keys.
  - split; simpl; [apply NoDup_nil_2..|]. intros q []%elem_of_nil.
  - discriminate.
  - intros e ->%list_elem_of_singleton _. vm_compute. discriminate.
  - intros q []%elem_of_nil.
  - apply NoDup_singleton.
  - left.
  - left.
  - reflexivity.
  - exact H.
Defined.
