(* ===== verification/Engine.v ===== *)
(** * The evaluation loop ([alerting/engine.rs])

    [evaluate_once] is one cycle over the database: what it reads, the cycle, what it
    writes, the deliveries, the marks; [maintenance] the hourly purges; [run] the loop.

    Outside the model, as parameters: the metrics store ([instant], [None] when a query
    fails; it is asked once per rule, and may answer two rules differently), the delivery of
    a message on a channel ([deliver], the error if any, with [render_digest] and the
    transports), the wall clock after a failed delivery ([clock]), reading a queued line back
    ([reread]), the environment ([env_var]).  The statements of the database succeed, and the
    process wide counters are left out. *)
From Stdlib Require Import Ascii.
From S2P Require Import Prelude Text Float64 Chrono Model Machine Suppress Overrides Baseline.
From S2P Require Import Group Cycle NotifyPolicy Db PolicyStore.

(** ** Settings *)

Record AlertingConfig := {
  cf_interval : Duration;
  cf_history_retention : Duration;
  cf_baseline_retention : Duration;
}.

Definition AlertingConfig_default : AlertingConfig := {|
  cf_interval := td_seconds 30;
  cf_history_retention := td_seconds (90 * 24 * 3600);
  cf_baseline_retention := td_seconds (60 * 24 * 3600) |}.

(** [str::parse::<u64>]: digits, with an optional plus. *)
Definition parse_u64 (s : string) : option Z :=
  let checked (z : Z) := if z <? 2 ^ 64 then Some z else None in
  match s with
  | EmptyString | String "+" EmptyString => None
  | String "+" s' => z ← parse_digits 0 s'; checked z
  | _ => z ← parse_digits 0 s; checked z
  end%char.

(** [days * 86_400] wraps in a release build. *)
Definition env_days (raw : option string) (default : Duration) : Duration :=
  match (raw ← raw; days ← parse_u64 raw; if 0 <? days then Some days else None) with
  | Some days => td_seconds (u64_wrap (days * 86400))
  | None => default
  end.

Definition env_secs (raw : option string) (default : Duration) : Duration :=
  match (raw ← raw; secs ← parse_u64 raw; if 0 <? secs then Some secs else None) with
  | Some secs => td_seconds secs
  | None => default
  end.

Definition from_env (env_var : string -> option string) : AlertingConfig :=
  let d := AlertingConfig_default in {|
  cf_interval := Z.max (env_secs (env_var "DUMBMONIT_ALERT_INTERVAL_SECS") (cf_interval d)) (td_seconds 10);
  cf_history_retention := env_days (env_var "DUMBMONIT_ALERT_HISTORY_DAYS") (cf_history_retention d);
  cf_baseline_retention := cf_baseline_retention d |}.

Record EvalReport := {
  rp_rules_evaluated : nat;
  rp_rules_failed : nat;
  rp_alerts_tracked : nat;
  rp_firing : nat;
  rp_suppressed : nat;
  rp_silenced : nat;
  rp_learning : nat;
  rp_groups : nat;
  rp_notifications_sent : nat;
  rp_notifications_failed : nat;
}.

Definition EvalReport_default : EvalReport := Build_EvalReport 0 0 0 0 0 0 0 0 0 0.

Section Engine.
Context {C : Calendar}.
Context (reread : GroupItem -> option GroupItem).
Context (instant : Rule -> string -> option (list SeriesPoint)).
Context (deliver : ChannelRow -> option string -> Outgoing -> option string).
Context (clock : Outgoing -> DateTime).
Context (env_var : string -> option string).

(** ** Deliveries *)

(** The result of a delivery is kept on its channel ([db/alerts.rs]). *)
Definition record_delivery (channel_id : Z) (error : option string) (now : DateTime) (d : Db) : Db :=
  set_channels
    ((fun ch => if bool_decide (rc_id (ch_recipient ch) = channel_id) then
                  match error with
                  | None => {| ch_recipient := ch_recipient ch; ch_last_sent_at := Some (to_sql now);
                               ch_last_error := None |}
                  | Some e => {| ch_recipient := ch_recipient ch;
                                 ch_last_sent_at := ch_last_sent_at ch; ch_last_error := Some e |}
                  end
                else ch) <$> db_channels d) d.

Definition count_sent (r : EvalReport) : EvalReport :=
  Build_EvalReport (rp_rules_evaluated r) (rp_rules_failed r) (rp_alerts_tracked r) (rp_firing r)
    (rp_suppressed r) (rp_silenced r) (rp_learning r) (rp_groups r)
    (S (rp_notifications_sent r)) (rp_notifications_failed r).
Definition count_failed (r : EvalReport) : EvalReport :=
  Build_EvalReport (rp_rules_evaluated r) (rp_rules_failed r) (rp_alerts_tracked r) (rp_firing r)
    (rp_suppressed r) (rp_silenced r) (rp_learning r) (rp_groups r)
    (rp_notifications_sent r) (S (rp_notifications_failed r)).

Definition send_one (channels : list ChannelRow) (public_url : option string) (window : TimeDelta)
    (now : DateTime) (st : Db * EvalReport) (out : Outgoing) : Db * EvalReport :=
  let '(d, report) := st in
  match find_map (fun ch => if bool_decide (rc_id (ch_recipient ch) = og_channel_id out)
                            then Some ch else None) channels with
  | None => (d, report)
  | Some channel =>
      match deliver channel public_url out with
      | None =>
          (record_delivery (og_channel_id out) None now
             (record_sent (og_channel_id out) (og_queue_ids out) (og_sent out) now d),
           count_sent report)
      | Some error =>
          (record_delivery (og_channel_id out) (Some error) now
             (requeue (clock out) (og_retry out) window d),
           count_failed report)
      end
  end.

Definition send_outgoing (channels : list ChannelRow) (outgoing : list Outgoing)
    (public_url : option string) (window : TimeDelta) (now : DateTime)
    (st : Db * EvalReport) : Db * EvalReport :=
  foldl (send_one channels public_url window now) st outgoing.

(** ** One cycle *)

Definition observe_rules (rules : list Rule) : list RuleObservations :=
  (fun rule => {| ob_rule := rule; ob_series := instant rule (r_query rule) |}) <$> rules.

Definition count_where {A} (p : A -> bool) (l : list A) : nat := length (filter (fun x => p x = true) l).

Definition report_of (observations : list RuleObservations) (outcome : CycleOutcome) : EvalReport := {|
  rp_rules_evaluated := count_where (fun o => bool_decide (is_Some (ob_series o))) observations;
  rp_rules_failed := count_where (fun o => bool_decide (ob_series o = None)) observations;
  rp_alerts_tracked := length (co_alerts outcome);
  rp_firing := count_where (fun a => Phase.is_active (phase (ao_state a))) (co_alerts outcome);
  rp_suppressed := count_where (fun a => suppressed (ao_state a)) (co_alerts outcome);
  rp_silenced := count_where (fun a => silenced (ao_state a)) (co_alerts outcome);
  rp_learning := count_where (fun a => learning (ao_state a)) (co_alerts outcome);
  rp_groups := length (co_groups outcome);
  rp_notifications_sent := 0;
  rp_notifications_failed := 0 |}.

(** Why a transition did not leave: the reason of the cycle, else that of the policy. *)
Definition explain (plan : Plan) (entry : HistoryEntry) : HistoryEntry :=
  if bool_decide (he_reason entry = "") &&
     bool_decide (he_fingerprint entry ∉ pl_announced plan) then
    match pl_verdicts plan !! he_fingerprint entry with
    | Some verdict => {|
        he_fingerprint := he_fingerprint entry; he_rule_uid := he_rule_uid entry;
        he_target_id := he_target_id entry; he_transition := he_transition entry;
        he_severity := he_severity entry; he_value := he_value entry;
        he_reason := verdict; he_at := he_at entry |}
    | None => entry
    end
  else entry.

Definition cycle_input (d : Db) (now : DateTime) : CycleInput := {|
  in_now := now;
  in_observations := observe_rules (list_enabled_rules d);
  in_targets := db_targets d;
  in_previous := load_states d;
  in_silences := db_silences d;
  in_overrides := list_overrides None None d;
  in_unacked_after := (fun e => to_std (fst e) ?? 0) <$> escalation (db_global d) |}.

(** What is written between the cycle and the plan. *)
Definition save_cycle (outcome : CycleOutcome) (baselines : BaselineStore) (now : DateTime)
    (d : Db) : Db :=
  save_baselines baselines now (touch_states (co_carried_over outcome) now
                                  (save_states (co_alerts outcome) d)).

(** What is written once the messages are gone. *)
Definition finish_cycle (outcome : CycleOutcome) (plan : Plan) (now : DateTime) (d : Db) : Db :=
  purge_states now
    (mark_notified (elements (pl_handled plan)) now
       (record_history (explain plan <$> co_history outcome) (pl_announced plan) d)).

Definition evaluate_once (now : DateTime) (d : Db) : Db * EvalReport :=
  match list_enabled_rules d with
  | [] => (d, EvalReport_default)
  | _ =>
      let '(outcome, baselines) :=
        plan_cycle (cycle_input d now) (load_baselines (bucket_of now) d) in
      let report := report_of (in_observations (cycle_input d now)) outcome in
      let global := db_global d in
      let d := save_cycle outcome baselines now d in
      let channels := db_channels d in
      let ledger := ledger_for reread now d in
      let plan := plan (co_groups outcome) (recipients_of d) global ledger now in
      let d := apply_plan plan d in
      let url := public_url global (env_var "DUMBMONIT_PUBLIC_URL") in
      let window := td_seconds (batch_window_secs global) in
      let '(d, report) := send_outgoing channels (pl_outgoing plan) url window now (d, report) in
      (finish_cycle outcome plan now d, report)
  end.

(** ** The loop *)

Definition maintenance (config : AlertingConfig) (now : DateTime) (d : Db) : Db :=
  let d := purge_history (now - (from_std (cf_history_retention config) ?? 0)) d in
  let d := purge_stale_baselines (now - (from_std (cf_baseline_retention config) ?? 0)) d in
  let d := purge_expired_silences now d in
  purge_ledger now (lookback (db_global d) (rc_policy <$> recipients_of d)) d.

(** One turn: the database, and when it was last maintained. *)
Definition tick (config : AlertingConfig) (st : Db * DateTime) (now : DateTime) : Db * DateTime :=
  let '(d, last_maintenance) := st in
  let d := fst (evaluate_once now d) in
  if td_hours 1 <=? now - last_maintenance then (maintenance config now d, now)
  else (d, last_maintenance).

Definition run (config : AlertingConfig) (builtin : list Rule) (start : DateTime)
    (ticks : list DateTime) (d : Db) : Db * DateTime :=
  foldl (tick config) (seed_builtin_rules builtin d, start) ticks.
End Engine.

(** ** Facts: what each step leaves alone *)

(** A reading of the database that the queue, the ledger and the channels do not touch. *)
Definition apart {C : Calendar} {A} (f : Db -> A) : Prop :=
  (forall q n d, f (set_queue q n d) = f d) /\ (forall l h m d, f (set_ledger l h m d) = f d) /\
  (forall c d, f (set_channels c d) = f d).

Section Frames.
Context {C : Calendar} {A : Type} (f : Db -> A) (Hf : apart f).

Lemma foldl_apart {B} (g : Db -> B -> Db) l d :
  (forall d x, f (g d x) = f d) -> f (foldl g d l) = f d.
Proof.
  intros Hg. apply (foldl_invariant (fun d' => f d' = f d)); [done|]. intros d' x _ <-. apply Hg.
Qed.

Lemma upsert_queued_apart item d : f (upsert_queued item d) = f d.
Proof using Hf. unfold upsert_queued. destruct (existsb _ _); apply Hf. Qed.

Lemma delete_queued_apart ids d : f (delete_queued ids d) = f d.
Proof using Hf. apply foldl_apart. intros. apply Hf. Qed.

Lemma apply_plan_apart p d : f (apply_plan p d) = f d.
Proof using Hf.
  unfold apply_plan. do 2 (rewrite foldl_apart by (intros; apply Hf)).
  rewrite foldl_apart by (intros; apply upsert_queued_apart). apply delete_queued_apart.
Qed.

Lemma send_outgoing_apart deliver clock channels outgoing url window now st :
  f (fst (send_outgoing deliver clock channels outgoing url window now st)) = f (fst st).
Proof using Hf.
  apply (foldl_invariant (fun st' => f (fst st') = f (fst st))); [done|].
  intros [d r] out _ Hd. unfold send_one. destruct (find_map _ _); [|done].
  cbn [fst] in Hd.
  destruct (deliver _ _ _); cbn [fst]; unfold record_delivery; rewrite (proj2 (proj2 Hf)), <-Hd.
  - apply foldl_apart. intros. apply upsert_queued_apart.
  - unfold record_sent. rewrite foldl_apart; [|intros; apply Hf].
    rewrite (proj1 (proj2 Hf)). apply delete_queued_apart.
Qed.
End Frames.

Section Turn.
Context {C : Calendar}.
Context (reread : GroupItem -> option GroupItem).
Context (instant : Rule -> string -> option (list SeriesPoint)).
Context (deliver : ChannelRow -> option string -> Outgoing -> option string).
Context (clock : Outgoing -> DateTime).
Context (env_var : string -> option string).
Context (now : DateTime) (d : Db).

Notation turn := (evaluate_once reread instant deliver clock env_var now d).

Definition turn_input : CycleInput := cycle_input instant d now.
Definition turn_baselines : BaselineStore := load_baselines (bucket_of now) d.
Definition turn_outcome : CycleOutcome := the_outcome turn_input turn_baselines.
Definition turn_saved : Db :=
  save_cycle turn_outcome (lp_baselines (the_loop turn_input turn_baselines)) now d.
Definition turn_plan : Plan :=
  plan (co_groups turn_outcome) (recipients_of d) (db_global d) (ledger_for reread now turn_saved) now.

(** The database a turn leaves, up to the queue, the ledger and the channels. *)
Lemma turn_spec :
  list_enabled_rules d <> [] ->
  exists d', fst turn = finish_cycle turn_outcome turn_plan now d' /\
    forall A (f : Db -> A), apart f -> f d' = f turn_saved.
Proof.
  intros Hr. unfold evaluate_once. destruct (list_enabled_rules d) as [|r rs]; [done|].
  change (plan_cycle (cycle_input instant d now) (load_baselines (bucket_of now) d)) with
    (turn_outcome, lp_baselines (the_loop turn_input turn_baselines)).
  cbv beta iota zeta. fold turn_saved.
  change (recipients_of turn_saved) with (recipients_of d).
  fold turn_plan. destruct (send_outgoing _ _ _ _ _ _ _ _) as [d' report] eqn:E.
  exists d'. split; [done|]. intros A f Hf.
  change d' with (fst (d', report)). rewrite <-E, send_outgoing_apart by done.
  simpl. by apply apply_plan_apart.
Qed.

Lemma states_apart : apart db_states.
Proof. done. Qed.
Lemma series_apart : apart db_series.
Proof. done. Qed.
Lemma history_apart : apart db_history.
Proof. done. Qed.
End Turn.

(** ** Facts: the rows of the alerts *)

Lemma update_states_lookup f l (m : gmap string AlertRow) fp :
  foldl (update_state f) m l !! fp =
  with_state (Nat.iter (length (filter (eq fp) l)) f) <$> m !! fp.
Proof.
  revert m. induction l as [|x l IH]; intros m; simpl.
  - destruct (m !! fp) as [[]|]; done.
  - rewrite IH, filter_cons. unfold update_state. destruct (decide (fp = x)) as [->|Hne].
    + rewrite lookup_alter_eq. destruct (m !! x) as [row|]; [|done]. simpl. f_equal.
      unfold with_state. simpl. f_equal. by rewrite Nat.iter_swap.
    + by rewrite lookup_alter_ne by done.
Qed.

Lemma iter_last_eval_touch n t s : (0 < n)%nat -> Nat.iter n (set_last_eval_at t) s = set_last_eval_at t s.
Proof.
  destruct n as [|n]; [lia|]. intros _. induction n as [|n IH]; [done|].
  change (Nat.iter (S (S n)) ?f s) with (f (Nat.iter (S n) f s)). by rewrite IH.
Qed.

Lemma iter_last_eval_mark n t s :
  last_eval_at (Nat.iter n (fun s => set_notified t (notify_count s + 1) s) s) = last_eval_at s.
Proof. induction n as [|n IH]; [done|]. simpl. done. Qed.

Lemma saved_rows alerts (m : gmap string AlertRow) now fp :
  (forall a, a ∈ alerts -> last_eval_at (ao_state a) = Some now) ->
  (fp ∉ ao_fingerprint <$> alerts -> foldl (fun m a => save_state a m) m alerts !! fp = m !! fp) /\
  (fp ∈ ao_fingerprint <$> alerts ->
     exists row, foldl (fun m a => save_state a m) m alerts !! fp = Some row /\
                 last_eval_at (ar_state row) = Some (to_sql now)).
Proof.
  induction alerts as [|a l IH] using rev_ind; intros Ha.
  { split; [done|]. by intros ?%elem_of_nil. }
  destruct IH as [IH1 IH2]; [set_solver|].
  rewrite fmap_app, foldl_app. simpl. unfold save_state at 1 3.
  assert (last_eval_at (ao_state a) = Some now) as Hla by (apply Ha; set_solver).
  destruct (decide (fp = ao_fingerprint a)) as [->|Hne].
  - rewrite lookup_insert_eq. split; [set_solver|]. intros _. eexists. split; [done|].
    unfold row_of_outcome. simpl. rewrite Hla. simpl.
    destruct (foldl _ m l !! ao_fingerprint a) as [row|]; [|done]. by destruct (_ && _).
  - rewrite lookup_insert_ne by done. split; [set_solver|].
    intros Hin. apply IH2. set_solver.
Qed.

Lemma elem_of_load_states {C : Calendar} d a :
  a ∈ load_states d <->
  exists row, db_states d !! sa_fingerprint a = Some row /\ a = stored_of_row (sa_fingerprint a) row.
Proof.
  unfold load_states. rewrite list_elem_of_fmap. split.
  - intros ([k row] & -> & Hin). apply (elem_of_btree_to_list string_cmp) in Hin. by exists row.
  - intros (row & Hrow & ->). exists (sa_fingerprint a, row). split; [done|].
    by apply (elem_of_btree_to_list string_cmp).
Qed.

Section Rows.
Context {C : Calendar}.
Context (reread : GroupItem -> option GroupItem).
Context (instant : Rule -> string -> option (list SeriesPoint)).
Context (deliver : ChannelRow -> option string -> Outgoing -> option string).
Context (clock : Outgoing -> DateTime).
Context (env_var : string -> option string).
Context (now : DateTime) (d : Db).
Hypothesis has_rules : list_enabled_rules d <> [].

Notation turn := (evaluate_once reread instant deliver clock env_var now d).
Notation input := (turn_input instant now d).
Notation outcome := (turn_outcome instant now d).
Notation the_plan := (turn_plan reread instant now d).

Lemma touched_lookup fp :
  db_states (turn_saved instant now d) !! fp =
  (if decide (fp ∈ co_carried_over outcome) then with_state (set_last_eval_at (Some (to_sql now)))
   else id) <$>
  foldl (fun m a => save_state a m) (db_states d) (co_alerts outcome) !! fp.
Proof.
  unfold turn_saved, save_cycle. simpl. rewrite update_states_lookup.
  set (row := foldl _ (db_states d) _ !! fp). destruct row as [row|]; [|done]. simpl. f_equal.
  case_decide as Hin.
  - unfold with_state. f_equal. apply iter_last_eval_touch.
    assert (fp ∈ filter (eq fp) (co_carried_over outcome)) as Hf by by apply list_elem_of_filter.
    destruct (filter _ _); [by apply elem_of_nil in Hf|simpl; lia].
  - rewrite filter_none; [by destruct row|]. intros x Hx <-. done.
Qed.

(** What becomes of a row once the marks are set and the stale rows removed. *)
Lemma final_lookup fp :
  db_states (fst turn) !! fp =
  row ← db_states (turn_saved instant now d) !! fp;
  if match last_eval_at (ar_state row) with Some t => to_sql now <=? t | None => true end
  then Some (with_state (Nat.iter (length (filter (eq fp) (elements (pl_handled the_plan))))
               (fun s => set_notified (Some (to_sql now)) (notify_count s + 1) s)) row)
  else None.
Proof using has_rules.
  destruct (turn_spec reread instant deliver clock env_var now d has_rules) as (d' & -> & Hd').
  revert Hd'. generalize (turn_saved instant now d) as saved. intros saved Hd'.
  unfold finish_cycle, purge_states, mark_notified. cbn [db_states set_states].
  change (db_states (record_history _ _ d')) with (db_states d').
  rewrite (Hd' _ db_states), map_lookup_filter, update_states_lookup by apply states_apart.
  destruct (db_states saved !! fp) as [row|]; [|done]. simpl.
  rewrite iter_last_eval_mark.
  set (fresh := match last_eval_at (ar_state row) with Some t => _ | None => true end).
  destruct fresh; [by rewrite option_guard_True|by rewrite option_guard_False].
Qed.

Lemma carried_are_stored f :
  f ∈ co_carried_over outcome -> is_Some (db_states d !! f).
Proof using.
  change (co_carried_over outcome) with (lp_carried_over (the_loop input (turn_baselines now d))).
  unfold the_loop, run_rules. revert f.
  apply (foldl_invariant (fun st => forall f, f ∈ lp_carried_over st -> is_Some (db_states d !! f))).
  { simpl. by intros f ?%elem_of_nil. }
  intros st o _ IH f. unfold eval_rule. destruct (ob_series o) as [series|].
  - assert (forall st l, lp_carried_over (foldl (eval_vanished (the_index input)
              (OverrideIndex_new (in_overrides input)) (in_now input) (ob_rule o)) st l) = lp_carried_over st)
      as Hv.
    { intros st0 l. apply (foldl_invariant (fun st' => lp_carried_over st' = lp_carried_over st0)); [done|].
      intros st' a _ <-. unfold eval_vanished. destruct (bool_decide _); [done|]. cbv zeta.
      destruct (advance _ _ _ _). by destruct (_ && _). }
    unfold the_index in Hv. rewrite Hv. clear Hv.
    match goal with |- f ∈ lp_carried_over (foldl ?g st ?l) -> _ =>
      assert (lp_carried_over (foldl g st l) = lp_carried_over st) as -> end; [|apply IH].
    apply (foldl_invariant (fun st' => lp_carried_over st' = lp_carried_over st)); [done|].
    intros st' c _ <-. unfold eval_candidate. destruct (negb _); [done|]. cbv zeta.
    destruct (evaluate_point _ _ _ _ _ _ _) as [[[? ?] ?] ?]. by destruct (advance _ _ _ _).
  - simpl. rewrite elem_of_app. intros [?|Hin]; [by apply IH|].
    apply list_elem_of_fmap in Hin as (a & -> & Hin).
    apply list_elem_of_filter in Hin as [_ [_ Hin]%list_elem_of_filter].
    apply elem_of_load_states in Hin as (row & Hrow & _). by rewrite Hrow.
Qed.
End Rows.

Section Properties.
Context {C : Calendar}.
Context (reread : GroupItem -> option GroupItem).
Context (instant : Rule -> string -> option (list SeriesPoint)).
Context (deliver : ChannelRow -> option string -> Outgoing -> option string).
Context (clock : Outgoing -> DateTime).
Context (env_var : string -> option string).

(** A row the purge of a turn spares: it bears no date, or one that is not before the turn. *)
Definition dated_ahead (now : DateTime) (row : AlertRow) : Prop :=
  forall t, last_eval_at (ar_state row) = Some t -> to_sql now <= t.

Lemma rows_left now d fp :
  list_enabled_rules d <> [] ->
  is_Some (db_states (fst (evaluate_once reread instant deliver clock env_var now d)) !! fp) <->
  fp ∈ ao_fingerprint <$> co_alerts (turn_outcome instant now d) \/
  fp ∈ co_carried_over (turn_outcome instant now d) \/
  (exists row, db_states d !! fp = Some row /\ dated_ahead now row).
Proof.
  intros Hr. rewrite final_lookup, touched_lookup by done.
  destruct (saved_rows (co_alerts (turn_outcome instant now d)) (db_states d) now fp) as [Hout Hin].
  { intros a Ha. by apply outcome_last_eval in Ha. }
  set (alerts := co_alerts _) in *. set (carried := co_carried_over _) in *.
  destruct (decide (fp ∈ ao_fingerprint <$> alerts)) as [Ha|Ha].
  - destruct (Hin Ha) as (row & -> & Hl). simpl.
    case_decide; simpl; rewrite ?Hl, Z.leb_refl; (split; [by left|by eexists]).
  - rewrite (Hout Ha). case_decide as Hc; simpl.
    + destruct (carried_are_stored instant now d fp Hc) as [row ->]. simpl.
      rewrite Z.leb_refl. split; [by right; left|by eexists].
    + destruct (db_states d !! fp) as [row|] eqn:E; simpl; [|split; [by intros []|by intros [?|[?|(? & ? & _)]]]].
      unfold dated_ahead. destruct (last_eval_at (ar_state row)) as [t|] eqn:El.
      * destruct (Z.leb_spec (to_sql now) t).
        -- split; [intros _; right; right; exists row; split; [done|]; rewrite El; by intros ? [= <-]|by eexists].
        -- split; [by intros []|]. intros [?|[?|(? & [= <-] & Hd)]]; [done..|]. specialize (Hd t El). lia.
      * split; [intros _; right; right; exists row; split; [done|]; by rewrite El|by eexists].
Qed.

(** A cycle leaves the series it was given as they were. *)
Lemma series_stay now d key row :
  db_series d !! key = Some row -> 0 < se_updates row ->
  db_series (fst (evaluate_once reread instant deliver clock env_var now d)) !! key = Some row.
Proof.
  intros Hrow Hup. destruct (list_enabled_rules d) as [|r rs] eqn:Hr.
  { unfold evaluate_once. by rewrite Hr. }
  destruct (turn_spec reread instant deliver clock env_var now d) as (d' & -> & Hd'); [congruence|].
  change (db_series (finish_cycle _ _ now d')) with (db_series d').
  rewrite (Hd' _ db_series) by apply series_apart.
  assert (observed key (lp_baselines (the_loop (turn_input instant now d) (turn_baselines now d))))
    as [_ Hnd].
  { apply the_baselines_observed. split; [|set_solver]. simpl. rewrite lookup_fmap, Hrow.
    eexists. split; [done|]. simpl. lia. }
  unfold turn_saved, save_cycle. generalize dependent (lp_baselines
    (the_loop (turn_input instant now d) (turn_baselines now d))). intros b Hnd.
  change (db_series (save_baselines b now ?x)) with
    (foldl (save_series now) (db_series d) (dirty_series b)).
  apply (foldl_invariant (fun m => m !! key = Some row)); [done|].
  intros m [k s] Hk Hm. simpl. rewrite lookup_insert_ne; [done|]. intros ->. apply Hnd.
  unfold dirty_series in Hk. apply list_elem_of_omap in Hk as (k' & Hk' & Hs).
  destruct (bs_series b !! k'); [|done]. injection Hs as -> _. by apply elem_of_elements.
Qed.
End Properties.

(** ** Properties *)

(** C4. The table of alerts follows the cycle.  A turn without a rule to evaluate changes nothing.  After any other
    it holds exactly the alerts the cycle evaluated, those of the rules whose query failed, and the rows that bear no
    date or one that is not before the turn, as a clock put back leaves: any other row is removed.  So no problem is
    lost: a stored alert that is not at rest, whose device is still there and whose rule is enabled, keeps a row, or
    goes on in the row of the fingerprint its labels give today. *)
Theorem alert_rows_follow_the_cycle {C : Calendar} reread instant deliver clock env_var now d :
  let d' := fst (evaluate_once reread instant deliver clock env_var now d) in
  let out := turn_outcome instant now d in
  let index := TargetIndex_new (db_targets d) in
  (list_enabled_rules d = [] -> d' = d) /\
  (list_enabled_rules d <> [] -> forall fp, is_Some (db_states d' !! fp) <->
     fp ∈ ao_fingerprint <$> co_alerts out \/ fp ∈ co_carried_over out \/
     exists row, db_states d !! fp = Some row /\ dated_ahead now row) /\
  (forall fp row rule,
     db_states d !! fp = Some row -> phase (ar_state row) <> Phase.Ok ->
     is_orphan index (stored_of_row fp row) = false ->
     rule ∈ list_enabled_rules d -> r_uid rule = ar_rule_uid row ->
     is_Some (db_states d' !! fp) \/
     exists fp', is_Some (db_states d' !! fp') /\
       previous_index (live_of index (load_states d)) !! fp' = Some (stored_of_row fp row)).
Proof.
  intros d' out index. split_and!; [|intros Hr fp; by apply rows_left|].
  { intros Hr. unfold d', evaluate_once. by rewrite Hr. }
  intros fp row rule Hrow Hph Ho Hrule Hu.
  assert (list_enabled_rules d <> []) as Hr by (intros E; rewrite E in Hrule; by apply elem_of_nil in Hrule).
  destruct (active_alert_accounted (turn_input instant now d) (turn_baselines now d)
              (stored_of_row fp row) {| ob_rule := rule; ob_series := instant rule (r_query rule) |})
    as [Hc|[(o & Hin & Hf)|(o & a & Hin & Ha & Hp)]]; try done.
  - apply elem_of_load_states. by exists row.
  - apply list_elem_of_fmap. by exists rule.
  - left. apply rows_left; [done|]. by right; left.
  - left. apply rows_left; [done|]. left. apply list_elem_of_fmap. by exists o.
  - right. exists (ao_fingerprint o). split.
    + apply rows_left; [done|]. left. apply list_elem_of_fmap. by exists o.
    + etrans; [exact Hp|]. f_equal. apply previous_index_live, list_elem_of_filter in Hp as [_ Hl].
      apply elem_of_load_states in Hl as (row' & Hrow' & ->). simpl in Ha. rewrite Ha in *. congruence.
Qed.

(** A silent metrics store resolves nothing: when every query of a turn fails, the
    row of each alert of an enabled rule on a device that is still there comes out as it
    was, except for the time of the last evaluation, and the history gains only the
    devices that were removed. *)
Theorem mute_metrics_freeze_the_alerts {C : Calendar} reread instant deliver clock env_var now d :
  list_enabled_rules d <> [] -> keeps_alert reread -> queue_wf d ->
  (forall rule, rule ∈ list_enabled_rules d -> instant rule (r_query rule) = None) ->
  let d' := fst (evaluate_once reread instant deliver clock env_var now d) in
  (forall fp row rule,
     db_states d !! fp = Some row -> rule ∈ list_enabled_rules d -> r_uid rule = ar_rule_uid row ->
     is_orphan (TargetIndex_new (db_targets d)) (stored_of_row fp row) = false ->
     db_states d' !! fp = Some (with_state (set_last_eval_at (Some (to_sql now))) row)) /\
  (forall h, h ∈ db_history d' -> h ∈ db_history d \/ hr_reason h = FORGOTTEN_TARGET_REASON).
Proof.
  intros Hr Hre Hwf Hnone d'.
  destruct (mute_cycle (turn_input instant now d) (turn_baselines now d)) as (Ha & Hg & Hh).
  { intros o (rule & -> & Hrule)%list_elem_of_fmap. by apply Hnone. }
  change (the_outcome _ _) with (turn_outcome instant now d) in *. split.
  - intros fp row rule Hrow Hrule Hu Ho. unfold d'. rewrite final_lookup, touched_lookup, Ha by done.
    assert (fp ∈ co_carried_over (turn_outcome instant now d)) as Hc.
    { apply (eval_rules_carry _ (OverrideIndex_new (in_overrides (turn_input instant now d)))
               (live_of (TargetIndex_new (db_targets d)) (load_states d)) now
               (in_observations (turn_input instant now d)) _
               {| ob_rule := rule; ob_series := instant rule (r_query rule) |} (stored_of_row fp row)).
      - apply list_elem_of_fmap. by exists rule.
      - by apply Hnone.
      - apply list_elem_of_filter. split; [done|]. apply elem_of_load_states. by exists row.
      - done.
      - apply (empty_loop_inv (turn_input instant now d)). }
    rewrite decide_True by done. simpl. rewrite Hrow. simpl. rewrite Z.leb_refl.
    assert (pl_handled (turn_plan reread instant now d) = ∅) as ->; [|done].
    unfold turn_plan. rewrite Hg.
    destruct (the_plan_spec [] (recipients_of d) (db_global d)
                (ledger_for reread now (turn_saved instant now d)) now) as (? & ? & H).
    { apply loaded_keys; [done|]. by apply (queue_wf_same d). }
    destruct H as (_ & _ & _ & _ & _ & _ & _ & H & _). exact H.
  - intros h. destruct (turn_spec reread instant deliver clock env_var now d Hr) as (db' & E & Hd').
    unfold d'. rewrite E. change (db_history (finish_cycle ?o ?p now db')) with
      (db_history (record_history (explain p <$> co_history o) (pl_announced p) db')).
    simpl. rewrite (Hd' _ db_history) by apply history_apart.
    change (db_history (turn_saved instant now d)) with (db_history d).
    intros [?|(i & row & -> & Hi)%elem_of_lookup_imap]%elem_of_app; [by left|right].
    rewrite list_lookup_fmap in Hi. apply fmap_Some in Hi as (e & He%list_elem_of_lookup_2 & ->). simpl.
    apply list_elem_of_fmap in He as (e0 & -> & He0). pose proof (Hh e0 He0) as Hr0.
    unfold explain. rewrite Hr0. by destruct (bool_decide (FORGOTTEN_TARGET_REASON = "")) eqn:Ef.
Qed.

(** What an anomaly rule has learnt about a series is thrown away although the series
    is alive.  The time of the last update of a stored series is written when it is first
    seen and by no later cycle, whatever the answers; so once the retention has passed
    since the first sight, maintenance deletes the series and all its buckets. *)
Theorem live_series_is_forgotten {C : Calendar} reread instant deliver clock env_var config now d key row :
  let cutoff := now - (from_std (cf_baseline_retention config) ?? 0) in
  db_series d !! key = Some row -> 0 < se_updates row -> se_last_update row < to_sql cutoff ->
  let d1 := fst (evaluate_once reread instant deliver clock env_var now d) in
  let d2 := maintenance config now d1 in
  db_series d1 !! key = Some row /\ db_series d2 !! key = None /\
  forall bucket, db_baselines d2 !! (key, bucket) = None.
Proof.
  intros cutoff Hrow Hup Hold d1 d2.
  assert (db_series d1 !! key = Some row) as H1 by by apply series_stay.
  assert (db_series d2 !! key = None) as H2.
  { unfold d2, maintenance. simpl. apply map_lookup_filter_None. right. intros row' Hr'.
    rewrite H1 in Hr'. injection Hr' as <-. simpl. unfold cutoff in Hold. lia. }
  split_and!; [done|done|]. intros bucket. unfold d2, maintenance. simpl.
  apply map_lookup_filter_None. right. intros b _ [s Hs]. simpl in Hs.
  change (db_series d2 !! key = Some s) in Hs. congruence.
Qed.

(** ** A small installation *)

Module House.
(** A rule that learns, on the temperature of the switch. *)
Definition learning_rule : Rule := {|
  r_id := 2; r_uid := "temp"; r_name := "temp"; r_description := ""; r_kind := RuleKind.Anomaly;
  r_query := "temp"; r_operator := Operator.Gt; r_threshold := f64_zero;
  r_clear_threshold := None; r_for_duration := 0; r_severity := Severity.Warning;
  r_selector := TargetSelector.All; r_channels := []; r_params := AnomalyParams_default;
  r_unit := ""; r_repeat_interval := None; r_escalate_after := None; r_enabled := true;
  r_builtin := false |}.

Definition now : DateTime := td_days 20541.
Definition key : string := series_key (Sample.labels "temp" "1").
Definition fp : string := fingerprint "disk_full" (identity_key (Sample.labels "disk" "2")).

(** A disk that has been full for an hour, and a series learnt for 61 days. *)
Definition row : AlertRow := {|
  ar_rule_uid := "disk_full"; ar_target_id := Some 2;
  ar_series_key := series_key (Sample.labels "disk" "2"); ar_labels := Sample.labels "disk" "2";
  ar_severity := Severity.Warning;
  ar_state := set_last_eval_at (Some (now - td_seconds 30))
                (fst (advance AlertState_default true (now - td_hours 1) 0)) |}.

Definition learnt : SeriesRow := {|
  se_first_seen := now - td_days 61; se_last_update := now - td_days 61; se_updates := 175680 |}.

Definition db : Db := {|
  db_rules := [Sample.disk; learning_rule]; db_next_rule := 3;
  db_targets := [line_node 1 None; line_node 2 (Some 1)];
  db_states := {[fp := row]}; db_history := []; db_next_history := 1; db_silences := []; db_overrides := ∅;
  db_series := {[key := learnt]};
  db_baselines := {[(key, bucket_of now) := {| ba_bucket := Bucket_default; ba_last_update := now |}]};
  db_queue := []; db_next_queue := 1; db_log := []; db_flap := ∅; db_messages := [];
  db_channels := []; db_global := GlobalPolicy_default |}.

Definition mute : Rule -> string -> option (list SeriesPoint) := fun _ _ => None.
Definition answers (_ : Rule) (query : string) : option (list SeriesPoint) :=
  if bool_decide (query = "temp") then Some [Sample.point "temp" "1" 40] else Some [].

Definition deliver (_ : ChannelRow) (_ : option string) (_ : Outgoing) : option string := None.
Definition clock (_ : Outgoing) : DateTime := now.
Definition env_var (_ : string) : option string := None.
End House.

(** The full disk is known, and the series of the other rule still answers. *)
Lemma alert_rows_follow_the_cycle_witness :
  let d' := fst (evaluate_once Some House.answers House.deliver House.clock House.env_var
                   House.now House.db) in
  is_Some (db_states d' !! House.fp) \/
  exists fp', is_Some (db_states d' !! fp') /\
    previous_index (live_of (TargetIndex_new (db_targets House.db)) (load_states House.db)) !! fp' =
    Some (stored_of_row House.fp House.row).
Proof.
  destruct (alert_rows_follow_the_cycle Some House.answers House.deliver House.clock House.env_var
              House.now House.db) as (_ & _ & H).
  apply (H House.fp House.row Sample.disk).
  - apply lookup_singleton_eq.
  - discriminate.
  - vm_compute; reflexivity.
  - left.
  - reflexivity.
Defined.

Lemma mute_metrics_freeze_the_alerts_witness :
  db_states (fst (evaluate_once Some House.mute House.deliver House.clock House.env_var
                    House.now House.db)) !! House.fp =
  Some (with_state (set_last_eval_at (Some (to_sql House.now))) House.row).
Proof.
  destruct (mute_metrics_freeze_the_alerts Some House.mute House.deliver House.clock House.env_var
              House.now House.db) as [H _].
  - discriminate.
  - apply office_keys.
  - split; simpl; [apply NoDup_nil_2..|]. intros q []%elem_of_nil.
  - reflexivity.
  - apply (H House.fp House.row Sample.disk).
    + apply lookup_singleton_eq.
    + left.
    + reflexivity.
    + vm_compute; reflexivity.
Defined.

Lemma live_series_is_forgotten_witness :
  let d1 := fst (evaluate_once Some House.answers House.deliver House.clock House.env_var
                   House.now House.db) in
  db_series (maintenance AlertingConfig_default House.now d1) !! House.key = None.
Proof.
  destruct (live_series_is_forgotten Some House.answers House.deliver House.clock House.env_var
              AlertingConfig_default House.now House.db House.key House.learnt) as (_ & H & _).
  - apply lookup_singleton_eq.
  - reflexivity.
  - vm_compute; reflexivity.
  - exact H.
Defined.
