(* ===== verification/RuleBook.v ===== *)
(** * How the built-in rules are written ([alerting/rules.rs])

    A built-in rule is a base rule with some of its fields replaced: [x |> field v] is
    Rust's [Rule { field: v, ..x }].  A text that holds quotation marks is written with
    grave accents in their place, which [quoted] turns back. *)
From Stdlib Require Import Ascii.
From Stdlib Require String.
From S2P Require Import Prelude Text Float64 Chrono Model.

Fixpoint quoted (s : string) : string :=
  match s with
  | EmptyString => EmptyString
  | String c s' => String (if decide (c = "`"%char) then ascii_of_nat 34 else c) (quoted s')
  end.

Definition CPU_PERCENT : string :=
  ("avg by (target, host) (dumbmonit_cpu_load_percent or " +:+
   "dumbmonit_proxmox_node_cpu_percent or dumbmonit_cpu_usage_percent)")%string.

Definition FS_USED_PERCENT : string :=
  ("(100 * dumbmonit_storage_bytes_used / dumbmonit_storage_bytes_total or " +:+
   "dumbmonit_proxmox_storage_used_percent or dumbmonit_proxmox_node_rootfs_percent)")%string.

Definition DEFAULT_REPEAT : Duration := td_seconds (6 * 3600).

Definition base (uid name : string) (kind : RuleKind) (query : string) : Rule := {|
  r_id := 0; r_uid := uid; r_name := name; r_description := ""; r_kind := kind;
  r_query := query; r_operator := Operator.Gt; r_threshold := f64_zero;
  r_clear_threshold := None; r_for_duration := 0; r_severity := Severity.Warning;
  r_selector := TargetSelector.All; r_channels := []; r_params := AnomalyParams_default;
  r_unit := ""; r_repeat_interval := Some DEFAULT_REPEAT; r_escalate_after := None;
  r_enabled := true; r_builtin := true |}.

Definition predict_full_query (metric : string) (window_hours days : Z) : string :=
  let horizon := days * 24 * 3600 in
  ("predict_linear(" +:+ metric +:+ "[" +:+ display_i64 window_hours +:+ "h], " +:+
   display_i64 horizon +:+ ") and deriv(" +:+ metric +:+ "[" +:+ display_i64 window_hours +:+
   "h]) > 0")%string.

(** ** The fields a built-in rule replaces *)

Definition description (x : string) (r : Rule) : Rule :=
  Build_Rule (r_id r) (r_uid r) (r_name r) x (r_kind r) (r_query r) (r_operator r)
    (r_threshold r) (r_clear_threshold r) (r_for_duration r) (r_severity r) (r_selector r)
    (r_channels r) (r_params r) (r_unit r) (r_repeat_interval r) (r_escalate_after r)
    (r_enabled r) (r_builtin r).
Definition operator (x : Operator) (r : Rule) : Rule :=
  Build_Rule (r_id r) (r_uid r) (r_name r) (r_description r) (r_kind r) (r_query r) x
    (r_threshold r) (r_clear_threshold r) (r_for_duration r) (r_severity r) (r_selector r)
    (r_channels r) (r_params r) (r_unit r) (r_repeat_interval r) (r_escalate_after r)
    (r_enabled r) (r_builtin r).
Definition threshold (x : f64) (r : Rule) : Rule :=
  Build_Rule (r_id r) (r_uid r) (r_name r) (r_description r) (r_kind r) (r_query r)
    (r_operator r) x (r_clear_threshold r) (r_for_duration r) (r_severity r) (r_selector r)
    (r_channels r) (r_params r) (r_unit r) (r_repeat_interval r) (r_escalate_after r)
    (r_enabled r) (r_builtin r).
Definition clear_threshold (x : option f64) (r : Rule) : Rule :=
  Build_Rule (r_id r) (r_uid r) (r_name r) (r_description r) (r_kind r) (r_query r)
    (r_operator r) (r_threshold r) x (r_for_duration r) (r_severity r) (r_selector r)
    (r_channels r) (r_params r) (r_unit r) (r_repeat_interval r) (r_escalate_after r)
    (r_enabled r) (r_builtin r).
Definition for_duration (x : Duration) (r : Rule) : Rule :=
  Build_Rule (r_id r) (r_uid r) (r_name r) (r_description r) (r_kind r) (r_query r)
    (r_operator r) (r_threshold r) (r_clear_threshold r) x (r_severity r) (r_selector r)
    (r_channels r) (r_params r) (r_unit r) (r_repeat_interval r) (r_escalate_after r)
    (r_enabled r) (r_builtin r).
Definition severity (x : Severity) (r : Rule) : Rule :=
  Build_Rule (r_id r) (r_uid r) (r_name r) (r_description r) (r_kind r) (r_query r)
    (r_operator r) (r_threshold r) (r_clear_threshold r) (r_for_duration r) x (r_selector r)
    (r_channels r) (r_params r) (r_unit r) (r_repeat_interval r) (r_escalate_after r)
    (r_enabled r) (r_builtin r).
Definition unit (x : string) (r : Rule) : Rule :=
  Build_Rule (r_id r) (r_uid r) (r_name r) (r_description r) (r_kind r) (r_query r)
    (r_operator r) (r_threshold r) (r_clear_threshold r) (r_for_duration r) (r_severity r)
    (r_selector r) (r_channels r) (r_params r) x (r_repeat_interval r) (r_escalate_after r)
    (r_enabled r) (r_builtin r).
Definition repeat_interval (x : option Duration) (r : Rule) : Rule :=
  Build_Rule (r_id r) (r_uid r) (r_name r) (r_description r) (r_kind r) (r_query r)
    (r_operator r) (r_threshold r) (r_clear_threshold r) (r_for_duration r) (r_severity r)
    (r_selector r) (r_channels r) (r_params r) (r_unit r) x (r_escalate_after r)
    (r_enabled r) (r_builtin r).
Definition escalate_after (x : option Duration) (r : Rule) : Rule :=
  Build_Rule (r_id r) (r_uid r) (r_name r) (r_description r) (r_kind r) (r_query r)
    (r_operator r) (r_threshold r) (r_clear_threshold r) (r_for_duration r) (r_severity r)
    (r_selector r) (r_channels r) (r_params r) (r_unit r) (r_repeat_interval r) x
    (r_enabled r) (r_builtin r).

Declare Scope rule_scope.
Delimit Scope rule_scope with rule.
Notation "r |> f" := (f r) (at level 90, left associativity, only parsing) : rule_scope.
#[global] Open Scope rule_scope.
