(* ===== verification/RulesHosts.v ===== *)
(** * The built-in rules of hosts ([alerting/rules.rs])

    The rules every estate starts with: reachability, processor, filesystems, inverters,
    ports, servers, backups, services, certificates, containers and disks. *)
From S2P Require Import Prelude Text Float64 Chrono Model RuleBook.

Definition rule_host_down : Rule :=
  base RULE_HOST_DOWN "Device unreachable"
    RuleKind.Threshold
    "time() - tlast_over_time(dumbmonit_up[7d])"
  |> description "No measurement received for more than three minutes."
  |> operator Operator.Gt
  |> threshold (f64_of_Z 180)
  |> for_duration (td_seconds 60)
  |> severity Severity.Critical
  |> unit "s".

Definition rule_cpu_high : Rule :=
  base "cpu_high" "High CPU"
    RuleKind.Threshold
    CPU_PERCENT
  |> description "CPU load sustained above 90%."
  |> operator Operator.Gt
  |> threshold (f64_of_Z 90)
  |> clear_threshold (Some (f64_of_Z 85))
  |> for_duration (td_seconds (10 * 60))
  |> severity Severity.Warning
  |> unit "%"
  |> escalate_after (Some (td_seconds 3600)).

Definition rule_disk_almost_full : Rule :=
  base "disk_almost_full" "Disk almost full"
    RuleKind.Threshold
    FS_USED_PERCENT
  |> description "Filesystem 90% full or more."
  |> operator Operator.Ge
  |> threshold (f64_of_Z 90)
  |> clear_threshold (Some (f64_of_Z 88))
  |> for_duration (td_seconds (15 * 60))
  |> severity Severity.Warning
  |> unit "%"
  |> escalate_after (Some (td_seconds (24 * 3600))).

Definition rule_ups_on_battery : Rule :=
  base "ups_on_battery" "UPS on battery"
    RuleKind.Threshold
    "dumbmonit_ups_output_source == 5"
  |> description "The UPS is powering the load from battery."
  |> operator Operator.Gt
  |> threshold (f64_of_Z 0)
  |> for_duration (td_seconds 30)
  |> severity Severity.Critical
  |> repeat_interval (Some (td_seconds 900)).

Definition rule_fs_will_be_full : Rule :=
  base "fs_will_be_full" "Filesystem almost full"
    RuleKind.Predict
    (predict_full_query FS_USED_PERCENT 6 4)
  |> description "At this rate, the filesystem will be full within four days."
  |> operator Operator.Ge
  |> threshold (f64_of_Z 100)
  |> for_duration (td_seconds (30 * 60))
  |> severity Severity.Warning
  |> unit "%".

Definition rule_cpu_anomaly : Rule :=
  base "cpu_anomaly" "Unusual CPU"
    RuleKind.Anomaly
    CPU_PERCENT
  |> description "CPU load noticeably different from the usual at this time and day of the week."
  |> for_duration (td_seconds (15 * 60))
  |> severity Severity.Info
  |> unit "%".

Definition rule_ups_battery_low : Rule :=
  base "ups_battery_low" "UPS battery low"
    RuleKind.Threshold
    "dumbmonit_ups_battery_status"
  |> description "The UPS battery is low or depleted."
  |> operator Operator.Ge
  |> threshold (f64_of_Z 3)
  |> for_duration (td_seconds 60)
  |> severity Severity.Critical
  |> repeat_interval (Some (td_seconds 1800)).

Definition rule_port_errors : Rule :=
  base "port_errors" "Port accumulating errors"
    RuleKind.Threshold
    "increase_prometheus(dumbmonit_if_errors_in[1h]) + increase_prometheus(dumbmonit_if_errors_out[1h])"
  |> description "A network port logged more than fifty errors in the last hour: usually a failing cable, a dirty fibre or a duplex mismatch."
  |> operator Operator.Gt
  |> threshold (f64_of_Z 50)
  |> for_duration (td_seconds (15 * 60))
  |> severity Severity.Warning
  |> repeat_interval (Some (td_seconds (24 * 3600))).

Definition rule_port_flapping : Rule :=
  base "port_flapping" "Port flapping"
    RuleKind.Threshold
    "changes_prometheus(dumbmonit_if_oper_status[30m])"
  |> description "A network port went down and up again more than twice in thirty minutes."
  |> operator Operator.Gt
  |> threshold (f64_of_Z 4)
  |> for_duration (td_seconds (5 * 60))
  |> severity Severity.Warning
  |> repeat_interval (Some (td_seconds 3600)).

Definition rule_redfish_fan_failed : Rule :=
  base "redfish_fan_failed" "Server fan failed"
    RuleKind.Threshold
    "dumbmonit_redfish_fan_health"
  |> description "The server's management controller reports a fan as failed (health Critical)."
  |> operator Operator.Ge
  |> threshold (f64_of_Z 2)
  |> for_duration (td_seconds (2 * 60))
  |> severity Severity.Critical
  |> repeat_interval (Some (td_seconds (6 * 3600))).

Definition rule_redfish_temperature_critical : Rule :=
  base "redfish_temperature_critical" "Server temperature above critical"
    RuleKind.Threshold
    "dumbmonit_redfish_temperature_celsius >= dumbmonit_redfish_temperature_upper_critical_celsius"
  |> description "A server temperature sensor is above the critical threshold its management controller declares."
  |> operator Operator.Gt
  |> threshold (f64_of_Z 0)
  |> for_duration (td_seconds (5 * 60))
  |> severity Severity.Critical
  |> unit "°C"
  |> repeat_interval (Some (td_seconds (6 * 3600))).

Definition rule_redfish_psu_redundancy_lost : Rule :=
  base "redfish_psu_redundancy_lost" "Power supply redundancy lost"
    RuleKind.Threshold
    "dumbmonit_redfish_power_redundancy_health"
  |> description "The server's power supplies are no longer redundant: one more failure and it goes down."
  |> operator Operator.Ge
  |> threshold (f64_of_Z 1)
  |> for_duration (td_seconds (5 * 60))
  |> severity Severity.Warning
  |> escalate_after (Some (td_seconds 3600)).

Definition rule_redfish_psu_failed : Rule :=
  base "redfish_psu_failed" "Power supply failed"
    RuleKind.Threshold
    "dumbmonit_redfish_psu_health"
  |> description "The server's management controller reports a power supply as failed (health Critical)."
  |> operator Operator.Ge
  |> threshold (f64_of_Z 2)
  |> for_duration (td_seconds (2 * 60))
  |> severity Severity.Critical.

Definition rule_redfish_drive_failure_predicted : Rule :=
  base "redfish_drive_failure_predicted" "Drive failure predicted"
    RuleKind.Threshold
    "dumbmonit_redfish_drive_failure_predicted"
  |> description "A drive reports a predicted failure: replace it while it still works."
  |> operator Operator.Gt
  |> threshold (f64_of_Z 0)
  |> for_duration (td_seconds (10 * 60))
  |> severity Severity.Warning
  |> repeat_interval (Some (td_seconds (24 * 3600))).

Definition rule_redfish_system_critical : Rule :=
  base "redfish_system_critical" "Server health critical"
    RuleKind.Threshold
    "dumbmonit_redfish_system_health"
  |> description "The server's management controller reports the system health as Critical."
  |> operator Operator.Ge
  |> threshold (f64_of_Z 2)
  |> for_duration (td_seconds (2 * 60))
  |> severity Severity.Critical.

Definition rule_backup_too_old : Rule :=
  base "backup_too_old" "Backup too old"
    RuleKind.Threshold
    "dumbmonit_proxmox_backup_last_age_seconds"
  |> description "No successful backup for more than seven days."
  |> operator Operator.Gt
  |> threshold (f64_mul (f64_mul (f64_of_Z 7) (f64_of_Z 24)) (f64_of_Z 3600))
  |> for_duration (td_seconds 3600)
  |> severity Severity.Warning
  |> unit "s"
  |> repeat_interval (Some (td_seconds (24 * 3600))).

Definition rule_pbs_datastore_almost_full : Rule :=
  base "pbs_datastore_almost_full" "PBS datastore almost full"
    RuleKind.Threshold
    "dumbmonit_pbs_datastore_used_percent"
  |> description "PBS datastore more than 90% full."
  |> operator Operator.Gt
  |> threshold (f64_of_Z 90)
  |> for_duration (td_seconds (15 * 60))
  |> severity Severity.Warning
  |> unit "%"
  |> escalate_after (Some (td_seconds (24 * 3600))).

Definition rule_pbs_datastore_will_be_full : Rule :=
  base "pbs_datastore_will_be_full" "PBS datastore filling up"
    RuleKind.Threshold
    "dumbmonit_pbs_datastore_estimated_full_seconds"
  |> description "At the current rate, PBS estimates the datastore full within seven days."
  |> operator Operator.Lt
  |> threshold (f64_mul (f64_mul (f64_of_Z 7) (f64_of_Z 24)) (f64_of_Z 3600))
  |> for_duration (td_seconds 3600)
  |> severity Severity.Warning
  |> unit "s"
  |> repeat_interval (Some (td_seconds (24 * 3600))).

Definition rule_pbs_backup_too_old : Rule :=
  base "pbs_backup_too_old" "PBS backup too old"
    RuleKind.Threshold
    "dumbmonit_pbs_backup_last_age_seconds"
  |> description "No new snapshot for this machine for more than two days."
  |> operator Operator.Gt
  |> threshold (f64_mul (f64_mul (f64_of_Z 2) (f64_of_Z 24)) (f64_of_Z 3600))
  |> for_duration (td_seconds 3600)
  |> severity Severity.Warning
  |> unit "s"
  |> repeat_interval (Some (td_seconds (24 * 3600))).

Definition rule_pbs_backup_verification_failed : Rule :=
  base "pbs_backup_verification_failed" "PBS backup verification failed"
    RuleKind.Threshold
    "dumbmonit_pbs_backup_last_verified"
  |> description "Verification of the latest snapshot for this machine failed."
  |> operator Operator.Lt
  |> threshold (f64_of_Z 1)
  |> for_duration (td_seconds (30 * 60))
  |> severity Severity.Critical
  |> repeat_interval (Some (td_seconds (24 * 3600))).

Definition rule_pbs_task_failed : Rule :=
  base "pbs_task_failed" "PBS task failed"
    RuleKind.Threshold
    "dumbmonit_pbs_tasks_failed"
  |> description "At least one PBS task failed in the review window."
  |> operator Operator.Gt
  |> threshold (f64_of_Z 0)
  |> for_duration (td_seconds (10 * 60))
  |> severity Severity.Warning
  |> repeat_interval (Some (td_seconds (24 * 3600))).

Definition rule_pbs_gc_too_old : Rule :=
  base "pbs_gc_too_old" "PBS garbage collection too old"
    RuleKind.Threshold
    "dumbmonit_pbs_gc_last_success_age_seconds"
  |> description "No successful garbage collection (GC) on this datastore for more than eight days."
  |> operator Operator.Gt
  |> threshold (f64_mul (f64_mul (f64_of_Z 8) (f64_of_Z 24)) (f64_of_Z 3600))
  |> for_duration (td_seconds 3600)
  |> severity Severity.Warning
  |> unit "s"
  |> repeat_interval (Some (td_seconds (24 * 3600))).

Definition rule_service_down : Rule :=
  base "service_down" "Service down"
    RuleKind.Threshold
    (quoted "dumbmonit_probe_success{probe!=`push`} == bool 0")
  |> description "The service has not responded correctly for three minutes."
  |> operator Operator.Gt
  |> threshold (f64_of_Z 0)
  |> for_duration (td_seconds (3 * 60))
  |> severity Severity.Critical
  |> repeat_interval (Some (td_seconds 1800)).

Definition rule_push_missed : Rule :=
  base "push_missed" "Heartbeat missed"
    RuleKind.Threshold
    (quoted "dumbmonit_probe_success{probe=`push`} == bool 0")
  |> description "The job has not called in within its expected interval plus grace period, or reported a failure itself."
  |> operator Operator.Gt
  |> threshold (f64_of_Z 0)
  |> for_duration (td_seconds (2 * 60))
  |> severity Severity.Warning.

Definition rule_service_flapping : Rule :=
  base "service_flapping" "Service flapping"
    RuleKind.Threshold
    (quoted "changes(dumbmonit_probe_success{probe!=`push`}[30m])")
  |> description "The service changed state more than six times in thirty minutes."
  |> operator Operator.Gt
  |> threshold (f64_of_Z 6)
  |> for_duration (td_seconds (5 * 60))
  |> severity Severity.Warning
  |> repeat_interval (Some (td_seconds 3600)).

Definition rule_service_slow : Rule :=
  base "service_slow" "Slow service"
    RuleKind.Threshold
    "dumbmonit_probe_duration_seconds"
  |> description "The service takes more than three seconds to respond."
  |> operator Operator.Gt
  |> threshold (f64_of_Z 3)
  |> for_duration (td_seconds (10 * 60))
  |> severity Severity.Warning
  |> unit "s".

Definition rule_tls_cert_expiring : Rule :=
  base "tls_cert_expiring" "Certificate expiring soon"
    RuleKind.Threshold
    "dumbmonit_probe_ssl_cert_expiry_days >= 0"
  |> description "The certificate expires in less than fourteen days."
  |> operator Operator.Lt
  |> threshold (f64_of_Z 14)
  |> for_duration (td_seconds 3600)
  |> severity Severity.Warning
  |> unit "d"
  |> repeat_interval (Some (td_seconds (24 * 3600))).

Definition rule_tls_cert_expired : Rule :=
  base "tls_cert_expired" "Certificate expired"
    RuleKind.Threshold
    "dumbmonit_probe_ssl_cert_expiry_days < 0"
  |> description "The certificate has expired."
  |> operator Operator.Lt
  |> threshold (f64_of_Z 0)
  |> for_duration (td_seconds (5 * 60))
  |> severity Severity.Critical
  |> unit "d"
  |> repeat_interval (Some (td_seconds (24 * 3600))).

Definition rule_container_stopped : Rule :=
  base "container_stopped" "Container stopped"
    RuleKind.Threshold
    "dumbmonit_container_up == bool 0"
  |> description "The container has been stopped for two minutes."
  |> operator Operator.Gt
  |> threshold (f64_of_Z 0)
  |> for_duration (td_seconds (2 * 60))
  |> severity Severity.Warning
  |> repeat_interval (Some (td_seconds 3600)).

Definition rule_container_unhealthy : Rule :=
  base "container_unhealthy" "Container unhealthy"
    RuleKind.Threshold
    "dumbmonit_container_health == 2"
  |> description "The container's health check has been failing for three minutes."
  |> operator Operator.Gt
  |> threshold (f64_of_Z 0)
  |> for_duration (td_seconds (3 * 60))
  |> severity Severity.Warning
  |> repeat_interval (Some (td_seconds 3600)).

Definition rule_container_restarting : Rule :=
  base "container_restarting" "Container restarting"
    RuleKind.Threshold
    "increase_prometheus(dumbmonit_container_restart_count[15m])"
  |> description "The container restarted three times or more in fifteen minutes."
  |> operator Operator.Ge
  |> threshold (f64_of_Z 3)
  |> for_duration (td_seconds 60)
  |> severity Severity.Warning
  |> repeat_interval (Some (td_seconds 3600)).

Definition rule_container_update_available : Rule :=
  base "container_update_available" "Container update available"
    RuleKind.Threshold
    "dumbmonit_container_update_available == 1"
  |> description "A newer image is available in the registry for this container."
  |> operator Operator.Gt
  |> threshold (f64_of_Z 0)
  |> for_duration (td_seconds 3600)
  |> severity Severity.Info
  |> repeat_interval (Some (td_seconds (24 * 3600))).

Definition rule_plakar_backup_too_old : Rule :=
  base "plakar_backup_too_old" "Plakar backup too old"
    RuleKind.Threshold
    "dumbmonit_backup_last_success_seconds"
  |> description "No new Plakar snapshot for this source for more than two days."
  |> operator Operator.Gt
  |> threshold (f64_mul (f64_mul (f64_of_Z 2) (f64_of_Z 24)) (f64_of_Z 3600))
  |> for_duration (td_seconds 3600)
  |> severity Severity.Warning
  |> unit "s"
  |> repeat_interval (Some (td_seconds (24 * 3600))).

Definition rule_plakar_backup_failed : Rule :=
  base "plakar_backup_failed" "Plakar backup failed"
    RuleKind.Threshold
    "dumbmonit_backup_last_status"
  |> description "The latest Plakar snapshot has errors, or the kloset cannot be read."
  |> operator Operator.Lt
  |> threshold (f64_of_Z 1)
  |> for_duration (td_seconds (10 * 60))
  |> severity Severity.Critical
  |> repeat_interval (Some (td_seconds (24 * 3600))).

Definition rule_backup_repo_too_old : Rule :=
  base "backup_repo_too_old" "restic/Borg backup too old"
    RuleKind.Threshold
    "dumbmonit_agent_backup_repo_last_snapshot_age_seconds"
  |> description "No new restic or Borg snapshot in this repository for more than 48 hours."
  |> operator Operator.Gt
  |> threshold (f64_mul (f64_of_Z 48) (f64_of_Z 3600))
  |> for_duration (td_seconds 3600)
  |> severity Severity.Warning
  |> unit "s"
  |> repeat_interval (Some (td_seconds (24 * 3600))).

Definition rule_backup_repo_unreachable : Rule :=
  base "backup_repo_unreachable" "restic/Borg repository unreachable"
    RuleKind.Threshold
    "dumbmonit_agent_backup_repo_reachable"
  |> description "The agent cannot read this restic or Borg repository: unreachable, password refused or binary missing (the agent's log says which)."
  |> operator Operator.Lt
  |> threshold (f64_of_Z 1)
  |> for_duration (td_seconds (30 * 60))
  |> severity Severity.Warning
  |> repeat_interval (Some (td_seconds (24 * 3600))).

Definition rule_wireguard_peer_silent : Rule :=
  base "wireguard_peer_silent" "WireGuard peer silent"
    RuleKind.Threshold
    "dumbmonit_agent_wireguard_peer_handshake_age_seconds and on (target, interface, peer) dumbmonit_agent_wireguard_peer_keepalive_seconds > 0"
  |> description "A WireGuard peer with a persistent keepalive has not completed a handshake for more than 15 minutes: the tunnel is down."
  |> operator Operator.Gt
  |> threshold (f64_mul (f64_of_Z 15) (f64_of_Z 60))
  |> for_duration (td_seconds (5 * 60))
  |> severity Severity.Warning
  |> unit "s"
  |> repeat_interval (Some (td_seconds (6 * 3600))).

Definition rule_disk_smart_failed : Rule :=
  base "disk_smart_failed" "Disk SMART failing"
    RuleKind.Threshold
    "dumbmonit_agent_disk_smart_ok == bool 0"
  |> description "This disk's own SMART self-assessment reports it as failing. Replace it and check the backups before it goes."
  |> operator Operator.Gt
  |> threshold (f64_of_Z 0)
  |> for_duration (td_seconds (10 * 60))
  |> severity Severity.Critical
  |> repeat_interval (Some (td_seconds (24 * 3600))).

Definition rule_zfs_pool_degraded : Rule :=
  base "zfs_pool_degraded" "ZFS pool degraded"
    RuleKind.Threshold
    "dumbmonit_agent_zfs_pool_health"
  |> description "A ZFS pool is no longer healthy: a device is missing, faulted or removed."
  |> operator Operator.Gt
  |> threshold (f64_of_Z 0)
  |> for_duration (td_seconds (5 * 60))
  |> severity Severity.Critical
  |> repeat_interval (Some (td_seconds (6 * 3600))).

Definition rule_zfs_scrub_errors : Rule :=
  base "zfs_scrub_errors" "ZFS scrub found errors"
    RuleKind.Threshold
    "dumbmonit_agent_zfs_pool_scrub_errors or dumbmonit_agent_zfs_pool_data_errors"
  |> description "The last ZFS scrub found errors on this pool."
  |> operator Operator.Gt
  |> threshold (f64_of_Z 0)
  |> for_duration (td_seconds (10 * 60))
  |> severity Severity.Critical
  |> repeat_interval (Some (td_seconds (24 * 3600))).

Definition rule_sensor_temperature_critical : Rule :=
  base "sensor_temperature_critical" "Temperature above critical"
    RuleKind.Threshold
    "dumbmonit_agent_sensor_temperature_celsius >= dumbmonit_agent_sensor_temperature_critical_celsius"
  |> description "A sensor is above the critical temperature its own hardware declares."
  |> operator Operator.Gt
  |> threshold (f64_of_Z 0)
  |> for_duration (td_seconds (5 * 60))
  |> severity Severity.Critical
  |> unit "°C"
  |> repeat_interval (Some (td_seconds (6 * 3600))).

Definition rule_synology_abb_task_failed : Rule :=
  base "synology_abb_task_failed" "Active Backup task failed"
    RuleKind.Threshold
    "dumbmonit_abb_task_last_status == bool 0"
  |> description "The last run of this Active Backup for Business task failed, or backed up only part of its devices."
  |> operator Operator.Gt
  |> threshold (f64_of_Z 0)
  |> for_duration (td_seconds (10 * 60))
  |> severity Severity.Critical
  |> repeat_interval (Some (td_seconds (24 * 3600))).

Definition rule_synology_abb_backup_too_old : Rule :=
  base "synology_abb_backup_too_old" "Active Backup too old"
    RuleKind.Threshold
    "dumbmonit_abb_task_last_success_seconds"
  |> description "No successful Active Backup for Business run for this task for more than two days."
  |> operator Operator.Gt
  |> threshold (f64_mul (f64_mul (f64_of_Z 2) (f64_of_Z 24)) (f64_of_Z 3600))
  |> for_duration (td_seconds 3600)
  |> severity Severity.Warning
  |> unit "s"
  |> repeat_interval (Some (td_seconds (24 * 3600))).

Definition rule_synology_abb_task_disabled : Rule :=
  base "synology_abb_task_disabled" "Active Backup task disabled"
    RuleKind.Threshold
    "dumbmonit_abb_task_enabled == bool 0"
  |> description "This Active Backup for Business task has no schedule, or its continuous backup is paused."
  |> operator Operator.Gt
  |> threshold (f64_of_Z 0)
  |> for_duration (td_seconds 3600)
  |> severity Severity.Info
  |> repeat_interval (Some (td_seconds (7 * 24 * 3600))).
