(* ===== verification/RulesProxmox.v ===== *)
(** * The built-in rules of virtualisation and mail ([alerting/rules.rs])

    Proxmox VE, Backup Server, Datacenter Manager and Mail Gateway, and the MDaemon family. *)
From S2P Require Import Prelude Text Float64 Chrono Model RuleBook.

Definition rule_pve_guest_stopped : Rule :=
  base "pve_guest_stopped" "VM or container stopped"
    RuleKind.Threshold
    "(1 - dumbmonit_proxmox_guest_running) and (max_over_time(dumbmonit_proxmox_guest_running[2h]) == 1)"
  |> description "The VM or container was running and has been stopped for five minutes."
  |> operator Operator.Gt
  |> threshold (f64_of_Z 0)
  |> for_duration (td_seconds (5 * 60))
  |> severity Severity.Warning
  |> repeat_interval (Some (td_seconds (6 * 3600))).

Definition rule_pve_ha_resource_error : Rule :=
  base "pve_ha_resource_error" "HA resource in error"
    RuleKind.Threshold
    "dumbmonit_proxmox_ha_resource_error"
  |> description "A high-availability resource is in error or fenced."
  |> operator Operator.Gt
  |> threshold (f64_of_Z 0)
  |> for_duration (td_seconds (2 * 60))
  |> severity Severity.Critical
  |> repeat_interval (Some (td_seconds 3600)).

Definition rule_pve_cluster_no_quorum : Rule :=
  base "pve_cluster_no_quorum" "Cluster lost quorum"
    RuleKind.Threshold
    "1 - dumbmonit_proxmox_cluster_quorate"
  |> description "The cluster has lost quorum: guests can no longer be started."
  |> operator Operator.Gt
  |> threshold (f64_of_Z 0)
  |> for_duration (td_seconds 60)
  |> severity Severity.Critical
  |> repeat_interval (Some (td_seconds 1800)).

Definition rule_pve_node_offline : Rule :=
  base "pve_node_offline" "Proxmox node offline"
    RuleKind.Threshold
    "1 - dumbmonit_proxmox_node_up"
  |> description "A cluster node has been offline for two minutes."
  |> operator Operator.Gt
  |> threshold (f64_of_Z 0)
  |> for_duration (td_seconds (2 * 60))
  |> severity Severity.Critical
  |> repeat_interval (Some (td_seconds 1800)).

Definition rule_pve_storage_almost_full : Rule :=
  base "pve_storage_almost_full" "Proxmox storage almost full"
    RuleKind.Threshold
    "dumbmonit_proxmox_storage_used_percent"
  |> description "A Proxmox storage is more than 85% full."
  |> operator Operator.Gt
  |> threshold (f64_of_Z 85)
  |> for_duration (td_seconds (15 * 60))
  |> severity Severity.Warning
  |> unit "%"
  |> repeat_interval (Some (td_seconds (24 * 3600))).

Definition rule_pve_backup_job_failed : Rule :=
  base "pve_backup_job_failed" "Backup job failed"
    RuleKind.Threshold
    "1 - dumbmonit_proxmox_backup_job_last_ok"
  |> description "The last backup job on this node failed."
  |> operator Operator.Gt
  |> threshold (f64_of_Z 0)
  |> for_duration (td_seconds (10 * 60))
  |> severity Severity.Critical
  |> repeat_interval (Some (td_seconds (24 * 3600))).

Definition rule_pve_snapshot_old : Rule :=
  base "pve_snapshot_old" "Old snapshot"
    RuleKind.Threshold
    "dumbmonit_proxmox_guest_snapshot_oldest_age_seconds"
  |> description "The oldest snapshot of this machine is more than thirty days old."
  |> operator Operator.Gt
  |> threshold (f64_mul (f64_mul (f64_of_Z 30) (f64_of_Z 24)) (f64_of_Z 3600))
  |> for_duration (td_seconds 3600)
  |> severity Severity.Info
  |> unit "s"
  |> repeat_interval (Some (td_seconds (7 * 24 * 3600))).

Definition rule_pve_replication_failed : Rule :=
  base "pve_replication_failed" "Replication failed"
    RuleKind.Threshold
    "dumbmonit_proxmox_replication_job_error"
  |> description "A replication job is failing: the standby copy is stale."
  |> operator Operator.Gt
  |> threshold (f64_of_Z 0)
  |> for_duration (td_seconds (10 * 60))
  |> severity Severity.Critical
  |> repeat_interval (Some (td_seconds (6 * 3600))).

Definition rule_pve_ceph_health_error : Rule :=
  base "pve_ceph_health_error" "Ceph health error"
    RuleKind.Threshold
    "dumbmonit_proxmox_ceph_health"
  |> description "Ceph reports HEALTH_ERR: data may be unavailable."
  |> operator Operator.Ge
  |> threshold (f64_of_Z 2)
  |> for_duration (td_seconds (2 * 60))
  |> severity Severity.Critical
  |> repeat_interval (Some (td_seconds 1800)).

Definition rule_pve_ceph_health_warning : Rule :=
  base "pve_ceph_health_warning" "Ceph health warning"
    RuleKind.Threshold
    "dumbmonit_proxmox_ceph_health == 1"
  |> description "Ceph reports HEALTH_WARN for more than fifteen minutes."
  |> operator Operator.Gt
  |> threshold (f64_of_Z 0)
  |> for_duration (td_seconds (15 * 60))
  |> severity Severity.Warning
  |> repeat_interval (Some (td_seconds (6 * 3600))).

Definition rule_pve_updates_pending : Rule :=
  base "pve_updates_pending" "Proxmox updates pending"
    RuleKind.Threshold
    "dumbmonit_proxmox_node_updates_pending"
  |> description "More than twenty package updates are pending on this node."
  |> operator Operator.Gt
  |> threshold (f64_of_Z 20)
  |> for_duration (td_seconds 3600)
  |> severity Severity.Info
  |> repeat_interval (Some (td_seconds (7 * 24 * 3600))).

Definition rule_pve_certificate_expiring : Rule :=
  base "pve_certificate_expiring" "Node certificate expiring"
    RuleKind.Threshold
    "dumbmonit_proxmox_node_certificate_expiry_days"
  |> description "A node certificate expires in less than fourteen days."
  |> operator Operator.Lt
  |> threshold (f64_of_Z 14)
  |> for_duration (td_seconds 3600)
  |> severity Severity.Warning
  |> unit "d"
  |> repeat_interval (Some (td_seconds (24 * 3600))).

Definition rule_pve_thinpool_almost_full : Rule :=
  base "pve_thinpool_almost_full" "Thin pool almost full"
    RuleKind.Threshold
    "dumbmonit_proxmox_node_thinpool_used_percent"
  |> description "An LVM thin pool is more than 90% full: its guests will go read-only."
  |> operator Operator.Gt
  |> threshold (f64_of_Z 90)
  |> clear_threshold (Some (f64_of_Z 88))
  |> for_duration (td_seconds (15 * 60))
  |> severity Severity.Critical
  |> unit "%"
  |> repeat_interval (Some (td_seconds (6 * 3600))).

Definition rule_pve_thinpool_metadata_full : Rule :=
  base "pve_thinpool_metadata_full" "Thin pool metadata almost full"
    RuleKind.Threshold
    "dumbmonit_proxmox_node_thinpool_metadata_used_percent"
  |> description "The metadata volume of an LVM thin pool is more than 80% full."
  |> operator Operator.Gt
  |> threshold (f64_of_Z 80)
  |> for_duration (td_seconds (15 * 60))
  |> severity Severity.Critical
  |> unit "%"
  |> repeat_interval (Some (td_seconds (6 * 3600))).

Definition rule_pve_service_down : Rule :=
  base "pve_service_down" "Proxmox service down"
    RuleKind.Threshold
    "dumbmonit_proxmox_node_core_services_down"
  |> description "A core Proxmox service is not running on this node."
  |> operator Operator.Gt
  |> threshold (f64_of_Z 0)
  |> for_duration (td_seconds (5 * 60))
  |> severity Severity.Critical
  |> repeat_interval (Some (td_seconds 3600)).

Definition rule_pve_interface_offline : Rule :=
  base "pve_interface_offline" "Node network interface down"
    RuleKind.Threshold
    "dumbmonit_proxmox_node_interface_offline"
  |> description "A network interface set to start at boot is down on this node."
  |> operator Operator.Gt
  |> threshold (f64_of_Z 0)
  |> for_duration (td_seconds (5 * 60))
  |> severity Severity.Warning
  |> repeat_interval (Some (td_seconds (6 * 3600))).

Definition rule_pve_ceph_osd_down : Rule :=
  base "pve_ceph_osd_down" "Ceph OSD down"
    RuleKind.Threshold
    "1 - dumbmonit_proxmox_ceph_osd_up"
  |> description "A Ceph OSD has been down for five minutes."
  |> operator Operator.Gt
  |> threshold (f64_of_Z 0)
  |> for_duration (td_seconds (5 * 60))
  |> severity Severity.Critical
  |> repeat_interval (Some (td_seconds 3600)).

Definition rule_pve_ceph_osd_nearly_full : Rule :=
  base "pve_ceph_osd_nearly_full" "Ceph OSD nearly full"
    RuleKind.Threshold
    "dumbmonit_proxmox_ceph_osd_used_percent"
  |> description "A Ceph OSD is more than 85% full: writes stop when it reaches its limit."
  |> operator Operator.Gt
  |> threshold (f64_of_Z 85)
  |> clear_threshold (Some (f64_of_Z 82))
  |> for_duration (td_seconds (15 * 60))
  |> severity Severity.Warning
  |> unit "%"
  |> repeat_interval (Some (td_seconds (24 * 3600))).

Definition rule_pve_ceph_pool_almost_full : Rule :=
  base "pve_ceph_pool_almost_full" "Ceph pool almost full"
    RuleKind.Threshold
    "dumbmonit_proxmox_ceph_pool_used_percent"
  |> description "A Ceph pool is more than 85% full."
  |> operator Operator.Gt
  |> threshold (f64_of_Z 85)
  |> clear_threshold (Some (f64_of_Z 82))
  |> for_duration (td_seconds (15 * 60))
  |> severity Severity.Warning
  |> unit "%"
  |> repeat_interval (Some (td_seconds (24 * 3600))).

Definition rule_pve_ceph_noout_set : Rule :=
  base "pve_ceph_noout_set" "Ceph noout flag left on"
    RuleKind.Threshold
    (quoted "dumbmonit_proxmox_ceph_flag{flag=`noout`}")
  |> description "The Ceph noout flag has been set for two hours: rebalancing is disabled."
  |> operator Operator.Gt
  |> threshold (f64_of_Z 0)
  |> for_duration (td_seconds (2 * 3600))
  |> severity Severity.Info
  |> repeat_interval (Some (td_seconds (24 * 3600))).

Definition rule_pve_ha_lrm_stale : Rule :=
  base "pve_ha_lrm_stale" "HA manager not reporting"
    RuleKind.Threshold
    "dumbmonit_proxmox_ha_lrm_stale"
  |> description "The HA local resource manager of a node has stopped reporting."
  |> operator Operator.Gt
  |> threshold (f64_of_Z 0)
  |> for_duration (td_seconds (5 * 60))
  |> severity Severity.Critical
  |> repeat_interval (Some (td_seconds 3600)).

Definition rule_pve_backup_excludes_disk : Rule :=
  base "pve_backup_excludes_disk" "Backup job excludes a disk"
    RuleKind.Threshold
    "dumbmonit_proxmox_backup_job_guest_excluded_volumes"
  |> description "A backup job skips a disk of one of the guests it covers."
  |> operator Operator.Gt
  |> threshold (f64_of_Z 0)
  |> for_duration (td_seconds 3600)
  |> severity Severity.Warning
  |> repeat_interval (Some (td_seconds (7 * 24 * 3600))).

Definition rule_pve_guest_locked : Rule :=
  base "pve_guest_locked" "Guest locked"
    RuleKind.Threshold
    "dumbmonit_proxmox_guest_locked"
  |> description "A guest has been locked for six hours: no operation can run on it."
  |> operator Operator.Gt
  |> threshold (f64_of_Z 0)
  |> for_duration (td_seconds (6 * 3600))
  |> severity Severity.Warning
  |> repeat_interval (Some (td_seconds (24 * 3600))).

Definition rule_pbs_sync_failed : Rule :=
  base "pbs_sync_failed" "PBS sync job failed"
    RuleKind.Threshold
    "dumbmonit_pbs_sync_job_last_ok"
  |> description "The last run of this PBS sync job failed."
  |> operator Operator.Lt
  |> threshold (f64_of_Z 1)
  |> for_duration (td_seconds (10 * 60))
  |> severity Severity.Critical
  |> repeat_interval (Some (td_seconds (24 * 3600))).

Definition rule_pbs_updates_pending : Rule :=
  base "pbs_updates_pending" "PBS updates pending"
    RuleKind.Threshold
    "dumbmonit_pbs_node_updates_pending"
  |> description "More than twenty package updates are pending on the backup server."
  |> operator Operator.Gt
  |> threshold (f64_of_Z 20)
  |> for_duration (td_seconds 3600)
  |> severity Severity.Info
  |> repeat_interval (Some (td_seconds (7 * 24 * 3600))).

Definition rule_pbs_prune_failed : Rule :=
  base "pbs_prune_failed" "PBS prune job failed"
    RuleKind.Threshold
    (quoted "dumbmonit_pbs_job_last_ok{kind=`prune`}")
  |> description "The last run of this PBS prune job failed: nothing is pruned and the datastore keeps filling up."
  |> operator Operator.Lt
  |> threshold (f64_of_Z 1)
  |> for_duration (td_seconds (10 * 60))
  |> severity Severity.Warning
  |> repeat_interval (Some (td_seconds (24 * 3600))).

Definition rule_pbs_verify_job_failed : Rule :=
  base "pbs_verify_job_failed" "PBS verification job failed"
    RuleKind.Threshold
    (quoted "dumbmonit_pbs_job_last_ok{kind=`verify`}")
  |> description "The last run of this PBS verification job failed: at least one snapshot could not be verified."
  |> operator Operator.Lt
  |> threshold (f64_of_Z 1)
  |> for_duration (td_seconds (10 * 60))
  |> severity Severity.Warning
  |> repeat_interval (Some (td_seconds (24 * 3600))).

Definition rule_pbs_gc_failed : Rule :=
  base "pbs_gc_failed" "PBS garbage collection failed"
    RuleKind.Threshold
    "dumbmonit_pbs_gc_last_run_ok"
  |> description "The last garbage collection on this PBS datastore failed: freed space is not reclaimed."
  |> operator Operator.Lt
  |> threshold (f64_of_Z 1)
  |> for_duration (td_seconds (10 * 60))
  |> severity Severity.Warning
  |> repeat_interval (Some (td_seconds (24 * 3600))).

Definition rule_pbs_disk_smart_failed : Rule :=
  base "pbs_disk_smart_failed" "PBS disk SMART failure"
    RuleKind.Threshold
    "dumbmonit_pbs_node_disk_smart_failed"
  |> description "A disk of the backup server reports SMART health FAILED."
  |> operator Operator.Gt
  |> threshold (f64_of_Z 0)
  |> for_duration (td_seconds (5 * 60))
  |> severity Severity.Critical
  |> repeat_interval (Some (td_seconds (24 * 3600))).

Definition rule_pbs_disk_wearout : Rule :=
  base "pbs_disk_wearout" "PBS SSD worn out"
    RuleKind.Threshold
    "dumbmonit_pbs_node_disk_wearout_percent"
  |> description "This SSD of the backup server has used more than 90% of its rated endurance."
  |> operator Operator.Gt
  |> threshold (f64_of_Z 90)
  |> for_duration (td_seconds 3600)
  |> severity Severity.Warning
  |> unit "%"
  |> repeat_interval (Some (td_seconds (7 * 24 * 3600))).

Definition rule_pbs_zpool_degraded : Rule :=
  base "pbs_zpool_degraded" "PBS ZFS pool degraded"
    RuleKind.Threshold
    "dumbmonit_pbs_node_zfs_pool_degraded"
  |> description "A ZFS pool of the backup server is not ONLINE (degraded, faulted or unavailable)."
  |> operator Operator.Gt
  |> threshold (f64_of_Z 0)
  |> for_duration (td_seconds (5 * 60))
  |> severity Severity.Critical
  |> repeat_interval (Some (td_seconds (6 * 3600))).

Definition rule_pbs_service_down : Rule :=
  base "pbs_service_down" "PBS service down"
    RuleKind.Threshold
    (quoted "dumbmonit_pbs_node_service_active{expected=`1`}")
  |> description "A service that Proxmox Backup Server needs is not running: no backup can be taken in while it is down."
  |> operator Operator.Lt
  |> threshold (f64_of_Z 1)
  |> for_duration (td_seconds (5 * 60))
  |> severity Severity.Critical
  |> repeat_interval (Some (td_seconds (6 * 3600))).

Definition rule_pbs_certificate_expiring : Rule :=
  base "pbs_certificate_expiring" "PBS certificate expiring"
    RuleKind.Threshold
    "dumbmonit_pbs_node_certificate_expires_seconds"
  |> description "The certificate served by the backup server expires in less than three weeks."
  |> operator Operator.Lt
  |> threshold (f64_mul (f64_mul (f64_of_Z 21) (f64_of_Z 24)) (f64_of_Z 3600))
  |> for_duration (td_seconds 3600)
  |> severity Severity.Warning
  |> unit "s"
  |> repeat_interval (Some (td_seconds (48 * 3600))).

Definition rule_pbs_version_stale : Rule :=
  base "pbs_version_stale" "PBS restart pending after upgrade"
    RuleKind.Threshold
    "dumbmonit_pbs_node_running_version_stale"
  |> description "The Proxmox Backup Server package has been upgraded but the running daemon is still the old one: restart its services to apply it."
  |> operator Operator.Gt
  |> threshold (f64_of_Z 0)
  |> for_duration (td_seconds (6 * 3600))
  |> severity Severity.Info
  |> repeat_interval (Some (td_seconds (7 * 24 * 3600))).

Definition rule_pbs_tape_job_failed : Rule :=
  base "pbs_tape_job_failed" "PBS tape backup failed"
    RuleKind.Threshold
    "dumbmonit_pbs_tape_backup_job_last_ok"
  |> description "The last tape backup run failed: the offline copy is not being made."
  |> operator Operator.Lt
  |> threshold (f64_of_Z 1)
  |> for_duration (td_seconds (10 * 60))
  |> severity Severity.Critical
  |> repeat_interval (Some (td_seconds (24 * 3600))).

Definition rule_pbs_job_never_run : Rule :=
  base "pbs_job_never_run" "PBS job never ran"
    RuleKind.Threshold
    "dumbmonit_pbs_job_never_run"
  |> description "This PBS job is enabled and scheduled but has never run: check the schedule, or that the service that triggers it is up."
  |> operator Operator.Gt
  |> threshold (f64_of_Z 0)
  |> for_duration (td_seconds (2 * 24 * 3600))
  |> severity Severity.Warning
  |> repeat_interval (Some (td_seconds (7 * 24 * 3600))).

Definition rule_pbs_gc_bad_chunks : Rule :=
  base "pbs_gc_bad_chunks" "PBS corrupt chunks found"
    RuleKind.Threshold
    "dumbmonit_pbs_gc_bad_chunks"
  |> description "The garbage collection found unreadable chunks on this datastore: some backups can no longer be restored."
  |> operator Operator.Gt
  |> threshold (f64_of_Z 0)
  |> for_duration (td_seconds (10 * 60))
  |> severity Severity.Critical
  |> repeat_interval (Some (td_seconds (24 * 3600))).

Definition rule_pbs_datastore_unmounted : Rule :=
  base "pbs_datastore_unmounted" "PBS datastore not mounted"
    RuleKind.Threshold
    "dumbmonit_pbs_datastore_removable_unmounted"
  |> description "A removable datastore of the backup server is not mounted: nothing can be written to it."
  |> operator Operator.Gt
  |> threshold (f64_of_Z 0)
  |> for_duration (td_seconds (6 * 3600))
  |> severity Severity.Warning
  |> repeat_interval (Some (td_seconds (24 * 3600))).

Definition rule_pdm_remote_unreachable : Rule :=
  base "pdm_remote_unreachable" "Federated instance unreachable"
    RuleKind.Threshold
    "dumbmonit_pdm_remote_reachable"
  |> description "The datacenter console cannot reach this Proxmox VE cluster or backup server."
  |> operator Operator.Lt
  |> threshold (f64_of_Z 1)
  |> for_duration (td_seconds (10 * 60))
  |> severity Severity.Critical
  |> repeat_interval (Some (td_seconds (6 * 3600))).

Definition rule_pdm_remote_version_behind : Rule :=
  base "pdm_remote_version_behind" "Federated instance behind"
    RuleKind.Threshold
    "dumbmonit_pdm_remote_version_behind"
  |> description "This instance runs an older version than another instance of the same product in the estate."
  |> operator Operator.Gt
  |> threshold (f64_of_Z 0)
  |> for_duration (td_seconds 3600)
  |> severity Severity.Info
  |> repeat_interval (Some (td_seconds (7 * 24 * 3600))).

Definition rule_pdm_task_failed : Rule :=
  base "pdm_task_failed" "Task failed on a federated instance"
    RuleKind.Threshold
    "dumbmonit_pdm_remote_tasks_failed"
  |> description "At least one task failed on this federated instance in the review window."
  |> operator Operator.Gt
  |> threshold (f64_of_Z 0)
  |> for_duration (td_seconds (10 * 60))
  |> severity Severity.Warning
  |> repeat_interval (Some (td_seconds (24 * 3600))).

Definition rule_pdm_node_disk_almost_full : Rule :=
  base "pdm_node_disk_almost_full" "Datacenter console disk almost full"
    RuleKind.Threshold
    "dumbmonit_pdm_node_rootfs_percent"
  |> description "The root filesystem of the datacenter console is more than 90% full."
  |> operator Operator.Gt
  |> threshold (f64_of_Z 90)
  |> for_duration (td_seconds (15 * 60))
  |> severity Severity.Warning
  |> unit "%"
  |> escalate_after (Some (td_seconds (24 * 3600))).

Definition rule_pdm_certificate_expiring : Rule :=
  base "pdm_certificate_expiring" "Datacenter console certificate expiring"
    RuleKind.Threshold
    "dumbmonit_pdm_node_certificate_expiry_days"
  |> description "A certificate of the datacenter console expires in less than fourteen days."
  |> operator Operator.Lt
  |> threshold (f64_of_Z 14)
  |> for_duration (td_seconds 3600)
  |> severity Severity.Warning
  |> unit "d"
  |> repeat_interval (Some (td_seconds (24 * 3600))).

Definition rule_pdm_updates_pending : Rule :=
  base "pdm_updates_pending" "Datacenter console updates pending"
    RuleKind.Threshold
    "dumbmonit_pdm_node_updates_pending"
  |> description "More than twenty package updates are pending on the datacenter console."
  |> operator Operator.Gt
  |> threshold (f64_of_Z 20)
  |> for_duration (td_seconds 3600)
  |> severity Severity.Info
  |> repeat_interval (Some (td_seconds (7 * 24 * 3600))).

Definition rule_pmg_queue_growing : Rule :=
  base "pmg_queue_growing" "Mail queue growing"
    RuleKind.Threshold
    (quoted "delta(dumbmonit_pmg_queue_messages{queue=`deferred`}[2h])")
  |> description "The deferred mail queue has grown by more than a hundred messages in two hours: the next hop is probably refusing mail."
  |> operator Operator.Gt
  |> threshold (f64_of_Z 100)
  |> for_duration (td_seconds (15 * 60))
  |> severity Severity.Warning
  |> repeat_interval (Some (td_seconds (6 * 3600))).

Definition rule_pmg_queue_stuck : Rule :=
  base "pmg_queue_stuck" "Mail stuck in the queue"
    RuleKind.Threshold
    "dumbmonit_pmg_queue_oldest_age_seconds"
  |> description "A message has been waiting in this queue for more than four hours: mail is stuck, not slow."
  |> operator Operator.Gt
  |> threshold (f64_mul (f64_of_Z 4) (f64_of_Z 3600))
  |> for_duration (td_seconds (15 * 60))
  |> severity Severity.Critical
  |> unit "s"
  |> repeat_interval (Some (td_seconds (6 * 3600))).

Definition rule_pmg_filter_service_down : Rule :=
  base "pmg_filter_service_down" "Mail gateway service stopped"
    RuleKind.Threshold
    (quoted "dumbmonit_pmg_service_running{service=~`postfix|pmg-smtp-filter|pmgpolicy|pmgproxy|pmgdaemon`}")
  |> description "A service the gateway needs to accept and filter mail is stopped."
  |> operator Operator.Lt
  |> threshold (f64_of_Z 1)
  |> for_duration (td_seconds (5 * 60))
  |> severity Severity.Critical
  |> repeat_interval (Some (td_seconds (6 * 3600))).

Definition rule_pmg_virus_signatures_stale : Rule :=
  base "pmg_virus_signatures_stale" "Virus signatures out of date"
    RuleKind.Threshold
    (quoted "dumbmonit_pmg_signature_age_seconds{family=`virus`,database=`daily`}")
  |> description "The ClamAV daily virus signatures are more than two days old: freshclam has stopped updating them."
  |> operator Operator.Gt
  |> threshold (f64_mul (f64_mul (f64_of_Z 2) (f64_of_Z 24)) (f64_of_Z 3600))
  |> for_duration (td_seconds 3600)
  |> severity Severity.Warning
  |> unit "s"
  |> repeat_interval (Some (td_seconds (24 * 3600))).

Definition rule_pmg_spam_rules_stale : Rule :=
  base "pmg_spam_rules_stale" "Spam rules out of date"
    RuleKind.Threshold
    (quoted "dumbmonit_pmg_signature_age_seconds{family=`spam`}")
  |> description "The SpamAssassin rules are more than eight days old: sa-update has stopped bringing new ones."
  |> operator Operator.Gt
  |> threshold (f64_mul (f64_mul (f64_of_Z 8) (f64_of_Z 24)) (f64_of_Z 3600))
  |> for_duration (td_seconds 3600)
  |> severity Severity.Warning
  |> unit "s"
  |> repeat_interval (Some (td_seconds (7 * 24 * 3600))).

Definition rule_pmg_quarantine_growing : Rule :=
  base "pmg_quarantine_growing" "Quarantine filling up"
    RuleKind.Threshold
    (quoted "delta(dumbmonit_pmg_quarantine_messages{kind=`spam`}[6h])")
  |> description "The quarantine has taken in more than a thousand messages in six hours: a campaign, or a rule that just went wrong."
  |> operator Operator.Gt
  |> threshold (f64_of_Z 1000)
  |> for_duration (td_seconds (30 * 60))
  |> severity Severity.Warning
  |> repeat_interval (Some (td_seconds (12 * 3600))).

Definition rule_pmg_cluster_degraded : Rule :=
  base "pmg_cluster_degraded" "Mail gateway cluster degraded"
    RuleKind.Threshold
    "dumbmonit_pmg_cluster_node_insync"
  |> description "A gateway of the cluster is no longer in sync with the others: it filters with an out-of-date rule database."
  |> operator Operator.Lt
  |> threshold (f64_of_Z 1)
  |> for_duration (td_seconds (15 * 60))
  |> severity Severity.Warning
  |> repeat_interval (Some (td_seconds (6 * 3600))).

Definition rule_pmg_certificate_expiring : Rule :=
  base "pmg_certificate_expiring" "Mail gateway certificate expiring"
    RuleKind.Threshold
    "dumbmonit_pmg_certificate_expires_in_seconds"
  |> description "A certificate of the mail gateway expires in less than fourteen days."
  |> operator Operator.Lt
  |> threshold (f64_mul (f64_mul (f64_of_Z 14) (f64_of_Z 24)) (f64_of_Z 3600))
  |> for_duration (td_seconds 3600)
  |> severity Severity.Warning
  |> unit "s"
  |> repeat_interval (Some (td_seconds (24 * 3600))).

Definition rule_pmg_updates_pending : Rule :=
  base "pmg_updates_pending" "Mail gateway updates pending"
    RuleKind.Threshold
    "dumbmonit_pmg_node_updates_pending"
  |> description "More than twenty package updates are pending on the mail gateway."
  |> operator Operator.Gt
  |> threshold (f64_of_Z 20)
  |> for_duration (td_seconds 3600)
  |> severity Severity.Info
  |> repeat_interval (Some (td_seconds (7 * 24 * 3600))).

Definition rule_mdaemon_service_down : Rule :=
  base "mdaemon_service_down" "MDaemon mail service down"
    RuleKind.Threshold
    "dumbmonit_mdaemon_service_up"
  |> description "A mail service of the MDaemon server does not answer, or refuses service."
  |> operator Operator.Lt
  |> threshold (f64_of_Z 1)
  |> for_duration (td_seconds (5 * 60))
  |> severity Severity.Critical
  |> repeat_interval (Some (td_seconds (6 * 3600))).

Definition rule_mdaemon_api_down : Rule :=
  base "mdaemon_api_down" "MDaemon XML API not answering"
    RuleKind.Threshold
    "dumbmonit_mdaemon_api_up"
  |> description "The MDaemon XML API has stopped answering while the mail services still do: Remote Administration is probably stopped."
  |> operator Operator.Lt
  |> threshold (f64_of_Z 1)
  |> for_duration (td_seconds (15 * 60))
  |> severity Severity.Warning
  |> repeat_interval (Some (td_seconds (12 * 3600))).

Definition rule_mdaemon_queue_growing : Rule :=
  base "mdaemon_queue_growing" "MDaemon mail queue growing"
    RuleKind.Threshold
    (quoted "delta(dumbmonit_mdaemon_queue_messages{queue=~`inbound|local|remote`}[2h])")
  |> description "An MDaemon mail queue has grown by more than a hundred messages in two hours: MDaemon has stopped delivering from it. Read from the Windows performance counters by the agent installed on the mail server."
  |> operator Operator.Gt
  |> threshold (f64_of_Z 100)
  |> for_duration (td_seconds (15 * 60))
  |> severity Severity.Warning
  |> repeat_interval (Some (td_seconds (6 * 3600))).

Definition rule_mdaemon_bad_queue_not_empty : Rule :=
  base "mdaemon_bad_queue_not_empty" "MDaemon Bad queue not empty"
    RuleKind.Threshold
    (quoted "dumbmonit_mdaemon_queue_messages{queue=`bad`}")
  |> description "Messages are waiting in the MDaemon Bad queue: MDaemon could neither deliver nor bounce them, and nothing leaves that queue unless an administrator releases or deletes it."
  |> operator Operator.Gt
  |> threshold (f64_of_Z 0)
  |> for_duration (td_seconds (30 * 60))
  |> severity Severity.Warning
  |> repeat_interval (Some (td_seconds (24 * 3600))).

Definition rule_mdaemon_retry_queue_high : Rule :=
  base "mdaemon_retry_queue_high" "MDaemon Retry queue high"
    RuleKind.Threshold
    (quoted "dumbmonit_mdaemon_queue_messages{queue=`retry`}")
  |> description "More than fifty messages have been waiting in the MDaemon Retry queue for an hour: remote servers keep refusing mail temporarily."
  |> operator Operator.Gt
  |> threshold (f64_of_Z 50)
  |> for_duration (td_seconds (60 * 60))
  |> severity Severity.Warning
  |> repeat_interval (Some (td_seconds (6 * 3600))).

Definition rule_securitygateway_service_down : Rule :=
  base "securitygateway_service_down" "SecurityGateway service down"
    RuleKind.Threshold
    "dumbmonit_securitygateway_service_up"
  |> description "A service of the SecurityGateway mail gateway does not answer, or refuses service."
  |> operator Operator.Lt
  |> threshold (f64_of_Z 1)
  |> for_duration (td_seconds (5 * 60))
  |> severity Severity.Critical
  |> repeat_interval (Some (td_seconds (6 * 3600))).

Definition rule_securitygateway_api_down : Rule :=
  base "securitygateway_api_down" "SecurityGateway API not answering"
    RuleKind.Threshold
    "dumbmonit_securitygateway_api_up"
  |> description "The SecurityGateway REST API has stopped answering while the mail services still do."
  |> operator Operator.Lt
  |> threshold (f64_of_Z 1)
  |> for_duration (td_seconds (15 * 60))
  |> severity Severity.Warning
  |> repeat_interval (Some (td_seconds (12 * 3600))).

Definition rule_securitygateway_queue_growing : Rule :=
  base "securitygateway_queue_growing" "SecurityGateway delivery queue growing"
    RuleKind.Threshold
    (quoted "delta(dumbmonit_securitygateway_counter{counter=~`.*(delivery_queue|queued_for_delivery).*`}[2h])")
  |> description "The SecurityGateway delivery queue has grown by more than a hundred messages in two hours: the mail server behind it is probably refusing mail."
  |> operator Operator.Gt
  |> threshold (f64_of_Z 100)
  |> for_duration (td_seconds (15 * 60))
  |> severity Severity.Warning
  |> repeat_interval (Some (td_seconds (6 * 3600))).
