(* ===== verification/RulesApps.v ===== *)
(** * The built-in rules of network and applications ([alerting/rules.rs])

    Firewalls, storage, observability, self-hosted applications, resolvers, inverters,
    switches and home automation. *)
From S2P Require Import Prelude Text Float64 Chrono Model RuleBook.

Definition rule_opnsense_gateway_down : Rule :=
  base "opnsense_gateway_down" "Internet gateway down"
    RuleKind.Threshold
    "dumbmonit_opnsense_gateway_up"
  |> description "A gateway is down: dpinger no longer gets an answer from it. On a multi-WAN firewall the traffic has already moved to another link, quietly."
  |> operator Operator.Lt
  |> threshold (f64_of_Z 1)
  |> for_duration (td_seconds (5 * 60))
  |> severity Severity.Critical
  |> repeat_interval (Some (td_seconds (6 * 3600))).

Definition rule_opnsense_gateway_loss : Rule :=
  base "opnsense_gateway_loss" "Gateway losing packets"
    RuleKind.Threshold
    "dumbmonit_opnsense_gateway_loss_percent"
  |> description "A gateway is losing more than a fifth of the packets sent to it: the link answers, badly."
  |> operator Operator.Gt
  |> threshold (f64_of_Z 20)
  |> clear_threshold (Some (f64_of_Z 10))
  |> for_duration (td_seconds (10 * 60))
  |> severity Severity.Warning
  |> unit "%"
  |> repeat_interval (Some (td_seconds (6 * 3600))).

Definition rule_opnsense_gateway_latency : Rule :=
  base "opnsense_gateway_latency" "Gateway slow"
    RuleKind.Threshold
    "dumbmonit_opnsense_gateway_delay_seconds"
  |> description "A gateway's round-trip time has stayed above 300 ms for a quarter of an hour."
  |> operator Operator.Gt
  |> threshold (S754_finite false 5404319552844595 (-54))
  |> clear_threshold (Some (S754_finite false 7205759403792794 (-55)))
  |> for_duration (td_seconds (15 * 60))
  |> severity Severity.Info
  |> unit "s"
  |> repeat_interval (Some (td_seconds (12 * 3600))).

Definition rule_opnsense_state_table_filling : Rule :=
  base "opnsense_state_table_filling" "Firewall state table filling up"
    RuleKind.Threshold
    "dumbmonit_opnsense_pf_states_used_percent"
  |> description "The firewall's state table is more than 80% full. Past the limit it drops new connections without any other symptom."
  |> operator Operator.Gt
  |> threshold (f64_of_Z 80)
  |> clear_threshold (Some (f64_of_Z 70))
  |> for_duration (td_seconds (10 * 60))
  |> severity Severity.Warning
  |> unit "%"
  |> repeat_interval (Some (td_seconds (6 * 3600))).

Definition rule_opnsense_mbuf_exhausted : Rule :=
  base "opnsense_mbuf_exhausted" "Firewall network buffers exhausted"
    RuleKind.Threshold
    "dumbmonit_opnsense_mbuf_used_percent"
  |> description "The firewall has used more than 90% of its network buffers. FreeBSD stops forwarding when they run out, with the CPU still idle."
  |> operator Operator.Gt
  |> threshold (f64_of_Z 90)
  |> clear_threshold (Some (f64_of_Z 80))
  |> for_duration (td_seconds (10 * 60))
  |> severity Severity.Warning
  |> unit "%"
  |> repeat_interval (Some (td_seconds (6 * 3600))).

Definition rule_opnsense_vpn_tunnel_down : Rule :=
  base "opnsense_vpn_tunnel_down" "VPN tunnel down"
    RuleKind.Threshold
    "dumbmonit_opnsense_vpn_tunnel_up"
  |> description "A configured VPN tunnel has had no session for ten minutes."
  |> operator Operator.Lt
  |> threshold (f64_of_Z 1)
  |> for_duration (td_seconds (10 * 60))
  |> severity Severity.Warning
  |> repeat_interval (Some (td_seconds (6 * 3600))).

Definition rule_opnsense_resolver_down : Rule :=
  base "opnsense_resolver_down" "Firewall resolver stopped"
    RuleKind.Threshold
    "dumbmonit_opnsense_unbound_running"
  |> description "Unbound has stopped answering. The firewall still routes; the machines behind it no longer resolve."
  |> operator Operator.Lt
  |> threshold (f64_of_Z 1)
  |> for_duration (td_seconds (5 * 60))
  |> severity Severity.Warning
  |> repeat_interval (Some (td_seconds (6 * 3600))).

Definition rule_opnsense_core_service_down : Rule :=
  base "opnsense_core_service_down" "Firewall core service stopped"
    RuleKind.Threshold
    (quoted "dumbmonit_opnsense_service_running{service=~`dpinger|configd`}")
  |> description "A core service of the firewall is stopped: dpinger, which watches the gateways, or configd, which runs everything else."
  |> operator Operator.Lt
  |> threshold (f64_of_Z 1)
  |> for_duration (td_seconds (5 * 60))
  |> severity Severity.Critical
  |> repeat_interval (Some (td_seconds (6 * 3600))).

Definition rule_opnsense_temperature_high : Rule :=
  base "opnsense_temperature_high" "Firewall too hot"
    RuleKind.Threshold
    "dumbmonit_opnsense_temperature_celsius"
  |> description "A sensor of the firewall is above 85 °C: the fanless box in the cupboard is about to start throttling."
  |> operator Operator.Gt
  |> threshold (f64_of_Z 85)
  |> clear_threshold (Some (f64_of_Z 78))
  |> for_duration (td_seconds (10 * 60))
  |> severity Severity.Warning
  |> unit "°C"
  |> repeat_interval (Some (td_seconds (6 * 3600))).

Definition rule_opnsense_carp_maintenance : Rule :=
  base "opnsense_carp_maintenance" "Firewall left in CARP maintenance mode"
    RuleKind.Threshold
    "dumbmonit_opnsense_carp_maintenance_mode"
  |> description "CARP has been left in persistent maintenance mode: this firewall has handed its virtual addresses to its partner and will not take them back on its own."
  |> operator Operator.Gt
  |> threshold (f64_of_Z 0)
  |> for_duration (td_seconds 3600)
  |> severity Severity.Info
  |> repeat_interval (Some (td_seconds (24 * 3600))).

Definition rule_opnsense_reboot_pending : Rule :=
  base "opnsense_reboot_pending" "Firewall reboot pending"
    RuleKind.Threshold
    "dumbmonit_opnsense_firmware_reboot_required"
  |> description "An update is installed on the firewall but needs a reboot to take effect."
  |> operator Operator.Gt
  |> threshold (f64_of_Z 0)
  |> for_duration (td_seconds 3600)
  |> severity Severity.Info
  |> repeat_interval (Some (td_seconds (7 * 24 * 3600))).

Definition rule_opnsense_updates_pending : Rule :=
  base "opnsense_updates_pending" "Firewall updates pending"
    RuleKind.Threshold
    "dumbmonit_opnsense_firmware_updates_pending"
  |> description "The firewall has packages waiting to be updated. It is the most exposed machine on the network."
  |> operator Operator.Gt
  |> threshold (f64_of_Z 0)
  |> for_duration (td_seconds 3600)
  |> severity Severity.Info
  |> repeat_interval (Some (td_seconds (7 * 24 * 3600))).

Definition rule_truenas_pool_degraded : Rule :=
  base "truenas_pool_degraded" "NAS pool degraded"
    RuleKind.Threshold
    "dumbmonit_truenas_pool_healthy"
  |> description "A pool is no longer healthy. A degraded pool still serves its data, which is exactly why nobody notices until the next disk fails."
  |> operator Operator.Lt
  |> threshold (f64_of_Z 1)
  |> for_duration (td_seconds (5 * 60))
  |> severity Severity.Critical
  |> repeat_interval (Some (td_seconds (6 * 3600))).

Definition rule_truenas_pool_device_errors : Rule :=
  base "truenas_pool_device_errors" "NAS disk errors"
    RuleKind.Threshold
    "dumbmonit_truenas_pool_device_errors"
  |> description "Disks in this pool have reported read, write or checksum errors. ZFS repaired what it could; a disk that keeps doing this is on its way out."
  |> operator Operator.Gt
  |> threshold (f64_of_Z 0)
  |> for_duration (td_seconds (15 * 60))
  |> severity Severity.Warning
  |> repeat_interval (Some (td_seconds (24 * 3600))).

Definition rule_truenas_pool_almost_full : Rule :=
  base "truenas_pool_almost_full" "NAS pool almost full"
    RuleKind.Threshold
    "dumbmonit_truenas_pool_used_percent"
  |> description "A pool is more than 85% full. ZFS slows down well before it is full."
  |> operator Operator.Gt
  |> threshold (f64_of_Z 85)
  |> clear_threshold (Some (f64_of_Z 80))
  |> for_duration (td_seconds (30 * 60))
  |> severity Severity.Warning
  |> unit "%"
  |> repeat_interval (Some (td_seconds (24 * 3600)))
  |> escalate_after (Some (td_seconds (7 * 24 * 3600))).

Definition rule_truenas_scrub_errors : Rule :=
  base "truenas_scrub_errors" "NAS scrub found errors"
    RuleKind.Threshold
    "dumbmonit_truenas_pool_last_scrub_errors"
  |> description "The last scrub of this pool found errors: data on disk was damaged."
  |> operator Operator.Gt
  |> threshold (f64_of_Z 0)
  |> for_duration (td_seconds (5 * 60))
  |> severity Severity.Critical
  |> repeat_interval (Some (td_seconds (24 * 3600))).

Definition rule_truenas_scrub_overdue : Rule :=
  base "truenas_scrub_overdue" "NAS scrub overdue"
    RuleKind.Threshold
    "dumbmonit_truenas_pool_last_scrub_age_seconds"
  |> description "This pool has not completed a scrub in more than 45 days: silent corruption would only be found when the data is read."
  |> operator Operator.Gt
  |> threshold (f64_mul (f64_of_Z 45) (f64_of_Z 86400))
  |> for_duration (td_seconds 3600)
  |> severity Severity.Info
  |> unit "s"
  |> repeat_interval (Some (td_seconds (7 * 24 * 3600))).

Definition rule_truenas_disk_smart_failed : Rule :=
  base "truenas_disk_smart_failed" "NAS disk failed its SMART test"
    RuleKind.Threshold
    "dumbmonit_truenas_disk_smart_failed"
  |> description "A SMART self-test of this disk failed. Replace it before it takes the pool's redundancy with it."
  |> operator Operator.Gt
  |> threshold (f64_of_Z 0)
  |> for_duration (td_seconds (5 * 60))
  |> severity Severity.Critical
  |> repeat_interval (Some (td_seconds (24 * 3600))).

Definition rule_truenas_disk_hot : Rule :=
  base "truenas_disk_hot" "NAS disk too hot"
    RuleKind.Threshold
    "dumbmonit_truenas_disk_temperature_celsius"
  |> description "A disk of this NAS is above 55 °C."
  |> operator Operator.Gt
  |> threshold (f64_of_Z 55)
  |> clear_threshold (Some (f64_of_Z 50))
  |> for_duration (td_seconds (15 * 60))
  |> severity Severity.Warning
  |> unit "°C"
  |> repeat_interval (Some (td_seconds (6 * 3600))).

Definition rule_truenas_dataset_quota_full : Rule :=
  base "truenas_dataset_quota_full" "NAS dataset near its quota"
    RuleKind.Threshold
    "dumbmonit_truenas_dataset_quota_used_percent"
  |> description "A dataset has used more than 90% of its quota. At 100% its writes fail while the pool still has room."
  |> operator Operator.Gt
  |> threshold (f64_of_Z 90)
  |> clear_threshold (Some (f64_of_Z 85))
  |> for_duration (td_seconds (30 * 60))
  |> severity Severity.Warning
  |> unit "%"
  |> repeat_interval (Some (td_seconds (24 * 3600))).

Definition rule_truenas_replication_failed : Rule :=
  base "truenas_replication_failed" "NAS replication failed"
    RuleKind.Threshold
    "dumbmonit_truenas_replication_error"
  |> description "A replication task failed: the copy on the other side is getting older."
  |> operator Operator.Gt
  |> threshold (f64_of_Z 0)
  |> for_duration (td_seconds (10 * 60))
  |> severity Severity.Warning
  |> repeat_interval (Some (td_seconds (12 * 3600))).

Definition rule_truenas_snapshot_task_failed : Rule :=
  base "truenas_snapshot_task_failed" "NAS snapshot task failed"
    RuleKind.Threshold
    "dumbmonit_truenas_snapshot_task_error"
  |> description "A periodic snapshot task failed: no new snapshot is being taken."
  |> operator Operator.Gt
  |> threshold (f64_of_Z 0)
  |> for_duration (td_seconds (10 * 60))
  |> severity Severity.Warning
  |> repeat_interval (Some (td_seconds (12 * 3600))).

Definition rule_truenas_snapshots_stale : Rule :=
  base "truenas_snapshots_stale" "NAS snapshots stale"
    RuleKind.Threshold
    "dumbmonit_truenas_snapshot_task_last_run_age_seconds"
  |> description "A periodic snapshot task has not run for more than eight days."
  |> operator Operator.Gt
  |> threshold (f64_mul (f64_of_Z 8) (f64_of_Z 86400))
  |> for_duration (td_seconds 3600)
  |> severity Severity.Warning
  |> unit "s"
  |> repeat_interval (Some (td_seconds (24 * 3600))).

Definition rule_truenas_alert_raised : Rule :=
  base "truenas_alert_raised" "TrueNAS alert raised"
    RuleKind.Threshold
    (quoted "sum by (target, host) (dumbmonit_truenas_alerts{level=~`ERROR|CRITICAL|ALERT|EMERGENCY`})")
  |> description "TrueNAS has raised an alert of level ERROR or above. Its own sentence is on the device page."
  |> operator Operator.Gt
  |> threshold (f64_of_Z 0)
  |> for_duration (td_seconds (10 * 60))
  |> severity Severity.Warning
  |> repeat_interval (Some (td_seconds (12 * 3600))).

Definition rule_truenas_service_down : Rule :=
  base "truenas_service_down" "NAS service stopped"
    RuleKind.Threshold
    "dumbmonit_truenas_service_running"
  |> description "A service set to start with the NAS is stopped."
  |> operator Operator.Lt
  |> threshold (f64_of_Z 1)
  |> for_duration (td_seconds (10 * 60))
  |> severity Severity.Warning
  |> repeat_interval (Some (td_seconds (6 * 3600))).

Definition rule_victoria_read_only : Rule :=
  base "victoria_read_only" "Metrics or log storage read-only"
    RuleKind.Threshold
    "dumbmonit_victoriametrics_read_only or dumbmonit_victorialogs_read_only"
  |> description "The storage switched to read-only because free disk space fell below -storage.minFreeDiskSpaceBytes: every new sample or log line is refused."
  |> operator Operator.Ge
  |> threshold (f64_of_Z 1)
  |> for_duration (td_seconds (2 * 60))
  |> severity Severity.Critical
  |> repeat_interval (Some (td_seconds 3600)).

Definition rule_victoria_disk_headroom_low : Rule :=
  base "victoria_disk_headroom_low" "Metrics or log storage almost read-only"
    RuleKind.Threshold
    "dumbmonit_victoriametrics_disk_headroom_percent or dumbmonit_victorialogs_disk_headroom_percent"
  |> description "Less than 10% of the disk is left before the storage switches to read-only and refuses new data."
  |> operator Operator.Lt
  |> threshold (f64_of_Z 10)
  |> clear_threshold (Some (f64_of_Z 12))
  |> for_duration (td_seconds (30 * 60))
  |> severity Severity.Warning
  |> unit "%"
  |> repeat_interval (Some (td_seconds (24 * 3600))).

Definition rule_victoria_unhealthy : Rule :=
  base "victoria_unhealthy" "Metrics or log server unhealthy"
    RuleKind.Threshold
    "dumbmonit_victoriametrics_healthy or dumbmonit_victorialogs_healthy"
  |> description "The server does not answer OK on /health."
  |> operator Operator.Lt
  |> threshold (f64_of_Z 1)
  |> for_duration (td_seconds (3 * 60))
  |> severity Severity.Critical.

Definition rule_victoria_rows_rejected : Rule :=
  base "victoria_rows_rejected" "Metrics or log data refused"
    RuleKind.Threshold
    "increase_prometheus(dumbmonit_victoriametrics_rows_rejected_total[1h]) or increase_prometheus(dumbmonit_victorialogs_rows_rejected_total[1h])"
  |> description "The server refused samples or log lines in the last hour: timestamps outside retention, labels too long, or a series limit reached."
  |> operator Operator.Gt
  |> threshold (f64_of_Z 0)
  |> for_duration (td_seconds (15 * 60))
  |> severity Severity.Warning
  |> repeat_interval (Some (td_seconds (24 * 3600))).

Definition rule_victoriametrics_slow_inserts : Rule :=
  base "victoriametrics_slow_inserts" "VictoriaMetrics slow inserts"
    RuleKind.Threshold
    "100 * increase_prometheus(dumbmonit_victoriametrics_slow_inserts_total[15m]) / increase_prometheus(dumbmonit_victoriametrics_rows_added_total[15m])"
  |> description "More than 5% of new samples take the slow insert path: VictoriaMetrics lacks memory for its active series."
  |> operator Operator.Gt
  |> threshold (f64_of_Z 5)
  |> clear_threshold (Some (f64_of_Z 3))
  |> for_duration (td_seconds (30 * 60))
  |> severity Severity.Warning
  |> unit "%"
  |> repeat_interval (Some (td_seconds (24 * 3600))).

Definition rule_loki_not_ready : Rule :=
  base "loki_not_ready" "Loki not ready"
    RuleKind.Threshold
    "dumbmonit_loki_ready"
  |> description "Loki does not answer ready on /ready: it cannot accept or serve logs."
  |> operator Operator.Lt
  |> threshold (f64_of_Z 1)
  |> for_duration (td_seconds (5 * 60))
  |> severity Severity.Critical.

Definition rule_loki_lines_discarded : Rule :=
  base "loki_lines_discarded" "Loki refusing log lines"
    RuleKind.Threshold
    "increase_prometheus(dumbmonit_loki_discarded_lines_total[1h])"
  |> description "Loki refused log lines in the last hour: too old, rate or stream limit reached, or line too long. The sender drops them."
  |> operator Operator.Gt
  |> threshold (f64_of_Z 0)
  |> for_duration (td_seconds (15 * 60))
  |> severity Severity.Warning
  |> repeat_interval (Some (td_seconds (24 * 3600))).

Definition rule_loki_flush_failing : Rule :=
  base "loki_flush_failing" "Loki cannot flush to storage"
    RuleKind.Threshold
    "increase_prometheus(dumbmonit_loki_flush_failures_total[30m])"
  |> description "Loki failed to write chunks to storage: they are held in memory and lost if Loki restarts."
  |> operator Operator.Gt
  |> threshold (f64_of_Z 0)
  |> for_duration (td_seconds (10 * 60))
  |> severity Severity.Critical
  |> repeat_interval (Some (td_seconds 3600)).

Definition rule_loki_wal_disk_full : Rule :=
  base "loki_wal_disk_full" "Loki write-ahead log disk full"
    RuleKind.Threshold
    "increase_prometheus(dumbmonit_loki_wal_disk_full_failures_total[30m])"
  |> description "Loki could not write to its write-ahead log because the disk is full."
  |> operator Operator.Gt
  |> threshold (f64_of_Z 0)
  |> for_duration (td_seconds (5 * 60))
  |> severity Severity.Critical
  |> repeat_interval (Some (td_seconds 3600)).

Definition rule_loki_request_errors : Rule :=
  base "loki_request_errors" "Loki request errors"
    RuleKind.Threshold
    "increase_prometheus(dumbmonit_loki_request_errors_total[15m])"
  |> description "Loki answered more than five requests with a server error in fifteen minutes."
  |> operator Operator.Gt
  |> threshold (f64_of_Z 5)
  |> for_duration (td_seconds (15 * 60))
  |> severity Severity.Warning
  |> repeat_interval (Some (td_seconds (6 * 3600))).

Definition rule_graylog_not_processing : Rule :=
  base "graylog_not_processing" "Graylog not processing"
    RuleKind.Threshold
    "dumbmonit_graylog_processing"
  |> description "Graylog has paused message processing on this node: messages pile up in the journal."
  |> operator Operator.Lt
  |> threshold (f64_of_Z 1)
  |> for_duration (td_seconds (5 * 60))
  |> severity Severity.Critical.

Definition rule_graylog_search_cluster_down : Rule :=
  base "graylog_search_cluster_down" "Graylog search cluster down"
    RuleKind.Threshold
    "dumbmonit_graylog_indexer_status"
  |> description "Graylog's search cluster is red or unreachable: new messages cannot be indexed."
  |> operator Operator.Ge
  |> threshold (f64_of_Z 2)
  |> for_duration (td_seconds (5 * 60))
  |> severity Severity.Critical
  |> repeat_interval (Some (td_seconds 3600)).

Definition rule_graylog_search_cluster_yellow : Rule :=
  base "graylog_search_cluster_yellow" "Graylog search cluster yellow"
    RuleKind.Threshold
    "dumbmonit_graylog_indexer_status == 1"
  |> description "Graylog's search cluster has been yellow for half an hour: replica shards are not assigned, one more node lost would lose data."
  |> operator Operator.Gt
  |> threshold (f64_of_Z 0)
  |> for_duration (td_seconds (30 * 60))
  |> severity Severity.Warning
  |> repeat_interval (Some (td_seconds (24 * 3600))).

Definition rule_graylog_journal_filling : Rule :=
  base "graylog_journal_filling" "Graylog journal filling"
    RuleKind.Threshold
    "dumbmonit_graylog_journal_used_percent"
  |> description "Graylog's journal is more than half full: the output does not keep up and messages will be dropped once it is full."
  |> operator Operator.Gt
  |> threshold (f64_of_Z 50)
  |> clear_threshold (Some (f64_of_Z 40))
  |> for_duration (td_seconds (10 * 60))
  |> severity Severity.Warning
  |> unit "%"
  |> escalate_after (Some (td_seconds 3600)).

Definition rule_graylog_input_failed : Rule :=
  base "graylog_input_failed" "Graylog input failed"
    RuleKind.Threshold
    "dumbmonit_graylog_inputs_failed"
  |> description "A Graylog input failed to start: whatever sends to it is not received."
  |> operator Operator.Gt
  |> threshold (f64_of_Z 0)
  |> for_duration (td_seconds (5 * 60))
  |> severity Severity.Warning
  |> repeat_interval (Some (td_seconds (24 * 3600))).

Definition rule_graylog_indexing_failures : Rule :=
  base "graylog_indexing_failures" "Graylog indexing failures"
    RuleKind.Threshold
    "increase_prometheus(dumbmonit_graylog_output_failures_total[1h]) + increase_prometheus(dumbmonit_graylog_processing_failures_total[1h])"
  |> description "Graylog failed to write messages to its search cluster in the last hour."
  |> operator Operator.Gt
  |> threshold (f64_of_Z 0)
  |> for_duration (td_seconds (15 * 60))
  |> severity Severity.Warning
  |> repeat_interval (Some (td_seconds (24 * 3600))).

Definition rule_nextcloud_maintenance : Rule :=
  base "nextcloud_maintenance" "Nextcloud stuck in maintenance"
    RuleKind.Threshold
    "dumbmonit_nextcloud_maintenance"
  |> description "Nextcloud has been in maintenance mode for half an hour: nobody can log in or sync."
  |> operator Operator.Gt
  |> threshold (f64_of_Z 0)
  |> for_duration (td_seconds (30 * 60))
  |> severity Severity.Warning
  |> repeat_interval (Some (td_seconds (6 * 3600)))
  |> escalate_after (Some (td_seconds (3 * 3600))).

Definition rule_nextcloud_upgrade_pending : Rule :=
  base "nextcloud_upgrade_pending" "Nextcloud database upgrade pending"
    RuleKind.Threshold
    "dumbmonit_nextcloud_needs_db_upgrade"
  |> description "Nextcloud waits for occ upgrade after an update and serves nothing until someone runs it."
  |> operator Operator.Gt
  |> threshold (f64_of_Z 0)
  |> for_duration (td_seconds (10 * 60))
  |> severity Severity.Critical
  |> repeat_interval (Some (td_seconds 3600)).

Definition rule_nextcloud_update_available : Rule :=
  base "nextcloud_update_available" "Nextcloud update available"
    RuleKind.Threshold
    "dumbmonit_nextcloud_update_available"
  |> description "A newer Nextcloud release is available."
  |> operator Operator.Gt
  |> threshold (f64_of_Z 0)
  |> for_duration (td_seconds 3600)
  |> severity Severity.Info
  |> repeat_interval (Some (td_seconds (7 * 24 * 3600))).

Definition rule_nextcloud_opcache_full : Rule :=
  base "nextcloud_opcache_full" "Nextcloud OPcache full"
    RuleKind.Threshold
    "dumbmonit_nextcloud_opcache_full"
  |> description "PHP OPcache on the Nextcloud server is full: pages get slow. Raise opcache.memory_consumption."
  |> operator Operator.Gt
  |> threshold (f64_of_Z 0)
  |> for_duration (td_seconds (30 * 60))
  |> severity Severity.Warning
  |> repeat_interval (Some (td_seconds (24 * 3600))).

Definition rule_nextcloud_free_space_low : Rule :=
  base "nextcloud_free_space_low" "Nextcloud free space low"
    RuleKind.Threshold
    "dumbmonit_nextcloud_free_space_bytes / 1073741824"
  |> description "Less than 5 GiB free for Nextcloud's data: uploads and syncs will start failing."
  |> operator Operator.Lt
  |> threshold (f64_of_Z 5)
  |> clear_threshold (Some (f64_of_Z 6))
  |> for_duration (td_seconds (30 * 60))
  |> severity Severity.Warning
  |> unit "GiB"
  |> repeat_interval (Some (td_seconds (24 * 3600))).

Definition rule_immich_jobs_stalled : Rule :=
  base "immich_jobs_stalled" "Immich jobs stalled"
    RuleKind.Threshold
    "dumbmonit_immich_queue_waiting > 0 and on (target, queue) dumbmonit_immich_queue_active == 0 unless on (target, queue) dumbmonit_immich_queue_paused == 1"
  |> description "Immich jobs have waited for an hour in a queue that is not paused and runs nothing: new photos get no thumbnail or metadata."
  |> operator Operator.Gt
  |> threshold (f64_of_Z 0)
  |> for_duration (td_seconds 3600)
  |> severity Severity.Warning
  |> repeat_interval (Some (td_seconds (6 * 3600))).

Definition rule_immich_queue_paused : Rule :=
  base "immich_queue_paused" "Immich queue paused"
    RuleKind.Threshold
    "dumbmonit_immich_queue_paused"
  |> description "An Immich job queue has been paused for a day."
  |> operator Operator.Gt
  |> threshold (f64_of_Z 0)
  |> for_duration (td_seconds (24 * 3600))
  |> severity Severity.Info
  |> repeat_interval (Some (td_seconds (7 * 24 * 3600))).

Definition rule_immich_storage_almost_full : Rule :=
  base "immich_storage_almost_full" "Immich storage almost full"
    RuleKind.Threshold
    "dumbmonit_immich_storage_used_percent"
  |> description "The disk holding Immich's library is more than 90% full."
  |> operator Operator.Gt
  |> threshold (f64_of_Z 90)
  |> clear_threshold (Some (f64_of_Z 88))
  |> for_duration (td_seconds (30 * 60))
  |> severity Severity.Warning
  |> unit "%"
  |> repeat_interval (Some (td_seconds (24 * 3600))).

Definition rule_immich_update_available : Rule :=
  base "immich_update_available" "Immich update available"
    RuleKind.Threshold
    "dumbmonit_immich_update_available"
  |> description "A newer Immich release is available."
  |> operator Operator.Gt
  |> threshold (f64_of_Z 0)
  |> for_duration (td_seconds 3600)
  |> severity Severity.Info
  |> repeat_interval (Some (td_seconds (7 * 24 * 3600))).

Definition rule_paperless_broker_down : Rule :=
  base "paperless_broker_down" "Paperless task queue down"
    RuleKind.Threshold
    (quoted "max by (target) (dumbmonit_paperless_component_status{component=~`redis|celery`})")
  |> description "Paperless-ngx cannot reach Redis or Celery: nothing new is imported, from the consume folder or from mail."
  |> operator Operator.Ge
  |> threshold (f64_of_Z 2)
  |> for_duration (td_seconds (5 * 60))
  |> severity Severity.Critical
  |> repeat_interval (Some (td_seconds 3600)).

Definition rule_paperless_component_error : Rule :=
  base "paperless_component_error" "Paperless index or sanity check error"
    RuleKind.Threshold
    (quoted "dumbmonit_paperless_component_status{component=~`index|classifier|sanity_check`}")
  |> description "Paperless-ngx reports an error in its search index, classifier or sanity check (missing or altered files)."
  |> operator Operator.Ge
  |> threshold (f64_of_Z 2)
  |> for_duration (td_seconds (30 * 60))
  |> severity Severity.Warning
  |> repeat_interval (Some (td_seconds (24 * 3600))).

Definition rule_paperless_migrations_pending : Rule :=
  base "paperless_migrations_pending" "Paperless migrations pending"
    RuleKind.Threshold
    "dumbmonit_paperless_unapplied_migrations"
  |> description "Paperless-ngx has database migrations left to apply: run them before it misbehaves."
  |> operator Operator.Gt
  |> threshold (f64_of_Z 0)
  |> for_duration (td_seconds (30 * 60))
  |> severity Severity.Warning
  |> repeat_interval (Some (td_seconds (24 * 3600))).

Definition rule_paperless_task_failed : Rule :=
  base "paperless_task_failed" "Paperless task failed"
    RuleKind.Threshold
    "dumbmonit_paperless_tasks_failed_recent"
  |> description "A Paperless-ngx task (an import, a scheduled job) failed recently and was not dismissed."
  |> operator Operator.Gt
  |> threshold (f64_of_Z 0)
  |> for_duration (td_seconds (5 * 60))
  |> severity Severity.Warning
  |> repeat_interval (Some (td_seconds (24 * 3600))).

Definition rule_paperless_storage_almost_full : Rule :=
  base "paperless_storage_almost_full" "Paperless storage almost full"
    RuleKind.Threshold
    "dumbmonit_paperless_storage_used_percent"
  |> description "The disk holding Paperless-ngx's documents is more than 90% full."
  |> operator Operator.Gt
  |> threshold (f64_of_Z 90)
  |> clear_threshold (Some (f64_of_Z 88))
  |> for_duration (td_seconds (30 * 60))
  |> severity Severity.Warning
  |> unit "%"
  |> repeat_interval (Some (td_seconds (24 * 3600))).

Definition rule_paperless_update_available : Rule :=
  base "paperless_update_available" "Paperless update available"
    RuleKind.Threshold
    "dumbmonit_paperless_update_available"
  |> description "A newer Paperless-ngx release is available."
  |> operator Operator.Gt
  |> threshold (f64_of_Z 0)
  |> for_duration (td_seconds 3600)
  |> severity Severity.Info
  |> repeat_interval (Some (td_seconds (7 * 24 * 3600))).

Definition rule_jellyfin_task_failed : Rule :=
  base "jellyfin_task_failed" "Jellyfin scheduled task failed"
    RuleKind.Threshold
    "dumbmonit_jellyfin_scheduled_tasks_failed"
  |> description "A Jellyfin scheduled task failed on its last run (a library scan, a cleanup)."
  |> operator Operator.Gt
  |> threshold (f64_of_Z 0)
  |> for_duration (td_seconds (10 * 60))
  |> severity Severity.Warning
  |> repeat_interval (Some (td_seconds (24 * 3600))).

Definition rule_jellyfin_plugin_broken : Rule :=
  base "jellyfin_plugin_broken" "Jellyfin plugin broken"
    RuleKind.Threshold
    "dumbmonit_jellyfin_plugins_broken"
  |> description "A Jellyfin plugin failed to load or does not support this version."
  |> operator Operator.Gt
  |> threshold (f64_of_Z 0)
  |> for_duration (td_seconds (15 * 60))
  |> severity Severity.Warning
  |> repeat_interval (Some (td_seconds (24 * 3600))).

Definition rule_jellyfin_restart_pending : Rule :=
  base "jellyfin_restart_pending" "Jellyfin restart pending"
    RuleKind.Threshold
    "dumbmonit_jellyfin_pending_restart"
  |> description "Jellyfin has waited a day for a restart, after a plugin install or update."
  |> operator Operator.Gt
  |> threshold (f64_of_Z 0)
  |> for_duration (td_seconds (24 * 3600))
  |> severity Severity.Info
  |> repeat_interval (Some (td_seconds (7 * 24 * 3600))).

Definition rule_plex_update_available : Rule :=
  base "plex_update_available" "Plex update available"
    RuleKind.Threshold
    "dumbmonit_plex_update_available"
  |> description "A newer Plex Media Server release is available."
  |> operator Operator.Gt
  |> threshold (f64_of_Z 0)
  |> for_duration (td_seconds 3600)
  |> severity Severity.Info
  |> repeat_interval (Some (td_seconds (7 * 24 * 3600))).

Definition rule_gitlab_runners_all_offline : Rule :=
  base "gitlab_runners_all_offline" "GitLab runners all offline"
    RuleKind.Threshold
    "dumbmonit_gitlab_runners_online and on (target) dumbmonit_gitlab_runners_total > 0"
  |> description "Every CI/CD runner GitLab knows is offline: no pipeline can run."
  |> operator Operator.Lt
  |> threshold (f64_of_Z 1)
  |> for_duration (td_seconds (10 * 60))
  |> severity Severity.Warning
  |> repeat_interval (Some (td_seconds (6 * 3600))).

Definition rule_gitlab_sidekiq_backlog_high : Rule :=
  base "gitlab_sidekiq_backlog_high" "GitLab Sidekiq backlog high"
    RuleKind.Threshold
    "max by (target) (dumbmonit_gitlab_sidekiq_queue_backlog)"
  |> description "A Sidekiq queue has over 500 jobs waiting: notifications, webhooks and imports fall behind."
  |> operator Operator.Gt
  |> threshold (f64_of_Z 500)
  |> for_duration (td_seconds (15 * 60))
  |> severity Severity.Warning
  |> repeat_interval (Some (td_seconds (6 * 3600))).

Definition rule_gitlab_migrations_pending : Rule :=
  base "gitlab_migrations_pending" "GitLab migrations pending"
    RuleKind.Threshold
    "dumbmonit_gitlab_migrations_pending"
  |> description "GitLab has database migrations left to apply after an upgrade."
  |> operator Operator.Gt
  |> threshold (f64_of_Z 0)
  |> for_duration (td_seconds 3600)
  |> severity Severity.Info
  |> repeat_interval (Some (td_seconds (24 * 3600))).

Definition rule_gitlab_license_expiring : Rule :=
  base "gitlab_license_expiring" "GitLab license expiring"
    RuleKind.Threshold
    "dumbmonit_gitlab_license_expiry_seconds"
  |> description "The GitLab license expires in less than 30 days."
  |> operator Operator.Lt
  |> threshold (f64_mul (f64_mul (f64_of_Z 30) (f64_of_Z 24)) (f64_of_Z 3600))
  |> for_duration (td_seconds 3600)
  |> severity Severity.Warning
  |> unit "s"
  |> repeat_interval (Some (td_seconds (24 * 3600))).

Definition rule_forgejo_runners_all_offline : Rule :=
  base "forgejo_runners_all_offline" "Forgejo/Gitea runners all offline"
    RuleKind.Threshold
    "dumbmonit_forgejo_runners_online and on (target) dumbmonit_forgejo_runners_total > 0"
  |> description "Every Actions runner Forgejo or Gitea knows is offline: no workflow can run."
  |> operator Operator.Lt
  |> threshold (f64_of_Z 1)
  |> for_duration (td_seconds (10 * 60))
  |> severity Severity.Warning
  |> repeat_interval (Some (td_seconds (6 * 3600))).

Definition rule_forgejo_cron_task_overdue : Rule :=
  base "forgejo_cron_task_overdue" "Forgejo/Gitea scheduled task overdue"
    RuleKind.Threshold
    "dumbmonit_forgejo_cron_task_overdue"
  |> description "A scheduled task (repository check, cleanup, update checker) did not run at its own interval."
  |> operator Operator.Gt
  |> threshold (f64_of_Z 0)
  |> for_duration (td_seconds (30 * 60))
  |> severity Severity.Warning
  |> repeat_interval (Some (td_seconds (24 * 3600))).

Definition rule_client_device_stale : Rule :=
  base "client_device_stale" "Client device stale"
    RuleKind.Threshold
    "dumbmonit_client_device_stale_seconds"
  |> description "A client device (phone, tablet, desktop…) has not connected or not backed up within the staleness window configured for this target (`device_stale_days`, three days by default)."
  |> operator Operator.Gt
  |> threshold (f64_of_Z 0)
  |> for_duration (td_seconds 3600)
  |> severity Severity.Warning
  |> unit "s"
  |> repeat_interval (Some (td_seconds (24 * 3600))).

Definition rule_pihole_blocking_disabled : Rule :=
  base "pihole_blocking_disabled" "Pi-hole blocking disabled"
    RuleKind.Threshold
    "dumbmonit_pihole_blocking_enabled"
  |> description "Pi-hole has not been blocking for fifteen minutes: ads and trackers go through."
  |> operator Operator.Lt
  |> threshold (f64_of_Z 1)
  |> for_duration (td_seconds (15 * 60))
  |> severity Severity.Warning.

Definition rule_pihole_gravity_stale : Rule :=
  base "pihole_gravity_stale" "Pi-hole blocklists stale"
    RuleKind.Threshold
    "dumbmonit_pihole_gravity_age_seconds"
  |> description "Pi-hole's blocklists have not been rebuilt for more than eight days: the weekly gravity update fails."
  |> operator Operator.Gt
  |> threshold (f64_mul (f64_of_Z 8) (f64_of_Z 86400))
  |> for_duration (td_seconds 3600)
  |> severity Severity.Warning
  |> unit "s"
  |> repeat_interval (Some (td_seconds (24 * 3600))).

Definition rule_pihole_update_available : Rule :=
  base "pihole_update_available" "Pi-hole update available"
    RuleKind.Threshold
    "dumbmonit_pihole_updates_available"
  |> description "A newer Pi-hole is available (the container image, or core, web interface or FTL outside a container)."
  |> operator Operator.Gt
  |> threshold (f64_of_Z 0)
  |> for_duration (td_seconds 3600)
  |> severity Severity.Info
  |> repeat_interval (Some (td_seconds (7 * 24 * 3600))).

Definition rule_pihole_diagnosis_messages : Rule :=
  base "pihole_diagnosis_messages" "Pi-hole diagnosis messages"
    RuleKind.Threshold
    "dumbmonit_pihole_messages"
  |> description "Pi-hole lists messages in its diagnosis page: a blocklist that failed to download, a client rate-limited, a host overloaded."
  |> operator Operator.Gt
  |> threshold (f64_of_Z 0)
  |> for_duration (td_seconds (15 * 60))
  |> severity Severity.Info
  |> repeat_interval (Some (td_seconds (24 * 3600))).

Definition rule_adguard_protection_disabled : Rule :=
  base "adguard_protection_disabled" "AdGuard Home protection off"
    RuleKind.Threshold
    "dumbmonit_adguard_protection_enabled"
  |> description "AdGuard Home's protection has been off for fifteen minutes: nothing is filtered."
  |> operator Operator.Lt
  |> threshold (f64_of_Z 1)
  |> for_duration (td_seconds (15 * 60))
  |> severity Severity.Warning
  |> repeat_interval (Some (td_seconds (6 * 3600))).

Definition rule_adguard_dns_not_running : Rule :=
  base "adguard_dns_not_running" "AdGuard Home DNS not running"
    RuleKind.Threshold
    "dumbmonit_adguard_running"
  |> description "AdGuard Home's DNS server is not running: clients that use it cannot resolve names."
  |> operator Operator.Lt
  |> threshold (f64_of_Z 1)
  |> for_duration (td_seconds (5 * 60))
  |> severity Severity.Critical
  |> repeat_interval (Some (td_seconds 3600)).

Definition rule_adguard_upstream_down : Rule :=
  base "adguard_upstream_down" "AdGuard Home upstream failing"
    RuleKind.Threshold
    "dumbmonit_adguard_upstream_up"
  |> description "An upstream DNS server of AdGuard Home fails its test: queries sent to it fail or wait."
  |> operator Operator.Lt
  |> threshold (f64_of_Z 1)
  |> for_duration (td_seconds (10 * 60))
  |> severity Severity.Warning
  |> repeat_interval (Some (td_seconds (6 * 3600))).

Definition rule_adguard_filters_stale : Rule :=
  base "adguard_filters_stale" "AdGuard Home filter lists stale"
    RuleKind.Threshold
    "dumbmonit_adguard_filter_oldest_update_age_seconds"
  |> description "An enabled AdGuard Home filter list has not been updated for three days: blocking falls behind."
  |> operator Operator.Gt
  |> threshold (f64_mul (f64_of_Z 3) (f64_of_Z 86400))
  |> for_duration (td_seconds 3600)
  |> severity Severity.Warning
  |> unit "s"
  |> repeat_interval (Some (td_seconds (24 * 3600))).

Definition rule_adguard_update_available : Rule :=
  base "adguard_update_available" "AdGuard Home update available"
    RuleKind.Threshold
    "dumbmonit_adguard_update_available"
  |> description "A newer AdGuard Home version is available."
  |> operator Operator.Gt
  |> threshold (f64_of_Z 0)
  |> for_duration (td_seconds 3600)
  |> severity Severity.Info
  |> repeat_interval (Some (td_seconds (7 * 24 * 3600))).

Definition rule_nut_on_battery : Rule :=
  base "nut_on_battery" "UPS on battery (NUT)"
    RuleKind.Threshold
    "dumbmonit_nut_ups_on_battery"
  |> description "The UPS is powering the load from battery."
  |> operator Operator.Gt
  |> threshold (f64_of_Z 0)
  |> for_duration (td_seconds 30)
  |> severity Severity.Critical
  |> repeat_interval (Some (td_seconds 900)).

Definition rule_nut_battery_low : Rule :=
  base "nut_battery_low" "UPS battery low (NUT)"
    RuleKind.Threshold
    "dumbmonit_nut_ups_low_battery"
  |> description "The UPS reports a low battery: the machines it powers are about to shut down."
  |> operator Operator.Gt
  |> threshold (f64_of_Z 0)
  |> for_duration (td_seconds 60)
  |> severity Severity.Critical
  |> repeat_interval (Some (td_seconds 1800)).

Definition rule_nut_replace_battery : Rule :=
  base "nut_replace_battery" "UPS battery needs replacing (NUT)"
    RuleKind.Threshold
    "dumbmonit_nut_ups_replace_battery"
  |> description "The UPS asks for its battery to be replaced: it may not hold the load through the next outage."
  |> operator Operator.Gt
  |> threshold (f64_of_Z 0)
  |> for_duration (td_seconds 3600)
  |> severity Severity.Warning
  |> repeat_interval (Some (td_seconds (7 * 24 * 3600))).

Definition rule_nut_load_high : Rule :=
  base "nut_load_high" "UPS load high (NUT)"
    RuleKind.Threshold
    "dumbmonit_nut_ups_load_percent"
  |> description "The UPS load has stayed above 80% for ten minutes."
  |> operator Operator.Gt
  |> threshold (f64_of_Z 80)
  |> clear_threshold (Some (f64_of_Z 75))
  |> for_duration (td_seconds (10 * 60))
  |> severity Severity.Warning
  |> unit "%"
  |> repeat_interval (Some (td_seconds (24 * 3600))).

Definition rule_nut_runtime_short : Rule :=
  base "nut_runtime_short" "UPS runtime short (NUT)"
    RuleKind.Threshold
    "dumbmonit_nut_battery_runtime_seconds"
  |> description "The UPS estimates less than five minutes of runtime on battery."
  |> operator Operator.Lt
  |> threshold (f64_of_Z 300)
  |> clear_threshold (Some (f64_of_Z 360))
  |> for_duration (td_seconds (5 * 60))
  |> severity Severity.Warning
  |> unit "s"
  |> repeat_interval (Some (td_seconds (24 * 3600))).

Definition rule_nut_data_stale : Rule :=
  base "nut_data_stale" "UPS data stale (NUT)"
    RuleKind.Threshold
    "dumbmonit_nut_ups_data_stale"
  |> description "The NUT server has no fresh data from the UPS: its cable, driver or the UPS itself stopped answering, and an outage would go unseen."
  |> operator Operator.Gt
  |> threshold (f64_of_Z 0)
  |> for_duration (td_seconds (5 * 60))
  |> severity Severity.Warning
  |> escalate_after (Some (td_seconds 3600)).

Definition rule_mikrotik_cpu_high : Rule :=
  base "mikrotik_cpu_high" "MikroTik CPU high"
    RuleKind.Threshold
    "dumbmonit_mikrotik_cpu_load_percent"
  |> description "The router's CPU has been above 90% for fifteen minutes: routing, the firewall or a script is saturating it."
  |> operator Operator.Gt
  |> threshold (f64_of_Z 90)
  |> clear_threshold (Some (f64_of_Z 80))
  |> for_duration (td_seconds (15 * 60))
  |> severity Severity.Warning
  |> unit "%"
  |> repeat_interval (Some (td_seconds (6 * 3600))).

Definition rule_mikrotik_memory_high : Rule :=
  base "mikrotik_memory_high" "MikroTik memory high"
    RuleKind.Threshold
    "dumbmonit_mikrotik_memory_used_percent"
  |> description "More than 90% of the router's memory is in use."
  |> operator Operator.Gt
  |> threshold (f64_of_Z 90)
  |> clear_threshold (Some (f64_of_Z 85))
  |> for_duration (td_seconds (15 * 60))
  |> severity Severity.Warning
  |> unit "%"
  |> repeat_interval (Some (td_seconds (6 * 3600))).

Definition rule_mikrotik_storage_almost_full : Rule :=
  base "mikrotik_storage_almost_full" "MikroTik storage almost full"
    RuleKind.Threshold
    "dumbmonit_mikrotik_storage_used_percent"
  |> description "The router's storage is more than 90% full: configuration changes and upgrades may fail."
  |> operator Operator.Gt
  |> threshold (f64_of_Z 90)
  |> clear_threshold (Some (f64_of_Z 85))
  |> for_duration (td_seconds (30 * 60))
  |> severity Severity.Warning
  |> unit "%"
  |> repeat_interval (Some (td_seconds (24 * 3600))).

Definition rule_mikrotik_temperature_high : Rule :=
  base "mikrotik_temperature_high" "MikroTik temperature high"
    RuleKind.Threshold
    "dumbmonit_mikrotik_temperature_celsius"
  |> description "A temperature sensor of the router is above 80 °C."
  |> operator Operator.Gt
  |> threshold (f64_of_Z 80)
  |> clear_threshold (Some (f64_of_Z 75))
  |> for_duration (td_seconds (10 * 60))
  |> severity Severity.Warning
  |> unit "°C"
  |> repeat_interval (Some (td_seconds (6 * 3600))).

Definition rule_mikrotik_hardware_failed : Rule :=
  base "mikrotik_hardware_failed" "MikroTik power supply or fan failed"
    RuleKind.Threshold
    "dumbmonit_mikrotik_health_ok"
  |> description "The router reports a failed power supply or fan."
  |> operator Operator.Lt
  |> threshold (f64_of_Z 1)
  |> for_duration (td_seconds (5 * 60))
  |> severity Severity.Critical
  |> repeat_interval (Some (td_seconds 3600)).

Definition rule_mikrotik_interface_errors : Rule :=
  base "mikrotik_interface_errors" "MikroTik interface accumulating errors"
    RuleKind.Threshold
    "increase_prometheus(dumbmonit_mikrotik_interface_rx_errors_total[1h]) + increase_prometheus(dumbmonit_mikrotik_interface_tx_errors_total[1h])"
  |> description "An interface of the router logged more than fifty errors in the last hour: usually a failing cable, a dirty fibre or a duplex mismatch."
  |> operator Operator.Gt
  |> threshold (f64_of_Z 50)
  |> for_duration (td_seconds (15 * 60))
  |> severity Severity.Warning
  |> repeat_interval (Some (td_seconds (24 * 3600))).

Definition rule_mikrotik_link_flapping : Rule :=
  base "mikrotik_link_flapping" "MikroTik link flapping"
    RuleKind.Threshold
    "increase_prometheus(dumbmonit_mikrotik_interface_link_downs_total[30m])"
  |> description "An interface of the router lost its link more than twice in thirty minutes."
  |> operator Operator.Gt
  |> threshold (f64_of_Z 2)
  |> for_duration (td_seconds (5 * 60))
  |> severity Severity.Warning
  |> repeat_interval (Some (td_seconds 3600)).

Definition rule_mikrotik_update_available : Rule :=
  base "mikrotik_update_available" "MikroTik RouterOS update available"
    RuleKind.Threshold
    "dumbmonit_mikrotik_update_available"
  |> description "A newer RouterOS version is available on the router's update channel."
  |> operator Operator.Gt
  |> threshold (f64_of_Z 0)
  |> for_duration (td_seconds 3600)
  |> severity Severity.Info
  |> repeat_interval (Some (td_seconds (7 * 24 * 3600))).

Definition rule_mikrotik_firmware_upgrade_pending : Rule :=
  base "mikrotik_firmware_upgrade_pending" "MikroTik firmware upgrade pending"
    RuleKind.Threshold
    "dumbmonit_mikrotik_firmware_upgrade_pending"
  |> description "The RouterBOOT firmware is older than the one bundled with the installed RouterOS: it is upgraded only on request, then at the next reboot."
  |> operator Operator.Gt
  |> threshold (f64_of_Z 0)
  |> for_duration (td_seconds 3600)
  |> severity Severity.Info
  |> repeat_interval (Some (td_seconds (7 * 24 * 3600))).

Definition rule_unifi_device_offline : Rule :=
  base "unifi_device_offline" "UniFi device offline"
    RuleKind.Threshold
    "dumbmonit_unifi_device_up"
  |> description "A UniFi device adopted by the controller is offline, isolated or failed to adopt."
  |> operator Operator.Lt
  |> threshold (f64_of_Z 1)
  |> for_duration (td_seconds (5 * 60))
  |> severity Severity.Warning
  |> escalate_after (Some (td_seconds 3600)).

Definition rule_unifi_internet_down : Rule :=
  base "unifi_internet_down" "UniFi Internet down"
    RuleKind.Threshold
    "dumbmonit_unifi_internet_up"
  |> description "The UniFi gateway reports no Internet connection."
  |> operator Operator.Lt
  |> threshold (f64_of_Z 1)
  |> for_duration (td_seconds (3 * 60))
  |> severity Severity.Critical
  |> repeat_interval (Some (td_seconds 3600)).

Definition rule_unifi_wan_link_down : Rule :=
  base "unifi_wan_link_down" "UniFi WAN link down"
    RuleKind.Threshold
    "dumbmonit_unifi_wan_link_up"
  |> description "A WAN link of the UniFi gateway is down."
  |> operator Operator.Lt
  |> threshold (f64_of_Z 1)
  |> for_duration (td_seconds (5 * 60))
  |> severity Severity.Warning
  |> repeat_interval (Some (td_seconds (6 * 3600))).

Definition rule_unifi_gateway_cpu_high : Rule :=
  base "unifi_gateway_cpu_high" "UniFi gateway CPU high"
    RuleKind.Threshold
    (quoted "dumbmonit_unifi_device_cpu_percent{type=`gateway`}")
  |> description "The UniFi gateway's processor has been above 90% for fifteen minutes."
  |> operator Operator.Gt
  |> threshold (f64_of_Z 90)
  |> clear_threshold (Some (f64_of_Z 80))
  |> for_duration (td_seconds (15 * 60))
  |> severity Severity.Warning
  |> unit "%".

Definition rule_unifi_device_pending_adoption : Rule :=
  base "unifi_device_pending_adoption" "UniFi device waiting for adoption"
    RuleKind.Threshold
    (quoted "dumbmonit_unifi_devices{state=`pending`}")
  |> description "A device appeared on the network and waits to be adopted in UniFi."
  |> operator Operator.Gt
  |> threshold (f64_of_Z 0)
  |> for_duration (td_seconds (30 * 60))
  |> severity Severity.Info
  |> repeat_interval (Some (td_seconds (24 * 3600))).

Definition rule_unifi_firmware_update : Rule :=
  base "unifi_firmware_update" "UniFi firmware update available"
    RuleKind.Threshold
    "dumbmonit_unifi_devices_upgradable"
  |> description "A firmware update is available for UniFi devices."
  |> operator Operator.Gt
  |> threshold (f64_of_Z 0)
  |> for_duration (td_seconds 3600)
  |> severity Severity.Info
  |> repeat_interval (Some (td_seconds (7 * 24 * 3600))).

Definition rule_unifi_alarms : Rule :=
  base "unifi_alarms" "UniFi alarms"
    RuleKind.Threshold
    "dumbmonit_unifi_alarms"
  |> description "UniFi logged critical events or raised alarms in the last 24 hours."
  |> operator Operator.Gt
  |> threshold (f64_of_Z 0)
  |> for_duration (td_seconds (5 * 60))
  |> severity Severity.Warning
  |> repeat_interval (Some (td_seconds (24 * 3600))).

Definition rule_homeassistant_recovery_mode : Rule :=
  base "homeassistant_recovery_mode" "Home Assistant in recovery mode"
    RuleKind.Threshold
    "dumbmonit_homeassistant_recovery_mode"
  |> description "Home Assistant started in recovery mode: its configuration could not be loaded and automations do not run."
  |> operator Operator.Gt
  |> threshold (f64_of_Z 0)
  |> for_duration (td_seconds (2 * 60))
  |> severity Severity.Critical
  |> repeat_interval (Some (td_seconds 3600)).

Definition rule_homeassistant_not_running : Rule :=
  base "homeassistant_not_running" "Home Assistant not running"
    RuleKind.Threshold
    "dumbmonit_homeassistant_running"
  |> description "Home Assistant answers but has not finished starting for ten minutes."
  |> operator Operator.Lt
  |> threshold (f64_of_Z 1)
  |> for_duration (td_seconds (10 * 60))
  |> severity Severity.Warning.

Definition rule_homeassistant_entities_unavailable : Rule :=
  base "homeassistant_entities_unavailable" "Home Assistant entities went unavailable"
    RuleKind.Threshold
    "sum by (target) (dumbmonit_homeassistant_entities_unavailable) - sum by (target) (dumbmonit_homeassistant_entities_unavailable offset 1h)"
  |> description "At least five more entities are unavailable than an hour ago: an integration, a hub or a radio stopped."
  |> operator Operator.Ge
  |> threshold (f64_of_Z 5)
  |> for_duration (td_seconds (10 * 60))
  |> severity Severity.Warning
  |> repeat_interval (Some (td_seconds (6 * 3600))).

Definition rule_homeassistant_battery_low : Rule :=
  base "homeassistant_battery_low" "Home Assistant battery low"
    RuleKind.Threshold
    "dumbmonit_homeassistant_battery_low"
  |> description "A battery reported by Home Assistant is low."
  |> operator Operator.Ge
  |> threshold (f64_of_Z 0)
  |> for_duration (td_seconds (30 * 60))
  |> severity Severity.Info
  |> repeat_interval (Some (td_seconds (3 * 24 * 3600)))
  |> unit "%".

Definition rule_homeassistant_update_available : Rule :=
  base "homeassistant_update_available" "Home Assistant update available"
    RuleKind.Threshold
    "dumbmonit_homeassistant_updates_available"
  |> description "Home Assistant has updates waiting: core, operating system, add-ons or device firmware."
  |> operator Operator.Gt
  |> threshold (f64_of_Z 0)
  |> for_duration (td_seconds 3600)
  |> severity Severity.Info
  |> repeat_interval (Some (td_seconds (7 * 24 * 3600))).

Definition rule_homeassistant_repair : Rule :=
  base "homeassistant_repair" "Home Assistant repair to address"
    RuleKind.Threshold
    (quoted "dumbmonit_homeassistant_repair{severity=~`error|critical`}")
  |> description "Home Assistant has an open repair of error or critical severity."
  |> operator Operator.Gt
  |> threshold (f64_of_Z 0)
  |> for_duration (td_seconds (15 * 60))
  |> severity Severity.Warning
  |> repeat_interval (Some (td_seconds (24 * 3600))).
