(* ===== verification/RulesEstate.v ===== *)
(** * The built-in rules of the rest of the estate ([alerting/rules.rs])

    Hypervisors, databases, proxies, names, directories, clusters and the security score. *)
From S2P Require Import Prelude Text Float64 Chrono Model RuleBook.

Definition rule_vsphere_host_not_responding : Rule :=
  base "vsphere_host_not_responding" "vSphere host not responding"
    RuleKind.Threshold
    "dumbmonit_vsphere_host_connection_state"
  |> description "A vSphere host is not responding to vCenter."
  |> operator Operator.Ge
  |> threshold (f64_of_Z 2)
  |> for_duration (td_seconds (3 * 60))
  |> severity Severity.Critical
  |> repeat_interval (Some (td_seconds 3600)).

Definition rule_vsphere_host_red : Rule :=
  base "vsphere_host_red" "vSphere host health red"
    RuleKind.Threshold
    "dumbmonit_vsphere_host_status == 2"
  |> description "vSphere reports a host's overall health as red."
  |> operator Operator.Gt
  |> threshold (f64_of_Z 0)
  |> for_duration (td_seconds (5 * 60))
  |> severity Severity.Critical
  |> repeat_interval (Some (td_seconds 3600)).

Definition rule_vsphere_host_maintenance : Rule :=
  base "vsphere_host_maintenance" "vSphere host left in maintenance"
    RuleKind.Threshold
    "dumbmonit_vsphere_host_maintenance"
  |> description "A vSphere host has been in maintenance mode for a day: its VMs were moved away and it may have been forgotten there."
  |> operator Operator.Gt
  |> threshold (f64_of_Z 0)
  |> for_duration (td_seconds (24 * 3600))
  |> severity Severity.Info
  |> repeat_interval (Some (td_seconds (24 * 3600))).

Definition rule_vsphere_datastore_almost_full : Rule :=
  base "vsphere_datastore_almost_full" "vSphere datastore almost full"
    RuleKind.Threshold
    "dumbmonit_vsphere_datastore_used_percent"
  |> description "A vSphere datastore is 90% full or more."
  |> operator Operator.Ge
  |> threshold (f64_of_Z 90)
  |> clear_threshold (Some (f64_of_Z 85))
  |> for_duration (td_seconds (15 * 60))
  |> severity Severity.Warning
  |> unit "%"
  |> escalate_after (Some (td_seconds (24 * 3600))).

Definition rule_vsphere_datastore_inaccessible : Rule :=
  base "vsphere_datastore_inaccessible" "vSphere datastore inaccessible"
    RuleKind.Threshold
    "dumbmonit_vsphere_datastore_accessible"
  |> description "A vSphere datastore is inaccessible: the VMs stored on it cannot run."
  |> operator Operator.Lt
  |> threshold (f64_of_Z 1)
  |> for_duration (td_seconds (5 * 60))
  |> severity Severity.Critical
  |> repeat_interval (Some (td_seconds 3600)).

Definition rule_vsphere_vm_tools_not_running : Rule :=
  base "vsphere_vm_tools_not_running" "vSphere VM tools not running"
    RuleKind.Threshold
    "dumbmonit_vsphere_vm_tools_status == 2"
  |> description "VMware Tools are installed but not running in a powered-on VM: the guest may be hung."
  |> operator Operator.Gt
  |> threshold (f64_of_Z 0)
  |> for_duration (td_seconds (30 * 60))
  |> severity Severity.Info
  |> repeat_interval (Some (td_seconds (24 * 3600))).

Definition rule_vsphere_alarm_red : Rule :=
  base "vsphere_alarm_red" "vSphere red alarm"
    RuleKind.Threshold
    (quoted "dumbmonit_vsphere_alarm{status=`red`}")
  |> description "vSphere raised a red alarm that nobody acknowledged."
  |> operator Operator.Gt
  |> threshold (f64_of_Z 0)
  |> for_duration (td_seconds (5 * 60))
  |> severity Severity.Warning
  |> repeat_interval (Some (td_seconds (6 * 3600))).

Definition rule_pve_guest_cpu_high : Rule :=
  base "pve_guest_cpu_high" "VM or container CPU high"
    RuleKind.Threshold
    "dumbmonit_proxmox_guest_cpu_percent"
  |> description "A VM or container has used more than 90% of its allocated cores for fifteen minutes."
  |> operator Operator.Gt
  |> threshold (f64_of_Z 90)
  |> for_duration (td_seconds (15 * 60))
  |> severity Severity.Warning
  |> unit "%"
  |> repeat_interval (Some (td_seconds (6 * 3600))).

Definition rule_pve_guest_memory_high : Rule :=
  base "pve_guest_memory_high" "VM or container memory high"
    RuleKind.Threshold
    "dumbmonit_proxmox_guest_memory_percent"
  |> description "A VM or container has used more than 95% of its memory for ten minutes."
  |> operator Operator.Gt
  |> threshold (f64_of_Z 95)
  |> for_duration (td_seconds (10 * 60))
  |> severity Severity.Warning
  |> unit "%"
  |> repeat_interval (Some (td_seconds (6 * 3600))).

Definition rule_pve_guest_disk_almost_full : Rule :=
  base "pve_guest_disk_almost_full" "VM or container disk almost full"
    RuleKind.Threshold
    "dumbmonit_proxmox_guest_disk_used_percent"
  |> description "The root disk of a VM or container is more than 90% full."
  |> operator Operator.Gt
  |> threshold (f64_of_Z 90)
  |> for_duration (td_seconds (15 * 60))
  |> severity Severity.Warning
  |> unit "%"
  |> repeat_interval (Some (td_seconds (24 * 3600))).

Definition rule_pve_disk_wearout : Rule :=
  base "pve_disk_wearout" "Proxmox disk wearing out"
    RuleKind.Threshold
    "dumbmonit_proxmox_node_disk_wearout_percent"
  |> description "An SSD or NVMe disk of a node has used more than 90% of its rated life."
  |> operator Operator.Gt
  |> threshold (f64_of_Z 90)
  |> for_duration (td_seconds 3600)
  |> severity Severity.Warning
  |> unit "%"
  |> repeat_interval (Some (td_seconds (7 * 24 * 3600))).

Definition rule_pve_disk_smart_failed : Rule :=
  base "pve_disk_smart_failed" "Proxmox disk SMART failure"
    RuleKind.Threshold
    "dumbmonit_proxmox_node_disk_smart_failed"
  |> description "A disk of a Proxmox node reports a failed SMART health check."
  |> operator Operator.Gt
  |> threshold (f64_of_Z 0)
  |> for_duration (td_seconds (5 * 60))
  |> severity Severity.Critical
  |> repeat_interval (Some (td_seconds (24 * 3600))).

Definition rule_pve_zfs_pool_degraded : Rule :=
  base "pve_zfs_pool_degraded" "Proxmox ZFS pool degraded"
    RuleKind.Threshold
    "dumbmonit_proxmox_node_zfs_pool_degraded"
  |> description "A ZFS pool of a Proxmox node is not ONLINE: a disk is missing or faulted."
  |> operator Operator.Gt
  |> threshold (f64_of_Z 0)
  |> for_duration (td_seconds (5 * 60))
  |> severity Severity.Critical
  |> repeat_interval (Some (td_seconds (6 * 3600))).

Definition rule_pve_security_updates_pending : Rule :=
  base "pve_security_updates_pending" "Proxmox security updates pending"
    RuleKind.Threshold
    "dumbmonit_proxmox_node_updates_security_pending"
  |> description "Security updates are pending on this Proxmox node."
  |> operator Operator.Gt
  |> threshold (f64_of_Z 0)
  |> for_duration (td_seconds 3600)
  |> severity Severity.Warning
  |> repeat_interval (Some (td_seconds (7 * 24 * 3600))).

Definition rule_pve_packages_changed : Rule :=
  base "pve_packages_changed" "Proxmox packages changed"
    RuleKind.Threshold
    "dumbmonit_proxmox_node_packages_changed"
  |> description "Installed Proxmox packages changed since the previous probe."
  |> operator Operator.Gt
  |> threshold (f64_of_Z 0)
  |> for_duration (td_seconds 60)
  |> severity Severity.Info
  |> repeat_interval (Some (td_seconds (24 * 3600))).

Definition rule_synology_disk_smart_warning : Rule :=
  base "synology_disk_smart_warning" "Synology disk SMART warning"
    RuleKind.Threshold
    "dumbmonit_synology_disk_smart_status"
  |> description (quoted "The SMART status of this disk is no longer `normal`, as reported by DSM.")
  |> operator Operator.Gt
  |> threshold (f64_of_Z 0)
  |> for_duration (td_seconds (15 * 60))
  |> severity Severity.Warning
  |> repeat_interval (Some (td_seconds (24 * 3600))).

Definition rule_synology_disk_failed : Rule :=
  base "synology_disk_failed" "Synology disk failed"
    RuleKind.Threshold
    "dumbmonit_synology_disk_status"
  |> description "DSM reports this disk as crashed or failed."
  |> operator Operator.Ge
  |> threshold (f64_of_Z 2)
  |> for_duration (td_seconds (5 * 60))
  |> severity Severity.Critical
  |> repeat_interval (Some (td_seconds (6 * 3600))).

Definition rule_synology_disk_bad_sectors : Rule :=
  base "synology_disk_bad_sectors" "Synology disk bad sectors"
    RuleKind.Threshold
    "dumbmonit_synology_disk_bad_sector_exceeded"
  |> description "The bad-sector count of this disk exceeds the threshold set in DSM."
  |> operator Operator.Gt
  |> threshold (f64_of_Z 0)
  |> for_duration (td_seconds (15 * 60))
  |> severity Severity.Critical
  |> repeat_interval (Some (td_seconds (24 * 3600))).

Definition rule_synology_disk_bad_sectors_growing : Rule :=
  base "synology_disk_bad_sectors_growing" "Synology disk bad sectors growing"
    RuleKind.Threshold
    "delta(dumbmonit_synology_disk_unc_count[24h])"
  |> description "New unreadable (UNC) sectors appeared on this disk in the last 24 hours."
  |> operator Operator.Gt
  |> threshold (f64_of_Z 0)
  |> for_duration (td_seconds (15 * 60))
  |> severity Severity.Warning
  |> repeat_interval (Some (td_seconds (24 * 3600))).

Definition rule_synology_ssd_wearout : Rule :=
  base "synology_ssd_wearout" "Synology SSD wearing out"
    RuleKind.Threshold
    "dumbmonit_synology_disk_remaining_life_percent"
  |> description "This SSD has less than 10% of its rated life left."
  |> operator Operator.Lt
  |> threshold (f64_of_Z 10)
  |> clear_threshold (Some (f64_of_Z 12))
  |> for_duration (td_seconds 3600)
  |> severity Severity.Warning
  |> unit "%"
  |> repeat_interval (Some (td_seconds (7 * 24 * 3600))).

Definition rule_synology_volume_degraded : Rule :=
  base "synology_volume_degraded" "Synology volume degraded"
    RuleKind.Threshold
    "dumbmonit_synology_volume_status"
  |> description "This volume is degraded or crashed: its redundancy is gone."
  |> operator Operator.Ge
  |> threshold (f64_of_Z 2)
  |> for_duration (td_seconds (5 * 60))
  |> severity Severity.Critical
  |> repeat_interval (Some (td_seconds (6 * 3600))).

Definition rule_synology_pool_degraded : Rule :=
  base "synology_pool_degraded" "Synology storage pool degraded"
    RuleKind.Threshold
    "dumbmonit_synology_pool_status or dumbmonit_synology_ssd_cache_status"
  |> description "This storage pool is degraded or crashed: a disk failed and the redundancy is gone or rebuilding."
  |> operator Operator.Ge
  |> threshold (f64_of_Z 2)
  |> for_duration (td_seconds (5 * 60))
  |> severity Severity.Critical
  |> repeat_interval (Some (td_seconds (6 * 3600))).

Definition rule_synology_volume_almost_full : Rule :=
  base "synology_volume_almost_full" "Synology volume almost full"
    RuleKind.Threshold
    "dumbmonit_synology_volume_used_percent"
  |> description "Volume 90% full or more."
  |> operator Operator.Ge
  |> threshold (f64_of_Z 90)
  |> clear_threshold (Some (f64_of_Z 88))
  |> for_duration (td_seconds (15 * 60))
  |> severity Severity.Warning
  |> unit "%"
  |> escalate_after (Some (td_seconds (24 * 3600))).

Definition rule_synology_temperature_high : Rule :=
  base "synology_temperature_high" "Synology temperature high"
    RuleKind.Threshold
    "dumbmonit_synology_disk_temperature_celsius or (100 * dumbmonit_synology_temperature_warning > 55)"
  |> description "A disk of this NAS is above 55 °C, or DSM raised its temperature warning."
  |> operator Operator.Gt
  |> threshold (f64_of_Z 55)
  |> clear_threshold (Some (f64_of_Z 52))
  |> for_duration (td_seconds (15 * 60))
  |> severity Severity.Warning
  |> unit "°C"
  |> repeat_interval (Some (td_seconds (6 * 3600))).

Definition rule_synology_memory_high : Rule :=
  base "synology_memory_high" "Synology memory high"
    RuleKind.Threshold
    "dumbmonit_synology_memory_usage_percent"
  |> description "Memory usage of the NAS above 95% for fifteen minutes."
  |> operator Operator.Gt
  |> threshold (f64_of_Z 95)
  |> clear_threshold (Some (f64_of_Z 90))
  |> for_duration (td_seconds (15 * 60))
  |> severity Severity.Warning
  |> unit "%"
  |> repeat_interval (Some (td_seconds (6 * 3600))).

Definition rule_synology_abb_device_overdue : Rule :=
  base "synology_abb_device_overdue" "Active Backup device overdue"
    RuleKind.Threshold
    "dumbmonit_abb_device_overdue"
  |> description "No successful Active Backup for Business run for this device for longer than its usual rhythm allows (off-days excluded)."
  |> operator Operator.Gt
  |> threshold (f64_of_Z 0)
  |> for_duration (td_seconds (30 * 60))
  |> severity Severity.Warning
  |> repeat_interval (Some (td_seconds (24 * 3600))).

Definition rule_synology_abb_device_failing : Rule :=
  base "synology_abb_device_failing" "Active Backup device failing"
    RuleKind.Threshold
    "dumbmonit_abb_device_consecutive_failures"
  |> description "The last two or more Active Backup for Business attempts of this device failed."
  |> operator Operator.Ge
  |> threshold (f64_of_Z 2)
  |> for_duration (td_seconds (10 * 60))
  |> severity Severity.Critical
  |> repeat_interval (Some (td_seconds (24 * 3600))).

Definition rule_redis_memory_near_limit : Rule :=
  base "redis_memory_near_limit" "Redis memory near maxmemory"
    RuleKind.Threshold
    "dumbmonit_redis_memory_used_percent"
  |> description "Redis uses more than 90% of maxmemory: at the limit it evicts keys or refuses every write, depending on maxmemory-policy."
  |> operator Operator.Gt
  |> threshold (f64_of_Z 90)
  |> clear_threshold (Some (f64_of_Z 85))
  |> for_duration (td_seconds (10 * 60))
  |> severity Severity.Warning
  |> unit "%"
  |> repeat_interval (Some (td_seconds (6 * 3600))).

Definition rule_redis_rejecting_connections : Rule :=
  base "redis_rejecting_connections" "Redis refusing connections"
    RuleKind.Threshold
    "increase_prometheus(dumbmonit_redis_rejected_connections_total[15m])"
  |> description "Redis refused client connections in the last 15 minutes: maxclients is reached."
  |> operator Operator.Gt
  |> threshold (f64_of_Z 0)
  |> for_duration (td_seconds (5 * 60))
  |> severity Severity.Critical
  |> repeat_interval (Some (td_seconds 3600)).

Definition rule_redis_replication_broken : Rule :=
  base "redis_replication_broken" "Redis replication link down"
    RuleKind.Threshold
    "dumbmonit_redis_master_link_up"
  |> description "This Redis replica lost its link to the primary: it serves stale data and will not take over cleanly."
  |> operator Operator.Lt
  |> threshold (f64_of_Z 1)
  |> for_duration (td_seconds (2 * 60))
  |> severity Severity.Critical
  |> repeat_interval (Some (td_seconds 3600)).

Definition rule_redis_replica_lagging : Rule :=
  base "redis_replica_lagging" "Redis replica lagging"
    RuleKind.Threshold
    "dumbmonit_redis_replica_lag_seconds"
  |> description "A Redis replica has not acknowledged the replication stream for more than 30 seconds."
  |> operator Operator.Gt
  |> threshold (f64_of_Z 30)
  |> for_duration (td_seconds (5 * 60))
  |> severity Severity.Warning
  |> unit "s"
  |> repeat_interval (Some (td_seconds (6 * 3600))).

Definition rule_redis_save_failed : Rule :=
  base "redis_save_failed" "Redis snapshot failed"
    RuleKind.Threshold
    "dumbmonit_redis_rdb_last_save_ok"
  |> description "The last Redis snapshot (BGSAVE) failed: with stop-writes-on-bgsave-error, Redis now refuses every write."
  |> operator Operator.Lt
  |> threshold (f64_of_Z 1)
  |> for_duration (td_seconds (5 * 60))
  |> severity Severity.Critical
  |> repeat_interval (Some (td_seconds 3600)).

Definition rule_redis_aof_write_failed : Rule :=
  base "redis_aof_write_failed" "Redis append-only file write failed"
    RuleKind.Threshold
    "dumbmonit_redis_aof_last_write_ok"
  |> description "Redis could not write its append-only file: recent writes are not on disk."
  |> operator Operator.Lt
  |> threshold (f64_of_Z 1)
  |> for_duration (td_seconds (5 * 60))
  |> severity Severity.Critical
  |> repeat_interval (Some (td_seconds 3600)).

Definition rule_mongodb_no_primary : Rule :=
  base "mongodb_no_primary" "MongoDB replica set without primary"
    RuleKind.Threshold
    "dumbmonit_mongodb_replset_primary_present"
  |> description "The MongoDB replica set has no primary: no write is accepted until one is elected."
  |> operator Operator.Lt
  |> threshold (f64_of_Z 1)
  |> for_duration (td_seconds (2 * 60))
  |> severity Severity.Critical
  |> repeat_interval (Some (td_seconds 3600)).

Definition rule_mongodb_member_unhealthy : Rule :=
  base "mongodb_member_unhealthy" "MongoDB member unreachable"
    RuleKind.Threshold
    "dumbmonit_mongodb_replset_member_health"
  |> description "A member of the MongoDB replica set is unreachable from the others."
  |> operator Operator.Lt
  |> threshold (f64_of_Z 1)
  |> for_duration (td_seconds (5 * 60))
  |> severity Severity.Critical
  |> repeat_interval (Some (td_seconds 3600)).

Definition rule_mongodb_replication_lag : Rule :=
  base "mongodb_replication_lag" "MongoDB replication lag"
    RuleKind.Threshold
    "dumbmonit_mongodb_replset_member_lag_seconds"
  |> description "A MongoDB secondary is more than a minute behind the primary: if it is elected, the latest writes are missing."
  |> operator Operator.Gt
  |> threshold (f64_of_Z 60)
  |> clear_threshold (Some (f64_of_Z 30))
  |> for_duration (td_seconds (10 * 60))
  |> severity Severity.Warning
  |> unit "s"
  |> repeat_interval (Some (td_seconds (6 * 3600))).

Definition rule_mongodb_connections_high : Rule :=
  base "mongodb_connections_high" "MongoDB connections near the limit"
    RuleKind.Threshold
    "dumbmonit_mongodb_connections_used_percent"
  |> description "MongoDB uses more than 80% of its available connections: new clients will be refused."
  |> operator Operator.Gt
  |> threshold (f64_of_Z 80)
  |> clear_threshold (Some (f64_of_Z 75))
  |> for_duration (td_seconds (10 * 60))
  |> severity Severity.Warning
  |> unit "%"
  |> repeat_interval (Some (td_seconds (6 * 3600))).

Definition rule_mongodb_cache_dirty : Rule :=
  base "mongodb_cache_dirty" "MongoDB cache under pressure"
    RuleKind.Threshold
    "dumbmonit_mongodb_wiredtiger_cache_dirty_percent"
  |> description "More than 20% of the WiredTiger cache is dirty: application threads have to evict pages themselves and queries slow down."
  |> operator Operator.Gt
  |> threshold (f64_of_Z 20)
  |> clear_threshold (Some (f64_of_Z 15))
  |> for_duration (td_seconds (10 * 60))
  |> severity Severity.Warning
  |> unit "%"
  |> repeat_interval (Some (td_seconds (6 * 3600))).

Definition rule_mongodb_assertions : Rule :=
  base "mongodb_assertions" "MongoDB internal errors"
    RuleKind.Threshold
    (quoted "increase_prometheus(dumbmonit_mongodb_asserts_total{type=`regular`}[1h])")
  |> description "MongoDB raised regular assertions in the last hour: internal server errors, worth a look in its log."
  |> operator Operator.Gt
  |> threshold (f64_of_Z 0)
  |> for_duration (td_seconds (15 * 60))
  |> severity Severity.Warning
  |> repeat_interval (Some (td_seconds (24 * 3600))).

Definition rule_rabbitmq_resource_alarm : Rule :=
  base "rabbitmq_resource_alarm" "RabbitMQ memory or disk alarm"
    RuleKind.Threshold
    "dumbmonit_rabbitmq_alarm"
  |> description "A RabbitMQ node raised a memory or disk alarm: every publisher in the cluster is blocked."
  |> operator Operator.Gt
  |> threshold (f64_of_Z 0)
  |> for_duration (td_seconds 60)
  |> severity Severity.Critical
  |> repeat_interval (Some (td_seconds 3600)).

Definition rule_rabbitmq_node_down : Rule :=
  base "rabbitmq_node_down" "RabbitMQ node down"
    RuleKind.Threshold
    "dumbmonit_rabbitmq_node_running"
  |> description "A RabbitMQ cluster node is not running."
  |> operator Operator.Lt
  |> threshold (f64_of_Z 1)
  |> for_duration (td_seconds (2 * 60))
  |> severity Severity.Critical
  |> repeat_interval (Some (td_seconds 3600)).

Definition rule_rabbitmq_partition : Rule :=
  base "rabbitmq_partition" "RabbitMQ network partition"
    RuleKind.Threshold
    "dumbmonit_rabbitmq_node_partitions"
  |> description "RabbitMQ nodes see a network partition: the cluster is split and queues may diverge."
  |> operator Operator.Gt
  |> threshold (f64_of_Z 0)
  |> for_duration (td_seconds (2 * 60))
  |> severity Severity.Critical
  |> repeat_interval (Some (td_seconds 3600)).

Definition rule_rabbitmq_queue_no_consumer : Rule :=
  base "rabbitmq_queue_no_consumer" "RabbitMQ queue without consumer"
    RuleKind.Threshold
    "dumbmonit_rabbitmq_queue_messages_ready and dumbmonit_rabbitmq_queue_consumers == 0"
  |> description "A RabbitMQ queue holds messages and has had no consumer for 15 minutes: whatever read it has stopped."
  |> operator Operator.Gt
  |> threshold (f64_of_Z 0)
  |> for_duration (td_seconds (15 * 60))
  |> severity Severity.Warning
  |> repeat_interval (Some (td_seconds (6 * 3600))).

Definition rule_rabbitmq_queue_not_running : Rule :=
  base "rabbitmq_queue_not_running" "RabbitMQ queue unavailable"
    RuleKind.Threshold
    "dumbmonit_rabbitmq_queue_running"
  |> description "A RabbitMQ queue is not running: a quorum queue without majority, or a queue whose node is down."
  |> operator Operator.Lt
  |> threshold (f64_of_Z 1)
  |> for_duration (td_seconds (5 * 60))
  |> severity Severity.Warning
  |> repeat_interval (Some (td_seconds (6 * 3600))).

Definition rule_crowdsec_lapi_down : Rule :=
  base "crowdsec_lapi_down" "CrowdSec Local API down"
    RuleKind.Threshold
    "dumbmonit_crowdsec_lapi_up"
  |> description "The CrowdSec Local API does not answer: no decision is taken or handed to the bouncers."
  |> operator Operator.Lt
  |> threshold (f64_of_Z 1)
  |> for_duration (td_seconds (5 * 60))
  |> severity Severity.Critical
  |> repeat_interval (Some (td_seconds 3600)).

Definition rule_crowdsec_bouncer_stale : Rule :=
  base "crowdsec_bouncer_stale" "CrowdSec bouncer stopped pulling"
    RuleKind.Threshold
    "changes_prometheus(dumbmonit_crowdsec_bouncer_requests_total[30m])"
  |> description "A CrowdSec bouncer has not called the Local API for 30 minutes: it enforces a frozen list."
  |> operator Operator.Lt
  |> threshold (f64_of_Z 1)
  |> for_duration (td_seconds (5 * 60))
  |> severity Severity.Warning
  |> repeat_interval (Some (td_seconds (6 * 3600))).

Definition rule_crowdsec_no_logs_read : Rule :=
  base "crowdsec_no_logs_read" "CrowdSec reads no logs"
    RuleKind.Threshold
    "increase_prometheus(dumbmonit_crowdsec_lines_read_total[6h])"
  |> description "CrowdSec has not read a single log line in six hours: its acquisition is broken and it sees no attack."
  |> operator Operator.Lt
  |> threshold (f64_of_Z 1)
  |> for_duration (td_seconds (30 * 60))
  |> severity Severity.Warning
  |> repeat_interval (Some (td_seconds (24 * 3600))).

Definition rule_traefik_router_disabled : Rule :=
  base "traefik_router_disabled" "Traefik router disabled"
    RuleKind.Threshold
    "dumbmonit_traefik_router_status"
  |> description "A Traefik router is disabled by a configuration error: its sites are not served."
  |> operator Operator.Ge
  |> threshold (f64_of_Z 2)
  |> for_duration (td_seconds (5 * 60))
  |> severity Severity.Warning
  |> repeat_interval (Some (td_seconds (6 * 3600))).

Definition rule_traefik_server_down : Rule :=
  base "traefik_server_down" "Traefik backend server down"
    RuleKind.Threshold
    "dumbmonit_traefik_server_up"
  |> description "A backend server of a Traefik service fails its health check."
  |> operator Operator.Lt
  |> threshold (f64_of_Z 1)
  |> for_duration (td_seconds (5 * 60))
  |> severity Severity.Warning
  |> repeat_interval (Some (td_seconds (6 * 3600))).

Definition rule_traefik_service_down : Rule :=
  base "traefik_service_down" "Traefik service without a server"
    RuleKind.Threshold
    "dumbmonit_traefik_service_servers_up"
  |> description "No backend server of a Traefik service answers its health check: its sites get 503."
  |> operator Operator.Lt
  |> threshold (f64_of_Z 1)
  |> for_duration (td_seconds (2 * 60))
  |> severity Severity.Critical
  |> repeat_interval (Some (td_seconds 3600)).

Definition rule_traefik_certificate_missing : Rule :=
  base "traefik_certificate_missing" "Traefik certificate not obtained"
    RuleKind.Threshold
    "dumbmonit_traefik_resolver_routers_uncovered"
  |> description "A Traefik router has waited an hour for a certificate from its resolver: Traefik serves its default self-signed certificate instead."
  |> operator Operator.Gt
  |> threshold (f64_of_Z 0)
  |> for_duration (td_seconds 3600)
  |> severity Severity.Warning
  |> repeat_interval (Some (td_seconds (24 * 3600))).

Definition rule_caddy_upstream_unhealthy : Rule :=
  base "caddy_upstream_unhealthy" "Caddy upstream unhealthy"
    RuleKind.Threshold
    "dumbmonit_caddy_upstream_healthy"
  |> description "A Caddy upstream fails its active or passive health check."
  |> operator Operator.Lt
  |> threshold (f64_of_Z 1)
  |> for_duration (td_seconds (5 * 60))
  |> severity Severity.Warning
  |> repeat_interval (Some (td_seconds (6 * 3600))).

Definition rule_caddy_reload_failed : Rule :=
  base "caddy_reload_failed" "Caddy configuration reload failed"
    RuleKind.Threshold
    "dumbmonit_caddy_config_last_reload_ok"
  |> description "Caddy refused its last configuration reload: it still runs the previous configuration."
  |> operator Operator.Lt
  |> threshold (f64_of_Z 1)
  |> for_duration (td_seconds (5 * 60))
  |> severity Severity.Warning
  |> repeat_interval (Some (td_seconds (24 * 3600))).

Definition rule_npm_host_offline : Rule :=
  base "npm_host_offline" "Nginx Proxy Manager host offline"
    RuleKind.Threshold
    "dumbmonit_npm_host_online"
  |> description "Nginx Proxy Manager could not load a host's configuration (nginx -t failed): the host is not served."
  |> operator Operator.Lt
  |> threshold (f64_of_Z 1)
  |> for_duration (td_seconds (10 * 60))
  |> severity Severity.Warning
  |> repeat_interval (Some (td_seconds (6 * 3600))).

Definition rule_proxy_cert_expiring : Rule :=
  base "proxy_cert_expiring" "Proxy certificate not renewed"
    RuleKind.Threshold
    "dumbmonit_traefik_cert_expiry_days or dumbmonit_npm_cert_expiry_days"
  |> description "A certificate served by the reverse proxy expires in less than fourteen days: its renewal is failing."
  |> operator Operator.Lt
  |> threshold (f64_of_Z 14)
  |> for_duration (td_seconds 3600)
  |> severity Severity.Warning
  |> unit "d"
  |> repeat_interval (Some (td_seconds (24 * 3600))).

Definition rule_proxy_5xx_rate : Rule :=
  base "proxy_5xx_rate" "Reverse proxy answering 5xx"
    RuleKind.Threshold
    "(100 * increase_prometheus(dumbmonit_traefik_requests_5xx_total[10m]) / increase_prometheus(dumbmonit_traefik_requests_total[10m]) and increase_prometheus(dumbmonit_traefik_requests_total[10m]) >= 50) or (100 * increase_prometheus(dumbmonit_caddy_requests_5xx_total[10m]) / increase_prometheus(dumbmonit_caddy_requests_total[10m]) and increase_prometheus(dumbmonit_caddy_requests_total[10m]) >= 50)"
  |> description "More than 5% of a reverse proxy's answers were 5xx errors over ten minutes, with at least fifty requests."
  |> operator Operator.Gt
  |> threshold (f64_of_Z 5)
  |> for_duration (td_seconds (10 * 60))
  |> severity Severity.Warning
  |> unit "%"
  |> repeat_interval (Some (td_seconds (6 * 3600))).

Definition rule_domain_expiring : Rule :=
  base "domain_expiring" "Domain expiring"
    RuleKind.Threshold
    "dumbmonit_domain_expiry_days >= 7"
  |> description "The domain expires in less than thirty days."
  |> operator Operator.Lt
  |> threshold (f64_of_Z 30)
  |> for_duration (td_seconds 3600)
  |> severity Severity.Warning
  |> unit "d"
  |> repeat_interval (Some (td_seconds (24 * 3600))).

Definition rule_domain_expiring_soon : Rule :=
  base "domain_expiring_soon" "Domain about to expire"
    RuleKind.Threshold
    "dumbmonit_domain_expiry_days"
  |> description "The domain expires in less than seven days, or has expired."
  |> operator Operator.Lt
  |> threshold (f64_of_Z 7)
  |> for_duration (td_seconds 3600)
  |> severity Severity.Critical
  |> unit "d"
  |> repeat_interval (Some (td_seconds (12 * 3600))).

Definition rule_domain_on_hold : Rule :=
  base "domain_on_hold" "Domain on hold"
    RuleKind.Threshold
    "dumbmonit_domain_on_hold"
  |> description "The registry put the domain on hold (clientHold or serverHold): it is taken out of the DNS."
  |> operator Operator.Gt
  |> threshold (f64_of_Z 0)
  |> for_duration (td_seconds (30 * 60))
  |> severity Severity.Critical
  |> repeat_interval (Some (td_seconds (6 * 3600))).

Definition rule_domain_redemption : Rule :=
  base "domain_redemption" "Domain in redemption"
    RuleKind.Threshold
    "dumbmonit_domain_redemption"
  |> description "The domain is in its redemption period or pending deletion: it has expired and will be released."
  |> operator Operator.Gt
  |> threshold (f64_of_Z 0)
  |> for_duration (td_seconds (30 * 60))
  |> severity Severity.Critical
  |> repeat_interval (Some (td_seconds (12 * 3600))).

Definition rule_dns_answer_changed : Rule :=
  base "dns_answer_changed" "DNS answer changed"
    RuleKind.Threshold
    "changes_prometheus(dumbmonit_probe_dns_answer_fingerprint[1h])"
  |> description "The answer of a DNS check changed: a record was added, removed or replaced."
  |> operator Operator.Gt
  |> threshold (f64_of_Z 0)
  |> for_duration (td_seconds 60)
  |> severity Severity.Warning
  |> repeat_interval (Some (td_seconds (24 * 3600))).

Definition rule_webchange_detected : Rule :=
  base "webchange_detected" "Website changed"
    RuleKind.Threshold
    "dumbmonit_webchange_last_check_changes"
  |> description "The last check of a watched website found pages that changed, appeared or disappeared. The device page shows each change before and after."
  |> operator Operator.Gt
  |> threshold (f64_of_Z 0)
  |> for_duration (td_seconds 30)
  |> severity Severity.Info
  |> repeat_interval None.

Definition rule_ad_dc_unreachable : Rule :=
  base "ad_dc_unreachable" "Domain controller unreachable"
    RuleKind.Threshold
    "dumbmonit_ad_dc_reachable == bool 0"
  |> description "A domain controller of the domain no longer answers on its LDAP port."
  |> operator Operator.Gt
  |> threshold (f64_of_Z 0)
  |> for_duration (td_seconds (5 * 60))
  |> severity Severity.Critical
  |> repeat_interval (Some (td_seconds (6 * 3600))).

Definition rule_ad_bind_failed : Rule :=
  base "ad_bind_failed" "Active Directory bind failed"
    RuleKind.Threshold
    "dumbmonit_ad_bind_ok == bool 0"
  |> description "The domain controller refuses the service account (expired password, disabled or locked out account): nothing is read any more."
  |> operator Operator.Gt
  |> threshold (f64_of_Z 0)
  |> for_duration (td_seconds (5 * 60))
  |> severity Severity.Warning
  |> repeat_interval (Some (td_seconds (24 * 3600))).

Definition rule_ad_privileged_group_changed : Rule :=
  base "ad_privileged_group_changed" "Privileged group membership changed"
    RuleKind.Threshold
    "changes_prometheus(dumbmonit_ad_privileged_group_fingerprint[1h])"
  |> description "The members of a privileged group (Domain Admins, Enterprise Admins, Schema Admins, Administrators, operators) changed."
  |> operator Operator.Gt
  |> threshold (f64_of_Z 0)
  |> for_duration (td_seconds 60)
  |> severity Severity.Warning
  |> repeat_interval (Some (td_seconds (24 * 3600))).

Definition rule_ad_replication_failing : Rule :=
  base "ad_replication_failing" "Active Directory replication failing"
    RuleKind.Threshold
    "dumbmonit_ad_replication_consecutive_failures"
  |> description "The domain controller cannot replicate from one of its partners: changes made elsewhere do not reach it."
  |> operator Operator.Gt
  |> threshold (f64_of_Z 0)
  |> for_duration (td_seconds (30 * 60))
  |> severity Severity.Warning
  |> repeat_interval (Some (td_seconds (6 * 3600))).

Definition rule_ad_krbtgt_password_old : Rule :=
  base "ad_krbtgt_password_old" "krbtgt password older than 180 days"
    RuleKind.Threshold
    "dumbmonit_ad_krbtgt_password_age_seconds"
  |> description "The krbtgt password is older than 180 days: a stolen krbtgt hash keeps forging valid tickets until it is changed twice."
  |> operator Operator.Gt
  |> threshold (f64_mul (f64_of_Z 180) (f64_of_Z 86400))
  |> for_duration (td_seconds (10 * 60))
  |> severity Severity.Info
  |> unit "s"
  |> repeat_interval None.

Definition rule_k8s_node_not_ready : Rule :=
  base "k8s_node_not_ready" "Kubernetes node not ready"
    RuleKind.Threshold
    "dumbmonit_k8s_node_ready == bool 0"
  |> description "A Kubernetes node is not Ready: its kubelet no longer reports, and its pods will be evicted."
  |> operator Operator.Gt
  |> threshold (f64_of_Z 0)
  |> for_duration (td_seconds (5 * 60))
  |> severity Severity.Critical
  |> repeat_interval (Some (td_seconds (6 * 3600))).

Definition rule_k8s_node_pressure : Rule :=
  base "k8s_node_pressure" "Kubernetes node under pressure"
    RuleKind.Threshold
    "dumbmonit_k8s_node_pressure"
  |> description "A Kubernetes node reports memory, disk or PID pressure: the kubelet starts evicting pods and refuses new ones."
  |> operator Operator.Gt
  |> threshold (f64_of_Z 0)
  |> for_duration (td_seconds (5 * 60))
  |> severity Severity.Warning
  |> repeat_interval (Some (td_seconds (6 * 3600))).

Definition rule_k8s_pod_crashlooping : Rule :=
  base "k8s_pod_crashlooping" "Kubernetes pod crash looping"
    RuleKind.Threshold
    "max_over_time(dumbmonit_k8s_pod_crashlooping[10m])"
  |> description "A pod keeps crashing and Kubernetes waits longer and longer before restarting it (CrashLoopBackOff)."
  |> operator Operator.Gt
  |> threshold (f64_of_Z 0)
  |> for_duration (td_seconds (10 * 60))
  |> severity Severity.Critical
  |> repeat_interval (Some (td_seconds (6 * 3600))).

Definition rule_k8s_pod_pending : Rule :=
  base "k8s_pod_pending" "Kubernetes pod stuck pending"
    RuleKind.Threshold
    "dumbmonit_k8s_pod_pending"
  |> description "A pod has been Pending for fifteen minutes: no node can take it, or a volume or an image it needs does not come."
  |> operator Operator.Gt
  |> threshold (f64_of_Z 0)
  |> for_duration (td_seconds (15 * 60))
  |> severity Severity.Warning
  |> repeat_interval (Some (td_seconds (6 * 3600))).

Definition rule_k8s_pod_restarting : Rule :=
  base "k8s_pod_restarting" "Kubernetes pod restarting"
    RuleKind.Threshold
    "increase_prometheus(dumbmonit_k8s_pod_restarts[1h]) unless on (target, namespace, pod) max_over_time(dumbmonit_k8s_pod_crashlooping[10m]) > 0"
  |> description "A pod restarted more than five times in the last hour without being in CrashLoopBackOff: it crashes, then recovers, then crashes again."
  |> operator Operator.Gt
  |> threshold (f64_of_Z 5)
  |> for_duration (td_seconds (5 * 60))
  |> severity Severity.Warning
  |> repeat_interval (Some (td_seconds (6 * 3600))).

Definition rule_k8s_workload_unavailable : Rule :=
  base "k8s_workload_unavailable" "Kubernetes workload missing replicas"
    RuleKind.Threshold
    "dumbmonit_k8s_workload_unavailable"
  |> description "A Deployment, StatefulSet or DaemonSet has fewer available replicas than it asks for."
  |> operator Operator.Gt
  |> threshold (f64_of_Z 0)
  |> for_duration (td_seconds (10 * 60))
  |> severity Severity.Warning
  |> escalate_after (Some (td_seconds 3600))
  |> repeat_interval (Some (td_seconds (6 * 3600))).

Definition rule_k8s_pvc_pending : Rule :=
  base "k8s_pvc_pending" "Kubernetes volume claim pending"
    RuleKind.Threshold
    "dumbmonit_k8s_pvc_pending"
  |> description "A PersistentVolumeClaim that a pod needs, or that a provisioning error concerns, is still not bound after fifteen minutes."
  |> operator Operator.Gt
  |> threshold (f64_of_Z 0)
  |> for_duration (td_seconds (15 * 60))
  |> severity Severity.Warning
  |> repeat_interval (Some (td_seconds (6 * 3600))).

Definition rule_pfsense_gateway_down : Rule :=
  base "pfsense_gateway_down" "pfSense gateway down"
    RuleKind.Threshold
    "dumbmonit_pfsense_gateway_up"
  |> description "A pfSense gateway is down: its monitor address no longer answers, and the traffic it carries stops or fails over."
  |> operator Operator.Lt
  |> threshold (f64_of_Z 1)
  |> for_duration (td_seconds (3 * 60))
  |> severity Severity.Critical
  |> repeat_interval (Some (td_seconds (6 * 3600))).

Definition rule_pfsense_gateway_loss : Rule :=
  base "pfsense_gateway_loss" "pfSense gateway losing packets"
    RuleKind.Threshold
    "dumbmonit_pfsense_gateway_loss_percent unless on (target, gateway) dumbmonit_pfsense_gateway_up == 0"
  |> description "A pfSense gateway loses more than 10 % of the probes to its monitor address: the line is degraded."
  |> operator Operator.Gt
  |> threshold (f64_of_Z 10)
  |> for_duration (td_seconds (10 * 60))
  |> severity Severity.Warning
  |> unit "%"
  |> repeat_interval (Some (td_seconds (6 * 3600))).

Definition rule_pfsense_gateway_latency : Rule :=
  base "pfsense_gateway_latency" "pfSense gateway slow"
    RuleKind.Threshold
    "dumbmonit_pfsense_gateway_delay_milliseconds"
  |> description "The round trip to a pfSense gateway's monitor address has stayed above 500 ms for fifteen minutes."
  |> operator Operator.Gt
  |> threshold (f64_of_Z 500)
  |> for_duration (td_seconds (15 * 60))
  |> severity Severity.Warning
  |> unit "ms"
  |> repeat_interval (Some (td_seconds (6 * 3600))).

Definition rule_pfsense_interface_down : Rule :=
  base "pfsense_interface_down" "pfSense interface without link"
    RuleKind.Threshold
    "dumbmonit_pfsense_interface_down"
  |> description "An enabled pfSense interface has no link: cable, switch port or network card."
  |> operator Operator.Gt
  |> threshold (f64_of_Z 0)
  |> for_duration (td_seconds (5 * 60))
  |> severity Severity.Warning
  |> repeat_interval (Some (td_seconds (6 * 3600))).

Definition rule_pfsense_service_stopped : Rule :=
  base "pfsense_service_stopped" "pfSense service stopped"
    RuleKind.Threshold
    "dumbmonit_pfsense_service_stopped"
  |> description "A pfSense service that is enabled is not running: DNS resolver, VPN, NTP…"
  |> operator Operator.Gt
  |> threshold (f64_of_Z 0)
  |> for_duration (td_seconds (5 * 60))
  |> severity Severity.Warning
  |> repeat_interval (Some (td_seconds (6 * 3600))).

Definition rule_pfsense_disk_full : Rule :=
  base "pfsense_disk_full" "pfSense disk nearly full"
    RuleKind.Threshold
    "dumbmonit_pfsense_disk_used_percent"
  |> description "The pfSense disk is more than 90 % full: logs, reports and package updates stop being written."
  |> operator Operator.Gt
  |> threshold (f64_of_Z 90)
  |> for_duration (td_seconds (30 * 60))
  |> severity Severity.Warning
  |> unit "%"
  |> repeat_interval (Some (td_seconds (24 * 3600))).

Definition rule_unraid_array_stopped : Rule :=
  base "unraid_array_stopped" "Unraid array stopped"
    RuleKind.Threshold
    "dumbmonit_unraid_array_started"
  |> description "The Unraid array is not started: shares, containers and VMs that live on it are unavailable."
  |> operator Operator.Lt
  |> threshold (f64_of_Z 1)
  |> for_duration (td_seconds (10 * 60))
  |> severity Severity.Critical
  |> repeat_interval (Some (td_seconds (6 * 3600))).

Definition rule_unraid_disk_problem : Rule :=
  base "unraid_disk_problem" "Unraid disk disabled or missing"
    RuleKind.Threshold
    "dumbmonit_unraid_disk_ok"
  |> description "An Unraid disk is disabled, missing or invalid: the array runs degraded, and one more failure loses data."
  |> operator Operator.Lt
  |> threshold (f64_of_Z 1)
  |> for_duration (td_seconds (5 * 60))
  |> severity Severity.Critical
  |> repeat_interval (Some (td_seconds (6 * 3600))).

Definition rule_unraid_disk_errors : Rule :=
  base "unraid_disk_errors" "Unraid disk read errors"
    RuleKind.Threshold
    "dumbmonit_unraid_disk_errors"
  |> description "An Unraid disk has reported read errors since the array started: it may be disabled at the next one."
  |> operator Operator.Gt
  |> threshold (f64_of_Z 0)
  |> for_duration (td_seconds (5 * 60))
  |> severity Severity.Warning
  |> repeat_interval (Some (td_seconds (24 * 3600))).

Definition rule_unraid_disk_hot : Rule :=
  base "unraid_disk_hot" "Unraid disk too hot"
    RuleKind.Threshold
    (quoted "dumbmonit_unraid_disk_temperature_celsius{role=~`data|parity`}")
  |> description "An Unraid array or parity disk has stayed above 55 °C for fifteen minutes."
  |> operator Operator.Gt
  |> threshold (f64_of_Z 55)
  |> for_duration (td_seconds (15 * 60))
  |> severity Severity.Warning
  |> unit "°C"
  |> repeat_interval (Some (td_seconds (6 * 3600))).

Definition rule_unraid_parity_errors : Rule :=
  base "unraid_parity_errors" "Unraid parity check found errors"
    RuleKind.Threshold
    "dumbmonit_unraid_parity_check_ok"
  |> description "The last Unraid parity check failed or found sync errors: parity no longer matches the data."
  |> operator Operator.Lt
  |> threshold (f64_of_Z 1)
  |> for_duration (td_seconds (5 * 60))
  |> severity Severity.Warning
  |> repeat_interval (Some (td_seconds (24 * 3600))).

Definition rule_unraid_parity_check_old : Rule :=
  base "unraid_parity_check_old" "Unraid parity check overdue"
    RuleKind.Threshold
    "dumbmonit_unraid_parity_check_age_seconds"
  |> description "The last Unraid parity check is more than 40 days old: a monthly check was missed."
  |> operator Operator.Gt
  |> threshold (f64_mul (f64_mul (f64_of_Z 40) (f64_of_Z 24)) (f64_of_Z 3600))
  |> for_duration (td_seconds 3600)
  |> severity Severity.Warning
  |> unit "s"
  |> repeat_interval (Some (td_seconds (24 * 3600))).

Definition rule_unraid_cache_full : Rule :=
  base "unraid_cache_full" "Unraid cache nearly full"
    RuleKind.Threshold
    (quoted "dumbmonit_unraid_disk_used_percent{role=`cache`}")
  |> description "An Unraid cache pool is more than 90 % full: writes fall back to the slow array, or fail."
  |> operator Operator.Gt
  |> threshold (f64_of_Z 90)
  |> for_duration (td_seconds (30 * 60))
  |> severity Severity.Warning
  |> unit "%"
  |> repeat_interval (Some (td_seconds (24 * 3600))).

Definition rule_unraid_container_stopped : Rule :=
  base "unraid_container_stopped" "Unraid container stopped"
    RuleKind.Threshold
    "dumbmonit_unraid_container_autostart_stopped"
  |> description "A Docker container set to start with the array is not running."
  |> operator Operator.Gt
  |> threshold (f64_of_Z 0)
  |> for_duration (td_seconds (10 * 60))
  |> severity Severity.Warning
  |> repeat_interval (Some (td_seconds (6 * 3600))).

Definition rule_veeam_job_failed : Rule :=
  base "veeam_job_failed" "Veeam job failed"
    RuleKind.Threshold
    "dumbmonit_veeam_job_failed"
  |> description "The last run of an enabled Veeam job failed: what it protects has no new restore point."
  |> operator Operator.Gt
  |> threshold (f64_of_Z 0)
  |> for_duration (td_seconds (5 * 60))
  |> severity Severity.Critical
  |> repeat_interval (Some (td_seconds (24 * 3600))).

Definition rule_veeam_job_warning : Rule :=
  base "veeam_job_warning" "Veeam job ended with a warning"
    RuleKind.Threshold
    "dumbmonit_veeam_job_warning"
  |> description "The last run of an enabled Veeam job ended with a warning: some objects may not be protected."
  |> operator Operator.Gt
  |> threshold (f64_of_Z 0)
  |> for_duration (td_seconds (5 * 60))
  |> severity Severity.Warning
  |> repeat_interval (Some (td_seconds (24 * 3600))).

Definition rule_veeam_repository_full : Rule :=
  base "veeam_repository_full" "Veeam repository nearly full"
    RuleKind.Threshold
    "dumbmonit_veeam_repository_used_percent"
  |> description "A Veeam backup repository is more than 90 % full: the next jobs will fail for lack of space."
  |> operator Operator.Gt
  |> threshold (f64_of_Z 90)
  |> for_duration (td_seconds (30 * 60))
  |> severity Severity.Warning
  |> unit "%"
  |> repeat_interval (Some (td_seconds (24 * 3600))).

Definition rule_veeam_license_expiring : Rule :=
  base "veeam_license_expiring" "Veeam license expiring"
    RuleKind.Threshold
    "dumbmonit_veeam_license_expiry_seconds"
  |> description "The Veeam license expires in less than 30 days: jobs stop at the end of the grace period."
  |> operator Operator.Lt
  |> threshold (f64_mul (f64_mul (f64_of_Z 30) (f64_of_Z 24)) (f64_of_Z 3600))
  |> for_duration (td_seconds 3600)
  |> severity Severity.Warning
  |> unit "s"
  |> repeat_interval (Some (td_seconds (24 * 3600))).

Definition rule_tailscale_device_offline : Rule :=
  base "tailscale_device_offline" "Tailscale device offline"
    RuleKind.Threshold
    "dumbmonit_tailscale_device_offline_seconds and on (target, device) dumbmonit_tailscale_device_watched > 0"
  |> description "A Tailscale device that must stay online (a tagged device by default) has been disconnected for more than 15 minutes."
  |> operator Operator.Gt
  |> threshold (f64_mul (f64_of_Z 15) (f64_of_Z 60))
  |> for_duration (td_seconds (5 * 60))
  |> severity Severity.Warning
  |> unit "s"
  |> repeat_interval (Some (td_seconds (6 * 3600))).

Definition rule_tailscale_key_expiring : Rule :=
  base "tailscale_key_expiring" "Tailscale node key expiring"
    RuleKind.Threshold
    "dumbmonit_tailscale_device_key_expiry_seconds"
  |> description "A Tailscale device's node key expires in less than 14 days: it will leave the tailnet until someone signs it in again."
  |> operator Operator.Lt
  |> threshold (f64_mul (f64_mul (f64_of_Z 14) (f64_of_Z 24)) (f64_of_Z 3600))
  |> for_duration (td_seconds 3600)
  |> severity Severity.Warning
  |> unit "s"
  |> repeat_interval (Some (td_seconds (24 * 3600))).

Definition rule_tailscale_device_unapproved : Rule :=
  base "tailscale_device_unapproved" "Tailscale device awaiting approval"
    RuleKind.Threshold
    "dumbmonit_tailscale_device_authorized"
  |> description "A device joined the tailnet and awaits approval: approve it if it is expected, remove it otherwise."
  |> operator Operator.Lt
  |> threshold (f64_of_Z 1)
  |> for_duration (td_seconds (5 * 60))
  |> severity Severity.Warning
  |> repeat_interval (Some (td_seconds (24 * 3600))).

Definition rule_tailscale_update_available : Rule :=
  base "tailscale_update_available" "Tailscale client update"
    RuleKind.Threshold
    "dumbmonit_tailscale_device_update_available and on (target, device) dumbmonit_tailscale_device_watched > 0"
  |> description "A Tailscale device that must stay online runs a client with an update available."
  |> operator Operator.Gt
  |> threshold (f64_of_Z 0)
  |> for_duration (td_seconds (6 * 3600))
  |> severity Severity.Info
  |> repeat_interval (Some (td_seconds (168 * 3600))).

Definition rule_fortigate_ipsec_tunnel_down : Rule :=
  base "fortigate_ipsec_tunnel_down" "FortiGate IPsec tunnel down"
    RuleKind.Threshold
    "dumbmonit_fortigate_ipsec_tunnel_up"
  |> description "No phase 2 of a FortiGate site-to-site IPsec tunnel is up: the site behind it is cut off."
  |> operator Operator.Lt
  |> threshold (f64_of_Z 1)
  |> for_duration (td_seconds (5 * 60))
  |> severity Severity.Critical
  |> repeat_interval (Some (td_seconds (6 * 3600))).

Definition rule_fortigate_interface_down : Rule :=
  base "fortigate_interface_down" "FortiGate interface without link"
    RuleKind.Threshold
    "dumbmonit_fortigate_interface_down"
  |> description "An enabled FortiGate interface with an address has no link: cable, transceiver or the device in front."
  |> operator Operator.Gt
  |> threshold (f64_of_Z 0)
  |> for_duration (td_seconds (5 * 60))
  |> severity Severity.Warning
  |> repeat_interval (Some (td_seconds (6 * 3600))).

Definition rule_fortigate_ha_out_of_sync : Rule :=
  base "fortigate_ha_out_of_sync" "FortiGate HA out of sync"
    RuleKind.Threshold
    "dumbmonit_fortigate_ha_in_sync"
  |> description "The members of a FortiGate HA cluster no longer have the same configuration checksum: a failover would run another configuration."
  |> operator Operator.Lt
  |> threshold (f64_of_Z 1)
  |> for_duration (td_seconds (15 * 60))
  |> severity Severity.Warning
  |> repeat_interval (Some (td_seconds (6 * 3600))).

Definition rule_fortigate_ha_member_lost : Rule :=
  base "fortigate_ha_member_lost" "FortiGate HA member lost"
    RuleKind.Threshold
    "max_over_time(dumbmonit_fortigate_ha_members[1d]) - dumbmonit_fortigate_ha_members"
  |> description "A FortiGate HA cluster has fewer members than in the last 24 hours: there is no standby any more."
  |> operator Operator.Gt
  |> threshold (f64_of_Z 0)
  |> for_duration (td_seconds (5 * 60))
  |> severity Severity.Critical
  |> repeat_interval (Some (td_seconds (6 * 3600))).

Definition rule_fortigate_memory_high : Rule :=
  base "fortigate_memory_high" "FortiGate memory near conserve mode"
    RuleKind.Threshold
    "dumbmonit_fortigate_memory_used_percent"
  |> description "FortiGate memory has stayed above 85 % for ten minutes: at 88 % (by default) it enters conserve mode and stops inspecting new sessions."
  |> operator Operator.Gt
  |> threshold (f64_of_Z 85)
  |> for_duration (td_seconds (10 * 60))
  |> severity Severity.Warning
  |> unit "%"
  |> repeat_interval (Some (td_seconds (6 * 3600))).

Definition rule_fortigate_cpu_high : Rule :=
  base "fortigate_cpu_high" "FortiGate CPU high"
    RuleKind.Threshold
    "dumbmonit_fortigate_cpu_usage_percent"
  |> description "FortiGate CPU has stayed above 90 % for fifteen minutes."
  |> operator Operator.Gt
  |> threshold (f64_of_Z 90)
  |> for_duration (td_seconds (15 * 60))
  |> severity Severity.Warning
  |> unit "%"
  |> repeat_interval (Some (td_seconds (6 * 3600))).

Definition rule_fortigate_license_expiring : Rule :=
  base "fortigate_license_expiring" "FortiGate licence expiring"
    RuleKind.Threshold
    "dumbmonit_fortigate_license_expiry_seconds"
  |> description "A FortiGuard or FortiCare licence of the FortiGate expires in less than 30 days, or has expired."
  |> operator Operator.Lt
  |> threshold (f64_mul (f64_mul (f64_of_Z 30) (f64_of_Z 24)) (f64_of_Z 3600))
  |> for_duration (td_seconds 3600)
  |> severity Severity.Warning
  |> unit "s"
  |> repeat_interval (Some (td_seconds (24 * 3600))).

Definition rule_fortigate_firmware_update : Rule :=
  base "fortigate_firmware_update" "FortiGate firmware update"
    RuleKind.Threshold
    "dumbmonit_fortigate_firmware_update_available"
  |> description "FortiGuard offers a newer patch release of the FortiOS branch the FortiGate runs."
  |> operator Operator.Gt
  |> threshold (f64_of_Z 0)
  |> for_duration (td_seconds 3600)
  |> severity Severity.Info
  |> repeat_interval (Some (td_seconds (168 * 3600))).

Definition rule_sophos_interface_down : Rule :=
  base "sophos_interface_down" "Sophos interface without link"
    RuleKind.Threshold
    "dumbmonit_sophos_interface_down"
  |> description "A Sophos Firewall interface that is switched on and bound to a zone has no link."
  |> operator Operator.Gt
  |> threshold (f64_of_Z 0)
  |> for_duration (td_seconds (5 * 60))
  |> severity Severity.Warning
  |> repeat_interval (Some (td_seconds (6 * 3600))).

Definition rule_hyperv_vm_critical : Rule :=
  base "hyperv_vm_critical" "Hyper-V VM health critical"
    RuleKind.Threshold
    "dumbmonit_hyperv_vms_health_critical"
  |> description "Hyper-V reports a virtual machine in critical health: a resource it needs, most often disk space, is exhausted."
  |> operator Operator.Gt
  |> threshold (f64_of_Z 0)
  |> for_duration (td_seconds (5 * 60))
  |> severity Severity.Critical
  |> repeat_interval (Some (td_seconds (6 * 3600))).

Definition rule_hyperv_host_cpu_high : Rule :=
  base "hyperv_host_cpu_high" "Hyper-V host CPU high"
    RuleKind.Threshold
    "dumbmonit_hyperv_host_cpu_percent"
  |> description "The Hyper-V host's logical processors have been more than 90 % busy for fifteen minutes, guests included."
  |> operator Operator.Gt
  |> threshold (f64_of_Z 90)
  |> for_duration (td_seconds (15 * 60))
  |> severity Severity.Warning
  |> unit "%"
  |> repeat_interval (Some (td_seconds (6 * 3600))).

Definition rule_hyperv_vhd_errors : Rule :=
  base "hyperv_vhd_errors" "Hyper-V virtual disk errors"
    RuleKind.Threshold
    "increase_prometheus(dumbmonit_hyperv_vhd_errors_total[1h])"
  |> description "A Hyper-V virtual disk reported I/O errors in the last hour."
  |> operator Operator.Gt
  |> threshold (f64_of_Z 0)
  |> for_duration (td_seconds (5 * 60))
  |> severity Severity.Warning
  |> repeat_interval (Some (td_seconds (6 * 3600))).

Definition rule_instance_backup_missing : Rule :=
  base "instance_backup_missing" "DumbMonit backup did not run"
    RuleKind.Threshold
    "time() - dumbmonit_instance_backup_last_success_seconds"
  |> description "The scheduled local backup of the DumbMonit database has not run for more than two days."
  |> operator Operator.Gt
  |> threshold (f64_mul (f64_mul (f64_of_Z 2) (f64_of_Z 24)) (f64_of_Z 3600))
  |> for_duration (td_seconds 3600)
  |> severity Severity.Warning
  |> unit "s"
  |> repeat_interval (Some (td_seconds (24 * 3600))).

Definition rule_security_score_drop : Rule :=
  base "security_score_drop" "Security score dropped"
    RuleKind.Threshold
    "max_over_time(dumbmonit_security_score[1d]) - dumbmonit_security_score"
  |> description "A device's security score dropped by 10 points or more within a day: open its Security card to see the newly failing check."
  |> operator Operator.Ge
  |> threshold (f64_of_Z 10)
  |> for_duration (td_seconds (30 * 60))
  |> severity Severity.Warning
  |> unit " pts"
  |> repeat_interval (Some (td_seconds (24 * 3600))).

Definition rule_security_score_low : Rule :=
  base "security_score_low" "Security score low"
    RuleKind.Threshold
    "dumbmonit_security_score"
  |> description "A device's security score is below 40 (grade F): several vendor best practices are not followed."
  |> operator Operator.Lt
  |> threshold (f64_of_Z 40)
  |> for_duration (td_seconds 3600)
  |> severity Severity.Info
  |> repeat_interval (Some (td_seconds (7 * 24 * 3600))).
