(* ===== verification/Rules.v ===== *)
(** * The built-in rules ([alerting/rules.rs], [seed_builtin_rules] of [db/alerts.rs])

    The catalogue a new instance starts with, in the order of the source, what makes each
    of its rules sound, and what seeding a database with it does. *)
From Stdlib Require Import Ascii.
From Stdlib Require String.
From S2P Require Import Prelude Text Float64 Chrono Model Machine RuleBook Db.
From S2P Require Import RulesHosts RulesProxmox RulesApps RulesEstate.

Definition builtin_rules : list Rule := [
  rule_host_down; rule_cpu_high; rule_disk_almost_full;
  rule_ups_on_battery; rule_fs_will_be_full; rule_cpu_anomaly;
  rule_ups_battery_low; rule_port_errors; rule_port_flapping;
  rule_redfish_fan_failed; rule_redfish_temperature_critical; rule_redfish_psu_redundancy_lost;
  rule_redfish_psu_failed; rule_redfish_drive_failure_predicted; rule_redfish_system_critical;
  rule_backup_too_old; rule_pbs_datastore_almost_full; rule_pbs_datastore_will_be_full;
  rule_pbs_backup_too_old; rule_pbs_backup_verification_failed; rule_pbs_task_failed;
  rule_pbs_gc_too_old; rule_service_down; rule_push_missed;
  rule_service_flapping; rule_service_slow; rule_tls_cert_expiring;
  rule_tls_cert_expired; rule_container_stopped; rule_container_unhealthy;
  rule_container_restarting; rule_container_update_available; rule_plakar_backup_too_old;
  rule_plakar_backup_failed; rule_backup_repo_too_old; rule_backup_repo_unreachable;
  rule_wireguard_peer_silent; rule_disk_smart_failed; rule_zfs_pool_degraded;
  rule_zfs_scrub_errors; rule_sensor_temperature_critical; rule_synology_abb_task_failed;
  rule_synology_abb_backup_too_old; rule_synology_abb_task_disabled; rule_pve_guest_stopped;
  rule_pve_ha_resource_error; rule_pve_cluster_no_quorum; rule_pve_node_offline;
  rule_pve_storage_almost_full; rule_pve_backup_job_failed; rule_pve_snapshot_old;
  rule_pve_replication_failed; rule_pve_ceph_health_error; rule_pve_ceph_health_warning;
  rule_pve_updates_pending; rule_pve_certificate_expiring; rule_pve_thinpool_almost_full;
  rule_pve_thinpool_metadata_full; rule_pve_service_down; rule_pve_interface_offline;
  rule_pve_ceph_osd_down; rule_pve_ceph_osd_nearly_full; rule_pve_ceph_pool_almost_full;
  rule_pve_ceph_noout_set; rule_pve_ha_lrm_stale; rule_pve_backup_excludes_disk;
  rule_pve_guest_locked; rule_pbs_sync_failed; rule_pbs_updates_pending;
  rule_pbs_prune_failed; rule_pbs_verify_job_failed; rule_pbs_gc_failed;
  rule_pbs_disk_smart_failed; rule_pbs_disk_wearout; rule_pbs_zpool_degraded;
  rule_pbs_service_down; rule_pbs_certificate_expiring; rule_pbs_version_stale;
  rule_pbs_tape_job_failed; rule_pbs_job_never_run; rule_pbs_gc_bad_chunks;
  rule_pbs_datastore_unmounted; rule_pdm_remote_unreachable; rule_pdm_remote_version_behind;
  rule_pdm_task_failed; rule_pdm_node_disk_almost_full; rule_pdm_certificate_expiring;
  rule_pdm_updates_pending; rule_pmg_queue_growing; rule_pmg_queue_stuck;
  rule_pmg_filter_service_down; rule_pmg_virus_signatures_stale; rule_pmg_spam_rules_stale;
  rule_pmg_quarantine_growing; rule_pmg_cluster_degraded; rule_pmg_certificate_expiring;
  rule_pmg_updates_pending; rule_mdaemon_service_down; rule_mdaemon_api_down;
  rule_mdaemon_queue_growing; rule_mdaemon_bad_queue_not_empty; rule_mdaemon_retry_queue_high;
  rule_securitygateway_service_down; rule_securitygateway_api_down; rule_securitygateway_queue_growing;
  rule_opnsense_gateway_down; rule_opnsense_gateway_loss; rule_opnsense_gateway_latency;
  rule_opnsense_state_table_filling; rule_opnsense_mbuf_exhausted; rule_opnsense_vpn_tunnel_down;
  rule_opnsense_resolver_down; rule_opnsense_core_service_down; rule_opnsense_temperature_high;
  rule_opnsense_carp_maintenance; rule_opnsense_reboot_pending; rule_opnsense_updates_pending;
  rule_truenas_pool_degraded; rule_truenas_pool_device_errors; rule_truenas_pool_almost_full;
  rule_truenas_scrub_errors; rule_truenas_scrub_overdue; rule_truenas_disk_smart_failed;
  rule_truenas_disk_hot; rule_truenas_dataset_quota_full; rule_truenas_replication_failed;
  rule_truenas_snapshot_task_failed; rule_truenas_snapshots_stale; rule_truenas_alert_raised;
  rule_truenas_service_down; rule_victoria_read_only; rule_victoria_disk_headroom_low;
  rule_victoria_unhealthy; rule_victoria_rows_rejected; rule_victoriametrics_slow_inserts;
  rule_loki_not_ready; rule_loki_lines_discarded; rule_loki_flush_failing;
  rule_loki_wal_disk_full; rule_loki_request_errors; rule_graylog_not_processing;
  rule_graylog_search_cluster_down; rule_graylog_search_cluster_yellow; rule_graylog_journal_filling;
  rule_graylog_input_failed; rule_graylog_indexing_failures; rule_nextcloud_maintenance;
  rule_nextcloud_upgrade_pending; rule_nextcloud_update_available; rule_nextcloud_opcache_full;
  rule_nextcloud_free_space_low; rule_immich_jobs_stalled; rule_immich_queue_paused;
  rule_immich_storage_almost_full; rule_immich_update_available; rule_paperless_broker_down;
  rule_paperless_component_error; rule_paperless_migrations_pending; rule_paperless_task_failed;
  rule_paperless_storage_almost_full; rule_paperless_update_available; rule_jellyfin_task_failed;
  rule_jellyfin_plugin_broken; rule_jellyfin_restart_pending; rule_plex_update_available;
  rule_gitlab_runners_all_offline; rule_gitlab_sidekiq_backlog_high; rule_gitlab_migrations_pending;
  rule_gitlab_license_expiring; rule_forgejo_runners_all_offline; rule_forgejo_cron_task_overdue;
  rule_client_device_stale; rule_pihole_blocking_disabled; rule_pihole_gravity_stale;
  rule_pihole_update_available; rule_pihole_diagnosis_messages; rule_adguard_protection_disabled;
  rule_adguard_dns_not_running; rule_adguard_upstream_down; rule_adguard_filters_stale;
  rule_adguard_update_available; rule_nut_on_battery; rule_nut_battery_low;
  rule_nut_replace_battery; rule_nut_load_high; rule_nut_runtime_short;
  rule_nut_data_stale; rule_mikrotik_cpu_high; rule_mikrotik_memory_high;
  rule_mikrotik_storage_almost_full; rule_mikrotik_temperature_high; rule_mikrotik_hardware_failed;
  rule_mikrotik_interface_errors; rule_mikrotik_link_flapping; rule_mikrotik_update_available;
  rule_mikrotik_firmware_upgrade_pending; rule_unifi_device_offline; rule_unifi_internet_down;
  rule_unifi_wan_link_down; rule_unifi_gateway_cpu_high; rule_unifi_device_pending_adoption;
  rule_unifi_firmware_update; rule_unifi_alarms; rule_homeassistant_recovery_mode;
  rule_homeassistant_not_running; rule_homeassistant_entities_unavailable; rule_homeassistant_battery_low;
  rule_homeassistant_update_available; rule_homeassistant_repair; rule_vsphere_host_not_responding;
  rule_vsphere_host_red; rule_vsphere_host_maintenance; rule_vsphere_datastore_almost_full;
  rule_vsphere_datastore_inaccessible; rule_vsphere_vm_tools_not_running; rule_vsphere_alarm_red;
  rule_pve_guest_cpu_high; rule_pve_guest_memory_high; rule_pve_guest_disk_almost_full;
  rule_pve_disk_wearout; rule_pve_disk_smart_failed; rule_pve_zfs_pool_degraded;
  rule_pve_security_updates_pending; rule_pve_packages_changed; rule_synology_disk_smart_warning;
  rule_synology_disk_failed; rule_synology_disk_bad_sectors; rule_synology_disk_bad_sectors_growing;
  rule_synology_ssd_wearout; rule_synology_volume_degraded; rule_synology_pool_degraded;
  rule_synology_volume_almost_full; rule_synology_temperature_high; rule_synology_memory_high;
  rule_synology_abb_device_overdue; rule_synology_abb_device_failing; rule_redis_memory_near_limit;
  rule_redis_rejecting_connections; rule_redis_replication_broken; rule_redis_replica_lagging;
  rule_redis_save_failed; rule_redis_aof_write_failed; rule_mongodb_no_primary;
  rule_mongodb_member_unhealthy; rule_mongodb_replication_lag; rule_mongodb_connections_high;
  rule_mongodb_cache_dirty; rule_mongodb_assertions; rule_rabbitmq_resource_alarm;
  rule_rabbitmq_node_down; rule_rabbitmq_partition; rule_rabbitmq_queue_no_consumer;
  rule_rabbitmq_queue_not_running; rule_crowdsec_lapi_down; rule_crowdsec_bouncer_stale;
  rule_crowdsec_no_logs_read; rule_traefik_router_disabled; rule_traefik_server_down;
  rule_traefik_service_down; rule_traefik_certificate_missing; rule_caddy_upstream_unhealthy;
  rule_caddy_reload_failed; rule_npm_host_offline; rule_proxy_cert_expiring;
  rule_proxy_5xx_rate; rule_domain_expiring; rule_domain_expiring_soon;
  rule_domain_on_hold; rule_domain_redemption; rule_dns_answer_changed;
  rule_webchange_detected; rule_ad_dc_unreachable; rule_ad_bind_failed;
  rule_ad_privileged_group_changed; rule_ad_replication_failing; rule_ad_krbtgt_password_old;
  rule_k8s_node_not_ready; rule_k8s_node_pressure; rule_k8s_pod_crashlooping;
  rule_k8s_pod_pending; rule_k8s_pod_restarting; rule_k8s_workload_unavailable;
  rule_k8s_pvc_pending; rule_pfsense_gateway_down; rule_pfsense_gateway_loss;
  rule_pfsense_gateway_latency; rule_pfsense_interface_down; rule_pfsense_service_stopped;
  rule_pfsense_disk_full; rule_unraid_array_stopped; rule_unraid_disk_problem;
  rule_unraid_disk_errors; rule_unraid_disk_hot; rule_unraid_parity_errors;
  rule_unraid_parity_check_old; rule_unraid_cache_full; rule_unraid_container_stopped;
  rule_veeam_job_failed; rule_veeam_job_warning; rule_veeam_repository_full;
  rule_veeam_license_expiring; rule_tailscale_device_offline; rule_tailscale_key_expiring;
  rule_tailscale_device_unapproved; rule_tailscale_update_available; rule_fortigate_ipsec_tunnel_down;
  rule_fortigate_interface_down; rule_fortigate_ha_out_of_sync; rule_fortigate_ha_member_lost;
  rule_fortigate_memory_high; rule_fortigate_cpu_high; rule_fortigate_license_expiring;
  rule_fortigate_firmware_update; rule_sophos_interface_down; rule_hyperv_vm_critical;
  rule_hyperv_host_cpu_high; rule_hyperv_vhd_errors; rule_instance_backup_missing;
  rule_security_score_drop; rule_security_score_low
].

(** ** What a sound rule is *)

(** The brackets of a query match outside of its quoted strings. *)
Fixpoint balanced (open : list ascii) (inside : bool) (s : string) : bool :=
  match s with
  | EmptyString => negb inside && bool_decide (open = [])
  | String c s' =>
      if decide (c = ascii_of_nat 34) then balanced open (negb inside) s'
      else if inside then balanced open inside s'
      else if bool_decide (c ∈ ["("; "["; "{"]%char) then balanced (c :: open) inside s'
      else
        let closes (o : ascii) :=
          match open with
          | x :: rest => bool_decide (x = o) && balanced rest inside s'
          | [] => false
          end in
        if decide (c = ")"%char) then closes "("%char
        else if decide (c = "]"%char) then closes "["%char
        else if decide (c = "}"%char) then closes "{"%char
        else balanced open inside s'
  end.

(** The value that ends the alert lies strictly on the quiet side of the threshold. *)
Definition quiet_side (r : Rule) (clear : f64) : bool :=
  f64_is_finite clear &&
  match r_operator r with
  | Operator.Gt | Operator.Ge => f64_lt clear (r_threshold r)
  | Operator.Lt | Operator.Le => f64_gt clear (r_threshold r)
  end.

Definition sound (r : Rule) : bool :=
  negb (bool_decide (r_uid r = "")) && negb (bool_decide (r_name r = "")) &&
  negb (bool_decide (r_description r = "")) &&
  balanced [] false (r_query r) && contains "dumbmonit_" (r_query r) &&
  f64_is_finite (r_threshold r) &&
  match r_clear_threshold r with None => true | Some clear => quiet_side r clear end &&
  (0 <=? r_for_duration r) && (r_for_duration r <=? td_hours 48) &&
  match r_repeat_interval r with
  | None => true
  | Some every => (0 <? every) && (r_for_duration r <=? every)
  end &&
  match r_escalate_after r with None => true | Some after => r_for_duration r <? after end.

Example builtin_rules_count : length builtin_rules = 320%nat.
Proof. reflexivity. Qed.
Example predict_query_ex :
  r_query rule_fs_will_be_full =
  ("predict_linear(" +:+ FS_USED_PERCENT +:+ "[6h], 345600) and deriv(" +:+ FS_USED_PERCENT +:+
   "[6h]) > 0")%string.
Proof. vm_compute. reflexivity. Qed.

(** ** Facts *)

Lemma all_sound r : r ∈ builtin_rules -> sound r = true.
Proof.
  apply forallb_elem. vm_compute. reflexivity.
Qed.

Lemma uids_distinct : NoDup (r_uid <$> builtin_rules).
Proof. apply (bool_decide_unpack (NoDup _)). vm_compute. exact I. Qed.

(** A rule whose clear threshold is on the quiet side releases its alert exactly there. *)
Lemma hysteresis r clear v :
  r_clear_threshold r = Some clear -> quiet_side r clear = true -> f64_is_finite v = true ->
  Operator.holds (r_operator r) v (r_threshold r) (Some clear) true =
  match r_operator r with
  | Operator.Gt | Operator.Ge => f64_ge v clear
  | Operator.Lt | Operator.Le => f64_le v clear
  end.
Proof.
  intros _ Hq Hv. unfold quiet_side in Hq. apply andb_true_iff in Hq as [Hc Hq].
  unfold Operator.holds, Operator.test. rewrite Hv. simpl. rewrite Hc. simpl.
  assert (forall b c : bool, (b = true -> c = true) -> (if b then true else c) = c) as H.
  { intros [] c; [|done]. intros ->; done. }
  destruct (r_operator r); rewrite Hq; simpl; apply H; intros Ht;
    unfold f64_gt, f64_ge in *; apply f64_lt_le.
  - by eapply f64_lt_le_trans, f64_lt_le.
  - by eapply f64_lt_le_trans.
  - by eapply f64_le_lt_trans; [apply f64_lt_le|].
  - by eapply f64_le_lt_trans.
Qed.

(** ** Seeding *)

(** The row a built-in rule is inserted as, and the text a stored one takes from it. *)
Definition new_row (id : Z) (c : Rule) : Rule :=
  let r := rule_from_row id true c in
  Build_Rule (r_id r) (r_uid r) (r_name r) (r_description r) (r_kind r) (r_query r)
    (r_operator r) (r_threshold r) (r_clear_threshold r) (r_for_duration r) (r_severity r)
    (r_selector r) (r_channels r) (r_params r) (r_unit r) (r_repeat_interval r)
    (r_escalate_after r) true true.

Definition with_text (c r : Rule) : Rule :=
  Build_Rule (r_id r) (r_uid r) (r_name c) (r_description c) (r_kind r) (r_query c)
    (r_operator r) (r_threshold r) (r_clear_threshold r) (r_for_duration r) (r_severity r)
    (r_selector r) (r_channels r) (r_params r) (r_unit c) (r_repeat_interval r)
    (r_escalate_after r) (r_enabled r) (r_builtin r).

(** What seeding makes of a stored rule. *)
Definition follow (catalogue : list Rule) (r : Rule) : Rule :=
  match find_map (fun c => if bool_decide (r_uid r = r_uid c) then Some c else None) catalogue with
  | Some c => if r_builtin r then with_text c r else r
  | None => r
  end.

(** The rows seeding adds: the rules that are missing, under fresh identifiers. *)
Fixpoint added (catalogue : list Rule) (uids : list string) (next : Z) : list Rule :=
  match catalogue with
  | [] => []
  | c :: catalogue' =>
      if decide (r_uid c ∈ uids) then added catalogue' uids next
      else new_row next c :: added catalogue' uids (next + 1)
  end.

Lemma has_rule_spec uid (rules : list Rule) : has_rule uid rules = true <-> uid ∈ r_uid <$> rules.
Proof.
  unfold has_rule. rewrite existsb_elem, list_elem_of_fmap. split.
  - intros (r & Hr & <-%bool_decide_eq_true). by exists r.
  - intros (r & -> & Hr). exists r. by rewrite bool_decide_true.
Qed.

Lemma follow_uid catalogue r : r_uid (follow catalogue r) = r_uid r.
Proof. unfold follow. destruct (find_map _ _); [|done]. by destruct (r_builtin r). Qed.

Lemma follow_uids catalogue (rules : list Rule) : r_uid <$> (follow catalogue <$> rules) = r_uid <$> rules.
Proof. rewrite <-list_fmap_compose. apply list_fmap_ext. intros _ r _. apply follow_uid. Qed.

Lemma follow_other catalogue r : r_uid r ∉ r_uid <$> catalogue -> follow catalogue r = r.
Proof.
  intros Hr. unfold follow. destruct (find_map _ _) as [c|] eqn:E; [|done].
  apply find_map_Some in E as (l1 & x & l2 & -> & E & _).
  case_bool_decide as Hu; [|done]. destruct Hr. rewrite Hu. apply list_elem_of_fmap_2. set_solver.
Qed.

Lemma added_uids catalogue uids next :
  r_uid <$> added catalogue uids next = filter (fun u => u ∉ uids) (r_uid <$> catalogue).
Proof.
  revert next. induction catalogue as [|c l IH]; intros next; simpl; [done|].
  rewrite filter_cons. destruct (decide (r_uid c ∈ uids)) as [Hc|Hc].
  - rewrite IH, decide_False; [done|]. by intros ?.
  - rewrite decide_True by done. simpl. by rewrite IH.
Qed.

Lemma seed_rule_spec c d :
  db_rules (seed_rule c d) =
    (follow [c] <$> db_rules d) ++ added [c] (r_uid <$> db_rules d) (db_next_rule d) /\
  seed_rule c d =
    set_rules (db_rules (seed_rule c d))
      (db_next_rule d + Z.of_nat (length (added [c] (r_uid <$> db_rules d) (db_next_rule d)))) d.
Proof.
  assert (forall r, follow [c] r = if bool_decide (r_uid r = r_uid c) && r_builtin r
                                   then with_text c r else r) as Hf.
  { intros r. unfold follow. simpl. case_bool_decide; [|done]. by destruct (r_builtin r). }
  unfold seed_rule, added. destruct (has_rule (r_uid c) (db_rules d)) eqn:Hh.
  - apply has_rule_spec in Hh. rewrite decide_True by done. simpl. rewrite app_nil_r. split.
    + apply list_fmap_ext. intros _ r _. by rewrite Hf.
    + by rewrite Z.add_0_r.
  - rewrite decide_False by (rewrite <-has_rule_spec; congruence). simpl. split; [|done].
    rewrite fmap_app. f_equal; [|by simpl; rewrite bool_decide_true].
    apply list_fmap_ext. intros _ r _. by rewrite Hf.
Qed.

Lemma follow_cons c catalogue r :
  r_uid c ∉ r_uid <$> catalogue -> follow catalogue (follow [c] r) = follow (c :: catalogue) r.
Proof.
  intros Hc. unfold follow at 2 3. simpl. case_bool_decide as Hu; [|done].
  destruct (r_builtin r) eqn:Hb; apply follow_other; simpl; by rewrite Hu.
Qed.

Lemma added_cons c catalogue uids next :
  r_uid c ∉ r_uid <$> catalogue ->
  added (c :: catalogue) uids next =
  added [c] uids next ++
    added catalogue (uids ++ (r_uid <$> added [c] uids next))
      (next + Z.of_nat (length (added [c] uids next))).
Proof.
  intros Hc.
  assert (forall l us n, r_uid c ∉ r_uid <$> l -> added l (us ++ [r_uid c]) n = added l us n) as H.
  { intros l. induction l as [|x l IH]; intros us n Hn; simpl; [done|].
    rewrite fmap_cons, not_elem_of_cons in Hn. destruct Hn as [Hx Hl].
    rewrite !IH by done. destruct (decide (r_uid x ∈ us)) as [Hi|Hi].
    - by rewrite decide_True by set_solver.
    - rewrite decide_False; [done|]. set_solver. }
  simpl. destruct (decide (r_uid c ∈ uids)) as [Hi|Hi]; simpl.
  - by rewrite app_nil_r, Z.add_0_r.
  - by rewrite H.
Qed.

Lemma seed_spec catalogue d :
  NoDup (r_uid <$> catalogue) ->
  let new := added catalogue (r_uid <$> db_rules d) (db_next_rule d) in
  seed_builtin_rules catalogue d =
    set_rules ((follow catalogue <$> db_rules d) ++ new)
      (db_next_rule d + Z.of_nat (length new)) d.
Proof.
  unfold seed_builtin_rules. revert d.
  induction catalogue as [|c l IH]; intros d Hnd; simpl foldl.
  - simpl. rewrite app_nil_r, Z.add_0_r. unfold follow. simpl. rewrite list_fmap_id. by destruct d.
  - apply NoDup_cons in Hnd as [Hc Hl]. rewrite IH by done.
    destruct (seed_rule_spec c d) as [Hrules Hd].
    set (new1 := added [c] (r_uid <$> db_rules d) (db_next_rule d)) in *.
    assert (db_next_rule (seed_rule c d) = db_next_rule d + Z.of_nat (length new1)) as Hn
      by (rewrite Hd; done).
    assert (r_uid <$> db_rules (seed_rule c d) =
            (r_uid <$> db_rules d) ++ (r_uid <$> new1)) as Hu
      by (by rewrite Hrules, fmap_app, follow_uids).
    rewrite Hu, Hn, Hrules, (added_cons c l) by done. fold new1.
    rewrite fmap_app, <-list_fmap_compose.
    assert (follow l <$> new1 = new1) as ->.
    { rewrite <-(list_fmap_id new1) at 2. apply list_fmap_ext. intros i r Hr. apply follow_other.
      apply list_elem_of_lookup_2 in Hr. apply (list_elem_of_fmap_2 r_uid) in Hr.
      unfold new1 in Hr. rewrite added_uids in Hr.
      apply list_elem_of_filter in Hr as [_ Hr%list_elem_of_singleton]. simpl. by rewrite Hr. }
    rewrite (list_fmap_ext (follow l ∘ follow [c]) (follow (c :: l)))
      by (intros; apply follow_cons, Hc).
    rewrite Hd. unfold set_rules. simpl. f_equal; [by rewrite <-app_assoc|].
    rewrite length_app. lia.
Qed.

Lemma follow_idem catalogue r : follow catalogue (follow catalogue r) = follow catalogue r.
Proof.
  unfold follow at 1. rewrite follow_uid. unfold follow.
  destruct (find_map _ catalogue) as [c|]; [|done]. destruct (r_builtin r) eqn:Hb; simpl; by rewrite Hb.
Qed.

Lemma added_none catalogue uids next :
  (forall c, c ∈ catalogue -> r_uid c ∈ uids) -> added catalogue uids next = [].
Proof.
  induction catalogue as [|c l IH]; intros H; simpl; [done|].
  rewrite decide_True by (apply H; left). apply IH. intros. apply H. by right.
Qed.

Lemma elem_of_added catalogue uids next r :
  r ∈ added catalogue uids next -> exists c id, c ∈ catalogue /\ r = new_row id c.
Proof.
  revert next. induction catalogue as [|c l IH]; intros next; simpl; [by intros ?%elem_of_nil|].
  destruct (decide _).
  - intros (c' & id & ? & ->)%IH. exists c', id. split; [by right|done].
  - intros [->|(c' & id & ? & ->)%IH]%elem_of_cons; [exists c, next|exists c', id];
      (split; [set_solver|done]).
Qed.

Lemma follow_new_row catalogue c id :
  NoDup (r_uid <$> catalogue) -> c ∈ catalogue -> follow catalogue (new_row id c) = new_row id c.
Proof.
  intros Hnd Hc. unfold follow. destruct (find_map _ catalogue) as [x|] eqn:E; [|done].
  apply find_map_Some in E as (l1 & y & l2 & -> & E & _). case_bool_decide as Hu; [|done].
  injection E as ->. assert (x = c) as ->; [|done]. clear -Hnd Hc Hu.
  apply list_elem_of_lookup in Hc as [i Hi].
  rewrite NoDup_alt in Hnd. assert (i = length l1) as ->; [|].
  { apply (Hnd i (length l1) (r_uid c)); rewrite list_lookup_fmap.
    - by rewrite Hi.
    - rewrite list_lookup_middle by done. simpl. by rewrite <-Hu. }
  rewrite list_lookup_middle in Hi by done. congruence.
Qed.

Lemma set_rules_twice l n l' n' d : set_rules l n (set_rules l' n' d) = set_rules l n d.
Proof. done. Qed.

Lemma seed_idem catalogue d :
  NoDup (r_uid <$> catalogue) ->
  seed_builtin_rules catalogue (seed_builtin_rules catalogue d) = seed_builtin_rules catalogue d.
Proof.
  intros Hnd. rewrite (seed_spec catalogue (seed_builtin_rules catalogue d)) by done.
  rewrite seed_spec by done. set (new := added catalogue _ (db_next_rule d)).
  set (kept := follow catalogue <$> db_rules d).
  set (next := db_next_rule d + Z.of_nat (length new)).
  change (db_rules (set_rules (kept ++ new) next d)) with (kept ++ new).
  change (db_next_rule (set_rules (kept ++ new) next d)) with next.
  rewrite (added_none catalogue (r_uid <$> kept ++ new)).
  2:{ intros c Hc. rewrite fmap_app, elem_of_app. unfold kept, new.
      rewrite follow_uids, added_uids, list_elem_of_filter.
      destruct (decide (r_uid c ∈ r_uid <$> db_rules d)); [by left|right].
      split; [done|by apply list_elem_of_fmap_2]. }
  rewrite app_nil_r, Z.add_0_r, set_rules_twice. f_equal. rewrite fmap_app. f_equal.
  - unfold kept. rewrite <-list_fmap_compose. apply list_fmap_ext. intros _ r _. apply follow_idem.
  - rewrite <-(list_fmap_id new) at 2. apply list_fmap_ext. intros i r Hr.
    apply list_elem_of_lookup_2, elem_of_added in Hr as (c & id & Hc & ->).
    by apply follow_new_row.
Qed.

Lemma follow_cases catalogue r :
  (r_builtin r = false \/ r_uid r ∉ r_uid <$> catalogue) /\ follow catalogue r = r \/
  exists c, c ∈ catalogue /\ r_uid c = r_uid r /\ r_builtin r = true /\
            follow catalogue r = with_text c r.
Proof.
  unfold follow. destruct (find_map _ catalogue) as [c|] eqn:E.
  - apply find_map_Some in E as (l1 & x & l2 & -> & E & _). case_bool_decide; [|done].
    injection E as ->. destruct (r_builtin r); [right|left; by split; [left|]].
    exists c. split_and!; [set_solver|done..].
  - left. split; [right|done]. intros (c & Hu & Hc)%list_elem_of_fmap.
    apply (proj1 (find_map_None _ _) E) in Hc. by rewrite bool_decide_true in Hc.
Qed.

Lemma added_rows catalogue uids next i r :
  added catalogue uids next !! i = Some r ->
  r_enabled r = true /\ r_builtin r = true /\ r_id r = next + Z.of_nat i.
Proof.
  revert next i. induction catalogue as [|c l IH]; intros next i; simpl; [done|].
  destruct (decide _); [apply IH|]. destruct i as [|i]; simpl.
  - intros [= <-]. split_and!; [done..|]. simpl. lia.
  - intros (? & ? & ->)%IH. split_and!; [done..|lia].
Qed.

Lemma reads_back r : r ∈ builtin_rules -> rule_from_row (r_id r) (r_enabled r) r = r.
Proof.
  revert r. apply Forall_forall. unfold builtin_rules.
  repeat (constructor; [vm_compute; reflexivity|]). constructor.
Qed.

(** ** Claims *)

(** Every rule of the catalogue is sound.  Identifiers and names are distinct and one
    rule only is the "unreachable" rule that suppression relies on; every query is
    well bracketed and reads a metric of the product; each delay is of two days at most,
    the reminder no earlier than the confirmation and the escalation later than it;
    a rule comes back from its row as it was written; and a clear threshold really is
    a hysteresis: whatever the finite value, an active alert goes on exactly as long as the
    value has not passed the clear threshold, which alone would not have triggered it. *)
Theorem builtin_rules_are_sound :
  NoDup (r_uid <$> builtin_rules) /\ NoDup (r_name <$> builtin_rules) /\
  filter (fun r => is_host_down r = true) builtin_rules = [rule_host_down] /\
  forall r, r ∈ builtin_rules ->
    sound r = true /\ rule_from_row (r_id r) (r_enabled r) r = r /\
    forall clear, r_clear_threshold r = Some clear ->
      Operator.test (r_operator r) clear (r_threshold r) = false /\
      forall v, f64_is_finite v = true ->
        Operator.holds (r_operator r) v (r_threshold r) (r_clear_threshold r) true =
        match r_operator r with
        | Operator.Gt | Operator.Ge => f64_ge v clear
        | Operator.Lt | Operator.Le => f64_le v clear
        end.
Proof.
  split; [exact uids_distinct|]. split; [|split].
  - apply (bool_decide_unpack (NoDup _)). vm_compute. exact I.
  - vm_compute. reflexivity.
  - intros r Hr. pose proof (all_sound r Hr) as Hs. split; [done|]. split; [by apply reads_back|].
    intros clear Hc. assert (quiet_side r clear = true) as Hq.
    { unfold sound in Hs. rewrite Hc in Hs. by bools. }
    split; [|intros v Hv; rewrite Hc; by apply hysteresis].
    unfold quiet_side in Hq. apply andb_true_iff in Hq as [Hfin Hq].
    unfold Operator.test. rewrite Hfin. simpl.
    destruct (r_operator r); apply not_true_iff_false; intros Ht;
      pose proof (f64_lt_irrefl clear) as Hirr; unfold f64_gt, f64_ge in *.
    + by rewrite (f64_lt_le_trans _ _ _ Hq (f64_lt_le _ _ Ht)) in Hirr.
    + by rewrite (f64_lt_le_trans _ _ _ Hq Ht) in Hirr.
    + by rewrite (f64_lt_le_trans _ _ _ Ht (f64_lt_le _ _ Hq)) in Hirr.
    + by rewrite (f64_le_lt_trans _ _ _ Ht Hq) in Hirr.
Qed.

(** Seeding leaves the rules to their user.  Whatever the table holds, a start keeps
    each of its rows in its place, a rule of the user untouched and a built-in one with
    its thresholds, delays, channels, selector and activation, only its texts and query
    following the version; it adds exactly the built-in rules that are missing, each
    once, enabled, under a fresh identifier; nothing else of the database
    changes, and a second start changes nothing. *)
Theorem seeding_keeps_the_users_rules d :
  let d' := seed_builtin_rules builtin_rules d in
  exists kept new,
    d' = set_rules (kept ++ new) (db_next_rule d + Z.of_nat (length new)) d /\
    Forall2 (fun r r' =>
      (r_builtin r = false \/ r_uid r ∉ r_uid <$> builtin_rules) /\ r' = r \/
      exists c, c ∈ builtin_rules /\ r_uid c = r_uid r /\ r_builtin r = true /\
                r' = with_text c r) (db_rules d) kept /\
    r_uid <$> new = filter (fun u => u ∉ r_uid <$> db_rules d) (r_uid <$> builtin_rules) /\
    (forall i r, new !! i = Some r ->
       r_enabled r = true /\ r_builtin r = true /\ r_id r = db_next_rule d + Z.of_nat i) /\
    seed_builtin_rules builtin_rules d' = d'.
Proof.
  intros d'. exists (follow builtin_rules <$> db_rules d).
  exists (added builtin_rules (r_uid <$> db_rules d) (db_next_rule d)).
  split; [apply seed_spec, uids_distinct|]. split; [|split; [apply added_uids|split]].
  - apply Forall2_fmap_r, Forall_Forall2_diag, Forall_forall. intros r _. apply follow_cases.
  - apply added_rows.
  - apply seed_idem, uids_distinct.
Qed.
