(* ===== verification/Wire.v ===== *)
(** * What travels between the server and its agents (crate [proto])

    Samples, targets and their labels, the probes delegated to a relay, the commands and
    their reports.  [serde_json] is the class [Json]. *)
From Stdlib Require Import Ascii.
From Stdlib Require String.
From S2P Require Import Prelude Text Float64 Chrono.

(** ** Samples ([sample.rs]) *)

Inductive MetricKind := Gauge | Counter.

Record Sample := {
  metric : string;
  labels : gmap string string;
  value : f64;
  kind : MetricKind;
  ts_ms : Z;
}.

Definition Sample_new (metric : string) (value : f64) (kind : MetricKind) (ts_ms : Z) : Sample :=
  {| metric := metric; labels := ∅; value := value; kind := kind; ts_ms := ts_ms |}.

Definition with_labels (labels : gmap string string) (s : Sample) : Sample :=
  {| metric := metric s; labels := labels; value := value s; kind := kind s; ts_ms := ts_ms s |}.

Definition with_label (s : Sample) (key value : string) : Sample :=
  with_labels (<[key := value]> (labels s)) s.

(** A double quote. *)
Definition quote : string := String "034"%char "".

(** The fields of a series, from the second on behind a comma. *)
Fixpoint key_fields (first : bool) (fields : list (string * string)) : string :=
  match fields with
  | [] => ""
  | (name, value) :: fields =>
      ((if first then "" else ",") +:+ name +:+ "=" +:+ quote +:+ value +:+ quote +:+
       key_fields false fields)%string
  end.

Definition series_key (s : Sample) : string :=
  if bool_decide (labels s = ∅) then metric s
  else (metric s +:+ "{" +:+ key_fields true (btree_to_list string_cmp (labels s)) +:+ "}")%string.

(** ** Targets ([target.rs], [credential.rs]) *)

Inductive SnmpV3AuthProtocol := Md5 | Sha1 | Sha224 | Sha256 | Sha384 | Sha512.
Inductive SnmpV3PrivacyProtocol := Des | Aes128 | Aes192 | Aes256.
Record SnmpV3Auth := { auth_protocol : SnmpV3AuthProtocol; auth_passphrase : string }.
Record SnmpV3Privacy := { privacy_protocol : SnmpV3PrivacyProtocol; privacy_passphrase : string }.

Module Credential.
Inductive Credential :=
| None
| SnmpCommunity (community : string)
| SnmpV3 (username : string) (auth : option SnmpV3Auth) (privacy : option SnmpV3Privacy)
    (context : option string)
| ApiToken (token : string)
| UsernamePassword (username password : string).

Definition kind_label (c : Credential) : string :=
  match c with
  | None => "None"
  | SnmpCommunity _ => "SNMP community"
  | SnmpV3 _ _ _ _ => "SNMP v3"
  | ApiToken _ => "API token"
  | UsernamePassword _ _ => "Username / password"
  end.
End Credential.
Notation Credential := Credential.Credential.

Record Target := {
  id : Z;
  name : string;
  address : string;
  t_kind : string;
  profile_id : option string;
  parent_id : option Z;
  interval : Duration;
  enabled : bool;
  tags : gmap string string;
  credential : Credential;
  group_name : string;
  position : Z;
}.

(** A label name keeps its letters, digits and underscores; every other character becomes one
    underscore. *)
Definition label_char (c : ascii) : ascii :=
  if is_ascii_alphanumeric c || bool_decide (c = "_"%char) then c else "_"%char.
Definition label_name (key : string) : string := string_map label_char (string_filter starts_char key).

Definition insert_tag (labels : gmap string string) (tag : string * string) : gmap string string :=
  <[("tag_" +:+ label_name tag.1)%string := tag.2]> labels.

Definition base_labels (t : Target) : gmap string string :=
  foldl insert_tag (<["host" := name t]> (<["target" := display_i64 (id t)]> ∅))
    (btree_to_list string_cmp (tags t)).

(** ** Probes delegated to a relay, and commands ([command.rs]) *)

Definition COMMAND_MAX_AGE_SECS : Z := 600.
Definition RELAY_POLL_HOLD_SECS : Z := 25.
Definition CMD_CONTAINER_RESTART : string := "container.restart".
Definition CMD_CONTAINER_UPDATE : string := "container.update".
Definition CMD_PROBE : string := "probe".

Record ProbeJob := { job_target : Target; timeout_secs : Z; discover : bool }.

Record ProbeOutcome := {
  duration_ms : Z;
  error : option string;
  samples : list Sample;
  outcome_profile : option string;
}.

(** JSON values as [serde_json] handles them: the objects the source writes with [json!], whose
    fields are texts and booleans, the reading of a field, the text of a value and back, the
    derived encoding of a probe, and SQLite's [json_extract(text, '$.name')] when it is a text. *)
Class Json := {
  Value : Type;
  Null : Value;
  object : list (string * (string + bool)) -> Value;
  get_str : Value -> string -> option string;
  get_bool : Value -> string -> option bool;
  to_text : Value -> option string;
  of_text : string -> option Value;
  extract_name : string -> option string;
  probe_value : ProbeJob -> option Value;
  value_probe : Value -> string + ProbeJob;
}.

(** What the documentation of [serde_json] and of SQLite promises of them. *)
Class JsonLaws (J : Json) := {
  object_to_text : forall fields, is_Some (to_text (object fields));
  of_to_text : forall v text, to_text v = Some text -> of_text text = Some v;
  extract_to_text : forall v text, to_text v = Some text -> extract_name text = get_str v "name";
  get_str_object : forall fields k,
    NoDup fields.*1 ->
    get_str (object fields) k = (p ← list_find (fun f => f.1 = k) fields;
                                 match p.2.2 with inl s => Some s | inr _ => None end);
  probe_round_trip : forall j v, probe_value j = Some v -> value_probe v = inr j;
}.

Section wire.
Context `{Json}.

Record AgentCommand := { cmd_id : Z; cmd_kind : string; cmd_args : Value; created_at_ms : Z }.

Definition into_command (j : ProbeJob) (id created_at_ms : Z) : AgentCommand :=
  {| cmd_id := id; cmd_kind := CMD_PROBE; cmd_args := probe_value j ?? Null;
     created_at_ms := created_at_ms |}.

Definition from_command (c : AgentCommand) : string + ProbeJob :=
  if bool_decide (cmd_kind c = CMD_PROBE) then
    match value_probe (cmd_args c) with
    | inl error => inl ("unreadable probe job: " +:+ error)%string
    | inr job => inr job
    end
  else inl ("not a probe command: " +:+ cmd_kind c)%string.

Definition i64_saturating_sub (a b : Z) : Z := Z.max i64_min (Z.min i64_max (a - b)).

Definition is_expired (c : AgentCommand) (now_ms : Z) : bool :=
  COMMAND_MAX_AGE_SECS * 1000 <? i64_saturating_sub now_ms (created_at_ms c).

Definition arg_str (c : AgentCommand) (key : string) : option string :=
  option_filter (fun s => negb (bool_decide (s = ""))) (trim <$> get_str (cmd_args c) key).

Definition arg_bool (c : AgentCommand) (key : string) : option bool := get_bool (cmd_args c) key.
End wire.

Module CommandStatus.
Inductive CommandStatus := Queued | Running | Done | Failed | Cancelled | Expired.

#[global] Instance eq_dec : EqDecision CommandStatus.
Proof. solve_decision. Defined.

Definition as_str (s : CommandStatus) : string :=
  match s with
  | Queued => "queued" | Running => "running" | Done => "done"
  | Failed => "failed" | Cancelled => "cancelled" | Expired => "expired"
  end.

Definition parse (text : string) : option CommandStatus :=
  if bool_decide (text = "queued") then Some Queued
  else if bool_decide (text = "running") then Some Running
  else if bool_decide (text = "done") then Some Done
  else if bool_decide (text = "failed") then Some Failed
  else if bool_decide (text = "cancelled") then Some Cancelled
  else if bool_decide (text = "expired") then Some Expired
  else None.

Definition is_final (s : CommandStatus) : bool :=
  match s with Done | Failed | Cancelled | Expired => true | _ => false end.

Lemma parse_as_str s : parse (as_str s) = Some s.
Proof. by destruct s. Qed.
End CommandStatus.
Notation CommandStatus := CommandStatus.CommandStatus.

Record CommandReport := { status : CommandStatus; result : string }.

(** ** Reports kept by their end *)

Definition COMMAND_RESULT_MAX_BYTES : nat := 4096.

Definition COMMAND_RESULT_TRUNCATED : string :=
  ("[truncated by the server, beginning dropped]" +:+ String "010"%char "")%string.

(** [&text[start..]]. *)
Fixpoint skip_bytes (start : nat) (text : string) : string :=
  match start, text with
  | S start, String _ text => skip_bytes start text
  | _, _ => text
  end.

(** The [while] that looks for the next boundary of a character, on what is left of the text: its
    end is one, so the loop ends with the text at the latest. *)
Fixpoint to_boundary (text : string) : string :=
  match text with
  | EmptyString => ""
  | String c rest => if starts_char c then text else to_boundary rest
  end.

Definition truncate_result (text : string) : string :=
  if (String.length text <=? COMMAND_RESULT_MAX_BYTES)%nat then text
  else (COMMAND_RESULT_TRUNCATED +:+
        to_boundary (skip_bytes (String.length text - COMMAND_RESULT_MAX_BYTES) text))%string.

(** ** Facts *)

Lemma skip_bytes_spec n text :
  (n <= String.length text)%nat ->
  exists skipped, text = (skipped +:+ skip_bytes n text)%string /\ String.length skipped = n.
Proof.
  revert text. induction n as [|n IH]; intros text Hn; [by exists ""|].
  destruct text as [|c text]; simpl in *; [lia|].
  destruct (IH text) as (k & Ht & Hk); [lia|]. exists (String c k).
  rewrite string_app_cons. simpl. rewrite Hk. split; [by f_equal|done].
Qed.

Lemma to_boundary_spec text :
  exists back, text = (back +:+ to_boundary text)%string /\
    string_forall (fun c => negb (starts_char c)) back = true /\
    match to_boundary text with EmptyString => True | String c _ => starts_char c = true end.
Proof.
  induction text as [|c text (back & Ht & Hb & Hc)]; [by exists ""|]. simpl.
  destruct (starts_char c) eqn:E; [by exists ""|].
  exists (String c back). rewrite string_app_cons. simpl. rewrite E, Hb.
  split_and!; [by f_equal|done|done].
Qed.

(** A report is kept whole up to 4096 bytes; a longer one keeps its end, cut at most 4096 bytes from
    it at the beginning of a character, the bytes given up to get there continuing a character. *)
Theorem long_reports_keep_their_end text :
  if (String.length text <=? COMMAND_RESULT_MAX_BYTES)%nat then truncate_result text = text
  else exists lost back kept,
    text = (lost +:+ back +:+ kept)%string /\
    truncate_result text = (COMMAND_RESULT_TRUNCATED +:+ kept)%string /\
    String.length (back +:+ kept)%string = COMMAND_RESULT_MAX_BYTES /\
    string_forall (fun c => negb (starts_char c)) back = true /\
    match kept with EmptyString => True | String c _ => starts_char c = true end.
Proof.
  unfold truncate_result. destruct (_ <=? _)%nat eqn:E; [done|]. apply Nat.leb_gt in E.
  set (n := (String.length text - COMMAND_RESULT_MAX_BYTES)%nat).
  destruct (skip_bytes_spec n text) as (lost & Ht & Hl); [lia|].
  destruct (to_boundary_spec (skip_bytes n text)) as (back & Hb & Hf & Hc).
  exists lost, back, (to_boundary (skip_bytes n text)).
  rewrite <-Hb. split_and!; [done|done| |done|done].
  apply (f_equal String.length) in Ht. rewrite string_length_app in Ht. lia.
Qed.

Lemma base_labels_untagged t k :
  starts_with "tag_" k = false ->
  base_labels t !! k = <["host" := name t]> (<["target" := display_i64 (id t)]> ∅ : gmap string string) !! k.
Proof.
  intros Hk. unfold base_labels. apply foldl_invariant; [done|]. intros labels tag _ <-.
  unfold insert_tag. apply lookup_insert_ne. intros <-. done.
Qed.

Lemma base_labels_target t : base_labels t !! "target" = Some (display_i64 (id t)).
Proof. by rewrite base_labels_untagged. Qed.
Lemma base_labels_host t : base_labels t !! "host" = Some (name t).
Proof. by rewrite base_labels_untagged. Qed.

(** ** A concrete JSON

    Objects as the lists of their fields, their text a string of the digits of their encoding. *)
Module PlainJson.
Fixpoint of_pos (p : positive) : string :=
  match p with
  | xH => ""
  | xO p => String "0" (of_pos p)
  | xI p => String "1" (of_pos p)
  end.
Fixpoint to_pos (s : string) : positive :=
  match s with
  | EmptyString => xH
  | String c s => if bool_decide (c = "1"%char) then xI (to_pos s) else xO (to_pos s)
  end.
Lemma to_of_pos p : to_pos (of_pos p) = p.
Proof. induction p; simpl; by rewrite ?IHp. Qed.

Notation Fields := (list (string * (string + bool))).

Definition field (fields : Fields) (k : string) : option (string + bool) :=
  p ← list_find (fun f => f.1 = k) fields; Some p.2.2.

(** Nothing, an object, or a probe. *)
Definition V : Type := option (Fields + ProbeJob).

Definition v_str (v : V) (k : string) : option string :=
  match v with
  | Some (inl fields) => match field fields k with Some (inl s) => Some s | _ => None end
  | _ => None
  end.
Definition v_bool (v : V) (k : string) : option bool :=
  match v with
  | Some (inl fields) => match field fields k with Some (inr b) => Some b | _ => None end
  | _ => None
  end.
Definition v_text (v : V) : option string :=
  match v with Some (inl fields) => Some (of_pos (encode fields)) | _ => None end.
Definition text_v (s : string) : option V := fields ← decode (to_pos s); Some (Some (inl fields)).

#[global] Instance plain_json : Json := {|
  Value := V;
  Null := None;
  object := fun fields => Some (inl fields);
  get_str := v_str;
  get_bool := v_bool;
  to_text := v_text;
  of_text := text_v;
  extract_name := fun s => v ← text_v s; v_str v "name";
  probe_value := fun j => Some (Some (inr j));
  value_probe := fun v => match v with Some (inr j) => inr j | _ => inl "" end;
|}.

Lemma text_of_v v text : v_text v = Some text -> text_v text = Some v.
Proof.
  destruct v as [[fields|]|]; simpl; [|done..]. intros [= <-]. unfold text_v.
  by rewrite to_of_pos, decode_encode.
Qed.

#[global] Instance plain_json_laws : JsonLaws plain_json.
Proof.
  split; simpl.
  - eauto.
  - apply text_of_v.
  - intros v text ->%text_of_v. done.
  - intros fields k _. unfold field. by destruct (list_find _ fields) as [[? [? [|]]]|].
  - by intros j v [= <-].
Qed.
End PlainJson.
