(* ===== verification/Relay.v ===== *)
(** * Probes delegated to the relay agents ([collectors/relay.rs], [api/relay.rs])

    The hub keeps the probes that wait for their agent and those an agent has taken; a long poll
    takes everything that waits.  An [Instant] is a number of nanoseconds, the hash maps are finite
    maps read in the order of [map_to_list] (nothing proved depends on it), the one-shot channel of
    a probe is named by its number.  [RelayHub] locks the whole state for each of its operations:
    an execution is a sequence of them ([Op]), and [Ledger] says what such a sequence promises. *)
From Stdlib Require Import Ascii.
From Stdlib Require String.
From stdpp Require Import sorting.
From S2P Require Import Prelude Text Float64 Chrono Wire.

Definition RELAY_GRACE : Duration := td_seconds (RELAY_POLL_HOLD_SECS + 10).
Definition deadline_for (probe_timeout : Duration) : Duration := probe_timeout + RELAY_GRACE.

(** [Duration::as_secs]. *)
Definition as_secs (d : Duration) : Z := d / ns_per_s.

Module JobResult.
Inductive JobResult := Done (outcome : ProbeOutcome) | Expired.
End JobResult.
Notation JobResult := JobResult.JobResult.

Record Job := {
  j_id : Z;
  agent_id : Z;
  target : Target;
  timeout : Duration;
  j_discover : bool;
  deadline : Z;
  taken_at : option Z;
  reply : option Z;
}.

Definition set_taken_at (t : Z) (j : Job) : Job :=
  {| j_id := j_id j; agent_id := agent_id j; target := target j; timeout := timeout j;
     j_discover := j_discover j; deadline := deadline j; taken_at := Some t; reply := reply j |}.

(** [self.reply.take()]. *)
Definition take_reply (j : Job) : Job :=
  {| j_id := j_id j; agent_id := agent_id j; target := target j; timeout := timeout j;
     j_discover := j_discover j; deadline := deadline j; taken_at := taken_at j; reply := None |}.

Record Inner := {
  next_id : Z;
  queued : gmap Z (list Job);
  in_flight : gmap Z Job;
  (** The [Notify] of each agent: whether it holds a permit. *)
  wakers : gmap Z bool;
}.

Definition RelayHub_new : Inner :=
  {| next_id := 0; queued := ∅; in_flight := ∅; wakers := ∅ |}.

Definition set_queued (q : gmap Z (list Job)) (i : Inner) : Inner :=
  {| next_id := next_id i; queued := q; in_flight := in_flight i; wakers := wakers i |}.
Definition set_in_flight (f : gmap Z Job) (i : Inner) : Inner :=
  {| next_id := next_id i; queued := queued i; in_flight := f; wakers := wakers i |}.
Definition set_wakers (w : gmap Z bool) (i : Inner) : Inner :=
  {| next_id := next_id i; queued := queued i; in_flight := in_flight i; wakers := w |}.

(** [wakers.entry(agent_id).or_default()], and [notify_one] on it: at most one permit is kept. *)
Definition waker (agent : Z) (i : Inner) : Inner :=
  match wakers i !! agent with
  | Some _ => i
  | None => set_wakers (<[agent := false]> (wakers i)) i
  end.
Definition notify_one (agent : Z) (i : Inner) : Inner := set_wakers (<[agent := true]> (wakers i)) i.

(** [Err(EnqueueError::Busy)] is [None]; otherwise the channel of the answer. *)
Definition same (t : Target) (disc : bool) (j : Job) : bool :=
  (id (target j) =? id t) && Bool.eqb (j_discover j) disc.

Definition enqueue (agent : Z) (t : Target) (tmo : Duration) (disc : bool) (dl : Z) (i : Inner)
  : option Z * Inner :=
  let queued_already := is_some_and (queued i !! agent) (existsb (same t disc)) in
  if queued_already || existsb (same t disc) (snd <$> map_to_list (in_flight i)) then (None, i)
  else
    let id := next_id i + 1 in
    let job := {| j_id := id; agent_id := agent; target := t; timeout := tmo; j_discover := disc;
                  deadline := dl; taken_at := None; reply := Some id |} in
    let i := {| next_id := id;
                queued := <[agent := (queued i !! agent ?? []) ++ [job]]> (queued i);
                in_flight := in_flight i; wakers := wakers i |} in
    (Some id, notify_one agent (waker agent i)).

Section hub.
Context `{Json}.

Definition command (j : Job) (now_ms : Z) : AgentCommand :=
  into_command {| job_target := target j; timeout_secs := Z.max (as_secs (timeout j)) 1;
                  discover := j_discover j |} (j_id j) now_ms.

(** The loop over the jobs taken. *)
Definition fly (taken : Z) (flying : gmap Z Job) (j : Job) : gmap Z Job :=
  <[j_id j := set_taken_at taken j]> flying.

(** The section [take] runs under the lock: an empty list is the need to wait. *)
Definition take_now (agent now_ms taken : Z) (i : Inner) : list AgentCommand * Inner :=
  let jobs := queued i !! agent ?? [] in
  let i := set_queued (delete agent (queued i)) i in
  if bool_decide (jobs = []) then ([], waker agent i)
  else ((fun j => command (set_taken_at taken j) now_ms) <$> jobs,
        set_in_flight (foldl (fly taken) (in_flight i) jobs) i).

(** [waker.notified()] is ready when there is a permit, which it consumes. *)
Definition notified (agent : Z) (i : Inner) : bool := wakers i !! agent ?? false.
Definition consume (agent : Z) (i : Inner) : Inner := set_wakers (<[agent := false]> (wakers i)) i.

Definition complete (agent id : Z) (i : Inner) : option Job * Inner :=
  match in_flight i !! id with
  | Some job => if agent_id job =? agent then (Some job, set_in_flight (delete id (in_flight i)) i)
                else (None, i)
  | None => (None, i)
  end.

Definition late (now : Z) (j : Job) : bool := deadline j <=? now.
Definition kept (now : Z) (queue : list Job) : option (list Job) :=
  let queue := filter (fun j => late now j = false) queue in
  if bool_decide (queue = []) then None else Some queue.

Definition expire (now : Z) (i : Inner) : list Job * Inner :=
  let expired := concat ((fun q => filter (fun j => late now j = true) q.2) <$> map_to_list (queued i)) ++
                 (snd <$> map_to_list (filter (fun p => late now p.2 = true) (in_flight i))) in
  (expired, set_in_flight (filter (fun p => late now p.2 = false) (in_flight i))
              (set_queued (omap (kept now) (queued i)) i)).

Definition pending (agent : Z) (i : Inner) : nat :=
  (length (queued i !! agent ?? []) +
   length (filter (fun j => agent_id j = agent) (snd <$> map_to_list (in_flight i))))%nat.

(** ** Executions *)

Inductive Op :=
| Enqueue (agent : Z) (t : Target) (tmo : Duration) (disc : bool) (dl : Z)
| Look (agent now_ms taken : Z)
| Wake (agent now_ms taken : Z)
| Complete (agent id : Z)
| Expire (now : Z).

Inductive Out :=
| Deposited (channel : option Z)
| Handed (commands : list AgentCommand)
| Closed (job : option Job)
| Late (jobs : list Job).

(** [Look] is the first turn of a [take]; [Wake] the next ones, once notified. *)
Definition step (op : Op) (i : Inner) : Out * Inner :=
  match op with
  | Enqueue agent t tmo disc dl => let '(r, i) := enqueue agent t tmo disc dl i in (Deposited r, i)
  | Look agent now_ms taken => let '(cs, i) := take_now agent now_ms taken i in (Handed cs, i)
  | Wake agent now_ms taken =>
      if notified agent i then
        let '(cs, i) := take_now agent now_ms taken (consume agent i) in (Handed cs, i)
      else (Handed [], i)
  | Complete agent id => let '(j, i) := complete agent id i in (Closed j, i)
  | Expire now => let '(js, i) := expire now i in (Late js, i)
  end.

Fixpoint run (ops : list Op) (i : Inner) : list Out * Inner :=
  match ops with
  | [] => ([], i)
  | op :: ops => let '(o, i) := step op i in let '(os, i) := run ops i in (o :: os, i)
  end.

(** A turn of the loop of [take]: what the others do while it waits, and when it wakes. *)
Record Turn := { meanwhile : list Op; woken_ms : Z; woken_at : Z }.

Fixpoint take_wait (agent until : Z) (now : Z) (turns : list Turn) (i : Inner) : list AgentCommand * Inner :=
  if until - now <=? 0 then ([], i)
  else match turns with
       | [] => ([], i)
       | turn :: turns =>
           let i := (run (meanwhile turn) i).2 in
           if notified agent i then
             let '(cs, i) := take_now agent (woken_ms turn) (woken_at turn) (consume agent i) in
             if bool_decide (cs = []) then take_wait agent until (woken_at turn) turns i else (cs, i)
           else ([], i)
       end.

Definition take (agent : Z) (hold : Duration) (now_ms now : Z) (turns : list Turn) (i : Inner)
  : list AgentCommand * Inner :=
  let '(cs, i) := take_now agent now_ms now i in
  if bool_decide (cs = []) then take_wait agent (now + hold) now turns i else (cs, i).
End hub.

(** ** Verdicts *)

Definition expired_message (j : Job) : string :=
  let secs := display_i64 (as_secs (deadline_for (timeout j))) in
  match taken_at j with
  | Some _ => ("Timed out: relay agent " +:+ display_i64 (agent_id j) +:+
               " did not report the probe within " +:+ secs +:+ "s")%string
  | None => ("Timed out: relay agent " +:+ display_i64 (agent_id j) +:+
             " did not pick up the probe within " +:+ secs +:+ "s (is it running with relay enabled?)")%string
  end.

(** The identity of the target wins over what the agent sent. *)
Definition put_label (labels : gmap string string) (kv : string * string) : gmap string string :=
  <[kv.1 := kv.2]> labels.
Definition stamp (base : gmap string string) (s : Sample) : Sample :=
  with_labels (foldl put_label (labels s) (btree_to_list string_cmp base)) s.
Definition prepare (t : Target) (samples : list Sample) : list Sample :=
  stamp (base_labels t) <$> filter (fun s => f64_is_finite (value s) = true) samples.

(** What is written: batches sent to the series, results of probes by target ([record_probe]),
    profiles, and the answers by channel. *)
Record Store := {
  sink : list (list Sample);
  probes : list (Z * option string);
  profiles : list (Z * string);
  answers : gmap Z JobResult;
}.

Definition Store_new : Store := {| sink := []; probes := []; profiles := []; answers := ∅ |}.

(** A failure of the database is only logged: [saved] says whether it accepts the write. *)
Definition record_probe (saved : bool) (target : Z) (error : option string) (s : Store) : Store :=
  if saved then {| sink := sink s; probes := probes s ++ [(target, error)];
                   profiles := profiles s; answers := answers s |} else s.
Definition set_profile (saved : bool) (target : Z) (profile : string) (s : Store) : Store :=
  if saved then {| sink := sink s; probes := probes s; profiles := profiles s ++ [(target, profile)];
                   answers := answers s |} else s.
Definition send (batch : list Sample) (s : Store) : Store :=
  {| sink := sink s ++ [batch]; probes := probes s; profiles := profiles s; answers := answers s |}.
Definition job_reply (j : Job) (r : JobResult) (s : Store) : Store :=
  match reply j with
  | Some channel => {| sink := sink s; probes := probes s; profiles := profiles s;
                       answers := <[channel := r]> (answers s) |}
  | None => s
  end.

Definition settle (saved : bool) (j : Job) (r : JobResult) (s : Store) : Store :=
  let t := target j in
  let s := match r with
           | JobResult.Done outcome =>
               if j_discover j then
                 match outcome_profile outcome, error outcome with
                 | Some profile, None => set_profile saved (id t) profile s
                 | _, _ => s
                 end
               else
                 let s := match error outcome with
                          | None => send (prepare t (samples outcome)) s
                          | Some _ => s
                          end in
                 record_probe saved (id t) (error outcome) s
           | JobResult.Expired =>
               if j_discover j then s else record_probe saved (id t) (Some (expired_message j)) s
           end in
  job_reply j r s.

Record World := { hub : Inner; store : Store }.
Definition World_new : World := {| hub := RelayHub_new; store := Store_new |}.

(** [POST /api/agent/relay/{id}] for an authenticated agent: [false] is a 404. *)
Definition report (agent id : Z) (outcome : ProbeOutcome) (saved : bool) (w : World) : bool * World :=
  let '(job, i) := complete agent id (hub w) in
  match job with
  | None => (false, {| hub := i; store := store w |})
  | Some job => (true, {| hub := i; store := settle saved job (JobResult.Done outcome) (store w) |})
  end.

(** The overdue probes of a turn of the scheduler. *)
Definition settle_late (saved : bool) (s : Store) (j : Job) : Store := settle saved j JobResult.Expired s.
Definition tick (now : Z) (saved : bool) (w : World) : World :=
  let '(jobs, i) := expire now (hub w) in
  {| hub := i; store := foldl (settle_late saved) (store w) jobs |}.

(** What happens to the server: a deposit or a poll, a report, a turn of the scheduler. *)
Inductive Event :=
| Deposit (agent : Z) (t : Target) (tmo : Duration) (disc : bool) (dl : Z)
| Poll (woken : bool) (agent now_ms taken : Z)
| Report (agent id : Z) (outcome : ProbeOutcome) (saved : bool)
| Tick (now : Z) (saved : bool).

Definition happen `{Json} (e : Event) (w : World) : World :=
  match e with
  | Deposit agent t tmo disc dl => {| hub := (enqueue agent t tmo disc dl (hub w)).2; store := store w |}
  | Poll woken agent now_ms taken =>
      {| hub := (step (if woken then Wake agent now_ms taken else Look agent now_ms taken) (hub w)).2;
         store := store w |}
  | Report agent id outcome saved => (report agent id outcome saved w).2
  | Tick now saved => tick now saved w
  end.

Definition history `{Json} (es : list Event) (w : World) : World := foldl (fun w e => happen e w) w es.

(** ** What the hub promises: a ledger of tickets

    One flat table: a ticket per probe not yet closed, with its agent, its device and whether it has
    been handed over.  Neither queues nor their order appear. *)
Module Ledger.
Record Ticket := { t_agent : Z; t_device : Z; t_discover : bool; t_deadline : Z; t_taken : bool }.

#[global] Instance Ticket_eq_dec : EqDecision Ticket.
Proof. solve_decision. Defined.

Record Ledger := { last : Z; open : gmap Z Ticket }.

Definition new : Ledger := {| last := 0; open := ∅ |}.

(** What an operation answers: the number of a probe, the numbers handed over or given up in
    increasing order. *)
Inductive Answer :=
| Number (id : option Z)
| Hand (ids : list Z)
| Close (id : option Z)
| Drop (ids : list Z).

(** Another probe of the same nature of the same device is in the way when an agent holds it or
    when it waits for this very agent. *)
Definition blocks (agent device : Z) (disc : bool) (t : Ticket) : bool :=
  (t_device t =? device) && Bool.eqb (t_discover t) disc && (t_taken t || (t_agent t =? agent)).
Definition waits_for (agent : Z) (t : Ticket) : bool := (t_agent t =? agent) && negb (t_taken t).
Definition hand_over (agent : Z) (t : Ticket) : Ticket :=
  if t_agent t =? agent then
    {| t_agent := t_agent t; t_device := t_device t; t_discover := t_discover t;
       t_deadline := t_deadline t; t_taken := true |}
  else t.
Definition late (now : Z) (t : Ticket) : bool := t_deadline t <=? now.

(** The numbers of the tickets that satisfy a test. *)
Definition numbers (p : Ticket -> bool) (l : gmap Z Ticket) : list Z :=
  sort_by Z.compare (elements (dom (filter (fun e => p e.2 = true) l))).

Definition enqueue (agent device : Z) (disc : bool) (dl : Z) (l : Ledger) : Answer * Ledger :=
  if bool_decide (numbers (blocks agent device disc) (open l) = []) then
    (Number (Some (last l + 1)),
     {| last := last l + 1;
        open := <[last l + 1 := {| t_agent := agent; t_device := device; t_discover := disc;
                                   t_deadline := dl; t_taken := false |}]> (open l) |})
  else (Number None, l).

Definition take (agent : Z) (l : Ledger) : Answer * Ledger :=
  (Hand (numbers (waits_for agent) (open l)),
   {| last := last l; open := hand_over agent <$> open l |}).

Definition complete (agent id : Z) (l : Ledger) : Answer * Ledger :=
  match open l !! id with
  | Some t => if (t_agent t =? agent) && t_taken t
              then (Close (Some id), {| last := last l; open := delete id (open l) |})
              else (Close None, l)
  | None => (Close None, l)
  end.

Definition expire (now : Z) (l : Ledger) : Answer * Ledger :=
  (Drop (numbers (late now) (open l)),
   {| last := last l; open := filter (fun e => late now e.2 = false) (open l) |}).

(** A poll takes what waits whether it has just arrived or was waiting: no probe waits for a
    parked poll that nobody woke. *)
Definition step (op : Op) (l : Ledger) : Answer * Ledger :=
  match op with
  | Enqueue agent t _ disc dl => enqueue agent (id t) disc dl l
  | Look agent _ _ | Wake agent _ _ => take agent l
  | Complete agent id => complete agent id l
  | Expire now => expire now l
  end.

Fixpoint run (ops : list Op) (l : Ledger) : list Answer * Ledger :=
  match ops with
  | [] => ([], l)
  | op :: ops => let '(a, l) := step op l in let '(rest, l) := run ops l in (a :: rest, l)
  end.
End Ledger.
Import Ledger (Ticket, t_agent, t_device, t_discover, t_deadline, t_taken).

Definition ticket (j : Job) : Ticket :=
  {| t_agent := agent_id j; t_device := id (target j); t_discover := j_discover j;
     t_deadline := deadline j; t_taken := bool_decide (is_Some (taken_at j)) |}.

(** Every job of the hub, and the ledger they make. *)
Definition contents {A} (m : gmap Z (list A)) : list A := concat (snd <$> map_to_list m).
Definition waiting (i : Inner) : list Job := contents (queued i).
Definition flying (i : Inner) : list Job := snd <$> map_to_list (in_flight i).
Definition jobs (i : Inner) : list Job := waiting i ++ flying i.

Definition tickets (js : list Job) : gmap Z Ticket := list_to_map ((fun j => (j_id j, ticket j)) <$> js).

Definition ledger_of (i : Inner) : Ledger.Ledger :=
  {| Ledger.last := next_id i; Ledger.open := tickets (jobs i) |}.

Definition answer_of `{Json} (o : Out) : Ledger.Answer :=
  match o with
  | Deposited channel => Ledger.Number channel
  | Handed commands => Ledger.Hand (cmd_id <$> commands)
  | Closed job => Ledger.Close (j_id <$> job)
  | Late jobs => Ledger.Drop (sort_by Z.compare (j_id <$> jobs))
  end.

(** ** Facts: maps of lists *)

Section concat_map.
Context {A : Type}.
Implicit Types m : gmap Z (list A).

Lemma elem_of_contents m x : x ∈ contents m <-> exists k l, m !! k = Some l /\ x ∈ l.
Proof.
  unfold contents. rewrite elem_of_concat. setoid_rewrite list_elem_of_fmap. split.
  - intros (l & ([k l'] & -> & Hk) & Hx). apply elem_of_map_to_list in Hk. eauto.
  - intros (k & l & Hk & Hx). exists l. split; [|done]. exists (k, l). by rewrite elem_of_map_to_list.
Qed.

Lemma contents_insert m k l : m !! k = None -> contents (<[k := l]> m) ≡ₚ l ++ contents m.
Proof. intros Hk. unfold contents. by rewrite map_to_list_insert. Qed.

Lemma contents_take m k : contents m ≡ₚ (m !! k ?? []) ++ contents (delete k m).
Proof.
  destruct (m !! k) as [l|] eqn:E; simpl; [|by rewrite delete_id].
  rewrite <-(insert_delete_id m k l) at 1 by done. rewrite contents_insert by apply lookup_delete_eq. done.
Qed.

Lemma contents_replace m k l : contents (<[k := l]> m) ≡ₚ l ++ contents (delete k m).
Proof.
  rewrite (contents_take _ k), lookup_insert_eq. simpl. by rewrite delete_insert_eq.
Qed.
End concat_map.

Lemma values_insert {A} (m : gmap Z A) k x :
  m !! k = None -> snd <$> map_to_list (<[k := x]> m) ≡ₚ x :: (snd <$> map_to_list m).
Proof. intros Hk. by rewrite map_to_list_insert. Qed.

Lemma values_take {A} (m : gmap Z A) k x :
  m !! k = Some x -> snd <$> map_to_list m ≡ₚ x :: (snd <$> map_to_list (delete k m)).
Proof.
  intros Hk. rewrite <-(insert_delete_id m k x) at 1 by done.
  by rewrite values_insert by apply lookup_delete_eq.
Qed.

Lemma elem_of_values {A} (m : gmap Z A) x :
  x ∈ snd <$> map_to_list m <-> exists k, m !! k = Some x.
Proof.
  rewrite list_elem_of_fmap. split.
  - intros ([k y] & -> & Hk). apply elem_of_map_to_list in Hk. eauto.
  - intros [k Hk]. exists (k, x). by rewrite elem_of_map_to_list.
Qed.

(** ** Facts: tickets *)

Lemma tickets_keys js : ((fun j => (j_id j, ticket j)) <$> js).*1 = j_id <$> js.
Proof. rewrite <-list_fmap_compose. by apply list_fmap_ext. Qed.

Lemma tickets_lookup js k t :
  NoDup (j_id <$> js) -> tickets js !! k = Some t <-> exists j, j ∈ js /\ j_id j = k /\ ticket j = t.
Proof.
  intros Hd. unfold tickets. rewrite <-elem_of_list_to_map by (rewrite tickets_keys; done).
  rewrite list_elem_of_fmap. naive_solver.
Qed.

Lemma tickets_cons j js : tickets (j :: js) = <[j_id j := ticket j]> (tickets js).
Proof. done. Qed.

Lemma tickets_perm js js' : NoDup (j_id <$> js) -> js ≡ₚ js' -> tickets js = tickets js'.
Proof. intros Hd Hp. apply list_to_map_proper; [by rewrite tickets_keys|by rewrite Hp]. Qed.

Lemma tickets_fresh js k : k ∉ j_id <$> js -> tickets js !! k = None.
Proof. intros Hk. apply not_elem_of_list_to_map. by rewrite tickets_keys. Qed.

Lemma tickets_map (f : Job -> Job) (g : Ticket -> Ticket) js :
  (forall j, j ∈ js -> j_id (f j) = j_id j /\ ticket (f j) = g (ticket j)) ->
  tickets (f <$> js) = g <$> tickets js.
Proof.
  unfold tickets. induction js as [|j js IH]; intros Hf; [symmetry; apply (fmap_empty g)|].
  rewrite !fmap_cons, !list_to_map_cons, fmap_insert.
  destruct (Hf j) as [-> ->]; [by left|]. rewrite IH; [done|]. intros k Hk. apply Hf. by right.
Qed.

Lemma numbers_tickets p js :
  NoDup (j_id <$> js) ->
  Ledger.numbers p (tickets js) = sort_by Z.compare (j_id <$> filter (fun j => p (ticket j) = true) js).
Proof.
  intros Hd. unfold Ledger.numbers.
  assert (NoDup (j_id <$> filter (fun j => p (ticket j) = true) js)) as Hf.
  { eapply sublist_NoDup; [done|apply fmap_sublist, sublist_filter]. }
  apply (sorted_perm_unique Z.compare); [|apply sort_by_sorted, _..|].
  { intros x y _ _. apply Z.compare_eq. }
  rewrite !sort_by_perm. apply NoDup_Permutation; [apply NoDup_elements|done|].
  intros k. rewrite elem_of_elements, elem_of_dom. unfold is_Some.
  setoid_rewrite map_lookup_filter_Some. setoid_rewrite (tickets_lookup _ _ _ Hd).
  rewrite list_elem_of_fmap. setoid_rewrite list_elem_of_filter. naive_solver.
Qed.

Lemma numbers_nil p js :
  NoDup (j_id <$> js) ->
  Ledger.numbers p (tickets js) = [] <-> existsb (fun j => p (ticket j)) js = false.
Proof.
  intros Hd. rewrite numbers_tickets by done.
  assert (forall l, sort_by Z.compare l = [] <-> l = []) as Hs.
  { intros l. rewrite <-!length_zero_iff_nil. by rewrite length_sort_by. }
  assert (forall l : list Job, j_id <$> l = [] <-> l = []) as Hm.
  { intros l. split; [apply fmap_nil_inv|by intros ->]. }
  rewrite Hs, Hm, <-not_true_iff_false, existsb_elem. split.
  - intros Hn (j & Hj & Hp). apply (not_elem_of_nil j). rewrite <-Hn. by apply list_elem_of_filter.
  - intros Hn. apply filter_none. eauto.
Qed.

(** ** Facts: well-formed hubs *)

Record wf (i : Inner) : Prop := {
  wf_queue : forall a q j, queued i !! a = Some q -> j ∈ q -> agent_id j = a /\ taken_at j = None;
  wf_flight : forall k j, in_flight i !! k = Some j -> j_id j = k /\ is_Some (taken_at j);
  wf_sorted : forall a q, queued i !! a = Some q -> StronglySorted (le_by Z.compare) (j_id <$> q);
  wf_ids : NoDup (j_id <$> jobs i);
  wf_next : 0 <= next_id i;
  wf_bound : forall j, j ∈ jobs i -> 0 < j_id j <= next_id i;
  wf_reply : forall j, j ∈ jobs i -> reply j = Some (j_id j);
  wf_wakers : forall a, is_Some (queued i !! a) -> wakers i !! a = Some true;
}.

Lemma wf_hub_new : wf RelayHub_new.
Proof.
  assert (jobs RelayHub_new = []) as E by done.
  split; rewrite ?E; simpl; [done|done|done|constructor|done|set_solver|set_solver|by intros a [q Hq]].
Qed.

Lemma elem_of_jobs i j :
  j ∈ jobs i <-> (exists a q, queued i !! a = Some q /\ j ∈ q) \/ exists k, in_flight i !! k = Some j.
Proof. unfold jobs, waiting, flying. by rewrite elem_of_app, elem_of_contents, elem_of_values. Qed.

(** The jobs are those of one agent's queue, those of the others and those in flight. *)
Definition others (a : Z) (i : Inner) : list Job := contents (delete a (queued i)) ++ flying i.

Lemma jobs_split i a : jobs i ≡ₚ (queued i !! a ?? []) ++ others a i.
Proof. unfold jobs, others, waiting. rewrite app_assoc. by rewrite <-(contents_take (queued i) a). Qed.

Lemma others_not_waiting i a j :
  wf i -> j ∈ others a i -> agent_id j <> a \/ is_Some (taken_at j).
Proof.
  intros Hw [(k & q & Hq & Hj)%elem_of_contents|[k Hk]%elem_of_values]%elem_of_app.
  - apply lookup_delete_Some in Hq as [Hne Hq]. left. intros Ha.
    destruct (wf_queue _ Hw _ _ _ Hq Hj) as [Hk _]. congruence.
  - right. by destruct (wf_flight _ Hw _ _ Hk).
Qed.

Lemma queue_not_in_flight i a q j :
  wf i -> queued i !! a = Some q -> j ∈ q -> in_flight i !! j_id j = None.
Proof.
  intros Hw Hq Hj. destruct (in_flight i !! j_id j) as [j'|] eqn:E; [|done]. exfalso.
  pose proof (wf_ids _ Hw) as Hd. unfold jobs in Hd. rewrite fmap_app, NoDup_app in Hd.
  destruct Hd as (_ & Hd & _). apply (Hd (j_id j)).
  - apply list_elem_of_fmap. exists j. split; [done|]. apply elem_of_contents. eauto.
  - apply list_elem_of_fmap. exists j'. split.
    + by destruct (wf_flight _ Hw _ _ E) as [<- _].
    + apply elem_of_values. eauto.
Qed.

Lemma fly_lookup taken q f k j :
  foldl (fly taken) f q !! k = Some j ->
  f !! k = Some j \/ exists j0, j0 ∈ q /\ j = set_taken_at taken j0 /\ k = j_id j0.
Proof.
  revert f. induction q as [|j0 q IH]; intros f; simpl; [by left|].
  intros [Hf|(j1 & ? & ? & ?)]%IH; [|right; exists j1; set_solver].
  unfold fly in Hf. apply lookup_insert_Some in Hf as [[<- <-]|[_ Hf]]; [|by left].
  right. exists j0. set_solver.
Qed.

Lemma fly_values taken q f :
  NoDup (j_id <$> q) -> (forall j, j ∈ q -> f !! j_id j = None) ->
  snd <$> map_to_list (foldl (fly taken) f q) ≡ₚ (set_taken_at taken <$> q) ++ (snd <$> map_to_list f).
Proof.
  revert f. induction q as [|j q IH]; intros f Hd Hf; [done|].
  rewrite fmap_cons, NoDup_cons in Hd. destruct Hd as [Hj Hd]. simpl.
  rewrite IH; [|done|].
  - unfold fly. rewrite values_insert by (apply Hf; by left). by rewrite Permutation_middle.
  - intros j' Hj'. unfold fly. rewrite lookup_insert_ne.
    + apply Hf. by right.
    + intros E. apply Hj. rewrite E. by apply list_elem_of_fmap_2.
Qed.

Lemma contents_kept now m :
  contents (omap (kept now) m) ≡ₚ filter (fun j => late now j = false) (contents m).
Proof.
  induction m as [|k q m Hk IH] using map_ind.
  { rewrite omap_empty. done. }
  rewrite omap_insert, contents_insert, filter_app by done. unfold kept at 1. case_bool_decide as E.
  - rewrite E, delete_id by (by rewrite lookup_omap, Hk). done.
  - rewrite contents_insert by (by rewrite lookup_omap, Hk). by rewrite IH.
Qed.

Lemma values_filter {A} (p : A -> bool) (b : bool) (m : gmap Z A) :
  snd <$> map_to_list (filter (fun e => p e.2 = b) m) ≡ₚ filter (fun x => p x = b) (snd <$> map_to_list m).
Proof.
  induction m as [|k x m Hk IH] using map_ind; [by rewrite map_filter_empty|].
  rewrite (map_to_list_insert m) by done. rewrite fmap_cons, filter_cons. simpl. case_decide as Hp.
  - rewrite map_filter_insert_True by done.
    rewrite values_insert by (by apply map_lookup_filter_None; left). by rewrite IH.
  - rewrite map_filter_insert_False by done. by rewrite delete_id.
Qed.

Lemma sorted_ids_filter (p : Job -> bool) (b : bool) q :
  StronglySorted (le_by Z.compare) (j_id <$> q) ->
  StronglySorted (le_by Z.compare) (j_id <$> filter (fun j => p j = b) q).
Proof.
  induction q as [|j q IH]; [done|]. rewrite fmap_cons, StronglySorted_cons, Forall_forall. intros [Hj Hq].
  rewrite filter_cons. case_decide; [|by apply IH]. rewrite fmap_cons, StronglySorted_cons, Forall_forall.
  split; [|by apply IH]. intros k (j' & -> & [_ Hj']%list_elem_of_filter)%list_elem_of_fmap.
  by apply Hj, list_elem_of_fmap_2.
Qed.

Lemma late_contents now m :
  concat ((fun q : Z * list Job => filter (fun j => late now j = true) q.2) <$> map_to_list m) =
  filter (fun j => late now j = true) (contents m).
Proof.
  unfold contents. induction (map_to_list m) as [|[k q] l IH]; [done|].
  rewrite !fmap_cons. cbn [concat]. by rewrite filter_app, IH.
Qed.

(** ** Facts: each operation keeps the hub well formed and follows the ledger *)

Section operations.
Context `{Json}.

Lemma others_in_jobs a i j : j ∈ others a i -> j ∈ jobs i.
Proof. intros Hj. rewrite (jobs_split i a). apply elem_of_app. by right. Qed.

Lemma blocked agent t disc i :
  wf i ->
  is_some_and (queued i !! agent) (existsb (same t disc)) || existsb (same t disc) (flying i) =
  existsb (fun j => Ledger.blocks agent (id t) disc (ticket j)) (jobs i).
Proof.
  intros Hw. apply eq_iff_eq_true. rewrite orb_true_iff, !existsb_elem.
  assert (forall j, same t disc j = (id (target j) =? id t) && Bool.eqb (j_discover j) disc) as Hs by done.
  unfold Ledger.blocks. split.
  - intros [Hq|(j & Hj & Hb)].
    + destruct (queued i !! agent) as [q|] eqn:E; [|done]. apply existsb_elem in Hq as (j & Hj & Hb).
      exists j. destruct (wf_queue _ Hw _ _ _ E Hj) as [<- _]. rewrite Hs in Hb.
      split; [apply elem_of_jobs; eauto 6|]. simpl. by rewrite Hb, Z.eqb_refl, orb_true_r.
    + exists j. rewrite Hs in Hb. split; [apply elem_of_app; by right|].
      apply elem_of_values in Hj as [k Hk]. destruct (wf_flight _ Hw _ _ Hk) as [_ Ht]. simpl.
      by rewrite Hb, bool_decide_true.
  - intros (j & [(a & q & Hq & Hj)|[k Hk]]%elem_of_jobs & [Hb Ho]%andb_true_iff); simpl in *.
    + left. destruct (wf_queue _ Hw _ _ _ Hq Hj) as [Ha Ht]. rewrite Ht, bool_decide_false in Ho by (by intros []).
      apply Z.eqb_eq in Ho. subst. rewrite Hq. apply existsb_elem. exists j. by rewrite Hs.
    + right. exists j. rewrite Hs. split; [apply elem_of_values; eauto|done].
Qed.

(** A deposit, whatever becomes of the permits but that the agent has one. *)
Lemma deposit_jobs job i i' :
  queued i' = <[agent_id job := (queued i !! agent_id job ?? []) ++ [job]]> (queued i) ->
  in_flight i' = in_flight i -> jobs i' ≡ₚ job :: jobs i.
Proof.
  intros Hq Hf. unfold jobs at 1, waiting. rewrite Hq, contents_replace, (jobs_split i (agent_id job)).
  unfold others, flying. rewrite Hf. by rewrite <-!app_assoc, Permutation_middle.
Qed.

Lemma deposit_wf job i i' :
  wf i -> taken_at job = None -> j_id job = next_id i + 1 -> reply job = Some (j_id job) ->
  queued i' = <[agent_id job := (queued i !! agent_id job ?? []) ++ [job]]> (queued i) ->
  in_flight i' = in_flight i -> next_id i' = next_id i + 1 ->
  (forall a, wakers i' !! a = if decide (a = agent_id job) then Some true else wakers i !! a) ->
  wf i'.
Proof.
  intros Hw Ht Hid Hr Hq Hf Hn Hk. pose proof (deposit_jobs job i i' Hq Hf) as Hj.
  assert (forall j, j ∈ jobs i' -> j = job \/ j ∈ jobs i) as Hin by (intros j; by rewrite Hj, elem_of_cons).
  assert (forall j, j ∈ queued i !! agent_id job ?? [] -> j ∈ jobs i) as Hold.
  { intros j Hold. rewrite (jobs_split i (agent_id job)). apply elem_of_app. by left. }
  pose proof (wf_next _ Hw) as H0. split; rewrite ?Hn, ?Hf.
  - intros a q j. rewrite Hq. intros [[<- <-]|[_ Hl]]%lookup_insert_Some; [|by apply (wf_queue _ Hw)].
    intros [Ho | ->%list_elem_of_singleton]%elem_of_app; [|done].
    destruct (queued i !! agent_id job) eqn:E; [by apply (wf_queue _ Hw _ _ _ E)|by apply elem_of_nil in Ho].
  - apply (wf_flight _ Hw).
  - intros a q. rewrite Hq. intros [[<- <-]|[_ Hl]]%lookup_insert_Some; [|by apply (wf_sorted _ Hw a)].
    rewrite fmap_app. apply StronglySorted_app_2; [| |repeat constructor].
    + intros x y (j & -> & Hj1)%list_elem_of_fmap ->%list_elem_of_singleton. unfold le_by. rewrite Hid.
      apply Hold, (wf_bound _ Hw) in Hj1. apply Z.compare_le_iff. lia.
    + destruct (queued i !! agent_id job) eqn:E; [by apply (wf_sorted _ Hw (agent_id job))|constructor].
  - rewrite Hj, fmap_cons. constructor; [|apply Hw].
    intros (j & Ej & Hj1)%list_elem_of_fmap. apply (wf_bound _ Hw) in Hj1. lia.
  - lia.
  - intros j [-> | Hj1]%Hin; [lia|]. apply (wf_bound _ Hw) in Hj1. lia.
  - intros j [-> | Hj1]%Hin; [done|by apply (wf_reply _ Hw)].
  - intros a. rewrite Hq, Hk. case_decide as E; [done|]. rewrite lookup_insert_ne by done. apply Hw.
Qed.

Lemma enqueue_ok agent t tmo disc dl i :
  wf i ->
  let '(r, i') := enqueue agent t tmo disc dl i in
  wf i' /\ Ledger.enqueue agent (id t) disc dl (ledger_of i) = (Ledger.Number r, ledger_of i').
Proof.
  intros Hw. unfold enqueue, Ledger.enqueue. fold (flying i). rewrite blocked by done.
  cbn [ledger_of Ledger.open Ledger.last].
  destruct (existsb _ (jobs i)) eqn:E.
  { rewrite bool_decide_false; [done|]. rewrite numbers_nil by apply Hw. congruence. }
  rewrite bool_decide_true by (by apply numbers_nil; [apply Hw|]). clear E.
  match goal with |- context [[?j]] => set (job := j) end.
  match goal with |- context [waker agent ?j] => set (i0 := j) end.
  set (i' := notify_one agent (waker agent i0)).
  assert (queued i' = queued i0 /\ in_flight i' = in_flight i0 /\ next_id i' = next_id i0 /\
          forall a, wakers i' !! a = if decide (a = agent) then Some true else wakers i !! a)
    as (Hq & Hf & Hn & Hk).
  { unfold i', notify_one, waker. split_and!; [by destruct (wakers i0 !! agent)..|]. intros a.
    destruct (wakers i0 !! agent); simpl; case_decide; subst; by rewrite ?lookup_insert_eq, ?lookup_insert_ne. }
  assert (wf i') as Hw' by by apply (deposit_wf job i i').
  split; [done|]. unfold ledger_of. rewrite Hn. do 2 f_equal.
  rewrite (tickets_perm (jobs i') (job :: jobs i)); [done|apply Hw'|by apply deposit_jobs].
Qed.

(** Everything that waits for an agent leaves, whatever becomes of the agent's own permit. *)
Definition queue_of (agent : Z) (i : Inner) : list Job := queued i !! agent ?? [].

Lemma take_jobs agent taken i i' :
  wf i -> queued i' = delete agent (queued i) ->
  in_flight i' = foldl (fly taken) (in_flight i) (queue_of agent i) ->
  jobs i' ≡ₚ (set_taken_at taken <$> queue_of agent i) ++ others agent i.
Proof.
  intros Hw Hq Hf. unfold jobs, waiting, flying, others. rewrite Hq, Hf, fly_values.
  - by rewrite !app_assoc, (Permutation_app_comm (contents _)).
  - pose proof (wf_ids _ Hw) as Hd. rewrite (jobs_split i agent), fmap_app, NoDup_app in Hd. apply Hd.
  - intros j. unfold queue_of. destruct (queued i !! agent) as [q|] eqn:E; [|by intros ?%elem_of_nil].
    by apply (queue_not_in_flight i agent).
Qed.

Lemma take_ids agent taken i i' :
  wf i -> queued i' = delete agent (queued i) ->
  in_flight i' = foldl (fly taken) (in_flight i) (queue_of agent i) ->
  j_id <$> jobs i' ≡ₚ j_id <$> jobs i.
Proof.
  intros Hw Hq Hf. rewrite (take_jobs _ _ _ _ Hw Hq Hf), (jobs_split i agent), !fmap_app, <-list_fmap_compose.
  done.
Qed.

Lemma take_wf agent taken i i' :
  wf i -> queued i' = delete agent (queued i) ->
  in_flight i' = foldl (fly taken) (in_flight i) (queue_of agent i) ->
  next_id i' = next_id i -> (forall a, a <> agent -> wakers i' !! a = wakers i !! a) -> wf i'.
Proof.
  intros Hw Hq Hf Hn Hk.
  assert (forall j, j ∈ jobs i' -> exists j0, j0 ∈ jobs i /\ j_id j = j_id j0 /\ reply j = reply j0) as Hin.
  { intros j. rewrite (take_jobs _ _ _ _ Hw Hq Hf), elem_of_app, list_elem_of_fmap.
    intros [(j0 & -> & Hj)|Hj]; [exists j0|exists j]; (split; [|done]).
    - rewrite (jobs_split i agent). apply elem_of_app. by left.
    - by apply others_in_jobs in Hj. }
  split.
  - intros a q j. rewrite Hq. intros [_ Hl]%lookup_delete_Some. by apply (wf_queue _ Hw).
  - intros k j. rewrite Hf. intros [Hl|(j0 & _ & -> & ->)]%fly_lookup; [by apply (wf_flight _ Hw)|].
    split; [done|by eexists].
  - intros a q. rewrite Hq. intros [_ Hl]%lookup_delete_Some. by apply (wf_sorted _ Hw a).
  - rewrite (take_ids _ _ _ _ Hw Hq Hf). apply Hw.
  - rewrite Hn. apply Hw.
  - intros j (j0 & Hj & -> & _)%Hin. rewrite Hn. by apply Hw.
  - intros j (j0 & Hj & -> & ->)%Hin. by apply Hw.
  - intros a. rewrite Hq. intros [q [Hne Hl]%lookup_delete_Some].
    rewrite Hk by congruence. apply Hw. eauto.
Qed.

Lemma queue_waits agent i j :
  wf i -> j ∈ queue_of agent i -> agent_id j = agent /\ taken_at j = None.
Proof.
  intros Hw. unfold queue_of. destruct (queued i !! agent) as [q|] eqn:E; [|by intros ?%elem_of_nil].
  by apply (wf_queue _ Hw).
Qed.

Lemma sort_by_sorted_id (l : list Z) : StronglySorted (le_by Z.compare) l -> sort_by Z.compare l = l.
Proof.
  intros Hl. apply (sorted_perm_unique Z.compare); [|apply sort_by_sorted, _|done|apply sort_by_perm].
  intros x y _ _. apply Z.compare_eq.
Qed.

Lemma take_hands agent i :
  wf i -> Ledger.numbers (Ledger.waits_for agent) (tickets (jobs i)) = j_id <$> queue_of agent i.
Proof.
  intros Hw. pose proof (wf_ids _ Hw) as Hd.
  rewrite (tickets_perm _ _ Hd (jobs_split i agent)), numbers_tickets by (by rewrite <-jobs_split).
  fold (queue_of agent i). rewrite filter_app, filter_all, filter_none, app_nil_r.
  - apply sort_by_sorted_id. unfold queue_of.
    destruct (queued i !! agent) eqn:E; [by apply (wf_sorted _ Hw agent)|constructor].
  - intros j Hj. unfold Ledger.waits_for. simpl. intros [Ha Ht]%andb_true_iff. apply Z.eqb_eq in Ha.
    apply negb_true_iff, bool_decide_eq_false in Ht. by destruct (others_not_waiting i agent j).
  - intros j [Ha Ht]%queue_waits; [|done]. unfold Ledger.waits_for. simpl.
    by rewrite Ha, Ht, Z.eqb_refl, bool_decide_false by (by intros []).
Qed.

Lemma take_tickets agent taken i i' :
  wf i -> queued i' = delete agent (queued i) ->
  in_flight i' = foldl (fly taken) (in_flight i) (queue_of agent i) ->
  tickets (jobs i') = Ledger.hand_over agent <$> tickets (jobs i).
Proof.
  intros Hw Hq Hf. pose proof (wf_ids _ Hw) as Hd.
  assert (NoDup (j_id <$> jobs i')) as Hd' by (by rewrite (take_ids _ _ _ _ Hw Hq Hf)).
  rewrite (tickets_perm _ _ Hd' (take_jobs _ _ _ _ Hw Hq Hf)), (tickets_perm _ _ Hd (jobs_split i agent)).
  fold (queue_of agent i).
  set (f j := if decide (agent_id j = agent /\ taken_at j = None) then set_taken_at taken j else j).
  assert ((set_taken_at taken <$> queue_of agent i) ++ others agent i = f <$> (queue_of agent i ++ others agent i))
    as ->.
  { rewrite fmap_app. f_equal.
    - apply list_fmap_ext. intros k j Hj%list_elem_of_lookup_2. unfold f. rewrite decide_True; [done|].
      by apply (queue_waits _ i).
    - symmetry. rewrite <-(list_fmap_id (others agent i)) at 2. apply list_fmap_ext.
      intros k j Hj%list_elem_of_lookup_2. unfold f. rewrite decide_False; [done|]. intros [Ha Ht].
      destruct (others_not_waiting i agent j Hw Hj) as [|[]]; congruence. }
  apply tickets_map. intros j _. unfold f, Ledger.hand_over. simpl. case_decide as E.
  - by rewrite (proj2 (Z.eqb_eq _ _) (proj1 E)).
  - split; [done|]. destruct (agent_id j =? agent) eqn:Ea; [|done]. apply Z.eqb_eq in Ea.
    unfold ticket. destruct (taken_at j) eqn:Et; [by rewrite bool_decide_true|].
    by destruct E.
Qed.

Definition same_jobs (i0 i : Inner) : Prop :=
  queued i0 = queued i /\ in_flight i0 = in_flight i /\ next_id i0 = next_id i.

Lemma take_now_ok agent now_ms taken i0 i :
  wf i -> same_jobs i0 i -> (forall a, a <> agent -> wakers i0 !! a = wakers i !! a) ->
  let '(cs, i') := take_now agent now_ms taken i0 in
  wf i' /\ Ledger.take agent (ledger_of i) = (Ledger.Hand (cmd_id <$> cs), ledger_of i').
Proof.
  intros Hw (Hq & Hf & Hn) Hk. unfold take_now. cbv zeta. rewrite Hq. fold (queue_of agent i).
  set (i1 := set_queued (delete agent (queued i)) i0). change (in_flight i1) with (in_flight i0). rewrite Hf.
  assert (forall i', queued i' = delete agent (queued i) ->
    in_flight i' = foldl (fly taken) (in_flight i) (queue_of agent i) -> next_id i' = next_id i ->
    (forall a, a <> agent -> wakers i' !! a = wakers i !! a) ->
    wf i' /\ Ledger.take agent (ledger_of i) = (Ledger.Hand (j_id <$> queue_of agent i), ledger_of i')) as Hall.
  { intros i' Hq' Hf' Hn' Hk'. split; [by apply (take_wf agent taken i)|].
    unfold Ledger.take, ledger_of. cbn [Ledger.open Ledger.last].
    by rewrite take_hands, Hn', (take_tickets agent taken i i') by done. }
  case_bool_decide as E.
  - destruct (Hall (waker agent i1)) as [? Hl].
    + unfold waker. by destruct (wakers i1 !! agent).
    + rewrite E. unfold waker. by destruct (wakers i1 !! agent).
    + unfold waker. by destruct (wakers i1 !! agent).
    + intros a Ha. unfold waker. destruct (wakers i1 !! agent); simpl; [by apply Hk|].
      rewrite lookup_insert_ne by done. by apply Hk.
    + split; [done|]. by rewrite Hl, E.
  - destruct (Hall (set_in_flight (foldl (fly taken) (in_flight i) (queue_of agent i)) i1)) as [? ->]; [done..|].
    split; [done|]. by rewrite <-list_fmap_compose.
Qed.

Lemma wake_nothing agent i :
  wf i -> notified agent i = false -> Ledger.take agent (ledger_of i) = (Ledger.Hand [], ledger_of i).
Proof.
  intros Hw Hn. assert (queue_of agent i = []) as Hq.
  { unfold queue_of. destruct (queued i !! agent) eqn:E; [|done]. unfold notified in Hn.
    by rewrite (wf_wakers _ Hw) in Hn by eauto. }
  unfold Ledger.take, ledger_of. cbn [Ledger.open Ledger.last]. rewrite take_hands, Hq by done. do 2 f_equal.
  assert (queued i !! agent = Some [] \/ queued i !! agent = None) as Hl.
  { unfold queue_of in Hq. destruct (queued i !! agent); simpl in Hq; subst; eauto. }
  apply map_eq. intros k. rewrite lookup_fmap. destruct (tickets (jobs i) !! k) as [t|] eqn:E; [|done].
  simpl. f_equal. apply tickets_lookup in E as (j & Hj & _ & <-); [|apply Hw].
  rewrite (jobs_split i agent) in Hj. fold (queue_of agent i) in Hj. rewrite Hq in Hj.
  apply others_not_waiting in Hj as [Hj|Hj]; [| |done]; unfold Ledger.hand_over; simpl.
  - by rewrite (proj2 (Z.eqb_neq _ _) Hj).
  - destruct (_ =? _); [|done]. unfold ticket. by rewrite bool_decide_true.
Qed.

Lemma complete_ok agent k i :
  wf i ->
  let '(j, i') := complete agent k i in
  wf i' /\ Ledger.complete agent k (ledger_of i) = (Ledger.Close (j_id <$> j), ledger_of i').
Proof.
  intros Hw. unfold complete, Ledger.complete. cbn [ledger_of Ledger.open Ledger.last].
  destruct (in_flight i !! k) as [job|] eqn:E.
  - destruct (wf_flight _ Hw _ _ E) as [Hk Ht].
    assert (tickets (jobs i) !! k = Some (ticket job)) as ->.
    { apply tickets_lookup; [apply Hw|]. exists job. split; [|done]. apply elem_of_jobs. eauto. }
    simpl. rewrite (bool_decide_true (is_Some _)) by done. rewrite andb_true_r.
    destruct (agent_id job =? agent); [|done].
    set (i' := set_in_flight (delete k (in_flight i)) i).
    assert (jobs i ≡ₚ job :: jobs i') as Hp.
    { unfold jobs at 1, flying. rewrite (values_take _ _ _ E). symmetry. apply Permutation_middle. }
    assert (forall j, j ∈ jobs i' -> j ∈ jobs i) as Hin by (intros j Hj; rewrite Hp; by right).
    pose proof (wf_ids _ Hw) as Hd. pose proof Hd as Hd'. rewrite Hp, fmap_cons, NoDup_cons in Hd'.
    destruct Hd' as [Hfresh Hd']. split.
    + split; [apply Hw| |apply Hw|done|apply Hw| | |apply Hw].
      * simpl. intros k' j [_ Hl]%lookup_delete_Some. by apply (wf_flight _ Hw).
      * intros j Hj%Hin. by apply (wf_bound _ Hw).
      * intros j Hj%Hin. by apply (wf_reply _ Hw).
    + simpl. rewrite Hk. unfold ledger_of. do 2 f_equal.
      rewrite (tickets_perm _ _ Hd Hp), tickets_cons, Hk, delete_insert_id; [done|].
      apply tickets_fresh. by rewrite <-Hk.
  - split; [done|]. destruct (tickets (jobs i) !! k) as [t|] eqn:El; [|done].
    apply tickets_lookup in El as (j & Hj & <- & <-); [|apply Hw].
    apply elem_of_jobs in Hj as [(a & q & Hq & Hj)|[k' Hl]].
    + destruct (wf_queue _ Hw _ _ _ Hq Hj) as [_ Ht]. simpl. rewrite Ht.
      by rewrite bool_decide_false, andb_false_r by (by intros []).
    + destruct (wf_flight _ Hw _ _ Hl) as [<- _]. congruence.
Qed.

Lemma expire_jobs now i :
  jobs (expire now i).2 ≡ₚ filter (fun j => late now j = false) (jobs i) /\
  (expire now i).1 ≡ₚ filter (fun j => late now j = true) (jobs i).
Proof.
  unfold jobs, waiting, flying. simpl. rewrite !filter_app. split.
  - apply Permutation_app; [apply contents_kept|apply values_filter].
  - rewrite late_contents. apply Permutation_app; [done|apply values_filter].
Qed.

Lemma expire_ok now i :
  wf i ->
  let '(js, i') := expire now i in
  wf i' /\
  Ledger.expire now (ledger_of i) = (Ledger.Drop (sort_by Z.compare (j_id <$> js)), ledger_of i').
Proof.
  intros Hw. destruct (expire now i) as [js i'] eqn:E. pose proof (expire_jobs now i) as [Hp Hl].
  rewrite E in Hp, Hl. simpl in Hp, Hl. pose proof (wf_ids _ Hw) as Hd.
  assert (NoDup (j_id <$> jobs i')) as Hd'.
  { rewrite Hp. eapply sublist_NoDup; [done|apply fmap_sublist, sublist_filter]. }
  assert (forall j, j ∈ jobs i' -> j ∈ jobs i) as Hin.
  { intros j. rewrite Hp. by intros [_ ?]%list_elem_of_filter. }
  injection E as _ Hi'. split.
  - subst i'. split; simpl.
    + intros a q j (q0 & Hq & Hk)%lookup_omap_Some Hj. unfold kept in Hq.
      case_bool_decide; simplify_eq. apply list_elem_of_filter in Hj as [_ Hj]. by apply (wf_queue _ Hw _ q0).
    + intros k j [Hk _]%map_lookup_filter_Some. by apply (wf_flight _ Hw).
    + intros a q (q0 & Hq & Hk)%lookup_omap_Some. unfold kept in Hq. case_bool_decide; simplify_eq.
      by apply sorted_ids_filter, (wf_sorted _ Hw a).
    + done.
    + apply Hw.
    + intros j Hj%Hin. by apply (wf_bound _ Hw).
    + intros j Hj%Hin. by apply (wf_reply _ Hw).
    + intros a [q (q0 & Hq & Hk)%lookup_omap_Some]. apply Hw. eauto.
  - unfold Ledger.expire, ledger_of. cbn [Ledger.open Ledger.last]. f_equal.
    + f_equal. rewrite numbers_tickets by done. apply (sorted_perm_unique Z.compare); [|apply sort_by_sorted, _..|].
      { intros x y _ _. apply Z.compare_eq. }
      rewrite !sort_by_perm. by rewrite Hl.
    + replace (next_id i') with (next_id i) by (by subst). f_equal. apply map_eq. intros k. apply option_eq.
      intros t. rewrite map_lookup_filter_Some, !tickets_lookup by done. setoid_rewrite Hp.
      setoid_rewrite list_elem_of_filter. split.
      * intros [(j & Hj & Hk & <-) Hlate]. by exists j.
      * intros (j & [Hlate Hj] & Hk & <-). split; [by exists j|done].
Qed.

Lemma step_ok op i :
  wf i ->
  wf (step op i).2 /\ Ledger.step op (ledger_of i) = (answer_of (step op i).1, ledger_of (step op i).2).
Proof.
  intros Hw. destruct op as [agent t tmo disc dl|agent now_ms taken|agent now_ms taken|agent k|now]; simpl.
  - pose proof (enqueue_ok agent t tmo disc dl i Hw). by destruct (enqueue agent t tmo disc dl i).
  - pose proof (take_now_ok agent now_ms taken i i Hw) as Ht. destruct (take_now agent now_ms taken i).
    by apply Ht.
  - destruct (notified agent i) eqn:E; [|by split; [|apply wake_nothing]].
    pose proof (take_now_ok agent now_ms taken (consume agent i) i Hw) as Ht.
    destruct (take_now agent now_ms taken (consume agent i)). apply Ht; [done|].
    intros a Ha. simpl. by rewrite lookup_insert_ne.
  - pose proof (complete_ok agent k i Hw). by destruct (complete agent k i).
  - apply (expire_ok now i Hw).
Qed.

Lemma run_ok ops i :
  wf i ->
  wf (run ops i).2 /\
  Ledger.run ops (ledger_of i) = (answer_of <$> (run ops i).1, ledger_of (run ops i).2).
Proof.
  revert i. induction ops as [|op ops IH]; intros i Hw; [done|]. cbn [run Ledger.run].
  destruct (step_ok op i Hw) as [Hw' ->]. destruct (step op i) as [o i']. simpl in *.
  destruct (IH i' Hw') as [Hw'' ->]. by destruct (run ops i') as [os i''].
Qed.

(** C7. Whatever the interleaving of the deposits, polls, reports and expiries, the hub with its queues,
    its jobs in flight and its wake-ups answers exactly as a flat ledger of tickets does: a probe is
    accepted unless one of the same nature waits for this agent or is in an agent's hands, a poll
    (new or woken) hands over everything that waits for its agent in the order of deposit, only the
    agent that took a probe closes it, and what is past its deadline is dropped. *)
Theorem relay_hub_refines_its_ledger ops :
  Ledger.run ops Ledger.new = (answer_of <$> (run ops RelayHub_new).1, ledger_of (run ops RelayHub_new).2).
Proof. apply (run_ok ops RelayHub_new wf_hub_new). Qed.

(** ** Facts: verdicts *)

Definition op_of (e : Event) : Op :=
  match e with
  | Deposit agent t tmo disc dl => Enqueue agent t tmo disc dl
  | Poll woken agent now_ms taken => if woken then Wake agent now_ms taken else Look agent now_ms taken
  | Report agent id _ _ => Complete agent id
  | Tick now _ => Expire now
  end.

Lemma happen_hub e w : hub (happen e w) = (step (op_of e) (hub w)).2.
Proof.
  destruct e as [agent t tmo disc dl|woken agent now_ms taken|agent k outcome saved|now saved]; simpl; [|done| |done].
  - by destruct (enqueue agent t tmo disc dl (hub w)).
  - unfold report. by destruct (complete agent k (hub w)) as [[job|] i].
Qed.

Lemma settle_answers saved j r s k :
  reply j = Some k -> answers (settle saved j r s) = <[k := r]> (answers s).
Proof.
  intros Hr. unfold settle, job_reply. rewrite Hr. simpl. f_equal.
  destruct r as [outcome|]; destruct (j_discover j); unfold record_probe, set_profile.
  - by destruct (outcome_profile outcome), (error outcome), saved.
  - by destruct saved, (error outcome).
  - done.
  - by destruct saved.
Qed.

Lemma settle_all_answers saved js s k :
  (forall j, j ∈ js -> reply j = Some (j_id j)) ->
  answers (foldl (settle_late saved) s js) !! k =
  if decide (k ∈ j_id <$> js) then Some JobResult.Expired else answers s !! k.
Proof.
  revert s. induction js as [|j js IH]; intros s Hr; [done|]. cbn [foldl]. rewrite fmap_cons.
  rewrite IH by (intros; apply Hr; by right). unfold settle_late.
  rewrite (settle_answers _ _ _ _ (j_id j)) by (apply Hr; by left).
  destruct (decide (k ∈ j_id <$> js)) as [Hk|Hk].
  - by rewrite decide_True by (by right).
  - destruct (decide (k = j_id j)) as [->|Hne].
    + by rewrite lookup_insert_eq, decide_True by left.
    + rewrite lookup_insert_ne, decide_False; [done| |done]. rewrite elem_of_cons. naive_solver.
Qed.

Lemma settle_late_probes j s :
  probes (settle_late true s j) =
  probes s ++ (if j_discover j then [] else [(id (target j), Some (expired_message j))]).
Proof.
  unfold settle_late, settle, job_reply. by destruct (j_discover j), (reply j); simpl; rewrite ?app_nil_r.
Qed.

Lemma settle_all_probes js s j :
  j ∈ js -> j_discover j = false ->
  (id (target j), Some (expired_message j)) ∈ probes (foldl (settle_late true) s js).
Proof.
  intros Hj Hd. revert s. induction js as [|j' js IH]; intros s; [by apply elem_of_nil in Hj|]. cbn [foldl].
  apply elem_of_cons in Hj as [<-|Hj]; [|by apply IH]. clear IH. revert s.
  assert (forall s, (id (target j), Some (expired_message j)) ∈ probes s ->
            (id (target j), Some (expired_message j)) ∈ probes (foldl (settle_late true) s js)) as Hk.
  { induction js as [|j' js IH]; intros s Hs; [done|]. cbn [foldl]. apply IH.
    rewrite settle_late_probes. set_solver. }
  intros s. apply Hk. rewrite settle_late_probes, Hd. set_solver.
Qed.

(** The jobs of the hub by number. *)
Lemma open_iff i k : wf i -> (exists j, j ∈ jobs i /\ j_id j = k) <-> is_Some (Ledger.open (ledger_of i) !! k).
Proof.
  intros Hw. unfold is_Some, ledger_of. cbn [Ledger.open].
  setoid_rewrite tickets_lookup; [|apply Hw]. naive_solver.
Qed.

(** Every number given is either open or answered, and not both. *)
Definition balanced (l : Ledger.Ledger) (a : gmap Z JobResult) : Prop :=
  forall k, (1 <= k <= Ledger.last l <-> is_Some (Ledger.open l !! k) \/ is_Some (a !! k)) /\
            (is_Some (Ledger.open l !! k) -> a !! k = None).

Lemma balanced_enqueue agent device disc dl l a :
  0 <= Ledger.last l -> balanced l a -> balanced (Ledger.enqueue agent device disc dl l).2 a.
Proof.
  intros H0 Hb. unfold Ledger.enqueue. case_bool_decide; [|done]. intros k.
  cbn [snd Ledger.last Ledger.open]. destruct (Hb k) as [Hk Hn]. destruct (decide (k = Ledger.last l + 1)) as [->|Hne].
  - rewrite lookup_insert_eq. split; [split; [left; by eexists|lia]|]. intros _.
    apply eq_None_not_Some. intros Hs. assert (1 <= Ledger.last l + 1 <= Ledger.last l) by (apply Hk; by right). lia.
  - rewrite lookup_insert_ne by done. split; [|done]. rewrite <-Hk. lia.
Qed.

Lemma balanced_take agent l a : balanced l a -> balanced (Ledger.take agent l).2 a.
Proof. intros Hb k. simpl. rewrite lookup_fmap, fmap_is_Some. apply Hb. Qed.

Lemma balanced_close k r l a :
  is_Some (Ledger.open l !! k) -> balanced l a ->
  balanced {| Ledger.last := Ledger.last l; Ledger.open := delete k (Ledger.open l) |} (<[k := r]> a).
Proof.
  intros Hs Hb k'. cbn [Ledger.last Ledger.open]. destruct (Hb k') as [Hk Hn].
  destruct (decide (k' = k)) as [->|Hne].
  - rewrite lookup_delete_eq, lookup_insert_eq, Hk. split; [|by intros []]. split; eauto.
  - by rewrite lookup_delete_ne, lookup_insert_ne by done.
Qed.

Lemma complete_job agent k i job i' :
  wf i -> complete agent k i = (Some job, i') -> j_id job = k /\ agent_id job = agent /\ job ∈ jobs i.
Proof.
  intros Hw. unfold complete. destruct (in_flight i !! k) as [j|] eqn:E; [|done].
  destruct (agent_id j =? agent) eqn:Ea; [|done]. intros [= -> _].
  destruct (wf_flight _ Hw _ _ E) as [<- _]. split_and!; [done|by apply Z.eqb_eq|].
  apply elem_of_jobs. eauto.
Qed.

Lemma balanced_report agent k outcome saved w :
  wf (hub w) -> balanced (ledger_of (hub w)) (answers (store w)) ->
  let w' := (report agent k outcome saved w).2 in
  balanced (ledger_of (hub w')) (answers (store w')) /\ answers (store w) ⊆ answers (store w').
Proof.
  intros Hw Hb. unfold report. pose proof (complete_ok agent k (hub w) Hw) as Hc.
  destruct (complete agent k (hub w)) as [[job|] i'] eqn:E; simpl.
  - destruct Hc as [_ Hc]. destruct (complete_job _ _ _ _ _ Hw E) as (Hk & _ & Hj).
    assert (is_Some (Ledger.open (ledger_of (hub w)) !! k)) as Hs by (apply open_iff; [done|by exists job]).
    rewrite (settle_answers _ _ _ _ k) by (rewrite (wf_reply _ Hw), Hk; done).
    unfold Ledger.complete in Hc. destruct (Ledger.open (ledger_of (hub w)) !! k) as [t|] eqn:Et; [|done].
    destruct (_ && _); [|done]. apply (f_equal snd) in Hc. cbn [snd] in Hc. rewrite <-Hc. split; [apply balanced_close; [by rewrite Et|done]|].
    apply insert_subseteq. destruct (Hb k) as [_ Hn]. apply Hn. by rewrite Et.
  - destruct Hc as [_ Hc]. split; [|done]. replace (ledger_of i') with (ledger_of (hub w)); [done|].
    unfold complete in E. destruct (in_flight (hub w) !! k); [destruct (_ =? _)|]; by simplify_eq.
Qed.

Lemma balanced_tick now saved w :
  wf (hub w) -> balanced (ledger_of (hub w)) (answers (store w)) ->
  let w' := tick now saved w in
  balanced (ledger_of (hub w')) (answers (store w')) /\ answers (store w) ⊆ answers (store w').
Proof.
  intros Hw Hb. unfold tick. pose proof (expire_ok now (hub w) Hw) as Hc.
  pose proof (expire_jobs now (hub w)) as [_ Hl]. destruct (expire now (hub w)) as [js i'] eqn:E. simpl in *.
  destruct Hc as [_ Hc]. apply (f_equal snd) in Hc. cbn [snd] in Hc. rewrite <-Hc.
  assert (forall k, k ∈ j_id <$> js <-> exists t, Ledger.open (ledger_of (hub w)) !! k = Some t /\ Ledger.late now t = true)
    as Hjs.
  { intros k. rewrite Hl. unfold ledger_of. cbn [Ledger.open]. setoid_rewrite (tickets_lookup _ _ _ (wf_ids _ Hw)).
    rewrite list_elem_of_fmap. setoid_rewrite list_elem_of_filter. split.
    - intros (j & -> & Hlate & Hj). exists (ticket j). split; [by exists j|done].
    - intros (t & (j & Hj & <- & <-) & Hlate). by exists j. }
  set (a' := answers _).
  assert (forall k, a' !! k = if decide (k ∈ j_id <$> js) then Some JobResult.Expired else answers (store w) !! k) as Ha.
  { intros k. apply settle_all_answers. intros j. rewrite Hl. intros [_ Hj]%list_elem_of_filter.
    by apply (wf_reply _ Hw). }
  split.
  - intros k. rewrite Ha. cbn [Ledger.last Ledger.open]. destruct (Hb k) as [Hk Hn]. rewrite Hk.
    unfold is_Some at 3 5. setoid_rewrite map_lookup_filter_Some. cbn [snd].
    change (tickets (jobs (hub w))) with (Ledger.open (ledger_of (hub w))). case_decide as Hd.
    + apply Hjs in Hd as (t & Ht & Hlate). rewrite Ht. split; [naive_solver|]. intros (t' & ? & ?). congruence.
    + split; [|naive_solver]. split; [|naive_solver]. intros [[t Ht]|?]; [|by right]. left. exists t.
      split; [done|]. apply not_true_iff_false. intros Hlate. apply Hd, Hjs. eauto.
  - apply map_subseteq_spec. intros k r Hr. rewrite Ha. rewrite decide_False; [done|].
    intros (t & Ht & _)%Hjs. destruct (Hb k) as [_ Hn]. rewrite Hn in Hr by (by rewrite Ht). done.
Qed.

Lemma happen_ok e w :
  wf (hub w) -> balanced (ledger_of (hub w)) (answers (store w)) ->
  let w' := happen e w in
  wf (hub w') /\ balanced (ledger_of (hub w')) (answers (store w')) /\
  answers (store w) ⊆ answers (store w').
Proof.
  intros Hw Hb w'. destruct (step_ok (op_of e) (hub w) Hw) as [Hw' Hs].
  rewrite <-happen_hub in Hw', Hs. fold w' in Hw', Hs. split; [done|].
  destruct e as [agent t tmo disc dl|woken agent now_ms taken|agent k outcome saved|now saved].
  - split; [|done]. apply (f_equal snd) in Hs. cbn [snd] in Hs. rewrite <-Hs. simpl.
    apply balanced_enqueue; [apply Hw|done].
  - split; [|done]. apply (f_equal snd) in Hs. cbn [snd] in Hs. rewrite <-Hs.
    destruct woken; by apply balanced_take.
  - by apply balanced_report.
  - by apply balanced_tick.
Qed.

Lemma happen_all es w :
  wf (hub w) -> balanced (ledger_of (hub w)) (answers (store w)) ->
  let w' := history es w in
  wf (hub w') /\ balanced (ledger_of (hub w')) (answers (store w')) /\
  answers (store w) ⊆ answers (store w').
Proof.
  revert w. unfold history. induction es as [|e es IH]; intros w Hw Hb; [done|]. cbn [foldl].
  destruct (happen_ok e w Hw Hb) as (Hw' & Hb' & Hs). destruct (IH _ Hw' Hb') as (? & ? & ?).
  split_and!; [done|done|]. by etrans.
Qed.

Lemma balanced_new : balanced (ledger_of (hub World_new)) (answers (store World_new)).
Proof.
  intros k. cbn. rewrite lookup_empty. split; [|by intros []].
  split; [lia|]. by intros [[]|[]].
Qed.

(** C11. Whatever happens, each probe accepted gets exactly one answer, which never changes: every number
    given out is either still held by the hub or answered, never both, and the turn of the scheduler
    leaves no probe past its deadline unanswered nor the failure of its device unrecorded. *)
Theorem every_probe_is_answered_once es more now saved :
  let w := history es World_new in
  let w' := history more w in
  (forall k, 1 <= k <= next_id (hub w) <->
     (exists j, j ∈ jobs (hub w) /\ j_id j = k) \/ is_Some (answers (store w) !! k)) /\
  NoDup (j_id <$> jobs (hub w)) /\
  (forall j, j ∈ jobs (hub w) -> answers (store w) !! j_id j = None) /\
  answers (store w) ⊆ answers (store w') /\
  (forall j, j ∈ jobs (hub w) -> deadline j <= now ->
     answers (store (tick now saved w)) !! j_id j = Some JobResult.Expired /\
     (saved = true -> j_discover j = false ->
      (id (target j), Some (expired_message j)) ∈ probes (store (tick now saved w)))).
Proof.
  intros w w'. destruct (happen_all es World_new wf_hub_new balanced_new) as (Hw & Hb & _).
  fold w in Hw, Hb. destruct (happen_all more w Hw Hb) as (_ & _ & Hs). fold w' in Hs.
  split_and!.
  - intros k. rewrite (open_iff _ _ Hw). apply Hb.
  - apply Hw.
  - intros j Hj. apply Hb, open_iff; [done|]. by exists j.
  - done.
  - intros j Hj Hd. unfold tick. pose proof (expire_jobs now (hub w)) as [_ Hl].
    destruct (expire now (hub w)) as [js i']. simpl in *.
    assert (j ∈ js) as Hin by (rewrite Hl; apply list_elem_of_filter; by split; [apply Z.leb_le|]).
    split; [|by intros -> ?; apply settle_all_probes]. rewrite settle_all_answers.
    + rewrite decide_True; [done|]. by apply list_elem_of_fmap_2.
    + intros j'. rewrite Hl. intros [_ Hj']%list_elem_of_filter. by apply (wf_reply _ Hw).
Qed.

Lemma put_labels_lookup l (ls : gmap string string) k v :
  NoDup l.*1 -> (k, v) ∈ l -> foldl put_label ls l !! k = Some v.
Proof.
  induction l as [|[k' v'] l IH] using rev_ind; intros Hd Hin; [by apply elem_of_nil in Hin|].
  rewrite fmap_app, NoDup_app in Hd. destruct Hd as (Hd & Hf & _). rewrite foldl_app. cbn [foldl].
  unfold put_label at 1. cbn [fst snd]. apply elem_of_app in Hin as [Hin|Hin].
  - rewrite lookup_insert_ne; [by apply IH|]. intros ->. apply (Hf k); [|by left].
    by apply (list_elem_of_fmap_2 fst _ _ Hin).
  - apply list_elem_of_singleton in Hin as [= -> ->]. apply lookup_insert_eq.
Qed.

Lemma stamp_labels base s k v : base !! k = Some v -> labels (stamp base s) !! k = Some v.
Proof.
  intros Hk. unfold stamp. simpl. apply put_labels_lookup; [|by apply (elem_of_btree_to_list string_cmp)].
  unfold btree_to_list. rewrite sort_by_perm. apply NoDup_fst_map_to_list.
Qed.

(** A relay writes nothing but what its own probes measured of their devices: a report about a probe that
    is not in this agent's hands changes nothing, and an accepted one adds only finite samples that
    carry the identity labels of the device, and only a result and a profile of that device. *)
Theorem relay_writes_only_its_devices agent k outcome saved w :
  let '(accepted, w') := report agent k outcome saved w in
  if accepted then
    exists j, in_flight (hub w) !! k = Some j /\ agent_id j = agent /\
      exists batches results profs,
        sink (store w') = sink (store w) ++ batches /\
        probes (store w') = probes (store w) ++ results /\
        profiles (store w') = profiles (store w) ++ profs /\
        (forall b s, b ∈ batches -> s ∈ b ->
           f64_is_finite (value s) = true /\ base_labels (target j) ⊆ labels s) /\
        (forall r, r ∈ results -> r.1 = id (target j)) /\ (forall p, p ∈ profs -> p.1 = id (target j))
  else w' = w.
Proof.
  unfold report, complete. destruct (in_flight (hub w) !! k) as [j|] eqn:E; [|by destruct w].
  destruct (agent_id j =? agent) eqn:Ea; [|by destruct w]. apply Z.eqb_eq in Ea.
  exists j. split_and!; [done|done|]. cbn [store].
  assert (forall b s, b ∈ [prepare (target j) (samples outcome)] -> s ∈ b ->
            f64_is_finite (value s) = true /\ base_labels (target j) ⊆ labels s) as Hp.
  { intros b s ->%list_elem_of_singleton (s' & -> & [Hf _]%list_elem_of_filter)%list_elem_of_fmap.
    split; [done|]. apply map_subseteq_spec. intros l v. apply stamp_labels. }
  assert (forall s, sink (job_reply j (JobResult.Done outcome) s) = sink s /\
                    probes (job_reply j (JobResult.Done outcome) s) = probes s /\
                    profiles (job_reply j (JobResult.Done outcome) s) = profiles s) as Hr.
  { intros s. unfold job_reply. by destruct (reply j). }
  unfold settle. match goal with |- context [job_reply j _ ?s] => destruct (Hr s) as (-> & -> & ->) end.
  destruct (j_discover j).
  - destruct (outcome_profile outcome) as [prof|], (error outcome), saved; simpl;
      first [exists [], [], []; rewrite !app_nil_r; set_solver
            |exists [], [], [(id (target j), prof)]; rewrite !app_nil_r; set_solver].
  - destruct (error outcome) as [e|], saved; simpl.
    + exists [], [(id (target j), Some e)], []. rewrite !app_nil_r. set_solver.
    + exists [], [], []. rewrite !app_nil_r. set_solver.
    + exists [prepare (target j) (samples outcome)], [(id (target j), None)], []. rewrite !app_nil_r.
      split_and!; [done..| |]; set_solver.
    + exists [prepare (target j) (samples outcome)], [], []. rewrite !app_nil_r.
      split_and!; [done..| |]; set_solver.
Qed.

(** A long poll is a sequence of the hub's operations, its own and those of the others while it waits; it
    answers what its last look found. *)
Lemma run_app ops ops' i :
  run (ops ++ ops') i =
  ((run ops i).1 ++ (run ops' (run ops i).2).1, (run ops' (run ops i).2).2).
Proof.
  revert i. induction ops as [|op ops IH]; intros i; simpl; [by destruct (run ops' i)|].
  destruct (step op i) as [o i']. rewrite IH. by destruct (run ops i').
Qed.

Lemma take_wait_is_a_run agent until now turns i :
  exists ops, (take_wait agent until now turns i).2 = (run ops i).2 /\
    ((ops = [] /\ (take_wait agent until now turns i).1 = []) \/
     last (run ops i).1 = Some (Handed (take_wait agent until now turns i).1)).
Proof.
  revert now i. induction turns as [|turn turns IH]; intros now i; simpl.
  { exists []. destruct (_ <=? 0); simpl; eauto. }
  destruct (_ <=? 0); [exists []; simpl; eauto|].
  set (i1 := (run (meanwhile turn) i).2).
  pose proof (run_app (meanwhile turn) [Wake agent (woken_ms turn) (woken_at turn)] i) as Hrun.
  fold i1 in Hrun. simpl in Hrun. destruct (notified agent i1) eqn:En.
  - destruct (take_now agent (woken_ms turn) (woken_at turn) (consume agent i1)) as [cs i2] eqn:Et.
    simpl in Hrun. case_bool_decide as Hc.
    + destruct (IH (woken_at turn) i2) as (ops & -> & Ho).
      exists ((meanwhile turn ++ [Wake agent (woken_ms turn) (woken_at turn)]) ++ ops).
      rewrite run_app, Hrun. simpl. split; [done|]. right. destruct Ho as [[-> ->]|Ho]; simpl.
      * by rewrite app_nil_r, last_snoc, Hc.
      * by rewrite last_app, Ho.
    + eexists. rewrite Hrun. simpl. split; [done|]. right. by rewrite last_snoc.
  - eexists. rewrite Hrun. simpl. split; [done|]. right. by rewrite last_snoc.
Qed.

Theorem long_poll_is_a_run agent hold now_ms now turns i :
  exists ops, (take agent hold now_ms now turns i).2 = (run ops i).2 /\
    last (run ops i).1 = Some (Handed (take agent hold now_ms now turns i).1).
Proof.
  unfold take. destruct (take_now agent now_ms now i) as [cs i1] eqn:Et. case_bool_decide as Hc.
  - destruct (take_wait_is_a_run agent (now + hold) now turns i1) as (ops & -> & Ho).
    exists (Look agent now_ms now :: ops). simpl. rewrite Et. destruct Ho as [[-> ->]|Ho].
    + simpl. by rewrite Hc.
    + destruct (run ops i1) as [os i2]. simpl in *. by rewrite last_cons, Ho.
  - exists [Look agent now_ms now]. simpl. by rewrite Et.
Qed.
End operations.
