(* ===== verification/Scheduler.v ===== *)
(** * The probe scheduler ([scheduler.rs])

    One loop wakes the targets that are due and probes them here or hands them to their relay.  An
    [Instant] is a number of nanoseconds.  A turn is given the time it starts, what the database
    answers to the reloads, whether it accepts the results, whether the semaphore of the probes is
    closed; the probes launched here run on their own ([probe_once]). *)
From Stdlib Require String.
From S2P Require Import Prelude Text Float64 Chrono Wire Relay.

Definition TICK : Duration := td_seconds 1.
Definition RELOAD_EVERY : Duration := td_seconds 15.

(** A deterministic offset spread over the interval. *)
Definition initial_offset (id : Z) (interval : Duration) : Duration :=
  let slots := Z.max (as_secs interval) 1 in td_seconds (Z.abs id mod slots).

(** The variables of the loop, and what it shares with the rest of the server. *)
Record Loop := {
  next_run : gmap Z Z;
  last_reload : Z;
  targets : list Target;
  relays : gmap Z Z;
  world : World;
}.

Definition set_next_run (n : gmap Z Z) (s : Loop) : Loop :=
  {| next_run := n; last_reload := last_reload s; targets := targets s; relays := relays s; world := world s |}.
Definition set_world (w : World) (s : Loop) : Loop :=
  {| next_run := next_run s; last_reload := last_reload s; targets := targets s; relays := relays s; world := w |}.

(** [last_reload] starts one period back: the first turn reloads. *)
Definition Loop_new (started : Z) (w : World) : Loop :=
  {| next_run := ∅; last_reload := started - RELOAD_EVERY; targets := []; relays := ∅; world := w |}.

Record Turn := {
  now : Z;
  loaded : option (list Target);
  loaded_relays : option (gmap Z Z);
  saved : bool;
  closed : bool;
}.

(** [duration_since] of an earlier instant; zero for a later one. *)
Definition duration_since (a b : Z) : Duration := Z.max 0 (a - b).

Definition is_live (ts : list Target) (id_ : Z) : bool := bool_decide (id_ ∈ id <$> ts).

Definition reload (u : Turn) (s : Loop) : Loop :=
  if RELOAD_EVERY <=? duration_since (now u) (last_reload s) then
    let '(next, ts) := match loaded u with
                       | Some ts => (filter (fun e => is_live ts e.1 = true) (next_run s), ts)
                       | None => (next_run s, targets s)
                       end in
    {| next_run := next; last_reload := now u; targets := ts;
       relays := loaded_relays u ?? relays s; world := world s |}
  else s.

(** How a target was launched: by the server itself, or through a relay, with the number of the probe
    unless the relay is still busy with the previous one. *)
Inductive Launch := Local | Delegated (agent : Z) (channel : option Z).

Definition delegate (probe_timeout : Duration) (t : Target) (agent : Z) (now : Z) (s : Loop) : Launch * Loop :=
  let '(channel, i) := enqueue agent t probe_timeout false (now + deadline_for probe_timeout) (hub (world s)) in
  (Delegated agent channel, set_world {| hub := i; store := store (world s) |} s).

(** One round of the [for] over the targets: the launches so far, and whether the loop stops. *)
Definition visit (probe_timeout : Duration) (u : Turn) (acc : option (list (Z * Launch) * Loop)) (t : Target)
  : option (list (Z * Launch) * Loop) :=
  '(launched, s) ← acc;
  let due := next_run s !! id t ?? (now u + initial_offset (id t) (interval t)) in
  let s := set_next_run (<[id t := due]> (next_run s)) s in
  if now u <? due then Some (launched, s)
  else
    let s := set_next_run (<[id t := now u + interval t]> (next_run s)) s in
    match relays s !! id t with
    | Some agent =>
        let '(l, s) := delegate probe_timeout t agent (now u) s in Some (launched ++ [(id t, l)], s)
    | None => if closed u then None else Some (launched ++ [(id t, Local)], s)
    end.

(** A turn of the loop; [None] when the server is stopping. *)
Definition turn (probe_timeout : Duration) (u : Turn) (s : Loop) : option (list (Z * Launch) * Loop) :=
  let s := reload u s in
  let s := set_world (tick (now u) (saved u) (world s)) s in
  foldl (visit probe_timeout u) (Some ([], s)) (targets s).

(** What remains due after a turn. *)
Definition backlog (ended : Z) (s : Loop) : nat :=
  length (filter (fun due => (due <=? ended) = true) (snd <$> map_to_list (next_run s))).

(** The task of a local probe, once the collector answered. *)
Definition probe_once (t : Target) (result : string + list Sample) (saved : bool) (s : Store) : Store :=
  match result with
  | inr samples => record_probe saved (id t) None (send samples s)
  | inl message => record_probe saved (id t) (Some message) s
  end.

(** Turns one after the other, with what the others do to the shared state in between. *)
Record Round := { between : World -> World; at_ : Turn }.

Fixpoint rounds (probe_timeout : Duration) (rs : list Round) (s : Loop)
  : option (list (Z * list (Z * Launch)) * Loop) :=
  match rs with
  | [] => Some ([], s)
  | r :: rs =>
      '(launched, s) ← turn probe_timeout (at_ r) (set_world (between r (world s)) s);
      '(rest, s) ← rounds probe_timeout rs s;
      Some ((now (at_ r), launched) :: rest, s)
  end.

(** ** The timer of one target, alone

    [due] is when it is next due, if it is known yet. *)
Fixpoint timer (interval offset : Duration) (due : option Z) (nows : list Z) : list Z :=
  match nows with
  | [] => []
  | now :: nows =>
      let d := due ?? (now + offset) in
      if now <? d then timer interval offset (Some d) nows
      else now :: timer interval offset (Some (now + interval)) nows
  end.

(** The instants at which a target was launched. *)
Definition launches (id_ : Z) (log : list (Z * list (Z * Launch))) : list Z :=
  (filter (fun e : Z * list (Z * Launch) => id_ ∈ e.2.*1) log).*1.

(** The target is enabled, with the same interval, at each of these turns. *)
Fixpoint stays (t : Target) (rs : list Round) (s : Loop) : Prop :=
  match rs with
  | [] => True
  | r :: rs =>
      let s' := reload (at_ r) s in
      t ∈ targets s' /\ NoDup (id <$> targets s') /\
      stays t rs {| next_run := ∅; last_reload := last_reload s'; targets := targets s';
                    relays := relays s'; world := world s' |}
  end.

(** ** Facts *)

Section visits.
Variables (probe_timeout : Duration) (u : Turn).

(** One round touches the entry of its own target only. *)
Lemma visit_spec launched s t launched' s' :
  visit probe_timeout u (Some (launched, s)) t = Some (launched', s') ->
  let due := next_run s !! id t ?? (now u + initial_offset (id t) (interval t)) in
  next_run s' = <[id t := if now u <? due then due else now u + interval t]> (next_run s) /\
  launched'.*1 = launched.*1 ++ (if now u <? due then [] else [id t]) /\
  targets s' = targets s /\ last_reload s' = last_reload s /\ relays s' = relays s.
Proof.
  unfold visit. cbn [mbind option_bind]. destruct (now u <? _) eqn:E.
  - intros [= <- <-]. by rewrite app_nil_r.
  - cbn [relays set_next_run]. destruct (relays s !! id t) as [agent|].
    + destruct (delegate _ t agent (now u) _) as [l s1] eqn:Ed. intros [= <- <-].
      unfold delegate in Ed. destruct (enqueue agent t _ false _ _) as [ch i]. injection Ed as <- <-. simpl.
      by rewrite insert_insert_eq, fmap_app.
    + destruct (closed u); [done|]. intros [= <- <-]. simpl. by rewrite insert_insert_eq, fmap_app.
Qed.

Lemma visits_none ts : foldl (visit probe_timeout u) None ts = None.
Proof. by induction ts. Qed.

(** The whole round: the launches and the table, target by target. *)
Lemma visits_spec ts launched s launched' s' :
  NoDup (id <$> ts) ->
  foldl (visit probe_timeout u) (Some (launched, s)) ts = Some (launched', s') ->
  (targets s' = targets s /\ last_reload s' = last_reload s /\ relays s' = relays s) /\
  (forall k, k ∉ id <$> ts -> next_run s' !! k = next_run s !! k /\ (k ∈ launched'.*1 <-> k ∈ launched.*1)) /\
  (forall t, t ∈ ts ->
     let due := next_run s !! id t ?? (now u + initial_offset (id t) (interval t)) in
     next_run s' !! id t = Some (if now u <? due then due else now u + interval t) /\
     (id t ∈ launched'.*1 <-> id t ∈ launched.*1 \/ due <= now u)).
Proof.
  revert launched s. induction ts as [|t0 ts IH]; intros launched s Hd; cbn [foldl].
  { intros [= <- <-]. split_and!; [done|done|done|by intros|]. by intros t ?%elem_of_nil. }
  rewrite fmap_cons, NoDup_cons in Hd. destruct Hd as [Hf Hd].
  destruct (visit probe_timeout u (Some (launched, s)) t0) as [[l1 s1]|] eqn:E; [|by rewrite visits_none].
  apply visit_spec in E as (Hn & Hl & Ht & Hr & Hrel). intros Hall.
  destruct (IH _ _ Hd Hall) as ((-> & -> & ->) & Hother & Hin).
  assert (id t0 ∈ l1.*1 <-> id t0 ∈ launched.*1 \/
          next_run s !! id t0 ?? (now u + initial_offset (id t0) (interval t0)) <= now u) as H0.
  { rewrite Hl, elem_of_app. destruct (now u <? _) eqn:E; bools; set_solver by lia. }
  assert (forall k, k <> id t0 -> (k ∈ l1.*1 <-> k ∈ launched.*1) /\ next_run s1 !! k = next_run s !! k) as Hne.
  { intros k Hk. rewrite Hl, elem_of_app, Hn, lookup_insert_ne by done.
    split; [|done]. destruct (now u <? _); set_solver. }
  split_and!; [done|done|done| |].
  - intros k Hk. rewrite fmap_cons, not_elem_of_cons in Hk. destruct Hk as [Hk0 Hk].
    destruct (Hother k Hk) as [-> ->], (Hne k Hk0) as [-> ->]. done.
  - intros t [->|Hts]%elem_of_cons.
    + destruct (Hother _ Hf) as [-> ->]. rewrite Hn, lookup_insert_eq, H0. done.
    + assert (id t <> id t0) as Hk by (intros Hk; apply Hf; rewrite <-Hk; by apply list_elem_of_fmap_2).
      destruct (Hin t Hts) as [-> ->], (Hne _ Hk) as [-> ->]. done.
Qed.
End visits.

Lemma reload_keeps u s t :
  t ∈ targets (reload u s) -> next_run (reload u s) !! id t = next_run s !! id t.
Proof.
  unfold reload. destruct (_ <=? _); [|done]. destruct (loaded u) as [ts|]; [|done]. simpl. intros Ht.
  destruct (next_run s !! id t) as [due|] eqn:E.
  - apply map_lookup_filter_Some. split; [done|]. simpl. apply bool_decide_eq_true, list_elem_of_fmap_2, Ht.
  - apply map_lookup_filter_None. by left.
Qed.

(** What a reload reads. *)
Definition same_lists (s s' : Loop) : Prop :=
  targets s = targets s' /\ last_reload s = last_reload s' /\ relays s = relays s'.

Lemma reload_same u s s' : same_lists s s' -> same_lists (reload u s) (reload u s').
Proof.
  intros (Ht & Hl & Hr). unfold reload. rewrite Hl. destruct (_ <=? _); [|done].
  destruct (loaded u); unfold same_lists; simpl; by rewrite ?Ht, ?Hr.
Qed.

Lemma stays_same t rs s s' : same_lists s s' -> stays t rs s -> stays t rs s'.
Proof.
  revert s s'. induction rs as [|r rs IH]; intros s s' Hs; [done|]. cbn [stays].
  destruct (reload_same (at_ r) s s' Hs) as (Ht & Hl & Hr).
  intros (Hin & Hd & Hrest). rewrite <-Ht. split_and!; [done..|].
  eapply IH; [|done]. unfold same_lists. simpl. by rewrite Hl, Hr.
Qed.

Lemma visit_turn_spec pt u s launched s' t :
  t ∈ targets (reload u s) -> NoDup (id <$> targets (reload u s)) ->
  turn pt u s = Some (launched, s') ->
  let due := next_run s !! id t ?? (now u + initial_offset (id t) (interval t)) in
  same_lists (reload u s) s' /\
  next_run s' !! id t = Some (if now u <? due then due else now u + interval t) /\
  (id t ∈ launched.*1 <-> due <= now u).
Proof.
  intros Ht Hd. unfold turn. intros Hv. apply visits_spec in Hv as ((H1 & H2 & H3) & _ & Hin); [|done].
  destruct (Hin t Ht) as [Hn Hl]. simpl in *. rewrite reload_keeps in Hn, Hl by done.
  split; [by split_and!|]. split; [done|]. rewrite Hl. set_solver.
Qed.

Lemma rounds_follow_the_timer pt t rs s log s' :
  stays t rs s -> rounds pt rs s = Some (log, s') ->
  launches (id t) log =
  timer (interval t) (initial_offset (id t) (interval t)) (next_run s !! id t) ((fun r => now (at_ r)) <$> rs).
Proof.
  revert s log. induction rs as [|r rs IH]; intros s log; cbn [rounds stays mbind option_bind].
  { by intros _ [= <- <-]. }
  intros (Hin & Hd & Hstay). set (s0 := set_world (between r (world s)) s).
  assert (same_lists (reload (at_ r) s) (reload (at_ r) s0)) as Hs by (by apply reload_same).
  destruct (turn pt (at_ r) s0) as [[launched s1]|] eqn:Et; [|done]. cbn [mbind option_bind].
  destruct (rounds pt rs s1) as [[rest s2]|] eqn:Er; [|done]. intros [= <- <-].
  pose proof Hs as (Hts & _ & _). rewrite Hts in Hin, Hd.
  apply (visit_turn_spec _ _ _ _ _ t) in Et as (Hs1 & Hn & Hl); [|done..].
  change (next_run s0) with (next_run s) in Hn, Hl.
  apply IH in Er; [|eapply stays_same, Hstay].
  2: { destruct Hs as (E1 & E2 & E3), Hs1 as (F1 & F2 & F3). unfold same_lists. simpl. split_and!; congruence. }
  rewrite fmap_cons. cbn [timer]. unfold launches in *. rewrite filter_cons. cbn [fst snd]. rewrite Hn in Er.
  destruct (now (at_ r) <? _) eqn:E; bools.
  - by rewrite decide_False by (rewrite Hl; lia).
  - rewrite decide_True by (by rewrite Hl). by rewrite fmap_cons, Er.
Qed.

Lemma timer_spacing iv off due nows :
  0 <= iv ->
  StronglySorted (fun a b => a + iv <= b) (timer iv off due nows) /\
  (forall d l, due = Some d -> l ∈ timer iv off due nows -> d <= l).
Proof.
  intros Hiv. revert due. induction nows as [|now nows IH]; intros due; cbn [timer].
  { split; [constructor|]. intros d l _ Hl. by apply elem_of_nil in Hl. }
  destruct (now <? _) eqn:E; bools.
  - destruct (IH (Some (due ?? (now + off)))) as [Hs Hd]. split; [done|]. intros d l -> Hl. by apply (Hd d).
  - destruct (IH (Some (now + iv))) as [Hs Hd]. split.
    + constructor; [done|]. apply Forall_forall. intros b Hb. by apply (Hd (now + iv)).
    + intros d l -> [->|Hl]%elem_of_cons; [done|]. apply (Hd (now + iv)) in Hl; [|done]. simpl in E. lia.
Qed.

Lemma timer_fresh iv off due nows at_ :
  0 < iv -> StronglySorted Z.le nows -> at_ ∈ nows ->
  at_ < (due ?? ((head nows ?? 0) + off)) \/
  exists l, l ∈ timer iv off due nows /\ l <= at_ < l + iv.
Proof.
  intros Hiv. revert due. induction nows as [|now nows IH]; intros due Hs Hin; [by apply elem_of_nil in Hin|].
  apply StronglySorted_inv in Hs as [Hs Hle]. rewrite Forall_forall in Hle. cbn [timer head].
  change (default 0 (Some now)) with now. destruct (now <? _) eqn:E; bools.
  - apply elem_of_cons in Hin as [->|Hin]; [by left|].
    destruct (IH (Some (due ?? (now + off))) Hs Hin) as [Ha|Hl]; [by left|by right].
  - right. apply elem_of_cons in Hin as [->|Hin]; [exists now; split; [left|lia]|].
    destruct (IH (Some (now + iv)) Hs Hin) as [Ha|(l & Hl & Hb)].
    + exists now. split; [left|]. apply Hle in Hin. simpl in Ha. lia.
    + exists l. split; [by right|done].
Qed.

Lemma initial_offset_bounds id_ iv : 0 <= initial_offset id_ iv < Z.max ns_per_s (iv + 1).
Proof.
  unfold initial_offset, as_secs, td_seconds, ns_per_s.
  pose proof (Z.mod_pos_bound (Z.abs id_) (Z.max (iv / 1000000000) 1) ltac:(lia)).
  pose proof (Z.mul_div_le iv 1000000000 ltac:(lia)). nia.
Qed.

(** The scheduler with its shared table serves each device as if it had a timer of its own: a device
    enabled at every turn is launched exactly when its timer says, first after an offset within its
    interval and then at the first turn an interval later; two launches are never closer than the
    interval, and at every turn the device was launched within the last interval unless it is still
    in its first offset. *)
Theorem each_device_keeps_its_own_pace pt t rs s log s' :
  stays t rs s -> rounds pt rs s = Some (log, s') -> 0 < interval t ->
  let nows : list Z := (fun r => now (at_ r)) <$> rs in
  let offset := initial_offset (id t) (interval t) in
  StronglySorted Z.le nows ->
  launches (id t) log = timer (interval t) offset (next_run s !! id t) nows /\
  0 <= offset < Z.max ns_per_s (interval t + 1) /\
  StronglySorted (fun a b => a + interval t <= b) (launches (id t) log) /\
  (forall n, n ∈ nows -> n < (next_run s !! id t ?? ((head nows ?? 0) + offset)) \/
                         exists l, l ∈ launches (id t) log /\ l <= n < l + interval t).
Proof.
  intros Hst Hr Hi nows offset Hs. rewrite (rounds_follow_the_timer _ _ _ _ _ _ Hst Hr).
  split_and!; [done|by apply initial_offset_bounds..| |].
  - by apply timer_spacing; lia.
  - intros n Hn. by apply timer_fresh.
Qed.

(** A device probed every ten seconds, on turns two seconds apart. *)
Definition example_target : Target :=
  {| id := 7; name := "nas"; address := "10.0.0.1"; t_kind := "snmp"; profile_id := None; parent_id := None;
     interval := td_seconds 10; enabled := true; tags := ∅; credential := Credential.None;
     group_name := ""; position := 0 |}.

Definition example_rounds : list Round :=
  (fun n => {| between := fun w => w;
               at_ := {| now := td_seconds n; loaded := Some [example_target]; loaded_relays := Some ∅;
                         saved := true; closed := false |} |}) <$> [0; 2; 4; 6; 8; 10; 12; 14; 16; 18; 20].

Definition example_loop : Loop :=
  {| next_run := ∅; last_reload := 0; targets := [example_target]; relays := ∅; world := World_new |}.

Lemma stays_alone t rs s :
  targets s = [t] -> (forall r, r ∈ rs -> loaded (at_ r) = Some [t]) -> stays t rs s.
Proof.
  revert s. induction rs as [|r rs IH]; intros s Ht Hr; [done|]. cbn [stays].
  assert (targets (reload (at_ r) s) = [t]) as E.
  { unfold reload. rewrite (Hr r) by left. by destruct (_ <=? _). }
  rewrite E. split_and!; [by left|apply NoDup_singleton|]. apply IH; [done|]. intros. apply Hr. by right.
Qed.

Lemma each_device_keeps_its_own_pace_witness :
  exists log s', rounds (td_seconds 5) example_rounds example_loop = Some (log, s') /\
    launches 7 log = [td_seconds 8; td_seconds 18].
Proof.
  destruct (rounds (td_seconds 5) example_rounds example_loop) as [[log s']|] eqn:E;
    [|exfalso; revert E; vm_compute; discriminate].
  exists log, s'. split; [done|].
  assert (stays example_target example_rounds example_loop) as Hst.
  { apply stays_alone; [done|]. intros r (n & -> & _)%list_elem_of_fmap. done. }
  assert (StronglySorted Z.le ((fun r => now (at_ r)) <$> example_rounds)) as Hs.
  { repeat constructor; vm_compute; discriminate. }
  destruct (each_device_keeps_its_own_pace (td_seconds 5) example_target example_rounds example_loop
              log s' Hst E ltac:(vm_compute; reflexivity) Hs) as [Hl _].
  change 7 with (id example_target). rewrite Hl. vm_compute. reflexivity.
Defined.
