(* ===== verification/Diff.v ===== *)
(** * Differences between two versions of a page ([webchange/diff.rs])

    Myers' search of a shortest edit script with its trace, the script it reads back, the
    common prefix and suffix, the fallback beyond [MAX_EDIT_DISTANCE] and the lines shown.
    An access out of range, on which the program panics, is [None]. *)
From Stdlib Require Import Ascii.
From Stdlib Require String.
From S2P Require Import Prelude Text.

Definition MAX_EDIT_DISTANCE : Z := 1000.
Definition CONTEXT : nat := 3.

Module Edit.
Inductive Edit := Equal | Insert | Delete.
#[global] Instance Edit_eq_dec : EqDecision Edit.
Proof. solve_decision. Defined.
End Edit.
Notation Edit := Edit.Edit.

Record DiffLine := { dl_op : string; dl_text : string; dl_count : option nat }.

(** [l[i as usize]] *)
Definition at_ {A} (l : list A) (i : Z) : option A := if i <? 0 then None else l !! Z.to_nat i.
Definition set_at {A} (l : list A) (i : Z) (x : A) : option (list A) :=
  if (i <? 0) || (Z.of_nat (length l) <=? i) then None else Some (<[Z.to_nat i := x]> l).

Section Myers.
Context (a b : list string).
Notation n := (Z.of_nat (length a)).
Notation m := (Z.of_nat (length b)).

(** The [while] that follows equal lines. *)
Fixpoint snake (fuel : nat) (x y : Z) : option (Z * Z) :=
  match fuel with
  | O => Some (x, y)
  | S fuel =>
      if (x <? n) && (y <? m) then
        p ← at_ a x; q ← at_ b y;
        if bool_decide (p = q) then snake fuel (x + 1) (y + 1) else Some (x, y)
      else Some (x, y)
  end.

Section Search.
Context (offset : Z).

(** [k == -d || (k != d && v[index(k - 1)] < v[index(k + 1)])] *)
Definition comes_down (v : list Z) (d k : Z) : option bool :=
  if k =? - d then Some true
  else if k =? d then Some false
  else l ← at_ v (k - 1 + offset); r ← at_ v (k + 1 + offset); Some (l <? r).

Definition start_x (v : list Z) (d k : Z) : option Z :=
  down ← comes_down v d k;
  if down : bool then at_ v (k + 1 + offset) else x ← at_ v (k - 1 + offset); Some (x + 1).

(** The [while] over the diagonals of a round; [true] when the end is reached. *)
Fixpoint diagonals (d : Z) (ks v : list Z) : option (bool * list Z) :=
  match ks with
  | [] => Some (false, v)
  | k :: ks =>
      x ← start_x v d k;
      '(x, y) ← snake (length a) x (x - k);
      v ← set_at v (k + offset) x;
      if (n <=? x) && (m <=? y) then Some (true, v) else diagonals d ks v
  end.

Definition diagonals_of (d : Z) : list Z := (fun i => - d + 2 * i) <$> seqZ 0 (d + 1).

(** The [for] over the distances, with the vector kept at the beginning of each. *)
Fixpoint rounds (ds v : list Z) (trace : list (list Z)) : option (option (Z * list (list Z))) :=
  match ds with
  | [] => Some None
  | d :: ds =>
      let trace := trace ++ [v] in
      '(reached, v) ← diagonals d (diagonals_of d) v;
      if reached : bool then Some (Some (d, trace)) else rounds ds v trace
  end.

(** [edits] in the order of the final script: the vector that is reversed at the end. *)
Fixpoint climb (fuel : nat) (to_x to_y x y : Z) (edits : list (Edit * string)) :
    option (Z * Z * list (Edit * string)) :=
  match fuel with
  | O => Some (x, y, edits)
  | S fuel =>
      if (to_x <? x) && (to_y <? y) then
        t ← at_ a (x - 1); climb fuel to_x to_y (x - 1) (y - 1) ((Edit.Equal, t) :: edits)
      else Some (x, y, edits)
  end.

Fixpoint backtrack_from (trace : list (list Z)) (ds : list Z) (x y : Z) (edits : list (Edit * string)) :
    option (Z * Z * list (Edit * string)) :=
  match ds with
  | [] => Some (x, y, edits)
  | d :: ds =>
      v ← at_ trace d;
      let k := x - y in
      down ← comes_down v d k;
      let previous_k := if down : bool then k + 1 else k - 1 in
      previous_x ← at_ v (previous_k + offset);
      let previous_y := previous_x - previous_k in
      '(x, y, edits) ← climb (length a) previous_x previous_y x y edits;
      if x =? previous_x
      then t ← at_ b (y - 1); backtrack_from trace ds x (y - 1) ((Edit.Insert, t) :: edits)
      else t ← at_ a (x - 1); backtrack_from trace ds (x - 1) y ((Edit.Delete, t) :: edits)
  end.

Definition backtrack (trace : list (list Z)) (distance : Z) : option (list (Edit * string)) :=
  '(x, y, edits) ← backtrack_from trace (reverse (seqZ 1 distance)) n m [];
  '(_, _, edits) ← climb (length a) 0 0 x y edits;
  Some edits.
End Search.

Definition limit : Z := Z.min MAX_EDIT_DISTANCE (n + m).

Definition myers : option (option (list (Edit * string))) :=
  let offset := limit + 1 in
  found ← rounds offset (seqZ 0 (limit + 1)) (replicate (Z.to_nat (2 * limit + 3)) 0) [];
  match found with
  | None => Some None
  | Some (d, trace) => edits ← backtrack offset trace d; Some (Some edits)
  end.
End Myers.

(** [zip(..).take_while(|(a, b)| a == b).count()] *)
Fixpoint common (a b : list string) : nat :=
  match a, b with
  | x :: a, y :: b => if bool_decide (x = y) then S (common a b) else O
  | _, _ => O
  end.

Definition diff (before after : list string) : option (list (Edit * string)) :=
  let prefix := common before after in
  let suffix := common (reverse (drop prefix before)) (reverse (drop prefix after)) in
  let middle_before := drop prefix (take (length before - suffix) before) in
  let middle_after := drop prefix (take (length after - suffix) after) in
  found ← myers middle_before middle_after;
  let middle := match found with
                | Some middle => middle
                | None => (pair Edit.Delete <$> middle_before) ++ (pair Edit.Insert <$> middle_after)
                end in
  Some ((pair Edit.Equal <$> take prefix before) ++ middle ++
        (pair Edit.Equal <$> drop (length before - suffix) before)).

Definition counts (edits : list (Edit * string)) : nat * nat :=
  (length (filter (fun e => e.1 = Edit.Insert) edits), length (filter (fun e => e.1 = Edit.Delete) edits)).

(** ** What is shown *)

Definition line (e : Edit * string) : DiffLine :=
  {| dl_op := match e.1 with Edit.Equal => "equal" | Edit.Insert => "insert" | Edit.Delete => "delete" end;
     dl_text := e.2; dl_count := None |}.
Definition skip_ (count : nat) : DiffLine := {| dl_op := "skip"; dl_text := ""; dl_count := Some count |}.

Definition is_equal (e : Edit * string) : bool := bool_decide (e.1 = Edit.Equal).

(** A run of equal lines, [leading] at the start of the script, [trailing] at its end. *)
Definition render_run (context : nat) (run : list (Edit * string)) (leading trailing : bool) :
    list DiffLine :=
  let head := if leading then O else context in
  let tail := if trailing then O else context in
  let hidden := (length run - (head + tail))%nat in
  if (hidden <? 2)%nat then line <$> run
  else (line <$> take head run) ++ [skip_ hidden] ++ (line <$> drop (length run - tail) run).

Fixpoint span_equal (edits : list (Edit * string)) : list (Edit * string) * list (Edit * string) :=
  match edits with
  | e :: edits => if is_equal e then let '(run, rest) := span_equal edits in (e :: run, rest)
                  else ([], e :: edits)
  | [] => ([], [])
  end.

(** The [while] of [render]; each round takes at least one edit. *)
Fixpoint render_from (fuel : nat) (context : nat) (start : bool) (edits : list (Edit * string)) :
    list DiffLine :=
  match fuel, edits with
  | S fuel, e :: rest =>
      if is_equal e then
        let '(run, rest) := span_equal edits in
        render_run context run start (bool_decide (rest = [])) ++ render_from fuel context false rest
      else line e :: render_from fuel context false rest
  | _, _ => []
  end.

Definition render (edits : list (Edit * string)) (context : nat) : list DiffLine :=
  render_from (length edits) context true edits.

Example diff_example :
  diff ["a"; "b"; "c"; "d"] ["a"; "c"; "x"; "d"] =
  Some [(Edit.Equal, "a"); (Edit.Delete, "b"); (Edit.Equal, "c"); (Edit.Insert, "x"); (Edit.Equal, "d")].
Proof. vm_compute. reflexivity. Qed.

(** ** Facts: points reached

    [reaches d x y]: the first [x] lines of [a] become the first [y] of [b] with [d] edits,
    on a grid that goes on beyond the two texts. *)
Lemma at_Some {A} (l : list A) i x : at_ l i = Some x <-> 0 <= i /\ l !! Z.to_nat i = Some x.
Proof. unfold at_. destruct (Z.ltb_spec i 0); naive_solver lia. Qed.

Lemma at_is_Some {A} (l : list A) i : 0 <= i < Z.of_nat (length l) -> exists x, at_ l i = Some x.
Proof.
  intros Hi. destruct (lookup_lt_is_Some_2 l (Z.to_nat i)) as [x Hx]; [lia|].
  exists x. apply at_Some. split; [lia|done].
Qed.

Lemma at_bound {A} (l : list A) i x : at_ l i = Some x -> 0 <= i < Z.of_nat (length l).
Proof. intros [Hi Hl]%at_Some. apply lookup_lt_Some in Hl. lia. Qed.

Lemma set_at_Some {A} (l : list A) i x :
  0 <= i < Z.of_nat (length l) ->
  exists l', set_at l i x = Some l' /\ length l' = length l /\
    forall j, at_ l' j = if j =? i then Some x else at_ l j.
Proof.
  intros Hi. unfold set_at. destruct (Z.ltb_spec i 0); [lia|].
  destruct (Z.leb_spec (Z.of_nat (length l)) i); [lia|]. simpl.
  eexists. split; [done|]. split; [apply length_insert|]. intros j. unfold at_.
  destruct (Z.eqb_spec j i) as [->|Hj].
  - destruct (Z.ltb_spec i 0); [lia|]. apply list_lookup_insert_eq. lia.
  - destruct (Z.ltb_spec j 0); [done|]. apply list_lookup_insert_ne. lia.
Qed.

Section Reach.
Context (a b : list string).
Notation n := (Z.of_nat (length a)).
Notation m := (Z.of_nat (length b)).

(** The lines before [x + 1] and [y + 1] are the same. *)
Definition same (x y : Z) : Prop := exists t, at_ a x = Some t /\ at_ b y = Some t.

Inductive reaches : Z -> Z -> Z -> Prop :=
  | reach_origin : reaches 0 0 0
  | reach_delete d x y : reaches d x y -> reaches (d + 1) (x + 1) y
  | reach_insert d x y : reaches d x y -> reaches (d + 1) x (y + 1)
  | reach_equal d x y : reaches d x y -> same x y -> reaches d (x + 1) (y + 1).

(** From [x] to [x'] on the diagonal [k] the lines are the same. *)
Definition run (k x x' : Z) : Prop := forall i, x <= i < x' -> same i (i - k).

Lemma reaches_shape d x y :
  reaches d x y -> 0 <= d /\ 0 <= x /\ 0 <= y /\ Z.abs (x - y) <= d /\ Z.even (d - (x - y)) = true.
Proof.
  induction 1 as [|d x y _ IH|d x y _ IH|d x y _ IH _]; [done|..];
    destruct IH as (? & ? & ? & ? & He); (split_and!; [lia..|]).
  - by replace (d + 1 - (x + 1 - y)) with (d - (x - y)) by lia.
  - replace (d + 1 - (x - (y + 1))) with (d - (x - y) + 2) by lia. by rewrite Z.even_add, He.
  - by replace (d - (x + 1 - (y + 1))) with (d - (x - y)) by lia.
Qed.

Lemma reaches_run d k x x' : reaches d x (x - k) -> x <= x' -> run k x x' -> reaches d x' (x' - k).
Proof.
  intros Hr Hx Hrun.
  assert (forall j : nat, x + Z.of_nat j <= x' -> reaches d (x + Z.of_nat j) (x + Z.of_nat j - k)) as Hj.
  { induction j as [|j IH]; intros Hle; [by rewrite Z.add_0_r|].
    replace (x + Z.of_nat (S j)) with (x + Z.of_nat j + 1) by lia.
    replace (x + Z.of_nat j + 1 - k) with (x + Z.of_nat j - k + 1) by lia.
    apply reach_equal; [apply IH; lia|apply Hrun; lia]. }
  specialize (Hj (Z.to_nat (x' - x))). rewrite Z2Nat.id in Hj by lia.
  replace (x + (x' - x)) with x' in Hj by lia. apply Hj. lia.
Qed.

(** The last edit on the way to a point. *)
Lemma reaches_last d x y :
  reaches d x y ->
  (d = 0 /\ x = y /\ run 0 0 x) \/
  exists x1, reaches (d - 1) x1 (x1 + 1 - (x - y)) /\ x1 + 1 <= x /\ run (x - y) (x1 + 1) x \/
             reaches (d - 1) x1 (x1 - (x - y) - 1) /\ x1 <= x /\ run (x - y) x1 x.
Proof.
  intros Hr. induction Hr as [|d x y Hr _|d x y Hr _|d x y Hr IH Hs].
  - left. split_and!; [done..|]. intros i. lia.
  - right. exists x. left. split_and!; [|lia|intros i; lia].
    replace (d + 1 - 1) with d by lia. by replace (x + 1 - (x + 1 - y)) with y by lia.
  - right. exists x. right. split_and!; [|lia|intros i; lia].
    replace (d + 1 - 1) with d by lia. by replace (x - (x - (y + 1)) - 1) with y by lia.
  - replace (x + 1 - (y + 1)) with (x - y) by lia.
    assert (forall k x0, k = x - y -> x0 <= x -> run k x0 x -> run k x0 (x + 1)) as Hext.
    { intros k x0 -> Hx0 Hrun i Hi. destruct (decide (i = x)) as [->|]; [|apply Hrun; lia].
      by replace (x - (x - y)) with y by lia. }
    destruct IH as [(-> & -> & Hrun)|(x1 & [(H1 & Hx & Hrun)|(H1 & Hx & Hrun)])].
    + left. pose proof (reaches_shape _ _ _ Hr). split_and!; [done|lia|]. apply Hext; [lia..|done].
    + right. exists x1. left. split_and!; [done|lia|apply Hext; [done|lia|done]].
    + right. exists x1. right. split_and!; [done|lia|apply Hext; [done|lia|done]].
Qed.

(** The farthest point of a diagonal. *)
Definition farthest (d k x : Z) : Prop :=
  reaches d x (x - k) /\ forall x', reaches d x' (x' - k) -> x' <= x.

(** The point from which a round follows the equal lines of a diagonal. *)
Definition starts (d k x : Z) : Prop :=
  reaches d x (x - k) /\ forall x', reaches d x' (x' - k) -> x < x' -> run k x x'.

Lemma starts_origin : starts 0 0 0.
Proof.
  split; [constructor|]. intros x' Hr Hx.
  destruct (reaches_last _ _ _ Hr) as [(_ & _ & Hrun)|(x1 & [(H1 & _)|(H1 & _)])]; [done|..];
    apply reaches_shape in H1; lia.
Qed.

Lemma starts_step d k l r x :
  (k <> - d -> farthest (d - 1) (k - 1) l) -> (k <> d -> farthest (d - 1) (k + 1) r) ->
  0 < d -> - d <= k <= d ->
  x = (if (k =? - d) || negb (k =? d) && (l <? r) then r else l + 1) ->
  starts d k x.
Proof.
  intros Hl Hr Hd Hk Eq.
  assert (k <> - d -> reaches d (l + 1) (l + 1 - k)) as Hgo1.
  { intros Hne. destruct (Hl Hne) as [H1 _]. replace d with (d - 1 + 1) by lia.
    replace (l + 1 - k) with (l - (k - 1)) by lia. by constructor. }
  assert (k <> d -> reaches d r (r - k)) as Hgo2.
  { intros Hne. destruct (Hr Hne) as [H1 _]. replace d with (d - 1 + 1) by lia.
    replace (r - k) with (r - (k + 1) + 1) by lia. by constructor. }
  assert (reaches d x (x - k) /\ (k <> - d -> l + 1 <= x) /\ (k <> d -> r <= x)) as (Hx & Hxl & Hxr).
  { rewrite Eq. clear Eq. destruct (Z.eqb_spec k (- d)) as [->|Hn1]; simpl.
    - split; [apply Hgo2; lia|]. split; [done|lia].
    - destruct (Z.eqb_spec k d) as [->|Hn2]; simpl; [split; [auto|]; split; [lia|done]|].
      destruct (Z.ltb_spec l r); (split; [auto|]; split; intros; lia). }
  split; [done|]. intros x' Hr' Hlt.
  destruct (reaches_last _ _ _ Hr') as [(Hd0 & _)|(x1 & [(H1 & Hle & Hrun)|(H1 & Hle & Hrun)])]; [lia|..];
    replace (x' - (x' - k)) with k in * by lia; pose proof (reaches_shape _ _ _ H1) as (_ & _ & _ & Habs & _);
    intros i Hi; apply Hrun.
  - assert (k <> - d) as Hne by lia. destruct (Hl Hne) as [_ Hmax].
    specialize (Hmax x1). replace (x1 - (k - 1)) with (x1 + 1 - k) in Hmax by lia.
    specialize (Hmax H1). specialize (Hxl Hne). lia.
  - assert (k <> d) as Hne by lia. destruct (Hr Hne) as [_ Hmax].
    specialize (Hmax x1). replace (x1 - (k + 1)) with (x1 - k - 1) in Hmax by lia.
    specialize (Hmax H1). specialize (Hxr Hne). lia.
Qed.

(** [snake] goes as far as the lines are the same. *)
Lemma snake_spec k fuel x :
  0 <= x -> 0 <= x - k -> n - x <= Z.of_nat fuel ->
  exists x', snake a b fuel x (x - k) = Some (x', x' - k) /\ x <= x' /\ run k x x' /\ ~ same x' (x' - k).
Proof.
  revert x. induction fuel as [|fuel IH]; intros x Hx Hy Hf; simpl.
  - exists x. split_and!; [done|lia|intros i; lia|]. intros (t & Ht & _). apply at_bound in Ht. lia.
  - destruct (Z.ltb_spec x n); simpl;
      [|exists x; split_and!; [done|lia|intros i; lia|]; intros (t & Ht & _); apply at_bound in Ht; lia].
    destruct (Z.ltb_spec (x - k) m);
      [|exists x; split_and!; [done|lia|intros i; lia|]; intros (t & _ & Ht); apply at_bound in Ht; lia].
    destruct (at_is_Some a x) as [p Hp]; [lia|]. destruct (at_is_Some b (x - k)) as [q Hq]; [lia|].
    rewrite Hp, Hq. simpl. destruct (bool_decide_reflect (p = q)) as [->|Hne].
    + replace (x - k + 1) with (x + 1 - k) by lia.
      destruct (IH (x + 1)) as (x' & Hs & Hle & Hrun & Hn); [lia..|].
      exists x'. split_and!; [done|lia| |done]. intros i Hi.
      destruct (decide (i = x)) as [->|]; [by exists q|apply Hrun; lia].
    + exists x. split_and!; [done|lia|intros i; lia|]. intros (t & Ht & Ht'). congruence.
Qed.

Lemma snake_farthest d k x x' :
  starts d k x -> x <= x' -> run k x x' -> ~ same x' (x' - k) -> farthest d k x'.
Proof.
  intros [Hr Hs] Hle Hrun Hn. split; [by eapply reaches_run|].
  intros x'' Hr''. destruct (Z.le_gt_cases x'' x') as [|Hgt]; [done|].
  destruct Hn. apply (Hs x''); [done|lia|lia].
Qed.
End Reach.

(** ** Facts: the search

    [good d v]: at the beginning of round [d] the vector holds the farthest points of the
    round before. *)
Section Forward.
Context (a b : list string).
Notation n := (Z.of_nat (length a)).
Notation m := (Z.of_nat (length b)).
Context (lim : Z).
Notation offset := (lim + 1).
Notation reaches := (reaches a b).
Notation farthest := (farthest a b).

Record good (d : Z) (v : list Z) : Prop := {
  good_length : Z.of_nat (length v) = 2 * lim + 3;
  good_origin : d = 0 -> at_ v (1 + offset) = Some 0;
  good_points k : 0 < d -> Z.abs k <= d - 1 -> Z.even (d - 1 - k) = true ->
    exists x, at_ v (k + offset) = Some x /\ farthest (d - 1) k x;
}.

Definition on_round (d k : Z) : Prop := - d <= k <= d /\ Z.even (d - k) = true.

Lemma on_round_inside d k : on_round d k -> (k <> - d -> - d + 2 <= k) /\ (k <> d -> k <= d - 2).
Proof. intros [Hk He]. apply Z.even_spec in He as [j Hj]. lia. Qed.

Lemma even_sub_pred d k : Z.even (d - k) = true -> Z.even (d - 1 - (k - 1)) = true.
Proof. intros He. by replace (d - 1 - (k - 1)) with (d - k) by lia. Qed.
Lemma even_sub_succ d k : Z.even (d - k) = true -> Z.even (d - 1 - (k + 1)) = true.
Proof. intros He. replace (d - 1 - (k + 1)) with (d - k - 2) by lia. by rewrite Z.even_sub, He. Qed.

(** What a round and the way back both read. *)
Lemma sources d k v :
  good d v -> 0 < d -> on_round d k ->
  exists l r, comes_down offset v d k = Some ((k =? - d) || negb (k =? d) && (l <? r)) /\
    (k <> - d -> at_ v (k - 1 + offset) = Some l /\ farthest (d - 1) (k - 1) l) /\
    (k <> d -> at_ v (k + 1 + offset) = Some r /\ farthest (d - 1) (k + 1) r).
Proof.
  intros Hv Hd Hk'. pose proof (on_round_inside _ _ Hk') as [Hk1 Hk2]. destruct Hk' as [Hk He].
  unfold comes_down.
  assert (k <> - d -> exists l, at_ v (k - 1 + offset) = Some l /\ farthest (d - 1) (k - 1) l) as Hl.
  { intros Hne. apply Hv; [done|lia|by apply even_sub_pred]. }
  assert (k <> d -> exists r, at_ v (k + 1 + offset) = Some r /\ farthest (d - 1) (k + 1) r) as Hr.
  { intros Hne. apply Hv; [done|lia|by apply even_sub_succ]. }
  destruct (Z.eqb_spec k (- d)) as [->|H1].
  { destruct Hr as [r Hr]; [lia|]. exists 0, r. split_and!; [done|lia|done]. }
  destruct (Hl H1) as [l Hl']. destruct (Z.eqb_spec k d) as [->|H2].
  { exists l, 0. split_and!; [done..|lia]. }
  destruct (Hr H2) as [r Hr']. exists l, r. destruct Hl' as [-> ?], Hr' as [-> ?]. by split_and!.
Qed.

(** The point a diagonal is reached from, and the edit. *)
Lemma came_from d k v :
  good d v -> 0 < d -> on_round d k ->
  exists down px, comes_down offset v d k = Some down /\
    at_ v ((if down : bool then k + 1 else k - 1) + offset) = Some px /\
    farthest (d - 1) (if down then k + 1 else k - 1) px /\
    starts a b d k (if down then px else px + 1).
Proof.
  intros Hv Hd Hk. destruct (sources d k v) as (l & r & Hc & Hl & Hr); [done..|].
  pose proof (starts_step a b d k l r _ (fun H => proj2 (Hl H)) (fun H => proj2 (Hr H)) Hd (proj1 Hk) eq_refl)
    as Hst.
  exists ((k =? - d) || negb (k =? d) && (l <? r)). revert Hc Hst.
  destruct (Z.eqb_spec k (- d)) as [H1|H1]; simpl;
    [|destruct (Z.eqb_spec k d) as [H2|H2]; simpl; [|destruct (l <? r)]]; intros Hc Hst.
  - destruct Hr as [? ?]; [lia|]. by exists r.
  - destruct Hl as [? ?]; [lia|]. by exists l.
  - destruct Hr as [? ?]; [done|]. by exists r.
  - destruct Hl as [? ?]; [done|]. by exists l.
Qed.

Lemma start_x_spec d k v :
  good d v -> 0 <= d -> on_round d k ->
  exists x, start_x offset v d k = Some x /\ starts a b d k x.
Proof.
  intros Hv Hd Hk. unfold start_x. destruct (decide (d = 0)) as [->|Hd0].
  { destruct Hk as [Hk _]. assert (k = 0) as -> by lia. exists 0. split; [|apply starts_origin].
    unfold comes_down. simpl. by apply (good_origin 0 v Hv). }
  destruct (came_from d k v) as (down & px & -> & Hat & _ & Hs); [done|lia|done|].
  eexists. split; [|exact Hs]. cbn [mbind option_bind]. by destruct down; rewrite Hat.
Qed.

Lemma good_set d k x v v' :
  good d v -> on_round d k -> 0 <= d -> length v' = length v ->
  (forall j, at_ v' j = if j =? k + offset then Some x else at_ v j) -> good d v'.
Proof.
  intros Hv [Hk He] Hd Hlen Hat. split.
  - rewrite Hlen. apply Hv.
  - intros ->. rewrite Hat. destruct (Z.eqb_spec (1 + offset) (k + offset)); [lia|]. by apply Hv.
  - intros j Hd0 Hj Hej. rewrite Hat.
    destruct (Z.eqb_spec (j + offset) (k + offset)) as [Heq|_]; [|by apply Hv].
    exfalso. assert (j = k) as -> by lia. replace (d - 1 - k) with (d - k - 1) in Hej by lia.
    by rewrite Z.even_sub, He in Hej.
Qed.

(** The end of both texts is not among the points of a round. *)
Definition short (k x : Z) : Prop := ~ (n <= x /\ m <= x - k).

Lemma diagonals_spec d ks v :
  good d v -> 0 <= d <= lim -> (forall k, k ∈ ks -> on_round d k) ->
  exists found v', diagonals a b offset d ks v = Some (found, v') /\ good d v' /\
    if found : bool then exists k x, farthest d k x /\ ~ short k x
    else (forall k, k ∈ ks -> exists x, at_ v' (k + offset) = Some x /\ farthest d k x /\ short k x) /\
         forall k, k ∉ ks -> at_ v' (k + offset) = at_ v (k + offset).
Proof.
  intros Hv Hd. revert v Hv. induction ks as [|k ks IH]; intros v Hv Hks; cbn [diagonals].
  { exists false, v. split_and!; [done..|by intros k ?%elem_of_nil|done]. }
  assert (on_round d k) as Hk by (apply Hks; left).
  destruct (start_x_spec d k v) as (x & -> & Hx); [done|lia|done|]. cbn [mbind option_bind].
  destruct Hx as [Hr Hs]. pose proof (reaches_shape _ _ _ _ _ Hr) as (_ & Hx0 & Hy0 & _ & _).
  destruct (snake_spec a b k (length a) x) as (x' & -> & Hle & Hrun & Hn); [lia..|]. cbn [mbind option_bind].
  assert (farthest d k x') as Hfar by (by eapply snake_farthest).
  destruct (set_at_Some v (k + offset) x') as (v1 & -> & Hlen & Hat);
    [rewrite (good_length _ _ Hv); destruct Hk; lia|]. cbn [mbind option_bind].
  assert (good d v1) as Hv1 by (apply (good_set d k x' v v1); [done|done|lia|done|done]).
  destruct ((n <=? x') && (m <=? x' - k)) eqn:Ereach.
  { exists true, v1. split_and!; [done..|]. exists k, x'. split; [done|]. intros Hsh. apply Hsh. lia. }
  destruct (IH v1 Hv1) as (found & v' & Hd' & Hv' & Hfound); [intros j Hj; apply Hks; by right|].
  exists found, v'. split_and!; [done..|]. destruct found; [done|]. destruct Hfound as [Hin Hout]. split.
  - intros j [->|Hj]%elem_of_cons; [|by apply Hin].
    destruct (decide (k ∈ ks)) as [Hin'|Hnin]; [by apply Hin|].
    exists x'. rewrite (Hout k Hnin), Hat, Z.eqb_refl. split_and!; [done..|]. intros [? ?]. lia.
  - intros j Hj. apply not_elem_of_cons in Hj as [Hjk Hj]. rewrite (Hout j Hj), Hat.
    destruct (Z.eqb_spec (j + offset) (k + offset)); [lia|done].
Qed.

Lemma elem_of_diagonals d k : 0 <= d -> k ∈ diagonals_of d <-> on_round d k.
Proof.
  intros Hd. unfold diagonals_of, on_round. rewrite list_elem_of_fmap. split.
  - intros (i & -> & Hi%elem_of_seqZ). split; [lia|].
    replace (d - (- d + 2 * i)) with (2 * (d - i)) by lia. by rewrite Z.even_mul.
  - intros [Hk He]. apply Z.even_spec in He as [j Hj]. exists (d - j). split; [lia|].
    apply elem_of_seqZ. lia.
Qed.

(** A way beyond the end goes through it, with fewer edits. *)
Lemma reaches_clamp d x y :
  reaches d x y ->
  exists d', d' <= d /\ reaches d' (Z.min x n) (Z.min y m) /\ (d' = d -> x <= n /\ y <= m).
Proof.
  induction 1 as [|d x y _ (d' & Hle & Hr & He)|d x y _ (d' & Hle & Hr & He)|d x y _ (d' & Hle & Hr & He) Hs].
  - exists 0. split_and!; [done| |lia]. rewrite !Z.min_l by lia. constructor.
  - destruct (Z.lt_ge_cases x n).
    + exists (d' + 1). split_and!; [lia| |lia]. rewrite Z.min_l in Hr |- * by lia. by constructor.
    + exists d'. split_and!; [lia| |lia]. by rewrite (Z.min_r x), (Z.min_r (x + 1)) in * by lia.
  - destruct (Z.lt_ge_cases y m).
    + exists (d' + 1). split_and!; [lia| |lia]. rewrite (Z.min_l y), (Z.min_l (y + 1)) in * by lia. by constructor.
    + exists d'. split_and!; [lia| |lia]. by rewrite (Z.min_r y), (Z.min_r (y + 1)) in * by lia.
  - destruct Hs as (t & Hx & Hy). pose proof (at_bound _ _ _ Hx). pose proof (at_bound _ _ _ Hy).
    exists d'. rewrite !Z.min_l in * by lia. split_and!; [done| |lia]. apply reach_equal; [done|by exists t].
Qed.

(** What a search leaves: the distance is the least one and the trace is good, or no way to
    the end has so few edits. *)
Definition searched (r : option (Z * list (list Z))) : Prop :=
  match r with
  | None => forall j, j <= lim -> ~ reaches j n m
  | Some (d, trace) =>
      0 <= d <= lim /\ reaches d n m /\ (forall j, j < d -> ~ reaches j n m) /\
      forall j, 0 <= j <= d -> exists v, at_ trace j = Some v /\ good j v
  end.

Lemma rounds_spec (len : nat) d v trace :
  0 <= d -> d + Z.of_nat len = lim + 1 -> good d v ->
  Z.of_nat (length trace) = d -> (forall j, 0 <= j < d -> exists v, at_ trace j = Some v /\ good j v) ->
  (forall j, j < d -> ~ reaches j n m) ->
  exists r, rounds a b offset (seqZ d (Z.of_nat len)) v trace = Some r /\ searched r.
Proof.
  revert d v trace. induction len as [|len IH]; intros d v trace Hd Hsum Hv Hlen Htr Hno.
  { exists None. split; [done|]. intros j Hj. apply Hno. lia. }
  rewrite seqZ_cons by lia. cbn [rounds].
  destruct (diagonals_spec d (diagonals_of d) v) as (found & v' & -> & Hv' & Hfound);
    [done|lia|intros k; by rewrite elem_of_diagonals|]. cbn [mbind option_bind].
  assert (forall j, 0 <= j < d + 1 -> exists w, at_ (trace ++ [v]) j = Some w /\ good j w) as Htr'.
  { intros j Hj. destruct (decide (j = d)) as [->|].
    - exists v. split; [|done]. apply at_Some. split; [lia|].
      rewrite lookup_app_r by lia. by replace (Z.to_nat d - length trace)%nat with 0%nat by lia.
    - destruct (Htr j) as (w & [Hj0 Hw]%at_Some & Hg); [lia|]. exists w. split; [|done].
      apply at_Some. split; [lia|]. by apply lookup_app_l_Some. }
  destruct found.
  - destruct Hfound as (k & x & [Hr _] & Hsh). exists (Some (d, trace ++ [v])). split; [done|].
    assert (n <= x /\ m <= x - k) as [Hx Hy].
    { unfold short in Hsh. destruct (decide (n <= x)); [destruct (decide (m <= x - k)); [done|]|];
        destruct Hsh; intros [? ?]; lia. }
    destruct (reaches_clamp _ _ _ Hr) as (d' & Hle & Hr' & _). rewrite !Z.min_r in Hr' by lia.
    assert (d' = d) as ->. { destruct (decide (d' = d)); [done|]. destruct (Hno d'); [lia|done]. }
    split_and!; [lia|lia|done|done|]. intros j Hj. apply Htr'. lia.
  - destruct Hfound as [Hin _]. replace (Z.pred (Z.of_nat (S len))) with (Z.of_nat len) by lia.
    replace (Z.succ d) with (d + 1) by lia. apply IH; [lia|lia| |rewrite length_app; simpl; lia|done|].
    + split; [apply Hv'|lia|]. intros k _ Hk He. replace (d + 1 - 1) with d in * by lia.
      destruct (Hin k) as (x & Hx & Hf & _); [apply elem_of_diagonals; [done|split; [lia|done]]|by exists x].
    + intros j Hj Hr. destruct (decide (j = d)) as [->|]; [|by destruct (Hno j); [lia|]].
      pose proof (reaches_shape _ _ _ _ _ Hr) as (_ & _ & _ & Habs & He).
      destruct (Hin (n - m)) as (x & _ & [_ Hmax] & Hsh); [apply elem_of_diagonals; [done|split; [lia|done]]|].
      apply Hsh. specialize (Hmax n). replace (n - (n - m)) with m in Hmax by lia. specialize (Hmax Hr). lia.
Qed.
End Forward.

(** ** Facts: scripts *)

(** The lines a script reads, the lines it writes and the number of its edits. *)
Fixpoint olds (es : list (Edit * string)) : list string :=
  match es with
  | [] => []
  | (Edit.Insert, _) :: es => olds es
  | (_, t) :: es => t :: olds es
  end.
Fixpoint news (es : list (Edit * string)) : list string :=
  match es with
  | [] => []
  | (Edit.Delete, _) :: es => news es
  | (_, t) :: es => t :: news es
  end.
Fixpoint cost (es : list (Edit * string)) : Z :=
  match es with
  | [] => 0
  | e :: es => (if is_equal e then 0 else 1) + cost es
  end.
Definition leads (es : list (Edit * string)) (before after : list string) : Prop :=
  olds es = before /\ news es = after.

Lemma cost_nonneg es : 0 <= cost es.
Proof. induction es as [|e es IH]; simpl; [done|]. destruct (is_equal e); lia. Qed.

Lemma olds_app es fs : olds (es ++ fs) = olds es ++ olds fs.
Proof. induction es as [|[[] t] es IH]; simpl; [done|..]; by rewrite IH. Qed.
Lemma news_app es fs : news (es ++ fs) = news es ++ news fs.
Proof. induction es as [|[[] t] es IH]; simpl; [done|..]; by rewrite IH. Qed.
Lemma cost_app es fs : cost (es ++ fs) = cost es + cost fs.
Proof. induction es as [|e es IH]; simpl; [done|]. rewrite IH. lia. Qed.
Lemma leads_app es fs a b c d : leads es a b -> leads fs c d -> leads (es ++ fs) (a ++ c) (b ++ d).
Proof. intros [<- <-] [<- <-]. split; [apply olds_app|apply news_app]. Qed.
Lemma leads_equal l : leads (pair Edit.Equal <$> l) l l.
Proof. induction l as [|t l [IHo IHn]]; [done|]. split; simpl; by f_equal. Qed.
Lemma leads_delete l : leads (pair Edit.Delete <$> l) l [].
Proof. induction l as [|t l [IHo IHn]]; [done|]. split; simpl; by f_equal. Qed.
Lemma leads_insert l : leads (pair Edit.Insert <$> l) [] l.
Proof. induction l as [|t l [IHo IHn]]; [done|]. split; simpl; by f_equal. Qed.
Lemma cost_equal l : cost (pair Edit.Equal <$> l) = 0.
Proof. induction l as [|t l IH]; [done|]. rewrite fmap_cons. cbn [cost]. by rewrite IH. Qed.
Lemma cost_other e l : e <> Edit.Equal -> cost (pair e <$> l) = Z.of_nat (length l).
Proof.
  intros He. induction l as [|t l IH]; [done|]. rewrite fmap_cons. cbn [cost length].
  rewrite IH. unfold is_equal. rewrite bool_decide_eq_false_2 by done. lia.
Qed.

(** Everything removed, then everything added. *)
Definition replace_all (a b : list string) : list (Edit * string) :=
  (pair Edit.Delete <$> a) ++ (pair Edit.Insert <$> b).
Lemma leads_replace a b : leads (replace_all a b) a b.
Proof.
  pose proof (leads_app _ _ _ _ _ _ (leads_delete a) (leads_insert b)) as H.
  by rewrite app_nil_r in H.
Qed.
Lemma cost_replace a b : cost (replace_all a b) = Z.of_nat (length a) + Z.of_nat (length b).
Proof. unfold replace_all. by rewrite cost_app, !cost_other. Qed.

Lemma drop_at {A} (l : list A) i t :
  at_ l (i - 1) = Some t -> drop (Z.to_nat (i - 1)) l = t :: drop (Z.to_nat i) l.
Proof.
  intros [Hi Hl]%at_Some. replace (Z.to_nat i) with (S (Z.to_nat (i - 1))) by lia. by apply drop_S.
Qed.

(** ** Facts: the way back *)
Section Back.
Context (a b : list string).
Notation n := (Z.of_nat (length a)).
Notation m := (Z.of_nat (length b)).
Context (lim : Z).
Notation offset := (lim + 1).

(** The script leads from a point to the end. *)
Definition tells (es : list (Edit * string)) (x y : Z) : Prop :=
  0 <= x <= n /\ 0 <= y <= m /\ leads es (drop (Z.to_nat x) a) (drop (Z.to_nat y) b).

Lemma tells_equal es x y t :
  tells es x y -> at_ a (x - 1) = Some t -> at_ b (y - 1) = Some t ->
  tells ((Edit.Equal, t) :: es) (x - 1) (y - 1).
Proof.
  intros (Hx & Hy & Ho & Hn) Ha Hb. pose proof (at_bound _ _ _ Ha). pose proof (at_bound _ _ _ Hb).
  split_and!; [lia..|]. split; simpl; rewrite (drop_at _ _ _ Ha) || rewrite (drop_at _ _ _ Hb); by f_equal.
Qed.
Lemma tells_insert es x y t :
  tells es x y -> at_ b (y - 1) = Some t -> tells ((Edit.Insert, t) :: es) x (y - 1).
Proof.
  intros (Hx & Hy & Ho & Hn) Hb. pose proof (at_bound _ _ _ Hb).
  split_and!; [lia..|]. split; simpl; [done|]. rewrite (drop_at _ _ _ Hb). by f_equal.
Qed.
Lemma tells_delete es x y t :
  tells es x y -> at_ a (x - 1) = Some t -> tells ((Edit.Delete, t) :: es) (x - 1) y.
Proof.
  intros (Hx & Hy & Ho & Hn) Ha. pose proof (at_bound _ _ _ Ha).
  split_and!; [lia..|]. split; simpl; [|done]. rewrite (drop_at _ _ _ Ha). by f_equal.
Qed.

(** [climb] goes back along equal lines to where a round had started them. *)
Lemma climb_spec k fuel to_x to_y x0 x edits :
  x0 <= x -> x - x0 <= Z.of_nat fuel -> run a b k x0 x ->
  (forall i, x0 <= i <= x -> (to_x <? i) && (to_y <? i - k) = (x0 <? i)) ->
  tells edits x (x - k) ->
  exists edits', climb a fuel to_x to_y x (x - k) edits = Some (x0, x0 - k, edits') /\
    tells edits' x0 (x0 - k) /\ cost edits' = cost edits.
Proof.
  revert x edits. induction fuel as [|fuel IH]; intros x edits Hle Hf Hrun Hto Ht.
  { assert (x = x0) as -> by lia. by exists edits. }
  cbn [climb]. rewrite Hto by lia. destruct (Z.ltb_spec x0 x).
  - destruct (Hrun (x - 1)) as (t & Ha & Hb); [lia|]. rewrite Ha. cbn [mbind option_bind].
    replace (x - 1 - k) with (x - k - 1) in Hb by lia.
    replace (x - k - 1) with (x - 1 - k) by lia.
    destruct (IH (x - 1) ((Edit.Equal, t) :: edits)) as (edits' & Hc & Ht' & Hcost);
      [lia|lia|intros i Hi; apply Hrun; lia|intros i Hi; apply Hto; lia| |by exists edits'].
    replace (x - 1 - k) with (x - k - 1) by lia. by apply tells_equal.
  - assert (x = x0) as -> by lia. by exists edits.
Qed.

(** One distance of [backtrack]: along equal lines, then an edit. *)
Lemma back_step v d k x edits :
  good a b lim d v -> 0 < d -> on_round d k -> farthest a b d k x -> tells edits x (x - k) ->
  exists down px edits' t,
    comes_down offset v d k = Some down /\
    let pk := if down : bool then k + 1 else k - 1 in
    let x0 := if down then px else px + 1 in
    at_ v (pk + offset) = Some px /\ farthest a b (d - 1) pk px /\
    climb a (length a) px (px - pk) x (x - k) edits = Some (x0, x0 - k, edits') /\
    (if down then at_ b (px - k - 1) = Some t /\ tells ((Edit.Insert, t) :: edits') px (px - pk)
     else at_ a (px + 1 - 1) = Some t /\ tells ((Edit.Delete, t) :: edits') px (px - pk)) /\
    cost edits' = cost edits.
Proof.
  intros Hv Hd Hk [Hr Hmax] Ht.
  destruct (came_from a b lim d k v) as (down & px & Hc & Hat & Hpf & [Hsr Hsrun]); [done..|].
  pose proof (reaches_shape _ _ _ _ _ (proj1 Hpf)) as (_ & Hpx & Hpy & _ & _).
  set (x0 := if down then px else px + 1) in *. assert (x0 <= x) as Hle by by apply Hmax.
  destruct (climb_spec k (length a) px (px - (if down then k + 1 else k - 1)) x0 x edits)
    as (edits' & Hcl & Ht' & Hcost); [done| | | |done|].
  - destruct Ht as (? & _). subst x0. destruct down; lia.
  - destruct (Z.eq_dec x0 x) as [->|]; [intros i; lia|apply Hsrun; [done|lia]].
  - intros i Hi. apply eq_true_iff_eq. rewrite andb_true_iff, !Z.ltb_lt. subst x0. destruct down; lia.
  - pose proof Ht' as (Hx0 & Hy0 & _). exists down, px, edits'. subst x0. destruct down.
    + destruct (at_is_Some b (px - k - 1)) as [t Hbt]; [lia|]. exists t. cbv zeta.
      split; [done|]. split; [done|]. split; [done|]. split; [done|]. split; [|done]. split; [done|]. replace (px - (k + 1)) with (px - k - 1) by lia. by apply tells_insert.
    + destruct (at_is_Some a (px + 1 - 1)) as [t Hbt]; [lia|]. exists t. cbv zeta.
      split; [done|]. split; [done|]. split; [done|]. split; [done|]. split; [|done]. split; [done|]. replace (px - (k - 1)) with (px + 1 - k) by lia.
      apply (tells_delete _ _ _ _ Ht') in Hbt. by replace (px + 1 - 1) with px in Hbt by lia.
Qed.

Lemma backtrack_from_spec trace (d : nat) x y edits :
  (forall j, 0 <= j <= Z.of_nat d -> exists v, at_ trace j = Some v /\ good a b lim j v) ->
  farthest a b (Z.of_nat d) (x - y) x -> tells edits x y ->
  exists x0 y0 edits0,
    backtrack_from a b offset trace (reverse (seqZ 1 (Z.of_nat d))) x y edits = Some (x0, y0, edits0) /\
    farthest a b 0 (x0 - y0) x0 /\ tells edits0 x0 y0 /\ cost edits0 = cost edits + Z.of_nat d.
Proof.
  revert x y edits. induction d as [|d IH]; intros x y edits Htr Hf Ht.
  { exists x, y, edits. split_and!; [done..|lia]. }
  replace (Z.of_nat (S d)) with (Z.of_nat d + 1) in * by lia.
  rewrite seqZ_app, reverse_app by lia. replace (1 + Z.of_nat d) with (Z.of_nat d + 1) by lia.
  change (reverse (seqZ (Z.of_nat d + 1) 1)) with [0 + (Z.of_nat d + 1)]. rewrite Z.add_0_l.
  cbn [app backtrack_from].
  destruct (Htr (Z.of_nat d + 1)) as (v & -> & Hv); [lia|]. cbn [mbind option_bind].
  pose proof (reaches_shape _ _ _ _ _ (proj1 Hf)) as (_ & _ & _ & Habs & He).
  replace y with (x - (x - y)) in Ht by lia. replace (x - (x - (x - y))) with (x - y) in Habs, He by lia.
  destruct (back_step v (Z.of_nat d + 1) (x - y) x edits) as (down & px & edits' & t & -> & Hat & Hpf & Hcl & Ht' & Hcost);
    [done|lia|split; [lia|done]|done|done|].
  replace (x - (x - y)) with y in Hcl by lia. replace (Z.of_nat d + 1 - 1) with (Z.of_nat d) in Hpf by lia.
  cbn [mbind option_bind]. rewrite Hat. cbn [mbind option_bind]. rewrite Hcl. cbn [mbind option_bind].
  assert (forall e : Edit, cost ((e, t) :: edits') = (if is_equal (e, t) then 0 else 1) + cost edits) as Hce
    by (intros e; cbn [cost]; by rewrite Hcost).
  destruct down, Ht' as [Ht1 Ht2].
  - rewrite Z.eqb_refl, Ht1. cbn [mbind option_bind].
    replace (px - (x - y) - 1) with (px - (x - y + 1)) by lia.
    destruct (IH px (px - (x - y + 1)) ((Edit.Insert, t) :: edits')) as (x1 & y1 & e1 & Hb1 & Hf1 & Ht1' & Hc1);
      [intros j Hj; apply Htr; lia|by replace (px - (px - (x - y + 1))) with (x - y + 1) by lia|done|].
    exists x1, y1, e1. split_and!; [done..|]. rewrite Hc1, Hce. simpl. lia.
  - destruct (Z.eqb_spec (px + 1) px); [lia|]. rewrite Ht1. cbn [mbind option_bind].
    replace (px + 1 - 1) with px by lia. replace (px + 1 - (x - y)) with (px - (x - y - 1)) by lia.
    destruct (IH px (px - (x - y - 1)) ((Edit.Delete, t) :: edits')) as (x1 & y1 & e1 & Hb1 & Hf1 & Ht1' & Hc1);
      [intros j Hj; apply Htr; lia|by replace (px - (px - (x - y - 1))) with (x - y - 1) by lia|done|].
    exists x1, y1, e1. split_and!; [done..|]. rewrite Hc1, Hce. simpl. lia.
Qed.

Lemma reaches_script es d x y :
  reaches a b d x y -> tells es x y -> reaches a b (d + cost es) n m.
Proof.
  revert d x y. induction es as [|[e t] es IH]; intros d x y Hr (Hx & Hy & Ho & Hn); simpl in *.
  - assert (x = n /\ y = m) as [-> ->].
    { apply (f_equal length) in Ho, Hn. rewrite length_drop in Ho, Hn. simpl in *. lia. }
    by rewrite Z.add_0_r.
  - assert (forall (l : list string) i s, 0 <= i <= Z.of_nat (length l) -> t :: s = drop (Z.to_nat i) l ->
              at_ l i = Some t /\ s = drop (Z.to_nat (i + 1)) l /\ i + 1 <= Z.of_nat (length l)) as Hcut.
    { intros l i s Hi Hd. assert (l !! Z.to_nat i = Some t) as Hl.
      { rewrite <-(Nat.add_0_r (Z.to_nat i)), <-lookup_drop, <-Hd. done. }
      split; [apply at_Some; split; [lia|done]|]. pose proof (lookup_lt_Some _ _ _ Hl). split; [|lia].
      rewrite (drop_S _ _ _ Hl) in Hd. injection Hd as ->. f_equal. lia. }
    destruct e; simpl in *.
    + destruct (Hcut a x _ Hx Ho) as (Ha & Ho' & ?). destruct (Hcut b y _ Hy Hn) as (Hb & Hn' & ?).
      apply (IH _ (x + 1) (y + 1)); [apply reach_equal; [done|by exists t]|]. split_and!; [lia..|by split].
    + destruct (Hcut b y _ Hy Hn) as (Hb & Hn' & ?). rewrite Z.add_assoc.
      apply (IH _ x (y + 1)); [by apply reach_insert|]. split_and!; [lia..|by split].
    + destruct (Hcut a x _ Hx Ho) as (Ha & Ho' & ?). rewrite Z.add_assoc.
      apply (IH _ (x + 1) y); [by apply reach_delete|]. split_and!; [lia..|by split].
Qed.
End Back.

(** ** Facts: the whole of the search *)

Lemma leads_tells es a b : leads es a b <-> tells a b es 0 0.
Proof. unfold tells. simpl. rewrite !drop_0. split; [intros H; split_and!; [lia..|done]|by intros (_ & _ & ?)]. Qed.

Lemma script_reaches a b fs :
  leads fs a b -> reaches a b (cost fs) (Z.of_nat (length a)) (Z.of_nat (length b)).
Proof. intros Hfs%leads_tells. by apply (reaches_script a b fs 0 0 0); [constructor|]. Qed.

(** The end is the farthest point of its diagonal, at the least distance. *)
Lemma end_is_farthest a b d :
  reaches a b d (Z.of_nat (length a)) (Z.of_nat (length b)) ->
  (forall j, j < d -> ~ reaches a b j (Z.of_nat (length a)) (Z.of_nat (length b))) ->
  farthest a b d (Z.of_nat (length a) - Z.of_nat (length b)) (Z.of_nat (length a)).
Proof.
  intros Hr Hmin. split; [by replace (_ - (_ - _)) with (Z.of_nat (length b)) by lia|].
  intros x' Hx'. destruct (reaches_clamp a b _ _ _ Hx') as (d' & Hle & Hc & He).
  destruct (decide (d' = d)) as [Heq|Hne]; [by apply He|].
  destruct (Z.le_gt_cases x' (Z.of_nat (length a))) as [|Hgt]; [done|].
  rewrite !Z.min_r in Hc by lia. destruct (Hmin d'); [lia|done].
Qed.

Lemma backtrack_spec a b lim trace d :
  searched a b lim (Some (d, trace)) ->
  exists es, backtrack a b (lim + 1) trace d = Some es /\ leads es a b /\ cost es = d.
Proof.
  intros (Hd & Hreach & Hmin & Htr). unfold backtrack.
  destruct (backtrack_from_spec a b lim trace (Z.to_nat d) (Z.of_nat (length a)) (Z.of_nat (length b)) [])
    as (x0 & y0 & es & Hb & [Hr0 _] & Ht & Hc).
  - intros j Hj. apply Htr. lia.
  - rewrite Z2Nat.id by lia. by apply end_is_farthest.
  - split_and!; [lia..|]. by rewrite !Nat2Z.id, !drop_all.
  - rewrite Z2Nat.id in Hb, Hc by lia. rewrite Hb. cbn [mbind option_bind].
    pose proof (reaches_shape _ _ _ _ _ Hr0) as (_ & Hx0 & _ & Habs & _).
    assert (y0 = x0) as -> by lia. rewrite Z.sub_diag, Z.sub_0_r in Hr0.
    destruct (climb_spec a b 0 (length a) 0 0 0 x0 es) as (es' & Hcl & Ht' & Hc').
    + done.
    + destruct Ht. lia.
    + destruct (reaches_last _ _ _ _ _ Hr0) as [(_ & _ & Hrun)|(x1 & [(H1 & _)|(H1 & _)])]; [done|..];
        apply reaches_shape in H1; lia.
    + intros i Hi. by rewrite Z.sub_0_r, andb_diag.
    + by rewrite Z.sub_0_r.
    + rewrite Z.sub_0_r in Hcl. rewrite Hcl. exists es'. split_and!; [done|by apply leads_tells|].
      simpl in Hc. lia.
Qed.

(** A script of [myers] is a shortest one; without a script every one is long. *)
Lemma myers_spec a b :
  exists r, myers a b = Some r /\
    match r with
    | Some es => leads es a b /\ forall fs, leads fs a b -> cost es <= cost fs
    | None => forall fs, leads fs a b -> MAX_EDIT_DISTANCE < cost fs
    end.
Proof.
  set (lim := limit a b). assert (0 <= lim) as Hlim by (unfold lim, limit, MAX_EDIT_DISTANCE; lia).
  unfold myers. fold lim.
  destruct (rounds_spec a b lim (Z.to_nat (lim + 1)) 0 (replicate (Z.to_nat (2 * lim + 3)) 0) [])
    as (r & Hr & Hs); [lia|lia| |done|intros j; lia| |].
  - split; [rewrite length_replicate; lia| |intros k; lia].
    intros _. apply at_Some. split; [lia|]. apply lookup_replicate_2. lia.
  - intros j Hj Hr. apply reaches_shape in Hr. lia.
  - rewrite Z2Nat.id in Hr by lia. rewrite Hr. cbn [mbind option_bind].
    destruct r as [[d trace]|].
    + destruct (backtrack_spec _ _ _ _ _ Hs) as (es & -> & Hes & Hc). destruct Hs as (_ & _ & Hmin & _).
      exists (Some es). split; [done|]. split; [done|]. intros fs Hfs.
      destruct (Z.le_gt_cases (cost es) (cost fs)) as [|Hlt]; [done|].
      destruct (Hmin (cost fs)); [lia|by apply script_reaches].
    + exists None. split; [done|]. intros fs Hfs. simpl in Hs.
      destruct (Z.le_gt_cases (cost fs) MAX_EDIT_DISTANCE) as [Hle|]; [|done].
      destruct (decide (cost fs <= lim)) as [Hl|Hl]; [by destruct (Hs (cost fs) Hl); apply script_reaches|].
      destruct (Hs (Z.of_nat (length a) + Z.of_nat (length b))); [unfold lim, limit in *; lia|].
      rewrite <-cost_replace. apply script_reaches, leads_replace.
Qed.

(** ** Facts: what is common to both versions *)

Lemma take_common a b : take (common a b) a = take (common a b) b.
Proof.
  revert b. induction a as [|x a IH]; intros [|y b]; try done. simpl.
  destruct (bool_decide_reflect (x = y)) as [->|]; [|done]. simpl. by f_equal.
Qed.

Lemma common_le a b : (common a b <= length a)%nat /\ (common a b <= length b)%nat.
Proof.
  revert b. induction a as [|x a IH]; intros [|y b]; simpl; try lia.
  case_bool_decide; [|lia]. specialize (IH b). lia.
Qed.

(** A script still leads when a line is taken from what it reads, or writes. *)
Lemma leads_drop_old es x a b : leads es (x :: a) b -> exists fs, leads fs a b /\ cost fs <= cost es + 1.
Proof.
  revert b. induction es as [|[[] t] es IH]; intros b [Ho Hn]; simpl in *; [done|..].
  - injection Ho as -> <-. exists ((Edit.Insert, x) :: es). split; [by split|]. simpl. lia.
  - subst b. destruct (IH (news es)) as (fs & [Ho' Hn'] & Hc); [done|].
    exists ((Edit.Insert, t) :: fs). split; [split; simpl; [done|by f_equal]|]. simpl in *. lia.
  - injection Ho as -> <-. exists es. split; [by split|]. simpl. lia.
Qed.

Lemma leads_drop_new es x a b : leads es a (x :: b) -> exists fs, leads fs a b /\ cost fs <= cost es + 1.
Proof.
  revert a. induction es as [|[[] t] es IH]; intros a [Ho Hn]; simpl in *; [done|..].
  - injection Hn as -> <-. exists ((Edit.Delete, x) :: es). split; [by split|]. simpl. lia.
  - injection Hn as -> <-. exists es. split; [by split|]. simpl. lia.
  - subst a. destruct (IH (olds es)) as (fs & [Ho' Hn'] & Hc); [done|].
    exists ((Edit.Delete, t) :: fs). split; [split; simpl; [by f_equal|done]|]. simpl in *. lia.
Qed.

Lemma leads_drop_both es p a b :
  leads es (p ++ a) (p ++ b) -> exists fs, leads fs a b /\ cost fs <= cost es.
Proof.
  revert es. induction p as [|x p IH]; intros es Hes; [by exists es|]. simpl in Hes.
  assert (exists fs, leads fs (p ++ a) (p ++ b) /\ cost fs <= cost es) as (fs & Hfs & Hc).
  { destruct es as [|[[] t] es]; destruct Hes as [Ho Hn]; simpl in *; [done|..].
    - injection Ho as -> Ho. injection Hn as Hn. exists es. split; [by split|]. lia.
    - injection Hn as -> Hn. destruct (leads_drop_old es x (p ++ a) (p ++ b)) as (fs & ? & ?); [by split|].
      exists fs. split; [done|]. simpl. lia.
    - injection Ho as -> Ho. destruct (leads_drop_new es x (p ++ a) (p ++ b)) as (fs & ? & ?); [by split|].
      exists fs. split; [done|]. simpl. lia. }
  destruct (IH fs Hfs) as (gs & Hgs & Hc'). exists gs. split; [done|lia].
Qed.

Lemma leads_reverse es a b : leads es a b -> leads (reverse es) (reverse a) (reverse b).
Proof.
  intros [<- <-]. induction es as [|[e t] es [IHo IHn]]; [done|].
  split; rewrite reverse_cons, ?olds_app, ?news_app, ?IHo, ?IHn; destruct e; simpl;
    rewrite ?reverse_cons, ?app_nil_r; done.
Qed.
Lemma cost_reverse es : cost (reverse es) = cost es.
Proof. induction es as [|e es IH]; [done|]. rewrite reverse_cons, cost_app, IH. simpl. lia. Qed.

Lemma leads_drop_tail es a b q : leads es (a ++ q) (b ++ q) -> exists fs, leads fs a b /\ cost fs <= cost es.
Proof.
  intros Hes%leads_reverse. rewrite !reverse_app in Hes.
  destruct (leads_drop_both _ _ _ _ Hes) as (fs & Hfs & Hc). rewrite cost_reverse in Hc.
  exists (reverse fs). split; [|by rewrite cost_reverse].
  apply leads_reverse in Hfs. by rewrite !reverse_involutive in Hfs.
Qed.

(** The lines before, between and after, of both versions. *)
Lemma diff_parts before after :
  let prefix := common before after in
  let suffix := common (reverse (drop prefix before)) (reverse (drop prefix after)) in
  exists p q,
    take prefix before = p /\ drop (length before - suffix) before = q /\
    before = p ++ drop prefix (take (length before - suffix) before) ++ q /\
    after = p ++ drop prefix (take (length after - suffix) after) ++ q.
Proof.
  intros prefix suffix. pose proof (common_le before after) as [Hp1 Hp2]. fold prefix in Hp1, Hp2.
  pose proof (common_le (reverse (drop prefix before)) (reverse (drop prefix after))) as [Hs1 Hs2].
  fold suffix in Hs1, Hs2. rewrite length_reverse, length_drop in Hs1, Hs2.
  pose proof (take_common (reverse (drop prefix before)) (reverse (drop prefix after))) as Hs.
  fold suffix in Hs. rewrite !take_reverse, !length_drop in Hs. apply (inj reverse) in Hs.
  rewrite !drop_drop in Hs.
  replace (prefix + (length before - prefix - suffix))%nat with (length before - suffix)%nat in Hs by lia.
  replace (prefix + (length after - prefix - suffix))%nat with (length after - suffix)%nat in Hs by lia.
  assert (forall l : list string, (prefix <= length l - suffix)%nat ->
    l = take prefix l ++ drop prefix (take (length l - suffix) l) ++ drop (length l - suffix) l) as Hcut.
  { intros l Hl. rewrite app_assoc.
    replace (take prefix l) with (take prefix (take (length l - suffix) l)).
    - by rewrite take_drop, take_drop.
    - rewrite take_take. by replace (prefix `min` (length l - suffix))%nat with prefix by lia. }
  exists (take prefix before), (drop (length before - suffix) before).
  split_and!; [done..|apply Hcut; lia|]. rewrite Hs. unfold prefix at 1. rewrite take_common. fold prefix.
  apply Hcut. lia.
Qed.

(** The search never reads out of range. *)
Lemma diff_ends before after : is_Some (diff before after).
Proof.
  unfold diff. cbv zeta. match goal with |- context [myers ?a ?b] => destruct (myers_spec a b) as (r & -> & _) end.
  cbn [mbind option_bind]. eauto.
Qed.

(** C33. The difference shown is a shortest one: the search ends without an access out of
    range, and the script it gives reads the old lines and writes the new ones, in order;
    no other script has fewer edits, unless all of them have more than a thousand. *)
Theorem diff_is_a_shortest_script before after :
  exists es, diff before after = Some es /\ olds es = before /\ news es = after /\
    forall fs, olds fs = before -> news fs = after -> cost fs <= MAX_EDIT_DISTANCE -> cost es <= cost fs.
Proof.
  unfold diff. pose proof (diff_parts before after) as (p & q & Hp & Hq & Hb & Ha). cbv zeta in *.
  set (prefix := common before after) in *. set (suffix := common (reverse (drop prefix before)) (reverse (drop prefix after))) in *.
  set (mb := drop prefix (take (length before - suffix) before)) in *.
  set (ma := drop prefix (take (length after - suffix) after)) in *.
  destruct (myers_spec mb ma) as (r & -> & Hr). cbn [mbind option_bind]. rewrite Hp, Hq.
  set (middle := match r with Some middle => middle | None => _ end).
  assert (leads middle mb ma /\ forall fs, leads fs mb ma -> cost fs <= MAX_EDIT_DISTANCE -> cost middle <= cost fs)
    as [Hm Hmin].
  { destruct r as [es|]; [destruct Hr; auto|]. split; [apply leads_replace|].
    intros fs Hfs Hle. specialize (Hr fs Hfs). lia. }
  eexists. split; [done|].
  pose proof (leads_app _ _ _ _ _ _ (leads_equal p) (leads_app _ _ _ _ _ _ Hm (leads_equal q))) as [Ho Hn].
  rewrite <-Hb in Ho. rewrite <-Ha in Hn. split; [exact Ho|]. split; [exact Hn|].
  intros fs Hfo Hfn Hle. rewrite !cost_app, !cost_equal. rewrite Hb in Hfo. rewrite Ha in Hfn.
  destruct (leads_drop_both fs p (mb ++ q) (ma ++ q)) as (gs & Hgs & Hc); [by split|].
  destruct (leads_drop_tail gs mb ma q Hgs) as (hs & Hhs & Hc'). specialize (Hmin hs Hhs). lia.
Qed.

(** ** Facts: what is shown *)

(** What stands for a script read so far up to [before]: its lines one by one, or a skip for
    a run of equal lines with [context] equal lines next to it on the sides that do not end
    the script. *)
Inductive shown (context : nat) : list (Edit * string) -> list DiffLine -> list (Edit * string) -> Prop :=
  | shown_end before : shown context before [] []
  | shown_line before e ls es :
      shown context (before ++ [e]) ls es -> shown context before (line e :: ls) (e :: es)
  | shown_skip before hidden ls es :
      (2 <= length hidden)%nat -> Forall (fun e => is_equal e = true) hidden ->
      (before = [] \/ exists b h, before = b ++ h /\ length h = context /\ Forall (fun e => is_equal e = true) h) ->
      (es = [] \/ exists t a, es = t ++ a /\ length t = context /\ Forall (fun e => is_equal e = true) t) ->
      shown context (before ++ hidden) ls es ->
      shown context before (skip_ (length hidden) :: ls) (hidden ++ es).

Lemma shown_lines context before run ls es :
  shown context (before ++ run) ls es -> shown context before ((line <$> run) ++ ls) (run ++ es).
Proof.
  revert before. induction run as [|e run IH]; intros before H; [by rewrite app_nil_r in H|].
  simpl. constructor. apply IH. by rewrite <-app_assoc.
Qed.

Lemma span_equal_spec es run rest :
  span_equal es = (run, rest) ->
  es = run ++ rest /\ Forall (fun e => is_equal e = true) run /\ (length rest <= length es)%nat.
Proof.
  revert run rest. induction es as [|e es IH]; intros run rest; simpl; [by intros [= <- <-]|].
  destruct (is_equal e) eqn:E; [|by intros [= <- <-]].
  destruct (span_equal es) as [r s]. intros [= <- <-]. destruct (IH r s eq_refl) as (-> & Hr & Hl).
  split_and!; [done|by constructor|]. simpl. lia.
Qed.

Lemma render_run_shown context before run rest ls :
  Forall (fun e => is_equal e = true) run ->
  shown context (before ++ run) ls rest ->
  shown context before (render_run context run (bool_decide (before = [])) (bool_decide (rest = [])) ++ ls)
    (run ++ rest).
Proof.
  intros Hrun Hrest. unfold render_run.
  set (head := if bool_decide (before = []) then 0%nat else context).
  set (tail := if bool_decide (rest = []) then 0%nat else context).
  destruct (Nat.ltb_spec (length run - (head + tail)) 2) as [|Hlen]; [by apply shown_lines|].
  set (hidden := take (length run - (head + tail)) (drop head run)).
  assert (run = take head run ++ hidden ++ drop (length run - tail) run) as Hcut.
  { rewrite <-(take_drop head run) at 1. f_equal. unfold hidden.
    rewrite <-(take_drop (length run - (head + tail)) (drop head run)) at 1. f_equal.
    rewrite drop_drop. f_equal. lia. }
  assert (length hidden = length run - (head + tail))%nat as Hh
    by (unfold hidden; rewrite length_take, length_drop; lia).
  rewrite <-Hh, <-!app_assoc. rewrite Hcut in Hrun, Hrest.
  assert (run ++ rest = take head run ++ hidden ++ drop (length run - tail) run ++ rest) as ->
    by (rewrite Hcut at 1; by rewrite <-!app_assoc).
  rewrite !Forall_app in Hrun. destruct Hrun as (Hr1 & Hr2 & Hr3).
  apply shown_lines. simpl. constructor; [lia|done|..].
  - destruct (bool_decide_reflect (before = [])) as [->|]; [left; by subst head|right].
    exists before, (take head run). split_and!; [done| |done]. rewrite length_take. unfold head. lia.
  - destruct (bool_decide_reflect (rest = [])) as [->|]; [left|right].
    + subst tail. rewrite Nat.sub_0_r, drop_all. done.
    + exists (drop (length run - tail) run), rest. split_and!; [done| |done]. rewrite length_drop. unfold tail. lia.
  - apply shown_lines. by rewrite <-!app_assoc.
Qed.

Lemma render_from_shown context fuel before es :
  (length es <= fuel)%nat ->
  shown context before (render_from fuel context (bool_decide (before = [])) es) es.
Proof.
  revert before es. induction fuel as [|fuel IH]; intros before es Hf.
  { destruct es; [constructor|simpl in Hf; lia]. }
  destruct es as [|e es]; [constructor|]. cbn [render_from]. simpl in Hf.
  assert (forall l : list (Edit * string), l <> [] -> bool_decide (before ++ l = []) = false) as Hnil.
  { intros l Hl. apply bool_decide_eq_false_2. by intros [_ ?]%app_nil. }
  destruct (is_equal e) eqn:E.
  - destruct (span_equal (e :: es)) as [run rest] eqn:Es. destruct (span_equal_spec _ _ _ Es) as (Heq & Hrun & _).
    rewrite Heq. apply render_run_shown; [done|]. simpl in Es. rewrite E in Es.
    destruct (span_equal es) as [r s] eqn:Es'. injection Es as <- <-.
    rewrite <-(Hnil (e :: r)) by done. apply IH. destruct (span_equal_spec _ _ _ Es') as (_ & _ & Hl). lia.
  - constructor. rewrite <-(Hnil [e]) by done. apply IH. lia.
Qed.

(** What is shown hides nothing that changed: the lines shown are the script line by
    line, except that a skip stands for the two or more equal lines it counts, and between
    what it hides and a change there are always [context] equal lines shown. *)
Theorem render_hides_only_unchanged_lines edits context : shown context [] (render edits context) edits.
Proof. exact (render_from_shown context (length edits) [] edits (le_n _)). Qed.
