(* ===== verification/Robots.v ===== *)
(** * The rules of a site ([webchange/robots.rs])

    Reading a [robots.txt] for our product token, the patterns with their jokers and anchor,
    and the verdict on a path. *)
From Stdlib Require Import Ascii.
From Stdlib Require String.
From S2P Require Import Prelude Text.

Definition PRODUCT_TOKEN : string := "dumbmonit".

Definition newline : ascii := "010"%char.
Definition return_ : string := String "013"%char "".

(** [str::lines]: a carriage return is part of the end of a line. *)
Fixpoint lines_of (parts : list string) : list string :=
  match parts with
  | [] => []
  | [last] => if bool_decide (last = "") then [] else [last]
  | part :: parts => (strip_suffix return_ part ?? part) :: lines_of parts
  end.
Definition lines (text : string) : list string := lines_of (split newline text).

Record Group := { g_agents : list string; g_rules : list (bool * string) }.

Record Robots := { rules : list (bool * string); sitemaps : list string }.

(** The mutable variables of [parse]. *)
Record Reading := { rd_groups : list Group; rd_sitemaps : list string; rd_collecting : bool }.

Definition on_last (f : Group -> Group) (groups : list Group) : list Group :=
  match last groups with
  | Some g => removelast groups ++ [f g]
  | None => groups
  end.

Definition add_agent (agent : string) (g : Group) : Group :=
  {| g_agents := g_agents g ++ [agent]; g_rules := g_rules g |}.
Definition add_rule (rule : bool * string) (g : Group) : Group :=
  {| g_agents := g_agents g; g_rules := g_rules g ++ [rule] |}.

(** One line of the file. *)
Definition read_line (rd : Reading) (raw : string) : Reading :=
  let line := trim ((head (split "#"%char raw)) ?? "") in
  match split_once ":"%char line with
  | None => rd
  | Some (key, value) =>
      let key := to_ascii_lowercase (trim key) in
      let value := trim value in
      if bool_decide (key = "user-agent") then
        let groups := if rd_collecting rd then rd_groups rd
                      else rd_groups rd ++ [{| g_agents := []; g_rules := [] |}] in
        {| rd_groups := on_last (add_agent (to_ascii_lowercase value)) groups;
           rd_sitemaps := rd_sitemaps rd; rd_collecting := true |}
      else if bool_decide (key = "allow") || bool_decide (key = "disallow") then
        {| rd_groups := if bool_decide (value = "") then rd_groups rd
                        else on_last (add_rule (bool_decide (key = "allow"), value)) (rd_groups rd);
           rd_sitemaps := rd_sitemaps rd; rd_collecting := false |}
      else if bool_decide (key = "sitemap") then
        {| rd_groups := rd_groups rd;
           rd_sitemaps := if bool_decide (value = "") then rd_sitemaps rd else rd_sitemaps rd ++ [value];
           rd_collecting := rd_collecting rd |}
      else {| rd_groups := rd_groups rd; rd_sitemaps := rd_sitemaps rd; rd_collecting := false |}
  end.

Definition names (agent : string) (g : Group) : bool := bool_decide (agent ∈ g_agents g).

Definition parse (text : string) : Robots :=
  let rd := foldl read_line {| rd_groups := []; rd_sitemaps := []; rd_collecting := false |} (lines text) in
  let ours := filter (fun g => names PRODUCT_TOKEN g = true) (rd_groups rd) in
  let chosen := if bool_decide (ours = []) then filter (fun g => names "*" g = true) (rd_groups rd)
                else ours in
  {| rules := concat (g_rules <$> chosen); sitemaps := rd_sitemaps rd |}.

(** ** Patterns *)

(** [rest.find(part)], and what follows the first occurrence. *)
Fixpoint find_after (part s : string) : option string :=
  match strip_prefix part s with
  | Some rest => Some rest
  | None => match s with EmptyString => None | String _ s => find_after part s end
  end.

(** The [for] over the parts after the first. *)
Fixpoint match_parts (anchored : bool) (parts : list string) (rest : string) : bool :=
  match parts with
  | [] => negb anchored || bool_decide (rest = "")
  | part :: parts =>
      if bool_decide (parts = []) && anchored then ends_with part rest
      else match find_after part rest with
           | Some rest => match_parts anchored parts rest
           | None => false
           end
  end.

Definition matches (pattern path : string) : bool :=
  let '(pattern, anchored) := match strip_suffix "$" pattern with
                              | Some stripped => (stripped, true)
                              | None => (pattern, false)
                              end in
  match split "*"%char pattern with
  | [] => true
  | first :: parts =>
      match strip_prefix first path with
      | Some rest => match_parts anchored parts rest
      | None => false
      end
  end.

(** The best rule met so far: its length and its verdict. *)
Definition better (path : string) (best : option (nat * bool)) (rule : bool * string) : option (nat * bool) :=
  let '(allow, pattern) := rule in
  if negb (matches pattern path) then best
  else
    let length := String.length pattern in
    match best with
    | Some (best_len, best_allow) =>
        if (length <? best_len)%nat || ((best_len =? length)%nat && best_allow)
        then Some (best_len, best_allow) else Some (length, allow)
    | None => Some (length, allow)
    end.

Definition allows (r : Robots) (path : string) : bool :=
  match foldl (better path) None (rules r) with
  | None => true
  | Some (_, allow) => allow
  end.

Example robots_ex :
  let newline := String newline "" in
  let r := parse ("User-agent: *" +:+ newline +:+ "Disallow: /private/*.html$" +:+ newline +:+
                  "Allow: /" +:+ newline +:+ "Sitemap: https://a/s.xml")%string in
  sitemaps r = ["https://a/s.xml"] /\ allows r "/private/x.html" = false /\
  allows r "/private/x.html?y" = true.
Proof. vm_compute. split_and!; reflexivity. Qed.

(** ** Facts: strings *)

Lemma string_suffix_le a r b r' :
  (a +:+ r = b +:+ r')%string -> (String.length a <= String.length b)%nat ->
  exists v, b = (a +:+ v)%string /\ r = (v +:+ r')%string.
Proof.
  revert b. induction a as [|c a IH]; intros b; [exists b; done|].
  destruct b as [|d b]; simpl; [lia|]. rewrite !string_app_cons. intros [= -> H] Hl.
  destruct (IH b H) as (v & -> & ->); [lia|]. by exists v.
Qed.

(** The first occurrence leaves most of the text. *)
Lemma find_after_Some part s r :
  find_after part s = Some r ->
  (exists w, s = (w +:+ part +:+ r)%string) /\
  forall w' r', s = (w' +:+ part +:+ r')%string -> exists v, r = (v +:+ r')%string.
Proof.
  revert r. induction s as [|c s IH]; intros r; simpl;
    (destruct (strip_prefix part _) as [r0|] eqn:E; [intros [= ->]; apply strip_prefix_Some in E|]).
  1,3: split; [by exists ""|]; intros w' r' Heq; rewrite E, <-string_app_assoc in Heq;
    apply string_suffix_le in Heq as (v & _ & ->); [by exists v|rewrite string_length_app; lia].
  - done.
  - intros Hr. destruct (IH r Hr) as [[w ->] Hlast]. split; [by exists (String c w)|].
    intros [|d w'] r' Heq.
    + by rewrite (proj2 (strip_prefix_Some part _ r') Heq) in E.
    + rewrite string_app_cons in Heq. injection Heq as -> Heq. by apply (Hlast w').
Qed.

Lemma find_after_None part s w r : find_after part s = None -> s <> (w +:+ part +:+ r)%string.
Proof.
  revert w. induction s as [|c s IH]; intros w; simpl;
    (destruct (strip_prefix part _) as [r0|] eqn:E; [done|]); intros Hn Heq.
  - assert (w = "") as -> by (by destruct w).
    by rewrite (proj2 (strip_prefix_Some part _ r) Heq) in E.
  - destruct w as [|d w].
    + by rewrite (proj2 (strip_prefix_Some part _ r) Heq) in E.
    + rewrite string_app_cons in Heq. injection Heq as -> Heq. by apply (IH w Hn).
Qed.

Lemma ends_with_spec p s : ends_with p s = true <-> exists r, s = (r +:+ p)%string.
Proof.
  unfold ends_with. rewrite bool_decide_eq_true. split.
  - intros [r Hr]. exists r. by apply strip_suffix_Some.
  - intros [r Hr]. exists r. by apply strip_suffix_Some.
Qed.

(** ** Facts: what a pattern covers *)

(** A text read as a pattern: a star stands for any text, any other character for itself. *)
Inductive globs : string -> string -> Prop :=
  | globs_end : globs "" ""
  | globs_char c p s : c <> "*"%char -> globs p s -> globs (String c p) (String c s)
  | globs_star w p s : globs p s -> globs (String "*" p) (w +:+ s)%string.

(** What follows the first part: each next one after anything. *)
Fixpoint follows (parts : list string) (s : string) : Prop :=
  match parts with
  | [] => s = ""
  | part :: parts => exists w r, s = (w +:+ part +:+ r)%string /\ follows parts r
  end.

Definition fits (parts : list string) (s : string) : Prop :=
  match parts with
  | [] => False
  | first :: parts => exists r, s = (first +:+ r)%string /\ follows parts r
  end.

Lemma split_nonempty c s : split c s <> [].
Proof. destruct s; simpl; [done|]. destruct (decide _); [done|]. by destruct (split c s). Qed.

Lemma globs_fits pattern s : globs pattern s <-> fits (split "*"%char pattern) s.
Proof.
  revert s. induction pattern as [|c p IH]; intros s; cbn [split].
  - split; [intros H; inversion H; by exists ""|]. intros (r & -> & ->). constructor.
  - destruct (decide (c = "*"%char)) as [->|Hne].
    + split.
      * intros H. inversion H as [|? ? ? Hc|w ? t Hg]; subst; [done|]. exists (w +:+ t)%string. split; [done|].
        apply IH in Hg. destruct (split "*" p) as [|part parts] eqn:Es; [done|].
        destruct Hg as (r & -> & Hr). by exists w, r.
      * intros (r & -> & Hr). rewrite string_app_nil_l.
        destruct (split "*" p) as [|part parts] eqn:Es; [by destruct (split_nonempty "*" p)|].
        destruct Hr as (w & r' & -> & Hr). constructor. apply IH. by exists r'.
    + destruct (split "*" p) as [|part parts] eqn:Es; [by destruct (split_nonempty "*" p)|]. split.
      * intros H. inversion H as [|? ? t ? Hg|w ? t Hg]; subst; [|done].
        apply IH in Hg as (r & -> & Hr). by exists r.
      * intros (r & -> & Hr). rewrite string_app_cons. constructor; [done|]. apply IH. by exists r.
Qed.

(** More text to the left does not hurt what comes after something. *)
Lemma follows_later parts v r : parts <> [] -> follows parts r -> follows parts (v +:+ r)%string.
Proof.
  destruct parts as [|part parts]; [done|]. intros _ (w & t & -> & Ht).
  exists (v +:+ w)%string, t. by rewrite string_app_assoc.
Qed.

Lemma match_parts_open parts rest :
  match_parts false parts rest = true <-> exists s t, rest = (s +:+ t)%string /\ follows parts s.
Proof.
  revert rest. induction parts as [|part parts IH]; intros rest; simpl.
  - split; [intros _; by exists "", rest|done].
  - rewrite andb_false_r. destruct (find_after part rest) as [r|] eqn:E.
    + destruct (find_after_Some _ _ _ E) as [[w ->] Hfirst]. rewrite IH. split.
      * intros (s & t & -> & Hs). exists (w +:+ part +:+ s)%string, t. split; [by rewrite !string_app_assoc|].
        by exists w, s.
      * intros (s & t & Heq & w' & r' & -> & Hr'). rewrite !string_app_assoc in Heq.
        destruct (Hfirst w' (r' +:+ t)%string Heq) as [v ->].
        destruct (decide (parts = [])) as [->|Hne]; [exists "", (v +:+ r' +:+ t)%string; done|].
        exists (v +:+ r')%string, t. split; [by rewrite string_app_assoc|by apply follows_later].
    + split; [done|]. intros (s & t & -> & w & r & -> & _). rewrite !string_app_assoc in E.
      by destruct (find_after_None _ _ w (r +:+ t)%string E).
Qed.

Lemma match_parts_anchored parts rest : match_parts true parts rest = true <-> follows parts rest.
Proof.
  revert rest. induction parts as [|part parts IH]; intros rest; simpl; [by rewrite bool_decide_eq_true|].
  rewrite andb_true_r. destruct (bool_decide_reflect (parts = [])) as [->|Hne].
  - rewrite ends_with_spec. simpl. split.
    + intros [w ->]. exists w, "". by rewrite string_app_nil_r.
    + intros (w & r & -> & ->). exists w. by rewrite string_app_nil_r.
  - destruct (find_after part rest) as [r|] eqn:E.
    + destruct (find_after_Some _ _ _ E) as [[w ->] Hfirst]. rewrite IH. split; [by exists w, r|].
      intros (w' & r' & Heq & Hr'). destruct (Hfirst w' r' Heq) as [v ->]. by apply follows_later.
    + split; [done|]. intros (w & r & -> & _). by destruct (find_after_None _ _ w r E).
Qed.

(** What a pattern covers: the beginning of a path, or all of it under the anchor. *)
Definition covers (pattern path : string) : Prop :=
  match strip_suffix "$" pattern with
  | Some pattern => globs pattern path
  | None => exists s t, path = (s +:+ t)%string /\ globs pattern s
  end.

Lemma matches_covers pattern path : matches pattern path = true <-> covers pattern path.
Proof.
  unfold matches, covers. destruct (strip_suffix "$" pattern) as [stripped|].
  - rewrite globs_fits. destruct (split "*" stripped) as [|first parts] eqn:Es; [by destruct (split_nonempty "*" stripped)|].
    simpl. destruct (strip_prefix first path) as [rest|] eqn:E.
    + apply strip_prefix_Some in E as ->. rewrite match_parts_anchored. split; [by exists rest|].
      intros (r & Heq & Hr). apply string_suffix_le in Heq as (v & Hv & ->); [|lia].
      apply (f_equal String.length) in Hv. rewrite string_length_app in Hv.
      destruct v; [done|simpl in Hv; lia].
    + split; [done|]. intros (r & Heq & _). apply strip_prefix_Some in Heq. congruence.
  - setoid_rewrite globs_fits. destruct (split "*" pattern) as [|first parts] eqn:Es; [by destruct (split_nonempty "*" pattern)|].
    simpl. destruct (strip_prefix first path) as [rest|] eqn:E.
    + apply strip_prefix_Some in E as ->. rewrite match_parts_open. split.
      * intros (s & t & -> & Hs). exists (first +:+ s)%string, t. rewrite string_app_assoc. split; [done|by exists s].
      * intros (s & t & Heq & r & -> & Hr). rewrite string_app_assoc in Heq. exists r, t. split; [|done].
        apply string_suffix_le in Heq as (v & Hv & ->); [|lia].
        apply (f_equal String.length) in Hv. rewrite string_length_app in Hv.
        destruct v; [done|simpl in Hv; lia].
    + split; [done|]. intros (s & t & -> & r & -> & _). rewrite string_app_assoc in E.
      by rewrite (proj2 (strip_prefix_Some first _ (r +:+ t)%string) eq_refl) in E.
Qed.

(** The best rule of those met so far. *)
Definition best_of (path : string) (rs : list (bool * string)) (best : option (nat * bool)) : Prop :=
  match best with
  | None => forall rule, rule ∈ rs -> matches rule.2 path = false
  | Some (len, allow) =>
      (exists rule, rule ∈ rs /\ matches rule.2 path = true /\ String.length rule.2 = len /\ rule.1 = allow) /\
      forall rule, rule ∈ rs -> matches rule.2 path = true ->
        (String.length rule.2 <= len)%nat /\ (String.length rule.2 = len -> rule.1 = true -> allow = true)
  end.

Lemma better_best path rs best rule :
  best_of path rs best -> best_of path (rs ++ [rule]) (better path best rule).
Proof.
  intros Hb. unfold better. destruct rule as [allow pattern].
  assert (forall r, r ∈ rs ++ [(allow, pattern)] -> r ∈ rs \/ r = (allow, pattern)) as Hin.
  { intros r [Hr|Hr%list_elem_of_singleton]%elem_of_app; auto. }
  assert ((allow, pattern) ∈ rs ++ [(allow, pattern)]) as Hlast by (apply elem_of_app; right; left).
  destruct (matches pattern path) eqn:Em; cbn [negb].
  - destruct best as [[len a]|].
    + destruct Hb as [(r & Hr & Hrm & Hrl & Hra) Hmax].
      destruct ((_ <? _)%nat || _) eqn:Ec.
      * split; [exists r; split_and!; [apply elem_of_app; by left|done..]|].
        intros r' [Hr' | ->]%Hin Hm'; [by apply Hmax|]. simpl.
        apply orb_true_iff in Ec as [Ec%Nat.ltb_lt|[Ec%Nat.eqb_eq Ea]%andb_true_iff]; split; lia || done.
      * apply orb_false_iff in Ec as [Ec1%Nat.ltb_ge Ec2].
        split; [by exists (allow, pattern)|]. intros r' [Hr' | ->]%Hin Hm'; [|simpl; split; [lia|done]].
        destruct (Hmax r' Hr' Hm') as [Hle Heq]. split; [lia|]. intros Hl Ht.
        assert (len = String.length pattern) as Hlen by lia. rewrite Heq in Ec2 by (lia || done).
        by rewrite andb_true_r, Hlen, Nat.eqb_refl in Ec2.
    + split; [by exists (allow, pattern)|]. intros r' [Hr' | ->]%Hin Hm'; [|simpl; split; [lia|done]].
      by rewrite (Hb r' Hr') in Hm'.
  - destruct best as [[len a]|].
    + destruct Hb as [(r & Hr & Hrest) Hmax]. split; [exists r; split; [apply elem_of_app; by left|done]|].
      intros r' [Hr' | ->]%Hin Hm'; [by apply Hmax|]. simpl in Hm'. congruence.
    + intros r' [Hr' | ->]%Hin; [by apply Hb|done].
Qed.

Lemma foldl_best path rs : best_of path rs (foldl (better path) None rs).
Proof.
  induction rs as [|rule rs IH] using rev_ind; [by intros rule ?%elem_of_nil|].
  rewrite foldl_snoc. by apply better_best.
Qed.

(** The longest rule decides: a path is refused exactly when some rule that forbids
    covers it and is longer than every rule that allows and covers it; a rule covers a path
    as its text says, a star standing for anything, the beginning of the path being enough
    unless it ends with a dollar. *)
Theorem robots_verdict_is_the_longest_rule r path :
  allows r path = false <->
  exists pattern, (false, pattern) ∈ rules r /\ covers pattern path /\
    forall allowed, (true, allowed) ∈ rules r -> covers allowed path ->
      (String.length allowed < String.length pattern)%nat.
Proof.
  setoid_rewrite <-matches_covers. unfold allows.
  pose proof (foldl_best path (rules r)) as Hb.
  destruct (foldl (better path) None (rules r)) as [[len allow]|].
  - destruct Hb as [([a pattern] & Hr & Hm & Hl & Ha) Hmax]. simpl in *. subst a. split.
    + intros ->. exists pattern. split_and!; [done..|]. intros allowed Hin Hma.
      destruct (Hmax _ Hin Hma) as [Hle Heq]. simpl in *. destruct (decide (String.length allowed = len)); [|lia].
      by discriminate Heq.
    + intros (p & Hin & Hmp & Hlong). destruct allow; [|done].
      specialize (Hlong pattern Hr Hm). destruct (Hmax _ Hin Hmp) as [Hle _]. simpl in *. lia.
  - split; [done|]. intros (p & Hin & Hmp & _). specialize (Hb _ Hin). simpl in Hb. congruence.
Qed.
