(* ===== verification/Html.v ===== *)
(** * The text of a page ([webchange/html.rs])

    A reader of tags, without a tree: the visible text of a page, one line per block, its title, its links
    and its base.  A text that holds quotation marks is written with their code. *)
From Stdlib Require Import Ascii.
From Stdlib Require String.
From S2P Require Import Prelude Text.

Definition HIDDEN : list string := ["script"; "style"; "noscript"; "svg"; "template"; "iframe"; "object"].
Definition BLOCKS : list string :=
  ["address"; "article"; "aside"; "blockquote"; "br"; "caption"; "dd"; "details"; "dialog"; "div"; "dl"; "dt";
   "fieldset"; "figcaption"; "figure"; "footer"; "form"; "h1"; "h2"; "h3"; "h4"; "h5"; "h6"; "header"; "hr";
   "legend"; "li"; "main"; "nav"; "ol"; "option"; "p"; "pre"; "section"; "summary"; "table"; "tbody"; "thead";
   "tfoot"; "tr"; "ul"].
Definition CELLS : list string := ["td"; "th"].

Record Page := { title : option string; p_lines : list string; links : list string; base_href : option string }.
Definition Page_default : Page := {| title := None; p_lines := []; links := []; base_href := None |}.

(** ** Slices *)

(** The longest front whose bytes satisfy [p], and what follows. *)
Fixpoint span (p : ascii -> bool) (s : string) : string * string :=
  match s with
  | String a s' => if p a then let '(front, rest) := span p s' in (String a front, rest) else (EmptyString, s)
  | EmptyString => (EmptyString, EmptyString)
  end.

(** [s[n..]] *)
Fixpoint skip (n : nat) (s : string) : string :=
  match n, s with
  | S n, String _ s' => skip n s'
  | _, _ => s
  end.

(** What follows the first [p], nothing when there is none. *)
Fixpoint after (p s : string) : string :=
  match strip_prefix p s with
  | Some rest => rest
  | None => match s with String _ s' => after p s' | EmptyString => EmptyString end
  end.

Definition is_ascii_alphabetic (a : ascii) : bool := is_ascii_upper a || is_ascii_lower a.
(** Space, tabulation, line feed, form feed and carriage return. *)
Definition is_ascii_whitespace (a : ascii) : bool :=
  (byte a =? 32) || (byte a =? 9) || (byte a =? 10) || (byte a =? 12) || (byte a =? 13).

(** ** Entities *)

Definition quote : string := String "034"%char EmptyString.
Definition ENTITIES : list (string * string) :=
  [("amp", "&"); ("lt", "<"); ("gt", ">"); ("quot", quote); ("apos", "'"); ("nbsp", " "); ("copy", "©");
   ("reg", "®"); ("trade", "™"); ("hellip", "…"); ("mdash", "—"); ("ndash", "–"); ("laquo", "«"); ("raquo", "»");
   ("lsquo", "‘"); ("rsquo", "’"); ("ldquo", "“"); ("rdquo", "”"); ("bull", "•"); ("middot", "·"); ("times", "×");
   ("deg", "°"); ("euro", "€"); ("pound", "£"); ("yen", "¥"); ("cent", "¢"); ("sect", "§"); ("para", "¶");
   ("eacute", "é"); ("Eacute", "É"); ("egrave", "è"); ("Egrave", "È"); ("ecirc", "ê"); ("euml", "ë");
   ("agrave", "à"); ("Agrave", "À"); ("acirc", "â"); ("auml", "ä"); ("ccedil", "ç"); ("Ccedil", "Ç");
   ("icirc", "î"); ("iuml", "ï"); ("ocirc", "ô"); ("ouml", "ö"); ("ucirc", "û"); ("ugrave", "ù"); ("uuml", "ü");
   ("szlig", "ß"); ("ntilde", "ñ"); ("oelig", "œ")].

(** [u32::from_str_radix]: at least one digit, no overflow; the texts it is given have no sign. *)
Definition hex_value (a : ascii) : option Z :=
  if is_ascii_digit a then Some (byte a - 48)
  else if (97 <=? byte a) && (byte a <=? 102) then Some (byte a - 87)
  else if (65 <=? byte a) && (byte a <=? 70) then Some (byte a - 55)
  else None.
Fixpoint radix_digits (value : ascii -> option Z) (radix acc : Z) (s : string) : option Z :=
  match s with
  | EmptyString => Some acc
  | String a s' => d ← value a; radix_digits value radix (acc * radix + d) s'
  end.
Definition u32_from_str_radix (value : ascii -> option Z) (radix : Z) (s : string) : option Z :=
  if bool_decide (s = "") then None
  else n ← radix_digits value radix 0 s; if n <=? u32_max then Some n else None.

(** The UTF-8 encoding of a code point; [char::from_u32] refuses the surrogates and what is too large. *)
Definition encode_utf8 (c : Z) : string :=
  let cont k := of_byte (128 + c / k mod 64) in
  if c <? 128 then String (of_byte c) ""
  else if c <? 2048 then String (of_byte (192 + c / 64)) (String (cont 1) "")
  else if c <? 65536 then String (of_byte (224 + c / 4096)) (String (cont 64) (String (cont 1) ""))
  else String (of_byte (240 + c / 262144)) (String (cont 4096) (String (cont 64) (String (cont 1) ""))).
Definition char_from_u32 (c : Z) : option string :=
  if (1114111 <? c) || ((55296 <=? c) && (c <=? 57343)) then None else Some (encode_utf8 c).

Definition decode_one (entity : string) : option string :=
  match strip_prefix "#" entity with
  | Some number =>
      code ← match strip_prefix "x" number with
             | Some hex => u32_from_str_radix hex_value 16 hex
             | None => match strip_prefix "X" number with
                       | Some hex => u32_from_str_radix hex_value 16 hex
                       | None => u32_from_str_radix digit_value 10 number
                       end
             end;
      if code =? 0 then None else char_from_u32 code
  | None => '(_, (_, c)) ← list_find (fun e => e.1 = entity) ENTITIES; Some c
  end.

(** The loop over the ampersands; each round consumes at least one byte. *)
Definition is_entity_byte (a : ascii) : bool := is_ascii_alphanumeric a || bool_decide (a = "#"%char).
Fixpoint decode_from (fuel : nat) (rest : string) : string :=
  match fuel with
  | O => rest
  | S fuel =>
      let '(before, rest) := span (fun a => negb (bool_decide (a = "&"%char))) rest in
      match rest with
      | EmptyString => before
      | String _ tail =>
          let '(entity, following) := span is_entity_byte tail in
          let following := match following with
                           | String c s => if bool_decide (c = ";"%char) then s else following
                           | EmptyString => EmptyString
                           end in
          (before +:+ match decode_one entity with
                      | Some c => c +:+ decode_from fuel following
                      | None => String "&" (decode_from fuel tail)
                      end)%string
      end
  end.
Definition decode_entities (text : string) : string := decode_from (String.length text) text.

(** ** Tags *)

(** A tag read, with what follows it instead of its length. *)
Record Tag := {
  tg_name : string;
  tg_closing : bool;
  tg_self_closing : bool;
  tg_attributes : list (string * string);
  tg_rest : string;
}.

Definition ends_key (a : ascii) : bool :=
  is_ascii_whitespace a || bool_decide (a = "="%char) || bool_decide (a = ">"%char) || bool_decide (a = "/"%char).

(** The value after an equal sign. *)
Definition attribute_value (s : string) : string * string :=
  let s := (span is_ascii_whitespace s).2 in
  match s with
  | String q following =>
      if bool_decide (q = "034"%char) || bool_decide (q = "'"%char) then
        let '(value, rest) := span (fun a => negb (bool_decide (a = q))) following in (value, skip 1 rest)
      else span (fun a => negb (is_ascii_whitespace a || bool_decide (a = ">"%char))) s
  | EmptyString => (EmptyString, EmptyString)
  end.

(** The loop over the attributes: whether the tag closes itself, its attributes and what follows. Each round
    consumes at least one byte; [None] when the rounds run out. *)
Fixpoint read_attributes (fuel : nat) (s : string) (self_closing : bool) (attributes : list (string * string))
  : option (bool * list (string * string) * string) :=
  match fuel with
  | O => None
  | S fuel =>
      match (span is_ascii_whitespace s).2 with
      | EmptyString => Some (self_closing, attributes, EmptyString)
      | String a following as s =>
          if bool_decide (a = ">"%char) then Some (self_closing, attributes, following)
          else if bool_decide (a = "/"%char) then read_attributes fuel following true attributes
          else
            let '(key, s') := span (fun a => negb (ends_key a)) s in
            if bool_decide (key = "") then read_attributes fuel following self_closing attributes
            else
              let '(value, s') := match (span is_ascii_whitespace s').2 with
                                  | String e following as s' =>
                                      if bool_decide (e = "="%char) then attribute_value following
                                      else (EmptyString, s')
                                  | EmptyString => (EmptyString, EmptyString)
                                  end in
              read_attributes fuel s' self_closing (attributes ++ [(to_ascii_lowercase key, value)])
      end
  end.

(** [Tag::read], of an input that starts with [<]. *)
Definition read_tag (input : string) : option Tag :=
  let s := skip 1 input in
  let '(closing, s) := match s with
                       | String a following => if bool_decide (a = "/"%char) then (true, following) else (false, s)
                       | EmptyString => (false, s)
                       end in
  let '(name, rest) := span (fun a => is_ascii_alphanumeric a || bool_decide (a = "-"%char)) s in
  match name with
  | String a _ =>
      if is_ascii_alphabetic a then
        '(self_closing, attributes, rest) ← read_attributes (S (String.length rest)) rest false [];
        Some {| tg_name := to_ascii_lowercase name; tg_closing := closing; tg_self_closing := self_closing;
                tg_attributes := attributes; tg_rest := rest |}
      else None
  | EmptyString => None
  end.

Definition attribute (k : string) (t : Tag) : option string :=
  '(_, (_, v)) ← list_find (fun a => a.1 = k) (tg_attributes t); Some (trim v).

(** [raw_content]: up to the closing tag of this name, and what follows it. *)
Definition closes (name s : string) : bool :=
  match strip_prefix "</" s with
  | Some candidate =>
      (String.length name <=? String.length candidate)%nat
      && eq_ignore_ascii_case (String.substring 0 (String.length name) candidate) name
      && match skip (String.length name) candidate with
         | String b _ => negb (is_ascii_alphanumeric b)
         | EmptyString => true
         end
  | None => false
  end.
Fixpoint raw_content (name s : string) : string * string :=
  if closes name s then (EmptyString, after ">" (skip (2 + String.length name) s))
  else match s with
       | String a s' => let '(content, rest) := raw_content name s' in (String a content, rest)
       | EmptyString => (EmptyString, EmptyString)
       end.

(** ** Lines *)

Record TextBuilder := { tb_lines : list string; tb_current : string }.
Definition TextBuilder_default : TextBuilder := {| tb_lines := []; tb_current := "" |}.

Definition push_byte (a : ascii) (t : TextBuilder) : TextBuilder :=
  {| tb_lines := tb_lines t; tb_current := tb_current t +:+ String a "" |}.
Definition space (t : TextBuilder) : TextBuilder :=
  if bool_decide (tb_current t = "") || ends_with " " (tb_current t) then t else push_byte " " t.
Definition break_line (t : TextBuilder) : TextBuilder :=
  let line := trim (tb_current t) in
  {| tb_lines := tb_lines t ++ (if bool_decide (line = "") then [] else [line]); tb_current := "" |}.
Definition finish (t : TextBuilder) : list string := tb_lines (break_line t).

(** The characters of a segment: white space, or a character pushed byte by byte. *)
Fixpoint push_chars (skip : nat) (s : list ascii) (t : TextBuilder) : TextBuilder :=
  match s with
  | [] => t
  | a :: s' =>
      match skip with
      | S skip' => push_chars skip' s' t
      | O => match strip_any white_spaces s with
             | Some rest => push_chars (length s' - length rest) s' (space t)
             | None => push_chars 0 s' (push_byte a t)
             end
      end
  end.
Definition push_segment (segment : string) (t : TextBuilder) : TextBuilder :=
  push_chars 0 (Stdlib.Strings.String.list_ascii_of_string segment) t.
Definition newline : ascii := "010"%char.
Definition push (text : string) (preformatted : bool) (t : TextBuilder) : TextBuilder :=
  match split newline text with
  | [] => t
  | first :: segments =>
      foldl (fun t segment => push_segment segment (if preformatted then break_line t else space t))
        (push_segment first t) segments
  end.

(** [split_whitespace] joined by spaces: words, each closed by the first white space that follows it. *)
Fixpoint words (skip : nat) (s : list ascii) (current : string) : list string :=
  let close rest := if bool_decide (current = "") then rest else current :: rest in
  match s with
  | [] => close []
  | a :: s' =>
      match skip with
      | S skip' => words skip' s' current
      | O => match strip_any white_spaces s with
             | Some rest => close (words (length s' - length rest) s' "")
             | None => words 0 s' (current +:+ String a "")
             end
      end
  end.
Fixpoint join (sep : string) (l : list string) : string :=
  match l with
  | [] => ""
  | [s] => s
  | s :: l => (s +:+ sep +:+ join sep l)%string
  end.
Definition split_whitespace (s : string) : list string := words 0 (Stdlib.Strings.String.list_ascii_of_string s) "".
Definition collapse (text : string) : string := join " " (split_whitespace text).

(** ** The page *)

(** What the loop of [parse] keeps. *)
Record Scan := { sc_page : Page; sc_text : TextBuilder; sc_depth : nat }.
Definition with_text (f : TextBuilder -> TextBuilder) (s : Scan) : Scan :=
  {| sc_page := sc_page s; sc_text := f (sc_text s); sc_depth := sc_depth s |}.
Definition with_page (p : Page) (s : Scan) : Scan :=
  {| sc_page := p; sc_text := sc_text s; sc_depth := sc_depth s |}.
Definition with_depth (f : nat -> nat) (s : Scan) : Scan :=
  {| sc_page := sc_page s; sc_text := sc_text s; sc_depth := f (sc_depth s) |}.
Definition push_text (text : string) (s : Scan) : Scan := with_text (push text (0 <? sc_depth s)%nat) s.

(** A block breaks the line, a cell is followed by a space. *)
Definition shape (name : string) (s : Scan) : Scan :=
  if bool_decide (name ∈ BLOCKS) then with_text break_line s
  else if bool_decide (name ∈ CELLS) then with_text space s
  else s.

Definition close_tag (name : string) (s : Scan) : Scan :=
  let s := shape name s in
  if bool_decide (name = "pre") then with_depth pred s else s.

(** The [match] on the name of an opening tag. *)
Definition note_tag (t : Tag) (s : Scan) : Scan :=
  let p := sc_page s in
  if bool_decide (tg_name t = "a" \/ tg_name t = "area") then
    match attribute "href" t with
    | Some href => with_page {| title := title p; p_lines := p_lines p; links := links p ++ [decode_entities href];
                                base_href := base_href p |} s
    | None => s
    end
  else if bool_decide (tg_name t = "base") then
    match base_href p with
    | None => with_page {| title := title p; p_lines := p_lines p; links := links p;
                           base_href := decode_entities <$> attribute "href" t |} s
    | Some _ => s
    end
  else if bool_decide (tg_name t = "pre") then with_depth S s
  else s.

Definition set_title (inner : string) (s : Scan) : Scan :=
  let p := sc_page s in
  match title p with
  | None =>
      let t := collapse (decode_entities inner) in
      with_page {| title := if bool_decide (t = "") then None else Some t; p_lines := p_lines p; links := links p;
                   base_href := base_href p |} s
  | Some _ => s
  end.

(** What follows the [<] found, and the state after it: a comment, a declaration, a tag, or a sign. *)
Definition at_open (rest : string) (s : Scan) : string * Scan :=
  match strip_prefix "<!--" rest with
  | Some following => (after "-->" following, s)
  | None =>
      if starts_with "<!" rest || starts_with "<?" rest then (after ">" rest, s)
      else
        match read_tag rest with
        | None => (skip 1 rest, push_text "<" s)
        | Some tag =>
            let name := tg_name tag in
            if tg_closing tag then (tg_rest tag, close_tag name s)
            else if bool_decide (name ∈ HIDDEN) && negb (tg_self_closing tag) then
              ((raw_content name (tg_rest tag)).2, s)
            else if bool_decide (name = "title") then
              let '(inner, following) := raw_content "title" (tg_rest tag) in (following, set_title inner s)
            else (tg_rest tag, shape name (note_tag tag s))
        end
  end.

(** The loop; [None] when the rounds run out. *)
Fixpoint scan (fuel : nat) (rest : string) (s : Scan) : option Scan :=
  match fuel with
  | O => None
  | S fuel =>
      if bool_decide (rest = "") then Some s
      else
        let '(before, open) := span (fun a => negb (bool_decide (a = "<"%char))) rest in
        match open with
        | EmptyString => Some (push_text (decode_entities before) s)
        | String _ _ =>
            let s := if bool_decide (before = "") then s else push_text (decode_entities before) s in
            let '(rest, s) := at_open open s in scan fuel rest s
        end
  end.

Definition parse (html : string) : option Page :=
  s ← scan (S (String.length html)) html
        {| sc_page := Page_default; sc_text := TextBuilder_default; sc_depth := 0 |};
  let p := sc_page s in
  Some {| title := title p; p_lines := finish (sc_text s); links := links p; base_href := base_href p |}.

(** ** Examples of the source *)

Definition page_of (html : string) : Page := parse html ?? Page_default.

Example visible_text_ex :
  let p := page_of ("<!doctype html><html><head><title> Mon   site </title>" +:+
    "<style>p { color: red }</style><script>var x = '<p>piège</p>';</script></head>" +:+
    "<body><h1>Bienvenue</h1><p>Premier   paragraphe," +:+ String newline " sur deux lignes.</p>" +:+
    "<ul><li>un</li><li>deux <b>gras</b></li></ul>" +:+
    "<noscript>Activez JavaScript</noscript><svg><text>logo</text></svg>" +:+
    "<!-- commentaire <p>caché</p> --><div>fin&nbsp;&amp;&#233;&#x41;</div></body></html>")%string in
  (title p, p_lines p) = (Some "Mon site", ["Bienvenue"; "Premier paragraphe, sur deux lignes."; "un"; "deux gras"; "fin &éA"]).
Proof. vm_compute. reflexivity. Qed.

Example links_ex :
  let q := quote in
  let p := page_of ("<base href=" +:+ q +:+ "/docs/" +:+ q +:+ "><a href=" +:+ q +:+ "a.html" +:+ q +:+
    ">A</a> <A HREF='/b?x=1&amp;y=2'>B</A> <a name=" +:+ q +:+ "ancre" +:+ q +:+
    ">sans lien</a><area href=c.html><a href = " +:+ q +:+ " d.html " +:+ q +:+ ">D</a>")%string in
  (base_href p, links p) = (Some "/docs/", ["a.html"; "/b?x=1&y=2"; "c.html"; "d.html"]).
Proof. vm_compute. reflexivity. Qed.

Example malformed_ex :
  (p_lines (page_of "a < b et 3<4 <p>suite <div unterminated"), p_lines (page_of "<script>jamais fermé <p>texte"),
   p_lines (page_of "<p>x</scripts><p>y"), p_lines (page_of "<SCRIPT>a</ScRiPt><p>vu</p>"))
  = (["a < b et 3<4"; "suite"], [], ["x"; "y"], ["vu"]).
Proof. vm_compute. reflexivity. Qed.

Example preformatted_ex :
  let nl := String newline "" in
  p_lines (page_of ("<pre>ligne 1" +:+ nl +:+ "ligne   2" +:+ nl +:+ nl +:+ "ligne 3</pre><p>a" +:+ nl +:+ "b</p>")%string)
  = ["ligne 1"; "ligne 2"; "ligne 3"; "a b"].
Proof. vm_compute. reflexivity. Qed.

Example cells_ex :
  p_lines (page_of "<table><tr><th>Nom</th><th>Prix</th></tr><tr><td>A</td><td>3 €</td></tr></table>") = ["Nom Prix"; "A 3 €"].
Proof. vm_compute. reflexivity. Qed.

Example entities_ex :
  (decode_entities "a &foo; b &amp c &#0; &#x110000;", decode_entities "sans entité", decode_entities "fin &")
  = ("a &foo; b & c &#0; &#x110000;", "sans entité", "fin &").
Proof. vm_compute. reflexivity. Qed.

(** ** Reading ends *)

Lemma span_length p s : (String.length (span p s).1 + String.length (span p s).2 = String.length s)%nat.
Proof. induction s as [|a s IH]; simpl; [done|]. destruct (p a); [|done]. destruct (span p s). simpl in *. lia. Qed.
Lemma span_rest p s : (String.length (span p s).2 <= String.length s)%nat.
Proof. pose proof (span_length p s). lia. Qed.

Lemma skip_length n s : String.length (skip n s) = (String.length s - n)%nat.
Proof. revert s. induction n as [|n IH]; intros [|a s]; simpl; [done..|apply IH]. Qed.

Lemma strip_prefix_length p s s' :
  strip_prefix p s = Some s' -> String.length s = (String.length p + String.length s')%nat.
Proof.
  revert s. induction p as [|a p IH]; intros [|b s]; simpl; [by intros [= <-]|by intros [= <-]|done|].
  destruct (decide (a = b)); [|done]. intros Hs%IH. lia.
Qed.

Lemma after_length p s : (String.length (after p s) <= String.length s)%nat.
Proof.
  induction s as [|a s IH]; cbn [after].
  - destruct (strip_prefix p EmptyString) eqn:E; [apply strip_prefix_length in E; lia|done].
  - destruct (strip_prefix p (String a s)) eqn:E; [apply strip_prefix_length in E; lia|]. simpl. lia.
Qed.

Lemma attribute_value_length s : (String.length (attribute_value s).2 <= String.length s)%nat.
Proof.
  unfold attribute_value. pose proof (span_rest is_ascii_whitespace s) as Hs.
  destruct (span is_ascii_whitespace s).2 as [|q following]; [done|]. destruct (_ || _).
  - pose proof (span_rest (fun a => negb (bool_decide (a = q))) following) as Hf.
    destruct (span _ following) as [value rest]. cbn [snd] in *. rewrite skip_length. simpl in *. lia.
  - etransitivity; [apply span_rest|done].
Qed.

Lemma read_attributes_ends fuel s b l :
  (String.length s < fuel)%nat ->
  exists r, read_attributes fuel s b l = Some r /\ (String.length r.2 <= String.length s)%nat.
Proof.
  revert s b l. induction fuel as [|fuel IH]; intros s b l Hf; [lia|]. cbn [read_attributes].
  pose proof (span_rest is_ascii_whitespace s) as Hw.
  destruct (span is_ascii_whitespace s).2 as [|a following]; [eexists; split; [done|simpl; lia]|]. simpl in Hw.
  assert (forall s' b' l', (String.length s' <= String.length following)%nat -> exists r,
    read_attributes fuel s' b' l' = Some r /\ (String.length r.2 <= String.length s)%nat) as Hrec.
  { intros s' b' l' Hs'. destruct (IH s' b' l') as (r & -> & Hr); [lia|]. exists r. split; [done|lia]. }
  destruct (bool_decide (a = ">"%char)); [eexists; split; [done|simpl; lia]|].
  destruct (bool_decide (a = "/"%char)); [by apply Hrec|].
  pose proof (span_length (fun a => negb (ends_key a)) (String a following)) as Hk.
  destruct (span _ (String a following)) as [key s'] eqn:Ek.
  case_bool_decide as Hkey; [by apply Hrec|].
  assert (String.length s' <= String.length following)%nat as Hs'.
  { simpl in Hk. destruct key; [done|]. simpl in Hk. lia. }
  pose proof (span_rest is_ascii_whitespace s') as Hw'.
  destruct (span is_ascii_whitespace s').2 as [|e following']; [apply Hrec; simpl; lia|]. simpl in Hw'.
  destruct (bool_decide (e = "="%char)); [|apply Hrec; simpl; lia].
  pose proof (attribute_value_length following') as Hv. destruct (attribute_value following') as [value s''].
  apply Hrec. simpl in Hv. lia.
Qed.

Lemma read_tag_length input t : read_tag input = Some t -> (String.length (tg_rest t) <= String.length (skip 1 input))%nat.
Proof.
  unfold read_tag. set (s := skip 1 input).
  assert (forall closing s', (String.length s' <= String.length s)%nat ->
    (let '(name, rest) := span (fun a => is_ascii_alphanumeric a || bool_decide (a = "-"%char)) s' in
     match name with
     | String a _ =>
         if is_ascii_alphabetic a then
           '(self_closing, attributes, rest) ← read_attributes (S (String.length rest)) rest false [];
           Some {| tg_name := to_ascii_lowercase name; tg_closing := closing; tg_self_closing := self_closing;
                   tg_attributes := attributes; tg_rest := rest |}
         else None
     | EmptyString => None
     end) = Some t -> (String.length (tg_rest t) <= String.length s)%nat) as Hread.
  { intros closing s' Hs'. pose proof (span_rest (fun a => is_ascii_alphanumeric a || bool_decide (a = "-"%char)) s') as Hr.
    destruct (span _ s') as [[|a name] rest]; [done|]. destruct (is_ascii_alphabetic a); [|done].
    destruct (read_attributes_ends (S (String.length rest)) rest false []) as ([[sc attrs] rest'] & E & Hl); [lia|].
    rewrite E. simpl. intros [= <-]. simpl in *. lia. }
  destruct s as [|a following]; [by apply Hread|]. destruct (bool_decide _); apply Hread; simpl; lia.
Qed.

Lemma raw_content_length name s : (String.length (raw_content name s).2 <= String.length s)%nat.
Proof.
  assert (forall t, (String.length (after ">" (skip (2 + String.length name) t)) <= String.length t)%nat) as Ha.
  { intros t. etransitivity; [apply after_length|]. rewrite skip_length. lia. }
  induction s as [|a s IH]; cbn [raw_content]; destruct (closes _ _); cbn [snd]; [apply Ha|done|apply Ha|].
  destruct (raw_content name s). simpl in *. lia.
Qed.

Lemma at_open_shorter a rest s : (String.length (at_open (String a rest) s).1 <= String.length rest)%nat.
Proof.
  unfold at_open. destruct (strip_prefix "<!--" _) as [following|] eqn:Ec.
  { simpl. apply strip_prefix_length in Ec. pose proof (after_length "-->" following). simpl in *. lia. }
  destruct (_ || _) eqn:Ed.
  { simpl. destruct (decide (a = ">"%char)) as [->|Hn]; [done|]. rewrite (decide_False (P := ">"%char = a)) by done.
    apply after_length. }
  destruct (read_tag _) as [t|] eqn:Et; [|done]. apply read_tag_length in Et. simpl in Et.
  destruct (tg_closing t); [done|]. destruct (_ && _).
  { simpl. etransitivity; [apply raw_content_length|done]. }
  case_bool_decide; [|done]. pose proof (raw_content_length "title" (tg_rest t)) as Hr.
  destruct (raw_content "title" (tg_rest t)). simpl in *. lia.
Qed.

(** The loop over a page ends, whatever the page. *)
Lemma scan_ends fuel rest s : (String.length rest < fuel)%nat -> is_Some (scan fuel rest s).
Proof.
  revert rest s. induction fuel as [|fuel IH]; intros rest s Hf; [lia|]. cbn [scan].
  case_bool_decide; [eauto|]. pose proof (span_rest (fun a => negb (bool_decide (a = "<"%char))) rest) as Hr.
  destruct (span _ rest) as [before [|a open]]; [eauto|]. simpl in Hr.
  set (s' := if bool_decide (before = "") then s else _).
  pose proof (at_open_shorter a open s') as Ho. destruct (at_open _ s') as [rest' s'']. apply IH. simpl in Ho. lia.
Qed.

Theorem parse_reads_every_page html : is_Some (parse html).
Proof.
  unfold parse. destruct (scan_ends (S (String.length html)) html
    {| sc_page := Page_default; sc_text := TextBuilder_default; sc_depth := 0 |}) as [s ->]; [lia|]. simpl. eauto.
Qed.

(** ** Lines are clean *)

(** A line of text: not empty, without white space around it, on one line. *)
Definition clean (l : string) : Prop := l <> "" /\ trim l = l /\ contains_char newline l = false.

Notation bytes := Stdlib.Strings.String.list_ascii_of_string.
Notation of_bytes := Stdlib.Strings.String.string_of_list_ascii.

Lemma strip_bytes_length p s s' : strip_bytes p s = Some s' -> exists front, s = front ++ s' /\ length front = length p.
Proof.
  revert s. induction p as [|n p IH]; intros s; simpl; [intros [= <-]; by exists []|].
  destruct s as [|a s]; [done|]. destruct (_ =? n); [|done]. intros (front & -> & Hl)%IH.
  exists (a :: front). simpl. by rewrite Hl.
Qed.

Lemma strip_any_shorter ps s s' :
  Forall (fun p => p <> []) ps -> strip_any ps s = Some s' -> exists a front, s = a :: front ++ s'.
Proof.
  induction 1 as [|p ps Hp _ IH]; simpl; [done|]. destruct (strip_bytes p s) eqn:E; [|done].
  intros [= ->]. apply strip_bytes_length in E as ([|a front] & -> & Hl); [by destruct p|]. by exists a, front.
Qed.

Lemma strip_any_front ps s t : strip_any ps (s ++ t) = None -> strip_any ps s = None.
Proof.
  assert (forall p s', strip_bytes p s = Some s' -> strip_bytes p (s ++ t) = Some (s' ++ t)) as Hp.
  { intros p. revert s. induction p as [|n p IH]; intros s s'; simpl; [by intros [= ->]|].
    destruct s as [|a s]; [done|]. simpl. destruct (_ =? n); [apply IH|done]. }
  induction ps as [|p ps IH]; simpl; [done|]. destruct (strip_bytes p s) eqn:E; [|by destruct (strip_bytes p (s ++ t))].
  by rewrite (Hp _ _ E).
Qed.

Lemma trim_front_spec ps fuel s :
  Forall (fun p => p <> []) ps -> (length s <= fuel)%nat ->
  (exists front, s = front ++ trim_front ps fuel s) /\ strip_any ps (trim_front ps fuel s) = None.
Proof.
  intros Hps. revert s. induction fuel as [|fuel IH]; intros s Hf; simpl.
  - destruct s; [|simpl in Hf; lia]. split; [by exists []|].
    induction Hps as [|p ps Hp _ IH]; simpl; [done|]. by destruct p.
  - destruct (strip_any ps s) as [s'|] eqn:E; [|split; [by exists []|done]].
    apply strip_any_shorter in E as (a & front & ->); [|done]. simpl in Hf. rewrite length_app in Hf.
    destruct (IH s') as [[front' Hs] Hn]; [lia|]. split; [|done].
    exists (a :: front ++ front'). simpl. rewrite <- app_assoc, <- Hs. done.
Qed.

Lemma trim_front_stuck ps fuel s : strip_any ps s = None -> trim_front ps fuel s = s.
Proof. destruct fuel; simpl; [done|]. by intros ->. Qed.

Lemma white_spaces_not_empty : Forall (fun p => p <> []) white_spaces /\ Forall (fun p => p <> []) (reverse <$> white_spaces).
Proof. split; by repeat constructor. Qed.

Lemma bytes_of_bytes l : bytes (of_bytes l) = l.
Proof. apply Stdlib.Strings.String.list_ascii_of_string_of_list_ascii. Qed.

(** What [trim] leaves is a part of the text that [trim] leaves as it is. *)
Lemma trim_spec s :
  exists front back, bytes s = front ++ bytes (trim s) ++ back /\ trim (trim s) = trim s.
Proof.
  destruct white_spaces_not_empty as [Hw Hr]. unfold trim at 1 3. set (l := bytes s).
  destruct (trim_front_spec white_spaces (length l) l Hw) as [[front Hl] Hn]; [done|].
  set (f := trim_front white_spaces (length l) l) in *.
  destruct (trim_front_spec (reverse <$> white_spaces) (length f) (reverse f) Hr) as [[back Hf] Hn'].
  { by rewrite length_reverse. }
  set (r := trim_front (reverse <$> white_spaces) (length f) (reverse f)) in *.
  exists front, (reverse back). rewrite bytes_of_bytes.
  assert (f = reverse r ++ reverse back) as Hf'. { by rewrite <- reverse_app, <- Hf, reverse_involutive. }
  split; [by rewrite <- Hf'|]. unfold trim. rewrite bytes_of_bytes.
  rewrite (trim_front_stuck white_spaces); [|apply (strip_any_front _ _ (reverse back)); by rewrite <- Hf'].
  rewrite reverse_involutive. by rewrite trim_front_stuck.
Qed.

Definition one_line (s : string) : Prop := Forall (fun a => a <> newline) (bytes s).

Lemma one_line_char s : one_line s -> contains_char newline s = false.
Proof.
  unfold one_line. induction s as [|a s IH]; simpl; [done|]. intros [Ha Hs]%Forall_cons.
  rewrite bool_decide_eq_false_2 by done. by apply IH.
Qed.

Lemma one_line_app s t : one_line s -> one_line t -> one_line (s +:+ t)%string.
Proof. unfold one_line. induction s as [|a s IH]; [done|]. intros [Ha Hs]%Forall_cons Ht. constructor; [done|by apply IH]. Qed.

Lemma trim_one_line s : one_line s -> one_line (trim s).
Proof. destruct (trim_spec s) as (front & back & Hs & _). unfold one_line. rewrite Hs, !Forall_app. tauto. Qed.

(** The lines kept are clean, and the current one has no line feed. *)
Definition tidy (t : TextBuilder) : Prop := Forall clean (tb_lines t) /\ one_line (tb_current t).

Lemma tidy_push_byte a t : a <> newline -> tidy t -> tidy (push_byte a t).
Proof. intros Ha [Hl Hc]. split; [done|]. apply one_line_app; [done|]. by repeat constructor. Qed.
Lemma tidy_space t : tidy t -> tidy (space t).
Proof. intros Ht. unfold space. destruct (_ || _); [done|]. by apply tidy_push_byte. Qed.
Lemma tidy_break_line t : tidy t -> tidy (break_line t).
Proof.
  intros [Hl Hc]. split; [|constructor]. simpl. apply Forall_app. split; [done|]. case_bool_decide as Hn; [constructor|].
  apply Forall_singleton. split_and!; [done| |by apply one_line_char, trim_one_line]. by destruct (trim_spec (tb_current t)) as (? & ? & _ & ?).
Qed.

Lemma strip_any_newline s : is_Some (strip_any white_spaces (newline :: s)).
Proof. eexists. reflexivity. Qed.

Lemma tidy_push_chars k s t : tidy t -> tidy (push_chars k s t).
Proof.
  revert k t. induction s as [|a s IH]; intros k t Ht; cbn [push_chars]; [done|]. destruct k as [|k]; [|by apply IH].
  destruct (strip_any white_spaces (a :: s)) as [rest|] eqn:E; [by apply IH, tidy_space|].
  apply IH, tidy_push_byte; [|done]. intros ->. destruct (strip_any_newline s) as [x Hx]. congruence.
Qed.

Lemma tidy_push text pre t : tidy t -> tidy (push text pre t).
Proof.
  intros Ht. unfold push. destruct (split newline text) as [|first segments]; [done|].
  apply foldl_invariant; [by apply tidy_push_chars|]. intros t' segment _ Ht'. apply tidy_push_chars.
  destruct pre; [by apply tidy_break_line|by apply tidy_space].
Qed.

Lemma tidy_shape name s : tidy (sc_text s) -> tidy (sc_text (shape name s)).
Proof.
  intros Ht. unfold shape. case_bool_decide; [by apply tidy_break_line|]. case_bool_decide; [by apply tidy_space|done].
Qed.

Lemma note_tag_text t s : sc_text (note_tag t s) = sc_text s.
Proof.
  unfold note_tag. case_bool_decide; [by destruct (attribute "href" t)|].
  case_bool_decide; [by destruct (base_href (sc_page s))|]. by case_bool_decide.
Qed.

Lemma tidy_at_open rest s : tidy (sc_text s) -> tidy (sc_text (at_open rest s).2).
Proof.
  intros Ht. unfold at_open. destruct (strip_prefix _ _); [done|]. destruct (_ || _); [done|].
  destruct (read_tag rest) as [t|]; [|by apply tidy_push]. destruct (tg_closing t).
  { simpl. unfold close_tag. case_bool_decide; by apply tidy_shape. }
  destruct (_ && _); [done|]. case_bool_decide.
  - destruct (raw_content "title" _). simpl. unfold set_title. by destruct (title (sc_page s)).
  - apply tidy_shape. by rewrite note_tag_text.
Qed.

Lemma tidy_scan fuel rest s s' : tidy (sc_text s) -> scan fuel rest s = Some s' -> tidy (sc_text s').
Proof.
  revert rest s. induction fuel as [|fuel IH]; intros rest s Ht; cbn [scan]; [done|].
  case_bool_decide; [by intros [= <-]|]. destruct (span _ rest) as [before [|a open]].
  { intros [= <-]. by apply tidy_push. }
  set (s1 := if bool_decide (before = "") then s else _).
  assert (tidy (sc_text s1)) as Ht1 by (unfold s1; case_bool_decide; [done|by apply tidy_push]).
  pose proof (tidy_at_open (String a open) s1 Ht1) as Ht2. destruct (at_open _ s1) as [rest' s2]. by apply IH.
Qed.

(** The lines of a page are clean. *)
Lemma parse_lines_are_clean html p : parse html = Some p -> Forall clean (p_lines p).
Proof.
  unfold parse. intros (s & Hs & [= <-])%bind_Some. simpl. unfold finish.
  apply tidy_break_line. eapply tidy_scan; [|exact Hs]. split; constructor.
Qed.
