(* ===== verification/Reports.v ===== *)
(** * Scheduled reports ([reports/schedule.rs], [reports/store.rs], [reports/mod.rs])

    When a report leaves: the slots of a calendar, the table of the calendars with the
    conditional update that claims a slot, and the pass of every minute.  What a report
    says and how it is sent are the parameter [deliver]: how many recipients got it and
    missed it, or the error. *)
From S2P Require Import Prelude Text Chrono.

Definition GRACE : TimeDelta := td_hours 3.

Module Frequency.
Inductive Frequency := Daily | Weekly | Monthly.

Definition parse (raw : string) : option Frequency :=
  if bool_decide (raw = "daily") then Some Daily
  else if bool_decide (raw = "weekly") then Some Weekly
  else if bool_decide (raw = "monthly") then Some Monthly
  else None.

Definition as_str (f : Frequency) : string :=
  match f with Daily => "daily" | Weekly => "weekly" | Monthly => "monthly" end.

Definition span_days (f : Frequency) : Z :=
  match f with Daily => 1 | Weekly => 7 | Monthly => 30 end.
End Frequency.
Notation Frequency := Frequency.Frequency.

Record Period := { pe_start : DateTime; pe_end : DateTime; pe_previous_start : DateTime }.

Definition ending_at (end_ : DateTime) (f : Frequency) : Period :=
  let span := td_days (Frequency.span_days f) in
  {| pe_start := end_ - span; pe_end := end_; pe_previous_start := end_ - span - span |}.

Definition span (p : Period) : TimeDelta := pe_end p - pe_start p.

Record StoredSchedule := {
  ss_id : Z;
  ss_name : string;
  ss_enabled : bool;
  ss_frequency : string;
  ss_weekday : Z;
  ss_day_of_month : Z;
  ss_hour : Z;
  ss_timezone : string;
  ss_recipients : list string;
  ss_channel_id : option Z;
  ss_armed_at : DateTime;
  ss_last_sent_at : option DateTime;
  ss_last_error : option string;
}.

Record ScheduleInput := {
  si_name : string;
  si_enabled : bool;
  si_frequency : string;
  si_weekday : Z;
  si_day_of_month : Z;
  si_hour : Z;
  si_timezone : string;
  si_recipients : list string;
  si_channel_id : option Z;
}.

(** Milliseconds, as in the other tables. *)
Definition stamp (t : DateTime) : DateTime := t / ns_per_ms * ns_per_ms.

Section Reports.
Context {C : Calendar}.

(** ** The slots of a calendar *)

Record Schedule := {
  sc_frequency : Frequency;
  sc_weekday : Z;
  sc_day_of_month : Z;
  sc_hour : Z;
  sc_tz : Tz;
}.

Definition parse_timezone (name : string) : option Tz :=
  let name := trim name in
  if bool_decide (name = "") then None else tz_from_str name.

Definition Schedule_matches (s : Schedule) (date : NaiveDate) : bool :=
  match sc_frequency s with
  | Frequency.Daily => true
  | Frequency.Weekly => weekday date =? sc_weekday s
  | Frequency.Monthly => day date =? sc_day_of_month s
  end.

Definition slot_on (s : Schedule) (date : NaiveDate) : option DateTime :=
  find_map (fun hour => tz_earliest (sc_tz s) (naive_at date (hour mod 24 * 60)))
    [sc_hour s; sc_hour s + 1].

(** The slots of the days of a list that match, in the order of the list. *)
Definition slots (s : Schedule) (dates : list NaiveDate) : list DateTime :=
  omap (slot_on s) (filter (fun date => Schedule_matches s date = true) dates).

Definition latest_slot (s : Schedule) (now : DateTime) : option DateTime :=
  let today := tz_date (sc_tz s) now in
  find_map (fun slot => if slot <=? now then Some slot else None)
    (slots s (omap (checked_sub_days today) (seqZ 0 63))).

Definition next_slot (s : Schedule) (now : DateTime) : option DateTime :=
  let today := tz_date (sc_tz s) now in
  find_map (fun slot => if now <? slot then Some slot else None)
    (slots s (omap (checked_add_days today) (seqZ 0 63))).

Definition due_slot (s : Schedule) (now armed_at : DateTime) (last_sent : option DateTime) :
    option DateTime :=
  slot ← latest_slot s now;
  if (slot <=? armed_at) || (GRACE <? now - slot) then None
  else if is_some_and last_sent (fun sent => slot <=? sent) then None
  else Some slot.

(** ** The table *)

Definition schedule_of (stored : StoredSchedule) : option Schedule :=
  f ← Frequency.parse (ss_frequency stored);
  tz ← parse_timezone (ss_timezone stored);
  Some {| sc_frequency := f; sc_weekday := ss_weekday stored;
          sc_day_of_month := ss_day_of_month stored; sc_hour := ss_hour stored; sc_tz := tz |}.

Definition next_run (stored : StoredSchedule) (now : DateTime) : option DateTime :=
  if negb (ss_enabled stored) || bool_decide (ss_recipients stored = []) then None
  else s ← schedule_of stored; next_slot s (Z.max now (ss_armed_at stored)).

(** [id] is the identifier SQLite gives. *)
Definition insert (input : ScheduleInput) (now : DateTime) (id : Z) (table : list StoredSchedule) :
    list StoredSchedule :=
  table ++ [{| ss_id := id; ss_name := si_name input; ss_enabled := si_enabled input;
               ss_frequency := si_frequency input; ss_weekday := si_weekday input;
               ss_day_of_month := si_day_of_month input; ss_hour := si_hour input;
               ss_timezone := si_timezone input; ss_recipients := si_recipients input;
               ss_channel_id := si_channel_id input; ss_armed_at := stamp now;
               ss_last_sent_at := None; ss_last_error := None |}].

(** The statements that change the rows with an identifier. *)
Definition on_row (id : Z) (f : StoredSchedule -> StoredSchedule) (table : list StoredSchedule) :
    list StoredSchedule :=
  (fun s => if bool_decide (ss_id s = id) then f s else s) <$> table.

Definition retimed (current : StoredSchedule) (input : ScheduleInput) : bool :=
  bool_decide (ss_frequency current <> si_frequency input) ||
  negb (ss_weekday current =? si_weekday input) ||
  negb (ss_day_of_month current =? si_day_of_month input) ||
  negb (ss_hour current =? si_hour input) ||
  bool_decide (ss_timezone current <> si_timezone input) ||
  (negb (ss_enabled current) && si_enabled input).

Definition update (current : StoredSchedule) (input : ScheduleInput) (now : DateTime)
    (table : list StoredSchedule) : list StoredSchedule :=
  let armed_at := if retimed current input then now else ss_armed_at current in
  on_row (ss_id current) (fun s => {|
    ss_id := ss_id s; ss_name := si_name input; ss_enabled := si_enabled input;
    ss_frequency := si_frequency input; ss_weekday := si_weekday input;
    ss_day_of_month := si_day_of_month input; ss_hour := si_hour input;
    ss_timezone := si_timezone input; ss_recipients := si_recipients input;
    ss_channel_id := si_channel_id input; ss_armed_at := stamp armed_at;
    ss_last_sent_at := ss_last_sent_at s; ss_last_error := ss_last_error s |}) table.

Definition delete (id : Z) (table : list StoredSchedule) : list StoredSchedule * bool :=
  (filter (fun s => ss_id s <> id) table, existsb (fun s => bool_decide (ss_id s = id)) table).

Definition set_sent (sent : option DateTime) (error : option string) (s : StoredSchedule) :
    StoredSchedule := {|
  ss_id := ss_id s; ss_name := ss_name s; ss_enabled := ss_enabled s;
  ss_frequency := ss_frequency s; ss_weekday := ss_weekday s;
  ss_day_of_month := ss_day_of_month s; ss_hour := ss_hour s; ss_timezone := ss_timezone s;
  ss_recipients := ss_recipients s; ss_channel_id := ss_channel_id s;
  ss_armed_at := ss_armed_at s; ss_last_sent_at := sent; ss_last_error := error |}.

(** The [WHERE] of the update that claims a slot. *)
Definition claimable (id : Z) (slot : DateTime) (s : StoredSchedule) : bool :=
  bool_decide (ss_id s = id) && ss_enabled s &&
  match ss_last_sent_at s with None => true | Some sent => sent <? stamp slot end.

Definition claim (id : Z) (slot now : DateTime) (table : list StoredSchedule) :
    list StoredSchedule * bool :=
  ((fun s => if claimable id slot s then set_sent (Some (stamp now)) None s else s) <$> table,
   bool_decide (length (filter (fun s => claimable id slot s = true) table) = 1%nat)).

Definition set_error (id : Z) (error : option string) (table : list StoredSchedule) :
    list StoredSchedule :=
  on_row id (fun s => set_sent (ss_last_sent_at s) error s) table.

(** ** The pass *)

Record Delivery := { dl_sent : nat; dl_failed : nat }.

Context (deliver : StoredSchedule -> DateTime -> Delivery + string).

(** [seen] is the row as it was listed at the start of the pass, which another pass may
    have changed since; the slots claimed are kept with the calendars that did. *)
Definition run_one (now : DateTime) (st : list StoredSchedule * list (Z * DateTime))
    (seen : StoredSchedule) : list StoredSchedule * list (Z * DateTime) :=
  let '(table, served) := st in
  if negb (ss_enabled seen) then st
  else
    match (calendar ← schedule_of seen; due_slot calendar now (ss_armed_at seen) (ss_last_sent_at seen)) with
    | None => st
    | Some slot =>
        let '(table, won) := claim (ss_id seen) slot now table in
        if negb won then (table, served)
        else
          (match deliver seen now with
           | inl delivery =>
               if (0 <? dl_failed delivery)%nat then
                 set_error (ss_id seen)
                   (Some (display_i64 (Z.of_nat (dl_failed delivery)) +:+
                          " recipient(s) could not be reached.")%string) table
               else table
           | inr error => set_error (ss_id seen) (Some error) table
           end, served ++ [(ss_id seen, slot)])
    end.

Definition run_due (sending_disabled : bool) (now : DateTime) (table : list StoredSchedule) :
    list StoredSchedule * list (Z * DateTime) :=
  if sending_disabled then (table, [])
  else foldl (run_one now) (table, []) table.
End Reports.

(** ** Facts *)

Lemma find_map_if {A} (p : A -> bool) l x :
  find_map (fun y => if p y then Some y else None) l = Some x -> x ∈ l /\ p x = true.
Proof.
  induction l as [|y l IH]; simpl; [done|]. destruct (p y) eqn:E.
  - intros [= <-]. split; [left|done].
  - intros H. destruct (IH H). split; [by right|done].
Qed.

Lemma stamp_mono a b : a <= b -> stamp a <= stamp b.
Proof. intros H. unfold stamp. pose proof (Z.div_le_mono a b ns_per_ms ltac:(done) H). unfold ns_per_ms in *. lia. Qed.

Section Claims.
Context {C : Calendar} (deliver : StoredSchedule -> DateTime -> Delivery + string).

Notation table := (list StoredSchedule).
Notation log := (list (Z * DateTime)).

(** What may happen to the table, in any order: a pass reaching a calendar, whatever
    row it saw and whenever, and the edits.  An identifier is never given twice. *)
Inductive step : table * log -> table * log -> Prop :=
| step_pass now seen st : step st (run_one deliver now st seen)
| step_insert input now id t l :
    (forall s, s ∈ t -> ss_id s <> id) -> (forall c, c ∈ l -> c.1 <> id) ->
    step (t, l) (insert input now id t, l)
| step_update current input now t l : step (t, l) (update current input now t, l)
| step_delete id t l : step (t, l) (fst (delete id t), l).

(** The claims of a calendar go forward. *)
Definition forward (l : log) : Prop :=
  forall l1 id a l2 b l3, l = l1 ++ (id, a) :: l2 ++ (id, b) :: l3 -> a < b.

Definition claims_ok (st : table * log) : Prop :=
  NoDup (ss_id <$> fst st) /\ forward (snd st) /\
  forall id slot s, (id, slot) ∈ snd st -> s ∈ fst st -> ss_id s = id ->
    exists sent, ss_last_sent_at s = Some sent /\ stamp slot <= sent.

Lemma due_slot_due s now armed last slot :
  due_slot s now armed last = Some slot ->
  slot <= now /\ now - slot <= GRACE /\ armed < slot /\
  (forall sent, last = Some sent -> sent < slot) /\
  exists date, Schedule_matches s date = true /\ slot_on s date = Some slot.
Proof.
  unfold due_slot. destruct (latest_slot s now) as [x|] eqn:E; [|done]. simpl.
  destruct (_ || _) eqn:Hg; [done|]. destruct (is_some_and _ _) eqn:Hl; [done|]. intros [= ->].
  apply find_map_if in E as [Hin Hle]. bools. split_and!; try lia.
  - intros sent ->. simpl in Hl. bools. lia.
  - apply list_elem_of_omap in Hin as (date & Hd & Hs).
    apply list_elem_of_filter in Hd as [Hm _]. by exists date.
Qed.

Lemma forward_snoc l id b :
  forward l -> (forall a, (id, a) ∈ l -> a < b) -> forward (l ++ [(id, b)]).
Proof.
  intros Hl Hb l1 id' a l2 b' l3 E.
  destruct l3 as [|x l3 _] using rev_ind.
  - change (l1 ++ (id', a) :: l2 ++ [(id', b')]) with (l1 ++ ((id', a) :: l2) ++ [(id', b')]) in E.
    rewrite app_assoc in E. apply app_inj_tail in E as [-> [= -> ->]]. apply Hb. set_solver.
  - replace (l1 ++ (id', a) :: l2 ++ (id', b') :: l3 ++ [x]) with
      ((l1 ++ (id', a) :: l2 ++ (id', b') :: l3) ++ [x]) in E
      by (by rewrite <-!app_assoc; simpl; rewrite <-app_assoc).
    apply app_inj_tail in E as [-> _]. by eapply Hl.
Qed.

Lemma on_row_ids id f t : (forall s, ss_id (f s) = ss_id s) -> ss_id <$> on_row id f t = ss_id <$> t.
Proof.
  intros Hf. unfold on_row. rewrite <-list_fmap_compose. apply list_fmap_ext.
  intros n s _. simpl. by case_bool_decide.
Qed.

(** An edit that keeps the identifier and the date of the last report of every row. *)
Lemma claims_ok_edit t t' l :
  ss_id <$> t' = ss_id <$> t ->
  (forall s', s' ∈ t' -> exists s, s ∈ t /\ ss_id s' = ss_id s /\ ss_last_sent_at s' = ss_last_sent_at s) ->
  claims_ok (t, l) -> claims_ok (t', l).
Proof.
  intros Hid Hs (Hnd & Hf & Hc). unfold claims_ok in *. simpl in *. rewrite Hid.
  split_and!; [done..|]. intros id slot s' Hin Hs' He.
  destruct (Hs s' Hs') as (s & Hst & Hi & ->). apply (Hc id slot); [done|done|congruence].
Qed.

Lemma on_row_edit id f t s' :
  (forall s, ss_id (f s) = ss_id s /\ ss_last_sent_at (f s) = ss_last_sent_at s) ->
  s' ∈ on_row id f t ->
  exists s, s ∈ t /\ ss_id s' = ss_id s /\ ss_last_sent_at s' = ss_last_sent_at s.
Proof.
  intros Hf (s & -> & Hs)%list_elem_of_fmap. exists s. split; [done|].
  case_bool_decide; [apply Hf|done].
Qed.

Lemma set_error_ok id error t l : claims_ok (t, l) -> claims_ok (set_error id error t, l).
Proof.
  apply claims_ok_edit; [by apply on_row_ids|]. intros s'. by apply on_row_edit.
Qed.

Lemma claim_ok id slot now t l :
  slot <= now -> claims_ok (t, l) -> snd (claim id slot now t) = true ->
  claims_ok (fst (claim id slot now t), l ++ [(id, slot)]).
Proof.
  intros Hle (Hnd & Hf & Hc) Hwon. unfold claim in *. simpl in *. apply bool_decide_eq_true in Hwon.
  destruct (filter _ t) as [|s0 rest] eqn:E; [done|].
  assert (s0 ∈ t /\ claimable id slot s0 = true) as [Hs0 Hcl].
  { assert (s0 ∈ filter (fun s => claimable id slot s = true) t) as [? ?]%list_elem_of_filter
      by (rewrite E; left). done. }
  unfold claimable in Hcl. bools.
  assert (forall s, s ∈ t -> ss_id s = id -> s = s0) as Huniq.
  { intros s Hs Hid. apply list_elem_of_lookup in Hs as [i Hi], Hs0 as [j Hj].
    assert (i = j) as ->; [|congruence].
    apply (NoDup_lookup _ _ _ id Hnd); rewrite list_lookup_fmap, ?Hi, ?Hj; simpl; congruence. }
  assert (ss_id <$> ((fun s => if claimable id slot s then set_sent (Some (stamp now)) None s else s) <$> t)
          = ss_id <$> t) as Hids.
  { rewrite <-list_fmap_compose. apply list_fmap_ext. intros n s _. simpl.
    by destruct (claimable id slot s). }
  unfold claims_ok. simpl. rewrite Hids. split_and!; [done| |].
  - apply forward_snoc; [done|]. intros a Ha. destruct (Hc id a s0 Ha) as (sent & Hsent & Hle'); [done..|].
    rewrite Hsent in *. bools. destruct (Z.le_gt_cases slot a) as [Hsa|]; [|lia].
    apply stamp_mono in Hsa. lia.
  - intros id' slot' s Hin Hs Hid. apply list_elem_of_fmap in Hs as (s1 & -> & Hs1).
    assert (ss_id s1 = id') as Hid1 by (by destruct (claimable id slot s1)).
    destruct (decide (id' = id)) as [->|Hne].
    + rewrite (Huniq s1 Hs1 Hid1) in *.
      assert (claimable id slot s0 = true) as ->.
      { unfold claimable. rewrite bool_decide_true by done. simpl.
        repeat match goal with Hb : _ = true |- _ => rewrite Hb; clear Hb end. done. }
      exists (stamp now). split; [done|]. apply elem_of_app in Hin as [Hin|Hin].
      * destruct (Hc id slot' s0 Hin) as (sent & Hsent & Hle'); [done..|].
        rewrite Hsent in *. bools. apply stamp_mono in Hle. lia.
      * apply list_elem_of_singleton in Hin as [= ->]. by apply stamp_mono.
    + assert (claimable id slot s1 = false) as ->.
      { unfold claimable. by rewrite bool_decide_false by congruence. }
      apply elem_of_app in Hin as [Hin|Hin]; [by apply (Hc id')|].
      apply list_elem_of_singleton in Hin as [= -> _]. done.
Qed.

Lemma run_one_ok now seen st : claims_ok st -> claims_ok (run_one deliver now st seen).
Proof.
  destruct st as [t l]. intros Hok. unfold run_one. destruct (negb _); [done|].
  destruct (schedule_of seen) as [calendar|]; cbn [mbind option_bind]; [|done].
  destruct (due_slot calendar now _ _) as [slot|] eqn:Hd; [|done].
  destruct (claim (ss_id seen) slot now t) as [claimed won] eqn:E. destruct won; cbn [negb].
  - assert (claims_ok (claimed, l ++ [(ss_id seen, slot)])) as Hc.
    { change claimed with (fst (claimed, true)). rewrite <-E. apply claim_ok; [|done|by rewrite E].
      by apply due_slot_due in Hd as [? _]. }
    destruct (deliver seen now) as [delivery|error]; [|by apply set_error_ok].
    destruct (_ <? _)%nat; [by apply set_error_ok|done].
  - assert (snd (claim (ss_id seen) slot now t) = false) as Hlost by by rewrite E.
    change claimed with (fst (claimed, false)). rewrite <-E. unfold claim in *. simpl in *.
    apply bool_decide_eq_false in Hlost. destruct Hok as (Hnd & Hf & Hc).
    (* the update of a claim that was lost changes no row *)
    assert (forall s, s ∈ t -> claimable (ss_id seen) slot s = false) as Hno.
    { intros s Hs. destruct (claimable _ _ s) eqn:Hcl; [|done]. exfalso. apply Hlost.
      apply list_elem_of_split in Hs as (l1 & l2 & ->).
      cbn [fst] in Hnd. rewrite fmap_app, fmap_cons in Hnd. apply NoDup_app in Hnd as (_ & H1 & [H2 _]%NoDup_cons).
      assert (forall s', claimable (ss_id seen) slot s' = true -> ss_id s' = ss_id s) as Hsame.
      { unfold claimable in *. intros s' Hs'. bools. congruence. }
      rewrite filter_app, filter_cons, decide_True by done. rewrite !filter_none; [done|..].
      - intros x Hx Hcx%Hsame. apply H2. rewrite <-Hcx. by apply list_elem_of_fmap_2.
      - intros x Hx Hcx%Hsame. apply (H1 (ss_id x)); [by apply list_elem_of_fmap_2|].
        rewrite Hcx. left. }
    assert ((fun s => if claimable (ss_id seen) slot s then set_sent (Some (stamp now)) None s else s) <$> t
            = t) as ->; [|done].
    rewrite <-(list_fmap_id t) at 2. apply list_fmap_ext. intros n s Hs.
    by rewrite Hno by (by eapply list_elem_of_lookup_2).
Qed.

Lemma insert_ok input now id t l :
  (forall s, s ∈ t -> ss_id s <> id) -> (forall c, c ∈ l -> c.1 <> id) ->
  claims_ok (t, l) -> claims_ok (insert input now id t, l).
Proof.
  intros Ht Hl (Hnd & Hf & Hc). unfold insert. split_and!; simpl.
  - rewrite fmap_app. apply NoDup_app. split; [done|]. split; [|apply NoDup_singleton].
    intros x (s & -> & Hs)%list_elem_of_fmap. simpl. rewrite list_elem_of_singleton. by apply Ht.
  - done.
  - intros id' slot s Hin Hs He. apply elem_of_app in Hs as [Hs|Hs]; [by apply (Hc id')|].
    apply list_elem_of_singleton in Hs as ->. simpl in He. subst. by apply Hl in Hin.
Qed.

Lemma update_ok current input now t l : claims_ok (t, l) -> claims_ok (update current input now t, l).
Proof.
  apply claims_ok_edit; [by apply on_row_ids|]. intros s'. by apply on_row_edit.
Qed.

Lemma delete_ok id t l : claims_ok (t, l) -> claims_ok (fst (delete id t), l).
Proof.
  intros (Hnd & Hf & Hc). split_and!; simpl; [|done|].
  - eapply sublist_NoDup; [exact Hnd|]. apply fmap_sublist, sublist_filter.
  - intros id' slot s Hin [_ Hs]%list_elem_of_filter. by apply Hc.
Qed.

Lemma rtc_preserves st st' : rtc step st st' -> claims_ok st -> claims_ok st'.
Proof.
  induction 1 as [st|st st1 st' Hst _ IH]; [done|]. intros Hok. apply IH. destruct Hst.
  - by apply run_one_ok.
  - by apply insert_ok.
  - by apply update_ok.
  - by apply delete_ok.
Qed.
End Claims.

(** ** Properties *)

(** A report leaves at most once per slot.  Whatever passes of the loop (on rows that
    may be stale, at any clock) and edits of the calendars follow each other, the slots
    claimed for a calendar go strictly forward, and a pass only claims, for the row it
    saw, a slot of a day of the calendar that is over for three hours at most, later
    than the arming and than the last report. *)
Theorem report_slots_are_claimed_once {C : Calendar} deliver t t' log :
  NoDup (ss_id <$> t) -> rtc (step deliver) (t, []) (t', log) ->
  forward log /\
  forall now seen table served,
    run_one deliver now (t', log) seen = (table, served) -> served <> log ->
    exists calendar slot, schedule_of seen = Some calendar /\ served = log ++ [(ss_id seen, slot)] /\
      ss_enabled seen = true /\ slot <= now /\ now - slot <= GRACE /\ ss_armed_at seen < slot /\
      (forall sent, ss_last_sent_at seen = Some sent -> sent < slot) /\
      exists date, Schedule_matches calendar date = true /\ slot_on calendar date = Some slot.
Proof.
  intros Hnd Hsteps. split.
  - assert (claims_ok (t', log)) as (_ & Hf & _); [|done].
    assert (claims_ok (t, [])) as Hok
      by (split_and!; [done|by intros [|? ?]|by intros ? ? ? ?%elem_of_nil]).
    by apply (rtc_preserves deliver _ _ Hsteps).
  - intros now seen table served. unfold run_one. destruct (ss_enabled seen) eqn:En; cbn [negb]; [|by intros ?; simplify_eq].
    destruct (schedule_of seen) as [calendar|]; cbn [mbind option_bind]; [|by intros ?; simplify_eq].
    destruct (due_slot calendar now _ _) as [slot|] eqn:Hd; [|by intros ?; simplify_eq].
    destruct (claim (ss_id seen) slot now t') as [claimed won]. destruct won; cbn [negb]; [|by intros ?; simplify_eq].
    intros [= _ <-] _. exists calendar, slot. apply due_slot_due in Hd. destruct_and!. by split_and!.
Qed.

(** Every Monday at 8 in Paris, armed on 27 March 2026, seen on the 30th at 8:01. *)
Definition weekly_report : StoredSchedule := {|
  ss_id := 1; ss_name := "Weekly"; ss_enabled := true; ss_frequency := "weekly"; ss_weekday := 0;
  ss_day_of_month := 1; ss_hour := 8; ss_timezone := "Europe/Paris";
  ss_recipients := ["ops@example.org"]; ss_channel_id := None; ss_armed_at := td_days 20539;
  ss_last_sent_at := None; ss_last_error := None |}.

Lemma report_slots_are_claimed_once_witness :
  let now := td_seconds 1774850460 in
  let deliver (_ : StoredSchedule) (_ : DateTime) := inr "no channel"%string in
  snd (run_one deliver now ([weekly_report], []) weekly_report) = [(1, td_seconds 1774850400)] /\
  forward (snd (run_one deliver now ([weekly_report], []) weekly_report)).
Proof.
  intros now deliver. split; [vm_compute; reflexivity|].
  destruct (run_one deliver now ([weekly_report], []) weekly_report) as [t' log] eqn:E.
  destruct (report_slots_are_claimed_once deliver [weekly_report] t' log) as [H _].
  - apply NoDup_singleton.
  - apply rtc_once. rewrite <-E. constructor.
  - exact H.
Defined.
