(* ===== verification/RateLimit.v ===== *)
(** * Login attempts ([auth/rate_limit.rs], [limiter_keys] of [api/auth.rs])

    The counters that slow down whoever tries passwords: one per client address and one
    per account seen from an address.  An [Instant] is a number of nanoseconds since an
    arbitrary origin, a bucket map a finite map by key.  [lowercase] stands for
    [str::to_lowercase] and its Unicode tables. *)
From S2P Require Import Prelude Text Chrono.

Definition FREE_ATTEMPTS : Z := 5.
Definition BASE_DELAY : Duration := td_seconds 30.
Definition MAX_DELAY : Duration := td_seconds 300.

Record RateLimiter := { consecutive_failures : Z; blocked_until : option Z }.

Definition RateLimiter_new : RateLimiter := {| consecutive_failures := 0; blocked_until := None |}.

(** [None] lets the attempt go on, [Some n] refuses it for [n] seconds. *)
Definition limiter_check (l : RateLimiter) (now : Z) : option Z :=
  match blocked_until l with
  | Some until => if now <? until then Some ((until - now) / ns_per_s + 1) else None
  | None => None
  end.

(** The delay after [n] failures in a row, [n] above [FREE_ATTEMPTS]. *)
Definition delay (n : Z) : Duration :=
  Z.min (BASE_DELAY * Z.min (2 ^ Z.min (n - FREE_ATTEMPTS - 1) 16) u32_max) MAX_DELAY.

Definition limiter_failure (l : RateLimiter) (now : Z) : RateLimiter :=
  let n := u32_saturating_add (consecutive_failures l) 1 in
  if n <=? FREE_ATTEMPTS then {| consecutive_failures := n; blocked_until := blocked_until l |}
  else {| consecutive_failures := n; blocked_until := Some (now + delay n) |}.

Definition limiter_success (l : RateLimiter) : RateLimiter := RateLimiter_new.

(** ** Buckets *)

Inductive IpAddr := V4 (bits : Z) | V6 (bits : Z).

#[export] Instance IpAddr_eq_dec : EqDecision IpAddr.
Proof. solve_decision. Defined.
#[export] Instance IpAddr_countable : Countable IpAddr.
Proof.
  apply (inj_countable' (fun ip => match ip with V4 b => inl b | V6 b => inr b end)
           (fun x => match x with inl b => V4 b | inr b => V6 b end)). by intros [].
Defined.

Inductive Key := Ip (ip : IpAddr) | User (name : string) (ip : option IpAddr).

#[export] Instance Key_eq_dec : EqDecision Key.
Proof. solve_decision. Defined.
#[export] Instance Key_countable : Countable Key.
Proof.
  apply (inj_countable' (fun k => match k with Ip ip => inl ip | User n ip => inr (n, ip) end)
           (fun x => match x with inl ip => Ip ip | inr (n, ip) => User n ip end)). by intros [].
Defined.

Definition IDLE : Duration := td_seconds (15 * 60).
Definition PURGE_ABOVE : nat := 4096.

Notation Buckets := (gmap Key (RateLimiter * Z)).
Definition Buckets_new : Buckets := ∅.

(** The longest wait of the buckets that block. *)
Definition longest_wait (keys : list Key) (now : Z) (b : Buckets) (wait : Z) : Z :=
  foldl (fun wait key =>
           match bucket ← b !! key; limiter_check (fst bucket) now with
           | Some seconds => Z.max wait seconds
           | None => wait
           end) wait keys.

Definition Buckets_check (keys : list Key) (now : Z) (b : Buckets) : option Z :=
  let wait := longest_wait keys now b 0 in
  if 0 <? wait then Some wait else None.

(** [now.duration_since(last)] is zero when [last] is later. *)
Definition bucket_kept (now : Z) (e : RateLimiter * Z) : bool :=
  bool_decide (is_Some (limiter_check (fst e) now)) || (Z.max (now - snd e) 0 <? IDLE).

Definition Buckets_purge (now : Z) (b : Buckets) : Buckets :=
  if (size b <? PURGE_ABOVE)%nat then b else filter (fun kv => bucket_kept now kv.2 = true) b.

Definition count_failure (now : Z) (b : Buckets) (key : Key) : Buckets :=
  <[key := (limiter_failure ((fst <$> b !! key) ?? RateLimiter_new) now, now)]> b.

Definition Buckets_failure (keys : list Key) (now : Z) (b : Buckets) : Buckets :=
  Buckets_purge now (foldl (count_failure now) b keys).

Definition Buckets_success (keys : list Key) (b : Buckets) : Buckets :=
  foldl (fun b key => base.delete key b) b keys.

Section Keys.
Context (lowercase : string -> string).

Definition Key_user (username : string) (ip : option IpAddr) : Key :=
  User (lowercase (trim username)) ip.

Definition limiter_keys (ip : option IpAddr) (username : option string) : list Key :=
  match ip with Some ip => [Ip ip] | None => [] end ++ [Key_user (username ?? "") ip].
End Keys.

(** ** Facts *)

(** Failures at given times, each one admitted when it is tried. *)
Fixpoint failures (l : RateLimiter) (ts : list Z) : option RateLimiter :=
  match ts with
  | [] => Some l
  | t :: ts =>
      match limiter_check l t with
      | None => failures (limiter_failure l t) ts
      | Some _ => None
      end
  end.

Lemma failures_app l ts1 ts2 l' :
  failures l (ts1 ++ ts2) = Some l' -> exists l1, failures l ts1 = Some l1 /\ failures l1 ts2 = Some l'.
Proof.
  revert l. induction ts1 as [|t ts1 IH]; intros l; simpl; [by exists l|].
  destruct (limiter_check l t); [done|apply IH].
Qed.

Lemma failures_count l ts l' :
  failures l ts = Some l' -> 0 <= consecutive_failures l ->
  consecutive_failures l + Z.of_nat (length ts) <= u32_max ->
  consecutive_failures l' = consecutive_failures l + Z.of_nat (length ts).
Proof.
  revert l. induction ts as [|t ts IH]; intros l; simpl; [intros [= <-]; lia|].
  destruct (limiter_check l t); [done|]. intros Hf H0 Hb.
  assert (consecutive_failures (limiter_failure l t) = consecutive_failures l + 1) as Hc.
  { unfold limiter_failure, u32_saturating_add. destruct (_ <=? _); simpl; lia. }
  rewrite (IH _ Hf); rewrite Hc; lia.
Qed.

Lemma delay_range n : FREE_ATTEMPTS < n -> BASE_DELAY <= delay n <= MAX_DELAY.
Proof.
  unfold delay, FREE_ATTEMPTS, BASE_DELAY, MAX_DELAY, td_seconds, ns_per_s, u32_max. intros Hn.
  assert (1 <= 2 ^ Z.min (n - 5 - 1) 16) by (pose proof (Z.pow_pos_nonneg 2 (Z.min (n - 5 - 1) 16)); lia).
  lia.
Qed.

Lemma delay_cap n : 10 <= n -> delay n = MAX_DELAY.
Proof.
  unfold delay, FREE_ATTEMPTS, BASE_DELAY, MAX_DELAY, td_seconds, ns_per_s, u32_max. intros Hn.
  assert (2 ^ 4 <= 2 ^ Z.min (n - 5 - 1) 16) by (apply Z.pow_le_mono_r; lia). lia.
Qed.

(** After the free attempts, the next one waits for the delay of the count. *)
Lemma failures_spaced ts l i t t' :
  failures RateLimiter_new ts = Some l -> Z.of_nat (length ts) <= u32_max ->
  (5 <= i)%nat -> ts !! i = Some t -> ts !! S i = Some t' -> t + delay (Z.of_nat (S i)) <= t'.
Proof.
  intros Hf Hlen Hi Ht Ht'. rewrite <-(take_drop i ts) in Hf.
  rewrite (drop_S ts t i Ht), (drop_S ts t' (S i) Ht') in Hf.
  apply failures_app in Hf as (l1 & H1 & H2). pose proof (lookup_lt_Some _ _ _ Ht) as Hlt.
  apply failures_count in H1; [|simpl; lia|rewrite length_take; simpl; lia].
  rewrite length_take, Nat.min_l in H1 by lia. simpl in H1.
  simpl in H2. destruct (limiter_check l1 t); [done|].
  destruct (limiter_check (limiter_failure l1 t) t') eqn:E; [done|].
  unfold limiter_failure, u32_saturating_add, limiter_check in E. rewrite H1 in E.
  assert (Z.min (0 + Z.of_nat i + 1) u32_max = Z.of_nat (S i)) as Hm by lia. rewrite Hm in E.
  assert (Z.of_nat (S i) <=? FREE_ATTEMPTS = false) as Hg by (apply Z.leb_gt; unfold FREE_ATTEMPTS; lia).
  rewrite Hg in E. cbn [blocked_until] in E.
  destruct (Z.ltb_spec t' (t + delay (Z.of_nat (S i)))); [done|lia].
Qed.

Lemma failures_capped ts l i k t t' :
  failures RateLimiter_new ts = Some l -> Z.of_nat (length ts) <= u32_max ->
  (9 <= i)%nat -> ts !! i = Some t -> ts !! (i + k)%nat = Some t' -> Z.of_nat k * MAX_DELAY <= t' - t.
Proof.
  intros Hf Hlen Hi Ht. revert t'. induction k as [|k IH]; intros t' Ht'.
  - rewrite Nat.add_0_r in Ht'. assert (t = t') as -> by congruence. lia.
  - rewrite Nat.add_succ_r in Ht'.
    destruct (lookup_lt_is_Some_2 ts (i + k)) as [u Hu].
    { apply lookup_lt_Some in Ht'. lia. }
    pose proof (failures_spaced ts l (i + k) u t' Hf Hlen ltac:(lia) Hu Ht') as Hs.
    rewrite delay_cap in Hs by lia. specialize (IH u Hu). lia.
Qed.

Lemma limiter_check_later l now now' :
  now <= now' -> limiter_check l now = None -> limiter_check l now' = None.
Proof.
  unfold limiter_check. destruct (blocked_until l) as [u|]; [|done]. intros Hle.
  destruct (Z.ltb_spec now u); [done|]. by rewrite (proj2 (Z.ltb_ge _ _)) by lia.
Qed.

(** A purge only forgets what does not block, now and later. *)
Lemma Buckets_purge_check keys now now' b :
  now <= now' -> Buckets_check keys now' (Buckets_purge now b) = Buckets_check keys now' b.
Proof.
  intros Hle.
  assert (forall w, longest_wait keys now' (Buckets_purge now b) w = longest_wait keys now' b w) as Hw;
    [|unfold Buckets_check; by rewrite Hw].
  induction keys as [|key keys IH]; intros w; simpl; [done|]. rewrite IH. f_equal.
  unfold Buckets_purge. destruct (_ <? _)%nat; [done|]. rewrite map_lookup_filter.
  destruct (b !! key) as [[l last]|]; [|done]. simpl.
  destruct (bucket_kept now (l, last)) eqn:E; [by rewrite option_guard_True|].
  rewrite option_guard_False by done. simpl. unfold bucket_kept in E. bools. simpl in *.
  destruct (limiter_check l now) eqn:Ec; [naive_solver|].
  by rewrite (limiter_check_later l now now').
Qed.

Lemma count_failures_other now keys b key :
  key ∉ keys -> foldl (count_failure now) b keys !! key = b !! key.
Proof.
  revert b. induction keys as [|k keys IH]; intros b Hk; [done|]. simpl.
  rewrite IH by set_solver. unfold count_failure. by rewrite lookup_insert_ne by set_solver.
Qed.

Lemma Buckets_check_other now' b b' keys :
  (forall key, key ∈ keys -> b !! key = b' !! key) ->
  Buckets_check keys now' b = Buckets_check keys now' b'.
Proof.
  intros Hb. assert (forall w, longest_wait keys now' b w = longest_wait keys now' b' w) as Hw;
    [|unfold Buckets_check; by rewrite Hw].
  induction keys as [|key keys IH]; intros w; simpl; [done|].
  rewrite (Hb key) by left. apply IH. intros k Hk. apply Hb. by right.
Qed.

(** A block is due to a failure past the free attempts. *)
Lemma failures_blocked ts l :
  failures RateLimiter_new ts = Some l -> Z.of_nat (length ts) <= u32_max ->
  ((length ts <= 5)%nat -> blocked_until l = None) /\
  (forall u, blocked_until l = Some u -> exists t, t ∈ ts /\ u <= t + MAX_DELAY).
Proof.
  revert l. induction ts as [|t ts IH] using rev_ind; intros l Hf Hlen.
  { injection Hf as <-. by split. }
  rewrite length_app in *. simpl in *. apply failures_app in Hf as (l1 & H1 & H2).
  destruct (IH l1 H1 ltac:(lia)) as [Hn Hu]. pose proof (failures_count _ _ _ H1) as Hc. simpl in Hc.
  simpl in H2. destruct (limiter_check l1 t); [done|]. injection H2 as <-.
  unfold limiter_failure, u32_saturating_add.
  assert (Z.min (consecutive_failures l1 + 1) u32_max = Z.of_nat (length ts) + 1) as -> by lia.
  unfold FREE_ATTEMPTS in *. destruct (Z.leb_spec (Z.of_nat (length ts) + 1) 5); simpl.
  - split; [intros _; apply Hn; lia|]. intros u Hb. destruct (Hu u Hb) as (t' & ? & ?).
    exists t'. set_solver.
  - split; [lia|]. intros u [= <-]. exists t. split; [set_solver|].
    pose proof (delay_range (Z.of_nat (length ts) + 1)). unfold FREE_ATTEMPTS in *. lia.
Qed.

(** ** Properties *)

(** Guessing a password is slow.  Five failures in a row are free; from the sixth on
    the next attempt is only admitted after a delay of 30 seconds to five minutes, and
    from the tenth on after five minutes, so that [k] more admitted failures take at
    least [k] times five minutes.  A refusal announces a wait after which the attempt
    is admitted, of at most 301 seconds. *)
Theorem brute_force_is_slowed ts l :
  failures RateLimiter_new ts = Some l -> Z.of_nat (length ts) <= u32_max ->
  ((length ts <= 5)%nat -> forall now, limiter_check l now = None) /\
  (forall i t t', (5 <= i)%nat -> ts !! i = Some t -> ts !! S i = Some t' ->
     t + BASE_DELAY <= t' /\ t + delay (Z.of_nat (S i)) <= t') /\
  (forall i k t t', (9 <= i)%nat -> ts !! i = Some t -> ts !! (i + k)%nat = Some t' ->
     Z.of_nat k * MAX_DELAY <= t' - t) /\
  (forall now n, (forall t, t ∈ ts -> t <= now) -> limiter_check l now = Some n ->
     1 <= n <= 301 /\ limiter_check l (now + td_seconds n) = None).
Proof.
  intros Hf Hlen. split_and!.
  - intros H5 now. unfold limiter_check. by rewrite (proj1 (failures_blocked ts l Hf Hlen)) by done.
  - intros i t t' Hi Ht Ht'.
    pose proof (failures_spaced ts l i t t' Hf Hlen Hi Ht Ht') as Hs. split; [|done].
    pose proof (delay_range (Z.of_nat (S i))). unfold FREE_ATTEMPTS in *. lia.
  - intros i k t t'. by apply failures_capped with (l := l).
  - intros now n Hpast Hc. destruct (failures_blocked ts l Hf Hlen) as [_ Hb].
    unfold limiter_check in *. destruct (blocked_until l) as [u|]; [|done].
    destruct (Hb u eq_refl) as (t & Ht & Hu). specialize (Hpast t Ht).
    destruct (Z.ltb_spec now u); [|done]. injection Hc as <-.
    unfold MAX_DELAY, td_seconds, ns_per_s in *.
    pose proof (Z.div_mod (u - now) 1000000000). pose proof (Z.mod_pos_bound (u - now) 1000000000).
    assert (0 <= (u - now) / 1000000000 <= 300)
      by (split; [apply Z.div_pos; lia|apply Z.div_le_upper_bound; lia]).
    split; [lia|]. by rewrite (proj2 (Z.ltb_ge _ _)) by lia.
Qed.

(** A stranger cannot lock the owner of an account out: whatever failures are counted
    from one address, for any account, what the limiter answers to an attempt from
    another address is unchanged, including when the counters are purged. *)
Theorem failures_stay_with_their_address lowercase ip ip' user user' now now' (b : Buckets) :
  ip <> ip' -> now <= now' ->
  let attacker := limiter_keys lowercase (Some ip) user in
  let owner := limiter_keys lowercase (Some ip') user' in
  Buckets_check owner now' (Buckets_failure attacker now b) = Buckets_check owner now' b.
Proof.
  intros Hip Hle attacker owner. unfold Buckets_failure. rewrite Buckets_purge_check by done.
  apply Buckets_check_other. intros key Hk. apply count_failures_other.
  unfold attacker, owner, limiter_keys, Key_user in *. set_solver.
Qed.

Lemma brute_force_is_slowed_witness :
  let ts := [0; 0; 0; 0; 0; 0; td_seconds 30; td_seconds 90] in
  limiter_check ((failures RateLimiter_new ts) ?? RateLimiter_new) (td_seconds 90 + td_seconds 121) = None.
Proof.
  intros ts. destruct (failures RateLimiter_new ts) as [l|] eqn:E; [|vm_compute in E; discriminate E].
  destruct (brute_force_is_slowed ts l E) as (_ & _ & _ & H); [vm_compute; discriminate|].
  apply (H (td_seconds 90) 121).
  - apply Forall_forall. repeat constructor; vm_compute; discriminate.
  - vm_compute in E. injection E as <-. vm_compute. reflexivity.
Defined.

Lemma failures_stay_with_their_address_witness :
  let b := Buckets_failure (limiter_keys id (Some (V4 1)) (Some "admin")) 0 ∅ in
  Buckets_check (limiter_keys id (Some (V4 2)) (Some "admin")) 1 b = None.
Proof.
  intros b. unfold b. rewrite failures_stay_with_their_address; [reflexivity|discriminate|lia].
Defined.
