(* ===== verification/Bits.v ===== *)
(** * Bits and bytes

    The bits of a number, most significant first, and the bytes they make: what the
    encoders of the program are compared with. *)
From S2P Require Import Prelude.

(** The [n] low bits of [z]. *)
Fixpoint be_bits (n : nat) (z : Z) : list bool :=
  match n with
  | O => []
  | S n' => Z.testbit z (Z.of_nat n') :: be_bits n' z
  end.

Definition of_bits (bs : list bool) : Z := foldl (fun z (b : bool) => 2 * z + Z.b2z b) 0 bs.

(** The complete groups of [n] bits of a list, [n] at least one; what is left is dropped. *)
Fixpoint groups_aux (n : nat) (current : list bool) (bs : list bool) : list (list bool) :=
  match bs with
  | [] => []
  | b :: bs' =>
      let current := current ++ [b] in
      if decide (length current = n) then current :: groups_aux n [] bs'
      else groups_aux n current bs'
  end.
Definition groups (n : nat) (bs : list bool) : list (list bool) := groups_aux n [] bs.

Definition is_byte (b : Z) : Prop := 0 <= b < 256.

Lemma length_be_bits n z : length (be_bits n z) = n.
Proof. induction n as [|n IH]; simpl; [done|]. by rewrite IH. Qed.

Lemma be_bits_ext n x y :
  (forall i, 0 <= i < Z.of_nat n -> Z.testbit x i = Z.testbit y i) -> be_bits n x = be_bits n y.
Proof.
  induction n as [|n IH]; intros H; simpl; [done|].
  rewrite H by lia. f_equal. apply IH. intros i Hi. apply H. lia.
Qed.

Lemma be_bits_add n m z :
  be_bits (n + m) z = be_bits n (Z.shiftr z (Z.of_nat m)) ++ be_bits m z.
Proof.
  induction n as [|n IH]; simpl; [done|]. rewrite IH, Z.shiftr_spec by lia.
  by replace (Z.of_nat n + Z.of_nat m) with (Z.of_nat (n + m)) by lia.
Qed.

Lemma be_bits_ones n k z :
  (n <= k)%nat -> be_bits n (Z.land z (2 ^ Z.of_nat k - 1)) = be_bits n z.
Proof.
  intros Hk. apply be_bits_ext. intros i Hi.
  replace (2 ^ Z.of_nat k - 1) with (Z.ones (Z.of_nat k)) by (rewrite Z.ones_equiv; lia).
  rewrite Z.land_spec, Z.ones_spec_low by lia. by rewrite andb_true_r.
Qed.

Lemma byte_high_bits b i : is_byte b -> 8 <= i -> Z.testbit b i = false.
Proof.
  intros [H0 H1] Hi. destruct (decide (b = 0)) as [->|]; [apply Z.bits_0|].
  apply Z.bits_above_log2; [done|]. assert (Z.log2 b < 8); [|lia].
  apply Z.log2_lt_pow2; [lia|]. exact H1.
Qed.

Lemma be_bits_byte n z b :
  is_byte b -> be_bits (n + 8) (Z.lor (Z.shiftl z 8) b) = be_bits n z ++ be_bits 8 b.
Proof.
  intros Hb. rewrite be_bits_add. f_equal.
  - apply be_bits_ext. intros i Hi. rewrite Z.shiftr_spec, Z.lor_spec, Z.shiftl_spec by lia.
    replace (i + Z.of_nat 8 - 8) with i by lia.
    rewrite (byte_high_bits b) by (done || lia). apply orb_false_r.
  - apply be_bits_ext. intros i Hi. rewrite Z.lor_spec, Z.shiftl_spec_low by lia. done.
Qed.

Lemma be_bits_shiftl n k z :
  be_bits (n + k) (Z.shiftl z (Z.of_nat k)) = be_bits n z ++ replicate k false.
Proof.
  rewrite be_bits_add. f_equal.
  - apply be_bits_ext. intros i Hi. rewrite Z.shiftr_spec, Z.shiftl_spec by lia. f_equal. lia.
  - induction k as [|k IH]; simpl; [done|].
    rewrite Z.shiftl_spec_low by lia. f_equal. rewrite <-IH. apply be_bits_ext.
    intros i Hi. by rewrite !Z.shiftl_spec_low by lia.
Qed.

Lemma of_bits_app_one bs b : of_bits (bs ++ [b]) = 2 * of_bits bs + Z.b2z b.
Proof. unfold of_bits. by rewrite foldl_app. Qed.

Lemma of_be_bits n z : 0 <= z < 2 ^ Z.of_nat n -> of_bits (be_bits n z) = z.
Proof.
  revert z. induction n as [|n IH]; intros z Hz; [simpl in Hz; simpl; unfold of_bits; simpl; lia|].
  replace (S n) with (n + 1)%nat by lia. rewrite be_bits_add. simpl.
  rewrite of_bits_app_one, IH.
  - rewrite <-Z.bit0_odd, Z.bit0_mod, Z.shiftr_div_pow2 by lia. change (2 ^ Z.of_nat 1) with 2.
    pose proof (Z.div_mod z 2). lia.
  - rewrite Z.shiftr_div_pow2 by lia. change (2 ^ Z.of_nat 1) with 2.
    rewrite Nat2Z.inj_succ, Z.pow_succ_r in Hz by lia.
    split; [apply Z.div_pos; lia|]. apply Z.div_lt_upper_bound; lia.
Qed.

Lemma groups_aux_full n current g bs :
  (length current + length g = n)%nat -> g <> [] ->
  groups_aux n current (g ++ bs) = (current ++ g) :: groups_aux n [] bs.
Proof.
  revert current. induction g as [|b g IH]; intros current Hlen Hg; [done|]. simpl.
  destruct g as [|b' g].
  - rewrite decide_True; [done|]. rewrite length_app. simpl in *. lia.
  - rewrite decide_False.
    + rewrite IH; [by rewrite <-app_assoc| |done]. rewrite length_app. simpl in *. lia.
    + rewrite length_app. simpl in *. lia.
Qed.

Lemma groups_aux_short n current bs :
  (length current + length bs < n)%nat -> groups_aux n current bs = [].
Proof.
  revert current. induction bs as [|b bs IH]; intros current Hlen; simpl; [done|].
  rewrite decide_False by (rewrite length_app; simpl in *; lia).
  apply IH. rewrite length_app. simpl in *. lia.
Qed.

(** Groups of bytes give the bytes back, whatever fewer than eight bits follow. *)
Lemma groups_of_bytes bs tail :
  Forall is_byte bs -> (length tail < 8)%nat ->
  of_bits <$> groups 8 (concat (be_bits 8 <$> bs) ++ tail) = bs.
Proof.
  intros Hbs Ht. unfold groups. induction Hbs as [|b bs Hb Hbs IH].
  - by rewrite groups_aux_short.
  - rewrite fmap_cons, concat_cons, <-app_assoc.
    rewrite groups_aux_full by (done || by rewrite length_be_bits).
    rewrite fmap_cons, IH. f_equal. apply of_be_bits. exact Hb.
Qed.

#[global] Arguments be_bits : simpl never.
#[global] Arguments of_bits : simpl never.
