(* ===== verification/Totp.v ===== *)
(** * The second factor ([auth/totp.rs], [auth/totp_login.rs])

    One-time passwords of RFC 6238, the guard that lets a code serve once, the recovery
    codes, and the table of the sign-ins that wait for a code.

    [hmac_sha1] (twenty bytes) and [sha256] stand for the hash crates; [iteration] is the
    order in which a [HashMap] is walked, which its documentation leaves open.  Random
    values are arguments of the functions that draw them. *)
From Stdlib Require Import Ascii.
From Stdlib Require String.
From S2P Require Import Prelude Text Chrono Bits.

Definition SECRET_BYTES : Z := 20.
Definition PERIOD : Z := 30.
Definition DIGITS : nat := 6.
Definition WINDOW : Z := 1.
Definition RECOVERY_CODES : nat := 8.
Definition BASE32 : string := "ABCDEFGHIJKLMNOPQRSTUVWXYZ234567".
Definition RECOVERY_ALPHABET : string := "abcdefghjkmnpqrstuvwxyz23456789".

Definition nth_char (s : string) (n : Z) : ascii := (String.get (Z.to_nat n) s) ?? "000"%char.

(** ** Base 32 *)

(** The inner loop of [encode_base32]: the groups of five bits that are complete. *)
Fixpoint drain (fuel : nat) (buffer bits : Z) (out : string) : Z * string :=
  match fuel with
  | O => (bits, out)
  | S fuel' =>
      if 5 <=? bits then
        let bits := bits - 5 in
        drain fuel' buffer bits
          (out +:+ String (nth_char BASE32 (Z.land (Z.shiftr buffer bits) 31)) EmptyString)%string
      else (bits, out)
  end.

(** [buffer << 8] on a [u32] drops the bits above the thirty-second; fewer than five bits
    wait between two bytes, so two rounds drain them. *)
Definition push_byte (st : Z * Z * string) (b : Z) : Z * Z * string :=
  let '(buffer, bits, out) := st in
  let buffer := Z.lor (Z.land (Z.shiftl buffer 8) u32_max) b in
  let '(bits, out) := drain 2 buffer (bits + 8) out in
  (buffer, bits, out).

Definition encode_base32 (bytes : list Z) : string :=
  let '(buffer, bits, out) := foldl push_byte (0, 0, EmptyString) bytes in
  if 0 <? bits
  then (out +:+ String (nth_char BASE32
          (Z.land (Z.land (Z.shiftl buffer (5 - bits)) u32_max) 31)) EmptyString)%string
  else out.

(** [otpauth_uri] *)
Definition unreserved (b : ascii) : bool :=
  is_ascii_alphanumeric b || bool_decide (b ∈ ["-"; "."; "_"; "~"]%char).

Definition hex_upper (d : Z) : ascii := of_byte (if d <? 10 then 48 + d else 55 + d).

Fixpoint percent_encode (s : string) : string :=
  match s with
  | EmptyString => EmptyString
  | String b s' =>
      if unreserved b then String b (percent_encode s')
      else String "%"%char (String (hex_upper (byte b / 16))
             (String (hex_upper (byte b mod 16)) (percent_encode s')))
  end.

Definition otpauth_uri (issuer account : string) (secret : list Z) : string :=
  ("otpauth://totp/" +:+ percent_encode issuer +:+ ":" +:+ percent_encode account +:+
   "?secret=" +:+ encode_base32 secret +:+ "&issuer=" +:+ percent_encode issuer +:+
   "&algorithm=SHA1&digits=" +:+ display_i64 (Z.of_nat DIGITS) +:+ "&period=" +:+
   display_i64 PERIOD)%string.

(** ** Codes *)

(** [{:0width$}] of a natural number. *)
Fixpoint zeros (n : nat) : string :=
  match n with O => EmptyString | S n' => String "0" (zeros n') end.
Definition zero_padded (width : nat) (z : Z) : string :=
  let s := display_i64 z in (zeros (width - String.length s) +:+ s)%string.

Definition to_be_bytes (n : Z) : list Z :=
  (fun i => Z.land (Z.shiftr n (8 * (7 - i))) 255) <$> seqZ 0 8.

Section Codes.
Context (hmac_sha1 : list Z -> list Z -> list Z).

Definition hotp (secret : list Z) (counter : Z) : Z :=
  let digest := hmac_sha1 secret (to_be_bytes counter) in
  let at_ i := nth (Z.to_nat i) digest 0 in
  let offset := Z.land (at_ 19) 15 in
  let binary := Z.lor (Z.lor (Z.lor (Z.shiftl (Z.land (at_ offset) 127) 24)
                                    (Z.shiftl (at_ (offset + 1)) 16))
                             (Z.shiftl (at_ (offset + 2)) 8))
                      (at_ (offset + 3)) in
  binary mod 10 ^ Z.of_nat DIGITS.

Definition code_at (secret : list Z) (unix_secs : Z) : string :=
  zero_padded DIGITS (hotp secret (unix_secs / PERIOD)).

(** The last of the three steps whose code is the one typed. *)
Definition matching_step_at (secret : list Z) (code : string) (unix_secs : Z) : option Z :=
  let code := without_whitespace code in
  if negb (bool_decide (String.length code = DIGITS)) || negb (string_forall is_ascii_digit code)
  then None
  else
    let step := as_i64 (unix_secs / PERIOD) in
    foldl (fun matched delta =>
             let counter := step + delta in
             if counter <? 0 then matched
             else if bool_decide (zero_padded DIGITS (hotp secret counter) = code)
             then Some (step + delta) else matched)
      None (seqZ (- WINDOW) (2 * WINDOW + 1)).

Definition verify_at (secret : list Z) (code : string) (unix_secs : Z) : bool :=
  bool_decide (is_Some (matching_step_at secret code unix_secs)).
End Codes.

(** ** A code serves once *)

Notation ReplayGuard := (gmap Z Z).

Definition replay_accept (user_id step : Z) (g : ReplayGuard) : ReplayGuard * bool :=
  match g !! user_id with
  | Some last => if step <=? last then (g, false) else (<[user_id := step]> g, true)
  | None => (<[user_id := step]> g, true)
  end.

Definition replay_forget (user_id : Z) (g : ReplayGuard) : ReplayGuard := base.delete user_id g.

(** ** Recovery codes *)

(** [c.to_ascii_lowercase()] of the alphanumeric characters. *)
Definition normalize_recovery_code (code : string) : string :=
  string_map ascii_lower (string_filter is_ascii_alphanumeric code).

Definition looks_like_recovery_code (code : string) : bool :=
  bool_decide (String.length (normalize_recovery_code code) = 10%nat).

Definition hash_recovery_code (sha256 : string -> list Z) (code : string) : list Z :=
  sha256 (normalize_recovery_code code).

(** One code from ten random bytes. *)
Definition recovery_code_of (random : list Z) : string :=
  let pick b := nth_char RECOVERY_ALPHABET (b mod Z.of_nat (String.length RECOVERY_ALPHABET)) in
  let raw := pick <$> random in
  (String.string_of_list_ascii (take 5 raw) +:+ "-" +:+
   String.string_of_list_ascii (drop 5 raw))%string.

Definition generate_recovery_codes (random : list (list Z)) : list string :=
  recovery_code_of <$> take RECOVERY_CODES random.

(** ** Sign-ins that wait for their code *)

Definition TTL : Duration := td_seconds (5 * 60).
Definition MAX_FAILURES : Z := 5.
Definition MAX_PENDING : nat := 1000.

Record Pending := { pd_user_id : Z; pd_started : Z; pd_failures : Z }.
Notation PendingLogins := (gmap string Pending).

(** [now.duration_since(earlier)] is zero when [earlier] is later. *)
Definition duration_since (now earlier : Z) : Duration := Z.max (now - earlier) 0.

Module Outcome.
Inductive Outcome := Unknown | Candidate (user_id : Z).
End Outcome.
Notation Outcome := Outcome.Outcome.

Section PendingLogins.
Context (iteration : PendingLogins -> list (string * Pending)).

(** [min_by_key]: the first of the earliest in the order of the walk. *)
Definition oldest (entries : PendingLogins) : option string :=
  fst <$> foldl (fun best kp =>
                   match best with
                   | Some b => if pd_started kp.2 <? pd_started b.2 then Some kp else Some b
                   | None => Some kp
                   end) None (iteration entries).

Definition pending_start (user_id now : Z) (token : string) (entries : PendingLogins) :
    PendingLogins :=
  let entries := filter (fun kp => duration_since now (pd_started kp.2) < TTL) entries in
  let entries :=
    if (MAX_PENDING <=? size entries)%nat then
      match oldest entries with Some key => base.delete key entries | None => entries end
    else entries in
  <[token := {| pd_user_id := user_id; pd_started := now; pd_failures := 0 |}]> entries.
End PendingLogins.

(** [find] compares every key in constant time: the entry of the token, if any. *)
Definition pending_lookup (token : string) (now : Z) (entries : PendingLogins) :
    PendingLogins * Outcome :=
  match entries !! token with
  | None => (entries, Outcome.Unknown)
  | Some pending =>
      if TTL <=? duration_since now (pd_started pending)
      then (base.delete token entries, Outcome.Unknown)
      else (entries, Outcome.Candidate (pd_user_id pending))
  end.

Definition pending_failure (token : string) (entries : PendingLogins) : PendingLogins * bool :=
  match entries !! token with
  | None => (entries, true)
  | Some pending =>
      let failures := pd_failures pending + 1 in
      if MAX_FAILURES <=? failures then (base.delete token entries, true)
      else (<[token := {| pd_user_id := pd_user_id pending; pd_started := pd_started pending;
                          pd_failures := failures |}]> entries, false)
  end.

Definition pending_finish (token : string) (entries : PendingLogins) : PendingLogins :=
  base.delete token entries.

Example base32_ex : encode_base32 [102; 111; 111; 98; 97] = "MZXW6YTB".
Proof. vm_compute. reflexivity. Qed.
Example base32_partial_ex : encode_base32 [102; 111] = "MZXQ".
Proof. vm_compute. reflexivity. Qed.
Example zero_padded_ex : zero_padded 6 81804 = "081804". Proof. vm_compute. reflexivity. Qed.

(** ** Facts: base 32 *)

(** The value of a character of the alphabet, and the decoding of RFC 4648: the bytes of the
    five-bit values, the bits short of a byte dropped. *)
Fixpoint char_index (c : ascii) (s : string) : option Z :=
  match s with
  | EmptyString => None
  | String a s' => if decide (a = c) then Some 0 else Z.succ <$> char_index c s'
  end.

Definition base32_value (c : ascii) : option Z := char_index c BASE32.

Fixpoint values_of (s : string) : option (list Z) :=
  match s with
  | EmptyString => Some []
  | String c s' => v ← base32_value c; vs ← values_of s'; Some (v :: vs)
  end.

Definition decode_base32 (s : string) : option (list Z) :=
  vs ← values_of s; Some (of_bits <$> groups 8 (concat (be_bits 5 <$> vs))).

Lemma base32_value_char v : 0 <= v < 32 -> base32_value (nth_char BASE32 v) = Some v.
Proof.
  intros Hv. assert (forall n, (n < 32)%nat ->
    base32_value (nth_char BASE32 (Z.of_nat n)) = Some (Z.of_nat n)) as H.
  { intros n Hn. do 32 (destruct n as [|n]; [vm_compute; reflexivity|]). lia. }
  specialize (H (Z.to_nat v)). rewrite Z2Nat.id in H by lia. apply H. lia.
Qed.

Lemma values_of_app a vs b ws :
  values_of a = Some vs -> values_of b = Some ws -> values_of (a +:+ b)%string = Some (vs ++ ws).
Proof.
  revert vs. induction a as [|c a IH]; intros vs; simpl; [by intros [= <-]|].
  destruct (base32_value c) as [v|]; simpl; [|done].
  destruct (values_of a) as [us|]; simpl; [|done]. intros [= <-] Hb. by rewrite (IH us).
Qed.

(** The bits written so far and those that wait are the bits of the bytes read. *)
Definition carries (bits_read : list bool) (st : Z * Z * string) : Prop :=
  exists vs n, values_of st.2 = Some vs /\ st.1.2 = Z.of_nat n /\ (n < 5)%nat /\
    concat (be_bits 5 <$> vs) ++ be_bits n st.1.1 = bits_read.

Lemma emit_group vs out buffer n :
  values_of out = Some vs ->
  values_of (out +:+ String (nth_char BASE32 (Z.land (Z.shiftr buffer (Z.of_nat n)) 31))
               EmptyString)%string = Some (vs ++ [Z.land (Z.shiftr buffer (Z.of_nat n)) 31]) /\
  be_bits 5 (Z.land (Z.shiftr buffer (Z.of_nat n)) 31) ++ be_bits n buffer = be_bits (5 + n) buffer.
Proof.
  intros Hvs. set (v := Z.land _ 31). assert (0 <= v < 32) as Hv.
  { unfold v. change 31 with (Z.ones 5). rewrite Z.land_ones by lia. apply Z.mod_pos_bound. lia. }
  split.
  - eapply values_of_app; [done|]. simpl. by rewrite base32_value_char.
  - unfold v. change 31 with (2 ^ Z.of_nat 5 - 1). by rewrite be_bits_ones, be_bits_add.
Qed.

Lemma drain_carries n fuel vs buffer out :
  values_of out = Some vs -> (n < 5 * fuel + 5)%nat ->
  let '(bits, out') := drain fuel buffer (Z.of_nat n) out in
  exists vs' m, values_of out' = Some vs' /\ bits = Z.of_nat m /\ (m < 5)%nat /\
    concat (be_bits 5 <$> vs') ++ be_bits m buffer =
    concat (be_bits 5 <$> vs) ++ be_bits n buffer.
Proof.
  revert n vs out. induction fuel as [|fuel IH]; intros n vs out Hvs Hn; simpl drain.
  - exists vs, n. split_and!; [done..|lia|done].
  - destruct (Z.leb_spec 5 (Z.of_nat n)).
    + replace (Z.of_nat n - 5) with (Z.of_nat (n - 5)) by lia.
      destruct (emit_group vs out buffer (n - 5) Hvs) as [Hout Hb].
      specialize (IH (n - 5)%nat _ _ Hout ltac:(lia)).
      destruct (drain _ _ _ _) as [bits out'].
      destruct IH as (vs' & m & H1 & H2 & H3 & H4). exists vs', m. split_and!; [done..|].
      rewrite H4, fmap_app, concat_app, <-app_assoc. f_equal. cbn [fmap list_fmap concat].
      replace (be_bits n buffer) with (be_bits (5 + (n - 5)) buffer) by (f_equal; lia).
      rewrite <-Hb. by rewrite app_nil_r.
    + exists vs, n. split_and!; [done..|lia|done].
Qed.

Lemma push_byte_carries bs st b :
  is_byte b -> carries bs st -> carries (bs ++ be_bits 8 b) (push_byte st b).
Proof.
  destruct st as [[buffer bits] out]. intros Hb (vs & n & Hvs & Hn & Hlt & Hbits).
  simpl in Hvs, Hn, Hbits. subst bits. unfold push_byte. cbv zeta.
  set (buffer' := Z.lor (Z.land (Z.shiftl buffer 8) u32_max) b).
  assert (be_bits (n + 8) buffer' = be_bits n buffer ++ be_bits 8 b) as Hbuf.
  { rewrite <-be_bits_byte by done. apply be_bits_ext. intros i Hi. unfold buffer'.
    rewrite !Z.lor_spec. f_equal. change u32_max with (Z.ones 32).
    rewrite Z.land_spec, Z.ones_spec_low by lia. apply andb_true_r. }
  replace (Z.of_nat n + 8) with (Z.of_nat (n + 8)) by lia.
  pose proof (drain_carries (n + 8) 2 vs buffer' out Hvs ltac:(lia)) as H.
  destruct (drain _ _ _ _) as [bits out'].
  destruct H as (vs' & m & H1 & H2 & H3 & H4). exists vs', m. simpl. split_and!; [done..|].
  by rewrite H4, Hbuf, app_assoc, Hbits.
Qed.

Lemma bytes_carried bytes :
  Forall is_byte bytes ->
  carries (concat (be_bits 8 <$> bytes)) (foldl push_byte (0, 0, EmptyString) bytes).
Proof.
  induction bytes as [|b bytes IH] using rev_ind; intros H.
  - exists [], 0%nat. split_and!; [done..|lia|done].
  - apply Forall_app in H as [Hbs Hb]. rewrite foldl_snoc, fmap_app, concat_app.
    cbn [fmap list_fmap concat]. rewrite app_nil_r. apply push_byte_carries; [by inversion Hb|by apply IH].
Qed.

Lemma encoded_bits bytes :
  Forall is_byte bytes ->
  exists vs pad, values_of (encode_base32 bytes) = Some vs /\ (pad < 5)%nat /\
    concat (be_bits 5 <$> vs) = concat (be_bits 8 <$> bytes) ++ replicate pad false.
Proof.
  intros H. pose proof (bytes_carried bytes H) as Hc. unfold encode_base32.
  destruct (foldl _ _ _) as [[buffer bits] out].
  destruct Hc as (vs & n & Hvs & Hn & Hlt & Hbits). simpl in *. subst bits.
  destruct (Z.ltb_spec 0 (Z.of_nat n)).
  - exists (vs ++ [Z.land (Z.land (Z.shiftl buffer (5 - Z.of_nat n)) u32_max) 31]), (5 - n)%nat.
    set (v := Z.land _ 31). split_and!; [|lia|].
    + eapply values_of_app; [done|]. simpl. rewrite base32_value_char; [done|].
      unfold v. change 31 with (Z.ones 5). rewrite Z.land_ones by lia. apply Z.mod_pos_bound. lia.
    + rewrite fmap_app, concat_app, <-Hbits, <-app_assoc. f_equal. cbn [fmap list_fmap concat].
      rewrite app_nil_r, <-be_bits_shiftl. replace (n + (5 - n))%nat with 5%nat by lia.
      unfold v. change 31 with (2 ^ Z.of_nat 5 - 1). rewrite be_bits_ones by done.
      change u32_max with (2 ^ Z.of_nat 32 - 1). rewrite be_bits_ones by lia.
      by replace (Z.of_nat (5 - n)) with (5 - Z.of_nat n) by lia.
  - exists vs, 0%nat. split_and!; [done|lia|]. simpl. rewrite app_nil_r, <-Hbits.
    replace n with 0%nat by lia. simpl. by rewrite app_nil_r.
Qed.

Lemma values_length s vs : values_of s = Some vs -> String.length s = length vs.
Proof.
  revert vs. induction s as [|c s IH]; intros vs; simpl; [by intros [= <-]|].
  destruct (base32_value c); simpl; [|done]. destruct (values_of s); simpl; [|done].
  intros [= <-]. simpl. by rewrite (IH _ eq_refl).
Qed.

Lemma length_concat_bits n (l : list Z) : length (concat (be_bits n <$> l)) = (n * length l)%nat.
Proof.
  induction l as [|x l IH]; cbn [fmap list_fmap concat length]; [lia|].
  rewrite length_app, length_be_bits, IH. lia.
Qed.

(** ** Claims *)

(** The text of a secret gives the secret back: decoding, as RFC 4648 does, what
    [encode_base32] makes of any bytes yields these bytes, and the text has one
    character for each five bits begun. *)
Theorem base32_round_trip bytes :
  Forall is_byte bytes ->
  decode_base32 (encode_base32 bytes) = Some bytes /\
  String.length (encode_base32 bytes) = ((8 * length bytes + 4) / 5)%nat.
Proof.
  intros H. destruct (encoded_bits bytes H) as (vs & pad & Hvs & Hpad & Hbits). split.
  - unfold decode_base32. rewrite Hvs. simpl. rewrite Hbits, groups_of_bytes; [done..|].
    rewrite length_replicate. lia.
  - rewrite (values_length _ _ Hvs). apply (f_equal length) in Hbits.
    rewrite length_app, !length_concat_bits, length_replicate in Hbits.
    apply (Nat.div_unique _ _ _ (4 - pad)); lia.
Qed.

Lemma base32_round_trip_witness :
  let bytes := [0; 255; 16; 131; 16; 81] in
  decode_base32 (encode_base32 bytes) = Some bytes /\
  String.length (encode_base32 bytes) = ((8 * length bytes + 4) / 5)%nat.
Proof. apply base32_round_trip. repeat constructor; lia. Defined.

Lemma last_of_window (p : Z -> bool) step s :
  0 <= step ->
  foldl (fun matched delta =>
           if step + delta <? 0 then matched
           else if p (step + delta) then Some (step + delta) else matched) None [-1; 0; 1] = Some s <->
  step - 1 <= s <= step + 1 /\ 0 <= s /\ p s = true /\
  forall s', s < s' <= step + 1 -> p s' = false.
Proof.
  intros Hs. cbn [foldl]. replace (step + -1) with (step - 1) by lia.
  replace (step + 0) with step by lia.
  destruct (Z.ltb_spec step 0); [lia|]. destruct (Z.ltb_spec (step + 1) 0); [lia|].
  assert (forall P : Z -> Prop, (forall s', s < s' <= step + 1 -> P s') ->
    (s < step + 1 -> P (step + 1)) /\ (s < step -> P step)) as Hlast.
  { intros P H'. split; intros; apply H'; lia. }
  destruct (Z.ltb_spec (step - 1) 0);
    destruct (p (step - 1)) eqn:Ha, (p step) eqn:Hb, (p (step + 1)) eqn:Hc; split;
    try (intros [= <-]; split_and!; [lia..|done|];
         intros s' Hs'; assert (s' = step \/ s' = step + 1) as [-> | ->] by lia; (done || lia));
    try (intros [=]);
    intros (Hr & Hz & Hp & [Hn1 Hn2]%Hlast);
    assert (s = step - 1 \/ s = step \/ s = step + 1) as [-> | [-> | ->]] by lia;
    try done; try lia; try (by rewrite Hn1 in Hc by lia); try (by rewrite Hn2 in Hb by lia);
    congruence.
Qed.

(** A code is accepted exactly in its window: the answer is the latest of the steps at
    most one away from the current one, never before the epoch, whose code is the six digits
    typed, spaces ignored; so the code of the current instant always passes, and one whose
    step is two away passes only by coincidence of digits. *)
Theorem totp_window_is_exact hmac_sha1 secret code t s :
  0 <= t < 2 ^ 64 ->
  let typed := without_whitespace code in
  let step := t / PERIOD in
  let shows s := zero_padded DIGITS (hotp hmac_sha1 secret s) = typed in
  matching_step_at hmac_sha1 secret code t = Some s <->
  String.length typed = DIGITS /\ string_forall is_ascii_digit typed = true /\
  step - 1 <= s <= step + 1 /\ 0 <= s /\ shows s /\
  forall s', s < s' <= step + 1 -> ~ shows s'.
Proof.
  intros Ht typed step shows. unfold matching_step_at. fold typed.
  assert (0 <= step <= i64_max) as [Hs Hmax].
  { unfold step, PERIOD, i64_max. split; [apply Z.div_pos; lia|apply Z.div_le_upper_bound; lia]. }
  fold step. rewrite as_i64_small by done.
  destruct (bool_decide (String.length typed = DIGITS)) eqn:Hl; bools; [|by naive_solver].
  destruct (string_forall is_ascii_digit typed) eqn:Hd; [|by naive_solver]. cbn [negb orb].
  change (seqZ (- WINDOW) (2 * WINDOW + 1)) with [-1; 0; 1].
  pose (p := fun s => bool_decide (zero_padded DIGITS (hotp hmac_sha1 secret s) = typed)).
  etransitivity; [exact (last_of_window p step s Hs)|]. unfold p. clear p. split.
  - intros (Hr & H0 & Hp & Hn). bools. split_and!; try done; try lia.
    intros s' Hs' Hsh. specialize (Hn s' Hs'). by bools.
  - intros (_ & _ & Hr & H0 & Hsh & Hn). split_and!; [lia..|by apply bool_decide_eq_true|].
    intros s' Hs'. by apply bool_decide_eq_false, Hn.
Qed.

(** A digest whose four bytes read the low bits of the counter. *)
Definition counter_digest (secret message : list Z) : list Z :=
  drop 4 message ++ replicate 16 0.

Lemma totp_window_is_exact_witness :
  matching_step_at counter_digest [] "000 003" 100 = Some 3 /\
  matching_step_at counter_digest [] "000004" 100 = Some 4 /\
  matching_step_at counter_digest [] "000005" 100 = None.
Proof.
  split_and!; [|by vm_compute..].
  apply (proj2 (totp_window_is_exact counter_digest [] "000 003" 100 3 ltac:(lia))).
  split_and!; [by vm_compute|by vm_compute|by vm_compute..|].
  intros s' Hs'. assert (s' = 4) as -> by (change (100 / PERIOD) with 3 in Hs'; lia). by vm_compute.
Defined.

(** The steps accepted for a user along a sequence of codes of any users. *)
Fixpoint served (user_id : Z) (codes : list (Z * Z)) (g : ReplayGuard) : list Z :=
  match codes with
  | [] => []
  | (uid, step) :: codes =>
      let '(g, accepted) := replay_accept uid step g in
      (if accepted && (uid =? user_id) then [step] else []) ++ served user_id codes g
  end.

Lemma served_insert user_id uid step steps (g : ReplayGuard) :
  StronglySorted Z.lt steps /\
    (forall t, t ∈ steps -> from_option (fun last => last < t) True (<[uid := step]> g !! user_id)) ->
  from_option (fun last => last < step) True (g !! uid) ->
  let steps' := (if true && (uid =? user_id) then [step] else []) ++ steps in
  StronglySorted Z.lt steps' /\
    forall t, t ∈ steps' -> from_option (fun last => last < t) True (g !! user_id).
Proof.
  intros [Hs Hl] Hstep. destruct (Z.eqb_spec uid user_id) as [->|Hne]; simpl.
  - rewrite lookup_insert_eq in Hl. simpl in Hl.
    split; [constructor; [done|]; by apply Forall_forall|].
    intros t [-> | Ht]%elem_of_cons; [done|]. specialize (Hl t Ht). destruct (g !! user_id); simpl in *; [lia|done].
  - by rewrite lookup_insert_ne in Hl.
Qed.

(** A code serves once: along any sequence of codes the steps accepted for a user
    strictly increase, and all come after the last one the guard remembers; so a code that
    was accepted, and any older one, is refused for good. *)
Theorem codes_serve_once user_id codes g :
  StronglySorted Z.lt (served user_id codes g) /\
  forall step, step ∈ served user_id codes g -> from_option (fun last => last < step) True (g !! user_id).
Proof.
  revert g. induction codes as [|[uid step] codes IH]; intros g; [split; [constructor|by intros ? ?%elem_of_nil]|].
  cbn [served]. unfold replay_accept.
  destruct (g !! uid) as [last|] eqn:Eg; [destruct (Z.leb_spec step last); [exact (IH g)|]|];
    (apply (served_insert user_id uid step); [apply IH|]); rewrite Eg; simpl; [lia|done].
Qed.
