(* ===== verification/Handler.v ===== *)
(** * Request handlers

    A handler reads and changes a state and ends with a value or an error; what it has
    changed before an error stays changed, as the statements of a Rust [async fn] that have
    run before a [return Err(..)] or a [?].

    [wp] is the weakest precondition of a handler for a postcondition on its value and one
    on its error.  The lemmas of the database [handler] walk through its text. *)
From S2P Require Import Prelude.

Definition Handler (S E A : Type) : Type := S -> S * (E + A).

#[export] Instance Handler_ret {S E} : MRet (Handler S E) := fun A a s => (s, inr a).
#[export] Instance Handler_bind {S E} : MBind (Handler S E) :=
  fun A B f m s =>
    match m s with
    | (s, inr a) => f a s
    | (s, inl e) => (s, inl e)
    end.

(** What a route of the interface answers in error ([api/error.rs]). *)
Module ApiError.
Inductive ApiError :=
| BadRequest (why : string)
| NotFound (why : string)
| Conflict (why : string)
| Forbidden (why : string)
| Internal.
End ApiError.
Notation ApiError := ApiError.ApiError.

Section Primitives.
Context {S E : Type}.

(** [return Err(e)] *)
Definition throw {A} (e : E) : Handler S E A := fun s => (s, inl e).
Definition gets {A} (f : S -> A) : Handler S E A := fun s => (s, inr (f s)).
Definition modify (f : S -> S) : Handler S E () := fun s => (f s, inr tt).
(** A call that changes the state and answers. *)
Definition act {A} (f : S -> S * A) : Handler S E A := fun s => let '(s', a) := f s in (s', inr a).
(** [o.ok_or(e)?] *)
Definition ok_or {A} (e : E) (o : option A) : Handler S E A :=
  match o with Some a => mret a | None => throw e end.
(** [if refused { return Err(e) }] *)
Definition refuse_if (refused : bool) (e : E) : Handler S E () :=
  if refused then throw e else mret tt.
(** [if b { m }] *)
Definition when_ (b : bool) (m : Handler S E ()) : Handler S E () := if b then m else mret tt.
(** [if let Some(a) = o { m(a) }] *)
Definition if_some {A} (o : option A) (m : A -> Handler S E ()) : Handler S E () :=
  match o with Some a => m a | None => mret tt end.

Definition wp {A} (m : Handler S E A) (Q : A -> S -> Prop) (R : E -> S -> Prop) (s : S) : Prop :=
  match m s with
  | (s', inr a) => Q a s'
  | (s', inl e) => R e s'
  end.

Lemma wp_ret {A} (a : A) (Q : A -> S -> Prop) R s : Q a s -> wp (mret a) Q R s.
Proof. done. Qed.
Lemma wp_throw {A} e (Q : A -> S -> Prop) (R : E -> S -> Prop) s : R e s -> wp (throw e) Q R s.
Proof. done. Qed.
Lemma wp_gets {A} (f : S -> A) (Q : A -> S -> Prop) R s : Q (f s) s -> wp (gets f) Q R s.
Proof. done. Qed.
Lemma wp_modify f (Q : () -> S -> Prop) R s : Q tt (f s) -> wp (modify f) Q R s.
Proof. done. Qed.
Lemma wp_act {A} (f : S -> S * A) (Q : A -> S -> Prop) R s :
  Q (f s).2 (f s).1 -> wp (act f) Q R s.
Proof. unfold wp, act. by destruct (f s). Qed.
Lemma wp_bind {A B} (m : Handler S E A) (f : A -> Handler S E B) Q R s :
  wp m (fun a s' => wp (f a) Q R s') R s -> wp (m ≫= f) Q R s.
Proof. unfold wp, mbind, Handler_bind. by destruct (m s) as [s' [e|a]]. Qed.
Lemma wp_ok_or {A} e (o : option A) (Q : A -> S -> Prop) R s :
  (forall a, o = Some a -> Q a s) -> (o = None -> R e s) -> wp (ok_or e o) Q R s.
Proof. destruct o; intros H1 H2; [by apply H1|by apply H2]. Qed.
Lemma wp_refuse_if b e (Q : () -> S -> Prop) R s :
  (b = true -> R e s) -> (b = false -> Q tt s) -> wp (refuse_if b e) Q R s.
Proof. destruct b; intros H1 H2; [by apply H1|by apply H2]. Qed.
Lemma wp_when b m (Q : () -> S -> Prop) R s :
  (b = true -> wp m Q R s) -> (b = false -> Q tt s) -> wp (when_ b m) Q R s.
Proof. destruct b; intros H1 H2; [by apply H1|by apply H2]. Qed.
Lemma wp_if_some {A} (o : option A) m (Q : () -> S -> Prop) R s :
  (forall a, o = Some a -> wp (m a) Q R s) -> (o = None -> Q tt s) -> wp (if_some o m) Q R s.
Proof. destruct o; intros H1 H2; [by apply H1|by apply H2]. Qed.

(** The state a handler leaves, whatever it answers. *)
Definition leaves {A} (m : Handler S E A) (s : S) (I : S -> Prop) : Prop :=
  wp m (fun _ => I) (fun _ => I) s.

Lemma leaves_state {A} (m : Handler S E A) s I : leaves m s I <-> I (m s).1.
Proof. unfold leaves, wp. by destruct (m s) as [? []]. Qed.

Lemma wp_mono {A} (m : Handler S E A) (Q Q' : A -> S -> Prop) (R R' : E -> S -> Prop) s :
  wp m Q R s -> (forall a s', Q a s' -> Q' a s') -> (forall e s', R e s' -> R' e s') -> wp m Q' R' s.
Proof. unfold wp. destruct (m s) as [? []]; auto. Qed.

Lemma wp_run {A} (m : Handler S E A) Q R s :
  wp m Q R s -> match (m s).2 with inr a => Q a (m s).1 | inl e => R e (m s).1 end.
Proof. unfold wp. by destruct (m s) as [? []]. Qed.

(** A handler that reads and does not write. *)
Definition only_reads {A} (m : Handler S E A) (Q : A -> S -> Prop) (s : S) : Prop :=
  wp m (fun a s' => s' = s /\ Q a s) (fun _ s' => s' = s) s.

Lemma wp_only_reads {A B} (m : Handler S E A) (P : A -> S -> Prop) (f : A -> Handler S E B) Q (R : E -> S -> Prop) s :
  only_reads m P s -> (forall e, R e s) -> (forall a, P a s -> wp (f a) Q R s) -> wp (m ≫= f) Q R s.
Proof.
  intros Hm He Hf. apply wp_bind. eapply wp_mono; [exact Hm| |by intros e s' ->]. intros a s' [-> Hp]. by apply Hf.
Qed.
Lemma only_reads_bind {A B} (m : Handler S E A) (P : A -> S -> Prop) (f : A -> Handler S E B) Q s :
  only_reads m P s -> (forall a, P a s -> only_reads (f a) Q s) -> only_reads (m ≫= f) Q s.
Proof. intros Hm Hf. by eapply wp_only_reads. Qed.
Lemma only_reads_ret {A} (a : A) (Q : A -> S -> Prop) s : Q a s -> only_reads (mret a) Q s.
Proof. done. Qed.
Lemma only_reads_gets {A} (f : S -> A) s : only_reads (gets f) (fun a s => a = f s) s.
Proof. done. Qed.
Lemma only_reads_refuse b e s : only_reads (refuse_if b e) (fun _ _ => b = false) s.
Proof. by destruct b. Qed.
Lemma only_reads_ok_or {A} e (o : option A) s : only_reads (ok_or e o) (fun a _ => o = Some a) s.
Proof. by destruct o. Qed.
Lemma only_reads_throw {A} e (Q : A -> S -> Prop) s : only_reads (throw e) Q s.
Proof. done. Qed.
End Primitives.

Create HintDb handler discriminated.
#[export] Hint Resolve wp_ret wp_throw wp_gets wp_modify wp_act wp_bind wp_ok_or wp_refuse_if
  wp_when wp_if_some : handler.

(** One statement of a handler. *)
Ltac hstep :=
  lazymatch goal with
  | |- wp (mret _) _ _ _ => apply wp_ret
  | |- wp (throw _) _ _ _ => apply wp_throw
  | |- wp (gets _) _ _ _ => apply wp_gets
  | |- wp (modify _) _ _ _ => apply wp_modify
  | |- wp (act _) _ _ _ => apply wp_act
  | |- wp (ok_or _ _) _ _ _ => apply wp_ok_or; intros
  | |- wp (refuse_if _ _) _ _ _ => apply wp_refuse_if; intros
  | |- wp (when_ _ _) _ _ _ => apply wp_when; intros
  | |- wp (if_some _ _) _ _ _ => apply wp_if_some; intros
  | |- wp (_ ≫= _) _ _ _ => apply wp_bind
  | |- wp (if ?b then _ else _) _ _ _ => destruct b eqn:?
  | |- wp (match ?o with _ => _ end) _ _ _ => destruct o eqn:?
  end.
