(* ===== verification/Commands.v ===== *)
(** * The commands to the agents ([collectors/agent/commands.rs], [policy.rs], [api/agent_commands.rs])

    The server never reaches a machine: it leaves in a table what it expects of its agent, which
    comes and reads it, and reports.  The table of commands in the order of their numbers, the
    policies of the containers by target and name.  Instants are written to the second.  The
    statements read a clock ([now], in seconds); the reading and the writing of a report and of a
    cancellation are apart, as they are two statements outside any transaction. *)
From Stdlib Require Import Ascii.
From Stdlib Require String.
From S2P Require Import Prelude Text Float64 Chrono Wire Silence Handler.

(** ** The table *)

Record CommandRecord := {
  c_id : Z;
  c_target : Z;
  c_kind : string;
  (** The JSON text of the arguments. *)
  c_args : string;
  c_status : CommandStatus;
  c_by : option string;
  c_created : Z;
  c_started : option Z;
  c_finished : option Z;
  c_result : option string;
}.

Record ContainerPolicy := {
  auto_restart : bool;
  auto_update : bool;
  prune_old_image : bool;
  only_in_maintenance : bool;
}.

Definition ContainerPolicy_default : ContainerPolicy :=
  {| auto_restart := false; auto_update := false; prune_old_image := true; only_in_maintenance := true |}.

(** The tables [agent_commands] (with the sequence of its numbers) and [container_policies]. *)
Record Tables := {
  seq_ : Z;
  commands : list CommandRecord;
  policies : gmap (Z * string) ContainerPolicy;
}.

Definition Tables_new : Tables := {| seq_ := 0; commands := []; policies := ∅ |}.

Definition set_commands (cs : list CommandRecord) (d : Tables) : Tables :=
  {| seq_ := seq_ d; commands := cs; policies := policies d |}.

Module CommandError.
Inductive CommandError := Conflict (why : string) | NotFound | Internal.
End CommandError.
Notation CommandError := CommandError.CommandError.

Definition set_status (s : CommandStatus) (started finished : option Z) (result : option string)
    (c : CommandRecord) : CommandRecord :=
  {| c_id := c_id c; c_target := c_target c; c_kind := c_kind c; c_args := c_args c; c_status := s;
     c_by := c_by c; c_created := c_created c; c_started := started; c_finished := finished;
     c_result := result |}.

(** [UPDATE agent_commands SET .. WHERE p]. *)
Definition update_where (p : CommandRecord -> bool) (f : CommandRecord -> CommandRecord) (d : Tables) : Tables :=
  set_commands ((fun c => if p c then f c else c) <$> commands d) d.

Definition quoted (s : string) : string := ("'" +:+ s +:+ "'")%string.

Definition is_pending (s : CommandStatus) : bool :=
  match s with CommandStatus.Queued | CommandStatus.Running => true | _ => false end.

Definition EXPIRED_RESULT : string := "Expired: the agent did not pick it up within 10 minutes.".

Section table.
Context `{Json}.

Definition container_name (args : Value) : option string :=
  option_filter (fun n => negb (bool_decide (n = ""))) (get_str args "name").

(** [target_id = ? AND kind = ? AND json_extract(args, '$.name') = ?]. *)
Definition is_about (target : Z) (kind name : string) (c : CommandRecord) : bool :=
  (c_target c =? target) && bool_decide (c_kind c = kind) && bool_decide (extract_name (c_args c) = Some name).

Definition has_pending (target : Z) (kind name : string) (d : Tables) : bool :=
  existsb (fun c => is_about target kind name c && is_pending (c_status c)) (commands d).

Definition insert_command (now target : Z) (kind args by_ : string) (d : Tables) : Tables * CommandRecord :=
  let c := {| c_id := seq_ d + 1; c_target := target; c_kind := kind; c_args := args;
              c_status := CommandStatus.Queued; c_by := Some by_; c_created := now;
              c_started := None; c_finished := None; c_result := None |} in
  ({| seq_ := seq_ d + 1; commands := commands d ++ [c]; policies := policies d |}, c).

Definition enqueue (now target : Z) (kind : string) (args : Value) (by_ : string)
  : Handler Tables CommandError CommandRecord :=
  let name := container_name args ?? "" in
  busy ← gets (has_pending target kind name);
  _ ← refuse_if busy (CommandError.Conflict
        ("A " +:+ quoted kind +:+ " command for " +:+ quoted name +:+ " is already queued or running.")%string);
  text ← ok_or CommandError.Internal (to_text args);
  act (insert_command now target kind text by_).

(** [ORDER BY id DESC LIMIT n]. *)
Definition list_for_target (target limit : Z) (d : Tables) : list CommandRecord :=
  let rows := reverse (filter (fun c => c_target c = target) (commands d)) in
  if limit <? 0 then rows else take (Z.to_nat limit) rows.

Definition args_of (c : CommandRecord) : Value := of_text (c_args c) ?? Null.

Definition or_insert (latest : gmap string CommandRecord) (c : CommandRecord) : gmap string CommandRecord :=
  match container_name (args_of c) with
  | Some name => match latest !! name with Some _ => latest | None => <[name := c]> latest end
  | None => latest
  end.
Definition last_command_per_container (target : Z) (d : Tables) : gmap string CommandRecord :=
  foldl or_insert ∅ (list_for_target target 100 d).

Definition last_command_at (target : Z) (kind name : string) (d : Tables) : option Z :=
  c_created <$> last (filter (fun c => is_about target kind name c = true) (commands d)).

(** The commands that nobody came for. *)
Definition is_stale (now : Z) (target : option Z) (c : CommandRecord) : bool :=
  bool_decide (c_status c = CommandStatus.Queued) &&
  match target with Some t => c_target c =? t | None => true end &&
  (c_created c <? now - COMMAND_MAX_AGE_SECS).
Definition expire_command (now : Z) (c : CommandRecord) : CommandRecord :=
  set_status CommandStatus.Expired (c_started c) (Some now) (Some EXPIRED_RESULT) c.
Definition expire_stale (now : Z) (target : option Z) (d : Tables) : Tables * nat :=
  (update_where (is_stale now target) (expire_command now) d,
   length (filter (fun c => is_stale now target c = true) (commands d))).

(** [SELECT status FROM agent_commands WHERE id = ? AND target_id = ?]. *)
Definition status_of (target id : Z) (d : Tables) : option CommandStatus :=
  c_status <$> find_map (fun c => if (c_id c =? id) && (c_target c =? target) then Some c else None) (commands d).

Definition cancel_command (now : Z) (by_ : string) (c : CommandRecord) : CommandRecord :=
  set_status CommandStatus.Cancelled (c_started c) (Some now)
    (Some ("Cancelled by " +:+ by_ +:+ " before the agent picked it up.")%string) c.
Definition is_queued (id : Z) (c : CommandRecord) : bool :=
  (c_id c =? id) && bool_decide (c_status c = CommandStatus.Queued).
Definition cancel_write (now id : Z) (by_ : string) (d : Tables) : Tables * nat :=
  (update_where (is_queued id) (cancel_command now by_) d,
   length (filter (fun c => is_queued id c = true) (commands d))).

Definition cancel (now target id : Z) (by_ : string) : Handler Tables CommandError () :=
  row ← gets (status_of target id);
  current ← ok_or CommandError.NotFound row;
  _ ← refuse_if (negb (bool_decide (current = CommandStatus.Queued)))
        (CommandError.Conflict ("Command " +:+ display_i64 id +:+ " is " +:+ CommandStatus.as_str current +:+
                                ": only a queued command can be cancelled.")%string);
  affected ← act (cancel_write now id by_);
  refuse_if (bool_decide (affected = 0%nat))
    (CommandError.Conflict ("Command " +:+ display_i64 id +:+ " was just picked up by the agent.")%string).

Definition handed (c : CommandRecord) : AgentCommand :=
  {| cmd_id := c_id c; cmd_kind := c_kind c; cmd_args := args_of c; created_at_ms := c_created c * 1000 |}.

Definition pending_for_target (now target : Z) : Handler Tables CommandError (list AgentCommand) :=
  _ ← act (expire_stale now (Some target));
  gets (fun d => handed <$> filter (fun c => c_target c = target /\ c_status c = CommandStatus.Queued) (commands d)).

(** The two writes of [report]: closing a command, or updating it. *)
Definition close_command (now : Z) (s : CommandStatus) (result : string) (c : CommandRecord) : CommandRecord :=
  set_status s (Some (c_started c ?? now)) (Some now) (Some result) c.
Definition update_command (now : Z) (s : CommandStatus) (result : string) (c : CommandRecord) : CommandRecord :=
  set_status s (Some (c_started c ?? now)) (c_finished c)
    (if bool_decide (result = "") then c_result c else Some result) c.
Definition report_write (now id : Z) (r : CommandReport) (d : Tables) : Tables :=
  let result := truncate_result (result r) in
  update_where (fun c => c_id c =? id)
    (if CommandStatus.is_final (status r) then close_command now (status r) result
     else update_command now (status r) result) d.

Definition report (now target id : Z) (r : CommandReport) : Handler Tables CommandError bool :=
  row ← gets (status_of target id);
  match row with
  | None => mret false
  | Some current =>
      if CommandStatus.is_final current then mret true
      else _ ← modify (report_write now id r); mret true
  end.

(** ** Policies *)

Definition get_policy (target : Z) (container : string) (d : Tables) : ContainerPolicy :=
  policies d !! (target, container) ?? ContainerPolicy_default.
Definition set_policy (target : Z) (container : string) (p : ContainerPolicy) (d : Tables) : Tables :=
  {| seq_ := seq_ d; commands := commands d; policies := <[(target, container) := p]> (policies d) |}.
Definition is_active (e : (Z * string) * ContainerPolicy) : bool := auto_restart e.2 || auto_update e.2.
Definition list_active_policies (d : Tables) : list ((Z * string) * ContainerPolicy) :=
  filter (fun e => is_active e = true) (map_to_list (policies d)).

Record ContainerObservation := { obs_name : string; up : bool; update_available : bool }.

Record Decision := { d_kind : string; d_args : Value }.

Definition RESTART_COOLDOWN : TimeDelta := td_minutes 10.
Definition UPDATE_COOLDOWN : TimeDelta := td_hours 6.

Definition cooled (now : DateTime) (last : option DateTime) (cooldown : TimeDelta) : bool :=
  match last with None => true | Some at_ => cooldown <=? now - at_ end.

Definition decide_ (p : ContainerPolicy) (obs : ContainerObservation) (now : DateTime)
    (last_restart last_update : option DateTime) (pending in_maintenance : bool) : list Decision :=
  if pending then []
  else
    (if auto_restart p && negb (up obs) && cooled now last_restart RESTART_COOLDOWN
     then [{| d_kind := CMD_CONTAINER_RESTART; d_args := object [("name", inl (obs_name obs))] |}] else []) ++
    (let window_ok := negb (only_in_maintenance p) || in_maintenance in
     if auto_update p && update_available obs && window_ok && cooled now last_update UPDATE_COOLDOWN
     then [{| d_kind := CMD_CONTAINER_UPDATE;
              d_args := object [("name", inl (obs_name obs)); ("prune", inr (prune_old_image p))] |}] else []).

(** The series of [observe], with their values read; a label that is no number is left aside. *)
Definition observe_series (obs : gmap (Z * string) ContainerObservation)
    (series : gmap string string * f64) : gmap (Z * string) ContainerObservation :=
  match series.1 !! "target" ≫= parse_i64, series.1 !! "container", series.1 !! "__name__" with
  | Some target, Some container, Some name =>
      let entry := obs !! (target, container) ??
                   {| obs_name := container; up := true; update_available := false |} in
      <[(target, container) :=
          if bool_decide (name = "dumbmonit_container_up") then
            {| obs_name := obs_name entry; up := negb (f64_eq series.2 f64_zero);
               update_available := update_available entry |}
          else if bool_decide (name = "dumbmonit_container_update_available") then
            {| obs_name := obs_name entry; up := up entry; update_available := f64_eq series.2 f64_one |}
          else entry]> obs
  | _, _, _ => obs
  end.
Definition observe (series : list (gmap string string * f64)) : gmap (Z * string) ContainerObservation :=
  foldl observe_series ∅ series.

(** What a pass of the automaton reads elsewhere: the latest measures of the containers, the maintenance
    windows, the machines whose agent runs commands. *)
Record Sight := {
  series : list (gmap string string * f64);
  silences : list Silence;
  supported : Z -> bool;
}.

Definition queue_decision (clock target : Z) (acc : Tables * nat) (x : Decision) : Tables * nat :=
  match enqueue clock target (d_kind x) (d_args x) "policy" acc.1 with
  | (d, inr _) => (d, S acc.2)
  | (d, inl _) => (d, acc.2)
  end.

Section automaton.
Context {C : Calendar}.

(** One policy: [now] is the instant of the pass, [clock] the second its statements read. *)
Definition apply_policy (e : Sight) (now clock : Z) (acc : Tables * nat)
    (p : (Z * string) * ContainerPolicy) : Tables * nat :=
  let '((target, container), policy) := p in
  match observe (series e) !! (target, container) with
  | None => acc
  | Some obs =>
      if negb (supported e target) then acc
      else
        let d := acc.1 in
        let labels := <["container" := container]> ∅ in
        let in_maintenance := bool_decide (is_Some (first_match (silences e) now (Some target) labels)) in
        let pending_restart := has_pending target CMD_CONTAINER_RESTART container d in
        let pending_update := has_pending target CMD_CONTAINER_UPDATE container d in
        let last_restart := td_seconds <$> last_command_at target CMD_CONTAINER_RESTART container d in
        let last_update := td_seconds <$> last_command_at target CMD_CONTAINER_UPDATE container d in
        foldl (queue_decision clock target) acc
          (decide_ policy obs now last_restart last_update (pending_restart || pending_update) in_maintenance)
  end.

Definition run_once (e : Sight) (now clock : Z) (d : Tables) : Tables * nat :=
  foldl (apply_policy e now clock) (d, 0%nat) (list_active_policies d).

(** A turn of the task: the stale commands first. *)
Definition policy_turn (e : Sight) (now clock : Z) (d : Tables) : Tables * nat :=
  run_once e now clock (expire_stale clock None d).1.
End automaton.

(** ** The routes *)

Definition RESERVED_PREFIXES : list string := ["dumbmonit"; "ezymonit"].

Definition name_char (c : ascii) : bool :=
  is_ascii_alphanumeric c || bool_decide (c = "_"%char) || bool_decide (c = "."%char) || bool_decide (c = "-"%char).

Definition is_reserved (name : string) : bool :=
  existsb (fun p => starts_with p (to_ascii_lowercase name)) RESERVED_PREFIXES.

(** [None] is [Ok(())]. *)
Definition validate_name (name : string) : option string :=
  let valid_first := match name with String c _ => is_ascii_alphanumeric c | EmptyString => false end in
  let valid_rest := match name with String _ rest => string_forall name_char rest | EmptyString => true end in
  if bool_decide (name = "") || (128 <? Z.of_nat (String.length name)) || negb valid_first || negb valid_rest
  then Some "Invalid container name."
  else if is_reserved name then Some "The monitor never acts on its own containers."
  else None.

(** What the routes read elsewhere: the kind of a target, the machines whose agent runs commands, the labels
    of the container series of a target. *)
Record Estate := {
  kind_of : Z -> option string;
  commands_supported : Z -> bool;
  inventory : Z -> list (gmap string string);
}.

Definition agent_target (e : Estate) (id : Z) : Handler Tables ApiError () :=
  kind ← ok_or (ApiError.NotFound ("Device " +:+ display_i64 id +:+ " not found.")%string) (kind_of e id);
  refuse_if (negb (bool_decide (kind = "agent")))
    (ApiError.NotFound ("Device " +:+ display_i64 id +:+ " has no agent.")%string).

Definition checked_name (name : string) : Handler Tables ApiError string :=
  match validate_name name with Some why => throw (ApiError.BadRequest why) | None => mret name end.

Definition known_containers (e : Estate) (id : Z) : gset string :=
  list_to_set (omap (fun labels : gmap string string => labels !! "container") (inventory e id)).

Definition checked_known_name (e : Estate) (id : Z) (name : string) : Handler Tables ApiError string :=
  name ← checked_name name;
  _ ← refuse_if (negb (bool_decide (name ∈ known_containers e id)))
        (ApiError.NotFound ("No container named " +:+ quoted name +:+ " on device " +:+ display_i64 id +:+
                            ": it is not in the agent's inventory.")%string);
  mret name.

Definition ensure_commands_supported (e : Estate) (id : Z) : Handler Tables ApiError () :=
  refuse_if (negb (commands_supported e id))
    (ApiError.Conflict ("This agent cannot run commands: it is too old or has actions disabled. " +:+
                        "Reinstall it with the current installer.")%string).

(** The errors of the table as those of the interface. *)
Definition for_interface {A} (missing : string) (m : Handler Tables CommandError A) : Handler Tables ApiError A :=
  fun d =>
  match m d with
  | (d, inr a) => (d, inr a)
  | (d, inl (CommandError.Conflict why)) => (d, inl (ApiError.Conflict why))
  | (d, inl CommandError.NotFound) => (d, inl (ApiError.NotFound missing))
  | (d, inl CommandError.Internal) => (d, inl ApiError.Internal)
  end.

Definition enqueue_route (now id : Z) (kind : string) (args : Value) (by_ : string)
  : Handler Tables ApiError CommandRecord :=
  for_interface "Command not found." (enqueue now id kind args by_).

Definition restart (e : Estate) (now id : Z) (name by_ : string) : Handler Tables ApiError CommandRecord :=
  _ ← agent_target e id;
  _ ← ensure_commands_supported e id;
  name ← checked_known_name e id name;
  enqueue_route now id CMD_CONTAINER_RESTART (object [("name", inl name)]) by_.

Definition update (e : Estate) (now id : Z) (name by_ : string) (prune : option bool)
  : Handler Tables ApiError CommandRecord :=
  _ ← agent_target e id;
  _ ← ensure_commands_supported e id;
  name ← checked_known_name e id name;
  policy ← gets (get_policy id name);
  enqueue_route now id CMD_CONTAINER_UPDATE
    (object [("name", inl name); ("prune", inr (prune ?? prune_old_image policy))]) by_.

Definition cancel_route (e : Estate) (now id command_id : Z) (by_ : string) : Handler Tables ApiError () :=
  _ ← agent_target e id;
  for_interface ("Command " +:+ display_i64 command_id +:+ " not found on device " +:+ display_i64 id +:+ ".")%string
    (cancel now id command_id by_).

Record PolicyPatch := {
  p_auto_restart : option bool;
  p_auto_update : option bool;
  p_prune_old_image : option bool;
  p_only_in_maintenance : option bool;
}.

Definition apply_patch (p : PolicyPatch) (current : ContainerPolicy) : ContainerPolicy :=
  {| auto_restart := p_auto_restart p ?? auto_restart current;
     auto_update := p_auto_update p ?? auto_update current;
     prune_old_image := p_prune_old_image p ?? prune_old_image current;
     only_in_maintenance := p_only_in_maintenance p ?? only_in_maintenance current |}.

Definition policy_route (e : Estate) (id : Z) (name : string) (patch : PolicyPatch)
  : Handler Tables ApiError ContainerPolicy :=
  _ ← agent_target e id;
  name ← checked_name name;
  current ← gets (get_policy id name);
  let policy := apply_patch patch current in
  _ ← modify (set_policy id name policy);
  mret policy.

(** What happens to the tables: the routes of the interface, those of an authenticated agent, the task. *)
Inductive Call :=
| Restart (e : Estate) (now id : Z) (name by_ : string)
| Update (e : Estate) (now id : Z) (name by_ : string) (prune : option bool)
| Cancel (e : Estate) (now id command_id : Z) (by_ : string)
| Policy (e : Estate) (id : Z) (name : string) (patch : PolicyPatch)
| Fetch (now target : Z)
| AgentReport (now target id : Z) (r : CommandReport)
| Turn (e : Sight) (now clock : Z).

Definition serve {C : Calendar} (c : Call) (d : Tables) : Tables :=
  match c with
  | Restart e now id name by_ => (restart e now id name by_ d).1
  | Update e now id name by_ prune => (update e now id name by_ prune d).1
  | Cancel e now id command_id by_ => (cancel_route e now id command_id by_ d).1
  | Policy e id name patch => (policy_route e id name patch d).1
  | Fetch now target => (pending_for_target now target d).1
  | AgentReport now target id r => (report now target id r d).1
  | Turn e now clock => (policy_turn e now clock d).1
  end.

Definition serve_all {C : Calendar} (cs : list Call) (d : Tables) : Tables := foldl (fun d c => serve c d) d cs.
End table.
