(* ===== verification/CommandFacts.v ===== *)
(** * What the channel of commands guarantees

    Claims about [Commands.v]: a closed command never changes, a container never has two commands of a
    kind in the way, the monitor never acts on its own containers, the automaton stays within its
    policies, and what an unreported command leaves behind. *)
From Stdlib Require Import Ascii.
From Stdlib Require String.
From stdpp Require Import sorting.
From S2P Require Import Prelude Text Float64 Chrono Wire Silence Handler Commands.

Section facts.
Context {J : Json}.

(** ** Well-formed tables *)

(** The columns written once, and the rest unless the command is closed. *)
Definition evolves (c c' : CommandRecord) : Prop :=
  c_id c' = c_id c /\ c_target c' = c_target c /\ c_kind c' = c_kind c /\ c_args c' = c_args c /\
  c_by c' = c_by c /\ c_created c' = c_created c /\
  (c' = c \/ CommandStatus.is_final (c_status c) = false).

Lemma evolves_refl c : evolves c c.
Proof. unfold evolves. naive_solver. Qed.

Lemma evolves_trans c1 c2 c3 : evolves c1 c2 -> evolves c2 c3 -> evolves c1 c3.
Proof. unfold evolves. intros (?&?&?&?&?&?&[->|?]) (?&?&?&?&?&?&[->|?]); split_and!; naive_solver congruence. Qed.

Lemma evolves_all_trans l1 l2 l3 : Forall2 evolves l1 l2 -> Forall2 evolves l2 l3 -> Forall2 evolves l1 l3.
Proof.
  intros H12. revert l3. induction H12; intros l3 H23; inversion H23; subst; constructor; eauto using evolves_trans.
Qed.

(** The rows grow: none disappears, each evolves, new ones come at the end. *)
Definition grows (d d' : Tables) : Prop :=
  exists l new, commands d' = l ++ new /\ Forall2 evolves (commands d) l.

#[local] Instance grows_preorder : PreOrder grows.
Proof.
  split.
  - intros d. exists (commands d), []. rewrite app_nil_r. split; [done|].
    apply Forall2_same_length_lookup_2; [done|]. intros i x y Hx Hy. simplify_eq. apply evolves_refl.
  - intros d1 d2 d3 (l & new & E & H12) (l' & new' & E' & H23). rewrite E in H23.
    apply Forall2_app_inv_l in H23 as (l1 & l2 & Hl & _ & ->). exists l1, (l2 ++ new').
    split; [by rewrite E', app_assoc|]. by apply (evolves_all_trans _ l).
Qed.

Lemma grows_rows d d' : commands d' = commands d -> grows d d'.
Proof.
  intros E. exists (commands d), []. rewrite E, app_nil_r. split; [done|].
  apply Forall2_same_length_lookup_2; [done|]. intros i x y Hx Hy. simplify_eq. apply evolves_refl.
Qed.

(** A command whose arguments name a container the server accepts. *)
Definition names (args : Value) (n : string) : Prop := get_str args "name" = Some n /\ validate_name n = None.

Definition well_named (text : string) : Prop := exists args n, to_text args = Some text /\ names args n.

(** Numbers in increasing order; one command in the way at most by target, kind and container; no command
    and no policy on a name the server refuses. *)
Record wf (d : Tables) : Prop := {
  wf_sorted : StronglySorted Z.lt (c_id <$> commands d);
  wf_bound : forall c, c ∈ commands d -> c_id c <= seq_ d;
  wf_alone : forall c c' n, c ∈ commands d -> c' ∈ commands d ->
    is_pending (c_status c) = true -> is_pending (c_status c') = true ->
    c_target c = c_target c' -> c_kind c = c_kind c' ->
    extract_name (c_args c) = Some n -> extract_name (c_args c') = Some n -> c = c';
  wf_named : forall c, c ∈ commands d -> well_named (c_args c);
  wf_policies : forall t n p, policies d !! (t, n) = Some p -> validate_name n = None;
}.

Lemma wf_Tables_new : wf Tables_new.
Proof. split; simpl; try (intros; set_solver). constructor. Qed.

Lemma pending_not_final s : CommandStatus.is_final s = negb (is_pending s).
Proof. by destruct s. Qed.

Lemma sorted_ids_inj l c c' :
  StronglySorted Z.lt (c_id <$> l) -> c ∈ l -> c' ∈ l -> c_id c = c_id c' -> c = c'.
Proof.
  induction l as [|x l IH]; [by intros _ ?%elem_of_nil|]. rewrite fmap_cons, StronglySorted_cons, Forall_forall.
  intros [Hx Hs] Hc Hc' E. apply elem_of_cons in Hc as [->|Hc], Hc' as [->|Hc']; [done| | |by apply IH].
  - pose proof (Hx (c_id c') (list_elem_of_fmap_2 c_id _ _ Hc')). lia.
  - pose proof (Hx (c_id c) (list_elem_of_fmap_2 c_id _ _ Hc)). lia.
Qed.

(** ** The statements *)

Definition updated (p : CommandRecord -> bool) (f : CommandRecord -> CommandRecord) (c : CommandRecord) :=
  if p c then f c else c.

Lemma elem_of_update c p f d : c ∈ commands (update_where p f d) <-> exists c0, c0 ∈ commands d /\ c = updated p f c0.
Proof. simpl. rewrite list_elem_of_fmap. unfold updated. naive_solver. Qed.

Lemma update_commands_ok p f d :
  wf d -> (forall c, c ∈ commands d -> p c = true -> evolves c (f c)) ->
  wf (update_where p f d) /\ grows d (update_where p f d).
Proof.
  intros Hw Hf.
  assert (forall c, c ∈ commands d -> evolves c (updated p f c)) as He.
  { intros c Hc. unfold updated. destruct (p c) eqn:E; [by apply Hf|apply evolves_refl]. }
  assert (forall c, c ∈ commands d -> is_pending (c_status (updated p f c)) = true -> is_pending (c_status c) = true)
    as Hp.
  { intros c Hc Hn. destruct (He c Hc) as (_ & _ & _ & _ & _ & _ & [E|E]); [by rewrite E in Hn|].
    rewrite pending_not_final in E. by apply negb_false_iff in E. }
  split.
  - split.
    + replace (c_id <$> commands (update_where p f d)) with (c_id <$> commands d); [apply Hw|].
      simpl. rewrite <-list_fmap_compose. apply list_fmap_ext. intros i c Hc%list_elem_of_lookup_2.
      symmetry. apply (He c Hc).
    + intros c (c0 & Hc & ->)%elem_of_update. destruct (He c0 Hc) as [-> _]. by apply (wf_bound _ Hw).
    + intros c c' n (c0 & Hc & ->)%elem_of_update (c0' & Hc' & ->)%elem_of_update Hn Hn'.
      apply Hp in Hn; [|done]. apply Hp in Hn'; [|done].
      destruct (He c0 Hc) as (_ & -> & -> & -> & _), (He c0' Hc') as (_ & -> & -> & -> & _). intros Ht Hk Hx Hx'.
      f_equal. by apply (wf_alone _ Hw c0 c0' n).
    + intros c (c0 & Hc & ->)%elem_of_update. destruct (He c0 Hc) as (_ & _ & _ & -> & _). by apply (wf_named _ Hw).
    + apply (wf_policies _ Hw).
  - exists (updated p f <$> commands d), []. rewrite app_nil_r. split; [done|].
    apply Forall2_fmap_r, Forall2_same_length_lookup_2; [done|].
    intros i c c' H1 H2. simplify_eq. apply He. by eapply list_elem_of_lookup_2.
Qed.

Lemma insert_command_ok now target kind args by_ d :
  wf d -> well_named args ->
  (forall n, extract_name args = Some n -> has_pending target kind n d = false) ->
  let d' := (insert_command now target kind args by_ d).1 in wf d' /\ grows d d'.
Proof.
  intros Hw Ha Hn. simpl. set (c0 := {| c_id := seq_ d + 1 |}). split; [|by exists (commands d), [c0]; split; [done|];
    apply Forall2_same_length_lookup_2; [done|]; intros i x y Hx Hy; simplify_eq; apply evolves_refl].
  assert (forall c, c ∈ commands d -> is_pending (c_status c) = true -> c_target c = target -> c_kind c = kind ->
            forall n, extract_name (c_args c) = Some n -> extract_name args = Some n -> False) as Hfree.
  { intros c Hc Hp Ht Hk n Hx Hx0. specialize (Hn n Hx0). apply not_true_iff_false in Hn. apply Hn.
    apply existsb_elem. exists c. split; [done|]. unfold is_about.
    by rewrite Ht, Hk, Hx, Hp, Z.eqb_refl, !bool_decide_true. }
  split; simpl.
  - rewrite fmap_app. apply StronglySorted_app_2; [|apply Hw|repeat constructor].
    intros x y (c & -> & Hc)%list_elem_of_fmap ->%list_elem_of_singleton. apply (wf_bound _ Hw) in Hc. simpl. lia.
  - intros c [Hc| ->%list_elem_of_singleton]%elem_of_app; [|done]. apply (wf_bound _ Hw) in Hc. lia.
  - intros c c' n [Hc| ->%list_elem_of_singleton]%elem_of_app [Hc'| ->%list_elem_of_singleton]%elem_of_app.
    + by apply (wf_alone _ Hw).
    + intros Hp _ Ht Hk Hx Hx'. by destruct (Hfree c Hc Hp Ht Hk n).
    + intros _ Hp Ht Hk Hx Hx'. by destruct (Hfree c' Hc' Hp (eq_sym Ht) (eq_sym Hk) n).
    + done.
  - intros c [Hc| ->%list_elem_of_singleton]%elem_of_app; [by apply (wf_named _ Hw)|done].
  - apply (wf_policies _ Hw).
Qed.

Lemma open_evolves c s st fi re :
  CommandStatus.is_final (c_status c) = false -> evolves c (set_status s st fi re c).
Proof. unfold evolves. naive_solver. Qed.

Lemma expire_stale_ok now target d :
  wf d -> wf (expire_stale now target d).1 /\ grows d (expire_stale now target d).1.
Proof.
  intros Hw. apply update_commands_ok; [done|]. intros c _. unfold is_stale. intros Hp. bools. apply open_evolves.
  by match goal with H : c_status c = _ |- _ => rewrite H end.
Qed.

Lemma cancel_ok now target id by_ d :
  wf d -> leaves (cancel now target id by_) d (fun d' => wf d' /\ grows d d').
Proof.
  intros Hw. assert (wf (cancel_write now id by_ d).1 /\ grows d (cancel_write now id by_ d).1) as Hc.
  { apply update_commands_ok; [done|]. intros c _. unfold is_queued. intros Hp. bools. apply open_evolves.
    by match goal with H : c_status c = _ |- _ => rewrite H end. }
  unfold leaves, cancel. by repeat hstep.
Qed.

Lemma status_of_Some target id d s :
  status_of target id d = Some s ->
  exists c, c ∈ commands d /\ c_id c = id /\ c_target c = target /\ c_status c = s.
Proof.
  unfold status_of. destruct (find_map _ _) as [c|] eqn:E; [|done]. intros [= <-].
  apply find_map_Some in E as (l1 & c' & l2 & -> & Hc & _). destruct (_ && _) eqn:Hb; [|done].
  simplify_eq. bools. exists c. split_and!; [set_solver|done..].
Qed.

Lemma report_ok now target id r d :
  wf d -> leaves (report now target id r) d (fun d' => wf d' /\ grows d d').
Proof.
  intros Hw. unfold leaves, report. repeat hstep; try done. unfold report_write.
  match goal with H : status_of _ _ _ = _ |- _ => apply status_of_Some in H as (c0 & Hc0 & Hid & _ & Hs) end.
  apply update_commands_ok; [done|]. intros c1 Hc Hp. bools.
  assert (c1 = c0) as -> by (apply (sorted_ids_inj (commands d)); [apply Hw|done|done|congruence]).
  destruct (CommandStatus.is_final (status r)); apply open_evolves; by rewrite Hs.
Qed.

Lemma fetch_ok now target d :
  wf d -> leaves (pending_for_target now target) d (fun d' => wf d' /\ grows d d').
Proof. intros Hw. unfold leaves, pending_for_target. repeat hstep; by apply expire_stale_ok. Qed.

Lemma policy_ok e id name patch d :
  wf d -> leaves (policy_route e id name patch) d (fun d' => wf d' /\ grows d d').
Proof.
  intros Hw. assert (wf d /\ grows d d) as Hr by done.
  unfold leaves, policy_route, agent_target, checked_name. repeat hstep; try done.
  split; [|by apply (grows_rows d)]. split; try apply Hw. simpl. intros t n p.
  intros [[[= <- <-] _]|[_ Hl]]%lookup_insert_Some; [done|by apply (wf_policies _ Hw t n p)].
Qed.

Context {L : JsonLaws J}.

Lemma validate_not_empty n : validate_name n = None -> n <> "".
Proof. by intros Hv ->. Qed.

Lemma container_name_of args n : names args n -> container_name args = Some n.
Proof.
  intros [Hg Hv]. unfold container_name, option_filter. rewrite Hg.
  by rewrite bool_decide_false by (by apply validate_not_empty).
Qed.

Lemma enqueue_command_ok now target kind args by_ n d :
  names args n -> wf d ->
  wp (enqueue now target kind args by_)
     (fun c d' => wf d' /\ grows d d' /\ commands d' = commands d ++ [c] /\ policies d' = policies d /\
                  has_pending target kind n d = false /\
                  c_target c = target /\ c_kind c = kind /\ to_text args = Some (c_args c) /\
                  extract_name (c_args c) = Some n /\ c_status c = CommandStatus.Queued /\
                  c_by c = Some by_ /\ c_created c = now)
     (fun _ d' => d' = d) d.
Proof using Type*.
  intros Hn Hw. unfold enqueue. rewrite (container_name_of _ _ Hn). repeat hstep; try done.
  match goal with H : to_text args = Some ?text |- _ =>
    assert (extract_name text = Some n) as Hx by (rewrite (extract_to_text _ _ H); apply Hn) end.
  edestruct (insert_command_ok now target kind) as [Hw' Hg]; [done| | |split_and!; [exact Hw'|exact Hg|done..]].
  - by exists args, n.
  - intros n' Hx'. simpl in *. congruence.
Qed.

Lemma names_object n fields :
  validate_name n = None -> NoDup fields.*1 -> fields !! 0%nat = Some ("name", inl n) -> names (object fields) n.
Proof using Type*.
  intros Hv Hd Hf. split; [|done]. destruct fields as [|f fields]; [done|]. injection Hf as ->.
  by rewrite get_str_object.
Qed.

Lemma wp_for_interface {A} missing (m : Handler Tables CommandError A) (Q : A -> Tables -> Prop) (R : Tables -> Prop) d :
  wp m Q (fun _ => R) d -> wp (for_interface missing m) Q (fun _ => R) d.
Proof. unfold wp, for_interface. by destruct (m d) as [d' [[]|]]. Qed.

Lemma enqueue_leaves now target kind args by_ n d :
  names args n -> wf d -> leaves (enqueue now target kind args by_) d (fun d' => wf d' /\ grows d d').
Proof using Type*.
  intros Hn Hw. eapply (wp_mono _ _ _ (fun _ d' => d' = d)); [by apply (enqueue_command_ok _ _ _ _ _ n)| |].
  - by intros c d' (? & ? & _).
  - by intros e d' ->.
Qed.

Lemma restart_ok e now id name by_ d :
  wf d -> leaves (restart e now id name by_) d (fun d' => wf d' /\ grows d d').
Proof using Type*.
  intros Hw. assert (wf d /\ grows d d) as Hr by done.
  unfold leaves, restart, agent_target, ensure_commands_supported, checked_known_name, checked_name.
  repeat hstep; try done. apply wp_for_interface, (enqueue_leaves _ _ _ _ _ name); [|done].
  by apply names_object; [|apply NoDup_singleton|].
Qed.

Lemma named_and_pruned n prune :
  validate_name n = None -> names (object [("name", inl n); ("prune", inr prune)]) n.
Proof using Type*.
  intros Hv. apply names_object; [done| |done].
  apply NoDup_cons. split; [by intros ?%list_elem_of_singleton|apply NoDup_singleton].
Qed.

Lemma update_route_ok e now id name by_ prune d :
  wf d -> leaves (update e now id name by_ prune) d (fun d' => wf d' /\ grows d d').
Proof using Type*.
  intros Hw. assert (wf d /\ grows d d) as Hr by done.
  unfold leaves, update, agent_target, ensure_commands_supported, checked_known_name, checked_name.
  repeat hstep; try done. apply wp_for_interface, (enqueue_leaves _ _ _ _ _ name); [|done].
  by apply named_and_pruned.
Qed.

Lemma cancel_route_ok e now id command_id by_ d :
  wf d -> leaves (cancel_route e now id command_id by_) d (fun d' => wf d' /\ grows d d').
Proof.
  intros Hw. assert (wf d /\ grows d d) as Hr by done. unfold leaves, cancel_route, agent_target.
  repeat hstep; try done. by apply wp_for_interface, cancel_ok.
Qed.

(** ** The automaton *)

Lemma observe_name series t n o : observe series !! (t, n) = Some o -> obs_name o = n.
Proof.
  assert (forall t n o, observe series !! (t, n) = Some o -> obs_name o = n) as Ho; [|by apply Ho].
  unfold observe. apply (foldl_invariant (fun obs => forall t n o, obs !! (t, n) = Some o -> obs_name o = n)).
  { intros t0 n0 o0. by rewrite lookup_empty. }
  intros obs s _ Hobs t0 n0 o0. unfold observe_series.
  destruct (_ ≫= parse_i64) as [target|]; [|apply Hobs]. destruct (s.1 !! "container") as [container|]; [|apply Hobs].
  destruct (s.1 !! "__name__") as [name|]; [|apply Hobs].
  intros [[[= <- <-] <-]|[_ Hl]]%lookup_insert_Some; [|by apply (Hobs t0)].
  assert (obs_name (obs !! (target, container) ?? {| obs_name := container; up := true; update_available := false |})
          = container) as Hc.
  { destruct (obs !! (target, container)) as [o1|] eqn:E; simpl; [by apply (Hobs target)|done]. }
  by repeat case_bool_decide.
Qed.

(** A pause since the last command of a kind, if there was one. *)
Definition rested (now : DateTime) (last : option Z) (pause : TimeDelta) : Prop :=
  forall asked, last = Some asked -> td_seconds asked + pause <= now.

Lemma cooled_rested now last pause : cooled now (td_seconds <$> last) pause = true -> rested now last pause.
Proof. unfold cooled. intros Hc asked ->. simpl in Hc. apply Z.leb_le in Hc. lia. Qed.

(** What allows the automaton a command, in the tables it started from. *)
Definition allowed {C : Calendar} (e : Sight) (now clock : Z) (d : Tables) (target : Z) (n : string)
    (p : ContainerPolicy) (c : CommandRecord) : Prop :=
  c_by c = Some "policy" /\ c_status c = CommandStatus.Queued /\ c_created c = clock /\
  c_target c = target /\ extract_name (c_args c) = Some n /\ supported e target = true /\
  has_pending target CMD_CONTAINER_RESTART n d = false /\ has_pending target CMD_CONTAINER_UPDATE n d = false /\
  exists obs, observe (series e) !! (target, n) = Some obs /\
    (c_kind c = CMD_CONTAINER_RESTART /\ auto_restart p = true /\ up obs = false /\
     rested now (last_command_at target CMD_CONTAINER_RESTART n d) (td_minutes 10) \/
     c_kind c = CMD_CONTAINER_UPDATE /\ auto_update p = true /\ update_available obs = true /\
     (only_in_maintenance p = true ->
      is_Some (first_match (silences e) now (Some target) (<["container" := n]> ∅))) /\
     rested now (last_command_at target CMD_CONTAINER_UPDATE n d) (td_hours 6)).

(** What a pass adds. *)
Definition adds (d : Tables) (P : CommandRecord -> Prop) (acc : Tables * nat) : Prop :=
  wf acc.1 /\ policies acc.1 = policies d /\
  exists new, commands acc.1 = commands d ++ new /\ acc.2 = length new /\ Forall P new.

Lemma queue_adds d P clock target n x acc :
  names (d_args x) n -> adds d P acc ->
  (forall c, c_by c = Some "policy" -> c_status c = CommandStatus.Queued -> c_created c = clock ->
     c_target c = target -> extract_name (c_args c) = Some n -> c_kind c = d_kind x -> P c) ->
  adds d P (queue_decision clock target acc x).
Proof using Type*.
  intros Hn (Hw & Hp & new & Hc & Hl & Hf) HP. unfold queue_decision.
  pose proof (wp_run _ _ _ _ (enqueue_command_ok clock target (d_kind x) _ "policy" n _ Hn Hw)) as Hq.
  destruct (enqueue _ _ _ _ _ acc.1) as [d' [e|c]]; simpl in Hq.
  - subst d'. split_and!; [done|done|]. by exists new.
  - destruct Hq as (Hw' & _ & Hc' & Hp' & _ & Ht & Hk & _ & Hx & Hs & Hb & Hcr).
    split_and!; [done|by simpl; rewrite Hp'|]. exists (new ++ [c]). simpl.
    rewrite Hc', Hc, Hl, length_app, <-app_assoc. simpl. split_and!; [done|lia|].
    apply Forall_app. split; [done|]. apply Forall_singleton. by apply HP.
Qed.

Lemma is_about_extract target kind n c : is_about target kind n c = true -> c_target c = target /\ extract_name (c_args c) = Some n.
Proof. unfold is_about. intros. bools. done. Qed.

(** Commands about other containers change nothing of what a policy reads. *)
Lemma has_pending_app target kind n d new :
  (forall c, c ∈ new -> ~ (c_target c = target /\ extract_name (c_args c) = Some n)) ->
  existsb (fun c => is_about target kind n c && is_pending (c_status c)) (commands d ++ new) = has_pending target kind n d.
Proof.
  intros Hn. rewrite existsb_app. unfold has_pending. destruct (existsb _ new) eqn:E; [|by rewrite orb_false_r].
  apply existsb_elem in E as (c & Hc & [Hb _]%andb_true_iff). by apply is_about_extract, Hn in Hb.
Qed.

Lemma last_command_app target kind n d new :
  (forall c, c ∈ new -> ~ (c_target c = target /\ extract_name (c_args c) = Some n)) ->
  c_created <$> last (filter (fun c => is_about target kind n c = true) (commands d ++ new)) =
  last_command_at target kind n d.
Proof.
  intros Hn. rewrite filter_app, (filter_none _ new), app_nil_r; [done|].
  intros c Hc Hb%is_about_extract. by apply (Hn c).
Qed.

Lemma decide_names p obs now lr lu pending mnt x n :
  obs_name obs = n -> validate_name n = None -> x ∈ decide_ p obs now lr lu pending mnt -> names (d_args x) n.
Proof using Type*.
  intros <- Hv. unfold decide_. destruct pending; [by intros ?%elem_of_nil|].
  intros [Hx|Hx]%elem_of_app; destruct (_ && _); try by apply elem_of_nil in Hx.
  - apply list_elem_of_singleton in Hx as ->. by apply names_object; [|apply NoDup_singleton|].
  - apply list_elem_of_singleton in Hx as ->. by apply named_and_pruned.
Qed.

Section pass.
Context {C : Calendar}.

Definition fair (e : Sight) (now clock : Z) (d : Tables) (done_ : list ((Z * string) * ContainerPolicy))
    (c : CommandRecord) : Prop :=
  exists n p, ((c_target c, n), p) ∈ done_ /\ allowed e now clock d (c_target c) n p c.

Lemma apply_policy_adds e now clock d done_ p acc :
  (p.1 ∉ done_.*1) -> policies d !! p.1 = Some p.2 ->
  adds d (fair e now clock d done_) acc -> adds d (fair e now clock d (done_ ++ [p])) (apply_policy e now clock acc p).
Proof using Type*.
  intros Hnew Hpol Hadds.
  assert (adds d (fair e now clock d (done_ ++ [p])) acc) as Hweak.
  { destruct Hadds as (? & ? & new & ? & ? & Hf). split_and!; [done|done|]. exists new. split_and!; [done|done|].
    eapply Forall_impl; [exact Hf|]. intros c (n & q & Hq & Ha). exists n, q. split; [|done].
    apply elem_of_app. by left. }
  destruct p as [[target container] policy]. simpl in Hnew, Hpol. unfold apply_policy.
  destruct (observe (series e) !! (target, container)) as [obs|] eqn:Eo; [|done].
  destruct (supported e target) eqn:Es; [|done]. cbn [negb].
  destruct Hadds as (Hw & Hp & new & Hc & _ & Hf).
  assert (forall c, c ∈ new -> ~ (c_target c = target /\ extract_name (c_args c) = Some container)) as Hother.
  { intros c Hin [Ht Hx]. rewrite Forall_forall in Hf. destruct (Hf c Hin) as (n & q & Hq & Ha).
    destruct Ha as (_ & _ & _ & _ & Hx' & _). simplify_eq. apply Hnew.
    by apply (list_elem_of_fmap_2 fst _ _ Hq). }
  assert (forall kind, has_pending target kind container acc.1 = has_pending target kind container d) as Hpend.
  { intros kind. rewrite <-(has_pending_app _ kind _ d new Hother), <-Hc. done. }
  assert (forall kind, last_command_at target kind container acc.1 = last_command_at target kind container d) as Hlast.
  { intros kind. rewrite <-(last_command_app _ kind _ d new Hother), <-Hc. done. }
  rewrite !Hpend, !Hlast.
  pose proof (observe_name _ _ _ _ Eo) as Hobs.
  assert (validate_name container = None) as Hv.
  { apply (wf_policies _ Hw target _ policy). by rewrite Hp. }
  match goal with |- context [decide_ policy obs now ?a ?b ?c ?m] =>
    set (lr := a); set (lu := b); set (pend := c); set (mnt := m) end.
  apply foldl_invariant; [done|]. intros acc' x Hx Hacc.
  apply (queue_adds _ _ _ target container); [by eapply decide_names|done|].
  intros c Hby Hst Hcr Ht Hn Hk. exists container, policy. split.
  { rewrite Ht. apply elem_of_app. right. by left. }
  unfold decide_ in Hx. destruct pend eqn:Ep; [by apply elem_of_nil in Hx|]. apply orb_false_iff in Ep as [Ep1 Ep2].
  rewrite Ht. split_and!; [done..|]. exists obs. split; [done|].
  apply elem_of_app in Hx as [Hx|Hx]; destruct (_ && _) eqn:Eb; try by apply elem_of_nil in Hx.
  - left. apply list_elem_of_singleton in Hx as ->. bools. split_and!; [done..|by apply cooled_rested].
  - right. apply list_elem_of_singleton in Hx as ->. bools. split_and!; [done..| |by apply cooled_rested].
    intros Hm. match goal with H : (negb _ || _)%bool = true |- _ => rewrite Hm in H; simpl in H end.
    by eapply bool_decide_eq_true_1.
Qed.

Lemma run_once_adds e now clock d :
  wf d -> adds d (fair e now clock d (list_active_policies d)) (run_once e now clock d).
Proof using Type*.
  intros Hw. unfold run_once.
  assert (NoDup (list_active_policies d).*1) as Hd.
  { eapply sublist_NoDup; [apply (NoDup_fst_map_to_list (policies d))|]. apply fmap_sublist, sublist_filter. }
  assert (forall p, p ∈ list_active_policies d -> policies d !! p.1 = Some p.2) as Hp.
  { intros [k p] [_ Hk%elem_of_map_to_list]%list_elem_of_filter. done. }
  assert (forall done_ todo, NoDup (done_ ++ todo).*1 -> (forall p, p ∈ todo -> policies d !! p.1 = Some p.2) ->
    forall acc, adds d (fair e now clock d done_) acc ->
    adds d (fair e now clock d (done_ ++ todo)) (foldl (apply_policy e now clock) acc todo)) as Hall.
  { intros done_ todo. revert done_. induction todo as [|p todo IH]; intros done_ Hn Ht acc Ha.
    - by rewrite app_nil_r.
    - cbn [foldl]. rewrite cons_middle, app_assoc. apply IH.
      + by rewrite <-app_assoc.
      + intros q Hq. apply Ht. by right.
      + apply apply_policy_adds; [|apply Ht; by left|done].
        rewrite fmap_app, NoDup_app in Hn. destruct Hn as (_ & Hn & _). intros Hin. apply (Hn _ Hin). by left. }
  apply (Hall [] (list_active_policies d)); [done|done|]. split_and!; [done|done|]. exists [].
  by rewrite app_nil_r.
Qed.
End pass.

(** ** Every call *)

Section calls.
Context {C : Calendar}.

Lemma turn_ok e now clock d :
  wf d -> wf (policy_turn e now clock d).1 /\ grows d (policy_turn e now clock d).1.
Proof using Type*.
  intros Hw. unfold policy_turn. destruct (expire_stale_ok clock None d Hw) as [Hw1 Hg1].
  set (d1 := (expire_stale clock None d).1) in *.
  destruct (run_once_adds e now clock d1 Hw1) as (Hw2 & _ & new & Hc & _ & _). split; [done|].
  etrans; [exact Hg1|]. exists (commands d1), new. split; [done|].
  apply Forall2_same_length_lookup_2; [done|]. intros i x y Hx Hy. simplify_eq. apply evolves_refl.
Qed.

Lemma serve_ok c d : wf d -> wf (serve c d) /\ grows d (serve c d).
Proof using Type*.
  intros Hw. destruct c as [e now id name by_|e now id name by_ prune|e now id k by_|e id name patch|now target
                           |now target id r|e now clock]; cbn [serve].
  - apply leaves_state. by apply restart_ok.
  - apply leaves_state. by apply update_route_ok.
  - apply leaves_state. by apply cancel_route_ok.
  - apply leaves_state. by apply policy_ok.
  - apply leaves_state. by apply fetch_ok.
  - apply leaves_state. by apply report_ok.
  - by apply turn_ok.
Qed.

Lemma serve_all_ok cs d : wf d -> wf (serve_all cs d) /\ grows d (serve_all cs d).
Proof using Type*.
  unfold serve_all. revert d. induction cs as [|c cs IH]; intros d Hw; [by split|]. cbn [foldl].
  destruct (serve_ok c d Hw) as [Hw1 Hg1]. destruct (IH _ Hw1) as [Hw2 Hg2]. split; [done|]. by etrans.
Qed.

Lemma grows_elem d d' c : grows d d' -> c ∈ commands d -> exists c', c' ∈ commands d' /\ evolves c c'.
Proof.
  intros (l & new & -> & Hf) [i Hi]%list_elem_of_lookup_1.
  destruct (Forall2_lookup_l _ _ _ _ _ Hf Hi) as (c' & Hi' & He). exists c'. split; [|done].
  apply elem_of_app. left. by eapply list_elem_of_lookup_2.
Qed.
End calls.

(** ** A command in the agent's hands *)

Section running.
Context {C : Calendar}.
Variable (c : CommandRecord).
Hypothesis (Hrun : c_status c = CommandStatus.Running).

Lemma update_keeps p f d : c ∈ commands d -> p c = false -> c ∈ commands (update_where p f d).
Proof. intros Hc Hp. apply elem_of_update. exists c. unfold updated. by rewrite Hp. Qed.

Lemma expire_keeps now target d : c ∈ commands d -> c ∈ commands (expire_stale now target d).1.
Proof using Hrun. intros Hc. apply update_keeps; [done|]. unfold is_stale. by rewrite Hrun. Qed.

Lemma enqueue_keeps now target kind args by_ d :
  c ∈ commands d -> leaves (enqueue now target kind args by_) d (fun d' => c ∈ commands d').
Proof. intros Hc. unfold leaves, enqueue. repeat hstep; try done. simpl. apply elem_of_app. by left. Qed.

(** No report of this agent about this command among the calls. *)
Definition silent (calls : list Call) : Prop :=
  forall call, call ∈ calls ->
    match call with AgentReport _ target id _ => ~ (target = c_target c /\ id = c_id c) | _ => True end.

Lemma serve_keeps call d : wf d -> silent [call] -> c ∈ commands d -> c ∈ commands (serve call d).
Proof using Type*.
  intros Hw Hs Hc. specialize (Hs call ltac:(by left)).
  destruct call as [e now id name by_|e now id name by_ prune|e now id k by_|e id name patch|now target
                   |now target id r|e now clock]; cbn [serve].
  - apply (leaves_state _ d (fun d' => c ∈ commands d')).
    unfold leaves, restart, agent_target, ensure_commands_supported, checked_known_name, checked_name.
    repeat hstep; try done. by apply wp_for_interface, enqueue_keeps.
  - apply (leaves_state _ d (fun d' => c ∈ commands d')).
    unfold leaves, update, agent_target, ensure_commands_supported, checked_known_name, checked_name.
    repeat hstep; try done. by apply wp_for_interface, enqueue_keeps.
  - apply (leaves_state _ d (fun d' => c ∈ commands d')).
    unfold leaves, cancel_route, agent_target. repeat hstep; try done. apply wp_for_interface.
    assert (c ∈ commands (cancel_write now k by_ d).1) as Hk.
    { apply update_keeps; [done|]. unfold is_queued. by rewrite Hrun, andb_false_r. }
    unfold cancel. by repeat hstep.
  - apply (leaves_state _ d (fun d' => c ∈ commands d')).
    unfold leaves, policy_route, agent_target, checked_name. by repeat hstep.
  - apply (leaves_state _ d (fun d' => c ∈ commands d')).
    unfold leaves, pending_for_target. repeat hstep. by apply expire_keeps.
  - apply (leaves_state _ d (fun d' => c ∈ commands d')). unfold leaves, report. repeat hstep; try done.
    match goal with H : status_of _ _ _ = _ |- _ => apply status_of_Some in H as (c1 & Hc1 & Hid & Ht & _) end.
    apply update_keeps; [done|]. apply Z.eqb_neq. intros E. apply Hs.
    assert (c = c1) as -> by (apply (sorted_ids_inj (commands d)); [apply Hw|done|done|congruence]). done.
  - unfold policy_turn. pose proof (expire_keeps clock None d Hc) as Hk.
    destruct (expire_stale_ok clock None d Hw) as [Hw1 _].
    destruct (run_once_adds e now clock _ Hw1) as (_ & _ & new & -> & _). apply elem_of_app. by left.
Qed.

Lemma serve_all_keeps calls d : wf d -> silent calls -> c ∈ commands d -> c ∈ commands (serve_all calls d).
Proof using Type*.
  unfold serve_all. revert d. induction calls as [|call calls IH]; intros d Hw Hs Hc; [done|]. cbn [foldl].
  apply IH; [by apply serve_ok|intros x Hx; apply Hs; by right|].
  apply serve_keeps; [done| |done]. intros x ->%list_elem_of_singleton. apply Hs. by left.
Qed.
End running.

(** ** Claims *)

Section claims.
Context {C : Calendar}.

(** C8. Whatever the interface, the agents and the automaton ask, commands have increasing numbers, no
    command disappears or changes what it asks for, a closed one never changes at all, and a
    container never has two commands of a kind waiting or running. *)
Theorem commands_are_neither_doubled_nor_reopened calls more :
  let d := serve_all calls Tables_new in
  let d' := serve_all more d in
  StronglySorted Z.lt (c_id <$> commands d) /\
  (forall c c' n, c ∈ commands d -> c' ∈ commands d ->
     is_pending (c_status c) = true -> is_pending (c_status c') = true ->
     c_target c = c_target c' -> c_kind c = c_kind c' ->
     extract_name (c_args c) = Some n -> extract_name (c_args c') = Some n -> c = c') /\
  (forall c, c ∈ commands d -> exists c', c' ∈ commands d' /\
     c_id c' = c_id c /\ c_target c' = c_target c /\ c_kind c' = c_kind c /\ c_args c' = c_args c /\
     (CommandStatus.is_final (c_status c) = true -> c' = c)).
Proof using Type*.
  intros d d'. destruct (serve_all_ok calls Tables_new wf_Tables_new) as [Hw _]. fold d in Hw.
  destruct (serve_all_ok more d Hw) as [_ Hg]. fold d' in Hg.
  split_and!; [apply Hw|apply Hw|]. intros c Hc. destruct (grows_elem _ _ _ Hg Hc) as (c' & Hc' & He).
  exists c'. split; [done|]. destruct He as (? & ? & ? & ? & _ & _ & Hf). split_and!; [done..|].
  intros Hfin. destruct Hf as [->|Hf]; [done|congruence].
Qed.

(** No command ever names a container of the monitor, nor anything that is not a container name,
    whether it comes from the interface or from a policy. *)
Theorem monitor_never_touches_itself calls c :
  c ∈ commands (serve_all calls Tables_new) ->
  exists n, container_name (args_of c) = Some n /\ validate_name n = None /\ is_reserved n = false.
Proof using Type*.
  intros Hc. destruct (serve_all_ok calls Tables_new wf_Tables_new) as [Hw _].
  destruct (wf_named _ Hw _ Hc) as (args & n & Ht & Hn). exists n. unfold args_of.
  rewrite (of_to_text _ _ Ht). split_and!; [by apply container_name_of|apply Hn|].
  destruct Hn as [_ Hv]. unfold validate_name in Hv. destruct (_ || _); [done|]. by destruct (is_reserved n).
Qed.

(** A pass of the automaton queues nothing but what a policy allows: a restart of a container seen down,
    at least ten minutes after the last one asked for, or an update that is available, inside a
    maintenance window when the policy says so, at least six hours after the last one; never while a
    command waits or runs for this container, nor for a machine whose agent runs no commands. *)
Theorem automaton_stays_within_its_policies calls e now clock :
  let d := serve_all calls Tables_new in
  exists new, commands (run_once e now clock d).1 = commands d ++ new /\ (run_once e now clock d).2 = length new /\
    forall c, c ∈ new -> exists n p, policies d !! (c_target c, n) = Some p /\
                               allowed e now clock d (c_target c) n p c.
Proof using Type*.
  intros d. destruct (serve_all_ok calls Tables_new wf_Tables_new) as [Hw _]. fold d in Hw.
  destruct (run_once_adds e now clock d Hw) as (_ & _ & new & Hc & Hl & Hf). exists new. split_and!; [done|done|].
  intros c Hin. rewrite Forall_forall in Hf. destruct (Hf c Hin) as (n & p & Hp & Ha). exists n, p.
  split; [|done]. by apply list_elem_of_filter in Hp as [_ Hp%elem_of_map_to_list].
Qed.

(** C40. A command an agent took and never reported stays running for ever: nothing but its report moves it, and
    until then every new command of this kind for this container is refused. *)
Theorem unreported_command_blocks_its_container calls more c n now args by_ :
  let d := serve_all calls Tables_new in
  let d' := serve_all more d in
  c ∈ commands d -> c_status c = CommandStatus.Running -> extract_name (c_args c) = Some n ->
  silent c more -> container_name args = Some n ->
  c ∈ commands d' /\ exists why, (enqueue now (c_target c) (c_kind c) args by_ d').2 = inl (CommandError.Conflict why).
Proof using Type*.
  intros d d' Hc Hr Hn Hs Ha. destruct (serve_all_ok calls Tables_new wf_Tables_new) as [Hw _]. fold d in Hw.
  pose proof (serve_all_keeps c Hr more d Hw Hs Hc) as Hk. fold d' in Hk. split; [done|].
  assert (has_pending (c_target c) (c_kind c) n d' = true) as Hpend.
  { apply existsb_elem. exists c. split; [done|]. unfold is_about. by rewrite Hr, Hn, Z.eqb_refl, !bool_decide_true. }
  unfold enqueue, gets, refuse_if, mbind, Handler_bind. rewrite Ha. change (Some n ?? "") with n.
  rewrite Hpend. by eexists.
Qed.
End claims.
End facts.

(** ** Witnesses *)

#[local] Existing Instance PlainJson.plain_json.
#[local] Existing Instance Gregorian.calendar.

Definition example_estate : Estate :=
  {| kind_of := fun _ => Some "agent"; commands_supported := fun _ => true;
     inventory := fun _ => [{["container" := "web"]}] |}.

Definition example_calls : list Call :=
  [Restart example_estate 1000 1 "web" "alice"; Fetch 1010 1;
   AgentReport 1011 1 1 {| status := CommandStatus.Running; result := "" |}].

Lemma example_command :
  exists c, commands (serve_all example_calls Tables_new) = [c] /\ c_status c = CommandStatus.Running /\
    c_target c = 1 /\ c_id c = 1 /\ c_kind c = CMD_CONTAINER_RESTART /\ extract_name (c_args c) = Some "web".
Proof. eexists. split; [vm_compute; reflexivity|]. vm_compute. split_and!; reflexivity. Qed.

Lemma commands_are_neither_doubled_nor_reopened_witness :
  StronglySorted Z.lt (c_id <$> commands (serve_all example_calls Tables_new)).
Proof. apply (commands_are_neither_doubled_nor_reopened example_calls []). Defined.

Lemma monitor_never_touches_itself_witness :
  exists c n, c ∈ commands (serve_all example_calls Tables_new) /\ container_name (args_of c) = Some n.
Proof.
  destruct example_command as (c & Hc & _).
  assert (c ∈ commands (serve_all example_calls Tables_new)) as Hin by (rewrite Hc; by left).
  destruct (monitor_never_touches_itself example_calls c Hin) as (n & Hn & _). by exists c, n.
Defined.

(** A container seen down under a policy that restarts it. *)
Definition example_sight : Sight :=
  {| series := [(<["target" := "1"]> (<["container" := "web"]> {["__name__" := "dumbmonit_container_up"]}), f64_zero)];
     silences := []; supported := fun _ => true |}.
Definition example_policy : list Call :=
  [Policy example_estate 1 "web" {| p_auto_restart := Some true; p_auto_update := None;
                                    p_prune_old_image := None; p_only_in_maintenance := None |}].

Lemma one_restart :
  (run_once example_sight (td_seconds 5000) 5000 (serve_all example_policy Tables_new)).2 = 1%nat.
Proof. vm_compute. reflexivity. Qed.

Lemma automaton_stays_within_its_policies_witness :
  exists c n p, policies (serve_all example_policy Tables_new) !! (c_target c, n) = Some p /\
    allowed example_sight (td_seconds 5000) 5000 (serve_all example_policy Tables_new) (c_target c) n p c.
Proof.
  destruct (automaton_stays_within_its_policies example_policy example_sight (td_seconds 5000) 5000)
    as (new & _ & Hl & Hall).
  rewrite one_restart in Hl. destruct new as [|c new]; [discriminate Hl|].
  exists c. exact (Hall c (list_elem_of_here c new)).
Defined.

Lemma unreported_command_blocks_its_container_witness :
  exists c why, c ∈ commands (serve_all example_calls Tables_new) /\
    (enqueue 999999 (c_target c) (c_kind c) (object [("name", inl "web")]) "bob"
       (serve_all [Restart example_estate 5000 1 "web" "bob"; Fetch 100000 1] (serve_all example_calls Tables_new))).2
    = inl (CommandError.Conflict why).
Proof.
  destruct example_command as (c & Hc & Hr & _ & _ & _ & Hn).
  assert (c ∈ commands (serve_all example_calls Tables_new)) as Hin by (rewrite Hc; by left).
  destruct (unreported_command_blocks_its_container example_calls
              [Restart example_estate 5000 1 "web" "bob"; Fetch 100000 1] c "web" 999999
              (object [("name", inl "web")]) "bob" Hin Hr Hn) as [_ [why Hw]].
  - intros x Hx. apply elem_of_cons in Hx as [->|Hx]; [done|]. by apply list_elem_of_singleton in Hx as ->.
  - reflexivity.
  - by exists c, why.
Defined.

(** The two statements of a report are apart: a cancellation between them is overwritten, and a closed
    command runs again. *)
Theorem crossing_report_reopens_a_cancelled_command :
  let d := serve_all [Restart example_estate 1000 1 "web" "alice"] Tables_new in
  let d1 := (cancel 1001 1 1 "alice" d).1 in
  status_of 1 1 d = Some CommandStatus.Queued /\ (cancel 1001 1 1 "alice" d).2 = inr tt /\
  status_of 1 1 d1 = Some CommandStatus.Cancelled /\
  status_of 1 1 (report_write 1002 1 {| status := CommandStatus.Running; result := "" |} d1) = Some CommandStatus.Running.
Proof. vm_compute. split_and!; reflexivity. Qed.
