(* ===== verification/Agent.v ===== *)
(** * The agent (crate [agent]: [buffer.rs], [backoff.rs], [client.rs], [run.rs], [commands.rs])

    The buffer of the measures not yet sent, the loop that fills and empties it, and the commands
    of the server.  What the agent measures and what the container engine does are arguments. *)
From Stdlib Require Import Ascii.
From Stdlib Require String.
From S2P Require Import Prelude Text Float64 Chrono Wire.

(** ** The buffer ([buffer.rs]) *)

Record PendingBuffer := { b_samples : list Sample; capacity : nat; dropped : Z }.

Definition PendingBuffer_new (capacity : nat) : PendingBuffer :=
  {| b_samples := []; capacity := Nat.max capacity 1; dropped := 0 |}.

Definition set_samples (s : list Sample) (b : PendingBuffer) : PendingBuffer :=
  {| b_samples := s; capacity := capacity b; dropped := dropped b |}.

Definition enforce_capacity (b : PendingBuffer) : PendingBuffer :=
  if (length (b_samples b) <=? capacity b)%nat then b
  else
    let excess := (length (b_samples b) - capacity b)%nat in
    {| b_samples := drop excess (b_samples b); capacity := capacity b;
       dropped := u64_saturating_add (dropped b) (Z.of_nat excess) |}.

Definition push (samples : list Sample) (b : PendingBuffer) : PendingBuffer :=
  enforce_capacity (set_samples (b_samples b ++ samples) b).

Definition take_ (max : nat) (b : PendingBuffer) : list Sample * PendingBuffer :=
  let count := Nat.min max (length (b_samples b)) in
  (take count (b_samples b), set_samples (drop count (b_samples b)) b).

Definition push_front (s : list Sample) (x : Sample) : list Sample := x :: s.
Definition restore (samples : list Sample) (b : PendingBuffer) : PendingBuffer :=
  enforce_capacity (set_samples (foldl push_front (b_samples b) (reverse samples)) b).

(** ** Delays ([backoff.rs]) *)

Definition MAX_DOUBLINGS : Z := 20.

Record Backoff := { base : Duration; max_ : Duration; attempt : Z; rng : Z }.

Definition with_seed (base max : Duration) (seed : Z) : Backoff :=
  {| base := base; max_ := max; attempt := 0; rng := Z.lor seed 1 |}.

Definition reset (b : Backoff) : Backoff := {| base := base b; max_ := max_ b; attempt := 0; rng := rng b |}.

(** The generator of 64 bits. *)
Definition next_rng (r : Z) : Z := u64_wrap (u64_wrap (r * 6364136223846793005) + 1442695040888963407).

(** [Duration::MAX]: 2^64 - 1 seconds and 999 999 999 nanoseconds. *)
Definition duration_max : Duration := 2 ^ 64 * ns_per_s - 1.

(** The delay before its random part. *)
Definition capped (b : Backoff) : Duration :=
  let doublings := Z.min (attempt b) MAX_DOUBLINGS in
  let raw := Z.min (base b * Z.shiftl 1 doublings) duration_max in
  Z.min raw (max_ b).

(** [Duration::as_secs_f64] and [Duration::from_secs_f64], which rounds to the nearest nanosecond, ties to
    even; it panics on a value that is negative or not a number, which is 0 here. *)
Definition as_secs_f64 (d : Duration) : f64 :=
  f64_add (f64_of_Z (d / ns_per_s)) (f64_div (f64_of_Z (d mod ns_per_s)) (f64_of_Z ns_per_s)).

Definition round_half_even (n d : Z) : Z :=
  let '(q, r) := (n / d, n mod d) in
  if (2 * r <? d) || ((2 * r =? d) && Z.even q) then q else q + 1.

Definition from_secs_f64 (secs : f64) : Duration :=
  match secs with
  | SpecFloat.S754_finite false m e => round_half_even (Z.pos m * ns_per_s * 2 ^ Z.max 0 e) (2 ^ Z.max 0 (- e))
  | _ => 0
  end.

(** [JITTER_RATIO], a number of [0, 1), and the fraction it takes from a delay. *)
Definition JITTER_RATIO : f64 := f64_div (f64_of_Z 1) (f64_of_Z 5).
Definition next_unit (r : Z) : f64 := f64_div (f64_of_Z (Z.shiftr r 11)) (f64_of_Z (Z.shiftl 1 53)).
Definition apply_jitter (r : Z) (delay : Duration) : Duration :=
  let factor := f64_sub f64_one (f64_mul JITTER_RATIO (next_unit r)) in
  from_secs_f64 (f64_mul factor (as_secs_f64 delay)).

Definition next_delay (b : Backoff) : Duration * Backoff :=
  let r := next_rng (rng b) in
  (apply_jitter r (capped b),
   {| base := base b; max_ := max_ b; attempt := u32_saturating_add (attempt b) 1; rng := r |}).

(** ** Answers of the server ([client.rs]) *)

Module PushError.
Inductive PushError :=
| Transport (detail : string)
| Unauthorized
| Forbidden (message : string)
| Rejected (status : Z) (message : string).

Definition is_retryable (e : PushError) : bool := match e with Rejected _ _ => false | _ => true end.
End PushError.
Notation PushError := PushError.PushError.

Record PushAck := {
  ack_target : Z;
  accepted : Z;
  interval_secs : Z;
  registered : bool;
  agent_secret : option string;
  bound : bool;
}.

(** [rejection]: what an error status means. *)
Definition rejection (status : Z) (message : string) : PushError :=
  if status =? 401 then PushError.Unauthorized
  else if status =? 403 then PushError.Forbidden message
  else if (status =? 408) || (status =? 429) || ((500 <=? status) && (status <=? 599))
  then PushError.Transport ("HTTP " +:+ display_i64 status +:+ ": " +:+ message)%string
  else PushError.Rejected status message.

(** [send]: no answer, or a status with its body, that is the message of an error or the reading of the
    acknowledgement. *)
Inductive Response := NoAnswer (detail : string) | Answer (status : Z) (message : string) (ack : string + PushAck).

Definition send (r : Response) : PushError + PushAck :=
  match r with
  | NoAnswer detail => inl (PushError.Transport detail)
  | Answer status message ack =>
      if (200 <=? status) && (status <=? 299) then
        match ack with
        | inr ack => inr ack
        | inl error => inl (PushError.Transport ("unreadable response: " +:+ error)%string)
        end
      else inl (rejection status message)
  end.

(** ** The loop ([run.rs]) *)

Definition MAX_BATCH_SAMPLES : nat := Z.to_nat 10000.
Definition MIN_INTERVAL_SECS : Z := 5.
Definition BACKOFF_BASE : Duration := td_seconds 5.
Definition BACKOFF_MAX : Duration := td_seconds 300.

Record Agent := {
  buffer : PendingBuffer;
  backoff : Backoff;
  interval : Duration;
  (** The binding secret, on the disk and in the client. *)
  secret : option string;
  binding_refused : bool;
}.

Definition set_buffer (b : PendingBuffer) (a : Agent) : Agent :=
  {| buffer := b; backoff := backoff a; interval := interval a; secret := secret a;
     binding_refused := binding_refused a |}.

Module FlushOutcome.
Inductive FlushOutcome := Idle | Sent (count : nat) | Failed (error : PushError).
End FlushOutcome.
Notation FlushOutcome := FlushOutcome.FlushOutcome.

Definition adopt_binding (issued : option string) (a : Agent) : Agent :=
  match issued with
  | Some s => {| buffer := buffer a; backoff := backoff a; interval := interval a; secret := Some s;
                 binding_refused := binding_refused a |}
  | None => a
  end.

Definition adopt_interval (wanted_secs : Z) (a : Agent) : Agent :=
  {| buffer := buffer a; backoff := backoff a; interval := td_seconds (Z.max wanted_secs MIN_INTERVAL_SECS);
     secret := secret a; binding_refused := binding_refused a |}.

Definition on_binding_refused (a : Agent) : Agent :=
  {| buffer := buffer a; backoff := backoff a; interval := interval a; secret := None; binding_refused := true |}.

(** What the server answers may depend on the batch. *)
Definition flush (server : list Sample -> Response) (a : Agent) : FlushOutcome * Agent :=
  let '(samples, b) := take_ MAX_BATCH_SAMPLES (buffer a) in
  let a := set_buffer b a in
  if bool_decide (samples = []) then (FlushOutcome.Idle, a)
  else
    match send (server samples) with
    | inr ack =>
        let a := {| buffer := buffer a; backoff := reset (backoff a); interval := interval a;
                    secret := secret a; binding_refused := false |} in
        let a := adopt_binding (agent_secret ack) a in
        (FlushOutcome.Sent (length samples), adopt_interval (interval_secs ack) a)
    | inl (PushError.Forbidden message) =>
        let a := set_buffer (restore samples (buffer a)) a in
        (FlushOutcome.Failed (PushError.Forbidden message), on_binding_refused a)
    | inl error =>
        if PushError.is_retryable error
        then (FlushOutcome.Failed error, set_buffer (restore samples (buffer a)) a)
        else (FlushOutcome.Sent (length samples), a)
    end.

Record Loop := { agent : Agent; next_collect : Z; next_send : Z }.

(** A turn of the [select!] at instant [now]: a collection that yields [samples] when it is due, else an
    attempt to send when one is due and there is something to send. *)
Record Tick := { now : Z; measured : list Sample; server : list Sample -> Response }.

Definition loop_turn (t : Tick) (l : Loop) : Loop :=
  if next_collect l <=? now t then
    let a := set_buffer (push (measured t) (buffer (agent l))) (agent l) in
    {| agent := a; next_collect := now t + interval a; next_send := next_send l |}
  else if (next_send l <=? now t) && negb (bool_decide (b_samples (buffer (agent l)) = [])) then
    match flush (server t) (agent l) with
    | (FlushOutcome.Failed _, a) =>
        let '(d, b) := next_delay (backoff a) in
        {| agent := {| buffer := buffer a; backoff := b; interval := interval a; secret := secret a;
                       binding_refused := binding_refused a |};
           next_collect := next_collect l; next_send := now t + d |}
    | (_, a) => {| agent := a; next_collect := next_collect l; next_send := now t |}
    end
  else l.

Definition loop_turns (ts : list Tick) (l : Loop) : Loop := foldl (fun l t => loop_turn t l) l ts.

(** [--once]: a collection and an attempt; [None] is [Ok(())]. *)
Definition run_once (samples : list Sample) (server : list Sample -> Response) (a : Agent)
  : option PushError * Agent :=
  let a := set_buffer (push samples (buffer a)) a in
  match flush server a with
  | (FlushOutcome.Failed error, a) => (Some error, a)
  | (_, a) => (None, a)
  end.

(** ** Commands of the server ([commands.rs]) *)

Definition RESULT_MAX_BYTES : nat := COMMAND_RESULT_MAX_BYTES.
Definition RESERVED_PREFIXES : list string := ["dumbmonit"; "ezymonit"].

Fixpoint trim_slashes (s : string) : string :=
  match s with
  | String c rest => if bool_decide (c = "/"%char) then trim_slashes rest else s
  | EmptyString => ""
  end.

Definition is_reserved (name : string) : bool :=
  let lower := to_ascii_lowercase (trim_slashes name) in
  existsb (fun prefix => starts_with prefix lower) RESERVED_PREFIXES.

Definition quoted (s : string) : string := ("'" +:+ s +:+ "'")%string.

Definition refuse_reserved (name : string) : string + () :=
  if is_reserved name
  then inl (quoted name +:+ " belongs to the monitoring stack and cannot be managed remotely")%string
  else inr tt.

Definition name_char (c : ascii) : bool :=
  is_ascii_alphanumeric c || bool_decide (c = "_"%char) || bool_decide (c = "."%char) || bool_decide (c = "-"%char).

Definition validate_name (name : string) : string + () :=
  let valid_first := match name with String c _ => is_ascii_alphanumeric c | EmptyString => false end in
  let valid_rest := match name with String _ rest => string_forall name_char rest | EmptyString => true end in
  if negb valid_first || negb valid_rest || (128 <? Z.of_nat (String.length name))
  then inl ("invalid container name " +:+ quoted name)%string
  else refuse_reserved name.

Module Action.
Inductive Action := Restart (name : string) | Update (name : string) (prune : bool).

Definition name (a : Action) : string := match a with Restart name | Update name _ => name end.
End Action.
Notation Action := Action.Action.

(** The journal of an execution, kept by its end behind an ellipsis. *)
Definition ellipsis : string := String "226"%char (String "128"%char (String "166"%char "")).

Fixpoint join (sep : string) (lines : list string) : string :=
  match lines with
  | [] => ""
  | [line] => line
  | line :: lines => (line +:+ sep +:+ join sep lines)%string
  end.

Definition excerpt (lines : list string) : string :=
  let text := join (String "010"%char "") lines in
  if (String.length text <=? RESULT_MAX_BYTES)%nat then text
  else (ellipsis +:+ to_boundary (skip_bytes (String.length text - RESULT_MAX_BYTES + 1) text))%string.

Section runner.
Context `{Json}.

(** What an action does to the containers: the lines of its journal, and an error. *)
Variable docker : Action -> list string * option string.

Definition from_command (c : AgentCommand) : string + Action :=
  match arg_str c "name" with
  | None => inl "missing container name"
  | Some name =>
      match validate_name name with
      | inl why => inl why
      | inr _ =>
          if bool_decide (cmd_kind c = CMD_CONTAINER_RESTART) then inr (Action.Restart name)
          else if bool_decide (cmd_kind c = CMD_CONTAINER_UPDATE) then
            inr (Action.Update name (arg_bool c "prune" ?? true))
          else inl ("unknown command kind " +:+ quoted (cmd_kind c))%string
      end
  end.

(** A report sent about a command, whether or not it arrives; and the action carried out. *)
Definition sent (id : Z) (s : CommandStatus) (text : string) : Z * CommandReport :=
  (id, {| status := s; result := text |}).

Definition execute (c : AgentCommand) : list (Z * CommandReport) * option Action :=
  match from_command c with
  | inl error => ([sent (cmd_id c) CommandStatus.Failed error], None)
  | inr action =>
      let '(lines, outcome) := docker action in
      let '(lines, s) := match outcome with
                         | None => (lines, CommandStatus.Done)
                         | Some error => (lines ++ [("error: " +:+ error)%string], CommandStatus.Failed)
                         end in
      ([sent (cmd_id c) CommandStatus.Running ""; sent (cmd_id c) s (excerpt lines)], Some action)
  end.

(** The [for] of [poll] over what the server handed: the expired ones are reported, the first other is
    executed. *)
Fixpoint poll_commands (now_ms : Z) (commands : list AgentCommand) : list (Z * CommandReport) * option Action :=
  match commands with
  | [] => ([], None)
  | c :: commands =>
      if is_expired c now_ms then
        let '(reports, action) := poll_commands now_ms commands in
        (sent (cmd_id c) CommandStatus.Failed "command expired (older than 10 min)" :: reports, action)
      else execute c
  end.

Definition poll (enabled busy : bool) (fetched : PushError + list AgentCommand) (now_ms : Z)
  : list (Z * CommandReport) * option Action :=
  if negb enabled || busy then ([], None)
  else match fetched with
       | inl _ => ([], None)
       | inr commands => poll_commands now_ms commands
       end.
End runner.
