(* ===== verification/AgentFacts.v ===== *)
(** * What the agent guarantees

    Claims about [Agent.v], and about the channel of commands from the route of the interface to the
    container engine ([Commands.v]). *)
From Stdlib Require Import Ascii.
From Stdlib Require String.
From stdpp Require Import sorting.
From S2P Require Import Prelude Text Float64 Chrono Wire Silence Handler Commands CommandFacts Agent.

(** ** Measures *)

Inductive Fate := Delivered | Refused | Evicted.

(** What becomes of measures at a turn of the loop: those an overflow drives out, those the server
    acknowledges, those it refuses for good. *)
Definition fate (t : Tick) (l : Loop) : list (Fate * list Sample) :=
  let b := buffer (agent l) in
  if next_collect l <=? now t then
    let all := b_samples b ++ measured t in [(Evicted, take (length all - capacity b) all)]
  else if (next_send l <=? now t) && negb (bool_decide (b_samples b = [])) then
    let batch := take MAX_BATCH_SAMPLES (b_samples b) in
    match send (server t batch) with
    | inr _ => [(Delivered, batch)]
    | inl (PushError.Rejected _ _) => [(Refused, batch)]
    | inl _ => []
    end
  else [].

Definition gathered (t : Tick) (l : Loop) : list Sample := if next_collect l <=? now t then measured t else [].

Section measures.

Fixpoint fates (ts : list Tick) (l : Loop) : list (Fate * list Sample) :=
  match ts with [] => [] | t :: ts => fate t l ++ fates ts (loop_turn t l) end.
Fixpoint all_gathered (ts : list Tick) (l : Loop) : list Sample :=
  match ts with [] => [] | t :: ts => gathered t l ++ all_gathered ts (loop_turn t l) end.

Definition evicted (f : Fate * list Sample) : bool := match f.1 with Evicted => true | _ => false end.
Definition count (fs : list (Fate * list Sample)) : Z :=
  foldr (fun f n => (if evicted f then Z.of_nat (length f.2) else 0) + n) 0 fs.

Lemma restore_take b n :
  (length (b_samples b) <= capacity b)%nat -> restore (take_ n b).1 (take_ n b).2 = b.
Proof.
  intros Hb. unfold take_, restore. simpl.
  assert (forall s x : list Sample, foldl push_front s (reverse x) = x ++ s) as Hf.
  { intros s x. induction x as [|y x IH]; [done|]. rewrite reverse_cons, foldl_app, IH. done. }
  rewrite Hf, take_drop. unfold enforce_capacity, set_samples. simpl.
  apply Nat.leb_le in Hb. rewrite Hb. by destruct b.
Qed.

Definition buffered (l : Loop) : list Sample := b_samples (buffer (agent l)).
Definition bounded (l : Loop) : Prop := (length (buffered l) <= capacity (buffer (agent l)))%nat.

Lemma take_spec n b : take_ n b = (take n (b_samples b), set_samples (drop n (b_samples b)) b).
Proof.
  unfold take_. destruct (Nat.min_spec n (length (b_samples b))) as [[_ ->]|[Hn ->]]; [done|].
  by rewrite firstn_all, drop_all, take_ge, drop_ge.
Qed.

(** What an attempt does to the buffer. *)
Lemma flush_buffer server a :
  (length (b_samples (buffer a)) <= capacity (buffer a))%nat -> b_samples (buffer a) <> [] ->
  let batch := take MAX_BATCH_SAMPLES (b_samples (buffer a)) in
  buffer (flush server a).2 =
    match send (server batch) with
    | inr _ | inl (PushError.Rejected _ _) => set_samples (drop MAX_BATCH_SAMPLES (b_samples (buffer a))) (buffer a)
    | inl _ => buffer a
    end.
Proof.
  intros Hb Hne. unfold flush. pose proof (restore_take _ MAX_BATCH_SAMPLES Hb) as Hr.
  rewrite take_spec in Hr |- *. cbn [fst snd] in Hr. rewrite bool_decide_false.
  - destruct (send _) as [[| | |]|ack]; simpl; try exact Hr; [done|]. by destruct (agent_secret ack).
  - intros E. apply Hne. destruct (b_samples (buffer a)) as [|x s]; [done|].
    assert (MAX_BATCH_SAMPLES = S (pred MAX_BATCH_SAMPLES)) as Hm by (vm_compute; done). by rewrite Hm in E.
Qed.

Lemma send_due_buffer t l :
  next_collect l <=? now t = false -> (next_send l <=? now t) && negb (bool_decide (buffered l = [])) = true ->
  buffer (agent (loop_turn t l)) = buffer (flush (server t) (agent l)).2.
Proof.
  intros Hc Hs. unfold loop_turn. unfold buffered in Hs. rewrite Hc, Hs.
  by destruct (flush (server t) (agent l)) as [[| |] a].
Qed.

Definition u64_max : Z := 2 ^ 64 - 1.

(** What a turn keeps, and where measures go. *)
Definition conserves (gathered : list Sample) (fs : list (Fate * list Sample)) (l l' : Loop) : Prop :=
  bounded l' /\ capacity (buffer (agent l')) = capacity (buffer (agent l)) /\
  buffered l ++ gathered = concat fs.*2 ++ buffered l' /\
  dropped (buffer (agent l')) = Z.min (dropped (buffer (agent l)) + count fs) u64_max.

Lemma push_conserves samples b :
  dropped b <= u64_max ->
  let n := (length (b_samples b ++ samples) - capacity b)%nat in
  let b' := push samples b in
  capacity b' = capacity b /\ b_samples b' = drop n (b_samples b ++ samples) /\
  (length (b_samples b') <= capacity b)%nat /\
  dropped b' = Z.min (dropped b + Z.of_nat (length (take n (b_samples b ++ samples)))) u64_max.
Proof.
  intros Hd n b'. unfold b', push, enforce_capacity. cbn [b_samples capacity dropped set_samples].
  destruct (_ <=? _)%nat eqn:E; [apply Nat.leb_le in E|apply Nat.leb_gt in E]; cbn [b_samples capacity dropped set_samples].
  - replace n with 0%nat by lia. rewrite drop_0, take_0. simpl. split_and!; [done|done|done|lia].
  - fold n. split_and!; [done|done|rewrite length_drop; lia|]. unfold u64_saturating_add. fold u64_max.
    rewrite length_take. f_equal. lia.
Qed.

Lemma turn_conserves t l :
  bounded l -> dropped (buffer (agent l)) <= u64_max ->
  conserves (gathered t l) (fate t l) l (loop_turn t l).
Proof.
  intros Hb Hd. unfold conserves, gathered, fate. destruct (next_collect l <=? now t) eqn:Hc.
  - destruct (push_conserves (measured t) _ Hd) as (H1 & H2 & H3 & H4).
    assert (buffer (agent (loop_turn t l)) = push (measured t) (buffer (agent l))) as E.
    { unfold loop_turn. by rewrite Hc. }
    unfold bounded, buffered. rewrite E, H1, H2 by done. split_and!; [by rewrite H2 in H3|done| |].
    + simpl. by rewrite app_nil_r, take_drop.
    + rewrite H4. unfold count, evicted. simpl. by rewrite Z.add_0_r.
  - rewrite app_nil_r. destruct ((next_send l <=? now t) && _) eqn:Hs.
    + assert (b_samples (buffer (agent l)) <> []) as Hne.
      { apply andb_true_iff in Hs as [_ Hs]. by apply negb_true_iff, bool_decide_eq_false in Hs. }
      unfold bounded, buffered. rewrite (send_due_buffer t l Hc Hs), flush_buffer by done.
      unfold bounded, buffered in Hb.
      destruct (send _) as [[| | |]|ack]; simpl; unfold count, evicted; simpl; rewrite ?app_nil_r, ?take_drop;
        split_and!; try done; try rewrite length_drop; lia.
    + assert (loop_turn t l = l) as ->.
      { unfold loop_turn. unfold buffered in Hs. by rewrite Hc, Hs. }
      split_and!; [done|done|done|]. unfold count. simpl. lia.
Qed.

Lemma count_nonneg fs : 0 <= count fs.
Proof. unfold count. induction fs as [|f fs IH]; simpl; [lia|]. destruct (evicted f); lia. Qed.
Lemma count_app fs gs : count (fs ++ gs) = count fs + count gs.
Proof. unfold count. induction fs as [|f fs IH]; simpl; [lia|]. destruct (evicted f); lia. Qed.

Lemma turns_conserve ts l :
  bounded l -> 0 <= dropped (buffer (agent l)) <= u64_max ->
  conserves (all_gathered ts l) (fates ts l) l (loop_turns ts l).
Proof.
  unfold loop_turns. revert l. induction ts as [|t ts IH]; intros l Hb Hd; cbn [foldl all_gathered fates].
  { unfold conserves, count. simpl. rewrite app_nil_r. split_and!; [done|done|done|lia]. }
  destruct (turn_conserves t l Hb) as (H1 & H2 & H3 & H4); [lia|]. pose proof (count_nonneg (fate t l)).
  destruct (IH (loop_turn t l) H1) as (G1 & G2 & G3 & G4); [unfold u64_max in *; lia|].
  pose proof (count_nonneg (fates ts (loop_turn t l))).
  split_and!; [done|congruence| |].
  - by rewrite app_assoc, H3, <-app_assoc, G3, fmap_app, concat_app, app_assoc.
  - rewrite G4, H4, count_app. lia.
Qed.

(** A freshly started agent. *)
Definition started (cap : nat) (a : Agent) : Agent := set_buffer (PendingBuffer_new cap) a.

(** C10. Nothing measured is lost in silence, sent twice once acknowledged, or reordered: at any point of the
    agent's life, what was measured so far is, in order, what the server acknowledged, what it refused
    for good, what the full buffer drove out, which its counter of losses tells, and what is still
    buffered, never more than the capacity. *)
Theorem no_measure_vanishes cap a ts c s :
  let l := {| agent := started cap a; next_collect := c; next_send := s |} in
  let l' := loop_turns ts l in
  all_gathered ts l = concat (fates ts l).*2 ++ buffered l' /\
  (length (buffered l') <= Nat.max cap 1)%nat /\
  dropped (buffer (agent l')) = Z.min (count (fates ts l)) u64_max.
Proof.
  intros l l'. destruct (turns_conserve ts l) as (H1 & H2 & H3 & H4).
  - unfold bounded. simpl. lia.
  - unfold u64_max. simpl. lia.
  - fold l' in H1, H2, H3, H4. split_and!; [done| |done]. unfold bounded in H1. by rewrite H2 in H1.
Qed.

(** An unreachable server costs nothing but the wait: a failed attempt leaves the buffer as it was. *)
Lemma failed_attempt_keeps_the_buffer server a e :
  (length (b_samples (buffer a)) <= capacity (buffer a))%nat ->
  (flush server a).1 = FlushOutcome.Failed e -> buffer (flush server a).2 = buffer a.
Proof.
  intros Hb Hf. destruct (decide (b_samples (buffer a) = [])) as [E|Hne].
  - exfalso. revert Hf. unfold flush, take_. rewrite E. cbn [length]. by rewrite Nat.min_0_r.
  - rewrite flush_buffer by done. revert Hf. unfold flush. rewrite take_spec.
    case_bool_decide; [done|]. by destruct (send _) as [[| | |]|ack].
Qed.

(** ** Delays *)

Lemma delay_doubles b n :
  0 <= base b -> max_ b <= duration_max -> 0 <= n -> max_ b <= base b * 2 ^ MAX_DOUBLINGS ->
  attempt b = n -> capped b = Z.min (base b * 2 ^ n) (max_ b).
Proof.
  intros Hb Hd Hn Hm <-. unfold capped. rewrite Z.shiftl_1_l. unfold MAX_DOUBLINGS in *.
  destruct (Z.le_ge_cases (attempt b) 20) as [Hl|Hl].
  - rewrite (Z.min_l (attempt b)) by done. lia.
  - rewrite (Z.min_r (attempt b)) by done.
    assert (2 ^ 20 <= 2 ^ attempt b) by (apply Z.pow_le_mono_r; lia).
    assert (base b * 2 ^ 20 <= base b * 2 ^ attempt b) by nia. lia.
Qed.
End measures.

(** ** Names of containers *)

Lemma trim_name s : string_forall name_char s = true -> trim s = s.
Proof.
  intros Hs. apply trim_graphic. revert Hs. apply string_forall_impl. intros c Hc.
  destruct c as [[] [] [] [] [] [] [] []]; vm_compute in Hc |- *; (discriminate || reflexivity).
Qed.

Lemma alphanumeric_name_char c : is_ascii_alphanumeric c = true -> name_char c = true.
Proof. unfold name_char. by intros ->. Qed.

Lemma server_name n :
  Commands.validate_name n = None ->
  validate_name n = inr tt /\ n <> "" /\ trim n = n.
Proof.
  unfold Commands.validate_name. destruct (_ || _ || _ || _) eqn:E; [done|].
  apply orb_false_iff in E as [E Hr]. apply orb_false_iff in E as [E Hf]. apply orb_false_iff in E as [He Hl].
  destruct (Commands.is_reserved n) eqn:Hres; [done|]. intros _. apply bool_decide_eq_false in He.
  destruct n as [|c rest]; [done|]. apply negb_false_iff in Hf, Hr.
  assert (is_reserved (String c rest) = Commands.is_reserved (String c rest)) as Hsame.
  { unfold is_reserved, Commands.is_reserved. f_equal. f_equal. cbn [trim_slashes].
    rewrite bool_decide_false; [done|]. intros ->. done. }
  split_and!; [|done|].
  - unfold validate_name, refuse_reserved. rewrite Hf, Hsame, Hres, Hl.
    change (string_forall name_char rest) with (string_forall Commands.name_char rest). by rewrite Hr.
  - apply trim_name. simpl. rewrite alphanumeric_name_char by done. exact Hr.
Qed.

(** ** Commands *)

Section commands.
Context {J : Json}.
Variable docker : Action -> list string * option string.

(** The agent touches a container only on a command that is not too old, whose arguments give it a valid
    name outside the monitor's own, whatever the server says, and only when actions are enabled and none
    is running. *)
Theorem agent_never_touches_the_monitor enabled busy fetched now_ms a :
  (poll docker enabled busy fetched now_ms).2 = Some a ->
  enabled = true /\ busy = false /\ validate_name (Action.name a) = inr tt /\
  is_reserved (Action.name a) = false /\
  exists commands c, fetched = inr commands /\ c ∈ commands /\ Wire.is_expired c now_ms = false /\
                     from_command c = inr a.
Proof.
  unfold poll. destruct enabled, busy; try done. simpl. destruct fetched as [e|commands]; [done|]. intros Hp.
  assert (exists c, c ∈ commands /\ Wire.is_expired c now_ms = false /\ from_command c = inr a) as (c & Hc & He & Hf).
  { induction commands as [|c commands IH]; [done|]. simpl in Hp. destruct (Wire.is_expired c now_ms) eqn:E.
    - destruct (poll_commands docker now_ms commands) as [rs act]. simpl in *. destruct (IH Hp) as (c' & ? & ? & ?).
      exists c'. split_and!; [by right|done..].
    - exists c. split_and!; [by left|done|]. unfold execute in Hp. destruct (from_command c) as [|act]; [done|].
      destruct (docker act) as [lines [err|]]; simpl in Hp; congruence. }
  split_and!; [done|done| | |by exists commands, c]; unfold from_command in Hf;
    destruct (arg_str c "name") as [name|]; try done; destruct (validate_name name) as [|[]] eqn:Ev; try done.
  - repeat (case_bool_decide; simplify_eq/=); done.
  - assert (Action.name a = name) as -> by (repeat (case_bool_decide; simplify_eq/=); done).
    unfold validate_name in Ev. destruct (_ || _); [done|]. unfold refuse_reserved in Ev. by destruct (is_reserved name).
Qed.

(** The excerpt of a journal may exceed the bound the protocol promises by two bytes. *)
Lemma excerpt_length lines : (String.length (excerpt lines) <= RESULT_MAX_BYTES + 2)%nat.
Proof.
  unfold excerpt. set (text := join _ lines). destruct (_ <=? _)%nat eqn:E; [apply Nat.leb_le in E; lia|].
  apply Nat.leb_gt in E.
  destruct (skip_bytes_spec (String.length text - RESULT_MAX_BYTES + 1) text) as (lost & Ht & Hl).
  { unfold RESULT_MAX_BYTES, COMMAND_RESULT_MAX_BYTES in *. lia. }
  destruct (to_boundary_spec (skip_bytes (String.length text - RESULT_MAX_BYTES + 1) text)) as (back & Hb & _).
  apply (f_equal String.length) in Ht, Hb. rewrite string_length_app in Ht, Hb |- *.
  assert (String.length ellipsis = 3%nat) as -> by done.
  unfold RESULT_MAX_BYTES, COMMAND_RESULT_MAX_BYTES in *. lia.
Qed.
End commands.

(** A long journal comes out two bytes above the bound, and the server cuts it again. *)
Theorem long_journal_is_cut_twice :
  let journal := [string_map (fun _ => "a"%char) (hex_digits 5000 0)] in
  String.length (excerpt journal) = (COMMAND_RESULT_MAX_BYTES + 2)%nat /\
  truncate_result (excerpt journal) <> excerpt journal.
Proof. split; [vm_compute; reflexivity|]. vm_compute. discriminate. Qed.

(** ** From the interface to the container *)

Section journey.
Context {J : Json} {L : JsonLaws J} {C : Calendar}.

Lemma restart_writes e now id name by_ d :
  wf d ->
  wp (restart e now id name by_)
     (fun c d' => wf d' /\ commands d' = commands d ++ [c] /\ c_target c = id /\ c_kind c = CMD_CONTAINER_RESTART /\
                  to_text (object [("name", inl name)]) = Some (c_args c) /\ c_status c = CommandStatus.Queued /\
                  c_created c = now /\ Commands.validate_name name = None)
     (fun _ _ => True) d.
Proof using Type*.
  intros Hw. unfold restart, agent_target, ensure_commands_supported, checked_known_name, checked_name.
  repeat hstep; try done. apply (wp_for_interface _ _ _ (fun _ => True)).
  assert (names (object [("name", inl name)]) name) as Hn.
  { by apply names_object; [|apply NoDup_singleton|]. }
  eapply (wp_mono _ _ _ (fun _ d' => d' = d)); [by apply (enqueue_command_ok _ _ _ _ _ name)| |done].
  intros c d' (? & _ & ? & _ & _ & ? & ? & ? & _ & ? & _ & ?). done.
Qed.

Lemma status_of_row c d : wf d -> c ∈ commands d -> status_of (c_target c) (c_id c) d = Some (c_status c).
Proof.
  intros Hw Hc. destruct (status_of (c_target c) (c_id c) d) as [s|] eqn:E.
  - apply status_of_Some in E as (c' & Hc' & Hid & _ & <-). f_equal. f_equal.
    by apply (sorted_ids_inj (commands d)); [apply Hw|..].
  - exfalso. unfold status_of in E. apply fmap_None in E. rewrite find_map_None in E. specialize (E c Hc).
    by rewrite !Z.eqb_refl in E.
Qed.

(** A report moves the row of its command. *)
Lemma report_moves c now r d :
  wf d -> c ∈ commands d -> CommandStatus.is_final (c_status c) = false ->
  exists c', c' ∈ commands (report now (c_target c) (c_id c) r d).1 /\ c_target c' = c_target c /\ c_id c' = c_id c /\
             c_status c' = status r /\ wf (report now (c_target c) (c_id c) r d).1.
Proof.
  intros Hw Hc Hf. pose proof (report_ok now (c_target c) (c_id c) r d Hw) as Hok. rewrite leaves_state in Hok.
  destruct Hok as [Hw' _]. unfold report, gets, mbind, Handler_bind in Hw' |- *.
  rewrite (status_of_row c d Hw Hc), Hf in Hw' |- *. cbn in Hw' |- *.
  set (f := if CommandStatus.is_final (status r) then _ else _) in *.
  exists (f c). split.
  { apply elem_of_update. exists c. unfold updated. by rewrite Z.eqb_refl. }
  unfold f. by destruct (CommandStatus.is_final (status r)).
Qed.

Definition receive (now target : Z) (d : Tables) (r : Z * CommandReport) : Tables :=
  (report now target r.1 r.2 d).1.

Lemma from_handed c name :
  to_text (object [("name", inl name)]) = Some (c_args c) -> Commands.validate_name name = None ->
  c_kind c = CMD_CONTAINER_RESTART -> from_command (handed c) = inr (Action.Restart name).
Proof using Type*.
  intros Ht Hv Hk. destruct (server_name name Hv) as (Hval & Hne & Htrim).
  assert (names (object [("name", inl name)]) name) as [Hg _].
  { by apply names_object; [|apply NoDup_singleton|]. }
  unfold from_command, arg_str, handed, args_of. cbn [cmd_args cmd_kind]. rewrite (of_to_text _ _ Ht).
  change (Some (object [("name", inl name)]) ?? Null) with (object [("name", inl name)]).
  rewrite Hg. cbn [fmap option_fmap option_map]. rewrite Htrim. unfold option_filter.
  rewrite bool_decide_false by done. cbn [negb]. rewrite Hval, Hk. by rewrite bool_decide_true.
Qed.

Lemma fetch_hands later id d c :
  c ∈ commands d -> c_target c = id -> c_status c = CommandStatus.Queued ->
  later <= c_created c + COMMAND_MAX_AGE_SECS ->
  exists cmds, (pending_for_target later id d).2 = inr cmds /\ handed c ∈ cmds /\
               c ∈ commands (pending_for_target later id d).1.
Proof.
  intros Hc Ht Hs Hl. unfold pending_for_target, act, gets, mbind, Handler_bind. cbn [fst snd].
  eexists. split; [done|].
  assert (c ∈ commands (expire_stale later (Some id) d).1) as Hin.
  { apply elem_of_update. exists c. split; [done|]. unfold updated, is_stale.
    assert (c_created c <? later - COMMAND_MAX_AGE_SECS = false) as -> by (apply Z.ltb_ge; lia).
    by rewrite andb_false_r. }
  split; [|done]. apply list_elem_of_fmap_2, list_elem_of_filter. by split.
Qed.

(** ** The queue of a device, round after round *)

(** The commands of a device that wait, and the numbers of those before [n]. *)
Definition waiting (id : Z) (d : Tables) : list CommandRecord :=
  filter (fun c => c_target c = id /\ c_status c = CommandStatus.Queued) (commands d).
Definition ahead (id n : Z) (d : Tables) : list Z :=
  c_id <$> filter (fun c => c_id c < n) (waiting id d).

Lemma waiting_sorted id d : wf d -> StronglySorted Z.lt (c_id <$> waiting id d).
Proof. intros Hw. apply sorted_fmap_filter, Hw. Qed.
Lemma ahead_elem id n d i :
  i ∈ ahead id n d <->
  exists c, c ∈ commands d /\ c_target c = id /\ c_status c = CommandStatus.Queued /\ c_id c = i /\ i < n.
Proof.
  unfold ahead, waiting. rewrite list_elem_of_fmap. setoid_rewrite list_elem_of_filter.
  setoid_rewrite list_elem_of_filter. naive_solver.
Qed.
Lemma filter_map_sublist {A} (P : A -> Prop) `{!forall x, base.Decision (P x)} (f : A -> A) (g : A -> Z) l :
  (forall x, g (f x) = g x) -> (forall x, x ∈ l -> P (f x) -> P x) ->
  g <$> filter P (f <$> l) `sublist_of` g <$> filter P l.
Proof.
  intros Hg. induction l as [|x l IH]; intros Hp; [done|]. rewrite fmap_cons, !filter_cons.
  assert (g <$> filter P (f <$> l) `sublist_of` g <$> filter P l) as Hl by (apply IH; intros y Hy; apply Hp; by right).
  destruct (decide (P (f x))) as [Hf|]; destruct (decide (P x)) as [Hx|Hx].
  - cbn. rewrite Hg. by apply sublist_skip.
  - destruct Hx. apply Hp; [by left|done].
  - cbn. by apply sublist_cons.
  - done.
Qed.
Lemma ahead_filter id n d :
  ahead id n d = c_id <$> filter (fun c => (c_target c = id /\ c_status c = CommandStatus.Queued) /\ c_id c < n) (commands d).
Proof. unfold ahead, waiting. rewrite list_filter_filter. f_equal. apply list_filter_iff. tauto. Qed.
Lemma ahead_update id n p f d :
  (forall c, c_id (f c) = c_id c /\ c_status (f c) <> CommandStatus.Queued) ->
  ahead id n (update_where p f d) `sublist_of` ahead id n d.
Proof.
  intros Hf. rewrite !ahead_filter. apply filter_map_sublist; intros c; destruct (p c); try done; [by destruct (Hf c)|].
  intros _ [[_ Hq] _]. by destruct (Hf c).
Qed.

Lemma receive_ok t id d r : wf d -> wf (receive t id d r).
Proof. intros Hw. pose proof (report_ok t id r.1 r.2 d Hw) as Ho. rewrite leaves_state in Ho. apply Ho. Qed.
Lemma receive_is t id d r :
  receive t id d r = if is_some_and (status_of id r.1 d) (fun s => negb (CommandStatus.is_final s))
                     then report_write t r.1 r.2 d else d.
Proof.
  unfold receive, report, gets, mbind, Handler_bind. destruct (status_of id r.1 d) as [s|]; [|done].
  by destruct (CommandStatus.is_final s) eqn:E; cbn; rewrite E.
Qed.
Lemma written_status t n r d c :
  c ∈ commands (report_write t n r d) -> c_id c = n -> c_status c = status r.
Proof.
  intros (c0 & _ & ->)%elem_of_update. unfold updated. destruct (c_id c0 =? n) eqn:E; [|bools; done].
  by destruct (CommandStatus.is_final (status r)).
Qed.
(** A report leaves the other commands, and takes its own out of the queue. *)
Lemma receive_other t id d r c : c ∈ commands d -> c_id c <> r.1 -> c ∈ commands (receive t id d r).
Proof.
  intros Hc Hn. rewrite receive_is. destruct (is_some_and _ _); [|done]. apply elem_of_update. exists c. split; [done|].
  unfold updated. by destruct (Z.eqb_spec (c_id c) r.1).
Qed.
Lemma receive_ahead t id n d r :
  status r.2 <> CommandStatus.Queued -> ahead id n (receive t id d r) `sublist_of` ahead id n d.
Proof.
  intros Hs. rewrite receive_is. destruct (is_some_and _ _); [|done]. apply ahead_update. intros c.
  by destruct (CommandStatus.is_final (status r.2)).
Qed.
Lemma receive_drops t id n d r :
  wf d -> status r.2 <> CommandStatus.Queued -> r.1 ∉ ahead id n (receive t id d r).
Proof.
  intros Hw Hs (c & Hc & Ht & Hq & Hi & _)%ahead_elem. rewrite receive_is in Hc.
  destruct (is_some_and _ _) eqn:E; [apply Hs; rewrite <-Hq; symmetry; by eapply written_status|].
  pose proof (status_of_row c d Hw Hc) as Hst. rewrite Ht, Hi in Hst. by rewrite Hst, Hq in E.
Qed.
Lemma receive_all_ahead t id n d rs :
  Forall (fun r => status r.2 <> CommandStatus.Queued) rs -> ahead id n (foldl (receive t id) d rs) `sublist_of` ahead id n d.
Proof.
  revert d. induction rs as [|r rs IH]; intros d Hr; [done|]. apply Forall_cons in Hr as [Hr Hrs]. cbn.
  etrans; [by apply IH|by apply receive_ahead].
Qed.
Lemma receive_all_other t id d rs c :
  wf d -> c ∈ commands d -> Forall (fun r => c_id c <> r.1) rs ->
  wf (foldl (receive t id) d rs) /\ c ∈ commands (foldl (receive t id) d rs).
Proof.
  revert d. induction rs as [|r rs IH]; intros d Hw Hc Hr; [done|]. apply Forall_cons in Hr as [Hr Hrs]. cbn.
  apply IH; [by apply receive_ok|by apply receive_other|done].
Qed.

(** The agent executes the first command that has not expired: this one, or one before it. *)
Lemma poll_front docker now_ms (B A : list CommandRecord) c :
  Wire.is_expired (handed c) now_ms = false ->
  let out := poll_commands docker now_ms (handed <$> B ++ c :: A) in
  (exists rs, out = (rs ++ (execute docker (handed c)).1, (execute docker (handed c)).2) /\
     Forall (fun r => r.1 ∈ c_id <$> B /\ status r.2 <> CommandStatus.Queued) rs) \/
  (exists r rs, out.1 = r :: rs /\
     Forall (fun r => r.1 ∈ c_id <$> B /\ status r.2 <> CommandStatus.Queued) (r :: rs)).
Proof.
  intros Hc. induction B as [|b B IH]; cbv zeta in *; rewrite ?fmap_app in *; cbn [fmap list_fmap app poll_commands].
  - left. exists []. rewrite Hc. by destruct (execute docker (handed c)).
  - destruct (Wire.is_expired (handed b) now_ms) eqn:Eb.
    + destruct (poll_commands _ _ _) as [reports action]. cbn [fst] in IH.
      assert (forall rs, Forall (fun r : Z * CommandReport => r.1 ∈ c_id <$> B /\ status r.2 <> CommandStatus.Queued) rs ->
        Forall (fun r : Z * CommandReport => r.1 ∈ c_id <$> b :: B /\ status r.2 <> CommandStatus.Queued) rs) as Hmore.
      { intros rs Hrs. eapply Forall_impl; [exact Hrs|]. intros r [Hr Hs]. split; [by right|done]. }
      assert (forall text, (sent (cmd_id (handed b)) CommandStatus.Failed text).1 ∈ c_id <$> b :: B) as Hb by (left).
      destruct IH as [(rs & E & Hrs)|(r & rs & E & Hrs)].
      * injection E as -> ->. left. eexists (_ :: rs). split; [done|]. constructor; [by split|by apply Hmore].
      * right. cbn [fst]. eexists _, reports. split; [done|]. constructor; [by split|]. rewrite E. by apply Hmore.
    + right. unfold execute. destruct (from_command (handed b)) as [error|action].
      * eexists _, []. split; [done|]. constructor; [|done]. split; [left|done].
      * destruct (docker action) as [lines [error|]]; eexists _, [_]; (split; [done|]);
          repeat constructor; try done; left.
Qed.

(** A round: the agent, enabled and idle, fetches its commands, executes one, and its reports arrive. *)
Definition round (docker : Action -> list string * option string) (id : Z) (d : Tables) (times : Z * Z * Z)
  : Tables * option Action :=
  let '(later, now_ms, t) := times in
  let '(d, fetched) := pending_for_target later id d in
  match fetched with
  | inl _ => (d, None)
  | inr cmds =>
      let '(reports, action) := poll docker true false (inr cmds) now_ms in
      (foldl (receive t id) d reports, action)
  end.
Definition rounds (docker : Action -> list string * option string) (id : Z) (times : list (Z * Z * Z)) (d : Tables)
  : Tables * list (option Action) :=
  foldl (fun st at_ => let '(d, action) := round docker id st.1 at_ in (d, st.2 ++ [action])) (d, []) times.

Definition closed_as (docker : Action -> list string * option string) (name : string) : CommandStatus :=
  match docker (Action.Restart name) with (_, None) => CommandStatus.Done | _ => CommandStatus.Failed end.

Lemma shorter {A} (l l' : list A) x : l `sublist_of` l' -> x ∈ l' -> x ∉ l -> (length l < length l')%nat.
Proof.
  intros Hs Hx Hn. destruct (decide (length l' <= length l)%nat) as [Hle|]; [|lia].
  by rewrite (submseteq_length_Permutation _ _ (sublist_submseteq _ _ Hs) Hle) in Hn.
Qed.

#[local] Existing Instance grows_preorder.
Lemma receive_all_grows t id d rs :
  wf d -> wf (foldl (receive t id) d rs) /\ grows d (foldl (receive t id) d rs).
Proof.
  revert d. induction rs as [|r rs IH]; intros d Hw; [by split; [|apply grows_rows]|].
  pose proof (report_ok t id r.1 r.2 d Hw) as Ho. rewrite leaves_state in Ho. destruct Ho as [Hw' Hg].
  destruct (IH _ Hw') as [Hw2 Hg2]. split; [done|]. by etrans.
Qed.
Lemma round_grows docker id d times : wf d -> let d' := (round docker id d times).1 in wf d' /\ grows d d'.
Proof.
  intros Hw. destruct times as [[later now_ms] t]. unfold round.
  pose proof (fetch_ok later id d Hw) as Ho. rewrite leaves_state in Ho.
  destruct (pending_for_target later id d) as [d2 [e|cmds]]; [done|]. destruct Ho as [Hw2 Hg2].
  destruct (poll _ _ _ _ _) as [reports action]. destruct (receive_all_grows t id d2 reports Hw2) as [Hw3 Hg3].
  split; [done|]. by etrans.
Qed.

(** A command that waits, accepted by the server as a restart of [name]. *)
Record restart_of (id now : Z) (name : string) (c : CommandRecord) : Prop := {
  rs_target : c_target c = id;
  rs_kind : c_kind c = CMD_CONTAINER_RESTART;
  rs_text : to_text (object [("name", inl name)]) = Some (c_args c);
  rs_queued : c_status c = CommandStatus.Queued;
  rs_created : c_created c = now;
  rs_valid : Commands.validate_name name = None;
}.

(** The two reports of an execution close the command. *)
Lemma executed_closes docker t id now name c d :
  wf d -> c ∈ commands d -> restart_of id now name c ->
  (execute docker (handed c)).2 = Some (Action.Restart name) /\
  status_of id (c_id c) (foldl (receive t id) d (execute docker (handed c)).1) = Some (closed_as docker name).
Proof using Type*.
  intros Hw Hc [Ht Hk Htext Hs Hcr Hv]. unfold execute, closed_as. rewrite (from_handed c name) by done.
  assert (forall text s, CommandStatus.is_final s = true ->
    status_of id (c_id c) (foldl (receive t id) d [sent (c_id c) CommandStatus.Running ""; sent (c_id c) s text]) = Some s) as Hclose.
  { intros text s _. cbn [foldl]. unfold receive at 2. unfold sent at 2. cbn [fst snd].
    destruct (report_moves c t {| status := CommandStatus.Running; result := "" |} d Hw Hc) as
      (c3 & Hc3 & Ht3 & Hid3 & Hs3 & Hw3); [by rewrite Hs|]. rewrite Ht in Hc3, Hw3.
    set (d3 := (report t id (c_id c) _ d).1) in *. unfold receive, sent. cbn [fst snd].
    destruct (report_moves c3 t {| status := s; result := text |} d3 Hw3 Hc3) as
      (c4 & Hc4 & Ht4 & Hid4 & Hs4 & Hw4); [by rewrite Hs3|]. rewrite Ht3, Hid3, Ht in Hc4, Hw4.
    pose proof (status_of_row c4 _ Hw4 Hc4) as Hst. rewrite Ht4, Ht3, Hid4, Hid3, Ht in Hst.
    exact (eq_trans Hst (f_equal Some Hs4)). }
  destruct (docker (Action.Restart name)) as [lines [error|]]; (split; [done|]); by apply Hclose.
Qed.

Lemma round_advances docker id now name c d later now_ms t :
  wf d -> c ∈ commands d -> restart_of id now name c ->
  later <= now + COMMAND_MAX_AGE_SECS -> now_ms <= (now + COMMAND_MAX_AGE_SECS) * 1000 ->
  let '(d', action) := round docker id d (later, now_ms, t) in
  (action = Some (Action.Restart name) /\ status_of id (c_id c) d' = Some (closed_as docker name)) \/
  (c ∈ commands d' /\ (length (ahead id (c_id c) d') < length (ahead id (c_id c) d))%nat).
Proof using Type*.
  intros Hw Hc Hre Hl Hms. pose proof Hre as [Ht Hk Htext Hs Hcr Hv]. unfold round.
  pose proof (fetch_ok later id d Hw) as Hw2. rewrite leaves_state in Hw2. destruct Hw2 as [Hw2 _].
  assert (pending_for_target later id d = ((expire_stale later (Some id) d).1, inr (handed <$> waiting id (expire_stale later (Some id) d).1))) as E
    by done.
  destruct (fetch_hands later id d c Hc Ht Hs) as (_ & _ & _ & Hc2); [lia|]. rewrite E in *. cbn [fst] in Hw2, Hc2.
  set (d2 := (expire_stale later (Some id) d).1) in *.
  assert (ahead id (c_id c) d2 `sublist_of` ahead id (c_id c) d) as Hle by (by apply ahead_update).
  assert (c ∈ waiting id d2) as Hin by (by apply list_elem_of_filter).
  apply list_elem_of_split in Hin as (B & A & EB).
  assert (forall i, i ∈ c_id <$> B -> i ∈ ahead id (c_id c) d2) as HB.
  { intros i (b & -> & Hb)%list_elem_of_fmap. apply ahead_elem. exists b.
    assert (b ∈ waiting id d2) as Hbw by (rewrite EB; set_solver). apply list_elem_of_filter in Hbw as [[? ?] ?].
    split_and!; try done. assert (StronglySorted Z.lt (c_id <$> waiting id d2)) as Hsort by by apply waiting_sorted.
    rewrite EB, fmap_app in Hsort. eapply (StronglySorted_app_1_elem_of _ _ _ _ _ Hsort); [by apply list_elem_of_fmap_2|by left]. }
  assert (Wire.is_expired (handed c) now_ms = false) as Hfresh.
  { unfold Wire.is_expired, i64_saturating_sub, handed. cbn [created_at_ms]. rewrite Hcr. apply Z.ltb_ge.
    unfold COMMAND_MAX_AGE_SECS, i64_min, i64_max in *. lia. }
  unfold poll. cbn [negb orb]. rewrite EB. pose proof (poll_front docker now_ms B A c Hfresh) as Hp. cbv zeta in Hp.
  assert (forall r : Z * CommandReport, r.1 ∈ c_id <$> B /\ status r.2 <> CommandStatus.Queued -> c_id c <> r.1) as Hother.
  { intros r [(x & _ & _ & _ & Hx & Hlt)%HB%ahead_elem _] Heq. lia. }
  destruct Hp as [(rs & -> & Hrs)|(r & rs & Er & Hrs)].
  - left. rewrite foldl_app.
    destruct (receive_all_other t id d2 rs c Hw2 Hc2) as [Hw3 Hc3]; [by eapply Forall_impl|].
    by apply (executed_closes docker t id now name).
  - destruct (poll_commands docker now_ms (handed <$> B ++ c :: A)) as [reports action]. cbn [fst] in Er. subst reports. right.
    destruct (receive_all_other t id d2 (r :: rs) c Hw2 Hc2) as [_ Hc3]; [by eapply Forall_impl|]. split; [done|].
    apply Forall_cons in Hrs as [[Hr Hq] Hrs]. eapply Nat.lt_le_trans; [|by apply sublist_length].
    cbn [foldl]. eapply Nat.le_lt_trans; [apply sublist_length, receive_all_ahead|].
    + eapply Forall_impl; [exact Hrs|]. by intros ? [_ ?].
    + apply (shorter _ _ r.1); [by apply receive_ahead|by apply HB|by apply receive_drops].
Qed.

Lemma closed_stays docker id n s times d acts :
  wf d -> status_of id n d = Some s -> CommandStatus.is_final s = true ->
  status_of id n (foldl (fun st at_ => let '(d, action) := round docker id st.1 at_ in (d, st.2 ++ [action])) (d, acts) times).1 = Some s.
Proof.
  revert d acts. induction times as [|at_ times IH]; intros d acts Hw Hst Hf; [done|]. cbn [foldl fst snd].
  destruct (round_grows docker id d at_ Hw) as [Hw' Hg]. destruct (round docker id d at_) as [d' action]. cbn [fst] in *.
  apply IH; [done| |done]. apply status_of_Some in Hst as (c & Hc & Hi & Ht & Hs).
  destruct (grows_elem _ _ _ Hg Hc) as (c' & Hc' & He). destruct He as (_ & _ & _ & _ & _ & _ & Hfin).
  assert (c' = c) as ->. { destruct Hfin as [->|Hn]; [done|]. congruence. }
  rewrite <-Ht, <-Hi, <-Hs. by apply status_of_row.
Qed.

Lemma rounds_reach docker id now name c times d acts :
  wf d -> c ∈ commands d -> restart_of id now name c ->
  Forall (fun at_ : Z * Z * Z => at_.1.1 <= now + COMMAND_MAX_AGE_SECS /\ at_.1.2 <= (now + COMMAND_MAX_AGE_SECS) * 1000) times ->
  (length (ahead id (c_id c) d) < length times)%nat ->
  let out := foldl (fun st at_ => let '(d, action) := round docker id st.1 at_ in (d, st.2 ++ [action])) (d, acts) times in
  Some (Action.Restart name) ∈ out.2 /\ status_of id (c_id c) out.1 = Some (closed_as docker name).
Proof using Type*.
  revert d acts. induction times as [|[[later now_ms] t] times IH]; intros d acts Hw Hc Hre Hall Hlen; [cbn in Hlen; lia|].
  apply Forall_cons in Hall as [[Hl Hms] Hall]. cbn [foldl fst snd] in *.
  pose proof (round_advances docker id now name c d later now_ms t Hw Hc Hre Hl Hms) as Hstep.
  pose proof (round_grows docker id d (later, now_ms, t) Hw) as [Hw' _].
  destruct (round docker id d (later, now_ms, t)) as [d' action]. cbn [fst] in Hw'.
  destruct Hstep as [[-> Hst]|[Hc' Hlt]]; [|apply IH; try done; cbn in Hlen; lia]. split.
  - assert (forall times d acts (x : option Action), x ∈ acts ->
      x ∈ (foldl (fun st at_ => let '(d, action) := round docker id st.1 at_ in (d, st.2 ++ [action])) (d, acts) times).2) as Hkeep.
    { intros l. induction l as [|at_ l IHl]; intros d0 acts0 x Hx; [done|]. cbn [foldl fst snd].
      destruct (round docker id d0 at_). apply IHl. apply elem_of_app. by left. }
    apply Hkeep. apply elem_of_app. right. by left.
  - apply closed_stays; [done..|]. unfold closed_as. by destruct (docker _) as [? []].
Qed.

(** C35. From the button to the container and back: a restart the interface accepted is fetched by the agent, which
    has actions enabled, polls only when the command before has ended and its reports have arrived, and whose clock,
    like the server's, is at most ten minutes after the request; each poll executes, or reports as expired, the oldest
    of the commands that wait for this device.  So once it has polled as many times as there were commands waiting, it
    has restarted the very container that was named, and the command is closed: as done if the engine restarted the
    container, as failed if the engine answered an error. *)
Theorem restart_reaches_the_container calls e now id name by_ docker times d1 c :
  restart e now id name by_ (serve_all calls Tables_new) = (d1, inr c) ->
  Forall (fun at_ : Z * Z * Z => at_.1.1 <= now + COMMAND_MAX_AGE_SECS /\ at_.1.2 <= (now + COMMAND_MAX_AGE_SECS) * 1000) times ->
  (length (waiting id d1) <= length times)%nat ->
  let '(d2, actions) := rounds docker id times d1 in
  Some (Action.Restart name) ∈ actions /\ status_of id (c_id c) d2 = Some (closed_as docker name).
Proof using Type*.
  intros Hr Hall Hlen. destruct (serve_all_ok calls Tables_new wf_Tables_new) as [Hw _].
  pose proof (wp_run _ _ _ _ (restart_writes e now id name by_ _ Hw)) as Hres. rewrite Hr in Hres. cbn [fst snd] in Hres.
  destruct Hres as (Hw1 & Hcs & Ht & Hk & Htext & Hs & Hcr & Hv).
  assert (c ∈ commands d1) as Hc by (rewrite Hcs; apply elem_of_app; right; by left).
  pose proof (rounds_reach docker id now name c times d1 [] Hw1 Hc) as H. unfold rounds.
  destruct (foldl _ _ _) as [d2 actions]. apply H; [by split|done|]. eapply Nat.lt_le_trans; [|exact Hlen].
  unfold ahead. rewrite length_fmap. apply length_filter_lt with c; [by apply list_elem_of_filter|lia].
Qed.
End journey.

#[local] Existing Instance PlainJson.plain_json.
#[local] Existing Instance Gregorian.calendar.

Definition docker_ok (a : Action) : list string * option string := (["restarting"], None).

Lemma agent_never_touches_the_monitor_witness :
  validate_name "web" = inr tt.
Proof.
  apply (agent_never_touches_the_monitor docker_ok true false
           (inr [{| cmd_id := 1; cmd_kind := CMD_CONTAINER_RESTART; cmd_args := object [("name", inl "web")];
                    created_at_ms := 0 |}]) 1000 (Action.Restart "web")).
  vm_compute. reflexivity.
Defined.

(** Two restarts wait: the second poll carries the second out. *)
Definition two_restarts : Tables * (ApiError + CommandRecord) :=
  restart example_estate 1000 1 "web" "alice" (restart example_estate 990 1 "db" "alice" Tables_new).1.
Lemma restart_reaches_the_container_witness :
  exists d1 c, two_restarts = (d1, inr c) /\
    let '(d2, actions) := rounds docker_ok 1 [(1100, 1100000, 1105); (1200, 1200000, 1205)] d1 in
    Some (Action.Restart "web") ∈ actions /\ status_of 1 (c_id c) d2 = Some CommandStatus.Done.
Proof.
  destruct two_restarts as [d1 [err|c]] eqn:E; [exfalso; revert E; vm_compute; discriminate|]. exists d1, c. split; [done|].
  apply (restart_reaches_the_container [Restart example_estate 990 1 "db" "alice"] example_estate 1000 1 "web" "alice" docker_ok
           [(1100, 1100000, 1105); (1200, 1200000, 1205)] d1 c E).
  - repeat constructor; vm_compute; discriminate.
  - vm_compute in E. injection E as <- _. vm_compute. lia.
Defined.
