(* ===== verification/Accounts.v ===== *)
(** * Accounts and sessions ([auth/users.rs], [auth/session.rs], [auth/password.rs])

    The tables [users], [auth_sessions], [totp_recovery_codes] and [api_tokens] and the
    statements that read and write them.  Rows are listed in the order of their rowid; a
    time written with [strftime] or [to_rfc3339_opts] is the instant it shows.  A statement
    that breaks a UNIQUE or a foreign key constraint answers [None]. *)
From Stdlib Require Import Ascii.
From Stdlib Require String.
From S2P Require Import Prelude Text Chrono.

(** ** Roles *)

Module Role.
Inductive Role := Admin | Operator | Viewer.

Definition as_str (r : Role) : string :=
  match r with Admin => "admin" | Operator => "operator" | Viewer => "viewer" end.

Definition parse (value : string) : option Role :=
  if bool_decide (value = "admin") then Some Admin
  else if bool_decide (value = "operator") then Some Operator
  else if bool_decide (value = "viewer") then Some Viewer
  else None.

Definition is_admin (r : Role) : bool := match r with Admin => true | _ => false end.

Definition can_operate (r : Role) : bool :=
  match r with Admin | Operator => true | Viewer => false end.

#[global] Instance eq_dec : EqDecision Role.
Proof. solve_decision. Defined.
End Role.
Notation Role := Role.Role.

(** ** Rows *)

Record User := {
  u_id : Z;
  u_username : string;
  u_display_name : string;
  u_role : Role;
  u_password_hash : option string;
  u_oidc_subject : option string;
  u_oidc_issuer : option string;
  u_created_at : DateTime;
  u_last_login_at : option DateTime;
  u_disabled : bool;
  u_totp_secret : option (list Z);
  u_totp_enabled : bool;
}.

Definition label (u : User) : string :=
  if bool_decide (trim (u_display_name u) = "") then u_username u else u_display_name u.

Definition auth_method (u : User) : string :=
  if u_password_hash u then "password" else "oidc".

Record Session := {
  s_token_hash : list Z;
  s_created_at : DateTime;
  s_expires_at : DateTime;
  s_user_id : option Z;
}.

Record RecoveryCode := {
  rc_id : Z;
  rc_user_id : Z;
  rc_code_hash : list Z;
  rc_used_at : option DateTime;
}.

(** [expires_at], [allowed_networks] and [last_used_ip] are the text of the column. *)
Record TokenRow := {
  t_id : Z;
  t_name : string;
  t_prefix : string;
  t_token_hash : list Z;
  t_scope : string;
  t_created_at : DateTime;
  t_last_used_at : option DateTime;
  t_revoked_at : option DateTime;
  t_user_id : option Z;
  t_expires_at : option string;
  t_allowed_networks : option string;
  t_last_used_ip : option string;
}.

(** [.._seq] is the last rowid an [AUTOINCREMENT] table has given. *)
Record AuthDb := {
  users : list User;
  users_seq : Z;
  auth_sessions : gmap string Session;
  recovery_codes : list RecoveryCode;
  codes_seq : Z;
  api_tokens : list TokenRow;
  tokens_seq : Z;
}.

Definition set_users (f : list User -> list User) (d : AuthDb) : AuthDb :=
  {| users := f (users d); users_seq := users_seq d; auth_sessions := auth_sessions d;
     recovery_codes := recovery_codes d; codes_seq := codes_seq d;
     api_tokens := api_tokens d; tokens_seq := tokens_seq d |}.
Definition set_sessions (f : gmap string Session -> gmap string Session) (d : AuthDb) : AuthDb :=
  {| users := users d; users_seq := users_seq d; auth_sessions := f (auth_sessions d);
     recovery_codes := recovery_codes d; codes_seq := codes_seq d;
     api_tokens := api_tokens d; tokens_seq := tokens_seq d |}.
Definition set_codes (f : list RecoveryCode -> list RecoveryCode) (d : AuthDb) : AuthDb :=
  {| users := users d; users_seq := users_seq d; auth_sessions := auth_sessions d;
     recovery_codes := f (recovery_codes d); codes_seq := codes_seq d;
     api_tokens := api_tokens d; tokens_seq := tokens_seq d |}.
Definition set_tokens (f : list TokenRow -> list TokenRow) (d : AuthDb) : AuthDb :=
  {| users := users d; users_seq := users_seq d; auth_sessions := auth_sessions d;
     recovery_codes := recovery_codes d; codes_seq := codes_seq d;
     api_tokens := f (api_tokens d); tokens_seq := tokens_seq d |}.

(** [UPDATE .. SET f WHERE p] *)
Definition update_where {A} (p : A -> bool) (f : A -> A) (rows : list A) : list A :=
  (fun row => if p row then f row else row) <$> rows.

(** [SELECT .. WHERE p], its first row, and [DELETE .. WHERE p]. *)
Definition first_where {A} (p : A -> bool) (rows : list A) : option A :=
  find_map (fun row => if p row then Some row else None) rows.
Definition delete_where {A} (p : A -> bool) (rows : list A) : list A :=
  filter (fun row => p row = false) rows.

(** [strftime('%Y-%m-%dT%H:%M:%SZ', 'now')] keeps the seconds. *)
Definition strftime (now : DateTime) : DateTime := now / ns_per_s * ns_per_s.

(** ** Users *)

Definition count (d : AuthDb) : Z := Z.of_nat (length (users d)).

Definition get (id : Z) (d : AuthDb) : option User := first_where (fun u => u_id u =? id) (users d).

(** The column is [COLLATE NOCASE], which folds the ASCII letters. *)
Definition by_username (username : string) (d : AuthDb) : option User :=
  first_where (fun u => eq_ignore_ascii_case (u_username u) username) (users d).

Definition by_oidc (issuer subject : string) (d : AuthDb) : option User :=
  first_where (fun u => bool_decide (u_oidc_issuer u = Some issuer) &&
                        bool_decide (u_oidc_subject u = Some subject)) (users d).

Definition sole_password_user (d : AuthDb) : option User :=
  match take 2 (filter (fun u => is_Some (u_password_hash u)) (users d)) with
  | [u] => Some u
  | _ => None
  end.

Record NewUser := {
  nu_username : string;
  nu_display_name : string;
  nu_role : Role;
  nu_password_hash : option string;
  nu_oidc : option (string * string);
}.

Definition username_taken (username : string) (d : AuthDb) : bool :=
  bool_decide (is_Some (by_username username d)).
(** The UNIQUE constraint on [oidc_subject] counts no NULL. *)
Definition subject_taken (subject : option string) (id : Z) (d : AuthDb) : bool :=
  match subject with
  | None => false
  | Some _ => existsb (fun u => bool_decide (u_oidc_subject u = subject) && negb (u_id u =? id))
                      (users d)
  end.

Definition add_user (now : DateTime) (n : NewUser) (d : AuthDb) : AuthDb :=
  {| users := users d ++
       [{| u_id := users_seq d + 1; u_username := nu_username n;
           u_display_name := nu_display_name n; u_role := nu_role n;
           u_password_hash := nu_password_hash n; u_oidc_subject := snd <$> nu_oidc n;
           u_oidc_issuer := fst <$> nu_oidc n; u_created_at := strftime now; u_last_login_at := None;
           u_disabled := false; u_totp_secret := None; u_totp_enabled := false |}];
     users_seq := users_seq d + 1; auth_sessions := auth_sessions d;
     recovery_codes := recovery_codes d; codes_seq := codes_seq d;
     api_tokens := api_tokens d; tokens_seq := tokens_seq d |}.

(** The conflict clause names the username only: another constraint is an error. *)
Definition insert (now : DateTime) (n : NewUser) (d : AuthDb) : AuthDb * option (option Z) :=
  if username_taken (nu_username n) d then (d, Some None)
  else if subject_taken (snd <$> nu_oidc n) (users_seq d + 1) d then (d, None)
  else (add_user now n d, Some (Some (users_seq d + 1))).

Definition insert_first_admin (now : DateTime) (username hash : string) (d : AuthDb) : AuthDb * bool :=
  if 0 <? count d then (d, false)
  else (add_user now {| nu_username := username; nu_display_name := ""; nu_role := Role.Admin;
                        nu_password_hash := Some hash; nu_oidc := None |} d, true).

Definition update_user (id : Z) (f : User -> User) : AuthDb -> AuthDb :=
  set_users (update_where (fun u => u_id u =? id) f).

Definition set_password_hash (id : Z) (hash : string) : AuthDb -> AuthDb :=
  update_user id (fun u =>
    {| u_id := u_id u; u_username := u_username u; u_display_name := u_display_name u;
       u_role := u_role u; u_password_hash := Some hash; u_oidc_subject := u_oidc_subject u;
       u_oidc_issuer := u_oidc_issuer u; u_created_at := u_created_at u;
       u_last_login_at := u_last_login_at u; u_disabled := u_disabled u;
       u_totp_secret := u_totp_secret u; u_totp_enabled := u_totp_enabled u |}).

Definition set_display_name (id : Z) (display_name : string) : AuthDb -> AuthDb :=
  update_user id (fun u =>
    {| u_id := u_id u; u_username := u_username u; u_display_name := display_name;
       u_role := u_role u; u_password_hash := u_password_hash u; u_oidc_subject := u_oidc_subject u;
       u_oidc_issuer := u_oidc_issuer u; u_created_at := u_created_at u;
       u_last_login_at := u_last_login_at u; u_disabled := u_disabled u;
       u_totp_secret := u_totp_secret u; u_totp_enabled := u_totp_enabled u |}).

Definition with_role (role : Role) (u : User) : User :=
  {| u_id := u_id u; u_username := u_username u; u_display_name := u_display_name u;
     u_role := role; u_password_hash := u_password_hash u; u_oidc_subject := u_oidc_subject u;
     u_oidc_issuer := u_oidc_issuer u; u_created_at := u_created_at u;
     u_last_login_at := u_last_login_at u; u_disabled := u_disabled u;
     u_totp_secret := u_totp_secret u; u_totp_enabled := u_totp_enabled u |}.

Definition set_role (id : Z) (role : Role) : AuthDb -> AuthDb := update_user id (with_role role).

Definition set_disabled (id : Z) (disabled : bool) : AuthDb -> AuthDb :=
  update_user id (fun u =>
    {| u_id := u_id u; u_username := u_username u; u_display_name := u_display_name u;
       u_role := u_role u; u_password_hash := u_password_hash u; u_oidc_subject := u_oidc_subject u;
       u_oidc_issuer := u_oidc_issuer u; u_created_at := u_created_at u;
       u_last_login_at := u_last_login_at u; u_disabled := disabled;
       u_totp_secret := u_totp_secret u; u_totp_enabled := u_totp_enabled u |}).

Definition link_oidc (id : Z) (issuer subject : string) (d : AuthDb) : AuthDb * option () :=
  if subject_taken (Some subject) id d then (d, None)
  else (update_user id (fun u =>
    {| u_id := u_id u; u_username := u_username u; u_display_name := u_display_name u;
       u_role := u_role u; u_password_hash := u_password_hash u; u_oidc_subject := Some subject;
       u_oidc_issuer := Some issuer; u_created_at := u_created_at u;
       u_last_login_at := u_last_login_at u; u_disabled := u_disabled u;
       u_totp_secret := u_totp_secret u; u_totp_enabled := u_totp_enabled u |}) d, Some ()).

Definition with_totp (secret : option (list Z)) (enabled : bool) (u : User) : User :=
  {| u_id := u_id u; u_username := u_username u; u_display_name := u_display_name u;
     u_role := u_role u; u_password_hash := u_password_hash u; u_oidc_subject := u_oidc_subject u;
     u_oidc_issuer := u_oidc_issuer u; u_created_at := u_created_at u;
     u_last_login_at := u_last_login_at u; u_disabled := u_disabled u;
     u_totp_secret := secret; u_totp_enabled := enabled |}.

Definition set_totp_pending (id : Z) (secret : list Z) : AuthDb -> AuthDb :=
  update_user id (with_totp (Some secret) false).

Definition set_totp_enabled (id : Z) : AuthDb -> AuthDb :=
  set_users (update_where (fun u => (u_id u =? id) && bool_decide (is_Some (u_totp_secret u)))
               (fun u => with_totp (u_totp_secret u) true u)).

Definition clear_totp (id : Z) (d : AuthDb) : AuthDb :=
  let d := update_user id (with_totp None false) d in
  set_codes (delete_where (fun c => rc_user_id c =? id)) d.

Definition add_code (id : Z) (d : AuthDb) (hash : list Z) : AuthDb :=
  {| users := users d; users_seq := users_seq d; auth_sessions := auth_sessions d;
     recovery_codes := recovery_codes d ++
       [{| rc_id := codes_seq d + 1; rc_user_id := id; rc_code_hash := hash; rc_used_at := None |}];
     codes_seq := codes_seq d + 1;
     api_tokens := api_tokens d; tokens_seq := tokens_seq d |}.

(** The transaction is undone when the account is gone. *)
Definition replace_recovery_codes (id : Z) (hashes : list (list Z)) (d : AuthDb) :
    AuthDb * option () :=
  match get id d, hashes with
  | None, _ :: _ => (d, None)
  | _, _ => (foldl (add_code id) (set_codes (delete_where (fun c => rc_user_id c =? id)) d) hashes,
             Some ())
  end.

Definition unused_code (id : Z) (hash : list Z) (c : RecoveryCode) : bool :=
  (rc_user_id c =? id) && bool_decide (rc_code_hash c = hash) && bool_decide (rc_used_at c = None).

Definition consume_recovery_code (now : DateTime) (id : Z) (hash : list Z) (d : AuthDb) :
    AuthDb * bool :=
  match first_where (unused_code id hash) (recovery_codes d) with
  | None => (d, false)
  | Some code =>
      (set_codes (update_where (fun c => rc_id c =? rc_id code)
         (fun c => {| rc_id := rc_id c; rc_user_id := rc_user_id c; rc_code_hash := rc_code_hash c;
                      rc_used_at := Some (strftime now) |})) d, true)
  end.

Definition recovery_codes_left (id : Z) (d : AuthDb) : Z :=
  Z.of_nat (length (filter (fun c => rc_user_id c = id /\ rc_used_at c = None) (recovery_codes d))).

Definition touch_login (now : DateTime) (id : Z) : AuthDb -> AuthDb :=
  update_user id (fun u =>
    {| u_id := u_id u; u_username := u_username u; u_display_name := u_display_name u;
       u_role := u_role u; u_password_hash := u_password_hash u; u_oidc_subject := u_oidc_subject u;
       u_oidc_issuer := u_oidc_issuer u; u_created_at := u_created_at u;
       u_last_login_at := Some (strftime now); u_disabled := u_disabled u;
       u_totp_secret := u_totp_secret u; u_totp_enabled := u_totp_enabled u |}).

(** The trigger [api_tokens_revoked_with_owner], then the row, with what its foreign keys
    do: sessions and codes go, tokens lose their owner. *)
Definition revoke_row (now : DateTime) (t : TokenRow) : TokenRow :=
  {| t_id := t_id t; t_name := t_name t; t_prefix := t_prefix t; t_token_hash := t_token_hash t;
     t_scope := t_scope t; t_created_at := t_created_at t; t_last_used_at := t_last_used_at t;
     t_revoked_at := Some (strftime now); t_user_id := t_user_id t; t_expires_at := t_expires_at t;
     t_allowed_networks := t_allowed_networks t; t_last_used_ip := t_last_used_ip t |}.

Definition orphan_row (t : TokenRow) : TokenRow :=
  {| t_id := t_id t; t_name := t_name t; t_prefix := t_prefix t; t_token_hash := t_token_hash t;
     t_scope := t_scope t; t_created_at := t_created_at t; t_last_used_at := t_last_used_at t;
     t_revoked_at := t_revoked_at t; t_user_id := None; t_expires_at := t_expires_at t;
     t_allowed_networks := t_allowed_networks t; t_last_used_ip := t_last_used_ip t |}.

Definition owned_by (id : Z) (t : TokenRow) : bool := bool_decide (t_user_id t = Some id).

Definition delete (now : DateTime) (id : Z) (d : AuthDb) : AuthDb :=
  if get id d then
    let d := set_tokens (update_where (fun t => owned_by id t && bool_decide (t_revoked_at t = None))
                           (revoke_row now)) d in
    let d := set_users (delete_where (fun u => u_id u =? id)) d in
    let d := set_sessions (filter (fun kv => s_user_id kv.2 <> Some id)) d in
    let d := set_codes (delete_where (fun c => rc_user_id c =? id)) d in
    set_tokens (update_where (owned_by id) orphan_row) d
  else d.

Definition active_admin (u : User) : bool := Role.is_admin (u_role u) && negb (u_disabled u).

Definition active_admin_count (d : AuthDb) : Z :=
  Z.of_nat (length (filter (fun u => active_admin u = true) (users d))).

Definition reset_all (now : DateTime) (d : AuthDb) : AuthDb :=
  let d := set_sessions (fun _ => ∅) d in
  foldl (fun d id => delete now id d) d (u_id <$> users d).

Definition validate_username (username : string) : option string :=
  let trimmed := trim username in
  if bool_decide (trimmed = "") then Some "Enter a username."
  else if (64 <? chars_count trimmed)%nat
  then Some "The username must be 64 characters or fewer."
  else if has_whitespace trimmed || has_control trimmed
  then Some "The username cannot contain spaces."
  else None.

(** ** Passwords *)

Definition MIN_LENGTH : nat := 12.

(** [password::validate]: the message of the refusal. *)
Definition validate (password : string) : option string :=
  if (chars_count password <? MIN_LENGTH)%nat
  then Some ("The password must be at least " +:+ display_i64 (Z.of_nat MIN_LENGTH) +:+
             " characters long.")%string
  else None.

(** ** Sessions *)

Definition LIFETIME_DAYS : Z := 30.

Record SessionToken := { st_id : string; st_secret : string }.

(** [hex::encode] *)
Definition hex_encode (bytes : list Z) : string :=
  foldr (fun b s => String (hex_digit (b / 16)) (String (hex_digit (b mod 16)) s)) EmptyString bytes.

(** [SessionToken::generate] from its sixteen and thirty-two random bytes. *)
Definition generate (id secret : list Z) : SessionToken :=
  {| st_id := hex_encode id; st_secret := hex_encode secret |}.

Definition parse_token (value : string) : option SessionToken :=
  '(id, secret) ← split_once "."%char value;
  if bool_decide (id = "") || bool_decide (secret = "") then None
  else Some {| st_id := id; st_secret := secret |}.

Definition cookie_value (t : SessionToken) : string := (st_id t +:+ "." +:+ st_secret t)%string.

(** [to_sql]: the text keeps the milliseconds. *)
Definition to_sql (t : DateTime) : DateTime := t / ns_per_ms * ns_per_ms.

Definition purge_expired (now : DateTime) : AuthDb -> AuthDb :=
  set_sessions (filter (fun kv => ~ s_expires_at kv.2 <= to_sql now)).

Definition delete_session (id : string) : AuthDb -> AuthDb := set_sessions (base.delete id).

Definition delete_for_user (user_id : Z) (keep : option string) : AuthDb -> AuthDb :=
  match keep with
  | Some id => set_sessions (filter (fun kv => ~ (s_user_id kv.2 = Some user_id /\ kv.1 <> id)))
  | None => set_sessions (filter (fun kv => s_user_id kv.2 <> Some user_id))
  end.

Section Hashed.
Context (sha256 : string -> list Z).

Definition secret_hash (t : SessionToken) : list Z := sha256 (st_secret t).

(** The token is drawn by the caller. *)
Definition create (now : DateTime) (user_id : Z) (token : SessionToken) (d : AuthDb) :
    AuthDb * option SessionToken :=
  match auth_sessions d !! st_id token, get user_id d with
  | None, Some _ =>
      let row := {| s_token_hash := secret_hash token; s_created_at := to_sql now;
                    s_expires_at := to_sql (now + td_days LIFETIME_DAYS);
                    s_user_id := Some user_id |} in
      (purge_expired now (set_sessions (<[st_id token := row]>) d), Some token)
  | _, _ => (d, None)
  end.

Definition authenticate (now : DateTime) (token : SessionToken) (d : AuthDb) : AuthDb * option Z :=
  match auth_sessions d !! st_id token with
  | None => (d, None)
  | Some row =>
      if negb (bool_decide (s_token_hash row = secret_hash token)) then (d, None)
      else if s_expires_at row <=? now then (delete_session (st_id token) d, None)
      else (d, s_user_id row)
  end.
End Hashed.

(** ** Facts: rows *)

Lemma fmap_update_where {A B} (g : A -> B) p f (rows : list A) :
  (forall x, p x = true -> g (f x) = g x) -> g <$> update_where p f rows = g <$> rows.
Proof.
  intros H. unfold update_where. rewrite <-list_fmap_compose. apply list_fmap_ext.
  intros i x _. simpl. destruct (p x) eqn:E; auto.
Qed.

Lemma omap_update_where {A B} (g : A -> option B) p f (rows : list A) :
  (forall x, p x = true -> g (f x) = g x) -> omap g (update_where p f rows) = omap g rows.
Proof.
  intros H. induction rows as [|x rows IH]; [done|].
  change (omap g ((if p x then f x else x) :: update_where p f rows) = omap g (x :: rows)).
  assert (g (if p x then f x else x) = g x) as Hx by (destruct (p x) eqn:E; auto).
  cbn [omap list_omap]. rewrite Hx, IH. done.
Qed.

Lemma elem_of_update_where {A} p f (rows : list A) y :
  y ∈ update_where p f rows <-> exists x, x ∈ rows /\ y = if p x then f x else x.
Proof. unfold update_where. rewrite list_elem_of_fmap. naive_solver. Qed.

Lemma elem_of_delete_where {A} p (rows : list A) x :
  x ∈ delete_where p rows <-> p x = false /\ x ∈ rows.
Proof. unfold delete_where. by rewrite list_elem_of_filter. Qed.

Lemma first_where_Some {A} p (rows : list A) x :
  first_where p rows = Some x -> x ∈ rows /\ p x = true.
Proof.
  intros (l1 & y & l2 & -> & Hy & _)%find_map_Some. destruct (p y) eqn:E; [|done].
  injection Hy as <-. split; [set_solver|done].
Qed.

Lemma first_where_None {A} p (rows : list A) :
  first_where p rows = None <-> forall x, x ∈ rows -> p x = false.
Proof.
  unfold first_where. rewrite find_map_None. split; intros H x Hx; specialize (H x Hx);
    by destruct (p x).
Qed.

Lemma first_where_unique {A} p (rows : list A) x :
  x ∈ rows -> p x = true -> (forall y, y ∈ rows -> p y = true -> y = x) ->
  first_where p rows = Some x.
Proof.
  intros Hx Hp Hu. destruct (first_where p rows) as [y|] eqn:E.
  - apply first_where_Some in E as [Hy Hpy]. f_equal. by apply Hu.
  - rewrite first_where_None in E. specialize (E x Hx). congruence.
Qed.

Lemma NoDup_fmap_inj_in {A B} (g : A -> B) (l : list A) x y :
  NoDup (g <$> l) -> x ∈ l -> y ∈ l -> g x = g y -> x = y.
Proof.
  induction l as [|z l IH]; [by intros _ ?%elem_of_nil|]. cbn [fmap list_fmap].
  intros [Hz Hd]%NoDup_cons Hx Hy Hg. apply elem_of_cons in Hx as [->|Hx], Hy as [->|Hy]; auto.
  - destruct Hz. rewrite Hg. by apply list_elem_of_fmap_2.
  - destruct Hz. rewrite <-Hg. by apply list_elem_of_fmap_2.
Qed.

(** ** Facts: the shape of the tables *)

(** What the constraints of the schema keep true. *)
Record wf_db (d : AuthDb) : Prop := {
  wf_ids : NoDup (u_id <$> users d);
  wf_seq : forall u, u ∈ users d -> u_id u <= users_seq d;
  wf_names : NoDup ((fun u => to_ascii_lowercase (u_username u)) <$> users d);
  wf_subjects : NoDup (omap u_oidc_subject (users d));
  wf_totp : forall u, u ∈ users d -> u_totp_enabled u = true -> is_Some (u_totp_secret u);
  wf_sessions : forall k s uid, auth_sessions d !! k = Some s -> s_user_id s = Some uid ->
    uid ∈ u_id <$> users d;
  wf_code_ids : NoDup (rc_id <$> recovery_codes d);
  wf_code_seq : forall c, c ∈ recovery_codes d -> rc_id c <= codes_seq d;
  wf_codes : forall c, c ∈ recovery_codes d -> rc_user_id c ∈ u_id <$> users d;
  wf_tokens : forall t uid, t ∈ api_tokens d -> t_user_id t = Some uid -> uid ∈ u_id <$> users d;
}.

Lemma get_Some id d u : get id d = Some u -> u ∈ users d /\ u_id u = id.
Proof. intros [Hu Hid]%first_where_Some. split; [done|]. lia. Qed.

Lemma get_is_Some id d : is_Some (get id d) <-> id ∈ u_id <$> users d.
Proof.
  rewrite list_elem_of_fmap. split.
  - intros [u [Hu <-]%get_Some]. eauto.
  - intros (u & -> & Hu). destruct (get (u_id u) d) eqn:E; [done|].
    unfold get in E. rewrite first_where_None in E. specialize (E u Hu). lia.
Qed.

Lemma get_unique d u : wf_db d -> u ∈ users d -> get (u_id u) d = Some u.
Proof.
  intros Hwf Hu. apply first_where_unique; [done|lia|]. intros v Hv Hid.
  eapply NoDup_fmap_inj_in; [apply Hwf|done..|]. lia.
Qed.

(** An update that leaves the keys alone. *)
Definition keeps_keys (f : User -> User) : Prop :=
  forall u, u_id (f u) = u_id u /\ u_username (f u) = u_username u /\
            u_oidc_subject (f u) = u_oidc_subject u /\
            (u_totp_enabled (f u) = true -> is_Some (u_totp_secret (f u)) \/
               u_totp_secret (f u) = u_totp_secret u /\ u_totp_enabled (f u) = u_totp_enabled u).

Lemma wf_update_where p f d :
  (forall u, p u = true -> u_id (f u) = u_id u /\ u_username (f u) = u_username u /\
     (u_totp_enabled (f u) = true -> is_Some (u_totp_secret (f u)) \/
        u_totp_secret (f u) = u_totp_secret u /\ u_totp_enabled (f u) = u_totp_enabled u)) ->
  NoDup (omap u_oidc_subject (update_where p f (users d))) ->
  wf_db d -> wf_db (set_users (update_where p f) d).
Proof.
  intros Hf Hsub [].
  assert (u_id <$> update_where p f (users d) = u_id <$> users d) as Hids.
  { apply fmap_update_where. intros u Hu. by apply Hf. }
  split; simpl; rewrite ?Hids; try done.
  - intros u (v & Hv & ->)%elem_of_update_where. destruct (p v) eqn:E; [|auto].
    destruct (Hf v E) as [-> _]. auto.
  - rewrite fmap_update_where; [done|]. intros u Hu. by destruct (Hf u Hu) as (_ & -> & _).
  - intros u (v & Hv & ->)%elem_of_update_where He. destruct (p v) eqn:E; [|auto].
    destruct (Hf v E) as (_ & _ & Ht). destruct (Ht He) as [?|[H1 H2]]; [done|].
    rewrite H1. apply wf_totp0; [done|congruence].
Qed.

Lemma wf_update_keys p f d : keeps_keys f -> wf_db d -> wf_db (set_users (update_where p f) d).
Proof.
  intros Hf Hwf. apply wf_update_where; [intros u _; specialize (Hf u); naive_solver| |done].
  rewrite omap_update_where; [apply Hwf|]. intros u _. by destruct (Hf u) as (_ & _ & -> & _).
Qed.

Lemma wf_set_sessions f d :
  (forall m k s, f m !! k = Some s -> m !! k = Some s) -> wf_db d -> wf_db (set_sessions f d).
Proof. intros Hf []. split; simpl; try done. intros k s uid Hk. eauto. Qed.

Lemma wf_set_codes f d :
  (forall l, rc_id <$> f l `sublist_of` rc_id <$> l) ->
  (forall l c, c ∈ f l -> exists c', c' ∈ l /\ rc_id c = rc_id c' /\ rc_user_id c = rc_user_id c') ->
  wf_db d -> wf_db (set_codes f d).
Proof.
  intros Hs Hf []. split; simpl; try done.
  - eapply sublist_NoDup; eauto.
  - intros c (c' & Hc' & -> & _)%Hf. eauto.
  - intros c (c' & Hc' & _ & ->)%Hf. eauto.
Qed.

Lemma delete_where_sublist {A} p (rows : list A) : delete_where p rows `sublist_of` rows.
Proof. apply sublist_filter. Qed.

Lemma wf_delete_codes p d : wf_db d -> wf_db (set_codes (delete_where p) d).
Proof.
  apply wf_set_codes.
  - intros l. by apply (fmap_sublist rc_id), delete_where_sublist.
  - intros l c [_ Hc]%elem_of_delete_where. by exists c.
Qed.

Ltac keys := apply wf_update_keys; intros u; split_and!; simpl; try done; auto.

Lemma wf_set_password id h d : wf_db d -> wf_db (set_password_hash id h d).
Proof. keys. Qed.
Lemma wf_set_display_name id n d : wf_db d -> wf_db (set_display_name id n d).
Proof. keys. Qed.
Lemma wf_set_role id r d : wf_db d -> wf_db (set_role id r d).
Proof. keys. Qed.
Lemma wf_set_disabled id b d : wf_db d -> wf_db (set_disabled id b d).
Proof. keys. Qed.
Lemma wf_touch_login now id d : wf_db d -> wf_db (touch_login now id d).
Proof. keys. Qed.
Lemma wf_set_totp_pending id s d : wf_db d -> wf_db (set_totp_pending id s d).
Proof. keys. Qed.
Lemma wf_set_totp_enabled id d : wf_db d -> wf_db (set_totp_enabled id d).
Proof.
  intros Hwf. apply wf_update_where; [| |done].
  - intros u [_ Hs]%andb_true_iff. bools. simpl. auto.
  - rewrite omap_update_where; [apply Hwf|done].
Qed.
Lemma wf_clear_totp id d : wf_db d -> wf_db (clear_totp id d).
Proof. intros Hwf. apply wf_delete_codes. revert Hwf. keys. Qed.

(** Changing the subject of one row to one no other row holds keeps them distinct. *)
Lemma NoDup_omap_update {A B} (g : A -> option B) p f (rows : list A) :
  (forall x y, x ∈ rows -> p x = true -> y ∈ rows -> p y = true -> x = y) -> NoDup rows ->
  (forall x y b, x ∈ rows -> p x = true -> y ∈ rows -> p y = false -> g (f x) = Some b -> g y <> Some b) ->
  NoDup (omap g rows) -> NoDup (omap g (update_where p f rows)).
Proof.
  intros H1 Hnd H2. induction rows as [|x rows IH]; [done|].
  change (update_where p f (x :: rows)) with ((if p x then f x else x) :: update_where p f rows).
  apply NoDup_cons in Hnd as [Hx Hnd]. intros Ho.
  assert (NoDup (omap g rows)) as Ho'.
  { revert Ho. cbn [omap list_omap]. destruct (g x); [by intros [_ ?]%NoDup_cons|done]. }
  assert (NoDup (omap g (update_where p f rows))) as Hr.
  { apply IH; [|done| |done].
    - intros; apply H1; first [done|set_solver].
    - intros y z b ? ? ? ?; apply (H2 y z b); first [done|set_solver]. }
  cbn [omap list_omap]. destruct (g (if p x then f x else x)) as [b|] eqn:E; [|done].
  constructor; [|done]. intros (y & (z & Hz & ->)%elem_of_update_where & Hy)%list_elem_of_omap.
  destruct (p x) eqn:Ex, (p z) eqn:Ez.
  - assert (x = z) as -> by (apply H1; set_solver). done.
  - eapply (H2 x z b); [left|..]; try done; set_solver.
  - eapply (H2 z x b); [set_solver|..]; try done; left.
  - revert Ho. cbn [omap list_omap]. rewrite E. intros [Hb _]%NoDup_cons. apply Hb.
    apply list_elem_of_omap. eauto.
Qed.

Lemma NoDup_users d : wf_db d -> NoDup (users d).
Proof. intros Hwf. eapply NoDup_fmap_1, Hwf. Qed.

Lemma wf_link_oidc id issuer subject d : wf_db d -> wf_db (link_oidc id issuer subject d).1.
Proof.
  intros Hwf. unfold link_oidc. destruct (subject_taken _ _ _) eqn:Ht; [done|].
  apply wf_update_where; [by intros u _; simpl; auto| |done].
  apply NoDup_omap_update; [|by apply NoDup_users| |by apply Hwf].
  - intros x y Hx Ex Hy Ey. eapply NoDup_fmap_inj_in; [apply Hwf|done..|]. lia.
  - simpl. intros x y b _ _ Hy Ey [= <-] Hs.
    enough (subject_taken (Some subject) id d = true) by congruence.
    apply existsb_elem. exists y. split; [done|]. rewrite Ey. by rewrite bool_decide_true.
Qed.

Lemma wf_add_user now n d :
  username_taken (nu_username n) d = false ->
  subject_taken (snd <$> nu_oidc n) (users_seq d + 1) d = false ->
  wf_db d -> wf_db (add_user now n d).
Proof.
  intros Hn Hs []. split; simpl; rewrite ?fmap_app; simpl; try done.
  - apply NoDup_snoc; [|done]. intros (u & Hu & Hin)%list_elem_of_fmap. apply wf_seq0 in Hin. lia.
  - intros u [Hu|Hu%list_elem_of_singleton]%elem_of_app.
    + apply wf_seq0 in Hu. lia.
    + subst u. simpl. lia.
  - apply NoDup_snoc; [|done]. intros (u & Hu & Hin)%list_elem_of_fmap.
    unfold username_taken in Hn. bools. apply Hn. unfold by_username.
    destruct (first_where _ _) eqn:E; [done|]. rewrite first_where_None in E.
    specialize (E u Hin). unfold eq_ignore_ascii_case in E. bools. by rewrite Hu in E.
  - rewrite omap_app. destruct (nu_oidc n) as [[i s]|]; simpl; [|by rewrite app_nil_r].
    apply NoDup_snoc; [|done]. intros (u & Hin & Hu)%list_elem_of_omap.
    simpl in Hs. enough (existsb (fun u => bool_decide (u_oidc_subject u = Some s) &&
      negb (u_id u =? users_seq d + 1)) (users d) = true) by congruence.
    apply existsb_elem. exists u. split; [done|]. rewrite bool_decide_true by done.
    apply wf_seq0 in Hin. simpl. lia.
  - intros u [Hu|Hu%list_elem_of_singleton]%elem_of_app; [auto|by subst u].
  - intros k s uid Hk Hu. apply elem_of_app. left. eauto.
  - intros c Hc. apply elem_of_app. left. eauto.
  - intros t uid Ht Hu. apply elem_of_app. left. eauto.
Qed.

Lemma wf_insert now n d : wf_db d -> wf_db (insert now n d).1.
Proof.
  intros Hwf. unfold insert. destruct (username_taken _ _) eqn:?; [done|].
  destruct (subject_taken _ _ _) eqn:?; [done|]. by apply wf_add_user.
Qed.

Lemma wf_insert_first_admin now username h d : wf_db d -> wf_db (insert_first_admin now username h d).1.
Proof.
  intros Hwf. unfold insert_first_admin, count. destruct (Z.ltb_spec 0 (Z.of_nat (length (users d)))); [done|].
  destruct (users d) as [|u l] eqn:E; [|simpl in *; lia]. apply wf_add_user; [|done|done].
  unfold username_taken, by_username. by rewrite E.
Qed.

Lemma wf_add_code id d hash : id ∈ u_id <$> users d -> wf_db d -> wf_db (add_code id d hash).
Proof.
  intros Hid []. split; simpl; try done.
  - rewrite fmap_app. apply NoDup_snoc; [|done]. intros (c & Hc & Hin)%list_elem_of_fmap.
    apply wf_code_seq0 in Hin. simpl in Hc. lia.
  - intros c [Hc|Hc%list_elem_of_singleton]%elem_of_app.
    + apply wf_code_seq0 in Hc. lia.
    + subst c. simpl. lia.
  - intros c [Hc|Hc%list_elem_of_singleton]%elem_of_app; [auto|by subst c].
Qed.

Lemma users_add_codes id hashes d : users (foldl (add_code id) d hashes) = users d.
Proof. revert d. induction hashes as [|h hs IH]; intros d; [done|]. simpl. by rewrite IH. Qed.

Lemma wf_replace_codes id hashes d : wf_db d -> wf_db (replace_recovery_codes id hashes d).1.
Proof.
  intros Hwf. unfold replace_recovery_codes. destruct (get id d) eqn:E.
  - assert (id ∈ u_id <$> users d) as Hid by (apply get_is_Some; by rewrite E). simpl.
    set (d0 := set_codes _ d). assert (id ∈ u_id <$> users d0) as Hid0 by done.
    assert (wf_db d0) as H0 by by apply wf_delete_codes. clearbody d0. clear -Hid0 H0.
    revert d0 Hid0 H0. induction hashes as [|h hs IH]; intros d0 Hid0 H0; [done|].
    simpl. apply IH; [done|]. by apply wf_add_code.
  - destruct hashes; [|done]. by apply wf_delete_codes.
Qed.

Lemma wf_consume now id hash d : wf_db d -> wf_db (consume_recovery_code now id hash d).1.
Proof.
  intros Hwf. unfold consume_recovery_code. destruct (first_where _ _) as [code|]; [|done].
  apply wf_set_codes; [| |done].
  - intros l. by rewrite fmap_update_where.
  - intros l c (c' & Hc' & ->)%elem_of_update_where. exists c'. by destruct (_ =? _).
Qed.

Lemma wf_filter_sessions (P : string * Session -> Prop) `{!forall x, Decision (P x)} d :
  wf_db d -> wf_db (set_sessions (filter P) d).
Proof. apply wf_set_sessions. intros m k s [Hk _]%map_lookup_filter_Some. done. Qed.

Lemma wf_delete_session id d : wf_db d -> wf_db (delete_session id d).
Proof. apply wf_set_sessions. intros m k s [_ Hk]%lookup_delete_Some. done. Qed.

Lemma wf_delete_for_user id keep d : wf_db d -> wf_db (delete_for_user id keep d).
Proof. destruct keep; apply wf_filter_sessions. Qed.

Lemma wf_purge now d : wf_db d -> wf_db (purge_expired now d).
Proof. apply wf_filter_sessions. Qed.

Lemma wf_create sha256 now id token d : wf_db d -> wf_db (create sha256 now id token d).1.
Proof.
  intros Hwf. unfold create. destruct (auth_sessions d !! st_id token); [done|].
  destruct (get id d) eqn:E; [|done]. apply wf_purge.
  assert (id ∈ u_id <$> users d) as Hid by (apply get_is_Some; by rewrite E).
  destruct Hwf. split; simpl; try done. intros k s uid [[_ <-]|[_ Hk]]%lookup_insert_Some; simpl; [|eauto].
  by intros [= <-].
Qed.

Lemma wf_authenticate sha256 now token d : wf_db d -> wf_db (authenticate sha256 now token d).1.
Proof.
  intros Hwf. unfold authenticate. destruct (_ !! _) as [row|]; [|done].
  destruct (negb _); [done|]. destruct (_ <=? _); [|done]. by apply wf_delete_session.
Qed.

(** ** Facts: deletion *)

Lemma ids_delete_where id (us : list User) k :
  k ∈ u_id <$> delete_where (fun u => u_id u =? id) us <-> k ∈ u_id <$> us /\ k <> id.
Proof.
  rewrite !list_elem_of_fmap. split.
  - intros (u & -> & [Hp Hu]%elem_of_delete_where). split; [eauto|lia].
  - intros [(u & -> & Hu) Hk]. exists u. split; [done|]. apply elem_of_delete_where. split; [lia|done].
Qed.

Lemma get_None id d : get id d = None <-> id ∉ u_id <$> users d.
Proof. rewrite <-get_is_Some, <-eq_None_not_Some. done. Qed.

Lemma wf_delete now id d : wf_db d -> wf_db (delete now id d).
Proof.
  intros Hwf. unfold delete. destruct (get id d) as [u0|] eqn:E; [|done]. destruct Hwf.
  split; cbn [set_tokens set_codes set_sessions set_users users users_seq auth_sessions recovery_codes
              codes_seq api_tokens]; try done.
  - eapply sublist_NoDup; [exact wf_ids0|]. by apply (fmap_sublist u_id), delete_where_sublist.
  - intros u [_ Hu]%elem_of_delete_where. auto.
  - eapply sublist_NoDup; [exact wf_names0|]. by apply fmap_sublist, delete_where_sublist.
  - unfold delete_where. clear -wf_subjects0. revert wf_subjects0.
    induction (users d) as [|u us IH]; [done|]. rewrite filter_cons. cbn [omap list_omap].
    destruct (u_oidc_subject u) eqn:Es.
    + intros [Hs Hn]%NoDup_cons. destruct (decide _); [|auto]. cbn [omap list_omap]. rewrite Es.
      apply NoDup_cons. split; [|auto]. intros (v & [_ Hv]%list_elem_of_filter & Hvs)%list_elem_of_omap.
      apply Hs, list_elem_of_omap. eauto.
    + intros Hn. destruct (decide _); [|auto]. cbn [omap list_omap]. rewrite Es. auto.
  - intros u [_ Hu]%elem_of_delete_where. auto.
  - intros k s uid [Hk Hs]%map_lookup_filter_Some Hu. apply ids_delete_where.
    split; [eauto|]. simpl in Hs. congruence.
  - eapply sublist_NoDup; [exact wf_code_ids0|]. by apply (fmap_sublist rc_id), delete_where_sublist.
  - intros c [_ Hc]%elem_of_delete_where. auto.
  - intros c [Hp Hc]%elem_of_delete_where. apply ids_delete_where. split; [auto|lia].
  - intros t uid (t1 & (t0 & Ht0 & ->)%elem_of_update_where & ->)%elem_of_update_where Hu.
    apply ids_delete_where. destruct (owned_by id t0) eqn:Eo; simpl in Hu.
    + assert (owned_by id (revoke_row now t0) = true) as Er by done.
      destruct (bool_decide _); simpl in Hu; [rewrite Er in Hu|rewrite Eo in Hu]; done.
    + rewrite Eo in Hu. unfold owned_by in Eo. bools. split; [eauto|congruence].
Qed.

Lemma wf_reset_all now d : wf_db d -> wf_db (reset_all now d).
Proof.
  intros Hwf. unfold reset_all. apply foldl_invariant; [|intros; by apply wf_delete].
  revert Hwf. apply wf_set_sessions. intros m k s. by rewrite lookup_empty.
Qed.

(** ** Facts: administrators *)

Definition has_admin (d : AuthDb) : Prop := exists u, u ∈ users d /\ active_admin u = true.

Lemma has_admin_count d : 0 < active_admin_count d <-> has_admin d.
Proof.
  unfold active_admin_count, has_admin. destruct (filter _ (users d)) as [|u l] eqn:E.
  - split; [simpl; lia|]. intros (u & Hu & Ha).
    assert (u ∈ filter (fun u => active_admin u = true) (users d)) as H by by apply list_elem_of_filter.
    rewrite E in H. by apply elem_of_nil in H.
  - split; [|simpl; lia]. intros _. exists u.
    assert (u ∈ filter (fun u => active_admin u = true) (users d)) as H by (rewrite E; left).
    apply list_elem_of_filter in H as [Ha Hu]. done.
Qed.

(** With two active administrators, one is left without a given account. *)
Lemma another_admin d id :
  wf_db d -> 1 < active_admin_count d ->
  exists u, u ∈ users d /\ active_admin u = true /\ u_id u <> id.
Proof.
  intros Hwf Hc. unfold active_admin_count in Hc.
  assert (NoDup (filter (fun u => active_admin u = true) (users d))) as Hnd
    by by apply NoDup_filter, NoDup_users.
  destruct (filter _ _) as [|u [|v l]] eqn:E; [simpl in Hc; lia..|].
  assert (forall w, w ∈ u :: v :: l -> active_admin w = true /\ w ∈ users d) as Hin.
  { intros w Hw. rewrite <-E in Hw. by apply list_elem_of_filter in Hw. }
  destruct (Hin u) as [Hau Hu]; [left|]. destruct (Hin v) as [Hav Hv]; [right; left|].
  destruct (decide (u_id u = id)) as [<-|]; [|by exists u]. exists v. split_and!; [done..|].
  intros Hid. apply NoDup_cons in Hnd as [Hn _]. apply Hn.
  rewrite (NoDup_fmap_inj_in u_id (users d) v u) by (done || apply Hwf). left.
Qed.

Lemma has_admin_update p f d :
  (forall u, p u = true -> active_admin (f u) = active_admin u) ->
  has_admin d -> has_admin (set_users (update_where p f) d).
Proof.
  intros Hf (u & Hu & Ha). exists (if p u then f u else u). split.
  - apply elem_of_update_where. eauto.
  - destruct (p u) eqn:E; [|done]. by rewrite Hf.
Qed.

Lemma has_admin_keep id f d :
  (exists u, u ∈ users d /\ active_admin u = true /\ u_id u <> id) -> has_admin (update_user id f d).
Proof.
  intros (u & Hu & Ha & Hid). exists u. split; [|done]. apply elem_of_update_where.
  exists u. split; [done|]. by destruct (Z.eqb_spec (u_id u) id).
Qed.

Lemma has_admin_delete now id d :
  (exists u, u ∈ users d /\ active_admin u = true /\ u_id u <> id) -> has_admin (delete now id d).
Proof.
  intros (u & Hu & Ha & Hid). unfold delete. destruct (get id d); [|by exists u].
  exists u. split; [|done]. apply elem_of_delete_where. split; [lia|done].
Qed.

(** ** Facts: cookies *)

Lemma hex_digit_plain d : 0 <= d < 16 -> bool_decide (hex_digit d = "."%char) = false.
Proof.
  intros Hd. assert (forall n, (n < 16)%nat ->
    bool_decide (hex_digit (Z.of_nat n) = "."%char) = false) as H.
  { intros n Hn. do 16 (destruct n as [|n]; [vm_compute; reflexivity|]). lia. }
  specialize (H (Z.to_nat d)). rewrite Z2Nat.id in H by lia. apply H. lia.
Qed.

Lemma hex_encode_plain bytes :
  Forall (fun b => 0 <= b < 256) bytes -> contains_char "." (hex_encode bytes) = false.
Proof.
  induction 1 as [|b bytes Hb _ IH]; [done|]. cbn [hex_encode foldr contains_char].
  rewrite !hex_digit_plain; [exact IH|apply Z.mod_pos_bound; lia|].
  split; [apply Z.div_pos; lia|apply Z.div_lt_upper_bound; lia].
Qed.

(** ** Claims *)

(** A cookie gives back the token it was made of: whatever the random bytes, the value
    written in the cookie of a session reads back as its identifier and its secret. *)
Theorem cookie_round_trip (id secret : list Z) :
  Forall (fun b => 0 <= b < 256) id -> id <> [] -> secret <> [] ->
  parse_token (cookie_value (generate id secret)) = Some (generate id secret).
Proof.
  intros Hid Hi Hs. unfold parse_token, cookie_value, generate. cbn [st_id st_secret].
  change ("." +:+ hex_encode secret)%string with (String "." (hex_encode secret)).
  rewrite split_once_app by by apply hex_encode_plain.
  destruct id; [done|]. destruct secret; [done|]. done.
Qed.

Lemma cookie_round_trip_witness :
  parse_token (cookie_value (generate [0; 171; 255] [46; 1])) =
  Some {| st_id := "00abff"; st_secret := "2e01" |}.
Proof. apply (cookie_round_trip [0; 171; 255] [46; 1]); [repeat constructor; lia|done|done]. Defined.

(** A session opened for an account answers, for thirty days to the millisecond and no
    longer, to the holder of its secret and to nobody else; once expired it is deleted when
    it is presented with the secret. *)
Theorem session_lasts_thirty_days sha256 now uid token d d' :
  create sha256 now uid token d = (d', Some token) ->
  forall t p, st_id p = st_id token ->
  let holder := sha256 (st_secret p) = sha256 (st_secret token) in
  let end_ := to_sql (now + td_days LIFETIME_DAYS) in
  ((authenticate sha256 t p d').2 = Some uid <-> holder /\ t < end_) /\
  (holder -> end_ <= t -> authenticate sha256 t p d' = (delete_session (st_id token) d', None)) /\
  (~ (holder /\ end_ <= t) -> (authenticate sha256 t p d').1 = d').
Proof.
  unfold create. destruct (auth_sessions d !! st_id token); [done|].
  destruct (get uid d); [|done]. intros [= <-] t p Hp.
  set (end_ := to_sql (now + td_days LIFETIME_DAYS)).
  set (holder := sha256 (st_secret p) = sha256 (st_secret token)).
  set (row := {| s_token_hash := _ |}).
  assert (auth_sessions (purge_expired now (set_sessions <[st_id token:=row]> d)) !! st_id p = Some row)
    as Hrow.
  { rewrite Hp. apply map_lookup_filter_Some. split; [apply lookup_insert_eq|].
    simpl. unfold end_, to_sql, LIFETIME_DAYS, td_days, ns_per_s, ns_per_ms.
    change (30 * (86400 * 1000000000)) with (2592000000 * 1000000).
    rewrite Z.div_add by done. lia. }
  unfold authenticate. rewrite Hrow. cbn [s_token_hash s_expires_at s_user_id row].
  unfold secret_hash. fold holder end_. rewrite Hp.
  destruct (bool_decide_reflect (sha256 (st_secret token) = sha256 (st_secret p))) as [Hh|Hh]; simpl.
  - assert holder as Hholder by by unfold holder.
    fold end_. destruct (Z.leb_spec end_ t); simpl; (split_and!; [split|..]); try done; try lia.
    intros Hn. destruct Hn. by split.
  - split_and!; [split; [done|]|..]; try done. intros [Hx _]. by destruct Hh.
Qed.

Definition no_accounts : AuthDb :=
  {| users := []; users_seq := 0; auth_sessions := ∅; recovery_codes := []; codes_seq := 0;
     api_tokens := []; tokens_seq := 0 |}.

Lemma session_lasts_thirty_days_witness :
  let hash := fun s => byte <$> Stdlib.Strings.String.list_ascii_of_string s in
  let d := (insert_first_admin 0 "admin" "$hash" no_accounts).1 in
  let token := generate [1; 2] [3; 4] in
  let d' := (create hash 5 1 token d).1 in
  (authenticate hash (td_days 30 - 1) token d').2 = Some 1 /\
  (authenticate hash (td_days 30) token d').2 = None.
Proof.
  intros hash d token d'.
  assert (create hash 5 1 token d = (d', Some token)) as Hc by (vm_compute; reflexivity).
  destruct (session_lasts_thirty_days hash 5 1 token d d' Hc (td_days 30 - 1) token eq_refl) as [H1 _].
  destruct (session_lasts_thirty_days hash 5 1 token d d' Hc (td_days 30) token eq_refl)
    as (_ & H2 & _).
  split.
  - apply H1. split; [done|]. by vm_compute.
  - rewrite H2; [done|done|]. by vm_compute.
Defined.

(** ** Facts: what every change keeps

    The tables stay well formed and keep an active administrator. *)
Definition safe (d d' : AuthDb) : Prop :=
  wf_db d -> wf_db d' /\ (has_admin d -> has_admin d').

Lemma safe_refl d : safe d d.
Proof. done. Qed.

Lemma safe_then (f : AuthDb -> AuthDb) d0 d : safe d (f d) -> safe d0 d -> safe d0 (f d).
Proof. intros Hf Hd Hwf. destruct (Hd Hwf) as [Hwf' Ha]. destruct (Hf Hwf') as [? Ha']. auto. Qed.

Lemma safe_users f d :
  wf_db (set_users (update_where f.1 f.2) d) ->
  (forall u, f.1 u = true -> active_admin (f.2 u) = active_admin u) ->
  safe d (set_users (update_where f.1 f.2) d).
Proof. intros Hwf Ha _. split; [done|]. by apply has_admin_update. Qed.

(** A change that leaves the users alone. *)
Lemma safe_same_users d d' : (wf_db d -> wf_db d') -> users d' = users d -> safe d d'.
Proof. intros Hwf Hu H. split; [auto|]. unfold has_admin. by rewrite Hu. Qed.

Ltac safe_row lem := apply safe_then; intros Hwf; split; [by apply lem|];
  apply has_admin_update; try done; intros u Hu; done.
Ltac safe_rest lem := apply safe_then; apply safe_same_users; [apply lem|try done].

Section Safe.
Context (d0 d : AuthDb).

Lemma safe_set_password id h : safe d0 d -> safe d0 (set_password_hash id h d).
Proof. safe_row wf_set_password. Qed.
Lemma safe_set_display_name id n : safe d0 d -> safe d0 (set_display_name id n d).
Proof. safe_row wf_set_display_name. Qed.
Lemma safe_touch_login now id : safe d0 d -> safe d0 (touch_login now id d).
Proof. safe_row wf_touch_login. Qed.
Lemma safe_totp_pending id s : safe d0 d -> safe d0 (set_totp_pending id s d).
Proof. safe_row wf_set_totp_pending. Qed.
Lemma safe_totp_enabled id : safe d0 d -> safe d0 (set_totp_enabled id d).
Proof. safe_row wf_set_totp_enabled. Qed.
Lemma safe_clear_totp id : safe d0 d -> safe d0 (clear_totp id d).
Proof.
  apply safe_then. intros Hwf. split; [by apply wf_clear_totp|].
  intros Ha. unfold has_admin. apply (has_admin_update (fun u => u_id u =? id) (with_totp None false)) in Ha;
    [|done]. exact Ha.
Qed.
Lemma safe_link id issuer subject : safe d0 d -> safe d0 (link_oidc id issuer subject d).1.
Proof.
  apply (safe_then (fun d => (link_oidc id issuer subject d).1)). intros Hwf.
  split; [by apply wf_link_oidc|]. unfold link_oidc. destruct (subject_taken _ _ _); [done|].
  apply has_admin_update. done.
Qed.
Lemma safe_codes id hashes : safe d0 d -> safe d0 (replace_recovery_codes id hashes d).1.
Proof.
  apply (safe_then (fun d => (replace_recovery_codes id hashes d).1)), safe_same_users;
    [apply wf_replace_codes|].
  unfold replace_recovery_codes. destruct (get id d), hashes; try done; cbn [fst]; by rewrite users_add_codes.
Qed.
Lemma safe_consume now id hash : safe d0 d -> safe d0 (consume_recovery_code now id hash d).1.
Proof.
  apply (safe_then (fun d => (consume_recovery_code now id hash d).1)), safe_same_users;
    [apply wf_consume|]. unfold consume_recovery_code. by destruct (first_where _ _).
Qed.
Lemma safe_delete_session id : safe d0 d -> safe d0 (delete_session id d).
Proof. safe_rest wf_delete_session. Qed.
Lemma safe_delete_for_user id keep : safe d0 d -> safe d0 (delete_for_user id keep d).
Proof. safe_rest wf_delete_for_user. by destruct keep. Qed.
Lemma safe_purge now : safe d0 d -> safe d0 (purge_expired now d).
Proof. safe_rest wf_purge. Qed.
Lemma safe_create sha256 now id token : safe d0 d -> safe d0 (create sha256 now id token d).1.
Proof.
  apply (safe_then (fun d => (create sha256 now id token d).1)), safe_same_users; [apply wf_create|].
  unfold create. by destruct (_ !! _), (get id d).
Qed.
Lemma safe_authenticate sha256 now token : safe d0 d -> safe d0 (authenticate sha256 now token d).1.
Proof.
  apply (safe_then (fun d => (authenticate sha256 now token d).1)), safe_same_users;
    [apply wf_authenticate|]. unfold authenticate. destruct (_ !! _); [|done].
  destruct (negb _); [done|]. by destruct (_ <=? _).
Qed.
Lemma safe_insert now n : safe d0 d -> safe d0 (insert now n d).1.
Proof.
  apply (safe_then (fun d => (insert now n d).1)). intros Hwf. split; [by apply wf_insert|].
  unfold insert. destruct (username_taken _ _); [done|]. destruct (subject_taken _ _ _); [done|].
  intros (u & Hu & Ha). exists u. split; [|done]. apply elem_of_app. by left.
Qed.
Lemma safe_insert_first now name h : safe d0 d -> safe d0 (insert_first_admin now name h d).1.
Proof.
  apply (safe_then (fun d => (insert_first_admin now name h d).1)). intros Hwf.
  split; [by apply wf_insert_first_admin|]. unfold insert_first_admin. destruct (0 <? _); [done|].
  intros (u & Hu & Ha). exists u. split; [|done]. apply elem_of_app. by left.
Qed.
End Safe.

Create HintDb accounts discriminated.
#[export] Hint Resolve safe_refl safe_set_password safe_set_display_name safe_touch_login
  safe_totp_pending safe_totp_enabled safe_clear_totp safe_link safe_codes safe_consume
  safe_delete_session safe_delete_for_user safe_purge safe_create safe_authenticate safe_insert
  safe_insert_first : accounts.
