(* ===== verification/ApiToken.v ===== *)
(** * API tokens ([auth/token.rs], [auth/client_ip.rs])

    What a bearer token allows: the row it names, its owner, its dates, its networks, and the
    calls it has made in the current minute.

    [sha256], [parse_time] (chrono), [Net] with [net_contains] and [parse_net] (ipnet),
    [json_strings] and [networks_text] (serde_json) and the text [display_ip] of an address
    stand for code outside the repository. *)
From Stdlib Require Import Ascii.
From Stdlib Require String.
From S2P Require Import Prelude Text Chrono RateLimit Accounts.

Definition TOKEN_PREFIX : string := "dmt_".
Definition DISPLAY_LEN : nat := (String.length TOKEN_PREFIX + 8)%nat.
Definition TOUCH_INTERVAL : Duration := td_seconds 60.
Definition RATE_LIMIT_PER_MINUTE : Z := 120.
Definition RATE_WINDOW : Duration := td_seconds 60.

(** ** Scopes *)

Module Scope.
Inductive Scope := Read | Write.

Definition as_str (s : Scope) : string := match s with Read => "read" | Write => "write" end.

Definition parse (raw : string) : option Scope :=
  let raw := trim raw in
  if bool_decide (raw = "read") then Some Read
  else if bool_decide (raw = "write") then Some Write
  else None.

Definition rank (s : Scope) : Z := match s with Read => 0 | Write => 1 end.
Definition allows (s wanted : Scope) : bool := rank wanted <=? rank s.
Definition min (a b : Scope) : Scope := if rank a <=? rank b then a else b.

#[global] Instance eq_dec : EqDecision Scope.
Proof. solve_decision. Defined.
End Scope.
Notation Scope := Scope.Scope.

Record ApiToken := {
  at_id : Z;
  at_name : string;
  at_scope : Scope;
  at_owner : option string;
  at_limited_by_owner : bool;
}.

Definition quote : string := String "034"%char EmptyString.

(** [ApiToken::require]: the reason of the refusal. *)
Definition require (t : ApiToken) (wanted : Scope) : option string :=
  if Scope.allows (at_scope t) wanted then None
  else if at_limited_by_owner t
  then Some ("The token " +:+ quote +:+ at_name t +:+ quote +:+ " was created by " +:+
             (at_owner t ?? "an account") +:+
             ", who is no longer an administrator: it can only read now. Create a new write token from an administrator account.")%string
  else Some ("This action needs a token with the " +:+ quote +:+ Scope.as_str wanted +:+ quote +:+
             " scope; the token " +:+ quote +:+ at_name t +:+ quote +:+ " is " +:+ quote +:+
             Scope.as_str (at_scope t) +:+ quote +:+
             " only. Create a write token in Settings → API & assistants.")%string.

(** ** Headers

    The values of a [HeaderMap] by lower-case name, in order; [to_str] refuses what is not
    visible ASCII. *)
Notation HeaderMap := (list (string * string)).

Definition visible (a : ascii) : bool := ((32 <=? byte a) && (byte a <? 127)) || (byte a =? 9).
Definition to_str (v : string) : option string := if string_forall visible v then Some v else None.
Definition header_get (name : string) (headers : HeaderMap) : option string :=
  find_map (fun h => if bool_decide (h.1 = name) then Some h.2 else None) headers.
Definition header_get_all (name : string) (headers : HeaderMap) : list string :=
  omap (fun h => if bool_decide (h.1 = name) then Some h.2 else None) headers.

Definition extract_bearer (headers : HeaderMap) : option string :=
  v ← header_get "authorization" headers;
  header ← trim <$> to_str v;
  '(scheme, value) ← split_once " "%char header;
  if negb (eq_ignore_ascii_case scheme "bearer") then None
  else let token := trim value in if starts_with TOKEN_PREFIX token then Some token else None.

(** [chars().take(n)] *)
Fixpoint take_chars (n : nat) (s : string) : string :=
  match s with
  | EmptyString => EmptyString
  | String a s' =>
      if starts_char a then
        match n with O => EmptyString | S n' => String a (take_chars n' s') end
      else String a (take_chars n s')
  end.

Definition display_prefix (token : string) : string := take_chars DISPLAY_LEN token.

(** [IpAddr::to_canonical] brings [::ffff:a.b.c.d] back to IPv4. *)
Definition to_canonical (ip : IpAddr) : IpAddr :=
  match ip with
  | V4 bits => V4 bits
  | V6 bits => if bits / 2 ^ 32 =? 65535 then V4 (bits mod 2 ^ 32) else V6 bits
  end.

(** ** Calls per minute *)

Record RateStatus := { rs_limit : Z; rs_remaining : Z; rs_reset_secs : Z }.

(** [HashMap<i64, (Instant, u32)>] *)
Notation TokenRateLimiter := (gmap Z (Z * Z)).

Definition since (now earlier : Z) : Duration := Z.max (now - earlier) 0.

Definition rate_check (token_id now : Z) (windows : TokenRateLimiter) :
    TokenRateLimiter * (Z + RateStatus) :=
  let '(start, calls) := (windows !! token_id) ?? (now, 0) in
  let '(start, calls) := if RATE_WINDOW <=? since now start then (now, 0) else (start, calls) in
  let reset := Z.max (RATE_WINDOW - since now start) 0 / ns_per_s + 1 in
  if RATE_LIMIT_PER_MINUTE <=? calls then (<[token_id := (start, calls)]> windows, inl reset)
  else
    let calls := calls + 1 in
    let windows := <[token_id := (start, calls)]> windows in
    let status := {| rs_limit := RATE_LIMIT_PER_MINUTE;
                     rs_remaining := RATE_LIMIT_PER_MINUTE - calls; rs_reset_secs := reset |} in
    let windows := if (256 <? size windows)%nat
                   then filter (fun kw => since now kw.2.1 < RATE_WINDOW) windows else windows in
    (windows, inr status).

(** ** Tokens *)

Module Outcome.
Inductive Outcome :=
  | Valid (token : ApiToken)
  | Unknown
  | Expired (name at_ : string)
  | OwnerDisabled (name : string)
  | NetworkDenied (name : string) (ip : option IpAddr).
End Outcome.
Notation Outcome := Outcome.Outcome.

Module TokenError.
Inductive TokenError :=
  | Unauthorized
  | Expired (message : string)
  | OwnerDisabled (message : string)
  | Forbidden (message : string)
  | TooManyRequests (retry_after : Z).
End TokenError.
Notation TokenError := TokenError.TokenError.

Record Checked := { ck_token : ApiToken; ck_rate : RateStatus }.

Record NewToken (Net : Type) := {
  nt_name : string;
  nt_scope : Scope;
  nt_user_id : option Z;
  nt_expires_at : option DateTime;
  nt_allowed_networks : list Net;
}.
Arguments nt_name {Net}.
Arguments nt_scope {Net}.
Arguments nt_user_id {Net}.
Arguments nt_expires_at {Net}.
Arguments nt_allowed_networks {Net}.

Section Tokens.
Context {Net : Type} (net_contains : Net -> IpAddr -> bool) (parse_net : string -> option Net).
Context (json_strings : string -> option (list string)) (networks_text : list Net -> string).
Context (rfc3339 : DateTime -> string) (parse_time : string -> option DateTime).
Context (sha256 : string -> list Z) (display_ip : IpAddr -> string).

Definition network_allows (networks : list Net) (ip : option IpAddr) : bool :=
  match networks with
  | [] => true
  | _ =>
      match to_canonical <$> ip with
      | None => false
      | Some ip => existsb (fun net => net_contains net ip) networks
      end
  end.

Definition decode_networks (raw : option string) : list Net :=
  omap parse_net ((raw ≫= json_strings) ?? []).

(** [token::create]; the token is drawn by the caller. *)
Definition create_token (now : DateTime) (clear : string) (new : NewToken Net) (d : AuthDb) :
    AuthDb * option Z :=
  let hash := sha256 clear in
  if existsb (fun t => bool_decide (t_token_hash t = hash)) (api_tokens d) ||
     match nt_user_id new with Some id => negb (bool_decide (is_Some (get id d))) | None => false end
  then (d, None)
  else
    let row := {| t_id := tokens_seq d + 1; t_name := nt_name new; t_prefix := display_prefix clear;
                  t_token_hash := hash; t_scope := Scope.as_str (nt_scope new);
                  t_created_at := strftime now; t_last_used_at := None; t_revoked_at := None;
                  t_user_id := nt_user_id new; t_expires_at := rfc3339 <$> nt_expires_at new;
                  t_allowed_networks := match nt_allowed_networks new with
                                        | [] => None
                                        | nets => Some (networks_text nets)
                                        end;
                  t_last_used_ip := None |} in
    ({| users := users d; users_seq := users_seq d; auth_sessions := auth_sessions d;
        recovery_codes := recovery_codes d; codes_seq := codes_seq d;
        api_tokens := api_tokens d ++ [row]; tokens_seq := tokens_seq d + 1 |},
     Some (tokens_seq d + 1)).

Definition live (id : Z) (t : TokenRow) : bool :=
  (t_id t =? id) && bool_decide (t_revoked_at t = None).

(** [token::revoke] *)
Definition revoke (now : DateTime) (id : Z) (d : AuthDb) : AuthDb * bool :=
  (set_tokens (update_where (live id) (revoke_row now)) d, existsb (live id) (api_tokens d)).

Definition touch_row (now : DateTime) (ip : option string) (t : TokenRow) : TokenRow :=
  {| t_id := t_id t; t_name := t_name t; t_prefix := t_prefix t; t_token_hash := t_token_hash t;
     t_scope := t_scope t; t_created_at := t_created_at t; t_last_used_at := Some (strftime now);
     t_revoked_at := t_revoked_at t; t_user_id := t_user_id t; t_expires_at := t_expires_at t;
     t_allowed_networks := t_allowed_networks t;
     t_last_used_ip := match ip with Some ip => Some ip | None => t_last_used_ip t end |}.

Definition touch_if_stale (now : DateTime) (row : TokenRow) (ip : option IpAddr) (d : AuthDb) : AuthDb :=
  let ip := (fun ip => display_ip (to_canonical ip)) <$> ip in
  let fresh := is_some_and (t_last_used_at row) (fun at_ => num_seconds (now - at_) <? TOUCH_INTERVAL / ns_per_s) in
  if fresh && (bool_decide (ip = None) || bool_decide (ip = t_last_used_ip row)) then d
  else set_tokens (update_where (fun t => t_id t =? t_id row) (touch_row now ip)) d.

Definition candidate (clear : string) (t : TokenRow) : bool :=
  bool_decide (t_prefix t = display_prefix clear) && bool_decide (t_revoked_at t = None) &&
  bool_decide (t_token_hash t = sha256 clear).

Definition granted (t : TokenRow) : Scope := Scope.parse (t_scope t) ?? Scope.Read.

(** A write token of an owner who is no longer an administrator only reads. *)
Definition effective_scope (owner : option User) (t : TokenRow) : Scope :=
  let owner_is_admin := match owner with Some u => Role.is_admin (u_role u) | None => true end in
  if owner_is_admin then granted t else Scope.min (granted t) Scope.Read.

(** [token::authenticate]: the first row whose hash matches decides. *)
Definition authenticate_token (now : DateTime) (clear : string) (ip : option IpAddr) (d : AuthDb) :
    AuthDb * Outcome :=
  match first_where (candidate clear) (api_tokens d) with
  | None => (d, Outcome.Unknown)
  | Some row =>
      let owner := t_user_id row ≫= (fun id => get id d) in
      if bool_decide (is_Some (t_user_id row)) && negb (bool_decide (is_Some owner))
      then (d, Outcome.Unknown)
      else if is_some_and owner u_disabled then (d, Outcome.OwnerDisabled (t_name row))
      else
        let past := fun text => match parse_time text with Some at_ => at_ <=? now | None => true end in
        match option_filter past (t_expires_at row) with
        | Some text => (d, Outcome.Expired (t_name row) text)
        | None =>
            if negb (network_allows (decode_networks (t_allowed_networks row)) ip)
            then (d, Outcome.NetworkDenied (t_name row) ip)
            else
              let scope := effective_scope owner row in
              (touch_if_stale now row ip d,
               Outcome.Valid {| at_id := t_id row; at_name := t_name row; at_scope := scope;
                                at_owner := u_username <$> owner;
                                at_limited_by_owner := negb (bool_decide (scope = granted row)) |})
        end
  end.

(** [token::check], on the tables and the calls counted so far. *)
Definition check (now instant : Z) (headers : HeaderMap) (ip : option IpAddr) (scope : Scope)
    (st : AuthDb * TokenRateLimiter) : (AuthDb * TokenRateLimiter) * (TokenError + Checked) :=
  match extract_bearer headers with
  | None => (st, inl TokenError.Unauthorized)
  | Some clear =>
      let '(d, outcome) := authenticate_token now clear ip st.1 in
      let refuse e := ((d, st.2), inl e) in
      match outcome with
      | Outcome.Unknown => refuse TokenError.Unauthorized
      | Outcome.Expired name at_ =>
          refuse (TokenError.Expired ("The API token " +:+ quote +:+ name +:+ quote +:+ " expired on " +:+
            at_ +:+ ". Create a new one in Settings → API & assistants.")%string)
      | Outcome.OwnerDisabled name =>
          refuse (TokenError.OwnerDisabled ("The API token " +:+ quote +:+ name +:+ quote +:+
            " belongs to a disabled account.")%string)
      | Outcome.NetworkDenied name ip =>
          refuse (TokenError.Forbidden ("The API token " +:+ quote +:+ name +:+ quote +:+
            " cannot be used from " +:+ ((display_ip <$> ip) ?? "an unknown address") +:+ ".")%string)
      | Outcome.Valid token =>
          match require token scope with
          | Some message => refuse (TokenError.Forbidden message)
          | None =>
              match rate_check (at_id token) instant st.2 with
              | (windows, inr rate) => ((d, windows), inr {| ck_token := token; ck_rate := rate |})
              | (windows, inl retry_after) =>
                  ((d, windows), inl (TokenError.TooManyRequests retry_after))
              end
          end
      end
  end.

(** ** The address of a client *)

Context (parse_ip : string -> option IpAddr).

Definition trusted_net (trusted : list Net) (ip : IpAddr) : bool :=
  existsb (fun net => net_contains net ip) trusted.

Definition forwarded_for (headers : HeaderMap) (trusted : list Net) : option IpAddr :=
  let hops := omap (fun hop => parse_ip (trim hop))
                (concat (split ","%char <$> omap to_str (header_get_all "x-forwarded-for" headers))) in
  find_map (fun hop => if negb (trusted_net trusted hop) then Some hop else None) (reverse hops).

Definition resolve (peer : option IpAddr) (headers : HeaderMap) (trusted : list Net) : option IpAddr :=
  match peer with
  | Some peer =>
      if trusted_net trusted peer
      then match forwarded_for headers trusted with Some ip => Some ip | None => Some peer end
      else Some peer
  | None => None
  end.
End Tokens.

(** ** Facts: calls per minute *)

(** The calls of a run, token and instant, with their answers. *)
Fixpoint rate_run (calls : list (Z * Z)) (w : TokenRateLimiter) : TokenRateLimiter * list (Z * (Z + RateStatus)) :=
  match calls with
  | [] => (w, [])
  | (id, t) :: calls =>
      let '(w, answer) := rate_check id t w in
      let '(w, answers) := rate_run calls w in
      (w, (id, answer) :: answers)
  end.

Definition accepted (id : Z) (answers : list (Z * (Z + RateStatus))) : Z :=
  Z.of_nat (length (filter (fun a => a.1 = id /\ is_Some (match a.2 with inr s => Some s | _ => None end)) answers)).

Definition calls_of (id : Z) (calls : list (Z * Z)) : Z :=
  Z.of_nat (length (filter (fun c => c.1 = id) calls)).

(** A call inside the window of its token counts, up to the limit. *)
Lemma rate_check_inside id start n t w :
  w !! id = Some (start, n) -> start <= t < start + RATE_WINDOW ->
  exists w' answer, rate_check id t w = (w', answer) /\
    if n <? RATE_LIMIT_PER_MINUTE
    then w' !! id = Some (start, n + 1) /\ is_Some (match answer with inr s => Some s | _ => None end)
    else w' !! id = Some (start, n) /\ exists r, answer = inl r.
Proof.
  intros Hw Ht. unfold rate_check. rewrite Hw. simpl.
  replace (RATE_WINDOW <=? since t start) with false by (unfold since; lia).
  destruct (Z.ltb_spec n RATE_LIMIT_PER_MINUTE).
  - replace (RATE_LIMIT_PER_MINUTE <=? n) with false by lia. eexists _, _. split; [done|].
    split; [|done]. destruct (256 <? _)%nat.
    + apply map_lookup_filter_Some. rewrite lookup_insert_eq. split; [done|]. simpl. unfold since. lia.
    + by rewrite lookup_insert_eq.
  - replace (RATE_LIMIT_PER_MINUTE <=? n) with true by lia. eexists _, _. split; [done|].
    rewrite lookup_insert_eq. eauto.
Qed.

Lemma rate_check_other id id' start n t w :
  id' <> id -> w !! id = Some (start, n) -> start <= t < start + RATE_WINDOW ->
  (rate_check id' t w).1 !! id = Some (start, n).
Proof.
  intros Hid Hw Ht. unfold rate_check. destruct (_ ?? _) as [s c].
  destruct (if RATE_WINDOW <=? since t s then _ else _) as [s' c'].
  destruct (RATE_LIMIT_PER_MINUTE <=? c'); simpl; [by rewrite lookup_insert_ne|].
  destruct (256 <? _)%nat; [|by rewrite lookup_insert_ne].
  apply map_lookup_filter_Some. rewrite lookup_insert_ne by done. split; [done|]. simpl.
  unfold since. lia.
Qed.

Lemma rate_run_accepts id start calls n w :
  w !! id = Some (start, n) -> 0 <= n <= RATE_LIMIT_PER_MINUTE ->
  Forall (fun c => start <= c.2 < start + RATE_WINDOW) calls ->
  accepted id (rate_run calls w).2 = Z.min (calls_of id calls) (RATE_LIMIT_PER_MINUTE - n).
Proof.
  revert n w. unfold accepted, calls_of. induction calls as [|[k t] calls IH]; intros n w Hw Hn Hc.
  - simpl. lia.
  - apply Forall_cons in Hc as [Ht Hc]. simpl in Ht. cbn [rate_run].
    destruct (decide (k = id)) as [->|Hk].
    + destruct (rate_check_inside id start n t w Hw Ht) as (w' & answer & -> & Ha).
      destruct (rate_run calls w') as [w'' answers] eqn:E. cbn [snd].
      rewrite !filter_cons. cbn [fst snd]. rewrite (decide_True (P := id = id)) by done.
      destruct (Z.ltb_spec n RATE_LIMIT_PER_MINUTE).
      * destruct Ha as [Hw' Hs]. rewrite decide_True by done.
        specialize (IH (n + 1) w' Hw' ltac:(lia) Hc). rewrite E in IH. cbn [length snd] in *. lia.
      * destruct Ha as [Hw' [r ->]]. rewrite decide_False by (intros [_ [? ?]]; done).
        specialize (IH n w' Hw' Hn Hc). rewrite E in IH. cbn [length snd] in *. lia.
    + pose proof (rate_check_other id k start n t w Hk Hw Ht) as Hw'.
      destruct (rate_check k t w) as [w' answer]. cbn [fst] in Hw'.
      destruct (rate_run calls w') as [w'' answers] eqn:E. cbn [snd].
      rewrite !filter_cons. cbn [fst snd]. rewrite (decide_False (P := k = id)) by done.
      rewrite decide_False by (intros [? _]; done).
      specialize (IH n w' Hw' Hn Hc). by rewrite E in IH.
Qed.

(** ** Facts: what passes the check *)

Lemma check_sound {Net} (net_contains : Net -> IpAddr -> bool) parse_net
    json_strings parse_time sha256 display_ip now instant headers ip scope d w st' ck :
  check net_contains parse_net json_strings parse_time sha256 display_ip
    now instant headers ip scope (d, w) = (st', inr ck) ->
  exists clear row,
    extract_bearer headers = Some clear /\ row ∈ api_tokens d /\
    t_token_hash row = sha256 clear /\ t_revoked_at row = None /\ at_id (ck_token ck) = t_id row /\
    (forall text, t_expires_at row = Some text -> exists at_, parse_time text = Some at_ /\ now < at_) /\
    network_allows net_contains (decode_networks parse_net json_strings (t_allowed_networks row)) ip = true /\
    (forall id, t_user_id row = Some id -> exists u, get id d = Some u /\ u_disabled u = false /\
       (scope = Scope.Write -> u_role u = Role.Admin)) /\
    (scope = Scope.Write -> granted row = Scope.Write).
Proof.
  unfold check. destruct (extract_bearer headers) as [clear|]; [|done]. simpl.
  unfold authenticate_token. destruct (first_where _ _) as [row|] eqn:Er; [|done].
  apply first_where_Some in Er as [Hrow Hc]. unfold candidate in Hc.
  apply andb_true_iff in Hc as [[_ Hrev]%andb_true_iff Hhash]. bools.
  set (owner := t_user_id row ≫= _). destruct (_ && _) eqn:Eo; [done|].
  destruct (is_some_and owner u_disabled) eqn:Ed; [done|].
  destruct (option_filter _ _) eqn:Ee; [done|].
  destruct (network_allows _ _ _) eqn:En; [|done]. cbn [negb].
  set (scope0 := effective_scope owner row).
  destruct (require _ scope) eqn:Erq; [done|].
  destruct (rate_check _ _ _) as [w' [r|rate]]; [done|]. intros [= _ <-].
  assert (Scope.allows scope0 scope = true) as Hallows.
  { revert Erq. unfold require. cbn [at_scope]. destruct (Scope.allows scope0 scope); [done|].
    by destruct (at_limited_by_owner _). }
  exists clear, row. split_and!; try done.
  - intros text Ht. rewrite Ht in Ee. simpl in Ee. destruct (parse_time text) as [at_|] eqn:Ep; [|done].
    exists at_. split; [done|]. destruct (Z.leb_spec at_ now); [done|lia].
  - intros id Hid. assert (owner = get id d) as Hown by (unfold owner; by rewrite Hid).
    rewrite Hown in *. rewrite Hid in Eo. destruct (get id d) as [u|]; [|done].
    exists u. split_and!; [done|done|]. intros ->. unfold scope0, effective_scope in Hallows. rewrite Hown in Hallows.
    destruct (u_role u); [done|..]; cbn [Role.is_admin] in Hallows; by destruct (granted row).
  - intros ->. unfold scope0, effective_scope in Hallows.
    destruct owner as [u|]; [destruct (Role.is_admin _)|]; by destruct (granted row).
Qed.

(** ** Claims *)

(** C36. A bearer token opens only what it may: a request that passes the check presented
    the secret of a row that is not revoked, whose date is not past, from an address its
    networks accept, whose owner, if it has one, exists and is not disabled; it passes for a
    write only if the row grants it and its owner is still an administrator. *)
Theorem token_opens_only_what_it_may {Net} (net_contains : Net -> IpAddr -> bool) parse_net
    json_strings parse_time sha256 display_ip now instant headers ip scope d w st' ck :
  check net_contains parse_net json_strings parse_time sha256 display_ip
    now instant headers ip scope (d, w) = (st', inr ck) ->
  exists clear row,
    extract_bearer headers = Some clear /\ row ∈ api_tokens d /\
    t_token_hash row = sha256 clear /\ t_revoked_at row = None /\ at_id (ck_token ck) = t_id row /\
    (forall text, t_expires_at row = Some text -> exists at_, parse_time text = Some at_ /\ now < at_) /\
    network_allows net_contains (decode_networks parse_net json_strings (t_allowed_networks row)) ip = true /\
    (forall id, t_user_id row = Some id -> exists u, get id d = Some u /\ u_disabled u = false /\
       (scope = Scope.Write -> u_role u = Role.Admin)) /\
    (scope = Scope.Write -> granted row = Scope.Write).
Proof. apply check_sound. Qed.

Definition write_token_db : AuthDb :=
  let db := (insert_first_admin 0 "ada" "$hash" no_accounts).1 in
  (create_token (Net := ()) (fun _ => "") (fun _ => "")
     (fun s => byte <$> Stdlib.Strings.String.list_ascii_of_string s) 5 "dmt_0123456789"
     {| nt_name := "bot"; nt_scope := Scope.Write; nt_user_id := Some 1; nt_expires_at := None;
        nt_allowed_networks := [] |} db).1.

Lemma token_opens_only_what_it_may_witness :
  let hash := fun s => byte <$> Stdlib.Strings.String.list_ascii_of_string s in
  exists row, row ∈ api_tokens write_token_db /\ t_token_hash row = hash "dmt_0123456789" /\
    (forall id, t_user_id row = Some id -> exists u, get id write_token_db = Some u /\ u_role u = Role.Admin).
Proof.
  intros hash.
  edestruct (token_opens_only_what_it_may (Net := ()) (fun _ _ => true) (fun _ => None) (fun _ => None)
    (fun _ => None) hash (fun _ => "") 7 7 [("authorization", "Bearer dmt_0123456789")] None
    Scope.Write write_token_db ∅) as (clear & row & H1 & H2 & H3 & _ & _ & _ & _ & H4 & _).
  - vm_compute. reflexivity.
  - exists row. split_and!; [done| |].
    + rewrite H3. f_equal. revert H1. vm_compute. congruence.
    + intros id Hid. destruct (H4 id Hid) as (u & Hu & _ & Hr). exists u. auto.
Defined.

(** A token that loops is stopped at a hundred and twenty calls a minute: of the calls
    made in the minute of its window, whatever the other tokens do, exactly those under the
    limit pass, and a refused call says after how many seconds it will pass again. *)
Theorem token_calls_are_capped id start n w calls :
  w !! id = Some (start, n) -> 0 <= n <= RATE_LIMIT_PER_MINUTE ->
  Forall (fun c => start <= c.2 < start + RATE_WINDOW) calls ->
  accepted id (rate_run calls w).2 = Z.min (calls_of id calls) (RATE_LIMIT_PER_MINUTE - n) /\
  forall t w' r, start <= t -> rate_check id t w = (w', inl r) ->
    1 <= r <= 61 /\ forall t', t + td_seconds r <= t' -> exists s, (rate_check id t' w').2 = inr s.
Proof.
  intros Hw Hn Hc. split; [by apply (rate_run_accepts id start)|]. intros t w' r Hst. unfold rate_check.
  rewrite Hw. change (Some (start, n) ?? (t, 0)) with (start, n). unfold since.
  destruct (Z.leb_spec RATE_WINDOW (Z.max (t - start) 0)) as [|Hin]; [done|].
  destruct (Z.leb_spec RATE_LIMIT_PER_MINUTE n); [|done]. intros [= <- <-].
  replace (Z.max (RATE_WINDOW - Z.max (t - start) 0) 0) with (RATE_WINDOW - (t - start)) by lia.
  pose proof (Z.mul_div_le (RATE_WINDOW - (t - start)) ns_per_s ltac:(done)) as H1.
  pose proof (Z.mul_succ_div_gt (RATE_WINDOW - (t - start)) ns_per_s ltac:(done)) as H2.
  set (q := (RATE_WINDOW - (t - start)) / ns_per_s) in *.
  unfold RATE_WINDOW, td_seconds, ns_per_s in *. split; [lia|]. intros t' Ht'.
  rewrite lookup_insert_eq. change (Some (start, n) ?? (t', 0)) with (start, n).
  cbv beta iota zeta. destruct (Z.leb_spec (60 * 1000000000) (Z.max (t' - start) 0)); [|lia]. eexists. reflexivity.
Qed.

Lemma token_calls_are_capped_witness :
  let calls := replicate 130 (7, td_seconds 9) in
  accepted 7 (rate_run calls (<[7 := (td_seconds 3, 20)]> ∅)).2 = 100.
Proof.
  intros calls. etransitivity.
  - apply (token_calls_are_capped 7 (td_seconds 3) 20 (<[7 := (td_seconds 3, 20)]> ∅) calls).
    + by rewrite lookup_insert_eq.
    + by vm_compute.
    + apply Forall_replicate. by vm_compute.
  - by vm_compute.
Defined.
