(* ===== verification/Auth.v ===== *)
(** * The state of authentication ([auth/mod.rs], [auth/audit.rs], [crypto.rs])

    What the handlers share: the tables, the memory of the server (login counters, sign-ins
    half-way, codes already used, calls per token, sign-ins sent to the identity provider),
    the errors they answer, and the code outside the repository they call ([Crates]).

    A request reads the clocks once and draws its random values from its [Env]. *)
From Stdlib Require Import Ascii.
From Stdlib Require String.
From S2P Require Import Prelude Text Chrono RateLimit Totp Handler Accounts ApiToken.

Module AuthError.
Inductive AuthError :=
  | Unauthorized (message : string)
  | Forbidden (message : string)
  | NotFound (message : string)
  | Invalid (message : string)
  | Conflict (message : string)
  | TooManyAttempts (message : string) (retry_after : Z)
  | Internal.
End AuthError.
Notation AuthError := AuthError.AuthError.

Definition admin_required : AuthError := AuthError.Forbidden "Admin role required.".
Definition operator_required : AuthError := AuthError.Forbidden "Operator or admin role required.".

(** ** Crates *)

(** [verify_password] is Argon2id on the stored text ([None]: it cannot be read),
    [hash_password] its hash with a salt, [seal] and [unseal] AES-256-GCM under the key of
    the instance, [pending_order] the order in which a map of sign-ins is walked; [net_contains]
    .. [time_text] belong to ipnet, serde_json, chrono and the standard formatting. *)
Class Crates := {
  sha256 : string -> list Z;
  hmac_sha1 : list Z -> list Z -> list Z;
  verify_password : string -> string -> option bool;
  hash_password : string -> string -> option string;
  seal : list Z -> list Z -> option (list Z);
  unseal : list Z -> list Z -> option (list Z);
  lowercase : string -> string;
  pending_order : gmap string Totp.Pending -> list (string * Totp.Pending);
  Net : Type;
  net_contains : Net -> IpAddr -> bool;
  parse_net : string -> option Net;
  json_strings : string -> option (list string);
  parse_time : string -> option DateTime;
  display_ip : IpAddr -> string;
  net_eq :: EqDecision Net;
  net_of_ip : IpAddr -> Net;
  net_trunc : Net -> Net;
  display_net : Net -> string;
  parse_addr : string -> option IpAddr;
  json_of_strings : list string -> string;
  time_text : DateTime -> string;
}.

(** ** Requests *)

(** The clocks, the address of the client ([ClientIp]) and the random values of a request. *)
Record Env := {
  e_now : DateTime;
  e_instant : Z;
  e_ip : option IpAddr;
  e_draw : Z;
  e_salt : string;
  e_session : SessionToken;
  e_pending : string;
  e_secret : list Z;
  e_nonce : list Z;
  e_codes : list (list Z);
}.

(** ** State *)

Module Configured.
Inductive Configured := UNKNOWN | ABSENT | PRESENT.
End Configured.
Notation Configured := Configured.Configured.

Record Entry := {
  en_at : DateTime;
  en_actor : option string;
  en_action : string;
  en_subject : option string;
  en_ip : option IpAddr;
}.

Record AuthState := {
  a_db : AuthDb;
  a_audit : list Entry;
  a_configured : Configured;
  a_purged : bool;
  a_limiter : Buckets;
  a_pending : gmap string Totp.Pending;
  a_replay : gmap Z Z;
  a_windows : TokenRateLimiter;
}.

Definition on_db (f : AuthDb -> AuthDb) (s : AuthState) : AuthState :=
  {| a_db := f (a_db s); a_audit := a_audit s; a_configured := a_configured s;
     a_purged := a_purged s; a_limiter := a_limiter s; a_pending := a_pending s;
     a_replay := a_replay s; a_windows := a_windows s |}.
Definition on_audit (f : list Entry -> list Entry) (s : AuthState) : AuthState :=
  {| a_db := a_db s; a_audit := f (a_audit s); a_configured := a_configured s;
     a_purged := a_purged s; a_limiter := a_limiter s; a_pending := a_pending s;
     a_replay := a_replay s; a_windows := a_windows s |}.
Definition remember_configured (present : bool) (s : AuthState) : AuthState :=
  {| a_db := a_db s; a_audit := a_audit s;
     a_configured := if present then Configured.PRESENT else Configured.ABSENT;
     a_purged := a_purged s; a_limiter := a_limiter s; a_pending := a_pending s;
     a_replay := a_replay s; a_windows := a_windows s |}.
Definition set_purged (s : AuthState) : AuthState :=
  {| a_db := a_db s; a_audit := a_audit s; a_configured := a_configured s;
     a_purged := true; a_limiter := a_limiter s; a_pending := a_pending s;
     a_replay := a_replay s; a_windows := a_windows s |}.
Definition on_limiter (f : Buckets -> Buckets) (s : AuthState) : AuthState :=
  {| a_db := a_db s; a_audit := a_audit s; a_configured := a_configured s;
     a_purged := a_purged s; a_limiter := f (a_limiter s); a_pending := a_pending s;
     a_replay := a_replay s; a_windows := a_windows s |}.
Definition set_pending (p : gmap string Totp.Pending) (s : AuthState) : AuthState :=
  {| a_db := a_db s; a_audit := a_audit s; a_configured := a_configured s;
     a_purged := a_purged s; a_limiter := a_limiter s; a_pending := p;
     a_replay := a_replay s; a_windows := a_windows s |}.
Definition set_replay (r : gmap Z Z) (s : AuthState) : AuthState :=
  {| a_db := a_db s; a_audit := a_audit s; a_configured := a_configured s;
     a_purged := a_purged s; a_limiter := a_limiter s; a_pending := a_pending s;
     a_replay := r; a_windows := a_windows s |}.
Definition set_windows (w : TokenRateLimiter) (s : AuthState) : AuthState :=
  {| a_db := a_db s; a_audit := a_audit s; a_configured := a_configured s;
     a_purged := a_purged s; a_limiter := a_limiter s; a_pending := a_pending s;
     a_replay := a_replay s; a_windows := w |}.

Notation H := (Handler AuthState AuthError).

(** A statement that answers and one that may fail. *)
Definition query {A} (f : AuthDb -> A) : H A := gets (fun s => f (a_db s)).
Definition execute (f : AuthDb -> AuthDb) : H () := modify (on_db f).
Definition call {A} (f : AuthDb -> AuthDb * A) : H A :=
  act (fun s => let '(d, a) := f (a_db s) in (on_db (fun _ => d) s, a)).

(** [AuthState::is_configured]: the database is read until the answer is known. *)
Definition is_configured : H bool :=
  configured ← gets a_configured;
  match configured with
  | Configured.PRESENT => mret true
  | Configured.ABSENT => mret false
  | Configured.UNKNOWN =>
      present ← query (fun d => 0 <? count d);
      modify (remember_configured present) ;; mret present
  end.

Definition purge_once (now : DateTime) : H () :=
  purged ← gets a_purged;
  modify set_purged ;;
  when_ (negb purged) (execute (purge_expired now)).

(** ** Audit log *)

Definition KEEP : nat := 5000.

(** [audit::record]; [draw] is the random byte that decides of the cleaning. *)
Definition record (env : Env) (actor : option string) (action : string) (subject : option string) : H () :=
  let entry := {| en_at := strftime (e_now env); en_actor := actor; en_action := action;
                  en_subject := subject; en_ip := e_ip env |} in
  modify (on_audit (fun log => log ++ [entry])) ;;
  when_ (e_draw env <? 3) (modify (on_audit (fun log => drop (length log - KEEP) log))).

(** [audit::recent]: the newest first. *)
Definition recent (limit : Z) (s : AuthState) : list Entry :=
  take (Z.to_nat (Z.max 1 (Z.min limit 1000))) (reverse (a_audit s)).

(** ** Secrets at rest *)

Definition NONCE_LEN : nat := 12.

Definition encrypt `{Crates} (nonce plaintext : list Z) : option (list Z) :=
  app nonce <$> seal nonce plaintext.

Definition decrypt `{Crates} (data : list Z) : option (list Z) :=
  if (length data <=? NONCE_LEN)%nat then None
  else unseal (take NONCE_LEN data) (drop NONCE_LEN data).

(** ** First configuration ([auth/setup_code.rs]) *)

Definition normalize_code (code : string) : string :=
  to_ascii_uppercase (string_filter is_ascii_alphanumeric code).

Definition setup_matches `{Crates} (expected given : string) : bool :=
  let given := normalize_code given in
  if bool_decide (given = "") then false
  else bool_decide (sha256 (normalize_code expected) = sha256 given).

(** ** Facts *)

Section Rules.
Context {E : Type}.

Lemma wp_call {A} (f : AuthDb -> AuthDb * A) (Q : A -> AuthState -> Prop) R s :
  Q (f (a_db s)).2 (on_db (fun _ => (f (a_db s)).1) s) -> wp (call f : H A) Q R s.
Proof. unfold wp, call, act. by destruct (f (a_db s)). Qed.
Lemma wp_query {A} (f : AuthDb -> A) (Q : A -> AuthState -> Prop) R s :
  Q (f (a_db s)) s -> wp (query f : H A) Q R s.
Proof. done. Qed.
Lemma wp_execute f (Q : () -> AuthState -> Prop) R s :
  Q () (on_db f s) -> wp (execute f : H ()) Q R s.
Proof. done. Qed.
End Rules.
#[export] Hint Resolve wp_call wp_query wp_execute : handler.

(** The clean-up and the cache touch no row a request reads. *)
Lemma wp_purge_once now (Q : () -> AuthState -> Prop) R s :
  Q () (set_purged (if a_purged s then s else on_db (purge_expired now) s)) ->
  wp (purge_once now : H ()) Q R s.
Proof. unfold purge_once. intros HQ. do 2 (apply wp_bind; hstep). by destruct (a_purged s) eqn:E. Qed.

Lemma wp_is_configured (Q : bool -> AuthState -> Prop) R s :
  (forall b, Q b s) -> (forall b, Q b (remember_configured b s)) -> wp (is_configured : H bool) Q R s.
Proof.
  unfold is_configured. intros H1 H2. apply wp_bind, wp_gets.
  destruct (a_configured s); [|apply wp_ret, H1..].
  by apply wp_bind, wp_query, wp_bind, wp_modify, wp_ret.
Qed.

Lemma wp_record env actor action subject (Q : () -> AuthState -> Prop) R s :
  (forall f, Q () (on_audit f s)) -> wp (record env actor action subject : H ()) Q R s.
Proof.
  unfold record. intros HQ. set (entry := {| en_at := _ |}). apply wp_bind, wp_modify, wp_when; intros _.
  - apply wp_modify. exact (HQ (fun log => drop (length (log ++ [entry]) - KEEP) (log ++ [entry]))).
  - apply HQ.
Qed.
#[export] Hint Resolve wp_purge_once wp_is_configured wp_record : handler.

(** One statement of a handler of this state. *)
Ltac astep :=
  lazymatch goal with
  | |- wp (call _) _ _ _ => apply wp_call
  | |- wp (query _) _ _ _ => apply wp_query
  | |- wp (execute _) _ _ _ => apply wp_execute
  | |- wp (record _ _ _ _) _ _ _ => apply wp_record; intros
  | |- wp is_configured _ _ _ => apply wp_is_configured; intros
  | |- wp (purge_once _) _ _ _ => apply wp_purge_once
  | |- wp (let _ := _ in _) _ _ _ => cbv zeta
  | |- _ => hstep
  end.

(** The tables of a state, whatever else has changed in it. *)
Ltac tables := cbn [a_db on_db on_audit remember_configured set_purged on_limiter set_pending
                    set_replay set_windows] in *.
