(* ===== verification/Targets.v ===== *)
(** * Devices ([db/targets.rs], [api/targets.rs])

    The table of devices, each with its secret encrypted, the statements on it and the routes that
    create, change, order and delete devices.  A row of the table refers to two others, its parent and
    its relay agent; deleting a device clears the references to it. *)
From Stdlib Require Import Ascii.
From Stdlib Require String.
From S2P Require Import Prelude Text Float64 Chrono Decimal Model Silence Overrides Db PolicyStore Handler Auth Wire.

(** ** The table *)

Record TargetInput := {
  in_name : string;
  in_address : string;
  in_kind : string;
  in_profile_id : option string;
  in_parent_id : option Z;
  in_via_agent : option Z;
  in_interval : Duration;
  in_enabled : bool;
  in_tags : gmap string string;
  (** [None]: keep the secret. *)
  in_credential : option Credential;
  in_group_name : string;
}.

(** A row; [r_interval] counts seconds, [r_credential] is the encrypted secret, the tags are kept as the
    map their JSON text writes down. *)
Record Row := {
  r_name : string;
  r_address : string;
  r_kind : string;
  r_profile_id : option string;
  r_parent_id : option Z;
  r_via_agent : option Z;
  r_interval : Z;
  r_enabled : bool;
  r_tags : gmap string string;
  r_credential : option (list Z);
  r_group_name : string;
  r_position : Z;
  r_last_probe_at : option DateTime;
  r_last_error : option string;
}.

Record Table := { last_id : Z; rows : gmap Z Row }.
Definition Table_new : Table := {| last_id := 0; rows := ∅ |}.

Definition with_rows (f : gmap Z Row -> gmap Z Row) (d : Table) : Table :=
  {| last_id := last_id d; rows := f (rows d) |}.

(** Assignments to some columns of a row. *)
Definition set_position (p : Z) (r : Row) : Row :=
  Build_Row (r_name r) (r_address r) (r_kind r) (r_profile_id r) (r_parent_id r) (r_via_agent r)
    (r_interval r) (r_enabled r) (r_tags r) (r_credential r) (r_group_name r) p
    (r_last_probe_at r) (r_last_error r).
Definition set_row_enabled (e : bool) (r : Row) : Row :=
  Build_Row (r_name r) (r_address r) (r_kind r) (r_profile_id r) (r_parent_id r) (r_via_agent r)
    (r_interval r) e (r_tags r) (r_credential r) (r_group_name r) (r_position r)
    (r_last_probe_at r) (r_last_error r).
Definition set_row_profile (p : string) (r : Row) : Row :=
  Build_Row (r_name r) (r_address r) (r_kind r) (Some p) (r_parent_id r) (r_via_agent r)
    (r_interval r) (r_enabled r) (r_tags r) (r_credential r) (r_group_name r) (r_position r)
    (r_last_probe_at r) (r_last_error r).
Definition set_probe (at_ : DateTime) (error : option string) (r : Row) : Row :=
  Build_Row (r_name r) (r_address r) (r_kind r) (r_profile_id r) (r_parent_id r) (r_via_agent r)
    (r_interval r) (r_enabled r) (r_tags r) (r_credential r) (r_group_name r) (r_position r)
    (Some at_) error.

(** [ON DELETE SET NULL] on [parent_id] and [via_agent]. *)
Definition clear_reference (id : Z) (o : option Z) : option Z :=
  if bool_decide (o = Some id) then None else o.
Definition clear_references (id : Z) (r : Row) : Row :=
  Build_Row (r_name r) (r_address r) (r_kind r) (r_profile_id r) (clear_reference id (r_parent_id r))
    (clear_reference id (r_via_agent r)) (r_interval r) (r_enabled r) (r_tags r) (r_credential r)
    (r_group_name r) (r_position r) (r_last_probe_at r) (r_last_error r).

#[export] Instance Credential_eq_dec : EqDecision Credential.
Proof.
  assert (EqDecision SnmpV3AuthProtocol) by solve_decision.
  assert (EqDecision SnmpV3PrivacyProtocol) by solve_decision.
  assert (EqDecision SnmpV3Auth) by solve_decision. assert (EqDecision SnmpV3Privacy) by solve_decision.
  unfold EqDecision, Decision. intros. decide equality; apply (decide _).
Defined.

(** Writing and reading a [Credential] as JSON, by [serde_json]. *)
Class CredentialJson := {
  json_of_credential : Credential -> option (list Z);
  credential_of_json : list Z -> option Credential;
}.

Module DbError.
Inductive DbError := Unique | Other.
End DbError.
Notation DbError := DbError.DbError.

Section table.
Context `{Crates} `{CredentialJson}.

Definition encrypt_credential (nonce : list Z) (c : Credential) : option (option (list Z)) :=
  match c with
  | Credential.None => Some None
  | _ => json ← json_of_credential c; data ← encrypt nonce json; Some (Some data)
  end.

Definition decrypt_credential (data : option (list Z)) : option Credential :=
  match data with
  | None => Some Credential.None
  | Some bytes => json ← decrypt bytes; credential_of_json json
  end.

Definition row_to_target (id : Z) (r : Row) : option Target :=
  credential ← decrypt_credential (r_credential r);
  Some {| Wire.id := id; name := r_name r; address := r_address r; t_kind := r_kind r;
          profile_id := r_profile_id r; parent_id := r_parent_id r;
          interval := td_seconds (Z.max (r_interval r) 1); enabled := r_enabled r; tags := r_tags r;
          credential := credential; group_name := r_group_name r; position := r_position r |}.

(** The outer [None] is an error. *)
Definition get (id : Z) (d : Table) : option (option Target) :=
  match rows d !! id with
  | None => Some None
  | Some r => Some <$> row_to_target id r
  end.

(** [ORDER BY position, name]. *)
Definition by_rank (a b : Z * Row) : comparison :=
  match Z.compare (r_position a.2) (r_position b.2) with
  | Eq => string_cmp (r_name a.2) (r_name b.2)
  | c => c
  end.
Definition list_ (d : Table) : option (list Target) :=
  mapM (fun kr => row_to_target kr.1 kr.2) (sort_by by_rank (map_to_list (rows d))).
Definition list_enabled (d : Table) : option (list Target) :=
  mapM (fun kr => row_to_target kr.1 kr.2) (filter (fun kr => r_enabled kr.2 = true) (map_to_list (rows d))).

(** The constraints of the table on what row [id] (if any) becomes. *)
Definition unique (id : option Z) (kind address : string) (d : Table) : bool :=
  bool_decide (map_Forall (fun k r => Some k <> id -> ~ (r_kind r = kind /\ r_address r = address)) (rows d)).
Definition refers (o : option Z) (d : Table) : bool :=
  match o with None => true | Some id => bool_decide (is_Some (rows d !! id)) end.
(** [interval.as_secs() as i64], which wraps: an interval of 2^63 seconds or more is stored negative, and refused. *)
Definition stored_interval (i : TargetInput) : Z := as_i64 (Z.quot (in_interval i) ns_per_s).
Definition constraints (id : option Z) (i : TargetInput) (d : Table) : DbError + () :=
  if stored_interval i <? 10 then inl DbError.Other
  else if negb (unique id (in_kind i) (in_address i) d) then inl DbError.Unique
  else if negb (refers (in_parent_id i) d && refers (in_via_agent i) d) then inl DbError.Other
  else inr tt.

Definition max_position (d : Table) : Z :=
  match map_to_list (rows d) with
  | [] => 0
  | kr :: rest => foldr (fun kr m => Z.max (r_position kr.2) m) (r_position kr.2) rest
  end.

(** The columns an input writes. *)
Definition written (i : TargetInput) (secret : option (list Z)) (position : Z) (probe : option DateTime)
    (error : option string) : Row :=
  {| r_name := in_name i; r_address := in_address i; r_kind := in_kind i; r_profile_id := in_profile_id i;
     r_parent_id := in_parent_id i; r_via_agent := in_via_agent i;
     r_interval := stored_interval i; r_enabled := in_enabled i; r_tags := in_tags i;
     r_credential := secret; r_group_name := in_group_name i; r_position := position;
     r_last_probe_at := probe; r_last_error := error |}.

Definition create (nonce : list Z) (i : TargetInput) (d : Table) : DbError + (Table * Z) :=
  match encrypt_credential nonce (in_credential i ?? Credential.None) with
  | None => inl DbError.Other
  | Some secret =>
      match constraints None i d with
      | inl e => inl e
      | inr _ =>
          let id := last_id d + 1 in
          inr ({| last_id := id; rows := <[id := written i secret (max_position d + 1) None None]> (rows d) |}, id)
      end
  end.

(** With a credential its encrypted form is written, without one the column is left as it is. *)
Definition update (nonce : list Z) (id : Z) (i : TargetInput) (d : Table) : DbError + (Table * bool) :=
  match (match in_credential i with None => Some None | Some c => Some <$> encrypt_credential nonce c end) with
  | None => inl DbError.Other
  | Some given =>
      match rows d !! id with
      | None => inr (d, false)
      | Some r =>
          match constraints (Some id) i d with
          | inl e => inl e
          | inr _ =>
              let secret := given ?? r_credential r in
              inr (with_rows <[id := written i secret (r_position r) (r_last_probe_at r) (r_last_error r)]> d, true)
          end
      end
  end.

Definition reorder (order : list Z) (d : Table) : Table :=
  foldl (fun d e => with_rows (alter (set_position (Z.of_nat e.1)) e.2) d) d (imap pair order).

Definition delete_ (id : Z) (d : Table) : Table * bool :=
  (with_rows (fun m => clear_references id <$> delete id m) d, bool_decide (is_Some (rows d !! id))).

Definition error_means_down (message : string) : bool :=
  starts_with "Timed out" message || starts_with "Device unreachable" message.

Definition record_probe (now : DateTime) (id : Z) (error : option string) (d : Table) : Table :=
  with_rows (alter (set_probe now error) id) d.
Definition set_enabled (id : Z) (enabled : bool) (d : Table) : Table * bool :=
  (with_rows (alter (set_row_enabled enabled) id) d, bool_decide (is_Some (rows d !! id))).
Definition set_profile (id : Z) (profile : string) (d : Table) : Table :=
  with_rows (alter (set_row_profile profile) id) d.

Definition relay_map (d : Table) : gmap Z Z := omap r_via_agent (rows d).
Definition relay_of (id : Z) (d : Table) : option Z := rows d !! id ≫= r_via_agent.
Definition relayed_counts (d : Table) : gmap Z nat :=
  map_fold (fun _ agent m => <[agent := S (m !! agent ?? 0%nat)]> m) ∅ (relay_map d).

(** ** The routes *)

(** What the routes read of the server: the kinds of devices it knows, in the order of their list, and
    the rules of the packs installed. *)
Record Registry := {
  kinds : list string;
  pack_rules : string -> option (list (string * option string));
}.

Record TargetView := {
  v_id : Z;
  v_name : string;
  v_address : string;
  v_kind : string;
  v_profile_id : option string;
  v_parent_id : option Z;
  v_via_agent : option Z;
  v_interval_secs : Z;
  v_enabled : bool;
  v_tags : gmap string string;
  v_credential_kind : string;
  v_group_name : string;
  v_position : Z;
  v_last_probe_at : option DateTime;
  v_last_error : option string;
  v_error_kind : option string;
}.

Definition error_kind (message : string) : string := if error_means_down message then "down" else "config".

(** [TargetView::new] with the status [db::targets::statuses] has for the row. *)
Definition TargetView_new (t : Target) (status : option Row) : TargetView :=
  {| v_id := Wire.id t; v_name := name t; v_address := address t; v_kind := t_kind t;
     v_profile_id := profile_id t; v_parent_id := parent_id t; v_via_agent := status ≫= r_via_agent;
     v_interval_secs := Z.quot (interval t) ns_per_s; v_enabled := enabled t; v_tags := tags t;
     v_credential_kind := Credential.kind_label (credential t); v_group_name := group_name t;
     v_position := position t; v_last_probe_at := status ≫= r_last_probe_at;
     v_last_error := status ≫= r_last_error; v_error_kind := error_kind <$> (status ≫= r_last_error) |}.

(** In [p_via_agent], [None] is an absent field and [Some None] is [null]. *)
Record TargetPayload := {
  p_name : string;
  p_address : string;
  p_kind : string;
  p_profile_id : option string;
  p_parent_id : option Z;
  p_via_agent : option (option Z);
  p_interval_secs : option Z;
  p_enabled : option bool;
  p_tags : gmap string string;
  p_group_name : string;
  p_credential : option Credential;
}.

Definition MIN_INTERVAL_SECS : Z := 10.
Definition DEFAULT_INTERVAL_SECS : Z := 60.
Definition MAX_NAME_CHARS : nat := 200.
Definition MAX_ADDRESS_CHARS : nat := 253.
Definition MAX_GROUP_NAME_CHARS : nat := 60.
Definition PUSH_KIND : string := "push".
Definition WEBCHANGE_KIND : string := "webchange".

(** The tables the routes touch. *)
Record State := { devices : Table; alerts : Db }.
Definition set_devices (d : Table) (s : State) : State := {| devices := d; alerts := alerts s |}.
Definition set_alerts (d : Db) (s : State) : State := {| devices := devices s; alerts := d |}.
Notation H := (Handler State ApiError).

Definition bad {A} (why : string) : H A := throw (ApiError.BadRequest why).
Definition not_found (id : Z) : ApiError :=
  ApiError.NotFound ("Device " +:+ display_i64 id +:+ " not found.")%string.
Definition at_most (what : string) (limit : nat) : ApiError :=
  ApiError.BadRequest ("The " +:+ what +:+ " must be at most " +:+ display_i64 (Z.of_nat limit) +:+ " characters.")%string.
Definition quote_ (s : string) : string := (Wire.quote +:+ s +:+ Wire.quote)%string.
Fixpoint commas (l : list string) : string :=
  match l with [] => "" | [x] => x | x :: l => (x +:+ ", " +:+ commas l)%string end.
Definition non_empty (s : string) : option string := if bool_decide (s = "") then None else Some s.

Definition validate (registry : Registry) (id : option Z) (p : TargetPayload) : H TargetInput :=
  let name := trim (p_name p) in
  _ ← refuse_if (bool_decide (name = "")) (ApiError.BadRequest "Name is required.");
  _ ← refuse_if (MAX_NAME_CHARS <? chars_count name)%nat (at_most "name" MAX_NAME_CHARS);
  let address := trim (p_address p) in
  _ ← refuse_if (bool_decide (address = "")) (ApiError.BadRequest "Address is required.");
  _ ← refuse_if (MAX_ADDRESS_CHARS <? chars_count address)%nat (at_most "address" MAX_ADDRESS_CHARS);
  _ ← refuse_if (negb (bool_decide (p_kind p ∈ kinds registry)))
        (ApiError.BadRequest ("Unknown device type " +:+ quote_ (p_kind p) +:+ " (available: " +:+
                              commas (kinds registry) +:+ ")")%string);
  let group := trim (p_group_name p) in
  _ ← refuse_if (MAX_GROUP_NAME_CHARS <? chars_count group)%nat (at_most "folder name" MAX_GROUP_NAME_CHARS);
  let interval_secs := p_interval_secs p ?? DEFAULT_INTERVAL_SECS in
  _ ← refuse_if (interval_secs <? MIN_INTERVAL_SECS)
        (ApiError.BadRequest "The polling interval must be at least 10 seconds.");
  _ ← refuse_if (bool_decide (is_Some id /\ p_parent_id p = id))
        (ApiError.BadRequest "A device cannot be its own parent.");
  let via_agent := mjoin (p_via_agent p) in
  _ ← refuse_if (bool_decide (is_Some id /\ via_agent = id))
        (ApiError.BadRequest "A device cannot relay itself.");
  let relayed := bool_decide (is_Some via_agent) in
  _ ← refuse_if (relayed && bool_decide (p_kind p = "agent"))
        (ApiError.BadRequest ("An agent-monitored machine pushes its own metrics: it cannot be reached " +:+
                              "through a relay.")%string);
  _ ← refuse_if (relayed && bool_decide (p_kind p = PUSH_KIND))
        (ApiError.BadRequest ("A heartbeat is called by the job itself: it cannot be reached through " +:+
                              "a relay.")%string);
  _ ← refuse_if (relayed && bool_decide (p_kind p = WEBCHANGE_KIND))
        (ApiError.BadRequest ("Website change checks run on the server itself: they cannot go through " +:+
                              "a relay.")%string);
  mret {| in_name := name; in_address := address; in_kind := p_kind p;
          in_profile_id := (trim <$> p_profile_id p) ≫= non_empty; in_parent_id := p_parent_id p;
          in_via_agent := via_agent; in_interval := td_seconds interval_secs;
          in_enabled := p_enabled p ?? true; in_tags := p_tags p; in_credential := p_credential p;
          in_group_name := group |}.

Definition load (id : Z) : H Target :=
  found ← gets (fun s => get id (devices s));
  row ← ok_or ApiError.Internal found;
  ok_or (not_found id) row.

Definition check_parent (parent : option Z) : H () :=
  if_some parent (fun id =>
    found ← gets (fun s => get id (devices s));
    row ← ok_or ApiError.Internal found;
    refuse_if (bool_decide (row = None))
      (ApiError.BadRequest ("Parent device " +:+ display_i64 id +:+ " not found.")%string)).

Definition check_relay (via_agent : option Z) : H () :=
  if_some via_agent (fun id =>
    found ← gets (fun s => get id (devices s));
    row ← ok_or ApiError.Internal found;
    match row with
    | None => bad ("Relay agent " +:+ display_i64 id +:+ " not found.")%string
    | Some agent =>
        refuse_if (negb (bool_decide (t_kind agent = "agent")))
          (ApiError.BadRequest ("Device " +:+ display_i64 id +:+ " (" +:+ name agent +:+
                                ") is not an agent: only an agent can relay probes.")%string)
    end).

(** The kinds of the integration packs ([dumbmonit_pack::id_from_kind]). *)
Definition KIND_PREFIX : string := "pack.".
Definition id_from_kind (kind : string) : option string := strip_prefix KIND_PREFIX kind.

Definition check_pack_relay (i : TargetInput) : H () :=
  refuse_if (bool_decide (is_Some (in_via_agent i)) && bool_decide (is_Some (id_from_kind (in_kind i))))
    (ApiError.BadRequest ("Devices of an integration pack are probed by the server itself: relay agents " +:+
                          "cannot probe them yet.")%string).

Definition DESTINATION_TAGS : list string :=
  ["scheme"; "port"; "insecure_tls"; "tls"; "path"; "base_path"; "url"; "host"].

Definition check_secret_destination (before : Target) (relay_before : option Z) (i : TargetInput) : H () :=
  if bool_decide (is_Some (in_credential i)) || bool_decide (credential before = Credential.None) then mret tt
  else
    let tag_changed := existsb (fun key => negb (bool_decide (tags before !! key = in_tags i !! key))) DESTINATION_TAGS in
    let moved := negb (bool_decide (trim (address before) = trim (in_address i)))
                 || negb (bool_decide (t_kind before = in_kind i))
                 || negb (bool_decide (relay_before = in_via_agent i)) || tag_changed in
    refuse_if moved
      (ApiError.BadRequest ("Re-enter the credential when changing the address, relay or connection settings: " +:+
                            "a stored secret is never sent to a new destination.")%string).

Definition duplicate_address_to_conflict (e : DbError) : ApiError :=
  match e with
  | DbError.Unique => ApiError.Conflict "A device with this type and address already exists."
  | DbError.Other => ApiError.Internal
  end.

(** A statement on the devices that may fail. *)
Definition statement {A} (f : Table -> DbError + (Table * A)) : H A :=
  fun s => match f (devices s) with
           | inl e => (s, inl (duplicate_address_to_conflict e))
           | inr (d, a) => (set_devices d s, inr a)
           end.

(** ** Thresholds of the packs ([packs::apply_thresholds]) *)

(** [write_threshold]. *)
Definition write_threshold (uid : string) (target : Z) (threshold : option f64) (d : Db) : Db :=
  let key := (uid, target) in
  match threshold with
  | Some _ =>
      let row := db_overrides d !! key in
      set_overrides
        (<[key := {| ro_rule_uid := uid; ro_target_id := target; ro_threshold := threshold;
                     ro_clear_threshold := row ≫= ro_clear_threshold;
                     ro_enabled := row ≫= ro_enabled |}]> (db_overrides d)) d
  | None =>
      match db_overrides d !! key with
      | None => d
      | Some row =>
          let row := {| ro_rule_uid := ro_rule_uid row; ro_target_id := ro_target_id row; ro_threshold := None;
                        ro_clear_threshold := ro_clear_threshold row; ro_enabled := ro_enabled row |} in
          set_overrides (if RuleOverride_is_empty row then delete key (db_overrides d)
                         else <[key := row]> (db_overrides d)) d
      end
  end.

Definition apply_threshold (t : Target) (d : Db) (rule : string * option string) : Db :=
  match rule.2 with
  | None => d
  | Some option =>
      write_threshold rule.1 (Wire.id t) (raw ← tags t !! option; parse_f64 (trim raw)) d
  end.

(** The rules of a pack are those its text gives, each with the option its threshold comes from. *)
Definition apply_thresholds (registry : Registry) (t : Target) (d : Db) : Db :=
  match id_from_kind (t_kind t) ≫= pack_rules registry with
  | None => d
  | Some rules => foldl (apply_threshold t) d rules
  end.

(** ** Creation, edition, deletion *)

Definition create_route (registry : Registry) (nonce : list Z) (p : TargetPayload) : H TargetView :=
  input ← validate registry None p;
  _ ← check_parent (in_parent_id input);
  _ ← check_relay (in_via_agent input);
  _ ← check_pack_relay input;
  id ← statement (create nonce input);
  target ← load id;
  _ ← modify (fun s => set_alerts (apply_thresholds registry target (alerts s)) s);
  status ← gets (fun s => rows (devices s) !! id);
  mret (TargetView_new target status).

Definition with_via_agent (via : option Z) (i : TargetInput) : TargetInput :=
  {| in_name := in_name i; in_address := in_address i; in_kind := in_kind i; in_profile_id := in_profile_id i;
     in_parent_id := in_parent_id i; in_via_agent := via; in_interval := in_interval i;
     in_enabled := in_enabled i; in_tags := in_tags i; in_credential := in_credential i;
     in_group_name := in_group_name i |}.
Definition with_profile_id (profile : option string) (i : TargetInput) : TargetInput :=
  {| in_name := in_name i; in_address := in_address i; in_kind := in_kind i; in_profile_id := profile;
     in_parent_id := in_parent_id i; in_via_agent := in_via_agent i; in_interval := in_interval i;
     in_enabled := in_enabled i; in_tags := in_tags i; in_credential := in_credential i;
     in_group_name := in_group_name i |}.

(** What [update] reads and checks, then what it writes. *)
Definition update_check (registry : Registry) (id : Z) (p : TargetPayload) : H (Target * TargetInput) :=
  let keep_profile := bool_decide (p_profile_id p = None) in
  let keep_relay := bool_decide (p_via_agent p = None) in
  input ← validate registry (Some id) p;
  _ ← check_parent (in_parent_id input);
  _ ← check_relay (in_via_agent input);
  before ← load id;
  relay_before ← gets (fun s => relay_of id (devices s));
  let input := if keep_relay then with_via_agent relay_before input else input in
  _ ← check_secret_destination before relay_before input;
  let input := if keep_profile then with_profile_id (profile_id before) input else input in
  _ ← check_pack_relay input;
  mret (before, input).

Definition forget_alerts (now : DateTime) (id : Z) : H () :=
  modify (fun s => set_alerts (forget_target id now (alerts s)).1 s).

Definition update_write (registry : Registry) (now : DateTime) (nonce : list Z) (id : Z)
    (checked : Target * TargetInput) : H TargetView :=
  let '(before, input) := checked in
  updated ← statement (update nonce id input);
  _ ← refuse_if (negb updated) (not_found id);
  _ ← when_ (enabled before && negb (in_enabled input)) (forget_alerts now id);
  target ← load id;
  _ ← modify (fun s => set_alerts (apply_thresholds registry target (alerts s)) s);
  status ← gets (fun s => rows (devices s) !! id);
  mret (TargetView_new target status).

Definition update_route (registry : Registry) (now : DateTime) (nonce : list Z) (id : Z) (p : TargetPayload)
  : H TargetView :=
  checked ← update_check registry id p;
  update_write registry now nonce id checked.

Definition reorder_route (order : list Z) : H () :=
  _ ← refuse_if (bool_decide (order = [])) (ApiError.BadRequest "The order list cannot be empty.");
  modify (fun s => set_devices (reorder order (devices s)) s).

(** The rows that follow a device by [ON DELETE CASCADE]: its overrides and its maintenance windows. *)
Definition cascade (id : Z) (d : Db) : Db :=
  set_silences (filter (fun s => sl_target_id s <> Some id) (db_silences d))
    (set_overrides (filter (fun kv => kv.1.2 <> id) (db_overrides d)) d).

Definition delete_row (id : Z) (s : State) : State * bool :=
  let '(d, found) := delete_ id (devices s) in
  ({| devices := d; alerts := if found then cascade id (alerts s) else alerts s |}, found).

Definition delete_route (now : DateTime) (id : Z) : H () :=
  found ← act (delete_row id);
  _ ← refuse_if (negb found) (not_found id);
  forget_alerts now id.

(** ** What the engine reads ([db::alerts::list_target_nodes]) *)

Definition target_node (kr : Z * Row) : TargetNode :=
  let '(id, r) := kr in
  {| tn_id := id; tn_name := r_name r; tn_address := r_address r; tn_kind := r_kind r;
     tn_parent_id := r_parent_id r; tn_via_agent := r_via_agent r; tn_tags := r_tags r;
     tn_enabled := r_enabled r;
     tn_unreachable := r_enabled r && is_some_and (r_last_error r) error_means_down |}.
Definition list_target_nodes (d : Table) : list TargetNode := target_node <$> map_to_list (rows d).

(** ** Everything that changes the devices *)

Inductive Call :=
| Create (nonce : list Z) (p : TargetPayload)
| Update (now : DateTime) (nonce : list Z) (id : Z) (p : TargetPayload)
| Reorder (order : list Z)
| Delete (now : DateTime) (id : Z)
| SetEnabled (id : Z) (enabled : bool)
| Probed (now : DateTime) (id : Z) (error : option string)
| Detected (id : Z) (profile : string).

Definition serve (registry : Registry) (c : Call) (s : State) : State :=
  match c with
  | Create nonce p => (create_route registry nonce p s).1
  | Update now nonce id p => (update_route registry now nonce id p s).1
  | Reorder order => (reorder_route order s).1
  | Delete now id => (delete_route now id s).1
  | SetEnabled id e => set_devices (set_enabled id e (devices s)).1 s
  | Probed now id error => set_devices (record_probe now id error (devices s)) s
  | Detected id profile => set_devices (set_profile id profile (devices s)) s
  end.
Definition serve_all (registry : Registry) (cs : list Call) (s : State) : State :=
  foldl (fun s c => serve registry c s) s cs.
End table.
