(* ===== verification/Guard.v ===== *)
(** * The guard of the API ([auth/middleware.rs], [auth/cookie.rs])

    Who makes a request, by its session cookie or its bearer token, and whether the request
    may go on: writes are for administrators, but for what everyone does on their own account
    and for the handling of alerts by operators. *)
From Stdlib Require Import Ascii.
From Stdlib Require String.
From S2P Require Import Prelude Text Chrono Handler Accounts ApiToken Auth.

Record Request := { rq_method : string; rq_path : string; rq_headers : HeaderMap }.

(** ** Routes *)

Definition SELF_SERVICE : list string :=
  ["/auth/logout"; "/auth/password"; "/auth/totp"; "/auth/totp/enroll"; "/auth/totp/verify";
   "/music/speaker/report"; "/music/speaker/play"].

Definition OPERATOR_ROUTES : list (string * string) :=
  [("POST", "/alerts/*/ack"); ("DELETE", "/alerts/*/ack"); ("POST", "/alerts/silences");
   ("DELETE", "/alerts/silences/*"); ("POST", "/alerts/history/dismiss-resolved");
   ("POST", "/alerts/history/*/dismiss"); ("PUT", "/alerts/rules/*/overrides/*");
   ("DELETE", "/alerts/rules/*/overrides/*")].

Definition TOKEN_DENIED : list string := ["/auth"; "/users"; "/tokens"; "/agent/tokens"].

Definition CSRF_HEADER : string := "x-requested-with".
Definition CSRF_VALUE : string := "DumbMonit".

Definition is_mutation (method : string) : bool :=
  bool_decide (method ∈ ["POST"; "PUT"; "DELETE"; "PATCH"]).

Definition without_api (path : string) : string := strip_prefix "/api" path ?? path.

Definition is_token_denied (path : string) : bool :=
  let path := without_api path in
  existsb (fun prefix => bool_decide (path = prefix) ||
             match strip_prefix prefix path with
             | Some rest => starts_with "/" rest
             | None => false
             end) TOKEN_DENIED.

Definition is_own_push_device (path : string) : bool :=
  bool_decide (path = "/webpush/test") || bool_decide (path = "/webpush/subscriptions") ||
  match strip_prefix "/webpush/subscriptions/" path with
  | Some id => negb (bool_decide (id = "")) && string_forall is_ascii_digit id
  | None => false
  end.

Definition is_self_service (path : string) : bool :=
  let path := without_api path in
  bool_decide (path ∈ SELF_SERVICE) || is_own_push_device path.

(** The loop over the segments of a pattern and of a path. *)
Fixpoint segments_match (wanted actual : list string) : bool :=
  match wanted, actual with
  | [], [] => true
  | w :: wanted', a :: actual' =>
      ((bool_decide (w = "*") && negb (bool_decide (a = ""))) || bool_decide (w = a)) &&
      segments_match wanted' actual'
  | _, _ => false
  end.

Definition is_operator_route (method path : string) : bool :=
  let path := without_api path in
  let path := strip_suffix "/" path ?? path in
  existsb (fun route => bool_decide (route.1 = method) &&
             segments_match (split "/"%char route.2) (split "/"%char path)) OPERATOR_ROUTES.

(** ** Origin of a write *)

Definition CROSS_SITE : string := "Cross-site request refused.".
Definition NO_PROOF : string :=
  "State-changing requests must carry the header `X-Requested-With: DumbMonit` (browsers add it automatically through the web interface).".

(** [s.split_once(p)] for a text *)
Fixpoint split_once_str (p s : string) : option (string * string) :=
  match strip_prefix p s with
  | Some rest => Some (EmptyString, rest)
  | None => match s with
            | EmptyString => None
            | String a s' => prod_map (String a) id <$> split_once_str p s'
            end
  end.

(** The reason of the refusal, if any. *)
Definition same_origin (headers : HeaderMap) : option string :=
  let value name := trim <$> (header_get name headers ≫= to_str) in
  if is_some_and (value CSRF_HEADER) (fun v => eq_ignore_ascii_case v CSRF_VALUE) then None
  else match value "sec-fetch-site" with
       | Some site => if bool_decide (site ∈ ["same-origin"; "none"]) then None else Some CROSS_SITE
       | None =>
           match value "origin" with
           | Some origin =>
               let origin_host := match split_once_str "://" origin with
                                  | Some (_, rest) => rest
                                  | None => origin
                                  end in
               let origin_host := (head (split "/"%char origin_host)) ?? origin_host in
               match value "host" with
               | Some host => if eq_ignore_ascii_case host origin_host then None else Some CROSS_SITE
               | None => Some CROSS_SITE
               end
           | None => Some NO_PROOF
           end
       end.

(** ** Identity *)

Definition NAME : string := "dumbmonit_session".

(** [cookie::extract] *)
Definition extract (headers : HeaderMap) : option SessionToken :=
  raw ← header_get "cookie" headers ≫= to_str;
  let pairs := omap (split_once "="%char) (split ";"%char raw) in
  pair ← first_where (fun p => bool_decide (trim p.1 = NAME)) pairs;
  parse_token (trim pair.2).

Module Principal.
Inductive Principal :=
  | User (user : Accounts.User) (session : SessionToken)
  | Token (token : ApiToken).

Definition label (p : Principal) : string :=
  match p with User u _ => u_username u | Token t => ("token:" +:+ at_name t)%string end.

Definition is_admin (p : Principal) : bool :=
  match p with
  | User u _ => Role.is_admin (u_role u)
  | Token t => Scope.allows (at_scope t) Scope.Write
  end.

Definition can_operate (p : Principal) : bool :=
  match p with
  | User u _ => Role.can_operate (u_role u)
  | Token t => Scope.allows (at_scope t) Scope.Write
  end.
End Principal.
Notation Principal := Principal.Principal.

(** What a refused request is answered: an error of a session or of a token. *)
Inductive Refusal := ByAuth (e : AuthError) | ByToken (e : TokenError).

Definition lift {A} (m : H A) : Handler AuthState Refusal A :=
  fun s => match m s with (s', inl e) => (s', inl (ByAuth e)) | (s', inr a) => (s', inr a) end.

Section Guard.
Context `{Crates}.

Definition current_session (env : Env) (headers : HeaderMap) : H (option (SessionToken * User)) :=
  match extract headers with
  | None => mret None
  | Some token =>
      user_id ← call (authenticate sha256 (e_now env) token);
      match user_id with
      | None => mret None
      | Some user_id =>
          user ← query (get user_id);
          match option_filter (fun u => negb (u_disabled u)) user with
          | Some user => mret (Some (token, user))
          | None => execute (delete_session (st_id token)) ;; mret None
          end
      end
  end.

(** [token::check] on the shared state. *)
Definition check_token (env : Env) (headers : HeaderMap) (scope : Scope) :
    Handler AuthState Refusal Checked :=
  fun s =>
    match check net_contains parse_net json_strings parse_time sha256 display_ip
            (e_now env) (e_instant env) headers (e_ip env) scope (a_db s, a_windows s) with
    | ((d, w), inl e) => (set_windows w (on_db (fun _ => d) s), inl (ByToken e))
    | ((d, w), inr checked) => (set_windows w (on_db (fun _ => d) s), inr checked)
    end.

Definition TOKEN_DENIED_MESSAGE : string :=
  "API tokens cannot manage accounts, sessions, two-factor authentication, SSO or other tokens: sign in to the web interface for that.".

Definition bearer_identity (env : Env) (headers : HeaderMap) (method path : string) :
    Handler AuthState Refusal Checked :=
  checked ← check_token env headers Scope.Read;
  refuse_if (is_token_denied path) (ByAuth (AuthError.Forbidden TOKEN_DENIED_MESSAGE)) ;;
  (if is_mutation method then
     if_some (require (ck_token checked) Scope.Write)
       (fun reason => throw (ByAuth (AuthError.Forbidden reason)))
   else mret tt) ;;
  mret checked.

Definition require_session (env : Env) (request : Request) : Handler AuthState Refusal Principal :=
  lift (purge_once (e_now env)) ;;
  configured ← lift is_configured;
  refuse_if (negb configured) (ByAuth (AuthError.Unauthorized
    "No account exists yet: create the first admin account, then sign in.")) ;;
  if extract_bearer (rq_headers request) then
    checked ← bearer_identity env (rq_headers request) (rq_method request) (rq_path request);
    mret (Principal.Token (ck_token checked))
  else
    found ← lift (current_session env (rq_headers request));
    match found with
    | None => throw (ByAuth (AuthError.Unauthorized "Authentication required."))
    | Some (token, user) =>
        (if is_mutation (rq_method request) then
           if_some (same_origin (rq_headers request))
             (fun reason => throw (ByAuth (AuthError.Forbidden reason))) ;;
           let path := rq_path request in
           let allowed := Role.is_admin (u_role user) || is_self_service path ||
                          (Role.can_operate (u_role user) && is_operator_route (rq_method request) path) in
           refuse_if (negb allowed) (ByAuth admin_required)
         else mret tt) ;;
        mret (Principal.User user token)
    end.

(** ** Extractors *)

(** [Authenticated], [AdminUser], [AdminIdentity] and [OperatorIdentity]: what a handler asks
    of the identity the guard has left. *)
Definition authenticated (p : Principal) : Handler AuthState Refusal (User * SessionToken) :=
  match p with
  | Principal.User u session => mret (u, session)
  | Principal.Token _ => throw (ByAuth (AuthError.Unauthorized "Authentication required."))
  end.

Definition admin_user (p : Principal) : Handler AuthState Refusal User :=
  '(u, _) ← authenticated p;
  refuse_if (negb (Role.is_admin (u_role u))) (ByAuth admin_required) ;; mret u.

Definition admin_identity (p : Principal) : Handler AuthState Refusal Principal :=
  refuse_if (negb (Principal.is_admin p)) (ByAuth admin_required) ;; mret p.

Definition operator_identity (p : Principal) : Handler AuthState Refusal Principal :=
  refuse_if (negb (Principal.can_operate p)) (ByAuth operator_required) ;; mret p.
End Guard.

(** ** Facts *)

Lemma wp_lift {A} (m : H A) (Q : A -> AuthState -> Prop) R s :
  wp m Q (fun e => R (ByAuth e)) s -> wp (lift m) Q R s.
Proof. unfold wp, lift. by destruct (m s) as [? []]. Qed.
#[export] Hint Resolve wp_lift : handler.

Section Facts.
Context `{Crates}.

(** Who holds a session, in given tables and at a given instant. *)
Definition holds_session (now : DateTime) (d : AuthDb) (token : SessionToken) (u : User) : Prop :=
  (exists row, auth_sessions d !! st_id token = Some row /\
     s_token_hash row = sha256 (st_secret token) /\ now < s_expires_at row /\
     s_user_id row = Some (u_id u)) /\
  get (u_id u) d = Some u /\ u_disabled u = false.

Lemma wp_current_session env headers (Q : option (SessionToken * User) -> AuthState -> Prop) R s :
  (forall token u, extract headers = Some token -> holds_session (e_now env) (a_db s) token u ->
     Q (Some (token, u)) s) ->
  (forall s', s' = s \/ (exists id, s' = on_db (delete_session id) s) -> Q None s') ->
  wp (current_session env headers : H _) Q R s.
Proof.
  intros Hsome Hnone. unfold current_session.
  destruct (extract headers) as [token|] eqn:Ex; [|apply wp_ret; auto].
  apply wp_bind, wp_call. unfold authenticate.
  destruct (auth_sessions (a_db s) !! st_id token) as [row|] eqn:Erow;
    [|apply wp_ret, Hnone; left; by destruct s].
  destruct (bool_decide _) eqn:Eh; simpl; [|apply wp_ret, Hnone; left; by destruct s]. bools.
  destruct (Z.leb_spec (s_expires_at row) (e_now env)); simpl; [apply wp_ret, Hnone; eauto|].
  destruct (s_user_id row) as [uid|] eqn:Eu; [|apply wp_ret, Hnone; left; by destruct s].
  apply wp_bind, wp_query. simpl.
  destruct (get uid (a_db s)) as [u|] eqn:Eg; simpl.
  - pose proof (get_Some _ _ _ Eg) as [_ Hid]. destruct (u_disabled u) eqn:Ed; simpl.
    + apply wp_bind, wp_execute, wp_ret, Hnone. eauto.
    + apply wp_ret. replace (on_db _ s) with s by by destruct s. apply Hsome; [done|].
      split; [exists row; split_and!; try done; congruence|]. by rewrite Hid.
  - apply wp_bind, wp_execute, wp_ret, Hnone. eauto.
Qed.

(** The tables after the clean-up of [purge_once]. *)
Definition purged (now : DateTime) (s : AuthState) : AuthDb :=
  if a_purged s then a_db s else purge_expired now (a_db s).

Lemma holds_session_purged now s token u :
  holds_session now (purged now s) token u -> holds_session now (a_db s) token u.
Proof.
  unfold purged. destruct (a_purged s); [done|].
  intros [(row & [Hr _]%map_lookup_filter_Some & Hrest) Hg]. split; [by exists row|done].
Qed.

(** What the guard lets through, on the tables it has cleaned. *)
Definition entitled (env : Env) (request : Request) (d : AuthDb) (p : Principal) : Prop :=
  match p with
  | Principal.User u session =>
      extract_bearer (rq_headers request) = None /\
      extract (rq_headers request) = Some session /\ holds_session (e_now env) d session u /\
      (is_mutation (rq_method request) = true ->
         same_origin (rq_headers request) = None /\
         (u_role u = Role.Admin \/ is_self_service (rq_path request) = true \/
          u_role u = Role.Operator /\ is_operator_route (rq_method request) (rq_path request) = true))
  | Principal.Token t =>
      is_token_denied (rq_path request) = false /\
      (is_mutation (rq_method request) = true -> at_scope t = Scope.Write) /\
      exists clear row, extract_bearer (rq_headers request) = Some clear /\ row ∈ api_tokens d /\
        t_token_hash row = sha256 clear /\ t_revoked_at row = None /\ at_id t = t_id row
  end.

Lemma wp_bearer env request s :
  wp (bearer_identity env (rq_headers request) (rq_method request) (rq_path request))
     (fun ck _ => entitled env request (a_db s) (Principal.Token (ck_token ck)))
     (fun _ _ => True) s.
Proof.
  unfold bearer_identity. apply wp_bind. unfold wp at 1, check_token.
  destruct (check _ _ _ _ _ _ _ _ _ _ _ _) as [[d w] [e|ck]] eqn:Ec; [done|].
  apply check_sound in Ec as (clear & row & Hb & Hrow & Hh & Hr & Hid & _).
  apply wp_bind, wp_refuse_if; [done|]. intros Hden. apply wp_bind.
  assert (forall s', (is_mutation (rq_method request) = true -> at_scope (ck_token ck) = Scope.Write) ->
    wp (mret ck : Handler AuthState Refusal _)
      (fun ck _ => entitled env request (a_db s) (Principal.Token (ck_token ck))) (fun _ _ => True) s')
    as Hend.
  { intros s' Hscope. apply wp_ret. simpl. split_and!; [done..|]. by exists clear, row. }
  destruct (is_mutation (rq_method request)) eqn:Em.
  - apply wp_if_some; [by intros|]. intros Hreq. apply Hend. intros _. revert Hreq. unfold require.
    destruct (at_scope (ck_token ck)); [|done]. simpl. by destruct (at_limited_by_owner _).
  - apply wp_ret, Hend. done.
Qed.

Lemma wp_require_session env request s :
  wp (require_session env request)
     (fun p _ => entitled env request (purged (e_now env) s) p) (fun _ _ => True) s.
Proof.
  unfold require_session. apply wp_bind, wp_lift, wp_purge_once, wp_bind, wp_lift.
  set (s1 := set_purged _). assert (a_db s1 = purged (e_now env) s) as Hdb
    by (unfold s1, purged; by destruct (a_purged s)).
  clearbody s1. rewrite <-Hdb. clear Hdb.
  apply wp_is_configured; intros b; (apply wp_bind, wp_refuse_if; [done|]); intros _;
    [|change (a_db s1) with (a_db (remember_configured b s1)); generalize (remember_configured b s1);
      clear s1; intros s1].
  all: destruct (extract_bearer (rq_headers request)) as [clear|] eqn:Eb;
    [apply wp_bind; eapply wp_mono; [apply wp_bearer| |done]; intros; by apply wp_ret|].
  all: apply wp_bind, wp_lift, wp_current_session; [|by intros].
  all: intros token u Hx Hh; apply wp_bind; destruct (is_mutation (rq_method request)) eqn:Em;
    [|apply wp_ret, wp_ret; simpl; by rewrite Em].
  all: apply wp_bind, wp_if_some; [by intros|]; intros Ho; apply wp_refuse_if; [done|];
    intros Hal; apply wp_ret; simpl; split_and!; [done..|]; intros _; split; [done|].
  all: destruct (u_role u), (is_self_service _), (is_operator_route _ _); simpl in Hal; auto; done.
Qed.
End Facts.

Lemma segments_match_spec wanted actual :
  segments_match wanted actual = true <->
  Forall2 (fun w a => w = a \/ w = "*" /\ a <> "") wanted actual.
Proof.
  revert actual. induction wanted as [|w wanted IH]; intros [|a actual]; simpl.
  - by split.
  - split; [done|]. by inversion 1.
  - split; [done|]. by inversion 1.
  - rewrite Forall2_cons, <-IH, andb_true_iff, orb_true_iff, andb_true_iff, negb_true_iff.
    rewrite !bool_decide_eq_true, bool_decide_eq_false. tauto.
Qed.

Lemma operator_patterns_are_alerts method pattern :
  (method, pattern) ∈ OPERATOR_ROUTES -> exists rest, split "/"%char pattern = "" :: "alerts" :: rest.
Proof.
  intros Hin. assert (Forall (fun r => exists rest, split "/"%char r.2 = "" :: "alerts" :: rest)
    OPERATOR_ROUTES) as Hall by (repeat constructor; eexists; vm_compute; reflexivity).
  rewrite Forall_forall in Hall. apply (Hall _ Hin).
Qed.

(** ** Claims *)

(** C6. The guard admits only the entitled: a request that goes on with an account carries,
    and no bearer token beside it, the cookie of a session that exists, holds its secret and
    has not expired, of an account that exists and is not disabled; if it writes, it proves
    that it comes from the interface and the account is an administrator, or the route is
    one of its own account, or an operator's handling of an alert.  A request that goes on
    with a token carries the secret of a live row, on a route open to tokens, and writes
    only with the write scope. *)
Theorem guard_admits_only_the_entitled `{Crates} env request s s' p :
  require_session env request s = (s', inr p) -> entitled env request (a_db s) p.
Proof.
  intros Hr. pose proof (wp_require_session env request s) as Hw. unfold wp in Hw. rewrite Hr in Hw.
  revert Hw. destruct p as [u session|t]; simpl.
  - intros (Hb & Hx & Hh & Hm). split_and!; try done. by apply holds_session_purged.
  - intros (Hd & Hm & clear & row & Hb & Hrow & Hrest). split_and!; try done. exists clear, row.
    split_and!; try apply Hrest; [done|]. unfold purged in Hrow. by destruct (a_purged s).
Qed.

(** Crates for the examples: the texts stand for their own hashes. *)
#[local] Instance plain_crates : Crates := {|
  sha256 := fun s => byte <$> Stdlib.Strings.String.list_ascii_of_string s;
  hmac_sha1 := fun _ _ => []; verify_password := fun p h => Some (bool_decide (p = h));
  hash_password := fun _ p => Some p; seal := fun _ p => Some p; unseal := fun _ c => Some c;
  lowercase := to_ascii_lowercase; pending_order := map_to_list; Net := ();
  net_contains := fun _ _ => true; parse_net := fun _ => None; json_strings := fun _ => None;
  parse_time := fun _ => None; display_ip := fun _ => ""; net_eq := _; net_of_ip := fun _ => ();
  net_trunc := fun net => net; display_net := fun _ => ""; parse_addr := fun _ => None;
  json_of_strings := fun _ => ""; time_text := fun _ => "" |}.

Definition guard_db : AuthDb :=
  let db := (insert_first_admin 0 "ada" "$hash" no_accounts).1 in
  (create sha256 5 1 {| st_id := "aa"; st_secret := "bb" |} db).1.
Definition guard_state (d : AuthDb) : AuthState :=
  {| a_db := d; a_audit := []; a_configured := Configured.UNKNOWN; a_purged := false;
     a_limiter := ∅; a_pending := ∅; a_replay := ∅; a_windows := ∅ |}.
Definition guard_env : Env :=
  {| e_now := 9; e_instant := 9; e_ip := None; e_draw := 9; e_salt := "";
     e_session := {| st_id := "cc"; st_secret := "dd" |}; e_pending := "p"; e_secret := [];
     e_nonce := []; e_codes := [] |}.

Lemma guard_admits_only_the_entitled_witness :
  let request := {| rq_method := "POST"; rq_path := "/api/users";
                    rq_headers := [("x-requested-with", "DumbMonit");
                                   ("cookie", "a=b; dumbmonit_session=aa.bb")] |} in
  exists s' u session, require_session guard_env request (guard_state guard_db) =
    (s', inr (Principal.User u session)) /\ u_role u = Role.Admin.
Proof.
  intros request. eexists _, _, _. split; [vm_compute; reflexivity|].
  destruct (@guard_admits_only_the_entitled plain_crates guard_env request (guard_state guard_db) _
    (Principal.User _ _) ltac:(vm_compute; reflexivity)) as (_ & _ & _ & Hm).
  destruct Hm as (_ & [Ha|[Hs|[Ho _]]]); [by vm_compute|exact Ha|discriminate Hs|discriminate Ho].
Defined.

(** The routes open to an operator are those of the list and no other: the loop over the
    segments accepts a method and a path exactly when a listed pattern of this method has
    the same segments, a star standing for any that is not empty; and all of them lie
    under [/alerts]. *)
Theorem operator_routes_read_as_listed method path :
  let path' := without_api path in
  let segments := split "/"%char (strip_suffix "/" path' ?? path') in
  (is_operator_route method path = true <->
   exists pattern, (method, pattern) ∈ OPERATOR_ROUTES /\
     Forall2 (fun w a => w = a \/ w = "*" /\ a <> "") (split "/"%char pattern) segments) /\
  (is_operator_route method path = true -> exists rest, segments = "" :: "alerts" :: rest).
Proof.
  intros path' segments.
  assert (is_operator_route method path = true <->
   exists pattern, (method, pattern) ∈ OPERATOR_ROUTES /\
     Forall2 (fun w a => w = a \/ w = "*" /\ a <> "") (split "/"%char pattern) segments) as Hspec.
  { unfold is_operator_route. fold path' segments. rewrite existsb_elem. split.
    - intros ([m pattern] & Hin & [Hm Hs]%andb_true_iff). bools. simpl in *. subst m. exists pattern.
      split; [done|]. by apply segments_match_spec.
    - intros (pattern & Hin & Hs). exists (method, pattern). split; [done|].
      rewrite bool_decide_true by done. by apply segments_match_spec. }
  split; [done|]. intros (pattern & [rest Hp]%operator_patterns_are_alerts & Hs)%Hspec.
  rewrite Hp in Hs. inversion Hs as [|? a ? l Ha Hs']; subst. inversion Hs' as [|? b ? l' Hb]; subst.
  destruct Ha as [<-|[? _]]; [|done]. destruct Hb as [<-|[? _]]; [|done]. eauto.
Qed.
