(* ===== verification/TargetsFacts.v ===== *)
(** * Devices: what holds of their table

    The table stays well formed whatever the routes are asked, and a stored secret keeps its
    destination; the cases the checks miss are at the end. *)
From Stdlib Require Import Ascii.
From Stdlib Require String.
From S2P Require Import Prelude Text Float64 Chrono Decimal Model Silence Overrides Db PolicyStore Handler Auth Guard Wire Targets.

Section facts.
Context `{Crates} `{CredentialJson}.

(** ** The statements *)

Record wf (d : Table) : Prop := {
  wf_last : 0 <= last_id d;
  wf_ids id r : rows d !! id = Some r -> 1 <= id <= last_id d;
  wf_unique i j r r' : rows d !! i = Some r -> rows d !! j = Some r' ->
    r_kind r = r_kind r' -> r_address r = r_address r' -> i = j;
  wf_row id r : rows d !! id = Some r -> r_name r <> "" /\ (r_kind r = "agent" \/ r_address r <> "") /\ 10 <= r_interval r;
  wf_parent id r p : rows d !! id = Some r -> r_parent_id r = Some p -> p <> id /\ is_Some (rows d !! p);
  wf_relay id r a : rows d !! id = Some r -> r_via_agent r = Some a -> a <> id /\ is_Some (rows d !! a);
}.

Lemma wf_Table_new : wf Table_new.
Proof. split; simpl; intros; simplify_map_eq; done. Qed.

(** A change of some rows that keeps what the constraints look at. *)
Definition same_shape (r r' : Row) : Prop :=
  r_name r' = r_name r /\ r_address r' = r_address r /\ r_kind r' = r_kind r /\ r_interval r' = r_interval r /\
  r_parent_id r' = r_parent_id r /\ r_via_agent r' = r_via_agent r.

Lemma wf_alter f id d : (forall r, same_shape r (f r)) -> wf d -> wf (with_rows (alter f id) d).
Proof.
  intros Hf Hw. assert (forall k r, alter f id (rows d) !! k = Some r -> exists r0, rows d !! k = Some r0 /\ same_shape r0 r) as Hk.
  { intros k r. destruct (decide (k = id)) as [->|Hn].
    - rewrite lookup_alter_eq. destruct (rows d !! id) as [r0|] eqn:E; [|done]. intros [= <-]. by exists r0.
    - rewrite lookup_alter_ne by done. intros E. exists r. by split_and!. }
  assert (forall k, is_Some (rows d !! k) -> is_Some (alter f id (rows d) !! k)) as Hs.
  { intros k Hk'. by apply lookup_alter_is_Some. }
  split; simpl.
  - apply Hw.
  - intros k r (r0 & E & _)%Hk. by eapply wf_ids.
  - intros i j r r' (r0 & E & Hr)%Hk (r1 & E' & Hr')%Hk Hkd Ha. destruct Hr as (_ & ? & ? & _), Hr' as (_ & ? & ? & _).
    eapply (wf_unique d Hw); [exact E|exact E'|congruence..].
  - intros k r (r0 & E & -> & -> & -> & -> & _)%Hk. by eapply wf_row.
  - intros k r p (r0 & E & Hr)%Hk Hp. destruct Hr as (_ & _ & _ & _ & Hp' & _). rewrite Hp' in Hp.
    destruct (wf_parent d Hw _ _ _ E Hp) as [? ?]. split; [done|by apply Hs].
  - intros k r p (r0 & E & Hr)%Hk Hp. destruct Hr as (_ & _ & _ & _ & _ & Hp'). rewrite Hp' in Hp.
    destruct (wf_relay d Hw _ _ _ E Hp) as [? ?]. split; [done|by apply Hs].
Qed.

(** What an input must satisfy to be written on row [id]. *)
Record sound (id : Z) (i : TargetInput) : Prop := {
  sound_name : in_name i <> "";
  sound_address : in_kind i = "agent" \/ in_address i <> "";
  sound_parent : in_parent_id i <> Some id;
  sound_relay : in_via_agent i <> Some id;
}.

Lemma constraints_ok o i d :
  constraints o i d = inr tt ->
  10 <= stored_interval i /\
  (forall k r, rows d !! k = Some r -> Some k <> o -> ~ (r_kind r = in_kind i /\ r_address r = in_address i)) /\
  (forall p, in_parent_id i = Some p -> is_Some (rows d !! p)) /\
  (forall a, in_via_agent i = Some a -> is_Some (rows d !! a)).
Proof.
  unfold constraints. destruct (_ <? 10) eqn:E; [done|]. apply Z.ltb_ge in E.
  unfold unique. case_bool_decide as Hu; [|done]. destruct (_ && _) eqn:Hr; [|done]. intros _.
  apply andb_true_iff in Hr as [Hp Ha]. split_and!; [done|exact Hu| |]; intros x Hx.
  - unfold refers in Hp. rewrite Hx in Hp. by apply bool_decide_eq_true in Hp.
  - unfold refers in Ha. rewrite Hx in Ha. by apply bool_decide_eq_true in Ha.
Qed.

(** Writing a sound row whose constraints hold. *)
Lemma wf_write id i secret pos probe error last d :
  wf d -> sound id i -> last_id d <= last -> 1 <= id <= last ->
  constraints (Some id) i d = inr tt ->
  wf {| last_id := last; rows := <[id := written i secret pos probe error]> (rows d) |}.
Proof.
  intros Hw Hs Hl Hid (Hi & Hu & Hp & Ha)%constraints_ok. set (row := written _ _ _ _ _).
  assert (forall k, is_Some (rows d !! k) -> is_Some (<[id := row]> (rows d) !! k)) as Hin.
  { intros k Hk. apply lookup_insert_is_Some. destruct (decide (id = k)); auto. }
  split; simpl.
  - pose proof (wf_last d Hw). lia.
  - intros k r [[<- _]|[Hn E]]%lookup_insert_Some; [done|]. pose proof (wf_ids d Hw _ _ E). lia.
  - intros k j r r' [[<- <-]|[Hn E]]%lookup_insert_Some [[<- <-]|[Hn' E']]%lookup_insert_Some Hk Had; [done| | |].
    + exfalso. apply (Hu j r' E'); [congruence|]. by split.
    + exfalso. apply (Hu k r E); [congruence|]. by split.
    + by eapply (wf_unique d Hw).
  - intros k r [[<- <-]|[Hn E]]%lookup_insert_Some; [|by eapply (wf_row d Hw)].
    split_and!; [apply Hs|apply Hs|exact Hi].
  - intros k r p [[<- <-]|[Hn E]]%lookup_insert_Some Hpp.
    + split; [intros ->; by apply (sound_parent _ _ Hs)|by apply Hin, Hp].
    + destruct (wf_parent d Hw _ _ _ E Hpp). split; [done|by apply Hin].
  - intros k r p [[<- <-]|[Hn E]]%lookup_insert_Some Hpp.
    + split; [intros ->; by apply (sound_relay _ _ Hs)|by apply Hin, Ha].
    + destruct (wf_relay d Hw _ _ _ E Hpp). split; [done|by apply Hin].
Qed.

Lemma constraints_fresh id i d : rows d !! id = None -> constraints None i d = constraints (Some id) i d.
Proof.
  intros Hid. unfold constraints. replace (unique None (in_kind i) (in_address i) d) with (unique (Some id) (in_kind i) (in_address i) d); [done|].
  unfold unique. apply bool_decide_ext. split; intros Hm k r Hk Hn; apply (Hm k r Hk); congruence.
Qed.

Lemma fresh_id d : wf d -> rows d !! (last_id d + 1) = None.
Proof. intros Hw. destruct (rows d !! _) eqn:E; [|done]. pose proof (wf_ids d Hw _ _ E). lia. Qed.

Lemma create_wf nonce i d d' id :
  wf d -> in_name i <> "" -> (in_kind i = "agent" \/ in_address i <> "") -> create nonce i d = inr (d', id) -> wf d'.
Proof.
  intros Hw Hn Had. unfold create. destruct (encrypt_credential _ _); [|done].
  destruct (constraints None i d) as [|[]] eqn:E; [done|]. intros [= <- <-].
  pose proof (fresh_id d Hw) as Hf. pose proof (wf_last d Hw). rewrite (constraints_fresh _ _ _ Hf) in E.
  pose proof (constraints_ok _ _ _ E) as (_ & _ & Hp & Ha).
  apply wf_write; [done| |lia|lia|done]. split; [done|done| |].
  - intros Hx. destruct (Hp _ Hx) as [? Hy]. congruence.
  - intros Hx. destruct (Ha _ Hx) as [? Hy]. congruence.
Qed.

Lemma update_spec nonce id i d d' b :
  update nonce id i d = inr (d', b) ->
  (rows d !! id = None /\ d' = d /\ b = false) \/
  exists r secret, rows d !! id = Some r /\ b = true /\ constraints (Some id) i d = inr tt /\
    (in_credential i = None -> secret = r_credential r) /\
    d' = with_rows <[id := written i secret (r_position r) (r_last_probe_at r) (r_last_error r)]> d.
Proof.
  unfold update.
  destruct (match in_credential i with Some c => Some <$> encrypt_credential nonce c | None => Some None end)
    as [given|] eqn:Eg; [|done].
  destruct (rows d !! id) as [r|]; [|intros [= <- <-]; by left].
  destruct (constraints (Some id) i d) as [|[]] eqn:E; [done|]. intros [= <- <-]. right.
  exists r, (given ?? r_credential r). split_and!; try done. intros Hc. rewrite Hc in Eg. by injection Eg as <-.
Qed.

Lemma update_wf nonce id i d d' b : wf d -> sound id i -> update nonce id i d = inr (d', b) -> wf d'.
Proof.
  intros Hw Hs [(_ & -> & _)|(r & secret & E & _ & Hc & _ & ->)]%update_spec; [done|].
  apply wf_write; [done|done|done|by eapply wf_ids|done].
Qed.

Lemma delete_lookup id d k r :
  rows (delete_ id d).1 !! k = Some r <-> k <> id /\ exists r0, rows d !! k = Some r0 /\ r = clear_references id r0.
Proof.
  simpl. rewrite lookup_fmap. destruct (decide (k = id)) as [->|Hn].
  - rewrite lookup_delete_eq. simpl. naive_solver.
  - rewrite lookup_delete_ne by done. destruct (rows d !! k); simpl; naive_solver.
Qed.

Lemma clear_reference_Some id o p : clear_reference id o = Some p <-> o = Some p /\ p <> id.
Proof. unfold clear_reference. case_bool_decide; naive_solver. Qed.

Lemma delete_wf id d : wf d -> wf (delete_ id d).1.
Proof.
  intros Hw. split.
  - apply Hw.
  - intros k r (_ & r0 & E & _)%delete_lookup. by eapply (wf_ids d Hw).
  - intros i j r r' (_ & r0 & E & ->)%delete_lookup (_ & r1 & E' & ->)%delete_lookup. by apply (wf_unique d Hw i j r0 r1).
  - intros k r (_ & r0 & E & ->)%delete_lookup. by apply (wf_row d Hw k r0).
  - intros k r p (_ & r0 & E & ->)%delete_lookup [Hp Hn]%clear_reference_Some.
    destruct (wf_parent d Hw _ _ _ E Hp) as [? [r1 Hr1]]. split; [done|].
    exists (clear_references id r1). apply delete_lookup. eauto.
  - intros k r p (_ & r0 & E & ->)%delete_lookup [Hp Hn]%clear_reference_Some.
    destruct (wf_relay d Hw _ _ _ E Hp) as [? [r1 Hr1]]. split; [done|].
    exists (clear_references id r1). apply delete_lookup. eauto.
Qed.

Lemma reorder_ind (P : Table -> Prop) order d :
  (forall p id d, P d -> P (with_rows (alter (set_position p) id) d)) -> P d -> P (reorder order d).
Proof.
  intros Hs. unfold reorder. generalize (imap pair order) as l. intros l. revert d.
  induction l as [|e l IH]; intros d Hd; simpl; [done|]. apply IH, Hs, Hd.
Qed.
(** ** The routes *)

(** What [validate] makes of a payload for device [o]. *)
Definition accepted (o : option Z) (p : TargetPayload) (i : TargetInput) : Prop :=
  in_name i <> "" /\ in_address i <> "" /\ in_parent_id i = p_parent_id p /\ in_via_agent i = mjoin (p_via_agent p) /\
  in_credential i = p_credential p /\ (forall id, o = Some id -> in_parent_id i <> Some id /\ in_via_agent i <> Some id).

Lemma validate_reads registry o p s : only_reads (validate registry o p) (fun i _ => accepted o p i) s.
Proof.
  unfold only_reads, validate. do 12 (apply wp_bind, wp_refuse_if; [done|]; intros ?). apply wp_ret. split; [done|].
  repeat match goal with H : bool_decide _ = false |- _ => apply bool_decide_eq_false in H end.
  unfold accepted. cbn. split_and!; try done. intros id ->. split; intros Hx; naive_solver.
Qed.

Lemma load_reads id s :
  only_reads (load id) (fun t s => exists r, rows (devices s) !! id = Some r /\ row_to_target id r = Some t) s.
Proof.
  unfold only_reads, load. repeat (hstep; try done). split; [done|]. unfold get in *.
  destruct (rows (devices s) !! id) as [r|]; [|by simplify_eq]. exists r. split; [done|].
  destruct (row_to_target id r); by simplify_eq/=.
Qed.

Lemma check_parent_reads o s : only_reads (check_parent o) (fun _ _ => True) s.
Proof. unfold only_reads, check_parent. by repeat (hstep; try done). Qed.

Lemma check_relay_reads o s : only_reads (check_relay o) (fun _ _ => True) s.
Proof. unfold only_reads, check_relay, bad. by repeat (hstep; try done). Qed.

Lemma check_pack_relay_reads i s : only_reads (check_pack_relay i) (fun _ _ => True) s.
Proof. unfold only_reads, check_pack_relay. by repeat (hstep; try done). Qed.

(** Where and how a secret is sent. *)
Definition destination (address kind : string) (via : option Z) (tags : gmap string string)
  : string * string * option Z * list (option string) :=
  (trim address, kind, via, (fun key => tags !! key) <$> DESTINATION_TAGS).
Definition row_destination (r : Row) := destination (r_address r) (r_kind r) (r_via_agent r) (r_tags r).

Lemma existsb_false_fmap {A} (f g : string -> option A) (Hd : forall x y : option A, Decision (x = y)) keys :
  existsb (fun k => negb (bool_decide (f k = g k))) keys = false -> f <$> keys = g <$> keys.
Proof.
  induction keys as [|k keys IH]; [done|]. cbn [existsb].
  intros [Hk%negb_false_iff%bool_decide_eq_true Hr]%orb_false_iff. by rewrite !fmap_cons, Hk, IH.
Qed.

Lemma check_destination_reads before relay i s :
  only_reads (check_secret_destination before relay i)
    (fun _ _ => in_credential i = None -> credential before <> Credential.None ->
       destination (in_address i) (in_kind i) (in_via_agent i) (in_tags i) =
       destination (address before) (t_kind before) relay (tags before)) s.
Proof.
  unfold only_reads, check_secret_destination. destruct (_ || _) eqn:E.
  - apply wp_ret. split; [done|]. intros Hi Hb. exfalso. apply orb_true_iff in E as [E|E];
      apply bool_decide_eq_true in E; [rewrite Hi in E; by destruct E|done].
  - apply wp_refuse_if; [done|]. intros Hm. split; [done|]. intros _ _. unfold destination.
    apply orb_false_iff in Hm as [Hm Ht]. apply orb_false_iff in Hm as [Hm Hv]. apply orb_false_iff in Hm as [Ha Hk].
    apply negb_false_iff, bool_decide_eq_true in Ha, Hk, Hv.
    by rewrite Ha, Hk, Hv, (existsb_false_fmap (fun k => tags before !! k) (fun k => in_tags i !! k) _ _ Ht).
Qed.
(** ** Edition *)


Lemma row_to_target_fields id r t :
  row_to_target id r = Some t ->
  address t = r_address r /\ t_kind t = r_kind r /\ tags t = r_tags r /\
  decrypt_credential (r_credential r) = Some (credential t).
Proof. unfold row_to_target. destruct (decrypt_credential _); [|done]. by intros [= <-]. Qed.

(** A checked edition: sound for its row, and without a new credential it keeps the destination of the secret. *)
Definition checked (id : Z) (p : TargetPayload) (s : State) (c : Target * TargetInput) : Prop :=
  exists r, rows (devices s) !! id = Some r /\ row_to_target id r = Some c.1 /\
    (wf (devices s) -> sound id c.2) /\ in_credential c.2 = p_credential p /\
    (p_credential p = None -> credential c.1 <> Credential.None ->
     destination (in_address c.2) (in_kind c.2) (in_via_agent c.2) (in_tags c.2) = row_destination r).

Lemma update_check_reads registry id p s : only_reads (update_check registry id p) (fun c s => checked id p s c) s.
Proof.
  unfold only_reads, update_check.
  eapply wp_only_reads; [apply validate_reads|done|]. intros input (Hn & Ha & Hp & Hv & Hc & Hself).
  eapply wp_only_reads; [apply check_parent_reads|done|]. intros _ _.
  eapply wp_only_reads; [apply check_relay_reads|done|]. intros _ _.
  eapply wp_only_reads; [apply load_reads|done|]. intros before (r & Hr & Hb).
  apply wp_bind, wp_gets. assert (relay_of id (devices s) = r_via_agent r) as -> by (unfold relay_of; by rewrite Hr).
  eapply wp_only_reads; [apply check_destination_reads|done|]. intros [] Hd.
  eapply wp_only_reads; [apply check_pack_relay_reads|done|]. intros _ _. apply wp_ret. split; [done|].
  destruct (Hself id eq_refl) as [Hsp Hsv]. destruct (row_to_target_fields _ _ _ Hb) as (Ea & Ek & Et & _).
  exists r. split; [done|]. split; [done|]. split; [|split].
  - intros Hw. split; repeat case_bool_decide; try done; try (by right); simpl; intros Hx;
      by destruct (wf_relay _ Hw _ _ _ Hr Hx).
  - by repeat case_bool_decide.
  - intros Hpc Hbc. rewrite <-Hc in Hpc. unfold row_destination. rewrite <-Ea, <-Ek, <-Et.
    unfold destination in Hd |- *. rewrite <-Hd; [by repeat case_bool_decide|by destruct (bool_decide (p_via_agent p = None))|done].
Qed.

(** What follows the statement of an edition leaves the devices alone. *)
Lemma after_update registry now id before input b d s :
  devices s = d ->
  leaves (_ ← refuse_if (negb b) (not_found id);
          _ ← when_ (enabled before && negb (in_enabled input)) (forget_alerts now id);
          target ← load id;
          _ ← modify (fun s => set_alerts (apply_thresholds registry target (alerts s)) s);
          status ← gets (fun s => rows (devices s) !! id);
          mret (TargetView_new target status)) s (fun s' => devices s' = d).
Proof.
  intros Hd. unfold leaves, forget_alerts. repeat (hstep; try done).
  all: eapply wp_mono; [apply load_reads| |by intros ? ? ->]; intros ? ? [-> _]; by repeat (hstep; try done).
Qed.

Lemma update_write_devices registry now nonce id c s :
  let s' := (update_write registry now nonce id c s).1 in
  devices s' = devices s \/ exists b, update nonce id c.2 (devices s) = inr (devices s', b).
Proof.
  destruct c as [before input]. simpl. apply (leaves_state _ s (fun s' => devices s' = devices s \/
    exists b, update nonce id input (devices s) = inr (devices s', b))).
  unfold leaves, update_write. apply wp_bind. unfold statement, wp at 1.
  destruct (update nonce id input (devices s)) as [e|[d b]] eqn:E; [by left|].
  pose proof (after_update registry now id before input b d (set_devices d s) eq_refl) as Ha.
  eapply wp_mono; [exact Ha| |]; intros ? s' Hs'; right; exists b; by rewrite Hs'.
Qed.
Lemma create_route_devices registry nonce p s :
  let s' := (create_route registry nonce p s).1 in
  devices s' = devices s \/
  exists i id, in_name i <> "" /\ in_address i <> "" /\ create nonce i (devices s) = inr (devices s', id).
Proof.
  simpl. apply (leaves_state _ _ (fun s' => devices s' = devices s \/
    exists i id, in_name i <> "" /\ in_address i <> "" /\ create nonce i (devices s) = inr (devices s', id))).
  unfold leaves, create_route.
  eapply wp_only_reads; [apply validate_reads|by left|]. intros input (Hn & Ha & _).
  eapply wp_only_reads; [apply check_parent_reads|by left|]. intros _ _.
  eapply wp_only_reads; [apply check_relay_reads|by left|]. intros _ _.
  eapply wp_only_reads; [apply check_pack_relay_reads|by left|]. intros _ _.
  apply wp_bind. unfold statement, wp at 1. destruct (create nonce input (devices s)) as [e|[d id]] eqn:E; [by left|].
  eapply wp_only_reads; [apply load_reads|intros; right; by exists input, id|]. intros t _.
  repeat (hstep; try done). right. by exists input, id.
Qed.

Lemma update_route_devices registry now nonce id p s :
  let s' := (update_route registry now nonce id p s).1 in
  devices s' = devices s \/
  exists c b, checked id p s c /\ update nonce id c.2 (devices s) = inr (devices s', b).
Proof.
  simpl. unfold update_route. unfold mbind, Handler_bind.
  pose proof (update_check_reads registry id p s) as Hc. unfold only_reads, wp in Hc.
  destruct (update_check registry id p s) as [s0 [e|c]]; [left; by rewrite Hc|].
  destruct Hc as [-> Hc]. destruct (update_write_devices registry now nonce id c s) as [Hs|[b Hs]]; [by left|].
  right. by exists c, b.
Qed.

Lemma delete_route_devices now id s : devices (delete_route now id s).1 = (delete_ id (devices s)).1.
Proof.
  apply (leaves_state _ s (fun s' => devices s' = (delete_ id (devices s)).1)).
  unfold leaves, delete_route, forget_alerts. repeat (hstep; try done).
Qed.

Lemma devices_serve_wf registry c s : wf (devices s) -> wf (devices (serve registry c s)).
Proof.
  intros Hw. destruct c as [nonce p|now nonce id p|order|now id|id e|now id e|id profile]; simpl.
  - destruct (create_route_devices registry nonce p s) as [->|(i & id & Hn & Ha & Hc)]; [done|]. eapply create_wf; [done|done|by right|done].
  - destruct (update_route_devices registry now nonce id p s) as [->|(c & b & Hc & Hu)]; [done|].
    destruct Hc as (r & _ & _ & Hs & _). eapply update_wf; [exact Hw|by apply Hs|exact Hu].
  - unfold reorder_route, refuse_if. case_bool_decide; [done|]. simpl.
    apply reorder_ind; [|done]. intros. by apply wf_alter.
  - rewrite delete_route_devices. by apply delete_wf.
  - by apply wf_alter.
  - by apply wf_alter.
  - by apply wf_alter.
Qed.

(** Devices only disappear by being deleted. *)
Lemma serve_rows registry c s id :
  is_Some (rows (devices s) !! id) -> (forall now, c <> Delete now id) ->
  is_Some (rows (devices (serve registry c s)) !! id).
Proof.
  intros Hr Hd. destruct c as [nonce p|now nonce k p|order|now k|k e|now k e|k profile]; simpl.
  - destruct (create_route_devices registry nonce p s) as [->|(i & n & _ & _ & Hc)]; [done|]. unfold create in Hc.
    destruct (encrypt_credential _ _); [|done]. destruct (constraints _ _ _) as [|[]]; [done|].
    injection Hc as Hs _. rewrite <-Hs. simpl. apply lookup_insert_is_Some'. auto.
  - destruct (update_route_devices registry now nonce k p s) as [->|(c & b & _ & Hu)]; [done|].
    apply update_spec in Hu as [(_ & -> & _)|(r & secret & _ & _ & _ & _ & ->)]; [done|].
    simpl. apply lookup_insert_is_Some'. auto.
  - unfold reorder_route, refuse_if. case_bool_decide; [done|]. simpl.
    apply (reorder_ind (fun d => is_Some (rows d !! id))); [|done]. intros. by apply lookup_alter_is_Some.
  - rewrite delete_route_devices. destruct Hr as [row Hr]. exists (clear_references k row). apply delete_lookup.
    split; [intros ->; by apply (Hd now)|eauto].
  - by apply lookup_alter_is_Some.
  - by apply lookup_alter_is_Some.
  - by apply lookup_alter_is_Some.
Qed.

(** C13. Whatever is asked of the devices, by the routes, the probes and the detection, in any order: a type and
    an address name one device, every device has a name, an address (an agent's may be anything) and an
    interval of at least ten seconds, and its parent and its relay, when it has some, are other devices that exist. *)
Theorem devices_stay_well_formed registry calls alerts :
  wf (devices (serve_all registry calls {| devices := Table_new; alerts := alerts |})).
Proof.
  apply (foldl_invariant (fun s => wf (devices s))); [exact wf_Table_new|]. intros s c _. apply devices_serve_wf.
Qed.
(** ** Secrets *)

(** Device [id] is gone for ever, or holds the secret of row [r] with its destination. *)
Definition kept (id : Z) (r : Row) (d : Table) : Prop :=
  id <= last_id d /\
  forall r', rows d !! id = Some r' -> r_credential r' = r_credential r /\ row_destination r' = row_destination r.

(** The secret of the device is typed again, or its relay is deleted. *)
Definition reentered (id : Z) (c : Call) : Prop :=
  match c with Update _ _ k p => k = id /\ is_Some (p_credential p) | _ => False end.
Definition unrelayed (r : Row) (c : Call) : Prop :=
  match c with Delete _ a => r_via_agent r = Some a | _ => False end.

Lemma kept_alter f k id r d :
  (forall r0, r_credential (f r0) = r_credential r0 /\ row_destination (f r0) = row_destination r0) ->
  kept id r d -> kept id r (with_rows (alter f k) d).
Proof.
  intros Hf [Hl Hk]. split; [done|]. simpl. intros r'. destruct (decide (k = id)) as [->|Hn].
  - rewrite lookup_alter_eq. destruct (rows d !! id) as [r0|]; [|done]. intros [= <-].
    destruct (Hf r0) as [-> ->]. by apply Hk.
  - rewrite lookup_alter_ne by done. apply Hk.
Qed.

Lemma kept_update nonce id k r i d d' b :
  (k = id -> forall r', rows d !! id = Some r' -> in_credential i = None /\
     destination (in_address i) (in_kind i) (in_via_agent i) (in_tags i) = row_destination r') ->
  update nonce k i d = inr (d', b) -> kept id r d -> kept id r d'.
Proof.
  intros Hi [(_ & -> & _)|(r0 & secret & E & _ & _ & Hs & ->)]%update_spec [Hl Hk]; [done|].
  split; [done|]. simpl. intros r' [[-> <-]|[Hn E']]%lookup_insert_Some; [|by apply Hk].
  destruct (Hi eq_refl _ E) as [Hc Hd]. destruct (Hk _ E) as [<- <-]. split; [by apply Hs|exact Hd].
Qed.

Lemma kept_delete k id r d : r_via_agent r <> Some k -> kept id r d -> kept id r (delete_ k d).1.
Proof.
  intros Hv [Hl Hk]. split; [done|]. intros r' (_ & r0 & E & ->)%delete_lookup.
  destruct (Hk _ E) as [Hc Hd]. split; [exact Hc|]. rewrite <-Hd.
  assert (r_via_agent r0 = r_via_agent r) as Hvia by (unfold row_destination, destination in Hd; congruence).
  unfold row_destination. simpl. unfold clear_reference. rewrite Hvia. by rewrite bool_decide_false.
Qed.

Lemma serve_kept registry c id r credential s :
  wf (devices s) -> decrypt_credential (r_credential r) = Some credential -> credential <> Credential.None ->
  ~ reentered id c -> ~ unrelayed r c -> kept id r (devices s) -> kept id r (devices (serve registry c s)).
Proof.
  intros Hw Hdec Hcred Hre Hun Hk. destruct c as [nonce p|now nonce k p|order|now k|k e|now k e|k profile]; simpl.
  - destruct (create_route_devices registry nonce p s) as [->|(i & n & _ & _ & Hc)]; [done|]. unfold create in Hc.
    destruct (encrypt_credential _ _); [|done]. destruct (constraints _ _ _) as [|[]]; [done|].
    injection Hc as Hs _. rewrite <-Hs. destruct Hk as [Hl Hk]. split; simpl; [lia|].
    intros r'. rewrite lookup_insert_ne by lia. apply Hk.
  - destruct (update_route_devices registry now nonce k p s) as [->|(c & b & Hc & Hu)]; [done|].
    eapply kept_update; [|exact Hu|done]. intros -> r' Hr'.
    destruct Hc as (r0 & Hr0 & Ht & _ & Hpc & Hd). rewrite Hr' in Hr0. injection Hr0 as <-.
    destruct (p_credential p) eqn:Ep; [exfalso; apply Hre; split; [done|by rewrite Ep]|].
    split; [by rewrite Hpc|]. apply Hd; [done|].
    destruct (row_to_target_fields _ _ _ Ht) as (_ & _ & _ & Hb). destruct Hk as [_ Hk].
    destruct (Hk _ Hr') as [Hcr _]. rewrite Hcr, Hdec in Hb. by injection Hb as <-.
  - unfold reorder_route, refuse_if. case_bool_decide; [done|]. simpl.
    apply reorder_ind; [|done]. intros. by apply kept_alter.
  - rewrite delete_route_devices. by apply kept_delete.
  - by apply kept_alter.
  - by apply kept_alter.
  - by apply kept_alter.
Qed.

(** C12. A stored secret keeps the destination the guard of the secrets knows: through any sequence of calls that
    neither types the secret of a device again nor deletes its relay, as long as the device exists it keeps this very
    secret and with it its address, its type, its relay and each of the tags the code lists as destinations
    ([DESTINATION_TAGS]).  A tag outside that list may still change where the secret goes. *)
Theorem stored_secret_keeps_its_destination registry calls more alerts id r r' credential :
  let s := serve_all registry calls {| devices := Table_new; alerts := alerts |} in
  rows (devices s) !! id = Some r -> decrypt_credential (r_credential r) = Some credential ->
  credential <> Credential.None ->
  (forall c, c ∈ more -> ~ reentered id c /\ ~ unrelayed r c) ->
  rows (devices (serve_all registry more s)) !! id = Some r' ->
  r_credential r' = r_credential r /\ row_destination r' = row_destination r.
Proof.
  intros s Hr Hdec Hcred Hmore Hr'.
  assert (wf (devices s)) as Hw.
  { apply (foldl_invariant (fun s => wf (devices s))); [exact wf_Table_new|]. intros ? ? _. apply devices_serve_wf. }
  assert (wf (devices (serve_all registry more s)) /\ kept id r (devices (serve_all registry more s))) as [_ [_ Hk]].
  { apply (foldl_invariant (fun s => wf (devices s) /\ kept id r (devices s))).
    - split; [done|]. split; [by eapply wf_ids|]. intros r0 E. by simplify_map_eq.
    - intros s0 c Hc [Hw0 Hk0]. destruct (Hmore c Hc) as [Hre Hun]. split; [by apply devices_serve_wf|].
      by eapply serve_kept. }
  by apply Hk.
Qed.
End facts.

(** ** Examples *)

#[local] Existing Instance plain_crates.
#[local] Instance plain_json : CredentialJson := {|
  json_of_credential := fun c =>
    match c with
    | Credential.ApiToken key => Some (byte <$> Stdlib.Strings.String.list_ascii_of_string key)
    | _ => None
    end;
  credential_of_json := fun bytes =>
    Some (Credential.ApiToken (Stdlib.Strings.String.string_of_list_ascii ((fun b => ascii_of_nat (Z.to_nat b)) <$> bytes))) |}.

Definition example_registry : Registry := {| kinds := ["agent"; "securitygateway"]; pack_rules := fun _ => None |}.
Definition example_nonce : list Z := [0; 1; 2; 3; 4; 5; 6; 7; 8; 9; 10; 11].
Definition example_payload (kind address : string) (via : option (option Z)) (tags : gmap string string)
    (key : option Credential) : TargetPayload :=
  {| p_name := kind; p_address := address; p_kind := kind; p_profile_id := None; p_parent_id := None;
     p_via_agent := via; p_interval_secs := None; p_enabled := None; p_tags := tags; p_group_name := "";
     p_credential := key |}.
Definition gateway (via : option (option Z)) (key : option Credential) : TargetPayload :=
  example_payload "securitygateway" "mail.lan" via ∅ key.
Definition example_start (d : Db) : State := {| devices := Table_new; alerts := d |}.

(** An agent and a mail gateway polled through it, with an API key. *)
Definition example_calls : list Call :=
  [Create example_nonce (example_payload "agent" "host-1" None ∅ None);
   Create example_nonce (gateway (Some (Some 1)) (Some (Credential.ApiToken "key")))].
Definition example_state : State := serve_all example_registry example_calls (example_start (Office.db [] [])).
Definition example_row : Row :=
  {| r_name := "securitygateway"; r_address := "mail.lan"; r_kind := "securitygateway"; r_profile_id := None;
     r_parent_id := None; r_via_agent := Some 1; r_interval := 60; r_enabled := true; r_tags := ∅;
     r_credential := Some (example_nonce ++ [107; 101; 121]); r_group_name := ""; r_position := 2;
     r_last_probe_at := None; r_last_error := None |}.

Lemma example_state_row : rows (devices example_state) !! 2 = Some example_row.
Proof. vm_compute. reflexivity. Qed.

Lemma stored_secret_keeps_its_destination_witness :
  exists r', rows (devices (serve_all example_registry
               [Update 0 example_nonce 2 (gateway None None); Probed 5 2 None] example_state)) !! 2 = Some r' /\
    r_credential r' = r_credential example_row.
Proof.
  destruct (rows (devices (serve_all example_registry
    [Update 0 example_nonce 2 (gateway None None); Probed 5 2 None] example_state)) !! 2) as [r'|] eqn:E;
    [|exfalso; revert E; vm_compute; discriminate].
  exists r'. split; [reflexivity|].
  refine (proj1 (stored_secret_keeps_its_destination example_registry example_calls
    [Update 0 example_nonce 2 (gateway None None); Probed 5 2 None] (Office.db [] []) 2 example_row r'
    (Credential.ApiToken "key") example_state_row _ _ _ E)); [vm_compute; reflexivity|discriminate|].
  intros c Hc. apply elem_of_cons in Hc as [->|Hc]; [|apply list_elem_of_singleton in Hc as ->];
    (split; [|intros Hx; discriminate Hx || exact Hx]); simpl.
  - intros [_ [x Hx]]. discriminate Hx.
  - intros [].
Defined.

(** ** What the checks miss *)

Notation refused m s := (match snd (m s) with inl (ApiError.BadRequest _) => true | _ => false end).

(** A relay that is kept is not checked against the new type: a device polled through an agent becomes an
    agent, which is refused when the relay is sent along. *)
Theorem kept_relay_escapes_the_checks :
  let become via := update_route example_registry 0 example_nonce 2
                      (example_payload "agent" "host-2" via ∅ (Some Credential.None)) in
  refused (become (Some (Some 1))) example_state = true /\
  option_map (fun r => (r_kind r, r_via_agent r)) (rows (devices (become None example_state).1) !! 2)
    = Some ("agent", Some 1).
Proof. vm_compute. split; reflexivity. Qed.

(** A request that takes the relay away must carry the secret again; deleting the relay does the same and
    keeps the secret. *)
Theorem deleted_relay_moves_the_secret :
  refused (update_route example_registry 0 example_nonce 2 (gateway (Some None) None)) example_state = true /\
  option_map (fun r => (r_credential r, r_via_agent r))
    (rows (devices (delete_route 0 1 example_state).1) !! 2) = Some (r_credential example_row, None).
Proof. vm_compute. split; reflexivity. Qed.

(** Tags a collector sends its secret by that are not in the list: the key of a mail gateway goes out in
    clear on another port, without being typed again. *)
Theorem unlisted_tags_move_the_secret :
  let tags := <["api_tls" := "false"]> (<["api_port" := "8080"]> ∅) in
  let edited := update_route example_registry 0 example_nonce 2
                  (example_payload "securitygateway" "mail.lan" None tags None) example_state in
  option_map (fun r => (r_credential r, r_tags r)) (rows (devices edited.1) !! 2)
    = Some (r_credential example_row, tags).
Proof. vm_compute. reflexivity. Qed.

(** The checks of an edition and its statement are apart: an edition without a secret, checked before the
    device moves with a new secret, brings that secret to the address the device had. *)
Theorem crossing_editions_move_the_secret :
  let moved := (update_route example_registry 0 example_nonce 2
                 (example_payload "securitygateway" "new.lan" None ∅ (Some (Credential.ApiToken "new key")))
                 example_state).1 in
  match (update_check example_registry 2 (gateway None None) example_state).2 with
  | inl _ => False
  | inr checked =>
      let after := (update_write example_registry 0 example_nonce 2 checked moved).1 in
      option_map (fun r => (r_address r, decrypt_credential (r_credential r))) (rows (devices moved) !! 2)
        = Some ("new.lan", Some (Credential.ApiToken "new key")) /\
      option_map (fun r => (r_address r, decrypt_credential (r_credential r))) (rows (devices after) !! 2)
        = Some ("mail.lan", Some (Credential.ApiToken "new key"))
  end.
Proof. vm_compute. split; reflexivity. Qed.
