(* ===== verification/Site.v ===== *)
(** * Reading a site ([webchange/options.rs], [scope.rs], [sitemap.rs], [crawl.rs])

    Which addresses belong to the site watched, and the crawl that reads them: the start page, then what its
    site maps list or what its links reach, politely and within a budget.

    URLs, regular expressions and XML are the class [Web]; the answers of the site, the time elapsed and the
    resolver of names are arguments. *)
From Stdlib Require Import Ascii.
From Stdlib Require String.
From S2P Require Import Prelude Text Chrono RateLimit ApiToken Accounts Auth Wire Robots Html.

#[local] Set Warnings "-register-all".

(** The crates [url], [regex] and [roxmltree]. An XML element has the local name of its tag. *)

Inductive Xml := Element (tag : string) (children : list Xml) | CharData (s : string) | OtherNode.

Class Web := {
  Url : Type;
  #[global] Url_eq_dec :: EqDecision Url;
  #[global] Url_countable :: Countable Url;
  Origin : Type;
  #[global] Origin_eq_dec :: EqDecision Origin;
  url_parse : string -> string + Url;
  url_join : Url -> string -> option Url;
  url_str : Url -> string;
  url_scheme : Url -> string;
  url_host : Url -> option string;
  url_origin : Url -> Origin;
  url_path : Url -> string;
  url_query : Url -> option string;
  without_fragment : Url -> Url;
  without_query : Url -> Url;
  parse_ip : string -> option IpAddr;
  Regex : Type;
  regex_build : string -> string + Regex;
  is_match : Regex -> string -> bool;
  xml_parse : string -> option Xml;
}.

(** ** Errors of a probe (crate [proto], [collector.rs]) *)

Module ProbeError.
Inductive ProbeError :=
| Timeout (after : Duration)
| Unreachable (why : string)
| Auth (why : string)
| Protocol (why : string)
| Config (why : string)
| Other (why : string).
End ProbeError.
Notation ProbeError := ProbeError.ProbeError.

Definition quoted_ (s : string) : string := (quote +:+ s +:+ quote)%string.

(** ** Addresses no monitor reaches ([collectors/uptime/guard.rs]) *)

Definition GUARD_OPTION : string := "allow_private_targets".

Definition is_forbidden_v4 (bits : Z) : bool :=
  (bits / 2 ^ 24 =? 127) || (bits =? 0) || (bits / 2 ^ 16 =? 169 * 256 + 254).
Definition is_forbidden (ip : IpAddr) : bool :=
  match to_canonical ip with
  | V4 bits => is_forbidden_v4 bits
  | V6 bits => (bits =? 1) || (bits =? 0) || (bits / 2 ^ 118 =? 1018)
               || (bits =? 64768 * 2 ^ 112 + 3778 * 2 ^ 96 + 596)
  end.

Section site.
Context `{Crates} `{Web}.

Definition refusal (host : string) (ip : IpAddr) : ProbeError :=
  ProbeError.Config
    (quoted_ host +:+ " resolves to " +:+ display_ip ip +:+ ", a loopback or link-local address that only the " +:+
     "monitoring host itself can reach. Enable the option " +:+ quoted_ GUARD_OPTION +:+ " on this target if " +:+
     "you really mean to monitor a service running on the DumbMonit host.")%string.

Definition vet (host : string) (addresses : list IpAddr) (allow_private : bool) : option ProbeError :=
  if allow_private then None
  else refusal host <$> find_map (fun ip => if is_forbidden ip then Some ip else None) addresses.

(** [s.trim_matches(|c| c == '[' || c == ']')] *)
Definition is_bracket (a : ascii) : bool := bool_decide (a = "["%char) || bool_decide (a = "]"%char).
Definition reverse_string (s : string) : string :=
  Stdlib.Strings.String.string_of_list_ascii (reverse (Stdlib.Strings.String.list_ascii_of_string s)).
Definition trim_brackets (s : string) : string :=
  reverse_string (span is_bracket (reverse_string (span is_bracket s).2)).2.

(** What the names resolve to; [None] when the resolution fails or takes too long. *)
Definition vet_url (lookup_host : string -> option (list IpAddr)) (u : Url) (allow_private : bool) : option ProbeError :=
  if allow_private then None
  else match url_host u with
       | None => None
       | Some host =>
           let host := trim_brackets host in
           match parse_ip host with
           | Some ip => if is_forbidden ip then Some (refusal host ip) else None
           | None => lookup_host host ≫= fun addresses => vet host addresses false
           end
       end.

(** ** Scope ([scope.rs]) *)

Definition ASSET_EXTENSIONS : list string :=
  ["7z"; "aac"; "apk"; "atom"; "avi"; "avif"; "bin"; "bmp"; "bz2"; "css"; "csv"; "deb"; "dmg"; "doc"; "docx"; "eot";
   "epub"; "exe"; "flac"; "gif"; "gz"; "heic"; "ico"; "iso"; "jpeg"; "jpg"; "js"; "json"; "m4a"; "map"; "mjs"; "mkv";
   "mov"; "mp3"; "mp4"; "msi"; "odp"; "ods"; "odt"; "ogg"; "otf"; "pdf"; "png"; "ppt"; "pptx"; "rar"; "rpm"; "rss";
   "svg"; "tar"; "tgz"; "tif"; "tiff"; "ttf"; "txt"; "wasm"; "wav"; "webm"; "webp"; "woff"; "woff2"; "xls"; "xlsx";
   "xml"; "xz"; "zip"; "zst"].

Record Scope := { start : Url; prefix : string }.

Definition normalise (u : Url) : Url :=
  let u := without_fragment u in
  if bool_decide (url_query u = Some "") then without_query u else u.

Definition default_prefix (u : Url) : string :=
  match rsplit_once "/" (url_path u) with
  | Some (directory, _) => directory +:+ "/"
  | None => "/"
  end%string.

Definition non_blank (s : string) : option string := if bool_decide (s = "") then None else Some s.

Definition Scope_new (u : Url) (given : option string) : Scope :=
  {| start := normalise u;
     prefix := match (trim <$> given) ≫= non_blank with
               | Some p => if starts_with "/" p then p else ("/" +:+ p)%string
               | None => default_prefix u
               end |}.

Definition under_prefix (path p : string) : bool :=
  if ends_with "/" p then starts_with p path
  else bool_decide (path = p) || is_some_and (strip_prefix p path) (starts_with "/").

Definition looks_like_asset (path : string) : bool :=
  let last := match rsplit_once "/" path with Some (_, last) => last | None => path end in
  match rsplit_once "." last with
  | Some (_, extension) => bool_decide (to_ascii_lowercase extension ∈ ASSET_EXTENSIONS)
  | None => false
  end.

Definition contains (sc : Scope) (u : Url) : option Url :=
  if negb (bool_decide (url_scheme u = "http" \/ url_scheme u = "https")) then None
  else
    let u := normalise u in
    if negb (bool_decide (url_origin u = url_origin (start sc))) then None
    else if bool_decide (u = start sc) then Some u
    else if negb (under_prefix (url_path u) (prefix sc)) || looks_like_asset (url_path u) then None
    else Some u.

(** [Scope::accept] *)
Definition accept (sc : Scope) (base : Url) (href : string) : option Url :=
  let href := trim href in
  if bool_decide (href = "") || starts_with "#" href then None else url_join base href ≫= contains sc.

(** ** Settings ([options.rs]) *)

Definition OPTION_SCOPE : string := "scope".
Definition OPTION_MAX_PAGES : string := "max_pages".
Definition OPTION_PATH_PREFIX : string := "path_prefix".
Definition OPTION_IGNORE : string := "ignore".
Definition OPTION_SCREENSHOTS : string := "screenshots".
Definition OPTION_CHECK_INTERVAL : string := "check_interval_minutes".
Definition OPTION_INSECURE_TLS : string := "insecure_tls".
Definition DEFAULT_MAX_PAGES : Z := 25.
Definition MAX_MAX_PAGES : Z := 200.
Definition DEFAULT_CHECK_INTERVAL_MINUTES : Z := 60.
Definition MIN_CHECK_INTERVAL_MINUTES : Z := 5.
Definition MAX_CHECK_INTERVAL_MINUTES : Z := 7 * 24 * 60.
Definition MAX_IGNORE_PATTERNS : nat := 50.

Inductive Mode := Page_ | Site_.
#[global] Instance Mode_eq_dec : EqDecision Mode.
Proof. solve_decision. Defined.

Record Options := {
  mode : Mode;
  scope : Scope;
  max_pages : nat;
  ignore : list Regex;
  screenshots : bool;
  check_interval : Duration;
  insecure_tls : bool;
  allow_private : bool;
  o_fingerprint : string;
}.

Definition config {A} (why : string) : ProbeError + A := inl (ProbeError.Config why).

Definition start_url (address : string) : ProbeError + Url :=
  let address := trim address in
  let with_scheme := if Text.contains "://" address then address else ("https://" +:+ address)%string in
  match url_parse with_scheme with
  | inl error => config (quoted_ address +:+ " is not a valid web address: " +:+ error)
  | inr u =>
      if negb (bool_decide (url_scheme u = "http" \/ url_scheme u = "https")) then
        config ("only http:// and https:// addresses can be watched, got " +:+ quoted_ address)
      else if bool_decide (url_host u ?? "" = "") then config (quoted_ address +:+ " has no host name")
      else inr (normalise u)
  end%string.

Fixpoint build_all (patterns : list string) : ProbeError + list Regex :=
  match patterns with
  | [] => inr []
  | p :: ps =>
      match regex_build p with
      | inl error => config (quoted_ OPTION_IGNORE +:+ ": " +:+ quoted_ p +:+
                             " is not a valid regular expression: " +:+ error)
      | inr re => match build_all ps with inl e => inl e | inr res => inr (re :: res) end
      end
  end%string.
Definition parse_ignore (raw : string) : ProbeError + list Regex :=
  let patterns := filter (fun l => l <> "") (trim <$> lines raw) in
  if (MAX_IGNORE_PATTERNS <? length patterns)%nat then
    config (quoted_ OPTION_IGNORE +:+ " holds " +:+ display_i64 (Z.of_nat (length patterns)) +:+
            " expressions, 50 at most")%string
  else build_all patterns.

Definition tag (t : Target) (k : string) : option string := (trim <$> tags t !! k) ≫= non_blank.

Definition parse_bool (t : Target) (k : string) (default_ : bool) : ProbeError + bool :=
  match to_ascii_lowercase <$> tag t k with
  | None => inr default_
  | Some v =>
      if bool_decide (v ∈ ["true"; "1"; "yes"; "on"]) then inr true
      else if bool_decide (v ∈ ["false"; "0"; "no"; "off"]) then inr false
      else config (quoted_ k +:+ " expects a boolean (true/false), got " +:+ quoted_ v)%string
  end.

(** [u32::from_str]: an optional plus sign. *)
Definition parse_u32_text (s : string) : option Z :=
  u32_from_str_radix digit_value 10 (match strip_prefix "+" s with Some s => s | None => s end).
Definition parse_u32 (t : Target) (k : string) (default_ lo hi : Z) : ProbeError + Z :=
  match tag t k with
  | None => inr default_
  | Some raw =>
      match parse_u32_text raw with
      | None => config (quoted_ k +:+ " expects an integer, got " +:+ quoted_ raw)
      | Some v =>
          if ((lo <=? v) && (v <=? hi))%Z then inr v
          else config (quoted_ k +:+ " must be between " +:+ display_i64 lo +:+ " and " +:+ display_i64 hi +:+
                       ", got " +:+ display_i64 v)
      end
  end%string.

#[local] Instance Result_ret : MRet (sum ProbeError) := fun A a => inr a.
#[local] Instance Result_bind : MBind (sum ProbeError) :=
  fun A B f m => match m with inr a => f a | inl e => inl e end.

(** The texts whose change makes a new reference, each closed by a zero byte. *)
Definition hashed (parts : list string) : string :=
  foldr (fun part rest => part +:+ String "000"%char rest)%string EmptyString parts.

Definition from_target (t : Target) : ProbeError + Options :=
  u ← start_url (address t);
  m ← match to_ascii_lowercase <$> tag t OPTION_SCOPE with
      | None => inr Page_
      | Some v => if bool_decide (v = "page") then inr Page_
                  else if bool_decide (v = "site") then inr Site_
                  else config (quoted_ OPTION_SCOPE +:+ " must be " +:+ quoted_ "page" +:+ " or " +:+ quoted_ "site" +:+
                               ", got " +:+ quoted_ v)%string
      end;
  max ← parse_u32 t OPTION_MAX_PAGES DEFAULT_MAX_PAGES 1 MAX_MAX_PAGES;
  let given := tag t OPTION_PATH_PREFIX in
  _ ← match given with
      | Some p => if Text.contains "://" p || has_whitespace p
                  then config (quoted_ OPTION_PATH_PREFIX +:+ " is a path such as /docs/, got " +:+ quoted_ p)%string
                  else inr tt
      | None => inr tt
      end;
  let sc := Scope_new u given in
  let raw_ignore := tag t OPTION_IGNORE ?? "" in
  ignore ← parse_ignore raw_ignore;
  minutes ← parse_u32 t OPTION_CHECK_INTERVAL DEFAULT_CHECK_INTERVAL_MINUTES
              MIN_CHECK_INTERVAL_MINUTES MAX_CHECK_INTERVAL_MINUTES;
  screenshots ← parse_bool t OPTION_SCREENSHOTS true;
  insecure_tls ← parse_bool t OPTION_INSECURE_TLS false;
  allow_private ← parse_bool t GUARD_OPTION false;
  inr {| mode := m; scope := sc; max_pages := match m with Page_ => 1 | Site_ => Z.to_nat max end;
         ignore := ignore; screenshots := screenshots; check_interval := td_minutes minutes;
         insecure_tls := insecure_tls; allow_private := allow_private;
         o_fingerprint := hex_encode (sha256 (hashed
           [url_str (start sc); match m with Site_ => "site" | Page_ => "page" end; prefix sc; trim raw_ignore])) |}.

Definition keep_lines (o : Options) (ls : list string) : list string :=
  filter (fun line => existsb (fun re => is_match re line) (ignore o) = false) ls.

(** ** Site maps ([sitemap.rs]) *)

Inductive Sitemap := Urls (l : list string) | Index (l : list string).

Definition children_of (x : Xml) : list Xml := match x with Element _ children => children | _ => [] end.
Definition named (name : string) (x : Xml) : bool :=
  match x with Element t _ => bool_decide (t = name) | _ => false end.
(** [node.text()]: the first child of an element, when it is a text. *)
Definition node_text (x : Xml) : option string :=
  match children_of x with CharData s :: _ => Some s | _ => None end.
Definition location (entry : string) (node : Xml) : option string :=
  if named entry node then
    loc ← find_map (fun c => if named "loc" c then Some c else None) (children_of node);
    (trim <$> node_text loc) ≫= non_blank
  else None.
Definition sitemap_parse (xml : string) : option Sitemap :=
  root ← xml_parse xml;
  if named "urlset" root then Some (Urls (omap (location "url") (children_of root)))
  else if named "sitemapindex" root then Some (Index (omap (location "sitemap") (children_of root)))
  else None.

(** ** The crawl ([crawl.rs]) *)

Definition REQUEST_TIMEOUT : Duration := td_seconds 15.
Definition MAX_PAGE_BYTES : Z := 5 * 1024 * 1024.
Definition MAX_SITEMAP_BYTES : Z := 10 * 1024 * 1024.
Definition CONCURRENCY : nat := 2.
Definition POLITE_DELAY : Duration := 500 * 1000000.
Definition MAX_CHILD_SITEMAPS : nat := 10.
Definition CRAWL_BUDGET : Duration := td_minutes 10.

Record PageResult := {
  pr_url : Url;
  pr_status : option Z;
  pr_error : option string;
  pr_title : option string;
  pr_lines : option (list string);
  pr_gone : bool;
}.
Record Crawl := { pages : list PageResult; complete : bool }.

Inductive FetchError := FetchTimeout | Network (message : string).
Record Response := {
  rs_status : Z;
  rs_content_type : string;
  rs_body : string;
  rs_final_url : Url;
  rs_skipped : bool;
}.

(** What the HTTP client gives of a request: the head of the answer, then the pieces of its body up to its end
    or an error. *)
Record Answer := {
  a_status : Z;
  a_content_type : string;
  a_final_url : Url;
  a_chunks : list string;
  a_broken : option FetchError;
}.

Definition essence (content_type : string) : string :=
  to_ascii_lowercase (trim (match split_once ";" content_type with Some (e, _) => e | None => content_type end)).
Definition is_html (content_type : string) : bool :=
  let e := essence content_type in
  bool_decide (e = "") || bool_decide (e = "text/html") || bool_decide (e = "application/xhtml+xml").
Definition is_text (content_type : string) : bool :=
  let e := essence content_type in
  starts_with "text/" e || bool_decide (e = "application/json") || bool_decide (e = "application/xml")
  || ends_with "+json" e || ends_with "+xml" e.

(** The body, cut at [max] bytes; an error that comes before this limit is the answer. *)
Fixpoint read_body (max : Z) (body : string) (chunks : list string) (broken : option FetchError)
  : FetchError + string :=
  match chunks with
  | [] => match broken with Some e => inl e | None => inr body end
  | chunk :: chunks =>
      let body := (body +:+ chunk)%string in
      if max <=? Z.of_nat (String.length body) then inr (String.substring 0 (Z.to_nat max) body)
      else read_body max body chunks broken
  end.

(** [String::from_utf8_lossy]: each longest front of a character that goes wrong is replaced by U+FFFD. *)
Definition in_range (lo hi : Z) (s : list ascii) : bool :=
  match s with a :: _ => (lo <=? byte a) && (byte a <=? hi) | [] => false end.
(** The bytes that may follow a first byte, each by its bounds. *)
Definition continuations (a : ascii) : option (list (Z * Z)) :=
  let b := byte a in
  let tail := (128, 191) in
  if b <? 128 then Some []
  else if (194 <=? b) && (b <=? 223) then Some [tail]
  else if b =? 224 then Some [(160, 191); tail]
  else if b =? 237 then Some [(128, 159); tail]
  else if (225 <=? b) && (b <=? 239) then Some [tail; tail]
  else if b =? 240 then Some [(144, 191); tail; tail]
  else if (241 <=? b) && (b <=? 243) then Some [tail; tail; tail]
  else if b =? 244 then Some [(128, 143); tail; tail]
  else None.
(** How many of them follow, and whether all do. *)
Fixpoint follow (bounds : list (Z * Z)) (s : list ascii) : nat * bool :=
  match bounds with
  | [] => (O, true)
  | (lo, hi) :: bounds =>
      if in_range lo hi s then let '(n, all) := follow bounds (tail s) in (S n, all) else (O, false)
  end.
Definition replacement : list ascii := ["239"%char; "191"%char; "189"%char].
Fixpoint lossy (keep : nat) (skip : nat) (s : list ascii) : list ascii :=
  match s with
  | [] => []
  | a :: s' =>
      match keep, skip with
      | S keep, _ => a :: lossy keep skip s'
      | O, S skip => lossy 0 skip s'
      | O, O => match continuations a with
                | None => replacement ++ lossy 0 0 s'
                | Some bounds => match follow bounds s' with
                                 | (n, true) => a :: lossy n 0 s'
                                 | (n, false) => replacement ++ lossy 0 n s'
                                 end
                end
      end
  end.
Definition from_utf8_lossy (s : string) : string :=
  Stdlib.Strings.String.string_of_list_ascii (lossy 0 0 (Stdlib.Strings.String.list_ascii_of_string s)).

(** The answer of the site to a request of a round; the requests before the loop are of round 0. *)
Variable http : nat -> Url -> FetchError + Answer.

(** [Client::get] *)
Definition client_get (round : nat) (u : Url) (max : Z) (any_type : bool) : FetchError + Response :=
  match http round u with
  | inl e => inl e
  | inr a =>
      if negb any_type && (a_status a <? 400) && negb (is_html (a_content_type a)) then
        inr {| rs_status := a_status a; rs_content_type := a_content_type a; rs_body := "";
               rs_final_url := a_final_url a; rs_skipped := true |}
      else match read_body max "" (a_chunks a) (a_broken a) with
           | inl e => inl e
           | inr body => inr {| rs_status := a_status a; rs_content_type := a_content_type a;
                                rs_body := from_utf8_lossy body; rs_final_url := a_final_url a;
                                rs_skipped := false |}
           end
  end.

Definition failed (u : Url) (e : FetchError) : PageResult :=
  {| pr_url := u; pr_status := None;
     pr_error := Some match e with FetchTimeout => "no answer within 15s" | Network message => message end;
     pr_title := None; pr_lines := None; pr_gone := false |}.

(** [html::parse] reads every page: [parse_reads_every_page]. *)
Definition read_page (u : Url) (r : Response) (any_text : bool) : PageResult * list Url :=
  let result error title_ lines_ :=
    {| pr_url := u; pr_status := Some (rs_status r); pr_error := error; pr_title := title_; pr_lines := lines_;
       pr_gone := (rs_status r =? 404) || (rs_status r =? 410) |} in
  if 400 <=? rs_status r then (result (Some ("HTTP " +:+ display_i64 (rs_status r))%string) None None, [])
  else if is_html (rs_content_type r) then
    let page := Html.parse (rs_body r) ?? Page_default in
    let base := (base_href page ≫= url_join (rs_final_url r)) ?? rs_final_url r in
    (result None (title page) (Some (p_lines page)), omap (fun href => url_join base (trim href)) (links page))
  else if any_text && is_text (rs_content_type r) then
    (result None None (Some (filter (fun l => l <> "") (collapse <$> lines (rs_body r)))), [])
  else (result (Some ("not a web page (content type " +:+ rs_content_type r +:+ ")")%string) None None, []).

Definition fetch_robots (start_ : Url) : Robots :=
  match url_join start_ "/robots.txt" with
  | None => {| rules := []; sitemaps := [] |}
  | Some u =>
      match client_get 0 u MAX_SITEMAP_BYTES true with
      | inr r => if rs_status r =? 200 then Robots.parse (rs_body r) else {| rules := []; sitemaps := [] |}
      | inl _ => {| rules := []; sitemaps := [] |}
      end
  end.

Definition fetch_sitemap (u : Url) : option Sitemap :=
  match client_get 0 u MAX_SITEMAP_BYTES true with
  | inl _ => None
  | inr r => if negb (rs_status r =? 200) then None else sitemap_parse (rs_body r)
  end.

(** The addresses among texts, of the origin of the start. *)
Definition parsed (raw : list string) : list Url :=
  omap (fun s => match url_parse s with inr u => Some u | inl _ => None end) raw.
Definition same_origin (o : Options) (us : list Url) : list Url :=
  filter (fun u => url_origin u = url_origin (start (scope o))) us.

Definition locations (o : Options) (candidate : Url) : list string :=
  match fetch_sitemap candidate with
  | Some (Urls urls) => urls
  | Some (Index children) =>
      concat ((fun child => match fetch_sitemap child with Some (Urls urls) => urls | _ => [] end) <$>
              take MAX_CHILD_SITEMAPS (same_origin o (parsed children)))
  | None => []
  end.

(** The first of each, but the start. *)
Fixpoint distinct (seen : gset Url) (us : list Url) : list Url :=
  match us with
  | [] => []
  | u :: us => if bool_decide (u ∈ seen) then distinct seen us else u :: distinct ({[u]} ∪ seen) us
  end.

Definition sitemap_urls (o : Options) (robots : Robots) : list Url :=
  let candidates := take 3 (same_origin o (parsed (sitemaps robots))) in
  let candidates := if bool_decide (candidates = [])
                    then option_list (url_join (start (scope o)) "/sitemap.xml") else candidates in
  let all := concat (locations o <$> candidates) in
  distinct {[start (scope o)]} (omap (contains (scope o)) (parsed all)).

Definition path_and_query (u : Url) : string :=
  match url_query u with
  | Some q => url_path u +:+ "?" +:+ q
  | None => url_path u
  end%string.

(** The queue and the addresses seen. *)
Definition enqueue_url (o : Options) (robots : Robots) (qs : list Url * gset Url) (u : Url) : list Url * gset Url :=
  match contains (scope o) u with
  | Some u =>
      if bool_decide (u ∈ qs.2) || negb (allows robots (path_and_query u)) then qs
      else (qs.1 ++ [u], {[u]} ∪ qs.2)
  | None => qs
  end.
Definition enqueue (o : Options) (robots : Robots) (us : list Url) (qs : list Url * gset Url) : list Url * gset Url :=
  foldl (enqueue_url o robots) qs us.

Record Walk := { w_pages : list PageResult; w_queue : list Url; w_seen : gset Url }.

(** What a fetch gives: nothing for what is not a page, else the page and its links. *)
Definition visit_page (round : nat) (u : Url) : option (PageResult * list Url) :=
  match client_get round u MAX_PAGE_BYTES false with
  | inr r => if rs_skipped r then None else Some (read_page u r false)
  | inl e => Some (failed u e, [])
  end.

Definition keep_page (o : Options) (robots : Robots) (follow_links : bool) (w : Walk) (fetched : PageResult * list Url)
  : Walk :=
  let '(q, s) := if follow_links then enqueue o robots fetched.2 (w_queue w, w_seen w) else (w_queue w, w_seen w) in
  {| w_pages := w_pages w ++ [fetched.1]; w_queue := q; w_seen := s |}.

(** A round of the loop: a batch taken from the queue, fetched together. *)
Definition round_ (o : Options) (robots : Robots) (follow_links : bool) (round : nat) (w : Walk) : Walk :=
  let room := Nat.min (max_pages o - length (w_pages w)) CONCURRENCY in
  let batch := take room (w_queue w) in
  foldl (keep_page o robots follow_links)
    {| w_pages := w_pages w; w_queue := drop room (w_queue w); w_seen := w_seen w |}
    (omap (visit_page round) batch).

(** The time elapsed when the loop is at its [n]-th test. *)
Variable elapsed : nat -> Z.

(** The loop; [None] when the rounds run out. *)
Fixpoint walk (fuel : nat) (o : Options) (robots : Robots) (follow_links : bool) (n : nat) (w : Walk) : option Crawl :=
  match fuel with
  | O => None
  | S fuel =>
      if bool_decide (w_queue w = []) then Some {| pages := w_pages w; complete := true |}
      else if (max_pages o <=? length (w_pages w))%nat || (CRAWL_BUDGET <? elapsed n)
      then Some {| pages := w_pages w; complete := false |}
      else walk fuel o robots follow_links (S n) (round_ o robots follow_links (S n) w)
  end.

(** Each round waits half a second: [crawl_ends] shows that these are enough. *)
Definition ROUNDS : nat := Z.to_nat (CRAWL_BUDGET / POLITE_DELAY + 2).

(** What the names resolve to. *)
Variable lookup_host : string -> option (list IpAddr).

(** The client could be built. *)
Definition crawl (o : Options) : option (ProbeError + Crawl) :=
  let s := start (scope o) in
  match vet_url lookup_host s (allow_private o) with
  | Some e => Some (inl e)
  | None =>
      match client_get 0 s MAX_PAGE_BYTES true with
      | inl FetchTimeout => Some (inl (ProbeError.Timeout REQUEST_TIMEOUT))
      | inl (Network message) => Some (inl (ProbeError.Unreachable message))
      | inr first =>
          if 500 <=? rs_status first then
            Some (inl (ProbeError.Unreachable ("the start page answers HTTP " +:+ display_i64 (rs_status first))%string))
          else
            let '(result, links) := read_page s first (bool_decide (mode o = Page_)) in
            let start_ok := bool_decide (pr_error result = None) in
            if bool_decide (mode o = Page_) then Some (inr {| pages := [result]; complete := start_ok |})
            else if negb start_ok then Some (inr {| pages := [result]; complete := false |})
            else
              let robots := fetch_robots s in
              let from_sitemap := sitemap_urls o robots in
              let follow_links := bool_decide (from_sitemap = []) in
              let '(q, seen) := enqueue o robots (if follow_links then links else from_sitemap) ([], {[s]}) in
              inr <$> walk ROUNDS o robots follow_links 0 {| w_pages := [result]; w_queue := q; w_seen := seen |}
      end
  end.
End site.
