(* ===== verification/SiteFacts.v ===== *)
(** * Reading a site: what a crawl guarantees

    It ends, reads each page once and within its bounds, and when it says it is complete it has read exactly
    the pages the links reach. *)
From Stdlib Require Import Ascii.
From Stdlib Require String.
From S2P Require Import Prelude Text Chrono RateLimit ApiToken Accounts Auth Guard Wire Robots Html Site.

Section crawl.
Context `{Crates} `{Web}.
Variable http : nat -> Url -> FetchError + Answer.
Variable elapsed : nat -> Z.
Variable lookup_host : string -> option (list IpAddr).
Notation walk := (walk http elapsed).
Notation round_ := (round_ http).

(** ** The loop ends *)

Lemma walk_ends o robots follow fuel n w :
  (0 < fuel)%nat -> (ROUNDS <= fuel + n)%nat -> (forall k, Z.of_nat k * POLITE_DELAY <= elapsed k) ->
  is_Some (walk fuel o robots follow n w).
Proof.
  intros Hf Hn He. revert n w Hf Hn. induction fuel as [|fuel IH]; intros n w Hf Hn; [lia|]. simpl.
  case_bool_decide; [eauto|]. destruct (_ || _) eqn:E; [eauto|].
  apply orb_false_iff in E as [_ E]. apply Z.ltb_ge in E. pose proof (He n).
  assert (Z.of_nat n <= 1200) as Hb. { unfold CRAWL_BUDGET, POLITE_DELAY, td_minutes, ns_per_s in *. lia. }
  assert (ROUNDS = 1202%nat) as HR by (vm_compute; reflexivity). apply IH; lia.
Qed.

(** C39. Whatever the site answers, and however many links it has, a crawl ends: each round waits half a second,
    so the 1202 rounds it is given are more than its ten minutes allow. *)
Theorem crawl_ends o :
  0 <= elapsed 0 -> (forall n, elapsed n + POLITE_DELAY <= elapsed (S n)) ->
  is_Some (crawl http elapsed lookup_host o).
Proof.
  intros H0' Hs. assert (forall k, Z.of_nat k * POLITE_DELAY <= elapsed k) as He.
  { induction k as [|k IH]; [simpl; lia|]. pose proof (Hs k). lia. }
  unfold crawl. destruct (vet_url _ _ _); [eauto|]. destruct (client_get _ _ _ _ _) as [[]|first]; [eauto..|].
  destruct (500 <=? _); [eauto|]. destruct (read_page _ _ _) as [result links].
  case_bool_decide; [eauto|]. destruct (negb _); [eauto|]. destruct (enqueue _ _ _ _) as [q seen].
  apply fmap_is_Some, walk_ends; [vm_compute; lia|lia|done].
Qed.

(** ** What a round does *)

Notation urls := (fmap pr_url).

Section walk.
Variables (o : Options) (robots : Robots) (follow : bool).

(** The addresses a link may bring in. *)
Definition admitted (u v : Url) : Prop := contains (scope o) u = Some v /\ allows robots (path_and_query v) = true.

Lemma enqueue_url_spec u q seen q' seen' :
  enqueue_url o robots (q, seen) u = (q', seen') ->
  (q' = q /\ seen' = seen /\ (forall v, admitted u v -> v ∈ seen)) \/
  (exists v, admitted u v /\ v ∉ seen /\ q' = q ++ [v] /\ seen' = {[v]} ∪ seen).
Proof.
  unfold enqueue_url, admitted. destruct (contains (scope o) u) as [v|]; simpl.
  - destruct (bool_decide (v ∈ seen)) eqn:Es; simpl.
    + intros [= <- <-]. apply bool_decide_eq_true in Es. left. split_and!; [done..|]. by intros ? [[= ->] _].
    + apply bool_decide_eq_false in Es. destruct (allows robots _) eqn:Er; simpl; intros [= <- <-].
      * right. by exists v.
      * left. split_and!; [done..|]. intros ? [[= ->] Hr]. congruence.
  - intros [= <- <-]. left. split_and!; [done..|]. by intros ? [? _].
Qed.

(** What [enqueue] adds, all new and admitted, and nothing admitted is left out. *)
Lemma enqueue_spec us q seen :
  exists new, enqueue o robots us (q, seen) = (q ++ new, list_to_set new ∪ seen) /\ NoDup new /\
    (forall v, v ∈ new -> v ∉ seen /\ exists u, u ∈ us /\ admitted u v) /\
    (forall u v, u ∈ us -> admitted u v -> v ∈ new \/ v ∈ seen).
Proof.
  unfold enqueue. revert q seen. induction us as [|u us IH]; intros q seen; simpl.
  { exists []. rewrite app_nil_r. split_and!; [f_equal; set_solver|constructor|set_solver..]. }
  destruct (enqueue_url o robots (q, seen) u) as [q1 seen1] eqn:E.
  destruct (IH q1 seen1) as (new & -> & Hn & Hnew & Hall).
  destruct (enqueue_url_spec _ _ _ _ _ E) as [(-> & -> & Hu)|(v & Hv & Hs & -> & ->)].
  - exists new. split_and!; [done|done| |].
    + intros v Hv. destruct (Hnew v Hv) as (? & x & Hx & ?). split; [done|]. exists x. split; [by right|done].
    + intros x v [->|Hx]%elem_of_cons Ha; [right; by apply Hu|by eapply Hall].
  - exists (v :: new). split_and!.
    + f_equal; [by rewrite <- app_assoc|]. simpl. set_solver.
    + constructor; [|done]. intros Hin. destruct (Hnew v Hin) as [Hx _]. set_solver.
    + intros x [->|Hx]%elem_of_cons; [split; [done|]; exists u; split; [by left|done]|].
      destruct (Hnew x Hx) as (? & y & Hy & ?). split; [set_solver|]. exists y. split; [by right|done].
    + intros x y [->|Hx]%elem_of_cons Ha.
      * left. destruct Hv as [Hc _], Ha as [Hc' _]. rewrite Hc in Hc'. injection Hc' as ->. by left.
      * destruct (Hall x y Hx Ha) as [?|?]; [left; by right|].
        assert (y = v \/ y ∈ seen) as [->|?] by set_solver; [left; by left|by right].
Qed.

(** The pages read, the addresses of the batch still to keep, the queue and the addresses seen. *)
Record sane (pending : list Url) (w : Walk) : Prop := {
  sane_nodup : NoDup (urls (w_pages w) ++ pending ++ w_queue w);
  sane_seen u : u ∈ urls (w_pages w) ++ pending ++ w_queue w -> u ∈ w_seen w;
}.

Lemma keep_page_sane u pending w fetched :
  pr_url fetched.1 = u -> sane (u :: pending) w -> sane pending (keep_page o robots follow w fetched).
Proof.
  intros Hu [Hn Hs]. unfold keep_page.
  assert (exists new, (if follow then enqueue o robots fetched.2 (w_queue w, w_seen w) else (w_queue w, w_seen w))
    = (w_queue w ++ new, list_to_set new ∪ w_seen w) /\ NoDup new /\ forall v, v ∈ new -> v ∉ w_seen w) as (new & -> & Hnn & Hnew).
  { destruct follow.
    - destruct (enqueue_spec fetched.2 (w_queue w) (w_seen w)) as (new & -> & ? & Hx & _). exists new.
      split_and!; [done|done|]. intros v Hv. by destruct (Hx v Hv).
    - exists []. rewrite app_nil_r. split_and!; [f_equal; set_solver|constructor|set_solver]. }
  assert (urls (w_pages w ++ [fetched.1]) ++ pending ++ w_queue w ++ new
          = (urls (w_pages w) ++ (u :: pending) ++ w_queue w) ++ new) as Hl.
  { rewrite fmap_app, <- !app_assoc. simpl. by rewrite Hu. }
  split; simpl; rewrite Hl.
  - apply NoDup_app. split_and!; [done| |done]. intros x Hx Hx'. apply (Hnew x Hx'). by apply Hs.
  - intros x [Hx|Hx]%elem_of_app; [|set_solver]. apply elem_of_union. right. by apply Hs.
Qed.

Lemma keep_skipped_sane u pending w : sane (u :: pending) w -> sane pending w.
Proof.
  intros [Hn Hs]. split.
  - revert Hn. rewrite !NoDup_app. simpl. rewrite NoDup_cons. set_solver.
  - intros x Hx. apply Hs. set_solver.
Qed.

Lemma read_page_url u r any_text : pr_url (read_page u r any_text).1 = u.
Proof.
  unfold read_page. repeat match goal with |- context [if ?b then _ else _] => destruct b end; done.
Qed.

Lemma visit_page_url n u fetched : visit_page http n u = Some fetched -> pr_url fetched.1 = u.
Proof.
  unfold visit_page. destruct (client_get _ _ _ _ _) as [e|r]; [by intros [= <-]|].
  destruct (rs_skipped r); [done|]. intros [= <-]. apply read_page_url.
Qed.

(** The batch of a round, kept page by page: a property of a walk and of what is left of the batch. *)
Lemma round_ind (P : list Url -> Walk -> Prop) n w :
  (forall w u pending fetched, visit_page http n u = Some fetched -> P (u :: pending) w ->
     P pending (keep_page o robots follow w fetched)) ->
  (forall w u pending, visit_page http n u = None -> P (u :: pending) w -> P pending w) ->
  (let room := Nat.min (max_pages o - length (w_pages w)) CONCURRENCY in
   P (take room (w_queue w)) {| w_pages := w_pages w; w_queue := drop room (w_queue w); w_seen := w_seen w |}) ->
  P [] (round_ o robots follow n w).
Proof.
  intros Hk Hs. unfold round_. set (room := Nat.min _ _). simpl. generalize (take room (w_queue w)) as batch.
  intros batch. generalize {| w_pages := w_pages w; w_queue := drop room (w_queue w); w_seen := w_seen w |} as w0.
  induction batch as [|u batch IH]; intros w0 HP; simpl; [done|].
  destruct (visit_page http n u) as [fetched|] eqn:E; simpl; apply IH; [by eapply Hk|by eapply Hs].
Qed.

Lemma round_sane n w : sane [] w -> sane [] (round_ o robots follow n w).
Proof.
  intros [Hn Hs]. apply round_ind.
  - intros w0 u pending fetched Hv. apply keep_page_sane. by eapply visit_page_url.
  - intros w0 u pending _. apply keep_skipped_sane.
  - simpl in *. split; simpl; rewrite take_drop; done.
Qed.

(** No more pages than asked. *)
Lemma round_bounded n w :
  (length (w_pages w) <= max_pages o)%nat -> (length (w_pages (round_ o robots follow n w)) <= max_pages o)%nat.
Proof.
  intros Hl.
  assert (length (w_pages (round_ o robots follow n w)) + length (@nil Url) <= max_pages o)%nat; [|simpl in *; lia].
  apply (round_ind (fun pending w => (length (w_pages w) + length pending <= max_pages o)%nat)).
  - intros w0 u pending fetched _ Hp. unfold keep_page. destruct (if follow then _ else _) as [q s]. simpl.
    rewrite length_app. simpl in *. lia.
  - intros w0 u pending _ Hp. simpl in *. lia.
  - simpl. rewrite length_take. lia.
Qed.

(** What holds of a walk at every round holds of the crawl. *)
Lemma walk_ind (P : Walk -> Prop) fuel n w c :
  (forall n w, P w -> P (round_ o robots follow n w)) -> P w -> walk fuel o robots follow n w = Some c ->
  exists w', P w' /\ pages c = w_pages w' /\ (complete c = true -> w_queue w' = []).
Proof.
  intros Hr. revert n w. induction fuel as [|fuel IH]; intros n w HP; simpl; [done|].
  case_bool_decide as Hq; [intros [= <-]; by exists w|].
  destruct (_ || _); [intros [= <-]; by exists w|]. apply IH. by apply Hr.
Qed.

(** ** Completeness *)

Variable begin : Url.
Variable begin_links : list Url.

(** The links of a page, as the crawl reads them. *)
Definition links_of (u : Url) : list Url :=
  if bool_decide (u = begin) then begin_links
  else match visit_page http 0 u with Some fetched => fetched.2 | None => [] end.
Definition leads (u v : Url) : Prop := exists x, x ∈ links_of u /\ admitted x v.

Record exploring (pending : list Url) (w : Walk) : Prop := {
  ex_sane : sane pending w;
  ex_begin : begin ∈ urls (w_pages w);
  ex_reached u : u ∈ w_seen w -> rtc leads begin u;
  ex_closed u v : u ∈ w_seen w -> u ∉ pending ++ w_queue w -> leads u v -> v ∈ w_seen w;
  ex_pages u : u ∈ w_seen w -> u ∉ pending ++ w_queue w ->
    u ∈ urls (w_pages w) \/ (u <> begin /\ visit_page http 0 u = None);
  ex_read u : u ∈ urls (w_pages w) -> u = begin \/ is_Some (visit_page http 0 u);
}.

Lemma exploring_other u pending w : exploring (u :: pending) w -> u <> begin /\ u ∉ pending ++ w_queue w /\ u ∈ w_seen w.
Proof.
  intros [[Hn Hs] Hb _ _ _ _]. apply NoDup_app in Hn as (_ & Hd & Hn). simpl in Hn. apply NoDup_cons in Hn as [Hn _].
  split_and!; [|done|apply Hs; set_solver]. intros ->. apply (Hd begin Hb). by left.
Qed.

Lemma keep_page_explores u pending w fetched :
  follow = true -> visit_page http 0 u = Some fetched -> exploring (u :: pending) w ->
  exploring pending (keep_page o robots follow w fetched).
Proof.
  intros Hf Hv He. destruct (exploring_other _ _ _ He) as (Hub & Hup & Hus). destruct He as [Hs Hb Hr Hc Hp Hread].
  pose proof (keep_page_sane u pending w fetched (visit_page_url _ _ _ Hv) Hs) as Hs'.
  assert (links_of u = fetched.2) as Hlu by (unfold links_of; by rewrite bool_decide_eq_false_2, Hv).
  unfold keep_page in *. rewrite Hf in *.
  destruct (enqueue_spec fetched.2 (w_queue w) (w_seen w)) as (new & Heq & _ & Hnew & Hall). rewrite Heq in *.
  assert (forall v, leads u v -> v ∈ list_to_set new ∪ w_seen w) as Hlv.
  { intros v (x & Hx & Ha). rewrite Hlu in Hx. destruct (Hall x v Hx Ha); set_solver. }
  assert (forall v, v ∈ (list_to_set new ∪ w_seen w : gset Url) -> v ∉ pending ++ w_queue w ++ new ->
    v ∈ w_seen w /\ (v = u \/ v ∉ (u :: pending) ++ w_queue w)) as Hold.
  { intros v Hv' Hnot. rewrite elem_of_union, elem_of_list_to_set in Hv'. rewrite !elem_of_app in Hnot.
    split; [tauto|]. simpl. rewrite elem_of_cons, elem_of_app. destruct (decide (v = u)); [by left|]. right. tauto. }
  split; simpl; [done|rewrite fmap_app, elem_of_app; by left| | | |].
  - intros v [Hv'|Hv']%elem_of_union; [|by apply Hr]. apply elem_of_list_to_set in Hv'.
    destruct (Hnew v Hv') as (_ & x & Hx & Ha). eapply rtc_r; [by apply (Hr u)|]. exists x. by rewrite Hlu.
  - intros x v Hx Hnot Hl. destruct (Hold x Hx Hnot) as [Hx' [->|Hx'']]; [by apply Hlv|].
    apply elem_of_union. right. by eapply Hc.
  - intros x Hx Hnot. rewrite fmap_app. destruct (Hold x Hx Hnot) as [Hx' [->|Hx'']].
    + left. apply elem_of_app. right. simpl. rewrite (visit_page_url _ _ _ Hv). by left.
    + destruct (Hp x Hx' Hx'') as [?|?]; [left; apply elem_of_app; by left|by right].
  - intros x. rewrite fmap_app, elem_of_app. simpl. rewrite (visit_page_url _ _ _ Hv), list_elem_of_singleton.
    intros [Hx| ->]; [by apply Hread|]. right. rewrite Hv. eauto.
Qed.

Lemma keep_skipped_explores u pending w :
  visit_page http 0 u = None -> exploring (u :: pending) w -> exploring pending w.
Proof.
  intros Hv He. destruct (exploring_other _ _ _ He) as (Hub & Hup & Hus). destruct He as [Hs Hb Hr Hc Hp Hread].
  assert (forall v, v ∉ pending ++ w_queue w -> v = u \/ v ∉ (u :: pending) ++ w_queue w) as Hold.
  { intros v Hnot. simpl. rewrite elem_of_cons. destruct (decide (v = u)); [by left|]. right. tauto. }
  split; [by eapply keep_skipped_sane|done|done| | |done].
  - intros x v Hx Hnot Hl. destruct (Hold x Hnot) as [->|Hx']; [|by eapply Hc].
    destruct Hl as (y & Hy & _). unfold links_of in Hy. rewrite bool_decide_eq_false_2, Hv in Hy by done. set_solver.
  - intros x Hx Hnot. destruct (Hold x Hnot) as [->|Hx']; [by right|by apply Hp].
Qed.

Lemma round_explores n w :
  follow = true -> (forall n u, http n u = http 0%nat u) -> exploring [] w -> exploring [] (round_ o robots follow n w).
Proof.
  intros Hf Hh He. assert (forall u, visit_page http n u = visit_page http 0 u) as Hv.
  { intros u. unfold visit_page, client_get. by rewrite Hh. }
  apply round_ind.
  - intros w0 u pending fetched. rewrite Hv. by apply keep_page_explores.
  - intros w0 u pending. rewrite Hv. apply keep_skipped_explores.
  - destruct He as [[Hn Hs] Hb Hr Hc Hp Hread]. simpl in *.
    split; simpl; try rewrite take_drop; try done. split; simpl; by rewrite take_drop.
Qed.

(** Once the queue is empty, what is seen is what is reached. *)
Lemma explored w :
  exploring [] w -> w_queue w = [] ->
  forall u, u ∈ urls (w_pages w) <-> rtc leads begin u /\ (u = begin \/ is_Some (visit_page http 0 u)).
Proof.
  intros [[Hn Hs] Hb Hr Hc Hp Hread] Hq u. simpl in *. rewrite Hq in *. rewrite app_nil_r in *.
  assert (forall v, rtc leads begin v -> v ∈ w_seen w) as Hall.
  { refine (rtc_ind_r (fun v => v ∈ w_seen w) begin (Hs _ Hb) _).
    intros x y _ Hxy Hx. eapply Hc; [exact Hx| |exact Hxy]. apply not_elem_of_nil. }
  split.
  - intros Hu. split; [by apply Hr, Hs|by apply Hread].
  - intros [Hu Hv]. destruct (Hp u (Hall u Hu)) as [?|[Hnb Hnone]]; [apply not_elem_of_nil|done|].
    destruct Hv as [->|[x Hx]]; [done|congruence].
Qed.
End walk.

(** ** The crawl *)

(** The links of the start page, as the crawl reads them. *)
Definition start_links (s : Url) : list Url :=
  match client_get http 0 s MAX_PAGE_BYTES true with
  | inr r => (read_page s r false).2
  | inl _ => []
  end.

(** A crawl that gives pages: those of a page alone, of a start page that is no page, or of a walk. *)
Lemma crawl_inv o c :
  crawl http elapsed lookup_host o = Some (inr c) ->
  let s := start (scope o) in
  (length (pages c) = 1%nat /\ urls (pages c) = [s] /\ (complete c = true -> mode o = Page_)) \/
  let robots := fetch_robots http s in
  let listed := sitemap_urls http o robots in
  let follow := bool_decide (listed = []) in
  exists result q seen fuel, mode o = Site_ /\ pr_url result = s /\ pr_error result = None /\
    enqueue o robots (if follow then start_links s else listed) ([], {[s]}) = (q, seen) /\
    walk fuel o robots follow 0 {| w_pages := [result]; w_queue := q; w_seen := seen |} = Some c.
Proof.
  unfold crawl, start_links. cbv zeta. destruct (vet_url _ _ _); [done|].
  destruct (client_get http 0 _ _ true) as [[]|first]; [done..|]. destruct (500 <=? _); [done|].
  destruct (read_page (start (scope o)) first _) as [result links] eqn:Er.
  assert (pr_url result = start (scope o)) as Hu.
  { change result with (result, links).1. rewrite <- Er. apply read_page_url. }
  case_bool_decide as Hm; [intros [= <-]; left; simpl; by rewrite Hu|].
  case_bool_decide as He; cbn [negb]; [|intros [= <-]; left; simpl; by rewrite Hu].
  destruct (enqueue _ _ _ _) as [q seen] eqn:Eq. intros Hw. right.
  apply fmap_Some in Hw as (c' & Hw & [= <-]). exists result, q, seen, ROUNDS.
  split_and!; [by destruct (mode o)|done|done| |done]. rewrite <- Eq. f_equal.
  case_bool_decide; [|done]. by rewrite Er.
Qed.

Lemma begin_sane o robots us result q seen :
  enqueue o robots us ([], {[pr_url result]}) = (q, seen) ->
  sane [] {| w_pages := [result]; w_queue := q; w_seen := seen |}.
Proof.
  destruct (enqueue_spec o robots us [] {[pr_url result]}) as (new & -> & Hn & Hnew & _). intros [= <- <-].
  split; simpl.
  - constructor; [|done]. intros Hx. destruct (Hnew _ Hx) as [Hx' _]. set_solver.
  - intros u [->|Hu]%elem_of_cons; [set_solver|]. apply elem_of_union. left. by apply elem_of_list_to_set.
Qed.

Lemma crawl_pages_distinct o c : crawl http elapsed lookup_host o = Some (inr c) -> NoDup (urls (pages c)).
Proof.
  intros Hc. destruct (crawl_inv o c Hc) as [(_ & Hu & _)|(result & q & seen & fuel & _ & Hu & _ & Hq & Hw)].
  { rewrite Hu. apply NoDup_singleton. }
  rewrite <- Hu in Hq. apply begin_sane in Hq.
  apply (walk_ind o _ _ (sane [])) in Hw as (w & [Hn _] & -> & _); [by apply NoDup_app in Hn as [Hn _]| |done].
  intros n w Hs. by apply round_sane.
Qed.

(** A crawl reads the start page first and no page twice, and no more pages than the settings allow; this
    holds of any site, even one that changes while it is read. *)
Theorem crawl_reads_no_page_twice o c :
  (1 <= max_pages o)%nat -> crawl http elapsed lookup_host o = Some (inr c) ->
  NoDup (urls (pages c)) /\ head (urls (pages c)) = Some (start (scope o)) /\ (length (pages c) <= max_pages o)%nat.
Proof.
  intros Hm Hc. split; [by eapply crawl_pages_distinct|].
  destruct (crawl_inv o c Hc) as [(Hl & Hu & _)|(result & q & seen & fuel & _ & Hu & _ & Hq & Hw)].
  { rewrite Hu. split; [done|lia]. }
  apply (walk_ind o _ _ (fun w => head (urls (w_pages w)) = Some (start (scope o)) /\
    (length (w_pages w) <= max_pages o)%nat)) in Hw as (w & (Hh & Hl) & -> & _).
  - done.
  - intros n w (Hh & Hl). split; [|by apply round_bounded].
    apply (round_ind o _ _ (fun _ w => head (urls (w_pages w)) = Some (start (scope o)))); [|done|done].
    intros w0 u pending fetched _ H0'. unfold keep_page. match goal with |- context [let '(_, _) := ?x in _] => destruct x end. simpl.
    rewrite fmap_app. by destruct (w_pages w0).
  - split; simpl; [by rewrite Hu|lia].
Qed.

(** C34. When a crawl that follows links says it is complete, on a site that does not change meanwhile, the
    pages it gives are exactly those the links reach from the start, within the scope and the rules of the
    site, but those that are no page; so what it does not give is not there. *)
Theorem complete_crawl_reads_what_links_reach o c u :
  let s := start (scope o) in
  let robots := fetch_robots http s in
  (forall n v, http n v = http 0%nat v) -> mode o = Site_ -> sitemap_urls http o robots = [] ->
  crawl http elapsed lookup_host o = Some (inr c) -> complete c = true ->
  u ∈ urls (pages c) <->
  rtc (leads o robots s (start_links s)) s u /\ (u = s \/ is_Some (visit_page http 0 u)).
Proof.
  intros s robots Hh Hm Hl Hc Hcomplete. destruct (crawl_inv o c Hc) as [(_ & _ & Hp)|Hx].
  { rewrite Hp in Hm by done. done. }
  cbv zeta in Hx. fold s in Hx. fold robots in Hx. rewrite Hl in Hx. rewrite bool_decide_eq_true_2 in Hx by done.
  destruct Hx as (result & q & seen & fuel & _ & Hu & _ & Hq & Hw). rewrite <- Hu in Hq.
  pose proof (begin_sane _ _ _ _ _ _ Hq) as Hs. rewrite Hu in Hq.
  destruct (enqueue_spec o robots (start_links s) [] {[s]}) as (new & Hq' & _ & Hnew & Hall).
  rewrite Hq' in Hq. injection Hq as <- <-. simpl in Hw, Hs.
  apply (walk_ind o robots true (exploring o robots s (start_links s) [])) in Hw as (w & He & -> & Hempty).
  - by apply explored; [|apply Hempty].
  - intros n w He. by apply round_explores.
  - assert (forall v, leads o robots s (start_links s) s v <-> exists x, x ∈ start_links s /\ admitted o robots x v) as Hs0.
    { intros v. unfold leads, links_of. by rewrite bool_decide_eq_true_2. }
    split; simpl; [done|rewrite Hu; by left| | | |].
    + intros v [Hv|Hv]%elem_of_union; [|apply elem_of_singleton in Hv as ->; constructor].
      apply elem_of_list_to_set in Hv. apply rtc_once, Hs0. by apply Hnew.
    + intros x v [Hx|Hx]%elem_of_union Hnot Hv; [by apply elem_of_list_to_set in Hx|].
      apply elem_of_singleton in Hx as ->. apply Hs0 in Hv as (y & Hy & Ha).
      rewrite elem_of_union, elem_of_list_to_set. by apply (Hall y).
    + intros x [Hx|Hx]%elem_of_union Hnot; [by apply elem_of_list_to_set in Hx|].
      apply elem_of_singleton in Hx as ->. left. rewrite Hu. by left.
    + intros x Hx. apply list_elem_of_singleton in Hx as ->. by left.
Qed.
End crawl.

(** ** Examples *)

#[local] Existing Instance plain_crates.

(** Addresses of one host, by their paths. *)
#[local] Instance plain_web : Web := {|
  Url := string; Origin := ();
  url_parse := fun s => match strip_prefix "https://ex" s with Some path => inr path | None => inl "relative URL" end;
  url_join := fun _ href => if starts_with "/" href then Some href else None;
  url_str := fun u => ("https://ex" +:+ u)%string;
  url_scheme := fun _ => "https"; url_host := fun _ => Some "ex"; url_origin := fun _ => tt;
  url_path := fun u => u; url_query := fun _ => None;
  without_fragment := fun u => u; without_query := fun u => u;
  parse_ip := fun _ => None; Regex := string; regex_build := inr; is_match := Text.contains;
  xml_parse := fun _ => None |}.

Definition link (u : string) : string := ("<a href='" +:+ u +:+ "'>" +:+ u +:+ "</a>")%string.
Definition page_answer (body : string) : FetchError + Answer :=
  inr {| a_status := 200; a_content_type := "text/html"; a_final_url := "/" : @Url plain_web; a_chunks := [body];
         a_broken := None |}.
(** The start leads to a page, a page the rules forbid and a picture; the page leads to another. *)
Definition example_site (u : string) : FetchError + Answer :=
  if bool_decide (u = "/") then page_answer (link "/a" +:+ link "/secret/b" +:+ link "/logo.png")
  else if bool_decide (u = "/a") then page_answer (link "/c" +:+ link "/")
  else if bool_decide (u = "/c") then page_answer "end"
  else if bool_decide (u = "/robots.txt") then
    inr {| a_status := 200; a_content_type := "text/plain"; a_final_url := u : @Url plain_web;
           a_chunks := ["User-agent: *" +:+ String newline "Disallow: /secret/"]; a_broken := None |}
  else inr {| a_status := 404; a_content_type := "text/html"; a_final_url := u : @Url plain_web; a_chunks := [];
              a_broken := None |}.
(** A site where every page leads to a longer address. *)
Definition endless_site (u : string) : FetchError + Answer := page_answer (link (u +:+ "x")).
Definition example_options : @Options plain_web :=
  {| mode := Site_; scope := {| start := "/" : @Url plain_web; prefix := "/" |}; max_pages := 25; ignore := [];
     screenshots := true; check_interval := td_minutes 60; insecure_tls := false; allow_private := true;
     o_fingerprint := "settings" |}.
Definition example_crawl : option (ProbeError + Crawl) :=
  crawl (fun _ => example_site) (fun n => Z.of_nat n * POLITE_DELAY) (fun _ => None) example_options.

Example example_pages : (fun r => match r with inr c => (pr_url <$> pages c, complete c) | inl _ => ([], false) end) <$> example_crawl
  = Some (["/"; "/a"; "/c"], true).
Proof. vm_compute. reflexivity. Qed.

Lemma crawl_ends_witness :
  exists r, crawl (fun _ => endless_site) (fun n => Z.of_nat n * POLITE_DELAY)
              (fun _ => None) example_options = Some r.
Proof.
  destruct (@crawl_ends plain_crates plain_web (fun _ => endless_site) (fun n => Z.of_nat n * POLITE_DELAY)
    (fun _ => None) example_options) as [r Hr]; [vm_compute; discriminate|intros n; lia|].
  by exists r.
Defined.

Lemma crawl_reads_no_page_twice_witness :
  exists c, example_crawl = Some (inr c) /\ NoDup (pr_url <$> pages c) /\ (length (pages c) <= 25)%nat.
Proof.
  destruct example_crawl as [[e|c]|] eqn:E; [exfalso; revert E; vm_compute; discriminate| |exfalso; revert E; vm_compute; discriminate].
  exists c. split; [reflexivity|].
  destruct (@crawl_reads_no_page_twice plain_crates plain_web _ _ _ example_options c ltac:(vm_compute; lia) E) as (Hn & _ & Hl).
  split; [exact Hn|exact Hl].
Defined.

Lemma complete_crawl_reads_what_links_reach_witness :
  exists c, example_crawl = Some (inr c) /\
  rtc (leads (fun _ => example_site) example_options (fetch_robots (fun _ => example_site) "/") "/"
         (start_links (fun _ => example_site) "/")) "/" "/c".
Proof.
  destruct example_crawl as [[e|c]|] eqn:E; [exfalso; revert E; vm_compute; discriminate| |exfalso; revert E; vm_compute; discriminate].
  exists c. split; [reflexivity|].
  refine (proj1 (proj1 (@complete_crawl_reads_what_links_reach plain_crates plain_web (fun _ => example_site)
    (fun n => Z.of_nat n * POLITE_DELAY) (fun _ => None) example_options c "/c" _ _ _ E _) _)).
  - reflexivity.
  - reflexivity.
  - vm_compute. reflexivity.
  - revert E. vm_compute. by intros [= <-].
  - revert E. vm_compute. intros [= <-]. right. right. left.
Defined.
