(* ===== verification/Watch.v ===== *)
(** * Watching a site ([webchange/mod.rs], [webchange/store.rs])

    What is kept of the pages of a site, and the check that compares a crawl with it.  A text that is new is
    kept as a snapshot, a difference is a dated change.

    The instants of the database are seconds.  A check reads the clock for the pages and again at its end.  A
    map of the standard library is walked in an order nobody knows: [walked] is that order.  The pictures of
    the pages are what the browser answers. *)
From Stdlib Require Import Ascii.
From Stdlib Require String.
From S2P Require Import Prelude Text Float64 Chrono RateLimit ApiToken Accounts Auth Wire Diff Robots Html Site.

Definition CHECK_BUDGET : Z := 20 * 60.
Definition SCREENSHOT_BUDGET : Duration := td_minutes 8.
Definition NO_LONGER_LINKED : string := "No longer linked".
Definition KEEP_CHANGES : nat := 100.
Definition MAX_CONTENT_BYTES : Z := 1024 * 1024.
Definition STALE_LOCK_MINUTES : Z := 30.

(** ** Tables ([store.rs]) *)

Record WatchState := {
  s_fingerprint : option string;
  s_running_since : option Z;
  s_last_check_at : option Z;
  s_last_check_changes : Z;
  s_last_error : option string;
  s_last_error_kind : option string;
}.
Definition WatchState_default : WatchState :=
  {| s_fingerprint := None; s_running_since := None; s_last_check_at := None; s_last_check_changes := 0;
     s_last_error := None; s_last_error_kind := None |}.

(** A row of [webchange_pages], under its target and its address. *)
Record PageRow := {
  p_title : option string;
  p_status : option Z;
  p_error : option string;
  p_hash : option string;
  p_last_checked : option Z;
  p_last_changed : option Z;
  p_removed : bool;
  p_latest_snapshot : option Z;
}.

Record Snapshot := {
  sn_target : Z;
  sn_url : string;
  sn_title : option string;
  sn_hash : string;
  sn_content : string;
  sn_has_screenshot : bool;
}.

Record Change := {
  c_id : Z;
  c_target : Z;
  c_url : string;
  c_kind : string;
  c_detected_at : Z;
  c_added : Z;
  c_removed : Z;
  c_before : option Z;
  c_after : option Z;
}.

(** The changes are listed by their numbers. *)
Record Tables := {
  w_states : gmap Z WatchState;
  w_pages : gmap (Z * string) PageRow;
  w_last_snapshot : Z;
  w_snapshots : gmap Z Snapshot;
  w_changes : list Change;
}.
Definition Tables_new : Tables :=
  {| w_states := ∅; w_pages := ∅; w_last_snapshot := 0; w_snapshots := ∅; w_changes := [] |}.

Definition with_states (f : gmap Z WatchState -> gmap Z WatchState) (d : Tables) : Tables :=
  Build_Tables (f (w_states d)) (w_pages d) (w_last_snapshot d) (w_snapshots d) (w_changes d).
Definition with_pages (f : gmap (Z * string) PageRow -> gmap (Z * string) PageRow) (d : Tables) : Tables :=
  Build_Tables (w_states d) (f (w_pages d)) (w_last_snapshot d) (w_snapshots d) (w_changes d).
Definition with_snapshots (f : gmap Z Snapshot -> gmap Z Snapshot) (d : Tables) : Tables :=
  Build_Tables (w_states d) (w_pages d) (w_last_snapshot d) (f (w_snapshots d)) (w_changes d).
Definition with_changes (f : list Change -> list Change) (d : Tables) : Tables :=
  Build_Tables (w_states d) (w_pages d) (w_last_snapshot d) (w_snapshots d) (f (w_changes d)).

Definition state_ (target : Z) (d : Tables) : option WatchState := w_states d !! target.
Definition last_check_age (now target : Z) (d : Tables) : option Z :=
  s ← w_states d !! target; at_ ← s_last_check_at s; Some (now - at_).

(** The columns the locks and the ends of a check write. *)
Definition set_running (since : option Z) (s : WatchState) : WatchState :=
  Build_WatchState (s_fingerprint s) since (s_last_check_at s) (s_last_check_changes s) (s_last_error s) (s_last_error_kind s).

Definition try_lock (now target : Z) (d : Tables) : Tables * bool :=
  let s := w_states d !! target ?? WatchState_default in
  let free := match s_running_since s with None => true | Some since => since <? now - STALE_LOCK_MINUTES * 60 end in
  (with_states <[target := if free then set_running (Some now) s else s]> d, free).
Definition unlock (target : Z) : Tables -> Tables := with_states (alter (set_running None) target).
Definition release_all : Tables -> Tables := with_states (fmap (set_running None)).

Definition finished (now : Z) (fingerprint : option string) (changes : Z) (error : option (string * string)) (s : WatchState)
  : WatchState :=
  Build_WatchState fingerprint (s_running_since s) (Some now) changes (snd <$> error) (fst <$> error).
Definition finish_ok (now target : Z) (fingerprint : string) (changes : Z) (error : option (string * string)) : Tables -> Tables :=
  with_states (alter (finished now (Some fingerprint) changes error) target).
Definition finish_failed (now target : Z) (kind message : string) : Tables -> Tables :=
  with_states (alter (fun s => finished now (s_fingerprint s) 0 (Some (kind, message)) s) target).

(** The pages of a target, by their addresses. *)
Definition pages_of (target : Z) (d : Tables) : gmap string PageRow :=
  list_to_map (omap (fun kr => if kr.1.1 =? target then Some (kr.1.2, kr.2) else None) (map_to_list (w_pages d))).
Definition page_counts (target : Z) (d : Tables) : Z * Z :=
  let live := filter (fun kr => p_removed kr.2 = false) (map_to_list (pages_of target d)) in
  (Z.of_nat (length live), Z.of_nat (length (filter (fun kr => is_Some (p_error kr.2)) live))).

Record PageUpdate := {
  u_url : string;
  u_title : option string;
  u_status : option Z;
  u_error : option string;
  u_hash : option string;
  u_removed : bool;
  u_snapshot : option Z;
  u_changed : bool;
}.

(** [COALESCE] *)
Definition coalesce {A} (new old : option A) : option A := match new with Some _ => new | None => old end.

Definition save_page (now target : Z) (u : PageUpdate) (d : Tables) : Tables :=
  let changed := if u_changed u then Some now else None in
  let row := match w_pages d !! (target, u_url u) with
             | None => {| p_title := u_title u; p_status := u_status u; p_error := u_error u; p_hash := u_hash u;
                          p_last_checked := Some now; p_last_changed := changed; p_removed := u_removed u;
                          p_latest_snapshot := u_snapshot u |}
             | Some r => {| p_title := coalesce (u_title u) (p_title r); p_status := u_status u; p_error := u_error u;
                            p_hash := coalesce (u_hash u) (p_hash r); p_last_checked := Some now;
                            p_last_changed := coalesce changed (p_last_changed r); p_removed := u_removed u;
                            p_latest_snapshot := coalesce (u_snapshot u) (p_latest_snapshot r) |}
             end in
  with_pages <[(target, u_url u) := row]> d.

Definition forget_pages_except (target : Z) (keep : list string) : Tables -> Tables :=
  with_pages (filter (fun kr => kr.1.1 <> target \/ kr.1.2 ∈ keep)).

(** [truncate]: at most [max] bytes, on a boundary of a character. *)
Fixpoint boundary_below (n : nat) (text : string) : nat :=
  match n with
  | O => O
  | S n' => match String.get n text with
            | Some a => if starts_char a then n else boundary_below n' text
            | None => n
            end
  end.
Definition truncate (text : string) (max : Z) : string :=
  if Z.of_nat (String.length text) <=? max then text
  else String.substring 0 (boundary_below (Z.to_nat max) text) text.

Definition insert_snapshot (target : Z) (url : string) (title : option string) (hash content : string) (d : Tables)
  : Tables * Z :=
  let id := w_last_snapshot d + 1 in
  (Build_Tables (w_states d) (w_pages d) id
     (<[id := {| sn_target := target; sn_url := url; sn_title := title; sn_hash := hash;
                 sn_content := truncate content MAX_CONTENT_BYTES; sn_has_screenshot := false |}]> (w_snapshots d))
     (w_changes d), id).
Definition shown (s : Snapshot) : Snapshot :=
  Build_Snapshot (sn_target s) (sn_url s) (sn_title s) (sn_hash s) (sn_content s) true.
Definition mark_screenshot (id : Z) : Tables -> Tables := with_snapshots (alter shown id).
Definition snapshot_content (id : Z) (d : Tables) : option string := sn_content <$> w_snapshots d !! id.

Record NewChange := {
  n_url : string;
  n_kind : string;
  n_added : Z;
  n_removed : Z;
  n_before : option Z;
  n_after : option Z;
}.

(** The number after the largest. *)
Definition next_change (d : Tables) : Z := foldr Z.max 0 (c_id <$> w_changes d) + 1.
Definition insert_change (now target : Z) (n : NewChange) (d : Tables) : Tables :=
  with_changes (fun l => l ++ [{| c_id := next_change d; c_target := target; c_url := n_url n; c_kind := n_kind n;
                                  c_detected_at := now; c_added := n_added n; c_removed := n_removed n;
                                  c_before := n_before n; c_after := n_after n |}]) d.

(** The last ones of the target, by their numbers. *)
Definition kept_changes (target : Z) (l : list Change) : list Z :=
  let ours := filter (fun c => c_target c = target) l in
  c_id <$> drop (length ours - KEEP_CHANGES) ours.
Definition cites (id : Z) (c : Change) : bool := bool_decide (c_before c = Some id) || bool_decide (c_after c = Some id).
(** A snapshot nothing refers to any more. *)
Definition orphan (target : Z) (d : Tables) (ks : Z * Snapshot) : Prop :=
  sn_target ks.2 = target /\
  map_Forall (fun k r => k.1 = target -> p_latest_snapshot r <> Some ks.1) (w_pages d) /\
  Forall (fun c => c_target c = target -> cites ks.1 c = false) (w_changes d).
#[global] Instance orphan_dec target d ks : base.Decision (orphan target d ks).
Proof. unfold orphan. apply _. Defined.
(** The first statement of [prune], what it then looks for, and what it does of each. *)
Definition prune_changes (target : Z) (d : Tables) : Tables :=
  with_changes (filter (fun c => c_target c <> target \/ c_id c ∈ kept_changes target (w_changes d))) d.
Definition orphans (target : Z) (d : Tables) : list Z :=
  (map_to_list (filter (orphan target d) (w_snapshots d))).*1.
Definition delete_snapshot (id : Z) : Tables -> Tables := with_snapshots (base.delete id).

(** ** A check ([mod.rs]) *)

(** A check is a sequence of statements: each has its instant, and leaves the tables it made in a trace, which
    is what the budget of the check leaves behind when it cuts it there.  [None] when a loop has no end or an
    access is out of range. *)
Definition Check (A : Type) : Type := nat * Tables -> option (list Tables * (nat * Tables * A)).
#[global] Instance Check_ret : MRet Check := fun A a nd => Some ([], (nd, a)).
#[global] Instance Check_bind : MBind Check := fun A B f m nd =>
  ta ← m nd; tb ← f ta.2.2 ta.2.1; Some (ta.1 ++ tb.1, tb.2).
Definition ask {A} (f : Tables -> A) : Check A := fun nd => Some ([], (nd, f nd.2)).
Definition ends {A} (m : option A) : Check A := fun nd => a ← m; Some ([], (nd, a)).

(** A loop that carries a state. *)
Fixpoint each {A S} (f : S -> A -> Check S) (s : S) (l : list A) : Check S :=
  match l with
  | [] => mret s
  | x :: l => s ← f s x; each f s l
  end.

Section watch.
Context `{Crates} `{Web}.

(** What the network answers, the time a crawl took, what the names resolve to. *)
Variable http : nat -> Url -> FetchError + Answer.
Variable elapsed : nat -> Z.
Variable lookup_host : string -> option (list IpAddr).
(** The order of the pages that are gone, the instants of the statements of the check, the time spent at each
    picture and whether it is taken and written. *)
Variable walked : gmap string PageRow -> list (string * PageRow).
Variable clock : nat -> Z.
Variable spent : nat -> Z.
Variable image : string -> bool.

Definition is_some {A} (o : option A) : bool := is_some_and o (fun _ => true).

Definition classify (e : ProbeError) : string * string :=
  match e with
  | ProbeError.Timeout after => ("down", ("no answer within " +:+ display_i64 (after / ns_per_s) +:+ "s")%string)
  | ProbeError.Unreachable message => ("down", message)
  | ProbeError.Auth message => ("auth", message)
  | ProbeError.Protocol message | ProbeError.Config message => ("config", message)
  | ProbeError.Other message => ("config", message)
  end.

Definition fingerprint (content : string) : string := hex_encode (sha256 content).

Definition run {A} (f : Z -> Tables -> Tables * A) : Check A := fun nd =>
  let '(d, a) := f (clock nd.1) nd.2 in Some ([d], ((S nd.1, d), a)).
Definition exec (f : Z -> Tables -> Tables) : Check unit := run (fun now d => (f now d, tt)).

Definition line_count (snapshot : option Z) : Check Z :=
  match snapshot with
  | None => mret 0
  | Some id => content ← ask (snapshot_content id); mret (Z.of_nat (length (lines (content ?? ""))))
  end.

(** The changes found and the pictures to take. *)
Definition Found : Type := Z * list (Z * string).
Definition count (n : Z) (f : Found) : Found := (f.1 + n, f.2).

Definition removed_page (url : string) (removed : Z) (before : option Z) : NewChange :=
  {| n_url := url; n_kind := "removed_page"; n_added := 0; n_removed := removed; n_before := before; n_after := None |}.
Definition new_page (url : string) (added : Z) (snapshot : Z) : NewChange :=
  {| n_url := url; n_kind := "new_page"; n_added := added; n_removed := 0; n_before := None; n_after := Some snapshot |}.
Definition changed_page (url : string) (counted : nat * nat) (before : option Z) (snapshot : Z) : NewChange :=
  {| n_url := url; n_kind := "changed"; n_added := Z.of_nat counted.1; n_removed := Z.of_nat counted.2;
     n_before := before; n_after := Some snapshot |}.

(** A page that could not be read. *)
Definition unread_page (target : Z) (baseline : bool) (known : gmap string PageRow) (f : Found) (page : PageResult)
  : Check Found :=
  let url := url_str (pr_url page) in
  let stored := known !! url in
  let was_live := is_some_and stored (fun s => negb (p_removed s) && is_some (p_hash s)) in
  let counted := pr_gone page && was_live && negb baseline in
  f ← (if counted then
         let before := stored ≫= p_latest_snapshot in
         removed ← line_count before;
         _ ← exec (fun now => insert_change now target (removed_page url removed before));
         mret (count 1 f)
       else mret f);
  _ ← exec (fun now => save_page now target
        {| u_url := url; u_title := None; u_status := if pr_gone page then Some 404 else pr_status page;
           u_error := pr_error page; u_hash := None; u_removed := pr_gone page || is_some_and stored p_removed;
           u_snapshot := None; u_changed := counted |});
  mret f.

(** A page whose text was read. *)
Definition read_again (target : Z) (url : string) (page : PageResult) : Check unit :=
  exec (fun now => save_page now target
    {| u_url := url; u_title := pr_title page; u_status := pr_status page; u_error := None; u_hash := None;
       u_removed := false; u_snapshot := None; u_changed := false |}).

(** The change a text that is new makes, if it makes one. *)
Definition record_change (target : Z) (url : string) (baseline : bool) (stored : option PageRow) (new_lines : list string)
    (snapshot : Z) : Check bool :=
  if baseline then mret false
  else if match stored with None => true | Some s => p_removed s end then
    _ ← exec (fun now => insert_change now target (new_page url (Z.of_nat (length new_lines)) snapshot));
    mret true
  else match stored with
       | Some previous =>
           if is_some (p_hash previous) then
             let before := p_latest_snapshot previous in
             old ← (match before with
                    | Some before => content ← ask (snapshot_content before); mret (content ?? "")
                    | None => mret ""
                    end);
             edits ← ends (diff (lines old) new_lines);
             _ ← exec (fun now => insert_change now target (changed_page url (counts edits) before snapshot));
             mret true
           else mret false
       | None => mret false
       end.

Definition newline_ : string := String "010"%char "".
Definition page_step (target : Z) (o : Options) (baseline : bool) (known : gmap string PageRow) (f : Found)
    (page : PageResult) : Check Found :=
  let url := url_str (pr_url page) in
  let stored := known !! url in
  match pr_lines page with
  | None => unread_page target baseline known f page
  | Some ls =>
      let ls := keep_lines o ls in
      let content := Html.join newline_ ls in
      let hash := fingerprint content in
      let reappeared := match stored with None => true | Some s => p_removed s end in
      let same := bool_decide (stored ≫= p_hash = Some hash) in
      if same && negb reappeared then _ ← read_again target url page; mret f
      else
        snapshot ← run (fun _ => insert_snapshot target url (pr_title page) hash content);
        recorded ← record_change target url baseline stored ls snapshot;
        _ ← exec (fun now => save_page now target
              {| u_url := url; u_title := pr_title page; u_status := pr_status page; u_error := None;
                 u_hash := Some hash; u_removed := false; u_snapshot := Some snapshot; u_changed := recorded |});
        mret (f.1 + Z.b2z recorded, f.2 ++ [(snapshot, url)])
  end.

(** A page a complete crawl no longer reaches. *)
Definition vanish_step (target : Z) (f : Found) (known : string * PageRow) : Check Found :=
  let '(url, page) := known in
  f ← (if is_some (p_hash page) then
         removed ← line_count (p_latest_snapshot page);
         _ ← exec (fun now => insert_change now target (removed_page url removed (p_latest_snapshot page)));
         mret (count 1 f)
       else mret f);
  _ ← exec (fun now => save_page now target
        {| u_url := url; u_title := None; u_status := Some 404; u_error := Some NO_LONGER_LINKED; u_hash := None;
           u_removed := true; u_snapshot := None; u_changed := is_some (p_hash page) |});
  mret f.
Definition vanished (seen : gset string) (known : gmap string PageRow) : list (string * PageRow) :=
  filter (fun ur => p_removed ur.2 = false /\ ur.1 ∉ seen) (walked known).

(** The first failure ends the series. *)
Fixpoint capture_all (n : nat) (snapshots : list (Z * string)) : Check unit :=
  match snapshots with
  | [] => mret tt
  | (snapshot, url) :: snapshots =>
      if SCREENSHOT_BUDGET <? spent n then mret tt
      else if image url then _ ← exec (fun _ => mark_screenshot snapshot); capture_all (S n) snapshots
      else mret tt
  end.

Definition prune (target : Z) : Check unit :=
  _ ← exec (fun _ => prune_changes target);
  gone ← ask (orphans target);
  each (fun _ id => exec (fun _ => delete_snapshot id)) tt gone.

Definition start_error (pages : list PageResult) : option (string * string) :=
  match pages with
  | start :: _ =>
      if pr_gone start then None
      else status ← pr_status start;
           if 400 <=? status then
             Some (if bool_decide (status = 401 \/ status = 403) then "auth" else "config",
                   ("the start page answers HTTP " +:+ display_i64 status)%string)
           else None
  | [] => None
  end.

Definition fail (target : Z) (e : ProbeError) : Check Z :=
  _ ← exec (fun now => finish_failed now target (classify e).1 (classify e).2); mret 0.

(** What a crawl that was read changes. *)
Definition compare (target : Z) (o : Options) (browser : bool) (baseline : bool) (c : Crawl) : Check Z :=
  _ ← (if baseline then exec (fun _ => forget_pages_except target ((fun p => url_str (pr_url p)) <$> pages c)) else mret tt);
  known ← ask (pages_of target);
  found ← each (page_step target o baseline known) (0, []) (pages c);
  let seen : gset string := list_to_set ((fun p => url_str (pr_url p)) <$> pages c) in
  found ← (if bool_decide (mode o = Site_) && complete c && negb baseline
           then each (vanish_step target) found (vanished seen known) else mret found);
  _ ← (if screenshots o && browser then capture_all 0 found.2 else mret tt);
  _ ← prune target;
  _ ← exec (fun now => finish_ok now target (o_fingerprint o) found.1 (start_error (pages c)));
  mret found.1.

Definition is_baseline (o : Options) (s : option WatchState) : bool :=
  negb (bool_decide ((s ≫= s_fingerprint) = Some (o_fingerprint o))).

(** [browser]: one is configured. *)
Definition run_check (browser : bool) (t : Target) : Check Z :=
  match from_target t with
  | inl e => fail (id t) e
  | inr o =>
      state ← ask (state_ (id t));
      crawled ← ends (crawl http elapsed lookup_host o);
      match crawled with
      | inl e => fail (id t) e
      | inr c => compare (id t) o browser (is_baseline o state) c
      end
  end.

Definition start_check (now : Z) (t : Target) : Tables -> Tables * bool := try_lock now (id t).

(** The end of the task: the check went through, or the budget cut it after some of its statements. *)
Definition abandoned_message : string := "the check did not finish within 1200s".
Definition check_done (t : Target) (d : Tables) : Tables := unlock (id t) d.
Definition check_abandoned (now : Z) (t : Target) (d : Tables) : Tables :=
  unlock (id t) (finish_failed now (id t) "down" abandoned_message d).

Definition due (now : Z) (o : Options) (target : Z) (d : Tables) : bool :=
  match state_ target d with
  | None => true
  | Some s =>
      negb (bool_decide (s_fingerprint s = Some (o_fingerprint o)))
      || bool_decide (s_last_error_kind s = Some "down")
      || match last_check_age now target d with None => true | Some age => check_interval o / ns_per_s <=? age end
  end.

(** The tables, whether a check starts, and what the collector answers; the state is the one before. *)
Definition probe (now now_ms : Z) (t : Target) (d : Tables) : Tables * bool * (ProbeError + list Sample) :=
  match from_target t with
  | inl e => (d, false, inl e)
  | inr o =>
      let '(d', started) := if due now o (id t) d then start_check now t d else (d, false) in
      (d', started,
       match state_ (id t) d with
       | None => inr []
       | Some s =>
           match s_last_error s, s_last_error_kind s with
           | Some message, Some kind =>
               inl (if bool_decide (kind = "down") then ProbeError.Unreachable message
                    else if bool_decide (kind = "auth") then ProbeError.Auth message
                    else ProbeError.Config message)
           | _, _ =>
               if is_some (s_last_check_at s) then
                 let '(pages, failed) := page_counts (id t) d' in
                 inr [Sample_new "webchange_pages" (f64_of_Z pages) Gauge now_ms;
                      Sample_new "webchange_pages_failed" (f64_of_Z failed) Gauge now_ms;
                      Sample_new "webchange_last_check_changes" (f64_of_Z (s_last_check_changes s)) Gauge now_ms]
               else inr []
           end
       end)
  end.
End watch.
