(* ===== verification/WatchFacts.v ===== *)
(** * Watching a site: what a check guarantees

    The tables stay consistent at every statement of a check, so also when its budget cuts it; a site that does
    not change is silent; a page goes only when the site says so; the changes counted are those recorded; two
    checks of a site never overlap. *)
From Stdlib Require Import Ascii.
From Stdlib Require String.
From stdpp Require Import sorting.
From S2P Require Import Prelude Text Chrono RateLimit ApiToken Accounts Auth Guard Wire Diff Robots Html Site SiteFacts Watch.

(** ** Statements in sequence *)

Section rules.
Variable clock : nat -> Z.
Variable I : Tables -> Prop.

(** From tables of [P], every table a check leaves on its way is of [I], and its end is of [Q]. *)
Definition triple {A} (P : Tables -> Prop) (m : Check A) (Q : A -> Tables -> Prop) : Prop :=
  forall n d tr n' d' a, m (n, d) = Some (tr, ((n', d'), a)) -> P d -> Forall I tr /\ Q a d'.

Lemma triple_ret {A} P (a : A) (Q : A -> Tables -> Prop) : (forall d, P d -> Q a d) -> triple P (mret a) Q.
Proof. intros HQ n d tr n' d' b [= <- <- <- <-] HP. split; [constructor|auto]. Qed.

Lemma triple_bind {A B} P Q R (m : Check A) (f : A -> Check B) :
  triple P m Q -> (forall a, triple (Q a) (f a) R) -> triple P (m ≫= f) R.
Proof.
  intros Hm Hf n d tr n' d' b E HP. unfold mbind, Check_bind in E. destruct (m (n, d)) as [[t1 [[n1 d1] a]]|] eqn:E1; [|done].
  cbn [mbind option_bind fst snd] in E. destruct (f a (n1, d1)) as [[t2 [[n2 d2] b']]|] eqn:E2; [|done].
  injection E as <- <- <- <-. destruct (Hm _ _ _ _ _ _ E1 HP) as [H1 HQ].
  destruct (Hf _ _ _ _ _ _ _ E2 HQ) as [H2 HR]. split; [by apply Forall_app|done].
Qed.

Lemma triple_run {A} P (f : Z -> Tables -> Tables * A) (Q : A -> Tables -> Prop) :
  (forall now d, P d -> I (f now d).1 /\ Q (f now d).2 (f now d).1) -> triple P (run clock f) Q.
Proof.
  intros Hf n d tr n' d' a E HP. unfold run in E. cbn [fst snd] in E. specialize (Hf (clock n) d HP).
  destruct (f (clock n) d) as [d1 a1]. injection E as <- <- <- <-. destruct Hf. auto.
Qed.
Lemma triple_exec P (f : Z -> Tables -> Tables) (Q : Tables -> Prop) :
  (forall now d, P d -> I (f now d) /\ Q (f now d)) -> triple P (exec clock f) (fun _ => Q).
Proof. intros Hf. apply triple_run. intros now d HP. by apply Hf. Qed.

Lemma triple_exec_ret {A} P (f : Z -> Tables -> Tables) (a : A) (Q : A -> Tables -> Prop) :
  (forall now d, P d -> I (f now d) /\ Q a (f now d)) -> triple P (_ ← exec clock f; mret a) Q.
Proof.
  intros Hf. eapply triple_bind; [by apply (triple_exec _ _ (Q a))|]. intros u. by apply triple_ret.
Qed.

Lemma triple_at {A} P (m : Check A) Q : (forall d, P d -> triple (eq d) m Q) -> triple P m Q.
Proof. intros Hm n d tr n' d' a E HP. by apply (Hm d HP n d tr n' d' a E). Qed.

Lemma triple_pure {A} (F : Prop) P (m : Check A) Q : (F -> triple P m Q) -> triple (fun d => F /\ P d) m Q.
Proof. intros Hm n d tr n' d' a E [HF HP]. by apply (Hm HF n d tr n' d' a E). Qed.

Lemma triple_ask {A} P (f : Tables -> A) (Q : A -> Tables -> Prop) :
  (forall d, P d -> Q (f d) d) -> triple P (ask f) Q.
Proof. intros HQ n d tr n' d' a [= <- <- <- <-] HP. split; [constructor|auto]. Qed.
Lemma triple_ends {A} P (m : option A) : triple P (ends m) (fun a d => m = Some a /\ P d).
Proof. intros n d tr n' d' a E HP. unfold ends in E. destruct m; [|done]. injection E as <- <- <- <-. auto. Qed.

Lemma triple_weaken {A} (P P' : Tables -> Prop) (m : Check A) (Q Q' : A -> Tables -> Prop) :
  triple P' m Q' -> (forall d, P d -> P' d) -> (forall a d, Q' a d -> Q a d) -> triple P m Q.
Proof. intros Hm HP HQ n d tr n' d' a E Hd. edestruct Hm; eauto. Qed.

(** A loop, with what has been done and what remains. *)
Lemma triple_each {A S} (J : list A -> S -> Tables -> Prop) (f : S -> A -> Check S) l s :
  (forall pre x post s, l = pre ++ x :: post -> triple (J pre s) (f s x) (fun s' => J (pre ++ [x]) s')) ->
  triple (J [] s) (each f s l) (fun s' => J l s').
Proof.
  intros Hf. assert (forall post pre s, l = pre ++ post -> triple (J pre s) (each f s post) (fun s' => J l s')) as Hp;
    [|by apply (Hp l [])].
  induction post as [|x post IH]; intros pre s' E.
  - apply triple_ret. intros d. by rewrite E, app_nil_r.
  - simpl. eapply triple_bind; [by eapply Hf|]. intros s1. apply IH. by rewrite <-app_assoc.
Qed.

(** A check that has an end. *)
Definition total {A} (m : Check A) : Prop := forall nd, is_Some (m nd).
Lemma total_ret {A} (a : A) : total (mret a).
Proof. intros nd. by eexists. Qed.
Lemma total_bind {A B} (m : Check A) (f : A -> Check B) : total m -> (forall a, total (f a)) -> total (m ≫= f).
Proof.
  intros Hm Hf nd. unfold mbind, Check_bind. destruct (Hm nd) as [[t1 [nd1 a]] ->]. cbn [mbind option_bind fst snd].
  destruct (Hf a nd1) as [[t2 r] ->]. by eexists.
Qed.
Lemma total_run {A} (f : Z -> Tables -> Tables * A) : total (run clock f).
Proof. intros nd. unfold run. destruct (f _ _). by eexists. Qed.
Lemma total_ask {A} (f : Tables -> A) : total (ask f).
Proof. intros nd. by eexists. Qed.
Lemma total_ends {A} (m : option A) : is_Some m -> total (ends m).
Proof. intros [a ->] nd. by eexists. Qed.
Lemma total_each {A S} (f : S -> A -> Check S) l s : (forall s x, total (f s x)) -> total (each f s l).
Proof. intros Hf. revert s. induction l as [|x l IH]; intros s; [apply total_ret|by apply total_bind]. Qed.
End rules.

(** The statements and the loops have one. *)
Ltac total_step :=
  match goal with
  | |- total (mret _) => apply total_ret
  | |- total (_ ≫= _) => apply total_bind; [|intros ?]
  | |- total (exec _ _) => apply total_run
  | |- total (run _ _) => apply total_run
  | |- total (ask _) => apply total_ask
  | |- total (ends (diff _ _)) => apply total_ends, diff_ends
  | |- total (each _ _ _) => apply total_each; intros ? ?
  | |- total (match ?x with _ => _ end) => destruct x
  | |- total (let '(_, _) := ?x in _) => destruct x
  end.

(** ** The references between the tables *)

Definition backed (snaps : gmap Z Snapshot) (target : Z) (url : string) (hash : option string) (latest : option Z) : Prop :=
  match latest with
  | None => hash = None
  | Some i => exists s, snaps !! i = Some s /\ sn_target s = target /\ sn_url s = url /\ hash = Some (sn_hash s)
  end.
Definition cited (snaps : gmap Z Snapshot) (target : Z) (url : string) (ref : option Z) : Prop :=
  forall i, ref = Some i -> exists s, snaps !! i = Some s /\ sn_target s = target /\ sn_url s = url.

(** A page with a text has the snapshot of this text; a change cites snapshots of its page; numbers only grow. *)
Record consistent (d : Tables) : Prop := {
  pages_backed : map_Forall (fun k r => backed (w_snapshots d) k.1 k.2 (p_hash r) (p_latest_snapshot r)) (w_pages d);
  changes_cited : Forall (fun c => cited (w_snapshots d) (c_target c) (c_url c) (c_before c) /\
                                   cited (w_snapshots d) (c_target c) (c_url c) (c_after c)) (w_changes d);
  snapshots_numbered : map_Forall (fun i _ => i <= w_last_snapshot d) (w_snapshots d);
  changes_ordered : StronglySorted Z.lt (c_id <$> w_changes d);
}.

Lemma consistent_new : consistent Tables_new.
Proof. split; [apply map_Forall_empty|constructor|apply map_Forall_empty|constructor]. Qed.

Section consistent.
Context (target : Z).

Lemma backed_grow snaps snaps' t url hash latest :
  snaps ⊆ snaps' -> backed snaps t url hash latest -> backed snaps' t url hash latest.
Proof.
  intros Hs. destruct latest as [i|]; [|done]. intros (s & Hi & Hr). exists s. split; [by eapply lookup_weaken|done].
Qed.
Lemma cited_grow snaps snaps' t url ref : snaps ⊆ snaps' -> cited snaps t url ref -> cited snaps' t url ref.
Proof. intros Hs Hc i Hi. destruct (Hc i Hi) as (s & Hl & Hr). exists s. split; [by eapply lookup_weaken|done]. Qed.
Lemma backed_cited snaps t url hash latest : backed snaps t url hash latest -> cited snaps t url latest.
Proof. intros Hb i ->. destruct Hb as (s & ? & ? & ? & _). eauto. Qed.

Lemma consistent_states f d : consistent d -> consistent (with_states f d).
Proof. by intros []. Qed.

Lemma coalesce_backed snaps t url h i h' i' :
  (i = None <-> h = None) -> backed snaps t url h i -> backed snaps t url h' i' ->
  backed snaps t url (coalesce h h') (coalesce i i').
Proof. destruct h, i; simpl; intros Hn; try done; naive_solver. Qed.

Lemma consistent_save_page now u d :
  backed (w_snapshots d) target (u_url u) (u_hash u) (u_snapshot u) -> (u_snapshot u = None <-> u_hash u = None) ->
  consistent d -> consistent (save_page now target u d).
Proof.
  intros Hb Hn [Hp Hc Hi Ho]. split; [|done..]. simpl. apply map_Forall_insert_2; [|done]. simpl.
  destruct (w_pages d !! (target, u_url u)) as [r|] eqn:E; [|done]. apply coalesce_backed; [done|done|apply (Hp _ _ E)].
Qed.

Lemma next_change_above d c : c ∈ w_changes d -> c_id c < next_change d.
Proof.
  intros Hc. unfold next_change. assert (c_id c <= foldr Z.max 0 (c_id <$> w_changes d)); [|lia].
  induction (w_changes d) as [|x l IH]; [by apply elem_of_nil in Hc|]. rewrite fmap_cons. cbn [foldr].
  apply elem_of_cons in Hc as [->|Hc]; [lia|]. specialize (IH Hc). lia.
Qed.
Lemma sorted_snoc (l : list Z) x : StronglySorted Z.lt l -> (forall y, y ∈ l -> y < x) -> StronglySorted Z.lt (l ++ [x]).
Proof.
  intros Hs Hx. apply StronglySorted_app_2; [|done|repeat constructor].
  intros y z Hy ->%list_elem_of_singleton. by apply Hx.
Qed.

Lemma consistent_insert_change now n d :
  cited (w_snapshots d) target (n_url n) (n_before n) -> cited (w_snapshots d) target (n_url n) (n_after n) ->
  consistent d -> consistent (insert_change now target n d).
Proof.
  intros Hb Ha [Hp Hc Hi Ho]. split; [done| |done|].
  - simpl. apply Forall_app. split; [done|]. by repeat constructor.
  - simpl. rewrite fmap_app. apply sorted_snoc; [done|]. intros y Hy.
    apply list_elem_of_fmap in Hy as (c & -> & Hc'). by apply next_change_above.
Qed.

Lemma snapshot_is_new d : consistent d -> w_snapshots d !! (w_last_snapshot d + 1) = None.
Proof.
  intros [_ _ Hi _]. destruct (w_snapshots d !! _) eqn:E; [|done]. specialize (Hi _ _ E). simpl in Hi. lia.
Qed.
Lemma insert_snapshot_grows url title hash content d :
  consistent d -> w_snapshots d ⊆ w_snapshots (insert_snapshot target url title hash content d).1.
Proof. intros Hd. simpl. by apply insert_subseteq, snapshot_is_new. Qed.

Lemma consistent_grow d d' :
  w_snapshots d ⊆ w_snapshots d' -> w_pages d' = w_pages d -> w_changes d' = w_changes d ->
  map_Forall (fun i _ => i <= w_last_snapshot d') (w_snapshots d') -> consistent d -> consistent d'.
Proof.
  intros Hs Ep Ec Hi' [Hp Hc Hi Ho]. split; rewrite ?Ep, ?Ec; [..|done|done].
  - intros k r E. eapply backed_grow, (Hp _ _ E). done.
  - eapply Forall_impl; [exact Hc|]. intros c [Hb Ha]. split; by eapply cited_grow.
Qed.
Lemma consistent_insert_snapshot url title hash content d :
  consistent d -> consistent (insert_snapshot target url title hash content d).1.
Proof.
  intros Hd. eapply consistent_grow; [by apply insert_snapshot_grows|done|done| |done].
  simpl. apply map_Forall_insert_2; [simpl; lia|]. eapply map_Forall_impl; [apply Hd|]. simpl. lia.
Qed.

(** A table with the same references. *)
Lemma lookup_mark id (snaps : gmap Z Snapshot) i s :
  snaps !! i = Some s ->
  exists s', alter shown id snaps !! i = Some s' /\ sn_target s' = sn_target s /\ sn_url s' = sn_url s /\ sn_hash s' = sn_hash s.
Proof. intros E. rewrite lookup_alter. case_decide as Ei; [rewrite Ei|]; rewrite E; by eexists. Qed.
Lemma backed_mark id snaps t url hash latest :
  backed snaps t url hash latest -> backed (alter shown id snaps) t url hash latest.
Proof.
  destruct latest as [i|]; [|done]. intros (s & Hs & ? & ? & ->). destruct (lookup_mark id _ _ _ Hs) as (s' & ? & ? & ? & ?).
  exists s'. split_and!; congruence.
Qed.
Lemma cited_mark id snaps t url ref : cited snaps t url ref -> cited (alter shown id snaps) t url ref.
Proof.
  intros Hr i Ei. destruct (Hr i Ei) as (s & Hs & ? & ?). destruct (lookup_mark id _ _ _ Hs) as (s' & ? & ? & ? & ?).
  exists s'. split_and!; congruence.
Qed.
Lemma consistent_mark id d : consistent d -> consistent (mark_screenshot id d).
Proof.
  intros [Hp Hc Hi Ho]. split; [..|done]; simpl.
  - intros k r E. apply backed_mark, (Hp _ _ E).
  - eapply Forall_impl; [exact Hc|]. intros c [? ?]. split; by apply cited_mark.
  - intros i s E. apply lookup_alter_Some in E as [(-> & s' & E & _)|[_ E]]; by apply (Hi _ _ E).
Qed.

Lemma consistent_forget keep d : consistent d -> consistent (forget_pages_except target keep d).
Proof. intros [Hp Hc Hi Ho]. split; [|done..]. intros k r [E _]%map_lookup_filter_Some. by apply Hp. Qed.

Lemma consistent_prune_changes d : consistent d -> consistent (prune_changes target d).
Proof.
  intros [Hp Hc Hi Ho]. split; [done| |done|by apply sorted_fmap_filter]. simpl. apply Forall_forall.
  intros c [_ Hin]%list_elem_of_filter. by eapply Forall_forall in Hc.
Qed.

Lemma cites_true id c : cites id c = true <-> c_before c = Some id \/ c_after c = Some id.
Proof. unfold cites. by rewrite orb_true_iff, !bool_decide_eq_true. Qed.
Lemma consistent_delete_snapshot id d :
  (forall s, w_snapshots d !! id = Some s -> orphan target d (id, s)) -> consistent d ->
  consistent (delete_snapshot id d).
Proof.
  intros Horph [Hp Hc Hi Ho]. split; [..|done]; simpl.
  - intros k r E. specialize (Hp _ _ E). simpl in Hp. unfold backed in *. destruct (p_latest_snapshot r) as [i|] eqn:El; [|done].
    destruct Hp as (s & Hs & Ht & Hr). exists s. split; [|done]. rewrite lookup_delete_ne; [done|]. intros <-.
    destruct (Horph _ Hs) as (Hst & Hpp & _). simpl in *. apply (Hpp _ _ E); [congruence|done].
  - apply Forall_forall. intros c Hin. rewrite Forall_forall in Hc. destruct (Hc c Hin) as [Hb Ha].
    assert (forall ref, (forall i, ref = Some i -> cites i c = true) -> cited (w_snapshots d) (c_target c) (c_url c) ref ->
      cited (base.delete id (w_snapshots d)) (c_target c) (c_url c) ref) as Hx.
    { intros ref Hci Hr i Ei. destruct (Hr i Ei) as (s & Hs & Ht & Hu). exists s. split; [|done].
      rewrite lookup_delete_ne; [done|]. intros <-. destruct (Horph _ Hs) as (Hst & _ & Hcc). simpl in *.
      rewrite Forall_forall in Hcc. specialize (Hcc c Hin). specialize (Hcc ltac:(congruence)).
      by rewrite Hci in Hcc. }
    split; apply Hx; try done; intros i Ei; apply cites_true; auto.
  - intros i s [_ E]%lookup_delete_Some. by apply (Hi _ _ E).
Qed.
End consistent.

(** ** The pages of a crawl, compared *)

(** The locks are the same. *)
Definition lock (t : Z) (d : Tables) : option Z := state_ t d ≫= s_running_since.
Definition same_locks (d d' : Tables) : Prop := forall t, lock t d' = lock t d.

Lemma pages_of_lookup target d u : pages_of target d !! u = w_pages d !! (target, u).
Proof.
  unfold pages_of. apply option_eq. intros r. rewrite <-elem_of_list_to_map.
  - rewrite list_elem_of_omap. split.
    + intros ([[t v] r'] & Hin & E). apply elem_of_map_to_list in Hin. simpl in E. case_match eqn:Et; [|done].
      apply Z.eqb_eq in Et as ->. by injection E as -> ->.
    + intros E. exists ((target, u), r). split; [by apply elem_of_map_to_list|]. simpl. by rewrite Z.eqb_refl.
  - pose proof (NoDup_fst_map_to_list (w_pages d)) as Hn. induction (map_to_list (w_pages d)) as [|[[t v] r'] l IH]; [constructor|].
    simpl in Hn |- *. apply NoDup_cons in Hn as [Hx Hn]. destruct (t =? target) eqn:Et; [|by apply IH].
    apply Z.eqb_eq in Et as ->. simpl. constructor; [|by apply IH]. contradict Hx.
    apply list_elem_of_fmap in Hx as ([v' r1] & -> & Hin). apply list_elem_of_omap in Hin as ([[t' v1] r2] & Hin & E).
    simpl in E. case_match eqn:Et; [|done]. apply Z.eqb_eq in Et as ->. injection E as -> ->.
    by apply (list_elem_of_fmap_2 fst) in Hin.
Qed.

Section check.
Context `{Crates} `{Web}.
Variable clock : nat -> Z.
Variables (target : Z) (o : Options) (baseline : bool).

Notation url p := (url_str (pr_url p)).
(** The tables when the check starts, and those it may leave on its way. *)
Variable before : Tables.
Definition sound (d : Tables) : Prop := consistent d /\ same_locks before d.
Notation triple := (triple sound).

Section pages.
Variables (d0 : Tables) (known : gmap string PageRow).

(** What the row of a page of the crawl has become. *)
Definition settled (p : PageResult) (r : PageRow) : Prop :=
  match pr_lines p with
  | Some ls => p_hash r = Some (fingerprint (Html.join newline_ (keep_lines o ls))) /\ p_removed r = false
  | None => p_removed r = pr_gone p || is_some_and (known !! url p) p_removed
  end.

(** After the pages [pre] and those [gone]. *)
Record progress (pre : list PageResult) (gone : list string) (f : Found) (d : Tables) : Prop := {
  pg_consistent : consistent d;
  pg_known : map_Forall (fun u r => backed (w_snapshots d) target u (p_hash r) (p_latest_snapshot r)) known;
  pg_counted : exists new, w_changes d = w_changes d0 ++ new /\ Z.of_nat (length new) = f.1 /\
                           Forall (fun c => c_target c = target) new;
  pg_settled : forall p, p ∈ pre -> exists r, w_pages d !! (target, url p) = Some r /\ settled p r;
  pg_gone : forall u, u ∈ gone -> exists r, w_pages d !! (target, u) = Some r /\ p_removed r = true;
  pg_others : forall k, (k.1 = target -> k.2 ∉ (fun p => url p) <$> pre /\ k.2 ∉ gone) -> w_pages d !! k = w_pages d0 !! k;
  pg_reference : baseline = true -> f.1 = 0;
  pg_locks : same_locks before d;
}.

Lemma progress_sound pre gone f d : progress pre gone f d -> sound d.
Proof. intros Hp. split; apply Hp. Qed.

Lemma progress_count_insert pre gone f now n d :
  cited (w_snapshots d) target (n_url n) (n_before n) -> cited (w_snapshots d) target (n_url n) (n_after n) ->
  baseline = false -> progress pre gone f d -> progress pre gone (count 1 f) (insert_change now target n d).
Proof.
  intros Hb Ha Hbase [Hc Hk (new & Hn & Hl & Hf) Hs Hg Ho Hr0 Hst].
  split; [by apply consistent_insert_change|done| |done..|by rewrite Hbase|done]. simpl.
  exists (new ++ [{| c_id := next_change d; c_target := target; c_url := n_url n; c_kind := n_kind n;
    c_detected_at := now; c_added := n_added n; c_removed := n_removed n; c_before := n_before n; c_after := n_after n |}]).
  rewrite Hn, <-app_assoc, length_app. split; [done|]. split; [simpl; lia|]. apply Forall_app. by repeat constructor.
Qed.

(** The row [save_page] leaves. *)
Lemma save_page_row now u d :
  exists r, w_pages (save_page now target u d) = <[(target, u_url u) := r]> (w_pages d) /\
    p_removed r = u_removed u /\ (u_hash u <> None -> p_hash r = u_hash u) /\
    (u_hash u = None -> p_hash r = w_pages d !! (target, u_url u) ≫= p_hash) /\
    p_latest_snapshot r = coalesce (u_snapshot u) (w_pages d !! (target, u_url u) ≫= p_latest_snapshot).
Proof.
  eexists. split; [done|]. destruct (w_pages d !! _); simpl; destruct (u_hash u), (u_snapshot u); split_and!; intros; simpl in *; congruence.
Qed.

Lemma save_page_lookup now u d k :
  k <> (target, u_url u) -> w_pages (save_page now target u d) !! k = w_pages d !! k.
Proof. intros Hk. destruct (save_page_row now u d) as (r & -> & _). by rewrite lookup_insert_ne. Qed.

(** What a save must write for the row of [p] to be settled. *)
Definition settles (u : PageUpdate) (p : PageResult) : Prop :=
  match pr_lines p with
  | Some ls => let hash := Some (fingerprint (Html.join newline_ (keep_lines o ls))) in
               (u_hash u = hash \/ u_hash u = None /\ known !! url p ≫= p_hash = hash) /\ u_removed u = false
  | None => u_removed u = pr_gone p || is_some_and (known !! url p) p_removed
  end.

Lemma progress_save_page pre f now u d p :
  (forall v, known !! v = w_pages d0 !! (target, v)) -> u_url u = url p -> url p ∉ (fun p => url p) <$> pre ->
  backed (w_snapshots d) target (u_url u) (u_hash u) (u_snapshot u) -> (u_snapshot u = None <-> u_hash u = None) ->
  settles u p -> progress pre [] f d -> progress (pre ++ [p]) [] f (save_page now target u d).
Proof.
  intros Hkn Hu Hnew Hb Hn Hp [Hc Hk Hcnt Hs Hg Ho Hr0 Hst].
  destruct (save_page_row now u d) as (r & Er & Hrem & Hh & Hh' & _).
  split; [by apply consistent_save_page|done|done| |by intros u0 ?%elem_of_nil| |done|done].
  - intros q [Hq| ->%list_elem_of_singleton]%elem_of_app.
    + rewrite save_page_lookup; [by apply Hs|]. intros [= E]. apply Hnew. rewrite <-Hu, <-E.
      by apply (list_elem_of_fmap_2 (fun p => url p)).
    + exists r. rewrite Er, Hu, lookup_insert_eq. split; [done|]. unfold settled, settles in *.
      destruct (pr_lines p) as [ls|]; [|congruence]. destruct Hp as [[E|[E E']] Hr]; split; [|congruence| |congruence].
      * rewrite Hh; congruence.
      * rewrite (Hh' E), Hu, Ho, <-Hkn; [done|]. split; [done|apply not_elem_of_nil].
  - intros k Hkk. rewrite fmap_app in Hkk. rewrite save_page_lookup; [apply Ho|].
    + intros Ht. specialize (Hkk Ht). by rewrite not_elem_of_app in Hkk; destruct_and?.
    + intros ->. destruct (Hkk eq_refl) as [Hx _]. apply Hx. simpl. rewrite Hu. set_solver.
Qed.

Lemma progress_save_gone pre gone f now u d :
  u_url u ∉ (fun p => url p) <$> pre -> u_hash u = None -> u_snapshot u = None -> u_removed u = true ->
  progress pre gone f d -> progress pre (gone ++ [u_url u]) f (save_page now target u d).
Proof.
  intros Hnew Hh Hl Hr [Hc Hk Hcnt Hs Hg Ho Hr0 Hst]. destruct (save_page_row now u d) as (r & Er & Hrem & _).
  split; [|done|done| | | |done|done].
  - apply consistent_save_page; [by rewrite Hl|by rewrite Hh, Hl|done].
  - intros q Hq. rewrite save_page_lookup; [by apply Hs|]. intros [= E]. apply Hnew. rewrite <-E.
    by apply (list_elem_of_fmap_2 (fun p => url p)).
  - intros v Hv. destruct (decide (v = u_url u)) as [->|Hne].
    + exists r. rewrite Er, lookup_insert_eq. split; [done|congruence].
    + rewrite save_page_lookup by congruence. apply Hg. set_solver.
  - intros k Hkk. rewrite save_page_lookup; [apply Ho; set_solver|]. intros ->. set_solver.
Qed.

(** *** The steps *)

Hypothesis known_rows : forall v, known !! v = w_pages d0 !! (target, v).

Lemma known_cited pre gone f d v r :
  progress pre gone f d -> known !! v = Some r -> cited (w_snapshots d) target v (p_latest_snapshot r).
Proof. intros Hp E. eapply backed_cited, (pg_known _ _ _ _ Hp _ _ E). Qed.

Lemma triple_line_count P ref : triple P (line_count ref) (fun _ => P).
Proof.
  unfold line_count. destruct ref as [i|]; [|by apply triple_ret]. eapply triple_bind.
  - by apply (triple_ask _ _ _ (fun _ => P)).
  - intros a. by apply triple_ret.
Qed.

(** A page that goes is counted. *)
Lemma triple_removed pre gone f v r :
  known !! v = Some r -> baseline = false ->
  triple (progress pre gone f)
    (removed ← line_count (p_latest_snapshot r);
     _ ← exec clock (fun now => insert_change now target (removed_page v removed (p_latest_snapshot r)));
     mret (count 1 f)) (fun f' => progress pre gone f').
Proof.
  intros E Hbase. eapply triple_bind; [apply triple_line_count|]. intros n. cbv beta.
  apply triple_exec_ret. intros now d Hp.
  assert (progress pre gone (count 1 f) (insert_change now target (removed_page v n (p_latest_snapshot r)) d)) as Hi.
  { apply progress_count_insert; [by eapply known_cited|by intros i [=]|done|done]. }
  split; [by eapply progress_sound|done].
Qed.

Lemma progress_found pre gone f f' d : f'.1 = f.1 -> progress pre gone f d -> progress pre gone f' d.
Proof. intros E []. split; [done..| |done|done|done| |done]; by rewrite E. Qed.

Lemma triple_save_page pre (f f' : Found) u p :
  f'.1 = f.1 -> u_url u = url p -> url p ∉ (fun p => url p) <$> pre -> settles u p ->
  triple (fun d => progress pre [] f d /\ backed (w_snapshots d) target (u_url u) (u_hash u) (u_snapshot u) /\
                   (u_snapshot u = None <-> u_hash u = None))
    (_ ← exec clock (fun now => save_page now target u); mret f') (fun f' => progress (pre ++ [p]) [] f').
Proof using Type*.
  intros Hf Hu Hnew Hp. apply triple_exec_ret. intros now d (Hd & Hb & Hn).
  assert (progress (pre ++ [p]) [] f (save_page now target u d)) as Hs by by apply progress_save_page.
  split; [by eapply progress_sound|by eapply progress_found].
Qed.

Lemma triple_unread pre f p :
  url p ∉ (fun p => url p) <$> pre -> pr_lines p = None ->
  triple (progress pre [] f) (unread_page clock target baseline known f p) (fun f' => progress (pre ++ [p]) [] f').
Proof using Type*.
  intros Hnew Hl. unfold unread_page. cbv zeta. eapply (triple_bind _ _ (fun f' => progress pre [] f')).
  - destruct (pr_gone p && _ && negb baseline) eqn:E; [|by apply triple_ret].
    destruct (known !! url p) as [r|] eqn:Ek; [|by rewrite andb_false_r in E].
    apply andb_true_iff in E as [_ E]. apply triple_removed; [done|by destruct baseline].
  - intros f'.
    eapply triple_weaken; [apply (triple_save_page pre f' f' _ p); [done..|unfold settles; by rewrite Hl]| |done].
    intros d Hd. by split.
Qed.

(** The snapshot of the page is there before and after. *)
Definition taken (pre : list PageResult) (v : string) (hash : option string) (snapshot : Z) (f : Found) (d : Tables) : Prop :=
  progress pre [] f d /\ backed (w_snapshots d) target v hash (Some snapshot).

Lemma taken_change pre v hash snapshot f n :
  n_url n = v -> (n_before n = None \/ exists r, known !! v = Some r /\ n_before n = p_latest_snapshot r) ->
  n_after n = Some snapshot -> baseline = false ->
  triple (taken pre v hash snapshot f) (_ ← exec clock (fun now => insert_change now target n); mret true)
    (fun recorded => taken pre v hash snapshot (count (Z.b2z recorded) f)).
Proof.
  intros Hu Hb Ha Hbase. apply triple_exec_ret. intros now d [Hp Hc].
  assert (progress pre [] (count 1 f) (insert_change now target n d)) as Hi; [|split; [by eapply progress_sound|done]].
  apply progress_count_insert; [|rewrite Hu, Ha; by eapply backed_cited|done|done]. rewrite Hu.
  destruct Hb as [-> |(r & Ek & ->)]; [by intros i [=]|by eapply known_cited].
Qed.

Lemma triple_record pre f v hash new_lines snapshot :
  triple (taken pre v hash snapshot f) (record_change clock target v baseline (known !! v) new_lines snapshot)
    (fun recorded => taken pre v hash snapshot (count (Z.b2z recorded) f)).
Proof.
  assert (triple (taken pre v hash snapshot f) (mret false) (fun recorded => taken pre v hash snapshot (count (Z.b2z recorded) f)))
    as Hno.
  { apply triple_ret. intros d [Hd Hb]. split; [|done]. eapply progress_found; [|done]. simpl. lia. }
  unfold record_change. destruct (Sumbool.sumbool_of_bool baseline) as [Hbase|Hbase]; rewrite Hbase; [done|].
  destruct (known !! v) as [r|] eqn:Ek; [|by apply taken_change; auto].
  destruct (p_removed r); [by apply taken_change; auto|]. destruct (is_some (p_hash r)); [|done]. cbv zeta.
  apply (triple_bind _ _ (fun _ => taken pre v hash snapshot f)).
  - destruct (p_latest_snapshot r) as [i|]; [|by apply triple_ret].
    apply (triple_bind _ _ (fun _ => taken pre v hash snapshot f)); [by apply triple_ask|].
    intros a. by apply triple_ret.
  - intros old. eapply triple_bind; [apply triple_ends|]. intros edits.
    eapply triple_weaken; [apply taken_change; eauto|by intros d []|done].
Qed.

Lemma progress_insert_snapshot pre gone f d u title hash content :
  progress pre gone f d -> progress pre gone f (insert_snapshot target u title hash content d).1.
Proof.
  intros [Hc Hk Hcnt Hs Hg Ho Hr0 Hst]. split; [by apply consistent_insert_snapshot| |done..].
  intros v r E. eapply backed_grow; [by apply insert_snapshot_grows|]. apply (Hk _ _ E).
Qed.

Lemma triple_page_step pre f p :
  url p ∉ (fun p => url p) <$> pre ->
  triple (progress pre [] f) (page_step clock target o baseline known f p) (fun f' => progress (pre ++ [p]) [] f').
Proof using Type*.
  intros Hnew. unfold page_step. cbv zeta. destruct (pr_lines p) as [ls|] eqn:Hl; [|by apply triple_unread].
  set (hash := fingerprint _). destruct (bool_decide _ && _) eqn:Es.
  - apply andb_true_iff in Es as [Es _]. apply bool_decide_eq_true in Es.
    eapply triple_weaken; [apply (triple_save_page pre f f _ p); [done..|]| |done].
    + unfold settles. rewrite Hl. cbv zeta. simpl. auto.
    + intros d Hd. by split.
  - eapply (triple_bind _ _ (fun snapshot => taken pre (url p) (Some hash) snapshot f)).
    { apply triple_run. intros now d Hd. assert (progress pre [] f (insert_snapshot target (url p) (pr_title p) hash
        (Html.join newline_ (keep_lines o ls)) d).1) as Hi by by apply progress_insert_snapshot.
      split; [by eapply progress_sound|]. split; [done|]. simpl. eexists. by rewrite lookup_insert_eq. }
    intros snapshot. eapply triple_bind; [apply triple_record|]. intros recorded. cbv beta.
    eapply triple_weaken; [apply (triple_save_page pre (count (Z.b2z recorded) f) _ _ p)| |done]; try done.
    + unfold settles. rewrite Hl. cbv zeta. simpl. auto.
    + intros d [Hp Hb]. by split_and!.
Qed.

(** The pages, one after the other. *)
Lemma triple_pages f ps :
  NoDup ((fun p => url p) <$> ps) ->
  triple (progress [] [] f) (each (page_step clock target o baseline known) f ps) (fun f' => progress ps [] f').
Proof using Type*.
  intros Hnd. apply (triple_each _ (fun pre => progress pre [])). intros pre p post f' ->. apply triple_page_step.
  rewrite fmap_app in Hnd. apply NoDup_app in Hnd as (_ & Hd & _). intros Hx. apply (Hd _ Hx). by left.
Qed.

Lemma triple_vanish pre gone f v r :
  known !! v = Some r -> v ∉ (fun p => url p) <$> pre -> baseline = false ->
  triple (progress pre gone f) (vanish_step clock target f (v, r)) (fun f' => progress pre (gone ++ [v]) f').
Proof.
  intros Ek Hv Hbase. unfold vanish_step. apply (triple_bind _ _ (fun f' => progress pre gone f')).
  - destruct (is_some (p_hash r)); [by apply triple_removed|by apply triple_ret].
  - intros f'. apply triple_exec_ret. intros now d Hd.
    match goal with |- context [save_page _ _ ?u _] => set (upd := u) end.
    assert (progress pre (gone ++ [v]) f' (save_page now target upd d)) as Hs by by apply (progress_save_gone pre gone f' now upd d).
    split; [by eapply progress_sound|done].
Qed.

Lemma triple_vanished ps f l :
  Forall (fun ur => known !! ur.1 = Some ur.2 /\ ur.1 ∉ (fun p => url p) <$> ps) l -> baseline = false ->
  triple (progress ps [] f) (each (vanish_step clock target) f l) (fun f' => progress ps l.*1 f').
Proof.
  intros Hl Hbase. refine (triple_each _ (fun (pre : list (string * PageRow)) f' => progress ps (pre.*1) f') _ l f _).
  intros pre [v r] post f' ->.
  rewrite Forall_app, Forall_cons in Hl. destruct Hl as (_ & [Hk Hv] & _). rewrite fmap_app. by apply triple_vanish.
Qed.

Lemma triple_captures pre gone f spent image n snapshots :
  triple (progress pre gone f) (capture_all clock spent image n snapshots) (fun _ => progress pre gone f).
Proof.
  revert n. induction snapshots as [|[i v] l IH]; intros n; simpl; [by apply triple_ret|].
  destruct (_ <? _); [by apply triple_ret|]. destruct (image v); [|by apply triple_ret].
  apply (triple_bind _ _ (fun _ => progress pre gone f)); [|intros _; apply IH].
  apply triple_exec. intros _ d [Hc Hk Hcnt Hs Hg Ho Hr0 Hst].
  assert (consistent (mark_screenshot i d)) as Hm by by apply consistent_mark.
  split; [by split|]. split; [done| |done..].
  intros u r E. apply backed_mark, (Hk _ _ E).
Qed.
End pages.

(** ** The retention *)

(** What [prune] makes of [d0]: its last changes, and the snapshots something refers to. *)
Record pruned (d0 d : Tables) : Prop := {
  pd_consistent : consistent d;
  pd_states : w_states d = w_states d0;
  pd_pages : w_pages d = w_pages d0;
  pd_changes : w_changes d = w_changes (prune_changes target d0);
  pd_kept : forall i s, w_snapshots d !! i = Some s -> w_snapshots d0 !! i = Some s /\ ~ orphan target d (i, s);
  pd_deleted : forall i s, w_snapshots d0 !! i = Some s -> w_snapshots d !! i = None -> orphan target d (i, s);
}.

(** The tables [d1] less the snapshots [ids]. *)
Record deleting (d1 : Tables) (ids : list Z) (d : Tables) : Prop := {
  dl_consistent : consistent d;
  dl_states : w_states d = w_states d1;
  dl_pages : w_pages d = w_pages d1;
  dl_changes : w_changes d = w_changes d1;
  dl_snapshots : forall i, w_snapshots d !! i = if decide (i ∈ ids) then None else w_snapshots d1 !! i;
}.
Lemma orphan_same d d1 ks : w_pages d = w_pages d1 -> w_changes d = w_changes d1 -> orphan target d ks <-> orphan target d1 ks.
Proof. unfold orphan. by intros -> ->. Qed.

Lemma elem_of_orphans d i :
  i ∈ orphans target d <-> exists s, w_snapshots d !! i = Some s /\ orphan target d (i, s).
Proof.
  unfold orphans. rewrite list_elem_of_fmap. split.
  - intros ([j s] & -> & Hin). apply elem_of_map_to_list, map_lookup_filter_Some in Hin. eauto.
  - intros (s & Hs & Ho). exists (i, s). split; [done|]. by apply elem_of_map_to_list, map_lookup_filter_Some.
Qed.

Lemma deleting_step d1 ids i d :
  i ∈ orphans target d1 -> deleting d1 ids d -> deleting d1 (ids ++ [i]) (delete_snapshot i d).
Proof.
  intros (s & Hs & Ho)%elem_of_orphans [Hc Hst Hp Hch Hsn]. split; [|done..|].
  - apply (consistent_delete_snapshot target); [|done]. intros s' Es. rewrite Hsn in Es. case_decide; [done|].
    rewrite Hs in Es. injection Es as <-. by apply (orphan_same d d1).
  - intros j. simpl. destruct (decide (j = i)) as [->|Hne].
    + rewrite lookup_delete_eq, decide_True; set_solver.
    + rewrite lookup_delete_ne, Hsn by done. apply decide_ext. set_solver.
Qed.

Lemma triple_prune d0 :
  consistent d0 -> same_locks before d0 -> triple (eq d0) (prune clock target) (fun _ => pruned d0).
Proof.
  intros Hc0 Hl0. pose proof (consistent_prune_changes target d0 Hc0) as Hc1.
  apply (triple_bind _ _ (fun _ => eq (prune_changes target d0))); [by apply triple_exec; intros _ ? <-; split|]. intros _.
  set (d1 := prune_changes target d0) in *.
  apply (triple_bind _ _ (fun ids d => ids = orphans target d1 /\ d1 = d)); [apply triple_ask; by intros d <-|].
  intros ids. eapply triple_weaken with (P' := fun d => ids = orphans target d1 /\ deleting d1 [] d)
    (Q' := fun _ d => ids = orphans target d1 /\ deleting d1 ids d).
  - apply (triple_each _ (fun pre _ d => ids = orphans target d1 /\ deleting d1 pre d)).
    intros pre i post [] E. apply triple_exec. intros _ d [Hi Hd].
    assert (deleting d1 (pre ++ [i]) (delete_snapshot i d)) as [Hc Hst Hp Hch Hsn].
    2:{ split; [|by split]. split; [done|]. intros t. unfold lock, state_. rewrite Hst. apply Hl0. }
    apply deleting_step; [|done]. rewrite <-Hi, E. set_solver.
  - intros d [-> <-]. split; [done|]. by split.
  - intros _ d [-> [Hc Hst Hp Hch Hsn]]. split; [done..| |].
    + intros i s E. rewrite Hsn in E. case_decide as Hi; [done|]. split; [done|]. rewrite (orphan_same d d1) by done.
      contradict Hi. apply elem_of_orphans. eauto.
    + intros i s Es E. rewrite Hsn in E. change (w_snapshots d1) with (w_snapshots d0) in E.
      case_decide as Hi; [|by rewrite Es in E].
      apply elem_of_orphans in Hi as (s' & Es' & Ho). apply (orphan_same d d1); [done..|].
      change (w_snapshots d1) with (w_snapshots d0) in Es'. congruence.
Qed.

(** ** The whole comparison *)

Variable walked : gmap string PageRow -> list (string * PageRow).
Variable spent : nat -> Z.
Variable image : string -> bool.
Hypothesis walked_all : forall m, walked m ≡ₚ map_to_list m.
Variable c : Crawl.

Definition urls : list string := (fun p => url p) <$> pages c.
Definition referred (d : Tables) : Tables := if baseline then forget_pages_except target urls d else d.
Definition gone_of (known : gmap string PageRow) : list string :=
  if bool_decide (mode o = Site_) && complete c && negb baseline
  then (vanished walked (list_to_set urls) known).*1 else [].

(** What a comparison that started from [d0] has made. *)
Definition compared (d0 : Tables) (k : Z) (d : Tables) : Prop :=
  exists f d1 d2 now,
    progress d0 (pages_of target d0) (pages c) (gone_of (pages_of target d0)) f d1 /\ pruned d1 d2 /\ k = f.1 /\
    d = finish_ok now target (o_fingerprint o) k (start_error (pages c)) d2.

Lemma same_locks_finished now fingerprint_ k error d :
  same_locks before d -> same_locks before (finish_ok now target fingerprint_ k error d).
Proof.
  intros Hd t. rewrite <-Hd. unfold lock, state_. simpl. rewrite lookup_alter. case_decide as Et; [|done].
  rewrite Et. by destruct (w_states d !! t).
Qed.

Lemma progress_start d0 : same_locks before d0 -> consistent d0 -> progress d0 (pages_of target d0) [] [] (0, []) d0.
Proof.
  intros Hl Hc. split; [done| |by exists []; rewrite app_nil_r|by intros p ?%elem_of_nil|by intros u ?%elem_of_nil|done|done|done].
  intros v r E. rewrite pages_of_lookup in E. apply (pages_backed _ Hc _ _ E).
Qed.

Lemma vanished_known known :
  Forall (fun ur => known !! ur.1 = Some ur.2 /\ ur.1 ∉ urls) (vanished walked (list_to_set urls) known).
Proof using walked_all.
  apply Forall_forall. intros [v r] [[_ Hv] Hin]%list_elem_of_filter. simpl in *. rewrite walked_all in Hin.
  apply elem_of_map_to_list in Hin. split; [done|]. by rewrite elem_of_list_to_set in Hv.
Qed.

Lemma triple_finish d0 f :
  triple (progress d0 (pages_of target d0) (pages c) (gone_of (pages_of target d0)) f)
    (_ ← prune clock target;
     _ ← exec clock (fun now => finish_ok now target (o_fingerprint o) f.1 (start_error (pages c))); mret f.1)
    (compared d0).
Proof.
  apply triple_at. intros d1 Hd1. apply (triple_bind _ _ (fun _ => pruned d1)); [apply triple_prune; apply Hd1|]. intros _.
  apply triple_exec_ret. intros now d2 Hd2. split; [|by exists f, d1, d2, now].
  split; [by apply consistent_states, Hd2|]. apply same_locks_finished. intros t. unfold lock, state_.
  rewrite (pd_states _ _ Hd2). apply (pg_locks _ _ _ _ _ _ Hd1).
Qed.

Lemma triple_compare d browser :
  consistent d -> same_locks before d -> NoDup urls ->
  triple (eq d) (compare walked clock spent image target o browser baseline c) (compared (referred d)).
Proof using Type*.
  intros Hc Hl Hnd. unfold compare. set (d0 := referred d).
  assert (consistent d0) as Hc0 by (unfold d0, referred; destruct baseline; [by apply consistent_forget|done]).
  apply (triple_bind _ _ (fun _ => eq d0)).
  { unfold d0, referred. destruct baseline; [|by apply triple_ret]. apply triple_exec. intros _ ? <-.
    split; [|done]. split; [by apply consistent_forget|done]. }
  intros _. apply (triple_bind _ _ (fun known d => known = pages_of target d0 /\ d0 = d)); [apply triple_ask; by intros d1 <-|].
  intros known. apply triple_pure. intros ->. set (known := pages_of target d0).
  assert (forall v, known !! v = w_pages d0 !! (target, v)) as Hkn by apply pages_of_lookup.
  eapply triple_bind.
  { eapply triple_weaken; [by apply (triple_pages d0 known Hkn (0, []) (pages c))| |done].
    intros d1 <-. apply progress_start; [|done]. unfold d0, referred. by destruct baseline. }
  intros f. apply (triple_bind _ _ (fun f' => progress d0 known (pages c) (gone_of known) f')).
  { unfold gone_of. destruct (_ && _ && negb baseline) eqn:E; [|by apply triple_ret].
    apply andb_true_iff in E as [_ E]. apply triple_vanished; [apply vanished_known|by destruct baseline]. }
  intros f'. apply (triple_bind _ _ (fun _ => progress d0 known (pages c) (gone_of known) f')).
  { destruct (_ && _); [by apply triple_captures|by apply triple_ret]. }
  intros _. by apply triple_finish.
Qed.
End check.

(** ** A check of a site *)

Section site.
Context `{Crates} `{Web}.
Variable http : nat -> Url -> FetchError + Answer.
Variable elapsed : nat -> Z.
Variable lookup_host : string -> option (list IpAddr).
Variable walked : gmap string PageRow -> list (string * PageRow).
Hypothesis walked_all : forall m, walked m ≡ₚ map_to_list m.
Hypothesis url_str_inj : Inj (=) (=) url_str.

Notation check clock spent image := (run_check http elapsed lookup_host walked clock spent image).
Notation crawl := (crawl http elapsed lookup_host).
Notation url p := (url_str (pr_url p)).

Lemma crawl_urls o c : crawl o = Some (inr c) -> NoDup ((fun p => url p) <$> pages c).
Proof using url_str_inj.
  intros Hc%crawl_pages_distinct. replace ((fun p => url p) <$> pages c) with (url_str <$> (pr_url <$> pages c))
    by by rewrite <-list_fmap_compose. by apply NoDup_fmap_2.
Qed.

(** What a check that starts from [d] leaves in its tables: of a site it could not read, the error; else the
    comparison. *)
Definition unread (t : Target) : Prop :=
  match from_target t with
  | inl _ => True
  | inr o => match crawl o with Some (inl _) => True | _ => False end
  end.
Definition checked (t : Target) (d : Tables) (k : Z) (d' : Tables) : Prop :=
  (unread t /\ k = 0 /\ exists now kind message, d' = finish_failed now (id t) kind message d) \/
  exists o c, from_target t = inr o /\ crawl o = Some (inr c) /\
    let baseline := is_baseline o (state_ (id t) d) in
    compared (id t) o baseline d walked c (referred (id t) baseline c d) k d'.

Lemma same_locks_failed now target kind message d : same_locks d (finish_failed now target kind message d).
Proof.
  intros t. unfold lock, state_. simpl. rewrite lookup_alter. case_decide as Et; [|done].
  rewrite Et. by destruct (w_states d !! t).
Qed.

Lemma triple_fail clock t e d :
  consistent d -> unread t -> triple (sound d) (eq d) (fail clock (id t) e) (checked t d).
Proof.
  intros Hc Hu. apply triple_exec_ret. intros now ? <-. split.
  - split; [by apply consistent_states|apply same_locks_failed].
  - left. eauto 6.
Qed.

Lemma triple_check clock spent image browser t d :
  consistent d -> triple (sound d) (eq d) (check clock spent image browser t) (checked t d).
Proof using Type*.
  intros Hc. unfold run_check. destruct (from_target t) as [e|o] eqn:Eo.
  { apply triple_fail; [done|]. unfold unread. by rewrite Eo. }
  apply (triple_bind _ _ (fun s d1 => s = state_ (id t) d /\ d = d1)); [apply triple_ask; by intros d1 <-|].
  intros s. apply triple_pure. intros ->. eapply triple_bind; [apply triple_ends|]. intros crawled. apply triple_pure.
  intros Ec. destruct crawled as [e|c].
  { apply triple_fail; [done|]. unfold unread. by rewrite Eo, Ec. }
  eapply triple_weaken; [apply triple_compare; [done|done|done|by eapply crawl_urls]|done|].
  intros k d' Hk. right. eauto.
Qed.

Lemma check_from clock spent image browser t n d tr n' d' k :
  consistent d -> check clock spent image browser t (n, d) = Some (tr, ((n', d'), k)) ->
  Forall (sound d) tr /\ checked t d k d'.
Proof using Type*. intros Hc E. by apply (triple_check _ _ _ _ _ _ Hc _ _ _ _ _ _ E). Qed.

Lemma checked_consistent t d k d' : consistent d -> checked t d k d' -> consistent d'.
Proof.
  intros Hc [(_ & _ & now & kind & message & ->)|(o & c & _ & _ & f & d1 & d2 & now & _ & Hp & _ & ->)].
  - by apply consistent_states.
  - by apply consistent_states, Hp.
Qed.

(** C24. The tables of the watch stay consistent at every statement of a check, so also where its budget cuts
    it: a page whose text was read has the snapshot of this text, of its own site and address; a change cites
    snapshots that exist, of its page; the retention breaks neither. *)
Theorem watched_tables_stay_consistent clock spent image browser t n d tr n' d' k now :
  check clock spent image browser t (n, d) = Some (tr, ((n', d'), k)) -> consistent d ->
  consistent (check_done t d') /\
  Forall (fun m => consistent m /\ consistent (check_abandoned now t m)) (d :: tr).
Proof using Type*.
  intros E Hc. destruct (check_from _ _ _ _ _ _ _ _ _ _ _ Hc E) as [Ht Hk]. split.
  - apply consistent_states. by eapply checked_consistent.
  - constructor; [split; [done|by do 2 apply consistent_states]|].
    eapply Forall_impl; [exact Ht|]. intros m [Hm _]. split; [done|by do 2 apply consistent_states].
Qed.

(** ** What is removed *)

Lemma referred_lookup target baseline c d u r :
  w_pages (referred target baseline c d) !! (target, u) = Some r -> w_pages d !! (target, u) = Some r.
Proof. unfold referred. destruct baseline; [|done]. simpl. by intros [E _]%map_lookup_filter_Some. Qed.

(** The pages a comparison no longer reaches. *)
Lemma elem_of_gone_of target o baseline c d u :
  u ∈ gone_of o baseline walked c (pages_of target d) <->
  (mode o = Site_ /\ complete c = true /\ baseline = false) /\ u ∉ (fun p => url p) <$> pages c /\
  exists r, w_pages d !! (target, u) = Some r /\ p_removed r = false.
Proof using walked_all.
  unfold gone_of, vanished. destruct (_ && _ && _) eqn:E.
  - apply andb_true_iff in E as [E E2]. apply andb_true_iff in E as [E0 E1]. apply bool_decide_eq_true in E0.
    apply negb_true_iff in E2. rewrite list_elem_of_fmap. setoid_rewrite list_elem_of_filter. setoid_rewrite walked_all.
    split.
    + intros ([v r] & -> & [Hr Hv] & Hin). simpl in *. apply elem_of_map_to_list in Hin. rewrite pages_of_lookup in Hin.
      rewrite elem_of_list_to_set in Hv. split_and!; eauto.
    + intros (_ & Hv & r & Hl & Hr). exists (u, r). split; [done|]. simpl. rewrite elem_of_list_to_set.
      split; [done|]. apply elem_of_map_to_list. by rewrite pages_of_lookup.
  - split; [by intros ?%elem_of_nil|]. intros [(E0 & E1 & E2) _]. exfalso. revert E.
    by rewrite E1, E2, bool_decide_eq_true_2.
Qed.

(** The pages a comparison removes. *)
Lemma removed_by target o baseline before d0 c f d1 u r' :
  progress target o baseline before d0 (pages_of target d0) (pages c) (gone_of o baseline walked c (pages_of target d0)) f d1 ->
  w_pages d1 !! (target, u) = Some r' -> (forall r0, w_pages d0 !! (target, u) = Some r0 -> p_removed r0 = false) ->
  (p_removed r' = true <->
   (exists p, p ∈ pages c /\ url p = u /\ pr_lines p = None /\ pr_gone p = true) \/
   u ∈ gone_of o baseline walked c (pages_of target d0)).
Proof using walked_all.
  intros Hp Hd1 Hlive.
  assert (forall p, p ∈ pages c -> url p = u -> (p_removed r' = true <-> pr_lines p = None /\ pr_gone p = true)) as Hpage.
  { intros p Hpin <-. destruct (pg_settled _ _ _ _ _ _ _ _ _ _ Hp p Hpin) as (r1 & E1 & Hs). rewrite Hd1 in E1.
    injection E1 as <-. unfold settled in Hs. destruct (pr_lines p) as [ls|].
    - destruct Hs as [_ ->]. naive_solver.
    - rewrite Hs, pages_of_lookup. destruct (w_pages d0 !! (target, url p)) as [r0|]; simpl; rewrite ?Hlive, ?orb_false_r by done;
        naive_solver. }
  split.
  - intros Hr. destruct (decide (u ∈ (fun p => url p) <$> pages c)) as [(p & -> & Hpin)%list_elem_of_fmap|Hout].
    + left. exists p. by destruct (proj1 (Hpage p Hpin eq_refl) Hr).
    + right. destruct (decide (u ∈ gone_of o baseline walked c (pages_of target d0))) as [|Hg]; [done|]. exfalso.
      rewrite (pg_others _ _ _ _ _ _ _ _ _ _ Hp) in Hd1 by by split. by rewrite (Hlive _ Hd1) in Hr.
  - intros [(p & Hpin & Hu & Hl & Hg)|Hg]; [by apply (Hpage p)|].
    destruct (pg_gone _ _ _ _ _ _ _ _ _ _ Hp u Hg) as (r1 & E1 & Hr1). congruence.
Qed.

(** The rows a comparison leaves of a site: those it started from, but the ones a new reference does not contain. *)
Lemma compared_lookup target o baseline before d c f d1 u :
  progress target o baseline before (referred target baseline c d) (pages_of target (referred target baseline c d)) (pages c)
    (gone_of o baseline walked c (pages_of target (referred target baseline c d))) f d1 ->
  is_Some (w_pages d !! (target, u)) ->
  w_pages d1 !! (target, u) = None <-> baseline = true /\ u ∉ (fun p => url p) <$> pages c.
Proof.
  intros Hp [r Hr]. set (d0 := referred _ _ _ _) in *. split.
  - intros Hn. assert (u ∉ (fun p => url p) <$> pages c) as Hout.
    { intros (p & -> & Hpin)%list_elem_of_fmap. destruct (pg_settled _ _ _ _ _ _ _ _ _ _ Hp p Hpin) as (r1 & E1 & _). congruence. }
    split; [|done]. destruct (decide (u ∈ gone_of o baseline walked c (pages_of target d0))) as [Hg|Hg].
    { destruct (pg_gone _ _ _ _ _ _ _ _ _ _ Hp u Hg) as (r1 & E1 & _). congruence. }
    rewrite (pg_others _ _ _ _ _ _ _ _ _ _ Hp) in Hn by by split. revert Hn. unfold d0, referred. destruct baseline; [done|congruence].
  - intros [-> Hout]. assert (gone_of o true walked c (pages_of target d0) = []) as Hg.
    { unfold gone_of. by rewrite andb_false_r. }
    rewrite (pg_others _ _ _ _ _ _ _ _ _ _ Hp) by (intros _; rewrite Hg; split; [done|apply not_elem_of_nil]).
    unfold d0, referred. simpl. apply map_lookup_filter_None. right. intros x _ [Hx|Hx]; done.
Qed.

(** C25. A page that was there is marked as gone exactly when the site was read and says so: it answered not found
    or gone, or a complete reading of the whole site, compared with the same settings, no longer reaches it.  Its row
    is forgotten exactly when the site was read with settings that are not those of the reference, and this reading,
    which becomes the reference, does not contain it.  The pages of the other sites stay as they are. *)
Theorem page_goes_only_when_the_site_says_so clock spent image browser t n d tr n' d' k u r :
  check clock spent image browser t (n, d) = Some (tr, ((n', d'), k)) -> consistent d ->
  w_pages d !! (id t, u) = Some r -> p_removed r = false ->
  let same_settings o := (state_ (id t) d ≫= s_fingerprint) = Some (o_fingerprint o) in
  let contains_it c := u ∈ (fun p => url p) <$> pages c in
  ((exists r', w_pages d' !! (id t, u) = Some r' /\ p_removed r' = true) <->
   exists o c, from_target t = inr o /\ crawl o = Some (inr c) /\
     ((exists p, p ∈ pages c /\ url p = u /\ pr_lines p = None /\ pr_gone p = true) \/
      (mode o = Site_ /\ complete c = true /\ same_settings o /\ ~ contains_it c))) /\
  (w_pages d' !! (id t, u) = None <->
   exists o c, from_target t = inr o /\ crawl o = Some (inr c) /\ ~ same_settings o /\ ~ contains_it c) /\
  (forall key, key.1 <> id t -> w_pages d' !! key = w_pages d !! key).
Proof using Type*.
  intros E Hc Hr Hlive same_settings contains_it. destruct (check_from _ _ _ _ _ _ _ _ _ _ _ Hc E) as [_ Hk].
  destruct Hk as [(Hu & _ & now & kind & message & ->)|(o & c & Eo & Ec & f & d1 & d2 & now & Hp & Hpr & _ & ->)].
  { assert (forall o c, from_target t = inr o -> crawl o <> Some (inr c)) as Hno.
    { intros o c Eo Ec. unfold unread in Hu. by rewrite Eo, Ec in Hu. }
    simpl. rewrite Hr. split; [|by split; [split; [done|by intros (o & c & Eo & Ec & _); destruct (Hno o c Eo)]|]].
    split; [intros (? & [= <-] & ?); congruence|]. intros (o & c & Eo & Ec & _). by destruct (Hno o c Eo). }
  assert (forall (P : Options -> Crawl -> Prop),
            (exists o c, from_target t = inr o /\ crawl o = Some (inr c) /\ P o c) <-> P o c) as Hthe.
  { intros P. split; [|by eauto]. intros (o' & c' & Eo' & Ec' & HP). congruence. }
  rewrite !Hthe. clear Hthe. cbv zeta in Hp. set (baseline := is_baseline o _) in *.
  assert (baseline = false <-> same_settings o) as Hb.
  { unfold baseline, is_baseline. by rewrite negb_false_iff, bool_decide_eq_true. }
  simpl. rewrite (pd_pages _ _ _ Hpr). split_and!.
  - assert (forall r0, w_pages (referred (id t) baseline c d) !! (id t, u) = Some r0 -> p_removed r0 = false) as H0'.
    { intros r0 E0%referred_lookup. congruence. }
    assert (forall r', w_pages d1 !! (id t, u) = Some r' -> p_removed r' = true <->
      (exists p, p ∈ pages c /\ url p = u /\ pr_lines p = None /\ pr_gone p = true) \/
      (mode o = Site_ /\ complete c = true /\ same_settings o /\ ~ contains_it c)) as Hrow.
    { intros r' Hr'. rewrite (removed_by _ _ _ _ _ _ _ _ _ _ Hp Hr' H0'), elem_of_gone_of, <-Hb.
      split; (intros [Hx|Hx]; [by left|right]); [by destruct Hx as ((? & ? & ?) & ? & _)|].
      destruct Hx as (Hm & Hcomp & Hbase & Hout). split_and!; [done..|]. exists r. split; [|done].
      unfold referred. by rewrite Hbase. }
    split; [intros (r' & Hr' & Hx); by apply (Hrow r')|]. intros Hx.
    destruct (w_pages d1 !! (id t, u)) as [r'|] eqn:Hr'; [exists r'; split; [done|]; by apply (Hrow r')|]. exfalso.
    apply (compared_lookup _ _ _ _ _ _ _ _ _ Hp) in Hr' as [Hbase Hout]; [|by exists r].
    destruct Hx as [(p & Hpin & <- & _)|(_ & _ & Hs%Hb & _)]; [|congruence]. by apply Hout, (list_elem_of_fmap_2 (fun p => url p)).
  - rewrite (compared_lookup _ _ _ _ _ _ _ _ _ Hp) by by exists r. rewrite <-Hb. unfold contains_it. clear. destruct baseline; naive_solver.
  - intros key Hkey. rewrite (pg_others _ _ _ _ _ _ _ _ _ _ Hp) by done. unfold referred. destruct baseline; [|done]. simpl.
    destruct (w_pages d !! key) as [x|] eqn:Ex.
    + apply map_lookup_filter_Some. split; [done|]. by left.
    + apply map_lookup_filter_None. by left.
Qed.

(** ** What is kept *)

Definition last_changes (l : list Change) : list Change := drop (length l - KEEP_CHANGES) l.
Definition changes_of (target : Z) (d : Tables) : list Change := filter (fun c => c_target c = target) (w_changes d).

Lemma filter_last (l a b : list Change) :
  l = a ++ b -> StronglySorted Z.lt (c_id <$> l) -> filter (fun c => c_id c ∈ c_id <$> b) l = b.
Proof.
  intros -> Hs. rewrite filter_app, (filter_all _ b), filter_none; [done| |].
  - intros c Hc (c' & E & Hc')%list_elem_of_fmap. rewrite fmap_app in Hs.
    pose proof (StronglySorted_app_1_elem_of _ _ _ _ _ Hs (list_elem_of_fmap_2 c_id _ _ Hc) (list_elem_of_fmap_2 c_id _ _ Hc')).
    lia.
  - intros c. apply list_elem_of_fmap_2.
Qed.

Lemma pruned_changes target d :
  consistent d ->
  changes_of target (prune_changes target d) = last_changes (changes_of target d) /\
  filter (fun c => c_target c <> target) (w_changes (prune_changes target d)) =
    filter (fun c => c_target c <> target) (w_changes d).
Proof.
  intros Hc. unfold changes_of, prune_changes, kept_changes, last_changes. simpl. split.
  - set (ours := filter (fun c => c_target c = target) (w_changes d)).
    set (kept := drop _ ours). rewrite list_filter_filter.
    rewrite (list_filter_iff _ (fun c => c_id c ∈ c_id <$> kept /\ c_target c = target)) by naive_solver.
    rewrite <-list_filter_filter. fold ours.
    apply (filter_last _ (take (length ours - KEEP_CHANGES) ours)); [symmetry; apply take_drop|].
    apply sorted_fmap_filter, Hc.
  - rewrite list_filter_filter. apply list_filter_iff. naive_solver.
Qed.

Lemma cited_or_latest target d i s :
  ~ orphan target d (i, s) -> sn_target s = target ->
  (exists u r, w_pages d !! (target, u) = Some r /\ p_latest_snapshot r = Some i) \/
  (exists c, c ∈ changes_of target d /\ cites i c = true).
Proof.
  intros Ho Ht.
  destruct (filter (fun c => c_target c = target /\ cites i c = true) (w_changes d)) as [|c l] eqn:Ef.
  - left. destruct (decide (map_Forall (fun k r => k.1 = target -> p_latest_snapshot r <> Some i) (w_pages d))) as [Hy|Hy].
    + exfalso. apply Ho. split_and!; [done|done|]. apply Forall_forall. intros c Hin Hct.
      destruct (cites i c) eqn:Ec; [|done]. by destruct (filter_nil_not_elem_of _ _ c Ef).
    + apply map_not_Forall in Hy as ([t' u] & r & Hr & Hn); [|apply _]. exists u, r. simpl in Hn.
      destruct (decide (t' = target)) as [->|]; [|by destruct Hn].
      destruct (decide (p_latest_snapshot r = Some i)); [done|by destruct Hn].
  - right. exists c. assert (c ∈ filter (fun c => c_target c = target /\ cites i c = true) (w_changes d)) as Hin
      by (rewrite Ef; by left).
    apply list_elem_of_filter in Hin as [[Hct Hci] Hin]. split; [|done]. by apply list_elem_of_filter.
Qed.

(** The number of changes a check reports, which is what alerts, is the number it has recorded; the first
    check of a site, or with other settings, reports none; of the changes of a site the last hundred are kept,
    with every change of the other sites; and of its snapshots only those a page or a kept change refers to. *)
Theorem reported_changes_are_recorded clock spent image browser t n d tr n' d' k o c :
  check clock spent image browser t (n, d) = Some (tr, ((n', d'), k)) -> consistent d ->
  from_target t = inr o -> crawl o = Some (inr c) ->
  (exists new, Z.of_nat (length new) = k /\ Forall (fun c => c_target c = id t) new /\
     changes_of (id t) d' = last_changes (changes_of (id t) d ++ new)) /\
  filter (fun c => c_target c <> id t) (w_changes d') = filter (fun c => c_target c <> id t) (w_changes d) /\
  ((state_ (id t) d ≫= s_fingerprint) <> Some (o_fingerprint o) -> k = 0) /\
  forall i s, w_snapshots d' !! i = Some s -> sn_target s = id t ->
    (exists u r, w_pages d' !! (id t, u) = Some r /\ p_latest_snapshot r = Some i) \/
    (exists c, c ∈ changes_of (id t) d' /\ cites i c = true).
Proof using Type*.
  intros E Hc Eo Ec. destruct (check_from _ _ _ _ _ _ _ _ _ _ _ Hc E) as [_ Hk].
  destruct Hk as [(Hu & _)|(o' & c' & Eo' & Ec' & f & d1 & d2 & now & Hp & Hpr & -> & ->)].
  { unfold unread in Hu. by rewrite Eo, Ec in Hu. }
  replace o' with o in * by congruence. replace c' with c in * by congruence. clear o' c' Eo' Ec'.
  cbv zeta in Hp. set (baseline := is_baseline o _) in *. set (d0 := referred _ _ _ _) in *.
  assert (w_changes d0 = w_changes d) as E0 by (unfold d0, referred; by destruct baseline).
  destruct (pg_counted _ _ _ _ _ _ _ _ _ _ Hp) as (new & En & Hl & Hf). rewrite E0 in En.
  pose proof (pruned_changes (id t) d1 (pg_consistent _ _ _ _ _ _ _ _ _ _ Hp)) as [Ho Hoth].
  unfold changes_of in *. simpl. rewrite (pd_changes _ _ _ Hpr), Ho, Hoth, En, !filter_app.
  split_and!.
  - exists new. split_and!; [done..|]. rewrite (filter_all _ new); [done|]. by apply Forall_forall.
  - rewrite (filter_none _ new), app_nil_r; [done|]. rewrite Forall_forall in Hf. intros x Hx Hn. by apply Hn, Hf.
  - intros Hfp. apply (pg_reference _ _ _ _ _ _ _ _ _ _ Hp). unfold baseline, is_baseline. by rewrite bool_decide_eq_false_2.
  - rewrite <-filter_app, <-En, <-Ho, <-(pd_changes _ _ _ Hpr). intros i s Hi Ht.
    apply (cited_or_latest (id t) d2 i s); [by destruct (pd_kept _ _ _ Hpr _ _ Hi)|done].
Qed.

(** ** A check has an end *)

Lemma total_captures clock spent image n l : total (capture_all clock spent image n l).
Proof. revert n. induction l as [|[i v] l IH]; intros n; simpl; repeat (total_step || apply IH). Qed.
Lemma total_compare clock spent image target o browser baseline c :
  total (compare walked clock spent image target o browser baseline c).
Proof.
  unfold compare, page_step, unread_page, record_change, read_again, vanish_step, line_count, prune; cbv zeta;
    repeat (total_step || apply total_captures).
Qed.
Lemma total_check clock spent image browser t :
  (forall o, from_target t = inr o -> is_Some (crawl o)) -> total (check clock spent image browser t).
Proof.
  intros Hc. unfold run_check, fail. destruct (from_target t) as [e|o] eqn:Eo; [repeat total_step|].
  apply total_bind; [apply total_ask|]. intros s. apply total_bind; [by apply total_ends, Hc|]. intros [e|c].
  - repeat total_step.
  - apply total_compare.
Qed.

(** ** A site that does not change *)

Section quiet.
Variables (clock : nat -> Z) (target : Z) (o : Options) (c : Crawl) (D : Tables).
Notation known := (pages_of target D).

(** Tables a comparison with [c] has already been made with. *)
Record steady : Prop := {
  st_pages : forall p, p ∈ pages c -> exists r, w_pages D !! (target, url p) = Some r /\
    match pr_lines p with
    | Some ls => p_hash r = Some (fingerprint (Html.join newline_ (keep_lines o ls))) /\ p_removed r = false
    | None => pr_gone p = true -> p_removed r = true
    end;
  st_live : mode o = Site_ -> complete c = true ->
    forall u r, w_pages D !! (target, u) = Some r -> p_removed r = false -> u ∈ (fun p => url p) <$> pages c;
  st_few : (length (changes_of target D) <= KEEP_CHANGES)%nat;
  st_referred : forall i s, w_snapshots D !! i = Some s -> ~ orphan target D (i, s);
}.

Definition latest_of (d : Tables) (k : Z * string) : option Z := w_pages d !! k ≫= p_latest_snapshot.
Definition quiet (d : Tables) : Prop :=
  w_changes d = w_changes D /\ w_snapshots d = w_snapshots D /\ forall k, latest_of d k = latest_of D k.
Notation triple := (triple (fun _ => True)).

Lemma quiet_save_page now u d : u_snapshot u = None -> quiet d -> quiet (save_page now target u d).
Proof.
  intros Hu (Hc & Hs & Hl). split_and!; [done..|]. intros k. rewrite <-Hl. unfold latest_of.
  destruct (decide (k = (target, u_url u))) as [->|Hne]; [|by rewrite save_page_lookup].
  destruct (save_page_row target now u d) as (r & -> & _ & _ & _ & Hr). rewrite lookup_insert_eq. simpl. by rewrite Hr, Hu.
Qed.

Lemma quiet_page_step f p :
  steady -> p ∈ pages c ->
  triple quiet (page_step clock target o false known f p) (fun f' d => f' = f /\ quiet d).
Proof.
  intros Hst Hp. destruct (st_pages Hst p Hp) as (r & Hr & Hs). unfold page_step. cbv zeta.
  rewrite (pages_of_lookup target D (url p)), Hr. destruct (pr_lines p) as [ls|].
  - destruct Hs as [Hh Hrem]. cbn [mbind option_bind]. rewrite Hh, Hrem, bool_decide_eq_true_2 by done. simpl.
    apply triple_exec_ret. intros now d Hd. split_and!; [done..|by apply quiet_save_page].
  - unfold unread_page. cbv zeta. rewrite (pages_of_lookup target D (url p)), Hr. cbn [is_some_and].
    destruct (pr_gone p && _ && negb false) eqn:E.
    { apply andb_true_iff in E as [E _]. apply andb_true_iff in E as [Eg E]. by rewrite (Hs Eg) in E. }
    eapply triple_bind; [by apply (triple_ret _ _ _ (fun f' d => f' = f /\ quiet d))|]. intros f'. apply triple_pure. intros ->.
    apply triple_exec_ret. intros now d Hd. split_and!; [done..|by apply quiet_save_page].
Qed.

Lemma quiet_orphans d i s : quiet d -> orphan target d (i, s) <-> orphan target D (i, s).
Proof.
  intros (Hc & _ & Hl). unfold orphan. rewrite Hc. simpl.
  assert (forall e e', (forall k, latest_of e k = latest_of e' k) ->
    map_Forall (fun k r => k.1 = target -> p_latest_snapshot r <> Some i) (w_pages e) ->
    map_Forall (fun k r => k.1 = target -> p_latest_snapshot r <> Some i) (w_pages e')) as Hx.
  { intros e e' He Hf k r Hr Ht Hi. specialize (He k). unfold latest_of in He. rewrite Hr in He. simpl in He.
    destruct (w_pages e !! k) as [r1|] eqn:E1; simpl in He; [|congruence]. apply (Hf _ _ E1 Ht). congruence. }
  split; intros (H1' & H2' & H3'); split_and!; try done; eapply Hx; eauto.
Qed.

Lemma quiet_prune : steady -> triple quiet (prune clock target) (fun _ => quiet).
Proof.
  intros Hst. unfold prune. apply (triple_bind _ _ (fun _ => quiet)).
  { apply (triple_exec _ _ _ _ quiet). intros _ d (Hc & Hs & Hl). split; [done|]. split_and!; [|done..]. simpl. rewrite Hc.
    apply filter_all. intros x Hx. destruct (decide (c_target x = target)) as [Hxt|]; [|by left]. right.
    unfold kept_changes. fold (changes_of target D). replace (length _ - KEEP_CHANGES)%nat with O by (pose proof (st_few Hst); lia).
    rewrite drop_0. apply list_elem_of_fmap_2. by apply list_elem_of_filter. }
  intros _. apply (triple_bind _ _ (fun ids d => ids = [] /\ quiet d)).
  { apply triple_ask. intros d Hd. split; [|done]. apply elem_of_nil_inv. intros i (s & Hs & Ho)%elem_of_orphans.
    apply (quiet_orphans d) in Ho; [|done]. destruct Hd as (_ & Hsn & _). rewrite Hsn in Hs. by apply (st_referred Hst) in Ho. }
  intros ids. apply triple_pure. intros ->. by apply triple_ret.
Qed.

Lemma quiet_compare spent image browser :
  steady ->
  triple (eq D) (compare walked clock spent image target o browser false c) (fun k d => k = 0 /\ quiet d).
Proof using Type*.
  intros Hst. unfold compare. apply (triple_bind _ _ (fun _ => eq D)); [by apply triple_ret|]. intros _.
  apply (triple_bind _ _ (fun kn d => kn = known /\ quiet d)); [by apply triple_ask; intros d <-|].
  intros kn. apply triple_pure. intros ->.
  apply (triple_bind _ _ (fun f d => f = (0, []) /\ quiet d)).
  { pose (J := fun (_ : list PageResult) (f : Found) d => f = (0, []) /\ quiet d).
    eapply triple_weaken; [refine (triple_each _ J _ (pages c) (0, []) _)|by intros d Hd|by intros f d].
    intros pre p post f E. apply triple_pure. intros ->. apply quiet_page_step; [done|]. rewrite E. set_solver. }
  intros f. apply triple_pure. intros ->.
  apply (triple_bind _ _ (fun f d => f = (0, []) /\ quiet d)).
  { destruct (_ && _ && _) eqn:E; [|by apply triple_ret].
    apply andb_true_iff in E as [E _]. apply andb_true_iff in E as [E0 E1]. apply bool_decide_eq_true in E0.
    replace (vanished _ _ _) with (@nil (string * PageRow)); [by apply triple_ret|].
    symmetry. apply filter_none. intros [u r] Hin [Hr Hu]. rewrite walked_all in Hin. apply elem_of_map_to_list in Hin.
    rewrite pages_of_lookup in Hin. apply Hu, elem_of_list_to_set. by eapply (st_live Hst). }
  intros f. apply triple_pure. intros ->. apply (triple_bind _ _ (fun _ => quiet)).
  { by destruct (_ && _); apply triple_ret. }
  intros _. apply (triple_bind _ _ (fun _ => quiet)); [by apply quiet_prune|]. intros _.
  by apply triple_exec_ret.
Qed.
End quiet.

Lemma compared_steady target o baseline before c d k d' D :
  compared target o baseline before walked c (referred target baseline c d) k d' ->
  w_pages D = w_pages d' -> w_changes D = w_changes d' -> w_snapshots D = w_snapshots d' -> steady target o c D.
Proof using walked_all.
  intros (f & d1 & d2 & now & Hp & Hpr & -> & ->) Ep Ec Es. simpl in Ep, Ec, Es.
  set (d0 := referred _ _ _ _) in *.
  split; unfold changes_of; rewrite ?Ep, ?Ec, ?Es; [|intros Hm Hcomp u r Hr Hlive|..].
  - intros p Hpin. rewrite (pd_pages _ _ _ Hpr). destruct (pg_settled _ _ _ _ _ _ _ _ _ _ Hp p Hpin) as (r & Hr & Hs).
    exists r. split; [done|]. unfold settled in Hs. destruct (pr_lines p); [done|]. rewrite Hs. by intros ->.
  - rewrite (pd_pages _ _ _ Hpr) in Hr.
    destruct (decide (u ∈ (fun p => url p) <$> pages c)) as [|Hout]; [done|exfalso].
    destruct (decide (u ∈ gone_of o baseline walked c (pages_of target d0))) as [Hg|Hg].
    { destruct (pg_gone _ _ _ _ _ _ _ _ _ _ Hp u Hg) as (r1 & E1 & Hr1). congruence. }
    rewrite (pg_others _ _ _ _ _ _ _ _ _ _ Hp) in Hr by by split.
    destruct (Sumbool.sumbool_of_bool baseline) as [Hb|Hb].
    + unfold d0, referred in Hr. rewrite Hb in Hr. simpl in Hr. apply map_lookup_filter_Some in Hr as [_ [Hx|Hx]]; [done|].
      by apply Hout.
    + apply Hg, elem_of_gone_of. split_and!; [done..|]. eauto.
  - rewrite (pd_changes _ _ _ Hpr). fold (changes_of target (prune_changes target d1)).
    rewrite (proj1 (pruned_changes target d1 (pg_consistent _ _ _ _ _ _ _ _ _ _ Hp))). unfold last_changes.
    rewrite length_drop. lia.
  - intros i s Hi. destruct (pd_kept _ _ _ Hpr _ _ Hi) as [_ Ho]. contradict Ho. revert Ho. unfold orphan. simpl.
    by rewrite Ep, Ec.
Qed.

(** The state of a site whose check holds the lock. *)
Lemma lock_taken now t d0 d : start_check now t d0 = (d, true) -> lock (id t) d = Some now.
Proof.
  unfold start_check, try_lock. intros [= <- E]. unfold lock, state_. simpl. rewrite lookup_insert_eq. simpl. by rewrite E.
Qed.
Lemma start_after_done now t d :
  start_check now t (check_done t d) = ((start_check now t (check_done t d)).1, true).
Proof.
  unfold start_check, try_lock, check_done, unlock. simpl. rewrite lookup_alter_eq. by destruct (w_states d !! id t).
Qed.
Lemma state_after_lock now t d :
  state_ (id t) (start_check now t (check_done t d)).1 ≫= s_fingerprint = state_ (id t) d ≫= s_fingerprint.
Proof.
  unfold start_check, try_lock, check_done, unlock, state_. simpl. rewrite lookup_insert_eq, lookup_alter_eq.
  by destruct (w_states d !! id t).
Qed.

Lemma compared_reference target o baseline before c d0 k d' :
  compared target o baseline before walked c d0 k d' -> is_Some (lock target before) ->
  state_ target d' ≫= s_fingerprint = Some (o_fingerprint o).
Proof.
  intros (f & d1 & d2 & now & Hp & Hpr & -> & ->) Hl. pose proof (pg_locks _ _ _ _ _ _ _ _ _ _ Hp target) as E.
  rewrite <-E in Hl. unfold lock, state_ in *. simpl. rewrite lookup_alter_eq, (pd_states _ _ _ Hpr).
  destruct (w_states d1 !! target); [done|]. by destruct Hl.
Qed.

Lemma check_read clock spent image browser t o c nd :
  from_target t = inr o -> crawl o = Some (inr c) ->
  check clock spent image browser t nd =
    compare walked clock spent image (id t) o browser (is_baseline o (state_ (id t) nd.2)) c nd.
Proof.
  intros Eo Ec. unfold run_check. rewrite Eo. unfold mbind at 1 2, Check_bind, ask, ends. rewrite Ec. cbn.
  by destruct (compare _ _ _ _ _ _ _ _ _ _) as [[]|].
Qed.
Lemma check_crawls clock spent image browser t nd r o :
  check clock spent image browser t nd = Some r -> from_target t = inr o -> is_Some (crawl o).
Proof.
  intros E Eo. destruct (crawl o) as [x|] eqn:Ec; [done|exfalso]. revert E. unfold run_check. rewrite Eo.
  unfold mbind, Check_bind, ask, ends. by rewrite Ec.
Qed.

(** A site that answers a second check as it answered the first is silent: the second check ends, reports
    no change, records none and adds no snapshot; whatever the first one found, and however it went. *)
Theorem unchanged_site_is_silent clock spent image browser t now0 d0 d n tr n' d' k now clock2 spent2 image2 browser2 :
  consistent d0 -> start_check now0 t d0 = (d, true) ->
  check clock spent image browser t (n, d) = Some (tr, ((n', d'), k)) ->
  let again := start_check now t (check_done t d') in
  again.2 = true /\
  exists tr2 n2 d2, check clock2 spent2 image2 browser2 t (n', again.1) = Some (tr2, ((n2, d2), 0)) /\
    w_changes d2 = w_changes d' /\ w_snapshots d2 = w_snapshots d'.
Proof using Type*.
  intros Hc0 Hs E again. assert (consistent d) as Hc.
  { unfold start_check, try_lock in Hs. injection Hs as <- _. by apply consistent_states. }
  destruct (check_from _ _ _ _ _ _ _ _ _ _ _ Hc E) as [_ Hk].
  split; [unfold again; by rewrite start_after_done|].
  assert (consistent again.1) as Hc2. { by do 2 apply consistent_states; eapply checked_consistent. }
  destruct (total_check clock2 spent2 image2 browser2 t) with (nd := (n', again.1)) as [[tr2 [[n2 d2] k2]] E2].
  { intros o Eo. by eapply check_crawls. }
  exists tr2, n2, d2. destruct Hk as [(Hu & _)|(o & c & Eo & Ec & Hcmp)].
  - destruct (check_from _ _ _ _ _ _ _ _ _ _ _ Hc2 E2) as [_ [(_ & -> & ? & ? & ? & ->)|(o & c & Eo & Ec & _)]]; [done|].
    unfold unread in Hu. by rewrite Eo, Ec in Hu.
  - rewrite E2. rewrite (check_read _ _ _ _ _ o c _ Eo Ec) in E2. cbn [snd] in E2.
    assert (is_baseline o (state_ (id t) again.1) = false) as Hb.
    { unfold is_baseline, again. rewrite state_after_lock, (compared_reference _ _ _ _ _ _ _ _ Hcmp).
      - by rewrite bool_decide_eq_true_2.
      - by rewrite (lock_taken _ _ _ _ Hs). }
    rewrite Hb in E2.
    assert (steady (id t) o c again.1) as Hst by by eapply compared_steady.
    destruct (quiet_compare _ _ _ _ _ _ _ _ Hst _ _ _ _ _ _ E2 eq_refl) as (_ & -> & Hq & Hq' & _). done.
Qed.

(** ** Two checks of a site never overlap *)

(** The tables, and the checks that run: their sites and the instants they took their locks at. *)
Record Watcher := { tables : Tables; running : list (Z * Z) }.

(** What a server does from its start on: it asks for checks, their statements follow one another in any order,
    each ends or is cut by its budget.  No check is older than its budget and the time its end takes. *)
Inductive watched (grace : Z) : Z -> Watcher -> Prop :=
  | w_boots now d : watched grace now {| tables := release_all d; running := [] |}
  | w_passes now now' w :
      watched grace now w -> now <= now' ->
      Forall (fun r => now' <= r.2 + CHECK_BUDGET + grace) (running w) -> watched grace now' w
  | w_starts now w t d :
      watched grace now w -> start_check now t (tables w) = (d, true) ->
      watched grace now {| tables := d; running := (id t, now) :: running w |}
  | w_refuses now w t d :
      watched grace now w -> start_check now t (tables w) = (d, false) ->
      watched grace now {| tables := d; running := running w |}
  | w_works now w d :
      watched grace now w -> same_locks (tables w) d -> watched grace now {| tables := d; running := running w |}
  | w_ends now w t d :
      watched grace now w -> id t ∈ (running w).*1 -> d ∈ [check_done t (tables w); check_abandoned now t (tables w)] ->
      watched grace now {| tables := d; running := filter (fun r => r.1 <> id t) (running w) |}.

(** One running check for a lock, taken when it says. *)
Definition exclusive (w : Watcher) : Prop :=
  NoDup (running w).*1 /\ forall t since, (t, since) ∈ running w -> lock t (tables w) = Some since.

Lemma lock_ended now t d d' : d' ∈ [check_done t d; check_abandoned now t d] -> forall t', t' <> id t -> lock t' d' = lock t' d.
Proof.
  intros Hd t' Hne. unfold lock, state_.
  apply elem_of_cons in Hd as [-> | ->%list_elem_of_singleton]; simpl; by rewrite ?lookup_alter_ne by done.
Qed.

Lemma lock_refused now t d d' : start_check now t d = (d', false) -> same_locks d d'.
Proof.
  unfold start_check, try_lock. intros [= <- E] t'. unfold lock, state_. rewrite E. simpl.
  destruct (decide (t' = id t)) as [->|]; [|by rewrite lookup_insert_ne].
  rewrite lookup_insert_eq. by destruct (w_states d !! id t).
Qed.

Lemma lock_taken_from now t d d' :
  start_check now t d = (d', true) ->
  (forall since, lock (id t) d = Some since -> since < now - STALE_LOCK_MINUTES * 60) /\
  lock (id t) d' = Some now /\ forall t', t' <> id t -> lock t' d' = lock t' d.
Proof.
  intros Hs. split; [|split; [by eapply lock_taken|]]; unfold start_check, try_lock in Hs; injection Hs as <- E.
  - intros since Hl. unfold lock, state_ in Hl. destruct (w_states d !! id t) as [s|]; [|done]. simpl in *.
    rewrite Hl in E. by apply Z.ltb_lt.
  - intros t' Hne. unfold lock, state_. simpl. by rewrite lookup_insert_ne.
Qed.

Lemma exclusive_starts now w t d grace :
  exclusive w -> Forall (fun r => now <= r.2 + CHECK_BUDGET + grace) (running w) ->
  CHECK_BUDGET + grace <= STALE_LOCK_MINUTES * 60 -> start_check now t (tables w) = (d, true) ->
  exclusive {| tables := d; running := (id t, now) :: running w |}.
Proof.
  intros [Hn Hl] Hf Hg Hs. destruct (lock_taken_from _ _ _ _ Hs) as (Hfree & Hmine & Hother).
  assert (id t ∉ (running w).*1) as Hnot.
  { intros ([t0 since] & Et & Hr)%list_elem_of_fmap. simpl in Et. rewrite Forall_forall in Hf. specialize (Hf _ Hr).
    simpl in Hf. apply Hl in Hr. rewrite <-Et in Hr. apply Hfree in Hr. lia. }
  split; simpl; [by constructor|]. intros t0 since [[= -> ->]|Hr]%elem_of_cons; [done|].
  rewrite Hother; [by apply Hl|]. intros ->. apply Hnot. by apply (list_elem_of_fmap_2 fst) in Hr.
Qed.
Lemma exclusive_ends now w t d :
  exclusive w -> d ∈ [check_done t (tables w); check_abandoned now t (tables w)] ->
  exclusive {| tables := d; running := filter (fun r => r.1 <> id t) (running w) |}.
Proof.
  intros [Hn Hl] Hd. split; simpl.
  - eapply sublist_NoDup; [done|]. apply fmap_sublist, sublist_filter.
  - intros t0 since [Hne Hr]%list_elem_of_filter. rewrite (lock_ended _ _ _ _ Hd) by done. by apply Hl.
Qed.

(** Two checks of a site never run together: whatever the server is asked, in whatever order the statements
    of its checks come, a check only starts when none of this site runs.  This rests on the budget of a check,
    shorter than the life of a lock; the statements of a check themselves leave the locks alone. *)
Theorem checks_never_overlap grace now w clock spent image browser t n d tr r :
  0 <= grace -> CHECK_BUDGET + grace <= STALE_LOCK_MINUTES * 60 -> watched grace now w ->
  exclusive w /\
  (consistent d -> check clock spent image browser t (n, d) = Some (tr, r) -> Forall (same_locks d) tr).
Proof using Type*.
  intros Hg0 Hg Hw. split.
  2:{ intros Hc E. destruct r as [[n' d'] k]. destruct (check_from _ _ _ _ _ _ _ _ _ _ _ Hc E) as [Ht _].
    eapply Forall_impl; [exact Ht|]. by intros m []. }
  assert (exclusive w /\ Forall (fun r => now <= r.2 + CHECK_BUDGET + grace) (running w)) as [He _]; [|done].
  induction Hw as [now d0|now now' w Hw [He _] _ Hf|now w t' d' Hw [[Hn Hl] Hf] Hs|now w t' d' Hw [[Hn Hl] Hf] Hs
    |now w d' Hw [[Hn Hl] Hf] Hs|now w t' d' Hw [[Hn Hl] Hf] Hin Hd].
  - split; [|constructor]. split; [constructor|]. by intros ? ? ?%elem_of_nil.
  - done.
  - split; [by eapply exclusive_starts|]. constructor; [simpl; unfold CHECK_BUDGET in *; lia|done].
  - split; [|done]. split; [done|]. intros t0 since Hr. simpl. rewrite (lock_refused _ _ _ _ Hs). by apply Hl.
  - split; [|done]. split; [done|]. intros t0 since Hr. simpl. rewrite Hs. by apply Hl.
  - split; [by eapply exclusive_ends|]. apply Forall_forall. intros r0 [_ Hr]%list_elem_of_filter.
    rewrite Forall_forall in Hf. by apply Hf.
Qed.
End site.

(** ** Examples *)

#[local] Existing Instance plain_crates.
#[local] Existing Instance plain_web.

Definition example_target : Target :=
  {| id := 7; name := "site"; address := "https://ex/"; t_kind := "webchange"; profile_id := None; parent_id := None;
     interval := td_minutes 1; enabled := true; tags := {["scope" := "site"; "allow_private_targets" := "true"]};
     credential := Credential.None; group_name := ""; position := 0 |}.
(** The same site once one of its pages is gone and another has a new text. *)
Definition next_site (u : string) : FetchError + Answer :=
  if bool_decide (u = "/") then page_answer (link "/a")
  else if bool_decide (u = "/a") then page_answer "new" else example_site u.

Definition example_check (site : string -> FetchError + Answer) (n : nat) (now : Z) (d : Tables) :=
  run_check (fun _ => site) (fun n => Z.of_nat n * POLITE_DELAY) (fun _ => None) map_to_list (fun _ => now)
    (fun _ => 0) (fun _ => true) true example_target (n, d).

Definition started (now : Z) (d : Tables) : Tables := (start_check now example_target d).1.
Definition after (r : option (list Tables * (nat * Tables * Z))) : Tables :=
  match r with Some (_, (_, d, _)) => check_done example_target d | None => Tables_new end.
Definition report (r : option (list Tables * (nat * Tables * Z))) : option Z := (fun r => r.2.2) <$> r.

Definition first_check := example_check example_site 0 1000 (started 1000 Tables_new).
Definition second_check := example_check next_site 20 5000 (started 5000 (after first_check)).
Definition third_check := example_check next_site 40 9000 (started 9000 (after second_check)).

Example example_reports : (report first_check, report second_check, report third_check) = (Some 0, Some 3, Some 0).
Proof. vm_compute. reflexivity. Qed.

(** A check cut by its budget after its last page: its changes are recorded, yet neither its end nor the next
    check reports them. *)
Definition cut_check : Tables :=
  match second_check with
  | Some (tr, _) => check_abandoned 6200 example_target (tr !! 8%nat ?? Tables_new)
  | None => Tables_new
  end.
Definition check_after_the_cut := example_check next_site 40 9000 (started 9000 cut_check).
Example abandoned_check_is_never_reported :
  length (changes_of 7 cut_check) = 3%nat /\ s_last_check_changes <$> state_ 7 cut_check = Some 0 /\
  report check_after_the_cut = Some 0.
Proof. vm_compute. done. Qed.

#[local] Instance plain_url_inj : Inj (=) (=) (@url_str plain_web).
Proof. intros u v E. by injection E. Qed.

(** The parts of a check that has an end. *)
Definition parts (r : option (list Tables * (nat * Tables * Z))) : list Tables * nat * Tables * Z :=
  match r with Some (tr, (n, d, k)) => (tr, n, d, k) | None => ([], O, Tables_new, 0) end.
Lemma parts_spec r : bool_decide (is_Some (fst <$> r)) = true ->
  r = Some ((parts r).1.1.1, (((parts r).1.1.2, (parts r).1.2), (parts r).2)).
Proof. destruct r as [[tr [[n d] k]]|]; [done|]. by intros H%bool_decide_eq_true; destruct H. Qed.

Lemma first_consistent : consistent (started 1000 Tables_new).
Proof. by apply consistent_states, consistent_new. Qed.
Lemma first_done : consistent (after first_check).
Proof.
  assert (bool_decide (is_Some (fst <$> first_check)) = true) as E by (vm_compute; reflexivity).
  apply parts_spec in E. unfold after. rewrite E. apply consistent_states.
  destruct (@check_from plain_crates plain_web _ _ _ map_to_list (fun _ => Permutation_refl _) plain_url_inj _ _ _ _ _ _ _ _ _ _ _
    first_consistent E) as [_ Hk].
  eapply checked_consistent; [apply first_consistent|exact Hk].
Qed.
Lemma second_consistent : consistent (started 5000 (after first_check)).
Proof. apply consistent_states, first_done. Qed.

Lemma watched_tables_stay_consistent_witness :
  exists tr n d, second_check = Some (tr, ((n, d), 3)) /\ consistent (check_done example_target d).
Proof.
  assert (second_check = Some ((parts second_check).1.1.1, (((parts second_check).1.1.2, (parts second_check).1.2), 3))) as E
    by (vm_compute; reflexivity).
  exists (parts second_check).1.1.1, (parts second_check).1.1.2, (parts second_check).1.2. split; [exact E|].
  exact (proj1 (@watched_tables_stay_consistent plain_crates plain_web (fun _ => next_site) (fun n => Z.of_nat n * POLITE_DELAY)
    (fun _ => None) map_to_list (fun _ => Permutation_refl _) plain_url_inj (fun _ => 5000) (fun _ => 0) (fun _ => true) true
    example_target 20%nat (started 5000 (after first_check)) _ _ _ _ 5000 E second_consistent)).
Defined.

Lemma unchanged_site_is_silent_witness :
  exists tr n d, @run_check plain_crates plain_web (fun _ => next_site) (fun n => Z.of_nat n * POLITE_DELAY) (fun _ => None)
    map_to_list (fun _ => 9000) (fun _ => 0) (fun _ => true) true example_target
    ((parts second_check).1.1.2, (start_check 9000 example_target (check_done example_target (parts second_check).1.2)).1) =
    Some (tr, ((n, d), 0)) /\ w_changes d = w_changes (parts second_check).1.2.
Proof.
  assert (second_check = Some ((parts second_check).1.1.1, (((parts second_check).1.1.2, (parts second_check).1.2), 3))) as E
    by (vm_compute; reflexivity).
  assert (start_check 5000 example_target (after first_check) = (started 5000 (after first_check), true)) as Es
    by (vm_compute; reflexivity).
  assert (consistent (after first_check)) as Hc by (exact first_done).
  destruct (@unchanged_site_is_silent plain_crates plain_web (fun _ => next_site) (fun n => Z.of_nat n * POLITE_DELAY)
    (fun _ => None) map_to_list (fun _ => Permutation_refl _) plain_url_inj (fun _ => 5000) (fun _ => 0) (fun _ => true) true
    example_target 5000 (after first_check) (started 5000 (after first_check)) 20%nat _ _ _ _ 9000 (fun _ => 9000) (fun _ => 0)
    (fun _ => true) true Hc Es E) as (_ & tr & n & d & E2 & Hch & _).
  exists tr, n, d. split; [exact E2|exact Hch].
Defined.

Definition settings : Options := match from_target example_target with inr o => o | inl _ => example_options end.
Definition next_crawl : Crawl :=
  match crawl (fun _ => next_site) (fun n => Z.of_nat n * POLITE_DELAY) (fun _ => None) settings with
  | Some (inr c) => c
  | _ => {| pages := []; complete := false |}
  end.
Lemma settings_read : from_target example_target = inr settings.
Proof. vm_compute. reflexivity. Qed.
Lemma next_crawl_read :
  crawl (fun _ => next_site) (fun n => Z.of_nat n * POLITE_DELAY) (fun _ => None) settings = Some (inr next_crawl).
Proof. vm_compute. reflexivity. Qed.

Lemma page_goes_only_when_the_site_says_so_witness :
  exists tr n d r', second_check = Some (tr, ((n, d), 3)) /\
    w_pages d !! (7, "https://ex/c") = Some r' /\ p_removed r' = true.
Proof.
  assert (second_check = Some ((parts second_check).1.1.1, (((parts second_check).1.1.2, (parts second_check).1.2), 3))) as E
    by (vm_compute; reflexivity).
  destruct (w_pages (started 5000 (after first_check)) !! (7, "https://ex/c")) as [r|] eqn:Er;
    [|exfalso; revert Er; vm_compute; discriminate].
  assert (p_removed r = false) as Hr by (revert Er; vm_compute; by intros [= <-]).
  destruct (@page_goes_only_when_the_site_says_so plain_crates plain_web (fun _ => next_site) (fun n => Z.of_nat n * POLITE_DELAY)
    (fun _ => None) map_to_list (fun _ => Permutation_refl _) plain_url_inj (fun _ => 5000) (fun _ => 0) (fun _ => true) true
    example_target 20%nat (started 5000 (after first_check)) _ _ _ _ "https://ex/c" r E second_consistent Er Hr) as [[_ Hgone] _].
  destruct Hgone as (r' & Hr' & Hrem).
  - exists settings, next_crawl. split; [exact settings_read|]. split; [exact next_crawl_read|].
    right. split_and!; [vm_compute; reflexivity..|]. vm_compute. intros Hx.
    repeat (apply elem_of_cons in Hx as [Hx|Hx]; [discriminate Hx|]). by apply elem_of_nil in Hx.
  - exists (parts second_check).1.1.1, (parts second_check).1.1.2, (parts second_check).1.2, r'.
    split_and!; [exact E|exact Hr'|exact Hrem].
Defined.

Lemma reported_changes_are_recorded_witness :
  exists tr n d new, second_check = Some (tr, ((n, d), 3)) /\ length new = 3%nat /\
    changes_of 7 d = last_changes (changes_of 7 (started 5000 (after first_check)) ++ new).
Proof.
  assert (second_check = Some ((parts second_check).1.1.1, (((parts second_check).1.1.2, (parts second_check).1.2), 3))) as E
    by (vm_compute; reflexivity).
  destruct (@reported_changes_are_recorded plain_crates plain_web (fun _ => next_site) (fun n => Z.of_nat n * POLITE_DELAY)
    (fun _ => None) map_to_list (fun _ => Permutation_refl _) plain_url_inj (fun _ => 5000) (fun _ => 0) (fun _ => true) true
    example_target 20%nat (started 5000 (after first_check)) _ _ _ _ settings next_crawl E second_consistent
    settings_read next_crawl_read) as ((new & Hn & _ & Hc) & _).
  exists (parts second_check).1.1.1, (parts second_check).1.1.2, (parts second_check).1.2, new.
  split_and!; [exact E|lia|exact Hc].
Defined.

(** A server that starts, checks a site and is asked again while the check runs. *)
Definition asked : Tables := (start_check 1000 example_target (release_all Tables_new)).1.
Definition asked_again : Tables := (start_check 1010 example_target asked).1.
Lemma checks_never_overlap_witness :
  exists d, watched 60 1010 {| tables := d; running := [(7, 1000)] |} /\ lock 7 d = Some 1000.
Proof.
  exists asked_again. pose (w := {| tables := asked_again; running := [(7, 1000)] |}).
  assert (watched 60 1010 w) as Hw.
  { apply (w_refuses 60 1010 {| tables := asked; running := [(7, 1000)] |} example_target asked_again);
      [|vm_compute; reflexivity].
    apply (w_passes 60 1000 1010); [|lia|repeat constructor; vm_compute; discriminate].
    apply (w_starts 60 1000 {| tables := release_all Tables_new; running := [] |} example_target asked);
      [constructor|vm_compute; reflexivity]. }
  split; [exact Hw|].
  refine (proj2 (proj1 (@checks_never_overlap plain_crates plain_web (fun _ => next_site) (fun n => Z.of_nat n * POLITE_DELAY)
    (fun _ => None) map_to_list (fun _ => Permutation_refl _) plain_url_inj 60 1010 w (fun _ => 0) (fun _ => 0) (fun _ => true)
    true example_target O Tables_new [] ((O, Tables_new), 0) _ _ Hw)) 7 1000 _); [lia|vm_compute; discriminate|by left].
Defined.
