(* ===== verification/StatusHost.v ===== *)
(** * The public domain of a status page ([status_host.rs])

    A page may have a host name of its own.  Under this name only the page answers; its names are kept in a
    cache that every write on the pages empties.

    The path of a request is the text between its authority and its query; it is empty for a request in
    authority form.  Slicing it past its end panics, which is [None]. *)
From Stdlib Require Import Ascii.
From Stdlib Require String.
From S2P Require Import Prelude Text RateLimit ApiToken Accounts Auth.

Definition MAX_DOMAIN_LEN : Z := 253.
Definition MAX_LABEL_LEN : Z := 63.

(** ** Names *)

Definition is_ascii_text (s : string) : bool := string_forall (fun a => byte a <? 128) s.
Definition contains_any (cs : list ascii) (s : string) : bool := existsb (fun c => contains_char c s) cs.

Definition label_byte (a : ascii) : bool := is_ascii_lower a || is_ascii_digit a || bool_decide (a = "-"%char).
Definition valid_label (label : string) : bool :=
  negb (bool_decide (label = "") || (MAX_LABEL_LEN <? Z.of_nat (String.length label)) || starts_with "-" label
        || ends_with "-" label || negb (string_forall label_byte label)).

Definition strip_or (strip : string -> option string) (s : string) : string := strip s ?? s.

Definition invalid : string + option string :=
  inl "Not a valid host name: use letters, digits, hyphens and dots, like status.example.com."%string.
Definition normalise_domain (raw : string) : string + option string :=
  let value := to_ascii_lowercase (trim raw) in
  let value := foldl (fun value scheme => strip_or (strip_prefix scheme) value) value ["https://"; "http://"] in
  let value := strip_or (strip_suffix "/") value in
  let value := strip_or (strip_suffix ".") value in
  if bool_decide (value = "") then inr None
  else if negb (is_ascii_text value) then
    inl "Use the ASCII (punycode) form of the name, for example xn--bcher-kva.example."
  else if contains_any ["/"; ":"; "@"; "?"; "#"; "["; "]"]%char value || has_whitespace value then
    inl "Enter the host name only, like status.example.com: no path, port or user."
  else if MAX_DOMAIN_LEN <? Z.of_nat (String.length value) then invalid
  else
    let labels := split "." value in
    if (length labels <? 2)%nat then inl "Use a full domain name with a dot, like status.example.com."
    else if negb (forallb valid_label labels) then invalid
    else if is_some_and (last labels) (string_forall is_ascii_digit) then
      inl "Use a domain name, not an IP address."
    else inr (Some value).

(** The front up to the first of a character, which is not kept. *)
Definition before_char (c : ascii) (s : string) : string :=
  match split_once c s with Some (front, _) => front | None => s end.

Definition host_of (value : string) : option string :=
  let value := trim value in
  let host := match strip_prefix "[" value with
              | Some rest => match split_once "]" rest with
                             | Some (inside, _) => ("[" +:+ inside +:+ "]")%string
                             | None => value
                             end
              | None => before_char ":" value
              end in
  let host := to_ascii_lowercase (strip_or (strip_suffix ".") host) in
  if bool_decide (host = "") then None else Some host.

(** ** Routing *)

Record Request := {
  r_host : option string;
  r_uri_host : option string;
  r_forwarded_host : option string;
  r_peer : option IpAddr;
  r_path : string;
  r_cookie : option string;
  r_status_host : option string;
}.

Module Allowed.
Inductive Allowed := Page | Asset | Api | No.
#[global] Instance Allowed_eq_dec : EqDecision Allowed.
Proof. solve_decision. Defined.
End Allowed.
Notation Allowed := Allowed.Allowed.

Section host.
Context `{Crates}.

Definition candidate_hosts (r : Request) (trusted : list Net) : list string :=
  option_list (r_host r ≫= host_of) ++ option_list (r_uri_host r ≫= host_of) ++
  (if is_some_and (r_peer r) (trusted_net net_contains trusted)
   then option_list (before_char "," <$> r_forwarded_host r ≫= host_of) else []).

(** The files of the build. *)
Variable embedded : string -> bool.
Definition is_build_asset (path : string) : bool := negb (ends_with ".html" path) && embedded path.

Definition page_paths : list string := [""; "/"; "/embed"; "/confirm"; "/unsubscribe"].
Definition dotted (path : string) : bool :=
  existsb (fun segment => bool_decide (segment = "." \/ segment = "..")) (drop 1 (split "/" path))
  || Text.contains "//" path.

Definition allowed (path slug : string) : option Allowed :=
  if dotted path then Some Allowed.No
  else if bool_decide (path = "/") then Some Allowed.Page
  else match strip_prefix "/s/" path ≫= strip_prefix slug with
       | Some rest => Some (if bool_decide (rest ∈ page_paths) then Allowed.Page else Allowed.No)
       | None =>
           if is_some_and (strip_prefix "/api/public/status/" path ≫= strip_prefix slug)
                (fun rest => bool_decide (rest = "") || starts_with "/" rest) then Some Allowed.Api
           else if starts_with "/_app/" path then Some Allowed.Asset
           else match path with
                | EmptyString => None
                | String _ file =>
                    Some (if negb (contains_char "/" file) && is_build_asset file then Allowed.Asset else Allowed.No)
                end
       end.

(** The rest of the server, and what it answers. *)
Record Response := { rs_status : Z; rs_body : string; rs_set_cookie : option string; rs_status_host : option string }.
Context {State : Type}.
Variable next : Request -> State -> Response * State.

Definition not_found (slug : string) : Response :=
  {| rs_status := 404; rs_body := "Not found."; rs_set_cookie := None; rs_status_host := Some slug |}.

Definition within (slug : string) (r : Request) : Request :=
  {| r_host := r_host r; r_uri_host := r_uri_host r; r_forwarded_host := r_forwarded_host r; r_peer := r_peer r;
     r_path := r_path r; r_cookie := None; r_status_host := Some slug |}.
Definition without_cookie (slug : string) (rs : Response) : Response :=
  {| rs_status := rs_status rs; rs_body := rs_body rs; rs_set_cookie := None; rs_status_host := Some slug |}.

(** [domains] is the map at the time. *)
Definition guard (domains : gmap string string) (trusted : list Net) (r : Request) (s : State) : option (Response * State) :=
  match find_map (fun host => domains !! host) (candidate_hosts r trusted) with
  | None => Some (next r s)
  | Some slug =>
      a ← allowed (r_path r) slug;
      Some (if bool_decide (a = Allowed.No) then (not_found slug, s)
            else let '(rs, s) := next (within slug r) s in (without_cookie slug rs, s))
  end.
End host.

(** ** The cache of the domains

    The requests that fill it and the writes on the pages run at the same time: a system of threads over the
    rows, the counter and the cached map. *)

Inductive Thread :=
| Loading (generation : Z)
| Loaded (generation : Z) (rows : gmap string string)
| Written
| Bumped.

Record System := {
  rows : gmap string string;
  generation : Z;
  cache : option (gmap string string);
  threads : list Thread;
}.
Definition System_new (rows : gmap string string) : System :=
  {| rows := rows; generation := 0; cache := None; threads := [] |}.

(** [domains]: an empty cache makes a thread read the counter, then the rows, which may fail, then fill the cache
    unless the counter has moved; [invalidate], after a write: move the counter, then empty the cache. *)
Inductive step : System -> System -> Prop :=
  | s_load g r ts : step {| rows := r; generation := g; cache := None; threads := ts |}
                         {| rows := r; generation := g; cache := None; threads := Loading g :: ts |}
  | s_read g g0 r c ts1 ts2 :
      step {| rows := r; generation := g; cache := c; threads := ts1 ++ Loading g0 :: ts2 |}
           {| rows := r; generation := g; cache := c; threads := ts1 ++ Loaded g0 r :: ts2 |}
  | s_unread g g0 r c ts1 ts2 :
      step {| rows := r; generation := g; cache := c; threads := ts1 ++ Loading g0 :: ts2 |}
           {| rows := r; generation := g; cache := c; threads := ts1 ++ ts2 |}
  | s_fill g g0 r m c ts1 ts2 :
      step {| rows := r; generation := g; cache := c; threads := ts1 ++ Loaded g0 m :: ts2 |}
           {| rows := r; generation := g; cache := if bool_decide (g = g0) then Some m else c; threads := ts1 ++ ts2 |}
  | s_write g r r' c ts : step {| rows := r; generation := g; cache := c; threads := ts |}
                               {| rows := r'; generation := g; cache := c; threads := Written :: ts |}
  | s_bump g r c ts1 ts2 :
      step {| rows := r; generation := g; cache := c; threads := ts1 ++ Written :: ts2 |}
           {| rows := r; generation := g + 1; cache := c; threads := ts1 ++ Bumped :: ts2 |}
  | s_clear g r c ts1 ts2 :
      step {| rows := r; generation := g; cache := c; threads := ts1 ++ Bumped :: ts2 |}
           {| rows := r; generation := g; cache := None; threads := ts1 ++ ts2 |}.

(** ** Examples *)

Example normalise_ex :
  normalise_domain <$> [" HTTPS://Status.Example.com./ "; "127.0.0.1"; "a"; "a:8080"; " "] =
  [inr (Some "status.example.com"); inl "Use a domain name, not an IP address.";
   inl "Use a full domain name with a dot, like status.example.com.";
   inl "Enter the host name only, like status.example.com: no path, port or user."; inr None]%string.
Proof. vm_compute. reflexivity. Qed.
Example host_of_ex :
  (host_of "Status.Example.com:443", host_of "[::1]:80", host_of "", host_of "a.") =
  (Some "status.example.com", Some "[::1]", None, Some "a")%string.
Proof. vm_compute. reflexivity. Qed.
Example allowed_ex :
  (fun p => allowed (fun f => bool_decide (f = "favicon.svg")) p "ab") <$>
    ["/"; "/s/ab/confirm"; "/s/abc"; "/api/public/status/ab/rss"; "/api/public/status/abc"; "/_app/x.js"; "/favicon.svg";
     "/api/status-pages"; "/s/ab/../x"; ""] =
  [Some Allowed.Page; Some Allowed.Page; Some Allowed.No; Some Allowed.Api; Some Allowed.No; Some Allowed.Asset;
   Some Allowed.Asset; Some Allowed.No; Some Allowed.No; None].
Proof. vm_compute. reflexivity. Qed.
