(* ===== verification/StatusHostFacts.v ===== *)
(** * The public domain of a status page: what it lets through

    On its domain only the page answers; its name is recognised as a browser writes it; the cache never keeps
    a domain a write has changed. *)
From Stdlib Require Import Ascii.
From Stdlib Require String.
From stdpp Require Import relations.
From S2P Require Import Prelude Text RateLimit ApiToken Accounts Auth Guard StatusHost.

Section host.
Context `{Crates}.
Variable embedded : string -> bool.

(** ** What is let through *)

(** The paths of the page [slug], of the files of the build, and no other. *)
Inductive open_path (slug : string) : string -> Allowed -> Prop :=
  | o_root : open_path slug "/" Allowed.Page
  | o_page rest : rest ∈ page_paths -> open_path slug ("/s/" +:+ slug +:+ rest)%string Allowed.Page
  | o_api : open_path slug ("/api/public/status/" +:+ slug)%string Allowed.Api
  | o_api_under rest : open_path slug ("/api/public/status/" +:+ slug +:+ "/" +:+ rest)%string Allowed.Api
  | o_app path : starts_with "/_app/" path = true -> open_path slug path Allowed.Asset
  | o_file slash file : contains_char "/" file = false -> is_build_asset embedded file = true ->
                        open_path slug (String slash file) Allowed.Asset.

Lemma starts_with_slash rest : starts_with "/" rest = true -> exists rest', rest = ("/" +:+ rest')%string.
Proof.
  destruct rest as [|a rest]; simpl; [done|]. intros [<-%bool_decide_eq_true _]%andb_true_iff. by exists rest.
Qed.

Lemma allowed_open path slug a :
  allowed embedded path slug = Some a -> a <> Allowed.No -> dotted path = false /\ open_path slug path a.
Proof.
  unfold allowed. destruct (dotted path) eqn:Ed; [by intros [= <-]|]. intros Ha Hno. split; [done|]. revert Ha.
  case_bool_decide as Hr; [intros [= <-]; subst; constructor|].
  destruct (strip_prefix "/s/" path ≫= strip_prefix slug) as [rest|] eqn:Es.
  { apply bind_Some in Es as (r1 & E1%strip_prefix_Some & E2%strip_prefix_Some). subst.
    case_bool_decide as Hin; intros [= <-]; [by constructor|done]. }
  destruct (strip_prefix "/api/public/status/" path ≫= strip_prefix slug) as [rest|] eqn:Ep.
  - apply bind_Some in Ep as (r1 & E1%strip_prefix_Some & E2%strip_prefix_Some). cbn [is_some_and].
    destruct (bool_decide (rest = "") || starts_with "/" rest) eqn:Er.
    { intros [= <-]. subst path r1. apply orb_true_iff in Er as [->%bool_decide_eq_true|(r2 & ->)%starts_with_slash].
      - rewrite string_app_nil_r. constructor.
      - constructor. }
    destruct (starts_with "/_app/" path) eqn:Eapp; [intros [= <-]; by constructor|].
    destruct path as [|c file]; [done|]. destruct (negb _ && _) eqn:Ef; intros [= <-]; [|done].
    apply andb_true_iff in Ef as [Ef Hb]. apply negb_true_iff in Ef. by constructor.
  - cbn [is_some_and]. destruct (starts_with "/_app/" path) eqn:Eapp; [intros [= <-]; by constructor|].
    destruct path as [|c file]; [done|]. destruct (negb _ && _) eqn:Ef; intros [= <-]; [|done].
    apply andb_true_iff in Ef as [Ef Hb]. apply negb_true_iff in Ef. by constructor.
Qed.

Lemma allowed_panics path slug : allowed embedded path slug = None <-> path = "".
Proof.
  split; [|by intros ->]. unfold allowed. destruct (dotted path); [done|]. case_bool_decide; [done|].
  destruct (strip_prefix "/s/" path ≫= strip_prefix slug); [done|]. destruct (is_some_and _ _); [done|].
  destruct (starts_with "/_app/" path); [done|]. by destruct path.
Qed.

(** The interface of the administrator is not one of them. *)
Lemma administration_is_closed slug path a :
  open_path slug path a -> starts_with "/api/" path = true -> starts_with ("/api/public/status/" +:+ slug) path = true.
Proof.
  intros Ho. destruct Ho as [|rest _| |rest|path Hp|c file Hf _]; intros Hs.
  - done.
  - done.
  - by rewrite <-(string_app_nil_r ("/api/public/status/" +:+ slug)) at 2; apply starts_with_app.
  - replace ("/api/public/status/" +:+ slug +:+ "/" +:+ rest)%string
      with (("/api/public/status/" +:+ slug) +:+ ("/" +:+ rest))%string by apply string_app_assoc.
    apply starts_with_app.
  - destruct path as [|c1 [|c2 path]]; try done. simpl in Hp, Hs. bools. congruence.
  - simpl in Hs. apply andb_true_iff in Hs as [_ Hs]. destruct file as [|c1 [|c2 [|c3 [|c4 file]]]]; try done; simpl in Hs, Hf; bools; try done.
Qed.

Context {State : Type}.
Variable next : Request -> State -> Response * State.

(** C22. Under the domain of a status page only this page answers, whatever else the request says: either the
    answer is not found and the rest of the server has seen nothing, or it has seen a request for a path of
    this page or a file of the build, without its cookie; no cookie leaves.  The first name a request comes
    under decides, so no header a client adds opens anything. *)
Theorem public_domain_shows_only_its_page domains trusted r s host slug out :
  guard embedded next domains trusted r s = Some out ->
  r_host r ≫= host_of = Some host -> domains !! host = Some slug ->
  rs_set_cookie out.1 = None /\
  (out = (not_found slug, s) \/
   exists a, open_path slug (r_path r) a /\ dotted (r_path r) = false /\
     (starts_with "/api/" (r_path r) = true -> starts_with ("/api/public/status/" +:+ slug) (r_path r) = true) /\
     r_cookie (within slug r) = None /\
     out = (without_cookie slug (next (within slug r) s).1, (next (within slug r) s).2)).
Proof.
  unfold guard, candidate_hosts. intros Hg Hh Hd. rewrite Hh in Hg. simpl in Hg. rewrite Hd in Hg. simpl in Hg.
  destruct (allowed embedded (r_path r) slug) as [a|] eqn:Ea; [|done]. cbn [mbind option_bind] in Hg.
  case_bool_decide as Hno; injection Hg as <-; [auto|].
  destruct (next (within slug r) s) as [rs s'] eqn:En. split; [done|]. right. exists a.
  destruct (allowed_open _ _ _ Ea Hno) as [Hdot Ho]. split_and!; try done. by eapply administration_is_closed.
Qed.

End host.

(** ** A registered name is recognised *)

Definition domain_byte (a : ascii) : bool := label_byte a || bool_decide (a = "."%char).

Lemma split_forall (p : ascii -> bool) c s :
  forallb (string_forall p) (split c s) = true -> string_forall (fun a => p a || bool_decide (a = c)) s = true.
Proof.
  induction s as [|a s IH]; simpl; [done|]. destruct (decide (a = c)) as [->|Hne].
  - cbn [forallb string_forall]. rewrite (bool_decide_eq_true_2 (c = c)) by done. rewrite orb_true_r. done.
  - destruct (split c s) as [|f rest]; cbn [forallb string_forall] in *; rewrite ?andb_true_r.
    + intros ->. simpl. by apply IH.
    + intros [[-> Hf]%andb_true_iff Hr]%andb_true_iff. simpl. apply IH. by rewrite Hf, Hr.
Qed.

Lemma split_ended c s : exists f l, split c (s +:+ String c "")%string = f :: l ++ [""%string].
Proof.
  induction s as [|a s (f & l & IH)]; [exists ""%string, []; simpl; by rewrite decide_True|].
  rewrite string_app_cons. cbn [split]. rewrite IH. case_decide; [by exists ""%string, (f :: l)|by exists (String a f), l].
Qed.

Lemma forall_lacks p c s :
  (forall a, p a = true -> a <> c) -> string_forall p s = true -> contains_char c s = false.
Proof.
  intros Hp. induction s as [|a s IH]; simpl; [done|]. intros [Ha Hs]%andb_true_iff.
  rewrite bool_decide_eq_false_2 by auto. by apply IH.
Qed.

Lemma split_once_lacks c s : contains_char c s = false -> split_once c s = None.
Proof.
  induction s as [|a s IH]; simpl; [done|]. intros [Ha Hs]%orb_false_iff. bools. rewrite decide_False by done.
  by rewrite IH.
Qed.

(** What is stored: lower-case names of the bytes of a domain, which no dot ends. *)
Lemma normalise_stored raw d :
  normalise_domain raw = inr (Some d) ->
  d <> ""%string /\ string_forall domain_byte d = true /\ forall r, d <> (r +:+ ".")%string.
Proof.
  unfold normalise_domain. set (value := strip_or (strip_suffix ".") _). generalize value. clear. intros v.
  case_bool_decide as Hv; [done|]. destruct (negb (is_ascii_text v)); [done|]. destruct (_ || has_whitespace v); [done|].
  destruct (MAX_DOMAIN_LEN <? _); [done|]. destruct (length _ <? 2)%nat; [done|].
  destruct (forallb valid_label (split "." v)) eqn:El; [|done]. simpl. destruct (is_some_and _ _); [done|].
  intros [= <-]. split; [done|]. split.
  - apply (split_forall label_byte). rewrite forallb_forall in El. apply forallb_forall. intros l Hl.
    specialize (El l Hl). unfold valid_label in El. by destruct (string_forall label_byte l); rewrite ?orb_true_r in El.
  - intros r ->. rewrite forallb_forall in El.
    assert (In ""%string (split "." (r +:+ "."))) as Hin.
    { destruct (split_ended "." r) as (f & l & ->). right. apply in_or_app. right. by left. }
    by apply El in Hin.
Qed.

Lemma domain_bytes a : domain_byte (ascii_lower a) = true -> graphic a = true /\ a <> ":"%char /\ a <> "["%char.
Proof. destruct a as [[] [] [] [] [] [] [] []]; vm_compute; intros; (discriminate || (split; [done|split; discriminate])). Qed.

Lemma any_case_graphic host d :
  to_ascii_lowercase host = d -> string_forall domain_byte d = true ->
  string_forall graphic host = true /\ contains_char ":" host = false /\ contains_char "[" host = false.
Proof.
  intros <-. unfold to_ascii_lowercase. rewrite string_forall_map. intros Hb. split_and!.
  - revert Hb. apply string_forall_impl. intros a Ha. by apply domain_bytes.
  - revert Hb. apply forall_lacks. intros a Ha. by apply domain_bytes.
  - revert Hb. apply forall_lacks. intros a Ha. by apply domain_bytes.
Qed.

(** The port of a [Host] field. *)
Inductive port_text : string -> Prop :=
  | no_port : port_text ""
  | a_port digits : string_forall graphic digits = true -> port_text (":" +:+ digits)%string.

Lemma before_port host port : contains_char ":" host = false -> port_text port -> before_char ":" (host +:+ port) = host.
Proof.
  intros Hc [|digits _]; unfold before_char.
  - by rewrite string_app_nil_r, split_once_lacks.
  - change (":" +:+ digits)%string with (String ":" digits). by rewrite split_once_app.
Qed.

Lemma host_of_plain host dot port d :
  to_ascii_lowercase host = d -> d <> ""%string -> string_forall domain_byte d = true ->
  (forall r, d <> (r +:+ ".")%string) -> dot = ""%string \/ dot = "."%string -> port_text port ->
  host_of (host +:+ dot +:+ port) = Some d.
Proof.
  intros Hl Hne Hb Hdot Hd Hp. destruct (any_case_graphic host d Hl Hb) as (Hv & Hc & Hbr).
  assert (string_forall graphic dot = true /\ contains_char ":" (host +:+ dot) = false) as [Hvd Hcd].
  { destruct Hd as [-> | ->]; [by rewrite string_app_nil_r|]. split; [done|]. clear -Hc.
    induction host as [|a s IH]; [done|]. rewrite string_app_cons. simpl in *. bools. rewrite IH by done.
    by rewrite bool_decide_eq_false_2. }
  assert (string_forall graphic port = true) as Hvp by by destruct Hp.
  assert (string_forall graphic (host +:+ dot +:+ port) = true) as Hv'.
  { rewrite !string_forall_app. by rewrite Hv, Hvd, Hvp. }
  unfold host_of. rewrite trim_graphic by done.
  rewrite <-string_app_assoc.
  assert (strip_prefix "[" ((host +:+ dot) +:+ port) = None) as ->.
  { destruct host as [|a s]; [by subst d|]. rewrite !string_app_cons. cbn [strip_prefix].
    simpl in Hbr. apply orb_false_iff in Hbr as [Hbr _]. bools. by rewrite decide_False. }
  rewrite before_port by done.
  assert (strip_or (strip_suffix ".") (host +:+ dot) = host) as ->.
  { unfold strip_or. destruct Hd as [-> | ->].
    - rewrite string_app_nil_r. destruct (strip_suffix "." host) as [r|] eqn:E; [|done].
      apply strip_suffix_Some in E as ->. exfalso. apply (Hdot (to_ascii_lowercase r)). rewrite <-Hl.
      apply string_map_app.
    - by rewrite (proj2 (strip_suffix_Some "." _ host) eq_refl). }
  rewrite Hl. by rewrite bool_decide_eq_false_2.
Qed.

(** The domain the administrator registers is the one the server recognises: what normalisation stores is
    found again in the [Host] of a request, however the visitor's program writes it, in any case, with the
    trailing dot of an absolute name or a port. *)
Theorem registered_domain_is_recognised raw d host dot port :
  normalise_domain raw = inr (Some d) ->
  to_ascii_lowercase host = d -> dot = ""%string \/ dot = "."%string -> port_text port ->
  host_of (host +:+ dot +:+ port) = Some d.
Proof. intros (Hne & Hb & Hdot)%normalise_stored Hl Hd Hp. by apply host_of_plain. Qed.

Lemma registered_domain_is_recognised_witness :
  host_of ("STATUS.example.COM" +:+ "." +:+ (":" +:+ "8443")) = Some "status.example.com"%string.
Proof.
  apply (registered_domain_is_recognised "https://Status.example.com/" "status.example.com" "STATUS.example.COM" "." (":" +:+ "8443"));
    [vm_compute; reflexivity|vm_compute; reflexivity|right; reflexivity|constructor; vm_compute; reflexivity].
Defined.

(** ** The cache *)

Definition changing (ts : list Thread) : Prop := Written ∈ ts \/ Bumped ∈ ts.

(** What was read under the present count is current unless a write has not counted itself yet; what is cached is
    current unless a write has not emptied the cache yet. *)
Record cache_ok (s : System) : Prop := {
  ok_past g : Loading g ∈ threads s -> g <= generation s;
  ok_read g m : Loaded g m ∈ threads s ->
    g <= generation s /\ (g = generation s -> m = rows s \/ Written ∈ threads s);
  ok_cache m : cache s = Some m -> m = rows s \/ changing (threads s);
}.

Lemma new_ok r : cache_ok (System_new r).
Proof. by split; [intros ? ?%elem_of_nil|intros ? ? ?%elem_of_nil|]. Qed.

Lemma still_written ts1 t ts2 : t <> Written -> Written ∈ ts1 ++ t :: ts2 -> Written ∈ ts1 ++ ts2.
Proof. set_solver. Qed.
Lemma still_changing ts1 t ts2 : t <> Written -> t <> Bumped -> changing (ts1 ++ t :: ts2) -> changing (ts1 ++ ts2).
Proof. unfold changing. set_solver. Qed.

Lemma cache_step_ok s s' : step s s' -> cache_ok s -> cache_ok s'.
Proof.
  intros Hs [Hp Hr Hc]. destruct Hs; split; cbn [rows generation cache threads] in *.
  - intros g' [[= ->]|Hg]%elem_of_cons; [lia|auto].
  - intros g' m [|Hg]%elem_of_cons; [done|]. destruct (Hr _ _ Hg) as [? Hm]. split; [done|]. set_solver.
  - done.
  - intros g' Hg. apply Hp. set_solver.
  - intros g' m Hg. assert (Loaded g' m = Loaded g0 r \/ Loaded g' m ∈ ts1 ++ Loading g0 :: ts2) as [[= -> ->]|Ho] by set_solver.
    + split; [apply Hp; set_solver|by left].
    + destruct (Hr _ _ Ho) as [? Hm]. split; [done|]. intros He. destruct (Hm He) as [|Hw]; [by left|]. right. set_solver.
  - intros m Hm. destruct (Hc m Hm) as [|[Hw|Hw]]; [by left| |]; right; [left|right]; set_solver.
  - intros g' Hg. apply Hp. set_solver.
  - intros g' m Hg. destruct (Hr g' m) as [? Hm]; [set_solver|]. split; [done|]. intros He.
    destruct (Hm He) as [|Hw]; [by left|]. right. by eapply still_written, Hw.
  - intros m Hm. destruct (Hc m Hm) as [|Hw]; [by left|]. right. by eapply still_changing, Hw.
  - intros g' Hg. apply Hp. set_solver.
  - intros g' m' Hg. destruct (Hr g' m') as [? Hm]; [set_solver|]. split; [done|]. intros He.
    destruct (Hm He) as [|Hw]; [by left|]. right. by eapply still_written, Hw.
  - intros m' Hm. case_bool_decide as He.
    + injection Hm as <-. destruct (Hr g0 m) as [_ Hx]; [set_solver|]. destruct (Hx (eq_sym He)) as [|Hw]; [by left|].
      right. left. by eapply still_written, Hw.
    + destruct (Hc m' Hm) as [|Hw]; [by left|]. right. by eapply still_changing, Hw.
  - set_solver.
  - intros g' m Hg. destruct (Hr g' m) as [? Hm]; [set_solver|]. split; [done|]. intros _. right. by left.
  - intros m Hm. right. left. by left.
  - intros g' Hg. assert (g' <= g); [apply Hp; set_solver|lia].
  - intros g' m Hg. destruct (Hr g' m) as [? Hm]; [set_solver|]. split; [lia|lia].
  - intros m Hm. right. right. set_solver.
  - intros g' Hg. apply Hp. set_solver.
  - intros g' m Hg. destruct (Hr g' m) as [? Hm]; [set_solver|]. split; [done|]. intros He.
    destruct (Hm He) as [|Hw]; [by left|]. right. by eapply still_written, Hw.
  - done.
Qed.

Lemma reachable_ok s s' : rtc step s s' -> cache_ok s -> cache_ok s'.
Proof. induction 1; eauto using cache_step_ok. Qed.

(** Whatever the order in which the requests that fill the cache and the writes on the pages take their steps, a
    cache filled when no write is under way holds the domains of the database: a list read before a write never
    stays after it. *)
Theorem domain_cache_is_current r s m :
  rtc step (System_new r) s -> ~ changing (threads s) -> cache s = Some m -> m = rows s.
Proof.
  intros Hs Hq Hm. destruct (ok_cache s (reachable_ok _ _ Hs (new_ok r)) m Hm) as [|Hw]; [done|]. by destruct Hq.
Qed.

(** A list read before a write, which comes back after it, and the one that replaces it. *)
Definition old_rows : gmap string string := {["status.example.com" := "shop"]}.
Definition new_rows : gmap string string := {["status.example.com" := "shop"; "status.example.org" := "club"]}.
Definition refilled : System := {| rows := new_rows; generation := 1; cache := Some new_rows; threads := [] |}.

Lemma a_refill : rtc step (System_new old_rows) refilled.
Proof.
  eapply rtc_l; [apply s_load|].
  eapply rtc_l; [apply (s_read _ _ _ _ [] [])|].
  eapply rtc_l; [apply (s_write _ _ new_rows)|].
  eapply rtc_l; [apply (s_bump _ _ _ [])|].
  eapply rtc_l; [apply (s_clear _ _ _ [])|].
  eapply rtc_l; [apply (s_fill _ _ _ _ _ [] [])|]. rewrite bool_decide_eq_false_2 by done.
  eapply rtc_l; [apply s_load|].
  eapply rtc_l; [apply (s_read _ _ _ _ [] [])|].
  apply rtc_once, (s_fill 1 1 new_rows new_rows None [] []).
Qed.

Lemma domain_cache_is_current_witness : cache refilled = Some new_rows /\ new_rows = rows refilled.
Proof.
  split; [reflexivity|]. apply (domain_cache_is_current old_rows refilled new_rows a_refill); [|reflexivity].
  intros [H|H]; inversion H.
Defined.

(** A request for the interface of the administrator under a public name, and one for the page. *)
Section example.
#[local] Existing Instance plain_crates.
Definition asks (path : string) : Request :=
  {| r_host := Some "Status.example.org:443"; r_uri_host := None; r_forwarded_host := Some "monit.example.org"; r_peer := None;
     r_path := path; r_cookie := Some "dm_session=1"; r_status_host := None |}.
Definition counting (r : Request) (n : nat) : Response * nat :=
  ({| rs_status := 200; rs_body := r_path r; rs_set_cookie := Some "dm_session=2"; rs_status_host := None |}, S n).

Lemma public_domain_shows_only_its_page_witness :
  let answer path := guard (fun _ => false) counting new_rows [] (asks path) 0%nat in
  answer "/api/targets" = Some (not_found "club", 0%nat) /\
  rs_set_cookie (without_cookie "club" (counting (within "club" (asks "/s/club")) 0%nat).1) = None.
Proof.
  intros answer. split; [vm_compute; reflexivity|].
  exact (proj1 (public_domain_shows_only_its_page (fun _ => false) counting new_rows [] (asks "/s/club") 0%nat
           "status.example.org" "club"
           (without_cookie "club" (counting (within "club" (asks "/s/club")) 0%nat).1, 1%nat)
           ltac:(vm_compute; reflexivity) ltac:(vm_compute; reflexivity) ltac:(vm_compute; reflexivity))).
Defined.
End example.
