(* ===== verification/StatusPages.v ===== *)
(** * Status pages: what the administrator keeps ([api/status_pages.rs], [db/status_pages.rs])

    The pages, the services they show, the incidents and maintenance windows announced on them, and the
    addresses that receive the announcements.

    An instant of the database is its number of seconds: what [strftime('%Y-%m-%dT%H:%M:%SZ')] and
    [format_timestamp] write.  A request reads the clock once.  The parameters are what a date written by the
    administrator stands for (crate [chrono]), the parts of an address of a site (crate [url]), and which of two
    violated constraints SQLite names. *)
From Stdlib Require Import Ascii.
From Stdlib Require String.
From S2P Require Import Prelude Text Chrono NotifyPolicy RateLimit ApiToken Accounts Auth Handler Html Site StatusHost.

Definition MAX_TITLE_LEN : nat := 120.
Definition MAX_DESCRIPTION_LEN : nat := 1000.
Definition MAX_LABEL_LEN : nat := 80.
Definition MAX_GROUP_LEN : nat := 60.
Definition MAX_INCIDENT_TITLE_LEN : nat := 160.
Definition MAX_BODY_LEN : nat := 4000.
Definition MAX_ITEMS : nat := 200.
Definition MIN_HISTORY_DAYS : Z := 7.
Definition MAX_HISTORY_DAYS : Z := 90.
Definition MAX_FOOTER_LEN : nat := 280.
Definition MAX_URL_LEN : Z := 300.

Definition THEMES : list string := ["auto"; "light"; "dark"].
Definition ACCENTS : list string := ["default"; "blue"; "teal"; "violet"; "rose"; "amber"].
Definition INCIDENT_STATUSES : list string := ["investigating"; "identified"; "monitoring"; "resolved"].
Definition MAINTENANCE_STATUSES : list string := ["scheduled"; "in_progress"; "completed"].
Definition SEVERITIES : list string := ["minor"; "major"].

Definition DEFAULT_SCENE : string := "paris".
Definition SCENES : list string :=
  ["venice"; "paris"; "tokyo"; "newyork"; "london"; "rome"; "sydney"; "dubai"; "sanfrancisco"; "barcelona";
   "amsterdam"; "istanbul"; "rio"; "chichenitza"; "machupicchu"; "greatwall"; "petra"; "tajmahal"; "giza";
   "babylon"; "artemis"; "zeus"; "halicarnassus"; "rhodes"; "alexandria"; "athens"].
Definition SCENE_ROTATIONS : list string := ["visit"; "1m"; "10m"; "1h"].
Definition split_scenes (csv : string) : list string :=
  filter (fun s => s <> ""%string) (trim <$> split "," csv).

(** ** Tables ([db/status_pages.rs]) *)

Record StatusPageInput := {
  i_slug : string;
  i_title : string;
  i_description : string;
  i_published : bool;
  i_theme : string;
  i_show_uptime_days : Z;
  i_accent : string;
  i_scenes : string;
  i_scene_rotation : string;
  i_simple : bool;
  i_footer_text : string;
  i_homepage_url : string;
  i_subscribe_channel_id : option Z;
  i_link_origin : string;
  i_domain : option string;
}.

(** A page is what an administrator wrote of it, and the columns the server writes. *)
Record StatusPage := {
  pg : StatusPageInput;
  pg_created_at : Z;
  pg_updated_at : Z;
  pg_logo_type : option string;
}.

Record PageItemInput := { ii_target_id : Z; ii_label : string; ii_group_name : string }.
Record PageItem := { it_id : Z; it_page_id : Z; it : PageItemInput; it_position : Z }.

Record IncidentInput := {
  n_page_id : option Z;
  n_title : string;
  n_kind : string;
  n_status : string;
  n_severity : string;
  n_starts_at : Z;
  n_ends_at : option Z;
}.
Record Incident := { inc : IncidentInput; inc_created_at : Z; inc_updated_at : Z }.
Record IncidentUpdate := { up_id : Z; up_incident_id : Z; up_status : string; up_body : string; up_created_at : Z }.

Record Subscriber := {
  sb_page_id : Z;
  sb_email : string;
  sb_token : string;
  sb_confirmed_at : option Z;
  sb_created_at : Z;
}.

(** Rows under their numbers, which are never used twice. *)
Record Table (R : Type) := { t_last : Z; t_rows : gmap Z R }.
Arguments t_last {R} _.
Arguments t_rows {R} _.
Definition Table_new {R} : Table R := Build_Table R 0 ∅.
Definition insert_row {R} (r : R) (t : Table R) : Table R * Z :=
  let id := t_last t + 1 in (Build_Table R id (<[id := r]> (t_rows t)), id).
Definition on_rows {R} (f : gmap Z R -> gmap Z R) (t : Table R) : Table R := Build_Table R (t_last t) (f (t_rows t)).

Record Tables := {
  pages : Table StatusPage;
  page_items : Table PageItem;
  incidents : Table Incident;
  incident_updates : Table IncidentUpdate;
  subscribers : Table Subscriber;
}.
Definition Tables_new : Tables :=
  {| pages := Table_new; page_items := Table_new; incidents := Table_new; incident_updates := Table_new;
     subscribers := Table_new |}.
Definition with_pages (f : Table StatusPage -> Table StatusPage) (d : Tables) : Tables :=
  Build_Tables (f (pages d)) (page_items d) (incidents d) (incident_updates d) (subscribers d).
Definition with_items (f : Table PageItem -> Table PageItem) (d : Tables) : Tables :=
  Build_Tables (pages d) (f (page_items d)) (incidents d) (incident_updates d) (subscribers d).
Definition with_incidents (f : Table Incident -> Table Incident) (d : Tables) : Tables :=
  Build_Tables (pages d) (page_items d) (f (incidents d)) (incident_updates d) (subscribers d).
Definition with_updates (f : Table IncidentUpdate -> Table IncidentUpdate) (d : Tables) : Tables :=
  Build_Tables (pages d) (page_items d) (incidents d) (f (incident_updates d)) (subscribers d).
Definition with_subscribers (f : Table Subscriber -> Table Subscriber) (d : Tables) : Tables :=
  Build_Tables (pages d) (page_items d) (incidents d) (incident_updates d) (f (subscribers d)).

(** Rows of a table in the order of a query. *)
Definition select {R} (keep : R -> bool) (t : Table R) : list (Z * R) :=
  filter (fun kr => keep kr.2 = true) (sort_by (cmp_on fst Z.compare) (map_to_list (t_rows t))).

(** *** Pages *)

Definition page_cmp : Z * StatusPage -> Z * StatusPage -> comparison :=
  fun a b => then_with (string_cmp (i_title (pg a.2)) (i_title (pg b.2))) (Z.compare a.1 b.1).
Definition list_pages (d : Tables) : list (Z * StatusPage) := sort_by page_cmp (map_to_list (t_rows (pages d))).
Definition get_page (id : Z) (d : Tables) : option StatusPage := t_rows (pages d) !! id.
Definition get_page_by_slug (slug : string) (d : Tables) : option (Z * StatusPage) :=
  head (select (fun p => bool_decide (i_slug (pg p) = slug)) (pages d)).

(** The slug and the domain are unique. *)
Definition other_has (id : option Z) (p : StatusPage -> Prop) `{forall x, base.Decision (p x)} (d : Tables) : bool :=
  bool_decide (map_Exists (fun k r => Some k <> id /\ p r) (t_rows (pages d))).
Definition slug_taken (id : option Z) (input : StatusPageInput) : Tables -> bool :=
  other_has id (fun r => i_slug (pg r) = i_slug input).
Definition domain_taken (id : option Z) (input : StatusPageInput) : Tables -> bool :=
  other_has id (fun r => is_Some (i_domain input) /\ i_domain (pg r) = i_domain input).

Definition slug_conflict : ApiError := ApiError.Conflict "Another page already uses this slug.".
Definition domain_conflict : ApiError := ApiError.Conflict "Another page already uses this domain.".
(** The constraint a write violates, as [duplicate_slug_to_conflict] says it. *)
Definition duplicate (slug_named_first : bool) (id : option Z) (input : StatusPageInput) (d : Tables) : option ApiError :=
  match slug_taken id input d, domain_taken id input d with
  | false, false => None
  | true, false => Some slug_conflict
  | false, true => Some domain_conflict
  | true, true => Some (if slug_named_first then slug_conflict else domain_conflict)
  end.

Definition insert_page (now : Z) (input : StatusPageInput) (d : Tables) : Tables * Z :=
  let '(t, id) := insert_row {| pg := input; pg_created_at := now; pg_updated_at := now; pg_logo_type := None |} (pages d) in
  (with_pages (fun _ => t) d, id).
Definition written (now : Z) (input : StatusPageInput) (p : StatusPage) : StatusPage :=
  {| pg := input; pg_created_at := pg_created_at p; pg_updated_at := now; pg_logo_type := pg_logo_type p |}.
Definition touched (now : Z) (p : StatusPage) : StatusPage := written now (pg p) p.
Definition has_page (id : Z) (d : Tables) : bool := bool_decide (is_Some (get_page id d)).
Definition write_page (now id : Z) (input : StatusPageInput) (d : Tables) : Tables * bool :=
  (with_pages (on_rows (alter (written now input) id)) d, has_page id d).
Definition list_domains (d : Tables) : list (string * string) :=
  omap (fun kp => dom ← i_domain (pg kp.2); Some (dom, i_slug (pg kp.2))) (map_to_list (t_rows (pages d))).
Definition touch_page (now id : Z) : Tables -> Tables := with_pages (on_rows (alter (touched now) id)).

(** [ON DELETE CASCADE] of a page: its services, its announcements with their messages, its subscribers. *)
Definition of_page (id : Z) (i : Incident) : bool := bool_decide (n_page_id (inc i) = Some id).
Definition forget_incidents (gone : Incident -> bool) (d : Tables) : Tables :=
  let d' := with_incidents (on_rows (filter (fun kr => gone kr.2 = false))) d in
  with_updates (on_rows (filter (fun kr => is_Some (t_rows (incidents d') !! up_incident_id kr.2)))) d'.
Definition erase_page (id : Z) (d : Tables) : Tables * bool :=
  let d' := with_pages (on_rows (base.delete id)) d in
  let d' := with_items (on_rows (filter (fun kr => it_page_id kr.2 <> id))) d' in
  let d' := with_subscribers (on_rows (filter (fun kr => sb_page_id kr.2 <> id))) d' in
  if has_page id d then (forget_incidents (of_page id) d', true) else (d, false).

(** *** Services of a page *)

Definition item_cmp : Z * PageItem -> Z * PageItem -> comparison :=
  fun a b => then_with (Z.compare (it_position a.2) (it_position b.2)) (Z.compare a.1 b.1).
Definition list_items (page : Z) (d : Tables) : list (Z * PageItem) :=
  sort_by item_cmp (select (fun i => it_page_id i =? page) (page_items d)).

(** A block that replaces the services of the page; a device listed twice breaks the constraint and leaves the
    transaction without effect, as a device or a page that is not there. *)
Definition insert_item (page : Z) (t : Table PageItem) (k : Z) (input : PageItemInput) : Table PageItem :=
  (insert_row {| it_id := t_last t + 1; it_page_id := page; it := input; it_position := k |} t).1.
Fixpoint insert_items (page : Z) (t : Table PageItem) (k : Z) (inputs : list PageItemInput) : Table PageItem :=
  match inputs with [] => t | i :: inputs => insert_items page (insert_item page t k i) (k + 1) inputs end.
Definition store_items (now page : Z) (devices : gmap Z string) (inputs : list PageItemInput) (d : Tables) : option Tables :=
  if has_page page d && bool_decide (NoDup (ii_target_id <$> inputs))
     && forallb (fun i => bool_decide (is_Some (devices !! ii_target_id i))) inputs then
    let d := with_items (on_rows (filter (fun kr => it_page_id kr.2 <> page))) d in
    Some (touch_page now page (with_items (fun t => insert_items page t 0 inputs) d))
  else None.

(** *** Incidents *)

Definition incident_cmp : Z * Incident -> Z * Incident -> comparison :=
  fun a b => then_with (Z.compare (n_starts_at (inc b.2)) (n_starts_at (inc a.2))) (Z.compare b.1 a.1).
Definition list_incidents (d : Tables) : list (Z * Incident) := sort_by incident_cmp (map_to_list (t_rows (incidents d))).
Definition incidents_for_page (page since : Z) (d : Tables) : list (Z * Incident) :=
  sort_by incident_cmp (select (fun i => (bool_decide (n_page_id (inc i) = None) || of_page page i)
    && (negb (is_some_and (n_ends_at (inc i)) (fun e => e <? since)) || (since <=? n_starts_at (inc i)))) (incidents d)).
Definition get_incident (id : Z) (d : Tables) : option Incident := t_rows (incidents d) !! id.

(** [None]: the page is not there. *)
Definition insert_incident (now : Z) (input : IncidentInput) (d : Tables) : option (Tables * Z) :=
  if is_some_and (n_page_id input) (fun page => negb (has_page page d)) then None
  else let '(t, id) := insert_row {| inc := input; inc_created_at := now; inc_updated_at := now |} (incidents d) in
       let d := with_incidents (fun _ => t) d in
       Some (match n_page_id input with Some page => touch_page now page d | None => d end, id).
Definition rewritten (now : Z) (input : IncidentInput) (i : Incident) : Incident :=
  {| inc := input; inc_created_at := inc_created_at i; inc_updated_at := now |}.
Definition write_incident (now id : Z) (input : IncidentInput) (d : Tables) : option (Tables * bool) :=
  let found := bool_decide (is_Some (get_incident id d)) in
  if found && is_some_and (n_page_id input) (fun page => negb (has_page page d)) then None
  else Some (with_incidents (on_rows (alter (rewritten now input) id)) d, found).
Definition erase_incident (id : Z) (d : Tables) : Tables * bool :=
  let d' := with_incidents (on_rows (base.delete id)) d in
  (with_updates (on_rows (filter (fun kr => up_incident_id kr.2 <> id))) d', bool_decide (is_Some (get_incident id d))).

Definition list_updates_ (incident : Z) (d : Tables) : list IncidentUpdate :=
  snd <$> select (fun u => up_incident_id u =? incident) (incident_updates d).
Definition list_updates_for (ids : list Z) (d : Tables) : list IncidentUpdate := ids ≫= fun id => list_updates_ id d.

(** A message, with the status it gives its incident and the end it may set. *)
Definition with_status (status : string) (end_ : option Z) (n : IncidentInput) : IncidentInput :=
  Build_IncidentInput (n_page_id n) (n_title n) (n_kind n) status (n_severity n) (n_starts_at n) end_.
Definition advanced (now : Z) (status : string) (closes : bool) (i : Incident) : Incident :=
  let end_ := n_ends_at (inc i) in
  rewritten now (with_status status (if closes then Some (end_ ?? now) else end_) (inc i)) i.
Definition store_update (now id : Z) (status body : string) (closes : bool) (d : Tables) : option Tables :=
  if bool_decide (is_Some (get_incident id d)) then
    let t := incident_updates d in
    let row := {| up_id := t_last t + 1; up_incident_id := id; up_status := status; up_body := body; up_created_at := now |} in
    Some (with_incidents (on_rows (alter (advanced now status closes) id)) (with_updates (fun t => (insert_row row t).1) d))
  else None.

(** *** Logo *)

Definition with_logo (now : Z) (kind : option string) (p : StatusPage) : StatusPage :=
  {| pg := pg p; pg_created_at := pg_created_at p; pg_updated_at := now; pg_logo_type := kind |}.
Definition set_logo_type (now id : Z) (kind : option string) : Tables -> Tables :=
  with_pages (on_rows (alter (with_logo now kind) id)).

(** *** Subscribers *)

Definition confirmed_subscribers (page : Z) (d : Tables) : list (Z * Subscriber) :=
  select (fun s => (sb_page_id s =? page) && is_some_and (sb_confirmed_at s) (fun _ => true)) (subscribers d).
Definition count_subscribers (page : Z) (d : Tables) : Z :=
  Z.of_nat (length (select (fun s => sb_page_id s =? page) (subscribers d))).
Definition find_subscriber (page : Z) (email : string) (d : Tables) : option (Z * Subscriber) :=
  head (select (fun s => (sb_page_id s =? page) && bool_decide (sb_email s = email)) (subscribers d)).
Definition subscriber_by_token (page : Z) (token : string) (d : Tables) : option (Z * Subscriber) :=
  head (select (fun s => (sb_page_id s =? page) && bool_decide (sb_token s = token)) (subscribers d)).

(** A token is unique: [None] when another row has it. *)
Definition asked_again (now : Z) (token : string) (s : Subscriber) : Subscriber :=
  Build_Subscriber (sb_page_id s) (sb_email s) token (sb_confirmed_at s) now.
Definition token_taken (id : option Z) (token : string) (d : Tables) : bool :=
  bool_decide (map_Exists (fun k s => Some k <> id /\ sb_token s = token) (t_rows (subscribers d))).
Definition upsert_pending_subscriber (now page : Z) (email token : string) (d : Tables) : option Tables :=
  match find_subscriber page email d with
  | Some (id, s) =>
      match sb_confirmed_at s with
      | Some _ => Some d
      | None => if token_taken (Some id) token d then None
                else Some (with_subscribers (on_rows <[id := asked_again now token s]>) d)
      end
  | None =>
      if token_taken None token d then None
      else Some (with_subscribers (fun t => (insert_row {| sb_page_id := page; sb_email := email; sb_token := token;
                                             sb_confirmed_at := None; sb_created_at := now |} t).1) d)
  end.
Definition confirmed (now : Z) (s : Subscriber) : Subscriber :=
  Build_Subscriber (sb_page_id s) (sb_email s) (sb_token s) (Some (sb_confirmed_at s ?? now)) (sb_created_at s).
Definition confirm_subscriber (now id : Z) : Tables -> Tables := with_subscribers (on_rows (alter (confirmed now) id)).
Definition delete_subscriber (page id : Z) (d : Tables) : Tables * bool :=
  let ours kr := (kr : Z * Subscriber).1 = id /\ sb_page_id kr.2 = page in
  (with_subscribers (on_rows (filter (fun kr => ~ ours kr))) d,
   is_some_and (t_rows (subscribers d) !! id) (fun s => sb_page_id s =? page)).
Definition stale (before : Z) (s : Subscriber) : Prop := sb_confirmed_at s = None /\ sb_created_at s < before.
#[global] Instance stale_dec before s : base.Decision (stale before s).
Proof. unfold stale. apply _. Defined.
Definition purge_unconfirmed (before : Z) : Tables -> Tables :=
  with_subscribers (on_rows (filter (fun kr => ~ stale before kr.2))).

(** ** What a page accepts ([api/status_pages.rs]) *)

Definition is_valid_slug (slug : string) : bool :=
  let len := Z.of_nat (String.length slug) in
  (2 <=? len) && (len <=? 40) && string_forall label_byte slug.

(** The text made so far and whether a dash is due. *)
Definition slug_step (st : string * bool) (ch : ascii) : string * bool :=
  let '(slug, pending_dash) := st in
  let ch := ascii_lower ch in
  if is_ascii_lower ch || is_ascii_digit ch then
    ((slug +:+ (if pending_dash && negb (bool_decide (slug = "")) then "-" else "") +:+ String ch "")%string, false)
  else (slug, true).
Definition slugify (title : string) : string :=
  let slug := (foldl slug_step (""%string, false) (Stdlib.Strings.String.list_ascii_of_string title)).1 in
  trim_end_matches "-"%char (Stdlib.Strings.String.substring 0 40 slug).

Definition bad {A} (why : string) : ApiError + A := inl (ApiError.BadRequest why).
Definition limited (what : string) (n : nat) : string :=
  (what +:+ " limited to " +:+ display_i64 (Z.of_nat n) +:+ " characters.")%string.
Definition one_of (values : list string) : string := String.concat ", " values.

Fixpoint check_scenes (before : list string) (scenes : list string) : option string :=
  match scenes with
  | [] => None
  | scene :: scenes =>
      if negb (bool_decide (scene ∈ SCENES)) then
        Some ("Unknown scene " +:+ quoted_ scene +:+ " (expected: " +:+ one_of SCENES +:+ ").")%string
      else if bool_decide (scene ∈ before) then Some ("The scene " +:+ quoted_ scene +:+ " is listed twice.")%string
      else check_scenes (before ++ [scene]) scenes
  end.
Definition validate_scenes (scenes : list string) : ApiError + string :=
  if (length SCENES <? length scenes)%nat then
    bad ("A page shows at most " +:+ display_i64 (Z.of_nat (length SCENES)) +:+ " scenes.")%string
  else match check_scenes [] scenes with Some why => bad why | None => inr (String.concat "," scenes) end.

(** A value of a JSON object; a number is one that fits an [i64]. *)
Inductive Value := Null | Number (z : Z) | Text_ (s : string) | Other.

(** A member of the object a client sends: serde reads [null] as an absent option, unless the field says to keep
    it. *)
Inductive Member := Absent | Present (v : Value).
Definition optional (m : Member) : option Value := match m with Absent | Present Null => None | Present v => Some v end.
Definition present (m : Member) : option Value := match m with Absent => None | Present v => Some v end.

Record StatusPagePayload := {
  p_title : string;
  p_slug : option string;
  p_description : option string;
  p_published : option bool;
  p_theme : option string;
  p_show_uptime_days : option Z;
  p_accent : option string;
  p_scenes : option (list string);
  p_scene_rotation : option string;
  p_simple : option bool;
  p_footer_text : option string;
  p_homepage_url : option string;
  p_subscribe_channel_id : option Value;
  p_domain : option Value;
}.

(** The text of an optional member, if it holds any. *)
Definition filled (o : option string) : option string :=
  s ← trim <$> o; if bool_decide (s = ""%string) then None else Some s.

(** What a request finds besides these tables: the clock, the channels, the devices and the settings. *)
Record Around := {
  a_now : DateTime;
  a_channels : Z -> option Recipient;
  a_devices : gmap Z string;
  a_global : option GlobalPolicy;
  a_public_url : option string;
}.
Definition public_url_of (a : Around) : option string := g ← a_global a; public_url g (a_public_url a).
(** An instant as the database writes it. *)
Definition format_timestamp (t : DateTime) : Z := t / ns_per_s.
Definition parse_stored (t : Z) : DateTime := t * ns_per_s.
Definition now_of (a : Around) : Z := format_timestamp (a_now a).

Record State := {
  tables : Tables;
  (** How often the caches of the public side were emptied. *)
  emptied : Z;
  (** Announcements under way, the last one first. *)
  announcements : list (Z * Incident * option string);
  (** The files of the logos, under their pages. *)
  logos : gmap Z (list Z);
}.
Definition State_new : State := {| tables := Tables_new; emptied := 0; announcements := []; logos := ∅ |}.
Definition with_tables (f : Tables -> Tables) (s : State) : State :=
  Build_State (f (tables s)) (emptied s) (announcements s) (logos s).
Definition invalidate_cache (s : State) : State := Build_State (tables s) (emptied s + 1) (announcements s) (logos s).
Definition announce (id : Z) (i : Incident) (message : option string) (s : State) : State :=
  Build_State (tables s) (emptied s) ((id, i, message) :: announcements s) (logos s).
Definition with_logos (f : gmap Z (list Z) -> gmap Z (list Z)) (s : State) : State :=
  Build_State (tables s) (emptied s) (announcements s) (f (logos s)).

Notation H := (Handler State ApiError).
Definition result {S A} (r : ApiError + A) : Handler S ApiError A := fun s => (s, r).
Definition reads {A} (f : Tables -> A) : H A := gets (f ∘ tables).
Definition writes (f : Tables -> Tables) : H () := modify (with_tables f).
Definition runs {A} (f : Tables -> Tables * A) : H A :=
  fun s => let '(d, a) := f (tables s) in (with_tables (fun _ => d) s, inr a).
(** A statement that may break a constraint. *)
Definition tries {A} (f : Tables -> option (Tables * A)) : H A :=
  fun s => match f (tables s) with Some (d, a) => (with_tables (fun _ => d) s, inr a) | None => (s, inl ApiError.Internal) end.

Definition page_not_found (id : Z) : ApiError := ApiError.NotFound ("Status page " +:+ display_i64 id +:+ " not found.")%string.
Definition incident_not_found (id : Z) : ApiError := ApiError.NotFound ("Incident " +:+ display_i64 id +:+ " not found.")%string.
Definition public_not_found : ApiError := ApiError.NotFound "This status page does not exist.".

Section pages.
Context `{Crates} `{Web}.

(** The user and the password of an address, and the constraint named first. *)
Variable url_username : Url -> string.
Variable url_password : Url -> option string.
Variable slug_named_first : bool.

Definition validate_homepage (raw : string) : ApiError + string :=
  let invalid := "The website link must be an http:// or https:// address."%string in
  if bool_decide (raw = "") then inr ""%string
  else if MAX_URL_LEN <? Z.of_nat (String.length raw) then
    bad (limited "The website link is" (Z.to_nat MAX_URL_LEN))
  else match url_parse raw with
       | inl _ => bad invalid
       | inr url =>
           if negb (bool_decide (url_scheme url ∈ ["http"; "https"]%string))
              || negb (is_some_and (url_host url) (fun h => negb (bool_decide (h = ""))))
              || negb (bool_decide (url_username url = "")) || is_some_and (url_password url) (fun _ => true)
           then bad invalid else inr (url_str url)
       end.

Definition host_of_url (url : string) : option string :=
  match url_parse (trim url) with inl _ => None | inr url => url_host url ≫= host_of end.

(** An address of the administration is not the domain of a page. *)
Definition check_not_admin_host (a : Around) (domain origin : string) : ApiError + () :=
  let admin_hosts := omap host_of_url (option_list (public_url_of a) ++ [origin]) in
  if bool_decide (domain ∈ admin_hosts) then
    bad (domain +:+ " is the address of DumbMonit itself: on a status page domain only the page is reachable, so pick another name (for example status." +:+ domain +:+ ").")%string
  else inr tt.

Definition unknown (what value : string) (expected : list string) : string :=
  ("Unknown " +:+ what +:+ " " +:+ quoted_ value +:+ " (expected: " +:+ one_of expected +:+ ").")%string.

(** The channel of a page: the one asked for, kept when nothing is asked. *)
Definition channel_asked (a : Around) (existing : option StatusPage) (asked : option Value) : ApiError + option Z :=
  match asked with
  | None => inr (existing ≫= i_subscribe_channel_id ∘ pg)
  | Some Null => inr None
  | Some (Number id) =>
      match a_channels a id with
      | None => bad ("Notification channel " +:+ display_i64 id +:+ " does not exist.")%string
      | Some channel => if bool_decide (rc_kind channel = "smtp") then inr (Some id)
                        else bad "Subscribers are mailed through an email (SMTP) channel."
      end
  | Some _ => bad "subscribe_channel_id must be a channel id or null."
  end.
Definition domain_asked (existing : option StatusPage) (asked : option Value) : ApiError + option string :=
  match asked with
  | None => inr (existing ≫= i_domain ∘ pg)
  | Some Null => inr None
  | Some (Text_ raw) => match normalise_domain raw with inl why => bad why | inr d => inr d end
  | Some _ => bad "domain must be a host name or null."
  end.

(** What a client does not send stays as it is. *)
Definition kept {A} (existing : option StatusPage) (default : A) (f : StatusPageInput -> A) : A :=
  match existing with Some e => f (pg e) | None => default end.
Definition validate (a : Around) (existing : option StatusPage) (origin : string) (p : StatusPagePayload) : H StatusPageInput :=
  let title := trim (p_title p) in
  _ ← refuse_if (bool_decide (title = "")) (ApiError.BadRequest "Title is required.");
  _ ← refuse_if (MAX_TITLE_LEN <? chars_count title)%nat (ApiError.BadRequest (limited "Title is" MAX_TITLE_LEN));
  let slug := filled (p_slug p) ?? slugify title in
  _ ← refuse_if (negb (is_valid_slug slug))
        (ApiError.BadRequest "Slug must be 2 to 40 characters: lowercase letters, digits and hyphens.");
  let description := trim (p_description p ?? "") in
  _ ← refuse_if (MAX_DESCRIPTION_LEN <? chars_count description)%nat
        (ApiError.BadRequest (limited "Description is" MAX_DESCRIPTION_LEN));
  let theme := p_theme p ?? "auto" in
  _ ← refuse_if (negb (bool_decide (theme ∈ THEMES))) (ApiError.BadRequest (unknown "theme" theme THEMES));
  let days := p_show_uptime_days p ?? MAX_HISTORY_DAYS in
  _ ← refuse_if (negb ((MIN_HISTORY_DAYS <=? days) && (days <=? MAX_HISTORY_DAYS)))
        (ApiError.BadRequest ("The history must cover " +:+ display_i64 MIN_HISTORY_DAYS +:+ " to " +:+
           display_i64 MAX_HISTORY_DAYS +:+ " days.")%string);
  let accent := (trim <$> p_accent p) ?? kept existing "default" i_accent in
  _ ← refuse_if (negb (bool_decide (accent ∈ ACCENTS))) (ApiError.BadRequest (unknown "accent" accent ACCENTS));
  let scenes := (fmap (M:=list) trim <$> p_scenes p) ?? kept existing [DEFAULT_SCENE] (split_scenes ∘ i_scenes) in
  scenes ← result (validate_scenes scenes);
  let rotation := (trim <$> p_scene_rotation p) ?? kept existing "visit" i_scene_rotation in
  _ ← refuse_if (negb (bool_decide (rotation ∈ SCENE_ROTATIONS)))
        (ApiError.BadRequest (unknown "scene rotation" rotation SCENE_ROTATIONS));
  let simple := p_simple p ?? kept existing false i_simple in
  let footer := (trim <$> p_footer_text p) ?? kept existing "" i_footer_text in
  _ ← refuse_if (MAX_FOOTER_LEN <? chars_count footer)%nat (ApiError.BadRequest (limited "The footer text is" MAX_FOOTER_LEN));
  _ ← refuse_if (has_control (string_filter (fun c => negb (bool_decide (c = "010"%char))) footer))
        (ApiError.BadRequest "The footer text must be plain text.");
  homepage ← result (match p_homepage_url p with
                     | Some url => validate_homepage (trim url)
                     | None => inr (kept existing "" i_homepage_url)
                     end);
  channel ← result (channel_asked a existing (p_subscribe_channel_id p));
  domain ← result (domain_asked existing (p_domain p));
  _ ← result (match domain with Some domain => check_not_admin_host a domain origin | None => inr tt end);
  mret {| i_slug := slug; i_title := title; i_description := description; i_published := p_published p ?? false;
          i_theme := theme; i_show_uptime_days := days; i_accent := accent; i_scenes := scenes;
          i_scene_rotation := rotation; i_simple := simple; i_footer_text := footer; i_homepage_url := homepage;
          i_subscribe_channel_id := channel; i_link_origin := origin; i_domain := domain |}.

(** ** Handlers *)

(** The address under which a request came, from its headers. *)
Definition first_of (header : option string) : option string :=
  v ← trim <$> header; filled (Some (before_char "," v)).
Definition public_origin (proto forwarded host : option string) : string :=
  ((first_of proto ?? "http") +:+ "://" +:+
   (match first_of forwarded with Some v => v | None => (trim <$> host) ?? "localhost" end))%string.

Definition StatusPageView : Type := Z * StatusPage * list (Z * PageItem).
Definition page_view (id : Z) : H StatusPageView :=
  page ← reads (get_page id);
  page ← ok_or (page_not_found id) page;
  items ← reads (list_items id);
  mret (id, page, items).

Definition create_page (a : Around) (origin : string) (p : StatusPagePayload) : H StatusPageView :=
  input ← validate a None origin p;
  violated ← reads (duplicate slug_named_first None input);
  _ ← if_some violated throw;
  id ← runs (insert_page (now_of a) input);
  _ ← modify invalidate_cache;
  page_view id.

Definition update_page (a : Around) (id : Z) (origin : string) (p : StatusPagePayload) : H StatusPageView :=
  existing ← reads (get_page id);
  existing ← ok_or (page_not_found id) existing;
  input ← validate a (Some existing) origin p;
  violated ← reads (duplicate slug_named_first (Some id) input);
  _ ← if_some violated throw;
  updated ← runs (write_page (now_of a) id input);
  _ ← refuse_if (negb updated) (page_not_found id);
  _ ← modify invalidate_cache;
  page_view id.

Definition delete_page (id : Z) : H () :=
  deleted ← runs (erase_page id);
  _ ← refuse_if (negb deleted) (page_not_found id);
  _ ← modify (with_logos (base.delete id));
  modify invalidate_cache.

Record ItemPayload := { ip_target_id : Z; ip_label : option string; ip_group_name : option string }.

Fixpoint checked_items (devices : gmap Z string) (seen : list Z) (payload : list ItemPayload) : ApiError + list PageItemInput :=
  match payload with
  | [] => inr []
  | entry :: payload =>
      let target := ip_target_id entry in
      match devices !! target with
      | None => bad ("Device " +:+ display_i64 target +:+ " does not exist.")%string
      | Some name =>
          if bool_decide (target ∈ seen) then bad ("Device " +:+ quoted_ name +:+ " is listed twice.")%string
          else
            let label := filled (ip_label entry) ?? name in
            if (MAX_LABEL_LEN <? chars_count label)%nat then bad (limited "Labels are" MAX_LABEL_LEN)
            else
              let group_name := trim (ip_group_name entry ?? "") in
              if (MAX_GROUP_LEN <? chars_count group_name)%nat then bad (limited "Group names are" MAX_GROUP_LEN)
              else match checked_items devices (target :: seen) payload with
                   | inl e => inl e
                   | inr items => inr ({| ii_target_id := target; ii_label := label; ii_group_name := group_name |} :: items)
                   end
      end
  end.

Definition set_items (a : Around) (id : Z) (payload : list ItemPayload) : H (list (Z * PageItem)) :=
  page ← reads (get_page id);
  _ ← ok_or (page_not_found id) page;
  _ ← refuse_if (MAX_ITEMS <? length payload)%nat
        (ApiError.BadRequest ("A page shows at most " +:+ display_i64 (Z.of_nat MAX_ITEMS) +:+ " services.")%string);
  items ← result (checked_items (a_devices a) [] payload);
  _ ← tries (fun d => d ← store_items (now_of a) id (a_devices a) items d; Some (d, tt));
  _ ← modify invalidate_cache;
  reads (list_items id).

(** ** Announcements *)

Record IncidentPayload := {
  ip_title : string;
  ip_kind : option string;
  ip_status : option string;
  ip_severity : option string;
  ip_page_id : option Z;
  ip_starts_at : option string;
  ip_ends_at : option string;
  ip_body : option string;
}.

Definition statuses_for (kind : string) : list string * string :=
  if bool_decide (kind = "maintenance") then (MAINTENANCE_STATUSES, "scheduled"%string)
  else (INCIDENT_STATUSES, "investigating"%string).
Definition is_closing (status : string) : bool := bool_decide (status ∈ ["resolved"; "completed"]%string).

(** Dates with their offset, and dates without one under a format. *)
Variable parse_from_rfc3339 : string -> option DateTime.
Variable parse_from_str : string -> string -> option DateTime.
Definition DATE_FORMATS : list string :=
  ["%Y-%m-%dT%H:%M:%S"; "%Y-%m-%dT%H:%M"; "%Y-%m-%d %H:%M:%S"; "%Y-%m-%d %H:%M"].
Definition parse_timestamp (raw field : string) : ApiError + DateTime :=
  let raw := trim raw in
  match parse_from_rfc3339 raw with
  | Some parsed => inr parsed
  | None => match find_map (parse_from_str raw) DATE_FORMATS with
            | Some naive => inr naive
            | None => bad (field +:+ " must be a date and time (for example 2026-09-15T10:00:00Z).")%string
            end
  end.
Definition status_error (status kind : string) (allowed : list string) : ApiError :=
  ApiError.BadRequest ("Status " +:+ quoted_ status +:+ " is not valid for a " +:+ kind +:+ " (expected: " +:+
    one_of allowed +:+ ").")%string.

Definition validate_incident (a : Around) (existing : option Incident) (p : IncidentPayload) : H IncidentInput :=
  let title := trim (ip_title p) in
  _ ← refuse_if (bool_decide (title = "")) (ApiError.BadRequest "Title is required.");
  _ ← refuse_if (MAX_INCIDENT_TITLE_LEN <? chars_count title)%nat
        (ApiError.BadRequest (limited "Title is" MAX_INCIDENT_TITLE_LEN));
  let kind := match existing with Some i => n_kind (inc i) | None => ip_kind p ?? "incident" end in
  _ ← refuse_if (negb (bool_decide (kind ∈ ["incident"; "maintenance"]%string)))
        (ApiError.BadRequest (unknown "kind" kind ["incident"; "maintenance"]%string));
  let '(allowed, default_status) := statuses_for kind in
  let status := filled (ip_status p) ?? match existing with Some i => n_status (inc i) | None => default_status end in
  _ ← refuse_if (negb (bool_decide (status ∈ allowed))) (status_error status kind allowed);
  let severity := filled (ip_severity p) ?? match existing with Some i => n_severity (inc i) | None => "minor" end in
  _ ← refuse_if (negb (bool_decide (severity ∈ SEVERITIES))) (ApiError.BadRequest (unknown "severity" severity SEVERITIES));
  _ ← if_some (ip_page_id p) (fun page => there ← reads (has_page page); refuse_if (negb there) (page_not_found page));
  starts_at ← result (match filled (ip_starts_at p) with
                      | Some raw => parse_timestamp raw "Start"
                      | None => inr match existing with
                                    | Some i => parse_stored (n_starts_at (inc i))
                                    | None => a_now a
                                    end
                      end);
  ends_at ← result (match filled (ip_ends_at p) with
                    | Some raw => match parse_timestamp raw "End" with inl e => inl e | inr t => inr (Some t) end
                    | None => inr None
                    end);
  _ ← refuse_if (is_some_and ends_at (fun t => t <=? starts_at)) (ApiError.BadRequest "End must come after start.");
  _ ← refuse_if (bool_decide (kind = "maintenance") && bool_decide (ends_at = None) && negb (is_closing status))
        (ApiError.BadRequest "A maintenance window needs an end.");
  _ ← refuse_if (is_some_and (ip_body p) (fun body => MAX_BODY_LEN <? chars_count body)%nat)
        (ApiError.BadRequest (limited "Messages are" MAX_BODY_LEN));
  mret {| n_page_id := ip_page_id p; n_title := title; n_kind := kind; n_status := status; n_severity := severity;
          n_starts_at := format_timestamp starts_at; n_ends_at := format_timestamp <$> ends_at |}.

Definition IncidentView : Type := Z * Incident * list IncidentUpdate.
Definition incident_view (id : Z) (i : Incident) : H IncidentView :=
  updates ← reads (list_updates_for [id]);
  mret (id, i, updates).
Definition found_incident (id : Z) : H Incident :=
  i ← reads (get_incident id);
  ok_or (incident_not_found id) i.

Definition create_incident (a : Around) (p : IncidentPayload) : H IncidentView :=
  let body := trim (ip_body p ?? "") in
  input ← validate_incident a None p;
  id ← tries (insert_incident (now_of a) input);
  _ ← when_ (negb (bool_decide (body = "")))
        (tries (fun d => d ← store_update (now_of a) id (n_status input) body (is_closing (n_status input)) d; Some (d, tt)));
  _ ← modify invalidate_cache;
  i ← found_incident id;
  _ ← modify (announce id i (Some body));
  incident_view id i.

(** The end of an announcement that is given none. *)
Definition end_kept (now : Z) (existing : Incident) (input : IncidentInput) : IncidentInput :=
  match n_ends_at input with
  | Some _ => input
  | None =>
      let before := n_ends_at (inc existing) in
      with_status (n_status input) (if is_closing (n_status input) then Some (before ?? now) else before) input
  end.
Definition update_incident (a : Around) (id : Z) (p : IncidentPayload) : H IncidentView :=
  existing ← found_incident id;
  input ← validate_incident a (Some existing) p;
  let input := end_kept (now_of a) existing input in
  written ← tries (write_incident (now_of a) id input);
  _ ← refuse_if (negb written) (incident_not_found id);
  _ ← modify invalidate_cache;
  i ← found_incident id;
  _ ← when_ (negb (bool_decide (n_status (inc i) = n_status (inc existing)))) (modify (announce id i None));
  incident_view id i.

Definition delete_incident (id : Z) : H () :=
  deleted ← runs (erase_incident id);
  if deleted : bool then modify invalidate_cache else throw (incident_not_found id).

Definition list_updates (id : Z) : H (list IncidentUpdate) :=
  _ ← found_incident id;
  reads (list_updates_ id).

Definition add_update (a : Around) (id : Z) (status : option string) (text : string) : H IncidentView :=
  i ← found_incident id;
  let body := trim text in
  _ ← refuse_if (bool_decide (body = "")) (ApiError.BadRequest "Write a message.");
  _ ← refuse_if (MAX_BODY_LEN <? chars_count body)%nat (ApiError.BadRequest (limited "Messages are" MAX_BODY_LEN));
  let allowed := (statuses_for (n_kind (inc i))).1 in
  let status := filled status ?? n_status (inc i) in
  _ ← refuse_if (negb (bool_decide (status ∈ allowed))) (status_error status (n_kind (inc i)) allowed);
  _ ← tries (fun d => d ← store_update (now_of a) id status body (is_closing status) d; Some (d, tt));
  _ ← modify invalidate_cache;
  i ← found_incident id;
  _ ← modify (announce id i (Some body));
  incident_view id i.

(** ** Logo ([api/status_pages/branding.rs]) *)

Definition MAX_LOGO_BYTES : Z := 256 * 1024.
Definition PNG_MARK : list Z := [137; 80; 78; 71; 13; 10; 26; 10].
Definition JPEG_MARK : list Z := [255; 216; 255].
Definition RIFF_MARK : list Z := [82; 73; 70; 70].
Definition WEBP_MARK : list Z := [87; 69; 66; 80].
Definition begins (mark bytes : list Z) : bool := bool_decide (take (length mark) bytes = mark).
Definition sniff (bytes : list Z) : option string :=
  if begins PNG_MARK bytes then Some "image/png"%string
  else if begins JPEG_MARK bytes then Some "image/jpeg"%string
  else if begins RIFF_MARK bytes && begins WEBP_MARK (drop 8 bytes) then Some "image/webp"%string
  else None.

(** Crate [base64]. *)
Variable base64_decode : string -> option (list Z).
Definition too_large : ApiError := ApiError.BadRequest ("The logo is limited to " +:+ display_i64 (MAX_LOGO_BYTES / 1024) +:+ " KiB.")%string.
Definition decode_logo (raw : string) : ApiError + list Z :=
  let raw := trim raw in
  let encoded := match split_once "," raw with
                 | Some (prefix, rest) => if starts_with "data:" prefix then rest else raw
                 | None => raw
                 end in
  if MAX_LOGO_BYTES * 4 / 3 + 8 <? Z.of_nat (String.length encoded) then inl too_large
  else match base64_decode (trim encoded) with
       | Some bytes => inr bytes
       | None => bad "The logo could not be read (invalid base64)."
       end.

Definition upload_logo (a : Around) (id : Z) (data : string) : H () :=
  page ← reads (get_page id);
  _ ← ok_or (page_not_found id) page;
  bytes ← result (decode_logo data);
  _ ← refuse_if (bool_decide (bytes = [])) (ApiError.BadRequest "The logo file is empty.");
  _ ← refuse_if (MAX_LOGO_BYTES <? Z.of_nat (length bytes)) too_large;
  kind ← ok_or (ApiError.BadRequest "The logo must be a PNG, JPEG or WebP image.") (sniff bytes);
  _ ← modify (with_logos <[id := bytes]>);
  _ ← writes (set_logo_type (now_of a) id (Some kind));
  modify invalidate_cache.
Definition delete_logo (a : Around) (id : Z) : H () :=
  page ← reads (get_page id);
  _ ← ok_or (page_not_found id) page;
  _ ← modify (with_logos (base.delete id));
  _ ← writes (set_logo_type (now_of a) id None);
  modify invalidate_cache.

(** What a reader receives: the type is the one of the bytes. *)
Definition no_logo : ApiError := ApiError.NotFound "This page has no logo.".
Definition serve_logo (id : Z) (kind : string) : H (string * list Z) :=
  file ← gets (fun s => logos s !! id);
  bytes ← ok_or no_logo file;
  _ ← refuse_if (negb (bool_decide (sniff bytes = Some kind))) no_logo;
  mret (kind, bytes).
Definition public_logo (slug : string) : H (string * list Z) :=
  page ← reads (get_page_by_slug slug);
  '(id, page) ← ok_or public_not_found page;
  _ ← refuse_if (negb (i_published (pg page))) public_not_found;
  kind ← ok_or no_logo (pg_logo_type page);
  serve_logo id kind.
Definition admin_logo (id : Z) : H (string * list Z) :=
  page ← reads (get_page id);
  page ← ok_or (page_not_found id) page;
  kind ← ok_or no_logo (pg_logo_type page);
  serve_logo id kind.
End pages.

(** *** What goes with the devices and the channels *)

(** [ON DELETE CASCADE] of a device and [ON DELETE SET NULL] of a channel. *)
Definition forget_device (id : Z) : Tables -> Tables :=
  with_items (on_rows (filter (fun kr => ii_target_id (it kr.2) <> id))).
Definition without_channel (id : Z) (p : StatusPage) : StatusPage :=
  let i := pg p in
  {| pg := Build_StatusPageInput (i_slug i) (i_title i) (i_description i) (i_published i) (i_theme i) (i_show_uptime_days i)
             (i_accent i) (i_scenes i) (i_scene_rotation i) (i_simple i) (i_footer_text i) (i_homepage_url i)
             (if bool_decide (i_subscribe_channel_id i = Some id) then None else i_subscribe_channel_id i)
             (i_link_origin i) (i_domain i);
     pg_created_at := pg_created_at p; pg_updated_at := pg_updated_at p; pg_logo_type := pg_logo_type p |}.
Definition forget_channel (id : Z) : Tables -> Tables := with_pages (on_rows (fmap (without_channel id))).

(** *** Keys of the services *)

(** The base of the key, then the base with a number. *)
Fixpoint free_key (fuel : nat) (base : string) (n : Z) (taken : gset string) (key : string) : option (string * gset string) :=
  match fuel with
  | O => None
  | S fuel =>
      if bool_decide (key ∈ taken) then free_key fuel base (n + 1) taken (base +:+ "-" +:+ display_i64 n)%string
      else Some (key, {[key]} ∪ taken)
  end.
Definition key_base (label : string) : string := let base := slugify label in if bool_decide (base = "") then "service" else base.
Definition unique_key (label : string) (taken : gset string) : option (string * gset string) :=
  free_key (S (size taken)) (key_base label) 2 taken (key_base label).
Fixpoint unique_keys (labels : list string) (taken : gset string) : option (list string) :=
  match labels with
  | [] => Some []
  | label :: labels => '(key, taken) ← unique_key label taken; (fun keys => key :: keys) <$> unique_keys labels taken
  end.

(** ** Examples *)

Example slugify_ex :
  slugify <$> ["My Homelab"; "  --Été 2026!  "; "a"; "1234567890123456789012345678901234567890 b"] =
  ["my-homelab"; "t-2026"; "a"; "1234567890123456789012345678901234567890"].
Proof. vm_compute. reflexivity. Qed.
Example unique_keys_ex : unique_keys ["Web"; "web!"; "web 2"; "***"; "WEB"] ∅ = Some ["web"; "web-2"; "web-2-2"; "service"; "web-3"].
Proof. vm_compute. reflexivity. Qed.
Example public_origin_ex : public_origin (Some "https, http") None (Some " monit.example.org ") = "https://monit.example.org".
Proof. vm_compute. reflexivity. Qed.
