(* ===== verification/Subscribers.v ===== *)
(** * Status pages: the addresses that are told ([api/status_pages/subscribers.rs])

    Signing an address up is public: it is limited, and nothing is sent to an address but one message until the
    link of this message is followed.

    An [Instant] is a number of nanoseconds since an arbitrary origin.  The messages are kept with the instant
    they were made for; one whose channel cannot be opened is never handed to a server.  The parameters are
    what the crate [lettre] takes for an address and for a channel, and the letters and digits of Unicode. *)
From Stdlib Require Import Ascii.
From Stdlib Require String.
From S2P Require Import Prelude Text Chrono NotifyPolicy RateLimit ApiToken Accounts Auth Handler Html Site StatusHost StatusPages.

Definition PER_CLIENT : nat := 5.
Definition GLOBAL : nat := 60.
Definition WINDOW : Duration := td_seconds (15 * 60).
Definition RESEND_AFTER : TimeDelta := td_minutes 10.
Definition PENDING_TTL : TimeDelta := td_hours 48.
Definition MAX_SUBSCRIBERS : Z := 10000.

(** ** Limits *)

(** A queue has its oldest attempt first. *)
Record Limiter := { per_client : gmap (option IpAddr) (list Z); global : list Z }.
Definition Limiter_new : Limiter := {| per_client := ∅; global := [] |}.

(** [Instant::duration_since], which is never negative. *)
Definition duration_since (now at_ : Z) : Duration := Z.max 0 (now - at_).
Fixpoint prune (now : Z) (queue : list Z) : list Z :=
  match queue with
  | [] => []
  | at_ :: rest => if WINDOW <=? duration_since now at_ then prune now rest else queue
  end.
Definition wait (now : Z) (queue : list Z) : Z :=
  match queue with [] => 1 | at_ :: _ => Z.max 0 (WINDOW - duration_since now at_) / ns_per_s + 1 end.

Definition pruned (now : Z) (l : Limiter) : Limiter :=
  {| per_client := filter (fun kq => kq.2 <> []) (prune now <$> per_client l); global := prune now (global l) |}.
(** [None] admits the attempt, [Some n] refuses it for [n] seconds. *)
Definition admit_ (ip : option IpAddr) (now : Z) (l : Limiter) : Limiter * option Z :=
  let l := pruned now l in
  let queue := per_client l !! ip ?? [] in
  let entered := {| per_client := <[ip := queue]> (per_client l); global := global l |} in
  if (PER_CLIENT <=? length queue)%nat then (entered, Some (wait now queue))
  else if (GLOBAL <=? length (global l))%nat then (entered, Some (wait now (global l)))
  else ({| per_client := <[ip := queue ++ [now]]> (per_client l); global := global l ++ [now] |}, None).

(** ** Messages *)

Record Mail := { m_to : string; m_subject : string; m_body : string; m_one_click : option string }.
(** What was written to an address, for which page and with which token, and at whose request; [sent] tells a
    message handed to the server of the channel. *)
Inductive Message :=
| Confirmation (page : Z) (token : string) (from : option IpAddr) (instant : Z) (sent : bool) (mail : Mail)
| Announcement (page : Z) (token : string) (mail : Mail).

Record Mailer := { site : State; limiter : Limiter; messages : list Message }.
Definition Mailer_new : Mailer := {| site := State_new; limiter := Limiter_new; messages := [] |}.
Definition with_site (f : State -> State) (m : Mailer) : Mailer := Build_Mailer (f (site m)) (limiter m) (messages m).
Definition with_limiter (f : Limiter -> Limiter) (m : Mailer) : Mailer := Build_Mailer (site m) (f (limiter m)) (messages m).
Definition writes_to (message : Message) (m : Mailer) : Mailer := Build_Mailer (site m) (limiter m) (messages m ++ [message]).

Notation M := (Handler Mailer ApiError).
Definition asks {A} (f : Tables -> A) : M A := gets (fun m => f (tables (site m))).
Definition stores (f : Tables -> Tables) : M () := modify (with_site (with_tables f)).

Definition nl : string := String "010"%char "".

Section mailer.
Context `{Crates}.
Variable alphanumeric : string -> bool.
Variable address_ok : string -> bool.
Variable smtp_ok : Recipient -> bool.

Definition channel_of (a : Around) (page : StatusPage) : option Recipient :=
  id ← i_subscribe_channel_id (pg page);
  channel ← a_channels a id;
  if rc_enabled channel && bool_decide (rc_kind channel = "smtp") then Some channel else None.
Definition offers_subscription (a : Around) (page : StatusPage) : bool := is_some_and (channel_of a page) (fun _ => true).

Definition link_base (a : Around) (page : StatusPage) : option string :=
  match i_domain (pg page) with
  | Some domain => Some ("https://" +:+ domain)%string
  | None =>
      match public_url_of a with
      | Some url => Some url
      | None =>
          let origin := trim_end_matches "/"%char (trim (i_link_origin (pg page))) in
          if bool_decide (origin = "") then None else Some origin
      end
  end.
Definition page_url (base : string) (page : StatusPage) : string :=
  match i_domain (pg page) with Some _ => (base +:+ "/")%string | None => (base +:+ "/s/" +:+ i_slug (pg page))%string end.

(** [rand::random::<[u8; 24]>()] *)
Definition new_token (bytes : list Z) : string := hex_encode bytes.

Definition in_domain (a : ascii) : bool := bool_decide (a = "."%char) || bool_decide (a = "-"%char).
Definition normalise_email (raw : string) : option string :=
  let raw := trim raw in
  if bool_decide (raw = "") || (254 <? Z.of_nat (String.length raw)) || has_whitespace raw || has_control raw then None
  else
    '(local, domain) ← rsplit_once "@" raw;
    if bool_decide (local = "") || (64 <? Z.of_nat (String.length local)) || contains_char "@" local
       || negb (contains_char "." domain) || starts_with "." domain || ends_with "." domain
       || Text.contains ".." domain || negb (alphanumeric (string_filter (fun c => negb (in_domain c)) domain))
    then None
    else let email := (local +:+ "@" +:+ lowercase domain)%string in if address_ok email then Some email else None.

(** ** Public side *)

Inductive Answer_ := TooMany (retry_after : Z) | Pending.

Definition subscribable (a : Around) (slug : string) : M (Z * StatusPage * Recipient) :=
  page ← asks (get_page_by_slug slug);
  '(id, page) ← ok_or public_not_found page;
  _ ← refuse_if (negb (i_published (pg page))) public_not_found;
  channel ← ok_or public_not_found (channel_of a page);
  mret (id, page, channel).

Definition confirmation (base token email : string) (page : StatusPage) : Mail :=
  let title := i_title (pg page) in
  {| m_to := email; m_subject := ("Confirm your subscription to " +:+ title)%string;
     m_body := ("Someone, hopefully you, asked to receive incident and maintenance updates from " +:+ title +:+
       " by email." +:+ nl +:+ nl +:+ "Confirm the subscription:" +:+ nl +:+
       base +:+ "/s/" +:+ i_slug (pg page) +:+ "/confirm?token=" +:+ token +:+ nl +:+ nl +:+
       "If you did not ask for this, ignore this message: without confirmation, the address is forgotten within two days." +:+
       nl +:+ nl +:+ "-- " +:+ nl +:+ title +:+ nl +:+ page_url base page +:+ nl)%string;
     m_one_click := None |}.

(** Whether the address must be written to. *)
Definition must_write (now : DateTime) (page : Z) (email : string) (d : Tables) : ApiError + bool :=
  match find_subscriber page email d with
  | Some (_, s) =>
      inr (bool_decide (sb_confirmed_at s = None) && negb (now - parse_stored (sb_created_at s) <? RESEND_AFTER))
  | None => if MAX_SUBSCRIBERS <=? count_subscribers page d
            then inl (ApiError.Conflict "This page cannot take more subscribers.") else inr true
  end.

Definition subscribe (a : Around) (instant : Z) (ip : option IpAddr) (bytes : list Z) (slug email : string) : M Answer_ :=
  refused ← act (fun m => let '(l, refused) := admit_ ip instant (limiter m) in (with_limiter (fun _ => l) m, refused));
  match refused with
  | Some seconds => mret (TooMany seconds)
  | None =>
      '(id, page, channel) ← subscribable a slug;
      email ← ok_or (ApiError.BadRequest "Enter a valid email address.") (normalise_email email);
      _ ← stores (purge_unconfirmed (format_timestamp (a_now a - PENDING_TTL)));
      asked ← asks (must_write (a_now a) id email);
      write ← result asked;
      match write, link_base a page with
      | true, Some base =>
          let token := new_token bytes in
          stored ← asks (upsert_pending_subscriber (now_of a) id email token);
          stored ← ok_or ApiError.Internal stored;
          _ ← stores (fun _ => stored);
          _ ← modify (writes_to (Confirmation id token ip instant (smtp_ok channel) (confirmation base token email page)));
          mret Pending
      | _, _ => mret Pending
      end
  end.

Definition confirm (a : Around) (slug : string) (token : option string) : M () :=
  '(id, _, _) ← subscribable a slug;
  let token := token ?? "" in
  let expired := ApiError.NotFound "This confirmation link is no longer valid." in
  _ ← refuse_if (bool_decide (token = "")) expired;
  s ← asks (subscriber_by_token id token);
  '(k, _) ← ok_or expired s;
  stores (confirm_subscriber (now_of a) k).

Definition unsubscribe (slug : string) (token : option string) : M () :=
  page ← asks (get_page_by_slug slug);
  '(id, _) ← ok_or public_not_found page;
  let token := token ?? "" in
  s ← asks (subscriber_by_token id token);
  when_ (negb (bool_decide (token = ""))) (if_some s (fun s => stores (fun d => (delete_subscriber id s.1 d).1))).

(** ** Administration *)

Definition list_subscribers (id : Z) : M (list (Z * Subscriber)) :=
  page ← asks (get_page id);
  _ ← ok_or (page_not_found id) page;
  asks (fun d => sort_by (cmp_on (sb_email ∘ snd) string_cmp) (select (fun s => sb_page_id s =? id) (subscribers d))).
Definition remove (id subscriber : Z) : M () :=
  deleted ← asks (delete_subscriber id subscriber);
  _ ← refuse_if (negb deleted.2) (ApiError.NotFound ("Subscriber " +:+ display_i64 subscriber +:+ " not found.")%string);
  stores (fun _ => deleted.1).

(** ** Announcements *)

Definition status_word (status : string) : string :=
  default status (list_to_map (M := gmap string string)
    [("investigating", "Investigating"); ("identified", "Identified"); ("monitoring", "Monitoring");
     ("resolved", "Resolved"); ("scheduled", "Scheduled"); ("in_progress", "In progress"); ("completed", "Completed")]
    !! status)%string.

Definition announcement (base : string) (page : StatusPage) (i : Incident) (message : option string) (s : Subscriber) : Mail :=
  let kind := if bool_decide (n_kind (inc i) = "maintenance") then "Maintenance"%string else "Incident"%string in
  let status := status_word (n_status (inc i)) in
  let title := i_title (pg page) in
  let said := match filled message with Some text => (nl +:+ text +:+ nl)%string | None => ""%string end in
  {| m_to := sb_email s;
     m_subject := ("[" +:+ title +:+ "] " +:+ kind +:+ ": " +:+ n_title (inc i) +:+ " (" +:+ status +:+ ")")%string;
     m_body := (kind +:+ ": " +:+ n_title (inc i) +:+ nl +:+ "Status: " +:+ status +:+ nl +:+ said +:+
       nl +:+ "Follow it on the status page:" +:+ nl +:+ page_url base page +:+ nl +:+ nl +:+ "-- " +:+
       nl +:+ "You receive this because you subscribed to " +:+ title +:+ "." +:+ nl +:+
       "Unsubscribe in one click: " +:+ base +:+ "/s/" +:+ i_slug (pg page) +:+ "/unsubscribe?token=" +:+ sb_token s +:+
       nl)%string;
     m_one_click := Some (base +:+ "/api/public/status/" +:+ i_slug (pg page) +:+ "/unsubscribe?token=" +:+ sb_token s)%string |}.

Definition announced_pages (i : Incident) (d : Tables) : list (Z * StatusPage) :=
  match n_page_id (inc i) with
  | Some id => option_list ((fun page => (id, page)) <$> get_page id d)
  | None => list_pages d
  end.
Definition announce_on (a : Around) (i : Incident) (message : option string) (d : Tables) (kp : Z * StatusPage) : list Message :=
  if negb (i_published (pg kp.2)) then []
  else match channel_of a kp.2, link_base a kp.2 with
       | Some channel, Some base =>
           if smtp_ok channel then
             (fun ks => Announcement kp.1 (sb_token ks.2) (announcement base kp.2 i message ks.2)) <$>
               confirmed_subscribers kp.1 d
           else []
       | _, _ => []
       end.
Definition announce_now (a : Around) (i : Incident) (message : option string) (d : Tables) : list Message :=
  announced_pages i d ≫= announce_on a i message d.

(** ** Everything that happens to the pages

    A request of an administrator, of a stranger, what follows the deletion of a device or of a channel, and the
    task that sends the [k]th announcement under way. *)
Context `{Web}.
Variable url_username : Url -> string.
Variable url_password : Url -> option string.
Variable slug_named_first : bool.
Variable parse_from_rfc3339 : string -> option DateTime.
Variable parse_from_str : string -> string -> option DateTime.
Variable base64_decode : string -> option (list Z).

Inductive Call :=
| CreatePage (origin : string) (p : StatusPagePayload)
| UpdatePage (id : Z) (origin : string) (p : StatusPagePayload)
| DeletePage (id : Z)
| SetItems (id : Z) (payload : list ItemPayload)
| CreateIncident (p : IncidentPayload)
| UpdateIncident (id : Z) (p : IncidentPayload)
| DeleteIncident (id : Z)
| AddUpdate (id : Z) (status : option string) (text : string)
| UploadLogo (id : Z) (data : string)
| DeleteLogo (id : Z)
| RemoveSubscriber (id subscriber : Z)
| DeviceGone (id : Z)
| ChannelGone (id : Z)
| Subscribe (instant : Z) (ip : option IpAddr) (bytes : list Z) (slug email : string)
| Confirm (slug : string) (token : option string)
| Unsubscribe (slug : string) (token : option string)
| Announce (k : nat).

Definition drop_task (k : nat) (s : State) : State :=
  Build_State (tables s) (emptied s) (base.delete k (announcements s)) (logos s).
Definition send_task (a : Around) (k : nat) (m : Mailer) : Mailer :=
  match announcements (site m) !! k with
  | None => m
  | Some (_, i, message) =>
      Build_Mailer (drop_task k (site m)) (limiter m) (messages m ++ announce_now a i message (tables (site m)))
  end.

Definition administer (a : Around) (c : Call) (s : State) : State :=
  match c with
  | CreatePage origin p => (create_page url_username url_password slug_named_first a origin p s).1
  | UpdatePage id origin p => (update_page url_username url_password slug_named_first a id origin p s).1
  | DeletePage id => (delete_page id s).1
  | SetItems id payload => (set_items a id payload s).1
  | CreateIncident p => (create_incident parse_from_rfc3339 parse_from_str a p s).1
  | UpdateIncident id p => (update_incident parse_from_rfc3339 parse_from_str a id p s).1
  | DeleteIncident id => (delete_incident id s).1
  | AddUpdate id status text => (add_update a id status text s).1
  | UploadLogo id data => (upload_logo base64_decode a id data s).1
  | DeleteLogo id => (delete_logo a id s).1
  | DeviceGone id => with_tables (forget_device id) s
  | ChannelGone id => with_tables (forget_channel id) s
  | _ => s
  end.
Definition serve (a : Around) (c : Call) (m : Mailer) : Mailer :=
  match c with
  | Subscribe instant ip bytes slug email => (subscribe a instant ip bytes slug email m).1
  | Confirm slug token => (confirm a slug token m).1
  | Unsubscribe slug token => (unsubscribe slug token m).1
  | RemoveSubscriber id subscriber => (remove id subscriber m).1
  | Announce k => send_task a k m
  | c => with_site (administer a c) m
  end.
Definition history (calls : list (Around * Call)) : Mailer := foldl (fun m ac => serve ac.1 ac.2 m) Mailer_new calls.
End mailer.

