(* ===== verification/StatusPagesFacts.v ===== *)
(** * Status pages: what stays true of the tables

    Whatever is asked of the pages, their tables refer to one another and hold only what the interface accepts;
    only those who followed the link written to their address are told; what a stranger can make the server
    send is bounded. *)
From Stdlib Require Import Ascii.
From Stdlib Require String.
From stdpp Require Import sorting.
From S2P Require Import Prelude Text Chrono NotifyPolicy RateLimit ApiToken Accounts Auth Guard Handler Html Site StatusHost SiteFacts StatusHostFacts StatusPages Subscribers.

(** ** Tables *)

Definition numbered {R} (t : Table R) : Prop := forall k r, t_rows t !! k = Some r -> k <= t_last t.

Definition domain_ok (x : string) : Prop :=
  x <> ""%string /\ string_forall domain_byte x = true /\ forall r, x <> (r +:+ ".")%string.
Definition page_ok (p : StatusPage) : Prop :=
  is_valid_slug (i_slug (pg p)) = true /\ (forall x, i_domain (pg p) = Some x -> domain_ok x).
Definition incident_ok (n : IncidentInput) : Prop :=
  n_status n ∈ (statuses_for (n_kind n)).1 /\ n_kind n ∈ ["incident"; "maintenance"]%string /\ n_severity n ∈ SEVERITIES.

Record pages_ok (t : Table StatusPage) : Prop := {
  po_numbered : numbered t;
  po_page k p : t_rows t !! k = Some p -> page_ok p;
  po_slug k k' p p' : t_rows t !! k = Some p -> t_rows t !! k' = Some p' -> i_slug (pg p) = i_slug (pg p') -> k = k';
  po_domain k k' p p' x : t_rows t !! k = Some p -> t_rows t !! k' = Some p' ->
    i_domain (pg p) = Some x -> i_domain (pg p') = Some x -> k = k';
}.
Record items_ok (has : Z -> Prop) (t : Table PageItem) : Prop := {
  io_numbered : numbered t;
  io_page k r : t_rows t !! k = Some r -> has (it_page_id r);
  io_once k k' r r' : t_rows t !! k = Some r -> t_rows t !! k' = Some r' ->
    it_page_id r = it_page_id r' -> ii_target_id (it r) = ii_target_id (it r') -> k = k';
}.
Record incidents_ok (has : Z -> Prop) (t : Table Incident) : Prop := {
  no_numbered : numbered t;
  no_incident k r : t_rows t !! k = Some r -> incident_ok (inc r);
  no_page k r page : t_rows t !! k = Some r -> n_page_id (inc r) = Some page -> has page;
}.
Record updates_ok (has : Z -> Prop) (t : Table IncidentUpdate) : Prop := {
  uo_numbered : numbered t;
  uo_incident k r : t_rows t !! k = Some r -> has (up_incident_id r);
}.
Record subscribers_ok (has : Z -> Prop) (t : Table Subscriber) : Prop := {
  so_numbered : numbered t;
  so_page k r : t_rows t !! k = Some r -> has (sb_page_id r);
  so_token k k' r r' : t_rows t !! k = Some r -> t_rows t !! k' = Some r' -> sb_token r = sb_token r' -> k = k';
  so_email k k' r r' : t_rows t !! k = Some r -> t_rows t !! k' = Some r' ->
    sb_page_id r = sb_page_id r' -> sb_email r = sb_email r' -> k = k';
}.
(** A row under this number. *)
Definition there {R} (t : Table R) (k : Z) : Prop := is_Some (t_rows t !! k).
Record tables_ok (d : Tables) : Prop := {
  ok_pages : pages_ok (pages d);
  ok_items : items_ok (there (pages d)) (page_items d);
  ok_incidents : incidents_ok (there (pages d)) (incidents d);
  ok_updates : updates_ok (there (incidents d)) (incident_updates d);
  ok_subscribers : subscribers_ok (there (pages d)) (subscribers d);
}.

Lemma new_tables_ok : tables_ok Tables_new.
Proof. split; split; unfold numbered; cbn; intros *; rewrite ?lookup_empty; discriminate. Qed.

(** *** Rows *)

Lemma numbered_insert {R} (t : Table R) r : numbered t -> numbered (insert_row r t).1.
Proof. intros Hn k x. cbn. rewrite lookup_insert_Some. intros [[<- _]|[_ Hx]]; [lia|]. apply Hn in Hx. lia. Qed.
Lemma numbered_rows {R} (f : gmap Z R -> gmap Z R) t :
  (forall m k r, f m !! k = Some r -> is_Some (m !! k)) -> numbered t -> numbered (on_rows f t).
Proof. intros Hf Hn k r Hk. destruct (Hf _ _ _ Hk) as [r' Hr]. by apply Hn in Hr. Qed.
Lemma fresh_row {R} (t : Table R) : numbered t -> t_rows t !! (t_last t + 1) = None.
Proof. intros Hn. apply eq_None_not_Some. intros [r Hr]. apply Hn in Hr. lia. Qed.

Lemma filter_there {R} (P : Z * R -> Prop) `{forall x, base.Decision (P x)} (m : gmap Z R) k r :
  filter P m !! k = Some r -> is_Some (m !! k).
Proof. rewrite map_lookup_filter_Some. intros [? _]. by eexists. Qed.
Lemma alter_there {R} (f : R -> R) i (m : gmap Z R) k r : alter f i m !! k = Some r -> is_Some (m !! k).
Proof. rewrite lookup_alter_Some. intros [(_ & x & Hx & _)|[_ Hx]]; by eexists. Qed.
Lemma delete_there {R} i (m : gmap Z R) k r : base.delete i m !! k = Some r -> is_Some (m !! k).
Proof. rewrite lookup_delete_Some. intros [_ Hx]. by eexists. Qed.
Lemma fmap_there {R} (f : R -> R) (m : gmap Z R) k r : (f <$> m) !! k = Some r -> is_Some (m !! k).
Proof. rewrite lookup_fmap, fmap_Some. intros (x & Hx & _). by eexists. Qed.
#[local] Hint Resolve filter_there alter_there delete_there fmap_there numbered_rows numbered_insert : rows.

Lemma there_alter {R} (f : R -> R) i (t : Table R) k : there (on_rows (alter f i) t) k <-> there t k.
Proof. unfold there. cbn. by rewrite lookup_alter_is_Some. Qed.
Lemma there_fmap {R} (f : R -> R) (t : Table R) k : there (on_rows (fmap f) t) k <-> there t k.
Proof. unfold there. cbn. by rewrite lookup_fmap, fmap_is_Some. Qed.
Lemma there_insert {R} r (t : Table R) k : there t k -> there (insert_row r t).1 k.
Proof. unfold there. cbn. rewrite lookup_insert_is_Some'. auto. Qed.

(** *** What a write leaves true *)

Definition same_names (p p' : StatusPage) : Prop := i_slug (pg p') = i_slug (pg p) /\ i_domain (pg p') = i_domain (pg p).

Lemma pages_sub t t' :
  t_last t' = t_last t -> (forall k p', t_rows t' !! k = Some p' -> exists p, t_rows t !! k = Some p /\ same_names p p') ->
  pages_ok t -> pages_ok t'.
Proof.
  intros Hl Hs [Hn Ho Hu Hd]. split.
  - intros k p' Hp. destruct (Hs _ _ Hp) as (p & Hk & _). apply Hn in Hk. lia.
  - intros k p' Hp. destruct (Hs _ _ Hp) as (p & Hk & E1 & E2). destruct (Ho _ _ Hk) as [H1 H2]. split.
    + by rewrite E1.
    + intros x. rewrite E2. apply H2.
  - intros k k' p p' (q & Hk & E1 & _)%Hs (q' & Hk' & E2 & _)%Hs. rewrite E1, E2. by apply (Hu k k' q q').
  - intros k k' p p' x (q & Hk & _ & E1)%Hs (q' & Hk' & _ & E2)%Hs. rewrite E1, E2. by apply (Hd k k' q q').
Qed.

Lemma pages_alter t id f : (forall p, same_names p (f p)) -> pages_ok t -> pages_ok (on_rows (alter f id) t).
Proof.
  intros Hf. apply pages_sub; [done|]. intros k p'. cbn. rewrite lookup_alter_Some.
  intros [(-> & p & Hp & ->)|[_ Hp]]; [by exists p|by exists p'].
Qed.

Lemma other_has_spec id (P : StatusPage -> Prop) `{forall x, base.Decision (P x)} d :
  other_has id P d = false -> forall k r, t_rows (pages d) !! k = Some r -> P r -> id = Some k.
Proof.
  unfold other_has. intros Hb%bool_decide_eq_false k r Hk Hr.
  destruct (decide (id = Some k)) as [|Hne]; [done|]. destruct Hb. exists k, r. by split_and!; [| congruence|].
Qed.

Lemma duplicate_free first id input d :
  duplicate first id input d = None -> slug_taken id input d = false /\ domain_taken id input d = false.
Proof. unfold duplicate. by destruct (slug_taken _ _ _), (domain_taken _ _ _). Qed.

Definition input_ok (i : StatusPageInput) : Prop :=
  is_valid_slug (i_slug i) = true /\ (forall x, i_domain i = Some x -> domain_ok x).

Section duplicates.
Variables (first : bool) (id : option Z) (input : StatusPageInput) (d : Tables).
Hypothesis Hdup : duplicate first id input d = None.
Lemma slug_free k r : t_rows (pages d) !! k = Some r -> i_slug (pg r) = i_slug input -> id = Some k.
Proof using Hdup. intros Hk E. destruct (duplicate_free _ _ _ _ Hdup) as [Hs _]. by apply (other_has_spec _ _ _ Hs k r). Qed.
Lemma domain_free k r x :
  t_rows (pages d) !! k = Some r -> i_domain (pg r) = Some x -> i_domain input = Some x -> id = Some k.
Proof using Hdup.
  intros Hk E1 E2. destruct (duplicate_free _ _ _ _ Hdup) as [_ Hs]. apply (other_has_spec _ _ _ Hs k r); [done|].
  rewrite E1, E2. split; [by eexists|done].
Qed.
End duplicates.

Lemma pages_insert first now input d :
  duplicate first None input d = None -> input_ok input -> pages_ok (pages d) ->
  pages_ok (pages (insert_page now input d).1).
Proof.
  intros Hdup Hi [Hn Ho Hu Hd].
  pose proof (slug_free _ _ _ _ Hdup) as Hs. pose proof (domain_free _ _ _ _ Hdup) as Hx.
  split; cbn; try setoid_rewrite lookup_insert_Some.
  - intros k x. cbn. rewrite lookup_insert_Some. intros [[<- _]|[_ Hk]]; [lia|]. apply Hn in Hk. lia.
  - intros k p [[<- <-]|[_ Hk]]; [done|by eapply Ho].
  - intros k k' p p' [[<- <-]|[_ Hk]] [[<- <-]|[_ Hk']] E; cbn in E; try done.
    + pose proof (Hs _ _ Hk' (eq_sym E)). congruence.
    + pose proof (Hs _ _ Hk E). congruence.
    + by eapply Hu.
  - intros k k' p p' x [[<- <-]|[_ Hk]] [[<- <-]|[_ Hk']] E E'; cbn in E, E'; try done.
    + pose proof (Hx _ _ _ Hk' E' E). congruence.
    + pose proof (Hx _ _ _ Hk E E'). congruence.
    + by eapply Hd.
Qed.

Lemma pages_write first now id input d :
  duplicate first (Some id) input d = None -> input_ok input -> pages_ok (pages d) ->
  pages_ok (pages (write_page now id input d).1).
Proof.
  intros Hdup Hi [Hn Ho Hu Hd].
  pose proof (slug_free _ _ _ _ Hdup) as Hs. pose proof (domain_free _ _ _ _ Hdup) as Hx.
  split; cbn; try setoid_rewrite lookup_alter_Some.
  - apply numbered_rows; eauto with rows.
  - intros k p [(<- & p0 & Hk & ->)|[_ Hk]]; [done|by eapply Ho].
  - intros k k' p p' [(<- & p0 & Hk & ->)|[_ Hk]] [(<- & p0' & Hk' & ->)|[Hne' Hk']] E; cbn in E; try done.
    + pose proof (Hs _ _ Hk' (eq_sym E)). congruence.
    + pose proof (Hs _ _ Hk E). congruence.
    + by eapply Hu.
  - intros k k' p p' x [(<- & p0 & Hk & ->)|[_ Hk]] [(<- & p0' & Hk' & ->)|[Hne' Hk']] E E'; cbn in E, E'; try done.
    + pose proof (Hx _ _ _ Hk' E' E). congruence.
    + pose proof (Hx _ _ _ Hk E E'). congruence.
    + by eapply Hd.
Qed.

Section there.
Variables has has' : Z -> Prop.

Lemma items_sub t t' :
  t_last t' = t_last t -> (forall k r, t_rows t' !! k = Some r -> t_rows t !! k = Some r /\ has' (it_page_id r)) ->
  items_ok has t -> items_ok has' t'.
Proof.
  intros Hl Hs [Hn Hp Ho]. split.
  - intros k r [Hk _]%Hs. apply Hn in Hk. lia.
  - by intros k r [_ Hk]%Hs.
  - intros k k' r r' [Hk _]%Hs [Hk' _]%Hs. by eapply Ho.
Qed.
Lemma incidents_sub t t' :
  t_last t' = t_last t ->
  (forall k r, t_rows t' !! k = Some r -> t_rows t !! k = Some r /\ forall page, n_page_id (inc r) = Some page -> has' page) ->
  incidents_ok has t -> incidents_ok has' t'.
Proof.
  intros Hl Hs [Hn Hi Hp]. split.
  - intros k r [Hk _]%Hs. apply Hn in Hk. lia.
  - intros k r [Hk _]%Hs. by eapply Hi.
  - intros k r page [_ Hk]%Hs. apply Hk.
Qed.
Lemma updates_sub t t' :
  t_last t' = t_last t -> (forall k r, t_rows t' !! k = Some r -> t_rows t !! k = Some r /\ has' (up_incident_id r)) ->
  updates_ok has t -> updates_ok has' t'.
Proof.
  intros Hl Hs [Hn Hi]. split.
  - intros k r [Hk _]%Hs. apply Hn in Hk. lia.
  - by intros k r [_ Hk]%Hs.
Qed.
Lemma subscribers_sub t t' :
  t_last t' = t_last t -> (forall k r, t_rows t' !! k = Some r -> t_rows t !! k = Some r /\ has' (sb_page_id r)) ->
  subscribers_ok has t -> subscribers_ok has' t'.
Proof.
  intros Hl Hs [Hn Hp Ht He]. split.
  - intros k r [Hk _]%Hs. apply Hn in Hk. lia.
  - by intros k r [_ Hk]%Hs.
  - intros k k' r r' [Hk _]%Hs [Hk' _]%Hs. by eapply Ht.
  - intros k k' r r' [Hk _]%Hs [Hk' _]%Hs. by eapply He.
Qed.
End there.

Definition includes (has has' : Z -> Prop) : Prop := forall k, has k -> has' k.
Lemma items_mono has has' t : includes has has' -> items_ok has t -> items_ok has' t.
Proof. intros Hi Ho. pose proof (io_page _ _ Ho). eapply items_sub; [| |exact Ho]; [done|]. eauto. Qed.
Lemma incidents_mono has has' t : includes has has' -> incidents_ok has t -> incidents_ok has' t.
Proof. intros Hi Ho. pose proof (no_page _ _ Ho). eapply incidents_sub; [| |exact Ho]; [done|]. eauto. Qed.
Lemma updates_mono has has' t : includes has has' -> updates_ok has t -> updates_ok has' t.
Proof. intros Hi Ho. pose proof (uo_incident _ _ Ho). eapply updates_sub; [| |exact Ho]; [done|]. eauto. Qed.
Lemma subscribers_mono has has' t : includes has has' -> subscribers_ok has t -> subscribers_ok has' t.
Proof. intros Hi Ho. pose proof (so_page _ _ Ho). eapply subscribers_sub; [| |exact Ho]; [done|]. eauto. Qed.

(** The pages of [d] are still there in [d']; the other tables are [d]'s. *)
Lemma more_pages d t :
  tables_ok d -> pages_ok t -> includes (there (pages d)) (there t) -> tables_ok (with_pages (fun _ => t) d).
Proof.
  intros [] Ht Hi. split; cbn; [done| | |done|].
  - by eapply items_mono.
  - by eapply incidents_mono.
  - by eapply subscribers_mono.
Qed.

Lemma altered_pages d id f : tables_ok d -> (forall p, same_names p (f p)) -> tables_ok (with_pages (on_rows (alter f id)) d).
Proof.
  intros Hd Hf. apply (more_pages d (on_rows (alter f id) (pages d))); [done| |].
  - by apply pages_alter, Hd.
  - intros k. by rewrite there_alter.
Qed.

Lemma insert_page_ok first now input d :
  duplicate first None input d = None -> input_ok input -> tables_ok d -> tables_ok (insert_page now input d).1.
Proof.
  intros Hu Hi Hd. pose proof (pages_insert first now input d Hu Hi (ok_pages _ Hd)) as Hp.
  unfold insert_page in *. destruct (insert_row _ _) as [t id] eqn:E. cbn in *. apply more_pages; [done..|].
  intros k Hk. replace t with (insert_row {| pg := input; pg_created_at := now; pg_updated_at := now; pg_logo_type := None |} (pages d)).1
    by by rewrite E. by apply there_insert.
Qed.
Lemma write_page_ok first now id input d :
  duplicate first (Some id) input d = None -> input_ok input -> tables_ok d -> tables_ok (write_page now id input d).1.
Proof.
  intros Hu Hi Hd. apply (more_pages d); [done|by eapply (pages_write _ now), Hd|].
  intros k. cbn. by rewrite there_alter.
Qed.
Lemma touch_page_ok now id d : tables_ok d -> tables_ok (touch_page now id d).
Proof. intros Hd. by apply altered_pages. Qed.
Lemma set_logo_type_ok now id kind d : tables_ok d -> tables_ok (set_logo_type now id kind d).
Proof. intros Hd. by apply altered_pages. Qed.
Lemma forget_channel_ok id d : tables_ok d -> tables_ok (forget_channel id d).
Proof.
  intros Hd. apply (more_pages d (on_rows (fmap (without_channel id)) (pages d))); [done| |].
  - eapply pages_sub; [| |exact (ok_pages _ Hd)]; [done|]. cbn. intros k p'. rewrite lookup_fmap, fmap_Some. intros (p & Hp & ->). by exists p.
  - intros k. by rewrite there_fmap.
Qed.

(** What a page that goes takes with it. *)
Lemma forget_incidents_ok gone has d :
  incidents_ok has (incidents d) -> updates_ok (there (incidents d)) (incident_updates d) ->
  (forall k r page, t_rows (incidents d) !! k = Some r -> gone r = false -> n_page_id (inc r) = Some page ->
     there (pages d) page) ->
  incidents_ok (there (pages d)) (incidents (forget_incidents gone d)) /\
  updates_ok (there (incidents (forget_incidents gone d))) (incident_updates (forget_incidents gone d)).
Proof.
  intros Hi Hu Hg. split.
  - eapply incidents_sub; [| |exact Hi]; [done|]. cbn. intros k r [Hk Hf]%map_lookup_filter_Some. split; [done|].
    intros page. by eapply Hg.
  - eapply updates_sub; [| |exact Hu]; [done|]. cbn. intros k r [Hk Hf]%map_lookup_filter_Some. done.
Qed.

Lemma erase_page_ok id d : tables_ok d -> tables_ok (erase_page id d).1.
Proof.
  intros Hd. unfold erase_page. destruct (has_page id d); [|done]. cbn [fst].
  assert (forall k, k <> id -> there (pages d) k -> there (on_rows (base.delete id) (pages d)) k) as Hstay.
  { intros k Hne. unfold there. cbn. by rewrite lookup_delete_ne. }
  match goal with |- tables_ok (forget_incidents ?g ?x) => pose proof (forget_incidents_ok g (there (pages d)) x) as Hf end.
  destruct Hf as [Hi Hu].
  - apply Hd.
  - apply Hd.
  - cbn. intros k r page Hk Hg Hp. apply Hstay; [|by eapply (no_page _ _ (ok_incidents _ Hd))].
    intros ->. unfold of_page in Hg. bools. congruence.
  - split; [| |exact Hi|exact Hu|].
    + eapply pages_sub; [| |exact (ok_pages _ Hd)]; [done|]. cbn. intros k p [_ Hp]%lookup_delete_Some. by exists p.
    + eapply items_sub; [| |exact (ok_items _ Hd)]; [done|]. cbn. intros k r [Hk Hne]%map_lookup_filter_Some. split; [done|].
      apply Hstay; [done|]. by eapply (io_page _ _ (ok_items _ Hd)).
    + eapply subscribers_sub; [| |exact (ok_subscribers _ Hd)]; [done|]. cbn. intros k r [Hk Hne]%map_lookup_filter_Some.
      split; [done|]. apply Hstay; [done|]. by eapply (so_page _ _ (ok_subscribers _ Hd)).
Qed.

Lemma forget_device_ok id d : tables_ok d -> tables_ok (forget_device id d).
Proof.
  intros [Hp Hi Hn Hu Hs]. split; try done. eapply items_sub; [| |exact Hi]; [done|]. cbn.
  intros k r [Hk _]%map_lookup_filter_Some. split; [done|]. by eapply (io_page _ _ Hi).
Qed.

(** Services are listed once. *)
Lemma insert_items_ok has page inputs : forall t n,
  has page -> items_ok has t -> NoDup (ii_target_id <$> inputs) ->
  (forall k r, t_rows t !! k = Some r -> it_page_id r = page -> ii_target_id (it r) ∉ ii_target_id <$> inputs) ->
  items_ok has (insert_items page t n inputs).
Proof.
  induction inputs as [|i inputs IH]; intros t n Hp Ho Hd Hf; [done|]. rewrite fmap_cons in Hd, Hf.
  apply NoDup_cons in Hd as [Hni Hd]. cbn [insert_items]. destruct Ho as [Hn Hio Hone]. apply IH; [done| |done|].
  - split; cbn; [by apply numbered_insert| |]; setoid_rewrite lookup_insert_Some.
    + intros k r [[<- <-]|[_ Hk]]; [done|by eapply Hio].
    + intros k k' r r' [[<- <-]|[_ Hk]] [[<- <-]|[_ Hk']] E E'; cbn in E, E'; [done| | |by eapply Hone].
      * destruct (Hf _ _ Hk' (eq_sym E)). rewrite <-E'. by left.
      * destruct (Hf _ _ Hk E). rewrite E'. by left.
  - cbn. intros k r. rewrite lookup_insert_Some. intros [[<- <-]|[_ Hk]] E; [done|].
    intros Hin. apply (Hf _ _ Hk E). by right.
Qed.
Lemma store_items_ok now page devices inputs d d' :
  store_items now page devices inputs d = Some d' -> tables_ok d -> tables_ok d'.
Proof.
  unfold store_items. destruct (has_page page d) eqn:Hp; [|done]. case_bool_decide as Hd; [|done].
  destruct (forallb _ _); [|done]. intros [= <-] Hok. apply touch_page_ok. destruct Hok as [Hpg Hi Hn Hu Hs].
  apply bool_decide_eq_true in Hp. split; try done. apply insert_items_ok; [done| |done|].
  - eapply items_sub; [| |exact Hi]; [done|]. cbn. intros k r [Hk Hne]%map_lookup_filter_Some. split; [done|].
    by eapply (io_page _ _ Hi).
  - cbn. by intros k r [_ Hne]%map_lookup_filter_Some E.
Qed.

(** *** Announcements *)

Lemma more_incidents d t :
  tables_ok d -> incidents_ok (there (pages d)) t -> includes (there (incidents d)) (there t) ->
  tables_ok (with_incidents (fun _ => t) d).
Proof. intros [Hp Hi Hn Hu Hs] Ht Hinc. split; cbn; [done..| |done]. by eapply updates_mono. Qed.

Lemma insert_incident_ok now input d d' id :
  insert_incident now input d = Some (d', id) -> incident_ok input -> tables_ok d -> tables_ok d'.
Proof.
  unfold insert_incident. destruct (is_some_and _ _) eqn:Hp; [done|]. cbn [insert_row]. intros [= <- _] Hi Hd.
  assert (tables_ok (with_incidents (fun _ => (insert_row {| inc := input; inc_created_at := now; inc_updated_at := now |}
            (incidents d)).1) d)) as Hd'.
  { destruct (ok_incidents _ Hd) as [Hn Ho Hpg]. apply more_incidents; [done| |by intros k; apply there_insert].
    split; [by apply numbered_insert| |]; cbn; setoid_rewrite lookup_insert_Some.
    - intros k r [[<- <-]|[_ Hk]]; [done|by eapply Ho].
    - intros k r page [[<- <-]|[_ Hk]] E; [|by eapply Hpg]. cbn in E. rewrite E in Hp. cbn in Hp.
      apply negb_false_iff in Hp. by apply bool_decide_eq_true in Hp. }
  destruct (n_page_id input); [by apply touch_page_ok|done].
Qed.

Lemma alter_incident_ok id f d :
  tables_ok d ->
  (forall i, get_incident id d = Some i -> incident_ok (inc (f i)) /\
     forall page, n_page_id (inc (f i)) = Some page -> there (pages d) page) ->
  tables_ok (with_incidents (on_rows (alter f id)) d).
Proof.
  intros Hd Hf. destruct (ok_incidents _ Hd) as [Hn Ho Hpg].
  apply (more_incidents d); [done| |by intros k; rewrite there_alter].
  split; [by eauto with rows| |]; cbn; setoid_rewrite lookup_alter_Some.
  - intros k r [(<- & i & Hk & ->)|[_ Hk]]; [by apply Hf|by eapply Ho].
  - intros k r page [(<- & i & Hk & ->)|[_ Hk]] E; [by apply (Hf i)|by eapply Hpg].
Qed.
Lemma write_incident_ok now id input d d' found :
  write_incident now id input d = Some (d', found) -> incident_ok input -> tables_ok d -> tables_ok d'.
Proof.
  unfold write_incident. destruct (bool_decide _ && _) eqn:Hp; [done|]. intros [= <- _] Hi Hd.
  apply alter_incident_ok; [done|]. intros i Hg. split; [done|]. cbn. intros page E.
  rewrite bool_decide_eq_true_2 in Hp by (rewrite Hg; by eexists). rewrite E in Hp. cbn in Hp.
  apply negb_false_iff in Hp. by apply bool_decide_eq_true in Hp.
Qed.
Lemma erase_incident_ok id d : tables_ok d -> tables_ok (erase_incident id d).1.
Proof.
  intros [Hp Hi Hn Hu Hs]. cbn. split; try done; cbn.
  - eapply incidents_sub; [| |exact Hn]; [done|]. cbn. intros k r [_ Hk]%lookup_delete_Some. split; [done|].
    intros page. by eapply (no_page _ _ Hn).
  - eapply updates_sub; [| |exact Hu]; [done|]. cbn. intros k r [Hk Hne]%map_lookup_filter_Some. split; [done|].
    cbn in Hne. unfold there. cbn. rewrite lookup_delete_ne by done. by eapply (uo_incident _ _ Hu).
Qed.
Lemma store_update_ok now id status body closes d d' :
  store_update now id status body closes d = Some d' ->
  (forall i, get_incident id d = Some i -> status ∈ (statuses_for (n_kind (inc i))).1) -> tables_ok d -> tables_ok d'.
Proof.
  unfold store_update. case_bool_decide as Hg; [|done]. intros [= <-] Hst Hd. apply alter_incident_ok.
  - destruct Hd as [Hp Hi Hn [Hu1 Hu2] Hs]. split; try done. split; cbn; [by apply numbered_insert|].
    setoid_rewrite lookup_insert_Some. intros k r [[<- <-]|[_ Hk]]; [done|by eapply Hu2].
  - intros i Hi. change (get_incident id d = Some i) in Hi. destruct (ok_incidents _ Hd) as [_ Ho Hpg]. split.
    + destruct (Ho _ _ Hi) as (_ & Hk & Hsev). split_and!; [exact (Hst i Hi)|done|done].
    + intros page. by apply (Hpg id i).
Qed.

(** *** Subscribers *)

Lemma fewer_subscribers d t :
  tables_ok d -> t_last t = t_last (subscribers d) -> t_rows t ⊆ t_rows (subscribers d) ->
  tables_ok (with_subscribers (fun _ => t) d).
Proof.
  intros [Hp Hi Hn Hu Hs] Hl Hsub. split; try done. apply (subscribers_sub _ _ _ _ Hl) with (2 := Hs).
  intros k r Hk. pose proof (lookup_weaken _ _ _ _ Hk Hsub) as Hk'. split; [done|]. by eapply (so_page _ _ Hs).
Qed.

Lemma elem_of_select {R} (keep : R -> bool) (t : Table R) k r :
  (k, r) ∈ select keep t <-> t_rows t !! k = Some r /\ keep r = true.
Proof. unfold select. rewrite list_elem_of_filter, elem_of_sort_by, elem_of_map_to_list. cbn. tauto. Qed.
Lemma head_select {R} (keep : R -> bool) (t : Table R) k r :
  head (select keep t) = Some (k, r) -> t_rows t !! k = Some r /\ keep r = true.
Proof. intros Hh. apply elem_of_select. destruct (select keep t); [done|]. injection Hh as ->. by left. Qed.
Lemma head_select_None {R} (keep : R -> bool) (t : Table R) k r :
  head (select keep t) = None -> t_rows t !! k = Some r -> keep r = false.
Proof.
  intros Hh Hk. destruct (keep r) eqn:E; [|done]. assert ((k, r) ∈ select keep t) as Hin by by apply elem_of_select.
  destruct (select keep t); [by apply elem_of_nil in Hin|done].
Qed.

Lemma token_free id token d k s :
  token_taken id token d = false -> t_rows (subscribers d) !! k = Some s -> sb_token s = token -> id = Some k.
Proof.
  unfold token_taken. intros Hb%bool_decide_eq_false Hk E. destruct (decide (id = Some k)) as [|Hne]; [done|].
  destruct Hb. exists k, s. by split_and!; [|congruence|].
Qed.

Lemma find_subscriber_Some page email d k s :
  find_subscriber page email d = Some (k, s) ->
  t_rows (subscribers d) !! k = Some s /\ sb_page_id s = page /\ sb_email s = email.
Proof.
  intros [Hk Hb]%head_select. apply andb_true_iff in Hb as [Hp%Z.eqb_eq He%bool_decide_eq_true]. done.
Qed.
Lemma find_subscriber_None page email d k s :
  find_subscriber page email d = None -> t_rows (subscribers d) !! k = Some s -> sb_page_id s = page -> sb_email s <> email.
Proof.
  intros Hf Hk Hp He. pose proof (head_select_None _ _ _ _ Hf Hk) as Hb. cbn in Hb.
  rewrite Hp, Z.eqb_refl, bool_decide_eq_true_2 in Hb by done. done.
Qed.

Lemma upsert_ok now page email token d d' :
  upsert_pending_subscriber now page email token d = Some d' -> there (pages d) page -> tables_ok d -> tables_ok d'.
Proof.
  unfold upsert_pending_subscriber. intros Hu Hpg [Hp Hi Hn Hup [Hs1 Hs2 Hs3 Hs4]].
  destruct (find_subscriber page email d) as [[id s]|] eqn:Ef.
  - apply find_subscriber_Some in Ef as (Hid & Hpage & Hemail).
    destruct (sb_confirmed_at s); [by injection Hu as <-|]. destruct (token_taken _ _ _) eqn:Et; [done|]. injection Hu as <-.
    assert (forall k r, t_rows (subscribers d) !! k = Some r -> sb_token r = token -> Some id = Some k) as Hf
      by (intros k r; by apply token_free).
    split; try done. split; unfold numbered; cbn; setoid_rewrite lookup_insert_Some.
    + intros k r [[<- <-]|[_ Hk]]; by eapply Hs1.
    + intros k r [[<- <-]|[_ Hk]]; [by eapply (Hs2 id s)|by eapply Hs2].
    + intros k k' r r' [[<- <-]|[_ Hk]] [[<- <-]|[_ Hk']] E; cbn in E; [done| | |by eapply Hs3].
      * pose proof (Hf _ _ Hk' (eq_sym E)). congruence.
      * pose proof (Hf _ _ Hk E). congruence.
    + intros k k' r r' [[<- <-]|[_ Hk]] [[<- <-]|[_ Hk']] E E'; cbn in E, E'; [done| | |by eapply Hs4].
      * by apply (Hs4 id k' s r').
      * by apply (Hs4 k id r s).
  - destruct (token_taken _ _ _) eqn:Et; [done|]. injection Hu as <-.
    split; try done. split; cbn; [by apply numbered_insert| | |]; setoid_rewrite lookup_insert_Some.
    + intros k r [[<- <-]|[_ Hk]]; [done|by eapply Hs2].
    + intros k k' r r' [[<- <-]|[_ Hk]] [[<- <-]|[_ Hk']] E; cbn in E; [done| | |by eapply Hs3].
      * pose proof (token_free _ _ _ _ _ Et Hk' (eq_sym E)). done.
      * pose proof (token_free _ _ _ _ _ Et Hk E). done.
    + intros k k' r r' [[<- <-]|[_ Hk]] [[<- <-]|[_ Hk']] E E'; cbn in E, E'; [done| | |by eapply Hs4].
      * by destruct (find_subscriber_None _ _ _ _ _ Ef Hk' (eq_sym E)).
      * by destruct (find_subscriber_None _ _ _ _ _ Ef Hk E).
Qed.

(** ** Handlers *)

Lemma wp_result {S A} (r : ApiError + A) (Q : A -> S -> Prop) R s :
  (forall a, r = inr a -> Q a s) -> (forall e, r = inl e -> R e s) -> wp (result r) Q R s.
Proof. destruct r; intros H1 H2; [by apply H2|by apply H1]. Qed.
Section rules.
Context {A : Type}.
Implicit Types (Q : A -> State -> Prop) (R : ApiError -> State -> Prop).
Lemma wp_reads_tables f Q R s : Q (f (tables s)) s -> wp (reads f) Q R s.
Proof. done. Qed.
Lemma wp_runs f Q R s : Q (f (tables s)).2 (with_tables (fun _ => (f (tables s)).1) s) -> wp (runs f) Q R s.
Proof. unfold runs, wp. by destruct (f (tables s)). Qed.
Lemma wp_tries f Q R s :
  (forall d a, f (tables s) = Some (d, a) -> Q a (with_tables (fun _ => d) s)) -> (f (tables s) = None -> R ApiError.Internal s) ->
  wp (tries f) Q R s.
Proof. unfold tries, wp. destruct (f (tables s)) as [[d a]|]; intros H1 H2; [by apply H1|by apply H2]. Qed.
End rules.
Lemma wp_asks {A} f (Q : A -> Mailer -> Prop) R m : Q (f (tables (site m))) m -> wp (asks f) Q R m.
Proof. done. Qed.
Lemma wp_stores f (Q : () -> Mailer -> Prop) (R : ApiError -> Mailer -> Prop) m :
  Q tt (with_site (with_tables f) m) -> wp (stores f) Q R m.
Proof. done. Qed.
Lemma wp_writes f (Q : () -> State -> Prop) (R : ApiError -> State -> Prop) s :
  Q tt (with_tables f s) -> wp (writes f) Q R s.
Proof. done. Qed.

(** One statement of a handler on these tables. *)
Ltac sstep :=
  lazymatch goal with
  | |- wp (result _) _ _ _ => apply wp_result; intros
  | |- wp (reads _) _ _ _ => apply wp_reads_tables
  | |- wp (writes _) _ _ _ => apply wp_writes
  | |- wp (asks _) _ _ _ => apply wp_asks
  | |- wp (stores _) _ _ _ => apply wp_stores
  | |- wp (runs _) _ _ _ => apply wp_runs
  | |- wp (tries _) _ _ _ => apply wp_tries; intros
  | _ => hstep
  end.

Section handlers.
Context `{Crates} `{Web}.
Variable alphanumeric : string -> bool.
Variable address_ok : string -> bool.
Variable smtp_ok : Recipient -> bool.
Variable url_username : Url -> string.
Variable url_password : Url -> option string.
Variable slug_named_first : bool.
Variable parse_from_rfc3339 : string -> option DateTime.
Variable parse_from_str : string -> string -> option DateTime.
Variable base64_decode : string -> option (list Z).

Lemma domain_asked_ok existing asked domain :
  (forall p, existing = Some p -> page_ok p) -> domain_asked existing asked = inr domain ->
  forall x, domain = Some x -> domain_ok x.
Proof.
  intros He Hd x ->. destruct asked as [[|n|raw|]|]; cbn in Hd; try discriminate.
  - destruct (normalise_domain raw) as [|d] eqn:En; [done|]. injection Hd as ->. by apply normalise_stored in En.
  - destruct existing as [p|]; cbn in Hd; [|done]. injection Hd as Hd. by apply (He p).
Qed.

Lemma validate_ok a existing origin p s :
  (forall q, existing = Some q -> page_ok q) ->
  wp (validate url_username url_password a existing origin p) (fun i s' => s' = s /\ input_ok i) (fun _ s' => s' = s) s.
Proof.
  intros He. unfold validate.
  repeat first [progress sstep|progress (intros; subst)|done]. cbn. split; [done|]. split; cbn.
  - by apply negb_false_iff.
  - by eapply domain_asked_ok.
Qed.

Lemma validate_incident_ok a existing p s :
  wp (validate_incident parse_from_rfc3339 parse_from_str a existing p)
    (fun i s' => s' = s /\ incident_ok i /\ (forall e, existing = Some e -> n_kind i = n_kind (inc e)))
    (fun _ s' => s' = s) s.
Proof.
  unfold validate_incident.
  repeat first [progress sstep|progress (intros; subst)|done].
  all: split; [done|]; split; [|by intros e ->].
  all: unfold incident_ok; cbn [n_status n_kind n_severity]; rewrite Heqp0; cbn [fst].
  all: repeat match goal with H : negb (bool_decide _) = false |- _ => apply negb_false_iff, bool_decide_eq_true in H end.
  all: by split_and!.
Qed.

(** The tables stay consistent and no address is added. *)
Definition kept_by (s0 s : State) : Prop :=
  tables_ok (tables s) /\ t_rows (subscribers (tables s)) ⊆ t_rows (subscribers (tables s0)).
Lemma kept_refl s : tables_ok (tables s) -> kept_by s s.
Proof. by split. Qed.

(** Walks through a handler that has checked its input. *)
Ltac walk := repeat first [progress sstep|progress (intros; subst)].
(** A statement that did not break a constraint. *)
Ltac stored :=
  match goal with E : (_ ≫= fun d => Some (d, tt)) = Some _ |- _ =>
    apply bind_Some in E; destruct E as (? & ? & E); injection E as <- end.

Lemma checked_page existing a origin p s (f : StatusPageInput -> H StatusPageView) :
  tables_ok (tables s) -> (forall q, existing = Some q -> page_ok q) ->
  (forall i, input_ok i -> leaves (f i) s (kept_by s)) ->
  leaves (validate url_username url_password a existing origin p ≫= f) s (kept_by s).
Proof.
  intros Hok He Hf. apply wp_bind. eapply wp_mono; [by apply validate_ok| |].
  - intros i s' [-> Hi]. by apply Hf.
  - intros e s' ->. by apply kept_refl.
Qed.

Lemma create_page_keeps a origin p s :
  tables_ok (tables s) -> leaves (create_page url_username url_password slug_named_first a origin p) s (kept_by s).
Proof.
  intros Hok. unfold create_page. apply checked_page; [done..|]. intros i Hi. unfold page_view, leaves.
  walk; try by apply kept_refl. all: split; [by eapply (insert_page_ok slug_named_first)|done].
Qed.
Lemma update_page_keeps a id origin p s :
  tables_ok (tables s) -> leaves (update_page url_username url_password slug_named_first a id origin p) s (kept_by s).
Proof.
  intros Hok. unfold update_page. apply wp_bind, wp_reads_tables, wp_bind, wp_ok_or; [|intros _; by apply kept_refl].
  intros existing Hex. apply checked_page; [done| |].
  - intros q [= <-]. by eapply (po_page _ (ok_pages _ Hok)).
  - intros i Hi. unfold page_view, leaves. walk; try by apply kept_refl.
    all: split; [by eapply (write_page_ok slug_named_first)|done].
Qed.
Lemma erase_page_sub id d : t_rows (subscribers (erase_page id d).1) ⊆ t_rows (subscribers d).
Proof. unfold erase_page. destruct (has_page id d); [|done]. apply map_filter_subseteq. Qed.
Lemma delete_page_keeps id s : tables_ok (tables s) -> leaves (delete_page id) s (kept_by s).
Proof.
  intros Hok. unfold delete_page, leaves. walk.
  all: split; [by apply erase_page_ok|apply erase_page_sub].
Qed.
Lemma store_items_subscribers now page devices inputs d d' :
  store_items now page devices inputs d = Some d' -> subscribers d' = subscribers d.
Proof. unfold store_items. destruct (_ && _); [|done]. by intros [= <-]. Qed.
Lemma set_items_keeps a id payload s : tables_ok (tables s) -> leaves (set_items a id payload) s (kept_by s).
Proof.
  intros Hok. unfold set_items, leaves. walk; try by apply kept_refl.
  stored.
  split; [by eapply store_items_ok|]. cbn. by erewrite store_items_subscribers.
Qed.

Lemma checked_incident existing a p s (f : IncidentInput -> H IncidentView) :
  tables_ok (tables s) ->
  (forall i, incident_ok i -> (forall e, existing = Some e -> n_kind i = n_kind (inc e)) -> leaves (f i) s (kept_by s)) ->
  leaves (validate_incident parse_from_rfc3339 parse_from_str a existing p ≫= f) s (kept_by s).
Proof.
  intros Hok Hf. apply wp_bind. eapply wp_mono; [by apply validate_incident_ok| |].
  - intros i s' (-> & Hi & Hk). by apply Hf.
  - intros e s' ->. by apply kept_refl.
Qed.
Lemma insert_incident_subscribers now input d d' id :
  insert_incident now input d = Some (d', id) -> subscribers d' = subscribers d.
Proof.
  unfold insert_incident. destruct (is_some_and _ _); [done|]. cbn. intros [= <- _]. by destruct (n_page_id input).
Qed.
Lemma insert_incident_row now input d d' id :
  insert_incident now input d = Some (d', id) -> inc <$> get_incident id d' = Some input.
Proof.
  unfold insert_incident. destruct (is_some_and _ _); [done|]. cbn. intros [= <- <-].
  unfold get_incident. destruct (n_page_id input); cbn; by rewrite lookup_insert_eq.
Qed.
Lemma store_update_subscribers now id status body closes d d' :
  store_update now id status body closes d = Some d' -> subscribers d' = subscribers d.
Proof. unfold store_update. case_bool_decide; [|done]. by intros [= <-]. Qed.

Lemma create_incident_keeps a p s :
  tables_ok (tables s) -> leaves (create_incident parse_from_rfc3339 parse_from_str a p) s (kept_by s).
Proof.
  intros Hok. unfold create_incident. apply checked_incident; [done|]. intros i Hi _.
  unfold found_incident, incident_view, leaves. apply wp_bind, wp_tries; [|intros _; by apply kept_refl].
  intros d id Hin. pose proof (insert_incident_ok _ _ _ _ _ Hin Hi Hok) as Hd.
  pose proof (insert_incident_subscribers _ _ _ _ _ Hin) as Hs.
  assert (kept_by s (with_tables (fun _ => d) s)) as Hk by (split; [done|cbn; by rewrite Hs]).
  walk; try done. all: stored; split; cbn; [|by erewrite store_update_subscribers, Hs].
  all: eapply store_update_ok; [done| |done]; intros i' Hg; apply insert_incident_row in Hin;
    change (get_incident id d = Some i') in Hg; rewrite Hg in Hin; injection Hin as <-; apply Hi.
Qed.
Lemma end_kept_ok now existing input : incident_ok input -> incident_ok (end_kept now existing input).
Proof. unfold end_kept. by destruct (n_ends_at input). Qed.
Lemma write_incident_subscribers now id input d d' found :
  write_incident now id input d = Some (d', found) -> subscribers d' = subscribers d.
Proof. unfold write_incident. destruct (_ && _); [done|]. by intros [= <- _]. Qed.
Lemma update_incident_keeps a id p s :
  tables_ok (tables s) -> leaves (update_incident parse_from_rfc3339 parse_from_str a id p) s (kept_by s).
Proof.
  intros Hok. unfold update_incident, found_incident. apply wp_bind, wp_bind, wp_reads_tables, wp_ok_or; [|intros _; by apply kept_refl].
  intros existing Hex. apply checked_incident; [done|]. intros i Hi _. unfold incident_view, leaves.
  apply wp_bind, wp_tries; [|intros _; by apply kept_refl]. intros d found Hw.
  assert (kept_by s (with_tables (fun _ => d) s)) as Hk.
  { split; [eapply write_incident_ok; [exact Hw|by apply end_kept_ok|done]|]. cbn. by erewrite write_incident_subscribers. }
  walk; done.
Qed.
Lemma delete_incident_keeps id s : tables_ok (tables s) -> leaves (delete_incident id) s (kept_by s).
Proof. intros Hok. unfold delete_incident, leaves. walk. all: split; [by apply erase_incident_ok|done]. Qed.
Lemma add_update_keeps a id status text s : tables_ok (tables s) -> leaves (add_update a id status text) s (kept_by s).
Proof.
  intros Hok. unfold add_update, found_incident, incident_view, leaves. walk; try by apply kept_refl.
  all: stored; split; cbn; [|by erewrite store_update_subscribers].
  all: eapply store_update_ok; [done| |done]; intros i Hg.
  all: repeat match goal with H : negb (bool_decide _) = false |- _ => apply negb_false_iff, bool_decide_eq_true in H end.
  all: by simplify_eq.
Qed.
Lemma upload_logo_keeps a id data s : tables_ok (tables s) -> leaves (upload_logo base64_decode a id data) s (kept_by s).
Proof.
  intros Hok. unfold upload_logo, leaves. walk; try by apply kept_refl. split; [by apply set_logo_type_ok|done].
Qed.
Lemma delete_logo_keeps a id s : tables_ok (tables s) -> leaves (delete_logo a id) s (kept_by s).
Proof.
  intros Hok. unfold delete_logo, leaves. walk; try by apply kept_refl. split; [by apply set_logo_type_ok|done].
Qed.

Notation administer := (administer url_username url_password slug_named_first parse_from_rfc3339 parse_from_str base64_decode).
Lemma administer_keeps a c s : tables_ok (tables s) -> kept_by s (administer a c s).
Proof.
  intros Hok. destruct c; cbn [Subscribers.administer]; try (by apply kept_refl).
  1-10: apply leaves_state.
  - by apply create_page_keeps.
  - by apply update_page_keeps.
  - by apply delete_page_keeps.
  - by apply set_items_keeps.
  - by apply create_incident_keeps.
  - by apply update_incident_keeps.
  - by apply delete_incident_keeps.
  - by apply add_update_keeps.
  - by apply upload_logo_keeps.
  - by apply delete_logo_keeps.
  - split; [by apply forget_device_ok|done].
  - split; [by apply forget_channel_ok|done].
Qed.

(** ** Who is told *)

Notation serve := (serve alphanumeric address_ok smtp_ok url_username url_password slug_named_first parse_from_rfc3339
  parse_from_str base64_decode).
Notation history := (history alphanumeric address_ok smtp_ok url_username url_password slug_named_first parse_from_rfc3339
  parse_from_str base64_decode).

(** A token was written to this address, for this page. *)
Definition written_to (ms : list Message) (page : Z) (token email : string) : Prop :=
  exists from instant sent mail, Confirmation page token from instant sent mail ∈ ms /\ m_to mail = email.
(** Someone has presented this token. *)
Definition followed (calls : list (Around * Call)) (token : string) : Prop := exists a slug, (a, Confirm slug (Some token)) ∈ calls.

Record told_ok (F : string -> Prop) (m : Mailer) : Prop := {
  to_tables : tables_ok (tables (site m));
  to_written k s : t_rows (subscribers (tables (site m))) !! k = Some s ->
    written_to (messages m) (sb_page_id s) (sb_token s) (sb_email s);
  to_confirmed k s : t_rows (subscribers (tables (site m))) !! k = Some s -> sb_confirmed_at s <> None -> F (sb_token s);
  to_announced page token mail : Announcement page token mail ∈ messages m ->
    F token /\ written_to (messages m) page token (m_to mail);
}.

Lemma written_app ms ms' page token email : written_to ms page token email -> written_to (ms ++ ms') page token email.
Proof. intros (from & i & sent & mail & Hin & E). exists from, i, sent, mail. split; [by apply elem_of_app; left|done]. Qed.

(** No address more, nothing written. *)
Lemma told_fewer F m s :
  told_ok F m -> kept_by (site m) s -> told_ok F (with_site (fun _ => s) m).
Proof.
  intros [Ht Hw Hc Ha] [Hok Hsub]. split; cbn; [done| | |done]; intros k x Hk;
    pose proof (lookup_weaken _ _ _ _ Hk Hsub) as Hk'; [by eapply Hw|by eapply Hc].
Qed.
Lemma told_purged F now m :
  told_ok F m -> told_ok F (with_site (with_tables (purge_unconfirmed now)) m).
Proof.
  intros Hm. eapply (told_fewer F m (with_tables (purge_unconfirmed now) (site m))); [done|].
  split; [|apply map_filter_subseteq]. eapply (fewer_subscribers (tables (site m))); [apply Hm|done|apply map_filter_subseteq].
Qed.
Lemma told_deleted F page id m :
  told_ok F m -> told_ok F (with_site (with_tables (fun d => (delete_subscriber page id d).1)) m).
Proof.
  intros Hm. eapply (told_fewer F m (with_tables (fun d => (delete_subscriber page id d).1) (site m))); [done|].
  split; [|apply map_filter_subseteq]. eapply (fewer_subscribers (tables (site m))); [apply Hm|done|apply map_filter_subseteq].
Qed.
Lemma told_limited F f m : told_ok F m -> told_ok F (with_limiter f m).
Proof. by intros []. Qed.

Lemma upsert_rows now page email token d d' :
  upsert_pending_subscriber now page email token d = Some d' -> forall k s, t_rows (subscribers d') !! k = Some s ->
  t_rows (subscribers d) !! k = Some s \/
  sb_page_id s = page /\ sb_email s = email /\ sb_token s = token /\ sb_confirmed_at s = None.
Proof.
  unfold upsert_pending_subscriber. intros Hu k s. destruct (find_subscriber page email d) as [[id s0]|] eqn:Ef.
  - apply find_subscriber_Some in Ef as (Hid & Hp & He). destruct (sb_confirmed_at s0) eqn:Ec; [injection Hu as <-; by left|].
    destruct (token_taken _ _ _); [done|]. injection Hu as <-. cbn. rewrite lookup_insert_Some.
    intros [[_ <-]|[_ Hk]]; [right|by left]. by split_and!.
  - destruct (token_taken _ _ _); [done|]. injection Hu as <-. cbn. rewrite lookup_insert_Some.
    intros [[_ <-]|[_ Hk]]; [right|by left]. by split_and!.
Qed.

Lemma get_page_by_slug_there slug d id page : get_page_by_slug slug d = Some (id, page) -> there (pages d) id.
Proof. intros [Hk _]%head_select. by eexists. Qed.

Lemma told_signed F now page email token from instant sent mail d' m :
  told_ok F m -> there (pages (tables (site m))) page -> m_to mail = email ->
  upsert_pending_subscriber now page email token (tables (site m)) = Some d' ->
  told_ok F (writes_to (Confirmation page token from instant sent mail) (with_site (with_tables (fun _ => d')) m)).
Proof.
  intros [Ht Hw Hc Ha] Hp Hto Hu. split; cbn.
  - by eapply upsert_ok.
  - intros k s Hk. destruct (upsert_rows _ _ _ _ _ _ Hu _ _ Hk) as [Hold|(-> & -> & -> & _)]; [by eapply written_app, Hw|].
    exists from, instant, sent, mail. split; [|done]. apply elem_of_app. right. by apply list_elem_of_singleton.
  - intros k s Hk Hne. destruct (upsert_rows _ _ _ _ _ _ Hu _ _ Hk) as [Hold|(_ & _ & _ & E)]; [by eapply Hc|done].
  - intros pg tok ml [Hin|Hin%list_elem_of_singleton]%elem_of_app; [|done]. destruct (Ha _ _ _ Hin). split; [done|].
    by apply written_app.
Qed.

Lemma subscribe_told F a instant ip bytes slug email m :
  told_ok F m -> leaves (subscribe alphanumeric address_ok smtp_ok a instant ip bytes slug email) m (told_ok F).
Proof.
  intros Hm. unfold subscribe, subscribable, leaves. apply wp_bind, wp_act. cbn.
  destruct (admit_ ip instant (limiter m)) as [l refused]. cbn.
  pose proof (told_limited F (fun _ => l) m Hm) as Hl. destruct refused; [done|].
  walk; try done; try by apply told_purged. eapply told_signed; [by apply told_purged| |done|done].
  by eapply get_page_by_slug_there.
Qed.

Lemma told_more (F F' : string -> Prop) m : (forall t, F t -> F' t) -> told_ok F m -> told_ok F' m.
Proof. intros HF [Ht Hw Hc Ha]. split; [done|done| |]. - intros k s Hk Hne. by eapply HF, Hc. - intros p t ml Hin. destruct (Ha _ _ _ Hin). auto. Qed.

Lemma confirm_subscriber_ok now k d : tables_ok d -> tables_ok (confirm_subscriber now k d).
Proof.
  intros [Hp Hi Hn Hu [Hs1 Hs2 Hs3 Hs4]]. split; try done.
  assert (forall j s', t_rows (subscribers (confirm_subscriber now k d)) !! j = Some s' ->
            exists s, t_rows (subscribers d) !! j = Some s /\ sb_page_id s' = sb_page_id s /\ sb_token s' = sb_token s /\
              sb_email s' = sb_email s) as Hs.
  { cbn. intros j s'. rewrite lookup_alter_Some. intros [(-> & s & Hs & ->)|[_ Hs]]; by eexists. }
  split.
  - intros j s' (s & Hk & _)%Hs. cbn. by eapply Hs1.
  - intros j s' (s & Hk & -> & _)%Hs. by eapply Hs2.
  - intros j j' s s' (r & Hk & _ & -> & _)%Hs (r' & Hk' & _ & -> & _)%Hs. by apply (Hs3 j j' r r').
  - intros j j' s s' (r & Hk & -> & _ & ->)%Hs (r' & Hk' & -> & _ & ->)%Hs. by apply (Hs4 j j' r r').
Qed.

Lemma subscriber_by_token_spec page token d k s :
  subscriber_by_token page token d = Some (k, s) -> t_rows (subscribers d) !! k = Some s /\ sb_token s = token /\ sb_page_id s = page.
Proof. intros [Hk Hb]%head_select. apply andb_true_iff in Hb as [Hp%Z.eqb_eq He%bool_decide_eq_true]. done. Qed.

Lemma told_confirmed (F : string -> Prop) now page token k s m :
  told_ok F m -> F token -> subscriber_by_token page token (tables (site m)) = Some (k, s) ->
  told_ok F (with_site (with_tables (confirm_subscriber now k)) m).
Proof.
  intros [Ht Hw Hc Ha] HF (Hk & Etok & _)%subscriber_by_token_spec. split; cbn; [by apply confirm_subscriber_ok| | |done].
  - intros j s'. rewrite lookup_alter_Some. intros [(<- & r & Hr & ->)|[_ Hs]]; [exact (Hw k r Hr)|by eapply Hw].
  - intros j s'. rewrite lookup_alter_Some. intros [(<- & r & Hr & ->)|[_ Hs]] Hne; [|by eapply Hc]. cbn in *.
    assert (r = s) as -> by congruence. by rewrite Etok.
Qed.
Lemma confirm_told F a slug token m :
  told_ok F m -> (forall t, token = Some t -> F t) -> leaves (confirm a slug token) m (told_ok F).
Proof.
  intros Hm HF. unfold confirm, subscribable, leaves. walk; try done. eapply told_confirmed; [done| |done].
  destruct token; [by apply HF|done].
Qed.
Lemma unsubscribe_told F slug token m : told_ok F m -> leaves (unsubscribe slug token) m (told_ok F).
Proof. intros Hm. unfold unsubscribe, leaves. walk; try done. by apply told_deleted. Qed.
Lemma remove_told F id subscriber m : told_ok F m -> leaves (remove id subscriber) m (told_ok F).
Proof. intros Hm. unfold remove, leaves. walk; try done. by apply (told_deleted F id subscriber). Qed.

Lemma elem_of_announce_now a i message d page token mail :
  Announcement page token mail ∈ announce_now smtp_ok a i message d ->
  exists k s, t_rows (subscribers d) !! k = Some s /\ sb_confirmed_at s <> None /\
    sb_page_id s = page /\ sb_token s = token /\ m_to mail = sb_email s /\
    exists p, get_page page d = Some p /\ i_published (pg p) = true.
Proof.
  unfold announce_now. intros ([id p] & Hin & Hp)%list_elem_of_bind. revert Hin. unfold announce_on. cbn [fst snd].
  destruct (i_published (pg p)) eqn:Epub; cbn [negb]; [|by intros ?%elem_of_nil].
  destruct (channel_of a p); [|by intros ?%elem_of_nil]. destruct (link_base a p) as [base|]; [|by intros ?%elem_of_nil].
  destruct (smtp_ok _); [|by intros ?%elem_of_nil]. intros ([k s] & E & Hs)%list_elem_of_fmap. injection E as -> -> ->.
  apply elem_of_select in Hs as [Hs [Epage Hc]%andb_true_iff]. exists k, s. split_and!; [done|by destruct (sb_confirmed_at s)| |done|done|].
  - by apply Z.eqb_eq.
  - exists p. split; [|done]. unfold announced_pages in Hp. destruct (n_page_id (inc i)) as [j|].
    + unfold get_page in *. destruct (t_rows (pages d) !! j) eqn:Ej; cbn in Hp; [|by apply elem_of_nil in Hp].
      apply list_elem_of_singleton in Hp. injection Hp as -> ->. done.
    + unfold list_pages in Hp. by rewrite elem_of_sort_by, elem_of_map_to_list in Hp.
Qed.

Lemma send_told F a k m : told_ok F m -> told_ok F (send_task smtp_ok a k m).
Proof.
  intros Hm. unfold send_task. destruct (announcements (site m) !! k) as [[[id i] message]|]; [|done].
  destruct Hm as [Ht Hw Hc Ha]. split; cbn; [done| |done|].
  - intros j s Hs. by eapply written_app, Hw.
  - intros page token mail [Hin|Hin]%elem_of_app.
    + destruct (Ha _ _ _ Hin). split; [done|]. by apply written_app.
    + apply elem_of_announce_now in Hin as (j & s & Hs & Hne & <- & <- & -> & _). split; [by eapply Hc|].
      by eapply written_app, Hw.
Qed.

Lemma serve_told F a c m :
  told_ok F m -> (forall slug t, c = Confirm slug (Some t) -> F t) -> told_ok F (serve a c m).
Proof.
  intros Hm HF.
  destruct c; cbn [Subscribers.serve];
    try (apply (told_fewer F m (administer a _ (site m))); [done|apply administer_keeps, Hm]).
  - by apply leaves_state, remove_told.
  - by apply leaves_state, subscribe_told.
  - apply leaves_state, confirm_told; [done|]. intros t ->. by eapply HF.
  - by apply leaves_state, unsubscribe_told.
  - by apply send_told.
Qed.

Lemma new_told F : told_ok F Mailer_new.
Proof.
  split; cbn; [apply new_tables_ok|intros k s; by rewrite lookup_empty|intros k s; by rewrite lookup_empty|].
  intros page token mail Hin. by apply elem_of_nil in Hin.
Qed.
Lemma history_told calls : told_ok (followed calls) (history calls).
Proof.
  induction calls as [|[a c] calls IH] using rev_ind; [apply new_told|].
  unfold Subscribers.history. rewrite foldl_app. cbn. apply serve_told.
  - eapply told_more; [|exact IH]. intros t (a' & slug & Hin). exists a', slug. apply elem_of_app. by left.
  - intros slug t ->. exists a, slug. apply elem_of_app. right. by apply list_elem_of_singleton.
Qed.

(** C20. Only those who asked are told.  Whatever is asked of the server, and in whatever order, an announcement is
    sent to no address unless a message was written to this very address, for this page, with a token, and someone
    presented this token: an address a stranger enters may be asked to confirm, more than once, but is told nothing
    until the link it was sent is followed. *)
Theorem only_confirmed_addresses_are_told calls page token mail :
  Announcement page token mail ∈ messages (history calls) ->
  followed calls token /\ written_to (messages (history calls)) page token (m_to mail).
Proof. apply to_announced, history_told. Qed.

(** C21. Whatever is asked of the status pages, their tables stay consistent: a slug and a domain belong to one page
    and are well formed, a service is shown once on a page that exists, an announcement has a status of its kind and
    belongs to a page that exists, a message to an announcement that exists, and a token or an address of a page
    belongs to one subscriber. *)
Theorem status_tables_stay_consistent calls : tables_ok (tables (site (history calls))).
Proof. apply (to_tables (followed calls)), history_told. Qed.

(** ** What a stranger can make the server send *)

Definition within_ (t at_ : Z) : Prop := t <= at_ < t + WINDOW.
#[local] Instance within_dec t at_ : base.Decision (within_ t at_).
Proof. unfold within_. apply _. Defined.

(** At [now], the queue [q] holds the attempts of [log] that still count, and no window of time holds more than
    [n] attempts. *)
Record bounded (n : nat) (log q : list Z) (now : Z) : Prop := {
  bd_past : Forall (fun at_ => at_ <= now) log;
  bd_split : exists old, log = old ++ q /\ Forall (fun at_ => at_ <= now - WINDOW) old;
  bd_window t : (length (filter (within_ t) log) <= n)%nat;
}.

Lemma bounded_new n now : bounded n [] [] now.
Proof. split; [done|by exists []|]. cbn. lia. Qed.

Lemma prune_split now q :
  Forall (fun at_ => at_ <= now) q ->
  exists old, q = old ++ prune now q /\ Forall (fun at_ => at_ <= now - WINDOW) old.
Proof.
  induction q as [|at_ q IH]; intros Hp; [by exists []|]. apply Forall_cons in Hp as [Ha Hp]. cbn [prune].
  unfold duration_since. destruct (Z.leb_spec WINDOW (Z.max 0 (now - at_))).
  - destruct (IH Hp) as (old & E & Ho). exists (at_ :: old). split; [by rewrite E at 1|]. constructor; [|done].
    unfold WINDOW, td_seconds, ns_per_s in *. lia.
  - by exists [].
Qed.

Lemma prune_bounded n log q now now' : bounded n log q now -> now <= now' -> bounded n log (prune now' q) now'.
Proof.
  intros [Hp (old & -> & Ho) Hw] Hle. pose proof Hp as Hq. apply Forall_app in Hq as [_ Hq].
  destruct (prune_split now' q) as (old' & E & Ho'); [by eapply Forall_impl; [exact Hq|]; intros; cbn in *; lia|]. split.
  - eapply Forall_impl; [exact Hp|]. intros; cbn in *; lia.
  - exists (old ++ old'). rewrite <-app_assoc, <-E. split; [done|]. apply Forall_app. split; [|done].
    eapply Forall_impl; [exact Ho|]. intros; cbn in *; lia.
  - done.
Qed.

Lemma push_bounded n log q now : bounded n log q now -> (length q < n)%nat -> bounded n (log ++ [now]) (q ++ [now]) now.
Proof.
  intros [Hp (old & -> & Ho) Hw] Hlt. split.
  - apply Forall_app. split; [done|]. by constructor.
  - exists old. by rewrite app_assoc.
  - intros t. rewrite filter_app, length_app. specialize (Hw t). destruct (decide (within_ t now)) as [Hin|Hout].
    + rewrite filter_app, length_app. assert (filter (within_ t) old = []) as ->.
      { apply filter_none. intros at_ Ha Hb. rewrite Forall_forall in Ho. specialize (Ho _ Ha). unfold within_ in *. cbn in Ho. lia. }
      pose proof (length_filter (within_ t) q). pose proof (length_filter (within_ t) [now]). cbn [length] in *. lia.
    + rewrite filter_cons_False by done. cbn. lia.
Qed.

(** The attempts of a client. *)
Definition of_client (ip : option IpAddr) (log : list (option IpAddr * Z)) : list Z := (filter (fun x => x.1 = ip) log).*2.
Record limiter_ok (log : list (option IpAddr * Z)) (l : Limiter) (now : Z) : Prop := {
  lo_global : bounded GLOBAL log.*2 (global l) now;
  lo_client ip : bounded PER_CLIENT (of_client ip log) (per_client l !! ip ?? []) now;
}.
Lemma new_limiter_ok now : limiter_ok [] Limiter_new now.
Proof. split; [apply bounded_new|]. intros ip. cbn. rewrite lookup_empty. apply bounded_new. Qed.

Lemma pruned_client now l ip : per_client (pruned now l) !! ip ?? [] = prune now (per_client l !! ip ?? []).
Proof.
  cbn. destruct (per_client l !! ip) as [q|] eqn:E.
  - destruct (decide (prune now q = [])) as [Hn|Hn].
    + rewrite (proj2 (map_lookup_filter_None _ _ _)); [done|]. right. intros x. rewrite lookup_fmap, E. cbn. congruence.
    + rewrite (proj2 (map_lookup_filter_Some _ _ _ (prune now q))); [done|]. rewrite lookup_fmap, E. by split.
  - rewrite (proj2 (map_lookup_filter_None _ _ _)); [done|]. left. by rewrite lookup_fmap, E.
Qed.

Lemma pruned_ok log l now now' : limiter_ok log l now -> now <= now' -> limiter_ok log (pruned now' l) now'.
Proof.
  intros [Hg Hc] Hle. split; [by eapply prune_bounded|]. intros ip. rewrite pruned_client. by eapply prune_bounded.
Qed.

Lemma entered_ok log l now ip :
  limiter_ok log l now -> limiter_ok log {| per_client := <[ip := per_client l !! ip ?? []]> (per_client l); global := global l |} now.
Proof.
  intros [Hg Hc]. split; [done|]. intros ip'. cbn. destruct (decide (ip' = ip)) as [->|Hne].
  - by rewrite lookup_insert_eq.
  - by rewrite lookup_insert_ne by done.
Qed.

Lemma admitted_ok log l now now' ip :
  limiter_ok log l now -> now <= now' ->
  match admit_ ip now' l with
  | (l', None) => limiter_ok (log ++ [(ip, now')]) l' now'
  | (l', Some _) => limiter_ok log l' now'
  end.
Proof.
  intros Hl Hle. pose proof (pruned_ok _ _ _ _ Hl Hle) as Hp. unfold admit_.
  destruct (Nat.leb_spec PER_CLIENT (length (per_client (pruned now' l) !! ip ?? []))); [by apply entered_ok|].
  destruct (Nat.leb_spec GLOBAL (length (global (pruned now' l)))); [by apply entered_ok|].
  destruct Hp as [Hg Hc]. split; cbn [per_client global].
  - rewrite fmap_app. by apply push_bounded.
  - intros ip'. specialize (Hc ip'). unfold of_client in *. rewrite filter_app, fmap_app. destruct (decide (ip' = ip)) as [->|Hne].
    + rewrite lookup_insert_eq. rewrite filter_cons_True by done. by apply push_bounded.
    + rewrite lookup_insert_ne by done. rewrite filter_cons_False by (cbn; congruence). by rewrite app_nil_r.
Qed.

Lemma filter_sublist_mono {A} (P : A -> Prop) `{forall x, base.Decision (P x)} (l k : list A) :
  l `sublist_of` k -> filter P l `sublist_of` filter P k.
Proof.
  induction 1 as [|x l k Hs IH|x l k Hs IH]; [done| |]; rewrite ?filter_cons; destruct (decide (P x)); try done.
  - by apply sublist_skip.
  - by apply sublist_cons.
Qed.

(** The messages written at the request of a stranger, with who asked and when. *)
Definition requests (ms : list Message) : list (option IpAddr * Z) :=
  omap (fun x => match x with Confirmation _ _ from instant _ _ => Some (from, instant) | _ => None end) ms.
Definition instants (calls : list (Around * Call)) : list Z :=
  omap (fun ac => match ac.2 with Subscribe instant _ _ _ _ => Some instant | _ => None end) calls.

(** At [now], the limiter has counted every message in [log]. *)
Definition counted (log : list (option IpAddr * Z)) (m : Mailer) (now : Z) : Prop :=
  limiter_ok log (limiter m) now /\ requests (messages m) `sublist_of` log.

Lemma limiter_later log l now now' : limiter_ok log l now -> now <= now' -> limiter_ok log l now'.
Proof.
  assert (forall n lg q, bounded n lg q now -> now <= now' -> bounded n lg q now') as Hb.
  { intros n lg q [Hp (old & -> & Ho) Hw] Hle. split; [|exists old; split; [done|]|done].
    - eapply Forall_impl; [exact Hp|]. intros; cbn in *; lia.
    - eapply Forall_impl; [exact Ho|]. intros; cbn in *; lia. }
  intros [Hg Hc] Hle. split; auto.
Qed.

Lemma requests_app ms ms' : requests (ms ++ ms') = requests ms ++ requests ms'.
Proof. apply omap_app. Qed.
Lemma announce_requests a i message d : requests (announce_now smtp_ok a i message d) = [].
Proof.
  unfold announce_now. induction (announced_pages i d) as [|kp kps IH]; [done|]. rewrite bind_cons, requests_app, IH, app_nil_r.
  unfold announce_on. destruct (negb _); [done|]. destruct (channel_of a kp.2), (link_base a kp.2); try done.
  destruct (smtp_ok _); [|done]. induction (confirmed_subscribers _ _) as [|ks l IHl]; [done|]. done.
Qed.

Lemma subscribe_counted log a instant ip bytes slug email m now :
  counted log m now -> now <= instant ->
  leaves (subscribe alphanumeric address_ok smtp_ok a instant ip bytes slug email) m (fun m' => exists log', counted log' m' instant).
Proof.
  intros [Hl Hs] Hle. unfold subscribe, subscribable, leaves. apply wp_bind, wp_act. cbn.
  pose proof (admitted_ok log (limiter m) now instant ip Hl Hle) as Ha. destruct (admit_ ip instant (limiter m)) as [l refused]. cbn.
  destruct refused as [n|]; [by exists log|].
  assert (requests (messages m) `sublist_of` log ++ [(ip, instant)]) as Hs' by by apply sublist_inserts_r.
  walk; try by (exists (log ++ [(ip, instant)])).
  exists (log ++ [(ip, instant)]). split; [done|]. cbn. rewrite requests_app. by apply sublist_app.
Qed.

Lemma quiet_request {A} (m0 : Mailer) (h : M A) :
  (wp h (fun _ m => limiter m = limiter m0 /\ messages m = messages m0)
     (fun _ m => limiter m = limiter m0 /\ messages m = messages m0) m0) ->
  limiter (h m0).1 = limiter m0 /\ messages (h m0).1 = messages m0.
Proof. intros Hw. by apply (leaves_state h m0 (fun m => limiter m = limiter m0 /\ messages m = messages m0)). Qed.

Lemma serve_quiet a c m :
  (forall instant ip bytes slug email, c <> Subscribe instant ip bytes slug email) ->
  limiter (serve a c m) = limiter m /\ requests (messages (serve a c m)) = requests (messages m).
Proof.
  intros Hc. destruct c; try done; cbn [Subscribers.serve].
  - destruct (quiet_request m (remove id subscriber)) as [-> ->]; [|done]. unfold remove. by walk.
  - by destruct (Hc instant ip bytes slug email).
  - destruct (quiet_request m (confirm a slug token)) as [-> ->]; [|done]. unfold confirm, subscribable. by walk.
  - destruct (quiet_request m (unsubscribe slug token)) as [-> ->]; [|done]. unfold unsubscribe. by walk.
  - unfold send_task. destruct (announcements (site m) !! k) as [[[id i] message]|]; [|done]. cbn.
    by rewrite requests_app, announce_requests, app_nil_r.
Qed.

Lemma is_subscribe c :
  (exists instant ip bytes slug email, c = Subscribe instant ip bytes slug email) \/
  (forall instant ip bytes slug email, c <> Subscribe instant ip bytes slug email).
Proof. destruct c; try (right; discriminate). left. by do 5 eexists. Qed.

Lemma history_snoc calls a c : history (calls ++ [(a, c)]) = serve a c (history calls).
Proof. unfold Subscribers.history. by rewrite foldl_app. Qed.

Lemma history_counted calls now :
  StronglySorted Z.le (instants calls) -> Forall (fun i => i <= now) (instants calls) ->
  exists log, counted log (history calls) now.
Proof.
  revert now. induction calls as [|[a c] calls IH] using rev_ind; intros now Hsort Hpast.
  { exists []. split; [apply new_limiter_ok|done]. }
  unfold instants in Hsort, Hpast. rewrite omap_app in Hsort, Hpast. fold (instants calls) in Hsort, Hpast.
  apply Forall_app in Hpast as [Hp Hc]. apply StronglySorted_app in Hsort as (Hlast & Hsort & _). rewrite history_snoc.
  destruct (is_subscribe c) as [(instant & ip & bytes & slug & email & ->)|Hne].
  - cbn in Hc, Hlast. apply (Forall_cons_1 _ instant []) in Hc as [Hc _]. destruct (IH instant Hsort) as (log & Hlog).
    { apply Forall_forall. intros i Hi. apply Hlast; [done|by left]. }
    destruct (proj1 (leaves_state _ _ _) (subscribe_counted log a instant ip bytes slug email _ _ Hlog ltac:(lia)))
      as (log' & Hl & Hs).
    exists log'. split; [eapply limiter_later; [exact Hl|exact Hc]|exact Hs].
  - destruct (IH now Hsort Hp) as (log & Hl & Hs). destruct (serve_quiet a c (history calls) Hne) as [E1 E2].
    exists log. by split; rewrite ?E1, ?E2.
Qed.

(** C23. A stranger cannot make the server write to strangers: whatever is asked, as long as the clock of the requests
    does not go back, at most sixty messages that ask for a confirmation are written in any fifteen minutes, and at
    most five of them at the request of one client. *)
Theorem sign_ups_are_bounded calls t :
  StronglySorted Z.le (instants calls) ->
  let sent := requests (messages (history calls)) in
  (length (filter (within_ t) sent.*2) <= GLOBAL)%nat /\
  forall ip, (length (filter (within_ t) (of_client ip sent)) <= PER_CLIENT)%nat.
Proof.
  intros Hsort sent. destruct (history_counted calls (foldr Z.max 0 (instants calls)) Hsort) as (log & [Hg Hc] & Hs).
  { apply Forall_forall. intros i Hi. induction (instants calls) as [|j l IHl]; [by apply elem_of_nil in Hi|]. cbn.
    apply StronglySorted_inv in Hsort as [Hsort _]. apply elem_of_cons in Hi as [->|Hi]; [lia|]. specialize (IHl Hsort Hi). lia. }
  split; [|intros ip].
  - pose proof (bd_window _ _ _ _ Hg t) as Hb. eapply Nat.le_trans; [|exact Hb].
    apply sublist_length, filter_sublist_mono, fmap_sublist, Hs.
  - pose proof (bd_window _ _ _ _ (Hc ip) t) as Hb. eapply Nat.le_trans; [|exact Hb].
    apply sublist_length, filter_sublist_mono, fmap_sublist, filter_sublist_mono, Hs.
Qed.

(** ** What the answer says *)

Lemma token_taken_weaken id token d : token_taken None token d = false -> token_taken id token d = false.
Proof.
  unfold token_taken. intros Hb%bool_decide_eq_false. apply bool_decide_eq_false. intros (k & s & Hk & _ & E). apply Hb.
  by exists k, s.
Qed.
Lemma upsert_fresh now page email token d :
  token_taken None token d = false -> is_Some (upsert_pending_subscriber now page email token d).
Proof.
  intros Ht. unfold upsert_pending_subscriber. destruct (find_subscriber page email d) as [[id s]|]; [|by rewrite Ht].
  destruct (sb_confirmed_at s); [done|]. by rewrite token_taken_weaken.
Qed.

Definition subscribable_of (a : Around) (slug : string) (d : Tables) : option (Z * StatusPage * Recipient) :=
  '(id, page) ← get_page_by_slug slug d;
  channel ← channel_of a page;
  if i_published (pg page) then Some (id, page, channel) else None.
Lemma subscribable_spec a slug m :
  subscribable a slug m =
  (m, match subscribable_of a slug (tables (site m)) with Some x => inr x | None => inl public_not_found end).
Proof.
  unfold subscribable_of, subscribable. cbv [mbind Handler_bind asks gets ok_or refuse_if throw mret Handler_ret option_bind].
  cbn. destruct (get_page_by_slug slug (tables (site m))) as [[i p]|]; [|done].
  destruct (i_published (pg p)); cbn; by destruct (channel_of a p).
Qed.

(** The answer to a sign-up does not say who is subscribed: at a page that takes subscriptions and has fewer than
    ten thousand of them, an attempt the limiter admits, with an address in order, is answered the same whether
    the address is unknown, waiting or subscribed. *)
Theorem sign_up_answer_says_nothing a instant ip bytes slug email m id page channel address :
  (admit_ ip instant (limiter m)).2 = None ->
  (subscribable a slug m).2 = inr (id, page, channel) ->
  normalise_email alphanumeric address_ok email = Some address ->
  let purged := purge_unconfirmed (format_timestamp (a_now a - PENDING_TTL)) (tables (site m)) in
  count_subscribers id purged < MAX_SUBSCRIBERS -> token_taken None (new_token bytes) purged = false ->
  (subscribe alphanumeric address_ok smtp_ok a instant ip bytes slug email m).2 = inr Pending.
Proof.
  intros Had Hsub Hmail purged Hcount Htok.
  assert (wp (subscribe alphanumeric address_ok smtp_ok a instant ip bytes slug email) (fun x _ => x = Pending) (fun _ _ => False) m)
    as Hw%wp_run.
  2: { destruct (subscribe _ _ _ _ _ _ _ _ _ _) as [m' [e|x]]; [done|]. by rewrite Hw. }
  unfold subscribe. apply wp_bind, wp_act. destruct (admit_ ip instant (limiter m)) as [l refused]. cbn in Had. subst refused. cbn [fst snd].
  rewrite subscribable_spec in Hsub. cbn in Hsub. apply wp_bind. unfold wp at 1. rewrite subscribable_spec. cbn [fst snd site tables with_limiter].
  destruct (subscribable_of a slug (tables (site m))) as [x|]; [|done]. injection Hsub as ->. cbn iota beta.
  pose proof (eq_refl : tables (site (with_limiter (fun _ => l) m)) = tables (site m)) as Et.
  set (m' := with_limiter (fun _ => l) m) in *. clearbody m'.
  rewrite Hmail. apply wp_bind, wp_ok_or; [|done]. intros ? [= <-].
  apply wp_bind, wp_stores, wp_bind, wp_asks, wp_bind. cbn [site with_site tables with_tables]. rewrite Et. fold purged. unfold must_write.
  destruct (find_subscriber id address purged) as [[k s]|] eqn:Ef.
  - apply wp_result; [|done]. intros w _. destruct w; [|done]. destruct (link_base a page); [|done].
    apply wp_bind, wp_asks. cbn [site with_site tables with_tables]. rewrite Et. fold purged.
    destruct (upsert_fresh (now_of a) id address (new_token bytes) purged Htok) as [d ->]. by walk.
  - destruct (Z.leb_spec MAX_SUBSCRIBERS (count_subscribers id purged)); [lia|]. apply wp_result; [|done].
    intros w _. destruct w; [|done]. destruct (link_base a page); [|done].
    apply wp_bind, wp_asks. cbn [site with_site tables with_tables]. rewrite Et. fold purged.
    destruct (upsert_fresh (now_of a) id address (new_token bytes) purged Htok) as [d ->]. by walk.
Qed.

(** At ten thousand it does: only an address that is there is answered as usual. *)
Lemma full_page_tells_its_subscribers now page email d :
  MAX_SUBSCRIBERS <= count_subscribers page d ->
  (exists e, must_write now page email d = inl e) <-> find_subscriber page email d = None.
Proof.
  intros Hc. unfold must_write. destruct (find_subscriber page email d) as [[k s]|].
  - split; [by intros [e He]|done].
  - rewrite (proj2 (Z.leb_le _ _) Hc). split; [done|by eexists].
Qed.

(** ** The domain of a page *)

(** A page answers under its domain: whatever has been asked, a request that arrives under the domain of a page,
    as any program writes it, is routed to this page and to no other. *)
Theorem page_answers_under_its_domain calls k p d host dot port trusted r :
  get_page k (tables (site (history calls))) = Some p -> i_domain (pg p) = Some d ->
  to_ascii_lowercase host = d -> dot = ""%string \/ dot = "."%string -> port_text port ->
  r_host r = Some (host +:+ dot +:+ port)%string ->
  let domains : gmap string string := list_to_map (list_domains (tables (site (history calls)))) in
  find_map (fun host => domains !! host) (candidate_hosts r trusted) = Some (i_slug (pg p)).
Proof.
  intros Hk Hd Hl Hdot Hp Hr domains. pose proof (ok_pages _ (to_tables _ _ (history_told calls))) as Hok.
  destruct (po_page _ Hok _ _ Hk) as [_ Hdom]. destruct (Hdom _ Hd) as (Hne & Hb & Hdots).
  assert (domains !! d = Some (i_slug (pg p))) as E.
  { apply elem_of_list_to_map_1'.
    - intros slug Hin. apply list_elem_of_omap in Hin as ([k' p'] & Hin & Hs). apply elem_of_map_to_list in Hin. cbn in Hs.
      apply bind_Some in Hs as (d' & Hd' & [= -> <-]). assert (k = k') as <- by by eapply (po_domain _ Hok k k' p p').
      unfold get_page in Hk. by simplify_eq.
    - apply list_elem_of_omap. exists (k, p). split; [by apply elem_of_map_to_list|]. cbn. by rewrite Hd. }
  unfold candidate_hosts. rewrite Hr. cbn. rewrite (host_of_plain host dot port d) by done. cbn. by rewrite E.
Qed.
End handlers.

(** ** Keys of the services *)

Definition numbered_key (base : string) (n : Z) : string := (base +:+ "-" +:+ display_i64 n)%string.
Lemma numbered_key_inj base n n' : numbered_key base n = numbered_key base n' -> n = n'.
Proof. unfold numbered_key. intros E%(inj _)%(inj _). by apply (inj pretty) in E. Qed.
Lemma numbered_key_ne base n : numbered_key base n <> base.
Proof.
  unfold numbered_key. rewrite <-(string_app_nil_r base) at 2. by intros E%(inj _).
Qed.

(** What was tried before giving up. *)
Lemma free_key_None fuel base n taken key :
  free_key (S fuel) base n taken key = None ->
  key ∈ taken /\ forall i, n <= i < n + Z.of_nat fuel -> numbered_key base i ∈ taken.
Proof.
  revert n key. induction fuel as [|fuel IH]; intros n key; cbn [free_key]; (case_bool_decide as Hin; [|done]).
  - intros _. split; [done|lia].
  - intros He. destruct (IH _ _ He) as [Hn Hr]. split; [done|]. intros i Hi.
    destruct (decide (i = n)) as [->|]; [done|apply Hr; lia].
Qed.
Lemma free_key_Some fuel base n taken key k taken' :
  free_key fuel base n taken key = Some (k, taken') -> k ∉ taken /\ taken' = {[k]} ∪ taken.
Proof.
  revert n key. induction fuel as [|fuel IH]; intros n key; cbn [free_key]; [done|]. case_bool_decide; [apply IH|]. by intros [= <- <-].
Qed.

Lemma unique_key_total label taken : exists k, unique_key label taken = Some (k, {[k]} ∪ taken) /\ k ∉ taken.
Proof.
  destruct (unique_key label taken) as [[k taken']|] eqn:E.
  - unfold unique_key in E. apply free_key_Some in E as [Hk ->]. by exists k.
  - exfalso. unfold unique_key in E. set (base := key_base label) in *. apply free_key_None in E as [Hb Hn].
    set (tried := base :: (numbered_key base <$> seqZ 2 (Z.of_nat (size taken)))).
    assert (NoDup tried) as Hd.
    { constructor; [|apply NoDup_fmap_2_strong; [by intros ? ? ? ?; apply numbered_key_inj|apply NoDup_seqZ]].
      intros (i & Hi & _)%list_elem_of_fmap. by destruct (numbered_key_ne base i). }
    assert (list_to_set tried ⊆ taken) as Hsub.
    { intros x Hx%elem_of_list_to_set. apply elem_of_cons in Hx as [-> |Hx]; [done|]. apply list_elem_of_fmap in Hx as (i & -> & Hi).
      apply Hn. by apply elem_of_seqZ in Hi. }
    apply subseteq_size in Hsub. rewrite size_list_to_set in Hsub by done. unfold tried in Hsub. cbn in Hsub.
    rewrite length_fmap, length_seqZ in Hsub. lia.
Qed.

Lemma unique_keys_distinct labels : forall taken, exists keys,
  unique_keys labels taken = Some keys /\ length keys = length labels /\ NoDup keys /\ forall k, k ∈ keys -> k ∉ taken.
Proof.
  induction labels as [|label labels IH]; intros taken; [exists []; split_and!; [done..|constructor|by intros k ?%elem_of_nil]|].
  destruct (unique_key_total label taken) as (k & E & Hk). destruct (IH ({[k]} ∪ taken)) as (keys & Ek & Hl & Hd & Hn).
  exists (k :: keys). cbn [unique_keys]. rewrite E. cbn [mbind option_bind]. rewrite Ek. split_and!; [done|by cbn; rewrite Hl| |].
  - constructor; [|done]. intros Hin. specialize (Hn _ Hin). set_solver.
  - intros x [->|Hx]%elem_of_cons; [done|]. specialize (Hn _ Hx). set_solver.
Qed.

(** ** What the code does not say *)

(** [null] is what the comment of the field says to turn the subscriptions off with; it is read as an absent
    field, and the channel stays. *)
Lemma null_keeps_the_channel a existing m channel :
  is_Some (i_subscribe_channel_id (pg existing)) -> channel_asked a (Some existing) (optional m) = inr channel -> is_Some channel.
Proof.
  intros Hs. destruct m as [|[|n|s|]]; cbn; try discriminate; [by intros [= <-]|by intros [= <-]|].
  destruct (a_channels a n) as [c|]; [|discriminate]. case_bool_decide; [|discriminate]. intros [= <-]. by eexists.
Qed.

(** An end that is kept is not compared with the start that comes with it. *)
Lemma kept_end_may_come_before_the_start now existing input :
  n_ends_at input = None -> is_closing (n_status input) = false ->
  n_ends_at (end_kept now existing input) = n_ends_at (inc existing) /\
  n_starts_at (end_kept now existing input) = n_starts_at input.
Proof. unfold end_kept. by intros -> ->. Qed.

(** An announcement opened again keeps the end it was given when it was closed. *)
Lemma reopened_announcement_keeps_its_end now id status body closes d d' i :
  store_update now id status body closes d = Some d' -> get_incident id d = Some i -> is_Some (n_ends_at (inc i)) ->
  exists i', get_incident id d' = Some i' /\ n_status (inc i') = status /\ n_ends_at (inc i') = n_ends_at (inc i).
Proof.
  unfold store_update, get_incident. intros Hu Hi [e He]. rewrite bool_decide_eq_true_2 in Hu by by rewrite Hi.
  injection Hu as <-. cbn. rewrite lookup_alter_eq, Hi. eexists. split; [done|]. split; [done|]. cbn. rewrite He.
  by destruct closes.
Qed.

(** ** A page and its subscriber *)

Section example.
#[local] Existing Instance plain_crates.
#[local] Existing Instance plain_web.

Definition letters (s : string) : bool := string_forall is_ascii_alphanumeric s.
Definition mailbox (id : Z) : option Recipient :=
  if id =? 1 then Some (Build_Recipient 1 "smtp" true ChannelPolicy_default) else None.
Definition day (n : Z) : Around :=
  {| a_now := td_days n; a_channels := mailbox; a_devices := {[4 := "web"]}; a_global := None; a_public_url := None |}.

Definition shop : StatusPagePayload :=
  {| p_title := "Shop"; p_slug := None; p_description := None; p_published := Some true; p_theme := None;
     p_show_uptime_days := None; p_accent := None; p_scenes := None; p_scene_rotation := None; p_simple := None;
     p_footer_text := None; p_homepage_url := None; p_subscribe_channel_id := Some (Number 1);
     p_domain := Some (Text_ "Status.example.org") |}.
Definition outage : IncidentPayload :=
  {| ip_title := "Down"; ip_kind := None; ip_status := None; ip_severity := None; ip_page_id := Some 1; ip_starts_at := None;
     ip_ends_at := None; ip_body := Some "We are on it." |}.
Definition token_of (n : Z) : string := new_token [n].
Definition stranger : option IpAddr := Some (V4 5).

(** A page, two sign-ups of which one is followed, a hundred days later, an announcement and its sending. *)
Definition story : list (Around * Call) :=
  [(day 1, CreatePage "http://10.0.0.1" shop);
   (day 1, SetItems 1 [{| ip_target_id := 4; ip_label := None; ip_group_name := None |}]);
   (day 1, Subscribe 0 stranger [7] "shop" "a@example.org");
   (day 1, Subscribe 1 stranger [8] "shop" "b@example.org");
   (day 101, Confirm "shop" (Some (token_of 7)));
   (day 101, CreateIncident outage);
   (day 101, Announce 0)].
Definition told : Mailer :=
  history letters (fun _ => true) (fun _ => true) (fun _ => "") (fun _ => None) true (fun _ => None) (fun _ _ => None)
    (fun _ => None) story.

Definition recipients_ (ms : list Message) : list (bool * string) :=
  (fun x => match x with Confirmation _ _ _ _ _ mail => (false, m_to mail) | Announcement _ _ mail => (true, m_to mail) end) <$> ms.
Example story_ex :
  recipients_ (messages told) = [(false, "a@example.org"); (false, "b@example.org"); (true, "a@example.org")]%string.
Proof. vm_compute. reflexivity. Qed.

Definition sent_mail : Mail :=
  match messages told !! 2%nat with
  | Some (Announcement _ _ mail) => mail
  | _ => {| m_to := ""; m_subject := ""; m_body := ""; m_one_click := None |}
  end.

Lemma only_confirmed_addresses_are_told_witness :
  Announcement 1 (token_of 7) sent_mail ∈ messages told /\ followed story (token_of 7) /\
  written_to (messages told) 1 (token_of 7) "a@example.org".
Proof.
  assert (Announcement 1 (token_of 7) sent_mail ∈ messages told) as Hin
    by (apply (list_elem_of_lookup_2 _ 2); vm_compute; reflexivity).
  split; [exact Hin|].
  assert (m_to sent_mail = "a@example.org"%string) as <- by (vm_compute; reflexivity).
  revert Hin. unfold told at 1 2. intros Hin.
  exact (only_confirmed_addresses_are_told letters (fun _ => true) (fun _ => true) (fun _ => ""%string)
    (fun _ => None) true (fun _ => None) (fun _ _ => None) (fun _ => None) story 1 (token_of 7) sent_mail Hin).
Defined.

Lemma sign_ups_are_bounded_witness :
  length (requests (messages told)) = 2%nat /\
  (length (filter (within_ 0) (of_client stranger (requests (messages told)))) <= PER_CLIENT)%nat.
Proof.
  split; [vm_compute; reflexivity|].
  apply (sign_ups_are_bounded letters (fun _ => true) (fun _ => true) (fun _ => ""%string)
    (fun _ => None) true (fun _ => None) (fun _ _ => None) (fun _ => None) story 0).
  cbn. repeat constructor; lia.
Defined.

(** The same answer to an address that is subscribed and to one that is not. *)
Lemma sign_up_answer_says_nothing_witness :
  (subscribe letters (fun _ => true) (fun _ => true) (day 101) 10 stranger [9] "shop" "a@example.org" told).2 = inr Pending /\
  (subscribe letters (fun _ => true) (fun _ => true) (day 101) 10 stranger [9] "shop" "c@example.org" told).2 = inr Pending.
Proof.
  destruct (subscribable_of (day 101) "shop" (tables (site told))) as [[[id page] channel]|] eqn:E; [|vm_compute in E; discriminate E].
  assert ((subscribable (day 101) "shop" told).2 = inr (id, page, channel)) as Hs
    by (rewrite subscribable_spec, E; reflexivity).
  assert (id = 1) as -> by (vm_compute in E; injection E as <- <- <-; reflexivity).
  split;
    [apply (sign_up_answer_says_nothing letters (fun _ => true) (fun _ => true) (day 101) 10 stranger [9] "shop" "a@example.org"
       told 1 page channel "a@example.org"); [vm_compute; reflexivity|exact Hs|vm_compute; reflexivity..]
    |apply (sign_up_answer_says_nothing letters (fun _ => true) (fun _ => true) (day 101) 10 stranger [9] "shop" "c@example.org"
       told 1 page channel "c@example.org"); [vm_compute; reflexivity|exact Hs|vm_compute; reflexivity..]].
Defined.

Lemma page_answers_under_its_domain_witness :
  let domains : gmap string string := list_to_map (list_domains (tables (site told))) in
  size domains = 1%nat /\
  find_map (fun host => domains !! host)
    (candidate_hosts {| r_host := Some ("STATUS.Example.org" +:+ "." +:+ (":" +:+ "8443"))%string; r_uri_host := None;
       r_forwarded_host := None; r_peer := None; r_path := "/"; r_cookie := None; r_status_host := None |} []) = Some "shop"%string.
Proof.
  split; [vm_compute; reflexivity|].
  destruct (get_page 1 (tables (site told))) as [p|] eqn:E; [|vm_compute in E; discriminate E].
  transitivity (Some (i_slug (pg p))); [|vm_compute in E; injection E as <-; vm_compute; reflexivity].
  eapply (page_answers_under_its_domain letters (fun _ => true) (fun _ => true) (fun _ => ""%string)
    (fun _ => None) true (fun _ => None) (fun _ _ => None) (fun _ => None) story 1 p "status.example.org" "STATUS.Example.org" "."
    (":" +:+ "8443")); [exact E|vm_compute in E; injection E as <-; vm_compute; reflexivity|vm_compute; reflexivity|right; reflexivity
    |constructor; vm_compute; reflexivity|reflexivity].
Defined.
End example.
