(* ===== verification/StatusPublic.v ===== *)
(** * Status pages: what the public reads ([api/status_pages.rs])

    The document of a page, worked out from its tables, the measures of its devices and the maintenance windows of
    the alerts, and the cache that keeps it for thirty seconds.

    The series database is a parameter: what it answers to a query, [None] when it does not.  A day is the number
    of its first second. *)
From Stdlib Require Import Ascii.
From Stdlib Require String.
From S2P Require Import Prelude Text Float64 Decimal Tsdb Chrono Model Silence NotifyPolicy RateLimit ApiToken Accounts Auth Handler Wire Html Site StatusHost StatusPages Subscribers.

Definition PROBE_KINDS : list string := ["http"; "tcp"; "dns"; "ping"; "tls"; "push"].
Definition STATE_WINDOW : string := "15m".
Definition CACHE_TTL : Duration := td_seconds 30.
Definition PAST_INCIDENTS_DAYS : Z := 30.
Definition DAY : Z := 86400.

(** ** Numbers *)

Definition hundred : f64 := f64_of_Z 100.
Definition round (value : f64) : f64 := f64_div (f64_round (f64_mul value hundred)) hundred.
Definition as_secs_f64 (d : Duration) : f64 :=
  f64_add (f64_of_Z (d / ns_per_s)) (f64_div (f64_of_Z (d mod ns_per_s)) (f64_of_Z ns_per_s)).

(** ** Measures *)

Record Metrics := {
  probe_last : gmap Z f64;
  probe_recent : gmap Z f64;
  latency_ms : gmap Z f64;
  uptime_24h : gmap Z f64;
  uptime_7d : gmap Z f64;
  uptime_30d : gmap Z f64;
  uptime_90d : gmap Z f64;
  daily : gmap Z (gmap Z f64);
  daily_down : gmap Z (gmap Z f64);
}.
Definition Metrics_default : Metrics :=
  {| probe_last := ∅; probe_recent := ∅; latency_ms := ∅; uptime_24h := ∅; uptime_7d := ∅; uptime_30d := ∅;
     uptime_90d := ∅; daily := ∅; daily_down := ∅ |}.

Definition target_of (metric : gmap string string) : option Z := metric !! "target"%string ≫= parse_i64.
Definition finite (raw : string) : option f64 := v ← parse_f64 raw; if f64_is_finite v then Some v else None.
Definition instant_map (series : list InstantSeries) : gmap Z f64 :=
  foldl (fun m item => match target_of (is_metric item), finite (is_value item) with
                       | Some id, Some v => <[id := v]> m
                       | _, _ => m
                       end) ∅ series.
Definition selector (ids : list Z) : string :=
  ("target=~" +:+ quoted_ (String.concat "|" (display_i64 <$> ids)))%string.
Definition presence_query (sel window : string) : string :=
  ("avg_over_time(((count_over_time(dumbmonit_up{" +:+ sel +:+ "}[5m]) > bool 0) default 0)[" +:+ window +:+ ":5m]) * 100")%string.
Definition rescale (measured window_secs covered_secs : f64) : option f64 :=
  if f64_le covered_secs f64_zero then None
  else Some (f64_min (f64_div (f64_mul measured window_secs) covered_secs) hundred).

(** The values of a series that are read, under their days. *)
Definition points (read : f64 * string -> option (Z * f64)) (values : list (f64 * string)) (m : gmap Z f64) : gmap Z f64 :=
  foldl (fun m tv => match read tv with Some (day, v) => <[day := v]> m | None => m end) m values.
Definition series_points (read : Z -> f64 * string -> option (Z * f64)) (series : list RangeSeries)
    (m : gmap Z (gmap Z f64)) : gmap Z (gmap Z f64) :=
  foldl (fun m s => match target_of (rg_metric s) with
                    | Some id => <[id := points (read id) (rg_values s) (m !! id ?? ∅)]> m
                    | None => m
                    end) m series.
Definition day_of (ts : f64) : Z := f64_whole i64_min i64_max ts - DAY.
Definition full_day_minutes : f64 := f64_of_Z 1440.
Definition sixty : f64 := f64_of_Z 60.

Section public.
Context {C : Calendar} `{Crates}.

(** What the series database answers: to a query, and to a query over a span with a step. *)
Variable query : string -> option (list InstantSeries).
Variable query_range : string -> Z -> Z -> Z -> option (list RangeSeries).

Definition is_probe (t : Target) : bool := bool_decide (t_kind t ∈ PROBE_KINDS).

(** A failed measure stands for the interval of its probe. *)
Definition failed_minutes (targets : list Target) (id : Z) (tv : f64 * string) : option (Z * f64) :=
  let intervals : gmap Z f64 := list_to_map ((fun t => (Wire.id t, f64_max (as_secs_f64 (interval t)) f64_one)) <$> reverse targets) in
  count ← finite tv.2;
  Some (day_of tv.1, f64_min (f64_div (f64_mul (f64_max count f64_zero) (intervals !! id ?? sixty)) sixty) full_day_minutes).
Definition daily_uptime (_ : Z) (tv : f64 * string) : option (Z * f64) :=
  v ← finite tv.2; Some (day_of tv.1, f64_min v hundred).

Definition over (name sel window : string) : string := (name +:+ "(dumbmonit_probe_success{" +:+ sel +:+ "}[" +:+ window +:+ "])")%string.
Definition average (sel window : string) : string := (over "avg_over_time" sel window +:+ " * 100")%string.

Definition probe_metrics (targets : list Target) (sel : string) (first last : Z) : option Metrics :=
  last_ ← query (over "last_over_time" sel STATE_WINDOW);
  recent ← query (average sel "1h");
  day ← query (average sel "24h");
  week ← query (average sel "7d");
  month ← query (average sel "30d");
  quarter ← query (average sel "90d");
  latency ← query ("avg_over_time(dumbmonit_probe_duration_seconds{" +:+ sel +:+ "}[1h]) * 1000")%string;
  daily_ ← query_range (average sel "1d") first last DAY;
  failed ← query_range (over "count_over_time" sel "1d" +:+ " - " +:+ over "sum_over_time" sel "1d")%string first last DAY;
  Some {| probe_last := instant_map last_; probe_recent := instant_map recent; latency_ms := instant_map latency;
          uptime_24h := instant_map day; uptime_7d := instant_map week; uptime_30d := instant_map month;
          uptime_90d := instant_map quarter; daily := series_points daily_uptime daily_ ∅;
          daily_down := series_points (failed_minutes targets) failed ∅ |}.

(** The share of a window for which there were measures. *)
Definition window_uptimes (now window : Z) (first : gmap Z f64) (series : list InstantSeries) (m : gmap Z f64) : gmap Z f64 :=
  let value (id : Z) (measured : f64) :=
    first_ts ← first !! id;
    rescale measured (f64_of_Z window) (f64_min (f64_of_Z window) (f64_sub (f64_of_Z now) first_ts)) in
  map_fold (fun id measured m => match value id measured with Some v => <[id := v]> m | None => m end) m (instant_map series).

(** A day of a device: the time covered, and the share of it that was alive. *)
Definition device_day (now : Z) (first_ts : f64) (tv : f64 * string) : option (Z * (f64 * f64)) :=
  measured ← parse_f64 tv.2;
  let day_end := f64_whole i64_min i64_max tv.1 in
  let day_start := day_end - DAY in
  let covered := f64_sub (f64_of_Z (Z.min day_end now)) (f64_max (f64_of_Z day_start) first_ts) in
  value ← rescale measured (f64_of_Z DAY) covered;
  Some (day_start, (value, covered)).
Definition device_minutes (now : Z) (first_ts : f64) (tv : f64 * string) : option (Z * f64) :=
  '(day, (value, covered)) ← device_day now first_ts tv;
  Some (day, f64_min (f64_div (f64_mul (f64_div (f64_max (f64_sub hundred value) f64_zero) hundred) covered) sixty) full_day_minutes).
Definition device_series (now : Z) (first : gmap Z f64) (m : Metrics) (s : RangeSeries) : Metrics :=
  match (id ← target_of (rg_metric s); ts ← first !! id; Some (id, ts)) with
  | None => m
  | Some (id, first_ts) =>
      let days := points (fun tv => '(day, (value, _)) ← device_day now first_ts tv; Some (day, value)) (rg_values s) (daily m !! id ?? ∅) in
      let down := omap (device_minutes now first_ts) (rg_values s) in
      Build_Metrics (probe_last m) (probe_recent m) (latency_ms m) (uptime_24h m) (uptime_7d m) (uptime_30d m) (uptime_90d m)
        (<[id := days]> (daily m))
        (match down with
         | [] => daily_down m
         | _ => <[id := foldl (fun e kv => <[kv.1 := kv.2]> e) (daily_down m !! id ?? ∅) down]> (daily_down m)
         end)
  end.
Definition device_metrics (now : Z) (sel : string) (first last : Z) (m : Metrics) : option Metrics :=
  first_ ← query ("tfirst_over_time(dumbmonit_up{" +:+ sel +:+ "}[90d])")%string;
  day ← query (presence_query sel "24h");
  week ← query (presence_query sel "7d");
  month ← query (presence_query sel "30d");
  quarter ← query (presence_query sel "90d");
  daily_ ← query_range (presence_query sel "1d") first last DAY;
  let first_ := instant_map first_ in
  let m := Build_Metrics (probe_last m) (probe_recent m) (latency_ms m)
             (window_uptimes now DAY first_ day (uptime_24h m)) (window_uptimes now (7 * DAY) first_ week (uptime_7d m))
             (window_uptimes now (30 * DAY) first_ month (uptime_30d m)) (window_uptimes now (90 * DAY) first_ quarter (uptime_90d m))
             (daily m) (daily_down m) in
  Some (foldl (device_series now first_) m daily_).

Definition today_start (now : Z) : Z := now / DAY * DAY.
(** A part the database does not answer stays empty. *)
Definition collect_metrics (targets : list Target) (days now : Z) : Metrics :=
  let probes := Wire.id <$> filter (fun t => is_probe t = true) targets in
  let devices := Wire.id <$> filter (fun t => is_probe t = false) targets in
  let first := (today_start now - (days - 1) * DAY + DAY) * 1000 in
  let last := (today_start now + DAY) * 1000 in
  let m := match probes with [] => Metrics_default | _ => probe_metrics targets (selector probes) first last ?? Metrics_default end in
  match devices with [] => m | _ => device_metrics now (selector devices) first last m ?? m end.

(** ** State of a service *)

Record TargetStatus := { last_probe_at : option DateTime; last_error : option string }.

Definition item_state (target : Target) (status : option TargetStatus) (metrics : Metrics) (now : DateTime) : string :=
  if negb (enabled target) then "unknown"
  else if is_some_and (status ≫= last_error) (fun e => negb (bool_decide (e = ""%string))) then "down"
  else if is_probe target then
    match probe_last metrics !! Wire.id target with
    | None => "unknown"
    | Some value =>
        if f64_ge value f64_one then
          (if is_some_and (probe_recent metrics !! Wire.id target) (fun recent => f64_lt recent hundred) then "degraded" else "up")
        else "down"
    end
  else match status ≫= last_probe_at with
       | None => "unknown"
       | Some last =>
           let tolerance := td_seconds (Z.max (interval target / ns_per_s * 3) 90) in
           if tolerance <? now - last then "down" else "up"
       end.

(** ** The document *)

Record DayBucket := { b_date : Z; b_uptime_pct : option f64; b_down_minutes : option Z; b_incidents : Z }.
Record PublicItem := {
  k_key : string;
  k_label : string;
  k_state : string;
  k_uptime_24h : option f64;
  k_uptime_7d : option f64;
  k_uptime_30d : option f64;
  k_uptime_90d : option f64;
  k_latency_ms : option f64;
  k_history : list DayBucket;
}.
Record PublicGroup := { gr_name : string; gr_items : list PublicItem }.
Record PublicUpdate := { pu_status : string; pu_body : string; pu_created_at : Z }.
Record PublicIncident := {
  pi_title : string;
  pi_kind : string;
  pi_status : string;
  pi_severity : string;
  pi_starts_at : Z;
  pi_ends_at : option Z;
  pi_updates : list PublicUpdate;
}.
Record PublicPage := {
  pp_slug : string;
  pp_title : string;
  pp_description : string;
  pp_theme : string;
  pp_show_uptime_days : Z;
  pp_history_days : Z;
  pp_updated_at : Z;
  pp_accent : string;
  pp_scenes : list string;
  pp_scene_rotation : string;
  pp_simple : bool;
  pp_footer_text : string;
  pp_homepage_url : string;
  pp_logo : option Z;
  pp_subscribe : bool;
}.
Record PublicStatus := {
  ps_page : PublicPage;
  ps_overall : string;
  ps_generated_at : Z;
  ps_groups : list PublicGroup;
  ps_incidents : list PublicIncident;
  ps_maintenance : list PublicIncident;
}.

Definition to_public_incident (d : Tables) (ki : Z * Incident) : PublicIncident :=
  let n := inc ki.2 in
  {| pi_title := n_title n; pi_kind := n_kind n; pi_status := n_status n; pi_severity := n_severity n;
     pi_starts_at := n_starts_at n; pi_ends_at := n_ends_at n;
     pi_updates := (fun u => {| pu_status := up_status u; pu_body := up_body u; pu_created_at := up_created_at u |}) <$>
                     list_updates_ ki.1 d |}.

Definition is_maintenance (i : Incident) : bool := bool_decide (n_kind (inc i) = "maintenance").
(** A maintenance declared on the page that is under way. *)
Definition under_way (now : Z) (i : Incident) : bool :=
  is_maintenance i &&
  (bool_decide (n_status (inc i) = "in_progress")
   || bool_decide (n_status (inc i) = "scheduled") && (n_starts_at (inc i) <=? now)
      && negb (is_some_and (n_ends_at (inc i)) (fun e => e <=? now))).
Definition is_open (i : Incident) : bool := negb (is_maintenance i) && negb (is_closing (n_status (inc i))).
Definition is_major (i : Incident) : bool := is_open i && bool_decide (n_severity (inc i) = "major").
Definition spans_day (now day : Z) (i : Incident) : bool :=
  negb (is_maintenance i) && (n_starts_at (inc i) <? day + DAY) && (day <=? (n_ends_at (inc i) ?? now)).

Definition clamp (lo hi v : Z) : Z := if v <? lo then lo else if hi <? v then hi else v.
Definition shown_state (maintenance : bool) (state : string) : string :=
  if maintenance && bool_decide (state ∈ ["down"; "degraded"]%string) then "maintenance" else state.

(** An item goes to the group of its name, or opens it after the others. *)
Fixpoint put_item (name : string) (item : PublicItem) (groups : list PublicGroup) : list PublicGroup :=
  match groups with
  | [] => [{| gr_name := name; gr_items := [item] |}]
  | g :: groups => if bool_decide (gr_name g = name) then {| gr_name := name; gr_items := gr_items g ++ [item] |} :: groups
                   else g :: put_item name item groups
  end.

Definition overall_of (maintenance_active major_incident open_incident : bool) (states : list string) : string :=
  let n (s : string) := length (filter (fun x => x = s) states) in
  if maintenance_active || ((0 <? n "maintenance") && (n "down" =? 0) && (n "degraded" =? 0))%nat && negb open_incident then "maintenance"
  else if major_incident || ((0 <? n "down") && (n "down" =? length states))%nat then "major"
  else if ((0 <? n "down") || (0 <? n "degraded"))%nat || open_incident then "degraded"
  else "operational".

(** What is told of the past: what is not over, and what ended within thirty days. *)
Definition still_told (now : DateTime) (i : Incident) : bool :=
  negb (is_closing (n_status (inc i)))
  || negb (is_some_and (n_ends_at (inc i)) (fun e => e <? format_timestamp (now - td_days PAST_INCIDENTS_DAYS))).

Record World := {
  w_targets : gmap Z Target;
  w_statuses : gmap Z TargetStatus;
  w_created_at : gmap Z DateTime;
  w_silences : list Silence;
}.

(** Age of the data of the page, in days. *)
Definition minimum (l : list DateTime) : option DateTime :=
  foldr (fun t acc => Some (match acc with Some u => Z.min t u | None => t end)) None l.
Definition age_days (now : DateTime) (w : World) (items : list (Z * PageItem)) : Z :=
  match minimum (omap (fun i => w_created_at w !! ii_target_id (it i.2)) items) with
  | Some created => num_days (now - created) + 1
  | None => 0
  end.
Definition planned (now : DateTime) (w : World) (t : Target) : bool :=
  is_some_and (first_match (w_silences w) now (Some (Wire.id t)) (base_labels t)) (fun _ => true).

Definition history_of (now : Z) (metrics : Metrics) (told : list Incident) (days : list Z) (target : Z) : list DayBucket :=
  let uptime := daily metrics !! target ?? ∅ in
  let down := daily_down metrics !! target ?? ∅ in
  (fun day =>
     {| b_date := day; b_uptime_pct := round <$> uptime !! day;
        b_down_minutes := (fun _ => match down !! day with
                                    | None => 0
                                    | Some minutes => f64_whole 0 u32_max (f64_max (f64_round minutes) f64_zero)
                                    end) <$> uptime !! day;
        b_incidents := Z.of_nat (length (filter (fun i => spans_day now day i = true) told)) |}) <$> days.

Definition item_of (now : DateTime) (w : World) (metrics : Metrics) (told : list Incident) (days : Z) (maintenance_active : bool)
    (item : PageItemInput) (target : Target) (key : string) : PublicItem :=
  let id := Wire.id target in
  let day_starts := (fun i => today_start (format_timestamp now) - (days - 1 - i) * DAY) <$> seqZ 0 days in
  {| k_key := key; k_label := ii_label item;
     k_state := shown_state (maintenance_active || planned now w target) (item_state target (w_statuses w !! id) metrics now);
     k_uptime_24h := round <$> uptime_24h metrics !! id; k_uptime_7d := round <$> uptime_7d metrics !! id;
     k_uptime_30d := round <$> uptime_30d metrics !! id;
     k_uptime_90d := if 90 <=? days then round <$> uptime_90d metrics !! id else None;
     k_latency_ms := round <$> latency_ms metrics !! id;
     k_history := history_of (format_timestamp now) metrics told day_starts id |}.

(** The services of devices that are there, with the keys they are given in turn. *)
Definition shown_items (w : World) (items : list (Z * PageItem)) : list (PageItemInput * Target) :=
  omap (fun i => t ← w_targets w !! ii_target_id (it i.2); Some (it i.2, t)) items.

Definition build_public (a : Around) (w : World) (page : StatusPage) (id : Z) (d : Tables) : option PublicStatus :=
  let now := a_now a in
  let cap := clamp MIN_HISTORY_DAYS MAX_HISTORY_DAYS (i_show_uptime_days (pg page)) in
  let items := list_items id d in
  let days := clamp MIN_HISTORY_DAYS cap (age_days now w items) in
  let shown := shown_items w items in
  let metrics := collect_metrics shown.*2 days (format_timestamp now) in
  let since := now - td_days (Z.max days PAST_INCIDENTS_DAYS) in
  let told := incidents_for_page id (format_timestamp since) d in
  let maintenance_active := existsb (fun ki => under_way (format_timestamp now) ki.2) told in
  keys ← unique_keys (ii_label ∘ fst <$> shown) ∅;
  let public := zip_with (fun it key => (ii_group_name it.1,
                  item_of now w metrics told.*2 days maintenance_active it.1 it.2 key)) shown keys in
  Some
    {| ps_page := {| pp_slug := i_slug (pg page); pp_title := i_title (pg page); pp_description := i_description (pg page);
                     pp_theme := i_theme (pg page); pp_show_uptime_days := cap; pp_history_days := days;
                     pp_updated_at := pg_updated_at page; pp_accent := i_accent (pg page);
                     pp_scenes := split_scenes (i_scenes (pg page)); pp_scene_rotation := i_scene_rotation (pg page);
                     pp_simple := i_simple (pg page); pp_footer_text := i_footer_text (pg page);
                     pp_homepage_url := i_homepage_url (pg page);
                     pp_logo := (fun _ => pg_updated_at page) <$> pg_logo_type page;
                     pp_subscribe := offers_subscription a page |};
       ps_overall := overall_of maintenance_active (existsb (fun ki => is_major ki.2) told)
                       (existsb (fun ki => is_open ki.2) told) (k_state ∘ snd <$> public);
       ps_generated_at := format_timestamp now;
       ps_groups := foldl (fun groups ni => put_item ni.1 ni.2 groups) [] public;
       ps_incidents := to_public_incident d <$> filter (fun ki => is_maintenance ki.2 = false /\ still_told now ki.2 = true) told;
       ps_maintenance := to_public_incident d <$> filter (fun ki => is_maintenance ki.2 = true /\ still_told now ki.2 = true) told |}.

(** ** The cache *)

Record CachedStatus := { c_at : Z; c_page_updated_at : Z; c_body : PublicStatus }.

(** What the cache answers for a page. *)
Definition cached (cache : gmap string CachedStatus) (instant : Z) (slug : string) (page : StatusPage) : option PublicStatus :=
  entry ← cache !! slug;
  if (duration_since instant (c_at entry) <? CACHE_TTL) && (c_page_updated_at entry =? pg_updated_at page)
  then Some (c_body entry) else None.

(** A reading, with the instants of its look at the cache and of its writing, and the tables at its two ends. *)
Definition published (slug : string) (d : Tables) : option (Z * StatusPage) :=
  '(id, page) ← get_page_by_slug slug d;
  if i_published (pg page) then Some (id, page) else None.
Definition load_public (a : Around) (w : World) (slug : string) (instant written : Z) (d d' : Tables)
    (cache : gmap string CachedStatus) : gmap string CachedStatus * (ApiError + PublicStatus) :=
  match published slug d with
  | None => (cache, inl public_not_found)
  | Some (id, page) =>
      match cached cache instant slug page with
      | Some body => (cache, inr body)
      | None =>
          match build_public a w page id d' with
          | None => (cache, inl ApiError.Internal)
          | Some body =>
              (<[slug := {| c_at := written; c_page_updated_at := pg_updated_at page; c_body := body |}]> cache, inr body)
          end
      end
  end.
End public.

(** ** Examples *)

Example round_ex : round (f64_of_Z 3) = f64_of_Z 3 /\ (round <$> parse_f64 "99.996") = Some hundred /\
  (round <$> parse_f64 "12.345") = parse_f64 "12.35".
Proof. split_and!; vm_compute; reflexivity. Qed.
Example rescale_ex : rescale (f64_of_Z 25) (f64_of_Z 100) (f64_of_Z 50) = Some (f64_of_Z 50).
Proof. vm_compute. reflexivity. Qed.
