(* ===== verification/StatusPublicFacts.v ===== *)
(** * Status pages: what the public document says

    The word at the top of a page does not hide a service that is down; every service of the page is shown once,
    under its own key, over a window of seven to ninety days. *)
From Stdlib Require Import Ascii.
From Stdlib Require String.
From S2P Require Import Prelude Text Float64 Tsdb Chrono Model Silence NotifyPolicy RateLimit ApiToken Accounts Auth Guard Handler Wire Html Site SiteFacts StatusHost StatusHostFacts StatusPages Subscribers StatusPagesFacts StatusPublic.

(** ** The word *)

Definition count (s : string) (l : list string) : nat := length (filter (fun x => x = s) l).
Lemma count_pos s l : (0 <? count s l)%nat = bool_decide (s ∈ l).
Proof.
  unfold count. destruct (filter (fun x => x = s) l) as [|x rest] eqn:E; cbn; symmetry.
  - apply bool_decide_eq_false. intros Hin. assert (s ∈ filter (fun x => x = s) l) as Hf by by apply list_elem_of_filter.
    rewrite E in Hf. by apply elem_of_nil in Hf.
  - apply bool_decide_eq_true. assert (x ∈ filter (fun x => x = s) l) as Hx by (rewrite E; by left).
    by apply list_elem_of_filter in Hx as [-> Hx].
Qed.
Lemma count_zero s l : (count s l =? 0)%nat = negb (bool_decide (s ∈ l)).
Proof. rewrite <-count_pos. by destruct (count s l). Qed.
Lemma count_all s l : (count s l =? length l)%nat = bool_decide (Forall (fun x => x = s) l).
Proof.
  unfold count. induction l as [|y l IH]; [done|]. rewrite filter_cons. pose proof (length_filter (fun x => x = s) l).
  destruct (decide (y = s)) as [->|Hne]; cbn [length].
  - change (S ?a =? S ?b)%nat with (a =? b)%nat. rewrite IH. apply bool_decide_ext. rewrite Forall_cons. tauto.
  - rewrite (proj2 (Nat.eqb_neq _ _)) by lia. symmetry. apply bool_decide_eq_false. rewrite Forall_cons. tauto.
Qed.

Record word_spec (active major open : bool) (states : list string) (word : string) : Prop := {
  ws_operational : word = "operational" <->
    active = false /\ major = false /\ open = false /\ forall s, s ∈ states -> s ∉ ["down"; "degraded"; "maintenance"]%string;
  ws_down : "down"%string ∈ states -> active = false -> word ∈ ["degraded"; "major"]%string;
  ws_total : states <> [] -> (forall s, s ∈ states -> s = "down"%string) -> active = false -> word = "major";
  ws_open : open = true -> active = false -> word ∈ ["degraded"; "major"]%string;
}.

Lemma overall_word_spec active major open states : word_spec active major open states (overall_of active major open states).
Proof.
  assert ((forall s, s ∈ states -> s ∉ ["down"; "degraded"; "maintenance"]%string) <->
          "down"%string ∉ states /\ "degraded"%string ∉ states /\ "maintenance"%string ∉ states) as Hnone by set_solver.
  assert (states <> [] -> Forall (fun x => x = "down"%string) states -> "down"%string ∈ states) as Hall.
  { destruct states as [|s l]; [done|]. intros _ [-> _]%Forall_cons. by left. }
  unfold overall_of. cbn zeta. fold (count "maintenance" states) (count "down" states) (count "degraded" states).
  rewrite !count_pos, !count_zero, count_all. split.
  - rewrite Hnone. destruct active, major, open; cbn; repeat case_bool_decide; cbn; naive_solver.
  - intros Hd ->. destruct major, open; repeat case_bool_decide; cbn; set_solver.
  - intros Hne Hs ->. apply Forall_forall in Hs. specialize (Hall Hne Hs). rewrite (bool_decide_eq_true_2 _ Hs).
    destruct major, open; repeat case_bool_decide; cbn; done.
  - intros -> ->. destruct major; repeat case_bool_decide; cbn; set_solver.
Qed.

(** ** The services *)

Lemma put_item_perm name item groups :
  (put_item name item groups ≫= gr_items) ≡ₚ item :: (groups ≫= gr_items).
Proof.
  induction groups as [|g groups IH]; [done|]. cbn [put_item]. case_bool_decide; rewrite !bind_cons; cbn [gr_items].
  - rewrite <-app_assoc. symmetry. apply Permutation_middle.
  - rewrite IH. symmetry. apply Permutation_middle.
Qed.
Lemma groups_perm public : forall groups,
  (foldl (fun groups ni => put_item ni.1 ni.2 groups) groups public ≫= gr_items) ≡ₚ public.*2 ++ (groups ≫= gr_items).
Proof.
  induction public as [|[name item] public IH]; intros groups; [done|]. cbn [foldl]. rewrite IH, put_item_perm. cbn.
  symmetry. apply Permutation_middle.
Qed.

Lemma fmap_zip_with {A B D E} (f : D -> E) (g : A -> B -> D) l k : f <$> zip_with g l k = zip_with (fun x y => f (g x y)) l k.
Proof. revert k. induction l as [|x l IH]; intros [|y k]; [done..|]. cbn. by rewrite IH. Qed.

Section public.
Context {C : Calendar} `{Crates}.
Variable query : string -> option (list InstantSeries).
Variable query_range : string -> Z -> Z -> Z -> option (list RangeSeries).

Definition document_items (doc : PublicStatus) : list PublicItem := ps_groups doc ≫= gr_items.

(** What a reading builds, spelled out. *)
Lemma built a w page id d doc :
  build_public query query_range a w page id d = Some doc ->
  exists keys active major open told metrics days,
    let shown := shown_items w (list_items id d) in
    let items := zip_with (fun it key => item_of (a_now a) w metrics told days active it.1 it.2 key) shown keys in
    unique_keys (ii_label ∘ fst <$> shown) ∅ = Some keys /\
    document_items doc ≡ₚ items /\
    ps_overall doc = overall_of active major open (k_state <$> items) /\
    pp_history_days (ps_page doc) = days /\
    days = clamp MIN_HISTORY_DAYS (pp_show_uptime_days (ps_page doc)) (age_days (a_now a) w (list_items id d)) /\
    pp_show_uptime_days (ps_page doc) = clamp MIN_HISTORY_DAYS MAX_HISTORY_DAYS (i_show_uptime_days (pg page)).
Proof.
  unfold build_public. intros (keys & Ek & E)%bind_Some. injection E as <-. do 7 eexists. split; [exact Ek|].
  unfold document_items. cbn [ps_groups ps_overall ps_page pp_history_days pp_show_uptime_days].
  rewrite groups_perm, app_nil_r. split.
  - rewrite fmap_zip_with. cbn [snd]. reflexivity.
  - split; [|done]. rewrite !fmap_zip_with. cbn [snd compose]. reflexivity.
Qed.

Lemma in_document doc items : document_items doc ≡ₚ items -> forall i, i ∈ document_items doc <-> i ∈ items.
Proof. intros Hp i. by rewrite Hp. Qed.

(** C32. The word at the top of a page hides no outage.  It says that all is well only when no service of the page is
    down, degraded or in maintenance; as long as one service is shown down, it says so, and when all are it says that
    the outage is total. *)
Theorem public_word_hides_no_outage a w page id d doc :
  build_public query query_range a w page id d = Some doc ->
  let states := k_state <$> document_items doc in
  (ps_overall doc = "operational"%string -> forall s, s ∈ states -> s ∉ ["down"; "degraded"; "maintenance"]%string) /\
  ("down"%string ∈ states -> ps_overall doc ∈ ["degraded"; "major"]%string) /\
  (states <> [] -> (forall s, s ∈ states -> s = "down"%string) -> ps_overall doc = "major"%string).
Proof.
  intros Hb states. destruct (built _ _ _ _ _ _ Hb) as (keys & active & major & open & told & metrics & days & _ & Hp & Ho & _).
  set (items := zip_with _ _ _) in *.
  assert (forall s, s ∈ states <-> s ∈ k_state <$> items) as Hst by (intros s; unfold states; by rewrite Hp).
  pose proof (overall_word_spec active major open (k_state <$> items)) as [H1 H2 H3 _]. rewrite Ho.
  assert (active = true -> "down"%string ∉ k_state <$> items) as Hactive.
  { intros Ha (i & Es & Hi)%list_elem_of_fmap. apply elem_of_lookup_zip_with in Hi as (n & it & key & -> & _ & _).
    cbn in Es. rewrite Ha in Es. unfold shown_state in Es. cbn in Es. case_bool_decide as Hin; [done|]. apply Hin. rewrite <-Es. by left. }
  split_and!.
  - intros Hop s Hs. apply H1 in Hop as (_ & _ & _ & Hn). by apply Hn, Hst.
  - intros Hd%Hst. destruct active; [by destruct (Hactive eq_refl)|]. by apply H2.
  - intros Hne Hall. assert (k_state <$> items <> []) as Hne'.
    { intros E. destruct states as [|s l] eqn:Es; [done|]. assert (s ∈ k_state <$> items) as Hin by (apply Hst; by left).
      rewrite E in Hin. by apply elem_of_nil in Hin. }
    destruct active; [|apply H3; [done| |done]; intros s Hs; by apply Hall, Hst].
    destruct (k_state <$> items) as [|s l] eqn:E; [done|]. destruct (Hactive eq_refl).
    assert (s = "down"%string) as -> by (apply Hall, Hst; by left). by left.
Qed.

Lemma zip_labels w now told metrics days active items keys :
  length keys = length (shown_items w items) ->
  let l := zip_with (fun it key => item_of now w metrics told days active it.1 it.2 key) (shown_items w items) keys in
  k_label <$> l = (ii_label ∘ fst <$> shown_items w items) /\ k_key <$> l = keys.
Proof.
  revert keys. induction (shown_items w items) as [|it its IH]; intros [|key keys] Hl; try done.
  destruct (IH keys) as [E1 E2]; [by injection Hl|]. cbn. rewrite E1, E2. done.
Qed.

Lemma clamp_range lo hi v : lo <= hi -> lo <= clamp lo hi v <= hi.
Proof. unfold clamp. intros Hle. destruct (Z.ltb_spec v lo); [lia|]. destruct (Z.ltb_spec hi v); lia. Qed.

(** The public document of a page always comes out, and shows what the page chose to show: each of its services whose
    device is still there once, under its label and a key of its own, over a history of seven to ninety days. *)
Theorem public_document_shows_each_service_once a w page id d :
  exists doc, build_public query query_range a w page id d = Some doc /\
    (k_label <$> document_items doc) ≡ₚ (ii_label ∘ fst <$> shown_items w (list_items id d)) /\
    NoDup (k_key <$> document_items doc) /\
    7 <= pp_history_days (ps_page doc) <= 90 /\
    (forall i, i ∈ document_items doc -> Z.of_nat (length (k_history i)) = pp_history_days (ps_page doc)).
Proof.
  destruct (unique_keys_distinct (ii_label ∘ fst <$> shown_items w (list_items id d)) ∅) as (keys & Ek & Hl & Hd & _).
  assert (is_Some (build_public query query_range a w page id d)) as [doc Hdoc] by (unfold build_public; rewrite Ek; by eexists).
  exists doc. split; [done|].
  destruct (built _ _ _ _ _ _ Hdoc) as (keys' & active & major & open & told & metrics & days & Ek' & Hp & _ & Ehd & Edays & Eshow).
  cbn zeta in *. rewrite Ek in Ek'. injection Ek' as <-. rewrite length_fmap in Hl.
  destruct (zip_labels w (a_now a) told metrics days active (list_items id d) keys Hl) as [E1 E2].
  pose proof (clamp_range MIN_HISTORY_DAYS MAX_HISTORY_DAYS (i_show_uptime_days (pg page)) ltac:(done)) as Hcap.
  rewrite <-Eshow in Hcap.
  pose proof (clamp_range MIN_HISTORY_DAYS (pp_show_uptime_days (ps_page doc)) (age_days (a_now a) w (list_items id d)) ltac:(lia)) as Hrange.
  rewrite <-Edays in Hrange. unfold MIN_HISTORY_DAYS, MAX_HISTORY_DAYS in *. split_and!.
  - by rewrite Hp, E1.
  - by rewrite Hp, E2.
  - lia.
  - lia.
  - intros i Hi. apply (in_document _ _ Hp) in Hi. apply elem_of_lookup_zip_with in Hi as (n & it & key & -> & _ & _).
    cbn [k_history item_of]. unfold history_of. rewrite !length_fmap, length_seqZ. lia.
Qed.
End public.

(** ** The cache *)

(** A message moves its announcement and leaves its page as it was: the date of the page, which the cache compares, does
    not tell a document made before the message from one made after. *)
Lemma message_leaves_the_page now id status body closes d d' slug :
  store_update now id status body closes d = Some d' -> published slug d' = published slug d.
Proof. unfold store_update. case_bool_decide; [|done]. by intros [= <-]. Qed.

(** So a document made before the message, and written to the cache once it had been emptied, is still served. *)
Lemma late_document_is_served now id status body closes d d' slug k page written instant doc :
  store_update now id status body closes d = Some d' -> published slug d = Some (k, page) ->
  duration_since instant written < CACHE_TTL ->
  (p ← published slug d'; cached (<[slug := {| c_at := written; c_page_updated_at := pg_updated_at page; c_body := doc |}]> ∅)
     instant slug p.2) = Some doc.
Proof.
  intros Hu Hp Ht. rewrite (message_leaves_the_page _ _ _ _ _ _ _ slug Hu), Hp. cbn. unfold cached.
  rewrite lookup_insert_eq. cbn. by rewrite (proj2 (Z.ltb_lt _ _) Ht), Z.eqb_refl.
Qed.

(** ** An example *)

Section example.
#[local] Existing Instance plain_crates.
#[local] Existing Instance plain_web.

Definition web_server : Target :=
  {| Wire.id := 4; name := "web"; address := "10.0.0.4"; t_kind := "linux"; profile_id := None; parent_id := None;
     interval := td_minutes 1; enabled := true; tags := ∅; credential := Credential.None; group_name := ""; position := 0 |}.
Definition broken : World :=
  {| w_targets := {[4 := web_server]}; w_statuses := {[4 := {| last_probe_at := None; last_error := Some "refused" |}]};
     w_created_at := {[4 := td_days 90]}; w_silences := [] |}.
Definition shop_page : StatusPage := default
  {| pg := {| i_slug := ""; i_title := ""; i_description := ""; i_published := false; i_theme := ""; i_show_uptime_days := 0;
              i_accent := ""; i_scenes := ""; i_scene_rotation := ""; i_simple := false; i_footer_text := ""; i_homepage_url := "";
              i_subscribe_channel_id := None; i_link_origin := ""; i_domain := None |};
     pg_created_at := 0; pg_updated_at := 0; pg_logo_type := None |} (get_page 1 (tables (site told))).
Definition read_page : option PublicStatus :=
  build_public (fun _ => None) (fun _ _ _ _ => None) (day 101) broken shop_page 1 (tables (site told)).
Definition summary (doc : PublicStatus) : string * Z * list (string * string * nat) * list string :=
  (ps_overall doc, pp_history_days (ps_page doc),
   (fun i => (k_key i, k_state i, length (k_history i))) <$> document_items doc, pi_title <$> ps_incidents doc).
Example read_page_ex : summary <$> read_page = Some ("major", 12, [("web", "down", 12%nat)], ["Down"])%string.
Proof. vm_compute. reflexivity. Qed.

Lemma public_word_hides_no_outage_witness :
  exists doc, read_page = Some doc /\ "down"%string ∈ (k_state <$> document_items doc) /\ ps_overall doc ∈ ["degraded"; "major"]%string.
Proof.
  destruct read_page as [doc|] eqn:E; [|vm_compute in E; discriminate E]. exists doc. split; [reflexivity|].
  assert ("down"%string ∈ (k_state <$> document_items doc)) as Hd.
  { assert ((k_state <$> document_items doc) = ["down"%string]) as -> by (vm_compute in E; injection E as <-; vm_compute; reflexivity).
    by left. }
  split; [exact Hd|].
  unfold read_page in E. apply public_word_hides_no_outage in E. exact (proj1 (proj2 E) Hd).
Defined.
End example.
