(* ===== verification/AlertsApi.v ===== *)
(** * The handlers of the alerts ([api/alerts.rs])

    Rules, per-device overrides, acknowledgements, the history and maintenance windows: what a request is
    checked against and what it writes.

    Reading JSON is serde's: a payload is a record of what it read, where an optional member that is absent or
    null is [None].  Instants given as text are read by chrono, [parse_from_rfc3339] and [parse_from_str], and a
    float is written by [display_f64]. *)
From Stdlib Require Import Ascii.
From Stdlib Require String.
From S2P Require Import Prelude Text Float64 Chrono Model Machine Silence Overrides Cycle NotifyPolicy Db PolicyStore RuleBook Rules.
From S2P Require Import RateLimit ApiToken Accounts Auth Guard Handler.

Definition MAX_UID_LEN : nat := 64.
Definition DEFAULT_HISTORY_DAYS : Z := 7.
Definition MAX_HISTORY_LIMIT : Z := 5000.
Definition DEFAULT_HISTORY_LIMIT : Z := 500.
Definition MIN_UTC_OFFSET : Z := -12 * 60.
Definition MAX_UTC_OFFSET : Z := 14 * 60.
Definition MAX_MONTHLY_ENTRIES : nat := 31.
Definition DEFAULT_ACK_SECS : Z := 4 * 3600.
Definition MAX_ACK_SECS : Z := 30 * 24 * 3600.
Definition MAX_ACK_NOTE_LEN : nat := 200.

(** A text between quotation marks. *)
Definition in_quotes (s : string) : string := (dq +:+ s +:+ dq)%string.
Definition not_empty (s : string) : option string := if bool_decide (s = "") then None else Some s.

(** ** Payloads *)

Record OverridePayload := {
  op_threshold : option f64;
  op_clear_threshold : option f64;
  op_enabled : option bool;
}.
Definition is_ignore (p : OverridePayload) : bool :=
  bool_decide (op_enabled p = Some false) && bool_decide (op_threshold p = None) &&
  bool_decide (op_clear_threshold p = None).

Record AnomalyParamsPayload := {
  pp_k : option f64;
  pp_alpha : option f64;
  pp_mad_floor_abs : option f64;
  pp_mad_floor_rel : option f64;
  pp_min_samples : option Z;
}.

(** The selector and the settings are read apart, and refused apart: [Some None] is a value that does not read. *)
Record RulePayload := {
  p_uid : option string;
  p_name : string;
  p_description : option string;
  p_kind : option string;
  p_query : string;
  p_operator : option string;
  p_threshold : option f64;
  p_clear_threshold : option f64;
  p_for_secs : option Z;
  p_severity : option string;
  p_selector : option (option TargetSelector);
  p_channels : option (list Z);
  p_params : option (option AnomalyParamsPayload);
  p_unit : option string;
  p_repeat_secs : option Z;
  p_escalate_after_secs : option Z;
  p_enabled : option bool;
}.

(** A member [until] that is null is not one that is absent. *)
Record AckPayload := {
  ak_until_ : option (option string);
  ak_duration_secs : option Z;
  ak_note_ : option string;
}.
Definition AckPayload_default : AckPayload := {| ak_until_ := None; ak_duration_secs := None; ak_note_ := None |}.

Module AckRequest.
Inductive AckRequest := Set_ (until : DateTime) (note : option string) | Clear.
End AckRequest.
Notation AckRequest := AckRequest.AckRequest.

(** How an acknowledgement fails. *)
Module Failure.
Inductive Failure := Refused (e : ApiError) | Panicked.
End Failure.
Notation Failure := Failure.Failure.

Record SilencePayload := {
  sp_name : string;
  sp_comment : option string;
  sp_target_id : option TargetId;
  sp_matchers : gmap string string;
  sp_schedule : option Schedule;
  sp_enabled : option bool;
}.
Record HistoryQuery := {
  hq_since : option string;
  hq_limit : option Z;
  hq_dismissed : option bool;
}.

(** ** Identifiers of rules *)

(** The letter without its accent: the accented letters are those of U+00C0 to U+00FF. *)
Definition fold_accent (c : Z) : Z :=
  let upper (c : Z) : option string :=
    if c <=? 0xC5 then Some "A" else if c =? 0xC7 then Some "C"
    else if (0xC8 <=? c) && (c <=? 0xCB) then Some "E" else if (0xCC <=? c) && (c <=? 0xCF) then Some "I"
    else if c =? 0xD1 then Some "N" else if (0xD2 <=? c) && (c <=? 0xD6) then Some "O"
    else if (0xD9 <=? c) && (c <=? 0xDC) then Some "U" else if c =? 0xDD then Some "Y" else None in
  let letter (s : option string) (down : Z) : Z :=
    match s with Some (String a _) => byte a + down | _ => c end in
  if c <? 0xC0 then c
  else if c <? 0xE0 then letter (upper c) 0
  else if c =? 0xFF then byte "y"%char
  else if c <? 0x100 then letter (upper (c - 0x20)) 32
  else c.

(** A character of one byte, or of the two bytes C3 xx: U+00C0 to U+00FF.  The bytes of the others are no letters
    of ASCII. *)
Fixpoint folded (s : list ascii) : list ascii :=
  match s with
  | a :: s' =>
      match s' with
      | b :: s'' =>
          if (byte a =? 0xC3) && (0x80 <=? byte b) && (byte b <? 0xC0)
          then of_byte (fold_accent (byte b + 0x40)) :: folded s''
          else a :: folded s'
      | [] => [a]
      end
  | [] => []
  end.
Definition slug_char (slug : list ascii) (c : ascii) : list ascii :=
  if is_ascii_alphanumeric c then slug ++ [ascii_lower c]
  else if bool_decide (last slug = Some "_"%char) then slug
  else slug ++ ["_"%char].
Fixpoint trim_start_matches (c : ascii) (s : string) : string :=
  match s with
  | String a s' => if bool_decide (a = c) then trim_start_matches c s' else s
  | EmptyString => s
  end.
Definition slugify (name : string) : string :=
  let slug := foldl slug_char [] (folded (Stdlib.Strings.String.list_ascii_of_string name)) in
  let slug := trim_end_matches "_" (trim_start_matches "_" (Stdlib.Strings.String.string_of_list_ascii slug)) in
  Stdlib.Strings.String.substring 0 MAX_UID_LEN slug.
Definition uid_char (c : ascii) : bool :=
  is_ascii_lower c || is_ascii_digit c || bool_decide (c = "_"%char) || bool_decide (c = "-"%char).

(** ** State *)

Section alerts.
Context {C : Calendar} `{Crates}.
Variable display_f64 : f64 -> string.
Variable parse_from_rfc3339 : string -> option DateTime.
Variable parse_from_str : string -> string -> option DateTime.

Record State := { al_db : Db; al_auth : AuthState }.
Definition on_alerts (f : Db -> Db) (s : State) : State := {| al_db := f (al_db s); al_auth := al_auth s |}.

Notation H := (Handler State ApiError).
Definition select {E A} (f : Db -> A) : Handler State E A := gets (fun s => f (al_db s)).
Definition statement {E A} (f : Db -> Db * A) : Handler State E A :=
  act (fun s => let '(d, a) := f (al_db s) in (on_alerts (fun _ => d) s, a)).
Definition execute_ (f : Db -> Db) : H () := modify (on_alerts f).
Definition audited {E} (env : Env) (actor action subject : string) : Handler State E () :=
  modify (fun s => {| al_db := al_db s; al_auth := (record env (Some actor) action (Some subject) (al_auth s)).1 |}).
Definition bad_request {A} (why : string) : H A := throw (ApiError.BadRequest why).

(** ** Checks on a rule *)

Definition parse_kind (raw : option string) : H RuleKind :=
  match trim <$> raw with
  | None => mret RuleKind.Threshold
  | Some k =>
      if bool_decide (k = "" \/ k = "threshold") then mret RuleKind.Threshold
      else if bool_decide (k = "anomaly") then mret RuleKind.Anomaly
      else if bool_decide (k = "predict") then mret RuleKind.Predict
      else bad_request ("Unknown rule type " +:+ in_quotes k +:+ " (expected: threshold, anomaly, predict).")%string
  end.
Definition parse_operator (raw : option string) : H Operator :=
  match trim <$> raw with
  | None => mret Operator.Gt
  | Some o =>
      if bool_decide (o = "" \/ o = ">") then mret Operator.Gt
      else if bool_decide (o = ">=") then mret Operator.Ge
      else if bool_decide (o = "<") then mret Operator.Lt
      else if bool_decide (o = "<=") then mret Operator.Le
      else bad_request ("Invalid operator " +:+ in_quotes o +:+ " (expected: >, >=, <, <=).")%string
  end.
Definition parse_severity (raw : option string) : H Severity :=
  match trim <$> raw with
  | None => mret Severity.Warning
  | Some s =>
      if bool_decide (s = "" \/ s = "warning") then mret Severity.Warning
      else if bool_decide (s = "info") then mret Severity.Info
      else if bool_decide (s = "critical") then mret Severity.Critical
      else bad_request ("Unknown severity " +:+ in_quotes s +:+ " (expected: info, warning, critical).")%string
  end.
Definition parse_duration (secs : option Z) (label : string) : H (option Duration) :=
  match secs with
  | None => mret None
  | Some value =>
      if value <? 0 then bad_request (label +:+ " cannot be negative.")%string
      else if value =? 0 then mret None
      else mret (Some (td_seconds value))
  end.
Definition parse_selector (raw : option (option TargetSelector)) : H TargetSelector :=
  match raw with
  | None => mret TargetSelector.All
  | Some None =>
      bad_request ("Invalid device selector. Accepted forms: {" +:+ in_quotes "kind" +:+ ":" +:+ in_quotes "all" +:+ "}, {" +:+
        in_quotes "kind" +:+ ":" +:+ in_quotes "ids" +:+ "," +:+ in_quotes "ids" +:+ ":[1,2]} or {" +:+
        in_quotes "kind" +:+ ":" +:+ in_quotes "labels" +:+ "," +:+ in_quotes "labels" +:+ ":{" +:+
        in_quotes "role" +:+ ":" +:+ in_quotes "nas" +:+ "}}.")%string
  | Some (Some s) => mret s
  end.

Definition positive (x : f64) : bool := f64_is_finite x && f64_gt x f64_zero.
Definition parse_params (raw : option (option AnomalyParamsPayload)) : H AnomalyParams :=
  match raw with
  | None => mret AnomalyParams_default
  | Some None =>
      bad_request ("Invalid anomaly settings. " +:+ in_quotes "k" +:+ ", " +:+ in_quotes "alpha" +:+ ", " +:+
        in_quotes "mad_floor_abs" +:+ " and " +:+ in_quotes "mad_floor_rel" +:+ " must be numbers, " +:+
        in_quotes "min_samples" +:+ " a positive integer.")%string
  | Some (Some payload) =>
      let defaults := AnomalyParams_default in
      let params := {| ap_k := pp_k payload ?? ap_k defaults; ap_alpha := pp_alpha payload ?? ap_alpha defaults;
                       ap_mad_floor_abs := pp_mad_floor_abs payload ?? ap_mad_floor_abs defaults;
                       ap_mad_floor_rel := pp_mad_floor_rel payload ?? ap_mad_floor_rel defaults;
                       ap_min_samples := pp_min_samples payload ?? ap_min_samples defaults |} in
      _ ← refuse_if (negb (positive (ap_k params)))
            (ApiError.BadRequest (in_quotes "k" +:+ " must be a strictly positive number: it is the number of robust deviations beyond which a point is considered abnormal."));
      _ ← refuse_if (negb (positive (ap_alpha params) && f64_le (ap_alpha params) f64_one))
            (ApiError.BadRequest (in_quotes "alpha" +:+ " must be between 0 (exclusive) and 1 (inclusive)."));
      _ ← refuse_if (negb (positive (ap_mad_floor_abs params)))
            (ApiError.BadRequest (in_quotes "mad_floor_abs" +:+ " must be strictly positive: without a floor, a perfectly flat series would score any deviation as infinite."));
      _ ← refuse_if (negb (f64_is_finite (ap_mad_floor_rel params) && f64_ge (ap_mad_floor_rel params) f64_zero))
            (ApiError.BadRequest (in_quotes "mad_floor_rel" +:+ " cannot be negative."));
      _ ← refuse_if (ap_min_samples params =? 0)
            (ApiError.BadRequest (in_quotes "min_samples" +:+ " must be at least 1: scoring an empty bucket makes no sense."));
      mret params
  end.

(** On the calm side of the threshold. *)
Definition calm (operator : Operator) (threshold clear : f64) : bool :=
  match operator with
  | Operator.Gt | Operator.Ge => f64_lt clear threshold
  | Operator.Lt | Operator.Le => f64_gt clear threshold
  end.
Definition not_calm (operator : Operator) (threshold clear : f64) : string :=
  let values := (" (" +:+ display_f64 clear +:+ ") must be ")%string in
  match operator with
  | Operator.Gt | Operator.Ge =>
      "The clear threshold" +:+ values +:+ "below the threshold (" +:+ display_f64 threshold +:+
      "): the alert fires above the threshold and clears once the value drops under the clear threshold."
  | Operator.Lt | Operator.Le =>
      "The clear threshold" +:+ values +:+ "above the threshold (" +:+ display_f64 threshold +:+
      "): the alert fires below the threshold and clears once the value rises over the clear threshold."
  end%string.
Definition check_clear_threshold (operator : Operator) (threshold : f64) (clear : option f64) : H () :=
  match clear with
  | None => mret tt
  | Some clear =>
      _ ← refuse_if (negb (f64_is_finite clear)) (ApiError.BadRequest "The clear threshold must be a finite number.");
      refuse_if (negb (calm operator threshold clear)) (ApiError.BadRequest (not_calm operator threshold clear))
  end.

(** The channels asked that exist, each once; or the first that does not. *)
Fixpoint check_channels (known seen wanted : list Z) : Z + list Z :=
  match wanted with
  | [] => inr []
  | id :: wanted =>
      if negb (bool_decide (id ∈ known)) then inl id
      else match check_channels known (id :: seen) wanted with
           | inl id => inl id
           | inr ids => inr (if bool_decide (id ∈ seen) then ids else id :: ids)
           end
  end.
Definition existing_ids (d : Db) : list Z := (fun ch => NotifyPolicy.rc_id (ch_recipient ch)) <$> db_channels d.
Definition validate_channels (wanted : list Z) : H (list Z) :=
  match wanted with
  | [] => mret []
  | _ =>
      known ← select existing_ids;
      match check_channels known [] wanted with
      | inl id => bad_request ("Notification channel " +:+ display_i64 id +:+ " does not exist. Create it first, or leave " +:+
                               in_quotes "channels" +:+ " empty to notify every enabled channel.")%string
      | inr ids => mret ids
      end
  end.

Definition check_uid_shape (uid : string) : H () :=
  _ ← refuse_if (MAX_UID_LEN <? String.length uid)%nat
        (ApiError.BadRequest ("A rule identifier is limited to " +:+ display_i64 (Z.of_nat MAX_UID_LEN) +:+ " characters."));
  _ ← refuse_if (negb (string_forall uid_char uid))
        (ApiError.BadRequest ("The identifier " +:+ in_quotes uid +:+ " must only contain unaccented lowercase letters, digits, hyphens and underscores."));
  refuse_if (bool_decide (uid = RULE_HOST_DOWN))
    (ApiError.BadRequest ("The identifier " +:+ in_quotes RULE_HOST_DOWN +:+ " is reserved for the " +:+ in_quotes "Device unreachable" +:+ " rule, on which dependency suppression relies.")).

(** The identifiers tried when the one of the name is taken. *)
Definition numbered_uid (base : string) (suffix : Z) : string := (base +:+ "_" +:+ display_i64 suffix)%string.
Definition resolve_uid (submitted : option string) (name : string) (current : option Rule) (existing : list Rule) : H string :=
  let submitted := submitted ≫= not_empty ∘ trim in
  let taken := r_uid <$> existing in
  match current with
  | Some current =>
      _ ← refuse_if (is_some_and submitted (fun uid => negb (bool_decide (uid = r_uid current))))
            (ApiError.BadRequest ("The stable identifier of a rule cannot be changed (" +:+ in_quotes (r_uid current) +:+ " here): it links the rule to its history and its active alerts."));
      mret (r_uid current)
  | None =>
      match submitted with
      | Some uid =>
          _ ← check_uid_shape uid;
          _ ← refuse_if (bool_decide (uid ∈ taken)) (ApiError.Conflict ("A rule already uses the identifier " +:+ in_quotes uid +:+ "."));
          mret uid
      | None =>
          let base := slugify name in
          _ ← refuse_if (bool_decide (base = ""))
                (ApiError.BadRequest ("Cannot derive an identifier from the name: add at least one letter or digit, or provide " +:+ in_quotes "uid" +:+ " explicitly."));
          _ ← check_uid_shape base;
          if negb (bool_decide (base ∈ taken)) then mret base
          else ok_or (ApiError.Conflict ("Too many rules have a name close to " +:+ in_quotes name +:+ ". Provide " +:+ in_quotes "uid" +:+ " explicitly."))
                 (find_map (fun candidate => if bool_decide (candidate ∈ taken) then None else Some candidate)
                    (numbered_uid base <$> seqZ 2 998))
      end
  end.

Definition validate_rule (current : option Rule) (existing : list Rule) (p : RulePayload) : H Rule :=
  let name := trim (p_name p) in
  _ ← refuse_if (bool_decide (name = "")) (ApiError.BadRequest "Rule name is required.");
  let query := trim (p_query p) in
  _ ← refuse_if (bool_decide (query = ""))
        (ApiError.BadRequest "The MetricsQL query is required: without it, the rule watches nothing.");
  kind ← parse_kind (p_kind p);
  operator ← parse_operator (p_operator p);
  severity ← parse_severity (p_severity p);
  let threshold := p_threshold p ?? f64_zero in
  _ ← refuse_if (negb (f64_is_finite threshold))
        (ApiError.BadRequest "The threshold must be a finite number: neither NaN nor infinity can be compared to a measurement.");
  let clear_threshold := if bool_decide (kind = RuleKind.Anomaly) then None else p_clear_threshold p in
  _ ← check_clear_threshold operator threshold clear_threshold;
  for_duration ← parse_duration (p_for_secs p) ("The hold duration " +:+ in_quotes "for_secs");
  repeat_interval ← parse_duration (p_repeat_secs p) ("The reminder interval " +:+ in_quotes "repeat_secs");
  escalate_after ← parse_duration (p_escalate_after_secs p) ("The escalation delay " +:+ in_quotes "escalate_after_secs");
  selector ← parse_selector (p_selector p);
  params ← parse_params (p_params p);
  channels ← validate_channels (p_channels p ?? []);
  uid ← resolve_uid (p_uid p) name current existing;
  mret {| r_id := from_option r_id 0 current; r_uid := uid; r_name := name; r_description := p_description p ?? "";
          r_kind := kind; r_query := query; r_operator := operator; r_threshold := threshold;
          r_clear_threshold := clear_threshold; r_for_duration := for_duration ?? 0; r_severity := severity;
          r_selector := selector; r_channels := channels; r_params := params; r_unit := p_unit p ?? "";
          r_repeat_interval := repeat_interval; r_escalate_after := escalate_after;
          r_enabled := match p_enabled p with Some b => b | None => from_option r_enabled true current end;
          r_builtin := is_some_and current r_builtin |}.

(** ** Rules *)

Definition rule_not_found (id : Z) : ApiError := ApiError.NotFound ("Alert rule " +:+ display_i64 id +:+ " not found.")%string.
Definition list_rules (d : Db) : list Rule :=
  sort_by (cmp_then (cmp_on (fun r => if r_builtin r then 0 else 1) Z.compare) (cmp_on r_name string_cmp)) (db_rules d).
Definition with_id (id : Z) (r : Rule) : Rule :=
  Build_Rule id (r_uid r) (r_name r) (r_description r) (r_kind r) (r_query r) (r_operator r) (r_threshold r)
    (r_clear_threshold r) (r_for_duration r) (r_severity r) (r_selector r) (r_channels r) (r_params r) (r_unit r)
    (r_repeat_interval r) (r_escalate_after r) (r_enabled r) (r_builtin r).
(** [RETURNING id] *)
Definition stored_id (uid : string) (d : Db) : option Z :=
  find_map (fun r => if bool_decide (r_uid r = uid) then Some (r_id r) else None) (db_rules d).

Definition RuleView : Type := Rule * list RuleOverride.
Definition view_with_overrides (rule : Rule) : H RuleView :=
  overrides ← select (list_overrides None None);
  mret (rule, filter (fun o => ro_rule_uid o = r_uid rule) overrides).
Definition list_rules_route : H (list RuleView) :=
  rules ← select list_rules;
  overrides ← select (list_overrides None None);
  mret ((fun rule => (rule, filter (fun o => ro_rule_uid o = r_uid rule) overrides)) <$> rules).

(** A route that writes a rule reads the table in one statement and writes in another. *)
Definition create_check (p : RulePayload) : H Rule :=
  existing ← select list_rules;
  validate_rule None existing p.
Definition write_rule (rule : Rule) : H RuleView :=
  id ← statement (fun d => let d := upsert_rule rule d in (d, stored_id (r_uid rule) d));
  view_with_overrides (with_id (id ?? 0) rule).
Definition create_rule (p : RulePayload) : H RuleView := create_check p ≫= write_rule.

Definition rule_of (id : Z) (rules : list Rule) : option Rule :=
  find_map (fun r => if bool_decide (r_id r = id) then Some r else None) rules.
Definition update_check (id : Z) (p : RulePayload) : H Rule :=
  existing ← select list_rules;
  current ← ok_or (rule_not_found id) (rule_of id existing);
  validate_rule (Some current) existing p.
Definition update_rule (id : Z) (p : RulePayload) : H RuleView := update_check id p ≫= write_rule.

Definition delete_rule_route (id : Z) : H () :=
  rules ← select list_rules;
  rule ← ok_or (rule_not_found id) (rule_of id rules);
  _ ← refuse_if (r_builtin rule)
        (ApiError.Conflict ("The rule " +:+ in_quotes (r_name rule) +:+ " ships with DumbMonit and cannot be deleted. Disable it (POST /api/alerts/rules/" +:+ display_i64 id +:+ "/enable with {" +:+ in_quotes "enabled" +:+ ": false}) or adjust its threshold."));
  deleted ← statement (delete_rule id);
  refuse_if (negb deleted) (rule_not_found id).

Definition set_rule_enabled_route (id : Z) (enabled : bool) : H RuleView :=
  found ← statement (set_rule_enabled id enabled);
  _ ← refuse_if (negb found) (rule_not_found id);
  rules ← select list_rules;
  rule ← ok_or (rule_not_found id) (rule_of id rules);
  view_with_overrides rule.

(** ** Overrides *)

Definition rule_by_id (id : Z) : H Rule :=
  rules ← select list_rules;
  ok_or (rule_not_found id) (rule_of id rules).
Definition list_overrides_route (id : Z) : H (list RuleOverride) :=
  rule ← rule_by_id id;
  select (list_overrides (Some (r_uid rule)) None).
Definition current_override (rule_uid : string) (target : TargetId) : H (option RuleOverride) :=
  overrides ← select (list_overrides (Some rule_uid) (Some target));
  mret (head overrides).
Definition target_exists (target : TargetId) (d : Db) : bool :=
  existsb (fun t => tn_id t =? target) (db_targets d).
Definition no_such_device (target : TargetId) : ApiError :=
  ApiError.BadRequest ("Device " +:+ display_i64 target +:+ " does not exist.")%string.
Definition operator_override_refused : ApiError :=
  ApiError.Forbidden "Operators can only ignore a rule for a device or undo that; changing thresholds requires the admin role.".

(** An operator ignores a rule for a device, and keeps the thresholds an administrator has put. *)
Definition allowed_override (who : Principal) (rule : Rule) (target : TargetId) (payload : OverridePayload) : H OverridePayload :=
  if Principal.is_admin who then mret payload
  else
    _ ← refuse_if (negb (is_ignore payload)) operator_override_refused;
    current ← current_override (r_uid rule) target;
    mret match current with
         | Some current => {| op_threshold := ro_threshold current; op_clear_threshold := ro_clear_threshold current;
                              op_enabled := op_enabled payload |}
         | None => payload
         end.
Definition put_override (who : Principal) (id : Z) (target : TargetId) (payload : OverridePayload) : H RuleOverride :=
  rule ← rule_by_id id;
  payload ← allowed_override who rule target payload;
  exists_ ← select (target_exists target);
  _ ← refuse_if (negb exists_) (no_such_device target);
  _ ← refuse_if (is_some_and (op_threshold payload) (fun t => negb (f64_is_finite t)))
        (ApiError.BadRequest "The threshold must be a finite number.");
  _ ← check_clear_threshold (r_operator rule) (op_threshold payload ?? r_threshold rule) (op_clear_threshold payload);
  let over := {| ro_rule_uid := r_uid rule; ro_target_id := target; ro_threshold := op_threshold payload;
                 ro_clear_threshold := op_clear_threshold payload; ro_enabled := op_enabled payload |} in
  _ ← execute_ (upsert_override over);
  mret over.

Definition no_override (id : Z) (target : TargetId) : ApiError :=
  ApiError.NotFound ("No override of rule " +:+ display_i64 id +:+ " for device " +:+ display_i64 target +:+ ".")%string.
Definition not_ignored (id : Z) (target : TargetId) : ApiError :=
  ApiError.NotFound ("Rule " +:+ display_i64 id +:+ " is not ignored for device " +:+ display_i64 target +:+ ".")%string.
Definition has_thresholds (o : RuleOverride) : bool :=
  is_some_and (ro_threshold o) (fun _ => true) || is_some_and (ro_clear_threshold o) (fun _ => true).
Definition without_enabled (o : RuleOverride) : RuleOverride :=
  {| ro_rule_uid := ro_rule_uid o; ro_target_id := ro_target_id o; ro_threshold := ro_threshold o;
     ro_clear_threshold := ro_clear_threshold o; ro_enabled := None |}.
(** What an operator leaves of an override when it has thresholds. *)
Definition kept_thresholds (who : Principal) (rule : Rule) (target : TargetId) : H (option RuleOverride) :=
  if Principal.is_admin who then mret None
  else
    current ← current_override (r_uid rule) target;
    mret (option_filter has_thresholds current).
Definition delete_override_route (who : Principal) (id : Z) (target : TargetId) : H () :=
  rule ← rule_by_id id;
  kept ← kept_thresholds who rule target;
  match kept with
  | Some current =>
      _ ← refuse_if (bool_decide (ro_enabled current = None)) (not_ignored id target);
      execute_ (upsert_override (without_enabled current))
  | None =>
      deleted ← statement (delete_override (r_uid rule) target);
      refuse_if (negb deleted) (no_override id target)
  end.

(** ** Acknowledgements

    Adding to an instant panics past the last instant chrono has, and making a span of too many seconds does. *)
Notation K := (Handler State Failure).
Definition refused {A} (why : string) : K A := throw (Failure.Refused (ApiError.BadRequest why)).

(** [DateTime::<Utc>::MAX_UTC]: the end of the year 262142. *)
Definition MAX_UTC : DateTime := 8210266876799 * ns_per_s + (ns_per_s - 1).
Definition seconds_later (now : DateTime) (secs : Z) : option DateTime :=
  if i64_max / 1000 <? secs then None
  else let at_ := now + td_seconds secs in if MAX_UTC <? at_ then None else Some at_.

Definition parse_until (raw : string) : K DateTime :=
  match parse_from_rfc3339 raw with
  | Some at_ => mret at_
  | None =>
      match find_map (parse_from_str raw) ["%Y-%m-%d %H:%M:%S"; "%Y-%m-%dT%H:%M:%S"; "%Y-%m-%d %H:%M"]%string with
      | Some at_ => mret at_
      | None => refused (in_quotes "until" +:+ " must be an RFC 3339 date or a UTC timestamp like 2026-08-31 12:00:00 (received: " +:+ in_quotes raw +:+ ").")%string
      end
  end.
Definition ack_term (now : DateTime) (p : AckPayload) : K (option DateTime) :=
  match ak_until_ p, ak_duration_secs p with
  | Some (Some _), Some _ => refused ("Give either " +:+ in_quotes "until" +:+ " or " +:+ in_quotes "duration_secs" +:+ ", not both.")%string
  | Some None, None => mret None
  | Some (Some raw), None => at_ ← parse_until (trim raw); mret (Some at_)
  | _, Some secs =>
      if secs <=? 0 then refused (in_quotes "duration_secs" +:+ " must be a strictly positive integer.")%string
      else at_ ← ok_or Failure.Panicked (seconds_later now secs); mret (Some at_)
  | None, None => at_ ← ok_or Failure.Panicked (seconds_later now DEFAULT_ACK_SECS); mret (Some at_)
  end.
Definition validate_ack (now : DateTime) (p : AckPayload) : K AckRequest :=
  let note := (trim <$> ak_note_ p) ≫= not_empty in
  _ ← refuse_if (is_some_and note (fun note => (MAX_ACK_NOTE_LEN <? chars_count note)%nat))
        (Failure.Refused (ApiError.BadRequest (in_quotes "note" +:+ " is limited to " +:+ display_i64 (Z.of_nat MAX_ACK_NOTE_LEN) +:+ " characters.")));
  term ← ack_term now p;
  match term with
  | None => mret AckRequest.Clear
  | Some until =>
      _ ← refuse_if (until <=? now) (Failure.Refused (ApiError.BadRequest (in_quotes "until" +:+ " must be in the future.")));
      latest ← ok_or Failure.Panicked (seconds_later now MAX_ACK_SECS);
      _ ← refuse_if (latest <? until)
            (Failure.Refused (ApiError.BadRequest ("An alert can be acknowledged for at most " +:+ display_i64 (MAX_ACK_SECS / 86400) +:+ " days.")));
      mret (AckRequest.Set_ until note)
  end.

(** The alert itself stands for the members copied from it. *)
Record ActiveAlertView := {
  av_alert : StoredAlert;
  av_rule_name : string;
  av_severity : Severity;
  av_phase : Phase;
  av_effective_phase : EffectivePhase;
  av_acked : bool;
}.
Definition ActiveAlertView_new (alert : StoredAlert) (rule : option Rule) (now : DateTime) : ActiveAlertView :=
  {| av_alert := alert; av_rule_name := from_option r_name "" rule; av_severity := from_option r_severity Severity.Warning rule;
     av_phase := phase (sa_state alert); av_effective_phase := effective_phase (sa_state alert);
     av_acked := is_acked (sa_state alert) now |}.
Definition rule_named (uid : string) (rules : list Rule) : option Rule :=
  find_map (fun r => if bool_decide (r_uid r = uid) then Some r else None) rules.

Definition alert_not_found (fingerprint : string) : Failure :=
  Failure.Refused (ApiError.NotFound ("No active alert with fingerprint " +:+ in_quotes fingerprint +:+ "."))%string.
(** [now] is read again for the view. *)
Definition acknowledge (now : DateTime) (fingerprint : string) (request : AckRequest) (actor : string) : K ActiveAlertView :=
  let ack := match request with
             | AckRequest.Set_ until note => Some {| ak_until := until; ak_by := actor; ak_note := note |}
             | AckRequest.Clear => None
             end in
  found ← statement (set_ack fingerprint ack);
  _ ← refuse_if (negb found) (alert_not_found fingerprint);
  alert ← select (get_active fingerprint);
  alert ← ok_or (alert_not_found fingerprint) alert;
  rules ← select list_rules;
  mret (ActiveAlertView_new alert (rule_named (sa_rule_uid alert) rules) now).
Definition ack_alert (env : Env) (who : Principal) (fingerprint : string) (payload : option AckPayload) : K ActiveAlertView :=
  request ← validate_ack (e_now env) (payload ?? AckPayload_default);
  let action := match request with AckRequest.Set_ _ _ => "alert.acked" | AckRequest.Clear => "alert.unacked" end%string in
  view ← acknowledge (e_now env) fingerprint request (Principal.label who);
  _ ← audited env (Principal.label who) action fingerprint;
  mret view.
Definition unack_alert (env : Env) (who : Principal) (fingerprint : string) : K ActiveAlertView :=
  view ← acknowledge (e_now env) fingerprint AckRequest.Clear (Principal.label who);
  _ ← audited env (Principal.label who) "alert.unacked" fingerprint;
  mret view.

(** The alerts pending or firing, the most recent firing first. *)
Definition active_alerts (d : Db) : list StoredAlert :=
  sort_by (cmp_rev (cmp_on (firing_since ∘ sa_state) (option_cmp Z.compare)))
    (filter (fun a => is_active_phase (phase (sa_state a)) = true) (load_states d)).
(** An alert of a device that is gone or paused is not shown; one of no device is, unless it names one. *)
Definition shown_alert (live : list TargetId) (a : StoredAlert) : bool :=
  match sa_target_id a with
  | Some id => bool_decide (id ∈ live)
  | None => negb (carries_target_id (sa_labels a))
  end.
Definition list_active (now : DateTime) : H (list ActiveAlertView) :=
  alerts ← select active_alerts;
  rules ← select list_rules;
  nodes ← select db_targets;
  let live := tn_id <$> filter (fun t => tn_enabled t = true) nodes in
  mret ((fun a => ActiveAlertView_new a (rule_named (sa_rule_uid a) rules) now) <$>
          filter (fun a => shown_alert live a = true) alerts).

(** ** History *)

(** The lines from an instant on, the most recent first, at most [limit] of them. *)
Definition history_rows (since : DateTime) (include_dismissed : bool) (limit : Z) (d : Db) : list HistoryRow :=
  take (Z.to_nat limit)
    (sort_by (cmp_then (cmp_rev (cmp_on hr_at Z.compare)) (cmp_rev (cmp_on hr_id Z.compare)))
       (filter (fun h => to_sql since <= hr_at h /\ (hr_dismissed h = false \/ include_dismissed = true)) (db_history d))).
Definition history (now : DateTime) (q : HistoryQuery) : H (list HistoryRow) :=
  since ← match hq_since q ≫= not_empty ∘ trim with
          | None => mret (now - td_days DEFAULT_HISTORY_DAYS)
          | Some raw =>
              ok_or (ApiError.BadRequest (in_quotes "since" +:+ " must be an RFC 3339 date, for example 2026-08-31T12:00:00Z (received: " +:+ in_quotes raw +:+ ")."))%string
                (parse_from_rfc3339 raw)
          end;
  limit ← match hq_limit q with
          | None => mret DEFAULT_HISTORY_LIMIT
          | Some value =>
              if value <=? 0 then bad_request (in_quotes "limit" +:+ " must be a strictly positive integer.")%string
              else mret (Z.min value MAX_HISTORY_LIMIT)
          end;
  select (history_rows since (hq_dismissed q ?? false) limit).

Definition dismissed_row (h : HistoryRow) : HistoryRow :=
  Build_HistoryRow (hr_id h) (hr_fingerprint h) (hr_rule_uid h) (hr_target_id h) (hr_from h) (hr_to h) (hr_severity h)
    (hr_value h) (hr_notified h) (hr_reason h) (hr_at h) true.
(** [UPDATE alert_history SET dismissed = 1 WHERE ..], with the number of lines. *)
Definition dismiss_where (p : HistoryRow -> bool) (d : Db) : Db * Z :=
  (set_history ((fun h => if p h then dismissed_row h else h) <$> db_history d) (db_next_history d) d,
   Z.of_nat (length (filter (fun h => p h = true) (db_history d)))).
Definition is_resolution (h : HistoryRow) : bool := bool_decide (hr_to h = Phase.Resolved).
Definition dismiss_history_entry (env : Env) (who : Principal) (id : Z) : H () :=
  updated ← statement (dismiss_where (fun h => (hr_id h =? id) && is_resolution h));
  _ ← refuse_if (updated =? 0) (ApiError.NotFound ("No resolved history entry " +:+ display_i64 id +:+ " to clear."))%string;
  audited env (Principal.label who) "alert_history.dismissed" (display_i64 id).
Definition dismiss_resolved_history (env : Env) (who : Principal) : H Z :=
  count ← statement (dismiss_where (fun h => is_resolution h && negb (hr_dismissed h)));
  _ ← audited env (Principal.label who) "alert_history.dismissed_resolved" (display_i64 count);
  mret count.

(** ** Maintenance windows *)

Record SilenceView := {
  sv_silence : Silence;
  sv_active_now : bool;
  sv_active_until : option DateTime;
  sv_next_start_at : option DateTime;
}.
Definition SilenceView_new (silence : Silence) (now : DateTime) : SilenceView :=
  let window := window_containing (sl_schedule silence) now in
  let active_now := sl_enabled silence && is_some_and window (fun _ => true) in
  {| sv_silence := silence; sv_active_now := active_now; sv_active_until := if active_now then snd <$> window else None;
     sv_next_start_at := next_start (sl_schedule silence) now |}.

Definition check_timezone (s : Schedule) : H () :=
  match timezone s with
  | None => mret tt
  | Some name =>
      let name := trim name in
      if bool_decide (name = "") then mret tt
      else refuse_if (bool_decide (tz_from_str name = None))
             (ApiError.BadRequest ("Unknown time zone " +:+ in_quotes name +:+ ". Use an IANA name such as Europe/Paris, America/New_York or UTC."))%string
  end.
Definition check_minute (label : string) (minute : Z) : H () :=
  refuse_if (MINUTES_PER_DAY <=? minute)
    (ApiError.BadRequest (in_quotes label +:+ " must be between 0 and " +:+ display_i64 (MINUTES_PER_DAY - 1) +:+ " (minutes since midnight)."))%string.
Definition check_offset (minutes : Z) : H () :=
  refuse_if (negb ((MIN_UTC_OFFSET <=? minutes) && (minutes <=? MAX_UTC_OFFSET)))
    (ApiError.BadRequest (in_quotes "utc_offset_minutes" +:+ " must be between " +:+ display_i64 MIN_UTC_OFFSET +:+ " and " +:+ display_i64 MAX_UTC_OFFSET +:+ "."))%string.
Definition check_nth (n : NthWeekday) : H () :=
  _ ← refuse_if (6 <? nth_weekday n)
        (ApiError.BadRequest ("Invalid weekday " +:+ in_quotes (display_i64 (nth_weekday n)) +:+ ": weekdays go from 0 (Monday) to 6 (Sunday)."))%string;
  refuse_if (negb ((1 <=? nth n) && (nth n <=? 5)) && negb (nth n =? LAST_OF_MONTH))
    (ApiError.BadRequest ("Invalid rank " +:+ in_quotes (display_i64 (nth n)) +:+ ": use 1 to 5 for the first to the fifth weekday of the month, or " +:+ display_i64 LAST_OF_MONTH +:+ " for the last one."))%string.
Fixpoint each {A} (f : A -> H ()) (l : list A) : H () :=
  match l with [] => mret tt | x :: l => _ ← f x; each f l end.

Definition first_bad (p : Z -> bool) (days : list Z) : option Z := find_map (fun day => if p day then Some day else None) days.
Definition check_weekly (days : list Z) (start stop offset : Z) : H () :=
  _ ← refuse_if (bool_decide (days = []))
        (ApiError.BadRequest "Select at least one day of the week (0 = Monday … 6 = Sunday).");
  _ ← if_some (first_bad (fun day => 6 <? day) days) (fun day =>
        bad_request ("Invalid day of the week " +:+ in_quotes (display_i64 day) +:+ ": days go from 0 (Monday) to 6 (Sunday).")%string);
  _ ← check_minute "start_minute" start;
  _ ← check_minute "end_minute" stop;
  _ ← refuse_if (start =? stop)
        (ApiError.BadRequest "The start and end of the window must differ. To silence an alert permanently, disable the rule instead.");
  check_offset offset.
Definition check_monthly (days : list Z) (nths : list NthWeekday) (start duration offset : Z) : H () :=
  _ ← refuse_if (bool_decide (days = []) && match nths with [] => true | _ => false end)
        (ApiError.BadRequest ("A monthly window needs at least one day of the month (" +:+ in_quotes "days" +:+ ") or one weekday of the month (" +:+ in_quotes "nth_weekdays" +:+ ", for example the first Sunday)."));
  _ ← refuse_if (MAX_MONTHLY_ENTRIES <? length days + length nths)%nat
        (ApiError.BadRequest ("A monthly window is limited to " +:+ display_i64 (Z.of_nat MAX_MONTHLY_ENTRIES) +:+ " days."));
  _ ← if_some (first_bad (fun day => negb ((1 <=? day) && (day <=? 31))) days) (fun day =>
        bad_request ("Invalid day of the month " +:+ in_quotes (display_i64 day) +:+ ": days go from 1 to 31. A month without that day is simply skipped.")%string);
  _ ← each check_nth nths;
  _ ← check_minute "start_minute" start;
  _ ← refuse_if ((duration =? 0) || (MAX_DURATION_MINUTES <? duration))
        (ApiError.BadRequest (in_quotes "duration_minutes" +:+ " must be between 1 and " +:+ display_i64 MAX_DURATION_MINUTES +:+ " (thirty days). To silence an alert permanently, disable the rule instead."))%string;
  check_offset offset.
Definition schedule_forms : string :=
  ("Invalid schedule. Accepted forms: {" +:+ in_quotes "kind" +:+ ":" +:+ in_quotes "once" +:+ "," +:+
   in_quotes "starts_at" +:+ ":" +:+ in_quotes "2026-01-01T00:00:00Z" +:+ "," +:+ in_quotes "ends_at" +:+
   ":" +:+ in_quotes "2026-01-01T02:00:00Z" +:+ "}, {" +:+ in_quotes "kind" +:+ ":" +:+ in_quotes "weekly" +:+
   "," +:+ in_quotes "days" +:+ ":[6]," +:+ in_quotes "start_minute" +:+ ":120," +:+
   in_quotes "end_minute" +:+ ":240," +:+ in_quotes "timezone" +:+ ":" +:+ in_quotes "Europe/Paris" +:+
   "} or {" +:+ in_quotes "kind" +:+ ":" +:+ in_quotes "monthly" +:+ "," +:+ in_quotes "nth_weekdays" +:+
   ":[{" +:+ in_quotes "nth" +:+ ":1," +:+ in_quotes "weekday" +:+ ":6}]," +:+ in_quotes "start_minute" +:+
   ":120," +:+ in_quotes "duration_minutes" +:+ ":120," +:+ in_quotes "timezone" +:+ ":" +:+
   in_quotes "Europe/Paris" +:+ "}")%string.
Definition parse_schedule (raw : option Schedule) : H Schedule :=
  match raw with
  | None => bad_request schedule_forms
  | Some schedule =>
      _ ← match schedule with
          | Schedule.Once starts_at ends_at =>
              refuse_if (ends_at <=? starts_at) (ApiError.BadRequest "The end of the window must be after its start.")
          | Schedule.Weekly days start stop offset _ => check_weekly days start stop offset
          | Schedule.Monthly days nths start duration offset _ => check_monthly days nths start duration offset
          end;
      _ ← check_timezone schedule;
      mret schedule
  end.
Definition validate_silence (p : SilencePayload) : H Silence :=
  let name := trim (sp_name p) in
  _ ← refuse_if (bool_decide (name = ""))
        (ApiError.BadRequest "Maintenance window name is required: six months from now, it is what explains why these alerts are silent.");
  _ ← if_some (sp_target_id p) (fun target =>
        exists_ ← select (target_exists target); refuse_if (negb exists_) (no_such_device target));
  schedule ← parse_schedule (sp_schedule p);
  mret {| sl_id := 0; sl_name := name; sl_comment := sp_comment p ?? ""; sl_target_id := sp_target_id p;
          sl_matchers := sp_matchers p; sl_schedule := schedule; sl_enabled := sp_enabled p ?? true |}.
Definition numbered_silence (id : Z) (s : Silence) : Silence :=
  Build_Silence id (sl_name s) (sl_comment s) (sl_target_id s) (sl_matchers s) (sl_schedule s) (sl_enabled s).
(** [id] is the number the table gives. *)
Definition create_silence_route (now : DateTime) (id : Z) (p : SilencePayload) : H SilenceView :=
  silence ← validate_silence p;
  id ← statement (create_silence silence id);
  mret (SilenceView_new (numbered_silence id silence) now).
Definition list_silences_route (now : DateTime) : H (list SilenceView) :=
  silences ← select db_silences;
  mret ((fun s => SilenceView_new s now) <$> silences).
Definition delete_silence_route (id : Z) : H () :=
  found ← statement (delete_silence id);
  refuse_if (negb found) (ApiError.NotFound ("Maintenance window " +:+ display_i64 id +:+ " not found."))%string.

(** ** Everything that is asked of them *)

Inductive Call :=
| CreateRule (p : RulePayload)
| UpdateRule (id : Z) (p : RulePayload)
| DeleteRule (id : Z)
| SetRuleEnabled (id : Z) (enabled : bool)
| PutOverride (id : Z) (target : TargetId) (payload : OverridePayload)
| DeleteOverride (id : Z) (target : TargetId)
| AckAlert (fingerprint : string) (payload : option AckPayload)
| UnackAlert (fingerprint : string)
| Dismiss (id : Z)
| DismissResolved
| CreateSilence (id : Z) (p : SilencePayload)
| DeleteSilence (id : Z).

(** The calls an operator may make; the others are for administrators. *)
Definition is_operator_call (c : Call) : bool :=
  match c with
  | CreateRule _ | UpdateRule _ _ | DeleteRule _ | SetRuleEnabled _ _ => false
  | _ => true
  end.
Definition entitled_to (who : Principal) (c : Call) : bool :=
  Principal.is_admin who || is_operator_call c && Principal.can_operate who.
Definition serve (env : Env) (who : Principal) (c : Call) (s : State) : State :=
  if negb (entitled_to who c) then s
  else match c with
       | CreateRule p => (create_rule p s).1
       | UpdateRule id p => (update_rule id p s).1
       | DeleteRule id => (delete_rule_route id s).1
       | SetRuleEnabled id enabled => (set_rule_enabled_route id enabled s).1
       | PutOverride id target payload => (put_override who id target payload s).1
       | DeleteOverride id target => (delete_override_route who id target s).1
       | AckAlert fingerprint payload => (ack_alert env who fingerprint payload s).1
       | UnackAlert fingerprint => (unack_alert env who fingerprint s).1
       | Dismiss id => (dismiss_history_entry env who id s).1
       | DismissResolved => (dismiss_resolved_history env who s).1
       | CreateSilence id p => (create_silence_route (e_now env) id p s).1
       | DeleteSilence id => (delete_silence_route id s).1
       end.

(** A start of the server, which seeds the rules; the deletion of a channel; or a request. *)
Inductive Event :=
| Started
| ChannelDeleted (id : Z)
| Asked (env : Env) (who : Principal) (c : Call).
Definition happens (e : Event) (s : State) : State :=
  match e with
  | Started => on_alerts (seed_builtin_rules builtin_rules) s
  | ChannelDeleted id => on_alerts (fun d => (delete_channel id d).1) s
  | Asked env who c => serve env who c s
  end.
Definition history_of (events : list Event) (s : State) : State := foldl (fun s e => happens e s) s events.
End alerts.

(** ** Examples *)

Definition e_acute : string := String (of_byte 0xC3) (String (of_byte 0xA9) "").
Example rule_slug_ex :
  slugify <$> ["M" +:+ e_acute +:+ "moire satur" +:+ e_acute +:+ "e"; "CPU > 90 %"; "  ---  "; "_"]%string =
  ["memoire_saturee"; "cpu_90"; ""; ""]%string.
Proof. vm_compute. reflexivity. Qed.
Example fold_accent_ex :
  fold_accent <$> [0x41; 0xC0; 0xC6; 0xC7; 0xD7; 0xE9; 0xF1; 0xFF; 0xDF; 0x153] =
  [0x41; 0x41; 0xC6; 0x43; 0xD7; 0x65; 0x6E; 0x79; 0xDF; 0x153].
Proof. vm_compute. reflexivity. Qed.
