(* ===== verification/AlertsApiFacts.v ===== *)
(** * What holds of the handlers of the alerts

    The rules stay sound whatever is asked; an operator moves no threshold; an acknowledgement is bounded; the
    history loses nothing; and where the handlers do not do what they mean to. *)
From Stdlib Require Import Ascii.
From Stdlib Require String.
From S2P Require Import Prelude Text Float64 Chrono Model Machine Silence Overrides Group Cycle NotifyPolicy Db PolicyStore RuleBook Rules.
From S2P Require Import RateLimit ApiToken Accounts Auth Guard Handler AlertsApi.

(** ** Sound rules *)

Definition params_ok (p : AnomalyParams) : bool :=
  positive (ap_k p) && (positive (ap_alpha p) && f64_le (ap_alpha p) f64_one) && positive (ap_mad_floor_abs p) &&
  (f64_is_finite (ap_mad_floor_rel p) && f64_ge (ap_mad_floor_rel p) f64_zero) && negb (ap_min_samples p =? 0).
Definition uid_ok (uid : string) : bool := negb (bool_decide (uid = "")) && string_forall uid_char uid.
Definition longer_than_zero (d : option Duration) : bool := match d with None => true | Some d => 0 <? d end.

(** A rule the engine can evaluate, with a hysteresis that is one. *)
Definition rule_ok (r : Rule) : bool :=
  uid_ok (r_uid r) && negb (bool_decide (r_name r = "")) && negb (bool_decide (r_query r = "")) &&
  f64_is_finite (r_threshold r) &&
  match r_clear_threshold r with None => true | Some clear => quiet_side r clear end &&
  (0 <=? r_for_duration r) && longer_than_zero (r_repeat_interval r) && longer_than_zero (r_escalate_after r) &&
  params_ok (r_params r).

Lemma builtin_ok r : r ∈ builtin_rules -> rule_ok r = true.
Proof. apply forallb_elem. vm_compute. reflexivity. Qed.

Record rules_ok (d : Db) : Prop := {
  ro_rules r : r ∈ db_rules d -> rule_ok r = true;
  ro_uids : NoDup (r_uid <$> db_rules d);
  ro_ids : NoDup (r_id <$> db_rules d);
  ro_next r : r ∈ db_rules d -> r_id r < db_next_rule d;
  ro_down r : r ∈ db_rules d -> r_uid r = RULE_HOST_DOWN -> r_builtin r = true;
}.
(** A built-in rule keeps its row. *)
Definition keeps_builtin (d d' : Db) : Prop :=
  forall r, r ∈ db_rules d -> r_builtin r = true ->
  exists r', r' ∈ db_rules d' /\ r_uid r' = r_uid r /\ r_id r' = r_id r /\ r_builtin r' = true.
Definition rules_step (d d' : Db) : Prop := rules_ok d' /\ keeps_builtin d d'.

Lemma keeps_builtin_refl d : keeps_builtin d d.
Proof. intros r Hr Hb. by exists r. Qed.
Lemma keeps_builtin_trans d1 d2 d3 : keeps_builtin d1 d2 -> keeps_builtin d2 d3 -> keeps_builtin d1 d3.
Proof.
  intros H1 H2 r Hr Hb. destruct (H1 r Hr Hb) as (r' & Hr' & <- & <- & Hb'). by apply H2.
Qed.
Lemma rules_step_same d d' : db_rules d' = db_rules d -> db_next_rule d' = db_next_rule d -> rules_ok d -> rules_step d d'.
Proof.
  intros Er En [H1 H2 H3 H4 H5]. split.
  - split; rewrite Er; try done. by rewrite En.
  - intros r Hr Hb. exists r. by rewrite Er.
Qed.

(** Rewriting the rows in place, keeping what identifies them. *)
Lemma rules_step_map (f : Rule -> Rule) d :
  rules_ok d ->
  (forall r, r ∈ db_rules d -> r_uid (f r) = r_uid r /\ r_id (f r) = r_id r /\ r_builtin (f r) = r_builtin r /\ rule_ok (f r) = true) ->
  rules_step d (set_rules (f <$> db_rules d) (db_next_rule d) d).
Proof.
  intros [H1 H2 H3 H4 H5] Hf.
  assert (forall (g : Rule -> Z), (forall r, r ∈ db_rules d -> g (f r) = g r) -> g <$> (f <$> db_rules d) = g <$> db_rules d) as HZ.
  { intros g Hg. rewrite <-list_fmap_compose. apply list_fmap_ext. intros i r Hr. by apply Hg, (list_elem_of_lookup_2 _ i). }
  split; [split; simpl|].
  - intros r (r0 & -> & Hr0)%list_elem_of_fmap. by apply Hf.
  - assert (r_uid <$> (f <$> db_rules d) = r_uid <$> db_rules d) as ->; [|done].
    rewrite <-list_fmap_compose. apply list_fmap_ext. intros i r Hr. by apply Hf, (list_elem_of_lookup_2 _ i).
  - rewrite HZ; [done|]. intros r Hr. by apply Hf.
  - intros r (r0 & -> & Hr0)%list_elem_of_fmap. destruct (Hf _ Hr0) as (_ & -> & _). by apply H4.
  - intros r (r0 & -> & Hr0)%list_elem_of_fmap. destruct (Hf _ Hr0) as (-> & _ & -> & _). by apply H5.
  - intros r Hr Hb. destruct (Hf _ Hr) as (Eu & Ei & Eb & _). exists (f r). simpl.
    split; [by apply list_elem_of_fmap_2|]. by rewrite Eu, Ei, Eb.
Qed.
(** Adding rows of fresh names, numbered in turn. *)
Lemma rules_step_append new d :
  rules_ok d -> (forall r, r ∈ new -> rule_ok r = true /\ (r_uid r = RULE_HOST_DOWN -> r_builtin r = true)) ->
  (forall u, u ∈ r_uid <$> db_rules d -> u ∉ r_uid <$> new) -> NoDup (r_uid <$> new) ->
  (forall i r, new !! i = Some r -> r_id r = db_next_rule d + Z.of_nat i) ->
  rules_step d (set_rules (db_rules d ++ new) (db_next_rule d + Z.of_nat (length new)) d).
Proof.
  intros [H1 H2 H3 H4 H5] Hr Hf Hn Hid. split; [split; simpl|].
  - intros r [?|Hin]%elem_of_app; [by apply H1|by apply Hr].
  - rewrite fmap_app. by apply NoDup_app.
  - rewrite fmap_app. apply NoDup_app. split_and!; [done| |].
    + intros u (r & -> & Hin)%list_elem_of_fmap (r' & E & Hin')%list_elem_of_fmap. apply H4 in Hin.
      apply list_elem_of_lookup in Hin' as (i & Hi%Hid). lia.
    + apply NoDup_alt. intros i j x. rewrite !list_lookup_fmap.
      destruct (new !! i) as [r|] eqn:Ei; [|done]. destruct (new !! j) as [r'|] eqn:Ej; [|done]. cbn.
      apply Hid in Ei, Ej. intros [= <-] [= E]. lia.
  - intros r [Hin|Hin]%elem_of_app; [apply H4 in Hin; lia|]. apply list_elem_of_lookup in Hin as (i & Hi).
    pose proof (lookup_lt_Some _ _ _ Hi). apply Hid in Hi as ->. lia.
  - intros r [?|Hin]%elem_of_app; [by apply H5|by apply Hr].
  - intros r Hin Hb. exists r. simpl. split; [|done]. apply elem_of_app. by left.
Qed.
Lemma rules_step_trans d1 d2 d3 : rules_step d1 d2 -> rules_step d2 d3 -> rules_step d1 d3.
Proof. intros [_ ?] [? ?]. split; [done|]. by eapply keeps_builtin_trans. Qed.

Lemma some_positive_ok o : longer_than_zero (some_positive o) = true.
Proof.
  destruct o as [z|]; [|done]. unfold some_positive. cbn. destruct (0 <? z) eqn:E; [|done]. cbn. apply Z.ltb_lt in E.
  apply Z.ltb_lt. unfold td_seconds, ns_per_s. lia.
Qed.
Lemma rule_from_row_ok id enabled r : rule_ok r = true -> rule_ok (rule_from_row id enabled r) = true.
Proof.
  unfold rule_ok, rule_from_row, quiet_side. cbn. rewrite Operator.operator_parse_as_str, !some_positive_ok, !andb_true_r.
  rewrite !andb_true_iff. intros H. split_and!; try tauto. apply Z.leb_le. unfold td_seconds, ns_per_s. lia.
Qed.

Lemma upsert_step rule d :
  rules_ok d -> rule_ok rule = true ->
  (r_uid rule ∉ r_uid <$> db_rules d -> r_uid rule <> RULE_HOST_DOWN) ->
  rules_step d (upsert_rule rule d).
Proof.
  intros Hd Hr Hh. unfold upsert_rule. destruct (has_rule _ _) eqn:E.
  - apply rules_step_map; [done|]. intros r Hin. case_bool_decide as Hu; [|by split_and!; [..|apply (ro_rules d)]].
    split_and!; try done. pose proof (rule_from_row_ok (r_id r) (r_enabled rule) rule Hr) as H'.
    unfold rule_ok, quiet_side in *. cbn in *. done.
  - assert (r_uid rule ∉ r_uid <$> db_rules d) as Hn by (intros Hin; apply has_rule_spec in Hin; congruence).
    apply (rules_step_append [_]); [done| | |apply NoDup_singleton|].
    + intros r ->%list_elem_of_singleton. split; [by apply rule_from_row_ok|]. intros Hdown. by destruct (Hh Hn).
    + intros u Hu ->%list_elem_of_singleton. by apply Hn.
    + intros [|i] r; [|done]. intros [= <-]. cbn. lia.
Qed.

Lemma enable_step id enabled d : rules_ok d -> rules_step d (set_rule_enabled id enabled d).1.
Proof.
  intros Hd. apply rules_step_map; [done|]. intros r Hr. pose proof (ro_rules d Hd r Hr) as H. by case_bool_decide.
Qed.

Lemma delete_step id d :
  rules_ok d -> (forall r, r ∈ db_rules d -> r_id r = id -> r_builtin r = false) -> rules_step d (delete_rule id d).1.
Proof.
  intros [H1 H2 H3 H4 H5] Hb. unfold delete_rule. destruct (find_map _ _); [|by apply rules_step_same].
  assert (forall {A} (f : Rule -> A), NoDup (f <$> db_rules d) -> NoDup (f <$> filter (fun r => r_id r <> id) (db_rules d))) as Hn.
  { intros A f Hf. eapply sublist_NoDup; [exact Hf|]. apply fmap_sublist, sublist_filter. }
  split; [split; simpl|].
  - intros r [_ Hr]%list_elem_of_filter. by apply H1.
  - by apply Hn.
  - by apply Hn.
  - intros r [_ Hr]%list_elem_of_filter. by apply H4.
  - intros r [_ Hr]%list_elem_of_filter. by apply H5.
  - intros r Hr Hbr. exists r. simpl. split; [|done]. apply list_elem_of_filter. split; [|done].
    intros Hi. by rewrite (Hb r Hr Hi) in Hbr.
Qed.

Lemma with_text_ok c r : c ∈ builtin_rules -> rule_ok r = true -> rule_ok (with_text c r) = true.
Proof.
  intros Hc%builtin_ok Hr. unfold rule_ok, with_text, quiet_side in *. cbn in *.
  rewrite !andb_true_iff in *. tauto.
Qed.
Lemma new_row_ok id c : c ∈ builtin_rules -> rule_ok (new_row id c) = true.
Proof. intros Hc%builtin_ok. by apply (rule_from_row_ok id true). Qed.

Lemma seed_step d : rules_ok d -> rules_step d (seed_builtin_rules builtin_rules d).
Proof.
  intros Hd. rewrite (seed_spec builtin_rules d uids_distinct).
  assert (rules_step d (set_rules (follow builtin_rules <$> db_rules d) (db_next_rule d) d)) as H.
  { apply rules_step_map; [done|]. intros r Hr. split; [apply follow_uid|].
    destruct (follow_cases builtin_rules r) as [[_ ->] | (c & Hc & _ & Hb & ->)]; [by split_and!; [..|apply (ro_rules d)]|].
    split_and!; try done. apply with_text_ok; [done|]. by apply (ro_rules d). }
  eapply rules_step_trans; [exact H|]. destruct H as [H _]. eapply (rules_step_append (added _ _ _) _ H).
  - intros r Hr. apply list_elem_of_lookup in Hr as [i Hi]. pose proof (list_elem_of_lookup_2 _ _ _ Hi) as Hr.
    split; [|by destruct (added_rows _ _ _ _ _ Hi) as (_ & ? & _)].
    apply elem_of_added in Hr as (c & id & Hc & ->). by apply new_row_ok.
  - intros u. cbn [db_rules set_rules]. rewrite follow_uids, added_uids, list_elem_of_filter. tauto.
  - rewrite added_uids. apply NoDup_filter, uids_distinct.
  - intros i r Hi. by destruct (added_rows _ _ _ _ _ Hi) as (_ & _ & ?).
Qed.

(** ** What a check lets through *)

(** The statement that reads, then the rest. *)
Tactic Notation "rbind" uconstr(H) := eapply only_reads_bind; [by apply H|cbv beta].
Tactic Notation "wbind" uconstr(H) := eapply wp_only_reads; [by apply H| |cbv beta].

Section checks.
Context {C : Calendar} `{Crates}.
Variable display_f64 : f64 -> string.
Variable parse_from_rfc3339 : string -> option DateTime.
Variable parse_from_str : string -> string -> option DateTime.

Lemma parse_kind_reads raw s : only_reads (parse_kind raw) (fun _ _ => True) s.
Proof. unfold parse_kind, bad_request. destruct (trim <$> raw); by repeat case_bool_decide. Qed.
Lemma parse_operator_reads raw s : only_reads (parse_operator raw) (fun _ _ => True) s.
Proof. unfold parse_operator, bad_request. destruct (trim <$> raw); by repeat case_bool_decide. Qed.
Lemma parse_severity_reads raw s : only_reads (parse_severity raw) (fun _ _ => True) s.
Proof. unfold parse_severity, bad_request. destruct (trim <$> raw); by repeat case_bool_decide. Qed.
Lemma parse_selector_reads raw s : only_reads (parse_selector raw) (fun _ _ => True) s.
Proof. by destruct raw as [[]|]. Qed.

Lemma parse_duration_reads secs label s : only_reads (parse_duration secs label) (fun o _ => longer_than_zero o = true) s.
Proof.
  unfold parse_duration. destruct secs as [z|]; [|done]. destruct (z <? 0) eqn:E; [done|]. destruct (z =? 0) eqn:E0; [done|].
  bools. apply only_reads_ret. apply Z.ltb_lt. unfold td_seconds, ns_per_s. lia.
Qed.
Lemma parse_params_reads raw s : only_reads (parse_params raw) (fun p _ => params_ok p = true) s.
Proof.
  unfold parse_params. destruct raw as [[payload|]|]; [|done|by apply only_reads_ret]. cbv zeta.
  do 4 (rbind only_reads_refuse; intros _ ?%negb_false_iff).
  rbind only_reads_refuse. intros _ Hm. apply only_reads_ret. unfold params_ok.
  rewrite Hm. rewrite !andb_true_iff in *. tauto.
Qed.
Lemma check_clear_reads operator threshold clear s :
  only_reads (check_clear_threshold display_f64 operator threshold clear)
    (fun _ _ => match clear with None => True | Some c => f64_is_finite c = true /\ calm operator threshold c = true end) s.
Proof.
  unfold check_clear_threshold. destruct clear as [c|]; [|done].
  rbind only_reads_refuse. intros _ Hf%negb_false_iff.
  eapply wp_mono; [apply only_reads_refuse| |done]. intros [] s' [-> Hc%negb_false_iff]. done.
Qed.
Lemma validate_channels_reads wanted s : only_reads (validate_channels wanted) (fun _ _ => True) s.
Proof. unfold only_reads, validate_channels, select, bad_request. destruct wanted; [done|]. by repeat (hstep; try done). Qed.

(** The numbers tried after a name are digits. *)
Lemma numbers_are_digits k :
  k ∈ seqZ 2 998 -> string_forall is_ascii_digit (display_i64 k) = true /\ (0 < String.length (display_i64 k) <= 3)%nat.
Proof.
  intros Hk. assert (forallb (fun k => string_forall is_ascii_digit (display_i64 k) && (0 <? String.length (display_i64 k))%nat
                                && (String.length (display_i64 k) <=? 3)%nat) (seqZ 2 998) = true) as Hall by (vm_compute; reflexivity).
  pose proof (proj1 (forallb_elem _ _) Hall k Hk) as Hb. rewrite !andb_true_iff, Nat.ltb_lt, Nat.leb_le in Hb. tauto.
Qed.
Lemma digits_are_uid_chars a : is_ascii_digit a = true -> uid_char a = true.
Proof. unfold uid_char. intros ->. by rewrite orb_true_r. Qed.

(** A shape that is right, up to its length. *)
Definition uid_shape (uid : string) : Prop := uid_ok uid = true /\ uid <> RULE_HOST_DOWN.
Lemma check_uid_shape_reads uid s :
  uid <> ""%string -> only_reads (check_uid_shape uid) (fun _ _ => uid_shape uid /\ (String.length uid <= MAX_UID_LEN)%nat) s.
Proof.
  intros Hne. unfold check_uid_shape. rbind only_reads_refuse. intros _ Hl%Nat.ltb_ge.
  rbind only_reads_refuse. intros _ Hc%negb_false_iff.
  eapply wp_mono; [apply only_reads_refuse| |done]. intros [] s' [-> Hd]. bools. split; [done|]. split; [|done]. split; [|done].
  unfold uid_ok. by rewrite (bool_decide_eq_false_2 (uid = "")) by done.
Qed.
Lemma numbered_shape base k : uid_shape base -> k ∈ seqZ 2 998 -> uid_shape (numbered_uid base k).
Proof.
  intros [Hb _] Hk. destruct (numbers_are_digits k Hk) as [Hd Hl]. unfold uid_ok in Hb. rewrite !andb_true_iff in Hb. destruct Hb as [_ Hb].
  split.
  - unfold uid_ok, numbered_uid. rewrite andb_true_iff, !string_forall_app, Hb. split; [by destruct base|].
    rewrite (string_forall_impl _ uid_char _ digits_are_uid_chars Hd). done.
  - intros E. assert (string_forall (fun a => negb (is_ascii_digit a)) (numbered_uid base k) = true) as Hn by by rewrite E.
    unfold numbered_uid in Hn. rewrite !string_forall_app, !andb_true_iff in Hn. destruct Hn as (_ & _ & Hn).
    destruct (display_i64 k) as [|a r]; [by inversion Hl as [Hl' _]; inversion Hl'|]. simpl in Hd, Hn.
    apply andb_true_iff in Hd as [Hd _], Hn as [Hn _]. by rewrite Hd in Hn.
Qed.

(** The identifier of a rule: its own, or one that is free. *)
Definition uid_resolved (current : option Rule) (existing : list Rule) (uid : string) : Prop :=
  match current with
  | Some current => uid = r_uid current
  | None => uid_shape uid /\ uid ∉ r_uid <$> existing /\ (String.length uid <= MAX_UID_LEN + 4)%nat
  end.
Lemma not_empty_Some s t : not_empty s = Some t -> s = t /\ t <> ""%string.
Proof. unfold not_empty. case_bool_decide; [done|]. by intros [= <-]. Qed.
Lemma resolve_uid_reads submitted name current existing s :
  only_reads (resolve_uid submitted name current existing) (fun uid _ => uid_resolved current existing uid) s.
Proof.
  unfold resolve_uid. cbv zeta. destruct current as [current|].
  { rbind only_reads_refuse. intros _ _. by apply only_reads_ret. }
  destruct (submitted ≫= _) as [uid|] eqn:E.
  - apply bind_Some in E as (raw & _ & [_ Hne]%not_empty_Some).
    rbind check_uid_shape_reads. intros _ [Hs Hl].
    rbind only_reads_refuse. intros _ Ht. bools. apply only_reads_ret. split_and!; [done|done|lia].
  - rbind only_reads_refuse. intros _ Hne. bools.
    rbind check_uid_shape_reads. intros _ [Hs Hl].
    case_bool_decide as Ht; cbn [negb]; [|apply only_reads_ret; split_and!; [done|done|lia]].
    eapply wp_mono; [apply only_reads_ok_or| |done]. intros uid s' [-> Hu]. split; [done|].
    apply find_map_Some in Hu as (l1 & x & l2 & El & Hx & _). case_bool_decide; [done|]. injection Hx as ->.
    assert (uid ∈ numbered_uid (slugify name) <$> seqZ 2 998) as (k & -> & Hk)%list_elem_of_fmap
      by (rewrite El; apply elem_of_app; right; by left).
    split_and!; [by apply numbered_shape|done|]. unfold numbered_uid. rewrite !string_length_app.
    destruct (numbers_are_digits k Hk) as [_ [_ Hd]]. change (String.length "_") with 1%nat. lia.
Qed.

Lemma validate_rule_reads current existing p s :
  (forall c, current = Some c -> rule_ok c = true) ->
  only_reads (validate_rule display_f64 current existing p)
    (fun r _ => rule_ok r = true /\ uid_resolved current existing (r_uid r)) s.
Proof.
  intros Hcur. unfold validate_rule. cbv zeta.
  rbind only_reads_refuse. intros _ Hname.
  rbind only_reads_refuse. intros _ Hquery.
  rbind parse_kind_reads. intros kind _.
  rbind parse_operator_reads. intros operator _.
  rbind parse_severity_reads. intros severity _.
  rbind only_reads_refuse. intros _ Hthr%negb_false_iff.
  rbind check_clear_reads. intros _ Hclear.
  rbind parse_duration_reads. intros hold Hfor.
  rbind parse_duration_reads. intros repeat_ Hrep.
  rbind parse_duration_reads. intros escalate Hesc.
  rbind parse_selector_reads. intros selector _.
  rbind parse_params_reads. intros params Hpar.
  rbind validate_channels_reads. intros channels _.
  rbind resolve_uid_reads. intros uid Huid. apply only_reads_ret. split; [|done].
  assert (uid_ok uid = true) as Hok.
  { destruct current as [c|]; cbn in Huid; [|by destruct Huid as [[? _] _]].
    specialize (Hcur c eq_refl). unfold rule_ok in Hcur. rewrite !andb_true_iff in Hcur. subst uid. tauto. }
  unfold rule_ok. cbn. rewrite Hok, Hname, Hquery, Hthr, Hrep, Hesc, Hpar. cbn [negb andb].
  assert ((0 <=? hold ?? 0) = true) as ->.
  { destruct hold as [d|]; [|done]. cbn in *. apply Z.ltb_lt in Hfor. apply Z.leb_le. lia. }
  rewrite !andb_true_r. case_bool_decide; [done|]. destruct (p_clear_threshold p) as [c|]; [|done].
  destruct Hclear as [Hf Hc]. unfold quiet_side. cbn. by rewrite Hf.
Qed.

(** ** The handlers that write rules *)

Notation steps s := (fun s' => rules_step (al_db s) (al_db s')).

Lemma elem_of_list_rules d r : r ∈ list_rules d <-> r ∈ db_rules d.
Proof. apply elem_of_sort_by. Qed.
Lemma rule_of_Some id rules r : rule_of id rules = Some r -> r ∈ rules /\ r_id r = id.
Proof.
  unfold rule_of. intros (l1 & x & l2 & -> & E & _)%find_map_Some. case_bool_decide; [|done]. injection E as ->.
  split; [|done]. apply elem_of_app. right. by left.
Qed.
Lemma same_rules d : rules_ok d -> rules_step d d.
Proof. by apply rules_step_same. Qed.

Lemma wp_statement {E A} (f : Db -> Db * A) (Q : A -> State -> Prop) (R : E -> State -> Prop) s :
  Q (f (al_db s)).2 (on_alerts (fun _ => (f (al_db s)).1) s) -> wp (statement f) Q R s.
Proof. intros HQ. unfold statement, wp, act. by destruct (f (al_db s)). Qed.

Lemma write_rule_step rule s :
  rules_step (al_db s) (upsert_rule rule (al_db s)) -> leaves (write_rule rule) s (steps s).
Proof.
  intros Hs. unfold leaves, write_rule, view_with_overrides, select. apply wp_bind, wp_statement.
  by repeat (hstep; try done).
Qed.
Lemma create_rule_step p s : rules_ok (al_db s) -> leaves (create_rule display_f64 p) s (steps s).
Proof.
  intros Hd. unfold leaves, create_rule, create_check, select. eapply wp_only_reads.
  - rbind only_reads_gets. intros existing ->. by apply validate_rule_reads.
  - intros _. by apply same_rules.
  - intros r [Hr (Hu & Hf & _)]. apply write_rule_step, upsert_step; [done|done|]. intros _. apply Hu.
Qed.
Lemma update_rule_check_reads id p s :
  rules_ok (al_db s) ->
  only_reads (update_check display_f64 id p)
    (fun r s => rule_ok r = true /\ exists c, c ∈ db_rules (al_db s) /\ r_id c = id /\ r_uid r = r_uid c) s.
Proof.
  intros Hd. unfold update_check, select. rbind only_reads_gets. intros existing ->.
  rbind only_reads_ok_or. intros current [Hc Hi]%rule_of_Some. rewrite elem_of_list_rules in Hc.
  eapply wp_mono; [apply validate_rule_reads| |done].
  - intros c [= <-]. by apply (ro_rules _ Hd).
  - intros r s' [-> [Hr Hu]]. split; [done|]. split; [done|]. by exists current.
Qed.
Lemma update_rule_step id p s : rules_ok (al_db s) -> leaves (update_rule display_f64 id p) s (steps s).
Proof.
  intros Hd. unfold leaves, update_rule. wbind update_rule_check_reads; [intros; by apply same_rules|].
  intros r [Hr (c & Hc & _ & Hu)]. apply write_rule_step, upsert_step; [done|done|]. intros []. rewrite Hu. by apply list_elem_of_fmap_2.
Qed.
Lemma delete_rule_step id s : rules_ok (al_db s) -> leaves (delete_rule_route id) s (steps s).
Proof.
  intros Hd. unfold leaves, delete_rule_route, select. wbind only_reads_gets; [intros; by apply same_rules|].
  intros rules ->. wbind only_reads_ok_or; [intros; by apply same_rules|]. intros rule [Hr Hi]%rule_of_Some.
  wbind only_reads_refuse; [intros; by apply same_rules|]. intros _ Hb. apply wp_bind, wp_statement.
  assert (rules_step (al_db s) (delete_rule id (al_db s)).1).
  { apply delete_step; [done|]. intros r Hin Hid. rewrite elem_of_list_rules in Hr.
    assert (r = rule) as ->; [|done]. apply list_elem_of_lookup in Hin as [i Hin], Hr as [j Hr].
    pose proof (ro_ids _ Hd) as Hn. rewrite NoDup_alt in Hn.
    assert (i = j) as ->; [|congruence]. apply (Hn i j id); rewrite list_lookup_fmap; [by rewrite Hin, <-Hid|by rewrite Hr, <-Hi]. }
  by repeat (hstep; try done).
Qed.
Lemma enable_rule_step id enabled s : rules_ok (al_db s) -> leaves (set_rule_enabled_route id enabled) s (steps s).
Proof.
  intros Hd. unfold leaves, set_rule_enabled_route, select, view_with_overrides. apply wp_bind, wp_statement.
  pose proof (enable_step id enabled _ Hd). by repeat (hstep; try done).
Qed.

(** ** The other handlers *)

(** What the other handlers leave of the rules. *)
Definition same_rules_as (d d' : Db) : Prop :=
  db_rules d' = db_rules d /\ db_next_rule d' = db_next_rule d /\ db_channels d' = db_channels d.
Definition same_tables (d d' : Db) : Prop := same_rules_as d d' /\ db_overrides d' = db_overrides d.
Notation spared s := (fun s' => same_rules_as (al_db s) (al_db s')).
Notation aside s := (fun s' => same_tables (al_db s) (al_db s')).

Lemma upsert_override_same o d : same_rules_as d (upsert_override o d).
Proof. unfold upsert_override. by destruct (RuleOverride_is_empty o). Qed.
Lemma set_ack_same fp ack d : same_tables d (set_ack fp ack d).1.
Proof.
  unfold set_ack. destruct (db_states d !! fp) as [row|]; [|done]. destruct (is_active_phase _); [|done].
  by destruct ack.
Qed.

Lemma acknowledge_spares now fp r actor s : leaves (acknowledge now fp r actor) s (aside s).
Proof.
  unfold leaves, acknowledge, select. apply wp_bind, wp_statement.
  pose proof (set_ack_same fp match r with AckRequest.Set_ until note => Some {| ak_until := until; ak_by := actor; ak_note := note |}
                              | AckRequest.Clear => None end (al_db s)).
  by repeat (hstep; try done).
Qed.
Lemma parse_until_reads raw s : only_reads (parse_until parse_from_rfc3339 parse_from_str raw) (fun _ _ => True) s.
Proof. unfold parse_until, refused. destruct (parse_from_rfc3339 raw); [done|]. by destruct (find_map _ _). Qed.
Lemma ack_term_reads now p s :
  only_reads (ack_term parse_from_rfc3339 parse_from_str now p)
    (fun t _ => t = None -> ak_until_ p = Some None /\ ak_duration_secs p = None) s.
Proof.
  unfold ack_term, refused.
  destruct (ak_until_ p) as [[raw|]|], (ak_duration_secs p) as [secs|]; try done.
  - rbind parse_until_reads. by intros at_ _.
  - destruct (secs <=? 0); [done|]. rbind only_reads_ok_or. by intros at_ _.
  - destruct (secs <=? 0); [done|]. rbind only_reads_ok_or. by intros at_ _.
  - rbind only_reads_ok_or. by intros at_ _.
Qed.
(** The term of an acknowledgement is in the thirty days that follow. *)
Definition bounded_request (now : DateTime) (r : AckRequest) : Prop :=
  match r with
  | AckRequest.Set_ until note =>
      now < until <= now + td_seconds MAX_ACK_SECS /\
      (forall n, note = Some n -> n <> ""%string /\ (chars_count n <= MAX_ACK_NOTE_LEN)%nat)
  | AckRequest.Clear => True
  end.
Lemma seconds_later_Some now secs t : seconds_later now secs = Some t -> t = now + td_seconds secs /\ t <= MAX_UTC.
Proof.
  unfold seconds_later. destruct (i64_max / 1000 <? secs); [done|]. cbv zeta. destruct (MAX_UTC <? _) eqn:E; [done|].
  intros [= <-]. bools. done.
Qed.
Lemma validate_ack_reads now p s :
  only_reads (validate_ack parse_from_rfc3339 parse_from_str now p) (fun r _ => bounded_request now r) s.
Proof.
  unfold validate_ack. cbv zeta. rbind only_reads_refuse. intros _ Hnote.
  rbind ack_term_reads. intros [until|] _; [|done].
  rbind only_reads_refuse. intros _ Hl. bools.
  rbind only_reads_ok_or. intros latest [-> _]%seconds_later_Some.
  rbind only_reads_refuse. intros _ Hu. bools. apply only_reads_ret. split; [lia|].
  intros n Hn. rewrite Hn in Hnote. unfold is_some_and in Hnote. apply bind_Some in Hn as (t & _ & [-> Hne]%not_empty_Some).
  apply Nat.ltb_ge in Hnote. done.
Qed.

Lemma ack_alert_spares env who fp p s : leaves (ack_alert parse_from_rfc3339 parse_from_str env who fp p) s (aside s).
Proof.
  unfold leaves, ack_alert. eapply wp_only_reads; [apply validate_ack_reads|done|]. intros r _.
  apply wp_bind. eapply wp_mono; [apply acknowledge_spares| |done]. intros view s' Hs. cbv zeta. unfold audited.
  by repeat (hstep; try done).
Qed.
Lemma unack_alert_spares env who fp s : leaves (unack_alert env who fp) s (aside s).
Proof.
  unfold leaves, unack_alert. apply wp_bind. eapply wp_mono; [apply acknowledge_spares| |done]. intros view s' Hs.
  unfold audited. by repeat (hstep; try done).
Qed.
Lemma put_override_spares who id target p s : leaves (put_override display_f64 who id target p) s (spared s).
Proof.
  unfold leaves, put_override, rule_by_id, allowed_override, current_override, check_clear_threshold, select, execute_.
  repeat (hstep; try done). all: cbn [al_db on_alerts]; apply upsert_override_same.
Qed.
Lemma delete_override_spares who id target s : leaves (delete_override_route who id target) s (spared s).
Proof.
  unfold leaves, delete_override_route, rule_by_id, kept_thresholds, current_override, select, statement, execute_.
  repeat (hstep; try done). all: cbn [al_db on_alerts]; apply upsert_override_same.
Qed.
Lemma dismiss_spares env who id s : leaves (dismiss_history_entry env who id) s (aside s).
Proof. unfold leaves, dismiss_history_entry, audited, statement. by repeat (hstep; try done). Qed.
Lemma dismiss_resolved_spares env who s : leaves (dismiss_resolved_history env who) s (aside s).
Proof. unfold leaves, dismiss_resolved_history, audited, statement. by repeat (hstep; try done). Qed.
Lemma check_nths_reads l s : only_reads (each check_nth l) (fun _ _ => True) s.
Proof.
  induction l as [|n l IH]; [done|]. cbn [each]. eapply (only_reads_bind _ (fun _ _ => True)); [|intros _ _; exact IH].
  unfold check_nth. rbind only_reads_refuse. intros _ _. eapply wp_mono; [apply only_reads_refuse| |done].
  by intros ? ? [-> _].
Qed.

Lemma reads_if_some {A} (o : option A) (f : A -> Handler State ApiError ()) (s : State) :
  (forall a, only_reads (f a) (fun _ _ => True) s) -> only_reads (if_some o f) (fun _ _ => True) s.
Proof. destruct o as [a|]; [intros Hf; exact (Hf a)|done]. Qed.
Lemma refuse_reads b e (s : State) : only_reads (refuse_if b (e : ApiError)) (fun _ _ => True) s.
Proof. by destruct b. Qed.
Lemma check_weekly_reads days start stop offset s : only_reads (check_weekly days start stop offset) (fun _ _ => True) s.
Proof.
  unfold check_weekly. rbind refuse_reads. intros _ _. eapply only_reads_bind; [by apply reads_if_some|]. intros _ _.
  do 3 (rbind refuse_reads; intros _ _). apply refuse_reads.
Qed.
Lemma check_monthly_reads days nths start duration offset s :
  only_reads (check_monthly days nths start duration offset) (fun _ _ => True) s.
Proof.
  unfold check_monthly. do 2 (rbind refuse_reads; intros _ _). eapply only_reads_bind; [by apply reads_if_some|]. intros _ _.
  rbind check_nths_reads. intros _ _. do 2 (rbind refuse_reads; intros _ _). apply refuse_reads.
Qed.
Lemma check_timezone_reads sched s : only_reads (check_timezone sched) (fun _ _ => True) s.
Proof. unfold check_timezone. destruct (timezone sched); [|done]. case_bool_decide; [done|]. apply refuse_reads. Qed.
Lemma parse_schedule_reads raw s : only_reads (parse_schedule raw) (fun _ _ => True) s.
Proof.
  unfold parse_schedule. destruct raw as [sched|]; [|done].
  eapply (only_reads_bind _ (fun _ _ => True)).
  - destruct sched; [apply refuse_reads|apply check_weekly_reads|apply check_monthly_reads].
  - intros _ _. rbind check_timezone_reads. by intros _ _.
Qed.
Lemma validate_silence_reads p s : only_reads (validate_silence p) (fun _ _ => True) s.
Proof.
  unfold validate_silence, select. cbv zeta. rbind refuse_reads. intros _ _. eapply only_reads_bind.
  - apply reads_if_some. intros target. rbind only_reads_gets. intros b _. apply refuse_reads.
  - cbv beta. intros _ _. rbind parse_schedule_reads. by intros sched _.
Qed.
Lemma create_silence_spares now id p s : leaves (create_silence_route now id p) s (aside s).
Proof.
  unfold leaves, create_silence_route. wbind validate_silence_reads; [done|]. intros silence _. unfold statement.
  by repeat (hstep; try done).
Qed.
Lemma delete_silence_spares id s : leaves (delete_silence_route id) s (aside s).
Proof. unfold leaves, delete_silence_route, statement. by repeat (hstep; try done). Qed.

(** ** Every call *)

Notation serve_ := (serve display_f64 parse_from_rfc3339 parse_from_str).
Notation happens_ := (happens display_f64 parse_from_rfc3339 parse_from_str).
Notation history_of_ := (history_of display_f64 parse_from_rfc3339 parse_from_str).

Lemma spared_step s s' : rules_ok (al_db s) -> same_rules_as (al_db s) (al_db s') -> rules_step (al_db s) (al_db s').
Proof. intros Hd (Hr & Hn & _). by apply rules_step_same. Qed.
Lemma aside_tables {E A} (m : Handler State E A) s : leaves m s (aside s) -> same_tables (al_db s) (al_db (m s).1).
Proof. by intros Hm%leaves_state. Qed.
Lemma aside_state {E A} (m : Handler State E A) s : leaves m s (aside s) -> same_rules_as (al_db s) (al_db (m s).1).
Proof. by intros [Hm _]%aside_tables. Qed.
Lemma serve_step env who c s : rules_ok (al_db s) -> rules_step (al_db s) (al_db (serve_ env who c s)).
Proof.
  intros Hd. unfold serve. destruct (negb _); [by apply same_rules|].
  destruct c.
  5-12: apply spared_step; [done|].
  7-12: apply aside_state.
  1-6: apply leaves_state.
  - by apply create_rule_step.
  - by apply update_rule_step.
  - by apply delete_rule_step.
  - by apply enable_rule_step.
  - apply put_override_spares.
  - apply delete_override_spares.
  - apply ack_alert_spares.
  - apply unack_alert_spares.
  - apply dismiss_spares.
  - apply dismiss_resolved_spares.
  - apply create_silence_spares.
  - apply delete_silence_spares.
Qed.
Lemma happens_step e s : rules_ok (al_db s) -> rules_step (al_db s) (al_db (happens_ e s)).
Proof.
  intros Hd. destruct e; [by apply seed_step|by apply rules_step_same|by apply serve_step].
Qed.
Lemma history_step events s : rules_ok (al_db s) -> rules_step (al_db s) (al_db (history_of_ events s)).
Proof.
  revert s. induction events as [|e events IH]; intros s Hd; [by apply same_rules|].
  eapply rules_step_trans; [by apply happens_step|]. cbn. apply IH. by apply happens_step.
Qed.

(** C26. Tables of rules that are sound stay so, whatever is asked of the alerts, by whom and in whichever order, across
    restarts and upgrades that seed the rules: every rule has an identifier of its own in the permitted bytes, a name, a
    query, a finite threshold, delays that are none or positive and settings an anomaly can be scored with; the identifier
    of the rule that says which devices are unreachable is never that of a rule someone created, only of the built-in one,
    whose query and threshold an administrator may still change; a built-in rule keeps its row; and the clear threshold of a
    rule is a hysteresis: judged by the thresholds of the rule itself, not by those of an override of the device, an active
    alert of finite value goes on exactly as long as the value has not passed it. *)
Theorem stored_rules_stay_sound events s :
  rules_ok (al_db s) ->
  let d := al_db (history_of_ events s) in
  rules_ok d /\ keeps_builtin (al_db s) d /\
  forall r clear v, r ∈ db_rules d -> r_clear_threshold r = Some clear -> f64_is_finite v = true ->
    Operator.holds (r_operator r) v (r_threshold r) (Some clear) true =
    match r_operator r with
    | Operator.Gt | Operator.Ge => f64_ge v clear
    | Operator.Lt | Operator.Le => f64_le v clear
    end.
Proof.
  intros Hd d. destruct (history_step events s Hd) as [Hok Hk]. split; [done|]. split; [done|].
  intros r clear v Hr Hc Hv. pose proof (ro_rules _ Hok r Hr) as H'. unfold rule_ok in H'. rewrite Hc, !andb_true_iff in H'.
  apply hysteresis; tauto.
Qed.

(** ** What an operator may change *)

(** Each override is stored under the rule and the device it names. *)
Definition keyed (d : Db) : Prop := forall k o, db_overrides d !! k = Some o -> k = (ro_rule_uid o, ro_target_id o).
Definition thresholds_at (d : Db) (k : string * TargetId) : option f64 * option f64 :=
  (db_overrides d !! k ≫= ro_threshold, db_overrides d !! k ≫= ro_clear_threshold).

Lemma elem_of_list_overrides rule_uid target d o :
  keyed d ->
  o ∈ list_overrides rule_uid target d <->
  db_overrides d !! (ro_rule_uid o, ro_target_id o) = Some o /\
  (rule_uid = None \/ rule_uid = Some (ro_rule_uid o)) /\ (target = None \/ target = Some (ro_target_id o)).
Proof.
  intros Hk. unfold list_overrides. rewrite list_elem_of_filter, list_elem_of_fmap. split.
  - intros [Hf ([k o'] & -> & Hin%elem_of_sort_by%elem_of_map_to_list)]. cbn in *. by rewrite <-(Hk _ _ Hin).
  - intros [Ho Hf]. split; [done|]. exists (ro_rule_uid o, ro_target_id o, o). split; [done|].
    by apply elem_of_sort_by, elem_of_map_to_list.
Qed.
(** A list of one element repeated. *)
Lemma head_of {A} (l : list A) (x : option A) : (forall y, y ∈ l <-> x = Some y) -> head l = x /\ last l = x.
Proof.
  intros Hl. split.
  - destruct l as [|y l]; [|by symmetry; apply Hl; left]. destruct x as [x|]; [|done].
    by pose proof (proj2 (Hl x) eq_refl) as Hx%elem_of_nil.
  - destruct (last l) as [y|] eqn:E; [by symmetry; apply Hl, last_Some_elem_of|]. apply last_None in E as ->.
    destruct x as [x|]; [|done]. by pose proof (proj2 (Hl x) eq_refl) as Hx%elem_of_nil.
Qed.
Lemma head_overrides uid target d : keyed d -> head (list_overrides (Some uid) (Some target) d) = db_overrides d !! (uid, target).
Proof.
  intros Hk. apply head_of. intros o. rewrite elem_of_list_overrides by done. split.
  - intros (Ho & [?|[= ->]] & [?|[= ->]]); done.
  - intros Ho. pose proof (Hk _ _ Ho) as [= -> ->]. by split_and!; [|right..].
Qed.
Lemma indexed uid target d :
  keyed d -> OverrideIndex_get (OverrideIndex_new (list_overrides None None d)) uid target = db_overrides d !! (uid, target).
Proof.
  intros Hk. rewrite OverrideIndex_new_lookup. apply head_of. intros o.
  rewrite list_elem_of_filter, elem_of_list_overrides by done. split.
  - by intros [[-> ->] (Ho & _)].
  - intros Ho. pose proof (Hk _ _ Ho) as [= -> ->]. by split_and!; [..|left|left].
Qed.

(** What the engine compares with depends on these thresholds only. *)
Lemma effective_thresholds d rule target :
  keyed d ->
  let e := effective (OverrideIndex_new (list_overrides None None d)) rule target in
  let t := from_option (fun id => thresholds_at d (r_uid rule, id)) (None, None) target in
  eff_threshold e = t.1 ?? r_threshold rule /\
  eff_clear_threshold e = match t.2 with Some c => Some c | None => r_clear_threshold rule end.
Proof.
  intros Hk e t. subst e t. unfold effective. destruct target as [id|]; [|done]. cbn [mbind option_bind from_option].
  rewrite indexed by done. unfold thresholds_at. cbn [fst snd]. by destruct (db_overrides d !! (r_uid rule, id)).
Qed.

Definition unmoved (d d' : Db) : Prop := keyed d' /\ forall k, thresholds_at d' k = thresholds_at d k.
Notation steady s := (fun s' => unmoved (al_db s) (al_db s')).
Lemma unmoved_refl d : keyed d -> unmoved d d.
Proof. done. Qed.
Lemma unmoved_same d d' : keyed d -> db_overrides d' = db_overrides d -> unmoved d d'.
Proof. intros Hk E. unfold unmoved, keyed, thresholds_at. by rewrite E. Qed.

(** A row that keeps the thresholds of its place. *)
Lemma unmoved_insert o d :
  keyed d -> (ro_threshold o, ro_clear_threshold o) = thresholds_at d (ro_rule_uid o, ro_target_id o) ->
  RuleOverride_is_empty o = false -> unmoved d (upsert_override o d).
Proof.
  intros Hk Ht He. unfold upsert_override. rewrite He. split.
  - intros k o'. cbn. rewrite lookup_insert_Some. intros [[<- <-]|[_ ?]]; [done|by apply Hk].
  - intros k. unfold thresholds_at in *. cbn. destruct (decide (k = (ro_rule_uid o, ro_target_id o))) as [->|Hne].
    + by rewrite lookup_insert_eq.
    + by rewrite lookup_insert_ne.
Qed.
Lemma unmoved_delete uid target d :
  keyed d -> thresholds_at d (uid, target) = (None, None) -> unmoved d (delete_override uid target d).1.
Proof.
  intros Hk Ht. split.
  - intros k o. cbn. rewrite lookup_delete_Some. intros [_ ?]. by apply Hk.
  - intros k. unfold thresholds_at in *. cbn. destruct (decide (k = (uid, target))) as [->|Hne].
    + by rewrite lookup_delete_eq.
    + by rewrite lookup_delete_ne.
Qed.

Lemma rule_by_id_reads id s : only_reads (rule_by_id id) (fun r s => r ∈ db_rules (al_db s) /\ r_id r = id) s.
Proof.
  unfold rule_by_id, select. rbind only_reads_gets. intros rules ->. eapply wp_mono; [apply only_reads_ok_or| |done].
  intros r s' [-> [Hr Hi]%rule_of_Some]. by rewrite elem_of_list_rules in Hr.
Qed.
Lemma current_override_reads uid target s :
  keyed (al_db s) -> only_reads (current_override uid target) (fun o s => o = db_overrides (al_db s) !! (uid, target)) s.
Proof.
  intros Hk. unfold current_override, select. rbind only_reads_gets. intros l ->. apply only_reads_ret. by apply head_overrides.
Qed.
Lemma allowed_override_reads who rule target p s :
  Principal.is_admin who = false -> keyed (al_db s) ->
  only_reads (allowed_override who rule target p)
    (fun p s => op_enabled p = Some false /\ (op_threshold p, op_clear_threshold p) = thresholds_at (al_db s) (r_uid rule, target)) s.
Proof.
  intros Ha Hk. unfold allowed_override. rewrite Ha. rbind only_reads_refuse. intros _ Hi%negb_false_iff.
  unfold is_ignore in Hi. bools. rbind current_override_reads. intros current ->. apply only_reads_ret.
  unfold thresholds_at. destruct (db_overrides (al_db s) !! (r_uid rule, target)) as [o|]; [done|]. cbn. split; [done|]. congruence.
Qed.
Lemma put_override_steady who id target p s :
  Principal.is_admin who = false -> keyed (al_db s) -> leaves (put_override display_f64 who id target p) s (steady s).
Proof.
  intros Ha Hk. unfold leaves, put_override. wbind rule_by_id_reads; [done|]. intros rule _.
  wbind allowed_override_reads; [done|]. intros p' [He Ht]. unfold select. wbind only_reads_gets; [done|]. intros b _.
  wbind refuse_reads; [done|]. intros _ _. wbind refuse_reads; [done|]. intros _ _. wbind check_clear_reads; [done|]. intros _ _.
  cbv zeta. unfold execute_. repeat hstep. apply unmoved_insert; [done|done|]. unfold RuleOverride_is_empty. cbn.
  rewrite He. by destruct (op_threshold p'), (op_clear_threshold p').
Qed.
Lemma kept_thresholds_reads who rule target s :
  Principal.is_admin who = false -> keyed (al_db s) ->
  only_reads (kept_thresholds who rule target)
    (fun o s => match o with
                | Some o => db_overrides (al_db s) !! (r_uid rule, target) = Some o /\ has_thresholds o = true
                | None => thresholds_at (al_db s) (r_uid rule, target) = (None, None)
                end) s.
Proof.
  intros Ha Hk. unfold kept_thresholds. rewrite Ha. rbind current_override_reads. intros o ->. apply only_reads_ret.
  unfold thresholds_at. destruct (db_overrides (al_db s) !! (r_uid rule, target)) as [o|]; [|done]. cbn.
  destruct (has_thresholds o) eqn:Eh; [done|]. cbn. unfold has_thresholds in Eh.
  by destruct (ro_threshold o), (ro_clear_threshold o).
Qed.
Lemma delete_override_steady who id target s :
  Principal.is_admin who = false -> keyed (al_db s) -> leaves (delete_override_route who id target) s (steady s).
Proof.
  intros Ha Hk. unfold leaves, delete_override_route. wbind rule_by_id_reads; [done|]. intros rule _.
  wbind kept_thresholds_reads; [done|]. intros [o|].
  - intros [Ho Hh]. wbind refuse_reads; [done|]. intros _ _. unfold execute_. repeat hstep. pose proof (Hk _ _ Ho) as Hkey.
    apply unmoved_insert; [done| |].
    + unfold thresholds_at. cbn. by rewrite <-Hkey, Ho.
    + unfold has_thresholds in Hh. unfold RuleOverride_is_empty. cbn. by destruct (ro_threshold o), (ro_clear_threshold o).
  - intros Ht. apply wp_bind, wp_statement. pose proof (unmoved_delete _ _ _ Hk Ht). by repeat (hstep; try done).
Qed.

(** C27. An operator handles alerts and configures nothing: whatever one asks, the rules and the channels stay as they are, and
    on every device every rule is compared with the same thresholds as before; who cannot operate changes nothing at all. *)
Theorem operator_moves_no_threshold env who c s :
  Principal.is_admin who = false -> keyed (al_db s) ->
  let d := al_db s in
  let d' := al_db (serve_ env who c s) in
  let judged (d : Db) := effective (OverrideIndex_new (list_overrides None None d)) in
  db_rules d' = db_rules d /\ db_channels d' = db_channels d /\ keyed d' /\
  (forall rule target, eff_threshold (judged d' rule target) = eff_threshold (judged d rule target) /\
                       eff_clear_threshold (judged d' rule target) = eff_clear_threshold (judged d rule target)) /\
  (Principal.can_operate who = false -> serve_ env who c s = s).
Proof.
  intros Ha Hk d d' judged.
  assert (db_rules d' = db_rules d /\ db_channels d' = db_channels d /\ unmoved d d') as (Hr & Hc & Hk' & Ht).
  { subst d d'. unfold serve, entitled_to. rewrite Ha. cbn [orb]. destruct (negb _) eqn:E; [done|].
    assert (forall E A (m : Handler State E A), leaves m s (aside s) ->
              db_rules (al_db (m s).1) = db_rules (al_db s) /\ db_channels (al_db (m s).1) = db_channels (al_db s) /\
              unmoved (al_db s) (al_db (m s).1)) as Haside.
    { intros E' A m [(Hr & _ & Hc) Ho]%aside_tables. split_and!; [done|done|]. by apply unmoved_same. }
    destruct c; [done..| | | | | | | |].
    - pose proof (put_override_spares who id target payload s) as (Hr & _ & Hc)%leaves_state.
      split_and!; [done|done|]. by apply leaves_state, put_override_steady.
    - pose proof (delete_override_spares who id target s) as (Hr & _ & Hc)%leaves_state.
      split_and!; [done|done|]. by apply leaves_state, delete_override_steady.
    - apply Haside, ack_alert_spares.
    - apply Haside, unack_alert_spares.
    - apply Haside, dismiss_spares.
    - apply Haside, dismiss_resolved_spares.
    - apply Haside, create_silence_spares.
    - apply Haside, delete_silence_spares. }
  split_and!; try done.
  - intros rule target. destruct (effective_thresholds d rule target Hk) as [E1 E2].
    destruct (effective_thresholds d' rule target Hk') as [E1' E2']. unfold judged. rewrite E1, E1', E2, E2'.
    destruct target as [id|]; [|done]. cbn [from_option]. by rewrite Ht.
  - intros Ho. unfold serve, entitled_to. by rewrite Ha, Ho, andb_false_r.
Qed.

(** ** Acknowledgements *)

Definition ack_of (request : AckRequest) (actor : string) : option Ack :=
  match request with
  | AckRequest.Set_ until note => Some {| ak_until := until; ak_by := actor; ak_note := note |}
  | AckRequest.Clear => None
  end.
(** What an acknowledgement writes, of all the tables of the alerts: the members of this alert that say so, and
    the lines of it that wait. *)
Record acked (fp : string) (ack : option Ack) (d d' : Db) : Prop := {
  ac_alert : exists row, db_states d !! fp = Some row /\ is_active_phase (phase (ar_state row)) = true;
  ac_tables : d' =
    set_queue (match ack with
               | Some _ => filter (fun q => ~ (qi_fp q = fp /\ qi_resolved_meanwhile q = false)) (db_queue d)
               | None => db_queue d
               end) (db_next_queue d)
      (set_states (alter (with_state (set_acked (to_sql ∘ ak_until <$> ack) (ak_by <$> ack) (ack ≫= ak_note)))
                     fp (db_states d)) d);
}.
(** The journal gets a line at its end, and keeps at least its last [KEEP]; nothing else of the accounts changes. *)
Definition journaled (actor action subject : string) (a a' : AuthState) : Prop :=
  exists e n, en_actor e = Some actor /\ en_action e = action /\ en_subject e = Some subject /\
    (n <= length (a_audit a) + 1 - KEEP)%nat /\ a' = on_audit (fun log => drop n (log ++ [e])) a.
Lemma record_journaled env actor action subject a :
  journaled actor action subject a (record env (Some actor) action (Some subject) a).1.
Proof.
  unfold record. cbn zeta. set (e := {| en_at := _ |}). exists e.
  destruct (e_draw env <? 3) eqn:Ed.
  - exists (length (a_audit a ++ [e]) - KEEP)%nat. split_and!; try done. rewrite length_app. cbn [length]. lia.
  - exists O. split_and!; try done. lia.
Qed.

Lemma set_ack_spec fp ack d :
  match set_ack fp ack d with
  | (d', true) => acked fp ack d d'
  | (d', false) => d' = d
  end.
Proof.
  unfold set_ack. destruct (db_states d !! fp) as [row|] eqn:Er; [|done].
  destruct (is_active_phase (phase (ar_state row))) eqn:Ep; [|done].
  split; [by exists row|by destruct ack].
Qed.
Lemma on_alerts_id s : on_alerts (fun _ => al_db s) s = s.
Proof. by destruct s. Qed.
Lemma acknowledge_spec now fp request actor s :
  wp (acknowledge now fp request actor)
    (fun view s' => acked fp (ack_of request actor) (al_db s) (al_db s') /\ al_auth s' = al_auth s /\
                    sa_fingerprint (av_alert view) = fp)
    (fun _ s' => s' = s) s.
Proof.
  unfold acknowledge. fold (ack_of request actor). cbv zeta. apply wp_bind, wp_statement.
  pose proof (set_ack_spec fp (ack_of request actor) (al_db s)) as Hs.
  destruct (set_ack fp (ack_of request actor) (al_db s)) as [d' []]; cbn [fst snd].
  - pose proof Hs as [(row & Hr & Hp) Hd]. cbn [negb refuse_if]. unfold select. apply wp_bind, wp_ret, wp_bind, wp_gets.
    cbn [al_db on_alerts]. unfold get_active. rewrite Hd at 1. cbn [db_states set_queue set_states].
    rewrite lookup_alter_eq, Hr. cbn [fmap option_fmap option_map mbind option_bind].
    change (phase (ar_state (with_state ?f row))) with (phase (ar_state row)). rewrite Hp. repeat hstep; [|done].
    split_and!; [done|done|by simplify_eq].
  - subst d'. rewrite on_alerts_id. by repeat (hstep; try done).
Qed.

(** C28. An acknowledgement is one: a request that is refused, or that panics, changes nothing; one that is accepted touches
    one alert, active, whose acknowledgement it clears or sets in the name of who asked, until an instant that has not come
    and is at most thirty days away, until which the engine takes the alert for acknowledged; it removes of the queue the
    lines that would announce this alert, but not those of its resolution; every other row and table of the alerts, the
    history included, stays as it is, and of the accounts only the journal gets a line, which says who did what. *)
Theorem acknowledgement_is_bounded env who fp payload s :
  let now := e_now env in
  match ack_alert parse_from_rfc3339 parse_from_str env who fp payload s with
  | (s', inl _) => s' = s
  | (s', inr view) =>
      sa_fingerprint (av_alert view) = fp /\
      exists ack, acked fp ack (al_db s) (al_db s') /\
        journaled (Principal.label who) (match ack with Some _ => "alert.acked" | None => "alert.unacked" end) fp
          (al_auth s) (al_auth s') /\
        forall a, ack = Some a ->
          ak_by a = Principal.label who /\ now < ak_until a <= now + td_seconds MAX_ACK_SECS /\
          forall row t, db_states (al_db s') !! fp = Some row -> t < to_sql (ak_until a) -> is_acked (ar_state row) t = true
  end.
Proof.
  cbv zeta.
  assert (wp (ack_alert parse_from_rfc3339 parse_from_str env who fp payload)
            (fun view s' => sa_fingerprint (av_alert view) = fp /\ exists request, bounded_request (e_now env) request /\
               acked fp (ack_of request (Principal.label who)) (al_db s) (al_db s') /\
               journaled (Principal.label who)
                 (match request with AckRequest.Set_ _ _ => "alert.acked" | AckRequest.Clear => "alert.unacked" end) fp
                 (al_auth s) (al_auth s')) (fun _ s' => s' = s) s) as Hw.
  { unfold ack_alert. wbind validate_ack_reads; [done|]. intros request Hb. apply wp_bind.
    eapply wp_mono; [apply acknowledge_spec| |done]. intros view s' (Ha & Hs & Hf). cbv zeta. unfold audited. repeat hstep.
    split; [done|]. exists request. split_and!; [done|done|]. cbn [al_auth]. rewrite Hs. apply record_journaled. }
  unfold wp in Hw. destruct (ack_alert _ _ _ _ _ _ _) as [s' [e|view]]; [done|].
  destruct Hw as (Hf & request & Hb & Ha & Hj). split; [done|]. exists (ack_of request (Principal.label who)).
  split; [done|]. split; [by destruct request|].
  intros a. destruct request as [until note|]; [|done]. intros [= <-]. cbn in *. split; [done|]. split; [apply Hb|].
  destruct (ac_alert _ _ _ _ Ha) as (row0 & Hr0 & Hp). pose proof (ac_tables _ _ _ _ Ha) as Hd. intros row t.
  rewrite Hd. cbn [db_states set_queue set_states]. rewrite lookup_alter_eq, Hr0.
  intros [= <-] Ht. unfold is_acked. cbn. apply andb_true_iff. split; [|by apply Z.ltb_lt].
  by destruct (phase (ar_state row0)).
Qed.

(** ** The history *)

(** The same lines; some resolutions are marked. *)
Definition only_marked (d d' : Db) : Prop :=
  Forall2 (fun h h' => h' = h \/ is_resolution h = true /\ h' = dismissed_row h) (db_history d) (db_history d').
Lemma only_marked_refl d : only_marked d d.
Proof. apply Forall_Forall2_diag, Forall_forall. by left. Qed.
Lemma dismiss_where_marks p d : (forall h, p h = true -> is_resolution h = true) -> only_marked d (dismiss_where p d).1.
Proof.
  intros Hp. apply Forall2_fmap_r, Forall_Forall2_diag, Forall_forall. intros h _. cbn.
  destruct (p h) eqn:E; [right; by auto|by left].
Qed.
Lemma dismiss_where_none p d : (dismiss_where p d).2 = 0 -> (dismiss_where p d).1 = d.
Proof.
  unfold dismiss_where. cbn [fst snd]. intros Hl. assert ((fun h => if p h then dismissed_row h else h) <$> db_history d = db_history d) as ->.
  { rewrite <-(list_fmap_id (db_history d)) at 2. apply list_fmap_ext. intros i h Hi. destruct (p h) eqn:E; [|done].
    assert (h ∈ filter (fun h => p h = true) (db_history d)) as Hin
      by (apply list_elem_of_filter; split; [done|by eapply list_elem_of_lookup_2]).
    destruct (filter _ (db_history d)); [by apply elem_of_nil in Hin|cbn in Hl; lia]. }
  by destruct d.
Qed.
(** Clearing a line takes it off the view by default, and only a resolution can be cleared. *)
Lemma dismissal_marks_resolutions env who id s :
  match dismiss_history_entry env who id s with
  | (s', inl _) => s' = s
  | (s', inr _) =>
      only_marked (al_db s) (al_db s') /\
      forall h, h ∈ db_history (al_db s') -> hr_id h = id -> is_resolution h = true -> hr_dismissed h = true
  end.
Proof.
  assert (wp (dismiss_history_entry env who id)
    (fun _ s' => only_marked (al_db s) (al_db s') /\
       forall h, h ∈ db_history (al_db s') -> hr_id h = id -> is_resolution h = true -> hr_dismissed h = true)
    (fun _ s' => s' = s) s) as Hw.
  { set (p := fun h => (hr_id h =? id) && is_resolution h). unfold dismiss_history_entry. fold p. apply wp_bind, wp_statement.
    assert (only_marked (al_db s) (dismiss_where p (al_db s)).1) as Hm
      by (apply dismiss_where_marks; by intros h [_ Hh]%andb_true_iff).
    destruct ((dismiss_where p (al_db s)).2 =? 0) eqn:E; cbn [refuse_if].
    - bools. rewrite dismiss_where_none by done. by rewrite on_alerts_id.
    - apply wp_bind, wp_ret. unfold audited. repeat hstep. split; [done|]. cbn.
      intros h (h0 & -> & _)%list_elem_of_fmap. destruct (p h0) eqn:E0; [done|]. intros Hi Hr. unfold p in E0.
      by rewrite Hi, Z.eqb_refl, Hr in E0. }
  unfold wp in Hw. by destruct (dismiss_history_entry env who id s) as [s' []].
Qed.
End checks.

(** ** What the handlers do not mean to do *)

#[local] Existing Instance plain_crates.
#[local] Existing Instance Gregorian.calendar.

Definition device (id : Z) : TargetNode :=
  {| tn_id := id; tn_name := "nas"; tn_address := ""; tn_kind := "snmp"; tn_parent_id := None; tn_via_agent := None;
     tn_tags := ∅; tn_enabled := true; tn_unreachable := false |}.
Definition bare : State :=
  {| al_db := {| db_rules := []; db_next_rule := 1; db_targets := [device 4]; db_states := ∅; db_history := [];
                 db_next_history := 1; db_silences := []; db_overrides := ∅; db_series := ∅; db_baselines := ∅;
                 db_queue := []; db_next_queue := 1; db_log := []; db_flap := ∅; db_messages := []; db_channels := [];
                 db_global := GlobalPolicy_default |};
     al_auth := guard_state no_accounts |}.
Definition person (role : Role) : Principal :=
  Principal.User {| u_id := 1; u_username := "ada"; u_display_name := ""; u_role := role; u_password_hash := None;
                    u_oidc_subject := None; u_oidc_issuer := None; u_created_at := 0; u_last_login_at := None;
                    u_disabled := false; u_totp_secret := None; u_totp_enabled := false |}
    {| st_id := "aa"; st_secret := "bb" |}.
Definition rule_payload (name : string) (threshold : Z) (clear : option Z) : RulePayload :=
  {| p_uid := None; p_name := name; p_description := None; p_kind := None; p_query := "dumbmonit_temp"; p_operator := None;
     p_threshold := Some (f64_of_Z threshold); p_clear_threshold := f64_of_Z <$> clear; p_for_secs := None; p_severity := None;
     p_selector := None; p_channels := None; p_params := None; p_unit := None; p_repeat_secs := None;
     p_escalate_after_secs := None; p_enabled := None |}.
Definition ignore : OverridePayload := {| op_threshold := None; op_clear_threshold := None; op_enabled := Some false |}.
Definition run_calls (calls : list (Principal * Call)) (s : State) : State :=
  history_of (fun _ => "") (fun _ => None) (fun _ _ => None) ((fun pc => Asked guard_env pc.1 pc.2) <$> calls) s.
Definition admin := person Role.Admin.

(** Deleting a rule leaves its overrides: one created later under the same name, on the same identifier, finds them, and the
    device ignored for the first is not watched by the second. *)
Lemma deleted_rule_leaves_its_overrides :
  let s := run_calls [(admin, CreateRule (rule_payload "Disk hot" 60 None)); (admin, PutOverride 1 4 ignore);
                      (admin, DeleteRule 1); (admin, CreateRule (rule_payload "Disk hot" 80 None))] bare in
  exists rule, db_rules (al_db s) = [rule] /\ r_id rule = 2 /\ r_enabled rule = true /\
    eff_enabled (effective (OverrideIndex_new (list_overrides None None (al_db s))) rule (Some 4)) = false.
Proof. eexists. vm_compute. split_and!; reflexivity. Qed.

Definition accepted {E A} (r : E + A) : bool := match r with inr _ => true | inl _ => false end.
(** Two creations that cross: each checks its identifier before the other writes, and the second silently replaces the
    rule of the first; both are answered that their rule was created. *)
Lemma crossing_creations_replace_a_rule :
  let check name threshold := (create_check (fun _ => ""%string) (rule_payload name threshold None) bare).2 in
  match check "Disk hot" 60, check "Disk: hot" 80 with
  | inr first, inr second =>
      let '(s1, answer1) := write_rule first bare in
      let '(s2, answer2) := write_rule second s1 in
      accepted answer1 = true /\ accepted answer2 = true /\ (r_name <$> db_rules (al_db s2)) = ["Disk: hot"%string]
  | _, _ => False
  end.
Proof. vm_compute. split_and!; reflexivity. Qed.

(** An identifier derived from a long name that is taken gets its number after its length was checked. *)
Lemma derived_identifier_exceeds_the_bound :
  let name := Stdlib.Strings.String.string_of_list_ascii (replicate 64 "a"%char) in
  let s := run_calls [(admin, CreateRule (rule_payload name 60 None)); (admin, CreateRule (rule_payload name 60 None))] bare in
  (fun r => String.length (r_uid r)) <$> db_rules (al_db s) = [64; 66]%nat /\ MAX_UID_LEN = 64%nat.
Proof. vm_compute. split; reflexivity. Qed.

(** The thresholds an operator keeps are checked again, against the rule as it is now: once an administrator has moved the
    rule past a clear threshold given to a device, no operator can have the rule ignored for this device. *)
Lemma kept_thresholds_refuse_an_operator :
  let s := run_calls [(admin, CreateRule (rule_payload "Disk hot" 60 None));
                      (admin, PutOverride 1 4 {| op_threshold := None; op_clear_threshold := Some (f64_of_Z 55); op_enabled := None |});
                      (admin, UpdateRule 1 (rule_payload "Disk hot" 50 None))] bare in
  (put_override (fun _ => ""%string) (person Role.Operator) 1 4 ignore s).2 =
  inl (ApiError.BadRequest (not_calm (fun _ => ""%string) Operator.Gt (f64_of_Z 50) (f64_of_Z 55))).
Proof. vm_compute. reflexivity. Qed.

(** The clear threshold of an override is checked, the one it inherits is not: a threshold put below the clear threshold of
    the rule is accepted, and leaves the device without hysteresis. *)
Lemma override_loses_the_hysteresis :
  let s := run_calls [(admin, CreateRule (rule_payload "Disk hot" 60 (Some 55)));
                      (admin, PutOverride 1 4 {| op_threshold := Some (f64_of_Z 50); op_clear_threshold := None; op_enabled := None |})] bare in
  let judge (rule : Rule) (e : Effective) value :=
    Operator.holds (r_operator rule) (f64_of_Z value) (eff_threshold e) (eff_clear_threshold e) true in
  let of_device rule := effective (OverrideIndex_new (list_overrides None None (al_db s))) rule (Some 4) in
  let of_rule rule := effective (OverrideIndex_new []) rule (Some 4) in
  (fun rule => (judge rule (of_rule rule) 56, judge rule (of_device rule) 50)) <$> db_rules (al_db s) = [(true, false)] /\
  (fun rule => (eff_threshold (of_device rule), eff_clear_threshold (of_device rule))) <$> db_rules (al_db s) =
    [(f64_of_Z 50, Some (f64_of_Z 55))].
Proof. vm_compute. split; reflexivity. Qed.

(** A duration no instant is that far from is not refused: the handler panics. *)
Lemma endless_acknowledgement_panics env who fp secs s :
  0 <= e_now env -> MAX_UTC / ns_per_s < secs ->
  (ack_alert (fun _ => None) (fun _ _ => None) env who fp
     (Some {| ak_until_ := None; ak_duration_secs := Some secs; ak_note_ := None |}) s).2 = inl Failure.Panicked.
Proof.
  intros Hn Hs. unfold ack_alert, validate_ack, ack_term. cbn -[seconds_later]. change (MAX_UTC / ns_per_s) with 8210266876799 in Hs.
  rewrite (proj2 (Z.leb_gt secs 0)) by lia. unfold seconds_later.
  destruct (i64_max / 1000 <? secs); [done|]. cbv zeta. destruct (MAX_UTC <? e_now env + td_seconds secs) eqn:E; [done|].
  apply Z.ltb_ge in E. unfold td_seconds, MAX_UTC, ns_per_s in *. lia.
Qed.

(** A monthly window of thirty days from the first and from the second of the month is accepted, and never closes. *)
Lemma monthly_window_may_be_permanent {C : Calendar} `{!CalendarLaws C} `{Crates} (s : State) :
  let forever := Schedule.Monthly [1; 2] [] 0 MAX_DURATION_MINUTES 0 None in
  (parse_schedule (Some forever) s).2 = inr forever /\
  forall date minute, in_range date -> in_range (date - 30) -> 0 <= minute < MINUTES_PER_DAY ->
    covers forever (td_days date + td_minutes minute) = true.
Proof.
  intros forever. split; [done|]. intros date minute Hd Hd30 Hm.
  apply (fixed_offset_window_is_complete forever 0); [done|]. pose proof (day_range date Hd) as Hr.
  assert (exists k wanted, 0 <= k < 30 /\ k < day date /\ day date - k = wanted /\ (wanted = 1 \/ wanted = 2)) as (k & wanted & Hk & Hkd & Hw & Hin).
  { destruct (decide (day date = 31)); [exists 29, 2; lia|exists (day date - 1), 1; lia]. }
  assert (in_range (date - k)) as Hdk by (unfold in_range in *; lia).
  destruct (day_sub date k Hd ltac:(lia) Hdk) as [Hday _].
  exists (date - k). split; [done|]. split.
  - cbn. rewrite Hday, Hw. by destruct Hin as [-> | ->].
  - change (start_minute forever) with 0. change (duration forever) with (td_days 30).
    unfold td_days, td_minutes, td_seconds, ns_per_s, MINUTES_PER_DAY in *. lia.
Qed.

(** ** Witnesses *)

Lemma bare_rules : rules_ok (al_db bare).
Proof. split; cbn; try (by intros r ?%elem_of_nil); constructor. Qed.
Definition hot_calls : list (Principal * Call) :=
  [(admin, CreateRule (rule_payload "Disk hot" 60 (Some 55)));
   (admin, PutOverride 1 4 {| op_threshold := Some (f64_of_Z 70); op_clear_threshold := None; op_enabled := None |})].
Lemma stored_rules_stay_sound_witness :
  let d := al_db (run_calls hot_calls bare) in
  rules_ok d /\ length (db_rules d) = 1%nat.
Proof.
  split; [|vm_compute; reflexivity].
  destruct (stored_rules_stay_sound (fun _ => ""%string) (fun _ => None) (fun _ _ => None)
              ((fun pc => Asked guard_env pc.1 pc.2) <$> hot_calls) bare bare_rules) as [Hd _].
  exact Hd.
Defined.

Lemma hot_keyed : keyed (al_db (run_calls hot_calls bare)).
Proof.
  assert (db_overrides (al_db (run_calls hot_calls bare)) =
          {[("disk_hot"%string, 4) := {| ro_rule_uid := "disk_hot"; ro_target_id := 4; ro_threshold := Some (f64_of_Z 70);
                                  ro_clear_threshold := None; ro_enabled := None |}]}) as E by (vm_compute; reflexivity).
  intros k o. rewrite E. by intros [<- <-]%lookup_singleton_Some.
Qed.
Lemma operator_moves_no_threshold_witness :
  let s := run_calls hot_calls bare in
  let d' := al_db (serve (fun _ => "") (fun _ => None) (fun _ _ => None) guard_env (person Role.Operator) (PutOverride 1 4 ignore) s) in
  keyed d' /\ db_overrides d' !! ("disk_hot"%string, 4) ≫= ro_enabled = Some false.
Proof.
  split; [|vm_compute; reflexivity].
  destruct (operator_moves_no_threshold (fun _ => ""%string) (fun _ => None) (fun _ _ => None) guard_env (person Role.Operator)
              (PutOverride 1 4 ignore) (run_calls hot_calls bare) eq_refl hot_keyed) as (_ & _ & Hk & _).
  exact Hk.
Defined.

Definition firing_row : AlertRow :=
  {| ar_rule_uid := "disk_hot"; ar_target_id := Some 4; ar_series_key := ""; ar_labels := ∅; ar_severity := Severity.Warning;
     ar_state := {| phase := Phase.Firing; condition_since := Some 0; firing_since := Some 0; resolved_at := None;
                    last_eval_at := Some 0; last_notified_at := None; notify_count := 0; suppressed := false;
                    suppressed_by := None; silenced := false; learning := false; as_value := None; as_score := None;
                    acked_until := None; acked_by := None; ack_note := None |} |}.
Definition alarmed : State := on_alerts (set_states {["fp" := firing_row]}) bare.
Lemma acknowledgement_is_bounded_witness :
  exists s' view, ack_alert (fun _ => None) (fun _ _ => None) guard_env (person Role.Operator) "fp" None alarmed = (s', inr view) /\
    sa_fingerprint (av_alert view) = "fp" /\
    (acked_by ∘ ar_state <$> db_states (al_db s') !! "fp"%string) = Some (Some "ada"%string).
Proof.
  destruct (ack_alert (fun _ => None) (fun _ _ => None) guard_env (person Role.Operator) "fp" None alarmed) as [s' [e|view]] eqn:E;
    [vm_compute in E; discriminate E|].
  exists s', view. split; [reflexivity|].
  pose proof (acknowledgement_is_bounded (fun _ => None) (fun _ _ => None) guard_env (person Role.Operator) "fp" None alarmed) as H.
  cbv zeta in H. rewrite E in H. destruct H as [Hf _]. split; [exact Hf|]. vm_compute in E. injection E as <- _. vm_compute. reflexivity.
Defined.
