(* ===== verification/Security.v ===== *)
(** * The security score ([security/mod.rs], [score.rs], [facts.rs], [api/security.rs])

    Facts are the last values the series database knows of a device; a provider turns those of a kind of device into
    checks, each of which passes, fails or is unknown; the checks make a score and a letter.  The providers are in
    [SecurityChecks].

    [Display] of a float is the class [FloatDisplay]. *)
From Stdlib Require Import Ascii.
From Stdlib Require String.
From S2P Require Import Prelude Text Float64 Decimal Tsdb Chrono Wire.

(** [format!(..)] of a float, and with one decimal. *)
Class FloatDisplay := { display_f64 : f64 -> string; display_fixed1 : f64 -> string }.

Definition LOOKBACK : string := "6h".
Definition SCORE_INTERVAL : Duration := td_seconds (15 * 60).

Module Category.
Inductive Category := Exposure | Patching | Authentication | Encryption | Backup | Configuration.
End Category.
Notation Category := Category.Category.
#[export] Instance Category_eq_dec : EqDecision Category.
Proof. solve_decision. Defined.

(** In increasing order. *)
Module Severity.
Inductive Severity := Low | Medium | High | Critical.
Definition weight (s : Severity) : Z := match s with Low => 1 | Medium => 3 | High => 6 | Critical => 10 end.
End Severity.
Notation Severity := Severity.Severity.
#[export] Instance Severity_eq_dec : EqDecision Severity.
Proof. solve_decision. Defined.

Module Outcome.
Inductive Outcome := Pass | Fail | Unknown.
End Outcome.
Notation Outcome := Outcome.Outcome.
#[export] Instance Outcome_eq_dec : EqDecision Outcome.
Proof. solve_decision. Defined.

(** ** Checks *)

Record CheckDef := {
  cd_id : string;
  cd_title : string;
  cd_category : Category;
  cd_severity : Severity;
  cd_reference : string;
  cd_remediation : string;
}.
Record Check := {
  ck_id : string;
  ck_title : string;
  ck_category : Category;
  ck_severity : Severity;
  ck_weight : Z;
  ck_result : Outcome;
  ck_evidence : string;
  ck_remediation : string;
  ck_reference : string;
}.
Definition with_result (d : CheckDef) (result : Outcome) (evidence : string) : Check :=
  {| ck_id := cd_id d; ck_title := cd_title d; ck_category := cd_category d; ck_severity := cd_severity d;
     ck_weight := Severity.weight (cd_severity d); ck_result := result; ck_evidence := evidence;
     ck_remediation := cd_remediation d; ck_reference := cd_reference d |}.
Definition pass (d : CheckDef) : string -> Check := with_result d Outcome.Pass.
Definition fail_ (d : CheckDef) : string -> Check := with_result d Outcome.Fail.
Definition unknown (d : CheckDef) : string -> Check := with_result d Outcome.Unknown.
Definition verdict (d : CheckDef) (ok : bool) (evidence : string) : Check :=
  if ok then pass d evidence else fail_ d evidence.

(** ** Facts *)

Record Fact := { f_name : string; f_labels : gmap string string; f_value : f64 }.
Definition label (f : Fact) (key : string) : string := f_labels f !! key ?? "".

Notation Facts := (list Fact).
(** A series without a name or without a finite value is no fact. *)
Definition fact_of (one : InstantSeries) : option Fact :=
  name ← is_metric one !! "__name__"%string;
  value ← parse_f64 (is_value one);
  if f64_is_finite value
  then Some {| f_name := strip_prefix "dumbmonit_" name ?? name; f_labels := delete "__name__"%string (is_metric one);
               f_value := value |}
  else None.
Definition from_series (series : list InstantSeries) : Facts := omap fact_of series.

Definition all_of (name : string) (facts : Facts) : list Fact := filter (fun f => f_name f = name) facts.
Definition has (name : string) (facts : Facts) : bool := match all_of name facts with [] => false | _ => true end.
(** [Iterator::reduce] of the values. *)
Definition reduce (f : f64 -> f64 -> f64) (l : list Fact) : option f64 :=
  match f_value <$> l with [] => None | v :: vs => Some (foldl f v vs) end.
Definition max_of (name : string) (facts : Facts) : option f64 := reduce f64_max (all_of name facts).
Definition min_of (name : string) (facts : Facts) : option f64 := reduce f64_min (all_of name facts).
Definition sum_of (name : string) (facts : Facts) : option f64 := reduce f64_add (all_of name facts).

(** [Vec::dedup] *)
Fixpoint dedup (l : list string) : list string :=
  match l with
  | x :: l' => match l' with
               | y :: _ => if bool_decide (x = y) then dedup l' else x :: dedup l'
               | [] => [x]
               end
  | [] => []
  end.
Definition names_where (name lab : string) (p : f64 -> bool) (facts : Facts) : list string :=
  dedup (sort_by string_cmp
    ((fun f => if bool_decide (label f lab = "") then "?"%string else label f lab) <$>
       filter (fun f => p (f_value f) = true) (all_of name facts))).

Definition SHOWN : nat := 3.
Definition list_names (names : list string) : string :=
  if (length names <=? SHOWN)%nat then String.concat ", " names
  else (String.concat ", " (take SHOWN names) +:+ " and " +:+ display_i64 (Z.of_nat (length names - SHOWN)) +:+ " more")%string.
Definition plural (count : f64) (word : string) : string :=
  let n := f64_whole i64_min i64_max (f64_round count) in
  if n =? 1 then ("1 " +:+ word)%string else (display_i64 n +:+ " " +:+ word +:+ "s")%string.

(** ** Score *)

Module Grade.
Inductive Grade := A | B | C | D | F.
Definition rank (g : Grade) : Z := match g with A => 0 | B => 1 | C => 2 | D => 3 | F => 4 end.
(** [Ord::max]: the worse of the two. *)
Definition max (g h : Grade) : Grade := if rank h <? rank g then g else h.
End Grade.
Notation Grade := Grade.Grade.
#[export] Instance Grade_eq_dec : EqDecision Grade.
Proof. solve_decision. Defined.

Definition grade_for (score : Z) : Grade :=
  if 90 <=? score then Grade.A
  else if 75 <=? score then Grade.B
  else if 60 <=? score then Grade.C
  else if 40 <=? score then Grade.D
  else Grade.F.

Record ScoreOutcome := { so_score : option Z; so_grade : option Grade; so_capped : bool }.

(** The weights are [u32]; a sum past their width panics or wraps, which takes four hundred million checks. *)
Definition weight_of (outcome : Outcome) (checks : list Check) : Z :=
  foldr Z.add 0 (ck_weight <$> filter (fun c => ck_result c = outcome) checks).
Definition critical_failed (checks : list Check) : bool :=
  existsb (fun c => bool_decide (ck_result c = Outcome.Fail) && bool_decide (ck_severity c = Severity.Critical)) checks.
(** The share of [passed] in [evaluated], out of a hundred. *)
Definition share (passed evaluated : Z) : Z :=
  f64_whole 0 u32_max (f64_round (f64_div (f64_mul (f64_of_Z passed) (f64_of_Z 100)) (f64_of_Z evaluated))).
Definition score_checks (checks : list Check) : ScoreOutcome :=
  let passed := weight_of Outcome.Pass checks in
  let evaluated := passed + weight_of Outcome.Fail checks in
  if evaluated =? 0 then {| so_score := None; so_grade := None; so_capped := false |}
  else
    let score := share passed evaluated in
    let natural := grade_for score in
    let grade := if critical_failed checks then Grade.max natural Grade.C else natural in
    {| so_score := Some score; so_grade := Some grade; so_capped := negb (bool_decide (grade = natural)) |}.

(** ** Providers and reports *)

Record SecurityProvider := {
  kinds : list string;
  metrics : list string;
  evaluate : string -> Facts -> list Check;
  applies : Facts -> bool;
}.

Record Counts := { n_pass : Z; n_fail : Z; n_unknown : Z }.
Definition Counts_default : Counts := {| n_pass := 0; n_fail := 0; n_unknown := 0 |}.
Record Report := {
  rp_target_id : Z;
  rp_target_name : string;
  rp_kind : string;
  rp_supported : bool;
  rp_score : option Z;
  rp_grade : option Grade;
  rp_capped : bool;
  rp_evaluated_at : DateTime;
  rp_counts : Counts;
  rp_checks : list Check;
}.

Definition rank (o : Outcome) : Z := match o with Outcome.Fail => 0 | Outcome.Pass => 1 | Outcome.Unknown => 2 end.
(** Failures first, the heaviest first; then what passes, then what is unknown. *)
Definition check_cmp : Check -> Check -> comparison :=
  cmp_then (cmp_on (rank ∘ ck_result) Z.compare) (cmp_then (cmp_rev (cmp_on ck_weight Z.compare)) (cmp_on ck_id string_cmp)).
Definition sort_checks : list Check -> list Check := sort_by check_cmp.
Definition count_of (outcome : Outcome) (checks : list Check) : Z :=
  Z.of_nat (length (filter (fun c => ck_result c = outcome) checks)).

Section reports.
Context (providers : list SecurityProvider).

Definition provider_for (kind : string) : option SecurityProvider :=
  find_map (fun p => if bool_decide (kind ∈ kinds p) then Some p else None) providers.
Definition supported_kinds : list string := providers ≫= kinds.

Definition build_report (now : DateTime) (target_id : Z) (name kind : string) (facts : Facts) : Report :=
  match option_filter (fun p => applies p facts) (provider_for kind) with
  | None =>
      {| rp_target_id := target_id; rp_target_name := name; rp_kind := kind; rp_supported := false; rp_score := None;
         rp_grade := None; rp_capped := false; rp_evaluated_at := now; rp_counts := Counts_default; rp_checks := [] |}
  | Some provider =>
      let checks := sort_checks (evaluate provider kind facts) in
      let outcome := score_checks checks in
      {| rp_target_id := target_id; rp_target_name := name; rp_kind := kind; rp_supported := true;
         rp_score := so_score outcome; rp_grade := so_grade outcome; rp_capped := so_capped outcome; rp_evaluated_at := now;
         rp_counts := {| n_pass := count_of Outcome.Pass checks; n_fail := count_of Outcome.Fail checks;
                         n_unknown := count_of Outcome.Unknown checks |};
         rp_checks := checks |}
  end.

(** ** Reading the facts *)

Definition name_pattern (names : list string) : string :=
  ("dumbmonit_(" +:+ String.concat "|" (dedup (sort_by string_cmp names)) +:+ ")")%string.
Definition instant_query (pattern : string) (target : option Z) : string :=
  let target := match target with
                | Some id => (", target=" +:+ quote +:+ display_i64 id +:+ quote)%string
                | None => ""%string
                end in
  ("last_over_time({__name__=~" +:+ quote +:+ pattern +:+ quote +:+ target +:+ "}[" +:+ LOOKBACK +:+ "]) keep_metric_names")%string.

(** What the series database answers; [None] is an error. *)
Variable query : string -> option (list InstantSeries).

Definition facts_for (t : Target) : option Facts :=
  match provider_for (t_kind t) with
  | None => Some []
  | Some provider => from_series <$> query (instant_query (name_pattern (metrics provider)) (Some (id t)))
  end.
Definition group_step (grouped : gmap Z (list InstantSeries)) (one : InstantSeries) : gmap Z (list InstantSeries) :=
  match is_metric one !! "target"%string ≫= parse_i64 with
  | None => grouped
  | Some id => <[id := (grouped !! id ?? []) ++ [one]]> grouped
  end.
Definition group_by_target (series : list InstantSeries) : gmap Z Facts := from_series <$> foldl group_step ∅ series.
Definition facts_by_target : option (gmap Z Facts) :=
  group_by_target <$> query (instant_query (name_pattern (providers ≫= metrics)) None).

Definition rated (t : Target) : bool := enabled t && match provider_for (t_kind t) with Some _ => true | None => false end.
(** Each device takes its facts out of the map. *)
Fixpoint reports_of (now : DateTime) (facts : gmap Z Facts) (targets : list Target) : list Report :=
  match targets with
  | [] => []
  | t :: targets =>
      build_report now (id t) (name t) (t_kind t) (facts !! id t ?? []) :: reports_of now (delete (id t) facts) targets
  end.
Definition all_reports (now : DateTime) (targets : list Target) : option (list Report) :=
  let chosen := filter (fun t => rated t = true) targets in
  match chosen with
  | [] => Some []
  | _ => facts ← facts_by_target; Some (filter (fun r => rp_supported r = true) (reports_of now facts chosen))
  end.

(** ** What is published *)

Definition report_samples (r : Report) (ts_ms : Z) : list Sample :=
  let target := display_i64 (rp_target_id r) in
  match rp_score r with
  | Some score => [with_label (Sample_new "security_score" (f64_of_Z score) Gauge ts_ms) "target" target]
  | None => []
  end ++
  if rp_supported r
  then [with_label (Sample_new "security_checks_failed" (f64_of_Z (n_fail (rp_counts r))) Gauge ts_ms) "target" target]
  else [].
(** A turn of the loop: what is sent to the sink. *)
Definition publish (now : DateTime) (targets : list Target) : list Sample :=
  match all_reports now targets with
  | Some reports => reports ≫= (fun r => report_samples r (now / 1000000))
  | None => []
  end.
End reports.

(** ** The security page *)

Record SummaryRow := {
  sr_target_id : Z;
  sr_target_name : string;
  sr_kind : string;
  sr_score : option Z;
  sr_grade : option Grade;
  sr_capped : bool;
  sr_counts : Counts;
  sr_top_failures : list string;
}.
Definition summary_row (r : Report) : SummaryRow :=
  {| sr_target_id := rp_target_id r; sr_target_name := rp_target_name r; sr_kind := rp_kind r; sr_score := rp_score r;
     sr_grade := rp_grade r; sr_capped := rp_capped r; sr_counts := rp_counts r;
     sr_top_failures := ck_title <$> take 3 (filter (fun c => ck_result c = Outcome.Fail) (rp_checks r)) |}.

Section summary.
Variable to_lowercase : string -> string.

Definition unrated (r : SummaryRow) : Z := match sr_score r with None => 1 | Some _ => 0 end.
Definition row_cmp : SummaryRow -> SummaryRow -> comparison :=
  cmp_then (cmp_then (cmp_on unrated Z.compare) (cmp_on sr_grade (option_cmp (cmp_rev (cmp_on Grade.rank Z.compare)))))
    (cmp_then (cmp_on sr_score (option_cmp Z.compare)) (cmp_on (to_lowercase ∘ sr_target_name) string_cmp)).
Definition summarize (reports : list Report) : list SummaryRow := sort_by row_cmp (summary_row <$> reports).
End summary.
