(* ===== verification/SecurityChecks.v ===== *)
(** * The checks of machines and appliances ([security/checks/])

    What every provider shares ([mod.rs]), then one Module per file: Proxmox VE, Proxmox Backup Server, Synology, firewalls,
    UniFi and the machines with an agent.  A provider is a record of its functions. *)
From Stdlib Require Import Ascii.
From Stdlib Require String.
From S2P Require Import Prelude Text Float64 Decimal Tsdb Chrono Wire Security.

Definition above (bound : f64) (v : f64) : bool := f64_gt v bound.
Definition positive_value : f64 -> bool := above f64_zero.
Definition below (bound : f64) (v : f64) : bool := f64_lt v bound.

(** [format!] of one instance that is not at zero. *)
Definition offender (lab noun : string) (f : Fact) : string :=
  let who := label f lab in
  if bool_decide (noun = "") then (if bool_decide (who = "") then "Detected"%string else who)
  else if bool_decide (who = "") then plural (f_value f) noun
  else (who +:+ ": " +:+ plural (f_value f) noun)%string.
Definition zero_everywhere (d : CheckDef) (facts : Facts) (metric lab noun missing : string) : Check :=
  if negb (has metric facts) then unknown d missing
  else match offender lab noun <$> filter (fun f => positive_value (f_value f) = true) (all_of metric facts) with
       | [] =>
           let instances := length (all_of metric facts) in
           if (1 <? instances)%nat && negb (bool_decide (lab = ""))
           then pass d ("None on any of " +:+ display_i64 (Z.of_nat instances) +:+ " " +:+ lab +:+ "s")
           else pass d "None"
       | offenders => fail_ d (list_names offenders)
       end.

Module proxmox.
Definition SECURITY_UPDATES : CheckDef := {|
  cd_id := "pve.updates.security";
  cd_title := "Security updates installed";
  cd_category := Category.Patching;
  cd_severity := Severity.High;
  cd_reference := "https://pve.proxmox.com/wiki/System_Software_Updates";
  cd_remediation := "Install pending updates on every node (Node > Updates > Upgrade, or `apt update && apt full-upgrade`). Never use `apt upgrade` alone on Proxmox VE." |}.
Definition PACKAGES : CheckDef := {|
  cd_id := "pve.updates.packages";
  cd_title := "Proxmox VE packages up to date";
  cd_category := Category.Patching;
  cd_severity := Severity.Medium;
  cd_reference := "https://pve.proxmox.com/wiki/System_Software_Updates";
  cd_remediation := "Upgrade the Proxmox VE packages on each node with `apt full-upgrade`, one node at a time in a cluster." |}.
Definition REBOOT : CheckDef := {|
  cd_id := "pve.reboot";
  cd_title := "Running the installed kernel";
  cd_category := Category.Patching;
  cd_severity := Severity.Medium;
  cd_reference := "https://pve.proxmox.com/wiki/System_Software_Updates";
  cd_remediation := "Reboot the node (migrate guests first) so the newer installed kernel and its security fixes are actually running." |}.
Definition REPO_TEST : CheckDef := {|
  cd_id := "pve.repo.test";
  cd_title := "No test repository in use";
  cd_category := Category.Configuration;
  cd_severity := Severity.Medium;
  cd_reference := "https://pve.proxmox.com/wiki/Package_Repositories";
  cd_remediation := "Disable the pvetest (and Ceph test) repository under Node > Updates > Repositories; it ships packages that have not been released." |}.
Definition REPO_HEALTH : CheckDef := {|
  cd_id := "pve.repo.health";
  cd_title := "Package repositories correctly configured";
  cd_category := Category.Configuration;
  cd_severity := Severity.Medium;
  cd_reference := "https://pve.proxmox.com/wiki/Package_Repositories";
  cd_remediation := "Open Node > Updates > Repositories and fix what Proxmox VE flags — typically the enterprise repository enabled without a subscription, which silently stops all updates." |}.
Definition SUBSCRIPTION : CheckDef := {|
  cd_id := "pve.subscription";
  cd_title := "Enterprise repository subscription";
  cd_category := Category.Patching;
  cd_severity := Severity.Low;
  cd_reference := "https://pve.proxmox.com/wiki/Package_Repositories";
  cd_remediation := "Proxmox recommends the enterprise repository (subscription) for production. In a homelab the no-subscription repository is acceptable: keep it updated." |}.
Definition CERTIFICATE : CheckDef := {|
  cd_id := "pve.certificate";
  cd_title := "Web interface certificate valid for 14+ days";
  cd_category := Category.Encryption;
  cd_severity := Severity.Medium;
  cd_reference := "https://pve.proxmox.com/wiki/Certificate_Management";
  cd_remediation := "Renew the node certificate, ideally with the built-in ACME (Let's Encrypt) client under Node > System > Certificates." |}.
Definition BACKUP_COVERAGE : CheckDef := {|
  cd_id := "pve.backup.coverage";
  cd_title := "Every guest is in a backup job";
  cd_category := Category.Backup;
  cd_severity := Severity.High;
  cd_reference := "https://pve.proxmox.com/wiki/Backup_and_Restore";
  cd_remediation := ("Add the uncovered guests to a backup job (Datacenter > Backup), or select " +:+ quote +:+ "all" +:+ quote +:+ " with explicit exclusions.")%string |}.
Definition BACKUP_JOBS : CheckDef := {|
  cd_id := "pve.backup.jobs";
  cd_title := "Backup jobs succeed";
  cd_category := Category.Backup;
  cd_severity := Severity.High;
  cd_reference := "https://pve.proxmox.com/wiki/Backup_and_Restore";
  cd_remediation := "Open the failed job's task log (Datacenter > Backup) and fix the cause: storage full or unreachable, locked guest, snapshot failure." |}.
Definition DEFS : list CheckDef := [SECURITY_UPDATES; PACKAGES; REBOOT; REPO_TEST; REPO_HEALTH; SUBSCRIPTION; CERTIFICATE; BACKUP_COVERAGE; BACKUP_JOBS].

Definition repo_test (facts : Facts) : Check :=
  if negb (has "proxmox_node_repository_enabled" facts) then unknown REPO_TEST "Repository list not collected."
  else match (fun f => label f "node" +:+ ": " +:+ label f "repo")%string <$>
               filter (fun f => positive_value (f_value f) && contains "test" (label f "repo") = true)
                 (all_of "proxmox_node_repository_enabled" facts) with
       | [] => pass REPO_TEST "No test repository enabled"
       | on => fail_ REPO_TEST ("Enabled: " +:+ list_names on)
       end.
Definition repo_health `{FloatDisplay} (facts : Facts) : Check :=
  match sum_of "proxmox_node_repository_errors" facts, sum_of "proxmox_node_repository_warnings" facts with
  | None, None => unknown REPO_HEALTH "Repository status not collected."
  | errors, warnings =>
      let errors := errors ?? f64_zero in
      let warnings := warnings ?? f64_zero in
      verdict REPO_HEALTH (f64_eq errors f64_zero && f64_eq warnings f64_zero)
        (display_f64 errors +:+ " error(s), " +:+ display_f64 warnings +:+ " warning(s) reported by Proxmox VE")
  end.
Definition subscription (facts : Facts) : Check :=
  if negb (has "proxmox_node_subscription_active" facts) then unknown SUBSCRIPTION "Subscription status not collected."
  else match names_where "proxmox_node_subscription_active" "node" (below f64_one) facts with
       | [] => pass SUBSCRIPTION "Active subscription on every node"
       | without => fail_ SUBSCRIPTION ("No active subscription: " +:+ list_names without)
       end.
Definition certificate `{FloatDisplay} (facts : Facts) : Check :=
  match min_of "proxmox_node_certificate_expiry_days" facts with
  | None => unknown CERTIFICATE "Certificate not collected."
  | Some days =>
      if f64_le days f64_zero then fail_ CERTIFICATE "A node certificate has expired"
      else verdict CERTIFICATE (f64_gt days (f64_of_Z 14)) ("Earliest expiry in " +:+ display_f64 (f64_floor days) +:+ " days")
  end.
Definition backup_coverage (facts : Facts) : Check :=
  match max_of "proxmox_backup_guests_not_covered" facts with
  | None => unknown BACKUP_COVERAGE "Backup job coverage not collected."
  | Some uncovered =>
      verdict BACKUP_COVERAGE (f64_eq uncovered f64_zero)
        (if f64_eq uncovered f64_zero then "Every guest is selected by a backup job"
         else plural uncovered "guest" +:+ " not in any backup job")
  end.
Definition backup_jobs (facts : Facts) : Check :=
  if is_some_and (max_of "proxmox_backup_jobs_total" facts) (fun n => f64_eq n f64_zero)
  then fail_ BACKUP_JOBS "No backup job is configured"
  else if negb (has "proxmox_backup_job_last_ok" facts) then unknown BACKUP_JOBS "No backup job result collected yet."
  else match names_where "proxmox_backup_job_last_ok" "job" (below f64_one) facts with
       | [] => pass BACKUP_JOBS "Last run of every job succeeded"
       | failed => fail_ BACKUP_JOBS ("Last run failed: " +:+ list_names failed)
       end.
Definition evaluate_proxmox `{FloatDisplay} (facts : Facts) : list Check :=
  [zero_everywhere SECURITY_UPDATES facts "proxmox_node_updates_security_pending" "node" "security update"
     "Not collected: listing pending updates needs the Sys.Modify privilege on the monitoring token.";
   zero_everywhere PACKAGES facts "proxmox_node_pve_packages_upgradable" "node" "package" "Not collected yet.";
   zero_everywhere REBOOT facts "proxmox_node_reboot_required" "node" "" "Not collected yet.";
   repo_test facts; repo_health facts; subscription facts; certificate facts; backup_coverage facts; backup_jobs facts].
Definition Proxmox `{FloatDisplay} : SecurityProvider := {|
  kinds := ["proxmox"];
  metrics := ["proxmox_node_updates_security_pending"; "proxmox_node_pve_packages_upgradable"; "proxmox_node_reboot_required"; "proxmox_node_repository_enabled"; "proxmox_node_repository_errors"; "proxmox_node_repository_warnings"; "proxmox_node_subscription_active"; "proxmox_node_certificate_expiry_days"; "proxmox_backup_guests_not_covered"; "proxmox_backup_jobs_total"; "proxmox_backup_job_last_ok"];
  evaluate := fun _ facts => evaluate_proxmox facts;
  applies := fun _ => true |}.
End proxmox.

Module pbs.
Definition UPDATES : CheckDef := {|
  cd_id := "pbs.updates";
  cd_title := "System updates installed";
  cd_category := Category.Patching;
  cd_severity := Severity.High;
  cd_reference := "https://pbs.proxmox.com/docs/package-repositories.html";
  cd_remediation := "Install pending updates (Administration > Updates, or `apt update && apt full-upgrade`)." |}.
Definition RESTART : CheckDef := {|
  cd_id := "pbs.restart";
  cd_title := "Running the installed Backup Server version";
  cd_category := Category.Patching;
  cd_severity := Severity.Medium;
  cd_reference := "https://pbs.proxmox.com/docs/package-repositories.html";
  cd_remediation := "The proxmox-backup package was upgraded but the daemons still run the old version: restart them (`systemctl restart proxmox-backup-proxy proxmox-backup`) or reboot." |}.
Definition VERIFY : CheckDef := {|
  cd_id := "pbs.verify";
  cd_title := "Verify job scheduled";
  cd_category := Category.Backup;
  cd_severity := Severity.High;
  cd_reference := "https://pbs.proxmox.com/docs/maintenance.html#verification";
  cd_remediation := "Create a verify job on each datastore (Datastore > Verify Jobs) so silent corruption is found before you need the backup." |}.
Definition PRUNE : CheckDef := {|
  cd_id := "pbs.prune";
  cd_title := "Prune job scheduled";
  cd_category := Category.Backup;
  cd_severity := Severity.Medium;
  cd_reference := "https://pbs.proxmox.com/docs/maintenance.html#pruning";
  cd_remediation := "Create a prune job (Datastore > Prune & GC Jobs) with a retention policy, or the datastore grows until backups fail." |}.
Definition OFFSITE : CheckDef := {|
  cd_id := "pbs.offsite";
  cd_title := "Backups copied elsewhere (sync or tape)";
  cd_category := Category.Backup;
  cd_severity := Severity.Medium;
  cd_reference := "https://pbs.proxmox.com/docs/managing-remotes.html";
  cd_remediation := "Follow the 3-2-1 rule: sync the datastore to a second Backup Server (remote + sync job) or write it to tape." |}.
Definition INTEGRITY : CheckDef := {|
  cd_id := "pbs.integrity";
  cd_title := "Garbage collection clean, no bad chunks";
  cd_category := Category.Backup;
  cd_severity := Severity.High;
  cd_reference := "https://pbs.proxmox.com/docs/maintenance.html#garbage-collection";
  cd_remediation := "Read the last garbage collection task log; bad chunks mean damaged backups — run a verify job and re-run the affected backups." |}.
Definition CERTIFICATE : CheckDef := {|
  cd_id := "pbs.certificate";
  cd_title := "Certificate valid for 14+ days";
  cd_category := Category.Encryption;
  cd_severity := Severity.Medium;
  cd_reference := "https://pbs.proxmox.com/docs/certificate-management.html";
  cd_remediation := "Renew the certificate, ideally with the built-in ACME client (Certificates > ACME). Clients pinning the fingerprint must be updated afterwards." |}.
Definition DEFS : list CheckDef := [UPDATES; RESTART; VERIFY; PRUNE; OFFSITE; INTEGRITY; CERTIFICATE].

Definition jobs (d : CheckDef) (facts : Facts) (metric what : string) : Check :=
  match max_of metric facts with
  | None => unknown d "Job list not collected."
  | Some count => verdict d (positive_value count) (plural count (what +:+ " job"))
  end.
Definition restart (facts : Facts) : Check :=
  match max_of "pbs_node_running_version_stale" facts with
  | None => unknown RESTART "Not collected yet."
  | Some stale =>
      if positive_value stale then fail_ RESTART "The daemons still run the version before the last upgrade"
      else pass RESTART "The daemons run the installed version"
  end.
Definition offsite (facts : Facts) : Check :=
  match max_of "pbs_sync_jobs_total" facts, max_of "pbs_tape_backup_jobs_total" facts with
  | None, None => unknown OFFSITE "Sync and tape jobs not collected."
  | sync, tape =>
      let sync := sync ?? f64_zero in
      let tape := tape ?? f64_zero in
      verdict OFFSITE (positive_value (f64_add sync tape)) (plural sync "sync job" +:+ ", " +:+ plural tape "tape backup job")
  end.
Definition integrity (facts : Facts) : Check :=
  if negb (has "pbs_gc_last_run_ok" facts) && negb (has "pbs_gc_bad_chunks" facts)
  then unknown INTEGRITY "Garbage collection status not collected."
  else
    let failed := names_where "pbs_gc_last_run_ok" "datastore" (below f64_one) facts in
    let bad := (fun f => label f "datastore" +:+ ": " +:+ plural (f_value f) "bad chunk")%string <$>
                 filter (fun f => positive_value (f_value f) = true) (all_of "pbs_gc_bad_chunks" facts) in
    let problems := match failed with [] => [] | _ => [("last GC failed on " +:+ list_names failed)%string] end ++
                    match bad with [] => [] | _ => [list_names bad] end in
    match problems with
    | [] => pass INTEGRITY "Last garbage collection succeeded, no bad chunk"
    | _ => fail_ INTEGRITY (String.concat "; " problems)
    end.
Definition certificate `{FloatDisplay} (facts : Facts) : Check :=
  match min_of "pbs_node_certificate_expires_seconds" facts with
  | None => unknown CERTIFICATE "Certificate not collected."
  | Some seconds =>
      if f64_le seconds f64_zero then fail_ CERTIFICATE "The certificate has expired"
      else
        let days := f64_floor (f64_div seconds (f64_of_Z 86400)) in
        verdict CERTIFICATE (f64_ge days (f64_of_Z 14)) ("Expires in " +:+ display_f64 days +:+ " days")
  end.
Definition evaluate_pbs `{FloatDisplay} (facts : Facts) : list Check :=
  [zero_everywhere UPDATES facts "pbs_node_updates_pending" "" "update"
     "Not collected: listing updates needs the Sys.Modify privilege on /system.";
   restart facts; jobs VERIFY facts "pbs_verify_jobs_total" "verify"; jobs PRUNE facts "pbs_prune_jobs_total" "prune";
   offsite facts; integrity facts; certificate facts].
Definition Pbs `{FloatDisplay} : SecurityProvider := {|
  kinds := ["pbs"];
  metrics := ["pbs_node_updates_pending"; "pbs_node_running_version_stale"; "pbs_verify_jobs_total"; "pbs_prune_jobs_total"; "pbs_sync_jobs_total"; "pbs_tape_backup_jobs_total"; "pbs_gc_last_run_ok"; "pbs_gc_bad_chunks"; "pbs_node_certificate_expires_seconds"];
  evaluate := fun _ facts => evaluate_pbs facts;
  applies := fun _ => true |}.
End pbs.

Module synology.
Definition DSM_VERSION : CheckDef := {|
  cd_id := "dsm.version";
  cd_title := "DSM 7 or later";
  cd_category := Category.Patching;
  cd_severity := Severity.High;
  cd_reference := "https://www.synology.com/en-global/products/status";
  cd_remediation := "Upgrade to the latest DSM 7 release your model supports (Control Panel > Update & Restore). Older major versions no longer receive regular security fixes." |}.
Definition BACKUP_CONFIGURED : CheckDef := {|
  cd_id := "dsm.backup.configured";
  cd_title := "Hyper Backup task configured";
  cd_category := Category.Backup;
  cd_severity := Severity.Medium;
  cd_reference := "https://kb.synology.com/en-global/DSM/tutorial/How_to_add_extra_security_to_your_Synology_NAS";
  cd_remediation := "Create a Hyper Backup task to another device or a cloud destination: RAID and snapshots are not a backup." |}.
Definition BACKUP_RESULT : CheckDef := {|
  cd_id := "dsm.backup.result";
  cd_title := "Hyper Backup tasks succeed";
  cd_category := Category.Backup;
  cd_severity := Severity.High;
  cd_reference := "https://kb.synology.com/en-global/DSM/tutorial/How_to_add_extra_security_to_your_Synology_NAS";
  cd_remediation := "Open Hyper Backup, read the failed task's log and fix the destination (reachability, credentials, free space) before running it again." |}.
Definition DEFS : list CheckDef := [DSM_VERSION; BACKUP_CONFIGURED; BACKUP_RESULT].

(** [trim_start_matches] of the text DSM. *)
Fixpoint trim_dsm (s : string) : string :=
  match s with
  | String a (String b (String c rest)) =>
      if bool_decide ([a; b; c] = ["D"%char; "S"%char; "M"%char]) then trim_dsm rest else s
  | _ => s
  end.
Fixpoint leading_digits (s : string) : string :=
  match s with
  | String a rest => if is_ascii_digit a then String a (leading_digits rest) else EmptyString
  | EmptyString => EmptyString
  end.
Definition dsm_major (raw : string) : option Z :=
  match leading_digits (trim (trim_dsm (trim raw))) with
  | EmptyString => None
  | digits => n ← parse_digits 0 digits; if n <=? u32_max then Some n else None
  end.
Definition dsm_version (facts : Facts) : Check :=
  match find_map (fun f => if bool_decide (label f "dsm_version" = "") then None else Some (label f "dsm_version"))
          (all_of "synology_system_info" facts) with
  | None => unknown DSM_VERSION "DSM version not collected."
  | Some raw =>
      match dsm_major raw with
      | Some major => verdict DSM_VERSION (7 <=? major) raw
      | None => unknown DSM_VERSION ("Unrecognised version " +:+ quote +:+ raw +:+ quote)
      end
  end.
Definition backup_configured (facts : Facts) : Check :=
  match max_of "synology_backup_tasks" facts with
  | None => unknown BACKUP_CONFIGURED "Hyper Backup not collected (package absent or no access)."
  | Some tasks => verdict BACKUP_CONFIGURED (positive_value tasks) (plural tasks "task")
  end.
Definition backup_result (facts : Facts) : Check :=
  if negb (has "synology_backup_last_result" facts) then unknown BACKUP_RESULT "No Hyper Backup result collected."
  else match names_where "synology_backup_last_result" "name" (fun v => f64_ge v f64_two) facts with
       | [] => pass BACKUP_RESULT "No task in error"
       | failed => fail_ BACKUP_RESULT ("Failed: " +:+ list_names failed)
       end.
Definition Synology : SecurityProvider := {|
  kinds := ["synology"];
  metrics := ["synology_system_info"; "synology_backup_tasks"; "synology_backup_last_result"];
  evaluate := fun _ facts => [dsm_version facts; backup_configured facts; backup_result facts];
  applies := fun _ => true |}.
End synology.

Module firewall.
Definition OPN_UPDATES : CheckDef := {|
  cd_id := "opnsense.firmware.updates";
  cd_title := "Firmware updates installed";
  cd_category := Category.Patching;
  cd_severity := Severity.High;
  cd_reference := "https://docs.opnsense.org/manual/updates.html";
  cd_remediation := "Install the pending updates (System > Firmware > Status > Check for updates, then Update). OPNsense publishes security fixes in minor releases." |}.
Definition OPN_UPGRADE : CheckDef := {|
  cd_id := "opnsense.firmware.series";
  cd_title := "On the current major release series";
  cd_category := Category.Patching;
  cd_severity := Severity.Medium;
  cd_reference := "https://docs.opnsense.org/manual/updates.html";
  cd_remediation := "A new major series is available: plan the upgrade (System > Firmware > Status). The previous series stops receiving updates a few months after a new one ships." |}.
Definition OPN_REBOOT : CheckDef := {|
  cd_id := "opnsense.reboot";
  cd_title := "No reboot pending after an update";
  cd_category := Category.Patching;
  cd_severity := Severity.Medium;
  cd_reference := "https://docs.opnsense.org/manual/updates.html";
  cd_remediation := "Reboot the firewall in a maintenance window: the installed kernel or base fixes are not active until then." |}.
Definition OPN_PF : CheckDef := {|
  cd_id := "opnsense.pf";
  cd_title := "Packet filter enabled";
  cd_category := Category.Exposure;
  cd_severity := Severity.Critical;
  cd_reference := "https://docs.opnsense.org/manual/firewall.html";
  cd_remediation := ("Re-enable filtering (Firewall > Settings > Advanced: untick " +:+ quote +:+ "Disable Firewall" +:+ quote +:+ "). With pf off, the firewall routes everything without filtering.")%string |}.
Definition PFS_RESTAPI : CheckDef := {|
  cd_id := "pfsense.restapi";
  cd_title := "REST API package up to date";
  cd_category := Category.Patching;
  cd_severity := Severity.Low;
  cd_reference := "https://pfrest.org/";
  cd_remediation := "Update the REST API package (`pfsense-restapi update`, or System > Package Manager). It runs with administrator rights on the firewall." |}.
Definition DEFS : list CheckDef := [OPN_UPDATES; OPN_UPGRADE; OPN_REBOOT; OPN_PF; PFS_RESTAPI].

(** The three checks of the firmware. *)
Definition firmware (facts : Facts) (d : CheckDef) (metric ok : string) (ko : f64 -> string) : Check :=
  if is_some_and (max_of "opnsense_firmware_checked" facts) (fun v => f64_eq v f64_zero)
  then unknown d "OPNsense has not checked for updates yet (System > Firmware)."
  else match max_of metric facts with
       | None => unknown d "Firmware status not collected."
       | Some value => if positive_value value then fail_ d (ko value) else pass d ok
       end.
Definition evaluate_opnsense (facts : Facts) : list Check :=
  [firmware facts OPN_UPDATES "opnsense_firmware_updates_pending" "Up to date" (fun n => plural n "package update");
   firmware facts OPN_UPGRADE "opnsense_firmware_upgrade_available" "Current series" (fun _ => "A new major release is available"%string);
   firmware facts OPN_REBOOT "opnsense_firmware_reboot_required" "No reboot pending" (fun _ => "Reboot required"%string);
   match max_of "opnsense_pf_enabled" facts with
   | None => unknown OPN_PF "Packet filter status not collected."
   | Some on => verdict OPN_PF (f64_ge on f64_one) (if f64_ge on f64_one then "pf is filtering" else "pf is disabled")
   end].
Definition evaluate_pfsense (facts : Facts) : list Check :=
  [match max_of "pfsense_restapi_update_available" facts with
   | None => unknown PFS_RESTAPI "REST API version not collected."
   | Some available =>
       verdict PFS_RESTAPI (f64_eq available f64_zero)
         (if f64_eq available f64_zero then "Up to date" else "An update is available")
   end].
Definition Opnsense : SecurityProvider := {|
  kinds := ["opnsense"];
  metrics := ["opnsense_firmware_checked"; "opnsense_firmware_updates_pending"; "opnsense_firmware_upgrade_available"; "opnsense_firmware_reboot_required"; "opnsense_pf_enabled"];
  evaluate := fun _ facts => evaluate_opnsense facts;
  applies := fun _ => true |}.
Definition Pfsense : SecurityProvider := {|
  kinds := ["pfsense"];
  metrics := ["pfsense_restapi_update_available"];
  evaluate := fun _ facts => evaluate_pfsense facts;
  applies := fun _ => true |}.
End firewall.

Module unifi.
Definition FIRMWARE : CheckDef := {|
  cd_id := "unifi.firmware";
  cd_title := "Device firmware up to date";
  cd_category := Category.Patching;
  cd_severity := Severity.High;
  cd_reference := "https://community.ui.com/releases";
  cd_remediation := "Upgrade the listed devices from the UniFi Network application (Devices > Upgrade), or enable scheduled automatic firmware updates." |}.
Definition DEFS : list CheckDef := [FIRMWARE].

Definition evaluate_unifi (facts : Facts) : list Check :=
  [zero_everywhere FIRMWARE facts "unifi_device_upgradable" "device" "" "Device list not collected."].
Definition Unifi : SecurityProvider := {|
  kinds := ["unifi"];
  metrics := ["unifi_device_upgradable"];
  evaluate := fun _ facts => evaluate_unifi facts;
  applies := fun _ => true |}.
End unifi.

Module agent.
Definition SECURITY_UPDATES : CheckDef := {|
  cd_id := "host.updates.security";
  cd_title := "Security updates installed";
  cd_category := Category.Patching;
  cd_severity := Severity.High;
  cd_reference := "https://www.cisecurity.org/controls/continuous-vulnerability-management";
  cd_remediation := "Install pending security updates (apt/dnf/zypper) and consider automatic security updates (unattended-upgrades, dnf-automatic)." |}.
Definition UPDATES : CheckDef := {|
  cd_id := "host.updates";
  cd_title := "No pending updates";
  cd_category := Category.Patching;
  cd_severity := Severity.Low;
  cd_reference := "https://www.cisecurity.org/controls/continuous-vulnerability-management";
  cd_remediation := "Apply pending updates during the next maintenance window." |}.
Definition REBOOT : CheckDef := {|
  cd_id := "host.reboot";
  cd_title := "No reboot pending";
  cd_category := Category.Patching;
  cd_severity := Severity.Medium;
  cd_reference := "https://www.cisecurity.org/controls/continuous-vulnerability-management";
  cd_remediation := "Reboot the machine: an updated kernel or library is installed but the old one is still running." |}.
Definition SELINUX : CheckDef := {|
  cd_id := "host.selinux";
  cd_title := "SELinux enforcing";
  cd_category := Category.Configuration;
  cd_severity := Severity.Medium;
  cd_reference := "https://docs.redhat.com/en/documentation/red_hat_enterprise_linux/9/html/using_selinux/index";
  cd_remediation := "Set SELINUX=enforcing in /etc/selinux/config and fix the denials in the audit log rather than disabling the policy." |}.
Definition CONTAINER_UPDATES : CheckDef := {|
  cd_id := "docker.image.updates";
  cd_title := "Container images up to date";
  cd_category := Category.Patching;
  cd_severity := Severity.Medium;
  cd_reference := "https://docs.docker.com/build/building/best-practices/#rebuild-your-images-often";
  cd_remediation := "Pull the newer images and recreate the containers (`docker compose pull && docker compose up -d`)." |}.
Definition CONTAINER_AGE : CheckDef := {|
  cd_id := "docker.image.age";
  cd_title := "No container image older than 180 days";
  cd_category := Category.Patching;
  cd_severity := Severity.Low;
  cd_reference := "https://docs.docker.com/build/building/best-practices/#rebuild-your-images-often";
  cd_remediation := "Rebuild or re-pull old images: even a pinned tag needs its base layers refreshed to receive security fixes." |}.
Definition DEFS : list CheckDef := [SECURITY_UPDATES; UPDATES; REBOOT; SELINUX; CONTAINER_UPDATES; CONTAINER_AGE].

Definition MAX_IMAGE_AGE_DAYS : f64 := f64_of_Z 180.
Definition count (facts : Facts) (d : CheckDef) (metric noun missing : string) : Check :=
  match max_of metric facts with
  | None => unknown d missing
  | Some n => if f64_le n f64_zero then pass d "None" else fail_ d (plural n noun)
  end.
Definition container_updates (facts : Facts) : Check :=
  if forallb (fun f => below f64_zero (f_value f)) (all_of "container_update_available" facts)
  then unknown CONTAINER_UPDATES "Image update check disabled or unavailable."
  else match names_where "container_update_available" "container" positive_value facts with
       | [] => pass CONTAINER_UPDATES "No newer image found"
       | outdated => fail_ CONTAINER_UPDATES ("Newer image available: " +:+ list_names outdated)
       end.
Definition container_age (facts : Facts) : Check :=
  match names_where "container_image_age_seconds" "container" (above (f64_mul MAX_IMAGE_AGE_DAYS (f64_of_Z 86400))) facts with
  | [] => pass CONTAINER_AGE "Every image is younger than 180 days"
  | old => fail_ CONTAINER_AGE (list_names old)
  end.
Definition evaluate_agent (facts : Facts) : list Check :=
  [count facts SECURITY_UPDATES "agent_security_updates_pending" "security update"
     "Not reported: this package manager does not tell security updates apart.";
   count facts UPDATES "agent_updates_pending" "update" "Not reported by the agent.";
   match max_of "agent_reboot_required" facts with
   | None => unknown REBOOT "Not reported by the agent."
   | Some r => verdict REBOOT (f64_eq r f64_zero) (if f64_eq r f64_zero then "No" else "Reboot required")
   end;
   match max_of "agent_selinux_mode" facts with
   | None => unknown SELINUX "SELinux not present (or not reported) on this machine."
   | Some mode =>
       let whole := f64_whole i64_min i64_max mode in
       verdict SELINUX (f64_ge mode f64_two)
         (if whole =? 2 then "Enforcing"
          else if whole =? 1 then "Permissive: denials are logged, not enforced"
          else "Disabled")
   end] ++
  (if has "container_update_available" facts then [container_updates facts] else []) ++
  (if has "container_image_age_seconds" facts then [container_age facts] else []).
Definition Agent : SecurityProvider := {|
  kinds := ["agent"];
  metrics := ["agent_security_updates_pending"; "agent_updates_pending"; "agent_reboot_required"; "agent_selinux_mode"; "container_update_available"; "container_image_age_seconds"];
  evaluate := fun _ facts => evaluate_agent facts;
  applies := fun _ => true |}.
End agent.
