(* ===== verification/SecurityProviders.v ===== *)
(** * The checks of services, and all the providers ([security/checks/])

    One Module per file: TLS monitors, time servers, web servers, the products known by their updates only, Active
    Directory, GitLab and Forgejo; then [providers] of [security/mod.rs]. *)
From Stdlib Require Import Ascii.
From Stdlib Require String.
From S2P Require Import Prelude Text Float64 Decimal Tsdb Chrono Wire Security SecurityChecks.

Module tls.
Definition EXPIRY : CheckDef := {|
  cd_id := "tls.expiry";
  cd_title := "Certificate valid for 14+ days";
  cd_category := Category.Encryption;
  cd_severity := Severity.High;
  cd_reference := "https://letsencrypt.org/docs/integration-guide/";
  cd_remediation := "Renew the certificate and automate renewal (ACME). Renew at two thirds of the lifetime, as Let's Encrypt recommends, so a failed renewal leaves time to react." |}.
Definition TRUSTED : CheckDef := {|
  cd_id := "tls.trusted";
  cd_title := "Certificate chain trusted";
  cd_category := Category.Encryption;
  cd_severity := Severity.High;
  cd_reference := "https://wiki.mozilla.org/Security/Server_Side_TLS";
  cd_remediation := "Serve a certificate issued by a public or internally trusted authority, with the full intermediate chain. Self-signed certificates teach users to click through warnings." |}.
Definition TLS13 : CheckDef := {|
  cd_id := "tls.version";
  cd_title := "TLS 1.3 negotiated";
  cd_category := Category.Encryption;
  cd_severity := Severity.Low;
  cd_reference := "https://csrc.nist.gov/pubs/sp/800/52/r2/final";
  cd_remediation := ("Enable TLS 1.3 on the server (NIST SP 800-52r2 requires support for it; Mozilla's " +:+ quote +:+ "intermediate" +:+ quote +:+ " profile offers TLS 1.2 and 1.3).")%string |}.
Definition DEFS : list CheckDef := [EXPIRY; TRUSTED; TLS13].

Definition expiry `{FloatDisplay} (facts : Facts) : Check :=
  match min_of "probe_ssl_cert_expiry_days" facts with
  | None => unknown EXPIRY "No certificate observed."
  | Some days =>
      if f64_le days f64_zero then fail_ EXPIRY "The certificate has expired"
      else verdict EXPIRY (f64_gt days (f64_of_Z 14)) ("Expires in " +:+ display_f64 (f64_floor days) +:+ " days")
  end.
Definition trusted (facts : Facts) : Check :=
  match min_of "probe_ssl_cert_valid" facts with
  | None => unknown TRUSTED "No certificate observed."
  | Some valid =>
      verdict TRUSTED (f64_ge valid f64_one)
        (if f64_ge valid f64_one then "Chain verified against known authorities"
         else "Untrusted chain (self-signed, unknown authority or name mismatch)")
  end.
(** The version the first series tells. *)
Definition version (facts : Facts) : Check :=
  match head (all_of "probe_tls_version_info" facts) with
  | None => unknown TLS13 "Negotiated version not observed."
  | Some f => verdict TLS13 (bool_decide (label f "version" = "TLSv1.3")) ("Negotiated " +:+ label f "version")
  end.
Definition TlsMonitor `{FloatDisplay} : SecurityProvider := {|
  kinds := ["tls"; "http"; "smtp"; "mqtt"; "websocket"];
  metrics := ["probe_ssl_cert_expiry_days"; "probe_ssl_cert_valid"; "probe_tls_version_info"];
  evaluate := fun _ facts => [expiry facts; trusted facts; version facts];
  applies := fun facts => match facts with [] => false | _ => true end |}.
End tls.

Module ntp.
Definition SYNCHRONIZED : CheckDef := {|
  cd_id := "ntp.synchronized";
  cd_title := "Server reports a synchronized clock";
  cd_category := Category.Configuration;
  cd_severity := Severity.Medium;
  cd_reference := "https://www.rfc-editor.org/rfc/rfc5905";
  cd_remediation := "Fix the server's own time source: point it at a reachable upstream, or give it time to finish its own synchronization. A stratum 16 (or a kiss-o'-death) server has nothing to offer the clients that query it." |}.
Definition OFFSET : CheckDef := {|
  cd_id := "ntp.offset";
  cd_title := "Clock offset within 100 ms";
  cd_category := Category.Configuration;
  cd_severity := Severity.Low;
  cd_reference := "https://www.rfc-editor.org/rfc/rfc5905";
  cd_remediation := "Check the server's own upstream sources and polling interval: a persistent drift usually means it lost its reference and is coasting on its local clock." |}.
Definition DEFS : list CheckDef := [SYNCHRONIZED; OFFSET].

(** 0.1 *)
Definition OFFSET_THRESHOLD_S : f64 := S754_finite false 7205759403792794 (-56).
Definition synchronized (facts : Facts) : Check :=
  match max_of "probe_ntp_stratum" facts, max_of "probe_ntp_leap_indicator" facts with
  | None, None => unknown SYNCHRONIZED "No reply observed."
  | stratum, leap =>
      let unsynchronized := is_some_and stratum (fun s => f64_le s f64_zero || f64_ge s (f64_of_Z 16)) ||
                            is_some_and leap (fun l => f64_ge l (f64_of_Z 3)) in
      verdict SYNCHRONIZED (negb unsynchronized)
        (match stratum with
         | Some value => "Stratum " +:+ display_i64 (f64_whole i64_min i64_max value)
         | None => "Leap indicator unsynchronized, no stratum observed"
         end)
  end.
Definition offset `{FloatDisplay} (facts : Facts) : Check :=
  match max_of "probe_ntp_offset_seconds" facts with
  | None => unknown OFFSET "No offset observed."
  | Some value =>
      verdict OFFSET (f64_le (f64_abs value) OFFSET_THRESHOLD_S)
        ("Offset " +:+ display_fixed1 (f64_mul value (f64_of_Z 1000)) +:+ " ms")
  end.
Definition Ntp `{FloatDisplay} : SecurityProvider := {|
  kinds := ["ntp"];
  metrics := ["probe_ntp_stratum"; "probe_ntp_leap_indicator"; "probe_ntp_offset_seconds"];
  evaluate := fun _ facts => [synchronized facts; offset facts];
  applies := fun facts => match facts with [] => false | _ => true end |}.
End ntp.

Module webserver.
Definition NGINX_VERSION_HIDDEN : CheckDef := {|
  cd_id := "nginx.version_hidden";
  cd_title := "Server header does not disclose the version";
  cd_category := Category.Exposure;
  cd_severity := Severity.Low;
  cd_reference := "https://nginx.org/en/docs/http/ngx_http_core_module.html#server_tokens";
  cd_remediation := ("Add " +:+ quote +:+ "server_tokens off;" +:+ quote +:+ " to the http block and reload Nginx. The header still names the product, just not the version an attacker could match to a known CVE.")%string |}.
Definition APACHE_VERSION_HIDDEN : CheckDef := {|
  cd_id := "apache.version_hidden";
  cd_title := "Server header does not disclose the version";
  cd_category := Category.Exposure;
  cd_severity := Severity.Low;
  cd_reference := "https://httpd.apache.org/docs/2.4/mod/core.html#servertokens";
  cd_remediation := ("Set " +:+ quote +:+ "ServerTokens Prod" +:+ quote +:+ " (and " +:+ quote +:+ "ServerSignature Off" +:+ quote +:+ " for error pages) in the main configuration and reload Apache.")%string |}.
Definition DEFS : list CheckDef := [NGINX_VERSION_HIDDEN; APACHE_VERSION_HIDDEN].

Fixpoint has_digit (s : string) : bool :=
  match s with String a rest => is_ascii_digit a || has_digit rest | EmptyString => false end.
Definition version_check (d : CheckDef) (facts : Facts) (seen_metric version_metric lab : string) : Check :=
  match (fun f => label f lab) <$> head (all_of version_metric facts) with
  | Some value =>
      if has_digit value then fail_ d ("Server header discloses a version (" +:+ quote +:+ value +:+ quote +:+ ")")
      else pass d ("Server header names the product only (" +:+ quote +:+ value +:+ quote +:+ ")")
  | None => if has seen_metric facts then pass d "No Server header observed" else unknown d "No probe observed yet."
  end.
Definition Nginx : SecurityProvider := {|
  kinds := ["nginx"];
  metrics := ["nginx_connections_active"; "nginx_version_info"];
  evaluate := fun _ facts => [version_check NGINX_VERSION_HIDDEN facts "nginx_connections_active" "nginx_version_info" "server"];
  applies := fun facts => match facts with [] => false | _ => true end |}.
Definition Apache : SecurityProvider := {|
  kinds := ["apache"];
  metrics := ["apache_workers_busy"; "apache_version_info"];
  evaluate := fun _ facts => [version_check APACHE_VERSION_HIDDEN facts "apache_workers_busy" "apache_version_info" "version"];
  applies := fun facts => match facts with [] => false | _ => true end |}.
End webserver.

Module updates.
Definition FORTIGATE_FIRMWARE : CheckDef := {|
  cd_id := "fortigate.firmware";
  cd_title := "FortiOS patch installed";
  cd_category := Category.Patching;
  cd_severity := Severity.Critical;
  cd_reference := "https://docs.fortinet.com/upgrade-tool";
  cd_remediation := "Install the latest patch of your FortiOS branch (System > Firmware), following Fortinet's upgrade path. FortiOS flaws are actively exploited within days of disclosure." |}.
Definition FORTIGATE_LICENSE : CheckDef := {|
  cd_id := "fortigate.license";
  cd_title := "FortiGuard licences valid";
  cd_category := Category.Configuration;
  cd_severity := Severity.High;
  cd_reference := "https://docs.fortinet.com/product/fortigate";
  cd_remediation := "Renew the expired FortiGuard services: without them IPS, antivirus and web filtering signatures stop updating." |}.
Definition MIKROTIK_ROUTEROS : CheckDef := {|
  cd_id := "mikrotik.routeros";
  cd_title := "RouterOS up to date";
  cd_category := Category.Patching;
  cd_severity := Severity.High;
  cd_reference := "https://help.mikrotik.com/docs/spaces/ROS/pages/328142/Upgrading+and+installation";
  cd_remediation := "Install the latest RouterOS of your channel (System > Packages > Check For Updates)." |}.
Definition MIKROTIK_ROUTERBOOT : CheckDef := {|
  cd_id := "mikrotik.routerboot";
  cd_title := "RouterBOOT firmware matches RouterOS";
  cd_category := Category.Patching;
  cd_severity := Severity.Low;
  cd_reference := "https://help.mikrotik.com/docs/spaces/ROS/pages/328142/Upgrading+and+installation";
  cd_remediation := "Run System > RouterBOARD > Upgrade, then reboot, so the bootloader matches RouterOS." |}.
Definition HOMEASSISTANT : CheckDef := {|
  cd_id := "homeassistant.updates";
  cd_title := "Home Assistant components up to date";
  cd_category := Category.Patching;
  cd_severity := Severity.Medium;
  cd_reference := "https://www.home-assistant.io/docs/configuration/securing/";
  cd_remediation := "Install the pending updates (Settings > Updates) after reading the release notes." |}.
Definition NEXTCLOUD : CheckDef := {|
  cd_id := "nextcloud.server";
  cd_title := "Nextcloud server up to date";
  cd_category := Category.Patching;
  cd_severity := Severity.High;
  cd_reference := "https://docs.nextcloud.com/server/latest/admin_manual/maintenance/upgrade.html";
  cd_remediation := "Upgrade Nextcloud with the updater (or your container image) to the latest maintenance release." |}.
Definition NEXTCLOUD_APPS : CheckDef := {|
  cd_id := "nextcloud.apps";
  cd_title := "Nextcloud apps up to date";
  cd_category := Category.Patching;
  cd_severity := Severity.Medium;
  cd_reference := "https://docs.nextcloud.com/server/latest/admin_manual/installation/harden_server.html";
  cd_remediation := "Update the apps (Apps > Updates, or `occ app:update --all`)." |}.
Definition ADGUARD : CheckDef := {|
  cd_id := "adguard.version";
  cd_title := "AdGuard Home up to date";
  cd_category := Category.Patching;
  cd_severity := Severity.Medium;
  cd_reference := "https://github.com/AdguardTeam/AdGuardHome/wiki/Getting-Started#update";
  cd_remediation := "Update AdGuard Home (the Update button in the web interface, or a newer image)." |}.
Definition PIHOLE : CheckDef := {|
  cd_id := "pihole.version";
  cd_title := "Pi-hole up to date";
  cd_category := Category.Patching;
  cd_severity := Severity.Medium;
  cd_reference := "https://docs.pi-hole.net/main/update/";
  cd_remediation := "Run `pihole -up` (or pull the newer container image)." |}.
Definition PLEX : CheckDef := {|
  cd_id := "plex.version";
  cd_title := "Plex Media Server up to date";
  cd_category := Category.Patching;
  cd_severity := Severity.Medium;
  cd_reference := "https://support.plex.tv/articles/200289506-updating-plex-media-server/";
  cd_remediation := "Update Plex Media Server (Settings > General, or a newer image)." |}.
Definition PAPERLESS : CheckDef := {|
  cd_id := "paperless.version";
  cd_title := "Paperless-ngx up to date";
  cd_category := Category.Patching;
  cd_severity := Severity.Medium;
  cd_reference := "https://docs.paperless-ngx.com/setup/#updating";
  cd_remediation := "Pull the newer Paperless-ngx image and restart the stack." |}.
Definition TAILSCALE : CheckDef := {|
  cd_id := "tailscale.clients";
  cd_title := "Tailscale clients up to date";
  cd_category := Category.Patching;
  cd_severity := Severity.Medium;
  cd_reference := "https://tailscale.com/kb/1067/update";
  cd_remediation := "Update the listed devices, or enable auto-updates (`tailscale set --auto-update`)." |}.
Definition DEFS : list CheckDef := [FORTIGATE_FIRMWARE; FORTIGATE_LICENSE; MIKROTIK_ROUTEROS; MIKROTIK_ROUTERBOOT; HOMEASSISTANT; NEXTCLOUD; NEXTCLOUD_APPS; ADGUARD; PIHOLE; PLEX; PAPERLESS; TAILSCALE].

Record Row := { row_kind : string; row_def : CheckDef; row_metric : string; row_noun : string }.
Definition ROWS : list Row :=
  [{| row_kind := "fortigate"; row_def := FORTIGATE_FIRMWARE; row_metric := "fortigate_firmware_update_available"; row_noun := "" |};
   {| row_kind := "fortigate"; row_def := FORTIGATE_LICENSE; row_metric := "fortigate_license_expired"; row_noun := "expired licence" |};
   {| row_kind := "mikrotik"; row_def := MIKROTIK_ROUTEROS; row_metric := "mikrotik_update_available"; row_noun := "" |};
   {| row_kind := "mikrotik"; row_def := MIKROTIK_ROUTERBOOT; row_metric := "mikrotik_firmware_upgrade_pending"; row_noun := "" |};
   {| row_kind := "homeassistant"; row_def := HOMEASSISTANT; row_metric := "homeassistant_updates_available"; row_noun := "update" |};
   {| row_kind := "nextcloud"; row_def := NEXTCLOUD; row_metric := "nextcloud_update_available"; row_noun := "" |};
   {| row_kind := "nextcloud"; row_def := NEXTCLOUD_APPS; row_metric := "nextcloud_app_updates_available"; row_noun := "app update" |};
   {| row_kind := "adguard"; row_def := ADGUARD; row_metric := "adguard_update_available"; row_noun := "" |};
   {| row_kind := "pihole"; row_def := PIHOLE; row_metric := "pihole_updates_available"; row_noun := "component update" |};
   {| row_kind := "plex"; row_def := PLEX; row_metric := "plex_update_available"; row_noun := "" |};
   {| row_kind := "paperless"; row_def := PAPERLESS; row_metric := "paperless_update_available"; row_noun := "" |};
   {| row_kind := "tailscale"; row_def := TAILSCALE; row_metric := "tailscale_devices_update_available"; row_noun := "device" |}].
Definition evaluate_row (facts : Facts) (row : Row) : Check :=
  match max_of (row_metric row) facts with
  | None => unknown (row_def row) "Not collected yet."
  | Some value =>
      if f64_le value f64_zero then pass (row_def row) "Up to date"
      else if bool_decide (row_noun row = "") then fail_ (row_def row) "An update is available"
      else fail_ (row_def row) (plural value (row_noun row))
  end.
Definition evaluate_kind (kind : string) (facts : Facts) : list Check :=
  evaluate_row facts <$> filter (fun row => row_kind row = kind) ROWS.
Definition VendorUpdates : SecurityProvider := {|
  kinds := ["fortigate"; "mikrotik"; "homeassistant"; "nextcloud"; "adguard"; "pihole"; "plex"; "paperless"; "tailscale"];
  metrics := ["fortigate_firmware_update_available"; "fortigate_license_expired"; "mikrotik_update_available"; "mikrotik_firmware_upgrade_pending"; "homeassistant_updates_available"; "nextcloud_update_available"; "nextcloud_app_updates_available"; "adguard_update_available"; "pihole_updates_available"; "plex_update_available"; "paperless_update_available"; "tailscale_devices_update_available"];
  evaluate := evaluate_kind;
  applies := fun _ => true |}.
End updates.

Module activedirectory.

Definition METRIC : string := "ad_finding_count".
Definition finding (id title : string) (category : Category) (severity : Severity) (reference remediation : string) : CheckDef :=
  {| cd_id := id; cd_title := title; cd_category := category; cd_severity := severity; cd_reference := reference;
     cd_remediation := remediation |}.
Definition PINGCASTLE_RULES : string := "https://www.pingcastle.com/PingCastleFiles/ad_hc_rules_list.html".
Definition CATALOGUE : list CheckDef :=
  [finding "ad.kerberoastable_users" "No Kerberoastable user accounts" Category.Authentication Severity.High
     PINGCASTLE_RULES
     "Remove service principal names from user accounts, or move the services to group managed service accounts (gMSA) with random 120-character passwords.";
   finding "ad.asrep_roastable_users" "Kerberos pre-authentication required for every account" Category.Authentication Severity.High
     PINGCASTLE_RULES
     ("Clear " +:+ quote +:+ "Do not require Kerberos preauthentication" +:+ quote +:+ " on the listed accounts.")%string;
   finding "ad.unconstrained_delegation" "No unconstrained Kerberos delegation" Category.Authentication Severity.Critical
     "https://learn.microsoft.com/en-us/defender-for-identity/security-assessment-unconstrained-kerberos"
     "Replace unconstrained delegation with constrained or resource-based constrained delegation on the listed computers and accounts (domain controllers excepted).";
   finding "ad.krbtgt_password_age" "krbtgt password changed in the last 180 days" Category.Authentication Severity.High
     "https://learn.microsoft.com/en-us/windows-server/identity/ad-ds/manage/forest-recovery-guide/ad-forest-recovery-resetting-the-krbtgt-password"
     "Reset the krbtgt password twice, waiting for replication (and the ticket lifetime) between the two resets.";
   finding "ad.privileged_group_size" "Privileged groups kept small" Category.Authentication Severity.Medium
     "https://learn.microsoft.com/en-us/windows-server/identity/ad-ds/plan/security-best-practices/implementing-least-privilege-administrative-models"
     "Remove day-to-day accounts from Domain Admins, Enterprise Admins and Administrators; use dedicated admin accounts and delegation instead.";
   finding "ad.laps_coverage" "Local administrator passwords managed by LAPS" Category.Authentication Severity.High
     "https://learn.microsoft.com/en-us/windows-server/identity/laps/laps-overview"
     "Deploy Windows LAPS to every workstation and member server so no two machines share a local administrator password.";
   finding "ad.password_policy" "Domain password policy meets the baseline" Category.Authentication Severity.Medium
     "https://learn.microsoft.com/en-us/microsoft-365/admin/misc/password-policy-recommendations"
     "Require at least 14 characters, enable lockout, and use fine-grained password policies for privileged accounts.";
   finding "ad.stale_accounts" "No stale enabled accounts" Category.Authentication Severity.Medium
     PINGCASTLE_RULES
     "Disable, then delete, user and computer accounts that have not logged on for months."].
Definition DEFS : list CheckDef := CATALOGUE.

Record AdFinding := {
  ad_id : string;
  ad_severity : string;
  ad_title : string;
  ad_count : f64;
  ad_samples : list string;
}.
Definition parse_severity (raw : string) : option Severity :=
  let s := to_ascii_lowercase (trim raw) in
  if bool_decide (s = "critical") then Some Severity.Critical
  else if bool_decide (s = "high") then Some Severity.High
  else if bool_decide (s = "medium" \/ s = "warning") then Some Severity.Medium
  else if bool_decide (s = "low" \/ s = "info" \/ s = "advisory") then Some Severity.Low
  else None.
Definition catalogue_id (d : CheckDef) : string := strip_prefix "ad." (cd_id d) ?? cd_id d.
Definition evidence (f : AdFinding) : string :=
  if f64_le (ad_count f) f64_zero then "None found"%string
  else
    let count := plural (ad_count f) "object" in
    match ad_samples f with
    | [] => count
    | samples => (count +:+ ": " +:+ list_names samples)%string
    end.
(** The severity observed comes before the one of the catalogue. *)
Definition with_severity (c : Check) (s : Severity) : Check :=
  {| ck_id := ck_id c; ck_title := ck_title c; ck_category := ck_category c; ck_severity := s;
     ck_weight := Severity.weight s; ck_result := ck_result c; ck_evidence := ck_evidence c;
     ck_remediation := ck_remediation c; ck_reference := ck_reference c |}.
Definition finding_check (f : AdFinding) : Check :=
  let ok := f64_le (ad_count f) f64_zero in
  match find_map (fun d => if bool_decide (catalogue_id d = ad_id f) then Some d else None) CATALOGUE with
  | Some d =>
      let c := verdict d ok (evidence f) in
      match parse_severity (ad_severity f) with Some s => with_severity c s | None => c end
  | None =>
      let severity := parse_severity (ad_severity f) ?? Severity.Medium in
      {| ck_id := "ad." +:+ ad_id f; ck_title := if bool_decide (ad_title f = "") then ad_id f else ad_title f;
         ck_category := Category.Authentication; ck_severity := severity; ck_weight := Severity.weight severity;
         ck_result := if ok then Outcome.Pass else Outcome.Fail; ck_evidence := evidence f;
         ck_remediation := "See the Active Directory findings on this device for the affected objects.";
         ck_reference := PINGCASTLE_RULES |}
  end.
Definition checks_from_findings (findings : list AdFinding) : list Check :=
  (finding_check <$> findings) ++
  ((fun d => unknown d "Not reported by the Active Directory collector yet.") <$>
     filter (fun d => existsb (fun f => bool_decide (catalogue_id d = ad_id f)) findings = false) CATALOGUE).
Definition finding_of (f : Fact) : AdFinding :=
  {| ad_id := label f "finding"; ad_severity := label f "severity"; ad_title := label f "title"; ad_count := f_value f;
     ad_samples := [] |}.
Definition evaluate_findings (facts : Facts) : list Check :=
  checks_from_findings (finding_of <$> filter (fun f => label f "finding" <> ""%string) (all_of METRIC facts)).
Definition ActiveDirectory : SecurityProvider := {|
  kinds := ["activedirectory"];
  metrics := [METRIC];
  evaluate := fun _ facts => evaluate_findings facts;
  applies := fun _ => true |}.
End activedirectory.

Module gitlab.
Definition TWO_FACTOR_REQUIRED : CheckDef := {|
  cd_id := "gitlab.two_factor_required";
  cd_title := "Two-factor authentication required";
  cd_category := Category.Authentication;
  cd_severity := Severity.High;
  cd_reference := "https://docs.gitlab.com/ee/security/two_factor_authentication.html";
  cd_remediation := ("Enable " +:+ quote +:+ "Require all users to set up two-factor authentication" +:+ quote +:+ " in Admin area > Settings > General > Sign-up restrictions.")%string |}.
Definition SIGNUP_DISABLED : CheckDef := {|
  cd_id := "gitlab.signup_disabled";
  cd_title := "Public sign-up disabled";
  cd_category := Category.Exposure;
  cd_severity := Severity.Medium;
  cd_reference := "https://docs.gitlab.com/ee/administration/settings/sign_up_restrictions.html";
  cd_remediation := ("Turn off " +:+ quote +:+ "Sign-up enabled" +:+ quote +:+ " in Admin area > Settings > General > Sign-up restrictions unless this instance is meant to be open to the public.")%string |}.
Definition MIGRATIONS_PENDING : CheckDef := {|
  cd_id := "gitlab.migrations_pending";
  cd_title := "Database migrations applied";
  cd_category := Category.Patching;
  cd_severity := Severity.Medium;
  cd_reference := "https://docs.gitlab.com/ee/update/background_migrations.html";
  cd_remediation := "Run the pending migrations (gitlab-rake db:migrate, or restart the instance after an upgrade) before the next release is installed on top of them." |}.
Definition DEFS : list CheckDef := [TWO_FACTOR_REQUIRED; SIGNUP_DISABLED; MIGRATIONS_PENDING].

Definition two_factor (facts : Facts) : Check :=
  match max_of "gitlab_two_factor_required" facts with
  | None => unknown TWO_FACTOR_REQUIRED "Not collected (a non-administrator token skips it)."
  | Some value => verdict TWO_FACTOR_REQUIRED (f64_ge value f64_one) (if f64_ge value f64_one then "Required" else "Not required")
  end.
Definition signup (facts : Facts) : Check :=
  match max_of "gitlab_signup_enabled" facts with
  | None => unknown SIGNUP_DISABLED "Not collected (a non-administrator token skips it)."
  | Some value => verdict SIGNUP_DISABLED (f64_lt value f64_one) (if f64_ge value f64_one then "Enabled" else "Disabled")
  end.
Definition migrations (facts : Facts) : Check :=
  zero_everywhere MIGRATIONS_PENDING facts "gitlab_migrations_pending" "" "migration"
    "Not collected (a non-administrator token skips it).".
Definition Gitlab : SecurityProvider := {|
  kinds := ["gitlab"];
  metrics := ["gitlab_two_factor_required"; "gitlab_signup_enabled"; "gitlab_migrations_pending"];
  evaluate := fun _ facts => [two_factor facts; signup facts; migrations facts];
  applies := fun _ => true |}.
End gitlab.

Module forgejo.
Definition CRON_TASKS_RUNNING : CheckDef := {|
  cd_id := "forgejo.cron_tasks_running";
  cd_title := "Scheduled tasks run on time";
  cd_category := Category.Configuration;
  cd_severity := Severity.Medium;
  cd_reference := "https://forgejo.org/docs/latest/admin/config-cheat-sheet/#cron-cron";
  cd_remediation := "Check the Forgejo or Gitea process: a scheduled task (repository check, update checker, cleanup) stopped running at its own interval." |}.
Definition DEFS : list CheckDef := [CRON_TASKS_RUNNING].

Definition evaluate_forgejo (facts : Facts) : list Check :=
  [zero_everywhere CRON_TASKS_RUNNING facts "forgejo_cron_task_overdue" "task" ""
     "Not collected (a non-administrator token skips it)."].
Definition Forgejo : SecurityProvider := {|
  kinds := ["forgejo"];
  metrics := ["forgejo_cron_task_overdue"];
  evaluate := fun _ facts => evaluate_forgejo facts;
  applies := fun _ => true |}.
End forgejo.

(** The static definitions. *)
Definition all_defs : list CheckDef :=
  proxmox.DEFS ++ pbs.DEFS ++ synology.DEFS ++ firewall.DEFS ++ unifi.DEFS ++ tls.DEFS ++ ntp.DEFS ++ webserver.DEFS ++
  agent.DEFS ++ updates.DEFS ++ activedirectory.DEFS ++ gitlab.DEFS ++ forgejo.DEFS.

Definition providers `{FloatDisplay} : list SecurityProvider :=
  [proxmox.Proxmox; pbs.Pbs; synology.Synology; firewall.Opnsense; firewall.Pfsense; unifi.Unifi; tls.TlsMonitor; ntp.Ntp;
   webserver.Nginx; webserver.Apache; agent.Agent; updates.VendorUpdates; activedirectory.ActiveDirectory; gitlab.Gitlab;
   forgejo.Forgejo].
