(* ===== verification/SecurityFacts.v ===== *)
(** * What holds of the security score

    The score is the weighted share of what passes, rounded; what is unknown is not counted; fixing a check never lowers it;
    the overview and the page of a device agree. *)
From Stdlib Require Import Ascii.
From Stdlib Require String.
From S2P Require Import Prelude Text Float64 Decimal Tsdb Chrono Wire Security SecurityChecks SecurityProviders.

(** ** Lists *)

Lemma filter_ext_elem {A} (P Q : A -> Prop) `{!∀ x, Decision (P x), !∀ x, Decision (Q x)} (l : list A) :
  (forall x, x ∈ l -> P x <-> Q x) -> filter P l = filter Q l.
Proof.
  induction l as [|x l IH]; [done|]. intros Hl. rewrite !filter_cons, IH by (intros y Hy; apply Hl; by right).
  assert (P x <-> Q x) as Hx by (apply Hl; left). repeat case_decide; tauto || done.
Qed.
Lemma fmap_inj_elem {A B} (f : A -> B) l x y : NoDup (f <$> l) -> x ∈ l -> y ∈ l -> f x = f y -> x = y.
Proof.
  induction l as [|z l IH]; [by intros _ ?%elem_of_nil|]. csimpl. intros [Hn Hd]%NoDup_cons Hx Hy E.
  apply elem_of_cons in Hx as [->|Hx], Hy as [->|Hy]; [done| | |by apply IH]; destruct Hn.
  - rewrite E. by apply list_elem_of_fmap_2.
  - rewrite <-E. by apply list_elem_of_fmap_2.
Qed.

(** ** The score *)

Lemma weight_of_perm o l k : l ≡ₚ k -> weight_of o l = weight_of o k.
Proof.
  unfold weight_of. intros Hp. induction Hp as [|c l k Hp IH|c d l|l1 l2 l3 Hp1 IH1 Hp2 IH2].
  - done.
  - rewrite !filter_cons. case_decide; csimpl; lia.
  - rewrite !filter_cons. repeat case_decide; csimpl; lia.
  - congruence.
Qed.
Lemma weight_of_app o l k : weight_of o (l ++ k) = weight_of o l + weight_of o k.
Proof.
  unfold weight_of. rewrite filter_app, fmap_app. induction (ck_weight <$> filter _ l) as [|w l' IH]; csimpl; lia.
Qed.
Lemma weight_of_none o l : Forall (fun c => ck_result c <> o) l -> weight_of o l = 0.
Proof.
  unfold weight_of. induction 1 as [|c l Hc _ IH]; [done|]. by rewrite filter_cons, decide_False.
Qed.
Lemma critical_failed_perm l k : l ≡ₚ k -> critical_failed l = critical_failed k.
Proof.
  intros Hp. apply eq_true_iff_eq. unfold critical_failed. rewrite !existsb_elem.
  split; intros (c & Hc & ?); exists c; split; [rewrite <-Hp|done|rewrite Hp|done]; done.
Qed.
Lemma score_checks_perm l k : l ≡ₚ k -> score_checks l = score_checks k.
Proof.
  intros Hp. unfold score_checks. by rewrite !(weight_of_perm _ _ _ Hp), (critical_failed_perm _ _ Hp).
Qed.

(** Rounded to the nearest, halves up. *)
Definition exact_share (passed evaluated : Z) : Z := (200 * passed + evaluated) / (2 * evaluated).
Lemma share_table :
  forallb (fun e => forallb (fun p => share p e =? exact_share p e) (seqZ 0 (e + 1))) (seqZ 1 60) = true.
Proof. vm_compute. reflexivity. Qed.
Lemma share_exact p e : 0 < e <= 60 -> 0 <= p <= e -> share p e = exact_share p e.
Proof.
  intros He Hp. assert (e ∈ seqZ 1 60) as Hin by (apply elem_of_seqZ; lia).
  pose proof (proj1 (forallb_elem _ _) share_table e Hin) as Hrow. cbv beta in Hrow.
  apply Z.eqb_eq. apply (proj1 (forallb_elem _ _) Hrow). apply elem_of_seqZ. lia.
Qed.
Lemma exact_share_mono p e p' e' : 0 < e -> 0 < e' -> p * e' <= p' * e -> exact_share p e <= exact_share p' e'.
Proof.
  intros He He' Hp. unfold exact_share. apply Z.div_le_lower_bound; [lia|].
  pose proof (Z.mul_div_le (200 * p + e) (2 * e) ltac:(lia)) as Hq. set (q := (200 * p + e) / (2 * e)) in *. nia.
Qed.
Lemma exact_share_bounds p e : 0 < e -> 0 <= p <= e -> 0 <= exact_share p e <= 100.
Proof.
  intros He Hp. unfold exact_share. split; [apply Z.div_pos; lia|].
  apply Z.lt_succ_r, Z.div_lt_upper_bound; lia.
Qed.

(** The weight of a check is the one of its severity. *)
Definition sound (c : Check) : Prop := ck_weight c = Severity.weight (ck_severity c).
Definition total_weight (checks : list Check) : Z := foldr Z.add 0 (ck_weight <$> checks).

Lemma sound_positive c : sound c -> 1 <= ck_weight c <= 10.
Proof. unfold sound. intros ->. by destruct (ck_severity c). Qed.
Lemma weight_of_bounds o checks : Forall sound checks -> 0 <= weight_of o checks <= total_weight checks.
Proof.
  unfold weight_of, total_weight. induction 1 as [|c l Hc%sound_positive _ IH]; [done|].
  rewrite filter_cons. case_decide; csimpl; lia.
Qed.
Lemma evaluated_bound checks :
  Forall sound checks -> weight_of Outcome.Pass checks + weight_of Outcome.Fail checks <= total_weight checks.
Proof.
  unfold weight_of, total_weight. induction 1 as [|c l Hc%sound_positive _ IH]; [done|].
  rewrite !filter_cons. repeat case_decide; csimpl; try congruence; lia.
Qed.

Definition evaluated (checks : list Check) : Z := weight_of Outcome.Pass checks + weight_of Outcome.Fail checks.
(** What the score of checks is, in whole numbers. *)
Definition weighted_share (checks : list Check) : option Z :=
  if evaluated checks =? 0 then None else Some (exact_share (weight_of Outcome.Pass checks) (evaluated checks)).
Definition capped_grade (checks : list Check) (score : Z) : Grade :=
  if critical_failed checks then Grade.max (grade_for score) Grade.C else grade_for score.

Lemma score_checks_exact checks :
  Forall sound checks -> evaluated checks <= 60 ->
  so_score (score_checks checks) = weighted_share checks /\
  so_grade (score_checks checks) = capped_grade checks <$> weighted_share checks.
Proof.
  intros Hs He. pose proof (weight_of_bounds Outcome.Pass checks Hs) as Hp.
  pose proof (weight_of_bounds Outcome.Fail checks Hs) as Hf. unfold score_checks, weighted_share, evaluated in *.
  destruct (_ =? 0) eqn:E; [done|]. bools. by rewrite share_exact by lia.
Qed.
Lemma weighted_share_bounds checks s : Forall sound checks -> weighted_share checks = Some s -> 0 <= s <= 100.
Proof.
  intros Hs. pose proof (weight_of_bounds Outcome.Pass checks Hs). pose proof (weight_of_bounds Outcome.Fail checks Hs).
  unfold weighted_share, evaluated. destruct (_ =? 0) eqn:E; [done|]. bools. intros [= <-]. apply exact_share_bounds; lia.
Qed.

Lemma grade_for_mono s s' : s <= s' -> Grade.rank (grade_for s') <= Grade.rank (grade_for s).
Proof.
  intros Hs. unfold grade_for.
  repeat match goal with |- context [?a <=? ?b] => destruct (Z.leb_spec a b) end; cbn; lia.
Qed.
Lemma grade_max_rank g h : Grade.rank (Grade.max g h) = Z.max (Grade.rank g) (Grade.rank h).
Proof. unfold Grade.max. destruct (_ <? _) eqn:E; bools; lia. Qed.

(** A check that did not get worse. *)
Definition no_worse (c c' : Check) : Prop :=
  ck_severity c' = ck_severity c /\
  (ck_result c = ck_result c' \/ ck_result c = Outcome.Fail \/ ck_result c' = Outcome.Pass).
Lemma no_worse_weights cs cs' :
  Forall sound cs -> Forall sound cs' -> Forall2 no_worse cs cs' ->
  weight_of Outcome.Pass cs <= weight_of Outcome.Pass cs' /\ weight_of Outcome.Fail cs' <= weight_of Outcome.Fail cs.
Proof.
  unfold weight_of. intros H1 H2 Hw. revert H1 H2. induction Hw as [|c c' l l' [Es Hc] _ IH]; [done|].
  intros [Hs Hl]%Forall_cons [Hs' Hl']%Forall_cons. destruct (IH Hl Hl') as [IHp IHf].
  assert (ck_weight c' = ck_weight c) as Ew by by rewrite Hs, Hs', Es.
  pose proof (sound_positive c Hs). rewrite !filter_cons.
  destruct (ck_result c), (ck_result c'); repeat case_decide; csimpl; try (destruct Hc as [Hc|[Hc|Hc]]; discriminate); try congruence; lia.
Qed.
Lemma no_worse_critical cs cs' : Forall2 no_worse cs cs' -> critical_failed cs' = true -> critical_failed cs = true.
Proof.
  unfold critical_failed. induction 1 as [|c c' l l' [Es Hc] _ IH]; [done|]. cbn. rewrite !orb_true_iff, !andb_true_iff.
  intros [[Hr Hs]|Hl]; [left|right; by apply IH]. bools. rewrite !bool_decide_eq_true. split; [|congruence].
  destruct Hc as [Hc|[Hc|Hc]]; congruence.
Qed.

(** ** What the providers make *)

(** A check made of a definition, and a list of checks made of some of a list of definitions, in order. *)
Definition made_of (d : CheckDef) (c : Check) : Prop := exists o e, c = with_result d o e.
Definition drawn_from (ds : list CheckDef) (cs : list Check) : Prop := exists ds', ds' `sublist_of` ds /\ Forall2 made_of ds' cs.

Lemma made_with d o e : made_of d (with_result d o e).
Proof. by exists o, e. Qed.
Lemma made_pass d e : made_of d (pass d e).
Proof. apply made_with. Qed.
Lemma made_fail d e : made_of d (fail_ d e).
Proof. apply made_with. Qed.
Lemma made_unknown d e : made_of d (unknown d e).
Proof. apply made_with. Qed.
Lemma made_verdict d ok e : made_of d (verdict d ok e).
Proof. destruct ok; apply made_with. Qed.
Lemma made_if (b : bool) d c c' : made_of d c -> made_of d c' -> made_of d (if b then c else c').
Proof. by destruct b. Qed.
Lemma made_option {A} (o : option A) d c f : made_of d c -> (forall x, made_of d (f x)) -> made_of d (match o with None => c | Some x => f x end).
Proof. destruct o; auto. Qed.
Lemma made_list {A} (l : list A) d c f :
  made_of d c -> (forall x k, made_of d (f x k)) -> made_of d (match l with [] => c | x :: k => f x k end).
Proof. destruct l; auto. Qed.
Create HintDb checks.
#[local] Hint Resolve made_with made_pass made_fail made_unknown made_verdict made_if : checks.
Ltac made := cbv zeta; repeat (apply made_if || apply made_option || apply made_list || intro); auto with checks.

Lemma made_zero d facts metric lab noun missing : made_of d (zero_everywhere d facts metric lab noun missing).
Proof. unfold zero_everywhere. made. Qed.
#[local] Hint Resolve made_zero : checks.

Lemma drawn_all ds cs : Forall2 made_of ds cs -> drawn_from ds cs.
Proof. by exists ds. Qed.
Lemma drawn_nil : drawn_from [] [].
Proof. by exists []. Qed.
Lemma drawn_cons d ds c cs : made_of d c -> drawn_from ds cs -> drawn_from (d :: ds) (c :: cs).
Proof. intros Hc (ds' & Hs & Hf). exists (d :: ds'). split; [by apply sublist_skip|by constructor]. Qed.
Lemma drawn_if (b : bool) d ds c cs :
  made_of d c -> drawn_from ds cs -> drawn_from (d :: ds) ((if b then [c] else []) ++ cs).
Proof.
  intros Hc Hd. destruct b; [by apply drawn_cons|]. destruct Hd as (ds' & Hs & Hf). exists ds'. split; [by apply sublist_cons|done].
Qed.
Lemma drawn_skip d ds cs : drawn_from ds cs -> drawn_from (d :: ds) cs.
Proof. intros (ds' & Hs & Hf). exists ds'. split; [by apply sublist_cons|done]. Qed.
Lemma drawn_rows p facts rows :
  drawn_from (updates.row_def <$> rows) (updates.evaluate_row facts <$> filter (fun r => updates.row_kind r = p) rows).
Proof.
  induction rows as [|r rows IH]; [apply drawn_nil|]. rewrite filter_cons. csimpl. case_decide; csimpl.
  - apply drawn_cons; [|done]. unfold updates.evaluate_row. made.
  - by apply drawn_skip.
Qed.

Section made.
Context `{FloatDisplay}.

(** The lists of definitions of the files, but the one of Active Directory, whose findings are open. *)
Definition catalogues : list (list CheckDef) :=
  [proxmox.DEFS; pbs.DEFS; synology.DEFS; firewall.DEFS; unifi.DEFS; tls.DEFS; ntp.DEFS; webserver.DEFS; agent.DEFS;
   updates.DEFS; gitlab.DEFS; forgejo.DEFS].

Ltac member := by repeat (first [apply list_elem_of_here|apply list_elem_of_further]).
Ltac draw ds := exists ds; split; [member|];
  repeat (first [apply drawn_nil|apply drawn_cons; [|]|apply drawn_skip]).

Lemma proxmox_drawn facts : drawn_from proxmox.DEFS (proxmox.evaluate_proxmox facts).
Proof.
  apply drawn_all. repeat constructor; try apply made_zero;
    [unfold proxmox.repo_test|unfold proxmox.repo_health|unfold proxmox.subscription|unfold proxmox.certificate
    |unfold proxmox.backup_coverage|unfold proxmox.backup_jobs]; made.
Qed.
Lemma pbs_drawn facts : drawn_from pbs.DEFS (pbs.evaluate_pbs facts).
Proof.
  apply drawn_all. repeat constructor; try apply made_zero;
    [unfold pbs.restart|unfold pbs.jobs|unfold pbs.jobs|unfold pbs.offsite|unfold pbs.integrity|unfold pbs.certificate]; made.
Qed.
Lemma synology_drawn facts kind : drawn_from synology.DEFS (evaluate synology.Synology kind facts).
Proof.
  apply drawn_all. repeat constructor; [unfold synology.dsm_version|unfold synology.backup_configured|unfold synology.backup_result]; made.
Qed.
Lemma opnsense_drawn facts : drawn_from firewall.DEFS (firewall.evaluate_opnsense facts).
Proof.
  unfold firewall.evaluate_opnsense, firewall.DEFS.
  repeat (apply drawn_cons; [unfold firewall.firmware; made|]). apply drawn_skip, drawn_nil.
Qed.
Lemma pfsense_drawn facts : drawn_from firewall.DEFS (firewall.evaluate_pfsense facts).
Proof. do 4 apply drawn_skip. apply drawn_cons; [made|apply drawn_nil]. Qed.
Lemma tls_drawn facts kind : drawn_from tls.DEFS (evaluate tls.TlsMonitor kind facts).
Proof. apply drawn_all. repeat constructor; [unfold tls.expiry|unfold tls.trusted|unfold tls.version]; made. Qed.
Lemma ntp_drawn facts kind : drawn_from ntp.DEFS (evaluate ntp.Ntp kind facts).
Proof.
  apply drawn_all. repeat constructor; [unfold ntp.synchronized|unfold ntp.offset]; made.
Qed.
Lemma agent_drawn facts : drawn_from agent.DEFS (agent.evaluate_agent facts).
Proof.
  unfold agent.evaluate_agent, agent.DEFS. cbn [app].
  repeat (apply drawn_cons; [try unfold agent.count; made|]).
  apply drawn_if; [unfold agent.container_updates; made|]. rewrite <-(app_nil_r (if has "container_image_age_seconds" facts then _ else _)).
  apply drawn_if; [unfold agent.container_age; made|apply drawn_nil].
Qed.
Lemma gitlab_drawn facts kind : drawn_from gitlab.DEFS (evaluate gitlab.Gitlab kind facts).
Proof.
  apply drawn_all. repeat constructor; [unfold gitlab.two_factor|unfold gitlab.signup|apply made_zero]; made.
Qed.
Lemma version_check_drawn d facts a b lab : made_of d (webserver.version_check d facts a b lab).
Proof. unfold webserver.version_check. made. Qed.

Lemma providers_drawn p kind facts :
  p ∈ providers -> "activedirectory"%string ∉ kinds p -> exists ds, ds ∈ catalogues /\ drawn_from ds (evaluate p kind facts).
Proof.
  assert (forall ds cs, ds ∈ catalogues -> drawn_from ds cs -> exists ds, ds ∈ catalogues /\ drawn_from ds cs) as Hex by eauto.
  unfold providers. rewrite !elem_of_cons, elem_of_nil. intros Hp Ha.
  repeat destruct Hp as [->|Hp]; try done;
    [apply (Hex proxmox.DEFS); [member|apply proxmox_drawn]|apply (Hex pbs.DEFS); [member|apply pbs_drawn]
    |apply (Hex synology.DEFS); [member|apply (synology_drawn facts kind)]|apply (Hex firewall.DEFS); [member|apply opnsense_drawn]
    |apply (Hex firewall.DEFS); [member|apply pfsense_drawn]|apply (Hex unifi.DEFS); [member|apply drawn_cons, drawn_nil; apply made_zero]
    |apply (Hex tls.DEFS); [member|apply (tls_drawn facts kind)]|apply (Hex ntp.DEFS); [member|apply (ntp_drawn facts kind)]
    |apply (Hex webserver.DEFS); [member|apply drawn_cons, drawn_skip, drawn_nil; apply version_check_drawn]
    |apply (Hex webserver.DEFS); [member|apply drawn_skip, drawn_cons, drawn_nil; apply version_check_drawn]
    |apply (Hex agent.DEFS); [member|apply agent_drawn]|apply (Hex updates.DEFS); [member|apply (drawn_rows kind facts updates.ROWS)]
    |destruct Ha; member
    |apply (Hex gitlab.DEFS); [member|apply (gitlab_drawn facts kind)]
    |apply (Hex forgejo.DEFS); [member|apply drawn_cons, drawn_nil; apply made_zero]].
Qed.

Lemma made_sound d c : made_of d c -> sound c.
Proof. by intros (o & e & ->). Qed.
Lemma drawn_sound ds cs : drawn_from ds cs -> Forall sound cs.
Proof. intros (ds' & _ & Hf). induction Hf as [|d c ds' cs Hc _ IH]; constructor; [by eapply made_sound|done]. Qed.
Lemma findings_sound facts : Forall sound (activedirectory.evaluate_findings facts).
Proof.
  unfold activedirectory.evaluate_findings, activedirectory.checks_from_findings. apply Forall_app. split; apply Forall_fmap, Forall_true.
  - intros f. unfold compose, sound, activedirectory.finding_check. destruct (find_map _ _) as [d|]; [|done].
    destruct (activedirectory.parse_severity _); [done|]. unfold verdict. by case_match.
  - done.
Qed.
Lemma providers_sound p kind facts : p ∈ providers -> Forall sound (evaluate p kind facts).
Proof.
  intros Hp. destruct (decide ("activedirectory"%string ∈ kinds p)) as [Ha|Ha].
  - unfold providers in Hp. rewrite !elem_of_cons, elem_of_nil in Hp. repeat destruct Hp as [->|Hp]; try done;
      try (apply findings_sound); cbn in Ha; rewrite ?elem_of_cons, elem_of_nil in Ha; repeat destruct Ha as [Ha|Ha]; discriminate || done.
  - destruct (providers_drawn p kind facts Hp Ha) as (ds & _ & Hd). by eapply drawn_sound.
Qed.

(** ** The weights are small, the identifiers distinct *)

Definition total_of (ds : list CheckDef) : Z := foldr Z.add 0 ((fun d => Severity.weight (cd_severity d)) <$> ds).
Lemma catalogues_light : forallb (fun ds => total_of ds <=? 60) catalogues = true.
Proof. vm_compute. reflexivity. Qed.
Lemma sublist_total ds ds' : ds' `sublist_of` ds -> total_of ds' <= total_of ds.
Proof.
  unfold total_of. induction 1 as [|d l k _ IH|d l k _ IH]; [done|csimpl; lia|].
  csimpl. assert (1 <= Severity.weight (cd_severity d)) by by destruct (cd_severity d). lia.
Qed.
Lemma drawn_total ds cs : drawn_from ds cs -> total_weight cs <= total_of ds.
Proof.
  intros (ds' & Hs & Hf). etransitivity; [|by apply sublist_total].
  unfold total_weight, total_of. clear Hs. induction Hf as [|d c l k (o & e & ->) _ IH]; [done|]. csimpl. lia.
Qed.
Lemma providers_light p kind facts :
  p ∈ providers -> "activedirectory"%string ∉ kinds p -> total_weight (evaluate p kind facts) <= 60.
Proof.
  intros Hp Ha. destruct (providers_drawn p kind facts Hp Ha) as (ds & Hin & Hd). apply drawn_total in Hd.
  pose proof (proj1 (forallb_elem _ _) catalogues_light ds Hin) as Hl. cbv beta in Hl. bools. lia.
Qed.
Lemma catalogues_distinct : forallb (fun ds => bool_decide (NoDup (cd_id <$> ds))) catalogues = true.
Proof. vm_compute. reflexivity. Qed.
Lemma drawn_ids ds cs : drawn_from ds cs -> NoDup (cd_id <$> ds) -> NoDup (ck_id <$> cs).
Proof.
  intros (ds' & Hs & Hf) Hn. assert (ck_id <$> cs = cd_id <$> ds') as ->.
  { clear Hs. induction Hf as [|d c l k (o & e & ->) _ IH]; [done|]. csimpl. by rewrite IH. }
  eapply sublist_NoDup; [exact Hn|]. by apply fmap_sublist.
Qed.
Lemma providers_ids p kind facts :
  p ∈ providers -> "activedirectory"%string ∉ kinds p -> NoDup (ck_id <$> evaluate p kind facts).
Proof.
  intros Hp Ha. destruct (providers_drawn p kind facts Hp Ha) as (ds & Hin & Hd). eapply drawn_ids; [exact Hd|].
  pose proof (proj1 (forallb_elem _ _) catalogues_distinct ds Hin) as Hl. cbv beta in Hl. by bools.
Qed.

(** ** Reports *)

Lemma provider_for_Some ps kind p : provider_for ps kind = Some p -> p ∈ ps /\ kind ∈ kinds p.
Proof.
  intros (l & q & k & -> & Hq & _)%find_map_Some. case_bool_decide; [|done]. injection Hq as ->.
  split; [|done]. apply elem_of_app. right. left.
Qed.
Lemma only_directories kind p :
  p ∈ providers -> kind ∈ kinds p -> kind <> "activedirectory"%string -> "activedirectory"%string ∉ kinds p.
Proof.
  unfold providers. rewrite !elem_of_cons, elem_of_nil. intros Hp Hk Hne.
  repeat destruct Hp as [->|Hp]; try done; try (apply (bool_decide_unpack _); vm_compute; exact I).
  by apply list_elem_of_singleton in Hk.
Qed.

Lemma sort_checks_perm cs : sort_checks cs ≡ₚ cs.
Proof. apply sort_by_perm. Qed.
Lemma counts_total cs : count_of Outcome.Pass cs + count_of Outcome.Fail cs + count_of Outcome.Unknown cs = Z.of_nat (length cs).
Proof.
  unfold count_of. induction cs as [|c cs IH]; [done|]. rewrite !filter_cons.
  destruct (ck_result c) eqn:E; repeat case_decide; try congruence; csimpl; lia.
Qed.

(** A report that is supported is the one of its provider. *)
Lemma build_report_supported now id name kind facts :
  let r := build_report providers now id name kind facts in
  rp_supported r = true ->
  exists p, p ∈ providers /\ kind ∈ kinds p /\ applies p facts = true /\ rp_checks r = sort_checks (evaluate p kind facts) /\
    rp_score r = so_score (score_checks (rp_checks r)) /\ rp_grade r = so_grade (score_checks (rp_checks r)) /\
    rp_counts r = {| n_pass := count_of Outcome.Pass (rp_checks r); n_fail := count_of Outcome.Fail (rp_checks r);
                     n_unknown := count_of Outcome.Unknown (rp_checks r) |}.
Proof.
  cbv zeta. unfold build_report. destruct (provider_for providers kind) as [p|] eqn:E; [|done].
  apply provider_for_Some in E as [Hp Hk]. cbn [option_filter]. destruct (applies p facts) eqn:Ea; [|done].
  intros _. by exists p.
Qed.

(** C29. The report of a device, Active Directory apart whose findings are open: its score is the weight of the checks that pass
    out of the weight of those that pass or fail, in hundredths rounded to the nearest, computed in floats without error; there
    is none when nothing could be evaluated, and what is unknown counts neither for nor against; the letter is the one of the
    score, no better than C when a critical check fails; every check is listed once, what fails first, and the counts add up. *)
Theorem report_is_the_weighted_share now id name kind facts :
  kind <> "activedirectory"%string ->
  let r := build_report providers now id name kind facts in
  rp_supported r = true ->
  rp_score r = weighted_share (rp_checks r) /\
  (forall s, rp_score r = Some s -> 0 <= s <= 100 /\ rp_grade r = Some (capped_grade (rp_checks r) s)) /\
  (forall g, rp_grade r = Some g -> critical_failed (rp_checks r) = true -> Grade.rank Grade.C <= Grade.rank g) /\
  NoDup (ck_id <$> rp_checks r) /\ StronglySorted (le_by check_cmp) (rp_checks r) /\
  n_pass (rp_counts r) + n_fail (rp_counts r) + n_unknown (rp_counts r) = Z.of_nat (length (rp_checks r)).
Proof.
  intros Hk r (p & Hp & Hkp & _ & Ec & Es & Eg & En)%build_report_supported. pose proof (only_directories kind p Hp Hkp Hk) as Ha.
  fold r in Ec, Es, Eg, En. clearbody r.
  assert (rp_checks r ≡ₚ evaluate p kind facts) as Hperm by (rewrite Ec; apply sort_checks_perm).
  assert (Forall sound (rp_checks r)) as Hs by (rewrite Hperm; by apply providers_sound).
  assert (evaluated (rp_checks r) <= 60) as He.
  { unfold evaluated. rewrite !(weight_of_perm _ _ _ Hperm). etransitivity; [|by apply (providers_light p kind facts)].
    apply evaluated_bound. by apply providers_sound. }
  destruct (score_checks_exact _ Hs He) as [E1 E2]. rewrite E1 in Es. rewrite E2 in Eg. rewrite En.
  split_and!; [done| | | | |apply counts_total].
  - intros s E. rewrite Eg, <-Es, E. split; [|done]. rewrite Es in E. by eapply weighted_share_bounds.
  - rewrite Eg. intros g (s & _ & ->)%fmap_Some Hc. unfold capped_grade. rewrite Hc, grade_max_rank. lia.
  - rewrite Hperm. by apply providers_ids.
  - rewrite Ec. apply sort_by_sorted. apply _.
Qed.

(** Fixing never costs: when, of the same checks, some that failed are no longer failing or some start to pass, neither the
    score nor the letter gets worse. *)
Theorem fixing_never_lowers_the_score cs cs' s s' :
  Forall sound cs -> Forall sound cs' -> evaluated cs <= 60 -> evaluated cs' <= 60 -> Forall2 no_worse cs cs' ->
  so_score (score_checks cs) = Some s -> so_score (score_checks cs') = Some s' ->
  s <= s' /\
  forall g g', so_grade (score_checks cs) = Some g -> so_grade (score_checks cs') = Some g' -> Grade.rank g' <= Grade.rank g.
Proof.
  intros H1 H2 He He' Hw. destruct (score_checks_exact cs H1 He) as [-> ->], (score_checks_exact cs' H2 He') as [-> ->].
  destruct (no_worse_weights cs cs' H1 H2 Hw) as [Hp Hf].
  pose proof (weight_of_bounds Outcome.Pass cs H1). pose proof (weight_of_bounds Outcome.Fail cs' H2).
  pose proof (weight_of_bounds Outcome.Fail cs H1). pose proof (weight_of_bounds Outcome.Pass cs' H2).
  unfold weighted_share. destruct (evaluated cs =? 0) eqn:E; [done|]. destruct (evaluated cs' =? 0) eqn:E'; [done|]. bools.
  intros [= <-] [= <-]. unfold evaluated in *.
  assert (exact_share (weight_of Outcome.Pass cs) (weight_of Outcome.Pass cs + weight_of Outcome.Fail cs) <=
          exact_share (weight_of Outcome.Pass cs') (weight_of Outcome.Pass cs' + weight_of Outcome.Fail cs')) as Hle
    by (apply exact_share_mono; nia).
  split; [done|]. cbn. intros g g' [= <-] [= <-]. apply grade_for_mono in Hle. unfold capped_grade.
  pose proof (no_worse_critical cs cs' Hw) as Hc.
  destruct (critical_failed cs'); [rewrite Hc by done; rewrite !grade_max_rank; lia|].
  destruct (critical_failed cs); rewrite ?grade_max_rank; lia.
Qed.

(** ** What a provider reads *)

Definition within (names : list string) (facts : Facts) : Facts := filter (fun f => f_name f ∈ names) facts.
Lemma all_of_within names m facts : m ∈ names -> all_of m (within names facts) = all_of m facts.
Proof.
  intros Hm. unfold all_of, within. rewrite list_filter_filter. apply list_filter_iff. intros f. split; [tauto|].
  intros <-. by split.
Qed.
Ltac read_names := apply (bool_decide_unpack _); vm_compute; exact I.
Ltac opened := unfold zero_everywhere, has, max_of, min_of, sum_of, names_where.
Ltac frame := opened; rewrite ?all_of_within by read_names; reflexivity.

(** A provider reads nothing but the metrics it names. *)
Lemma proxmox_reads facts : proxmox.evaluate_proxmox (within (metrics proxmox.Proxmox) facts) = proxmox.evaluate_proxmox facts.
Proof.
  unfold proxmox.evaluate_proxmox, proxmox.repo_test, proxmox.repo_health, proxmox.subscription, proxmox.certificate,
    proxmox.backup_coverage, proxmox.backup_jobs. frame.
Qed.
Lemma pbs_reads facts : pbs.evaluate_pbs (within (metrics pbs.Pbs) facts) = pbs.evaluate_pbs facts.
Proof. unfold pbs.evaluate_pbs, pbs.restart, pbs.jobs, pbs.offsite, pbs.integrity, pbs.certificate. frame. Qed.
Lemma synology_reads kind facts :
  evaluate synology.Synology kind (within (metrics synology.Synology) facts) = evaluate synology.Synology kind facts.
Proof. cbn [evaluate synology.Synology]. unfold synology.dsm_version, synology.backup_configured, synology.backup_result. frame. Qed.
Lemma opnsense_reads facts :
  firewall.evaluate_opnsense (within (metrics firewall.Opnsense) facts) = firewall.evaluate_opnsense facts.
Proof. unfold firewall.evaluate_opnsense, firewall.firmware. frame. Qed.
Lemma tls_reads kind facts : evaluate tls.TlsMonitor kind (within (metrics tls.TlsMonitor) facts) = evaluate tls.TlsMonitor kind facts.
Proof. cbn [evaluate tls.TlsMonitor]. unfold tls.expiry, tls.trusted, tls.version. frame. Qed.
Lemma ntp_reads kind facts : evaluate ntp.Ntp kind (within (metrics ntp.Ntp) facts) = evaluate ntp.Ntp kind facts.
Proof. cbn [evaluate ntp.Ntp]. unfold ntp.synchronized, ntp.offset. frame. Qed.
Lemma agent_reads facts : agent.evaluate_agent (within (metrics agent.Agent) facts) = agent.evaluate_agent facts.
Proof. unfold agent.evaluate_agent, agent.count, agent.container_updates, agent.container_age. frame. Qed.
Lemma gitlab_reads kind facts : evaluate gitlab.Gitlab kind (within (metrics gitlab.Gitlab) facts) = evaluate gitlab.Gitlab kind facts.
Proof. cbn [evaluate gitlab.Gitlab]. unfold gitlab.two_factor, gitlab.signup, gitlab.migrations. frame. Qed.
Lemma rows_named : forallb (fun r => bool_decide (updates.row_metric r ∈ metrics updates.VendorUpdates)) updates.ROWS = true.
Proof. vm_compute. reflexivity. Qed.
Lemma updates_reads kind facts :
  updates.evaluate_kind kind (within (metrics updates.VendorUpdates) facts) = updates.evaluate_kind kind facts.
Proof.
  unfold updates.evaluate_kind. apply list_fmap_ext. intros i r Hr%list_elem_of_lookup_2. apply list_elem_of_filter in Hr as [_ Hr].
  pose proof (proj1 (forallb_elem _ _) rows_named r Hr) as Hm. cbv beta in Hm. bools.
  unfold updates.evaluate_row, max_of. by rewrite all_of_within.
Qed.
Lemma webserver_reads names d facts a b lab : a ∈ names -> b ∈ names ->
  webserver.version_check d (within names facts) a b lab = webserver.version_check d facts a b lab.
Proof. intros Ha Hb. unfold webserver.version_check, has. by rewrite !all_of_within. Qed.

Lemma reads_its_metrics p kind facts : p ∈ providers -> evaluate p kind (within (metrics p) facts) = evaluate p kind facts.
Proof.
  unfold providers. rewrite !elem_of_cons, elem_of_nil. intros Hp. repeat destruct Hp as [->|Hp]; try done.
  - apply proxmox_reads.
  - apply pbs_reads.
  - apply synology_reads.
  - apply opnsense_reads.
  - cbn [evaluate firewall.Pfsense]. unfold firewall.evaluate_pfsense. frame.
  - cbn [evaluate unifi.Unifi]. unfold unifi.evaluate_unifi. frame.
  - apply tls_reads.
  - apply ntp_reads.
  - cbn [evaluate webserver.Nginx]. rewrite webserver_reads; [done|read_names..].
  - cbn [evaluate webserver.Apache]. rewrite webserver_reads; [done|read_names..].
  - apply agent_reads.
  - apply updates_reads.
  - cbn [evaluate activedirectory.ActiveDirectory]. unfold activedirectory.evaluate_findings. frame.
  - apply gitlab_reads.
  - cbn [evaluate forgejo.Forgejo]. unfold forgejo.evaluate_forgejo. frame.
Qed.

Lemma no_facts_within names facts : (forall f, f ∈ facts -> f_name f ∉ names) -> within names facts = [].
Proof.
  unfold within. intros Hn. apply filter_none. intros f Hf Hin. by apply (Hn f).
Qed.
Lemma rows_unknown kind rows :
  Forall (fun c => ck_result c = Outcome.Unknown) (updates.evaluate_row [] <$> filter (fun r => updates.row_kind r = kind) rows).
Proof. by apply Forall_fmap, Forall_true. Qed.
Lemma silent_provider p kind : p ∈ providers -> Forall (fun c => ck_result c = Outcome.Unknown) (evaluate p kind []).
Proof.
  unfold providers. rewrite !elem_of_cons, elem_of_nil. intros Hp. repeat destruct Hp as [->|Hp]; try done;
    try (repeat constructor; done). apply (rows_unknown kind updates.ROWS).
Qed.
Lemma known_score cs : score_checks (filter (fun c => ck_result c <> Outcome.Unknown) cs) = score_checks cs.
Proof.
  assert (forall o, o <> Outcome.Unknown -> weight_of o (filter (fun c => ck_result c <> Outcome.Unknown) cs) = weight_of o cs) as Hw.
  { intros o Ho. unfold weight_of. rewrite list_filter_filter. do 2 f_equal. apply list_filter_iff. intros c. split; [tauto|].
    intros Hc. by rewrite Hc. }
  assert (critical_failed (filter (fun c => ck_result c <> Outcome.Unknown) cs) = critical_failed cs) as Hc.
  { apply eq_true_iff_eq. unfold critical_failed. rewrite !existsb_elem. split.
    - intros (c & [_ Hc]%list_elem_of_filter & Hb). by exists c.
    - intros (c & Hc & Hb). exists c. split; [|done]. apply list_elem_of_filter. split; [|done]. bools. congruence. }
  unfold score_checks. by rewrite !Hw, Hc by done.
Qed.

(** C30. What is not known is not counted: a device none of whose metrics was collected has checks that are all unknown, no
    score, no letter and no score published; and the checks of any report that are unknown could as well not be there. *)
Theorem missing_data_is_never_counted now id name kind facts p :
  provider_for providers kind = Some p ->
  let r := build_report providers now id name kind facts in
  ((forall f, f ∈ facts -> f_name f ∉ metrics p) ->
   Forall (fun c => ck_result c = Outcome.Unknown) (rp_checks r) /\ rp_score r = None /\ rp_grade r = None /\
   forall ts s, s ∈ report_samples r ts -> metric s <> "security_score"%string) /\
  score_checks (filter (fun c => ck_result c <> Outcome.Unknown) (rp_checks r)) = score_checks (rp_checks r).
Proof.
  intros Ep r. split; [|apply known_score]. intros Hn.
  pose proof (provider_for_Some _ _ _ Ep) as [Hp _].
  assert (evaluate p kind facts = evaluate p kind []) as Ee by by rewrite <-(reads_its_metrics p kind facts Hp), no_facts_within.
  assert (Forall (fun c => ck_result c = Outcome.Unknown) (sort_checks (evaluate p kind facts))) as Hu
    by (rewrite sort_checks_perm, Ee; by apply silent_provider).
  assert (score_checks (sort_checks (evaluate p kind facts)) = {| so_score := None; so_grade := None; so_capped := false |}) as Es.
  { unfold score_checks. rewrite !weight_of_none; [done|..]; (eapply Forall_impl; [exact Hu|]; intros c ->; done). }
  unfold r, build_report. rewrite Ep. cbn [option_filter]. destruct (applies p facts);
    [|cbn; split_and!; [done..|]; by intros ts s ?%elem_of_nil].
  cbn. rewrite Es. split_and!; [done..|]. intros ts s. cbn. by intros ->%list_elem_of_singleton.
Qed.

(** ** The overview and the page of a device *)

(** The series of a store that carry one of the names, and the label of the device when there is one: what
    [last_over_time] selects with an anchored pattern of names and an equality. *)
Definition carries (names : list string) (s : InstantSeries) : bool :=
  match is_metric s !! "__name__"%string with
  | Some nm => existsb (fun n => bool_decide (nm = ("dumbmonit_" +:+ n)%string)) names
  | None => false
  end.
Definition of_device (target : option Z) (s : InstantSeries) : bool :=
  match target with
  | Some id => bool_decide (is_metric s !! "target"%string = Some (display_i64 id))
  | None => true
  end.
Definition selects (names : list string) (target : option Z) (s : InstantSeries) : bool := carries names s && of_device target s.
Definition labelled (s : InstantSeries) : option Z := is_metric s !! "target"%string ≫= parse_i64.

Lemma group_step_lookup series grouped id :
  foldl group_step grouped series !! id ?? [] = (grouped !! id ?? []) ++ filter (fun s => labelled s = Some id) series.
Proof.
  revert grouped. induction series as [|s series IH]; intros grouped; [by rewrite app_nil_r|].
  cbn [foldl]. rewrite IH, filter_cons. unfold group_step. fold (labelled s). destruct (labelled s) as [k|]; [|done].
  destruct (decide (k = id)) as [->|Hk].
  - rewrite lookup_insert_eq, decide_True by done. cbn. by rewrite <-app_assoc.
  - rewrite lookup_insert_ne, decide_False by (done || congruence). done.
Qed.
Lemma group_by_target_lookup series id :
  group_by_target series !! id ?? [] = from_series (filter (fun s => labelled s = Some id) series).
Proof.
  unfold group_by_target. rewrite lookup_fmap. pose proof (group_step_lookup series ∅ id) as E. rewrite lookup_empty in E. cbn in E.
  rewrite <-E. by destruct (foldl group_step ∅ series !! id).
Qed.

(** The name of a fact is the one the provider gives. *)
Lemma fact_named names all s f :
  carries all s = true -> (forall n, n ∈ names -> n ∈ all) -> fact_of s = Some f -> bool_decide (f_name f ∈ names) = carries names s.
Proof.
  unfold carries, fact_of. destruct (is_metric s !! _) as [nm|]; [|done]. rewrite existsb_elem. intros (n & Hn & E) Hin. bools. subst nm.
  cbn [mbind option_bind]. rewrite (proj2 (strip_prefix_Some "dumbmonit_" _ n) eq_refl). destruct (parse_f64 _) as [v|]; [|done]. cbn [mbind option_bind].
  destruct (f64_is_finite v); [|done]. intros [= <-]. cbn [f_name default]. apply eq_true_iff_eq. rewrite bool_decide_eq_true, existsb_elem. split.
  - intros Hm. exists n. split; [done|]. by apply bool_decide_eq_true.
  - intros (m & Hm & E). bools. apply (f_equal (strip_prefix "dumbmonit_")) in E.
    rewrite !(proj2 (strip_prefix_Some "dumbmonit_" _ _) eq_refl) in E. by injection E as ->.
Qed.
Lemma within_series names all series :
  (forall s, s ∈ series -> carries all s = true) -> (forall n, n ∈ names -> n ∈ all) ->
  within names (from_series series) = from_series (filter (fun s => carries names s = true) series).
Proof.
  intros Hall Hin. unfold from_series, within. induction series as [|s series IH]; [done|].
  rewrite (filter_cons _ s series). cbn [omap list_omap]. assert (carries all s = true) as Hs by (apply Hall; left).
  specialize (IH (fun s' H' => Hall s' ltac:(by right))). destruct (fact_of s) as [f|] eqn:Ef.
  - rewrite filter_cons, IH. pose proof (fact_named names all s f Hs Hin Ef) as Hn. destruct (carries names s).
    + bools. rewrite !decide_True by done. csimpl. by rewrite Ef.
    + bools. by rewrite !decide_False by done.
  - rewrite IH. case_decide; [|done]. csimpl. by rewrite Ef.
Qed.

Lemma nonempty_applies p own all : p ∈ providers -> (own <> [] -> all <> []) -> applies p own = true -> applies p all = true.
Proof.
  unfold providers. rewrite !elem_of_cons, elem_of_nil. intros Hp Hne. repeat destruct Hp as [->|Hp]; try done;
    cbn; destruct own, all; try done; intros _; by destruct Hne.
Qed.
Lemma provider_metrics p n : p ∈ providers -> n ∈ metrics p -> n ∈ providers ≫= metrics.
Proof. intros Hp Hn. apply list_elem_of_bind. by exists p. Qed.

Lemma reports_of_map now facts ts :
  NoDup (id <$> ts) ->
  reports_of providers now facts ts = (fun t => build_report providers now (id t) (name t) (t_kind t) (facts !! id t ?? [])) <$> ts.
Proof.
  revert facts. induction ts as [|t ts IH]; intros facts; [done|]. csimpl. intros [Hn Hd]%NoDup_cons. rewrite IH by done. f_equal.
  apply list_fmap_ext. intros i u Hu%list_elem_of_lookup_2. rewrite lookup_delete_ne; [done|]. intros E. apply Hn. rewrite E.
  by apply list_elem_of_fmap_2.
Qed.

Section overview.
Context (db : list InstantSeries) (targets : list Target).
(** The label of a device is the one its samples are sent with. *)
Hypothesis labels : forall t s, t ∈ targets -> s ∈ db ->
  labelled s = Some (id t) <-> is_metric s !! "target"%string = Some (display_i64 (id t)).

Definition overview_facts : gmap Z Facts := group_by_target (filter (fun s => selects (providers ≫= metrics) None s = true) db).
Definition page_facts (p : SecurityProvider) (t : Target) : Facts :=
  from_series (filter (fun s => selects (metrics p) (Some (id t)) s = true) db).

Lemma overview_within p t :
  t ∈ targets -> p ∈ providers -> within (metrics p) (overview_facts !! id t ?? []) = page_facts p t.
Proof using labels.
  intros Ht Hp. unfold overview_facts, page_facts. rewrite group_by_target_lookup.
  rewrite (within_series _ (providers ≫= metrics)).
  - f_equal. rewrite !list_filter_filter. apply filter_ext_elem. intros s Hs.
    unfold selects. rewrite (labels t s Ht Hs), !andb_true_iff. cbn [of_device]. rewrite bool_decide_eq_true.
    split; [tauto|]. intros [Hc Hl]. split_and!; try done. unfold carries in *. destruct (is_metric s !! _); [|done].
    apply existsb_elem in Hc as (n & Hn & E). apply existsb_elem. exists n. split; [|done]. by eapply provider_metrics.
  - intros s [_ [Hs _]%list_elem_of_filter]%list_elem_of_filter. unfold selects in Hs. by apply andb_true_iff in Hs as [? _].
  - intros n. by apply provider_metrics.
Qed.

(** What the overview says of a device is what its page says, when the page says something. *)
Lemma overview_report now p t :
  t ∈ targets -> provider_for providers (t_kind t) = Some p ->
  let page := build_report providers now (id t) (name t) (t_kind t) (page_facts p t) in
  let row := build_report providers now (id t) (name t) (t_kind t) (overview_facts !! id t ?? []) in
  rp_supported page = true -> row = page.
Proof using labels.
  intros Ht Ep. cbv zeta. unfold build_report. rewrite Ep. pose proof (provider_for_Some _ _ _ Ep) as [Hp _]. cbn [option_filter].
  pose proof (overview_within p t Ht Hp) as Ew. pose proof (reads_its_metrics p (t_kind t) (overview_facts !! id t ?? []) Hp) as Er.
  rewrite Ew in Er. destruct (applies p (page_facts p t)) eqn:Ea; [|done]. intros _.
  rewrite (nonempty_applies p (page_facts p t)); [by rewrite <-Er|done| |done].
  intros Hne E. apply Hne. by rewrite <-Ew, E.
Qed.
End overview.

(** C31. The overview and the pages agree.  The overview asks the store once, for all the metrics of all the providers, and the
    page of a device asks for those of its own.  If both questions are answered from one content of the store, in its order,
    and the samples of a device bear its number as the server writes it, then the report the page of an enabled device shows
    is in the overview, a report of the overview is the one of the page or of a device whose page shows none, and a paused
    device, whose page may still show a report, has none in the overview. *)
Theorem overview_agrees_with_the_page now db query targets :
  NoDup (id <$> targets) ->
  query (instant_query (name_pattern (providers ≫= metrics)) None) =
    Some (filter (fun s => selects (providers ≫= metrics) None s = true) db) ->
  (forall t p, t ∈ targets -> provider_for providers (t_kind t) = Some p ->
     query (instant_query (name_pattern (metrics p)) (Some (id t))) =
       Some (filter (fun s => selects (metrics p) (Some (id t)) s = true) db)) ->
  (forall t s, t ∈ targets -> s ∈ db -> labelled s = Some (id t) <-> is_metric s !! "target"%string = Some (display_i64 (id t))) ->
  exists reports, all_reports providers query now targets = Some reports /\
    forall t, t ∈ targets ->
    (enabled t = false -> forall r, r ∈ reports -> rp_target_id r <> id t) /\
    exists own, facts_for providers query t = Some own /\
      let page := build_report providers now (id t) (name t) (t_kind t) own in
      (enabled t = true -> rp_supported page = true -> page ∈ reports) /\
      (forall r, r ∈ reports -> rp_target_id r = id t -> r = page \/ rp_supported page = false).
Proof.
  intros Hid Hall Hone Hlab. set (chosen := filter (fun t => rated providers t = true) targets).
  exists (filter (fun r => rp_supported r = true)
    ((fun t => build_report providers now (id t) (name t) (t_kind t) (overview_facts db !! id t ?? [])) <$> chosen)). split.
  { unfold all_reports. fold chosen. destruct chosen as [|t ts] eqn:Ec; [done|]. rewrite <-Ec.
    unfold facts_by_target. rewrite Hall. cbn [fmap option_fmap option_map mbind option_bind]. rewrite reports_of_map; [done|].
    eapply sublist_NoDup; [exact Hid|]. apply fmap_sublist, sublist_filter. }
  assert (forall t r, t ∈ targets -> rp_target_id r = id t -> r ∈ filter (fun r => rp_supported r = true)
    ((fun t => build_report providers now (id t) (name t) (t_kind t) (overview_facts db !! id t ?? [])) <$> chosen) ->
    t ∈ chosen /\ r = build_report providers now (id t) (name t) (t_kind t) (overview_facts db !! id t ?? [])) as Hof.
  { intros t r Ht Hi [_ Hr]%list_elem_of_filter. apply list_elem_of_fmap in Hr as (u & -> & Hc).
    pose proof Hc as [_ Hu]%list_elem_of_filter. assert (u = t) as ->; [|done].
    apply (fmap_inj_elem id targets); [done..|]. rewrite <-Hi. unfold build_report. by case_match. }
  intros t Ht. split.
  { intros Hen r Hr Hi. destruct (Hof t r Ht Hi Hr) as [[Hrated _]%list_elem_of_filter _]. unfold rated in Hrated.
    by rewrite Hen in Hrated. }
  unfold facts_for. destruct (provider_for providers (t_kind t)) as [p|] eqn:Ep.
  - rewrite (Hone t p Ht Ep). eexists. split; [done|]. fold (page_facts db p t). cbv zeta.
    pose proof (overview_report db targets Hlab now p t Ht Ep) as Hrow. cbv zeta in Hrow. split.
    + intros Hen Hs. apply list_elem_of_filter. split; [done|]. rewrite <-Hrow by done.
      apply (list_elem_of_fmap_2 (fun t => build_report providers now (id t) (name t) (t_kind t) (overview_facts db !! id t ?? []))).
      apply list_elem_of_filter. split; [|done]. unfold rated. by rewrite Hen, Ep.
    + intros r Hr Hi. destruct (Hof t r Ht Hi Hr) as [_ ->]. destruct (rp_supported _) eqn:Es; [left; by apply Hrow|by right].
  - exists []. split; [done|]. cbv zeta. assert (forall facts, rp_supported (build_report providers now (id t) (name t) (t_kind t) facts) = false) as Hn
      by (intros facts; unfold build_report; by rewrite Ep).
    rewrite Hn. split; [done|]. intros. by right.
Qed.
End made.

(** ** The security page *)

#[export] Instance grade_order : CmpOrder (cmp_rev (cmp_on Grade.rank Z.compare)).
Proof.
  split; [apply _|]. unfold cmp_rev, cmp_on. intros x y E%Z.compare_eq. by destruct x, y.
Qed.
#[export] Instance row_pre to_lowercase : CmpPre (row_cmp to_lowercase).
Proof. unfold row_cmp. apply _. Qed.

(** The page goes from the worst device to the best, by letter and then by score, and ends with those that have none; it lists
    every report once. *)
Definition no_better (a b : SummaryRow) : Prop :=
  (sr_score a = None -> sr_score b = None) /\
  (is_Some (sr_score a) -> is_Some (sr_score b) -> forall g h, sr_grade a = Some g -> sr_grade b = Some h ->
     Grade.rank h <= Grade.rank g /\ (g = h -> forall s s', sr_score a = Some s -> sr_score b = Some s' -> s <= s')).
Lemma row_order to_lowercase a b : le_by (row_cmp to_lowercase) a b -> no_better a b.
Proof.
  unfold le_by, row_cmp, no_better, cmp_then, cmp_on, unrated, then_with.
  destruct (sr_score a) as [s|], (sr_score b) as [s'|]; cbn; intros Hle;
    [|by split; [|intros _ []]|done|by split; [|intros []]].
  split; [done|]. intros _ _ g h Hg Hh. rewrite Hg, Hh in Hle. cbn in Hle. unfold cmp_rev in Hle.
  destruct (Z.compare_spec (Grade.rank h) (Grade.rank g)) as [E|E|E]; [|split; [lia|]; intros ->; lia|done].
  split; [lia|]. intros -> u v [= <-] [= <-]. by destruct (Z.compare_spec s s'); [lia|lia|].
Qed.
Lemma security_page_goes_from_worst_to_best to_lowercase reports :
  summarize to_lowercase reports ≡ₚ summary_row <$> reports /\ StronglySorted no_better (summarize to_lowercase reports).
Proof.
  split; [apply sort_by_perm|]. unfold summarize.
  assert (StronglySorted (le_by (row_cmp to_lowercase)) (sort_by (row_cmp to_lowercase) (summary_row <$> reports))) as Hs
    by (apply sort_by_sorted; apply _).
  induction Hs as [|r l _ IH Hf]; constructor; [done|]. eapply Forall_impl; [exact Hf|]. intros x. apply row_order.
Qed.

(** ** The catalogue *)

(** Identifiers are distinct, every definition has a title, a page to refer to and a remedy, and no two providers share a kind. *)
Lemma catalogue_is_well_formed `{FloatDisplay} :
  NoDup (cd_id <$> all_defs) /\ NoDup (supported_kinds providers) /\
  forall d, d ∈ all_defs -> cd_title d <> ""%string /\ cd_remediation d <> ""%string /\ starts_with "https://" (cd_reference d) = true.
Proof.
  split; [apply (bool_decide_unpack _); vm_compute; exact I|].
  split; [apply (bool_decide_unpack _); vm_compute; exact I|].
  assert (forallb (fun d => negb (bool_decide (cd_title d = "")) && negb (bool_decide (cd_remediation d = "")) &&
                            starts_with "https://" (cd_reference d)) all_defs = true) as Hall by (vm_compute; reflexivity).
  intros d Hd. pose proof (proj1 (forallb_elem _ _) Hall d Hd) as Hp. cbv beta in Hp. by bools.
Qed.

(** ** What is stale *)

Definition plain_display : FloatDisplay := {| display_f64 := fun _ => ""%string; display_fixed1 := fun _ => ""%string |}.
#[local] Existing Instance plain_display.

Definition told (name : string) (labels : list (string * string)) (value : Z) : Fact :=
  {| f_name := name; f_labels := list_to_map labels; f_value := f64_of_Z value |}.
Definition results (cs : list Check) : list (string * Outcome) := (fun c => (ck_id c, ck_result c)) <$> cs.

(** The severity of a finding is a label of its series: one that is corrected, and whose severity goes down with its count,
    starts a new series, and for as long as the old one is looked back at the check is listed twice, and fails. *)
Lemma corrected_finding_still_fails :
  let before := told "ad_finding_count" [("finding", "password_policy"); ("severity", "high")]%string 2 in
  let after := told "ad_finding_count" [("finding", "password_policy"); ("severity", "medium")]%string 0 in
  let r := build_report providers 0 1 "dc" "activedirectory" [before; after] in
  filter (fun x => x.1 = "ad.password_policy"%string) (results (rp_checks r)) =
    [("ad.password_policy"%string, Outcome.Fail); ("ad.password_policy"%string, Outcome.Pass)] /\
  rp_score r = Some 33.
Proof. vm_compute. split; reflexivity. Qed.

(** The version of a protocol is a label of its series, and the first series decides: after an upgrade the verdict depends on
    the order in which the old and the new version are given. *)
Lemma verdict_depends_on_the_order :
  let old := told "probe_tls_version_info" [("version", "TLSv1.2")]%string 1 in
  let new := told "probe_tls_version_info" [("version", "TLSv1.3")]%string 1 in
  ck_result (tls.version [old; new]) = Outcome.Fail /\ ck_result (tls.version [new; old]) = Outcome.Pass.
Proof. vm_compute. split; reflexivity. Qed.

(** ** Examples and witnesses *)

Definition some_check (o : Outcome) (s : Severity) : Check :=
  with_result {| cd_id := ""; cd_title := ""; cd_category := Category.Configuration; cd_severity := s; cd_reference := "";
                 cd_remediation := "" |} o "".
Example scores_ex :
  (fun cs => let o := score_checks cs in (so_score o, so_grade o, so_capped o)) <$>
    [[some_check Outcome.Pass Severity.High; some_check Outcome.Fail Severity.Medium; some_check Outcome.Unknown Severity.Critical];
     [some_check Outcome.Unknown Severity.High]; [];
     some_check Outcome.Fail Severity.Critical :: replicate 10 (some_check Outcome.Pass Severity.High);
     [some_check Outcome.Fail Severity.Critical; some_check Outcome.Pass Severity.Low]] =
  [(Some 67, Some Grade.C, false); (None, None, false); (None, None, false); (Some 86, Some Grade.C, true); (Some 9, Some Grade.F, false)].
Proof. vm_compute. reflexivity. Qed.
Example names_ex :
  list_names ["a"; "b"; "c"; "d"; "e"]%string = "a, b, c and 2 more"%string /\ plural (f64_of_Z 1) "update" = "1 update"%string /\
  plural (f64_of_Z 3) "update" = "3 updates"%string /\
  synology.dsm_major <$> ["DSM 7.2.1-69057 Update 5"; "DSM 6.2"; "7.2"; "beta"; ""]%string = [Some 7; Some 6; Some 7; None; None] /\
  instant_query (name_pattern ["b"; "a"; "b"]%string) (Some 3) =
    ("last_over_time({__name__=~" +:+ quote +:+ "dumbmonit_(a|b)" +:+ quote +:+ ", target=" +:+ quote +:+ "3" +:+ quote +:+
     "}[6h]) keep_metric_names")%string.
Proof. vm_compute. split_and!; reflexivity. Qed.

Definition web_facts : Facts :=
  [told "agent_updates_pending" [] 4; told "agent_security_updates_pending" [] 0; told "agent_reboot_required" [] 1].
Lemma report_is_the_weighted_share_witness :
  let r := build_report providers 0 7 "web" "agent" web_facts in
  rp_score r = Some 60 /\ rp_score r = weighted_share (rp_checks r) /\ NoDup (ck_id <$> rp_checks r).
Proof.
  destruct (report_is_the_weighted_share 0 7 "web" "agent" web_facts ltac:(discriminate) eq_refl) as (E & _ & _ & Hn & _).
  split; [vm_compute; reflexivity|]. split; [exact E|exact Hn].
Defined.
Lemma missing_data_is_never_counted_witness :
  let r := build_report providers 0 7 "web" "agent" [told "up" [] 1] in
  rp_score r = None /\ length (rp_checks r) = 4%nat.
Proof.
  destruct (missing_data_is_never_counted 0 7 "web" "agent" [told "up" [] 1] agent.Agent eq_refl) as [Hr _].
  destruct Hr as (_ & Es & _).
  - intros f ->%list_elem_of_singleton. apply (bool_decide_unpack _). vm_compute. exact I.
  - split; [exact Es|vm_compute; reflexivity].
Defined.
Lemma fixing_never_lowers_the_score_witness :
  let cs := [some_check Outcome.Fail Severity.Critical; some_check Outcome.Pass Severity.High] in
  let cs' := [some_check Outcome.Unknown Severity.Critical; some_check Outcome.Pass Severity.High] in
  so_score (score_checks cs) = Some 38 /\ so_score (score_checks cs') = Some 100 /\ 38 <= 100.
Proof.
  split; [vm_compute; reflexivity|]. split; [vm_compute; reflexivity|].
  refine (proj1 (fixing_never_lowers_the_score
    [some_check Outcome.Fail Severity.Critical; some_check Outcome.Pass Severity.High]
    [some_check Outcome.Unknown Severity.Critical; some_check Outcome.Pass Severity.High] 38 100 _ _ _ _ _ _ _));
    [repeat constructor|repeat constructor|vm_compute; discriminate|vm_compute; discriminate| |vm_compute; reflexivity|vm_compute; reflexivity].
  constructor; [split; [reflexivity|right; left; reflexivity]|]. constructor; [split; [reflexivity|left; reflexivity]|constructor].
Defined.

Definition a_target (id : Z) (name kind : string) : Target :=
  {| Wire.id := id; Wire.name := name; address := ""; t_kind := kind; profile_id := None; parent_id := None; interval := 0;
     enabled := true; tags := ∅; credential := Credential.None; group_name := ""; position := 0 |}.
Definition estate : list Target := [a_target 7 "web" "agent"; a_target 8 "site" "http"].
Definition reboot_series : InstantSeries :=
  {| is_metric := list_to_map [("__name__", "dumbmonit_agent_reboot_required"); ("target", "7")]%string; is_value := "1" |}.
Definition store : list InstantSeries := [reboot_series].
Definition ask (q : string) : option (list InstantSeries) :=
  if bool_decide (q = instant_query (name_pattern (providers ≫= metrics)) None)
  then Some (filter (fun s => selects (providers ≫= metrics) None s = true) store)
  else if bool_decide (q = instant_query (name_pattern (metrics agent.Agent)) (Some 7))
  then Some (filter (fun s => selects (metrics agent.Agent) (Some 7) s = true) store)
  else if bool_decide (q = instant_query (name_pattern (metrics tls.TlsMonitor)) (Some 8))
  then Some (filter (fun s => selects (metrics tls.TlsMonitor) (Some 8) s = true) store)
  else None.
Lemma overview_agrees_with_the_page_witness :
  exists reports, all_reports providers ask 0 estate = Some reports /\ length reports = 1%nat.
Proof.
  destruct (overview_agrees_with_the_page 0 store ask estate) as (reports & E & _).
  - apply (bool_decide_unpack _). vm_compute. exact I.
  - vm_compute. reflexivity.
  - intros t p Ht. unfold estate in Ht. rewrite !elem_of_cons, elem_of_nil in Ht. destruct Ht as [->|[->|[]]].
    + intros [= <-]. vm_compute. reflexivity.
    + intros [= <-]. vm_compute. reflexivity.
  - intros t s Ht ->%list_elem_of_singleton. unfold estate in Ht. rewrite !elem_of_cons, elem_of_nil in Ht.
    destruct Ht as [->|[->|[]]]; vm_compute; split; congruence.
  - exists reports. split; [exact E|]. vm_compute in E. injection E as <-. reflexivity.
Defined.
