(* ===== verification/Enrolment.v ===== *)
(** * Machines with an agent ([collectors/agent/store.rs], [receive.rs], [token.rs], [api/agent_commands.rs])

    Enrolment tokens, the machines they let in, the secret that binds each machine to its agent, and the two
    doors agents come through: the batches of measures and the channel of commands.

    A request reads the clock once: [clock] is the second of its statements, [clock_ms] the instant of the
    batch.  Random secrets are the bytes drawn. *)
From Stdlib Require Import Ascii.
From Stdlib Require String.
From S2P Require Import Prelude Text Float64 Chrono Db Handler Accounts Auth Wire Relay Commands Agent Targets.

(** ** Identity of a machine (crate [proto], [push.rs]) *)

Record AgentIdentity := {
  hostname : string;
  os : string;
  os_version : option string;
  kernel_version : option string;
  arch : option string;
  agent_version : string;
  commands_enabled : option bool;
  relay : bool;
  site : option string;
  machine_id : option string;
  id_tags : gmap string string;
  binding_supported : bool;
}.

Definition key `{Crates} (i : AgentIdentity) : string :=
  match (trim <$> machine_id i) ≫= non_empty with
  | Some id => id
  | None => lowercase (trim (hostname i))
  end.

Definition PUSH_PROTOCOL_VERSION : Z := 1.

Record PushBatch := { protocol : Z; identity : AgentIdentity; sent_at_ms : Z; b_measures : list Sample }.

(** ** Tokens ([token.rs]) *)

Definition TOKEN_PREFIX : string := "dmon_".
Definition AGENT_SECRET_PREFIX : string := "dmab_".
Definition DISPLAY_LEN : nat := String.length TOKEN_PREFIX + 8.

Definition generate (bytes : list Z) : string := (TOKEN_PREFIX +:+ hex_encode bytes)%string.
Definition generate_secret (bytes : list Z) : string := (AGENT_SECRET_PREFIX +:+ hex_encode bytes)%string.

Definition extract_secret (header : option string) : option string := (trim <$> header) ≫= non_empty.

Definition fingerprint `{Crates} (token : string) : string := hex_encode (sha256 token).

(** [chars().take(n)]; a token is made of ASCII characters. *)
Definition display_prefix (token : string) : string := String.substring 0 DISPLAY_LEN token.

Definition extract_bearer (header : option string) : option string :=
  header ← trim <$> header;
  '(scheme, value) ← split_once " "%char header;
  if negb (eq_ignore_ascii_case scheme "bearer") then None else non_empty (trim value).

(** ** Tables ([store.rs]) *)

Record TokenPolicy := { max_uses : option Z; expires_in_days : option Z }.
Definition TokenPolicy_default : TokenPolicy := {| max_uses := Some 1; expires_in_days := None |}.

(** A row of [agent_tokens]; instants are seconds. *)
Record TokenRow := {
  k_name : string;
  k_hash : string;
  k_prefix : string;
  k_created_at : Z;
  k_last_used_at : option Z;
  k_revoked_at : option Z;
  k_max_uses : option Z;
  k_uses : Z;
  k_expires_at : option Z;
}.

(** A row of [agent_hosts], under the number of its target. *)
Record HostRow := {
  h_key : string;
  h_hostname : string;
  h_os : string;
  h_os_version : option string;
  h_kernel_version : option string;
  h_arch : option string;
  h_agent_version : string;
  h_commands_enabled : option bool;
  h_relay : bool;
  h_site : option string;
  h_token_id : option Z;
  h_secret_hash : option string;
  h_binding_supported : bool;
  h_rebind_until : option Z;
  h_bound_at : option Z;
  h_last_seen_ms : option Z;
  h_last_samples : Z;
}.

Record State := {
  fleet : Targets.State;
  last_token : Z;
  tokens : gmap Z TokenRow;
  hosts : gmap Z HostRow;
  channel : Tables;
  sink : list (list Sample);
}.

Definition set_fleet (x : Targets.State) (s : State) : State :=
  Build_State x (last_token s) (tokens s) (hosts s) (channel s) (sink s).
Definition with_tokens (f : gmap Z TokenRow -> gmap Z TokenRow) (s : State) : State :=
  Build_State (fleet s) (last_token s) (f (tokens s)) (hosts s) (channel s) (sink s).
Definition with_hosts (f : gmap Z HostRow -> gmap Z HostRow) (s : State) : State :=
  Build_State (fleet s) (last_token s) (tokens s) (f (hosts s)) (channel s) (sink s).
Definition set_channel (x : Tables) (s : State) : State :=
  Build_State (fleet s) (last_token s) (tokens s) (hosts s) x (sink s).
Definition send_batch (b : list Sample) (s : State) : State :=
  Build_State (fleet s) (last_token s) (tokens s) (hosts s) (channel s) (sink s ++ [b]).

(** Assignments to columns of [agent_tokens]. *)
Definition set_revoked (at_ : Z) (k : TokenRow) : TokenRow :=
  Build_TokenRow (k_name k) (k_hash k) (k_prefix k) (k_created_at k) (k_last_used_at k) (Some at_)
    (k_max_uses k) (k_uses k) (k_expires_at k).
Definition add_use (k : TokenRow) : TokenRow :=
  Build_TokenRow (k_name k) (k_hash k) (k_prefix k) (k_created_at k) (k_last_used_at k) (k_revoked_at k)
    (k_max_uses k) (k_uses k + 1) (k_expires_at k).
Definition set_used (at_ : Z) (k : TokenRow) : TokenRow :=
  Build_TokenRow (k_name k) (k_hash k) (k_prefix k) (k_created_at k) (Some at_) (k_revoked_at k)
    (k_max_uses k) (k_uses k) (k_expires_at k).

Module EnrolmentDenied.
Inductive EnrolmentDenied := Exhausted | Expired.

Definition message (d : EnrolmentDenied) : string :=
  match d with
  | Exhausted =>
      ("This enrollment token has already enrolled all the machines it was " +:+
       "allowed to. Create a new token, or a reusable one for a fleet.")
  | Expired =>
      ("This enrollment token has passed its enrollment deadline. Create a new " +:+
       "one; machines already enrolled keep reporting.")
  end%string.
End EnrolmentDenied.
Notation EnrolmentDenied := EnrolmentDenied.EnrolmentDenied.

Module RegisterError.
Inductive RegisterError :=
| BindingMismatch
| EnrolmentDenied (why : EnrolmentDenied)
| NotBound
| AgentTooOld
| Internal.
End RegisterError.
Notation RegisterError := RegisterError.RegisterError.

Module IngestError.
Inductive IngestError :=
| Unauthorized
| Forbidden (why : string)
| BadRequest (why : string)
| Internal.
End IngestError.
Notation IngestError := IngestError.IngestError.

Module KeyAuth.
Inductive KeyAuth := Unknown | Denied | NotBound | Allowed (target : Z).
End KeyAuth.
Notation KeyAuth := KeyAuth.KeyAuth.

(** What a request brings besides its content. *)
Record Request := {
  clock : Z;
  clock_ms : Z;
  bearer : option string;
  secret_header : option string;
  drawn : list Z;
  r_nonce : list Z;
}.

Section machines.
Context `{Crates} `{CredentialJson} `{Json}.

(** [None] when the fingerprint is taken. *)
Definition create_token (now : Z) (bytes : list Z) (name : string) (p : TokenPolicy) (s : State)
  : option (State * (Z * string)) :=
  let clear := generate bytes in
  let row := {| k_name := name; k_hash := fingerprint clear; k_prefix := display_prefix clear;
                k_created_at := now; k_last_used_at := None; k_revoked_at := None; k_max_uses := max_uses p;
                k_uses := 0; k_expires_at := (fun days => now + days * 86400) <$> expires_in_days p |} in
  if bool_decide (map_Exists (fun _ k => k_hash k = k_hash row) (tokens s)) then None
  else
    let id := last_token s + 1 in
    Some (Build_State (fleet s) id (<[id := row]> (tokens s)) (hosts s) (channel s) (sink s), (id, clear)).

Definition revoke_token (now id : Z) (s : State) : State * bool :=
  match tokens s !! id with
  | Some k => match k_revoked_at k with
              | None => (with_tokens (alter (set_revoked now) id) s, true)
              | Some _ => (s, false)
              end
  | None => (s, false)
  end.

(** The hash is unique: at most one row matches. *)
Definition find_active_token (print : string) (s : State) : option Z :=
  fst <$> head (filter (fun kv => k_hash kv.2 = print /\ k_revoked_at kv.2 = None) (map_to_list (tokens s))).

Definition enrolment_allowed (now token : Z) (s : State) : option EnrolmentDenied :=
  match tokens s !! token with
  | None => Some EnrolmentDenied.Expired
  | Some k =>
      if is_some_and (k_expires_at k) (fun t => t <=? now) then Some EnrolmentDenied.Expired
      else if is_some_and (k_max_uses k) (fun max => max <=? k_uses k) then Some EnrolmentDenied.Exhausted
      else None
  end.

Definition consume_enrolment (token : Z) (s : State) : State := with_tokens (alter add_use token) s.
Definition touch_token (now token : Z) (s : State) : State := with_tokens (alter (set_used now) token) s.

Definition find_host (k : string) (s : State) : option (Z * HostRow) :=
  head (filter (fun h => h_key h.2 = k) (map_to_list (hosts s))).
Definition rebind_open (now : Z) (h : HostRow) : bool := is_some_and (h_rebind_until h) (fun t => now <? t).

Definition site_of (i : AgentIdentity) : option string := (trim <$> site i) ≫= non_empty.

Definition bind_row (now : Z) (secret : string) (token : Z) (h : HostRow) : HostRow :=
  Build_HostRow (h_key h) (h_hostname h) (h_os h) (h_os_version h) (h_kernel_version h) (h_arch h)
    (h_agent_version h) (h_commands_enabled h) (h_relay h) (h_site h) (Some token)
    (Some (fingerprint secret)) true None (Some now) (h_last_seen_ms h) (h_last_samples h).
Definition bind_host (now target : Z) (secret : string) (token : Z) (s : State) : State :=
  with_hosts (alter (bind_row now secret token) target) s.

Definition describe (i : AgentIdentity) (h : HostRow) : HostRow :=
  Build_HostRow (h_key h) (hostname i) (os i) (os_version i) (kernel_version i) (arch i)
    (agent_version i) (commands_enabled i) (relay i) (site_of i) (h_token_id h)
    (h_secret_hash h) (binding_supported i) (h_rebind_until h) (h_bound_at h) (h_last_seen_ms h) (h_last_samples h).
Definition update_host (target : Z) (i : AgentIdentity) (s : State) : State :=
  with_hosts (alter (describe i) target) s.

(** [None] when the target or the key already has a machine, or the target does not exist. *)
Definition insert_host (now target : Z) (k : string) (i : AgentIdentity) (token : Z) (secret : option string)
    (s : State) : option State :=
  if bool_decide (is_Some (hosts s !! target)) || bool_decide (is_Some (find_host k s))
     || negb (bool_decide (is_Some (rows (devices (fleet s)) !! target))) then None
  else
    let h := {| h_key := k; h_hostname := hostname i; h_os := os i; h_os_version := os_version i;
                h_kernel_version := kernel_version i; h_arch := arch i; h_agent_version := agent_version i;
                h_commands_enabled := commands_enabled i; h_relay := relay i; h_site := site_of i;
                h_token_id := Some token; h_secret_hash := fingerprint <$> secret;
                h_binding_supported := binding_supported i; h_rebind_until := None;
                h_bound_at := (fun _ => now) <$> secret; h_last_seen_ms := None; h_last_samples := 0 |} in
    Some (with_hosts <[target := h]> s).

Definition seen (at_ms : Z) (count : nat) (h : HostRow) : HostRow :=
  Build_HostRow (h_key h) (h_hostname h) (h_os h) (h_os_version h) (h_kernel_version h) (h_arch h)
    (h_agent_version h) (h_commands_enabled h) (h_relay h) (h_site h) (h_token_id h) (h_secret_hash h)
    (h_binding_supported h) (h_rebind_until h) (h_bound_at h) (Some at_ms) (Z.of_nat count).
Definition record_batch (target at_ms : Z) (count : nat) (s : State) : State :=
  with_hosts (alter (seen at_ms count) target) s.

Definition REBIND_WINDOW_MINUTES : Z := 60.
Definition open_window (until : Z) (h : HostRow) : HostRow :=
  Build_HostRow (h_key h) (h_hostname h) (h_os h) (h_os_version h) (h_kernel_version h) (h_arch h)
    (h_agent_version h) (h_commands_enabled h) (h_relay h) (h_site h) (h_token_id h) (h_secret_hash h)
    (h_binding_supported h) (Some until) (h_bound_at h) (h_last_seen_ms h) (h_last_samples h).
Definition allow_rebind (now target : Z) (s : State) : State * option Z :=
  let until := now + REBIND_WINDOW_MINUTES * 60 in
  (with_hosts (alter (open_window until) target) s,
   if bool_decide (is_Some (hosts s !! target)) then Some until else None).
(** ** Registration *)

Record Registration := {
  g_target : Z;
  g_created : bool;
  issued_secret : option string;
  g_bound : bool;
}.

Notation M := (Handler State RegisterError).

(** [if let Err(denied) = enrolment_allowed(..) { return Err(..) }]. *)
Definition must_enrol (now token : Z) : M () :=
  denied ← gets (enrolment_allowed now token);
  if_some denied (fun why => throw (RegisterError.EnrolmentDenied why)).

(** The secret presented is the one whose print is stored. *)
Definition presents (stored : string) (secret : option string) : bool :=
  is_some_and (fingerprint <$> secret) (fun print => bool_decide (print = stored)).

Definition claim (r : Request) (target : Z) (h : HostRow) (i : AgentIdentity) (token : Z) : M Registration :=
  let presented := extract_secret (secret_header r) in
  let rebind :=
    let secret := generate_secret (drawn r) in
    _ ← modify (bind_host (clock r) target secret token);
    _ ← modify (update_host target i);
    mret {| g_target := target; g_created := false; issued_secret := Some secret; g_bound := true |} in
  match h_secret_hash h with
  | Some stored =>
      if presents stored presented then
        _ ← modify (update_host target i);
        mret {| g_target := target; g_created := false; issued_secret := None; g_bound := true |}
      else if rebind_open (clock r) h && binding_supported i then
        _ ← must_enrol (clock r) token;
        rebind
      else throw RegisterError.BindingMismatch
  | None =>
      _ ← refuse_if (negb (rebind_open (clock r) h)) RegisterError.NotBound;
      _ ← refuse_if (negb (binding_supported i)) RegisterError.AgentTooOld;
      _ ← (if bool_decide (h_token_id h = Some token) then mret tt else must_enrol (clock r) token);
      rebind
  end.

Definition DEFAULT_INTERVAL_SECS : Z := 30.

Definition machine_input (i : AgentIdentity) : TargetInput :=
  {| in_name := hostname i; in_address := key i; in_kind := "agent"; in_profile_id := None;
     in_parent_id := None; in_via_agent := None; in_interval := td_seconds DEFAULT_INTERVAL_SECS;
     in_enabled := true; in_tags := id_tags i; in_credential := Some Credential.None; in_group_name := "" |}.

(** An agent device with this address. *)
Definition existing_target (k : string) (s : State) : option Z :=
  fst <$> head (filter (fun kv => r_kind kv.2 = "agent" /\ r_address kv.2 = k) (map_to_list (rows (devices (fleet s))))).

Definition create_target (nonce : list Z) (i : TargetInput) : M Z :=
  fun s => match Targets.create nonce i (devices (fleet s)) with
           | inl _ => (s, inl RegisterError.Internal)
           | inr (d, id) => (set_fleet (set_devices d (fleet s)) s, inr id)
           end.

(** What [register] does of a machine that is not known, once the token may enrol it. *)
Definition enrol (r : Request) (i : AgentIdentity) (token : Z) : M Registration :=
  existing ← gets (existing_target (key i));
  '(target, created) ← match existing with
                       | Some target => mret (target, false)
                       | None => id ← create_target (r_nonce r) (machine_input i); mret (id, true)
                       end;
  let secret := generate_secret (drawn r) in
  inserted ← gets (insert_host (clock r) target (key i) i token (Some secret));
  s ← ok_or RegisterError.Internal inserted;
  _ ← modify (fun _ => s);
  _ ← modify (consume_enrolment token);
  mret {| g_target := target; g_created := created; issued_secret := Some secret; g_bound := true |}.

Definition register (r : Request) (i : AgentIdentity) (token : Z) : M Registration :=
  host ← gets (find_host (key i));
  match host with
  | Some (target, h) => claim r target h i token
  | None =>
      _ ← refuse_if (negb (binding_supported i)) RegisterError.AgentTooOld;
      _ ← must_enrol (clock r) token;
      enrol r i token
  end.

(** ** Batches ([receive.rs]) *)

Definition BINDING_MISMATCH : string :=
  ("This machine is already enrolled and bound to another agent installation. " +:+
   "If you reinstalled it, open its device page in DumbMonit and click " +:+
   "'Allow re-enrolment', then restart the agent.")%string.
Definition NOT_BOUND : string :=
  ("This machine was enrolled before agent binding and was never bound to " +:+
   "its agent installation, so the server no longer accepts it. Re-enrol this host: open its " +:+
   "device page in DumbMonit, click 'Allow re-enrolment', then restart the agent (re-run the " +:+
   "install command first if the agent is older than binding).")%string.
Definition AGENT_TOO_OLD : string :=
  ("This agent is too old to be bound to its machine, and the server " +:+
   "no longer accepts unbound agents. Re-run the install command from DumbMonit to update it; " +:+
   "for a machine already listed, click 'Allow re-enrolment' on its device page first.")%string.

(** [From<RegisterError> for IngestError]. *)
Definition of_register (e : RegisterError) : IngestError :=
  match e with
  | RegisterError.BindingMismatch => IngestError.Forbidden BINDING_MISMATCH
  | RegisterError.NotBound => IngestError.Forbidden NOT_BOUND
  | RegisterError.AgentTooOld => IngestError.Forbidden AGENT_TOO_OLD
  | RegisterError.EnrolmentDenied why => IngestError.Forbidden (EnrolmentDenied.message why)
  | RegisterError.Internal => IngestError.Internal
  end.

Notation I := (Handler State IngestError).

Definition lift_register {A} (m : M A) : I A :=
  fun s => match m s with
           | (s, inl e) => (s, inl (of_register e))
           | (s, inr a) => (s, inr a)
           end.

Definition MAX_BACKFILL_MS : Z := 30 * 24 * 3600 * 1000.
Definition MAX_SKEW_AHEAD_MS : Z := 3600 * 1000.

Definition validate_batch (b : PushBatch) : I () :=
  _ ← refuse_if (PUSH_PROTOCOL_VERSION <? protocol b)
        (IngestError.BadRequest ("protocol " +:+ display_i64 (protocol b) +:+ " is not supported by this server " +:+
                                 "(maximum version 1), update the server")%string);
  _ ← refuse_if (bool_decide (trim (hostname (identity b)) = "")) (IngestError.BadRequest "hostname is required");
  refuse_if (MAX_BATCH_SAMPLES <? length (b_measures b))%nat
    (IngestError.BadRequest ("batch too large: " +:+ display_i64 (Z.of_nat (length (b_measures b))) +:+
                             " samples, maximum is 10000")%string).

(** A measure kept: a number, and neither too old nor in the future. *)
Definition plausible (received : Z) (m : Sample) : bool :=
  f64_is_finite (value m) && (received - MAX_BACKFILL_MS <=? ts_ms m) && (ts_ms m <=? received + MAX_SKEW_AHEAD_MS).

Definition prepare (t : Target) (measures : list Sample) (received : Z) : list Sample * nat :=
  let base := base_labels t in
  let prepared := stamp base <$> filter (fun m => plausible received m = true) measures in
  (prepared ++ [with_labels base (Sample_new "up" f64_one Gauge received)], length prepared).

Definition authenticate_token (header : option string) (s : State) : option Z :=
  presented ← extract_bearer header; find_active_token (fingerprint presented) s.

Definition record_probe_ok (now target : Z) (s : State) : State :=
  set_fleet (set_devices (Targets.record_probe now target None (devices (fleet s))) (fleet s)) s.

Definition ingest (r : Request) (b : PushBatch) : I PushAck :=
  _ ← validate_batch b;
  token ← gets (authenticate_token (bearer r));
  token ← ok_or IngestError.Unauthorized token;
  registration ← lift_register (register r (identity b) token);
  found ← gets (fun s => get (g_target registration) (devices (fleet s)));
  row ← ok_or IngestError.Internal found;
  target ← ok_or IngestError.Internal row;
  let '(samples, kept) := prepare target (b_measures b) (clock_ms r) in
  _ ← modify (send_batch samples);
  _ ← modify (record_batch (Wire.id target) (clock_ms r) kept);
  _ ← modify (touch_token (clock r) token);
  _ ← modify (record_probe_ok (clock r) (Wire.id target));
  mret {| ack_target := Wire.id target; accepted := Z.of_nat kept;
          interval_secs := Z.quot (Wire.interval target) ns_per_s; registered := g_created registration;
          agent_secret := issued_secret registration; bound := g_bound registration |}.

(** The status and the message of a refusal, as the agent receives them. *)
Definition respond (answer : IngestError + PushAck) : Response :=
  match answer with
  | inr ack => Answer 200 "" (inr ack)
  | inl IngestError.Unauthorized => Answer 401 "Enrollment token missing, unknown or revoked." (inl "")
  | inl (IngestError.Forbidden why) => Answer 403 why (inl "")
  | inl (IngestError.BadRequest why) => Answer 400 why (inl "")
  | inl IngestError.Internal => Answer 500 "Internal server error." (inl "")
  end.
(** [require_agent_token], which stands before the route of the batches, then [receive]. *)
Definition receive (r : Request) (b : PushBatch) : I PushAck :=
  token ← gets (authenticate_token (bearer r));
  _ ← ok_or IngestError.Unauthorized token;
  ingest r b.

(** ** The channel of commands ([api/agent_commands.rs]) *)

Definition authorise_key (k : string) (presented : option string) (s : State) : KeyAuth :=
  match find_host k s with
  | None => KeyAuth.Unknown
  | Some (target, h) =>
      match h_secret_hash h with
      | Some stored => if presents stored presented then KeyAuth.Allowed target else KeyAuth.Denied
      | None => KeyAuth.NotBound
      end
  end.

(** A refusal of this side: a status and a message. *)
Record Rejection := { j_status : Z; j_message : string }.
Definition not_found_ (message : string) : Rejection := {| j_status := 404; j_message := message |}.
Definition not_this_machine : Rejection := {| j_status := 403; j_message := BINDING_MISMATCH |}.
Definition not_bound : Rejection := {| j_status := 403; j_message := NOT_BOUND |}.
Definition of_ingest (e : IngestError) : Rejection :=
  match e with
  | IngestError.Unauthorized => {| j_status := 401; j_message := "Enrollment token missing, unknown or revoked." |}
  | IngestError.Forbidden why => {| j_status := 403; j_message := why |}
  | IngestError.BadRequest why => {| j_status := 400; j_message := why |}
  | IngestError.Internal => {| j_status := 500; j_message := "Internal server error." |}
  end.

Notation R := (Handler State Rejection).

Definition authenticate (r : Request) (k : string) : R (Z * Z) :=
  token ← gets (authenticate_token (bearer r));
  token ← ok_or (of_ingest IngestError.Unauthorized) token;
  let k := trim k in
  _ ← refuse_if (bool_decide (k = ""))
        (of_ingest (IngestError.BadRequest "the 'key' query parameter is required"));
  verdict ← gets (authorise_key k (extract_secret (secret_header r)));
  match verdict with
  | KeyAuth.Allowed target => mret (token, target)
  | KeyAuth.Denied => throw not_this_machine
  | KeyAuth.NotBound => throw not_bound
  | KeyAuth.Unknown => throw (not_found_ "Unknown machine: push a batch first.")
  end.

(** A call on the table of commands; its errors are internal. *)
Definition on_channel {A} (m : Handler Tables CommandError A) : R A :=
  fun s => let '(d, answer) := m (channel s) in
           (set_channel d s, match answer with inr a => inr a | inl _ => inl (of_ingest IngestError.Internal) end).

Definition pending (r : Request) (k : string) : R (list AgentCommand) :=
  '(token, target) ← authenticate r k;
  commands ← on_channel (pending_for_target (clock r) target);
  _ ← modify (touch_token (clock r) token);
  mret commands.

Definition report_route (r : Request) (k : string) (command : Z) (report_ : CommandReport) : R () :=
  '(_, target) ← authenticate r k;
  known ← on_channel (report (clock r) target command report_);
  refuse_if (negb known) (not_found_ "Command not found for this machine.").

(** ** The interface *)

Record TokenPayload := {
  y_name : string;
  y_reusable : bool;
  y_max_uses : option Z;
  y_expires_in_days : option Z;
}.

Notation A := (Handler State ApiError).

Definition policy (p : TokenPayload) : A TokenPolicy :=
  max ← match y_reusable p, y_max_uses p with
        | false, _ => mret (Some 1)
        | true, None => mret None
        | true, Some count =>
            if 1 <=? count then mret (Some count)
            else throw (ApiError.BadRequest "A reusable token must allow at least one enrolment.")
        end;
  _ ← refuse_if (is_some_and (y_expires_in_days p) (fun days => days <? 1))
        (ApiError.BadRequest "The enrolment deadline must be at least one day away.");
  mret {| max_uses := max; expires_in_days := y_expires_in_days p |}.

Definition create_token_route (now : Z) (bytes : list Z) (p : TokenPayload) : A (Z * string) :=
  let name := trim (y_name p) in
  _ ← refuse_if (bool_decide (name = "")) (ApiError.BadRequest "Token name is required.");
  policy ← policy p;
  created ← gets (create_token now bytes name policy);
  '(s, answer) ← ok_or ApiError.Internal created;
  _ ← modify (fun _ => s);
  mret answer.

Definition revoke_token_route (now id : Z) : A () :=
  revoked ← act (revoke_token now id);
  refuse_if (negb revoked)
    (ApiError.NotFound ("Token " +:+ display_i64 id +:+ " not found or already revoked.")%string).

Definition allow_rebind_route (now id : Z) : A Z :=
  found ← gets (fun s => get id (devices (fleet s)));
  row ← ok_or ApiError.Internal found;
  target ← ok_or (Targets.not_found id) row;
  _ ← refuse_if (negb (bool_decide (t_kind target = "agent")))
        (ApiError.NotFound ("Device " +:+ display_i64 id +:+ " has no agent.")%string);
  until ← act (allow_rebind now id);
  ok_or (ApiError.NotFound ("No agent has reported for device " +:+ display_i64 id +:+ " yet.")%string) until.

(** What goes with a device by [ON DELETE CASCADE]: its machine, its commands and its policies. *)
Definition forget_device (id : Z) (s : State) : State :=
  Build_State (fleet s) (last_token s) (tokens s) (base.delete id (hosts s))
    {| seq_ := seq_ (channel s); commands := filter (fun c => c_target c <> id) (commands (channel s));
       policies := filter (fun kv => kv.1.1 <> id) (policies (channel s)) |} (sink s).

(** A call on the devices. *)
Definition on_fleet (registry : Registry) (c : Targets.Call) (s : State) : State :=
  let s' := set_fleet (Targets.serve registry c (fleet s)) s in
  match c with Delete _ id => forget_device id s' | _ => s' end.

(** ** Everything that happens to the machines *)

Inductive Call :=
| Receive (r : Request) (b : PushBatch)
| Pending (r : Request) (k : string)
| Report (r : Request) (k : string) (command : Z) (report_ : CommandReport)
| CreateToken (now : Z) (bytes : list Z) (p : TokenPayload)
| RevokeToken (now id : Z)
| AllowRebind (now id : Z)
| Device (c : Targets.Call)
| Channel {E B} (m : Handler Tables E B).

Definition serve (registry : Registry) (c : Call) (s : State) : State :=
  match c with
  | Receive r b => (receive r b s).1
  | Pending r k => (pending r k s).1
  | Report r k command report_ => (report_route r k command report_ s).1
  | CreateToken now bytes p => (create_token_route now bytes p s).1
  | RevokeToken now id => (revoke_token_route now id s).1
  | AllowRebind now id => (allow_rebind_route now id s).1
  | Device c => on_fleet registry c s
  | Channel m => set_channel (m (channel s)).1 s
  end.
Definition serve_all (registry : Registry) (cs : list Call) (s : State) : State :=
  foldl (fun s c => serve registry c s) s cs.
End machines.
