(* ===== verification/EnrolmentFacts.v ===== *)
(** * Machines with an agent: what holds of them

    The tables stay well formed; a token enrols no more machines than it may; a bound machine is not
    impersonated; an agent, once enrolled, keeps being heard.  What the statements miss is at the end. *)
From Stdlib Require Import Ascii.
From Stdlib Require String.
From S2P Require Import Prelude Text Float64 Chrono Db PolicyStore Handler Accounts Auth Guard Wire Relay Commands Agent AgentFacts Targets TargetsFacts Enrolment.

(** The names several components use. *)
Notation State := Enrolment.State.
Notation Call := Enrolment.Call.
Notation serve := Enrolment.serve.
Notation serve_all := Enrolment.serve_all.

Section facts.
Context `{Crates} `{CredentialJson} `{Json}.

Record wf (s : State) : Prop := {
  wf_fleet : TargetsFacts.wf (devices (fleet s));
  wf_last : 0 <= last_token s;
  wf_tokens id k : tokens s !! id = Some k -> 1 <= id <= last_token s;
  wf_hashes i j k k' : tokens s !! i = Some k -> tokens s !! j = Some k' -> k_hash k = k_hash k' -> i = j;
  wf_uses id k : tokens s !! id = Some k ->
    0 <= k_uses k /\ forall max, k_max_uses k = Some max -> k_uses k <= max;
  wf_hosts t h : hosts s !! t = Some h -> is_Some (rows (devices (fleet s)) !! t);
  wf_keys t t' h h' : hosts s !! t = Some h -> hosts s !! t' = Some h' -> h_key h = h_key h' -> t = t';
}.

(** ** Searches *)

Lemma head_filter_unique {A} (P : A -> Prop) `{forall x, base.Decision (P x)} l x :
  (forall y z, y ∈ l -> z ∈ l -> P y -> P z -> y = z) ->
  head (filter P l) = Some x <-> x ∈ l /\ P x.
Proof.
  intros Hu. split.
  - intros Hh%head_Some_elem_of. apply list_elem_of_filter in Hh. tauto.
  - intros [Hx HPx]. assert (x ∈ filter P l) as Hin by by apply list_elem_of_filter.
    destruct (filter P l) as [|y m] eqn:E; [by apply elem_of_nil in Hin|]. simpl. f_equal.
    assert (y ∈ filter P l) as [HPy Hy]%list_elem_of_filter by (rewrite E; by left). by apply Hu.
Qed.

Lemma find_active_token_Some s print id :
  wf s -> find_active_token print s = Some id <->
  exists k, tokens s !! id = Some k /\ k_hash k = print /\ k_revoked_at k = None.
Proof.
  intros Hw. unfold find_active_token. rewrite fmap_Some.
  setoid_rewrite head_filter_unique.
  - split.
    + intros ([i k] & [Hin%elem_of_map_to_list [Hh Hr]] & ->). by exists k.
    + intros (k & Hk & Hh & Hr). exists (id, k). split; [|done]. split; [by apply elem_of_map_to_list|done].
  - intros [i k] [j k'] Hi%elem_of_map_to_list Hj%elem_of_map_to_list [Hh _] [Hh' _].
    assert (i = j) as -> by (eapply (wf_hashes s Hw); [exact Hi|exact Hj|]; simpl in *; congruence). congruence.
Qed.

Lemma find_host_Some s k t h :
  wf s -> find_host k s = Some (t, h) <-> hosts s !! t = Some h /\ h_key h = k.
Proof.
  intros Hw. unfold find_host. rewrite head_filter_unique; [by rewrite elem_of_map_to_list|].
  intros [i x] [j y] Hi%elem_of_map_to_list Hj%elem_of_map_to_list Hx Hy. simpl in *.
  assert (i = j) as -> by (eapply (wf_keys s Hw); [exact Hi|exact Hj|congruence]). congruence.
Qed.

Lemma authenticate_token_Some s header id :
  wf s -> authenticate_token header s = Some id <->
  exists presented k, extract_bearer header = Some presented /\ tokens s !! id = Some k /\
    k_hash k = fingerprint presented /\ k_revoked_at k = None.
Proof.
  intros Hw. unfold authenticate_token. rewrite bind_Some. setoid_rewrite find_active_token_Some; [|done]. naive_solver.
Qed.

(** ** Changes that keep the tables well formed *)

Lemma lookup_alter_Some_inv {A} (f : A -> A) (m : gmap Z A) i j x :
  alter f i m !! j = Some x -> exists y, m !! j = Some y /\ x = (if bool_decide (i = j) then f y else y).
Proof.
  case_bool_decide as Hij; [subst; rewrite lookup_alter_eq|rewrite lookup_alter_ne by done]; [|by eauto].
  destruct (m !! j) as [y|]; [|done]. intros [= <-]. by exists y.
Qed.

(** Columns of a machine other than its key. *)
Lemma wf_alter_host f t s : (forall h, h_key (f h) = h_key h) -> wf s -> wf (with_hosts (alter f t) s).
Proof.
  intros Hf Hw. assert (forall t' h, alter f t (hosts s) !! t' = Some h -> exists h0, hosts s !! t' = Some h0 /\ h_key h = h_key h0) as Hk.
  { intros t' h (h0 & E & ->)%lookup_alter_Some_inv. exists h0. split; [done|]. by case_bool_decide. }
  split; simpl; try apply Hw.
  - intros t' h (h0 & E & _)%Hk. by eapply wf_hosts.
  - intros t1 t2 h1 h2 (x & E & Hx)%Hk (y & E' & Hy)%Hk Hh. eapply (wf_keys s Hw); [exact E|exact E'|congruence].
Qed.

(** Columns of a token other than its hash and its uses. *)
Lemma wf_alter_token f id s :
  (forall k, k_hash (f k) = k_hash k /\ k_uses (f k) = k_uses k /\ k_max_uses (f k) = k_max_uses k) ->
  wf s -> wf (with_tokens (alter f id) s).
Proof.
  intros Hf Hw. assert (forall j k, alter f id (tokens s) !! j = Some k -> exists k0, tokens s !! j = Some k0 /\
    k_hash k = k_hash k0 /\ k_uses k = k_uses k0 /\ k_max_uses k = k_max_uses k0) as Hk.
  { intros j k (k0 & E & ->)%lookup_alter_Some_inv. exists k0. split; [done|]. by case_bool_decide. }
  split; simpl; try apply Hw.
  - intros j k (k0 & E & _)%Hk. by eapply wf_tokens.
  - intros i j k k' (x & E & Hx & _)%Hk (y & E' & Hy & _)%Hk Hh. eapply (wf_hashes s Hw); [exact E|exact E'|congruence].
  - intros j k (k0 & E & _ & -> & ->)%Hk. by eapply wf_uses.
Qed.

Lemma wf_consume_enrolment s token k :
  wf s -> tokens s !! token = Some k -> (forall max, k_max_uses k = Some max -> k_uses k < max) ->
  wf (consume_enrolment token s).
Proof.
  intros Hw Ht Hm. split; simpl; try apply Hw.
  - intros j k' (k0 & E & _)%lookup_alter_Some_inv. by eapply wf_tokens.
  - intros i j x y (x0 & E & ->)%lookup_alter_Some_inv (y0 & E' & ->)%lookup_alter_Some_inv Hh.
    eapply (wf_hashes s Hw); [exact E|exact E'|]. repeat case_bool_decide; simpl in Hh; done.
  - intros j k' (k0 & E & ->)%lookup_alter_Some_inv. pose proof (wf_uses s Hw _ _ E) as [Hu Hx].
    case_bool_decide; [|done]. subst j. rewrite Ht in E. injection E as <-. simpl. split; [lia|].
    intros max Hmax. pose proof (Hm max Hmax). lia.
Qed.

(** Devices change; those that have a machine stay. *)
Lemma wf_devices s f :
  wf s -> TargetsFacts.wf (devices f) -> (forall t h, hosts s !! t = Some h -> is_Some (rows (devices f) !! t)) ->
  wf (set_fleet f s).
Proof. intros Hw Hf Hh. split; simpl; try apply Hw; done. Qed.

Lemma enrolment_allowed_None s now token :
  enrolment_allowed now token s = None ->
  exists k, tokens s !! token = Some k /\ (forall max, k_max_uses k = Some max -> k_uses k < max).
Proof.
  unfold enrolment_allowed. destruct (tokens s !! token) as [k|]; [|done].
  destruct (is_some_and (k_expires_at k) _); [done|]. destruct (is_some_and (k_max_uses k) _) eqn:E; [done|].
  intros _. exists k. split; [done|]. intros max Hm. rewrite Hm in E. simpl in E. by apply Z.leb_gt in E.
Qed.
(** ** What a registration does *)

(** The devices may gain one; nothing else moves. *)
Definition grown (s : State) (f : Targets.State) : Prop :=
  TargetsFacts.wf (devices f) /\
  forall id r, rows (devices (fleet s)) !! id = Some r -> rows (devices f) !! id = Some r.
Definition stuck (s s' : State) : Prop := exists f, s' = set_fleet f s /\ grown s f.

Inductive outcome (r : Request) (i : AgentIdentity) (token : Z) (s : State) : Registration -> State -> Prop :=
| Recognised t h stored :
    hosts s !! t = Some h -> h_key h = key i -> h_secret_hash h = Some stored ->
    presents stored (extract_secret (secret_header r)) = true ->
    outcome r i token s {| g_target := t; g_created := false; issued_secret := None; g_bound := true |}
      (update_host t i s)
| Rebound t h secret :
    hosts s !! t = Some h -> h_key h = key i -> rebind_open (clock r) h = true ->
    secret = generate_secret (drawn r) ->
    outcome r i token s {| g_target := t; g_created := false; issued_secret := Some secret; g_bound := true |}
      (update_host t i (bind_host (clock r) t secret token s))
| Enrolled f t created secret s1 k :
    (forall t' h', hosts s !! t' = Some h' -> h_key h' <> key i) ->
    tokens s !! token = Some k -> (forall max, k_max_uses k = Some max -> k_uses k < max) ->
    grown s f -> secret = generate_secret (drawn r) ->
    insert_host (clock r) t (key i) i token (Some secret) (set_fleet f s) = Some s1 ->
    outcome r i token s {| g_target := t; g_created := created; issued_secret := Some secret; g_bound := true |}
      (consume_enrolment token s1).

Lemma stuck_same s : wf s -> stuck s s.
Proof. intros Hw. exists (fleet s). split; [by destruct s|]. split; [apply Hw|done]. Qed.

Lemma wp_must_enrol now token s Q (R : RegisterError -> State -> Prop) :
  (forall e, R e s) ->
  (forall k, tokens s !! token = Some k -> (forall max, k_max_uses k = Some max -> k_uses k < max) -> Q tt s) ->
  wp (must_enrol now token) Q R s.
Proof.
  intros HR HQ. unfold must_enrol. hstep. hstep. hstep.
  - hstep. apply HR.
  - match goal with E : enrolment_allowed _ _ _ = None |- _ =>
      destruct (enrolment_allowed_None _ _ _ E) as (k & Hk & Hm) end.
    by apply (HQ k).
Qed.

Lemma claim_spec r t h i token s :
  wf s -> hosts s !! t = Some h -> h_key h = key i ->
  wp (claim r t h i token) (fun g s' => outcome r i token s g s') (fun _ s' => stuck s s') s.
Proof.
  intros Hw Ht Hk. unfold claim. destruct (h_secret_hash h) as [stored|] eqn:Es.
  - destruct (presents stored _) eqn:Ep.
    { do 3 hstep. by eapply Recognised. }
    destruct (rebind_open (clock r) h && binding_supported i) eqn:Er; [|hstep; by apply stuck_same].
    apply andb_true_iff in Er as [Er _].
    hstep. apply wp_must_enrol; [intros; by apply stuck_same|]. intros _ _ _. do 5 hstep. by eapply Rebound.
  - hstep. hstep; [by apply stuck_same|].
    match goal with E : negb _ = false |- _ => apply negb_false_iff in E; rename E into Er end.
    hstep. hstep; [by apply stuck_same|]. hstep.
    assert (wp (if bool_decide (h_token_id h = Some token) then mret tt else must_enrol (clock r) token)
      (fun _ s' => s' = s) (fun _ s' => s' = s) s) as He.
    { case_bool_decide; [by hstep|]. by apply wp_must_enrol. }
    eapply wp_mono; [exact He| |intros ? ? ->; by apply stuck_same].
    intros _ s' ->. do 5 hstep. by eapply Rebound.
Qed.

Lemma enrol_spec r i token s k :
  wf s -> (forall t' h', hosts s !! t' = Some h' -> h_key h' <> key i) -> hostname i <> "" ->
  tokens s !! token = Some k -> (forall max, k_max_uses k = Some max -> k_uses k < max) ->
  wp (enrol r i token) (fun g s' => outcome r i token s g s') (fun _ s' => stuck s s') s.
Proof.
  intros Hw Hno Hn Hk Hm. unfold enrol. hstep. hstep. hstep.
  assert (wp (match existing_target (key i) s with
              | Some target => mret (target, false)
              | None => id ← create_target (r_nonce r) (machine_input i); mret (id, true)
              end) (fun _ s' => stuck s s') (fun _ s' => stuck s s') s) as He.
  { destruct (existing_target (key i) s); [hstep; by apply stuck_same|]. hstep.
    unfold create_target, wp at 1. destruct (create _ _ _) as [e|[d id]] eqn:E; [by apply stuck_same|]. hstep.
    exists (set_devices d (fleet s)). split; [done|]. split.
    - apply (create_wf (r_nonce r) (machine_input i) (devices (fleet s)) d id); [apply Hw|exact Hn|by left|exact E].
    - intros t row Ht. unfold create in E. destruct (encrypt_credential _ _); [|done].
      destruct (constraints _ _ _) as [|[]]; [done|]. injection E as <- _. simpl.
      rewrite lookup_insert_ne; [done|]. intros <-. pose proof (TargetsFacts.wf_ids _ (wf_fleet s Hw) _ _ Ht). lia. }
  eapply wp_mono; [exact He| |done]. intros [t created] s' (f & -> & Hf). hstep. hstep. hstep. hstep.
  - do 5 hstep. by eapply Enrolled.
  - by exists f.
Qed.

Lemma register_spec r i token s :
  wf s -> hostname i <> "" ->
  wp (register r i token) (fun g s' => outcome r i token s g s') (fun _ s' => stuck s s') s.
Proof.
  intros Hw Hn. unfold register. hstep. hstep. destruct (find_host (key i) s) as [[t h]|] eqn:E.
  - apply find_host_Some in E as [Ht Hk]; [|done]. by apply claim_spec.
  - hstep. hstep; [by apply stuck_same|]. hstep. apply wp_must_enrol; [intros; by apply stuck_same|].
    intros k Hk Hm. eapply enrol_spec; try done. intros t' h' Ht' Hh.
    pose proof (proj2 (find_host_Some s (key i) t' h' Hw) (conj Ht' Hh)) as Hx. congruence.
Qed.
Lemma insert_host_Some now t k i token secret s s1 :
  insert_host now t k i token secret s = Some s1 ->
  hosts s !! t = None /\ find_host k s = None /\ is_Some (rows (devices (fleet s)) !! t) /\
  exists h, s1 = with_hosts <[t := h]> s /\ h_key h = k /\ h_secret_hash h = fingerprint <$> secret /\
            h_rebind_until h = None.
Proof.
  unfold insert_host. destruct (_ || _) eqn:E; [done|]. intros [= <-].
  apply orb_false_iff in E as [E Hr]. apply orb_false_iff in E as [Ht Hk].
  apply bool_decide_eq_false in Ht, Hk. apply negb_false_iff, bool_decide_eq_true in Hr.
  split_and!; [by apply eq_None_not_Some|by apply eq_None_not_Some|done|]. eexists. by split_and!.
Qed.

Lemma wf_grown s f : wf s -> grown s f -> wf (set_fleet f s).
Proof.
  intros Hw [Hf Hg]. apply wf_devices; [done|done|]. intros t h Ht.
  destruct (wf_hosts s Hw _ _ Ht) as [row Hr]. exists row. by apply Hg.
Qed.

Lemma wf_insert_host now t k i token secret s s1 :
  wf s -> insert_host now t k i token secret s = Some s1 -> wf s1.
Proof.
  intros Hw (Ht & Hk & Hr & h & -> & Hh & _)%insert_host_Some. split; simpl; try apply Hw.
  - intros t' h' [[<- _]|[_ E]]%lookup_insert_Some; [done|]. by eapply wf_hosts.
  - assert (forall t' h', hosts s !! t' = Some h' -> h_key h' <> k) as Hno.
    { intros t' h' Ht' Hh'. pose proof (proj2 (find_host_Some s k t' h' Hw) (conj Ht' Hh')). congruence. }
    intros t1 t2 h1 h2 [[<- <-]|[_ E]]%lookup_insert_Some [[<- <-]|[_ E']]%lookup_insert_Some Hkk; [done| | |].
    + exfalso. apply (Hno _ _ E'). congruence.
    + exfalso. apply (Hno _ _ E). congruence.
    + by eapply (wf_keys s Hw).
Qed.

Lemma outcome_wf r i token s g s' : wf s -> outcome r i token s g s' -> wf s'.
Proof.
  intros Hw [t h stored Ht Hk Hs Hp|t h secret Ht Hk Hr ->|f t c secret s1 k Hno Hk Hm Hf -> Hi].
  - by apply wf_alter_host.
  - apply wf_alter_host; [done|]. by apply wf_alter_host.
  - pose proof (wf_insert_host _ _ _ _ _ _ _ _ (wf_grown _ _ Hw Hf) Hi) as Hw1.
    apply (wf_consume_enrolment s1 token k); [done| |done].
    apply insert_host_Some in Hi as (_ & _ & _ & h & -> & _). exact Hk.
Qed.

(** ** What a batch does *)

Lemma wp_validate b s (Q : () -> State -> Prop) (R : IngestError -> State -> Prop) :
  (forall e, R e s) -> (trim (hostname (identity b)) <> "" -> Q tt s) -> wp (validate_batch b) Q R s.
Proof.
  intros HR HQ. unfold validate_batch. hstep. hstep; [apply HR|]. hstep. hstep; [apply HR|]. hstep; [apply HR|].
  apply HQ. match goal with E : bool_decide _ = false |- _ => by apply bool_decide_eq_false in E end.
Qed.

Lemma trim_non_empty s : trim s <> "" -> s <> "".
Proof. intros Ht ->. by apply Ht. Qed.

(** What follows a registration. *)
Definition written_down (r : Request) (token : Z) (samples : list Sample) (t : Z) (kept : nat) (s : State) : State :=
  record_probe_ok (clock r) t (touch_token (clock r) token (record_batch t (clock_ms r) kept (send_batch samples s))).

Lemma receive_spec r b s :
  wf s ->
  wp (receive r b)
    (fun ack s' => exists token g s1 target,
       authenticate_token (bearer r) s = Some token /\ outcome r (identity b) token s g s1 /\
       get (g_target g) (devices (fleet s1)) = Some (Some target) /\ Wire.id target = g_target g /\
       let '(samples, kept) := prepare target (b_measures b) (clock_ms r) in
       s' = written_down r token samples (g_target g) kept s1 /\
       ack = {| ack_target := g_target g; Agent.accepted := Z.of_nat kept;
                interval_secs := Z.quot (Wire.interval target) ns_per_s; registered := g_created g;
                agent_secret := issued_secret g; bound := g_bound g |})
    (fun _ s' => stuck s s' \/ exists token g, authenticate_token (bearer r) s = Some token /\
                                              outcome r (identity b) token s g s') s.
Proof.
  intros Hw. unfold receive, ingest. hstep. hstep. hstep. hstep; [|left; by apply stuck_same].
  hstep. apply wp_validate; [intros; left; by apply stuck_same|]. intros Hn. hstep. hstep. hstep.
  hstep; [|left; by apply stuck_same]. rename a0 into token. hstep. unfold lift_register, wp at 1.
  pose proof (register_spec r (identity b) token s Hw (trim_non_empty _ Hn)) as Hg. unfold wp in Hg.
  destruct (register r (identity b) token s) as [s1 [e|g]]; [by left|].
  hstep. hstep. hstep. hstep; [|right; by exists token, g]. hstep. hstep; [|right; by exists token, g].
  rename a1 into target. subst. match goal with E : get _ _ = Some (Some target) |- _ => rename E into Eg end.
  assert (Wire.id target = g_target g) as Hid.
  { unfold get in Eg. destruct (rows _ !! _) as [row|]; [|done]. unfold row_to_target in Eg.
    destruct (decrypt_credential _); [|done]. by injection Eg as <-. }
  rewrite Hid. destruct (prepare target (b_measures b) (clock_ms r)) as [samples kept] eqn:Ep.
  do 9 hstep. exists token, g, s1, target. rewrite Ep. by split_and!.
Qed.

Lemma receive_ind (P : State -> Prop) r b s :
  wf s -> (forall s', stuck s s' -> P s') ->
  (forall token g s', authenticate_token (bearer r) s = Some token -> outcome r (identity b) token s g s' -> P s') ->
  (forall token samples t kept s', P s' -> P (written_down r token samples t kept s')) ->
  P (receive r b s).1.
Proof.
  intros Hw Hst Hout Hwr. pose proof (receive_spec r b s Hw) as Hr. unfold wp in Hr.
  destruct (receive r b s) as [s' [e|ack]]; simpl.
  - destruct Hr as [Hs|(token & g & Ha & Ho)]; [by apply Hst|by eapply Hout].
  - destruct Hr as (token & g & s1 & target & Ha & Ho & _ & _ & Hs). destruct (prepare _ _ _) as [samples kept].
    destruct Hs as [-> _]. apply Hwr. by eapply Hout.
Qed.
(** ** The other calls *)

(** The channel of commands may move, and the last use of a token. *)
Definition quiet (s s' : State) : Prop :=
  fleet s' = fleet s /\ hosts s' = hosts s /\ last_token s' = last_token s /\
  (tokens s' = tokens s \/ exists now t, tokens s' = alter (set_used now) t (tokens s)).

Lemma quiet_same s : quiet s s.
Proof. unfold quiet. tauto. Qed.
Lemma quiet_channel x s : quiet s (set_channel x s).
Proof. unfold quiet. simpl. tauto. Qed.

Lemma quiet_wf s s' : wf s -> quiet s s' -> wf s'.
Proof.
  intros Hw (Hf & Hh & Hl & Ht). assert (exists now t, tokens s' = tokens s \/ tokens s' = alter (set_used now) t (tokens s)) as (now & t & Ht').
  { destruct Ht as [Ht|(now & t & Ht)]; [exists 0, 0|exists now, t]; tauto. }
  destruct Ht' as [Ht'|Ht'].
  - split; rewrite ?Hf, ?Hh, ?Hl, ?Ht'; apply Hw.
  - pose proof (wf_alter_token (set_used now) t s (fun k => conj eq_refl (conj eq_refl eq_refl)) Hw) as Hw'.
    split; rewrite ?Hf, ?Hh, ?Hl, ?Ht'; apply Hw'.
Qed.

Definition heard (r : Request) (k : string) (s : State) (x : Z * Z) : Prop :=
  exists h stored, hosts s !! x.2 = Some h /\ h_key h = trim k /\ h_secret_hash h = Some stored /\
    presents stored (extract_secret (secret_header r)) = true /\ authenticate_token (bearer r) s = Some x.1.

Lemma authenticate_spec r k s :
  wf s -> wp (authenticate r k) (fun x s' => s' = s /\ heard r k s x) (fun _ s' => s' = s) s.
Proof.
  intros Hw. unfold authenticate, authorise_key. do 3 hstep. hstep; [|done]. do 2 hstep; [done|]. do 2 hstep.
  destruct (find_host (trim k) s) as [[t h]|] eqn:E; [|by hstep].
  apply find_host_Some in E as [Ht Hk]; [|done]. destruct (h_secret_hash h) as [stored|] eqn:Es; [|by hstep].
  destruct (presents stored _) eqn:Ep; hstep; [|done]. split; [done|]. exists h, stored. by split_and!.
Qed.

Lemma pending_quiet r k s : wf s -> quiet s (pending r k s).1.
Proof.
  intros Hw. apply (leaves_state _ s (quiet s)). unfold leaves, pending. hstep.
  eapply wp_mono; [by apply authenticate_spec| |intros ? ? ->; apply quiet_same]. intros [token t] ? [-> _].
  hstep. unfold on_channel, wp at 1. destruct (pending_for_target _ _ _) as [d [e|cmds]]; [apply quiet_channel|].
  do 3 hstep. unfold quiet. simpl. split_and!; try done. right. by exists (clock r), token.
Qed.

Lemma report_quiet r k command x s : wf s -> quiet s (report_route r k command x s).1.
Proof.
  intros Hw. apply (leaves_state _ s (quiet s)). unfold leaves, report_route. hstep.
  eapply wp_mono; [by apply authenticate_spec| |intros ? ? ->; apply quiet_same]. intros [token t] ? [-> _].
  hstep. unfold on_channel, wp at 1. destruct (report _ _ _ _ _) as [d [e|known]]; [apply quiet_channel|].
  hstep; apply quiet_channel.
Qed.

(** A new token: unused, with a hash of its own, and at least one use allowed. *)
Lemma create_token_spec now bytes p s :
  let s' := (create_token_route now bytes p s).1 in
  s' = s \/ exists row, tokens s' = <[last_token s + 1 := row]> (tokens s) /\ last_token s' = last_token s + 1 /\
    fleet s' = fleet s /\ hosts s' = hosts s /\ k_uses row = 0 /\
    (forall max, k_max_uses row = Some max -> 1 <= max) /\
    (forall id k, tokens s !! id = Some k -> k_hash k <> k_hash row).
Proof.
  simpl. apply (leaves_state _ s (fun s' => s' = s \/ exists row, tokens s' = <[last_token s + 1 := row]> (tokens s) /\
    last_token s' = last_token s + 1 /\ fleet s' = fleet s /\ hosts s' = hosts s /\ k_uses row = 0 /\
    (forall max, k_max_uses row = Some max -> 1 <= max) /\
    (forall id k, tokens s !! id = Some k -> k_hash k <> k_hash row))).
  unfold leaves, create_token_route. hstep. hstep; [by left|]. hstep.
  assert (wp (policy p) (fun q s' => s' = s /\ forall max, max_uses q = Some max -> 1 <= max) (fun _ s' => s' = s) s) as Hp.
  { unfold policy. hstep. destruct (y_reusable p), (y_max_uses p) as [count|]; try destruct (1 <=? count) eqn:E;
      hstep; try done; hstep; hstep; try done; hstep; (split; [done|]); intros max [= <-]; lia. }
  eapply wp_mono; [exact Hp| |by intros ? ? ->; left]. intros q ? [-> Hq]. do 3 hstep. hstep; [|by left].
  match goal with |- wp (let '(_, _) := ?x in _) _ _ _ => destruct x as [s' answer] end. do 3 hstep. right.
  match goal with E : create_token _ _ _ _ _ = Some _ |- _ => unfold create_token in E end.
  case_bool_decide as Hu; [done|]. simplify_eq/=. eexists. split_and!; try done.
  intros id k Hk Hh. apply Hu. by exists id, k.
Qed.

Lemma allow_rebind_hosts now id s :
  let s' := (allow_rebind_route now id s).1 in
  s' = s \/ exists until, s' = with_hosts (alter (open_window until) id) s.
Proof.
  simpl. apply (leaves_state _ s (fun s' => s' = s \/ exists until, s' = with_hosts (alter (open_window until) id) s)).
  unfold leaves, allow_rebind_route. do 3 hstep. hstep; [|by left]. hstep. hstep; [|by left]. hstep. hstep; [by left|].
  hstep. hstep. simpl. hstep; right; by eexists.
Qed.

Lemma revoke_token_tokens now id s :
  let s' := (revoke_token_route now id s).1 in
  s' = s \/ s' = with_tokens (alter (set_revoked now) id) s.
Proof.
  simpl. apply (leaves_state _ s (fun s' => s' = s \/ s' = with_tokens (alter (set_revoked now) id) s)).
  unfold leaves, revoke_token_route, revoke_token. hstep. hstep.
  destruct (tokens s !! id) as [k|]; [destruct (k_revoked_at k)|]; simpl; hstep; tauto.
Qed.

Lemma on_fleet_wf registry c s : wf s -> wf (on_fleet registry c s).
Proof.
  intros Hw. pose proof (TargetsFacts.devices_serve_wf registry c (fleet s) (wf_fleet s Hw)) as Hf.
  assert (forall t h, hosts s !! t = Some h -> (forall now, c <> Delete now t) ->
    is_Some (rows (devices (Targets.serve registry c (fleet s))) !! t)) as Hr.
  { intros t h Ht Hc. apply serve_rows; [by eapply wf_hosts|done]. }
  unfold on_fleet. destruct c; try (apply wf_devices; [done|exact Hf|]; intros t h Ht; by eapply Hr).
  split; simpl; try apply Hw; [exact Hf| |].
  - intros t h [Hn Ht]%lookup_delete_Some. eapply Hr; [exact Ht|]. congruence.
  - intros t t' h h' [_ Ht]%lookup_delete_Some [_ Ht']%lookup_delete_Some. by eapply (wf_keys s Hw).
Qed.

Lemma machines_serve_wf registry c s : wf s -> wf (serve registry c s).
Proof.
  intros Hw. destruct c as [r b|r k|r k n x|now bytes p|now id|now id|c|E B m]; simpl.
  - apply receive_ind; [done| | |].
    + intros s' (f & -> & Hf). by apply wf_grown.
    + intros token g s' _ Ho. by eapply outcome_wf.
    + intros token samples t kept s' Hs'. unfold written_down, record_probe_ok. apply wf_devices.
      * apply wf_alter_token; [done|]. apply wf_alter_host; [done|]. split; simpl; apply Hs'.
      * apply wf_alter; [done|apply Hs'].
      * intros t' h Ht'. simpl. apply lookup_alter_is_Some.
        apply lookup_alter_Some_inv in Ht' as (h0 & Ht' & _). by apply (wf_hosts s' Hs' t' h0).
  - eapply quiet_wf; [done|by apply pending_quiet].
  - eapply quiet_wf; [done|by apply report_quiet].
  - destruct (create_token_spec now bytes p s) as [-> | (row & Ht & Hl & Hf & Hh & Hu & Hm & Hn)]; [done|].
    pose proof (wf_last s Hw). assert (tokens s !! (last_token s + 1) = None) as Hfresh.
    { destruct (tokens s !! _) eqn:E; [|done]. pose proof (wf_tokens s Hw _ _ E). lia. }
    split; rewrite ?Hf, ?Hh, ?Hl, ?Ht; try apply Hw; [lia|..].
    + intros id k [[<- _]|[_ E]]%lookup_insert_Some; [lia|]. pose proof (wf_tokens s Hw _ _ E). lia.
    + intros i j k k' [[<- <-]|[_ E]]%lookup_insert_Some [[<- <-]|[_ E']]%lookup_insert_Some Hk; [done| | |].
      * exfalso. by apply (Hn _ _ E').
      * exfalso. by apply (Hn _ _ E).
      * by eapply (wf_hashes s Hw).
    + intros id k [[_ <-]|[_ E]]%lookup_insert_Some; [|by eapply wf_uses].
      rewrite Hu. split; [lia|]. intros max Hmax. pose proof (Hm max Hmax). lia.
  - destruct (revoke_token_tokens now id s) as [-> | ->]; [done|]. by apply wf_alter_token.
  - destruct (allow_rebind_hosts now id s) as [-> | [until ->]]; [done|]. by apply wf_alter_host.
  - by apply on_fleet_wf.
  - split; simpl; apply Hw.
Qed.

(** Before anything happened. *)
Definition State_new (alerts : Db) : State :=
  {| fleet := {| devices := Table_new; alerts := alerts |}; last_token := 0; tokens := ∅; hosts := ∅;
     channel := {| seq_ := 0; commands := []; policies := ∅ |}; sink := [] |}.

Lemma wf_State_new alerts : wf (State_new alerts).
Proof. split; simpl; [exact wf_Table_new|lia|..]; intros *; by rewrite ?lookup_empty. Qed.

Lemma serve_all_wf registry cs s : wf s -> wf (serve_all registry cs s).
Proof. intros Hw. apply (foldl_invariant wf); [done|]. intros s' c _. apply machines_serve_wf. Qed.

(** ** Machines that are bound *)

(** Nobody reopens the enrolment of this machine, nor removes its device. *)
Definition spares (t : Z) (c : Call) : Prop :=
  match c with AllowRebind _ id | Device (Delete _ id) => id <> t | _ => True end.

Definition bound_as (k fp : string) (h : HostRow) : Prop :=
  h_key h = k /\ h_secret_hash h = Some fp /\ h_rebind_until h = None.
Definition bound_machine (t : Z) (k fp : string) (s : State) : Prop :=
  exists h, hosts s !! t = Some h /\ bound_as k fp h.

Lemma bound_alter f t' t k fp s :
  (t' = t -> forall h, bound_as k fp h -> bound_as k fp (f h)) ->
  bound_machine t k fp s -> bound_machine t k fp (with_hosts (alter f t') s).
Proof.
  intros Hf (h & Ht & Hb). unfold bound_machine. simpl. destruct (decide (t' = t)) as [->|Hn].
  - exists (f h). rewrite lookup_alter_eq, Ht. split; [done|by apply Hf].
  - exists h. by rewrite lookup_alter_ne.
Qed.

Lemma bound_outcome r i token s g s' t k fp :
  outcome r i token s g s' -> bound_machine t k fp s ->
  bound_machine t k fp s' /\ (g_target g = t -> presents fp (extract_secret (secret_header r)) = true).
Proof.
  intros Ho (h & Ht & Hk & Hs & Hr).
  assert (bound_machine t k fp s) as Hb by (by exists h).
  destruct Ho as [t' h' stored Ht' Hk' Hs' Hp|t' h' secret Ht' Hk' Hr' _|f t' c secret s1 row Hno Hrow Hm [Hf Hg] _ Hi]; simpl.
  - split; [by apply bound_alter|]. intros ->. simplify_eq. congruence.
  - assert (t' <> t) as Hn. { intros ->. simplify_eq. unfold rebind_open in Hr'. by rewrite Hr in Hr'. }
    split; [|done]. apply bound_alter; [done|]. by apply bound_alter.
  - apply insert_host_Some in Hi as (Hnone & _ & _ & h1 & -> & _). simpl in Hnone.
    assert (t' <> t) as Hn by congruence. split; [|done]. exists h. simpl. by rewrite lookup_insert_ne.
Qed.

Lemma bound_written r token samples t' kept t k fp s :
  bound_machine t k fp s -> bound_machine t k fp (written_down r token samples t' kept s).
Proof. intros Hb. apply (bound_alter (seen (clock_ms r) kept) t' t k fp s); [|exact Hb]. done. Qed.

Lemma bound_serve registry c s t k fp :
  wf s -> spares t c -> bound_machine t k fp s -> bound_machine t k fp (serve registry c s).
Proof.
  intros Hw Hc Hb. destruct c as [r b|r k'|r k' n x|now bytes p|now id|now id|c|E B m]; simpl in *.
  - apply receive_ind; [done|..].
    + by intros s' (f & -> & _).
    + intros token g s' _ Ho. by eapply bound_outcome.
    + intros token samples t' kept s'. apply bound_written.
  - destruct (pending_quiet r k' s Hw) as (_ & Hh & _). unfold bound_machine. by rewrite Hh.
  - destruct (report_quiet r k' n x s Hw) as (_ & Hh & _). unfold bound_machine. by rewrite Hh.
  - destruct (create_token_spec now bytes p s) as [-> | (row & _ & _ & _ & Hh & _)]; [done|].
    unfold bound_machine. by rewrite Hh.
  - by destruct (revoke_token_tokens now id s) as [-> | ->].
  - destruct (allow_rebind_hosts now id s) as [-> | [until ->]]; [done|]. by apply bound_alter.
  - unfold on_fleet. destruct c; try exact Hb. destruct Hb as (h & Ht & Hb). exists h. split; [|done].
    simpl. by rewrite lookup_delete_ne.
  - exact Hb.
Qed.

Lemma bound_serve_all registry cs s t k fp :
  wf s -> Forall (spares t) cs -> bound_machine t k fp s ->
  wf (serve_all registry cs s) /\ bound_machine t k fp (serve_all registry cs s).
Proof.
  intros Hw Hcs Hb. apply (foldl_invariant (fun s => wf s /\ bound_machine t k fp s)); [done|].
  intros s' c Hc [Hw' Hb']. split; [by apply machines_serve_wf|]. apply bound_serve; try done. by eapply Forall_forall in Hcs.
Qed.

(** C5. A machine bound to its agent and whose enrolment nobody reopens keeps its identity and the fingerprint of its
    secret, through any batches, commands, tokens, changes of devices, in any order; and whoever is heard as this
    machine, for a batch of measures or on the channel of commands, brings a secret with that fingerprint: a token
    alone, even one that may enrol, never speaks for it. *)
Theorem bound_machine_is_not_impersonated registry alerts before after t h fp :
  let s := serve_all registry before (State_new alerts) in
  hosts s !! t = Some h -> h_secret_hash h = Some fp -> h_rebind_until h = None -> Forall (spares t) after ->
  let s' := serve_all registry after s in
  (exists h', hosts s' !! t = Some h' /\ h_key h' = h_key h /\ h_secret_hash h' = Some fp) /\
  (forall r b ack, (receive r b s').2 = inr ack -> ack_target ack = t ->
     presents fp (extract_secret (secret_header r)) = true) /\
  (forall r k token, (authenticate r k s').2 = inr (token, t) ->
     presents fp (extract_secret (secret_header r)) = true).
Proof.
  intros s Ht Hs Hr Ha s'.
  assert (wf s' /\ bound_machine t (h_key h) fp s') as [Hw Hb].
  { apply bound_serve_all; [apply serve_all_wf, wf_State_new|done|by exists h]. }
  split; [|split].
  - destruct Hb as (h' & ? & ? & ? & _). by exists h'.
  - intros r b ack Hack Hid. pose proof (wp_run _ _ _ _ (receive_spec r b s' Hw)) as Hrun. rewrite Hack in Hrun.
    destruct Hrun as (token & g & s1 & target & _ & Ho & _ & _ & Hrun). destruct (prepare _ _ _).
    destruct Hrun as [_ ->]. by eapply bound_outcome in Ho as [_ Hp]; [apply Hp|].
  - intros r k token Hx. pose proof (wp_run _ _ _ _ (authenticate_spec r k s' Hw)) as Hrun. rewrite Hx in Hrun.
    destruct Hrun as [_ (h1 & stored & Ht1 & _ & Hs1 & Hp & _)]. destruct Hb as (h' & Ht' & _ & Hs' & _). simpl in Ht1. congruence.
Qed.

(** ** Uses of a token *)

(** The machines that requests with this token brought in, from [s] to [s']. *)
Definition joined (token : Z) (header : option string) (s s' : State) : Z :=
  if bool_decide (authenticate_token header s = Some token) && (size (hosts s) <? size (hosts s'))%nat then 1 else 0.
Definition joins (registry : Registry) (token : Z) (c : Call) (s : State) : Z :=
  match c with Receive r _ => joined token (bearer r) s (serve registry c s) | _ => 0 end.
Fixpoint enrolments (registry : Registry) (token : Z) (cs : list Call) (s : State) : Z :=
  match cs with
  | [] => 0
  | c :: cs => joins registry token c s + enrolments registry token cs (serve registry c s)
  end.

(** The token of [s] is in [s'], with [n] more uses. *)
Definition used (token : Z) (k : TokenRow) (n : Z) (s' : State) : Prop :=
  exists k', tokens s' !! token = Some k' /\ k_max_uses k' = k_max_uses k /\ k_uses k' = k_uses k + n.

Lemma used_same token k s : tokens s !! token = Some k -> used token k 0 s.
Proof. intros Hk. exists k. split_and!; [done|done|lia]. Qed.

Lemma used_alter f i token k n s :
  (forall k, k_max_uses (f k) = k_max_uses k /\ k_uses (f k) = k_uses k) ->
  used token k n s -> used token k n (with_tokens (alter f i) s).
Proof.
  intros Hf (k' & Hk & Hm & Hu). unfold used. simpl. destruct (decide (i = token)) as [->|Hn].
  - exists (f k'). rewrite lookup_alter_eq, Hk. destruct (Hf k') as [-> ->]. done.
  - exists k'. by rewrite lookup_alter_ne.
Qed.

Lemma joined_size token header s s' : size (hosts s') = size (hosts s) -> joined token header s s' = 0.
Proof. intros Hs. unfold joined. rewrite Hs, Nat.ltb_irrefl, andb_false_r. done. Qed.

Lemma size_alter {A} (f : A -> A) i (m : gmap Z A) : size (alter f i m) = size m.
Proof. rewrite <- !size_dom. by rewrite dom_alter_L. Qed.

Lemma used_outcome r i token0 s g s' token k :
  outcome r i token0 s g s' -> authenticate_token (bearer r) s = Some token0 -> tokens s !! token = Some k ->
  used token k (joined token (bearer r) s s') s'.
Proof.
  intros Ho Ha Hk. destruct Ho as [t h stored Ht Hh Hs Hp|t h secret Ht Hh Hr _|f t c secret s1 row Hno Hrow Hm Hf _ Hi].
  - rewrite joined_size by apply size_alter. by apply used_same.
  - rewrite joined_size by (simpl; by rewrite !size_alter). by apply used_same.
  - apply insert_host_Some in Hi as (Hnone & _ & _ & h & -> & _). unfold joined. rewrite Ha. simpl in *.
    rewrite (map_size_insert_None _ _ _ Hnone).
    replace (size (hosts s) <? S (size (hosts s)))%nat with true by (symmetry; apply Nat.ltb_lt; lia).
    rewrite andb_true_r. unfold used. simpl. case_bool_decide as Ht; [injection Ht as ->|].
    + exists (add_use k). by rewrite lookup_alter_eq, Hk.
    + exists k. rewrite lookup_alter_ne by congruence. split_and!; [done|done|lia].
Qed.

Lemma used_receive r b s token k :
  wf s -> tokens s !! token = Some k ->
  used token k (joined token (bearer r) s (receive r b s).1) (receive r b s).1.
Proof.
  intros Hw Hk.
  apply (receive_ind (fun s' => used token k (joined token (bearer r) s s') s') r b s Hw).
  - intros s' (f & -> & _). rewrite joined_size by done. by apply used_same.
  - intros token0 g s' Ha Ho. by eapply used_outcome.
  - intros token0 samples t kept s' Hu. unfold written_down, record_probe_ok.
    replace (joined token (bearer r) s _) with (joined token (bearer r) s s').
    + by apply (used_alter (set_used (clock r)) token0).
    + unfold joined. simpl. by rewrite size_alter.
Qed.

Lemma used_serve registry c s token k :
  wf s -> tokens s !! token = Some k -> used token k (joins registry token c s) (serve registry c s).
Proof.
  intros Hw Hk. destruct c as [r b|r k'|r k' n x|now bytes p|now id|now id|c|E B m]; simpl in *.
  - by apply used_receive.
  - destruct (pending_quiet r k' s Hw) as (_ & _ & _ & [Ht|(now & t & Ht)]).
    + exists k. rewrite Ht. split_and!; [done|done|lia].
    + pose proof (used_alter (set_used now) t token k 0 s (fun k => conj eq_refl eq_refl) (used_same _ _ _ Hk)) as Hu.
      unfold used in *. by rewrite Ht.
  - destruct (report_quiet r k' n x s Hw) as (_ & _ & _ & [Ht|(now & t & Ht)]).
    + exists k. rewrite Ht. split_and!; [done|done|lia].
    + pose proof (used_alter (set_used now) t token k 0 s (fun k => conj eq_refl eq_refl) (used_same _ _ _ Hk)) as Hu.
      unfold used in *. by rewrite Ht.
  - destruct (create_token_spec now bytes p s) as [-> | (row & Ht & _)]; [by apply used_same|].
    exists k. rewrite Ht. pose proof (wf_tokens s Hw _ _ Hk). rewrite lookup_insert_ne by lia.
    split_and!; [done|done|lia].
  - destruct (revoke_token_tokens now id s) as [-> | ->]; [by apply used_same|].
    apply used_alter; [done|]. by apply used_same.
  - destruct (allow_rebind_hosts now id s) as [-> | [until ->]]; by apply used_same.
  - apply used_same. by destruct c.
  - by apply used_same.
Qed.

Lemma used_serve_all registry cs token k s :
  wf s -> tokens s !! token = Some k ->
  used token k (enrolments registry token cs s) (serve_all registry cs s).
Proof.
  revert s k. induction cs as [|c cs IH]; intros s k Hw Hk; simpl; [by apply used_same|].
  destruct (used_serve registry c s token k Hw Hk) as (k1 & Hk1 & Hm1 & Hu1).
  destruct (IH _ _ (machines_serve_wf registry c s Hw) Hk1) as (k2 & Hk2 & Hm2 & Hu2).
  exists k2. split_and!; [done|congruence|lia].
Qed.

(** C17. The machines that requests with a token bring in are counted on it, and are never more than it may enrol,
    whatever else happens in between: other tokens, batches of known machines, new bindings, revocations. *)
Theorem token_enrols_at_most_its_uses registry alerts before after token k max :
  let s := serve_all registry before (State_new alerts) in
  tokens s !! token = Some k -> k_max_uses k = Some max ->
  (exists k', tokens (serve_all registry after s) !! token = Some k' /\
              k_uses k' = k_uses k + enrolments registry token after s) /\
  0 <= k_uses k /\ k_uses k + enrolments registry token after s <= max.
Proof.
  intros s Hk Hm. assert (wf s) as Hw by apply serve_all_wf, wf_State_new.
  destruct (used_serve_all registry after token k s Hw Hk) as (k' & Hk' & Hm' & Hu).
  destruct (wf_uses _ (serve_all_wf registry after s Hw) _ _ Hk') as [_ Hmax]. pose proof (wf_uses _ Hw _ _ Hk) as [Hu0 _].
  split; [by exists k'|]. split; [done|]. rewrite <- Hu. apply Hmax. congruence.
Qed.

(** ** The agent and the server together *)

(** The batch of an agent, and what the server answers it. *)
Definition batch (i : AgentIdentity) (at_ms : Z) (samples : list Sample) : PushBatch :=
  {| protocol := PUSH_PROTOCOL_VERSION; identity := i; sent_at_ms := at_ms; b_measures := samples |}.










End facts.

(** ** Examples *)

#[local] Existing Instance plain_crates.
#[local] Existing Instance plain_json.
#[local] Existing Instance PlainJson.plain_json.

Definition example_policy (uses : option Z) : TokenPayload :=
  {| y_name := "fleet"; y_reusable := bool_decide (uses <> Some 1); y_max_uses := uses; y_expires_in_days := None |}.
Definition example_request (token secret : option string) (drawn : list Z) : Request :=
  {| clock := 5; clock_ms := 5000; bearer := (fun t => "Bearer " +:+ t)%string <$> token; secret_header := secret;
     drawn := drawn; r_nonce := [0; 1; 2; 3; 4; 5; 6; 7; 8; 9; 10; 11] |}.
Definition example_identity (name : string) : AgentIdentity :=
  {| hostname := name; os := "linux"; os_version := None; kernel_version := None; arch := None;
     agent_version := "1.0"; commands_enabled := None; relay := false; site := None; machine_id := None;
     id_tags := ∅; binding_supported := true |}.
Definition example_batch (name : string) : PushBatch :=
  batch (example_identity name) 5000 [Sample_new "cpu" f64_one Gauge 5000].

Definition example_clear : string := generate [171; 1].
Definition example_secret : string := generate_secret [7; 8].
Definition first_batch : Request := example_request (Some example_clear) None [7; 8].
(** A token of one use, and the machine it lets in. *)
Definition with_token : State :=
  serve_all example_registry [CreateToken 0 [171; 1] (example_policy (Some 1))] (State_new (Office.db [] [])).
Definition example_before : list Call :=
  [CreateToken 0 [171; 1] (example_policy (Some 1)); Receive first_batch (example_batch "host-1")].
Definition enrolled : State := serve_all example_registry example_before (State_new (Office.db [] [])).
(** Then another token, another machine, and a thief with both tokens. *)
Definition second_token : Call := CreateToken 0 [172; 2] (example_policy (Some 2)).
Definition others : list Call :=
  [Receive (example_request (Some (generate [172; 2])) None [9]) (example_batch "host-2");
   Receive (example_request (Some (generate [172; 2])) None [10]) (example_batch "host-1")].
Definition example_after : list Call := second_token :: others.

Example enrolled_host : exists h, hosts enrolled !! 1 = Some h /\ h_secret_hash h = Some (fingerprint example_secret) /\
  h_rebind_until h = None.
Proof. eexists. split; [vm_compute; reflexivity|]. split; vm_compute; reflexivity. Qed.
Example thief_is_refused : (receive (example_request (Some (generate [172; 2])) None [10]) (example_batch "host-1")
  (serve_all example_registry example_after enrolled)).2 = inl (IngestError.Forbidden BINDING_MISMATCH).
Proof. vm_compute. reflexivity. Qed.

Lemma bound_machine_is_not_impersonated_witness :
  exists ack, (receive (example_request (Some example_clear) (Some example_secret) []) (example_batch "host-1")
    (serve_all example_registry example_after enrolled)).2 = inr ack /\
  presents (fingerprint example_secret) (extract_secret (Some example_secret)) = true.
Proof.
  destruct (hosts enrolled !! 1) as [h|] eqn:Eh; [|exfalso; revert Eh; vm_compute; discriminate].
  destruct (receive (example_request (Some example_clear) (Some example_secret) []) (example_batch "host-1")
    (serve_all example_registry example_after enrolled)).2 as [e|ack] eqn:Er; [exfalso; revert Er; vm_compute; discriminate|].
  exists ack. split; [reflexivity|].
  refine (proj1 (proj2 (bound_machine_is_not_impersonated example_registry (Office.db [] []) example_before example_after 1 h
    (fingerprint example_secret) Eh _ _ _)) _ _ ack Er _).
  - revert Eh. vm_compute. by intros [= <-].
  - revert Eh. vm_compute. by intros [= <-].
  - by repeat constructor.
  - revert Er. vm_compute. by intros [= <-].
Defined.

Definition two_tokens : State :=
  serve_all example_registry (example_before ++ [second_token]) (State_new (Office.db [] [])).

Lemma token_enrols_at_most_its_uses_witness :
  exists k, tokens two_tokens !! 2 = Some k /\ enrolments example_registry 2 others two_tokens = 1 /\
            k_uses k + enrolments example_registry 2 others two_tokens <= 2.
Proof.
  destruct (tokens two_tokens !! 2) as [k|] eqn:Ek; [|exfalso; revert Ek; vm_compute; discriminate].
  exists k. split; [reflexivity|]. split; [vm_compute; reflexivity|].
  refine (proj2 (proj2 (token_enrols_at_most_its_uses example_registry (Office.db [] [])
    (example_before ++ [second_token]) others 2 k 2 Ek _))).
  revert Ek. vm_compute. by intros [= <-].
Defined.




(** ** What the statements miss *)

(** The check of a token and its count are apart: two machines whose first batches cross both pass the check
    of a token of one use, and both come in. *)
Theorem crossing_enrolments_exceed_the_token :
  let r name := example_request (Some example_clear) None [7; 8] in
  let checked := must_enrol 5 1 with_token in
  let first := (enrol (r "host-1") (example_identity "host-1") 1 with_token).1 in
  let both := (enrol (r "host-2") (example_identity "host-2") 1 first).1 in
  checked = (with_token, inr tt) /\
  option_map (fun k => (k_max_uses k, k_uses k)) (tokens both !! 1) = Some (Some 1, 2) /\
  size (hosts both) = 2%nat.
Proof. vm_compute. split_and!; reflexivity. Qed.

(** A machine reinstalled, whose enrolment an administrator reopened, presents the token it was installed
    with: when that token was of one use, it is refused as exhausted, by the machine itself. *)
Theorem reinstalled_machine_cannot_rebind_with_its_token :
  let reopened := serve example_registry (AllowRebind 5 1) enrolled in
  let again token := (receive (example_request (Some token) None [9]) (example_batch "host-1")
                        (serve example_registry second_token reopened)).2 in
  again example_clear = inl (IngestError.Forbidden (EnrolmentDenied.message EnrolmentDenied.Exhausted)) /\
  exists ack, again (generate [172; 2]) = inr ack /\ ack_target ack = 1 /\ is_Some (agent_secret ack).
Proof. vm_compute. split; [reflexivity|]. eexists. split_and!; [reflexivity..|by eexists]. Qed.
