(* ===== verification/Login.v ===== *)
(** * Signing in ([api/auth.rs], [api/totp.rs])

    The handlers that create the first administrator, open and close sessions, change a
    password, and enrol, confirm, check and remove the second factor. *)
From Stdlib Require Import Ascii.
From Stdlib Require String.
From S2P Require Import Prelude Text Chrono RateLimit Totp Handler Accounts ApiToken Auth.

Definition ISSUER : string := "DumbMonit".
Definition SETUP_BUCKET : string := String "000"%char "setup".
Definition DUMMY_HASH : string :=
  "$argon2id$v=19$m=19456,t=2,p=1$c2VsLWRlLXJlbXBsaXNzYWdl$Yl2wR9v5N4FSGz8m2q4y3Hc1yq0x0eE6Xk1wJ9Q7Kf0".

(** [payload.username.as_deref().map(str::trim).filter(|name| !name.is_empty())] *)
Definition given_name (username : option string) : option string :=
  option_filter (fun name => negb (bool_decide (name = ""))) (trim <$> username).

Definition already_configured : AuthError := AuthError.Conflict
  "This instance already has an admin account. Sign in, then manage users from the settings.".

Definition invalid (o : option string) : option AuthError := AuthError.Invalid <$> o.

(** [SystemTime::now()] in seconds since the epoch, zero before it. *)
Definition unix_secs (env : Env) : Z := Z.max 0 (e_now env / ns_per_s).

Module LoginAnswer.
Inductive LoginAnswer := TotpRequired (pending : string) | Opened (session : SessionToken).
End LoginAnswer.
Notation LoginAnswer := LoginAnswer.LoginAnswer.

Record Enrolment := {
  en_secret : string;
  en_otpauth_uri : string;
  en_issuer : string;
  en_account : string;
}.

Record TotpStatus := { ts_enabled : bool; ts_pending : bool; ts_recovery_codes_left : Z }.

Section Handlers.
Context `{Crates}.

Definition keys (env : Env) (username : option string) : list Key :=
  limiter_keys lowercase (e_ip env) username.

Definition guard_attempt (env : Env) (ks : list Key) : H () :=
  wait ← gets (fun s => Buckets_check ks (e_instant env) (a_limiter s));
  if_some wait (fun retry_after => throw (AuthError.TooManyAttempts
    ("Too many failed attempts. Try again in " +:+ display_i64 retry_after +:+ " seconds.")%string
    retry_after)).

Definition attempt_failed (env : Env) (ks : list Key) : H () :=
  modify (on_limiter (Buckets_failure ks (e_instant env))).
Definition attempt_succeeded (ks : list Key) : H () := modify (on_limiter (Buckets_success ks)).

(** [POST /api/auth/setup] *)
Definition setup (env : Env) (setup_code given_code : string) (username : option string)
    (password : string) : H () :=
  configured ← is_configured;
  refuse_if configured already_configured ;;
  let ks := RateLimit.User SETUP_BUCKET None ::
            match e_ip env with Some ip => [Ip ip] | None => [] end in
  guard_attempt env ks ;;
  when_ (negb (setup_matches setup_code given_code))
    (attempt_failed env ks ;; record env None "setup.failed" None ;;
     throw (AuthError.Unauthorized
       "Wrong setup code. It is printed in the server logs at startup (docker compose logs dumbmonit) and changes at every restart.")) ;;
  attempt_succeeded ks ;;
  let username := given_name username ?? "admin" in
  if_some (invalid (validate_username username)) throw ;;
  if_some (invalid (validate password)) throw ;;
  hash ← ok_or AuthError.Internal (hash_password (e_salt env) password);
  inserted ← call (insert_first_admin (e_now env) username hash);
  modify (remember_configured true) ;;
  refuse_if (negb inserted) already_configured.

(** [open_session] *)
Definition open_session (env : Env) (user : User) : H SessionToken :=
  created ← call (create sha256 (e_now env) (u_id user) (e_session env));
  token ← ok_or AuthError.Internal created;
  execute (touch_login (e_now env) (u_id user)) ;;
  record env (Some (u_username user)) "login" None ;;
  mret token.

(** [POST /api/auth/login]; [demo] keeps only the bucket of the address. *)
Definition login (env : Env) (demo : bool) (username : option string) (password : string) :
    H LoginAnswer :=
  configured ← is_configured;
  refuse_if (negb configured) (AuthError.Conflict "No account has been created on this instance yet.") ;;
  let username := given_name username in
  let ks := keys env username in
  let ks := if demo then omap (fun k => match k with Ip ip => Some (Ip ip) | _ => None end) ks else ks in
  guard_attempt env ks ;;
  user ← query (fun d => match username with
                         | Some name => by_username name d
                         | None => sole_password_user d
                         end);
  let stored := (option_filter (fun u => negb (u_disabled u)) user ≫= u_password_hash) ?? DUMMY_HASH in
  verified ← ok_or AuthError.Internal (verify_password password stored);
  match option_filter (fun u => negb (u_disabled u) && bool_decide (is_Some (u_password_hash u)) && verified)
          user with
  | None =>
      attempt_failed env ks ;; record env username "login.failed" None ;;
      throw (AuthError.Unauthorized (if username then "Wrong username or password." else "Wrong password."))
  | Some user =>
      if u_totp_enabled user && bool_decide (is_Some (u_totp_secret user)) then
        modify (fun s => set_pending (pending_start pending_order (u_id user) (e_instant env)
                                        (e_pending env) (a_pending s)) s) ;;
        mret (LoginAnswer.TotpRequired (e_pending env))
      else
        attempt_succeeded ks ;;
        token ← open_session env user;
        mret (LoginAnswer.Opened token)
  end.

(** [POST /api/auth/logout] *)
Definition logout (current : option SessionToken) : H () :=
  if_some current (fun token => execute (delete_session (st_id token))).

(** [POST /api/auth/password] *)
Definition change_password (env : Env) (user : User) (current : option SessionToken)
    (current_password new_password : string) : H () :=
  stored ← ok_or (AuthError.Conflict
    "This account signs in through the identity provider: there is no password to change.")
    (u_password_hash user);
  let ks := keys env (Some (u_username user)) in
  guard_attempt env ks ;;
  verified ← ok_or AuthError.Internal (verify_password current_password stored);
  when_ (negb verified)
    (attempt_failed env ks ;; throw (AuthError.Unauthorized "Current password is wrong.")) ;;
  attempt_succeeded ks ;;
  if_some (invalid (validate new_password)) throw ;;
  hash ← ok_or AuthError.Internal (hash_password (e_salt env) new_password);
  execute (set_password_hash (u_id user) hash) ;;
  execute (delete_for_user (u_id user) (st_id <$> current)) ;;
  record env (Some (u_username user)) "password.changed" None.

(** ** The second factor *)

Definition totp_status (user : User) : H TotpStatus :=
  left_ ← query (recovery_codes_left (u_id user));
  mret {| ts_enabled := u_totp_enabled user;
          ts_pending := bool_decide (is_Some (u_totp_secret user)) && negb (u_totp_enabled user);
          ts_recovery_codes_left := left_ |}.

Definition check_password (env : Env) (user : User) (given : string) : H () :=
  stored ← ok_or (AuthError.Conflict
    "Two-factor authentication applies to password sign-in; this account signs in through the identity provider.")
    (u_password_hash user);
  let ks := keys env (Some (u_username user)) in
  guard_attempt env ks ;;
  verified ← ok_or AuthError.Internal (verify_password given stored);
  when_ (negb verified) (attempt_failed env ks ;; throw (AuthError.Unauthorized "Wrong password.")) ;;
  attempt_succeeded ks.

(** [POST /api/auth/totp/enroll] *)
Definition enroll (env : Env) (user : User) (password : string) : H Enrolment :=
  refuse_if (u_totp_enabled user) (AuthError.Conflict
    "Two-factor authentication is already enabled: disable it first to enrol a new device.") ;;
  check_password env user password ;;
  encrypted ← ok_or AuthError.Internal (encrypt (e_nonce env) (e_secret env));
  execute (set_totp_pending (u_id user) encrypted) ;;
  mret {| en_secret := encode_base32 (e_secret env);
          en_otpauth_uri := otpauth_uri ISSUER (u_username user) (e_secret env);
          en_issuer := ISSUER; en_account := u_username user |}.

(** [POST /api/auth/totp/verify] *)
Definition verify (env : Env) (user : User) (code : string) : H (list string) :=
  refuse_if (u_totp_enabled user) (AuthError.Conflict "Two-factor authentication is already enabled.") ;;
  encrypted ← ok_or (AuthError.Conflict "Start the enrolment first.") (u_totp_secret user);
  let ks := keys env (Some (u_username user)) in
  guard_attempt env ks ;;
  secret ← ok_or AuthError.Internal (decrypt encrypted);
  match matching_step_at hmac_sha1 secret code (unix_secs env) with
  | None =>
      attempt_failed env ks ;;
      throw (AuthError.Unauthorized
        "That code is not valid. Check the clock of your device and try the next code.")
  | Some step =>
      attempt_succeeded ks ;;
      modify (fun s => set_replay
        (replay_accept (u_id user) step (replay_forget (u_id user) (a_replay s))).1 s) ;;
      let codes := generate_recovery_codes (e_codes env) in
      let hashes := hash_recovery_code sha256 <$> codes in
      replaced ← call (replace_recovery_codes (u_id user) hashes);
      ok_or AuthError.Internal replaced ;;
      execute (set_totp_enabled (u_id user)) ;;
      record env (Some (u_username user)) "totp.enabled" None ;;
      mret codes
  end.

(** [DELETE /api/auth/totp] *)
Definition disable (env : Env) (user : User) (password : string) : H () :=
  check_password env user password ;;
  execute (clear_totp (u_id user)) ;;
  modify (fun s => set_replay (replay_forget (u_id user) (a_replay s)) s) ;;
  record env (Some (u_username user)) "totp.disabled" None.

(** [DELETE /api/users/{id}/totp] *)
Definition admin_reset (env : Env) (me : User) (id : Z) : H () :=
  found ← query (get id);
  user ← ok_or (AuthError.NotFound "No such user.") found;
  execute (clear_totp id) ;;
  modify (fun s => set_replay (replay_forget id (a_replay s)) s) ;;
  execute (delete_for_user id None) ;;
  record env (Some (u_username me)) "totp.reset" (Some (u_username user)).

Definition expired : AuthError :=
  AuthError.Unauthorized "This sign-in attempt has expired: enter your password again.".

(** The answer of [login_step] to its code. *)
Definition accept_code (env : Env) (user : User) (code : string) : H bool :=
  if looks_like_recovery_code code then
    used ← call (consume_recovery_code (e_now env) (u_id user) (hash_recovery_code sha256 code));
    when_ used (record env (Some (u_username user)) "totp.recovery_used" None) ;;
    mret used
  else
    encrypted ← ok_or expired (u_totp_secret user);
    secret ← ok_or AuthError.Internal (decrypt encrypted);
    match matching_step_at hmac_sha1 secret code (unix_secs env) with
    | Some step => act (fun s => let '(r, ok) := replay_accept (u_id user) step (a_replay s) in
                                 (set_replay r s, ok))
    | None => mret false
    end.

(** [POST /api/auth/login/totp] *)
Definition login_step (env : Env) (pending code : string) : H SessionToken :=
  outcome ← act (fun s => let '(p, o) := pending_lookup pending (e_instant env) (a_pending s) in
                          (set_pending p s, o));
  user_id ← ok_or expired (match outcome with
                           | Totp.Outcome.Candidate user_id => Some user_id
                           | Totp.Outcome.Unknown => None
                           end);
  found ← query (get user_id);
  user ← ok_or expired (option_filter (fun u => negb (u_disabled u) && u_totp_enabled u) found);
  let ks := keys env (Some (u_username user)) in
  guard_attempt env ks ;;
  accepted ← accept_code env user code;
  if negb accepted then
    attempt_failed env ks ;;
    worn_out ← act (fun s => let '(p, w) := pending_failure pending (a_pending s) in
                             (set_pending p s, w));
    record env (Some (u_username user)) "totp.failed" None ;;
    throw (AuthError.Unauthorized
      (if (worn_out : bool) then "Too many wrong codes: enter your password again to start over."
       else "Wrong code."))
  else
    attempt_succeeded ks ;;
    modify (fun s => set_pending (pending_finish pending (a_pending s)) s) ;;
    open_session env user.
End Handlers.
