(* ===== verification/UsersApi.v ===== *)
(** * Administration of the accounts ([api/users.rs])

    Creation, changes and deletion by an administrator.  [oidc_enabled] is what the settings
    of the single sign-on resolve to. *)
From Stdlib Require Import Ascii.
From Stdlib Require String.
From S2P Require Import Prelude Text Chrono Handler Accounts ApiToken Auth Login.

Record CreatePayload := {
  cp_username : string;
  cp_display_name : option string;
  cp_role : Role;
  cp_password : option string;
}.

Record UpdatePayload := {
  up_display_name : option string;
  up_role : option Role;
  up_disabled : option bool;
  up_password : option string;
}.

Definition last_admin : AuthError :=
  AuthError.Conflict "This is the last admin: promote another user first.".

Definition given_password (password : option string) : option string :=
  option_filter (fun p => negb (bool_decide (p = ""))) password.

Definition load (id : Z) : H User :=
  found ← query (get id);
  ok_or (AuthError.NotFound "No such user.") found.

(** What an update takes from an active administrator. *)
Definition loses_admin (user : User) (payload : UpdatePayload) : bool :=
  Role.is_admin (u_role user) && negb (u_disabled user) &&
  (is_some_and (up_role payload) (fun role => negb (Role.is_admin role)) ||
   bool_decide (up_disabled payload = Some true)).

Section Handlers.
Context `{Crates}.

(** [POST /api/users] *)
Definition create_user (env : Env) (oidc_enabled : bool) (me : User) (payload : CreatePayload) : H User :=
  let username := trim (cp_username payload) in
  if_some (invalid (validate_username username)) throw ;;
  hash ← match given_password (cp_password payload) with
         | Some password =>
             if_some (invalid (validate password)) throw ;;
             hash ← ok_or AuthError.Internal (hash_password (e_salt env) password);
             mret (Some hash)
         | None =>
             refuse_if (negb oidc_enabled) (AuthError.Invalid
               "Set a password: single sign-on is not enabled, so this user could not sign in otherwise.") ;;
             mret None
         end;
  inserted ← call (insert (e_now env)
    {| nu_username := username; nu_display_name := trim (cp_display_name payload ?? "");
       nu_role := cp_role payload; nu_password_hash := hash; nu_oidc := None |});
  created ← ok_or AuthError.Internal inserted;
  id ← ok_or (AuthError.Conflict ("A user named " +:+ quote +:+ username +:+ quote +:+
                                  " already exists.")%string) created;
  user ← load id;
  record env (Some (u_username me)) "user.created" (Some (u_username user)) ;;
  mret user.

(** The reads of [PUT /api/users/{id}] and what they decide. *)
Definition update_check (me : User) (id : Z) (payload : UpdatePayload) : H User :=
  user ← load id;
  (if loses_admin user payload then
     admins ← query active_admin_count;
     refuse_if (admins <=? 1) last_admin
   else mret tt) ;;
  refuse_if (bool_decide (up_disabled payload = Some true) && (u_id user =? u_id me))
    (AuthError.Conflict "You cannot disable your own account.") ;;
  mret user.

(** Its writes, for the account as it was read. *)
Definition update_apply (env : Env) (me : User) (id : Z) (payload : UpdatePayload) (user : User) : H User :=
  if_some (up_display_name payload) (fun name => execute (set_display_name id (trim name))) ;;
  if_some (option_filter (fun role => negb (bool_decide (role = u_role user))) (up_role payload))
    (fun role => execute (set_role id role)) ;;
  if_some (given_password (up_password payload)) (fun password =>
    if_some (invalid (validate password)) throw ;;
    hash ← ok_or AuthError.Internal (hash_password (e_salt env) password);
    execute (set_password_hash id hash) ;;
    execute (delete_for_user id None)) ;;
  if_some (option_filter (fun disabled => negb (bool_decide (disabled = u_disabled user)))
             (up_disabled payload))
    (fun disabled => execute (set_disabled id disabled) ;;
                     when_ disabled (execute (delete_for_user id None))) ;;
  user ← load id;
  record env (Some (u_username me)) "user.updated" (Some (u_username user)) ;;
  mret user.

(** [PUT /api/users/{id}] *)
Definition update_account (env : Env) (me : User) (id : Z) (payload : UpdatePayload) : H User :=
  user ← update_check me id payload;
  update_apply env me id payload user.

(** [DELETE /api/users/{id}] *)
Definition delete_account (env : Env) (me : User) (id : Z) : H () :=
  user ← load id;
  refuse_if (u_id user =? u_id me)
    (AuthError.Conflict "You cannot delete your own account. Ask another admin to do it.") ;;
  (if active_admin user then
     admins ← query active_admin_count;
     refuse_if (admins <=? 1) last_admin
   else mret tt) ;;
  execute (delete (e_now env) id) ;;
  record env (Some (u_username me)) "user.deleted" (Some (u_username user)).
End Handlers.
