(* ===== verification/TokensApi.v ===== *)
(** * Administration of the API tokens ([api/tokens.rs], [auth/token.rs])

    The list, the creation and the revocation of the tokens from the interface.  A refusal is
    an [AuthError]: [ApiError] answers it with the same status and the same body.  The secret
    is drawn by the caller. *)
From Stdlib Require Import Ascii.
From Stdlib Require String.
From S2P Require Import Prelude Text Chrono Handler Accounts ApiToken Auth.

Definition MAX_NAME_LEN : nat := 80.
Definition MAX_NETWORKS : nat := 32.
Definition MAX_EXPIRY_DAYS : Z := 3650.

Record TokenPayload := {
  tp_name : string;
  tp_scope : option string;
  tp_expires_in_days : option Z;
  tp_allowed_networks : list string;
}.

(** A token as it may be shown. *)
Record TokenRecord := {
  tr_id : Z;
  tr_name : string;
  tr_prefix : string;
  tr_scope : Scope;
  tr_created_at : DateTime;
  tr_created_by : option string;
  tr_expires_at : option string;
  tr_expired : bool;
  tr_allowed_networks : list string;
  tr_last_used_at : option DateTime;
  tr_last_used_ip : option string;
  tr_revoked_at : option DateTime;
}.

Record CreatedToken := { ct_token : TokenRecord; ct_secret : string }.

(** [token::generate], from its sixteen random bytes. *)
Definition generate (bytes : list Z) : string := (TOKEN_PREFIX +:+ hex_encode bytes)%string.

Definition not_empty (s : string) : bool := negb (bool_decide (s = "")).
Definition quoted (s : string) : string := (quote +:+ s +:+ quote)%string.

Section Routes.
Context `{Crates}.

(** ** Networks *)

Definition parse_network (entry : string) : option Net :=
  net_trunc <$> match parse_net entry with
                | Some net => Some net
                | None => net_of_ip ∘ to_canonical <$> parse_addr entry
                end.

(** The loop of [token::parse_networks], which stops at the first entry it cannot read. *)
Fixpoint collect_networks (entries : list string) (out : list Net) : string + list Net :=
  match entries with
  | [] => inr out
  | entry :: entries =>
      match parse_network entry with
      | None => inl ("Invalid network " +:+ quoted entry +:+
                     ": use CIDR notation (192.168.1.0/24) or a single address (10.0.0.5).")%string
      | Some net => collect_networks entries (if bool_decide (net ∈ out) then out else out ++ [net])
      end
  end.

Definition parse_networks (raw : list string) : string + list Net :=
  match collect_networks (filter (fun entry => not_empty entry = true) (trim <$> raw)) [] with
  | inl message => inl message
  | inr out =>
      if (MAX_NETWORKS <? length out)%nat
      then inl ("A token accepts at most " +:+ display_i64 (Z.of_nat MAX_NETWORKS) +:+ " networks.")%string
      else inr out
  end.

(** ** What is shown *)

(** [row_to_record], of a row joined with its owner. *)
Definition row_to_record (now : DateTime) (d : AuthDb) (t : TokenRow) : TokenRecord :=
  {| tr_id := t_id t; tr_name := t_name t; tr_prefix := t_prefix t;
     tr_scope := Scope.parse (t_scope t) ?? Scope.Read; tr_created_at := t_created_at t;
     tr_created_by := u_username <$> (t_user_id t ≫= fun id => get id d);
     tr_expires_at := t_expires_at t;
     tr_expired := is_some_and (t_expires_at t)
       (fun text => match parse_time text with Some at_ => at_ <=? now | None => true end);
     tr_allowed_networks := display_net <$> decode_networks parse_net json_strings (t_allowed_networks t);
     tr_last_used_at := t_last_used_at t; tr_last_used_ip := t_last_used_ip t;
     tr_revoked_at := t_revoked_at t |}.

Definition token_by_id (now : DateTime) (id : Z) (d : AuthDb) : option TokenRecord :=
  row_to_record now d <$> first_where (fun t => t_id t =? id) (api_tokens d).

(** [GET /api/tokens]: the newest first. *)
Definition list_tokens (now : DateTime) (d : AuthDb) : list TokenRecord :=
  row_to_record now d <$> sort_by (cmp_rev (cmp_on t_id Z.compare)) (api_tokens d).

(** ** Creation and revocation *)

Definition networks_text (nets : list Net) : string := json_of_strings (display_net <$> nets).

Definition requested_scope (raw : option string) : H Scope :=
  match option_filter not_empty (trim <$> raw) with
  | None => mret Scope.Read
  | Some raw =>
      ok_or (AuthError.Invalid ("Unknown scope " +:+ quoted raw +:+ " (expected: read, write).")%string)
        (Scope.parse raw)
  end.

Definition requested_expiry (now : DateTime) (days : option Z) : H (option DateTime) :=
  match days with
  | None => mret None
  | Some days =>
      refuse_if (negb ((1 <=? days) && (days <=? MAX_EXPIRY_DAYS))) (AuthError.Invalid
        (quoted "expires_in_days" +:+ " must be between 1 and " +:+ display_i64 MAX_EXPIRY_DAYS +:+
         ", or null for a token that never expires.")%string) ;;
      mret (Some (now + td_days days))
  end.

Definition requested_networks (raw : list string) : H (list Net) :=
  match parse_networks raw with
  | inl message => throw (AuthError.Invalid message)
  | inr nets => mret nets
  end.

(** [POST /api/tokens] *)
Definition create_token_route (env : Env) (bytes : list Z) (me : User) (payload : TokenPayload) : H CreatedToken :=
  let name := trim (tp_name payload) in
  refuse_if (bool_decide (name = "")) (AuthError.Invalid "Token name is required.") ;;
  refuse_if (MAX_NAME_LEN <? chars_count name)%nat (AuthError.Invalid
    ("Token name is limited to " +:+ display_i64 (Z.of_nat MAX_NAME_LEN) +:+ " characters.")%string) ;;
  scope ← requested_scope (tp_scope payload);
  expires_at ← requested_expiry (e_now env) (tp_expires_in_days payload);
  allowed_networks ← requested_networks (tp_allowed_networks payload);
  let clear := generate bytes in
  inserted ← call (create_token networks_text time_text sha256 (e_now env) clear
    {| nt_name := name; nt_scope := scope; nt_user_id := Some (u_id me); nt_expires_at := expires_at;
       nt_allowed_networks := allowed_networks |});
  id ← ok_or AuthError.Internal inserted;
  read_back ← query (token_by_id (e_now env) id);
  created ← ok_or AuthError.Internal read_back;
  record env (Some (u_username me)) "token.created" (Some (tr_name created)) ;;
  mret {| ct_token := created; ct_secret := clear |}.

(** [DELETE /api/tokens/{id}] *)
Definition revoke_token_route (env : Env) (me : User) (id : Z) : H () :=
  revoked ← call (revoke (e_now env) id);
  refuse_if (negb revoked)
    (AuthError.NotFound ("Token " +:+ display_i64 id +:+ " not found or already revoked.")%string) ;;
  record env (Some (u_username me)) "token.revoked" (Some (display_i64 id)).
End Routes.
