(* ===== verification/Oidc.v ===== *)
(** * Single sign-on ([auth/oidc/roles.rs], [auth/oidc/flow.rs], [callback] of [api/oidc.rs])

    The sign-ins sent to the identity provider, the account an identity maps to and the role
    its groups give.  The exchange of the code and the validation of the token belong to
    reqwest and jsonwebtoken: their answer is an argument. *)
From Stdlib Require Import Ascii.
From Stdlib Require String.
From S2P Require Import Prelude Text Chrono Totp Handler Accounts ApiToken Auth Login.

(** ** Roles *)

Definition role_for_groups (groups admin_groups operator_groups : list string) (current : option Role) :
    option Role :=
  if bool_decide (admin_groups = []) && bool_decide (operator_groups = []) then None
  else
    let member listed := existsb (fun group => bool_decide (group ∈ listed)) groups in
    if member admin_groups then Some Role.Admin
    else if bool_decide (admin_groups = []) && bool_decide (current = Some Role.Admin) then None
    else Some (if member operator_groups then Role.Operator else Role.Viewer).

(** [serde_json::Value], as far as the groups are read. *)
Inductive Value := Text (text : string) | Array (items : list Value) | Other.

Definition as_str (v : Value) : option string := match v with Text text => Some text | _ => None end.

(** [text.split([',', ' '])] *)
Definition split_groups (text : string) : list string :=
  concat (split " "%char <$> split ","%char text).

Definition groups_from_claim (value : option Value) : list string :=
  match value with
  | Some (Array items) => omap as_str items
  | Some (Text text) =>
      filter (fun group => group <> "") (trim <$> split_groups text)
  | _ => []
  end.

(** ** Sign-ins sent to the provider *)

Definition PENDING_TTL : Duration := td_seconds (10 * 60).
Definition PENDING_MAX : nat := 1000.

Record Pending := {
  pe_nonce : string;
  pe_verifier : string;
  pe_redirect_uri : string;
  pe_redirect : option string;
  pe_started_at : Z;
}.

Notation PendingLogins := (gmap string Pending).

Definition fresh (now : Z) (p : Pending) : bool :=
  duration_since now (pe_started_at p) <? PENDING_TTL.

Definition purge (now : Z) (p : PendingLogins) : PendingLogins :=
  filter (fun kp => fresh now kp.2 = true) p.

(** [min_by_key] over the order in which the map is walked. *)
Definition oldest_login (order : PendingLogins -> list (string * Pending)) (p : PendingLogins) :
    option string :=
  fst <$> foldl (fun best kp =>
                   match best with
                   | Some b => if pe_started_at kp.2 <? pe_started_at b.2 then Some kp else Some b
                   | None => Some kp
                   end) None (order p).

Definition pending_insert (order : PendingLogins -> list (string * Pending)) (now : Z) (state : string)
    (pending : Pending) (p : PendingLogins) : PendingLogins :=
  let p := purge now p in
  let p := if (PENDING_MAX <=? size p)%nat
           then match oldest_login order p with Some key => base.delete key p | None => p end
           else p in
  <[state := pending]> p.

Definition take_login (now : Z) (state : string) (p : PendingLogins) : PendingLogins * option Pending :=
  (base.delete state p, option_filter (fresh now) (p !! state)).

(** ** From an identity to an account *)

Record OidcConfig := {
  oc_enabled : bool;
  oc_issuer : string;
  oc_groups_claim : string;
  oc_admin_groups : list string;
  oc_operator_groups : list string;
  oc_auto_create : bool;
}.

Record IdTokenClaims := {
  cl_sub : string;
  cl_preferred_username : option string;
  cl_email : option string;
  cl_email_verified : option bool;
  cl_name : option string;
  cl_extra : gmap string Value;
}.

Record CallbackParams := {
  cb_code : option string;
  cb_state : option string;
  cb_error : option string;
  cb_error_description : option string;
}.

Module FlowError.
Inductive FlowError :=
  | NotConfigured
  | ProviderUnreachable
  | Denied (why : string)
  | State
  | Exchange
  | InvalidToken (why : string)
  | NoAccount
  | Disabled
  | Internal.

Definition reason (e : FlowError) : string :=
  match e with
  | NotConfigured => "not_configured"
  | ProviderUnreachable => "provider_unreachable"
  | Denied _ => "denied"
  | State => "state"
  | Exchange => "exchange"
  | InvalidToken _ => "invalid_token"
  | NoAccount => "no_account"
  | Disabled => "disabled"
  | Internal => "internal"
  end.
End FlowError.
Notation FlowError := FlowError.FlowError.

(** The handlers of the flow end with a [FlowError]. *)
Notation F := (Handler AuthState FlowError).

Definition ask {A} (f : AuthDb -> A) : F A := gets (fun s => f (a_db s)).
Definition write (f : AuthDb -> AuthDb) : F () := modify (on_db f).
Definition call_ {A} (f : AuthDb -> AuthDb * A) : F A :=
  act (fun s => let '(d, a) := f (a_db s) in (on_db (fun _ => d) s, a)).

Definition verified_email (claims : IdTokenClaims) : option string :=
  if negb (bool_decide (cl_email_verified claims = Some true)) then None
  else option_filter (fun email => negb (bool_decide (email = ""))) (trim <$> cl_email claims).

(** The local account an identity may be linked to. *)
Definition find_linkable (claims : IdTokenClaims) (d : AuthDb) : option User :=
  email ← verified_email claims;
  user ← by_username email d;
  if bool_decide (is_Some (u_oidc_subject user)) then None
  else if Role.is_admin (u_role user) && bool_decide (is_Some (u_password_hash user)) then None
  else Some user.

(** The name tried at each of the five attempts. *)
Definition candidate_name (base : string) (attempt : Z) : string :=
  if attempt =? 0 then base else (base +:+ "-" +:+ display_i64 attempt)%string.

Fixpoint create_attempts (env : Env) (issuer base display_name : string) (claims : IdTokenClaims)
    (role : Role) (attempts : list Z) : F User :=
  match attempts with
  | [] => throw FlowError.Internal
  | attempt :: attempts =>
      inserted ← call_ (insert (e_now env)
        {| nu_username := candidate_name base attempt; nu_display_name := display_name;
           nu_role := role; nu_password_hash := None; nu_oidc := Some (issuer, cl_sub claims) |});
      created ← ok_or FlowError.Internal inserted;
      match created with
      | Some id => found ← ask (get id); ok_or FlowError.Internal found
      | None => create_attempts env issuer base display_name claims role attempts
      end
  end.

Definition create_account (env : Env) (issuer : string) (claims : IdTokenClaims) (role : Role) : F User :=
  let named := match cl_preferred_username claims with
               | Some name => Some name
               | None => cl_email claims
               end in
  let base := option_filter (fun name => bool_decide (validate_username name = None)) (trim <$> named)
              ?? cl_sub claims in
  create_attempts env issuer base (cl_name claims ?? "") claims role [0; 1; 2; 3; 4].

Definition map_identity (env : Env) (config : OidcConfig) (claims : IdTokenClaims) : F User :=
  let issuer := oc_issuer config in
  let groups := groups_from_claim (cl_extra claims !! oc_groups_claim config) in
  let role_for current :=
    role_for_groups groups (oc_admin_groups config) (oc_operator_groups config) current in
  known ← ask (by_oidc issuer (cl_sub claims));
  user ← match known with
         | Some user => mret user
         | None =>
             linkable ← ask (find_linkable claims);
             match linkable with
             | Some user =>
                 linked ← call_ (link_oidc (u_id user) issuer (cl_sub claims));
                 ok_or FlowError.Internal linked ;; mret user
             | None =>
                 refuse_if (negb (oc_auto_create config)) FlowError.NoAccount ;;
                 create_account env issuer claims (role_for None ?? Role.Viewer)
             end
         end;
  match option_filter (fun role => negb (bool_decide (role = u_role user))) (role_for (Some (u_role user))) with
  | None => mret user
  | Some role =>
      last_admin ← (if Role.is_admin (u_role user) then ask (fun d => active_admin_count d <=? 1)
                    else mret false);
      if last_admin : bool then mret user
      else write (set_role (u_id user) role) ;; mret (with_role role user)
  end.

(** [flow::finish] once the sign-in of the state has been taken; [exchanged] is what the
    provider and the validation of its token answered. *)
Definition finish (env : Env) (config : OidcConfig) (taken : option Pending) (params : CallbackParams)
    (exchanged : FlowError + IdTokenClaims) : F (User * option string) :=
  pending ← ok_or FlowError.State taken;
  if_some (cb_error params) (fun error => throw (FlowError.Denied
    (trim (error +:+ " " +:+ (cb_error_description params ?? "")))))%string ;;
  ok_or FlowError.State (option_filter (fun code => negb (bool_decide (code = ""))) (cb_code params)) ;;
  refuse_if (negb (oc_enabled config)) FlowError.NotConfigured ;;
  claims ← match exchanged with inl e => throw e | inr claims => mret claims end;
  user ← map_identity env config claims;
  modify (remember_configured true) ;;
  refuse_if (u_disabled user) FlowError.Disabled ;;
  write (touch_login (e_now env) (u_id user)) ;;
  mret (user, pe_redirect pending).

(** [callback] from [flow::finish] to the session. *)
Definition callback `{Crates} (env : Env) (config : OidcConfig) (taken : option Pending)
    (params : CallbackParams) (exchanged : FlowError + IdTokenClaims) : F (SessionToken * string) :=
  '(user, redirect) ← finish env config taken params exchanged;
  created ← call_ (create sha256 (e_now env) (u_id user) (e_session env));
  token ← ok_or FlowError.Internal created;
  mret (token, redirect ?? "/").
