(* ===== verification/Server.v ===== *)
(** * The accounts behind the API ([api/mod.rs])

    The routes that touch accounts and sessions, each with the guard and the extractor its
    handler asks for, composed into one function from a call to its answer, and runs of calls. *)
From Stdlib Require Import Ascii.
From Stdlib Require String.
From S2P Require Import Prelude Text Chrono RateLimit Totp Handler Accounts ApiToken Auth Guard Login UsersApi TokensApi Oidc.

(** The settings a call depends on. *)
Record Config := { cf_setup_code : string; cf_demo : bool; cf_oidc_enabled : bool }.

(** Calls open to all, and calls behind the guard. *)
Inductive PublicCall :=
  | Setup (given_code : string) (username : option string) (password : string)
  | Login (username : option string) (password : string)
  | LoginStep (pending code : string)
  | Callback (config : OidcConfig) (taken : option Oidc.Pending) (params : CallbackParams)
      (exchanged : FlowError + IdTokenClaims).

Inductive GuardedCall :=
  | Logout
  | ChangePassword (current_password new_password : string)
  | TotpEnroll (password : string)
  | TotpVerify (code : string)
  | TotpDisable (password : string)
  | TotpReset (id : Z)
  | CreateUser (payload : CreatePayload)
  | UpdateUser (id : Z) (payload : UpdatePayload)
  | DeleteUser (id : Z)
  | CreateToken (drawn : list Z) (payload : TokenPayload)
  | RevokeToken (id : Z).

Inductive Call := Public (c : PublicCall) | Guarded (c : GuardedCall).

(** The method and the path of a call behind the guard. *)
Definition route (c : GuardedCall) : string * string :=
  let user id := ("/users/" +:+ display_i64 id)%string in
  match c with
  | Logout => ("POST", "/auth/logout")
  | ChangePassword _ _ => ("POST", "/auth/password")
  | TotpEnroll _ => ("POST", "/auth/totp/enroll")
  | TotpVerify _ => ("POST", "/auth/totp/verify")
  | TotpDisable _ => ("DELETE", "/auth/totp")
  | TotpReset id => ("DELETE", (user id +:+ "/totp")%string)
  | CreateUser _ => ("POST", "/users")
  | UpdateUser id _ => ("PUT", user id)
  | DeleteUser id => ("DELETE", user id)
  | CreateToken _ _ => ("POST", "/tokens")
  | RevokeToken id => ("DELETE", ("/tokens/" +:+ display_i64 id)%string)
  end.

Inductive Answer :=
  | NoContent
  | Signed (session : SessionToken)
  | CodeNeeded (pending : string)
  | Enrolled (enrolment : Enrolment)
  | Codes (recovery_codes : list string)
  | Account (user : User)
  | Issued (token : CreatedToken).

Inductive Failure := Refused (r : Refusal) | Flow (e : FlowError).

Definition plain {A} (m : Handler AuthState Refusal A) : Handler AuthState Failure A :=
  fun s => match m s with (s', inl e) => (s', inl (Refused e)) | (s', inr a) => (s', inr a) end.
Definition flow {A} (m : F A) : Handler AuthState Failure A :=
  fun s => match m s with (s', inl e) => (s', inl (Flow e)) | (s', inr a) => (s', inr a) end.

Definition yields {S E A B} (m : Handler S E A) (f : A -> B) : Handler S E B := a ← m; mret (f a).

Section Server.
Context `{Crates} (cfg : Config).

Definition done_ (m : H ()) : Handler AuthState Refusal Answer := yields (lift m) (fun _ => NoContent).

(** The handlers behind the guard, for the identity it has left. *)
Definition handle (env : Env) (p : Principal) (c : GuardedCall) : Handler AuthState Refusal Answer :=
  match c with
  | Logout =>
      done_ (logout (match p with Principal.User _ session => Some session | _ => None end))
  | ChangePassword current new =>
      '(user, session) ← authenticated p;
      done_ (change_password env user (Some session) current new)
  | TotpEnroll password =>
      '(user, _) ← authenticated p; yields (lift (enroll env user password)) Enrolled
  | TotpVerify code =>
      '(user, _) ← authenticated p; yields (lift (verify env user code)) Codes
  | TotpDisable password =>
      '(user, _) ← authenticated p; done_ (disable env user password)
  | TotpReset id => me ← admin_user p; done_ (admin_reset env me id)
  | CreateUser payload =>
      me ← admin_user p; yields (lift (create_user env (cf_oidc_enabled cfg) me payload)) Account
  | UpdateUser id payload => me ← admin_user p; yields (lift (update_account env me id payload)) Account
  | DeleteUser id => me ← admin_user p; done_ (delete_account env me id)
  | CreateToken drawn payload =>
      '(me, _) ← authenticated p; yields (lift (create_token_route env drawn me payload)) Issued
  | RevokeToken id => '(me, _) ← authenticated p; done_ (revoke_token_route env me id)
  end.

Definition handle_public (env : Env) (c : PublicCall) : Handler AuthState Failure Answer :=
  match c with
  | Setup given_code username password =>
      plain (done_ (setup env (cf_setup_code cfg) given_code username password))
  | Login username password =>
      plain (yields (lift (login env (cf_demo cfg) username password))
        (fun a => match a with
                  | LoginAnswer.TotpRequired pending => CodeNeeded pending
                  | LoginAnswer.Opened session => Signed session
                  end))
  | LoginStep pending code => plain (yields (lift (login_step env pending code)) Signed)
  | Callback config taken params exchanged =>
      flow (yields (callback env config taken params exchanged) (fun a => Signed a.1))
  end.

Definition serve (env : Env) (headers : HeaderMap) (c : Call) : Handler AuthState Failure Answer :=
  match c with
  | Public c => handle_public env c
  | Guarded c =>
      let '(method, path) := route c in
      plain (p ← require_session env {| rq_method := method; rq_path := path; rq_headers := headers |};
             handle env p c)
  end.

(** A run of calls, each with its clocks, its random values and its headers. *)
Definition Step : Type := Env * HeaderMap * Call.

Definition run_step (s : AuthState) (step : Step) : AuthState :=
  (serve step.1.1 step.1.2 step.2 s).1.

Definition run (steps : list Step) (s : AuthState) : AuthState := foldl run_step s steps.
End Server.
