(* ===== verification/Effects.v ===== *)
(** * What the handlers change

    A relation between the state a handler finds and the one it leaves, whatever it answers.
    A relation that every statement of a handler respects is respected by the handler: the
    lemmas of the database [respects] follow its text down to the statements, and the class
    [Ordinary] lists the statements of the handlers that neither open a session nor take a
    role away, so that one proof per handler serves every relation. *)
From Stdlib Require String.
From S2P Require Import Prelude Text Chrono RateLimit Totp Handler Accounts ApiToken Auth Guard Login UsersApi TokensApi Oidc Server.

Definition respects (R : AuthState -> AuthState -> Prop) {E A} (m : Handler AuthState E A) : Prop :=
  forall s0 s, R s0 s -> leaves m s (R s0).

Section Respects.
Context (R : AuthState -> AuthState -> Prop) {E : Type}.

Lemma respects_ret {A} (a : A) : respects R (mret a : Handler AuthState E A).
Proof. by intros s0 s Hs. Qed.
Lemma respects_throw {A} (e : E) : respects R (throw e : Handler AuthState E A).
Proof. by intros s0 s Hs. Qed.
Lemma respects_gets {A} (f : AuthState -> A) : respects R (gets f : Handler AuthState E A).
Proof. by intros s0 s Hs. Qed.
Lemma respects_bind {A B} (m : Handler AuthState E A) (f : A -> Handler AuthState E B) :
  respects R m -> (forall a, respects R (f a)) -> respects R (m ≫= f).
Proof.
  intros Hm Hf s0 s Hs. apply wp_bind. eapply wp_mono; [by apply Hm| |done].
  intros a s' Hs'. by apply Hf.
Qed.
Lemma respects_ok_or {A} (e : E) (o : option A) : respects R (ok_or e o : Handler AuthState E A).
Proof. by destruct o; intros s0 s Hs. Qed.
Lemma respects_refuse_if b (e : E) : respects R (refuse_if b e : Handler AuthState E ()).
Proof. by destruct b; intros s0 s Hs. Qed.
Lemma respects_when b (m : Handler AuthState E ()) : respects R m -> respects R (when_ b m).
Proof. intros Hm. destruct b; [done|]. by intros s0 s Hs. Qed.
Lemma respects_if_some {A} (o : option A) (m : A -> Handler AuthState E ()) :
  (forall a, respects R (m a)) -> respects R (if_some o m).
Proof. intros Hm. destruct o; [apply Hm|]. by intros s0 s Hs. Qed.
Lemma respects_if {A} (b : bool) (m n : Handler AuthState E A) :
  respects R m -> respects R n -> respects R (if b then m else n).
Proof. by destruct b. Qed.
Lemma respects_option {A B} (o : option A) (m : A -> Handler AuthState E B) n :
  (forall a, respects R (m a)) -> respects R n ->
  respects R (match o with Some a => m a | None => n end).
Proof. by destruct o. Qed.
Lemma respects_modify f :
  (forall s0 s, R s0 s -> R s0 (f s)) -> respects R (modify f : Handler AuthState E ()).
Proof. intros Hf s0 s Hs. by apply Hf. Qed.
Lemma respects_act {A} (f : AuthState -> AuthState * A) :
  (forall s0 s, R s0 s -> R s0 (f s).1) -> respects R (act f : Handler AuthState E A).
Proof. intros Hf s0 s Hs. apply wp_act. by apply Hf. Qed.
Lemma respects_yields {A B} (m : Handler AuthState E A) (f : A -> B) :
  respects R m -> respects R (yields m f).
Proof. intros Hm. apply respects_bind; [done|]. intros a. apply respects_ret. Qed.
End Respects.

(** A relation between tables, and what it asks of the statements. *)
Definition tables (R : AuthDb -> AuthDb -> Prop) (s s' : AuthState) : Prop := R (a_db s) (a_db s').

(** The relations on states that do not look at the audit log and the cache. *)
Class Blind (R : AuthState -> AuthState -> Prop) : Prop := {
  blind_audit : forall s0 s f, R s0 s -> R s0 (on_audit f s);
  blind_configured : forall s0 s b, R s0 s -> R s0 (remember_configured b s);
  blind_limiter : forall s0 s f, R s0 s -> R s0 (on_limiter f s);
  blind_purged : forall s0 s, R s0 s -> R s0 (set_purged s);
}.

#[export] Instance tables_blind R : Blind (tables R).
Proof. split; done. Qed.

Section Statements.
Context (R : AuthState -> AuthState -> Prop).

Lemma respects_call {A} (f : AuthDb -> AuthDb * A) :
  (forall s0 s, R s0 s -> R s0 (on_db (fun d => (f d).1) s)) -> respects R (call f : H A).
Proof.
  intros Hf. apply respects_act. intros s0 s Hs. specialize (Hf s0 s Hs).
  unfold on_db in Hf. by destruct (f (a_db s)).
Qed.
Lemma respects_call_ {A} (f : AuthDb -> AuthDb * A) :
  (forall s0 s, R s0 s -> R s0 (on_db (fun d => (f d).1) s)) -> respects R (call_ f : F A).
Proof.
  intros Hf. apply respects_act. intros s0 s Hs. specialize (Hf s0 s Hs).
  unfold on_db in Hf. by destruct (f (a_db s)).
Qed.
Lemma respects_execute f : (forall s0 s, R s0 s -> R s0 (on_db f s)) -> respects R (execute f : H ()).
Proof. apply respects_modify. Qed.
Lemma respects_write f : (forall s0 s, R s0 s -> R s0 (on_db f s)) -> respects R (write f : F ()).
Proof. apply respects_modify. Qed.
Lemma respects_record `{!Blind R} env actor action subject : respects R (record env actor action subject : H ()).
Proof. intros s0 s Hs. unfold leaves. apply wp_record. intros f. by apply blind_audit. Qed.
Lemma respects_query {A} (f : AuthDb -> A) : respects R (query f : H A).
Proof. apply respects_gets. Qed.
Lemma respects_ask {A} (f : AuthDb -> A) : respects R (ask f : F A).
Proof. apply respects_gets. Qed.
Lemma respects_configured `{!Blind R} : respects R (is_configured : H bool).
Proof.
  intros s0 s Hs. unfold leaves. apply wp_is_configured; [done|]. intros b. by apply blind_configured.
Qed.
Lemma respects_purge_once `{!Blind R} now :
  (forall s0 s, R s0 s -> R s0 (on_db (purge_expired now) s)) -> respects R (purge_once now : H ()).
Proof.
  intros Hf s0 s Hs. unfold leaves. apply wp_purge_once, blind_purged.
  destruct (a_purged s); [done|by apply Hf].
Qed.
Lemma respects_remember `{!Blind R} {E} b : respects R (modify (remember_configured b) : Handler AuthState E ()).
Proof. apply respects_modify. intros. by apply blind_configured. Qed.
Lemma respects_failed `{!Blind R} env ks : respects R (attempt_failed env ks).
Proof. apply respects_modify. intros. by apply blind_limiter. Qed.
Lemma respects_succeeded `{!Blind R} ks : respects R (attempt_succeeded ks).
Proof. apply respects_modify. intros. by apply blind_limiter. Qed.
Lemma respects_lift {A} (m : H A) : respects R m -> respects R (lift m).
Proof. intros Hm s0 s Hs. apply wp_lift, (Hm s0 s Hs). Qed.
Lemma respects_plain {A} (m : Handler AuthState Refusal A) : respects R m -> respects R (plain m).
Proof.
  intros Hm s0 s Hs. specialize (Hm s0 s Hs). revert Hm. unfold leaves, wp, plain.
  by destruct (m s) as [? []].
Qed.
Lemma respects_flow {A} (m : F A) : respects R m -> respects R (flow m).
Proof.
  intros Hm s0 s Hs. specialize (Hm s0 s Hs). revert Hm. unfold leaves, wp, flow.
  by destruct (m s) as [? []].
Qed.
End Statements.

Create HintDb respects discriminated.
#[export] Hint Resolve respects_ret respects_throw respects_gets respects_bind respects_ok_or
  respects_refuse_if respects_when respects_if_some respects_yields respects_call respects_call_
  respects_execute respects_write respects_record respects_query respects_ask respects_configured respects_purge_once
  respects_remember respects_failed respects_succeeded respects_lift tables_blind : respects.
#[export] Hint Constants Opaque : respects.
#[export] Hint Extern 5 (respects _ (if _ then _ else _)) => apply respects_if : respects.
#[export] Hint Extern 5 (respects _ (match _ with Some _ => _ | None => _ end)) =>
  apply respects_option : respects.
#[export] Hint Extern 5 (respects _ (modify _)) => apply respects_modify; intros : respects.

(** ** Statements *)

(** What a relation asks of the statements of the ordinary handlers. *)
Class Ordinary `{Crates} (R : AuthState -> AuthState -> Prop) : Prop := {
  ord_blind :: Blind R;
  ord_replay : forall s0 s r, R s0 s -> R s0 (set_replay r s);
  ord_windows : forall s0 s w, R s0 s -> R s0 (set_windows w s);
  ord_password : forall s0 s id h, R s0 s -> R s0 (on_db (set_password_hash id h) s);
  ord_display_name : forall s0 s id n, R s0 s -> R s0 (on_db (set_display_name id n) s);
  ord_totp_pending : forall s0 s id c, R s0 s -> R s0 (on_db (set_totp_pending id c) s);
  ord_totp_enabled : forall s0 s id, R s0 s -> R s0 (on_db (set_totp_enabled id) s);
  ord_clear_totp : forall s0 s id, R s0 s -> R s0 (on_db (clear_totp id) s);
  ord_touch_login : forall s0 s now id, R s0 s -> R s0 (on_db (touch_login now id) s);
  ord_codes : forall s0 s id hs, R s0 s -> R s0 (on_db (fun d => (replace_recovery_codes id hs d).1) s);
  ord_consume : forall s0 s now id h, R s0 s -> R s0 (on_db (fun d => (consume_recovery_code now id h d).1) s);
  ord_insert : forall s0 s now n, R s0 s -> R s0 (on_db (fun d => (insert now n d).1) s);
  ord_insert_first : forall s0 s now n h, R s0 s -> R s0 (on_db (fun d => (insert_first_admin now n h d).1) s);
  ord_link : forall s0 s id issuer subject, R s0 s -> R s0 (on_db (fun d => (link_oidc id issuer subject d).1) s);
  ord_delete_session : forall s0 s id, R s0 s -> R s0 (on_db (delete_session id) s);
  ord_delete_for_user : forall s0 s id keep, R s0 s -> R s0 (on_db (delete_for_user id keep) s);
  ord_purge : forall s0 s now, R s0 s -> R s0 (on_db (purge_expired now) s);
  ord_authenticate : forall s0 s now token, R s0 s -> R s0 (on_db (fun d => (authenticate sha256 now token d).1) s);
  ord_token : forall s0 s now clear ip, R s0 s ->
    R s0 (on_db (fun d => (authenticate_token net_contains parse_net json_strings parse_time sha256
                             display_ip now clear ip d).1) s);
  ord_create_token : forall s0 s now clear new, R s0 s ->
    R s0 (on_db (fun d => (create_token networks_text time_text sha256 now clear new d).1) s);
  ord_revoke : forall s0 s now id, R s0 s -> R s0 (on_db (fun d => (revoke now id d).1) s);
}.

(** And of those that take a role away. *)
Class Administers (R : AuthState -> AuthState -> Prop) : Prop := {
  adm_role : forall s0 s id r, R s0 s -> R s0 (on_db (set_role id r) s);
  adm_disabled : forall s0 s id b, R s0 s -> R s0 (on_db (set_disabled id b) s);
  adm_delete : forall s0 s now id, R s0 s -> R s0 (on_db (delete now id) s);
}.

(** And of those that sign in, for the instant and the fresh ticket of a request. *)
Class SignsIn `{Crates} (env : Env) (R : AuthState -> AuthState -> Prop) : Prop := {
  sig_create : forall s0 s now id token, R s0 s -> R s0 (on_db (fun d => (create sha256 now id token d).1) s);
  sig_start : forall s0 s id, R s0 s ->
    R s0 (set_pending (pending_start pending_order id (e_instant env) (e_pending env) (a_pending s)) s);
  sig_lookup : forall s0 s token, R s0 s ->
    R s0 (set_pending (pending_lookup token (e_instant env) (a_pending s)).1 s);
  sig_failure : forall s0 s token, R s0 s -> R s0 (set_pending (pending_failure token (a_pending s)).1 s);
  sig_finish : forall s0 s token, R s0 s -> R s0 (set_pending (pending_finish token (a_pending s)) s);
}.

(** One of these statements. *)
Ltac statement :=
  lazymatch goal with
  | |- _ _ (set_replay _ _) => apply ord_replay
  | |- _ _ (set_windows _ _) => apply ord_windows
  | |- _ _ (set_pending (pending_start _ _ (e_instant ?env) _ _) _) => apply (sig_start (env := env))
  | |- _ _ (set_pending (pending_finish _ _) _) => eapply sig_finish
  | |- _ _ (on_db ?f _) =>
      lazymatch f with
      | set_password_hash _ _ => apply ord_password
      | set_display_name _ _ => apply ord_display_name
      | set_totp_pending _ _ => apply ord_totp_pending
      | set_totp_enabled _ => apply ord_totp_enabled
      | clear_totp _ => apply ord_clear_totp
      | touch_login _ _ => apply ord_touch_login
      | (fun d => (replace_recovery_codes _ _ d).1) => apply ord_codes
      | (fun d => (consume_recovery_code _ _ _ d).1) => apply ord_consume
      | (fun d => (insert _ _ d).1) => apply ord_insert
      | (fun d => (insert_first_admin _ _ _ d).1) => apply ord_insert_first
      | (fun d => (link_oidc _ _ _ d).1) => apply ord_link
      | (fun d => (create_token _ _ _ _ _ _ d).1) => apply ord_create_token
      | (fun d => (revoke _ _ d).1) => apply ord_revoke
      | (fun d => (create _ _ _ _ d).1) => eapply sig_create
      | delete_session _ => apply ord_delete_session
      | delete_for_user _ _ => apply ord_delete_for_user
      | purge_expired _ => apply ord_purge
      | (fun d => (authenticate _ _ _ d).1) => apply ord_authenticate
      | set_role _ _ => apply adm_role
      | set_disabled _ _ => apply adm_disabled
      | delete _ _ => apply adm_delete
      end
  end.
#[export] Hint Extern 3 => statement : respects.
#[export] Hint Extern 1 (Blind _) => solve [typeclasses eauto] : respects.
#[export] Hint Extern 1 (Ordinary _) => solve [typeclasses eauto] : respects.
#[export] Hint Extern 1 (Administers _) => solve [typeclasses eauto] : respects.
#[export] Hint Extern 1 (SignsIn _ _) => solve [typeclasses eauto] : respects.
Ltac respects_all := cbv zeta; eauto 60 with respects.

(** ** Handlers *)

Section Handlers.
Context `{Crates} (R : AuthState -> AuthState -> Prop) `{HR : !Ordinary R}.
Set Default Proof Using "HR".

Lemma respects_guard_attempt env ks : respects R (guard_attempt env ks).
Proof. unfold guard_attempt. respects_all. Qed.
Lemma respects_load id : respects R (load id).
Proof. unfold load. respects_all. Qed.
Hint Resolve respects_guard_attempt respects_load : respects.
Lemma respects_check_password env user given : respects R (check_password env user given).
Proof. unfold check_password. respects_all. Qed.
Hint Resolve respects_check_password : respects.

Lemma respects_setup env code given name password : respects R (setup env code given name password).
Proof. unfold setup. respects_all. Qed.
Lemma respects_logout current : respects R (logout current).
Proof. unfold logout. respects_all. Qed.
Lemma respects_change_password env user current old new :
  respects R (change_password env user current old new).
Proof. unfold change_password. respects_all. Qed.
Lemma respects_enroll env user password : respects R (enroll env user password).
Proof. unfold enroll. respects_all. Qed.
Lemma respects_verify env user code : respects R (verify env user code).
Proof. unfold verify. respects_all. Qed.
Lemma respects_disable env user password : respects R (disable env user password).
Proof. unfold disable. respects_all. Qed.
Lemma respects_admin_reset env me id : respects R (admin_reset env me id).
Proof. unfold admin_reset. respects_all. Qed.
Lemma respects_create_user env enabled me payload : respects R (create_user env enabled me payload).
Proof. unfold create_user. respects_all. Qed.

Lemma respects_create_token env drawn me payload : respects R (create_token_route env drawn me payload).
Proof.
  unfold create_token_route, requested_scope, requested_expiry. cbv zeta.
  do 4 (apply respects_bind; [respects_all|intros]). apply respects_bind; [|respects_all].
  unfold requested_networks. destruct (parse_networks _); respects_all.
Qed.
Lemma respects_revoke_token env me id : respects R (revoke_token_route env me id).
Proof. unfold revoke_token_route. respects_all. Qed.

Lemma respects_accept_code env user code : respects R (accept_code env user code).
Proof.
  unfold accept_code. apply respects_if; [respects_all|]. do 2 (apply respects_bind; [respects_all|intros]).
  apply respects_option; [|respects_all]. intros step. apply respects_act. intros s0 s Hs.
  destruct (replay_accept _ _ _) as [r ok]. by apply ord_replay.
Qed.

Lemma respects_current_session env headers : respects R (current_session env headers).
Proof. unfold current_session. respects_all. Qed.
Hint Resolve respects_current_session : respects.

Lemma respects_check_token env headers scope : respects R (check_token env headers scope).
Proof.
  intros s0 s Hs. unfold leaves, wp, check_token, check.
  destruct (extract_bearer headers) as [clear|]; cbn [fst snd]; [|by destruct s; apply ord_windows].
  pose proof (ord_token s0 s (e_now env) clear (e_ip env) Hs) as Ht.
  destruct (authenticate_token _ _ _ _ _ _ _ _ _ _) as [d outcome] eqn:Ea.
  assert (R s0 (on_db (fun _ => d) s)) as Hd by (unfold on_db in Ht |- *; by rewrite Ea in Ht).
  repeat case_match; simplify_eq; by apply ord_windows.
Qed.
Hint Resolve respects_check_token : respects.

Lemma respects_bearer env headers method path : respects R (bearer_identity env headers method path).
Proof. unfold bearer_identity. respects_all. Qed.
Hint Resolve respects_bearer : respects.

Lemma respects_require_session env request : respects R (require_session env request).
Proof.
  unfold require_session. do 3 (apply respects_bind; [respects_all|intros]). cbv zeta.
  apply respects_option; [respects_all|]. apply respects_bind; [respects_all|].
  intros [[token user]|]; respects_all.
Qed.

Lemma respects_authenticated p : respects R (authenticated p).
Proof. destruct p; unfold authenticated; respects_all. Qed.
Hint Resolve respects_authenticated : respects.
Lemma respects_admin_user p : respects R (admin_user p).
Proof. unfold admin_user. apply respects_bind; [respects_all|]. intros []. respects_all. Qed.
Hint Resolve respects_admin_user : respects.

Hint Resolve respects_logout respects_change_password respects_enroll respects_verify respects_disable
  respects_admin_reset respects_create_user respects_create_token respects_revoke_token : respects.

(** Behind the guard, but for the handlers that may take a role away. *)
Lemma respects_handle cfg env p c :
  (forall me id payload, respects R (update_account env me id payload)) ->
  (forall me id, respects R (delete_account env me id)) -> respects R (handle cfg env p c).
Proof.
  intros Hu Hd. destruct c; unfold handle, done_; [respects_all|..];
    (apply respects_bind; [respects_all|]); (intros [user session] || intros me); respects_all.
Qed.

Lemma respects_guarded cfg env headers c :
  (forall me id payload, respects R (update_account env me id payload)) ->
  (forall me id, respects R (delete_account env me id)) ->
  respects R (serve cfg env headers (Guarded c)).
Proof.
  intros Hu Hd. simpl. destruct (route c) as [method path]. apply respects_plain, respects_bind;
    [apply respects_require_session|]. intros p. by apply respects_handle.
Qed.

Section SignIn.
Context (env : Env) `{HS : !SignsIn env R}.
Set Default Proof Using "HR HS".

Lemma respects_open_session user : respects R (open_session env user).
Proof. unfold open_session. respects_all. Qed.
Hint Resolve respects_open_session respects_accept_code : respects.

Lemma respects_login demo name password : respects R (login env demo name password).
Proof. unfold login. respects_all. Qed.

Lemma respects_login_step pending code : respects R (login_step env pending code).
Proof.
  unfold login_step. apply respects_bind.
  { apply respects_act. intros s0 s Hs. pose proof (sig_lookup s0 s pending Hs) as Hl.
    by destruct (pending_lookup _ _ _). }
  intros outcome. do 3 (apply respects_bind; [respects_all|intros]). cbv zeta.
  do 2 (apply respects_bind; [respects_all|intros]).
  apply respects_if; [|respects_all]. apply respects_bind; [respects_all|intros _].
  apply respects_bind; [|respects_all].
  apply respects_act. intros s0 s Hs. pose proof (sig_failure s0 s pending Hs) as Hf.
  by destruct (pending_failure _ _).
Qed.

Lemma respects_callback config taken params exchanged :
  (forall claims, respects R (map_identity env config claims)) ->
  respects R (callback env config taken params exchanged).
Proof.
  intros Hm. unfold callback. apply respects_bind.
  - unfold finish. apply respects_bind; [respects_all|intros pending].
    do 3 (apply respects_bind; [respects_all|intros _]).
    apply respects_bind; [destruct exchanged; respects_all|intros claims]. respects_all.
  - intros [user redirect]. respects_all.
Qed.

(** Any call, but for the handlers that may take a role away. *)
Lemma respects_serve cfg headers c :
  (forall me id payload, respects R (update_account env me id payload)) ->
  (forall me id, respects R (delete_account env me id)) ->
  (forall config claims, respects R (map_identity env config claims)) ->
  respects R (serve cfg env headers c).
Proof.
  intros Hu Hd Hm. destruct c as [[]|c]; [..|by apply respects_guarded]; unfold serve, handle_public, done_.
  - apply respects_plain, respects_yields, respects_lift, respects_setup.
  - apply respects_plain, respects_yields, respects_lift, respects_login.
  - apply respects_plain, respects_yields, respects_lift, respects_login_step.
  - apply respects_flow, respects_yields. by apply respects_callback.
Qed.
End SignIn.

Context `{HA : !Administers R}.
Set Default Proof Using "HR HA".

Lemma respects_update_account env me id payload : respects R (update_account env me id payload).
Proof. unfold update_account, update_check, update_apply. respects_all. Qed.
Lemma respects_create_attempts env issuer base display_name claims role attempts :
  respects R (create_attempts env issuer base display_name claims role attempts).
Proof. induction attempts; cbn [create_attempts]; respects_all. Qed.
Hint Resolve respects_create_attempts : respects.
Lemma respects_map_identity env config claims : respects R (map_identity env config claims).
Proof.
  unfold map_identity, create_account. cbv zeta.
  apply respects_bind; [respects_all|intros known]. apply respects_bind; [respects_all|intros user].
  apply respects_option; [intros role|respects_all]. apply respects_bind; [respects_all|intros last].
  respects_all.
Qed.
Lemma respects_delete_account env me id : respects R (delete_account env me id).
Proof. unfold delete_account. respects_all. Qed.
End Handlers.

#[export] Hint Resolve respects_guard_attempt respects_load respects_check_password respects_setup
  respects_logout respects_change_password respects_enroll respects_verify respects_disable
  respects_admin_reset respects_create_user respects_create_token respects_revoke_token
  respects_accept_code respects_current_session
  respects_check_token respects_bearer respects_require_session respects_guarded
  respects_update_account respects_delete_account respects_map_identity respects_open_session
  respects_login respects_login_step : respects.
