(* ===== verification/ServerFacts.v ===== *)
(** * What holds of the accounts

    The relations the calls respect: the tables stay well formed and keep an active
    administrator, only a sign-in opens a session, a sign-in half-way bears fewer and fewer
    wrong codes; and the claims about runs of calls. *)
From Stdlib Require Import Ascii.
From Stdlib Require String.
From S2P Require Import Prelude Text Chrono RateLimit Totp Handler Accounts ApiToken Auth Guard Login UsersApi TokensApi Oidc Server Effects.

(** A relation between the tables of two states. *)
Definition tables (R : AuthDb -> AuthDb -> Prop) (s s' : AuthState) : Prop := R (a_db s) (a_db s').

#[export] Instance tables_blind R : Blind (tables R).
Proof. split; done. Qed.

(** ** An administrator and well-formed tables *)

Notation keeps := (respects (tables safe)).

Lemma safe_trans d0 d1 d2 : safe d0 d1 -> safe d1 d2 -> safe d0 d2.
Proof. intros H1 H2 Hwf. destruct (H1 Hwf) as [Hwf1 Ha1]. destruct (H2 Hwf1). auto. Qed.


Lemma wf_touch_if_stale show now row ip d : wf_db d -> wf_db (touch_if_stale show now row ip d).
Proof.
  intros Hwf. unfold touch_if_stale. destruct (_ && _); [done|].
  destruct Hwf as [? ? ? ? ? ? ? ? ? Htok]. split; simpl; try done.
  intros t uid (t0 & Ht0 & ->)%elem_of_update_where Hu. apply (Htok t0 uid Ht0).
  by destruct (_ =? _).
Qed.

Lemma safe_authenticate_token `{Crates} now clear ip d :
  safe d (authenticate_token net_contains parse_net json_strings parse_time sha256 display_ip now clear ip d).1.
Proof.
  unfold authenticate_token. repeat (case_match; try apply safe_refl). cbn [fst].
  apply safe_same_users; [apply wf_touch_if_stale|]. unfold touch_if_stale. cbv zeta.
  match goal with |- context [if ?b then d else _] => by destruct b end.
Qed.

Lemma safe_create_token `{Crates} text time now clear new d :
  safe d (create_token text time sha256 now clear (new : NewToken Net) d).1.
Proof.
  unfold create_token. destruct (_ || _) eqn:E; [apply safe_refl|]. apply orb_false_iff in E as [_ E].
  apply safe_same_users; [|done]. intros [? ? ? ? ? ? ? ? ? Htok]. split; try done. cbn.
  intros t uid [Ht| ->%list_elem_of_singleton]%elem_of_app Hu; [by eapply Htok|]. cbn in Hu. rewrite Hu in E.
  apply get_is_Some. by apply negb_false_iff, bool_decide_eq_true in E.
Qed.
Lemma safe_revoke now id d : safe d (revoke now id d).1.
Proof.
  apply safe_same_users; [|done]. intros [? ? ? ? ? ? ? ? ? Htok]. split; try done. cbn.
  intros t uid (t0 & Ht0 & ->)%elem_of_update_where Hu. apply (Htok t0 uid Ht0). by destruct (live _ _).
Qed.

Section Safe.
Context `{Crates}.

#[export] Instance safe_ordinary : Ordinary (tables safe).
Proof.
  split; [apply _|..]; intros; try done.
  all: unfold tables in *; cbn [a_db on_db]; try (by eauto 2 with accounts).
  - eapply safe_trans; [done|apply safe_authenticate_token].
  - eapply safe_trans; [done|apply safe_create_token].
  - eapply safe_trans; [done|apply safe_revoke].
Qed.

#[export] Instance safe_signs_in env : SignsIn env (tables safe).
Proof. split; intros; try done. by apply safe_create. Qed.
End Safe.

(** *** Taking a role away

    Another active administrator than [id], if [P]. *)
Definition others (id : Z) (d : AuthDb) : Prop :=
  exists u, u ∈ users d /\ active_admin u = true /\ u_id u <> id.
Definition spare (P : Prop) (id : Z) (d : AuthDb) : Prop := wf_db d /\ (P -> others id d).

Lemma others_has_admin id d : others id d -> has_admin d.
Proof. intros (u & Hu & Ha & _). by exists u. Qed.

Lemma spare_update P id f d :
  (wf_db d -> wf_db (update_user id f d)) -> spare P id d -> spare P id (update_user id f d).
Proof.
  intros Hwf [Hd Ho]. split; [auto|]. intros (u & Hu & Ha & Hid)%Ho. exists u. split; [|done].
  apply elem_of_update_where. exists u. split; [done|]. by destruct (Z.eqb_spec (u_id u) id).
Qed.
Lemma spare_password P id h d : spare P id d -> spare P id (set_password_hash id h d).
Proof. apply spare_update, wf_set_password. Qed.
Lemma spare_display_name P id n d : spare P id d -> spare P id (set_display_name id n d).
Proof. apply spare_update, wf_set_display_name. Qed.
Lemma spare_role P id r d : spare P id d -> spare P id (set_role id r d).
Proof. apply spare_update, wf_set_role. Qed.
Lemma spare_disabled P id b d : spare P id d -> spare P id (set_disabled id b d).
Proof. apply spare_update, wf_set_disabled. Qed.
Lemma spare_sessions P id uid keep d : spare P id d -> spare P id (delete_for_user uid keep d).
Proof. intros [Hd Ho]. split; [by apply wf_delete_for_user|]. by destruct keep. Qed.

Create HintDb spare discriminated.
#[export] Hint Resolve spare_password spare_display_name spare_role spare_disabled spare_sessions : spare.

(** To keep the tables it is enough to keep the ones of the call, taken well formed. *)
Lemma keeps_intro {E A} (m : Handler AuthState E A) :
  (forall s, wf_db (a_db s) -> leaves m s (fun s' => wf_db (a_db s') /\ (has_admin (a_db s) -> has_admin (a_db s')))) ->
  keeps m.
Proof.
  intros Hm d0 s Hs. apply leaves_state. apply (safe_trans _ (a_db s)); [done|]. intros Hwf.
  specialize (Hm s Hwf). by apply leaves_state in Hm.
Qed.

Lemma inactive_others id d u :
  wf_db d -> get id d = Some u -> active_admin u = false -> has_admin d -> others id d.
Proof.
  intros Hwf [Hu Hid]%get_Some Hna (v & Hv & Ha). exists v. split_and!; [done..|]. intros Heq.
  assert (v = u) as ->; [|congruence].
  eapply NoDup_fmap_inj_in; [apply Hwf|done..|congruence].
Qed.

Section Administration.
Context `{Crates}.

(** The writes of an update, when another administrator stays. *)
Lemma update_apply_spare P env me id payload user s :
  spare P id (a_db s) ->
  leaves (update_apply env me id payload user) s (fun s' => spare P id (a_db s')).
Proof.
  intros Hs. unfold leaves, update_apply, load. repeat astep; tables; auto 10 with spare.
Qed.

(** The writes of an update that changes neither the role nor the activity. *)
Lemma update_apply_keeps env me id payload user :
  option_filter (fun role => negb (bool_decide (role = u_role user))) (up_role payload) = None ->
  option_filter (fun disabled => negb (bool_decide (disabled = u_disabled user))) (up_disabled payload) = None ->
  keeps (update_apply env me id payload user).
Proof. intros Hr Hd. unfold update_apply. rewrite Hr, Hd. cbn [if_some]. respects_all. Qed.

(** An update either spares another administrator or leaves this one alone. *)
Lemma update_cases id payload user d :
  wf_db d -> get id d = Some user ->
  (loses_admin user payload = true -> 1 < active_admin_count d) ->
  (has_admin d -> others id d) \/
  (option_filter (fun role => negb (bool_decide (role = u_role user))) (up_role payload) = None /\
   option_filter (fun disabled => negb (bool_decide (disabled = u_disabled user))) (up_disabled payload) = None).
Proof.
  intros Hwf Hu Hl. destruct (active_admin user) eqn:Ea; [|left; by eapply inactive_others].
  destruct (loses_admin user payload) eqn:El; [left; intros _; apply another_admin; auto|right].
  unfold active_admin in Ea. apply andb_true_iff in Ea as [Hadmin Hactive].
  unfold loses_admin in El. rewrite Hadmin, Hactive in El. simpl in El.
  apply orb_false_iff in El as [Hr Hd]. apply negb_true_iff in Hactive. rewrite Hactive.
  destruct (u_role user); try done. split.
  - destruct (up_role payload) as [[]|]; simpl in *; done.
  - destruct (up_disabled payload) as [[]|]; simpl in *; bools; done.
Qed.

Lemma keeps_update_account env me id payload : keeps (update_account env me id payload).
Proof.
  apply keeps_intro. intros s Hwf. unfold update_account, update_check, load, leaves.
  repeat lazymatch goal with
         | |- wp (update_apply _ _ _ _ _) _ _ _ => fail
         | |- wp _ _ _ _ => astep
         end; try done;
    match goal with
    | Hu : get _ (a_db s) = Some ?u |- _ =>
        destruct (update_cases id payload u (a_db s) Hwf Hu) as [Ho|[Hr Hd]];
          [intros; bools; (lia || congruence)
          |eapply wp_mono; [apply (update_apply_spare (has_admin (a_db s))); split; done|..];
           intros ? s' [Hwf' Ho']; (split; [done|]); eauto using others_has_admin
          |pose proof (update_apply_keeps env me id payload u Hr Hd s s (safe_refl _)) as Hk;
           eapply wp_mono; [exact Hk|..]; intros ? s' Hs'; by apply Hs']
    end.
Qed.

Lemma keeps_delete_account env me id : keeps (delete_account env me id).
Proof.
  apply keeps_intro. intros s Hwf. unfold delete_account, load, leaves.
  repeat astep; tables; try done; (split; [by apply wf_delete|]); intros Ha; apply has_admin_delete.
  - apply another_admin; [done|]. bools. lia.
  - by eapply inactive_others.
Qed.
End Administration.

(** *** Single sign-on *)

(** The row of an account still has the role that was read. *)
Definition role_read (user : User) (d : AuthDb) : Prop :=
  exists v, get (u_id user) d = Some v /\ u_role v = u_role user.

Definition kept (d0 : AuthDb) (user : User) (s : AuthState) : Prop :=
  wf_db (a_db s) /\ (has_admin d0 -> has_admin (a_db s)) /\ role_read user (a_db s).

Lemma get_update_user id f d k u :
  (forall v, u_id (f v) = u_id v) -> get k d = Some u ->
  get k (update_user id f d) = Some (if u_id u =? id then f u else u).
Proof.
  intros Hf. unfold get, update_user, set_users, first_where. simpl.
  induction (users d) as [|v us IH]; [done|]. simpl.
  assert (u_id (if u_id v =? id then f v else v) = u_id v) as -> by by destruct (u_id v =? id).
  destruct (u_id v =? k) eqn:E; [|apply IH]. by intros [= ->].
Qed.

Lemma create_attempts_kept env issuer base display_name claims role attempts d0 s :
  wf_db (a_db s) -> (has_admin d0 -> has_admin (a_db s)) ->
  wp (create_attempts env issuer base display_name claims role attempts) (kept d0)
     (fun _ s' => wf_db (a_db s') /\ (has_admin d0 -> has_admin (a_db s'))) s.
Proof.
  revert s. induction attempts as [|k attempts IH]; intros s Hwf Ha; [by apply wp_throw|].
  cbn [create_attempts]. apply wp_bind. unfold wp at 1, call_, act.
  set (n := {| nu_username := _ |}).
  pose proof (safe_insert (a_db s) (a_db s) (e_now env) n (safe_refl _) Hwf) as [Hwf' Ha'].
  destruct (insert (e_now env) n (a_db s)) as [d o]. cbn [fst] in *.
  apply wp_bind, wp_ok_or; [|by intros; split; auto]. intros created _.
  destruct created as [id|]; [|apply IH; tables; auto].
  apply wp_bind, wp_gets, wp_ok_or; [|by intros; split; auto]. intros u Hu.
  pose proof (get_Some _ _ _ Hu) as [_ Hid]. split_and!; tables; [auto..|].
  exists u. by rewrite Hid.
Qed.

Lemma map_identity_keeps env config claims : keeps (map_identity env config claims).
Proof.
  apply keeps_intro. intros s Hwf. unfold map_identity, leaves. apply wp_bind, wp_gets, wp_bind.
  eapply (wp_mono _ (kept (a_db s)) _
    (fun _ s' => wf_db (a_db s') /\ (has_admin (a_db s) -> has_admin (a_db s')))); [| |done].
  - destruct (by_oidc _ _ _) as [u|] eqn:Eu.
    { apply wp_ret. split_and!; [done..|]. apply first_where_Some in Eu as [Eu _].
      exists u. split; [by apply get_unique|done]. }
    apply wp_bind, wp_gets. destruct (find_linkable _ _) as [u|] eqn:El.
    + assert (u ∈ users (a_db s)) as Hin.
      { revert El. unfold find_linkable. destruct (verified_email claims) as [e|]; [|done]. simpl.
        destruct (by_username e (a_db s)) as [v|] eqn:Ev; [|done]. simpl.
        repeat case_match; try done. intros [= <-]. by apply first_where_Some in Ev as [? _]. }
      apply wp_bind. unfold wp at 1, call_, act.
      pose proof (safe_link (a_db s) (a_db s) (u_id u) (oc_issuer config) (cl_sub claims) (safe_refl _) Hwf)
        as [Hwf' Ha'].
      assert (role_read u (link_oidc (u_id u) (oc_issuer config) (cl_sub claims) (a_db s)).1) as Hrole.
      { unfold link_oidc. destruct (subject_taken _ _ _); cbn [fst].
        - exists u. split; [by apply get_unique|done].
        - eexists. erewrite get_update_user; [|done|by apply get_unique].
          rewrite Z.eqb_refl. done. }
      destruct (link_oidc _ _ _ _) as [d o]. cbn [fst] in *. apply wp_bind, wp_ok_or; [|done].
      intros _ _. apply wp_ret. split_and!; done.
    + apply wp_bind, wp_refuse_if; [done|]. intros _. unfold create_account.
      by apply create_attempts_kept.
  - intros u s' (Hwf' & Ha' & v & Hv & Hrole). destruct (option_filter _ _) as [role|]; [|done].
    assert (forall s'', s'' = s' -> (has_admin (a_db s') -> others (u_id u) (a_db s')) ->
      wp (write (set_role (u_id u) role) ;; mret (with_role role u))
         (fun _ s2 => wf_db (a_db s2) /\ (has_admin (a_db s) -> has_admin (a_db s2)))
         (fun _ s2 => wf_db (a_db s2) /\ (has_admin (a_db s) -> has_admin (a_db s2))) s'') as Hset.
    { intros s'' -> Ho. apply wp_bind, wp_modify, wp_ret. tables. split; [by apply wf_set_role|].
      intros Ha. apply has_admin_keep, Ho, Ha', Ha. }
    apply wp_bind. destruct (Role.is_admin (u_role u)) eqn:Ead.
    + apply wp_gets. destruct (Z.leb_spec (active_admin_count (a_db s')) 1); [by apply wp_ret|].
      apply Hset; [done|]. intros _. by apply another_admin.
    + apply wp_ret, Hset; [done|]. eapply inactive_others; [done..|].
      unfold active_admin. by rewrite Hrole, Ead.
Qed.


Lemma keeps_serve `{Crates} cfg env headers c : keeps (serve cfg env headers c).
Proof.
  apply respects_serve; [apply _..|apply keeps_update_account|apply keeps_delete_account|apply map_identity_keeps].
Qed.

Lemma safe_run `{Crates} cfg steps s : safe (a_db s) (a_db (run cfg steps s)).
Proof.
  unfold run. induction steps as [|step steps IH] using rev_ind; [apply safe_refl|].
  rewrite foldl_snoc. eapply (leaves_state _ _ (fun s' => safe _ (a_db s'))), keeps_serve. exact IH.
Qed.

(** ** Facts: sessions

    Only a sign-in adds a session. *)
Definition fewer (d d' : AuthDb) : Prop := auth_sessions d' ⊆ auth_sessions d.

Lemma fewer_filter (P : string * Session -> Prop) `{!forall x, Decision (P x)} d0 d :
  fewer d0 d -> fewer d0 (set_sessions (filter P) d).
Proof. intros Hd. unfold fewer. simpl. etransitivity; [apply map_filter_subseteq|done]. Qed.

Lemma fewer_delete_session id d0 d : fewer d0 d -> fewer d0 (delete_session id d).
Proof. intros Hd. unfold fewer. simpl. etransitivity; [apply delete_subseteq|done]. Qed.

Lemma fewer_same d0 d d' : auth_sessions d' = auth_sessions d -> fewer d0 d -> fewer d0 d'.
Proof. unfold fewer. by intros ->. Qed.

Lemma fewer_delete_for_user id keep d0 d : fewer d0 d -> fewer d0 (delete_for_user id keep d).
Proof. destruct keep; apply fewer_filter. Qed.
Lemma fewer_purge now d0 d : fewer d0 d -> fewer d0 (purge_expired now d).
Proof. apply fewer_filter. Qed.
Lemma fewer_authenticate hash now token d0 d : fewer d0 d -> fewer d0 (authenticate hash now token d).1.
Proof.
  intros Hd. unfold authenticate. destruct (_ !! _); [|done]. destruct (negb _); [done|].
  destruct (_ <=? _); [|done]. by apply fewer_delete_session.
Qed.
Lemma fewer_insert now n d0 d : fewer d0 d -> fewer d0 (insert now n d).1.
Proof. apply fewer_same. unfold insert. destruct (username_taken _ _); [done|]. by destruct (subject_taken _ _ _). Qed.
Lemma fewer_insert_first now name h d0 d : fewer d0 d -> fewer d0 (insert_first_admin now name h d).1.
Proof. apply fewer_same. unfold insert_first_admin. by destruct (0 <? _). Qed.
Lemma sessions_add_codes id hashes d : auth_sessions (foldl (add_code id) d hashes) = auth_sessions d.
Proof. revert d. induction hashes as [|h hs IH]; intros d; [done|]. simpl. by rewrite IH. Qed.
Lemma fewer_codes id hashes d0 d : fewer d0 d -> fewer d0 (replace_recovery_codes id hashes d).1.
Proof.
  apply fewer_same. unfold replace_recovery_codes.
  destruct (get id d), hashes; try done; cbn [fst]; by rewrite sessions_add_codes.
Qed.
Lemma fewer_consume now id hash d0 d : fewer d0 d -> fewer d0 (consume_recovery_code now id hash d).1.
Proof. apply fewer_same. unfold consume_recovery_code. by destruct (first_where _ _). Qed.
Lemma fewer_delete now id d0 d : fewer d0 d -> fewer d0 (delete now id d).
Proof.
  intros Hd. unfold fewer, delete. destruct (get id d); [|done].
  cbn [set_tokens set_codes set_sessions set_users auth_sessions].
  etransitivity; [apply map_filter_subseteq|exact Hd].
Qed.
Lemma fewer_touch show now row ip d0 d : fewer d0 d -> fewer d0 (touch_if_stale show now row ip d).
Proof.
  apply fewer_same. unfold touch_if_stale. cbv zeta.
  match goal with |- context [if ?b then d else _] => by destruct b end.
Qed.

Section Fewer.
Context `{Crates}.

#[export] Instance fewer_ordinary : Ordinary (tables fewer).
Proof.
  split; [apply _|..]; intros s0 s; intros; try assumption.
  - by apply fewer_codes.
  - by apply fewer_consume.
  - by apply fewer_insert.
  - by apply fewer_insert_first.
  - unfold tables, link_oidc. cbn [on_db a_db]. by destruct (subject_taken _ _ _).
  - by apply fewer_delete_session.
  - by apply fewer_delete_for_user.
  - by apply fewer_purge.
  - by apply fewer_authenticate.
  - unfold tables, authenticate_token. cbn [on_db a_db]. repeat case_match; try assumption.
    by apply fewer_touch.
  - unfold tables, create_token. cbn [on_db a_db]. by destruct (_ || _).
Qed.

#[export] Instance fewer_administers : Administers (tables fewer).
Proof. split; intros s0 s; intros; try assumption. by apply fewer_delete. Qed.
End Fewer.

(** ** Facts: who signs in *)

(** The only sessions added are of one account. *)
Definition only_for (uid : Z) (d d' : AuthDb) : Prop :=
  forall k row, auth_sessions d' !! k = Some row ->
    auth_sessions d !! k = Some row \/ s_user_id row = Some uid.

Lemma fewer_only_for uid d d' : fewer d d' -> only_for uid d d'.
Proof. intros Hf k row Hk. left. by eapply lookup_weaken. Qed.

(** A statement on the way to a sign-in. *)
Lemma wp_pass (R : AuthState -> AuthState -> Prop) {E A B} (m : Handler AuthState E A)
    (f : A -> Handler AuthState E B) Q (P : E -> AuthState -> Prop) s0 s :
  respects R m -> R s0 s -> (forall a s', R s0 s' -> wp (f a) Q P s') ->
  (forall e s', R s0 s' -> P e s') -> wp (m ≫= f) Q P s.
Proof. intros Hm Hs Hf Hp. apply wp_bind. eapply wp_mono; [by apply Hm|done..]. Qed.

Lemma eq_fewer s s' : tables eq s s' -> tables fewer s s'.
Proof. unfold tables, fewer. by intros ->. Qed.

Section SignIn.
Context `{Crates}.

Lemma create_only_for hash now uid token d0 d :
  fewer d0 d -> only_for uid d0 (create hash now uid token d).1.
Proof.
  intros Hf. unfold create. destruct (_ !! _); [by apply fewer_only_for|].
  destruct (get uid d); [|by apply fewer_only_for]. cbn [fst].
  intros k row [Hk _]%map_lookup_filter_Some. cbn [set_sessions auth_sessions] in Hk.
  apply lookup_insert_Some in Hk as [[_ <-]|[_ Hk]]; [by right|]. left. by eapply lookup_weaken.
Qed.

Lemma open_session_only env user s0 s :
  tables fewer s0 s -> leaves (open_session env user) s (tables (only_for (u_id user)) s0).
Proof.
  intros Hs. unfold leaves, open_session.
  pose proof (create_only_for sha256 (e_now env) (u_id user) (e_session env) (a_db s0) (a_db s) Hs) as Hc.
  repeat astep; exact Hc.
Qed.

(** What a password alone opens: a session of an account without a second factor. *)
Lemma login_opens env demo name password s :
  leaves (login env demo name password) s (fun s' =>
    tables fewer s s' \/
    exists u, u ∈ users (a_db s) /\ u_totp_enabled u && bool_decide (is_Some (u_totp_secret u)) = false /\
      tables (only_for (u_id u)) s s').
Proof.
  unfold leaves, login. cbv zeta.
  apply (wp_pass (tables eq) _ _ _ _ s); [respects_all|done| |by left; apply eq_fewer].
  intros c s1 H1. apply (wp_pass (tables eq) _ _ _ _ s); [respects_all|done| |by left; apply eq_fewer].
  clear H1 s1 c. intros _ s1 H1.
  apply (wp_pass (tables eq) _ _ _ _ s); [unfold guard_attempt; respects_all|done| |by left; apply eq_fewer].
  clear H1 s1. intros _ s1 Hdb. unfold tables in Hdb. apply wp_bind, wp_query. rewrite <-Hdb.
  set (found := match given_name name with Some n => _ | None => _ end).
  assert (forall u, found = Some u -> u ∈ users (a_db s)) as Hfound.
  { intros u. unfold found. destruct (given_name name) as [n|].
    - by intros [Hu _]%first_where_Some.
    - unfold sole_password_user. intros Hu.
      assert (u ∈ take 2 (filter (fun u => is_Some (u_password_hash u)) (users (a_db s)))) as Hin.
      { destruct (take 2 _) as [|v []]; simplify_eq; left. }
      apply elem_of_take in Hin as (i & Hi%list_elem_of_lookup_2 & _).
      by apply list_elem_of_filter in Hi as [_ Hi]. }
  clearbody found. apply wp_bind, wp_ok_or; [|by intros; left; apply eq_fewer].
  intros verified _. destruct (option_filter _ found) as [u|] eqn:Eu.
  - destruct found as [v|]; [|done]. simpl in Eu. destruct (_ && verified); [|done].
    injection Eu as ->. destruct (_ && _) eqn:Et.
    { apply wp_bind, wp_modify, wp_ret. left. by apply eq_fewer. }
    apply wp_bind, wp_modify, wp_bind.
    eapply wp_mono; [apply (open_session_only env u s)| |].
    { by apply eq_fewer. }
    all: intros ? s2 Hs2; right; exists u; auto.
  - apply (wp_pass (tables fewer) _ _ _ _ s); [respects_all|by apply eq_fewer| |by left].
    intros _ s2 H2. apply (wp_pass (tables fewer) _ _ _ _ s); [respects_all|done| |by left].
    intros _ s3 H3. apply wp_throw. by left.
Qed.
(** A proof of the second factor: an unused recovery code, or the digits of a step later than
    the last one accepted. *)
Definition code_given (env : Env) (u : User) (code : string) (s : AuthState) : Prop :=
  (looks_like_recovery_code code = true /\
   exists rc, rc ∈ recovery_codes (a_db s) /\
     unused_code (u_id u) (hash_recovery_code sha256 code) rc = true) \/
  (looks_like_recovery_code code = false /\
   exists data secret step, u_totp_secret u = Some data /\ decrypt data = Some secret /\
     matching_step_at hmac_sha1 secret code (unix_secs env) = Some step /\
     forall last, a_replay s !! u_id u = Some last -> last < step).

Lemma accept_code_given env u code s0 s :
  tables fewer s0 s ->
  wp (accept_code env u code)
     (fun ok s' => tables fewer s0 s' /\ (ok = true -> code_given env u code s))
     (fun _ => tables fewer s0) s.
Proof.
  intros Hs. unfold accept_code. destruct (looks_like_recovery_code code) eqn:El.
  - apply wp_bind, wp_call.
    assert (tables fewer s0 (on_db (fun _ => (consume_recovery_code (e_now env) (u_id u)
      (hash_recovery_code sha256 code) (a_db s)).1) s)) as Hs' by by apply fewer_consume.
    unfold consume_recovery_code in *. destruct (first_where _ _) as [rc|] eqn:Er; cbn [fst snd] in *.
    + apply first_where_Some in Er as [Hin Hun].
      apply wp_bind, wp_when; intros _; [apply wp_record; intros f|]; apply wp_ret;
        (split; [exact Hs'|]); intros _; left; eauto.
    + apply wp_bind, wp_when; intros Hb; [done|]. by apply wp_ret.
  - apply wp_bind, wp_ok_or; [|done]. intros data Hd. apply wp_bind, wp_ok_or; [|done].
    intros secret Hsec. destruct (matching_step_at _ _ _ _) as [step|] eqn:Em; [|by apply wp_ret].
    apply wp_act. unfold replay_accept. destruct (a_replay s !! u_id u) as [last|] eqn:Ea.
    + destruct (Z.leb_spec step last); cbn [fst snd]; [done|]. split; [done|]. intros _. right.
      split; [done|]. exists data, secret, step. split_and!; try done.
      intros l Hl. rewrite Ea in Hl. by injection Hl as <-.
    + cbn [fst snd]. split; [done|]. intros _. right. split; [done|]. exists data, secret, step.
      split_and!; try done. by rewrite Ea.
Qed.

(** What a code opens: a session of the account its sign-in waits for. *)
Lemma login_step_opens env pending code s :
  leaves (login_step env pending code) s (fun s' =>
    tables fewer s s' \/
    exists entry u, a_pending s !! pending = Some entry /\
      duration_since (e_instant env) (pd_started entry) < TTL /\
      get (pd_user_id entry) (a_db s) = Some u /\ u_disabled u = false /\
      code_given env u code s /\ tables (only_for (u_id u)) s s').
Proof.
  assert (forall p, tables fewer s (set_pending p s)) as Hp by (intros; by apply eq_fewer).
  unfold leaves, login_step. apply wp_bind, wp_act. unfold pending_lookup.
  destruct (a_pending s !! pending) as [entry|] eqn:Ee;
    [|cbn [fst snd]; apply wp_bind, wp_ok_or; [by intros|]; left; apply Hp].
  destruct (Z.leb_spec TTL (duration_since (e_instant env) (pd_started entry))); cbn [fst snd];
    (apply wp_bind, wp_ok_or; [|left; apply Hp]); [by intros|]. intros uid [= <-].
  apply wp_bind, wp_query, wp_bind, wp_ok_or; [|left; apply Hp]. intros u Hu. cbv zeta.
  tables. destruct (get (pd_user_id entry) (a_db s)) as [v|] eqn:Eg; [|done]. simpl in Hu.
  destruct (u_disabled v) eqn:Ed; [done|]. destruct (u_totp_enabled v); [|done]. injection Hu as ->.
  set (s1 := set_pending (a_pending s) s). assert (tables fewer s s1) as H1 by by apply eq_fewer.
  apply (wp_pass (fun s s' => s = s1 /\ s' = s1) _ _ _ _ s1); [|done| |by intros e ? [_ ->]; left].
  { unfold guard_attempt. apply respects_bind; [intros ? ? [-> ->]; done|]. intros wait.
    apply respects_if_some. intros. apply respects_throw. }
  intros _ ? [_ ->]. apply wp_bind.
  eapply wp_mono; [apply (accept_code_given env u code s s1 H1)| |by left].
  intros ok s2 [H2 Hok]. destruct ok; cbn [negb].
  - apply wp_bind, wp_modify, wp_bind, wp_modify.
    eapply wp_mono; [apply (open_session_only env u s); exact H2| |];
      intros ? s3 H3; right; exists entry, u; split_and!; try done; by apply Hok.
  - apply (wp_pass (tables fewer) _ _ _ _ s); [respects_all|done| |by left]. intros _ s3 H3.
    apply (wp_pass (tables fewer) _ _ _ _ s); [|done| |by left].
    { apply respects_act. intros s4 s5 H5. by destruct (pending_failure _ _). }
    intros w s4 H4. apply (wp_pass (tables fewer) _ _ _ _ s); [respects_all|done| |by left].
    intros _ s5 H5. apply wp_throw. by left.
Qed.
End SignIn.

(** ** Facts: wrong codes

    What is left of a sign-in half-way: the wrong codes it still bears, none once it is gone. *)
Definition budget (p : string) (s : AuthState) : Z :=
  match a_pending s !! p with
  | Some e => Z.max 1 (MAX_FAILURES - pd_failures e)
  | None => 0
  end.
Definition calmer (p : string) (s s' : AuthState) : Prop := budget p s' <= budget p s.

#[export] Instance calmer_blind p : Blind (calmer p).
Proof. split; done. Qed.

Lemma budget_pos p s : 0 <= budget p s.
Proof. unfold budget. destruct (_ !! _); lia. Qed.

(** Entries that only disappear. *)
Lemma calmer_subset p q s0 s : q ⊆ a_pending s -> calmer p s0 s -> calmer p s0 (set_pending q s).
Proof.
  intros Hq Hs. unfold calmer in *. etransitivity; [|exact Hs]. unfold budget at 1. simpl.
  destruct (q !! p) as [e|] eqn:E; [|apply budget_pos].
  unfold budget. by rewrite (lookup_weaken _ _ _ _ E Hq).
Qed.

Lemma calmer_lookup p token now s0 s :
  calmer p s0 s -> calmer p s0 (set_pending (pending_lookup token now (a_pending s)).1 s).
Proof.
  apply calmer_subset. unfold pending_lookup. destruct (_ !! _); [|done].
  destruct (_ <=? _); [apply delete_subseteq|done].
Qed.

Lemma calmer_start p order uid now token s0 s :
  token <> p -> calmer p s0 s ->
  calmer p s0 (set_pending (pending_start order uid now token (a_pending s)) s).
Proof.
  intros Hp Hs. unfold calmer in *. etransitivity; [|exact Hs]. unfold budget at 1. simpl.
  unfold pending_start. cbv zeta. rewrite lookup_insert_ne by done.
  set (kept := filter _ (a_pending s)).
  assert (forall e, (if (MAX_PENDING <=? size kept)%nat
    then match oldest order kept with Some key => base.delete key kept | None => kept end else kept) !! p = Some e ->
    a_pending s !! p = Some e) as Hin.
  { assert (forall e, kept !! p = Some e -> a_pending s !! p = Some e) as Hk
      by by intros e [He _]%map_lookup_filter_Some.
    intros e. destruct (_ <=? _)%nat; [|apply Hk]. destruct (oldest _ _); [|apply Hk].
    intros [_ He]%lookup_delete_Some. by apply Hk. }
  destruct (_ !! p) as [e|]; [|apply budget_pos]. unfold budget. by rewrite (Hin e eq_refl).
Qed.

Lemma failure_budget p token s :
  let s' := set_pending (pending_failure token (a_pending s)).1 s in
  budget p s' <= budget p s /\ (token = p -> 0 < budget p s -> budget p s' + 1 <= budget p s).
Proof.
  intros s'. unfold budget, s', pending_failure. simpl.
  destruct (a_pending s !! token) as [e|] eqn:Ee; cbn [fst].
  - destruct (decide (token = p)) as [->|Hp].
    + rewrite Ee. destruct (Z.leb_spec MAX_FAILURES (pd_failures e + 1)); cbn [fst].
      * rewrite lookup_delete_eq. unfold MAX_FAILURES in *. lia.
      * rewrite lookup_insert_eq. simpl. unfold MAX_FAILURES in *. lia.
    + split; [|done]. destruct (_ <=? _); cbn [fst];
        [rewrite lookup_delete_ne by done|rewrite lookup_insert_ne by done]; done.
  - split; [done|]. intros ->. rewrite Ee. lia.
Qed.

Section Calmer.
Context `{Crates} (p : string).

#[export] Instance calmer_ordinary : Ordinary (calmer p).
Proof. split; [apply _|intros; assumption..]. Qed.
#[export] Instance calmer_administers : Administers (calmer p).
Proof. split; intros; assumption. Qed.

Lemma calmer_signs_in env : e_pending env <> p -> SignsIn env (calmer p).
Proof.
  intros Hp. split; intros; [assumption|by apply calmer_start|by apply calmer_lookup|..].
  - unfold calmer in *. etransitivity; [apply failure_budget|done].
  - apply calmer_subset; [apply delete_subseteq|done].
Qed.
End Calmer.

(** ** Facts: the answers of [serve] *)

Lemma wp_plain {A} (m : Handler AuthState Refusal A) (Q : A -> AuthState -> Prop) R s :
  wp m Q (fun e => R (Refused e)) s -> wp (plain m) Q R s.
Proof. unfold wp, plain. by destruct (m s) as [? []]. Qed.

Lemma wp_yields {S E A B} (m : Handler S E A) (f : A -> B) (Q : B -> S -> Prop) R s :
  wp m (fun a => Q (f a)) R s -> wp (yields m f) Q R s.
Proof. intros Hm. by apply wp_bind. Qed.

Lemma serve_login `{Crates} cfg env headers name password s :
  (login env (cf_demo cfg) name password s).1 =
  (serve cfg env headers (Public (Login name password)) s).1.
Proof.
  simpl. unfold plain, yields, lift, mbind, Handler_bind.
  by destruct (login env (cf_demo cfg) name password s) as [s1 [e|a]].
Qed.

Lemma serve_login_step `{Crates} cfg env headers pending code s :
  serve cfg env headers (Public (LoginStep pending code)) s =
  ((login_step env pending code s).1,
   match (login_step env pending code s).2 with
   | inl e => inl (Refused (ByAuth e))
   | inr session => inr (Signed session)
   end).
Proof.
  simpl. unfold plain, yields, lift, mbind, Handler_bind.
  by destruct (login_step env pending code s) as [s1 [e|a]].
Qed.

Lemma setup_makes_an_admin `{Crates} env code given name password s :
  wp (setup env code given name password) (fun _ s' => has_admin (a_db s')) (fun _ _ => True) s.
Proof.
  assert (forall n h d, (insert_first_admin (e_now env) n h d).2 = true ->
    has_admin (insert_first_admin (e_now env) n h d).1) as Hins.
  { intros n h d. unfold insert_first_admin. destruct (0 <? count d); [done|]. intros _. cbn [fst].
    eexists. split; [apply elem_of_app; right; by left|done]. }
  unfold setup, guard_attempt, attempt_failed, attempt_succeeded.
  repeat astep; try done; tables; apply Hins; by destruct (insert_first_admin _ _ _ _) as [? []].
Qed.

Lemma wf_no_accounts : wf_db no_accounts.
Proof.
  split; cbn [no_accounts users users_seq auth_sessions recovery_codes codes_seq api_tokens];
    try apply NoDup_nil_2; try (intros ? ?%elem_of_nil; done).
  - intros k s uid. by rewrite lookup_empty.
  - by intros t uid ?%elem_of_nil.
Qed.

(** ** Claims *)

(** A server that has just started on an empty database. *)
Definition fresh_state : AuthState := guard_state no_accounts.

(** C37. The tables of accounts keep their shape: after any run of calls on a fresh instance, those that
    create and revoke API tokens included, whatever the clocks, the random values, the headers and the
    crates, no two accounts share an identifier, a name up to its case or an identity, a required second
    factor has its secret, and every session, recovery code and token that names an account names one
    that exists. *)
Theorem tables_stay_well_formed `{Crates} cfg steps : wf_db (a_db (run cfg steps fresh_state)).
Proof. apply (safe_run cfg steps fresh_state), wf_no_accounts. Qed.

(** C16. There is always an active administrator: the first configuration makes one, and once
    there is one no run of calls, administration of the accounts and single sign-on
    included, leaves the instance without any. *)
Theorem an_administrator_remains `{Crates} cfg s :
  wf_db (a_db s) ->
  (forall env headers code name password s' a,
     serve cfg env headers (Public (Setup code name password)) s = (s', inr a) -> has_admin (a_db s')) /\
  (forall steps, has_admin (a_db s) -> has_admin (a_db (run cfg steps s))).
Proof.
  intros Hwf. split.
  - intros env headers code name password s' a Hs.
    assert (wp (serve cfg env headers (Public (Setup code name password)))
      (fun _ s' => has_admin (a_db s')) (fun _ _ => True) s) as Hw.
    { apply wp_plain, wp_yields, wp_lift, setup_makes_an_admin. }
    unfold wp in Hw. by rewrite Hs in Hw.
  - intros steps. by apply safe_run.
Qed.

Definition test_config : Config :=
  {| cf_setup_code := "ABCDE-FGHJK"; cf_demo := false; cf_oidc_enabled := false |}.

(** A token of an account that is deleted stays in the list, revoked and without an owner. *)
Definition as_cookie (session : string) : HeaderMap :=
  [("cookie", ("dumbmonit_session=" +:+ session)%string); ("x-requested-with", "DumbMonit")].
Definition bob_env : Env :=
  {| e_now := 9; e_instant := 9; e_ip := None; e_draw := 9; e_salt := "";
     e_session := {| st_id := "ee"; st_secret := "ff" |}; e_pending := "q"; e_secret := [];
     e_nonce := []; e_codes := [] |}.
Definition token_calls : list Step :=
  [(guard_env, [], Public (Setup "abcdefghjk" None "correct horse"));
   (guard_env, [], Public (Login None "correct horse"));
   (guard_env, as_cookie "cc.dd", Guarded (CreateUser {| cp_username := "bob"; cp_display_name := None;
      cp_role := Role.Admin; cp_password := Some "battery staple" |}));
   (bob_env, [], Public (Login (Some "bob") "battery staple"));
   (bob_env, as_cookie "ee.ff", Guarded (CreateToken [1; 2] {| tp_name := "ci"; tp_scope := None;
      tp_expires_in_days := Some 30; tp_allowed_networks := [] |}))].
Example deleted_owner_leaves_its_token :
  let owners steps := (fun t => (t_user_id t, bool_decide (is_Some (t_revoked_at t)))) <$>
                        api_tokens (a_db (@run plain_crates test_config steps fresh_state)) in
  owners token_calls = [(Some 2, false)] /\
  owners (token_calls ++ [(guard_env, as_cookie "cc.dd", Guarded (DeleteUser 2))]) = [(None, true)].
Proof. vm_compute. split; reflexivity. Qed.

Lemma an_administrator_remains_witness :
  let run := @run plain_crates test_config in
  let s := run [(guard_env, [], Public (Setup "abcdefghjk" None "correct horse"))] fresh_state in
  has_admin (a_db (run [(guard_env, [("x-requested-with", "DumbMonit")], Guarded (DeleteUser 1))] s)).
Proof.
  intros run s. apply (@an_administrator_remains plain_crates test_config s).
  - apply safe_run, wf_no_accounts.
  - eexists. split; [left|]. by vm_compute.
Defined.

(** C3. The second factor cannot be skipped: when a call other than the return of a single
    sign-on opens a session of an account that requires a code, it is the second step of a
    sign-in of this account, started less than five minutes before, and the code it carries
    is an unused recovery code of the account or shows the digits of a step of the window
    later than the last one accepted. *)
Theorem second_factor_cannot_be_skipped `{Crates} cfg env headers c s k row uid u :
  wf_db (a_db s) ->
  (forall config taken params exchanged, c <> Public (Callback config taken params exchanged)) ->
  let s' := (serve cfg env headers c s).1 in
  auth_sessions (a_db s) !! k = None -> auth_sessions (a_db s') !! k = Some row ->
  s_user_id row = Some uid -> get uid (a_db s) = Some u -> u_totp_enabled u = true ->
  exists pending code entry, c = Public (LoginStep pending code) /\
    a_pending s !! pending = Some entry /\ pd_user_id entry = uid /\
    duration_since (e_instant env) (pd_started entry) < TTL /\ code_given env u code s.
Proof.
  intros Hwf Hcb s' Hk Hk' Hrow Hu Htotp.
  assert (tables fewer s s' -> False) as Hnew.
  { intros Hf. eapply lookup_weaken in Hk'; [|exact Hf]. congruence. }
  destruct c as [[code name password|name password|pending code|config taken params exchanged]|c].
  - destruct Hnew. apply leaves_state, respects_plain; [|by apply eq_fewer].
    apply respects_yields, respects_lift, respects_setup, _.
  - assert (leaves (login env (cf_demo cfg) name password) s (fun s1 => s1 = s' -> False)) as Hl.
    { eapply wp_mono; [apply login_opens|..]; intros ? s1 [Hf|(v & Hv & Ht & Ho)] ->; auto.
      all: destruct (Ho k row Hk') as [|Hv']; [congruence|].
      all: assert (v = u) as -> by (apply get_Some in Hu as [Hin Hid];
        eapply NoDup_fmap_inj_in; [apply Hwf|done..|congruence]).
      all: destruct (wf_totp _ Hwf u Hv Htotp) as [sec Hsec]; by rewrite Htotp, Hsec in Ht. }
    rewrite leaves_state in Hl. destruct Hl. apply serve_login.
  - assert (leaves (login_step env pending code) s (fun s1 => s1 = s' ->
      exists entry, a_pending s !! pending = Some entry /\ pd_user_id entry = uid /\
        duration_since (e_instant env) (pd_started entry) < TTL /\ code_given env u code s)) as Hl.
    { eapply wp_mono; [apply login_step_opens|..];
        intros ? s1 [Hf|(entry & v & He & Hd & Hv & _ & Hg & Ho)] ->; try by destruct Hnew.
      all: destruct (Ho k row Hk') as [|Hv']; [congruence|].
      all: pose proof (get_Some _ _ _ Hv) as [_ Hid].
      all: assert (v = u) as -> by congruence.
      all: exists entry; split_and!; try done; congruence. }
    rewrite leaves_state in Hl. destruct Hl as (entry & Hl); [unfold s'; by rewrite serve_login_step|].
    exists pending, code, entry. by split.
  - by destruct (Hcb config taken params exchanged).
  - destruct Hnew. apply leaves_state. apply (respects_guarded (tables fewer)); [intros..|by apply eq_fewer].
    + apply respects_update_account; apply _.
    + apply respects_delete_account; apply _.
Qed.

(** A sign-in that waits for its code, on an instance whose administrator has enrolled; the
    digits of every step are zeros under [plain_crates]. *)
Definition at_ (t : Z) (session : string) : Env :=
  {| e_now := td_seconds t; e_instant := td_seconds t; e_ip := None; e_draw := 9; e_salt := "";
     e_session := {| st_id := session; st_secret := "s" |}; e_pending := "p";
     e_secret := replicate 20 7; e_nonce := replicate 12 0; e_codes := replicate 8 (replicate 10 3) |}.
Definition browser (session : string) : HeaderMap :=
  [("x-requested-with", "DumbMonit"); ("cookie", ("dumbmonit_session=" +:+ session +:+ ".s")%string)].
Definition enrolled_run : list Step :=
  [(at_ 10 "a", [], Public (Setup "abcdefghjk" None "correct horse"));
   (at_ 20 "a", [], Public (Login None "correct horse"));
   (at_ 30 "x", browser "a", Guarded (TotpEnroll "correct horse"));
   (at_ 40 "x", browser "a", Guarded (TotpVerify "000000"));
   (at_ 50 "b", [], Public (Login None "correct horse"))].
Definition waiting_state : AuthState := @run plain_crates test_config enrolled_run fresh_state.

Lemma second_factor_cannot_be_skipped_witness :
  exists entry u, a_pending waiting_state !! "p" = Some entry /\ pd_user_id entry = 1 /\
    @code_given plain_crates (at_ 120 "b") u "000 000" waiting_state.
Proof.
  assert (wf_db (a_db waiting_state)) as Hwf by apply (safe_run _ _ fresh_state), wf_no_accounts.
  destruct (get 1 (a_db waiting_state)) as [u|] eqn:Eu; [|exfalso; revert Eu; vm_compute; discriminate].
  pose (c := Public (LoginStep "p" "000 000")).
  destruct (auth_sessions (a_db (@serve plain_crates test_config (at_ 120 "b") [] c waiting_state).1) !! "b")
    as [row|] eqn:Erow; [|exfalso; revert Erow; vm_compute; discriminate].
  destruct (@second_factor_cannot_be_skipped plain_crates test_config (at_ 120 "b") [] c waiting_state
    "b" row 1 u Hwf ltac:(discriminate)) as (pending & code & entry & [= <- <-] & He & Hid & _ & Hg).
  - vm_compute. reflexivity.
  - exact Erow.
  - revert Erow. vm_compute. by intros [= <-].
  - exact Eu.
  - revert Eu. vm_compute. by intros [= <-].
  - exists entry, u. split_and!; [exact He|exact Hid|exact Hg].
Defined.

(** *** Wrong codes *)

(** The answers of [login_step] to a code it has checked and refused. *)
Definition wrong_answer (r : Failure + Answer) : bool :=
  match r with
  | inl (Refused (ByAuth (AuthError.Unauthorized m))) =>
      bool_decide (m ∈ ["Wrong code."; "Too many wrong codes: enter your password again to start over."])
  | _ => false
  end.

Definition wrong_step `{Crates} cfg (p : string) (step : Step) (s : AuthState) : bool :=
  match step.2 with
  | Public (LoginStep pending code) =>
      bool_decide (pending = p) && wrong_answer (serve cfg step.1.1 step.1.2 step.2 s).2
  | _ => false
  end.

(** How many of the codes of a run are refused for the sign-in [p]. *)
Fixpoint wrong_codes `{Crates} cfg (p : string) (steps : list Step) (s : AuthState) : Z :=
  match steps with
  | [] => 0
  | step :: steps =>
      (if wrong_step cfg p step s then 1 else 0) + wrong_codes cfg p steps (run_step cfg s step)
  end.

Section WrongCodes.
Context `{Crates} (cfg : Config) (p : string).

Lemma accept_code_budget env u code s :
  wp (accept_code env u code) (fun _ s' => budget p s' = budget p s)
     (fun e _ => wrong_answer (inl (Refused (ByAuth e))) = false) s.
Proof.
  unfold accept_code. destruct (looks_like_recovery_code code).
  - apply wp_bind, wp_call, wp_bind, wp_when; intros _; [apply wp_record; intros f|]; by apply wp_ret.
  - apply wp_bind, wp_ok_or; [|done]. intros data _. apply wp_bind, wp_ok_or; [|done].
    intros secret _. destruct (matching_step_at _ _ _ _); [|by apply wp_ret].
    apply wp_act. by destruct (replay_accept _ _ _).
Qed.

(** A sign-in whose code is refused had some budget and loses some. *)
Lemma login_step_budget env code s :
  wp (login_step env p code) (fun _ _ => True)
     (fun e s' => wrong_answer (inl (Refused (ByAuth e))) = true -> budget p s' + 1 <= budget p s) s.
Proof.
  unfold login_step. apply wp_bind, wp_act. unfold pending_lookup.
  destruct (a_pending s !! p) as [entry|] eqn:Ee; [|by apply wp_bind, wp_ok_or].
  destruct (Z.leb_spec TTL (duration_since (e_instant env) (pd_started entry)));
    cbn [fst snd]; [by apply wp_bind, wp_ok_or|].
  apply wp_bind, wp_ok_or; [|by intros]. intros uid _. apply wp_bind, wp_query, wp_bind, wp_ok_or; [|by intros].
  intros u _. cbv zeta. set (s1 := set_pending (a_pending s) s).
  assert (budget p s1 = budget p s) as Hs1 by done.
  assert (0 < budget p s) as Hpos by (unfold budget; rewrite Ee; lia). clearbody s1.
  apply wp_bind. unfold guard_attempt. apply wp_bind, wp_gets, wp_if_some; intros; [by apply wp_throw|].
  apply wp_bind. eapply wp_mono; [apply accept_code_budget| |by intros e s2 He; rewrite He].
  intros ok s2 Hs2. destruct ok; cbn [negb].
  - apply wp_bind, wp_modify, wp_bind, wp_modify. unfold open_session. repeat astep; done.
  - apply wp_bind, wp_modify, wp_bind, wp_act.
    set (s3 := on_limiter _ s2). assert (budget p s3 = budget p s) as Hs3 by (transitivity (budget p s1); [exact Hs2|exact Hs1]).
    pose proof (failure_budget p p s3) as [_ Hf]. specialize (Hf eq_refl). cbv zeta in Hf.
    destruct (pending_failure p (a_pending s3)) as [q w]. cbn [fst snd] in *.
    apply wp_bind, wp_record. intros f. apply wp_throw. intros _. rewrite <-Hs3.
    change (budget p (on_audit f (set_pending q s3))) with (budget p (set_pending q s3)). lia.
Qed.

Lemma budget_run_step env headers c s :
  e_pending env <> p ->
  budget p (run_step cfg s (env, headers, c)) + (if wrong_step cfg p (env, headers, c) s then 1 else 0)
  <= budget p s.
Proof.
  intros Hp. unfold wrong_step, run_step. cbn [fst snd].
  pose proof (calmer_signs_in p env Hp) as Hsig.
  assert (budget p (serve cfg env headers c s).1 <= budget p s) as Hle.
  { apply (leaves_state (serve cfg env headers c) s (calmer p s)), respects_serve; [apply _..| | | |unfold calmer; lia];
      intros; [apply respects_update_account|apply respects_delete_account|apply respects_map_identity];
      apply _. }
  destruct c as [[| |pending code|]|]; try lia.
  destruct (bool_decide_reflect (pending = p)) as [->|]; [|cbn [andb]; lia]. cbn [andb].
  destruct (wrong_answer _) eqn:Ew; [|lia].
  pose proof (login_step_budget env code s) as Hb. rewrite serve_login_step in Ew |- *.
  unfold wp in Hb. destruct (login_step env p code s) as [s' [e|a]]; [|done]. by apply Hb.
Qed.

Lemma wrong_codes_budget steps s :
  Forall (fun step => e_pending step.1.1 <> p) steps ->
  wrong_codes cfg p steps s + budget p (run cfg steps s) <= budget p s.
Proof.
  revert s. induction steps as [|[[env headers] c] steps IH]; intros s Hf; [simpl; lia|].
  apply Forall_cons in Hf as [Hp Hf]. cbn [wrong_codes run foldl fst] in *.
  pose proof (budget_run_step env headers c s Hp). specialize (IH (run_step cfg s (env, headers, c)) Hf).
  unfold run in IH. lia.
Qed.
End WrongCodes.

(** A password does not buy many codes: whoever has passed the first step of a sign-in
    sees at most five codes refused before the sign-in is gone and the password must be
    typed again, whatever else is called in between, provided no other sign-in draws the
    same ticket. *)
Theorem wrong_codes_wear_a_sign_in_out `{Crates} cfg env headers name password s s' p steps :
  serve cfg env headers (Public (Login name password)) s = (s', inr (CodeNeeded p)) ->
  Forall (fun step => e_pending step.1.1 <> p) steps ->
  wrong_codes cfg p steps s' <= MAX_FAILURES /\
  (wrong_codes cfg p steps s' = MAX_FAILURES -> a_pending (run cfg steps s') !! p = None).
Proof.
  intros Hs Hf. pose proof (wrong_codes_budget cfg p steps s' Hf) as Hb.
  assert (budget p s' = MAX_FAILURES) as Hs'.
  { apply (f_equal snd) in Hs as Hr. apply (f_equal fst) in Hs. cbn [fst snd] in Hs, Hr.
    assert (wp (serve cfg env headers (Public (Login name password)))
      (fun a s2 => forall q, a = CodeNeeded q -> budget q s2 = MAX_FAILURES) (fun _ _ => True) s) as Hw.
    { apply wp_plain, wp_yields, wp_lift. unfold login, guard_attempt, open_session, attempt_failed, attempt_succeeded.
      repeat astep; try done; intros q [= <-]; unfold budget, pending_start;
        cbn [a_pending set_pending]; by rewrite lookup_insert_eq. }
    apply wp_run in Hw. rewrite Hr, Hs in Hw. by apply Hw. }
  pose proof (budget_pos p (run cfg steps s')). split; [lia|]. intros Hm.
  assert (budget p (run cfg steps s') = 0) as Hz by lia. revert Hz. unfold budget.
  destruct (_ !! p); [lia|done].
Qed.

Definition other_ticket (t : Z) : Env :=
  {| e_now := td_seconds t; e_instant := td_seconds t; e_ip := None; e_draw := 9; e_salt := "";
     e_session := {| st_id := "z"; st_secret := "s" |}; e_pending := "q"; e_secret := []; e_nonce := [];
     e_codes := [] |}.

Lemma wrong_codes_wear_a_sign_in_out_witness :
  let s := @run plain_crates test_config (take 4 enrolled_run) fresh_state in
  let s' := (@serve plain_crates test_config (at_ 50 "b") [] (Public (Login None "correct horse")) s).1 in
  let steps := (fun t => (other_ticket t, [], Public (LoginStep "p" "123456"))) <$> [51; 52; 53; 54; 55; 56; 57] in
  @wrong_codes plain_crates test_config "p" steps s' = MAX_FAILURES /\
  a_pending (@run plain_crates test_config steps s') !! "p" = None.
Proof.
  intros s s' steps.
  assert (@wrong_codes plain_crates test_config "p" steps s' = MAX_FAILURES) as Hw by (vm_compute; reflexivity).
  split; [exact Hw|].
  apply (@wrong_codes_wear_a_sign_in_out plain_crates test_config (at_ 50 "b") [] None "correct horse" s s' "p" steps).
  - vm_compute. reflexivity.
  - unfold steps. repeat constructor; discriminate.
  - exact Hw.
Defined.

(** *** Passwords *)

(** Changing a password closes the other sessions: a change that succeeds proves the
    current password, stores the hash of a new one of at least twelve characters, closes
    every session of the account but the one that asks and touches no other; a change that
    is refused leaves the tables as they were. *)
Theorem password_change_closes_other_sessions `{Crates} env u current old new s s' r :
  wf_db (a_db s) -> get (u_id u) (a_db s) = Some u ->
  change_password env u current old new s = (s', r) ->
  match r with
  | inr _ =>
      (exists stored h v, u_password_hash u = Some stored /\ verify_password old stored = Some true /\
         validate new = None /\ hash_password (e_salt env) new = Some h /\
         get (u_id u) (a_db s') = Some v /\ u_password_hash v = Some h) /\
      forall k row, auth_sessions (a_db s') !! k = Some row <->
        auth_sessions (a_db s) !! k = Some row /\
        (s_user_id row = Some (u_id u) -> st_id <$> current = Some k)
  | inl _ => a_db s' = a_db s
  end.
Proof.
  intros Hwf Hu Hr.
  assert (wp (change_password env u current old new) (fun _ s' =>
      (exists stored h v, u_password_hash u = Some stored /\ verify_password old stored = Some true /\
         validate new = None /\ hash_password (e_salt env) new = Some h /\
         get (u_id u) (a_db s') = Some v /\ u_password_hash v = Some h) /\
      forall k row, auth_sessions (a_db s') !! k = Some row <->
        auth_sessions (a_db s) !! k = Some row /\
        (s_user_id row = Some (u_id u) -> st_id <$> current = Some k))
    (fun _ s' => a_db s' = a_db s) s) as Hw.
  2: { unfold wp in Hw. rewrite Hr in Hw. by destruct r. }
  unfold change_password, guard_attempt, attempt_failed, attempt_succeeded.
  repeat astep; try done. tables. split.
  - eexists _, _, _. split_and!; [done|..]; try done.
    + destruct a0; [done|]. by bools.
    + destruct (validate new); [done|reflexivity].
    + unfold delete_for_user, set_password_hash. destruct (st_id <$> current);
        (etransitivity; [apply get_update_user; [done|exact Hu]|]); by rewrite Z.eqb_refl.
    + done.
  - intros k row. unfold delete_for_user. destruct (st_id <$> current) as [id|]; simpl;
      rewrite map_lookup_filter_Some; simpl; split; intros [Hk Hs]; (split; [done|]).
    + intros Hid. f_equal. destruct (decide (k = id)); [done|]. by destruct Hs.
    + intros [Hid Hne]. apply Hs in Hid. congruence.
    + intros Hid. done.
    + intros Hid. by apply Hs in Hid.
Qed.

Lemma password_change_closes_other_sessions_witness :
  let s := @run plain_crates test_config (take 2 enrolled_run) fresh_state in
  let other := (@serve plain_crates test_config (at_ 25 "b") [] (Public (Login None "correct horse")) s).1 in
  let changed u := (@change_password plain_crates (at_ 40 "x") u
    (Some {| st_id := "a"; st_secret := "s" |}) "correct horse" "battery staple" other).1 in
  exists u, get 1 (a_db other) = Some u /\ is_Some (auth_sessions (a_db other) !! "b") /\
    is_Some (auth_sessions (a_db (changed u)) !! "a") /\ auth_sessions (a_db (changed u)) !! "b" = None.
Proof.
  intros s other changed.
  assert (wf_db (a_db other)) as Hwf by (apply (safe_run _
    [_; _; (at_ 25 "b", [], Public (Login None "correct horse"))] fresh_state), wf_no_accounts).
  destruct (get 1 (a_db other)) as [u|] eqn:Eu; [|exfalso; revert Eu; vm_compute; discriminate].
  exists u. pose proof (get_Some _ _ _ Eu) as [_ Hid].
  assert (get (u_id u) (a_db other) = Some u) as Hu by (by rewrite Hid).
  destruct (auth_sessions (a_db other) !! "a") as [ra|] eqn:Ea; [|exfalso; revert Ea; vm_compute; discriminate].
  destruct (auth_sessions (a_db other) !! "b") as [rb|] eqn:Eb; [|exfalso; revert Eb; vm_compute; discriminate].
  destruct (@change_password plain_crates (at_ 40 "x") u (Some {| st_id := "a"; st_secret := "s" |})
    "correct horse" "battery staple" other) as [s' [e|ok]] eqn:Ec.
  { exfalso. apply (f_equal snd) in Ec. revert Ec.
    assert (u_password_hash u = Some "correct horse") as Hh by (revert Eu; vm_compute; by intros [= <-]).
    destruct u; cbn in Hh. subst. vm_compute. discriminate. }
  destruct (@password_change_closes_other_sessions plain_crates (at_ 40 "x") u
    (Some {| st_id := "a"; st_secret := "s" |}) "correct horse" "battery staple" other s' (inr ok) Hwf Hu Ec) as [_ Hs].
  split_and!; [done|by eexists|..].
  - exists ra. unfold changed. rewrite Ec. apply Hs. split; [exact Ea|]. done.
  - unfold changed. rewrite Ec. cbn [fst]. destruct (auth_sessions (a_db s') !! "b") as [row|] eqn:Er; [|done].
    apply Hs in Er as [Er Hcur]. rewrite Hid in Hcur. revert Er Hcur. vm_compute.
    intros [= <-] Hcur. by specialize (Hcur eq_refl).
Defined.
