(* ===== verification/AccountFacts.v ===== *)
(** * What administration and single sign-on may do to an account

    Claims about [UsersApi.v] and [Oidc.v]: what an update leaves behind when it is refused
    or when it crosses another one, which account an identity of the provider may take over
    and what its first sign-in does to an instance not set up yet. *)
From Stdlib Require Import Ascii.
From Stdlib Require String.
From S2P Require Import Prelude Text Chrono RateLimit Totp Handler Accounts ApiToken Auth Guard Login UsersApi Oidc Server Effects ServerFacts.

(** ** Administration *)

Section Administration.
Context `{Crates}.

(** The row of an account after a statement that keeps what it is asked about. *)
Lemma get_set_role id role d u :
  get id d = Some u -> get id (set_role id role d) = Some (with_role role u).
Proof.
  intros Hu. pose proof (get_Some _ _ _ Hu) as [_ Hid].
  unfold set_role. rewrite (get_update_user id (with_role role) d id u); [|done|done].
  by rewrite Hid, Z.eqb_refl.
Qed.

(** The reads of an update leave the state as it was. *)
Lemma update_check_state me id payload s : (update_check me id payload s).1 = s.
Proof.
  apply (leaves_state (update_check me id payload) s (fun s' => s' = s)).
  unfold leaves, update_check, load. repeat astep; try done.
Qed.

Lemma update_check_passes me id payload user s :
  get id (a_db s) = Some user ->
  (loses_admin user payload = true -> 1 < active_admin_count (a_db s)) ->
  up_disabled payload = None ->
  (update_check me id payload s).2 = inr user.
Proof.
  intros Hu Hl Hd. assert (wp (update_check me id payload)
    (fun a _ => a = user) (fun _ _ => False) s) as Hw.
  { unfold update_check, load. rewrite Hd. repeat astep; try congruence; try done.
    assert (a = user) as -> by congruence. specialize (Hl ltac:(done)). lia. }
  unfold wp in Hw. destruct (update_check _ _ _ s) as [? [e|a]]; [done|]. cbn. by subst.
Qed.
End Administration.

(** A refused update is not undone: an update that gives another role and a password
    too short is answered as invalid, and yet the account has the new role from then on; the
    change leaves no line in the audit log. *)
Theorem refused_update_has_taken_effect `{Crates} env me id payload user role password reason s :
  (update_check me id payload s).2 = inr user -> get id (a_db s) = Some user ->
  up_display_name payload = None ->
  up_role payload = Some role -> role <> u_role user ->
  up_password payload = Some password -> password <> "" -> validate password = Some reason ->
  exists s', update_account env me id payload s = (s', inl (AuthError.Invalid reason)) /\
    (exists v, get id (a_db s') = Some v /\ u_role v = role) /\ a_audit s' = a_audit s.
Proof.
  intros Hc Hu Hn Hr Hne Hp Hpe Hv. pose proof (update_check_state me id payload s) as Hs.
  exists (on_db (set_role id role) s). split_and!; [|by eexists; split; [by apply get_set_role|]|done].
  unfold update_account, mbind, Handler_bind at 1.
  destruct (update_check me id payload s) as [s0 r]. cbn in Hc, Hs. subst.
  unfold update_apply, given_password. rewrite Hn, Hr, Hp. cbn [if_some option_filter].
  rewrite (bool_decide_eq_false_2 _ Hne), (bool_decide_eq_false_2 _ Hpe). cbn [negb if_some].
  rewrite Hv. reflexivity.
Qed.

(** *** Updates that cross *)

Definition demotion : UpdatePayload :=
  {| up_display_name := None; up_role := Some Role.Viewer; up_disabled := None; up_password := None |}.

Section Crossing.
Context `{Crates}.

(** The writes of a demotion change the role of one row. *)
Lemma demotion_writes env me id user s :
  u_role user = Role.Admin ->
  leaves (update_apply env me id demotion user) s (fun s' => a_db s' = set_role id Role.Viewer (a_db s)).
Proof.
  intros Hr. unfold leaves, update_apply, demotion. cbn [up_display_name up_role up_disabled up_password].
  assert (option_filter (fun role => negb (bool_decide (role = u_role user))) (Some Role.Viewer)
          = Some Role.Viewer) as -> by by rewrite Hr.
  cbn [if_some option_filter given_password]. unfold load.
  repeat astep; try done; tables; congruence.
Qed.

Lemma demoted_is_viewer id d u :
  u ∈ users (set_role id Role.Viewer d) -> active_admin u = true -> u ∈ users d /\ u_id u <> id.
Proof.
  unfold set_role. intros (v & Hv & ->)%elem_of_update_where Ha.
  destruct (Z.eqb_spec (u_id v) id); done.
Qed.

(** Two administrators count for two. *)
Lemma two_admins a b d :
  wf_db d -> get (u_id a) d = Some a -> get (u_id b) d = Some b -> u_id a <> u_id b ->
  active_admin a = true -> active_admin b = true -> 1 < active_admin_count d.
Proof.
  intros Hwf Ha Hb Hne Haa Hab. apply get_Some in Ha as [Ha _]. apply get_Some in Hb as [Hb _].
  unfold active_admin_count.
  assert (NoDup [a; b]) as Hnd.
  { apply NoDup_cons. split; [|apply NoDup_singleton]. intros ->%list_elem_of_singleton. done. }
  assert ([a; b] ⊆+ filter (fun u => active_admin u = true) (users d)) as Hs.
  { apply NoDup_submseteq; [done|]. intros u Hu. apply list_elem_of_filter.
    apply elem_of_cons in Hu as [-> | ->%list_elem_of_singleton]; done. }
  apply submseteq_length in Hs. simpl in Hs. lia.
Qed.

End Crossing.

(** The last administrator is guarded within a request, not across two: when the only
    two administrators demote each other at the same time, both checks count two of them
    and pass, and the writes of both leave an instance with no active administrator. *)
Theorem crossing_demotions_leave_no_admin `{Crates} env1 env2 a b s :
  wf_db (a_db s) ->
  get (u_id a) (a_db s) = Some a -> get (u_id b) (a_db s) = Some b -> u_id a <> u_id b ->
  active_admin a = true -> active_admin b = true ->
  (forall u, u ∈ users (a_db s) -> active_admin u = true -> u = a \/ u = b) ->
  (update_check a (u_id b) demotion s).2 = inr b /\
  (update_check b (u_id a) demotion s).2 = inr a /\
  let s1 := (update_apply env1 a (u_id b) demotion b s).1 in
  let s2 := (update_apply env2 b (u_id a) demotion a s1).1 in
  ~ has_admin (a_db s2).
Proof.
  intros Hwf Ha Hb Hne Haa Hab Honly. pose proof (two_admins a b _ Hwf Ha Hb Hne Haa Hab) as Hc.
  split_and!; [by apply update_check_passes..|]. intros s1 s2 (u & Hu & Hua).
  assert (u_role a = Role.Admin /\ u_role b = Role.Admin) as [Hra Hrb].
  { unfold active_admin in Haa, Hab. by destruct (u_role a), (u_role b). }
  pose proof (demotion_writes env1 a (u_id b) b s Hrb) as H1. rewrite leaves_state in H1. fold s1 in H1.
  pose proof (demotion_writes env2 b (u_id a) a s1 Hra) as H2. rewrite leaves_state in H2. fold s2 in H2.
  rewrite H2 in Hu. apply demoted_is_viewer in Hu as [Hu Hna]; [|done].
  rewrite H1 in Hu. apply demoted_is_viewer in Hu as [Hu Hnb]; [|done].
  by destruct (Honly u Hu Hua) as [-> | ->].
Qed.

(** Two administrators, the second with a password of its own. *)
Definition with_second (role : Role) : AuthState :=
  @run plain_crates test_config (take 2 enrolled_run ++
    [(at_ 30 "x", browser "a", Guarded (CreateUser
       {| cp_username := "bob"; cp_display_name := None; cp_role := role;
          cp_password := Some "battery staple" |}))]) fresh_state.

Lemma with_second_wf role : wf_db (a_db (with_second role)).
Proof. apply (safe_run _ _ fresh_state), wf_no_accounts. Qed.

Lemma refused_update_has_taken_effect_witness :
  exists me bob s', get 1 (a_db (with_second Role.Operator)) = Some me /\
    get 2 (a_db (with_second Role.Operator)) = Some bob /\ u_role bob = Role.Operator /\
    (@update_account plain_crates (at_ 40 "x") me 2
      {| up_display_name := None; up_role := Some Role.Admin; up_disabled := None;
         up_password := Some "short" |} (with_second Role.Operator)).1 = s' /\
    exists v, get 2 (a_db s') = Some v /\ u_role v = Role.Admin.
Proof.
  destruct (get 1 (a_db (with_second Role.Operator))) as [me|] eqn:Eme; [|exfalso; revert Eme; vm_compute; discriminate].
  destruct (get 2 (a_db (with_second Role.Operator))) as [bob|] eqn:Eb; [|exfalso; revert Eb; vm_compute; discriminate].
  assert (u_role bob = Role.Operator) as Hrole by (revert Eb; vm_compute; by intros [= <-]).
  edestruct (@refused_update_has_taken_effect plain_crates (at_ 40 "x") me 2
    {| up_display_name := None; up_role := Some Role.Admin; up_disabled := None; up_password := Some "short" |}
    bob Role.Admin "short") as (s' & He & Hv & _).
  - apply update_check_passes; [exact Eb| |reflexivity]. unfold loses_admin. by rewrite Hrole.
  - exact Eb.
  - reflexivity.
  - reflexivity.
  - rewrite Hrole. discriminate.
  - reflexivity.
  - discriminate.
  - vm_compute. reflexivity.
  - exists me, bob, s'. split_and!; [done..| |exact Hv]. by rewrite He.
Defined.

Lemma crossing_demotions_leave_no_admin_witness :
  exists ada bob, get 1 (a_db (with_second Role.Admin)) = Some ada /\
    get 2 (a_db (with_second Role.Admin)) = Some bob /\
    ~ has_admin (a_db (@update_apply plain_crates (at_ 41 "x") bob 1 demotion ada
        (@update_apply plain_crates (at_ 40 "x") ada 2 demotion bob (with_second Role.Admin)).1).1).
Proof.
  destruct (get 1 (a_db (with_second Role.Admin))) as [ada|] eqn:Ea; [|exfalso; revert Ea; vm_compute; discriminate].
  destruct (get 2 (a_db (with_second Role.Admin))) as [bob|] eqn:Eb; [|exfalso; revert Eb; vm_compute; discriminate].
  pose proof (get_Some _ _ _ Ea) as [Hina Hida]. pose proof (get_Some _ _ _ Eb) as [Hinb Hidb].
  exists ada, bob. split_and!; [done..|].
  pose proof (@crossing_demotions_leave_no_admin plain_crates (at_ 40 "x") (at_ 41 "x") ada bob
    (with_second Role.Admin) (with_second_wf _)) as H. rewrite Hida, Hidb in H.
  apply H; [exact Ea|exact Eb|discriminate|..].
  - revert Ea. vm_compute. by intros [= <-].
  - revert Eb. vm_compute. by intros [= <-].
  - intros u Hu _. assert (u_id u = 1 \/ u_id u = 2) as [Hi | Hi].
    { assert (forallb (fun u => (u_id u =? 1) || (u_id u =? 2)) (users (a_db (with_second Role.Admin))) = true)
        as Hall by (vm_compute; reflexivity).
      rewrite forallb_forall in Hall. apply list_elem_of_In in Hu. specialize (Hall u Hu). lia. }
    + left. apply (NoDup_fmap_inj_in u_id (users (a_db (with_second Role.Admin)))); [apply with_second_wf|done..|congruence].
    + right. apply (NoDup_fmap_inj_in u_id (users (a_db (with_second Role.Admin)))); [apply with_second_wf|done..|congruence].
Defined.

(** ** Single sign-on *)

Lemma insert_seq now n d :
  match (insert now n d).2 with
  | Some (Some id) => id = users_seq d + 1
  | _ => (insert now n d).1 = d
  end.
Proof. unfold insert. destruct (username_taken _ _); [done|]. by destruct (subject_taken _ _ _). Qed.

(** An account that is created is not one there was. *)
Lemma create_attempts_fresh env issuer base display_name claims role attempts s :
  wp (create_attempts env issuer base display_name claims role attempts)
     (fun user _ => users_seq (a_db s) < u_id user) (fun _ _ => True) s.
Proof.
  revert s. induction attempts as [|k attempts IH]; intros s; [by apply wp_throw|].
  cbn [create_attempts]. apply wp_bind. unfold wp at 1, call_, act.
  set (n := {| nu_username := _ |}). pose proof (insert_seq (e_now env) n (a_db s)) as Hn.
  destruct (insert (e_now env) n (a_db s)) as [d o]. cbn [fst snd] in Hn.
  apply wp_bind, wp_ok_or; [|done]. intros [id|] ->; cbv beta iota.
  - apply wp_bind, wp_gets, wp_ok_or; [|done]. intros u Hu. apply get_Some in Hu as [_ Hid]. lia.
  - subst d. specialize (IH (on_db (fun _ => a_db s) s)). exact IH.
Qed.

(** What makes an account that has never signed in through the provider one it may sign
    in to. *)
Definition may_link (claims : IdTokenClaims) (d : AuthDb) (v : User) : Prop :=
  u_oidc_subject v = None /\
  ~ (Role.is_admin (u_role v) = true /\ is_Some (u_password_hash v)) /\
  cl_email_verified claims = Some true /\
  exists email, cl_email claims = Some email /\ trim email <> "" /\ by_username (trim email) d = Some v.

Lemma find_linkable_Some claims d v : find_linkable claims d = Some v -> may_link claims d v.
Proof.
  unfold find_linkable, verified_email.
  destruct (bool_decide_reflect (cl_email_verified claims = Some true)) as [He|]; [|done]. cbn [negb].
  destruct (cl_email claims) as [email|] eqn:Em; [|done]. simpl.
  destruct (bool_decide_reflect (trim email = "")); [done|]. simpl.
  destruct (by_username (trim email) d) as [u|] eqn:Eu; [|done]. simpl.
  destruct (bool_decide_reflect (is_Some (u_oidc_subject u))) as [|Hs]; [done|].
  destruct (Role.is_admin (u_role u)) eqn:Ea; simpl.
  - destruct (bool_decide_reflect (is_Some (u_password_hash u))) as [|Hp]; [done|]. intros [= <-].
    split_and!; [|intros [_ ?]; done|done|by exists email]. destruct (u_oidc_subject u); [|done].
    destruct Hs. by eexists.
  - intros [= <-]. split_and!; [|intros [? _]; congruence|done|by exists email].
    destruct (u_oidc_subject u); [|done]. destruct Hs. by eexists.
Qed.

(** Single sign-on takes over no administrator: an identity the instance has not seen
    signs in to an account that was already there only when the provider vouches for an
    address that is the name of this account, the account is linked to no other identity and
    it is not an administrator with a password. *)
Theorem sso_takes_over_no_administrator env config claims s s' u v :
  wf_db (a_db s) -> by_oidc (oc_issuer config) (cl_sub claims) (a_db s) = None ->
  map_identity env config claims s = (s', inr u) -> get (u_id u) (a_db s) = Some v ->
  may_link claims (a_db s) v.
Proof.
  intros Hwf Hk Hm. revert v.
  assert (wp (map_identity env config claims)
    (fun u _ => forall v, get (u_id u) (a_db s) = Some v -> may_link claims (a_db s) v)
    (fun _ _ => True) s) as Hw; [|unfold wp in Hw; by rewrite Hm in Hw].
  unfold map_identity. cbv zeta. apply wp_bind, wp_gets. rewrite Hk. apply wp_bind.
  eapply (wp_mono _ (fun u _ => forall v, get (u_id u) (a_db s) = Some v -> may_link claims (a_db s) v) _
    (fun _ _ => True)); [| |done].
  - apply wp_bind, wp_gets. destruct (find_linkable claims (a_db s)) as [w|] eqn:El.
    + apply wp_bind. unfold wp at 1, call_, act. destruct (link_oidc _ _ _ _).
      apply wp_bind, wp_ok_or; [|done]. intros _ _. apply wp_ret. intros v Hv.
      pose proof (find_linkable_Some _ _ _ El) as Hlink.
      assert (v = w) as ->; [|done]. apply get_Some in Hv as [Hv Hid].
      eapply NoDup_fmap_inj_in; [apply Hwf|done| |done].
      destruct Hlink as (_ & _ & _ & e & _ & _ & Hb). by apply first_where_Some in Hb as [? _].
    + apply wp_bind, wp_refuse_if; [done|]. intros _. unfold create_account.
      eapply wp_mono; [apply create_attempts_fresh| |done]. intros u' ? Hseq v Hv.
      apply get_Some in Hv as [Hv Hid]. pose proof (wf_seq _ Hwf v Hv). cbv beta in Hseq. exfalso. lia.
  - intros u' s1 Hu'. destruct (option_filter _ _) as [role|]; [|by apply wp_ret].
    apply wp_bind. destruct (Role.is_admin _); [apply wp_gets|apply wp_ret];
      [destruct (_ <=? _); [by apply wp_ret|]|]; by apply wp_bind, wp_modify, wp_ret.
Qed.

(** An account whose name is an address, an identity the provider vouches for. *)
Definition groups_config (auto_create : bool) : OidcConfig :=
  {| oc_enabled := true; oc_issuer := "https://id.example"; oc_groups_claim := "groups";
     oc_admin_groups := []; oc_operator_groups := []; oc_auto_create := auto_create |}.
Definition bob_claims : IdTokenClaims :=
  {| cl_sub := "42"; cl_preferred_username := Some "ada"; cl_email := Some "bob@example.org";
     cl_email_verified := Some true; cl_name := None; cl_extra := ∅ |}.
Definition bob_state : AuthState :=
  @run plain_crates test_config (take 2 enrolled_run ++
    [(at_ 30 "x", browser "a", Guarded (CreateUser
       {| cp_username := "bob@example.org"; cp_display_name := None; cp_role := Role.Viewer;
          cp_password := Some "battery staple" |}))]) fresh_state.

Lemma sso_takes_over_no_administrator_witness :
  exists v, get 2 (a_db bob_state) = Some v /\ may_link bob_claims (a_db bob_state) v.
Proof.
  destruct (get 2 (a_db bob_state)) as [v|] eqn:Ev; [|exfalso; revert Ev; vm_compute; discriminate].
  exists v. split; [done|].
  destruct (map_identity (at_ 60 "y") (groups_config false) bob_claims bob_state) as [s' [e|u]] eqn:Em.
  { exfalso. apply (f_equal snd) in Em. revert Em. vm_compute. discriminate. }
  apply (sso_takes_over_no_administrator (at_ 60 "y") (groups_config false) bob_claims bob_state s' u v).
  - apply (safe_run _ _ fresh_state), wf_no_accounts.
  - vm_compute. reflexivity.
  - exact Em.
  - assert (u_id u = 2) as ->; [|exact Ev]. apply (f_equal snd) in Em. revert Em. vm_compute. by intros [= <-].
Defined.

(** *** The first sign-in of an instance *)

Section FirstSignIn.
Context `{Crates}.

Definition no_admins (d : AuthDb) : Prop := forall u, u ∈ users d -> active_admin u = false.

Lemma no_admins_none d : no_admins d -> ~ has_admin d.
Proof. intros Hn (u & Hu & Ha). specialize (Hn u Hu). congruence. Qed.

Lemma no_admins_update id f d :
  (forall u, active_admin u = false -> active_admin (f u) = false) ->
  no_admins d -> no_admins (update_user id f d).
Proof.
  intros Hf Hn u (v & Hv & ->)%elem_of_update_where. destruct (_ =? _); auto.
Qed.

Lemma no_admins_insert now n d :
  Role.is_admin (nu_role n) = false -> no_admins d -> no_admins (insert now n d).1.
Proof.
  intros Hr Hn. unfold insert. destruct (username_taken _ _); [done|].
  destruct (subject_taken _ _ _); [done|]. intros u. cbn [fst add_user users].
  intros [Hu | ->%list_elem_of_singleton]%elem_of_app; [auto|]. unfold active_admin. simpl. by rewrite Hr.
Qed.

Lemma create_attempts_no_admins env issuer base display_name claims role attempts s :
  Role.is_admin role = false -> no_admins (a_db s) ->
  wp (create_attempts env issuer base display_name claims role attempts)
     (fun _ s' => no_admins (a_db s')) (fun _ s' => no_admins (a_db s')) s.
Proof.
  intros Hr. revert s. induction attempts as [|k attempts IH]; intros s Hn; [by apply wp_throw|].
  cbn [create_attempts]. apply wp_bind. unfold wp at 1, call_, act.
  set (n := {| nu_username := _ |}). pose proof (no_admins_insert (e_now env) n (a_db s) Hr Hn) as Hn'.
  destruct (insert (e_now env) n (a_db s)) as [d o]. cbn [fst] in Hn'.
  apply wp_bind, wp_ok_or; [|by tables]. intros [id|] ->; cbv beta iota.
  - apply wp_bind, wp_gets, wp_ok_or; tables; [by intros|done].
  - by apply IH.
Qed.

(** Without a group of administrators no group makes one. *)
Lemma role_for_no_admin groups operator_groups current role :
  role_for_groups groups [] operator_groups current = Some role -> Role.is_admin role = false.
Proof.
  unfold role_for_groups. destruct (bool_decide ([] = []) && _); [done|].
  assert (existsb (fun group => bool_decide (group ∈ [])) groups = false) as ->.
  { apply not_true_is_false. intros (g & _ & Hg%bool_decide_eq_true)%existsb_exists. by apply elem_of_nil in Hg. }
  destruct (_ && _); [done|]. intros [= <-]. by destruct (existsb _ _).
Qed.

Lemma map_identity_no_admins env config claims s :
  oc_admin_groups config = [] -> no_admins (a_db s) ->
  leaves (map_identity env config claims) s (fun s' => no_admins (a_db s')).
Proof.
  intros Hg Hn. unfold leaves, map_identity. cbv zeta. rewrite Hg. apply wp_bind, wp_gets, wp_bind.
  eapply (wp_mono _ (fun _ s' => no_admins (a_db s')) _ (fun _ s' => no_admins (a_db s'))).
  - destruct (by_oidc _ _ _); [by apply wp_ret|]. apply wp_bind, wp_gets.
    destruct (find_linkable claims (a_db s)) as [w|].
    + apply wp_bind. unfold wp at 1, call_, act.
      assert (no_admins (link_oidc (u_id w) (oc_issuer config) (cl_sub claims) (a_db s)).1) as Hl.
      { unfold link_oidc. destruct (subject_taken _ _ _); [done|]. by apply no_admins_update. }
      destruct (link_oidc _ _ _ _). apply wp_bind, wp_ok_or; [intros _ _; apply wp_ret|intros _]; exact Hl.
    + apply wp_bind, wp_refuse_if; [done|]. intros _. unfold create_account.
      apply create_attempts_no_admins; [|done].
      destruct (role_for_groups _ [] _ None) as [role|] eqn:Er; [|done]. by apply role_for_no_admin in Er.
  - intros u s1 Hn1. destruct (option_filter _ _) as [role|] eqn:Er; [|by apply wp_ret].
    assert (Role.is_admin role = false) as Hrole.
    { destruct (role_for_groups _ [] _ _) as [r|] eqn:Ero; [|done]. simpl in Er.
      destruct (negb _); [|done]. injection Er as <-. by apply role_for_no_admin in Ero. }
    apply wp_bind. destruct (Role.is_admin (u_role u)); [apply wp_gets|apply wp_ret];
      [destruct (_ <=? _); [by apply wp_ret|]|]; apply wp_bind, wp_modify, wp_ret;
      apply no_admins_update; [|done| |done]; intros v _; unfold active_admin; simpl; by rewrite Hrole.
  - done.
Qed.
End FirstSignIn.

(** A first sign-in through the provider closes the setup: on an instance with no
    account yet, a provider with no group of administrators whose identity is let in leaves
    accounts of which none administers, and the creation of the first administrator is
    refused from then on whatever code is given. *)
Theorem first_sso_sign_in_closes_the_setup `{Crates} env config taken params exchanged s s' answer :
  users (a_db s) = [] -> oc_admin_groups config = [] ->
  callback env config taken params exchanged s = (s', inr answer) ->
  ~ has_admin (a_db s') /\
  forall env' expected code name password,
    (setup env' expected code name password s').2 = inl already_configured.
Proof.
  intros Hu Hg Hs.
  assert (no_admins (a_db s)) as Hn by (intros u; rewrite Hu; by intros ?%elem_of_nil).
  assert (wp (callback env config taken params exchanged)
    (fun _ s' => no_admins (a_db s') /\ a_configured s' = Configured.PRESENT) (fun _ _ => True) s) as Hw.
  { unfold callback, finish, write. repeat (hstep; try done).
    - eapply wp_mono; [by apply map_identity_no_admins| |done].
      intros u s1 Hn1. repeat (hstep; try done). cbv beta iota. unfold wp at 1, call_, act.
      set (s2 := on_db _ _). assert (no_admins (a_db s2)) as Hn2 by by apply no_admins_update.
      assert (users (create sha256 (e_now env) (u_id u) (e_session env) (a_db s2)).1 = users (a_db s2)) as Husers
        by (unfold create; repeat case_match; reflexivity).
      destruct (create _ _ _ _ _) as [d o]. repeat (hstep; try done). split; [|reflexivity].
      intros v. tables. simpl in Husers. rewrite Husers. apply Hn2. }
  unfold wp in Hw. rewrite Hs in Hw. destruct Hw as [Hn' Hc]. split; [by apply no_admins_none|].
  assert ((is_configured : H bool) s' = (s', inr true)) as Hp
    by (unfold is_configured, mbind, Handler_bind, gets; cbv beta iota; by rewrite Hc).
  intros. unfold setup, mbind at 1, Handler_bind at 1. by rewrite Hp.
Qed.

Definition first_params : CallbackParams :=
  {| cb_code := Some "code"; cb_state := Some "state"; cb_error := None; cb_error_description := None |}.
Definition first_pending : Oidc.Pending :=
  {| pe_nonce := "n"; pe_verifier := "v"; pe_redirect_uri := "/"; pe_redirect := None; pe_started_at := 0 |}.

Lemma first_sso_sign_in_closes_the_setup_witness :
  exists s', (@callback plain_crates (at_ 60 "y") (groups_config true) (Some first_pending) first_params
                (inr bob_claims) fresh_state).1 = s' /\
    ~ has_admin (a_db s') /\
    (@setup plain_crates (at_ 70 "z") "ABCDE-FGHJK" "ABCDE-FGHJK" None "correct horse" s').2
      = inl already_configured.
Proof.
  destruct (@callback plain_crates (at_ 60 "y") (groups_config true) (Some first_pending) first_params
              (inr bob_claims) fresh_state) as [s' [e|answer]] eqn:Ec.
  { exfalso. apply (f_equal snd) in Ec. revert Ec. vm_compute. discriminate. }
  destruct (@first_sso_sign_in_closes_the_setup plain_crates (at_ 60 "y") (groups_config true)
    (Some first_pending) first_params (inr bob_claims) fresh_state s' answer eq_refl eq_refl Ec) as [Hn Hs].
  exists s'. split_and!; [done|exact Hn|]. exact (Hs _ _ _ _ _).
Defined.
